(* ===== verification/_CoqProject ===== *)
-Q . S2P
Prelude.v
CString.v
CStdlib.v
Stdio.v
StdioProps.v
Ports.v
Time.v
TimeProps.v
RingBuffer.v
Pmm.v
Paging.v
PagingProps.v
VmmProps.v
Process.v
ProcessProps.v
BlockDev.v
FatBpb.v
Gpt.v
FatCluster.v
GptProps.v
Pci.v
Ahci.v
AhciProps.v
Satapi.v
Disk.v
DiskProps.v
FatMount.v
FatDir.v
FatFile.v
FatChain.v
FatChainProps.v
FatFileProps.v
FatDirProps.v
FatMountProps.v
Serial.v
Vga.v
Fonts.v
VgaTerm.v
SerialProps.v
VgaProps.v
VgaTermProps.v
Irq.v
Keyboard.v
KeyboardProps.v
Iso9660.v
Iso9660Props.v
Descriptors.v
Intc.v
IntProps.v
Mouse.v
MouseProps.v
PciProps.v
Acpi.v
AcpiProps.v
Timers.v
TimersProps.v
UserMode.v
UserModeProps.v
Vsfs.v
VsfsProps.v
Ext2.v
Ext2Props.v
Ext2MountProps.v
Vfs.v
VfsProps.v
Syscall.v
SyscallProps.v
UserLib.v
UserLibProps.v
Shell.v
ShellProps.v
Installer.v
InstallerProps.v
Ethernet.v
EthernetProps.v
