(* ===== verification/Prelude.v ===== *)
(** A verification of KeblaOS, a 64-bit x86 operating system in C: the kernel
    (kernel/src) and the library and shell of its user programs (module/).

    * The program and its parts

    The kernel boots from Limine, detects memory (memory/detect_memory.c),
    hands out physical memory (kmalloc.c, pmm.c), builds page tables on it
    (paging.c, vmm.c) and two page heaps on those (kheap.c, uheap.c).  It loads
    descriptor tables (arch/gdt, arch/interrupt), finds the devices of the PCI
    bus (driver/pci, sys/controllers) and the ACPI tables (sys/acpi), programs
    interrupt controllers and timers (arch/interrupt, sys/timer), keyboard and
    mouse, and draws on a frame buffer (driver/vga).  Processes and threads
    (process/) are linked structures in the kernel heap, switched by a timer.

    Disks (driver/disk/disk.c) are reached through AHCI (ahci.c, sata_disk.c,
    satapi.c).  Above them are partition tables (gpt.c, mbr.c, guid.c) and four
    file systems: FAT32 (fs/fat32_fs/src), ISO 9660, ext2 and VSFS.  The virtual
    file system (vfs/vfs.c) dispatches to FAT32 and ISO 9660, system calls
    (syscall/) to the virtual file system and the rest of the kernel, and the
    user library (module/libc) to the system calls; the shell (module/
    user_program/user_shell.c) is written with the library.  The installer
    (installer/installer.c) copies the system from an optical disk to a FAT32
    volume it makes.

    * Files

    A component's code is in one file and its theorems in that file or in the
    one with Props in its name, with small instances that run.

    - [Prelude]: machine integers at their width, byte buffers, the monad [M]
      of C code over a state (results: returned, undefined, halted, out of
      fuel), its total-correctness [wp], loops, shared tactics and lemmas.
    - [CString] (lib/string.c, lib/ctype.c), [CStdlib] (lib/stdlib.c), [Stdio]
      (lib/stdio.c), [Time] (lib/time.c, sys/timer/rtc.c): the C library, over
      a memory of bytes; [Ports] (driver/io/ports.c): port accesses as a class.
    - [RingBuffer] (driver/keyboard/ring_buffer.c): the ring buffer, its
      bounded-queue specification and the refinement between them.
    - [Pmm] (detect_memory.c, kmalloc.c, pmm.c): the state [mm] with physical
      memory as 64-bit words, in which the frame bitmap and the page tables
      live; the placement allocators; the frame bitmap and its representation
      [pmm_rep].
    - [Paging] (paging.c, vmm.c, kheap.c, uheap.c): entries as bit fields of
      words, get_page, map_page, vm_alloc, the heaps.  [PagingProps]: the
      hardware's four-level walk over tables of 4 KB pages as specification (no
      entry of the upper levels has the large-page bit, which the code does not
      look at), the invariant of the tables
      ([tables_wf]), frames, get_page and vm_alloc against it.  [VmmProps]:
      map_page, the kernel heap, and a small machine.
    - [Process] (process.c, thread.c): structures by address and the globals.
      [ProcessProps]: the lists ([seg]), the table invariant ([table_ok], and
      [lists_ok] without the current process), reachability by every operation
      with defined behaviour ([kstep]) and the scheduler.
    - [Pci] (pci.c, controllers), [Acpi] (acpi.c and the descriptor tables),
      [Timers] (PIT, APIC timer, TSC, HPET), [Descriptors] (GDT, TSS, IDT),
      [Intc] (PIC, APIC, I/O APIC, IPI), [Irq] (irq_manage.c), [Keyboard],
      [Mouse], [Serial], [Vga], [Fonts], [VgaTerm]: the machine and its
      devices.  Hardware is a class of register accesses with laws that state
      what the data sheets say.
    - [Ethernet] (ethernet_i217.c): the card as a class, the two rings.
    - [Ahci], [Satapi], [Disk]: the AHCI driver over memory that the adapter
      reads and writes on its own, and the disk layer.  The processor reaches
      memory through [translate]: the driver takes an address less the offset
      of the direct map for the physical one, which is right for pages of the
      direct map and wrong for heap pages with frames of their own, and the
      theorems say what comes of both.
    - [BlockDev]: disks as an interface (class [BlockDev]; [DiskFrame] what the
      calls leave alone, for sectors of any size, and [BlockDevLaws] what they
      do on sectors of 512 bytes) against which the file systems are proved, and
      a RAM disk as an instance.  The optical disks of [Iso9660Props] have
      sectors of 2048 bytes ([OpticalLaws]).
    - [Gpt] (gpt.c, mbr.c, guid.c): partition tables and checksums.
    - [FatBpb] (fat32_bpb.c, fat32_fsinfo.c, fat.c, diskio.c,
      fat32_utility.c): on-disk layouts as encodings, the driver's globals
      ([fat_state]), geometry.  [FatCluster] (cluster_manager.c to line 377):
      code, the volume a state represents ([vol_rep]: FAT, clusters, and the
      sectors around the volume as [Around] gives them) and specifications of
      each operation; [FatChain]: chains.  [FatMount] (fat32_mount.c),
      [FatDir] (cluster_manager.c from line 379, lfn.c, dir_manager.c),
      [FatFile] (file_manager.c): code.  [FatChainProps], [FatFileProps],
      [FatDirProps], [FatMountProps]: the theorems.
    - [Iso9660], [Ext2], [Vsfs] (fs/iso9660, fs/ext2, fs/vsfs): the other file
      systems; [Ext2MountProps] has the creation and mount of ext2 volumes.
    - [Vfs] (vfs.c): the FAT32 and ISO 9660 drivers over one device, with a
      store of open objects.  [Syscall] (int_syscall_manager.c,
      syscall_manager.c): every system call over the virtual file system, the
      caller's memory and the keyboard, the rest of the kernel as the class
      [Services].  [UserLib] (module/libc/src/syscall.c, stdlib.c): the library
      functions, each an interrupt answered by [Syscall].  [Shell]: the shell.
    - [UserMode] (usr/): ELF images and the start of user programs.
    - [Installer] (installer.c): erasure, partitions, volume and copies.

    * What the theorems show

    - A whole stack: bytes a user program writes with the library are read
      back through system calls, virtual file system, FAT32 files and chains,
      for every volume state ([UserLibProps]); below the FAT32 driver the disk
      layer moves the sectors asked for between memory and disk where the
      driver's memory is in the direct map, and says what happens elsewhere
      ([DiskProps], [AhciProps]).  The installer changes no disk but the one it
      installs to, and on a small image its files can be read back
      ([InstallerProps]); no call on an optical disk changes a sector
      ([VfsProps]).  These two hold while behaviour is defined: the mount of a
      disc with 2048-byte sectors is not, as it overflows its buffer.
    - FAT32: setting an entry, allocating, linking, freeing, appending do
      exactly that on the FAT and on nothing else, freeing ends even on cyclic
      FATs, data written to a chain reads back; f_write and f_read splice and
      copy file contents; volumes, labels, long names and patterns.
    - Other file systems: files and directories of ISO 9660 images are what is
      on the disk; ext2 files are read and directories made; VSFS volumes are
      laid out as their superblock says; partition tables and their checksums.
    - Memory: blocks of the placement allocators are disjoint; the bitmap
      refines a set of free frames; after get_page and map_page the hardware
      walk translates the page as asked and all others as before; the kernel
      heap maps every page of a block to a frame of its own.
    - Processes: the table stays well-formed under all operations with defined
      behaviour, a tick fails exactly after the current process was deleted, and
      scheduling is fair; sleeping on the timer ends after its ticks.
    - Devices: scan codes become the characters of the layout, the keyboard
      call stores the line the keys edit, packets of the mouse move the cursor
      over a restored screen, packets of the network card are taken once and in
      order when its ring is aligned, the controllers found are those of the bus, the ACPI tables found
      are those of the firmware, the interrupt tables lead to their handlers,
      text appears on the screen as printf formats it.
    - Library: strings, tokens, sorting, searching, formatting, numbers, dates.
    - Where the code does something else than it means to, a theorem says
      exactly what, among others: memmove moves words, the last cluster is
      never allocated, long names overflow a buffer, half of the frames are
      never handed out, map_page links physical page 0, a mount of ext2
      overruns its buffer, unmounting goes on as an open, free of the user
      library frees nothing, reading a pixel draws it, the shell never prints
      a file and reports every write as failed.

    * Fuel

    Loops without an evident bound take fuel.  The theorems ask for more fuel
    than a stated measure (the length of a chain, of a list or a string, the
    number of clusters written, of pages mapped, of structures in the state, of
    keys typed or packets still to arrive), and [wp] is total: running out of
    fuel satisfies no specification.  Safety theorems over every run
    ([preserves]) are about the runs that return.

    * Not modelled

    The boot protocol and the entry of the kernel (bootloader/, kmain/), which
    only call the parts; processor features (cpuid, cores); the messages of
    exceptions; NVMe, whose functions are mostly stubs; the kernel's own shell
    and the programs in it, the GUI, the speaker and the demonstrations;
    floating point (lib/math.c, atof, formats of doubles); the TLB and
    assembly; malloc's block headers (the FAT32 model counts live blocks
    instead).  The string, number and formatting functions of the user library
    repeat those of the kernel library.  Third-party code (Limine, uGUI,
    tiny-regex-c) and data (images, fonts other than the English ones) are left
    out.

    This file holds what all components share. *)
From stdpp Require Export base tactics numbers list gmap.
From Stdlib Require Export ZArith Lia.

#[global] Open Scope Z_scope.

(** ** Machine integers *)

Definition u8 (z : Z) : Z := z mod 256.
Definition u16 (z : Z) : Z := z mod 65536.
Definition u32 (z : Z) : Z := z mod 4294967296.
Definition u64 (z : Z) : Z := z mod 18446744073709551616.

(** Two's-complement reinterpretation, what gcc does on a narrowing
    conversion to a signed type. *)
Definition s8 (z : Z) : Z := (z + 128) mod 256 - 128.
Definition s32 (z : Z) : Z := (z + 2147483648) mod 4294967296 - 2147483648.
Definition s64 (z : Z) : Z :=
  (z + 9223372036854775808) mod 18446744073709551616 - 9223372036854775808.

Create HintDb machine.

Lemma u8_range z : 0 <= u8 z < 256.
Proof. unfold u8. apply Z.mod_pos_bound. lia. Qed.
Lemma u16_range z : 0 <= u16 z < 65536.
Proof. unfold u16. apply Z.mod_pos_bound. lia. Qed.
Lemma u32_range z : 0 <= u32 z < 4294967296.
Proof. unfold u32. apply Z.mod_pos_bound. lia. Qed.
Lemma u64_range z : 0 <= u64 z < 18446744073709551616.
Proof. unfold u64. apply Z.mod_pos_bound. lia. Qed.
Lemma s32_range z : -2147483648 <= s32 z < 2147483648.
Proof.
  unfold s32. pose proof (Z.mod_pos_bound (z + 2147483648) 4294967296). lia.
Qed.
Lemma s8_range z : -128 <= s8 z < 128.
Proof. unfold s8. pose proof (Z.mod_pos_bound (z + 128) 256). lia. Qed.

Lemma u8_small z : 0 <= z < 256 -> u8 z = z.
Proof. apply Z.mod_small. Qed.
Lemma u16_small z : 0 <= z < 65536 -> u16 z = z.
Proof. apply Z.mod_small. Qed.
Lemma u32_small z : 0 <= z < 4294967296 -> u32 z = z.
Proof. apply Z.mod_small. Qed.
Lemma u64_small z : 0 <= z < 18446744073709551616 -> u64 z = z.
Proof. apply Z.mod_small. Qed.
Lemma s32_small z : -2147483648 <= z < 2147483648 -> s32 z = z.
Proof. intros. unfold s32. rewrite Z.mod_small; lia. Qed.

#[export] Hint Resolve u8_range u16_range u32_range u64_range : machine.

(** Replace a wrap by its argument where the argument provably fits. *)
Ltac unwrap :=
  repeat match goal with
  | |- context [u8 ?z] => rewrite (u8_small z) by lia
  | |- context [u16 ?z] => rewrite (u16_small z) by lia
  | |- context [u32 ?z] => rewrite (u32_small z) by lia
  | |- context [u64 ?z] => rewrite (u64_small z) by lia
  end.

Ltac unwrap_in H :=
  repeat match type of H with
  | context [u8 ?z] => rewrite (u8_small z) in H by lia
  | context [u16 ?z] => rewrite (u16_small z) in H by lia
  | context [u32 ?z] => rewrite (u32_small z) in H by lia
  | context [u64 ?z] => rewrite (u64_small z) in H by lia
  end.

(** Boolean tests on [Z] in a hypothesis or the goal, as propositions. *)
Ltac bool_to_prop :=
  repeat match goal with
  | H : (_ <? _) = true |- _ => apply Z.ltb_lt in H
  | H : (_ <? _) = false |- _ => apply Z.ltb_ge in H
  | H : (_ <=? _) = true |- _ => apply Z.leb_le in H
  | H : (_ <=? _) = false |- _ => apply Z.leb_gt in H
  | H : (_ =? _) = true |- _ => apply Z.eqb_eq in H
  | H : (_ =? _) = false |- _ => apply Z.eqb_neq in H
  | H : _ && _ = true |- _ => apply andb_prop in H; destruct H
  | H : _ || _ = false |- _ => apply orb_false_elim in H; destruct H
  | H : negb _ = true |- _ => apply negb_true_iff in H
  | H : negb _ = false |- _ => apply negb_false_iff in H
  end.

(** Case split on the test of an [if] of the goal. *)
Ltac case_if :=
  match goal with
  | |- context [if ?b then _ else _] =>
      lazymatch b with context [if _ then _ else _] => fail | _ => idtac end;
      let H := fresh "Hb" in destruct b eqn:H; bool_to_prop
  end.

(** ** Bits *)

Lemma land_ones_low (z n : Z) : 0 <= n -> Z.land z (Z.ones n) = z mod 2 ^ n.
Proof. apply Z.land_ones. Qed.

(** Disjoint bit patterns: or and exclusive or are plus. *)
Lemma land_disjoint (hi lo n : Z) : 0 <= n -> 0 <= lo < 2 ^ n -> Z.land (hi * 2 ^ n) lo = 0.
Proof.
  intros Hn Hlo. apply Z.bits_inj'. intros i Hi. rewrite Z.land_spec, Z.bits_0.
  destruct (Z.lt_ge_cases i n).
  - rewrite Z.mul_pow2_bits_low by lia. done.
  - rewrite <- (Z.mod_small lo (2 ^ n)) by lia.
    rewrite Z.mod_pow2_bits_high by lia. apply andb_false_r.
Qed.

Lemma lxor_add_disjoint (hi lo n : Z) :
  0 <= n -> 0 <= lo < 2 ^ n -> Z.lxor (hi * 2 ^ n) lo = hi * 2 ^ n + lo.
Proof. intros. by rewrite Z.add_nocarry_lxor by (by apply land_disjoint). Qed.

Lemma lor_add_disjoint (hi lo n : Z) :
  0 <= n -> 0 <= lo < 2 ^ n -> Z.lor (hi * 2 ^ n) lo = hi * 2 ^ n + lo.
Proof. intros. by rewrite <- Z.lxor_lor, lxor_add_disjoint by (done || by apply land_disjoint). Qed.

(** A bit of a word, as the source tests it. *)
Lemma land_bit w o : 0 <= o -> (Z.land w (Z.shiftl 1 o) =? 0) = negb (Z.testbit w o).
Proof.
  intros Ho. destruct (Z.testbit w o) eqn:Hb; simpl.
  - apply Z.eqb_neq. intros Hz. apply (f_equal (fun z => Z.testbit z o)) in Hz.
    rewrite Z.land_spec, Z.bits_0, Hb, Z.shiftl_spec, Z.sub_diag in Hz by lia. done.
  - apply Z.eqb_eq, Z.bits_inj'. intros i Hi.
    rewrite Z.land_spec, Z.bits_0, Z.shiftl_1_l, Z.pow2_bits_eqb by lia.
    destruct (Z.eqb_spec o i) as [->|]; [by rewrite Hb | apply andb_false_r].
Qed.

Lemma bits_lt z n :
  0 <= n -> 0 <= z -> (forall i, n <= i -> Z.testbit z i = false) -> z < 2 ^ n.
Proof.
  intros Hn Hz Hb. replace z with (z mod 2 ^ n).
  - apply Z.mod_pos_bound. apply Z.pow_pos_nonneg; lia.
  - apply Z.bits_inj'. intros i Hi. destruct (Z.lt_ge_cases i n).
    + by rewrite Z.mod_pow2_bits_low.
    + rewrite Z.mod_pow2_bits_high by lia. by rewrite Hb.
Qed.

Lemma testbit_high z n i : 0 <= n <= i -> 0 <= z < 2 ^ n -> Z.testbit z i = false.
Proof.
  intros. rewrite <- (Z.mod_small z (2 ^ n)) by done. apply Z.mod_pow2_bits_high. lia.
Qed.

Lemma lor_range a b n :
  0 <= n -> 0 <= a < 2 ^ n -> 0 <= b < 2 ^ n -> 0 <= Z.lor a b < 2 ^ n.
Proof.
  intros Hn Ha Hb. assert (0 <= Z.lor a b) by (apply Z.lor_nonneg; lia).
  split; [done|]. apply bits_lt; [done | done|]. intros i Hi.
  rewrite Z.lor_spec, !(testbit_high _ n) by lia. done.
Qed.

Lemma land_range_r a m n : 0 <= n -> 0 <= m < 2 ^ n -> 0 <= Z.land a m < 2 ^ n.
Proof.
  intros Hn Hm. assert (0 <= Z.land a m) by (apply Z.land_nonneg; lia).
  split; [done|]. apply bits_lt; [done | done|]. intros i Hi.
  rewrite Z.land_spec, (testbit_high m n) by lia. apply andb_false_r.
Qed.

(** ** Buffers *)

(** [slice off n l]: the [n] bytes of [l] from offset [off]. *)
Definition slice {A} (off n : Z) (l : list A) : list A :=
  take (Z.to_nat n) (drop (Z.to_nat off) l).

(** [splice off d l]: [l] with the bytes from offset [off] replaced by [d]
    (what [memcpy(l + off, d, length d)] does to a buffer that has room). *)
Definition splice {A} (off : Z) (d l : list A) : list A :=
  take (Z.to_nat off) l ++ d ++ drop (Z.to_nat off + length d) l.

Abbreviation zlen l := (Z.of_nat (length l)).

Lemma length_slice {A} off n (l : list A) :
  0 <= off -> 0 <= n -> off + n <= zlen l -> length (slice off n l) = Z.to_nat n.
Proof. intros. unfold slice. rewrite length_take, length_drop. lia. Qed.

Lemma length_splice {A} off (d l : list A) :
  0 <= off -> off + zlen d <= zlen l -> length (splice off d l) = length l.
Proof.
  intros. unfold splice. rewrite !length_app, length_take, length_drop. lia.
Qed.

Lemma lookup_slice {A} off n (l : list A) (i : nat) :
  0 <= off -> Z.of_nat i < n -> slice off n l !! i = l !! (Z.to_nat off + i)%nat.
Proof.
  intros. unfold slice. rewrite lookup_take_lt by lia. by rewrite lookup_drop.
Qed.

Lemma lookup_splice {A} off (d l : list A) (i : nat) :
  0 <= off -> off + zlen d <= zlen l ->
  splice off d l !! i =
    if (off <=? Z.of_nat i) && (Z.of_nat i <? off + zlen d)
    then d !! (i - Z.to_nat off)%nat else l !! i.
Proof.
  intros Ho Hl. unfold splice.
  assert (Ht : length (take (Z.to_nat off) l) = Z.to_nat off)
    by (rewrite length_take; lia).
  destruct (Z.leb_spec off (Z.of_nat i)); simpl.
  - rewrite lookup_app_r by lia. rewrite Ht.
    destruct (Z.ltb_spec (Z.of_nat i) (off + zlen d)).
    + by rewrite lookup_app_l by lia.
    + rewrite lookup_app_r by lia. rewrite lookup_drop. f_equal. lia.
  - rewrite lookup_app_l by lia. rewrite lookup_take_lt by lia. done.
Qed.

Lemma slice_splice_same {A} off (d l : list A) :
  0 <= off -> off + zlen d <= zlen l -> slice off (zlen d) (splice off d l) = d.
Proof.
  intros. unfold slice, splice.
  rewrite drop_app_ge by (rewrite length_take; lia).
  replace (Z.to_nat off - length (take (Z.to_nat off) l))%nat with 0%nat
    by (rewrite length_take; lia).
  rewrite Nat2Z.id, drop_0. apply take_app_length.
Qed.

Lemma slice_splice_eq {A} off n (d l : list A) :
  n = zlen d -> 0 <= off -> off + n <= zlen l -> slice off n (splice off d l) = d.
Proof. intros ->. apply slice_splice_same. Qed.

Lemma slice_splice_disjoint {A} off n off' (d l : list A) :
  0 <= off -> 0 <= n -> 0 <= off' -> off + n <= zlen l ->
  off' + zlen d <= zlen l -> off + n <= off' \/ off' + zlen d <= off ->
  slice off n (splice off' d l) = slice off n l.
Proof.
  intros ????? Hd. apply list_eq. intros i.
  destruct (decide (Z.of_nat i < n)).
  - rewrite !lookup_slice by lia. rewrite lookup_splice by lia.
    case_if; [lia | done].
  - rewrite !lookup_ge_None_2; try done;
      (rewrite length_slice; rewrite ?length_splice; lia).
Qed.

(** Stores side by side are one. *)
Lemma splice_extend {A} p (d1 d2 l : list A) :
  0 <= p -> p + zlen d1 + zlen d2 <= zlen l ->
  splice (p + zlen d1) d2 (splice p d1 l) = splice p (d1 ++ d2) l.
Proof.
  intros Hp Hl. assert (Hs : length (splice p d1 l) = length l) by (apply length_splice; lia).
  apply list_eq. intros i. rewrite !lookup_splice by (rewrite ?Hs, ?length_app; lia).
  rewrite length_app.
  destruct (Z.leb_spec p (Z.of_nat i)), (Z.leb_spec (p + zlen d1) (Z.of_nat i)),
    (Z.ltb_spec (Z.of_nat i) (p + zlen d1 + zlen d2)), (Z.ltb_spec (Z.of_nat i) (p + zlen d1)),
    (Z.ltb_spec (Z.of_nat i) (p + Z.of_nat (length d1 + length d2))); simpl; try lia; try done.
  - rewrite lookup_app_r by lia. f_equal. lia.
  - rewrite lookup_app_l by lia. done.
Qed.

Lemma splice_extend' {A} p (d1 d2 l : list A) o :
  0 <= p -> o = p + zlen d1 -> p + zlen d1 + zlen d2 <= zlen l ->
  splice o d2 (splice p d1 l) = splice p (d1 ++ d2) l.
Proof. intros ? -> ?. by apply splice_extend. Qed.

Lemma slice_splice_inside {A} off (d l : list A) o n : 0 <= off -> off + zlen d <= zlen l -> off <= o -> 0 <= n ->
  o + n <= off + zlen d -> slice o n (splice off d l) = slice (o - off) n d.
Proof.
  intros. apply list_eq. intros i. destruct (decide (Z.of_nat i < n)).
  - rewrite !lookup_slice by lia. rewrite lookup_splice by lia.
    destruct (Z.leb_spec off (Z.of_nat (Z.to_nat o + i))), (Z.ltb_spec (Z.of_nat (Z.to_nat o + i)) (off + zlen d));
      [f_equal; lia | lia..].
  - rewrite !lookup_ge_None_2; try done; rewrite length_slice; rewrite ?length_splice; lia.
Qed.

Lemma slice_take {A} off n (m : nat) (l : list A) :
  0 <= off -> 0 <= n -> off + n <= Z.of_nat m -> slice off n (take m l) = slice off n l.
Proof.
  intros. unfold slice. rewrite !take_drop_commute, take_take. do 2 f_equal. lia.
Qed.

Lemma slice_all {A} (l : list A) n : n = zlen l -> slice 0 n l = l.
Proof. intros ->. unfold slice. rewrite drop_0, Nat2Z.id. apply firstn_all. Qed.

Lemma slice_app_l {A} off n (l k : list A) :
  0 <= off -> 0 <= n -> off + n <= zlen l -> slice off n (l ++ k) = slice off n l.
Proof.
  intros. unfold slice. rewrite drop_app_le by lia.
  apply take_app_le. rewrite length_drop. lia.
Qed.

Lemma slice_app_r {A} off n (l k : list A) :
  zlen l <= off -> slice off n (l ++ k) = slice (off - zlen l) n k.
Proof.
  intros. unfold slice. rewrite drop_app_ge by lia. do 2 f_equal. lia.
Qed.

Lemma slice_app_exact {A} n (l k : list A) : n = zlen l -> slice 0 n (l ++ k) = l.
Proof. intros ->. rewrite slice_app_l by lia. by apply slice_all. Qed.

Lemma slice_replicate n off k : 0 <= off -> off + k <= Z.of_nat n ->
  slice off k (replicate n 0) = replicate (Z.to_nat k) 0.
Proof. intros. unfold slice. rewrite drop_replicate, take_replicate. f_equal. lia. Qed.

Lemma Forall_slice {A} (P : A -> Prop) off n l :
  Forall P l -> Forall P (slice off n l).
Proof. intros. by apply Forall_take, Forall_drop. Qed.

Lemma Forall_splice {A} (P : A -> Prop) off d l :
  Forall P d -> Forall P l -> Forall P (splice off d l).
Proof.
  intros. unfold splice. repeat apply Forall_app_2; try done;
    by (apply Forall_take || apply Forall_drop).
Qed.

(** ** Filters *)

Lemma filter_ext_in {A} (P Q : A -> Prop) `{!forall x, Decision (P x)}
    `{!forall x, Decision (Q x)} (l : list A) :
  (forall x, x ∈ l -> P x <-> Q x) -> filter P l = filter Q l.
Proof.
  induction l as [|x l IH]; intros Hpq; [done|].
  assert (filter P l = filter Q l) as IH' by (apply IH; intros; apply Hpq; by right).
  destruct (decide (P x)) as [Hp|Hp].
  - rewrite filter_cons_True by done.
    rewrite filter_cons_True by (apply Hpq; [by left | done]). by f_equal.
  - rewrite filter_cons_False by done.
    rewrite filter_cons_False by (intros Hq; apply Hp, Hpq; [by left | done]). done.
Qed.

Lemma filter_none {A} (P : A -> Prop) `{!forall x, Decision (P x)} (l : list A) :
  (forall x, x ∈ l -> ~ P x) -> filter P l = [].
Proof.
  induction l as [|x l IH]; intros Hn; [done|].
  rewrite filter_cons_False by (apply Hn; set_solver). apply IH. set_solver.
Qed.

Lemma filter_all {A} (P : A -> Prop) `{!forall x, Decision (P x)} (l : list A) :
  (forall x, x ∈ l -> P x) -> filter P l = l.
Proof.
  induction l as [|x l IH]; intros Hn; [done|].
  rewrite filter_cons_True by (apply Hn; set_solver). f_equal. apply IH. set_solver.
Qed.

(** ** Bytes and little-endian integers *)

Definition byte (z : Z) : Prop := 0 <= z < 256.

Fixpoint le_bytes (n : nat) (z : Z) : list Z :=
  match n with
  | O => []
  | S n => z mod 256 :: le_bytes n (z / 256)
  end.

Fixpoint le_val (l : list Z) : Z :=
  match l with
  | [] => 0
  | b :: l => b + 256 * le_val l
  end.

Lemma length_le_bytes n z : length (le_bytes n z) = n.
Proof. revert z. induction n; simpl; auto. Qed.

Lemma le_bytes_byte n z : Forall byte (le_bytes n z).
Proof.
  revert z. induction n as [|n IH]; intros z; simpl; constructor; [|apply IH].
  unfold byte. apply Z.mod_pos_bound. lia.
Qed.

Lemma le_val_bytes n z : le_val (le_bytes n z) = z mod 256 ^ Z.of_nat n.
Proof.
  revert z. induction n as [|n IH]; intros z; cbn [le_bytes le_val].
  - rewrite Z.pow_0_r, Z.mod_1_r. done.
  - rewrite IH, Nat2Z.inj_succ, Z.pow_succ_r by lia.
    assert (0 < 256 ^ Z.of_nat n) by (apply Z.pow_pos_nonneg; lia).
    rewrite Z.rem_mul_r by lia. done.
Qed.

Lemma le_val_bound l : Forall byte l -> 0 <= le_val l < 256 ^ zlen l.
Proof.
  induction 1 as [|b l Hb _ IH]; cbn [le_val length]; [lia|].
  rewrite Nat2Z.inj_succ, Z.pow_succ_r by lia. unfold byte in Hb. lia.
Qed.

Lemma le_bytes_val l : Forall byte l -> le_bytes (length l) (le_val l) = l.
Proof.
  induction 1 as [|b l Hb _ IH]; cbn [le_val length le_bytes]; [done|].
  unfold byte in Hb. f_equal.
  - rewrite Z.mul_comm, Z.mod_add by lia. apply Z.mod_small. lia.
  - rewrite Z.mul_comm, Z.div_add by lia. rewrite Z.div_small by lia. exact IH.
Qed.

Lemma zeros_byte n : Forall byte (replicate n 0).
Proof. apply Forall_replicate. unfold byte. lia. Qed.

(** Loads and stores of a [n]-byte integer at an offset of a buffer, as the
    source's pointer casts perform them on x86 (little endian). *)
Definition load (n : nat) (off : Z) (buf : list Z) : Z :=
  le_val (slice off (Z.of_nat n) buf).
Definition store (n : nat) (off v : Z) (buf : list Z) : list Z :=
  splice off (le_bytes n v) buf.

Lemma length_store n off v buf :
  0 <= off -> off + Z.of_nat n <= zlen buf -> length (store n off v buf) = length buf.
Proof. intros. apply length_splice; rewrite ?length_le_bytes; lia. Qed.

Lemma load_store_same n off v buf :
  0 <= off -> off + Z.of_nat n <= zlen buf ->
  load n off (store n off v buf) = v mod 256 ^ Z.of_nat n.
Proof.
  intros. unfold load, store.
  rewrite <- (length_le_bytes n v) at 1.
  rewrite slice_splice_same by (rewrite ?length_le_bytes; lia).
  apply le_val_bytes.
Qed.

Lemma load_store_disjoint n off m off' v buf :
  0 <= off -> 0 <= off' -> off + Z.of_nat n <= zlen buf ->
  off' + Z.of_nat m <= zlen buf ->
  off + Z.of_nat n <= off' \/ off' + Z.of_nat m <= off ->
  load n off (store m off' v buf) = load n off buf.
Proof.
  intros. unfold load, store.
  rewrite slice_splice_disjoint; rewrite ?length_le_bytes; lia || done.
Qed.

Lemma load_bound n off buf :
  Forall byte buf -> 0 <= off -> off + Z.of_nat n <= zlen buf ->
  0 <= load n off buf < 256 ^ Z.of_nat n.
Proof.
  intros. unfold load.
  pose proof (le_val_bound (slice off (Z.of_nat n) buf)) as Hb.
  rewrite length_slice in Hb by lia. rewrite Nat2Z.id in Hb.
  apply Hb. by apply Forall_slice.
Qed.

Lemma store_byte n off v buf : Forall byte buf -> Forall byte (store n off v buf).
Proof. intros. apply Forall_splice; [apply le_bytes_byte | done]. Qed.

#[export] Hint Resolve le_bytes_byte store_byte : machine.

(** ** Running C code *)

(** The outcome of a piece of C code: it returns a value, its behaviour is
    undefined (an access outside an object, a null dereference, a division by
    zero, a shift past the width), it halts the kernel ([halt_kernel] or a
    failed [assert], both endless loops), or the model's loop bound ran out. *)
Inductive outcome (A : Type) : Type :=
  | Ret (a : A)
  | Undef
  | Halted
  | OutOfFuel.
Arguments Ret {A} a.
Arguments Undef {A}.
Arguments Halted {A}.
Arguments OutOfFuel {A}.

Definition obind {A B} (m : outcome A) (k : A -> outcome B) : outcome B :=
  match m with
  | Ret a => k a
  | Undef => Undef
  | Halted => Halted
  | OutOfFuel => OutOfFuel
  end.

(** Code over a state [S]. *)
Definition M (S A : Type) : Type := S -> outcome (A * S).

Definition ret {S A} (a : A) : M S A := fun s => Ret (a, s).
Definition bind {S A B} (m : M S A) (k : A -> M S B) : M S B :=
  fun s => obind (m s) (fun '(a, s') => k a s').
Definition get {S} : M S S := fun s => Ret (s, s).
Definition put {S} (s : S) : M S unit := fun _ => Ret (tt, s).
Definition modify {S} (f : S -> S) : M S unit := fun s => Ret (tt, f s).
Definition gets {S A} (f : S -> A) : M S A := fun s => Ret (f s, s).
Definition undef {S A} : M S A := fun _ => Undef.
Definition halt {S A} : M S A := fun _ => Halted.
Definition lift {S A} (o : outcome A) : M S A :=
  fun s => obind o (fun a => Ret (a, s)).
(** Undefined behaviour unless the condition holds. *)
Definition guard {S} (b : bool) : M S unit := if b then ret tt else undef.

Declare Scope c_scope.
Delimit Scope c_scope with c.
Notation "'let!' x ':=' m 'in' k" := (bind m (fun x => k))
  (at level 10, x binder, m at level 100, k at level 200) : c_scope.
Notation "m ;;; k" := (bind m (fun _ => k))
  (at level 100, k at level 200, right associativity) : c_scope.
#[global] Open Scope c_scope.

(** [while] with the loop's local variables [X]: the body yields [inl x] to
    go round again and [inr r] to leave the loop. *)
Fixpoint iter_fuel {S X R} (fuel : nat) (body : X -> M S (X + R)) (x : X) : M S R :=
  match fuel with
  | O => fun _ => OutOfFuel
  | Datatypes.S n =>
      let! r := body x in
      match r with
      | inl x' => iter_fuel n body x'
      | inr r => ret r
      end
  end.

(** [for (i = a; i < a + n; i++)]: the body may leave the loop with a value. *)
Fixpoint for_range {S R} (n : nat) (i : Z) (body : Z -> M S (option R)) : M S (option R) :=
  match n with
  | O => ret None
  | Datatypes.S n =>
      let! r := body i in
      match r with
      | Some v => ret (Some v)
      | None => for_range n (i + 1) body
      end
  end.

(** Total-correctness weakest precondition. *)
Definition wp {S A} (m : M S A) (Q : A -> S -> Prop) (s : S) : Prop :=
  match m s with
  | Ret (a, s') => Q a s'
  | _ => False
  end.

Section wp.
Context {S A B : Type}.
Implicit Types (s : S) (m : M S A).

Lemma wp_ret (a : A) Q s : Q a s -> wp (ret a) Q s.
Proof. done. Qed.

Lemma wp_bind m (k : A -> M S B) Q s :
  wp m (fun a s' => wp (k a) Q s') s -> wp (bind m k) Q s.
Proof. unfold wp, bind. destruct (m s) as [[a s']| | |]; done. Qed.

Lemma wp_mono m (Q Q' : A -> S -> Prop) s :
  wp m Q s -> (forall a s', Q a s' -> Q' a s') -> wp m Q' s.
Proof. unfold wp. destruct (m s) as [[a s']| | |]; auto. Qed.

Lemma wp_and m (Q Q' : A -> S -> Prop) s :
  wp m Q s -> wp m Q' s -> wp m (fun a s' => Q a s' /\ Q' a s') s.
Proof. unfold wp. destruct (m s) as [[a s']| | |]; auto. Qed.

Lemma wp_gets (f : S -> A) Q s : Q (f s) s -> wp (gets f) Q s.
Proof. done. Qed.

Lemma wp_modify (f : S -> S) Q s : Q tt (f s) -> wp (modify f) Q s.
Proof. done. Qed.

Lemma wp_guard b Q s : b = true -> Q tt s -> wp (guard b) Q s.
Proof. intros ->. done. Qed.

Lemma wp_lift (a : A) Q s : Q a s -> wp (lift (Ret a)) Q s.
Proof. done. Qed.

(** What a total-correctness statement says of the run itself. *)
Lemma wp_run m Q s : wp m Q s <-> exists a s', m s = Ret (a, s') /\ Q a s'.
Proof.
  unfold wp. split.
  - destruct (m s) as [[a s']| | |]; naive_solver.
  - intros (a & s' & -> & HQ). done.
Qed.
End wp.

(** The loop rule: an invariant, and a measure below the fuel that every
    round that goes on decreases. *)
Lemma wp_iter {S X R} (I : X -> S -> Prop) (meas : X -> S -> nat)
    (body : X -> M S (X + R)) (Q : R -> S -> Prop) fuel x s :
  (forall x s, I x s ->
     wp (body x) (fun r s' =>
       match r with
       | inl x' => I x' s' /\ (meas x' s' < meas x s)%nat
       | inr r => Q r s'
       end) s) ->
  I x s -> (meas x s < fuel)%nat -> wp (iter_fuel fuel body x) Q s.
Proof.
  intros Hbody. revert x s. induction fuel as [|n IH]; intros x s HI Hm; [lia|].
  simpl. apply wp_bind. eapply wp_mono; [apply Hbody, HI|].
  intros [x'|r] s' Hr; [|done]. destruct Hr as [HI' Hlt]. apply IH; [done | lia].
Qed.

(** The same with the measure as an index of the invariant, for loops whose
    progress is not a function of the loop's variables (a walk along a list
    kept in the state). *)
Lemma wp_iter_idx {S X R T} (meas : T -> nat) (I : T -> X -> S -> Prop)
    (body : X -> M S (X + R)) (Q : R -> S -> Prop) fuel t x s :
  (forall t x s, I t x s ->
     wp (body x) (fun r s' =>
       match r with
       | inl x' => exists t', I t' x' s' /\ (meas t' < meas t)%nat
       | inr r => Q r s'
       end) s) ->
  I t x s -> (meas t < fuel)%nat -> wp (iter_fuel fuel body x) Q s.
Proof.
  intros Hbody. revert t x s. induction fuel as [|n IH]; intros t x s HI Hm; [lia|].
  simpl. apply wp_bind. eapply wp_mono; [eapply Hbody, HI|].
  intros [x'|r] s' Hr; [|done]. destruct Hr as (t' & HI' & Hlt). eapply IH; [done | lia].
Qed.

(** The same with an invariant alone: what holds of the loop whenever it
    ends, for loops whose termination is stated separately. *)
Lemma iter_partial {S X R} (I : X -> S -> Prop) (body : X -> M S (X + R))
    (Q : R -> S -> Prop) fuel x s r s' :
  (forall x s r s', I x s -> body x s = Ret (r, s') ->
     match r with inl x' => I x' s' | inr r => Q r s' end) ->
  I x s -> iter_fuel fuel body x s = Ret (r, s') -> Q r s'.
Proof.
  intros Hbody. revert x s. induction fuel as [|n IH]; intros x s HI Hr; [done|].
  simpl in Hr. unfold bind, obind in Hr.
  destruct (body x s) as [[b s1]| | |] eqn:Hb; try done.
  pose proof (Hbody _ _ _ _ HI Hb) as Hn. destruct b as [x'|r'].
  - by apply (IH x' s1).
  - unfold ret in Hr. simplify_eq. done.
Qed.

(** The rule for counted loops. *)
Lemma wp_for {S R} (I : Z -> S -> Prop) (body : Z -> M S (option R))
    (Q : option R -> S -> Prop) n i s :
  (forall j s, i <= j < i + Z.of_nat n -> I j s ->
     wp (body j) (fun r s' =>
       match r with None => I (j + 1) s' | Some v => Q (Some v) s' end) s) ->
  (forall s, I (i + Z.of_nat n) s -> Q None s) ->
  I i s -> wp (for_range n i body) Q s.
Proof.
  revert i s. induction n as [|n IH]; intros i s Hbody Hend HI.
  - simpl. apply wp_ret, Hend. by rewrite Z.add_0_r.
  - simpl. apply wp_bind. eapply wp_mono; [apply Hbody; [lia | done]|].
    intros [v|] s' Hr; [by apply wp_ret|]. apply IH; [| |done].
    + intros j s1 Hj. apply Hbody. lia.
    + intros s1 H1. apply Hend. by replace (i + Z.of_nat (Datatypes.S n))
        with (i + 1 + Z.of_nat n) by lia.
Qed.

Section returns.
Context {S A : Type}.

(** [m] run from [s] returns [a] in a state with [P]. *)
Definition returns (m : M S A) (s : S) (a : A) (P : S -> Prop) : Prop :=
  exists s', m s = Ret (a, s') /\ P s'.

Lemma wp_returns (m : M S A) s a P : wp m (fun r s' => r = a /\ P s') s -> returns m s a P.
Proof. rewrite wp_run. intros (r & s' & Hm & -> & HP). by exists s'. Qed.
End returns.

(** Prove a conjunction of comparisons evaluates to [true]. *)
Ltac bool_true :=
  repeat (apply andb_true_intro; split);
  first [ done | apply Z.leb_le; lia | apply Z.ltb_lt; lia | apply Z.eqb_eq; lia ].

(** One symbolic step of a monadic goal. *)
Ltac wp_step :=
  lazymatch goal with
  | |- wp (bind _ _) _ _ => apply wp_bind
  | |- wp (ret _) _ _ => apply wp_ret
  | |- wp (gets _) _ _ => apply wp_gets
  | |- wp (modify _) _ _ => apply wp_modify
  | |- wp (guard _) _ _ => apply wp_guard; [try bool_true |]
  | |- wp (let _ := _ in _) _ _ => cbv zeta
  | |- wp ((fun _ => _) _) _ _ => cbv beta
  end.
Ltac wp_steps := repeat (wp_step; cbv beta).

(** Use a specification [H : wp m Q s] of the call at the head of the goal. *)
Tactic Notation "wp_use" uconstr(H) := eapply wp_mono; [eapply H |].
