(* ===== verification/CString.v ===== *)
(** The C string library of the kernel (kernel/src/lib/string.c, ctype.c).

    The functions run on a byte-addressed memory ([mem], unmapped addresses
    are undefined) and take addresses, so that overlapping arguments and
    missing terminators behave as in the source.  [cstr m p l] says that the
    C string at [p] is [l]; the lemmas show what each function computes on
    strings, and the value-level functions [str_cmp], [str_chr], [digits] are
    what other components use.  A loop that looks for a terminator is bounded
    by [fuel]; the lemmas ask for fuel above the length of the string. *)
From S2P Require Import Prelude.

(** ** ctype.c *)

Definition isalpha (c : Z) : bool :=
  ((65 <=? c) && (c <=? 90)) || ((97 <=? c) && (c <=? 122)).
Definition isdigit (c : Z) : bool := (48 <=? c) && (c <=? 57).
Definition isalnum (c : Z) : bool := isalpha c || isdigit c.
Definition isspace (c : Z) : bool :=
  (c =? 32) || (c =? 9) || (c =? 10) || (c =? 11) || (c =? 12) || (c =? 13).
Definition isupper (c : Z) : bool := (65 <=? c) && (c <=? 90).
Definition islower (c : Z) : bool := (97 <=? c) && (c <=? 122).
Definition tolower (c : Z) : Z := if (65 <=? c) && (c <=? 90) then c + (97 - 65) else c.
Definition toupper (c : Z) : Z := if (97 <=? c) && (c <=? 122) then c - (97 - 65) else c.

(** ** Memory *)

(** The memory and the static [next_token] of strtok; address 0 is NULL. *)
Record cmem := mk_cmem { mem : gmap Z Z; next_token : Z }.

Definition set_mem (m : gmap Z Z) (s : cmem) : cmem := mk_cmem m (next_token s).
Definition set_next_token (p : Z) (s : cmem) : cmem := mk_cmem (mem s) p.

Definition ld (p : Z) : M cmem Z := fun s =>
  match mem s !! p with Some v => Ret (v, s) | None => Undef end.
Definition st (p v : Z) : M cmem unit := fun s =>
  match mem s !! p with Some _ => Ret (tt, set_mem (<[p := u8 v]> (mem s)) s) | None => Undef end.

(** A 32-bit access. *)
Definition ld32 (p : Z) : M cmem Z :=
  let! a := ld p in let! b := ld (p + 1) in let! c := ld (p + 2) in let! d := ld (p + 3) in
  ret (le_val [a; b; c; d]).
Definition st32 (p v : Z) : M cmem unit :=
  st p v ;;; st (p + 1) (v / 256) ;;; st (p + 2) (v / 65536) ;;; st (p + 3) (v / 16777216).

(** [for (i = 0; i < n; i++) body] without early exit. *)
Definition repeat_n {S} (n : Z) (body : Z -> M S unit) : M S unit :=
  let! _ := for_range (R := unit) (Z.to_nat n) 0 (fun i => body i ;;; ret None) in ret tt.

(** ** string.c: memory blocks *)

Definition memcpy (dest src n : Z) : M cmem Z :=
  repeat_n n (fun i => let! v := ld (src + i) in st (dest + i) v) ;;; ret dest.

Definition memset (s c n : Z) : M cmem Z :=
  repeat_n n (fun i => st (s + i) c) ;;; ret s.

(** The loops go over [n] 32-bit words. *)
Definition memmove (dest src n : Z) : M cmem Z :=
  (if dest <? src then
     repeat_n n (fun i => let! v := ld32 (src + 4 * i) in st32 (dest + 4 * i) v)
   else if src <? dest then
     repeat_n n (fun j => let i := n - j in
       let! v := ld32 (src + 4 * (i - 1)) in st32 (dest + 4 * (i - 1)) v)
   else ret tt) ;;; ret dest.

Definition memcmp (s1 s2 n : Z) : M cmem Z :=
  let! r := for_range (Z.to_nat n) 0 (fun i =>
    let! a := ld (s1 + i) in let! b := ld (s2 + i) in
    ret (if negb (a =? b) then Some (if a <? b then -1 else 1) else None)) in
  ret (default 0 r).

Definition memchr (s c n : Z) : M cmem Z :=
  let! r := for_range (Z.to_nat n) 0 (fun i =>
    let! a := ld (s + i) in ret (if a =? u8 c then Some (s + i) else None)) in
  ret (default 0 r).

Definition clear_buffer (buffer size : Z) : M cmem Z := memset buffer 0 size.

(** ** string.c: strings *)

(** Incrementing an [int] index past INT_MAX is undefined. *)
Definition strlen (fuel : nat) (s : Z) : M cmem Z :=
  iter_fuel fuel (fun i =>
    let! c := ld (s + i) in
    if negb (c =? 0) then guard (i <? 2147483647) ;;; ret (inl (i + 1))
    else ret (inr i)) 0.

Definition reverse (fuel : nat) (s : Z) : M cmem unit :=
  let! len := strlen fuel s in
  iter_fuel fuel (fun '(i, j) =>
    if i <? j then
      let! c := ld (s + i) in
      let! d := ld (s + j) in
      st (s + i) d ;;; st (s + j) c ;;; ret (inl (i + 1, j - 1))
    else ret (inr tt)) (0, len - 1).

Definition append (fuel : nat) (s c : Z) : M cmem unit :=
  let! len := strlen fuel s in
  st (s + len) c ;;; st (s + len + 1) 0.

(** On an empty string this stores before the string. *)
Definition backspace (fuel : nat) (s : Z) : M cmem unit :=
  let! len := strlen fuel s in
  st (s + len - 1) 0.

(** [char] is signed. *)
Definition strcmp (fuel : nat) (s1 s2 : Z) : M cmem Z :=
  iter_fuel fuel (fun i =>
    let! a := ld (s1 + i) in
    let! b := ld (s2 + i) in
    if a =? b then if a =? 0 then ret (inr 0) else ret (inl (i + 1))
    else ret (inr (s8 a - s8 b))) 0.

Definition strcpy (fuel : nat) (dest src : Z) : M cmem Z :=
  iter_fuel fuel (fun i =>
    let! c := ld (src + i) in
    st (dest + i) c ;;;
    if negb (c =? 0) then ret (inl (i + 1)) else ret (inr tt)) 0 ;;;
  ret dest.

Definition strncpy (dest src n : Z) : M cmem Z :=
  let! i := iter_fuel (S (Z.to_nat n)) (fun i =>
    if i <? n then
      let! c := ld (src + i) in
      if negb (c =? 0) then st (dest + i) c ;;; ret (inl (i + 1)) else ret (inr i)
    else ret (inr i)) 0 in
  repeat_n (n - i) (fun k => st (dest + i + k) 0) ;;;
  ret dest.

Definition strncmp (s1 s2 n : Z) : M cmem Z :=
  iter_fuel (S (Z.to_nat n)) (fun i =>
    if i <? n then
      let! a := ld (s1 + i) in
      let! b := ld (s2 + i) in
      if negb (a =? b) then ret (inr (a - b))
      else if a =? 0 then ret (inr 0) else ret (inl (i + 1))
    else ret (inr 0)) 0.

(** The pointer to the terminator. *)
Definition find_end (fuel : nat) (p : Z) : M cmem Z :=
  iter_fuel fuel (fun p =>
    let! c := ld p in if negb (c =? 0) then ret (inl (p + 1)) else ret (inr p)) p.

Definition strcat (fuel : nat) (dest src : Z) : M cmem Z :=
  let! e := find_end fuel dest in
  let! e := iter_fuel fuel (fun '(dest, src) =>
    let! c := ld src in
    if negb (c =? 0) then st dest c ;;; ret (inl (dest + 1, src + 1))
    else ret (inr dest)) (e, src) in
  st e 0 ;;; ret dest.

Definition strncat (fuel : nat) (dest src n : Z) : M cmem Z :=
  let! e := find_end fuel dest in
  let! e := iter_fuel (S (Z.to_nat n)) (fun '(dest, src, n) =>
    if n =? 0 then ret (inr dest) else
    let! c := ld src in
    if negb (c =? 0) then st dest c ;;; ret (inl (dest + 1, src + 1, n - 1))
    else ret (inr dest)) (e, src, n) in
  st e 0 ;;; ret dest.

Definition strnlen (str maxlen : Z) : M cmem Z :=
  iter_fuel (S (Z.to_nat maxlen)) (fun len =>
    if len <? maxlen then
      let! c := ld (str + len) in
      if negb (c =? 0) then ret (inl (len + 1)) else ret (inr (s32 len))
    else ret (inr (s32 len))) 0.

(** 0 for NULL. *)
Definition strrchr (fuel : nat) (str c : Z) : M cmem Z :=
  let! '(str, last) := iter_fuel fuel (fun '(str, last) =>
    let! v := ld str in
    if negb (v =? 0) then ret (inl (str + 1, if v =? u8 c then str else last))
    else ret (inr (str, last))) (str, 0) in
  ret (if c =? 0 then str else last).

Definition strchr (fuel : nat) (str c : Z) : M cmem Z :=
  iter_fuel fuel (fun str =>
    let! v := ld str in
    if negb (v =? 0) then
      if v =? u8 c then ret (inr str) else ret (inl (str + 1))
    else ret (inr (if c =? 0 then str else 0))) str.

(** A character of the string passed to strchr is a [char], sign-extended. *)
Definition is_delim (fuel : nat) (delim c : Z) : M cmem bool :=
  let! p := strchr fuel delim (s8 c) in ret (negb (p =? 0)).

Definition strtok (fuel : nat) (str delim : Z) : M cmem Z :=
  let! nt := gets next_token in
  if (str =? 0) && (nt =? 0) then ret 0 else
  modify (fun s => if negb (str =? 0) then set_next_token str s else s) ;;;
  let! start := gets next_token in
  let! start := iter_fuel fuel (fun start =>
    let! c := ld start in
    if c =? 0 then ret (inr start) else
    let! d := is_delim fuel delim c in
    if d then ret (inl (start + 1)) else ret (inr start)) start in
  let! c := ld start in
  if c =? 0 then modify (set_next_token 0) ;;; ret 0 else
  let! e := iter_fuel fuel (fun e =>
    let! c := ld e in
    if c =? 0 then ret (inr e) else
    let! d := is_delim fuel delim c in
    if negb d then ret (inl (e + 1)) else ret (inr e)) start in
  let! c := ld e in
  (if negb (c =? 0) then st e 0 ;;; modify (set_next_token (e + 1))
   else modify (set_next_token 0)) ;;;
  ret start.

(** ** string.c: numbers *)

(** Swapping the first half of [buffer[0..i)] with the second. *)
Definition reverse_digits (buffer i : Z) : M cmem unit :=
  repeat_n (i ÷ 2) (fun j =>
    let! temp := ld (buffer + j) in
    let! d := ld (buffer + i - j - 1) in
    st (buffer + j) d ;;; st (buffer + i - j - 1) temp).

(** [num = -num] on INT_MIN overflows and is undefined; 11 rounds are enough
    for the digits of an [int]. *)
Definition int_to_str (num buffer : Z) : M cmem unit :=
  if num =? 0 then st buffer 48 ;;; st (buffer + 1) 0 else
  guard (negb (num =? -2147483648)) ;;;
  let is_negative := num <? 0 in
  let num := if is_negative then - num else num in
  let! i := iter_fuel 12 (fun '(i, num) =>
    if negb (num =? 0) then
      st (buffer + i) (Z.rem num 10 + 48) ;;; ret (inl (i + 1, num ÷ 10))
    else ret (inr i)) (0, num) in
  let! i := (if is_negative then st (buffer + i) 45 ;;; ret (i + 1) else ret i) in
  st (buffer + i) 0 ;;;
  reverse_digits buffer i.

Definition digit_chars : list Z :=
  [48; 49; 50; 51; 52; 53; 54; 55; 56; 57; 65; 66; 67; 68; 69; 70].

(** [base] is an [int], converted to unsigned in the division; digits past
    the sixteenth are read behind the literal and undefined.  A base of one
    never ends. *)
Definition int_to_base_str (num buffer base : Z) : M cmem unit :=
  if num =? 0 then st buffer 48 ;;; st (buffer + 1) 0 else
  let! i := iter_fuel 33 (fun '(i, num) =>
    if negb (num =? 0) then
      guard (negb (u32 base =? 0)) ;;;
      match digit_chars !! Z.to_nat (num mod u32 base) with
      | None => undef
      | Some d => st (buffer + i) d ;;; ret (inl (i + 1, num / u32 base))
      end
    else ret (inr i)) (0, num) in
  st (buffer + i) 0 ;;;
  reverse_digits buffer i.

(** The do-while of int_to_ascii; its [reverse] works on the whole string. *)
Definition int_to_ascii (fuel : nat) (n str : Z) : M cmem unit :=
  guard (negb (n =? -2147483648)) ;;;
  let sign := n in
  let n := if n <? 0 then - n else n in
  let! i := iter_fuel 12 (fun '(i, n) =>
    st (str + i) (Z.rem n 10 + 48) ;;;
    let n := n ÷ 10 in
    if 0 <? n then ret (inl (i + 1, n)) else ret (inr (i + 1))) (0, n) in
  let! i := (if sign <? 0 then st (str + i) 45 ;;; ret (i + 1) else ret i) in
  st (str + i) 0 ;;;
  reverse fuel str.

(** ** Strings in memory *)

(** The bytes [l] are at [p]. *)
Definition bytes_at (m : gmap Z Z) (p : Z) (l : list Z) : Prop :=
  forall (i : nat) c, l !! i = Some c -> m !! (p + Z.of_nat i) = Some c.

(** The [n] bytes from [p] are mapped. *)
Definition mapped (m : gmap Z Z) (p n : Z) : Prop :=
  forall a, p <= a < p + n -> is_Some (m !! a).

Definition char_ok (c : Z) : Prop := 0 < c < 256.

(** The C string at [p] is [l]. *)
Definition cstr (m : gmap Z Z) (p : Z) (l : list Z) : Prop :=
  bytes_at m p (l ++ [0]) /\ Forall char_ok l.

(** [m'] is [m] with the bytes [l] stored from [p] on. *)
Definition updated (m m' : gmap Z Z) (p : Z) (l : list Z) : Prop :=
  forall a, m' !! a = if decide (p <= a < p + zlen l) then l !! Z.to_nat (a - p) else m !! a.

Section memory.
Implicit Types (m : gmap Z Z) (l : list Z).

Lemma bytes_at_nil m p : bytes_at m p [].
Proof. by intros i c ?. Qed.

Lemma bytes_at_app m p l1 l2 :
  bytes_at m p (l1 ++ l2) <-> bytes_at m p l1 /\ bytes_at m (p + zlen l1) l2.
Proof.
  split.
  - intros Hb. split; intros i c Hi.
    + apply Hb. by apply lookup_app_l_Some.
    + rewrite <- (Hb (length l1 + i)%nat c); [f_equal; lia|].
      rewrite lookup_app_r by lia. rewrite <- Hi. f_equal. lia.
  - intros [H1 H2] i c [Hi|[Hi Hc]]%lookup_app_Some; [by apply H1|].
    rewrite <- (H2 _ _ Hc). f_equal. lia.
Qed.

Lemma bytes_at_cons m p c l : bytes_at m p (c :: l) <-> m !! p = Some c /\ bytes_at m (p + 1) l.
Proof.
  change (c :: l) with ([c] ++ l). rewrite bytes_at_app. cbn [length]. split; intros [Hb ?].
  - split; [|done]. rewrite <- (Hb 0%nat c eq_refl). f_equal. lia.
  - split; [|done]. intros i x [-> <-]%list_lookup_singleton_Some. rewrite <- Hb. f_equal. lia.
Qed.

Lemma bytes_at_ext m m' p l : bytes_at m p l ->
  (forall a, p <= a < p + zlen l -> m' !! a = m !! a) -> bytes_at m' p l.
Proof.
  intros Hb He i c Hi. rewrite He; [by apply Hb|]. apply lookup_lt_Some in Hi. lia.
Qed.

Lemma bytes_at_mapped m p l : bytes_at m p l -> mapped m p (zlen l).
Proof.
  intros Hb a Ha. destruct (lookup_lt_is_Some_2 l (Z.to_nat (a - p))) as [c Hc]; [lia|].
  exists c. rewrite <- (Hb _ _ Hc). f_equal. lia.
Qed.

Lemma updated_bytes m m' p l : updated m m' p l -> bytes_at m' p l.
Proof.
  intros Hu i c Hi. pose proof (lookup_lt_Some _ _ _ Hi). rewrite Hu, decide_True by lia.
  rewrite <- Hi. f_equal. lia.
Qed.

Lemma updated_other m m' p l a : updated m m' p l -> a < p \/ p + zlen l <= a -> m' !! a = m !! a.
Proof. intros Hu Ha. rewrite Hu, decide_False by lia. done. Qed.

Lemma updated_nil m p : updated m m p [].
Proof. intros a. rewrite decide_False; [done | simpl; lia]. Qed.

Lemma updated_snoc m m1 p l c :
  updated m m1 p l -> updated m (<[p + zlen l := c]> m1) p (l ++ [c]).
Proof.
  intros Hu a. rewrite length_app. cbn [length]. destruct (decide (a = p + zlen l)) as [->|Hne].
  - rewrite lookup_insert_eq, decide_True by lia. rewrite lookup_app_r by lia.
    replace (Z.to_nat _ - _)%nat with 0%nat by lia. done.
  - rewrite lookup_insert_ne by done. rewrite Hu. do 2 case_decide; try lia; [|done].
    symmetry. apply lookup_app_l. lia.
Qed.

(** One more byte of a region, for loops that write upwards. *)
Lemma updated_mapped m m' p l q n : updated m m' p l -> mapped m q n -> mapped m' q n.
Proof.
  intros Hu Hm a Ha. rewrite Hu. case_decide; [|by apply Hm]. apply lookup_lt_is_Some. lia.
Qed.

(** Memory accesses. *)
Lemma wp_ld p v Q (s : cmem) : mem s !! p = Some v -> Q v s -> wp (ld p) Q s.
Proof. intros Hv HQ. unfold wp, ld. by rewrite Hv. Qed.

Lemma wp_st p v Q (s : cmem) : is_Some (mem s !! p) ->
  Q tt (set_mem (<[p := u8 v]> (mem s)) s) -> wp (st p v) Q s.
Proof. intros [x Hx] HQ. unfold wp, st. by rewrite Hx. Qed.

Lemma wp_repeat_n {S} (I : Z -> S -> Prop) n body (Q : unit -> S -> Prop) s :
  0 <= n -> I 0 s ->
  (forall i s, 0 <= i < n -> I i s -> wp (body i) (fun _ s' => I (i + 1) s') s) ->
  (forall s, I n s -> Q tt s) -> wp (repeat_n n body) Q s.
Proof.
  intros Hn H0 Hb HQ. unfold repeat_n. wp_step. apply (wp_for I); [| |done].
  - intros j s1 Hj Hi. wp_step. eapply wp_mono; [apply Hb; [lia | done]|]. intros u s2 Hs2.
    by wp_step.
  - intros s1 Hs1. wp_step. apply HQ. by replace n with (0 + Z.of_nat (Z.to_nat n)) by lia.
Qed.

Lemma cstr_char m p l (i : nat) : cstr m p l -> (i <= length l)%nat ->
  exists c, m !! (p + Z.of_nat i) = Some c /\ 0 <= c < 256 /\
    ((i < length l)%nat -> l !! i = Some c /\ c <> 0) /\ (i = length l -> c = 0).
Proof.
  intros [Hb Hok] Hi. destruct (lookup_lt_is_Some_2 (l ++ [0]) i) as [c Hc].
  { rewrite length_app. simpl. lia. }
  exists c. split; [by apply Hb|]. apply lookup_app_Some in Hc as [Hc|[Hge Hc]].
  - rewrite Forall_lookup in Hok. specialize (Hok _ _ Hc). unfold char_ok in Hok.
    pose proof (lookup_lt_Some _ _ _ Hc). repeat split; (done || lia).
  - apply list_lookup_singleton_Some in Hc as [? <-]. repeat split; lia.
Qed.

Lemma cstr_ext m m' p l : cstr m p l ->
  (forall a, p <= a <= p + zlen l -> m' !! a = m !! a) -> cstr m' p l.
Proof.
  intros [Hb Hok] He. split; [|done]. eapply bytes_at_ext; [done|].
  intros a Ha. apply He. rewrite length_app in Ha. simpl in Ha. lia.
Qed.
End memory.

(** ** What the functions compute *)

Section specs.
Implicit Types (l : list Z) (s : cmem).

Lemma strlen_spec s p l fuel Q :
  cstr (mem s) p l -> (length l < fuel)%nat -> zlen l < 2147483648 ->
  Q (zlen l) s -> wp (strlen fuel p) Q s.
Proof.
  intros Hc Hf Hl HQ. unfold strlen.
  apply (wp_iter (fun i s1 => s1 = s /\ 0 <= i <= zlen l) (fun i _ => Z.to_nat (zlen l - i)));
    [|split; [done | lia] | lia].
  intros i s1 [-> Hi]. destruct (cstr_char _ _ _ (Z.to_nat i) Hc ltac:(lia)) as (c & Hld & _ & Hlt & Hend).
  rewrite Z2Nat.id in Hld by lia. wp_step. apply (wp_ld _ c); [done|]. case_if.
  - wp_steps. split; [split; [done | lia] | lia].
  - subst c. destruct (decide (i = zlen l)) as [->|]; [by wp_step|].
    destruct Hlt as [_ ?]; [lia | done].
Qed.

(** Copying upwards between regions that do not overlap. *)
Lemma memcpy_spec s dest src l Q :
  bytes_at (mem s) src l -> Forall byte l -> mapped (mem s) dest (zlen l) ->
  dest + zlen l <= src \/ src + zlen l <= dest ->
  (forall m', updated (mem s) m' dest l -> Q dest (set_mem m' s)) ->
  wp (memcpy dest src (zlen l)) Q s.
Proof.
  intros Hb Hby Hm Hd HQ. unfold memcpy. wp_step.
  apply (wp_repeat_n (fun i s1 => exists m1, s1 = set_mem m1 s /\
    updated (mem s) m1 dest (take (Z.to_nat i) l))); [lia | | |].
  - exists (mem s). split; [by destruct s | apply updated_nil].
  - intros i s1 Hi (m1 & -> & Hu).
    destruct (lookup_lt_is_Some_2 l (Z.to_nat i)) as [c Hc]; [lia|].
    wp_step. apply (wp_ld _ c).
    { simpl. rewrite (updated_other _ _ _ _ _ Hu) by (rewrite length_take; lia).
      rewrite <- (Hb _ _ Hc). f_equal. lia. }
    apply wp_st; [apply (updated_mapped _ _ _ _ dest (zlen l) Hu Hm); lia|].
    exists (<[dest + i := c]> m1). rewrite Forall_lookup in Hby.
    rewrite (u8_small c) by (by eapply Hby). split; [done|].
    replace (dest + i) with (dest + zlen (take (Z.to_nat i) l)) by (rewrite length_take; lia).
    replace (Z.to_nat (i + 1)) with (S (Z.to_nat i)) by lia.
    rewrite (take_S_r _ _ c) by done. by apply updated_snoc.
  - intros s1 (m1 & -> & Hu). wp_step. apply HQ. by rewrite Nat2Z.id, firstn_all in Hu.
Qed.

Lemma memset_spec s p c n Q :
  0 <= n -> mapped (mem s) p n ->
  (forall m', updated (mem s) m' p (replicate (Z.to_nat n) (u8 c)) -> Q p (set_mem m' s)) ->
  wp (memset p c n) Q s.
Proof.
  intros Hn Hm HQ. unfold memset. wp_step.
  apply (wp_repeat_n (fun i s1 => exists m1, s1 = set_mem m1 s /\
    updated (mem s) m1 p (replicate (Z.to_nat i) (u8 c)))); [lia | | |].
  - exists (mem s). split; [by destruct s | apply updated_nil].
  - intros i s1 Hi (m1 & -> & Hu). apply wp_st; [apply (updated_mapped _ _ _ _ p n Hu Hm); lia|].
    exists (<[p + i := u8 c]> m1). split; [done|].
    replace (Z.to_nat (i + 1)) with (Z.to_nat i + 1)%nat by lia. rewrite replicate_add.
    replace (p + i) with (p + zlen (replicate (Z.to_nat i) (u8 c))) by (rewrite length_replicate; lia).
    by apply updated_snoc.
  - intros s1 (m1 & -> & Hu). wp_step. by apply HQ.
Qed.
End specs.

(** ** Comparison *)

(** What strcmp returns on the strings [a] and [b]. *)
Fixpoint str_cmp (a b : list Z) : Z :=
  match a, b with
  | [], [] => 0
  | x :: _, [] => s8 x
  | [], y :: _ => - s8 y
  | x :: a, y :: b => if x =? y then str_cmp a b else s8 x - s8 y
  end.

Lemma s8_inj x y : 0 <= x < 256 -> 0 <= y < 256 -> s8 x = s8 y -> x = y.
Proof.
  intros Hx Hy. unfold s8.
  assert (Hs : forall z, 0 <= z < 256 -> (z + 128) mod 256 = if z <? 128 then z + 128 else z - 128).
  { intros z Hz. case_if; [apply Z.mod_small; lia|].
    replace (z + 128) with (z - 128 + 1 * 256) by lia. rewrite Z.mod_add by lia.
    apply Z.mod_small. lia. }
  rewrite !Hs by done. repeat case_if; lia.
Qed.

Lemma str_cmp_eq a b : Forall char_ok a -> Forall char_ok b -> str_cmp a b = 0 <-> a = b.
Proof.
  intros Ha. revert b. assert (H0 : s8 0 = 0) by done.
  induction Ha as [|x a Hx Ha IH]; intros b Hb; destruct Hb as [|y b Hy Hb]; simpl; unfold char_ok in *.
  - done.
  - split; [|done]. intros Hs. exfalso. assert (y = 0) by (apply s8_inj; lia). lia.
  - split; [|done]. intros Hs. exfalso. assert (x = 0) by (apply s8_inj; lia). lia.
  - case_if.
    + subst. rewrite IH by done. split; [by intros ->| by intros [= ->]].
    + split; [|congruence]. intros Hs. exfalso. apply Hb0. apply s8_inj; lia.
Qed.

Lemma str_cmp_drop a b (i : nat) c :
  a !! i = Some c -> b !! i = Some c -> str_cmp (drop i a) (drop i b) = str_cmp (drop (S i) a) (drop (S i) b).
Proof.
  intros Ha Hb. rewrite (drop_S _ _ _ Ha), (drop_S _ _ _ Hb). simpl. by rewrite Z.eqb_refl.
Qed.

Section cmp.
Implicit Types (s : cmem).

Lemma strcmp_spec s p1 p2 a b fuel Q :
  cstr (mem s) p1 a -> cstr (mem s) p2 b -> (length a < fuel)%nat ->
  Q (str_cmp a b) s -> wp (strcmp fuel p1 p2) Q s.
Proof.
  intros Ha Hb Hf HQ. unfold strcmp.
  apply (wp_iter (fun i s1 => s1 = s /\ 0 <= i <= zlen a /\ i <= zlen b /\
    str_cmp (drop (Z.to_nat i) a) (drop (Z.to_nat i) b) = str_cmp a b)
    (fun i _ => Z.to_nat (zlen a - i))); [|split; [done | split; [lia | split; [lia | done]]] | lia].
  intros i s1 (-> & Hi & Hi' & Hc).
  destruct (cstr_char _ _ _ (Z.to_nat i) Ha ltac:(lia)) as (x & Hx & Hxr & Hxl & Hxe).
  destruct (cstr_char _ _ _ (Z.to_nat i) Hb ltac:(lia)) as (y & Hy & Hyr & Hyl & Hye).
  rewrite Z2Nat.id in Hx, Hy by lia.
  wp_step. apply (wp_ld _ x); [done|]. wp_step. apply (wp_ld _ y); [done|].
  destruct (decide (i = zlen a)) as [Hea|Hea], (decide (i = zlen b)) as [Heb|Heb].
  - rewrite (Hxe ltac:(lia)), (Hye ltac:(lia)). simpl. wp_step.
    rewrite !drop_ge in Hc by lia. simpl in Hc. by rewrite Hc.
  - destruct (Hyl ltac:(lia)) as [Hly Hnz]. rewrite (Hxe ltac:(lia)).
    destruct (Z.eqb_spec 0 y); [congruence|]. wp_step.
    rewrite (drop_ge a), (drop_S _ _ _ Hly) in Hc by lia. simpl in Hc. by rewrite <- Hc in HQ.
  - destruct (Hxl ltac:(lia)) as [Hlx Hnz]. rewrite (Hye ltac:(lia)).
    destruct (Z.eqb_spec x 0); [done|]. wp_step.
    rewrite (drop_ge b), (drop_S _ _ _ Hlx) in Hc by lia. simpl in Hc.
    change (s8 0) with 0. rewrite Z.sub_0_r. by rewrite <- Hc in HQ.
  - destruct (Hxl ltac:(lia)) as [Hlx Hnz], (Hyl ltac:(lia)) as [Hly _].
    destruct (Z.eqb_spec x y) as [->|Hne].
    + rewrite (proj2 (Z.eqb_neq _ _) Hnz). wp_step. split; [|lia].
      split; [done|]. split; [lia|]. split; [lia|]. rewrite <- Hc.
      replace (Z.to_nat (i + 1)) with (S (Z.to_nat i)) by lia. symmetry. by eapply str_cmp_drop.
    + wp_step. rewrite (drop_S _ _ _ Hlx), (drop_S _ _ _ Hly) in Hc. simpl in Hc.
      rewrite (proj2 (Z.eqb_neq _ _) Hne) in Hc. by rewrite <- Hc in HQ.
Qed.

(** ** Searching *)

Lemma strchr_spec s p l c fuel (Q : Z -> cmem -> Prop) :
  cstr (mem s) p l -> (length l < fuel)%nat -> 0 < p ->
  (forall r, (r = 0 <-> (u8 c ∉ l) /\ c <> 0) -> Q r s) -> wp (strchr fuel p c) Q s.
Proof.
  intros Hs Hf Hp HQ. unfold strchr.
  apply (wp_iter (fun a s1 => s1 = s /\ p <= a <= p + zlen l /\ u8 c ∉ take (Z.to_nat (a - p)) l)
    (fun a _ => Z.to_nat (p + zlen l - a))); [| |lia].
  - intros a s1 (-> & Ha & Hn).
    destruct (cstr_char _ _ _ (Z.to_nat (a - p)) Hs ltac:(lia)) as (v & Hv & Hvr & Hvl & Hve).
    replace (p + _) with a in Hv by lia. wp_step. apply (wp_ld _ v); [done|]. case_if.
    + destruct Hvl as [Hl _]; [lia|]. case_if; wp_step.
      * apply HQ. split; [lia|]. intros [Hni _]. subst v. by apply list_elem_of_lookup_2 in Hl.
      * split; [|lia]. split; [done|]. split; [lia|].
        replace (Z.to_nat (a + 1 - p)) with (S (Z.to_nat (a - p))) by lia.
        rewrite (take_S_r _ _ _ Hl). set_solver.
    + wp_step. apply HQ. assert (a = p + zlen l) as -> by (apply Z.le_antisymm; [lia|]; subst v; destruct (decide (a < p + zlen l)); [destruct Hvl; lia | lia]).
      rewrite firstn_all2 in Hn by lia. case_if; [|tauto]. split; [lia | tauto].
  - split; [done|]. split; [lia|]. rewrite Z.sub_diag. simpl. set_solver.
Qed.

Lemma is_delim_spec s delim dl c fuel (Q : bool -> cmem -> Prop) :
  cstr (mem s) delim dl -> (length dl < fuel)%nat -> 0 < delim -> char_ok c ->
  Q (bool_decide (c ∈ dl)) s -> wp (is_delim fuel delim c) Q s.
Proof.
  intros Hd Hf Hp Hc HQ. unfold is_delim. wp_step. apply (strchr_spec s delim dl); try done.
  intros r Hr. wp_step. unfold char_ok in Hc.
  assert (Hu : u8 (s8 c) = c).
  { unfold u8, s8. rewrite Zminus_mod_idemp_l. replace (c + 128 - 128) with c by lia.
    apply Z.mod_small. lia. }
  assert (Hs : s8 c <> 0) by (intros H0; rewrite H0 in Hu; change (u8 0) with 0 in Hu; lia).
  rewrite Hu in Hr. replace (negb (r =? 0)) with (bool_decide (c ∈ dl)); [done|].
  case_bool_decide; destruct (Z.eqb_spec r 0); simpl; tauto.
Qed.
End cmp.

(** ** Tokens *)

(** Number of leading elements of [l] with [P]. *)
Fixpoint lead (P : Z -> bool) (l : list Z) : nat :=
  match l with
  | [] => O
  | c :: l => if P c then S (lead P l) else O
  end.

Lemma lead_le P l : (lead P l <= length l)%nat.
Proof. induction l as [|c l IH]; simpl; [done|]. destruct (P c); lia. Qed.

Lemma lead_lookup P l (i : nat) c : (i < lead P l)%nat -> l !! i = Some c -> P c = true.
Proof.
  revert i. induction l as [|x l IH]; intros i Hi Hc; [done|]. simpl in Hi.
  destruct (P x) eqn:HP; [|lia]. destruct i; simpl in Hc; [congruence|]. apply (IH i); [lia | done].
Qed.

Lemma lead_stop P l c : l !! lead P l = Some c -> P c = false.
Proof.
  induction l as [|x l IH]; simpl; [done|]. destruct (P x) eqn:HP; simpl; [done | congruence].
Qed.

Section strtok.
Implicit Types (s : cmem) (l dl : list Z).

Definition delim_in (dl : list Z) (c : Z) : bool := bool_decide (c ∈ dl).

(** Both scanning loops of strtok: run over the characters with [P]. *)
Lemma scan_spec s p l dl delim (neg : bool) fuel (Q : Z -> cmem -> Prop) :
  cstr (mem s) p l -> cstr (mem s) delim dl -> 0 < delim ->
  (length l < fuel)%nat -> (length dl < fuel)%nat ->
  Q (p + Z.of_nat (lead (fun c => xorb neg (delim_in dl c)) l)) s ->
  wp (iter_fuel fuel (fun a =>
    let! c := ld a in
    if c =? 0 then ret (inr a) else
    let! d := is_delim fuel delim c in
    if xorb neg d then ret (inl (a + 1)) else ret (inr a)) p) Q s.
Proof.
  intros Hs Hd Hp Hf Hf' HQ. set (n := lead _ l) in *. pose proof (lead_le (fun c => xorb neg (delim_in dl c)) l) as Hle.
  fold n in Hle.
  apply (wp_iter (fun a s1 => s1 = s /\ p <= a <= p + Z.of_nat n)
    (fun a _ => Z.to_nat (p + Z.of_nat n - a))); [|split; [done | lia] | lia].
  intros a s1 [-> Ha].
  destruct (cstr_char _ _ _ (Z.to_nat (a - p)) Hs ltac:(lia)) as (v & Hv & Hvr & Hvl & Hve).
  replace (p + _) with a in Hv by lia. wp_step. apply (wp_ld _ v); [done|]. case_if.
  - wp_step. replace a with (p + Z.of_nat n); [done|].
    destruct (decide (a = p + Z.of_nat n)); [done|]. destruct Hvl; lia.
  - destruct Hvl as [Hl _]; [destruct (decide (Z.to_nat (a - p) = length l)); lia|].
    wp_step. apply (is_delim_spec s delim dl); [done | done | done | unfold char_ok; lia|].
    fold (delim_in dl v). destruct (decide (a = p + Z.of_nat n)) as [He|].
    + replace (xorb neg (delim_in dl v)) with false; [wp_step; by rewrite He|].
      symmetry. apply (lead_stop (fun c => xorb neg (delim_in dl c)) l). rewrite <- Hl. f_equal. fold n. lia.
    + replace (xorb neg (delim_in dl v)) with true; [wp_step; split; [split; [done|] |]; lia|].
      symmetry. eapply (lead_lookup (fun c => xorb neg (delim_in dl c)) l); [|exact Hl]. fold n. lia.
Qed.

Lemma cstr_drop m p l (k : nat) : cstr m p l -> (k <= length l)%nat ->
  cstr m (p + Z.of_nat k) (drop k l).
Proof.
  intros [Hb Hok] Hk. split; [|by apply Forall_drop].
  rewrite <- (take_drop k l), <- app_assoc in Hb. apply bytes_at_app in Hb as [_ Hb].
  by rewrite length_take, Nat.min_l in Hb.
Qed.

(** The first token of [l]: what is before it and its length. *)
Definition tok_skip dl l : nat := lead (delim_in dl) l.
Definition tok_len dl l : nat :=
  lead (fun c => negb (delim_in dl c)) (drop (tok_skip dl l) l).

(** strtok on the string [l] at [p] (given, or left by the call before):
    no token, or the token at its place, terminated in place, the rest of
    the string kept for the next call. *)
Lemma strtok_spec s str p l dl delim fuel (Q : Z -> cmem -> Prop) :
  (if str =? 0 then next_token s else str) = p -> 0 < p -> 0 < delim ->
  cstr (mem s) p l -> cstr (mem s) delim dl ->
  (length l < fuel)%nat -> (length dl < fuel)%nat ->
  (drop (tok_skip dl l) l = [] -> Q 0 (set_next_token 0 s)) ->
  (drop (tok_skip dl l) l <> [] -> drop (tok_skip dl l + tok_len dl l) l = [] ->
     Q (p + Z.of_nat (tok_skip dl l)) (set_next_token 0 s)) ->
  (drop (tok_skip dl l) l <> [] -> drop (tok_skip dl l + tok_len dl l) l <> [] ->
     Q (p + Z.of_nat (tok_skip dl l))
       (mk_cmem (<[p + Z.of_nat (tok_skip dl l + tok_len dl l) := 0]> (mem s))
          (p + Z.of_nat (tok_skip dl l + tok_len dl l) + 1))) ->
  wp (strtok fuel str delim) Q s.
Proof.
  intros Hstart Hp Hdp Hl Hd Hf Hf' HQ0 HQ1 HQ2. unfold strtok.
  pose proof (lead_le (delim_in dl) l) as Hle. fold (tok_skip dl l) in Hle.
  assert (Hnz : (str =? 0) && (next_token s =? 0) = false).
  { destruct (Z.eqb_spec str 0); [|done]. apply Z.eqb_neq. lia. }
  wp_step. apply wp_gets. rewrite Hnz. wp_step. apply wp_modify. wp_step. apply wp_gets.
  set (s1 := if negb (str =? 0) then set_next_token str s else s).
  assert (Hs1 : next_token s1 = p /\ mem s1 = mem s).
  { unfold s1. destruct (Z.eqb_spec str 0); simpl; split; congruence. }
  destruct Hs1 as [Hn1 Hm1]. rewrite Hn1.
  wp_step. apply (scan_spec s1 p l dl delim false); rewrite ?Hm1; try done.
  change (lead (fun c => xorb false (delim_in dl c)) l) with (tok_skip dl l).
  set (k := tok_skip dl l) in *.
  destruct (cstr_char _ _ _ k Hl Hle) as (v & Hv & Hvr & Hvl & Hve).
  wp_step. apply (wp_ld _ v); [by rewrite Hm1|]. case_if.
  { wp_steps. replace (set_next_token 0 s1) with (set_next_token 0 s)
      by (unfold set_next_token; by rewrite Hm1).
    apply HQ0. apply drop_ge. destruct (decide (k < length l)%nat); [destruct Hvl|]; lia. }
  assert (Hk : (k < length l)%nat) by (destruct (decide (k = length l)); lia).
  assert (Hdk : drop k l <> []) by (intros He; apply (f_equal length) in He; rewrite length_drop in He; simpl in He; lia).
  pose proof (cstr_drop _ _ _ k Hl Hle) as Hlk.
  pose proof (lead_le (fun c => negb (delim_in dl c)) (drop k l)) as Hle2. rewrite length_drop in Hle2.
  change (lead _ (drop k l)) with (tok_len dl l) in Hle2.
  wp_step. apply (scan_spec s1 _ (drop k l) dl delim true); rewrite ?Hm1; try done;
    [rewrite length_drop; lia|].
  change (lead (fun c => xorb true (delim_in dl c)) (drop k l)) with (tok_len dl l).
  set (n := tok_len dl l) in *.
  destruct (cstr_char _ _ _ n Hlk ltac:(rewrite length_drop; lia)) as (w & Hw & Hwr & Hwl & Hwe).
  rewrite length_drop in Hwl, Hwe.
  wp_step. apply (wp_ld _ w); [by rewrite Hm1|].
  replace (p + Z.of_nat (k + n)) with (p + Z.of_nat k + Z.of_nat n) in HQ2 by lia.
  wp_step. case_if.
  - wp_step. apply wp_st; [rewrite Hm1; by exists w|]. apply wp_modify. wp_step.
    rewrite Hm1. apply HQ2; [done|]. intros He. apply (f_equal length) in He.
    rewrite length_drop in He. simpl in He. lia.
  - apply wp_modify. wp_step. replace (set_next_token 0 s1) with (set_next_token 0 s)
      by (unfold set_next_token; by rewrite Hm1).
    apply HQ1; [done|]. apply drop_ge. destruct (decide (n < length l - k)%nat); [destruct Hwl|]; lia.
Qed.
End strtok.

(** The tokens of [l]: its maximal runs of characters outside [dl], in order.
    The first argument bounds the recursion; the length of [l] is enough. *)
Fixpoint fields (n : nat) (dl l : list Z) : list (list Z) :=
  match n with
  | O => []
  | S n =>
      match drop (tok_skip dl l) l with
      | [] => []
      | r => take (tok_len dl l) r :: fields n dl (drop (tok_skip dl l + tok_len dl l + 1) l)
      end
  end.

Section tokens.
Implicit Types (s : cmem) (l dl : list Z).

(** The loop over the tokens of a string, as strtok's clients write it:
    the first call gets the string, the others NULL. *)
Definition strtok_all (n fuel : nat) (str delim : Z) : M cmem (list Z) :=
  iter_fuel n (fun '(str, acc) =>
    let! t := strtok fuel str delim in
    if t =? 0 then ret (inr acc) else ret (inl (0, acc ++ [t]))) (str, []).

Lemma fields_nil n dl : fields n dl [] = [].
Proof. by destruct n. Qed.

Lemma cstr_token m p l (k n : nat) :
  cstr m p l -> (k + n < length l)%nat ->
  cstr (<[p + Z.of_nat (k + n) := 0]> m) (p + Z.of_nat k) (take n (drop k l)).
Proof.
  intros Hl Hn. pose proof (cstr_drop _ _ _ k Hl ltac:(lia)) as [Hb Hok].
  split; [|by apply Forall_take]. apply bytes_at_app. rewrite length_take, length_drop.
  rewrite (Nat.min_l n) by lia. split.
  - rewrite <- (take_drop n (drop k l)), <- app_assoc in Hb. apply bytes_at_app in Hb as [Hb _].
    eapply bytes_at_ext; [exact Hb|]. intros a Ha. rewrite length_take in Ha.
    apply lookup_insert_ne. lia.
  - apply bytes_at_cons. split; [|apply bytes_at_nil].
    replace (p + Z.of_nat k + Z.of_nat n) with (p + Z.of_nat (k + n)) by lia.
    apply lookup_insert_eq.
Qed.

Lemma tok_bounds dl l : (tok_skip dl l + tok_len dl l <= length l)%nat.
Proof.
  pose proof (lead_le (delim_in dl) l). unfold tok_len.
  pose proof (lead_le (fun c => negb (delim_in dl c)) (drop (tok_skip dl l) l)) as Hl.
  rewrite length_drop in Hl. unfold tok_skip in *. lia.
Qed.

Lemma drop_full {A} (k : nat) (l : list A) : drop k l = [] <-> (length l <= k)%nat.
Proof.
  split; [|apply drop_ge]. intros Hd%(f_equal length). rewrite length_drop in Hd. simpl in Hd. lia.
Qed.

(** What the loop leaves: the addresses of the tokens, each a string of the
    memory, and the rest of the memory untouched. *)
Definition tokens_at s p l fs acc (ts : list Z) s' : Prop :=
  exists ts', ts = acc ++ ts' /\ Forall2 (cstr (mem s')) ts' fs /\
    (forall a, a < p \/ p + zlen l <= a -> mem s' !! a = mem s !! a).

Lemma strtok_all_spec dl delim fuel n : forall l s str p acc,
  (if str =? 0 then next_token s else str) = p -> 0 < p -> 0 < delim ->
  cstr (mem s) p l -> cstr (mem s) delim dl ->
  delim + zlen dl < p \/ p + zlen l < delim ->
  (length l < fuel)%nat -> (length dl < fuel)%nat -> (length l < n)%nat ->
  (next_token s = 0 -> str <> 0) ->
  wp (iter_fuel (S n) (fun '(str, acc) =>
      let! t := strtok fuel str delim in
      if t =? 0 then ret (inr acc) else ret (inl (0, acc ++ [t]))) (str, acc))
    (tokens_at s p l (fields n dl l) acc) s.
Proof.
  induction n as [|n IH]; intros l s str p acc Hst Hp Hdp Hl Hd Hdis Hf Hf' Hn Hnt; [lia|].
  remember (S n) as n1. simpl. subst n1. wp_step. wp_step.
  pose proof (tok_bounds dl l) as Htb.
  apply (strtok_spec s str p l dl delim); try done; cbn [fields].
  - intros ->. simpl. wp_step. wp_step. exists []. rewrite app_nil_r. done.
  - intros Hne Hend. destruct (drop (tok_skip dl l) l) as [|x r] eqn:Hr; [done|].
    rewrite drop_full in Hend. destruct (Z.eqb_spec (p + Z.of_nat (tok_skip dl l)) 0); [lia|].
    wp_step. cbv iota. rewrite (drop_ge l) by lia. rewrite fields_nil.
    assert (Hstop : strtok fuel 0 delim (set_next_token 0 s) = Ret (0, set_next_token 0 s)) by done.
    simpl. unfold bind at 1, obind at 1. unfold wp. unfold bind at 1. rewrite Hstop. simpl.
    exists [p + Z.of_nat (tok_skip dl l)]. split; [done|]. split; [|done].
    constructor; [|constructor]. rewrite <- Hr, firstn_all2 by (rewrite length_drop; lia).
    apply cstr_drop; [done | lia].
  - intros Hne Hmore. destruct (drop (tok_skip dl l) l) as [|x r] eqn:Hr; [done|].
    rewrite drop_full in Hmore. destruct (Z.eqb_spec (p + Z.of_nat (tok_skip dl l)) 0); [lia|].
    wp_step. cbv iota. set (k := tok_skip dl l) in *. set (w := tok_len dl l) in *.
    eapply wp_mono.
    { apply (IH (drop (k + w + 1) l)) with (p := p + Z.of_nat (k + w) + 1); simpl;
        rewrite ?length_drop; try done; try lia.
      - replace (p + Z.of_nat (k + w) + 1) with (p + Z.of_nat (k + w + 1)) by lia.
        eapply cstr_ext; [apply (cstr_drop _ _ _ (k + w + 1) Hl); lia|].
        intros a Ha. apply lookup_insert_ne. lia.
      - eapply cstr_ext; [exact Hd|]. intros a Ha. apply lookup_insert_ne. lia. }
    intros ts s' (ts' & -> & Hall & Hfr). rewrite length_drop in Hfr. simpl in Hfr.
    exists (p + Z.of_nat k :: ts'). rewrite <- app_assoc. split; [done|]. split.
    + constructor; [|done]. rewrite <- Hr. eapply cstr_ext; [apply (cstr_token _ _ _ k w Hl); lia|].
      intros a Ha. rewrite length_take, length_drop in Ha. apply Hfr. lia.
    + intros a Ha. rewrite Hfr by lia. apply lookup_insert_ne. lia.
Qed.
End tokens.

(** ** memmove *)

Section memmove.
Implicit Types (s : cmem) (l : list Z).

Lemma ld32_spec s p a b c d (Q : Z -> cmem -> Prop) :
  bytes_at (mem s) p [a; b; c; d] -> Q (le_val [a; b; c; d]) s -> wp (ld32 p) Q s.
Proof.
  intros (Ha & (Hb & (Hc & (Hd & _)%bytes_at_cons)%bytes_at_cons)%bytes_at_cons)%bytes_at_cons HQ.
  replace (p + 1 + 1) with (p + 2) in Hc, Hd by lia. replace (p + 2 + 1) with (p + 3) in Hd by lia.
  unfold ld32. wp_step. apply (wp_ld _ a); [done|]. wp_step. apply (wp_ld _ b); [done|].
  wp_step. apply (wp_ld _ c); [done|]. wp_step. apply (wp_ld _ d); [done|]. by wp_step.
Qed.

(** Storing a word appends its four bytes to what was written so far. *)
Lemma st32_spec s m p l a b c d (Q : unit -> cmem -> Prop) :
  updated m (mem s) p l -> mapped m (p + zlen l) 4 ->
  byte a -> byte b -> byte c -> byte d ->
  (forall m', updated m m' p (l ++ [a; b; c; d]) -> Q tt (set_mem m' s)) ->
  wp (st32 (p + zlen l) (le_val [a; b; c; d])) Q s.
Proof.
  intros Hu Hm Ha Hb Hc Hd HQ. unfold byte in *.
  assert (Hx : forall v, u8 (a + 256 * v) = a) by (intros v; unfold u8; rewrite Z.mul_comm, Z_mod_plus_full; apply Z.mod_small; lia).
  assert (E0 : u8 (le_val [a; b; c; d]) = a) by apply Hx.
  assert (E1 : u8 (le_val [a; b; c; d] / 256) = b).
  { cbn [le_val]. rewrite (Z.mul_comm 256 (b + _)), Z.div_add, Z.div_small by lia.
    unfold u8. rewrite Z.add_0_l, Z.mul_comm, Z_mod_plus_full. apply Z.mod_small. lia. }
  assert (E2 : u8 (le_val [a; b; c; d] / 65536) = c).
  { cbn [le_val]. replace (a + _) with ((a + 256 * b) + (c + 256 * d) * 65536) by lia.
    rewrite Z.div_add, Z.div_small by lia. unfold u8. rewrite Z.add_0_l, Z.mul_comm, Z_mod_plus_full. apply Z.mod_small. lia. }
  assert (E3 : u8 (le_val [a; b; c; d] / 16777216) = d).
  { cbn [le_val]. replace (a + _) with ((a + 256 * b + 65536 * c) + d * 16777216) by lia.
    rewrite Z.div_add, Z.div_small by lia. unfold u8. rewrite Z.add_0_l. apply Z.mod_small. lia. }
  assert (Hs : forall m1 l1 i, updated m m1 p (l ++ l1) -> i = zlen l1 -> i < 4 ->
    is_Some (m1 !! (p + zlen l + i))).
  { intros m1 l1 i Hu1 -> Hi. apply (updated_mapped _ _ _ _ _ 4 Hu1 Hm). lia. }
  assert (Hn : forall m1 l1 i v, updated m m1 p (l ++ l1) -> i = zlen l1 ->
    updated m (<[p + zlen l + i := v]> m1) p (l ++ (l1 ++ [v]))).
  { intros m1 l1 i v Hu1 ->. rewrite app_assoc.
    replace (p + zlen l + zlen l1) with (p + zlen (l ++ l1)) by (rewrite length_app; lia).
    by apply updated_snoc. }
  unfold st32. rewrite <- (app_nil_r l) in Hu. rewrite <- (Z.add_0_r (p + zlen l)) at 1.
  wp_step. apply wp_st; [by apply (Hs _ [])|]. rewrite E0. apply (Hn _ _ 0 a) in Hu; [|done].
  wp_step. apply wp_st; [by apply (Hs _ [a])|]. rewrite E1. apply (Hn _ _ 1 b) in Hu; [|done].
  wp_step. apply wp_st; [by apply (Hs _ [a; b])|]. rewrite E2. apply (Hn _ _ 2 c) in Hu; [|done].
  apply wp_st; [by apply (Hs _ [a; b; c])|]. rewrite E3. apply (Hn _ _ 3 d) in Hu; [|done].
  by apply HQ.
Qed.

Lemma take_four (k : nat) l : (k + 4 <= length l)%nat ->
  exists a b c d, take (k + 4) l = take k l ++ [a; b; c; d] /\ slice (Z.of_nat k) 4 l = [a; b; c; d].
Proof.
  intros Hk. assert (Hl : length (take 4 (drop k l)) = 4%nat) by (rewrite length_take, length_drop; lia).
  destruct (take 4 (drop k l)) as [|a [|b [|c [|d [|? ?]]]]] eqn:Ht; try done.
  exists a, b, c, d. rewrite <- take_take_drop, Ht. split; [done|].
  unfold slice. by rewrite Nat2Z.id.
Qed.

(** memmove(dest, src, n), called to move [n] bytes, moves the [4 * n]
    bytes [l] that start at src: the three quarters after the first [n] are
    written behind the destination block. *)
Theorem memmove_moves_words s dest src n l :
  0 <= n -> zlen l = 4 * n -> bytes_at (mem s) src l -> Forall byte l ->
  mapped (mem s) dest (zlen l) -> dest + zlen l <= src ->
  exists m', memmove dest src n s = Ret (dest, set_mem m' s) /\ updated (mem s) m' dest l.
Proof.
  intros Hn Hl Hb Hby Hm Hd.
  assert (Hw : wp (memmove dest src n) (fun r s' => r = dest /\
    exists m', s' = set_mem m' s /\ updated (mem s) m' dest l) s); [|
    apply wp_run in Hw as (r & s' & Hr & -> & m' & -> & Hu); by exists m'].
  unfold memmove. wp_step. destruct (decide (n = 0)) as [->|Hn0].
  { destruct l; [|simpl in Hl; lia].
    apply (wp_mono _ (fun _ s' => s' = s)).
    - destruct (dest <? src); [done|]. by destruct (src <? dest).
    - intros u s' ->. wp_step. split; [done|]. exists (mem s). split; [by destruct s | apply updated_nil]. }
  rewrite (proj2 (Z.ltb_lt dest src)) by lia.
  apply (wp_repeat_n (fun i s1 => exists m1, s1 = set_mem m1 s /\
    updated (mem s) m1 dest (take (Z.to_nat (4 * i)) l))); [lia | | |].
  - exists (mem s). split; [by destruct s | apply updated_nil].
  - intros i s1 Hi (m1 & -> & Hu).
    destruct (take_four (Z.to_nat (4 * i)) l) as (a & b & c & d & Ht & Hsl); [lia|].
    assert (Hlt : zlen (take (Z.to_nat (4 * i)) l) = 4 * i) by (rewrite length_take; lia).
    assert (Hbw : bytes_at m1 (src + 4 * i) [a; b; c; d]).
    { rewrite <- (take_drop (Z.to_nat (4 * i) + 4) l), Ht, <- app_assoc in Hb.
      apply bytes_at_app in Hb as [_ [Hb _]%bytes_at_app]. rewrite Hlt in Hb.
      eapply bytes_at_ext; [exact Hb|]. intros x Hx. apply (updated_other _ _ _ _ _ Hu). lia. }
    pose proof (Forall_slice byte (Z.of_nat (Z.to_nat (4 * i))) 4 l Hby) as Hf. rewrite Hsl in Hf.
    repeat match goal with H : Forall byte (_ :: _) |- _ => apply Forall_cons in H as [? H] end.
    wp_step. apply (ld32_spec _ _ a b c d); [done|].
    replace (dest + 4 * i) with (dest + zlen (take (Z.to_nat (4 * i)) l)) by lia.
    apply (st32_spec _ (mem s)); try done; [intros x Hx; apply Hm; lia|].
    intros m' Hu'. exists m'. split; [done|].
    replace (Z.to_nat (4 * (i + 1))) with (Z.to_nat (4 * i) + 4)%nat by lia. by rewrite Ht.
  - intros s1 (m1 & -> & Hu). wp_step. split; [done|]. exists m1. split; [done|].
    rewrite firstn_all2 in Hu by lia. done.
Qed.
End memmove.

(** ** The theorems *)

(** strlen returns the length of a C string, and strcmp is 0 exactly on
    equal strings; neither changes memory. *)
Theorem strlen_strcmp_ok s p1 p2 a b fuel :
  cstr (mem s) p1 a -> cstr (mem s) p2 b -> (length a < fuel)%nat -> zlen a < 2147483648 ->
  strlen fuel p1 s = Ret (zlen a, s) /\
  exists r, strcmp fuel p1 p2 s = Ret (r, s) /\ (r = 0 <-> a = b).
Proof.
  intros Ha Hb Hf Hl. split.
  - pose proof (strlen_spec s p1 a fuel (fun r s' => r = zlen a /\ s' = s) Ha Hf Hl (conj eq_refl eq_refl)) as Hw.
    apply wp_run in Hw as (r & s' & -> & -> & ->). done.
  - pose proof (strcmp_spec s p1 p2 a b fuel (fun r s' => r = str_cmp a b /\ s' = s) Ha Hb Hf (conj eq_refl eq_refl)) as Hw.
    apply wp_run in Hw as (r & s' & -> & -> & ->). exists (str_cmp a b). split; [done|].
    apply str_cmp_eq; [apply Ha | apply Hb].
Qed.

(** The strtok loop over a string finds its tokens: the maximal runs of
    characters that are no delimiters, in order, each left as a C string in
    place; nothing outside the string is written. *)
Theorem strtok_tokens s str l dl delim n fuel :
  0 < str -> 0 < delim -> cstr (mem s) str l -> cstr (mem s) delim dl ->
  delim + zlen dl < str \/ str + zlen l < delim ->
  (length l < fuel)%nat -> (length dl < fuel)%nat -> (length l < n)%nat ->
  wp (strtok_all (S n) fuel str delim) (fun ts s' =>
    Forall2 (cstr (mem s')) ts (fields n dl l) /\
    forall a, a < str \/ str + zlen l <= a -> mem s' !! a = mem s !! a) s.
Proof.
  intros Hs Hd Hl Hdl Hdis Hf Hf' Hn. unfold strtok_all.
  eapply wp_mono; [apply (strtok_all_spec dl delim fuel n l s str str []); try done|].
  - destruct (Z.eqb_spec str 0); lia.
  - lia.
  - intros ts s' (ts' & -> & ?). done.
Qed.

Section string_witnesses.
(** The string a//bc at 10, the delimiter string / at 20. *)
Definition demo : cmem :=
  mk_cmem (list_to_map (imap (fun i c => (10 + Z.of_nat i, c)) [97; 47; 47; 98; 99; 0; 0; 0; 0; 0; 47; 0])) 0.

Lemma demo_str : cstr (mem demo) 10 [97; 47; 47; 98; 99].
Proof.
  split; [|repeat constructor; done]. intros i c Hc.
  do 6 (destruct i as [|i]; [simpl in Hc; simplify_eq; reflexivity|]). by rewrite lookup_ge_None_2 in Hc by (simpl; lia).
Qed.

Lemma demo_delim : cstr (mem demo) 20 [47].
Proof.
  split; [|repeat constructor; done]. intros i c Hc.
  do 2 (destruct i as [|i]; [simpl in Hc; simplify_eq; reflexivity|]). by rewrite lookup_ge_None_2 in Hc by (simpl; lia).
Qed.

Lemma strlen_strcmp_witness :
  strlen 6 10 demo = Ret (5, demo) /\ exists r, strcmp 6 10 20 demo = Ret (r, demo) /\
    (r = 0 <-> [97; 47; 47; 98; 99] = [47]).
Proof.
  apply (strlen_strcmp_ok demo 10 20 [97; 47; 47; 98; 99] [47] 6);
    [apply demo_str | apply demo_delim | simpl; lia | simpl; lia].
Defined.

Lemma strtok_tokens_witness :
  fields 6 [47] [97; 47; 47; 98; 99] = [[97]; [98; 99]] /\
  wp (strtok_all 7 6 10 20) (fun ts s' =>
    Forall2 (cstr (mem s')) ts (fields 6 [47] [97; 47; 47; 98; 99]) /\
    forall a, a < 10 \/ 10 + zlen [97; 47; 47; 98; 99] <= a -> mem s' !! a = mem demo !! a) demo.
Proof.
  split; [reflexivity|].
  apply (strtok_tokens demo 10 [97; 47; 47; 98; 99] [47] 20 6 6); simpl; try lia;
    [apply demo_str | apply demo_delim].
Defined.

(** memmove of one byte from 14 to 10 moves four. *)
Lemma memmove_moves_words_witness :
  exists m', memmove 10 14 1 demo = Ret (10, set_mem m' demo) /\ updated (mem demo) m' 10 [99; 0; 0; 0].
Proof.
  apply (memmove_moves_words demo 10 14 1 [99; 0; 0; 0]); simpl; try lia.
  - intros i c Hc. do 4 (destruct i as [|i]; [simpl in Hc; simplify_eq; reflexivity|]).
    by rewrite lookup_ge_None_2 in Hc by (simpl; lia).
  - repeat constructor; done.
  - intros a Ha. assert (a = 10 \/ a = 11 \/ a = 12 \/ a = 13) as [->|[->|[->| ->]]] by lia;
      by vm_compute; eexists.
Defined.
End string_witnesses.
