(* ===== verification/CStdlib.v ===== *)
(** Number conversion, sorting and searching
    (kernel/src/lib/stdlib.c and the printing of integers of string.c).

    [int] arithmetic that leaves its range is undefined, [long] likewise, and
    [unsigned] arithmetic wraps.  The memory functions of stdlib.c (malloc and
    the like) are in the heap component. *)
From stdpp Require Import sorting.
From S2P Require Import Prelude CString.

(** Reversal of a list ([reverse] is the function of string.c). *)
Abbreviation lreverse := stdpp.list_basics.list.reverse.

Definition int_ok (v : Z) : bool := (-2147483648 <=? v) && (v <? 2147483648).
Definition long_ok (v : Z) : bool :=
  (-9223372036854775808 <=? v) && (v <? 9223372036854775808).

Definition abs (value : Z) : outcome Z :=
  if value <? 0 then (if int_ok (- value) then Ret (- value) else Undef) else Ret value.
Definition labs (value : Z) : outcome Z :=
  if value <? 0 then (if long_ok (- value) then Ret (- value) else Undef) else Ret value.
Definition llabs (value : Z) : outcome Z := labs value.

(** atoi and atol differ in the width of the result. *)
Definition ato (fits : Z -> bool) (fuel : nat) (str : Z) : M cmem Z :=
  let! str := iter_fuel fuel (fun str =>
    let! c := ld str in
    if (c =? 32) || (c =? 9) || (c =? 10) then ret (inl (str + 1)) else ret (inr str)) str in
  let! c := ld str in
  let '(sign, str) :=
    if c =? 45 then (-1, str + 1) else if c =? 43 then (1, str + 1) else (1, str) in
  let! result := iter_fuel fuel (fun '(str, result) =>
    let! c := ld str in
    if (48 <=? s8 c) && (s8 c <=? 57) then
      guard (fits (result * 10) && fits (result * 10 + (c - 48))) ;;;
      ret (inl (str + 1, result * 10 + (c - 48)))
    else ret (inr result)) (str, 0) in
  guard (fits (result * sign)) ;;;
  ret (result * sign).

Definition atoi := ato int_ok.
Definition atol := ato long_ok.

(** rand_next is an unsigned long. *)
Definition rand (rand_next : Z) : Z * Z :=
  let rand_next := u64 (rand_next * 1103515245 + 12345) in
  ((rand_next / 65536) mod 32768, rand_next).
Definition srand (seed : Z) : Z := seed.

(** ** qsort and bsearch

    The array is the list of its elements, [compar] the caller's comparison
    on them; swapping two elements byte by byte exchanges them. *)
Section sort.
Context {A : Type} (compar : A -> A -> Z).

Definition swap_at (j : nat) (arr : list A) : list A :=
  match arr !! j, arr !! S j with
  | Some a, Some b => if 0 <? compar a b then <[S j := a]> (<[j := b]> arr) else arr
  | _, _ => arr
  end.

(** [for (j = 0; j < nmemb - 1; j++)]; [nmemb] is at least 1 here. *)
Definition bubble_pass (arr : list A) : list A :=
  foldl (fun arr j => swap_at j arr) arr (seq 0 (length arr - 1)).

Definition qsort (arr : list A) : list A :=
  foldl (fun arr _ => bubble_pass arr) arr (seq 0 (length arr)).
End sort.

(** One round of the search: a narrower range, or the index found. *)
Definition bsearch_round {A K} (compar : K -> A -> Z) (key : K) (base : list A)
    : Z * Z -> M unit (Z * Z + option Z) := fun '(low, high) =>
  if low <? high then
    let mid := u64 (low + high) / 2 in
    match base !! Z.to_nat mid with
    | None => undef
    | Some elem =>
        let cmp := compar key elem in
        ret (if cmp <? 0 then inl (low, mid)
             else if 0 <? cmp then inl (mid + 1, high)
             else inr (Some mid))
    end
  else ret (inr None).

(** The index of the element found. *)
Definition bsearch {A K} (compar : K -> A -> Z) (key : K) (base : list A) : outcome (option Z) :=
  obind (iter_fuel (S (length base)) (bsearch_round compar key base) (0, zlen base) tt)
    (fun '(r, _) => Ret r).

(** ** Decimal digits *)

(** The characters of [n] in decimal, least significant first. *)
Fixpoint dec (fuel : nat) (n : Z) : list Z :=
  match fuel with
  | O => []
  | S k => if n =? 0 then [] else (n mod 10 + 48) :: dec k (n / 10)
  end.

(** The number such a list of characters denotes. *)
Fixpoint dec_val (l : list Z) : Z :=
  match l with
  | [] => 0
  | c :: l => (c - 48) + 10 * dec_val l
  end.

Definition is_digit_char (c : Z) : Prop := 48 <= c <= 57.

Lemma dec_digits k n : Forall is_digit_char (dec k n).
Proof.
  revert n. induction k as [|k IH]; intros n; simpl; [constructor|].
  case_if; constructor; [|apply IH]. unfold is_digit_char. pose proof (Z.mod_pos_bound n 10). lia.
Qed.

Lemma dec_val_dec k n : 0 <= n < 10 ^ Z.of_nat k -> dec_val (dec k n) = n.
Proof.
  revert n. induction k as [|k IH]; intros n Hn.
  - simpl in Hn. assert (n = 0) as -> by lia. done.
  - rewrite Nat2Z.inj_succ, Z.pow_succ_r in Hn by lia. cbn [dec]. case_if; [by subst|].
    cbn [dec_val]. rewrite IH.
    + pose proof (Z.div_mod n 10). lia.
    + split; [apply Z.div_pos; lia | apply Z.div_lt_upper_bound; lia].
Qed.

Lemma dec_length k n : (length (dec k n) <= k)%nat.
Proof.
  revert n. induction k as [|k IH]; intros n; simpl; [done|].
  case_if; simpl; [lia|]. specialize (IH (n / 10)). lia.
Qed.

Lemma dec_nonempty k n : n <> 0 -> dec (S k) n <> [].
Proof. intros Hn. simpl. case_if; done. Qed.

(** Every suffix denotes a number no larger than the whole. *)
Lemma dec_val_nonneg l : Forall is_digit_char l -> 0 <= dec_val l.
Proof. induction 1 as [|c l Hc _ IH]; simpl; [lia|]. unfold is_digit_char in Hc. lia. Qed.

Lemma dec_val_drop l (j : nat) : Forall is_digit_char l -> dec_val (drop j l) <= dec_val l.
Proof.
  intros Hl. revert j. induction Hl as [|c l Hc Hl IH]; intros [|j]; simpl; try lia.
  specialize (IH j). pose proof (dec_val_nonneg _ Hl). unfold is_digit_char in Hc. lia.
Qed.

(** ** int_to_str *)

Section int_to_str.
Implicit Types (s : cmem) (l : list Z).

(** The in-place reversal of the digits. *)
Lemma reverse_digits_spec s p l (Q : unit -> cmem -> Prop) :
  bytes_at (mem s) p l -> Forall byte l ->
  (forall m', updated (mem s) m' p (lreverse l) -> Q tt (set_mem m' s)) ->
  wp (reverse_digits p (zlen l)) Q s.
Proof.
  intros Hb Hby HQ. unfold reverse_digits. set (i := length l).
  rewrite Z.quot_div_nonneg by lia.
  apply (wp_repeat_n (fun j s1 => exists m1, s1 = set_mem m1 s /\ forall a, m1 !! a =
    if decide (p <= a < p + zlen l) then
      (if decide (a < p + j \/ p + zlen l - j <= a) then l !! (i - 1 - Z.to_nat (a - p))%nat
       else l !! Z.to_nat (a - p))
    else mem s !! a)); [apply Z.div_pos; lia | | |].
  - exists (mem s). split; [by destruct s|]. intros a. case_decide as Ha; [|done].
    rewrite decide_False by lia. destruct (lookup_lt_is_Some_2 l (Z.to_nat (a - p))) as [c Hc]; [lia|].
    rewrite Hc, <- (Hb _ _ Hc). f_equal. lia.
  - intros j s1 Hj (m1 & -> & Hm1).
    assert (Hj2 : 2 * j + 1 < Z.of_nat i).
    { assert (2 * (Z.of_nat i / 2) <= Z.of_nat i) by (apply Z.mul_div_le; lia). lia. }
    destruct (lookup_lt_is_Some_2 l (Z.to_nat j)) as [c Hc]; [unfold i in *; lia|].
    destruct (lookup_lt_is_Some_2 l (i - 1 - Z.to_nat j)%nat) as [d Hd]; [unfold i in *; lia|].
    rewrite Forall_lookup in Hby. pose proof (Hby _ _ Hc) as Hcb. pose proof (Hby _ _ Hd) as Hdb.
    unfold byte in Hcb, Hdb. fold i in Hm1. fold i.
    wp_step. apply (wp_ld _ c).
    { simpl. rewrite Hm1, decide_True by lia. rewrite decide_False by lia. rewrite <- Hc. f_equal. lia. }
    wp_step. apply (wp_ld _ d).
    { simpl. rewrite Hm1, decide_True by lia. rewrite decide_False by lia. rewrite <- Hd. f_equal. lia. }
    wp_step. apply wp_st.
    { simpl. rewrite Hm1, decide_True by lia. rewrite decide_False by lia.
      replace (Z.to_nat (p + j - p)) with (Z.to_nat j) by lia. by rewrite Hc. }
    apply wp_st.
    { simpl. rewrite lookup_insert_ne by lia. rewrite Hm1, decide_True by lia. rewrite decide_False by lia.
      replace (Z.to_nat (p + Z.of_nat i - j - 1 - p)) with (i - 1 - Z.to_nat j)%nat by lia. by rewrite Hd. }
    unwrap. eexists. split; [done|]. intros a. simpl.
    destruct (decide (a = p + Z.of_nat i - j - 1)) as [->|].
    { rewrite lookup_insert_eq, decide_True by lia. rewrite decide_True by lia.
      rewrite <- Hc. f_equal. lia. }
    rewrite lookup_insert_ne by done. destruct (decide (a = p + j)) as [->|].
    { rewrite lookup_insert_eq, decide_True by lia. rewrite decide_True by lia.
      rewrite <- Hd. f_equal. lia. }
    rewrite lookup_insert_ne by done. rewrite Hm1. case_decide; [|done].
    destruct (decide (a < p + j \/ p + Z.of_nat i - j <= a)).
    + rewrite decide_True by lia. done.
    + rewrite decide_False by lia. done.
  - intros s1 (m1 & -> & Hm1). apply HQ. intros a. rewrite Hm1, length_reverse. fold i.
    case_decide as Ha; [|done]. rewrite reverse_lookup by (fold i; lia). fold i.
    pose proof (Z.div_mod (Z.of_nat i) 2 ltac:(lia)) as Hdm.
    pose proof (Z.mod_pos_bound (Z.of_nat i) 2 ltac:(lia)).
    case_decide; f_equal; lia.
Qed.

(** The characters int_to_str prints. *)
Definition int_chars (n : Z) : list Z :=
  if n =? 0 then [48]
  else lreverse (dec 11 (Z.abs n) ++ if n <? 0 then [45] else []).

Lemma int_chars_ok n : Forall char_ok (int_chars n) /\ (length (int_chars n) <= 12)%nat.
Proof.
  unfold int_chars. case_if; [split; [by repeat constructor | simpl; lia]|].
  rewrite length_reverse, length_app. pose proof (dec_length 11 (Z.abs n)). split.
  - apply Forall_reverse, Forall_app_2.
    + eapply Forall_impl; [apply dec_digits|]. unfold is_digit_char, char_ok. lia.
    + case_if; by repeat constructor.
  - case_if; cbn [length]; lia.
Qed.

(** The loop that produces the digits. *)
Lemma digits_loop s p n fuel (Q : Z -> cmem -> Prop) :
  0 <= n < 10 ^ Z.of_nat fuel -> mapped (mem s) p (Z.of_nat fuel) ->
  (forall m', updated (mem s) m' p (dec fuel n) -> Q (zlen (dec fuel n)) (set_mem m' s)) ->
  wp (iter_fuel (S fuel) (fun '(i, num) =>
    if negb (num =? 0) then
      st (p + i) (Z.rem num 10 + 48) ;;; ret (inl (i + 1, num ÷ 10))
    else ret (inr i)) (0, n)) Q s.
Proof.
  intros Hn Hmap HQ.
  apply (wp_iter_idx (fun k : nat => k) (fun k '(i, num) s1 => exists m1 l, s1 = set_mem m1 s /\
    0 <= num < 10 ^ Z.of_nat k /\ (k <= fuel)%nat /\ updated (mem s) m1 p l /\ i = zlen l /\
    (length l + k)%nat = fuel /\ dec fuel n = l ++ dec k num)) with fuel; [| |lia].
  - intros k [i num] s1 (m1 & l & -> & Hnum & Hk & Hu & -> & Hlk & Hdec). case_if.
    + destruct k as [|k]; [simpl in Hnum; lia|].
      rewrite Nat2Z.inj_succ, Z.pow_succ_r in Hnum by lia.
      rewrite Z.rem_mod_nonneg, Z.quot_div_nonneg by lia.
      pose proof (Z.mod_pos_bound num 10 ltac:(lia)) as Hmod.
      wp_step. apply wp_st; [apply (updated_mapped _ _ _ _ p (Z.of_nat fuel) Hu Hmap); lia|].
      unwrap. wp_step. exists k. split; [|lia].
      exists (<[p + zlen l := num mod 10 + 48]> m1), (l ++ [num mod 10 + 48]).
      split; [done|]. split; [split; [apply Z.div_pos; lia | apply Z.div_lt_upper_bound; lia]|].
      split; [lia|]. split; [by apply updated_snoc|]. rewrite length_app. cbn [length].
      split; [lia|]. split; [lia|]. rewrite Hdec, <- app_assoc. f_equal. simpl.
      by rewrite (proj2 (Z.eqb_neq _ _) Hb).
    + wp_step. subst num. assert (dec k 0 = []) as Hz by (by destruct k).
      rewrite Hz, app_nil_r in Hdec. rewrite Hdec in HQ. by apply HQ.
  - exists (mem s), []. split; [by destruct s|]. repeat split; try done; try lia. apply updated_nil.
Qed.

Lemma updated_then m m1 m2 p l1 l2 :
  updated m m1 p l1 -> updated m1 m2 p l2 -> length l1 = length l2 -> updated m m2 p l2.
Proof.
  intros H1 H2 Hl a. rewrite H2. case_decide; [done|]. apply (updated_other _ _ _ _ _ H1). lia.
Qed.

Lemma int_to_str_spec s p n (Q : unit -> cmem -> Prop) :
  -2147483648 < n < 2147483648 -> mapped (mem s) p 13 ->
  (forall m', updated (mem s) m' p (int_chars n ++ [0]) -> Q tt (set_mem m' s)) ->
  wp (int_to_str n p) Q s.
Proof.
  intros Hn Hmap HQ. unfold int_to_str. unfold int_chars in HQ. case_if.
  - wp_step. apply wp_st; [apply Hmap; lia|]. apply wp_st; [simpl; rewrite lookup_insert_ne by lia; apply Hmap; lia|].
    change (u8 48) with 48. change (u8 0) with 0.
    apply (HQ (<[p + 1 := 0]> (<[p := 48]> (mem s)))). apply (updated_snoc (mem s) (<[p := 48]> (mem s)) p [48] 0).
    replace p with (p + zlen (@nil Z)) at 1 by (simpl; lia). apply (updated_snoc _ _ p [] 48), updated_nil.
  - wp_step. wp_step; [apply negb_true_iff, Z.eqb_neq; lia|]. cbv zeta.
    replace (if n <? 0 then - n else n) with (Z.abs n) by (case_if; lia).
    wp_step. apply (digits_loop s p (Z.abs n) 11); [simpl; lia | intros a Ha; apply Hmap; lia |].
    intros m1 Hu1. set (ds := dec 11 (Z.abs n)) in *. pose proof (dec_length 11 (Z.abs n)) as Hdl. fold ds in Hdl.
    set (l := ds ++ if n <? 0 then [45] else []) in *.
    wp_step. apply (wp_mono _ (fun i s2 => i = zlen l /\ exists m2, s2 = set_mem m2 s /\ updated (mem s) m2 p l)).
    { unfold l. case_if.
      - wp_step. apply wp_st; [apply (updated_mapped _ _ _ _ p 13 Hu1 Hmap); lia|]. wp_step.
        rewrite length_app. cbn [length]. split; [lia|]. eexists. split; [done|].
        by apply (updated_snoc _ _ _ _ 45).
      - wp_step. rewrite app_nil_r. split; [done|]. by eexists. }
    intros i s2 (-> & m2 & -> & Hu2).
    assert (Hll : (length l <= 12)%nat) by (unfold l; rewrite length_app; case_if; cbn [length]; lia).
    assert (Hlb : Forall byte l).
    { unfold l. apply Forall_app_2; [|case_if; by repeat constructor].
      eapply Forall_impl; [apply dec_digits|]. unfold is_digit_char, byte. lia. }
    wp_step. apply wp_st; [apply (updated_mapped _ _ _ _ p 13 Hu2 Hmap); lia|].
    apply (updated_snoc _ _ _ _ 0) in Hu2. simpl.
    apply (reverse_digits_spec _ p l).
    + simpl. apply updated_bytes in Hu2. by apply bytes_at_app in Hu2 as [? _].
    + done.
    + simpl. intros m3 Hu3. apply (HQ m3). intros a. rewrite Hu3, Hu2, !length_app, length_reverse. cbn [length].
      repeat case_decide; try lia; [symmetry; apply lookup_app_l; rewrite length_reverse; lia | | done].
      rewrite !lookup_app_r by (rewrite ?length_reverse; lia). by rewrite length_reverse.
Qed.
End int_to_str.

(** ** atoi *)

Section atoi.
Implicit Types (s : cmem) (l : list Z).

(** The digit loop on the characters of [l] read from the most significant
    digit, which are followed by a character that is no digit. *)
Lemma ato_loop fits s p l c0 fuel (Q : Z -> cmem -> Prop) :
  Forall is_digit_char l -> bytes_at (mem s) p (lreverse l ++ [c0]) -> c0 = 0 ->
  (length l < fuel)%nat -> (forall v, 0 <= v <= dec_val l -> fits v = true) ->
  Q (dec_val l) s ->
  wp (iter_fuel fuel (fun '(str, result) =>
    let! c := ld str in
    if (48 <=? s8 c) && (s8 c <=? 57) then
      guard (fits (result * 10) && fits (result * 10 + (c - 48))) ;;;
      ret (inl (str + 1, result * 10 + (c - 48)))
    else ret (inr result)) (p, 0)) Q s.
Proof.
  intros Hl Hb -> Hf Hfits HQ.
  apply (wp_iter_idx (fun k : nat => k) (fun k '(a, r) s1 => s1 = s /\ (k <= length l)%nat /\
    a = p + zlen l - Z.of_nat k /\ r = dec_val (drop k l))) with (length l); [| |done].
  - intros k [a r] s1 (-> & Hk & -> & ->). destruct k as [|k].
    + wp_step. apply (wp_ld _ 0); [|simpl; by wp_step].
      apply bytes_at_app in Hb as [_ [Hb _]%bytes_at_cons]. rewrite length_reverse in Hb.
      rewrite <- Hb. f_equal. lia.
    + destruct (lookup_lt_is_Some_2 l k) as [c Hc]; [lia|].
      assert (Hd : is_digit_char c) by (by eapply Forall_lookup_1). unfold is_digit_char in Hd.
      wp_step. apply (wp_ld _ c).
      { apply bytes_at_app in Hb as [Hb _]. rewrite <- (Hb (length l - S k)%nat c); [f_equal; lia|].
        rewrite reverse_lookup by lia. rewrite <- Hc. f_equal. lia. }
      assert (Hs8 : s8 c = c) by (unfold s8; rewrite Z.mod_small; lia). rewrite Hs8.
      replace ((48 <=? c) && (c <=? 57)) with true by (symmetry; bool_true).
      assert (Hstep : dec_val (drop (S k) l) * 10 + (c - 48) = dec_val (drop k l))
        by (rewrite (drop_S _ _ _ Hc); cbn [dec_val]; lia).
      rewrite Hstep. pose proof (dec_val_drop l k Hl).
      pose proof (dec_val_nonneg _ (Forall_drop _ (S k) _ Hl)).
      wp_step. apply wp_guard; [apply andb_true_intro; split; apply Hfits; lia|].
      wp_step. exists k. split; [|lia]. split; [done|]. split; [lia|]. split; [lia | done].
  - split; [done|]. split; [lia|]. split; [lia|]. by rewrite drop_ge.
Qed.

Lemma dec_val_bound k n : 0 <= n < 10 ^ Z.of_nat k -> Forall is_digit_char (dec k n) /\ dec_val (dec k n) = n.
Proof. intros. split; [apply dec_digits | by apply dec_val_dec]. Qed.

Lemma skip_space_stop s p c (fuel : nat) (Q : Z -> cmem -> Prop) :
  mem s !! p = Some c -> (0 < fuel)%nat -> c <> 32 -> c <> 9 -> c <> 10 -> Q p s ->
  wp (iter_fuel fuel (fun str =>
    let! c := ld str in
    if (c =? 32) || (c =? 9) || (c =? 10) then ret (inl (str + 1)) else ret (inr str)) p) Q s.
Proof.
  intros Hc Hf H1 H2 H3 HQ. destruct fuel; [lia|]. simpl. wp_step. wp_step.
  apply (wp_ld _ c); [done|]. destruct (Z.eqb_spec c 32), (Z.eqb_spec c 9), (Z.eqb_spec c 10); done.
Qed.

(** The characters that print [n], as the sign and digits atoi sees. *)
Lemma int_chars_split n : n <> 0 -> 
  int_chars n = (if n <? 0 then [45] else []) ++ lreverse (dec 11 (Z.abs n)).
Proof.
  intros Hn. unfold int_chars. rewrite (proj2 (Z.eqb_neq _ _) Hn), reverse_app.
  by destruct (n <? 0).
Qed.

(** Reading what was printed. *)
Lemma atoi_spec s p n fuel (Q : Z -> cmem -> Prop) :
  -2147483648 < n < 2147483648 -> bytes_at (mem s) p (int_chars n ++ [0]) ->
  (13 < fuel)%nat -> Q n s -> wp (atoi fuel p) Q s.
Proof.
  intros Hn Hb Hf HQ. destruct (decide (n = 0)) as [->|Hne].
  { unfold atoi, ato. unfold int_chars in Hb. simpl in Hb.
    pose proof Hb as [H1 [H2 _]%bytes_at_cons]%bytes_at_cons.
    wp_step. apply (skip_space_stop s p 48); try done; [lia|].
    wp_step. apply (wp_ld _ 48); [done|]. simpl. wp_step.
    apply (ato_loop int_ok s p [48] 0); try done.
    - repeat constructor; done.
    - simpl. lia.
    - simpl. intros v Hv. unfold int_ok. bool_true. }
  rewrite int_chars_split in Hb by done.
  destruct (dec_val_bound 11 (Z.abs n)) as [Hdig Hval]; [simpl; lia|].
  pose proof (dec_length 11 (Z.abs n)) as Hlen. set (ds := dec 11 (Z.abs n)) in *.
  assert (Hfit : forall v, 0 <= v <= dec_val ds -> int_ok v = true)
    by (intros v Hv; unfold int_ok; bool_true).
  assert (Hnn : ds <> []) by (by apply dec_nonempty; lia).
  unfold atoi, ato. wp_step. destruct (Z.ltb_spec n 0).
  - simpl in Hb. pose proof Hb as [H1 Hb']%bytes_at_cons.
    apply (skip_space_stop s p 45); try done; [lia|]. wp_step. apply (wp_ld _ 45); [done|]. simpl.
    wp_step. apply (ato_loop int_ok s (p + 1) ds 0); try done; [lia|].
    wp_step. apply wp_guard; [unfold int_ok; bool_true|]. wp_step.
    by replace (dec_val ds * -1) with n by lia.
  - simpl in Hb. destruct (lookup_lt_is_Some_2 (lreverse ds ++ [0]) 0) as [c Hc];
      [rewrite length_app; simpl; lia|].
    assert (Hdc : is_digit_char c).
    { rewrite lookup_app_l in Hc by (rewrite length_reverse; destruct ds; [done | simpl; lia]).
      eapply Forall_lookup_1; [|exact Hc]. by apply Forall_reverse. }
    unfold is_digit_char in Hdc. pose proof (Hb _ _ Hc) as Hld. rewrite Z.add_0_r in Hld.
    apply (skip_space_stop s p c); try done; try lia. wp_step. apply (wp_ld _ c); [done|].
    destruct (Z.eqb_spec c 45); [lia|]. destruct (Z.eqb_spec c 43); [lia|].
    wp_step. apply (ato_loop int_ok s p ds 0); try done; [lia|].
    wp_step. apply wp_guard; [unfold int_ok; bool_true|]. wp_step.
    by replace (dec_val ds * 1) with n by lia.
Qed.
End atoi.

(** ** Sorting *)

Section sorted.
Context {A : Type} (compar : A -> A -> Z).

(** The order the comparison induces. *)
Definition cmp_le (a b : A) : Prop := compar a b <= 0.

(** What qsort needs of the comparison: a total preorder. *)
Record cmp_order : Prop := {
  cmp_trans : forall a b c, cmp_le a b -> cmp_le b c -> cmp_le a c;
  cmp_flip : forall a b, 0 < compar a b -> cmp_le b a
}.

Context (Hord : cmp_order).

Lemma cmp_refl a : cmp_le a a.
Proof. destruct (Z.lt_ge_cases 0 (compar a a)); [by apply cmp_flip | done]. Qed.

(** One pass as a recursion: the larger of two neighbours is carried on. *)
Fixpoint bub (x : A) (r : list A) : list A :=
  match r with
  | [] => [x]
  | y :: r => if 0 <? compar x y then y :: bub x r else x :: bub y r
  end.

Lemma swap_at_app pre x y r :
  swap_at compar (length pre) (pre ++ x :: y :: r) =
    if 0 <? compar x y then pre ++ y :: x :: r else pre ++ x :: y :: r.
Proof using Type.
  unfold swap_at. rewrite list_lookup_middle by done.
  rewrite (lookup_app_r pre) by lia. replace (S (length pre) - length pre)%nat with 1%nat by lia.
  simpl. case_if; [|done]. rewrite insert_app_r_alt by lia. rewrite Nat.sub_diag. simpl.
  rewrite insert_app_r_alt by lia. by replace (S (length pre) - length pre)%nat with 1%nat by lia.
Qed.

Lemma fold_swap_bub r : forall pre x,
  foldl (fun arr j => swap_at compar j arr) (pre ++ x :: r) (seq (length pre) (length r)) =
    pre ++ bub x r.
Proof using Type.
  induction r as [|y r IH]; intros pre x; [done|]. simpl. rewrite swap_at_app.
  pose proof (IH (pre ++ [if 0 <? compar x y then y else x]) (if 0 <? compar x y then x else y)) as IH'.
  rewrite length_app in IH'. cbn [length] in IH'.
  replace (length pre + 1)%nat with (S (length pre)) in IH' by lia.
  rewrite <- !app_assoc in IH'. case_if; exact IH'.
Qed.

Lemma bubble_pass_bub x r : bubble_pass compar (x :: r) = bub x r.
Proof using Type.
  unfold bubble_pass. simpl. rewrite Nat.sub_0_r. apply (fold_swap_bub r [] x).
Qed.

Lemma bub_perm r : forall x, bub x r ≡ₚ x :: r.
Proof using Type.
  induction r as [|y r IH]; intros x; [done|]. simpl. case_if; rewrite IH; [constructor | done].
Qed.

(** The last element of a pass is the largest. *)
Lemma bub_max r : forall x, exists init m, bub x r = init ++ [m] /\
  Forall (fun a => cmp_le a m) (x :: r).
Proof.
  induction r as [|y r IH]; intros x; simpl.
  - exists [], x. split; [done|]. constructor; [apply cmp_refl | done].
  - destruct (Z.ltb_spec 0 (compar x y)) as [Hgt|Hle].
    + destruct (IH x) as (init & m & -> & [Hx Hr]%Forall_cons). exists (y :: init), m. split; [done|].
      repeat constructor; try done. eapply cmp_trans; [done | by apply cmp_flip | done].
    + destruct (IH y) as (init & m & -> & [Hy Hr]%Forall_cons). exists (x :: init), m. split; [done|].
      repeat constructor; try done. by eapply cmp_trans.
Qed.

Lemma bub_sorted r : forall x, StronglySorted cmp_le (x :: r) -> bub x r = x :: r.
Proof using Type.
  induction r as [|y r IH]; intros x Hs; [done|]. simpl. apply StronglySorted_inv in Hs as [Hs Hx].
  apply Forall_cons in Hx as [Hxy _]. unfold cmp_le in Hxy. destruct (Z.ltb_spec 0 (compar x y)); [lia|].
  by rewrite IH.
Qed.

(** A sorted tail above the rest is left in place. *)
Lemma bub_tail l1 : forall x l2, StronglySorted cmp_le l2 ->
  Forall (fun a => Forall (cmp_le a) l2) (x :: l1) -> bub x (l1 ++ l2) = bub x l1 ++ l2.
Proof using Type.
  induction l1 as [|y l1 IH]; intros x l2 Hs [Hx Hl]%Forall_cons; simpl.
  - apply bub_sorted. by constructor.
  - apply Forall_cons in Hl as [Hy Hl]. case_if; rewrite IH by (by repeat constructor); done.
Qed.

(** After [k] passes the last [k] elements are in their final place. *)
Definition settled (k : nat) (l : list A) : Prop :=
  exists l1 l2, l = l1 ++ l2 /\ (k <= length l2)%nat /\ StronglySorted cmp_le l2 /\
    Forall (fun a => Forall (cmp_le a) l2) l1.

Lemma settled_step k l : settled k l -> (k < length l)%nat -> settled (S k) (bubble_pass compar l).
Proof.
  intros (l1 & l2 & -> & Hk & Hs & Hl) Hlen. destruct l1 as [|x l1].
  - destruct l2 as [|x l2]; [simpl in Hlen; lia|]. simpl. rewrite bubble_pass_bub, bub_sorted by done.
    exists [], (x :: l2). repeat split; try done.
  - simpl. rewrite bubble_pass_bub, bub_tail by done.
    destruct (bub_max l1 x) as (init & m & Hb & Hmax). rewrite Hb.
    pose proof (bub_perm l1 x) as Hp. rewrite Hb in Hp.
    assert (Hm : m ∈ x :: l1) by (rewrite <- Hp; set_solver).
    rewrite Forall_forall in Hmax, Hl.
    exists init, (m :: l2). rewrite <- app_assoc. split; [done|]. split; [simpl; lia|]. split.
    + constructor; [done|]. by apply Hl.
    + apply Forall_forall. intros a Ha. assert (Ha' : a ∈ x :: l1) by (rewrite <- Hp; set_solver).
      constructor; [by apply Hmax | by apply Hl].
Qed.

Lemma bubble_pass_perm l : bubble_pass compar l ≡ₚ l.
Proof using Type. destruct l as [|x l]; [done|]. rewrite bubble_pass_bub. apply bub_perm. Qed.

Lemma passes_settled (js : list nat) : forall k l, settled k l -> (k + length js <= length l)%nat ->
  let l' := foldl (fun arr _ => bubble_pass compar arr) l js in
  settled (k + length js) l' /\ l' ≡ₚ l.
Proof.
  induction js as [|j js IH]; intros k l Hs Hl; simpl in *; [by rewrite Nat.add_0_r|].
  destruct (IH (S k) (bubble_pass compar l)) as [H1 H2].
  - apply settled_step; [done | lia].
  - rewrite bubble_pass_perm. lia.
  - split; [by replace (k + S (length js))%nat with (S k + length js)%nat by lia|].
    by rewrite H2, bubble_pass_perm.
Qed.

Lemma qsort_sorted_perm (l : list A) :
  StronglySorted cmp_le (qsort compar l) /\ qsort compar l ≡ₚ l.
Proof.
  assert (H0 : settled 0 l).
  { exists l, []. rewrite app_nil_r. repeat split; [simpl; lia | constructor|]. by apply Forall_true. }
  destruct (passes_settled (seq 0 (length l)) 0 l H0) as [(l1 & l2 & Heq & Hk & Hs & _) Hp];
    [rewrite length_seq; lia|].
  fold (qsort compar l) in Heq, Hp. rewrite length_seq in Hk. split; [|done].
  destruct l1 as [|a l1]; [by rewrite Heq|].
  apply Permutation_length in Hp. rewrite Heq, length_app in Hp. simpl in Hp, Hk. lia.
Qed.
End sorted.

(** ** The theorems *)

(** Printing an [int] other than INT_MIN with int_to_str and reading the
    buffer with atoi gives the number back; the print touches only the at
    most 13 bytes it writes. *)
Theorem int_to_str_atoi_roundtrip s p n fuel :
  -2147483648 < n < 2147483648 -> mapped (mem s) p 13 -> (13 < fuel)%nat ->
  wp (int_to_str n p ;;; atoi fuel p) (fun r s' => r = n /\
    forall a, a < p \/ p + 13 <= a -> mem s' !! a = mem s !! a) s.
Proof.
  intros Hn Hm Hf. wp_step. apply int_to_str_spec; [done | done|]. intros m' Hu.
  apply (atoi_spec _ p n); [done | exact (updated_bytes _ _ _ _ Hu) | done|]. split; [done|].
  intros a Ha. simpl. apply (updated_other _ _ _ _ _ Hu). rewrite length_app.
  destruct (int_chars_ok n) as [_ Hl]. cbn [length]. lia.
Qed.

(** Thirteen bytes at address 100. *)
Definition scratch : cmem :=
  mk_cmem (list_to_map ((fun i => (100 + i, 255)) <$> seqZ 0 13)) 0.

Lemma int_to_str_atoi_roundtrip_witness :
  wp (int_to_str (-2045) 100 ;;; atoi 14 100) (fun r s' => r = -2045 /\
    forall a, a < 100 \/ 100 + 13 <= a -> mem s' !! a = mem scratch !! a) scratch.
Proof.
  apply (int_to_str_atoi_roundtrip scratch 100 (-2045) 14); [lia | | lia].
  intros a Ha. assert (Hin : a = 100 \/ a = 101 \/ a = 102 \/ a = 103 \/ a = 104 \/ a = 105 \/
    a = 106 \/ a = 107 \/ a = 108 \/ a = 109 \/ a = 110 \/ a = 111 \/ a = 112) by lia.
  repeat destruct Hin as [->|Hin]; try (subst a); exists 255; reflexivity.
Defined.

(** Qsort sorts: its result is a permutation of the array in ascending
    order, for every comparison that is a total preorder. *)
Theorem qsort_ok {A} (compar : A -> A -> Z) (arr : list A) :
  cmp_order compar ->
  StronglySorted (cmp_le compar) (qsort compar arr) /\ qsort compar arr ≡ₚ arr.
Proof. intros Hord. exact (qsort_sorted_perm compar Hord arr). Qed.

Lemma qsort_ok_witness :
  cmp_order Z.sub /\ StronglySorted (cmp_le Z.sub) (qsort Z.sub [3; 1; 2; 1]) /\
  qsort Z.sub [3; 1; 2; 1] = [1; 1; 2; 3].
Proof.
  assert (Ho : cmp_order Z.sub) by (split; unfold cmp_le; lia).
  split; [exact Ho|]. split; [|reflexivity]. apply (qsort_ok Z.sub [3; 1; 2; 1] Ho).
Defined.

(** bsearch ends and finds the key: on an array ordered for the key it
    returns the index of an element equal to the key, and reports none only
    when the array has none. *)
Theorem bsearch_ok {A K} (compar : K -> A -> Z) (key : K) (base : list A) :
  zlen base < 9223372036854775808 ->
  (forall i j a b, (i <= j)%nat -> base !! i = Some a -> base !! j = Some b ->
     (compar key a < 0 -> compar key b < 0) /\ (0 < compar key b -> 0 < compar key a)) ->
  (exists i a, bsearch compar key base = Ret (Some (Z.of_nat i)) /\ base !! i = Some a /\
     compar key a = 0) \/
  (bsearch compar key base = Ret None /\ forall i a, base !! i = Some a -> compar key a <> 0).
Proof.
  intros Hlen Hmono. unfold bsearch.
  assert (Hwp : wp (iter_fuel (S (length base)) (bsearch_round compar key base) (0, zlen base)) (fun r _ =>
    match r with
    | Some m => exists i a, m = Z.of_nat i /\ base !! i = Some a /\ compar key a = 0
    | None => forall i a, base !! i = Some a -> compar key a <> 0
    end) tt).
  { apply (wp_iter (fun '(low, high) _ => 0 <= low <= high /\ high <= zlen base /\
      (forall i a, base !! i = Some a -> Z.of_nat i < low -> 0 < compar key a) /\
      (forall i a, base !! i = Some a -> high <= Z.of_nat i -> compar key a < 0))
      (fun '(low, high) _ => Z.to_nat (high - low))); [| |lia].
    - intros [low high] [] (Hlh & Hh & Hlo & Hhi). unfold bsearch_round, wp. case_if.
      + unwrap. set (mid := (low + high) / 2).
        assert (Hmid : low <= mid < high).
        { unfold mid. split; [apply Z.div_le_lower_bound | apply Z.div_lt_upper_bound]; lia. }
        destruct (lookup_lt_is_Some_2 base (Z.to_nat mid)) as [e He]; [lia|]. rewrite He.
        destruct (Z.ltb_spec (compar key e) 0); [|destruct (Z.ltb_spec 0 (compar key e))].
        * split; [|lia]. repeat split; try lia; [done|]. intros i a Hi Hmi.
          destruct (Hmono (Z.to_nat mid) i e a) as [Hm _]; try done; [lia|]. by apply Hm.
        * split; [|lia]. repeat split; try lia; [|done]. intros i a Hi Hmi.
          destruct (Hmono i (Z.to_nat mid) a e) as [_ Hm]; try done; [lia|]. by apply Hm.
        * exists (Z.to_nat mid), e. repeat split; [lia | done | lia].
      + intros i a Hi. destruct (Z.lt_ge_cases (Z.of_nat i) low).
        * specialize (Hlo i a Hi). lia.
        * specialize (Hhi i a Hi). lia.
    - repeat split; try lia. intros i a Hi%lookup_lt_Some. lia. }
  unfold wp in Hwp. destruct (iter_fuel _ _ _ tt) as [[[m|] []]| | |]; try done.
  - left. destruct Hwp as (i & a & -> & ? & ?). by exists i, a.
  - by right.
Qed.

Lemma bsearch_ok_witness :
  bsearch Z.sub 5 [1; 5; 9] = Ret (Some 1) /\
  ((exists i a, bsearch Z.sub 5 [1; 5; 9] = Ret (Some (Z.of_nat i)) /\ [1; 5; 9] !! i = Some a /\
     5 - a = 0) \/
   (bsearch Z.sub 5 [1; 5; 9] = Ret None /\ forall i a, [1; 5; 9] !! i = Some a -> 5 - a <> 0)).
Proof.
  split; [reflexivity|]. apply (bsearch_ok Z.sub 5 [1; 5; 9]); [simpl; lia|].
  intros i j a b Hij Ha Hb.
  destruct i as [|[|[|i]]], j as [|[|[|j]]]; simpl in *; simplify_eq; lia.
Defined.
