(* ===== verification/Stdio.v ===== *)
(** Formatted output (kernel/src/lib/stdio.c).

    vsprintf and vsnprintf write into the byte memory of CString.v; vprintf
    and what is built on it send characters to a terminal, which is a
    parameter ([Terminal], implemented in driver/vga/vga_term.c).  A va_list
    is the general-purpose and the floating-point argument slots that are
    left, as va_arg reads them on x86-64: an [int] is the low half of a 64-bit
    slot.  Doubles are the binary64 numbers of the Standard Library's
    [SpecFloat], so %f runs on exact IEEE arithmetic.  Undefined are: running
    out of arguments, negating the least number of a type, overflow of an
    [int] counter, converting a double that does not fit. *)
From Stdlib Require Import SpecFloat.
From S2P Require Import Prelude CString.

(** ** Arguments *)

Record va_list := mk_va { gp_args : list Z; fp_args : list spec_float }.

(** The next general-purpose slot and the rest. *)
Definition va_slot {S} (va : va_list) : M S (Z * va_list) :=
  match gp_args va with
  | [] => undef
  | w :: r => ret (w, mk_va r (fp_args va))
  end.

Definition va_double {S} (va : va_list) : M S (spec_float * va_list) :=
  match fp_args va with
  | [] => undef
  | d :: r => ret (d, mk_va (gp_args va) r)
  end.

(** A loop over the elements of a list. *)
Fixpoint foldM {S A X} (f : X -> A -> M S X) (l : list A) (x : X) : M S X :=
  match l with
  | [] => ret x
  | a :: l => let! x := f x a in foldM f l x
  end.

Definition INT_MAX : Z := 2147483647.
Definition INT_MIN : Z := -2147483648.
Definition LONG_MIN : Z := -9223372036854775808.

(** Adding to an [int]. *)
Definition int_add {S} (a b : Z) : M S Z := guard (a + b <=? INT_MAX) ;;; ret (a + b).

(** ** Digits *)

(** [do { tmp[i++] = '0' + val % 10; val /= 10; } while (val > 0)] with
    [char tmp[32]]: the stored characters, least significant first. *)
Definition dec_tmp {S} (val : Z) : M S (list Z) :=
  iter_fuel 33 (fun '(tmp, val) =>
    guard (zlen tmp <? 32) ;;;
    let tmp := tmp ++ [48 + val mod 10] in
    let val := val / 10 in
    if 0 <? val then ret (inl (tmp, val)) else ret (inr tmp)) ([], val).

Definition hex_lower : list Z := [48; 49; 50; 51; 52; 53; 54; 55; 56; 57; 97; 98; 99; 100; 101; 102].
Definition hex_upper : list Z := [48; 49; 50; 51; 52; 53; 54; 55; 56; 57; 65; 66; 67; 68; 69; 70].

Definition char_of (tbl : list Z) (i : Z) : Z := default 0 (tbl !! Z.to_nat i).

(** [do { buf[i++] = tbl[val & 0xF]; val >>= 4; } while (val > 0 && i < 32)]. *)
Definition hex_tmp {S} (tbl : list Z) (val : Z) : M S (list Z) :=
  iter_fuel 33 (fun '(tmp, val) =>
    let tmp := tmp ++ [char_of tbl (Z.land val 0xF)] in
    let val := Z.shiftr val 4 in
    if (0 <? val) && (zlen tmp <? 32) then ret (inl (tmp, val)) else ret (inr tmp)) ([], val).

(** ** Doubles *)

Definition SF_of_Z (z : Z) : spec_float := binary_normalize 53 1024 z 0 false.
Definition SF_zero : spec_float := S754_zero false.

(** Conversion to an integer type of range [lo..hi]: truncation. *)
Definition SF_trunc {S} (lo hi : Z) (x : spec_float) : M S Z :=
  match x with
  | S754_zero _ => ret 0
  | S754_finite sg m e =>
      let a := if 0 <=? e then Z.pos m * 2 ^ e else Z.pos m / 2 ^ (- e) in
      let v := if sg then - a else a in
      guard ((lo <=? v) && (v <=? hi)) ;;; ret v
  | _ => undef
  end.

(** [for (j = 0; j < precision; j++)]: the next [n] digits of a fraction. *)
Fixpoint frac_digits {S} (n : nat) (frac : spec_float) : M S (list Z) :=
  match n with
  | O => ret []
  | Datatypes.S n =>
      let frac := SFmul 53 1024 frac (SF_of_Z 10) in
      let! digit := SF_trunc INT_MIN INT_MAX frac in
      let! r := frac_digits n (SFsub 53 1024 frac (SF_of_Z digit)) in
      ret (48 + digit :: r)
  end.

(** ** vsprintf *)

(** [*out++ = c] *)
Definition sprint_char (buffer c : Z) : M cmem Z := st buffer c ;;; ret (buffer + 1).

Definition sprint_str (fuel : nat) (buffer s : Z) : M cmem Z :=
  iter_fuel fuel (fun '(buffer, s) =>
    let! c := ld s in
    if negb (c =? 0) then st buffer c ;;; ret (inl (buffer + 1, s + 1))
    else ret (inr buffer)) (buffer, s).

(** [while (i > 0) *out++ = tmp[--i]] *)
Definition sprint_rev (tmp : list Z) (out : Z) : M cmem Z := foldM sprint_char (rev tmp) out.

Definition sprint_unsigned (val out : Z) : M cmem Z :=
  let! tmp := dec_tmp val in sprint_rev tmp out.

(** Negating the least value [least] of the type is undefined. *)
Definition sprint_signed (least val out : Z) : M cmem Z :=
  if val <? 0 then
    let! out := sprint_char out 45 in
    guard (negb (val =? least)) ;;;
    sprint_unsigned (- val) out
  else sprint_unsigned val out.

(** The bits of [val], least significant first, in [char bin_buf[65]]. *)
Definition bin_tmp {S} (val : Z) : M S (list Z) :=
  if val =? 0 then ret [48] else
  iter_fuel 66 (fun '(tmp, val) =>
    if (0 <? val) && (zlen tmp <? 65) then
      ret (inl (tmp ++ [if Z.land val 1 =? 0 then 48 else 49], Z.shiftr val 1))
    else ret (inr tmp)) ([], val).

(** The integer part in [char int_buf[32]]. *)
Definition int_part_tmp {S} (v : Z) : M S (list Z) :=
  if v =? 0 then ret [48] else dec_tmp v.

Definition sprint_double (num : spec_float) (out : Z) : M cmem Z :=
  let neg := SFltb num SF_zero in
  let! out := (if neg then sprint_char out 45 else ret out) in
  let num := if neg then SFopp num else num in
  let! int_part := SF_trunc 0 18446744073709551615 num in
  let frac := SFsub 53 1024 num (SF_of_Z int_part) in
  let! tmp := int_part_tmp int_part in
  let! out := sprint_rev tmp out in
  let! out := sprint_char out 46 in
  let! ds := frac_digits 6 frac in
  foldM sprint_char ds out.

(** The conversions of vsprintf: [len] counts the l modifiers.  After ll an
    unknown conversion prints nothing, and so it does after l. *)
Definition vsprintf_conv (fuel : nat) (len : nat) (c out : Z) (va : va_list) : M cmem (Z * va_list) :=
  match len with
  | O =>
      if c =? 100 then let! '(w, va) := va_slot va in
        let! out := sprint_signed INT_MIN (s32 w) out in ret (out, va)
      else if c =? 117 then let! '(w, va) := va_slot va in
        let! out := sprint_unsigned (u32 w) out in ret (out, va)
      else if c =? 99 then let! '(w, va) := va_slot va in
        let! out := sprint_char out (s32 w) in ret (out, va)
      else if c =? 115 then let! '(w, va) := va_slot va in
        let! out := sprint_str fuel out (u64 w) in ret (out, va)
      else if c =? 102 then let! '(d, va) := va_double va in
        let! out := sprint_double d out in ret (out, va)
      else if c =? 112 then let! '(w, va) := va_slot va in
        let! tmp := hex_tmp hex_lower (u64 w) in let! out := sprint_rev tmp out in ret (out, va)
      else if c =? 120 then let! '(w, va) := va_slot va in
        let! tmp := hex_tmp hex_lower (u32 w) in let! out := sprint_rev tmp out in ret (out, va)
      else if c =? 88 then let! '(w, va) := va_slot va in
        let! tmp := hex_tmp hex_upper (u32 w) in let! out := sprint_rev tmp out in ret (out, va)
      else if c =? 98 then let! '(w, va) := va_slot va in
        let! tmp := bin_tmp (u32 w) in let! out := sprint_rev tmp out in ret (out, va)
      else
        let! out := sprint_char out 37 in let! out := sprint_char out c in ret (out, va)
  | _ =>
      if c =? 100 then let! '(w, va) := va_slot va in
        let! out := sprint_signed LONG_MIN (s64 w) out in ret (out, va)
      else if c =? 117 then let! '(w, va) := va_slot va in
        let! out := sprint_unsigned (u64 w) out in ret (out, va)
      else ret (out, va)
  end.

(** The part of a directive behind its percent sign at [ptr]: the number of
    l modifiers, the conversion character and its address. *)
Definition read_conv (ptr : Z) : M cmem (nat * Z * Z) :=
  let! c := ld ptr in
  if c =? 108 then
    let ptr := ptr + 1 in
    let! c := ld ptr in
    if c =? 108 then
      let ptr := ptr + 1 in
      let! c := ld ptr in ret (2%nat, c, ptr)
    else ret (1%nat, c, ptr)
  else ret (O, c, ptr).

Definition vsprintf (fuel : nat) (buf format : Z) (va : va_list) : M cmem unit :=
  let! out := iter_fuel fuel (fun '(ptr, out, va) =>
    let! c := ld ptr in
    if c =? 0 then ret (inr out) else
    if c =? 37 then
      let! '(len, c, ptr) := read_conv (ptr + 1) in
      let! '(out, va) := vsprintf_conv fuel len c out va in
      ret (inl (ptr + 1, out, va))
    else
      let! out := sprint_char out c in
      ret (inl (ptr + 1, out, va))) (format, buf, va) in
  st out 0.

Definition sprintf (fuel : nat) (buf format : Z) (args : va_list) : M cmem unit :=
  vsprintf fuel buf format args.

(** ** vsnprintf *)

(** The output pointer and [*remaining]. *)
Definition sprint_char_limit (buffer c remaining : Z) : M cmem (Z * Z) :=
  if 1 <? remaining then st buffer c ;;; ret (buffer + 1, remaining - 1)
  else ret (buffer, remaining).

Definition sprint_str_limit (fuel : nat) (buffer s remaining : Z) : M cmem (Z * Z) :=
  iter_fuel fuel (fun '(buffer, s, remaining) =>
    let! c := ld s in
    if negb (c =? 0) && (1 <? remaining) then
      st buffer c ;;; ret (inl (buffer + 1, s + 1, remaining - 1))
    else ret (inr (buffer, remaining))) (buffer, s, remaining).

(** Output pointer, space left and the count of all characters. *)
Record sink := mk_sink { s_out : Z; s_rem : Z; s_total : Z }.

(** [total++; out = sprint_char_limit(out, c, &remaining)] *)
Definition limit_char (k : sink) (c : Z) : M cmem sink :=
  let! total := int_add (s_total k) 1 in
  let! '(out, remaining) := sprint_char_limit (s_out k) c (s_rem k) in
  ret (mk_sink out remaining total).

(** [total += i; while (i > 0) out = sprint_char_limit(out, tmp[--i], &remaining)] *)
Definition limit_unsigned (val : Z) (k : sink) : M cmem sink :=
  let! tmp := dec_tmp val in
  let! total := int_add (s_total k) (zlen tmp) in
  let! '(out, remaining) := foldM (fun '(o, r) c => sprint_char_limit o c r) (rev tmp)
                              (s_out k, s_rem k) in
  ret (mk_sink out remaining total).

Definition limit_signed (least val : Z) (k : sink) : M cmem sink :=
  if val <? 0 then
    let! k := limit_char k 45 in
    guard (negb (val =? least)) ;;;
    limit_unsigned (- val) k
  else limit_unsigned val k.

(** [while ( *t++) total++] *)
Definition count_str (fuel : nat) (t total : Z) : M cmem Z :=
  iter_fuel fuel (fun '(t, total) =>
    let! c := ld t in
    if c =? 0 then ret (inr total)
    else let! total := int_add total 1 in ret (inl (t + 1, total))) (t, total).

(** "(null)" *)
Definition null_text : list Z := [40; 110; 117; 108; 108; 41].

(** A string argument; for NULL the literal is printed, from memory of its
    own. *)
Definition limit_str (fuel : nat) (s : Z) (k : sink) : M cmem sink :=
  if s =? 0 then foldM limit_char null_text k else
  let! total := count_str fuel s (s_total k) in
  let! '(out, remaining) := sprint_str_limit fuel (s_out k) s (s_rem k) in
  ret (mk_sink out remaining total).

Definition vsnprintf_conv (fuel : nat) (len : nat) (c : Z) (k : sink) (va : va_list) :
    M cmem (sink * va_list) :=
  match len with
  | O =>
      if c =? 100 then let! '(w, va) := va_slot va in
        let! k := limit_signed INT_MIN (s32 w) k in ret (k, va)
      else if c =? 117 then let! '(w, va) := va_slot va in
        let! k := limit_unsigned (u32 w) k in ret (k, va)
      else if c =? 99 then let! '(w, va) := va_slot va in
        let! k := limit_char k (s32 w) in ret (k, va)
      else if c =? 115 then let! '(w, va) := va_slot va in
        let! k := limit_str fuel (u64 w) k in ret (k, va)
      else
        let! k := limit_char k 37 in let! k := limit_char k c in ret (k, va)
  | _ =>
      if c =? 100 then let! '(w, va) := va_slot va in
        let! k := limit_signed LONG_MIN (s64 w) k in ret (k, va)
      else if c =? 117 then let! '(w, va) := va_slot va in
        let! k := limit_unsigned (u64 w) k in ret (k, va)
      else ret (k, va)
  end.

Definition vsnprintf (fuel : nat) (buf size format : Z) (va : va_list) : M cmem Z :=
  let! k := iter_fuel fuel (fun '(ptr, k, va) =>
    let! c := ld ptr in
    if c =? 0 then ret (inr k) else
    if c =? 37 then
      let! '(len, c, ptr) := read_conv (ptr + 1) in
      let! '(k, va) := vsnprintf_conv fuel len c k va in
      ret (inl (ptr + 1, k, va))
    else
      let! k := limit_char k c in
      ret (inl (ptr + 1, k, va))) (format, mk_sink buf size 0, va) in
  (if 0 <? s_rem k then st (s_out k) 0
   else if 0 <? size then st (buf + size - 1) 0 else ret tt) ;;;
  ret (s_total k).

Definition snprintf (fuel : nat) (buf size format : Z) (args : va_list) : M cmem unit :=
  let! _ := vsnprintf fuel buf size format args in ret tt.

(** ** vprintf *)

(** What stdio.c needs of the terminal: putchar, which takes an unsigned
    char.  [print] of vga_term.c is a loop over it. *)
Class Terminal (T : Type) := { putchar : Z -> T -> T }.

Section printing.
Context {T : Type} `{Terminal T}.

Definition putc (c : Z) : M T unit := modify (putchar (u8 c)).

(** Reading memory, which printing leaves alone. *)
Definition rd (m : gmap Z Z) (p : Z) : M T Z :=
  match m !! p with Some v => ret v | None => undef end.

(** Characters from a local buffer or a literal. *)
Definition put_chars (l : list Z) : M T unit := foldM (fun _ c => putc c) l tt.

(** vga_term.c *)
Definition print (fuel : nat) (m : gmap Z Z) (text : Z) : M T unit :=
  iter_fuel fuel (fun text =>
    let! ch := rd m text in
    if negb (ch =? 0) then putc ch ;;; ret (inl (text + 1)) else ret (inr tt)) text.

Definition puts (fuel : nat) (m : gmap Z Z) (str : Z) : M T unit :=
  if str =? 0 then put_chars null_text else print fuel m str.

Definition print_udec (value : Z) : M T unit :=
  if value =? 0 then putc 48 else
  let! buf := iter_fuel 33 (fun '(buf, value) =>
    if 0 <? value then
      guard (zlen buf <? 32) ;;; ret (inl (buf ++ [48 + value mod 10], value / 10))
    else ret (inr buf)) ([], value) in
  put_chars (rev buf).

Definition print_dec (value : Z) : M T unit :=
  if value <? 0 then
    putc 45 ;;; guard (negb (value =? LONG_MIN)) ;;; print_udec (- value)
  else print_udec value.

(** The integer part goes through print_dec, as a signed number. *)
Definition print_float (num : spec_float) (precision : nat) : M T unit :=
  let neg := SFltb num SF_zero in
  (if neg then putc 45 else ret tt) ;;;
  let num := if neg then SFopp num else num in
  let! int_part := SF_trunc 0 18446744073709551615 num in
  let frac := SFsub 53 1024 num (SF_of_Z int_part) in
  print_dec (s64 int_part) ;;;
  putc 46 ;;;
  let! ds := frac_digits precision frac in
  put_chars ds.

(** One round of print_bin, at bit [i]: the buffer and [started]. *)
Definition bin_bit (value : Z) (st : list Z * bool) (i : Z) : list Z * bool :=
  let '(buffer, started) := st in
  let b := Z.land (Z.shiftr value i) 1 in
  let started := started || negb (b =? 0) in
  (if started then buffer ++ [if b =? 0 then 48 else 49] else buffer, started).

(** From bit 63 down, once a one has been seen. *)
Definition print_bin (value : Z) : M T unit :=
  if value =? 0 then put_chars [48] else
  put_chars (fold_left (bin_bit value) (rev (seqZ 0 64)) ([], false)).1.

(** One round of print_hex, at bit [i = 4 * j]. *)
Definition hex_nibble (n : Z) (leading_zero : bool) (j : Z) : M T bool :=
  let i := 4 * j in
  let digit := char_of hex_upper (Z.land (Z.shiftr n i) 0xF) in
  if negb (digit =? 48) || negb leading_zero || (i =? 0)
  then putc digit ;;; ret false else ret leading_zero.

(** From the highest nibble down, without leading zeroes. *)
Definition print_hex (n : Z) : M T unit :=
  put_chars [48; 120] ;;;
  let! _ := foldM (hex_nibble n) (rev (seqZ 0 16)) true in
  ret tt.

(** The padding stores without a bound into [char buf[32]]. *)
Definition print_hex_padded (value width : Z) (uppercase : bool) : M T unit :=
  let! buf := hex_tmp (if uppercase then hex_upper else hex_lower) value in
  let! buf := iter_fuel 34 (fun buf =>
    if zlen buf <? width then
      guard (zlen buf <? 32) ;;; ret (inl (buf ++ [48]))
    else ret (inr buf)) buf in
  put_chars (rev buf).

(** [while ( *ptr >= '0' && *ptr <= '9')]: the width and the pointer. *)
Definition read_width (fuel : nat) (m : gmap Z Z) (ptr : Z) : M T (Z * Z) :=
  iter_fuel fuel (fun '(width, ptr) =>
    let! c := rd m ptr in
    if (48 <=? c) && (c <=? 57) then
      guard (width * 10 + (c - 48) <=? INT_MAX) ;;;
      ret (inl (width * 10 + (c - 48), ptr + 1))
    else ret (inr (width, ptr))) (0, ptr).

(** A conversion without l modifier. *)
Definition vprintf_conv (fuel : nat) (m : gmap Z Z) (zero_pad : bool) (width c : Z) (va : va_list) :
    M T va_list :=
  if c =? 100 then let! '(w, va) := va_slot va in print_dec (s32 w) ;;; ret va
  else if c =? 117 then let! '(w, va) := va_slot va in print_udec (u32 w) ;;; ret va
  else if (c =? 120) || (c =? 88) then
    let! '(w, va) := va_slot va in
    (if (0 <? width) && zero_pad then print_hex_padded (u32 w) width (c =? 88)
     else print_hex (u32 w)) ;;; ret va
  else if c =? 98 then let! '(w, va) := va_slot va in print_bin (u32 w) ;;; ret va
  else if c =? 99 then let! '(w, va) := va_slot va in putc (s32 w) ;;; ret va
  else if c =? 115 then let! '(w, va) := va_slot va in print fuel m (u64 w) ;;; ret va
  else if c =? 102 then let! '(d, va) := va_double va in print_float d 6 ;;; ret va
  else if c =? 112 then let! '(w, va) := va_slot va in print_hex (u64 w) ;;; ret va
  else put_chars [37; c] ;;; ret va.

(** A conversion with [len] l modifiers. *)
Definition vprintf_long (len : nat) (c : Z) (va : va_list) : M T va_list :=
  if c =? 100 then let! '(w, va) := va_slot va in print_dec (s64 w) ;;; ret va
  else if c =? 117 then let! '(w, va) := va_slot va in print_udec (u64 w) ;;; ret va
  else put_chars (37 :: replicate len 108 ++ [c]) ;;; ret va.

(** The directive behind a percent sign at [ptr]: zero flag, width, number of
    l modifiers, conversion character and its address. *)
Definition read_directive (fuel : nat) (m : gmap Z Z) (ptr : Z) : M T (bool * Z * nat * Z * Z) :=
  let! c := rd m ptr in
  let zero_pad := c =? 48 in
  let ptr := if zero_pad then ptr + 1 else ptr in
  let! '(width, ptr) := read_width fuel m ptr in
  let! c := rd m ptr in
  if c =? 108 then
    let ptr := ptr + 1 in
    let! c := rd m ptr in
    if c =? 108 then
      let ptr := ptr + 1 in
      let! c := rd m ptr in ret (zero_pad, width, 2%nat, c, ptr)
    else ret (zero_pad, width, 1%nat, c, ptr)
  else ret (zero_pad, width, O, c, ptr).

Definition vprintf (fuel : nat) (m : gmap Z Z) (format : Z) (va : va_list) : M T unit :=
  iter_fuel fuel (fun '(ptr, va) =>
    let! c := rd m ptr in
    if c =? 0 then ret (inr tt) else
    if c =? 37 then
      let! '(zero_pad, width, len, c, ptr) := read_directive fuel m (ptr + 1) in
      let! va :=
        (match len with
         | O => if c =? 37 then putc 37 ;;; ret va else vprintf_conv fuel m zero_pad width c va
         | _ => vprintf_long len c va
         end) in
      ret (inl (ptr + 1, va))
    else putc c ;;; ret (inl (ptr + 1, va))) (format, va).
End printing.

(** ** printf and its lock *)

Record console (T : Type) := mk_console { serial_lock : bool; screen : T }.
Arguments mk_console {T}.
Arguments serial_lock {T}.
Arguments screen {T}.

Section printf.
Context {T : Type} `{Terminal T}.

Definition acquire (fuel : nat) : M (console T) unit :=
  iter_fuel fuel (fun _ =>
    let! l := gets serial_lock in
    if negb l then modify (fun s => mk_console true (screen s)) ;;; ret (inr tt)
    else ret (inl tt)) tt.

Definition release : M (console T) unit := modify (fun s => mk_console false (screen s)).

(** Code on the terminal, run under the lock. *)
Definition on_screen {A} (k : M T A) : M (console T) A := fun s =>
  obind (k (screen s)) (fun '(a, t) => Ret (a, mk_console (serial_lock s) t)).

Definition printf (fuel : nat) (m : gmap Z Z) (format : Z) (args : va_list) : M (console T) unit :=
  acquire fuel ;;;
  on_screen (vprintf fuel m format args) ;;;
  release.
End printf.
