(* ===== verification/StdioProps.v ===== *)
(** Formatted output against a reference formatter.

    [numeral] is positional notation, characterised by [numeral_val] and
    [numeral_canonical]; [parse_fmt] splits a format into literals and
    conversions; [items_text] is the text they stand for.  vsprintf and
    vsnprintf store that text (the latter cut to the buffer), vprintf sends it
    to the terminal. *)
From Stdlib Require Import SpecFloat.
From S2P Require Import Prelude CString CStdlib Stdio.

(** ** Positional notation *)

(** The digits of [n] in base [b], least significant first. *)
Fixpoint num_le (b : Z) (k : nat) (n : Z) : list Z :=
  match k with
  | O => []
  | S k => n mod b :: (if n / b =? 0 then [] else num_le b k (n / b))
  end.

(** Most significant first; 64 digits are enough for a 64-bit number. *)
Definition numeral (b n : Z) : list Z := rev (num_le b 64 n).

(** The number a list of digits denotes, most significant first. *)
Definition numeral_val (b : Z) (l : list Z) : Z := fold_left (fun a d => a * b + d) l 0.

Fixpoint le_digits_val (b : Z) (l : list Z) : Z :=
  match l with [] => 0 | d :: l => d + b * le_digits_val b l end.

Section numerals.
Context (b : Z) (Hb : 2 <= b).

Lemma numeral_val_rev l : numeral_val b (rev l) = le_digits_val b l.
Proof.
  unfold numeral_val. rewrite <- fold_left_rev_right, rev_involutive.
  induction l as [|d l IH]; cbn [fold_right le_digits_val]; [done|]. rewrite IH. lia.
Qed.

Lemma num_le_val k n : 0 <= n < b ^ Z.of_nat k -> le_digits_val b (num_le b k n) = n.
Proof.
  revert n. induction k as [|k IH]; intros n Hn; [simpl in *; lia|].
  rewrite Nat2Z.inj_succ, Z.pow_succ_r in Hn by lia. cbn [num_le le_digits_val].
  pose proof (Z.div_mod n b ltac:(lia)) as Hdm. case_if.
  - cbn [le_digits_val]. lia.
  - rewrite IH; [lia|]. split; [apply Z.div_pos; lia | apply Z.div_lt_upper_bound; lia].
Qed.

Lemma num_le_digits k n : Forall (fun d => 0 <= d < b) (num_le b k n).
Proof.
  revert n. induction k as [|k IH]; intros n; cbn [num_le]; constructor.
  - apply Z.mod_pos_bound. lia.
  - case_if; [constructor | apply IH].
Qed.

Lemma num_le_length k n : (length (num_le b k n) <= k)%nat.
Proof.
  revert n. induction k as [|k IH]; intros n; cbn [num_le length]; [done|].
  case_if; cbn [length]; [lia|]. specialize (IH (n / b)). lia.
Qed.

(** No more digits than needed. *)
Lemma num_le_short k j n : (0 < j)%nat -> 0 <= n < b ^ Z.of_nat j ->
  (length (num_le b k n) <= j)%nat.
Proof.
  revert k n. induction j as [|j IH]; intros k n Hj Hn; [lia|].
  destruct k as [|k]; cbn [num_le length]; [lia|]. case_if; cbn [length]; [lia|].
  rewrite Nat2Z.inj_succ, Z.pow_succ_r in Hn by lia.
  assert (0 <= n / b < b ^ Z.of_nat j)
    by (split; [apply Z.div_pos; lia | apply Z.div_lt_upper_bound; lia]).
  destruct j as [|j]; [simpl in *; lia|]. specialize (IH k (n / b)). lia.
Qed.

(** The fuel does not matter once it is enough. *)
Lemma num_le_fuel k k' n : (0 < k)%nat -> (0 < k')%nat -> 0 <= n < b ^ Z.of_nat k ->
  0 <= n < b ^ Z.of_nat k' -> num_le b k n = num_le b k' n.
Proof.
  revert k' n. induction k as [|k IH]; intros [|k'] n Hk Hk' Hn Hn'; try lia.
  cbn [num_le]. f_equal. case_if; [done|].
  rewrite Nat2Z.inj_succ, Z.pow_succ_r in Hn, Hn' by lia.
  assert (0 < n / b) by (pose proof (Z.div_pos n b); lia).
  assert (n / b < b ^ Z.of_nat k) by (apply Z.div_lt_upper_bound; lia).
  assert (n / b < b ^ Z.of_nat k') by (apply Z.div_lt_upper_bound; lia).
  apply IH; try lia; destruct k, k'; simpl in *; lia.
Qed.
End numerals.

Lemma num_bound64 b n : 2 <= b -> 0 <= n < 2 ^ 64 -> 0 <= n < b ^ Z.of_nat 64.
Proof.
  intros Hb Hn. split; [lia|]. apply Z.lt_le_trans with (2 ^ 64); [lia|].
  apply Z.pow_le_mono_l. lia.
Qed.

(** A numeral denotes its number, in digits of the base. *)
Lemma numeral_ok b n : 2 <= b -> 0 <= n < 2 ^ 64 ->
  numeral_val b (numeral b n) = n /\ Forall (fun d => 0 <= d < b) (numeral b n).
Proof.
  intros Hb Hn. unfold numeral. rewrite numeral_val_rev.
  rewrite num_le_val by (try lia; by apply num_bound64). split; [done|].
  apply Forall_rev, num_le_digits. lia.
Qed.

(** The text of a number. *)
Definition num_text (tbl : list Z) (b n : Z) : list Z := char_of tbl <$> numeral b n.
Definition dec_text (n : Z) : list Z := num_text hex_lower 10 n.
Definition int_text (z : Z) : list Z := if z <? 0 then 45 :: dec_text (- z) else dec_text z.

Lemma num_text_rev tbl b n : num_text tbl b n = rev (char_of tbl <$> num_le b 64 n).
Proof. apply map_rev. Qed.

Lemma char_of_dec d : 0 <= d < 10 -> char_of hex_lower d = 48 + d.
Proof.
  intros Hd. assert (d = 0 \/ d = 1 \/ d = 2 \/ d = 3 \/ d = 4 \/ d = 5 \/ d = 6 \/ d = 7 \/
    d = 8 \/ d = 9) as H by lia. by repeat destruct H as [->|H]; [..|subst].
Qed.

Lemma char_of_byte tbl d : Forall byte tbl -> byte (char_of tbl d).
Proof.
  intros Ht. unfold char_of. destruct (tbl !! Z.to_nat d) eqn:He; simpl.
  - rewrite Forall_lookup in Ht. by eapply Ht.
  - unfold byte. lia.
Qed.

Lemma hex_tables_byte : Forall byte hex_lower /\ Forall byte hex_upper.
Proof. unfold byte. split; repeat constructor; lia. Qed.

Lemma num_text_byte tbl b n : Forall byte tbl -> Forall byte (num_text tbl b n).
Proof. intros. apply Forall_fmap, Forall_true. intros. by apply char_of_byte. Qed.

Lemma dec_text_byte n : Forall byte (dec_text n).
Proof. apply num_text_byte, hex_tables_byte. Qed.

(** ** The digit loops *)

Section loops.
Context {S : Type}.
Implicit Types (s : S).

Lemma dec_loop k : forall F tmp val Q s, (0 < k <= F)%nat -> 0 <= val < 10 ^ Z.of_nat k ->
  (length tmp + k <= 32)%nat ->
  Q (tmp ++ (char_of hex_lower <$> num_le 10 k val)) s ->
  wp (iter_fuel F (fun '(tmp, val) =>
    guard (zlen tmp <? 32) ;;;
    let tmp := tmp ++ [48 + val mod 10] in
    let val := val / 10 in
    if 0 <? val then ret (inl (tmp, val)) else ret (inr tmp)) (tmp, val)) Q s.
Proof.
  induction k as [|k IH]; intros F tmp val Q s Hk Hv Hl HQ; [lia|].
  destruct F as [|F]; [lia|]. cbn [iter_fuel]. do 2 wp_step. wp_step. cbv zeta.
  rewrite Nat2Z.inj_succ, Z.pow_succ_r in Hv by lia.
  pose proof (Z.mod_pos_bound val 10 ltac:(lia)).
  pose proof (Z.div_pos val 10 ltac:(lia)).
  assert (val / 10 < 10 ^ Z.of_nat k) by (apply Z.div_lt_upper_bound; lia).
  cbn [num_le fmap list_fmap] in HQ. rewrite char_of_dec in HQ by lia.
  case_if; wp_step.
  - rewrite (proj2 (Z.eqb_neq _ _)) in HQ by lia. destruct k as [|k]; [simpl in *; lia|].
    apply IH; [lia | lia | rewrite length_app; simpl; lia|]. by rewrite <- app_assoc.
  - by rewrite (proj2 (Z.eqb_eq _ _)) in HQ by lia.
Qed.

Lemma dec_tmp_spec val (Q : list Z -> S -> Prop) s : 0 <= val < 2 ^ 64 ->
  Q (char_of hex_lower <$> num_le 10 64 val) s -> wp (dec_tmp val) Q s.
Proof.
  intros Hv HQ. apply (dec_loop 20); [lia | lia | simpl; lia|].
  rewrite (num_le_fuel 10 ltac:(lia) 20 64); [done | lia | lia | lia|].
  apply num_bound64; lia.
Qed.

Lemma hex_loop tbl k : forall F tmp val Q s, (0 < k <= F)%nat -> 0 <= val < 16 ^ Z.of_nat k ->
  (length tmp + k < 32)%nat ->
  Q (tmp ++ (char_of tbl <$> num_le 16 k val)) s ->
  wp (iter_fuel F (fun '(tmp, val) =>
    let tmp := tmp ++ [char_of tbl (Z.land val 0xF)] in
    let val := Z.shiftr val 4 in
    if (0 <? val) && (zlen tmp <? 32) then ret (inl (tmp, val)) else ret (inr tmp)) (tmp, val)) Q s.
Proof.
  induction k as [|k IH]; intros F tmp val Q s Hk Hv Hl HQ; [lia|].
  destruct F as [|F]; [lia|]. cbn [iter_fuel]. wp_step. cbv zeta.
  rewrite Nat2Z.inj_succ, Z.pow_succ_r in Hv by lia.
  change 15 with (Z.ones 4). rewrite Z.land_ones, Z.shiftr_div_pow2 by lia. change (2 ^ 4) with 16.
  pose proof (Z.div_pos val 16 ltac:(lia)).
  assert (val / 16 < 16 ^ Z.of_nat k) by (apply Z.div_lt_upper_bound; lia).
  cbn [num_le fmap list_fmap] in HQ. rewrite length_app. cbn [length].
  destruct (Z.ltb_spec 0 (val / 16)); simpl; [destruct (Z.ltb_spec (Z.of_nat (length tmp + 1)) 32); [|lia]|]; wp_step.
  - rewrite (proj2 (Z.eqb_neq _ _)) in HQ by lia. destruct k as [|k]; [simpl in *; lia|].
    apply IH; [lia | lia | rewrite length_app; simpl; lia|]. by rewrite <- app_assoc.
  - by rewrite (proj2 (Z.eqb_eq _ _)) in HQ by lia.
Qed.

Lemma hex_tmp_spec tbl val (Q : list Z -> S -> Prop) s : 0 <= val < 2 ^ 64 ->
  Q (char_of tbl <$> num_le 16 64 val) s -> wp (hex_tmp tbl val) Q s.
Proof.
  intros Hv HQ. apply (hex_loop tbl 16); [lia | lia | simpl; lia|].
  rewrite (num_le_fuel 16 ltac:(lia) 16 64); [done | lia | lia | lia|].
  apply num_bound64; lia.
Qed.

(** The loops that test first, for the digits of a positive number. *)
Lemma udec_loop k : forall F tmp val Q s, (0 < k < F)%nat -> 0 < val < 10 ^ Z.of_nat k ->
  (length tmp + k <= 32)%nat ->
  Q (tmp ++ (char_of hex_lower <$> num_le 10 k val)) s ->
  wp (iter_fuel F (fun '(buf, value) =>
    if 0 <? value then
      guard (zlen buf <? 32) ;;; ret (inl (buf ++ [48 + value mod 10], value / 10))
    else ret (inr buf)) (tmp, val)) Q s.
Proof.
  induction k as [|k IH]; intros F tmp val Q s Hk Hv Hl HQ; [lia|].
  destruct F as [|F]; [lia|]. cbn [iter_fuel]. wp_step.
  rewrite Nat2Z.inj_succ, Z.pow_succ_r in Hv by lia. rewrite (proj2 (Z.ltb_lt 0 val)) by lia.
  wp_steps.
  pose proof (Z.mod_pos_bound val 10 ltac:(lia)).
  pose proof (Z.div_pos val 10 ltac:(lia)).
  assert (val / 10 < 10 ^ Z.of_nat k) by (apply Z.div_lt_upper_bound; lia).
  cbn [num_le fmap list_fmap] in HQ. rewrite char_of_dec in HQ by lia.
  destruct (Z.eqb_spec (val / 10) 0) as [He|].
  - rewrite He. destruct F as [|F]; [lia|]. cbn [iter_fuel]. wp_step. simpl. wp_step. done.
  - destruct k as [|k]; [simpl in *; lia|].
    apply IH; [lia | lia | rewrite length_app; simpl; lia|]. by rewrite <- app_assoc.
Qed.

Definition bit_char (d : Z) : Z := if d =? 0 then 48 else 49.

Lemma bin_loop k : forall F tmp val Q s, (0 < k < F)%nat -> 0 < val < 2 ^ Z.of_nat k ->
  (length tmp + k < 65)%nat ->
  Q (tmp ++ (bit_char <$> num_le 2 k val)) s ->
  wp (iter_fuel F (fun '(tmp, val) =>
    if (0 <? val) && (zlen tmp <? 65) then
      ret (inl (tmp ++ [if Z.land val 1 =? 0 then 48 else 49], Z.shiftr val 1))
    else ret (inr tmp)) (tmp, val)) Q s.
Proof.
  induction k as [|k IH]; intros F tmp val Q s Hk Hv Hl HQ; [lia|].
  destruct F as [|F]; [lia|]. cbn [iter_fuel]. wp_step.
  rewrite Nat2Z.inj_succ, Z.pow_succ_r in Hv by lia. rewrite (proj2 (Z.ltb_lt 0 val)) by lia.
  rewrite (proj2 (Z.ltb_lt (zlen tmp) 65)) by lia. cbn [andb]. wp_step.
  change (Z.land val 1) with (Z.land val (Z.ones 1)).
  rewrite Z.land_ones, Z.shiftr_div_pow2 by lia. change (2 ^ 1) with 2.
  pose proof (Z.div_pos val 2 ltac:(lia)).
  assert (val / 2 < 2 ^ Z.of_nat k) by (apply Z.div_lt_upper_bound; lia).
  cbn [num_le fmap list_fmap] in HQ.
  destruct (Z.eqb_spec (val / 2) 0) as [He|].
  - rewrite He. destruct F as [|F]; [lia|]. cbn [iter_fuel]. wp_step. simpl. wp_step. done.
  - destruct k as [|k]; [simpl in *; lia|].
    apply IH; [lia | lia | rewrite length_app; simpl; lia|]. by rewrite <- app_assoc.
Qed.
End loops.

(** The characters of a binary digit. *)
Lemma bit_char_tbl d : 0 <= d < 2 -> char_of hex_lower d = bit_char d.
Proof. intros Hd. assert (d = 0 \/ d = 1) as [->| ->] by lia; done. Qed.

Lemma fmap_digits (f g : Z -> Z) b k n : 2 <= b -> (forall d, 0 <= d < b -> f d = g d) ->
  f <$> num_le b k n = g <$> num_le b k n.
Proof.
  intros Hb He. pose proof (num_le_digits b Hb k n) as Hd.
  induction Hd as [|d l Hd _ IH]; [done|]. rewrite !fmap_cons, IH, He by done. done.
Qed.

Lemma bin_tmp_spec {S} val (Q : list Z -> S -> Prop) s : 0 <= val < 2 ^ 64 ->
  Q (char_of hex_lower <$> num_le 2 64 val) s -> wp (bin_tmp val) Q s.
Proof.
  intros Hv HQ. unfold bin_tmp. case_if; [subst; apply wp_ret, HQ|].
  apply (bin_loop 64); [lia | lia | simpl; lia|].
  rewrite <- (fmap_digits _ _ 2 64 val ltac:(lia) bit_char_tbl). exact HQ.
Qed.

(** ** Formats and the text they stand for *)

Inductive item :=
  | Lit (c : Z)
  | Conv (len : nat) (c : Z).   (* the number of l modifiers *)

(** A format that ends inside a directive stands for nothing. *)
Fixpoint parse_fmt (f : list Z) : option (list item) :=
  match f with
  | [] => Some []
  | c :: f =>
      if negb (c =? 37) then cons (Lit c) <$> parse_fmt f else
      match f with
      | [] => None
      | c :: f =>
          if negb (c =? 108) then cons (Conv 0 c) <$> parse_fmt f else
          match f with
          | [] => None
          | c :: f =>
              if negb (c =? 108) then cons (Conv 1 c) <$> parse_fmt f else
              match f with
              | [] => None
              | c :: f => cons (Conv 2 c) <$> parse_fmt f
              end
          end
      end
  end.

(** The C string at an address, read by value. *)
Fixpoint read_str (k : nat) (m : gmap Z Z) (p : Z) : option (list Z) :=
  match k with
  | O => None
  | S k =>
      match m !! p with
      | None => None
      | Some c =>
          if c =? 0 then Some [] else
          if (0 <? c) && (c <? 256) then cons c <$> read_str k m (p + 1) else None
      end
  end.
Definition cstring_at (m : gmap Z Z) (p : Z) : option (list Z) := read_str (S (size m)) m p.

Lemma read_str_cstr k m p l : read_str k m p = Some l -> cstr m p l.
Proof.
  revert p l. induction k as [|k IH]; intros p l Hr; [done|]. cbn [read_str] in Hr.
  destruct (m !! p) as [c|] eqn:Hc; [|done]. case_match eqn:H0; simplify_eq/=.
  - bool_to_prop. subst c. split; [|constructor]. apply bytes_at_cons. split; [done|apply bytes_at_nil].
  - case_match eqn:Hr1; [|done]. bool_to_prop.
    destruct (read_str k m (p + 1)) as [l'|] eqn:Hr2; [|done]. simplify_eq/=.
    destruct (IH _ _ Hr2) as [Hb Hok]. split; [|constructor; [unfold char_ok; lia | done]].
    simpl. by apply bytes_at_cons.
Qed.

Definition signed_text (least v : Z) : option (list Z) :=
  if v =? least then None else Some (int_text v).

(** Text of a conversion and the arguments left; [full] has the conversions
    only vsprintf knows.  %f is not covered. *)
Definition conv_text (full : bool) (m : gmap Z Z) (len : nat) (c : Z) (va : va_list) :
    option (list Z * va_list) :=
  let arg (f : Z -> option (list Z)) :=
    match gp_args va with
    | [] => None
    | w :: r => t ← f w; Some (t, mk_va r (fp_args va))
    end in
  match len with
  | O =>
      if c =? 100 then arg (fun w => signed_text INT_MIN (s32 w))
      else if c =? 117 then arg (fun w => Some (dec_text (u32 w)))
      else if c =? 99 then arg (fun w => Some [u8 (s32 w)])
      else if c =? 115 then arg (fun w =>
        if negb full && (u64 w =? 0) then Some null_text else cstring_at m (u64 w))
      else if full && (c =? 102) then None
      else if full && (c =? 112) then arg (fun w => Some (num_text hex_lower 16 (u64 w)))
      else if full && (c =? 120) then arg (fun w => Some (num_text hex_lower 16 (u32 w)))
      else if full && (c =? 88) then arg (fun w => Some (num_text hex_upper 16 (u32 w)))
      else if full && (c =? 98) then arg (fun w => Some (num_text hex_lower 2 (u32 w)))
      else Some ([37; c], va)
  | _ =>
      if c =? 100 then arg (fun w => signed_text LONG_MIN (s64 w))
      else if c =? 117 then arg (fun w => Some (dec_text (u64 w)))
      else Some ([], va)
  end.

Fixpoint items_text (full : bool) (m : gmap Z Z) (l : list item) (va : va_list) : option (list Z) :=
  match l with
  | [] => Some []
  | Lit c :: l => cons c <$> items_text full m l va
  | Conv len c :: l =>
      '(t, va) ← conv_text full m len c va;
      r ← items_text full m l va;
      Some (t ++ r)
  end.

(** Memory without the region [p, p + n): what a format and its string
    arguments may be read from. *)
Definition outside (p n : Z) (m : gmap Z Z) : gmap Z Z :=
  filter (fun '(a, _) => ~ (p <= a < p + n)) m.

Lemma outside_lookup p n m a : outside p n m !! a = if decide (p <= a < p + n) then None else m !! a.
Proof.
  unfold outside. case_decide as Hd.
  - apply map_lookup_filter_None. right. intros x _ Hn. done.
  - destruct (m !! a) as [x|] eqn:Hx.
    + by apply map_lookup_filter_Some.
    + apply map_lookup_filter_None. by left.
Qed.

(** Strings outside the region survive what is stored in it. *)
Lemma cstr_outside p n m m' q l : cstr (outside p n m) q l ->
  (forall a, a < p \/ p + n <= a -> m' !! a = m !! a) -> cstr m' q l.
Proof.
  intros [Hb Hok] He. split; [|done]. intros i c Hi. specialize (Hb i c Hi).
  rewrite outside_lookup in Hb. case_decide; [done|]. rewrite <- Hb. apply He. lia.
Qed.

(** The directive at the head of a format. *)
Lemma parse_conv f items : parse_fmt (37 :: f) = Some items ->
  exists len c f' items', f = replicate len 108 ++ c :: f' /\ items = Conv len c :: items' /\
    parse_fmt f' = Some items' /\ (len <= 2)%nat /\ ((len < 2)%nat -> c <> 108).
Proof.
  intros Hp. simpl in Hp. destruct f as [|c0 f]; [done|].
  destruct (Z.eqb_spec c0 108) as [->|H0]; simpl in Hp.
  - destruct f as [|c1 f]; [done|]. destruct (Z.eqb_spec c1 108) as [->|H1]; simpl in Hp.
    + destruct f as [|c2 f]; [done|]. destruct (parse_fmt f) eqn:Hf; [|done].
      simplify_eq/=. exists 2%nat, c2, f, l. repeat split; (done || lia).
    + destruct (parse_fmt f) eqn:Hf; [|done]. simplify_eq/=.
      exists 1%nat, c1, f, l. repeat split; (done || lia).
  - destruct (parse_fmt f) eqn:Hf; [|done]. simplify_eq/=.
    exists 0%nat, c0, f, l. repeat split; (done || lia).
Qed.

Lemma cstr_head m p c l : cstr m p (c :: l) -> m !! p = Some c /\ cstr m (p + 1) l /\ char_ok c.
Proof.
  intros [Hb Hok]. simpl in Hb. apply bytes_at_cons in Hb as [? ?].
  inversion Hok; subst. done.
Qed.

Lemma cstr_nil m p : cstr m p [] -> m !! p = Some 0.
Proof. intros [Hb _]. by apply bytes_at_cons in Hb as [? ?]. Qed.

Lemma read_conv_spec s p len c f Q :
  cstr (mem s) p (replicate len 108 ++ c :: f) -> (len <= 2)%nat -> ((len < 2)%nat -> c <> 108) ->
  Q (len, c, p + Z.of_nat len) s -> wp (read_conv p) Q s.
Proof.
  intros Hs Hl Hc HQ. unfold read_conv. destruct len as [|[|[|]]]; [..|lia]; cbn [replicate app] in Hs.
  - apply cstr_head in Hs as (H1 & _ & _). wp_step. apply (wp_ld _ c); [done|].
    rewrite (proj2 (Z.eqb_neq c 108)) by (apply Hc; lia). wp_step. by rewrite Z.add_0_r in HQ.
  - apply cstr_head in Hs as (H1 & Hs & _). apply cstr_head in Hs as (H2 & _ & _).
    wp_step. apply (wp_ld _ 108); [done|]. cbn -[Z.add]. wp_step. apply (wp_ld _ c); [done|].
    rewrite (proj2 (Z.eqb_neq c 108)) by (apply Hc; lia). by wp_step.
  - apply cstr_head in Hs as (H1 & Hs & _). apply cstr_head in Hs as (H2 & Hs & _).
    apply cstr_head in Hs as (H3 & _ & _).
    wp_step. apply (wp_ld _ 108); [done|]. cbn -[Z.add]. wp_step. apply (wp_ld _ 108); [done|].
    cbn -[Z.add]. wp_step. apply (wp_ld _ c); [done|]. wp_step.
    by replace (p + Z.of_nat 2) with (p + 1 + 1) in HQ by lia.
Qed.

(** ** Sinks *)

(** [put] emits one character: [I done x s] says that [done] has been
    emitted; there is room for [N] characters. *)
Section emit.
Context {S X : Type} (put : X -> Z -> M S X) (I : list Z -> X -> S -> Prop) (N : Z).

Definition emits : Prop := forall done x s c Q, I done x s -> zlen done < N ->
  (forall x' s', I (done ++ [u8 c]) x' s' -> Q x' s') -> wp (put x c) Q s.

Lemma foldM_emit l : emits -> forall done x s Q, I done x s -> zlen (done ++ l) <= N ->
  Forall byte l -> (forall x' s', I (done ++ l) x' s' -> Q x' s') -> wp (foldM put l x) Q s.
Proof.
  intros Hput. induction l as [|c l IH]; intros done x s Q HI Hn Hl HQ.
  - apply wp_ret, HQ. by rewrite app_nil_r.
  - inversion Hl as [|?? Hc Hl']; subst. rewrite length_app in Hn. cbn [length] in Hn.
    cbn [foldM]. wp_step. eapply Hput; [done | lia|]. intros x' s' HI'. rewrite u8_small in HI' by done.
    apply (IH (done ++ [c])); [done | | done|].
    + rewrite <- app_assoc, length_app. simpl. lia.
    + intros x2 s2. rewrite <- app_assoc. apply HQ.
Qed.
End emit.

(** What int_text adds to the digits of the absolute value. *)
Lemma int_text_neg v : v < 0 -> int_text v = 45 :: dec_text (- v).
Proof. intros. unfold int_text. by rewrite (proj2 (Z.ltb_lt v 0)) by lia. Qed.
Lemma int_text_pos v : 0 <= v -> int_text v = dec_text v.
Proof. intros. unfold int_text. by rewrite (proj2 (Z.ltb_ge v 0)) by lia. Qed.

Lemma s64_range z : -9223372036854775808 <= s64 z < 9223372036854775808.
Proof.
  unfold s64. pose proof (Z.mod_pos_bound (z + 9223372036854775808) 18446744073709551616). lia.
Qed.

Lemma u32_64 z : 0 <= u32 z < 2 ^ 64.
Proof. pose proof (u32_range z). lia. Qed.
Lemma u64_64 z : 0 <= u64 z < 2 ^ 64.
Proof. pose proof (u64_range z). lia. Qed.
#[export] Hint Resolve u32_64 u64_64 dec_text_byte : machine.

(** Take the next argument of a conversion and the text [Ht] gives it. *)
Ltac arg_step Ht :=
  match goal with va : va_list |- _ =>
    let w := fresh "w" in let r := fresh "r" in let fp := fresh "fp" in
    destruct va as [[|w r] fp]; [done|]; cbn [gp_args fp_args] in Ht;
    try (let t := fresh "t" in let Hsg := fresh "Hsg" in
         match type of Ht with context [signed_text ?l ?v] =>
           destruct (signed_text l v) as [t|] eqn:Hsg; [|done] end);
    try (let t := fresh "t" in let Hsg := fresh "Hsg" in
         match type of Ht with context [cstring_at ?m ?p] =>
           destruct (cstring_at m p) as [t|] eqn:Hsg; [|done] end);
    cbn in Ht; simplify_eq; unfold va_slot; cbn [gp_args fp_args];
    do 2 wp_step
  end.

(** ** vsprintf *)

Section vsprintf.
Context (s0 : cmem) (buf : Z) (N : Z).
Hypothesis Hmap : mapped (mem s0) buf N.

(** [done] is stored at the start of the buffer and nothing else changed. *)
Definition stored (done : list Z) (out : Z) (s : cmem) : Prop :=
  exists m, s = set_mem m s0 /\ updated (mem s0) m buf done /\ out = buf + zlen done.

Lemma sprint_char_emits : emits sprint_char stored N.
Proof.
  intros done x s c Q (m & -> & Hu & ->) Hn HQ. unfold sprint_char. wp_step.
  apply wp_st; [apply (updated_mapped _ _ _ _ _ _ Hu Hmap); lia|]. wp_step. apply HQ.
  exists (<[buf + zlen done := u8 c]> m). split; [done|]. split; [by apply updated_snoc|].
  rewrite length_app. simpl. lia.
Qed.

Lemma sprint_rev_emits tbl b val done out s Q : Forall byte tbl -> stored done out s ->
  zlen (done ++ num_text tbl b val) <= N ->
  (forall out' s', stored (done ++ num_text tbl b val) out' s' -> Q out' s') ->
  wp (sprint_rev (char_of tbl <$> num_le b 64 val) out) Q s.
Proof.
  intros Ht Hs Hn HQ. unfold sprint_rev. rewrite <- num_text_rev.
  eapply foldM_emit; [apply sprint_char_emits | done | done | by apply num_text_byte | done].
Qed.

Lemma sprint_unsigned_emits val done out s Q : 0 <= val < 2 ^ 64 -> stored done out s ->
  zlen (done ++ dec_text val) <= N ->
  (forall out' s', stored (done ++ dec_text val) out' s' -> Q out' s') ->
  wp (sprint_unsigned val out) Q s.
Proof.
  intros Hv Hs Hn HQ. unfold sprint_unsigned. wp_step. apply dec_tmp_spec; [done|].
  eapply sprint_rev_emits; [apply hex_tables_byte | done..].
Qed.

Lemma sprint_signed_emits least val t done out s Q : -2 ^ 63 <= least ->
  least <= val < 2 ^ 63 -> signed_text least val = Some t -> stored done out s ->
  zlen (done ++ t) <= N -> (forall out' s', stored (done ++ t) out' s' -> Q out' s') ->
  wp (sprint_signed least val out) Q s.
Proof.
  intros Hleast Hv Ht Hs Hn HQ. unfold signed_text in Ht. case_match eqn:He; [done|].
  simplify_eq. bool_to_prop. unfold sprint_signed. case_if.
  - rewrite int_text_neg in Hn, HQ by lia. rewrite length_app in Hn. cbn [length] in Hn.
    wp_step. eapply sprint_char_emits; [done | lia|]. intros o' s' Hs'. change (u8 45) with 45 in Hs'.
    wp_step. apply wp_guard; [by apply negb_true_iff, Z.eqb_neq|].
    eapply sprint_unsigned_emits; [lia | done | |].
    + rewrite <- app_assoc, length_app. simpl. lia.
    + intros o2 s2. rewrite <- app_assoc. apply HQ.
  - rewrite int_text_pos in Hn, HQ by lia. eapply sprint_unsigned_emits; [lia | done..].
Qed.

Lemma sprint_str_emits fuel p l done out s Q : cstr (outside buf N (mem s0)) p l ->
  (length l < fuel)%nat -> stored done out s -> zlen (done ++ l) <= N ->
  (forall out' s', stored (done ++ l) out' s' -> Q out' s') -> wp (sprint_str fuel out p) Q s.
Proof.
  intros Hp Hf Hs Hn HQ. unfold sprint_str.
  apply (wp_iter_idx (T := nat) (fun i => length l - i)%nat (fun i '(out, q) s =>
    (i <= length l)%nat /\ q = p + Z.of_nat i /\ stored (done ++ take i l) out s)
    _ _ _ O); [| |lia].
  - intros i [o q] s1 (Hi & -> & Hs1). pose proof Hs1 as (m & -> & Hu & ->).
    assert (Hp' : cstr m p l).
    { eapply cstr_outside; [done|]. intros a Ha. apply (updated_other _ _ _ _ _ Hu).
      rewrite length_app, length_take. rewrite length_app in Hn. lia. }
    destruct (cstr_char _ _ _ i Hp' Hi) as (c & Hc & Hr & Hlt & Hend).
    wp_step. apply (wp_ld _ c); [done|]. case_if.
    + destruct (Hlt ltac:(destruct (decide (i = length l)); [tauto | lia])) as [Hl _].
      pose proof (lookup_lt_Some _ _ _ Hl). wp_step.
      apply wp_st; [apply (updated_mapped _ _ _ _ _ _ Hu Hmap)|].
      { rewrite length_app, length_take. rewrite length_app in Hn. lia. }
      wp_step. exists (S i). split; [|lia]. split; [lia|]. split; [lia|].
      rewrite u8_small by done. rewrite (take_S_r _ _ _ Hl), app_assoc. eexists. split; [done|].
      split; [by apply updated_snoc|]. rewrite !length_app. simpl. lia.
    + wp_step. apply HQ. replace l with (take i l) at 1; [done|].
      apply firstn_all2. destruct (decide (i = length l)); [lia|]. destruct Hlt; [lia | done].
  - split; [lia|]. split; [lia|]. simpl. by rewrite app_nil_r.
Qed.

Lemma vsprintf_conv_emits fuel len c va t va' done out s Q :
  conv_text true (outside buf N (mem s0)) len c va = Some (t, va') -> char_ok c ->
  (length t < fuel)%nat -> stored done out s -> zlen (done ++ t) <= N ->
  (forall out' s', stored (done ++ t) out' s' -> Q (out', va') s') ->
  wp (vsprintf_conv fuel len c out va) Q s.
Proof.
  intros Ht Hc Hf Hs Hn HQ. unfold conv_text in Ht. unfold vsprintf_conv.
  pose proof s32_range as Hr32. pose proof s64_range as Hr64.
  destruct hex_tables_byte as [Hlo Hup].
  destruct len as [|len]; cbn [andb negb] in Ht.
  - destruct (c =? 100); [|destruct (c =? 117); [|destruct (c =? 99); [|destruct (c =? 115);
      [|destruct (c =? 102); [done|destruct (c =? 112); [|destruct (c =? 120);
        [|destruct (c =? 88); [|destruct (c =? 98)]]]]]]]].
    + arg_step Ht. wp_step. eapply sprint_signed_emits; [| |done..|]; [unfold INT_MIN; lia| |].
      { specialize (Hr32 w). unfold INT_MIN. lia. } intros. wp_step. auto.
    + arg_step Ht. wp_step. eapply sprint_unsigned_emits; [apply u32_64 | done..|]. intros. wp_step. auto.
    + arg_step Ht. wp_step. rewrite length_app in Hn. cbn [length] in Hn.
      eapply sprint_char_emits; [done | lia|]. intros. wp_step. auto.
    + arg_step Ht. wp_step. apply read_str_cstr in Hsg.
      eapply sprint_str_emits; [done..|]. intros. wp_step. auto.
    + arg_step Ht. wp_step. apply hex_tmp_spec; [apply u64_64|]. wp_step.
      eapply sprint_rev_emits; [done..|]. intros. wp_step. auto.
    + arg_step Ht. wp_step. apply hex_tmp_spec; [apply u32_64|]. wp_step.
      eapply sprint_rev_emits; [done..|]. intros. wp_step. auto.
    + arg_step Ht. wp_step. apply hex_tmp_spec; [apply u32_64|]. wp_step.
      eapply sprint_rev_emits; [done..|]. intros. wp_step. auto.
    + arg_step Ht. wp_step. apply bin_tmp_spec; [apply u32_64|]. wp_step.
      eapply sprint_rev_emits; [done..|]. intros. wp_step. auto.
    + simplify_eq. rewrite length_app in Hn. cbn [length] in Hn.
      wp_step. eapply sprint_char_emits; [done | lia|]. intros o1 s1 H1.
      wp_step. eapply sprint_char_emits; [done | rewrite length_app; simpl; lia|]. intros o2 s2 H2.
      wp_step. apply HQ. unfold char_ok in Hc. rewrite <- app_assoc, (u8_small c) in H2 by lia. done.
  - destruct (c =? 100); [|destruct (c =? 117)].
    + arg_step Ht. wp_step. eapply sprint_signed_emits; [| |done..|]; [unfold LONG_MIN; lia| |].
      { specialize (Hr64 w). unfold LONG_MIN. lia. } intros. wp_step. auto.
    + arg_step Ht. wp_step. eapply sprint_unsigned_emits; [apply u64_64 | done..|]. intros. wp_step. auto.
    + simplify_eq. wp_step. apply HQ. by rewrite app_nil_r.
Qed.
End vsprintf.

(** One item more of the text. *)
Lemma items_conv full m len c l va text : items_text full m (Conv len c :: l) va = Some text ->
  exists t va' r, conv_text full m len c va = Some (t, va') /\ items_text full m l va' = Some r /\
    text = t ++ r.
Proof.
  cbn [items_text]. intros Ht. destruct (conv_text full m len c va) as [[t va']|]; [|done].
  simpl in Ht. destruct (items_text full m l va') as [r|] eqn:Hr; [|done]. simplify_eq/=. eauto 10.
Qed.

Lemma parse_lit c f items : c <> 37 -> parse_fmt (c :: f) = Some items ->
  exists items', items = Lit c :: items' /\ parse_fmt f = Some items'.
Proof.
  intros Hc Hp. simpl in Hp. rewrite (proj2 (Z.eqb_neq c 37)) in Hp by done. simpl in Hp.
  destruct (parse_fmt f) as [l|]; [|done]. simplify_eq/=. eauto.
Qed.

Lemma items_lit full m c l va text : items_text full m (Lit c :: l) va = Some text ->
  exists r, items_text full m l va = Some r /\ text = c :: r.
Proof.
  cbn [items_text]. intros Ht. destruct (items_text full m l va) as [r|]; [|done].
  simplify_eq/=. eauto.
Qed.

(** What is left to print: the format at [ptr], the items it parses to and
    their text [rest]. *)
Definition pending (full : bool) (hid : gmap Z Z) (text f : list Z) (ptr : Z) (va : va_list)
    (done : list Z) : Prop :=
  cstr hid ptr f /\ exists items rest, parse_fmt f = Some items /\
    items_text full hid items va = Some rest /\ text = done ++ rest.

Lemma pending_nil full hid text ptr va done :
  pending full hid text [] ptr va done -> hid !! ptr = Some 0 /\ text = done.
Proof.
  intros (Hc & items & rest & Hp & Ht & ->). simpl in Hp. simplify_eq/=.
  split; [by apply cstr_nil | by rewrite app_nil_r].
Qed.

Lemma pending_lit full hid text c f ptr va done : c <> 37 ->
  pending full hid text (c :: f) ptr va done ->
  hid !! ptr = Some c /\ char_ok c /\ pending full hid text f (ptr + 1) va (done ++ [c]).
Proof.
  intros Hc (Hs & items & rest & Hp & Ht & ->). apply cstr_head in Hs as (Hl & Hs & Hok).
  apply parse_lit in Hp as (l & -> & Hp); [|done]. apply items_lit in Ht as (r & Ht & ->).
  do 2 (split; [done|]). split; [done|]. exists l, r. by rewrite <- app_assoc.
Qed.

Lemma pending_conv full hid text f ptr va done : pending full hid text (37 :: f) ptr va done ->
  hid !! ptr = Some 37 /\ exists len c f' t va',
    cstr hid (ptr + 1) (replicate len 108 ++ c :: f') /\ (len <= 2)%nat /\
    ((len < 2)%nat -> c <> 108) /\ char_ok c /\ (length f' < S (length f))%nat /\
    conv_text full hid len c va = Some (t, va') /\ (exists r, text = done ++ t ++ r) /\
    pending full hid text f' (ptr + 1 + Z.of_nat len + 1) va' (done ++ t).
Proof.
  intros (Hs & items & rest & Hp & Ht & ->). apply cstr_head in Hs as (Hl & Hs & Hok).
  split; [done|]. apply parse_conv in Hp as (len & c & f' & l & -> & -> & Hp & Hlen & Hc).
  apply items_conv in Ht as (t & va' & r & Hct & Ht & ->). exists len, c, f', t, va'.
  assert (Hs' : cstr hid (ptr + 1 + Z.of_nat len) (c :: f')).
  { destruct Hs as [Hb Hk]. rewrite <- app_assoc in Hb. apply bytes_at_app in Hb as [_ Hb].
    rewrite length_replicate in Hb. split; [done|]. by apply Forall_app in Hk as [_ Hk]. }
  apply cstr_head in Hs' as (_ & Hs' & Hcok). cbn [length]. rewrite length_app, length_replicate.
  cbn [length]. do 3 (split; [done|]). split; [done|]. split; [lia|]. split; [done|].
  split; [by exists r|]. split; [done|]. exists l, r. by rewrite <- app_assoc.
Qed.

(** The loop of vsprintf and of vsnprintf: [put] and [conv] emit into a sink
    whose invariant is [I]. *)
Section format_loop.
Context {X : Type} (full : bool) (put : X -> Z -> M cmem X)
  (conv : nat -> Z -> X -> va_list -> M cmem (X * va_list))
  (I : list Z -> X -> cmem -> Prop) (hid : gmap Z Z) (text : list Z).

(** The characters emitted so far begin the text. *)
Definition begins (done : list Z) : Prop := exists r, text = done ++ r.

Hypothesis Hmem : forall done x s p c, I done x s -> begins done ->
  hid !! p = Some c -> mem s !! p = Some c.
Hypothesis Hput : forall done x s c Q, I done x s -> begins (done ++ [u8 c]) ->
  (forall x' s', I (done ++ [u8 c]) x' s' -> Q x' s') -> wp (put x c) Q s.
Hypothesis Hconv : forall done x s len c va t va' Q,
  conv_text full hid len c va = Some (t, va') -> char_ok c -> I done x s -> begins (done ++ t) ->
  (forall x' s', I (done ++ t) x' s' -> Q (x', va') s') -> wp (conv len c x va) Q s.

Lemma begins_length done : begins done -> (length done <= length text)%nat.
Proof. intros [r ->]. rewrite length_app. lia. Qed.

Lemma pending_begins f ptr va done : pending full hid text f ptr va done -> begins done.
Proof. intros (_ & ? & r & _ & _ & ->). by exists r. Qed.

Lemma format_loop fuel f ptr x va s Q :
  pending full hid text f ptr va [] -> I [] x s -> (length f < fuel)%nat ->
  (forall x' s', I text x' s' -> Q x' s') ->
  wp (iter_fuel fuel (fun '(ptr, x, va) =>
    let! c := ld ptr in
    if c =? 0 then ret (inr x) else
    if c =? 37 then
      let! '(len, c, ptr) := read_conv (ptr + 1) in
      let! '(x, va) := conv len c x va in
      ret (inl (ptr + 1, x, va))
    else
      let! x := put x c in
      ret (inl (ptr + 1, x, va))) (ptr, x, va)) Q s.
Proof.
  intros Hp HI Hf HQ.
  apply (wp_iter_idx (T := list Z) length (fun f '(ptr, x, va) s1 =>
    exists done, I done x s1 /\ pending full hid text f ptr va done) _ _ _ f); [|eauto|lia].
  clear f ptr x va s Hp HI Hf. intros f [[ptr x] va] s (done & HI & Hp).
  pose proof (pending_begins _ _ _ _ Hp) as Hbeg.
  destruct f as [|c f]; [|destruct (decide (c = 37)) as [->|Hne]].
  - apply pending_nil in Hp as [H0 ->]. wp_step. apply (wp_ld _ 0); [by eapply Hmem|].
    rewrite Z.eqb_refl. wp_step. by apply HQ.
  - apply pending_conv in Hp as
      (H37 & len & c & f' & t & va' & Hcs & Hlen & Hc1 & Hok & Hlt & Hct & _ & Hnext).
    wp_step. apply (wp_ld _ 37); [by eapply Hmem|].
    change (37 =? 0) with false. rewrite Z.eqb_refl. wp_step.
    eapply read_conv_spec; [|done..|].
    { destruct Hcs as [Hb ?]. split; [|done]. intros i y Hi. eapply Hmem; [done.. | by apply Hb]. }
    wp_step. eapply Hconv; [done | done | done | by eapply pending_begins|].
    intros x' s' HI'. wp_step. exists f'. split; [by exists (done ++ t) | simpl; lia].
  - apply pending_lit in Hp as (H37 & Hok & Hnext); [|done]. unfold char_ok in Hok.
    wp_step. apply (wp_ld _ c); [by eapply Hmem|].
    rewrite (proj2 (Z.eqb_neq c 0)), (proj2 (Z.eqb_neq c 37)) by lia. wp_step.
    rewrite <- (u8_small c) in Hnext by lia.
    eapply Hput; [done | by eapply pending_begins|]. intros x' s' HI'. wp_step.
    exists f. split; [by exists (done ++ [u8 c]) | simpl; lia].
Qed.
End format_loop.

(** ** vsnprintf *)

Section vsnprintf.
Context (s0 : cmem) (buf size : Z).
Hypothesis Hmap : mapped (mem s0) buf size.

(** What fits of the characters emitted. *)
Definition fitting (done : list Z) : list Z := take (Z.to_nat (size - 1)) done.

Definition limited (done : list Z) (o r : Z) (s : cmem) : Prop :=
  exists m, s = set_mem m s0 /\ updated (mem s0) m buf (fitting done) /\
    o = buf + zlen (fitting done) /\ r = size - zlen (fitting done).

Definition sunk (done : list Z) (k : sink) (s : cmem) : Prop :=
  limited done (s_out k) (s_rem k) s /\ s_total k = zlen done.

Lemma fitting_more done l : size - zlen (fitting done) <= 1 -> fitting (done ++ l) = fitting done.
Proof.
  unfold fitting. rewrite length_take. intros Hr. apply take_app_le. lia.
Qed.

Lemma fitting_all done : 1 < size - zlen (fitting done) ->
  fitting done = done /\ zlen done < size - 1.
Proof.
  unfold fitting. rewrite length_take. intros Hr. rewrite firstn_all2 by lia. split; [done | lia].
Qed.

(** Once the buffer is full the rest changes nothing. *)
Lemma limited_full done l o r s : limited done o r s -> r <= 1 -> limited (done ++ l) o r s.
Proof.
  intros (m & Hs & Hu & Ho & Hr) Hle. exists m. by rewrite fitting_more by lia.
Qed.

Lemma limited_snoc done o r s c : limited done o r s -> 1 < r ->
  limited (done ++ [u8 c]) (o + 1) (r - 1) (set_mem (<[o := u8 c]> (mem s)) s) /\
  is_Some (mem s !! o).
Proof.
  intros (m & -> & Hu & -> & ->) Hr. destruct (fitting_all done Hr) as [Hfit Hlt].
  assert (Hn : fitting (done ++ [u8 c]) = done ++ [u8 c]).
  { unfold fitting. apply firstn_all2. rewrite length_app. simpl. lia. }
  split.
  - exists (<[buf + zlen (fitting done) := u8 c]> m). rewrite Hn. rewrite Hfit in *.
    split; [done|]. split; [by apply updated_snoc|]. rewrite length_app. simpl. lia.
  - apply (updated_mapped _ _ _ _ _ _ Hu Hmap). rewrite Hfit. lia.
Qed.

Lemma sprint_char_limit_spec done o r s c Q : limited done o r s ->
  (forall o' r' s', limited (done ++ [u8 c]) o' r' s' -> Q (o', r') s') ->
  wp (sprint_char_limit o c r) Q s.
Proof.
  intros HI HQ. unfold sprint_char_limit. case_if.
  - destruct (limited_snoc _ _ _ _ c HI Hb) as [Hl Hm]. wp_step. apply wp_st; [done|].
    wp_step. by apply HQ.
  - wp_step. apply HQ. by apply limited_full; [|lia].
Qed.

Lemma limit_chars_spec l done o r s Q : limited done o r s -> Forall byte l ->
  (forall o' r' s', limited (done ++ l) o' r' s' -> Q (o', r') s') ->
  wp (foldM (fun '(o, r) c => sprint_char_limit o c r) l (o, r)) Q s.
Proof.
  intros HI Hl HQ.
  eapply (foldM_emit _ (fun done '(o, r) s => limited done o r s) (zlen (done ++ l))); [|done..|].
  - intros d [o1 r1] s1 c Q1 H1 _ HQ1. eapply sprint_char_limit_spec; [done|].
    intros. by apply (HQ1 (_, _)).
  - intros [o1 r1] s1 H1. by apply HQ.
Qed.

Lemma limit_char_spec done k s c Q : sunk done k s -> zlen done < INT_MAX ->
  (forall k' s', sunk (done ++ [u8 c]) k' s' -> Q k' s') -> wp (limit_char k c) Q s.
Proof.
  intros [HI Ht] Hn HQ. unfold limit_char, int_add. wp_steps. eapply sprint_char_limit_spec; [done|].
  intros o' r' s' H'. wp_step. apply HQ. split; [done|]. rewrite length_app. simpl. lia.
Qed.

Lemma limit_unsigned_spec val done k s Q : 0 <= val < 2 ^ 64 -> sunk done k s ->
  zlen (done ++ dec_text val) <= INT_MAX ->
  (forall k' s', sunk (done ++ dec_text val) k' s' -> Q k' s') -> wp (limit_unsigned val k) Q s.
Proof.
  intros Hv [HI Ht] Hn HQ. unfold limit_unsigned, int_add. wp_step. apply dec_tmp_spec; [done|].
  assert (Hlen : zlen (dec_text val) = zlen (char_of hex_lower <$> num_le 10 64 val)).
  { unfold dec_text. by rewrite num_text_rev, length_rev. }
  rewrite length_app in Hn. wp_steps. rewrite <- num_text_rev. fold (dec_text val).
  eapply limit_chars_spec; [done | apply dec_text_byte|].
  intros o' r' s' H'. wp_step. apply HQ. split; [done|]. rewrite length_app. cbn [s_total]. lia.
Qed.

Lemma limit_signed_spec least val t done k s Q : -2 ^ 63 <= least ->
  least <= val < 2 ^ 63 -> signed_text least val = Some t -> sunk done k s ->
  zlen (done ++ t) <= INT_MAX -> (forall k' s', sunk (done ++ t) k' s' -> Q k' s') ->
  wp (limit_signed least val k) Q s.
Proof.
  intros Hleast Hv Ht Hs Hn HQ. unfold signed_text in Ht. case_match eqn:He; [done|].
  simplify_eq. bool_to_prop. unfold limit_signed. case_if.
  - rewrite int_text_neg in Hn, HQ by lia. rewrite length_app in Hn. cbn [length] in Hn.
    wp_step. eapply limit_char_spec; [done | lia|]. intros k' s' Hs'. change (u8 45) with 45 in Hs'.
    wp_step. apply wp_guard; [by apply negb_true_iff, Z.eqb_neq|].
    eapply limit_unsigned_spec; [lia | done | |].
    + rewrite <- app_assoc, length_app. simpl. lia.
    + intros k2 s2. rewrite <- app_assoc. apply HQ.
  - rewrite int_text_pos in Hn, HQ by lia. eapply limit_unsigned_spec; [lia | done..].
Qed.

Lemma count_str_spec fuel p l total s Q : cstr (mem s) p l -> (length l < fuel)%nat ->
  total + zlen l <= INT_MAX -> Q (total + zlen l) s -> wp (count_str fuel p total) Q s.
Proof.
  intros Hc Hf Hn HQ. unfold count_str.
  apply (wp_iter_idx (T := nat) (fun i => length l - i)%nat (fun i '(q, tot) s1 =>
    (i <= length l)%nat /\ q = p + Z.of_nat i /\ tot = total + Z.of_nat i /\ s1 = s) _ _ _ O);
    [| |lia].
  - intros i [q tot] s1 (Hi & -> & -> & ->).
    destruct (cstr_char _ _ _ i Hc Hi) as (c & Hld & _ & Hlt & Hend).
    wp_step. apply (wp_ld _ c); [done|]. case_if.
    + wp_step. replace (Z.of_nat i) with (zlen l); [done|].
      destruct (decide (i = length l)); [lia|]. destruct Hlt; [lia | done].
    + assert (i <> length l) by tauto. unfold int_add. wp_steps. exists (S i). repeat split; lia.
  - repeat split; lia.
Qed.

(** A full buffer is left alone by the loop, which stops early. *)
Lemma sprint_str_limit_spec fuel p l done o r s Q : cstr (outside buf size (mem s0)) p l ->
  (length l < fuel)%nat -> limited done o r s ->
  (forall o' r' s', limited (done ++ l) o' r' s' -> Q (o', r') s') ->
  wp (sprint_str_limit fuel o p r) Q s.
Proof.
  intros Hp Hf Hs HQ. unfold sprint_str_limit.
  apply (wp_iter_idx (T := nat) (fun i => length l - i)%nat (fun i '(o, q, r) s =>
    (i <= length l)%nat /\ q = p + Z.of_nat i /\ limited (done ++ take i l) o r s)
    _ _ _ O); [| |lia].
  - intros i [[o1 q] r1] s1 (Hi & -> & Hs1). pose proof Hs1 as (m & -> & Hu & Ho & Hr).
    assert (Hp' : cstr m p l).
    { eapply cstr_outside; [done|]. intros a Ha. apply (updated_other _ _ _ _ _ Hu).
      unfold fitting. rewrite length_take. lia. }
    destruct (cstr_char _ _ _ i Hp' Hi) as (c & Hc & Hcr & Hlt & Hend).
    wp_step. apply (wp_ld _ c); [done|]. destruct (Z.eqb_spec c 0) as [->|Hnz]; cbn [negb andb].
    + wp_step. apply HQ. replace l with (take i l) at 1; [done|].
      apply firstn_all2. destruct (decide (i = length l)); [lia|]. destruct Hlt; [lia | done].
    + destruct (Hlt ltac:(destruct (decide (i = length l)); [tauto | lia])) as [Hl _].
      pose proof (lookup_lt_Some _ _ _ Hl). case_if.
      * destruct (limited_snoc _ _ _ _ c Hs1 Hb) as [Hs2 Hmp]. wp_step. apply wp_st; [done|].
        wp_step. exists (S i). split; [|lia]. split; [lia|]. split; [lia|].
        rewrite (u8_small c) in Hs2 at 1 by done. by rewrite (take_S_r _ _ _ Hl), app_assoc.
      * wp_step. apply HQ. rewrite <- (take_drop i l) at 1. rewrite app_assoc.
        by apply limited_full.
  - split; [lia|]. split; [lia|]. simpl. by rewrite app_nil_r.
Qed.

Lemma limit_str_spec fuel p t done k s Q :
  (if p =? 0 then Some null_text else cstring_at (outside buf size (mem s0)) p) = Some t ->
  (length t < fuel)%nat -> sunk done k s -> zlen (done ++ t) <= INT_MAX ->
  (forall k' s', sunk (done ++ t) k' s' -> Q k' s') -> wp (limit_str fuel p k) Q s.
Proof.
  intros Ht Hf Hs Hn HQ. unfold limit_str. destruct (p =? 0).
  - injection Ht as <-. eapply (foldM_emit limit_char sunk INT_MAX); [|done | done | |done].
    + intros d x s1 c Q1 H1 Hd HQ1. by eapply limit_char_spec.
    + unfold null_text, byte. repeat constructor; lia.
  - apply read_str_cstr in Ht. destruct Hs as [HI Hk]. rewrite length_app in Hn. wp_step.
    eapply (count_str_spec _ _ t); [|done | lia|].
    { destruct HI as (m & -> & Hu & _). eapply cstr_outside; [done|]. intros a Ha.
      apply (updated_other _ _ _ _ _ Hu). unfold fitting. rewrite length_take. lia. }
    wp_step. eapply sprint_str_limit_spec; [done.. |]. intros o' r' s' H'. wp_step. apply HQ.
    split; [done|]. rewrite length_app. cbn [s_total]. lia.
Qed.

Lemma vsnprintf_conv_emits fuel len c va t va' done k s Q :
  conv_text false (outside buf size (mem s0)) len c va = Some (t, va') -> char_ok c ->
  (length t < fuel)%nat -> sunk done k s -> zlen (done ++ t) <= INT_MAX ->
  (forall k' s', sunk (done ++ t) k' s' -> Q (k', va') s') ->
  wp (vsnprintf_conv fuel len c k va) Q s.
Proof.
  intros Ht Hc Hf Hs Hn HQ. unfold conv_text in Ht. unfold vsnprintf_conv.
  pose proof s32_range as Hr32. pose proof s64_range as Hr64.
  destruct len as [|len]; cbn [andb negb] in Ht.
  - destruct (c =? 100); [|destruct (c =? 117); [|destruct (c =? 99); [|destruct (c =? 115)]]].
    + arg_step Ht. wp_step. eapply limit_signed_spec; [| |done..|]; [unfold INT_MIN; lia| |].
      { specialize (Hr32 w). unfold INT_MIN. lia. } intros. wp_step. auto.
    + arg_step Ht. wp_step. eapply limit_unsigned_spec; [apply u32_64 | done..|]. intros. wp_step. auto.
    + arg_step Ht. wp_step. rewrite length_app in Hn. cbn [length] in Hn.
      eapply limit_char_spec; [done | lia|]. intros. wp_step. auto.
    + destruct va as [[|w r] fp]; [done|]. cbn [gp_args fp_args] in Ht.
      destruct (if u64 w =? 0 then _ else _) as [t'|] eqn:Hsg in Ht; [|done]. cbn in Ht. simplify_eq.
      unfold va_slot. cbn [gp_args fp_args]. do 3 wp_step.
      eapply limit_str_spec; [done..|]. intros. wp_step. auto.
    + simplify_eq. rewrite length_app in Hn. cbn [length] in Hn.
      wp_step. eapply limit_char_spec; [done | lia|]. intros o1 s1 H1.
      wp_step. eapply limit_char_spec; [done | rewrite length_app; simpl; lia|]. intros o2 s2 H2.
      wp_step. apply HQ. unfold char_ok in Hc. rewrite <- app_assoc, (u8_small c) in H2 by lia. done.
  - destruct (c =? 100); [|destruct (c =? 117)].
    + arg_step Ht. wp_step. eapply limit_signed_spec; [| |done..|]; [unfold LONG_MIN; lia| |].
      { specialize (Hr64 w). unfold LONG_MIN. lia. } intros. wp_step. auto.
    + arg_step Ht. wp_step. eapply limit_unsigned_spec; [apply u64_64 | done..|]. intros. wp_step. auto.
    + simplify_eq. wp_step. apply HQ. by rewrite app_nil_r.
Qed.
End vsnprintf.

(** vsnprintf stores as much of the text as fits before a terminator and
    returns the length of all of it. *)
Lemma vsnprintf_spec s buf size format f va items text fuel Q :
  let hid := outside buf size (mem s) in
  0 <= size -> mapped (mem s) buf size ->
  cstr hid format f -> parse_fmt f = Some items -> items_text false hid items va = Some text ->
  zlen text <= INT_MAX -> (length f + length text < fuel)%nat ->
  (forall m, updated (mem s) m buf
       (if size =? 0 then [] else take (Z.to_nat (size - 1)) text ++ [0]) ->
     Q (zlen text) (set_mem m s)) ->
  wp (vsnprintf fuel buf size format va) Q s.
Proof.
  intros hid Hsz Hm Hs Hp Ht Hn Hf HQ. unfold vsnprintf. wp_step.
  eapply (format_loop false limit_char (vsnprintf_conv fuel) (sunk s buf size) hid text).
  - intros done x s1 p c [(m & -> & Hu & _) _] _. unfold hid. rewrite outside_lookup.
    case_decide; [done|]. intros <-. apply (updated_other _ _ _ _ _ Hu).
    unfold fitting. rewrite length_take. lia.
  - intros done x s1 c Q1 HI Hbeg%begins_length HQ1. rewrite length_app in Hbeg. cbn [length] in Hbeg.
    eapply limit_char_spec; [exact Hm | done | lia | done].
  - intros done x s1 len c va1 t va' Q1 Hct Hok HI Hbeg HQ1. apply begins_length in Hbeg.
    rewrite length_app in Hbeg.
    eapply vsnprintf_conv_emits; [exact Hm | done | done | lia | done | rewrite length_app; lia | done].
  - split; [done|]. eauto.
  - split; [|done]. exists (mem s). unfold fitting. rewrite take_nil. cbn [length s_out s_rem].
    split; [by destruct s|]. split; [apply updated_nil | lia].
  - lia.
  - intros k s1 [(m & -> & Hu & Ho & Hr) Htot].
    assert (Hl : zlen (fitting size text) <= Z.max 0 (size - 1))
      by (unfold fitting; rewrite length_take; lia).
    rewrite <- Htot in HQ. destruct (Z.eqb_spec size 0) as [->|].
    + change (fitting 0 text) with (@nil Z) in *. rewrite Hr. wp_step. simpl. wp_steps.
      by apply HQ.
    + wp_step. rewrite (proj2 (Z.ltb_lt 0 (s_rem k))) by lia.
      apply wp_st; [apply (updated_mapped _ _ _ _ _ _ Hu Hm); lia|]. wp_step.
      apply HQ. rewrite Ho. by apply updated_snoc.
Qed.

(** ** vprintf *)

Lemma numeral_step b q d : 2 <= b -> 0 < q -> 0 <= d < b -> b * q + d < 2 ^ 64 ->
  numeral b (b * q + d) = numeral b q ++ [d].
Proof.
  intros Hb Hq Hd Hn. unfold numeral.
  assert (Hdm : (b * q + d) / b = q /\ (b * q + d) mod b = d).
  { rewrite Z.mul_comm, Z.div_add_l, Z.div_small by lia. split; [lia|].
    rewrite Z.add_comm, Z.mod_add by lia. by apply Z.mod_small. }
  destruct Hdm as [Hdiv Hmod].
  assert (q < 2 ^ 63) by nia.
  assert (2 ^ 63 <= b ^ 63) by (apply Z.pow_le_mono_l; lia).
  change (num_le b 64 (b * q + d)) with ((b * q + d) mod b ::
    (if (b * q + d) / b =? 0 then [] else num_le b 63 ((b * q + d) / b))).
  rewrite Hdiv, Hmod, (proj2 (Z.eqb_neq q 0)) by lia. cbn [rev].
  rewrite (num_le_fuel b Hb 63 64 q); [done | lia | lia | |].
  - change (Z.of_nat 63) with 63. lia.
  - apply num_bound64; lia.
Qed.

Lemma numeral_digit b d : 2 <= b -> 0 <= d < b -> numeral b d = [d].
Proof.
  intros Hb Hd. unfold numeral. change (num_le b 64 d) with (d mod b ::
    (if d / b =? 0 then [] else num_le b 63 (d / b))).
  by rewrite Z.mod_small, Z.div_small by lia.
Qed.

(** The digits of [n] from position [j] up, none when they are all zero. *)
Definition upper_digits (b n j : Z) : list Z :=
  if n / b ^ j =? 0 then [] else numeral b (n / b ^ j).

Lemma upper_digits_step b n j : 2 <= b -> 0 <= j -> 0 <= n < 2 ^ 64 ->
  upper_digits b n j =
    (if (n / b ^ (j + 1) =? 0) && ((n / b ^ j) mod b =? 0) then []
     else upper_digits b n (j + 1) ++ [(n / b ^ j) mod b]) /\
  (n / b ^ j = 0 <-> n / b ^ (j + 1) = 0 /\ (n / b ^ j) mod b = 0).
Proof.
  intros Hb Hj Hn. unfold upper_digits.
  assert (0 < b ^ j) by (apply Z.pow_pos_nonneg; lia).
  assert (Hq : n / b ^ (j + 1) = n / b ^ j / b).
  { rewrite Z.pow_add_r, Z.pow_1_r, Z.div_div by lia. done. }
  assert (0 <= n / b ^ j <= n) by (split; [apply Z.div_pos; lia | apply Z.div_le_upper_bound; nia]).
  rewrite Hq. set (v := n / b ^ j) in *.
  pose proof (Z.div_mod v b ltac:(lia)) as Hdm. pose proof (Z.mod_pos_bound v b ltac:(lia)).
  assert (0 <= v / b) by (apply Z.div_pos; lia).
  split; [|split; [intros ->; by rewrite Z.div_0_l, Z.mod_0_l by lia | nia]].
  destruct (Z.eqb_spec (v / b) 0) as [Hz|]; cbn [andb].
  - destruct (Z.eqb_spec (v mod b) 0); destruct (Z.eqb_spec v 0); try lia; [done|].
    rewrite numeral_digit by nia. simpl. f_equal. nia.
  - destruct (Z.eqb_spec v 0); [nia|]. rewrite Hdm at 1. apply numeral_step; nia.
Qed.

(** Position 0 completes the numeral, which has a digit even for zero. *)
Lemma upper_digits_all b n : 2 <= b -> 0 <= n < 2 ^ 64 ->
  upper_digits b n 1 ++ [n mod b] = numeral b n.
Proof.
  intros Hb Hn. unfold upper_digits. rewrite Z.pow_1_r. pose proof (Z.div_mod n b ltac:(lia)) as Hdm.
  pose proof (Z.mod_pos_bound n b ltac:(lia)). assert (0 <= n / b) by (apply Z.div_pos; lia).
  destruct (Z.eqb_spec (n / b) 0) as [Hz|].
  - rewrite app_nil_l, Z.mod_small by (apply Z.div_small_iff in Hz; lia).
    symmetry. apply numeral_digit; [done|]. apply Z.div_small_iff in Hz; lia.
  - rewrite Hdm at 3. symmetry. apply numeral_step; lia.
Qed.

(** Positions above the width hold nothing. *)
Lemma upper_digits_above b n k : 0 <= n < b ^ k -> upper_digits b n k = [].
Proof. intros Hn. unfold upper_digits. by rewrite Z.div_small. Qed.

(** Padding with zeroes on the left. *)
Definition pad_zero (width : Z) (l : list Z) : list Z :=
  replicate (Z.to_nat (width - zlen l)) 48 ++ l.

(** The width at the head of a format and the rest. *)
Fixpoint width_of (w : Z) (f : list Z) : option (Z * list Z) :=
  match f with
  | [] => Some (w, [])
  | c :: f' =>
      if (48 <=? c) && (c <=? 57) then
        if w * 10 + (c - 48) <=? INT_MAX then width_of (w * 10 + (c - 48)) f' else None
      else Some (w, f)
  end.

(** Text of a conversion of vprintf and the arguments left; a zero-padded
    number has at most 32 digits, and %f is not covered. *)
Definition print_conv_text (m : gmap Z Z) (pad : bool) (width : Z) (len : nat) (c : Z) (va : va_list) :
    option (list Z * va_list) :=
  let arg (f : Z -> option (list Z)) :=
    match gp_args va with
    | [] => None
    | w :: r => t ← f w; Some (t, mk_va r (fp_args va))
    end in
  match len with
  | O =>
      if c =? 37 then Some ([37], va)
      else if c =? 100 then arg (fun w => Some (int_text (s32 w)))
      else if c =? 117 then arg (fun w => Some (dec_text (u32 w)))
      else if (c =? 120) || (c =? 88) then arg (fun w =>
        if (0 <? width) && pad then
          if width <=? 32
          then Some (pad_zero width (num_text (if c =? 88 then hex_upper else hex_lower) 16 (u32 w)))
          else None
        else Some (48 :: 120 :: num_text hex_upper 16 (u32 w)))
      else if c =? 98 then arg (fun w => Some (num_text hex_lower 2 (u32 w)))
      else if c =? 99 then arg (fun w => Some [u8 (s32 w)])
      else if c =? 115 then arg (fun w => cstring_at m (u64 w))
      else if c =? 102 then None
      else if c =? 112 then arg (fun w => Some (48 :: 120 :: num_text hex_upper 16 (u64 w)))
      else Some ([37; c], va)
  | _ =>
      if c =? 100 then arg (fun w => signed_text LONG_MIN (s64 w))
      else if c =? 117 then arg (fun w => Some (dec_text (u64 w)))
      else Some (37 :: replicate len 108 ++ [c], va)
  end.

(** The directive behind a percent sign: flag, width, l modifiers, conversion
    and the rest of the format. *)
Definition print_directive (f : list Z) : option (bool * Z * nat * Z * list Z) :=
  let '(pad, f) := match f with c :: f' => if c =? 48 then (true, f') else (false, f) | [] => (false, f) end in
  '(w, f) ← width_of 0 f;
  match f with
  | [] => None
  | c :: f =>
      if negb (c =? 108) then Some (pad, w, O, c, f) else
      match f with
      | [] => None
      | c :: f =>
          if negb (c =? 108) then Some (pad, w, 1%nat, c, f) else
          match f with
          | [] => None
          | c :: f => Some (pad, w, 2%nat, c, f)
          end
      end
  end.

(** The text vprintf sends to the terminal, for a format of at most [k]
    characters. *)
Fixpoint print_text (k : nat) (m : gmap Z Z) (f : list Z) (va : va_list) : option (list Z) :=
  match k, f with
  | _, [] => Some []
  | O, _ => None
  | S k, c :: f =>
      if negb (c =? 37) then cons c <$> print_text k m f va else
      '(pad, w, len, c, f) ← print_directive f;
      '(t, va) ← print_conv_text m pad w len c va;
      r ← print_text k m f va;
      Some (t ++ r)
  end.

Section vprintf.
Context {T : Type} `{Terminal T} (t0 : T).

(** The terminal after the characters [done]. *)
Definition shown (done : list Z) (t : T) : Prop := t = fold_left (fun t c => putchar c t) done t0.

Lemma putc_spec done t c Q : shown done t ->
  (forall t', shown (done ++ [u8 c]) t' -> Q tt t') -> wp (putc c) Q t.
Proof.
  intros Ht HQ. unfold putc. wp_step. apply HQ. unfold shown in *. by rewrite fold_left_app, <- Ht.
Qed.

Lemma put_chars_spec l done t Q : shown done t -> Forall byte l ->
  (forall t', shown (done ++ l) t' -> Q tt t') -> wp (put_chars l) Q t.
Proof.
  intros Ht Hl HQ. unfold put_chars.
  eapply (foldM_emit _ (fun done _ t => shown done t) (zlen (done ++ l))); [|done..|].
  - intros d [] t1 c Q1 H1 _ HQ1. eapply putc_spec; [done|]. intros. by apply HQ1.
  - intros [] t' Ht'. by apply HQ.
Qed.

Lemma print_spec fuel m p l done t Q : cstr m p l -> (length l < fuel)%nat -> shown done t ->
  (forall t', shown (done ++ l) t' -> Q tt t') -> wp (print fuel m p) Q t.
Proof.
  intros Hc Hf Ht HQ. unfold print.
  apply (wp_iter_idx (T := nat) (fun i => length l - i)%nat (fun i q t =>
    (i <= length l)%nat /\ q = p + Z.of_nat i /\ shown (done ++ take i l) t) _ _ _ O); [| |lia].
  - intros i q t1 (Hi & -> & Ht1).
    destruct (cstr_char _ _ _ i Hc Hi) as (c & Hld & Hr & Hlt & Hend).
    wp_step. unfold rd. rewrite Hld. wp_step. case_if.
    + destruct (Hlt ltac:(destruct (decide (i = length l)); [tauto | lia])) as [Hl _].
      pose proof (lookup_lt_Some _ _ _ Hl). wp_step. eapply putc_spec; [done|].
      intros t2 Ht2. rewrite u8_small in Ht2 by done. wp_step. exists (S i).
      split; [|lia]. split; [lia|]. split; [lia|]. by rewrite (take_S_r _ _ _ Hl), app_assoc.
    + wp_step. apply HQ. replace l with (take i l) at 1; [done|].
      apply firstn_all2. destruct (decide (i = length l)); [lia|]. destruct Hlt; [lia | done].
  - split; [lia|]. split; [lia|]. simpl. by rewrite app_nil_r.
Qed.

Lemma print_udec_spec val done t Q : 0 <= val < 2 ^ 64 -> shown done t ->
  (forall t', shown (done ++ dec_text val) t' -> Q tt t') -> wp (print_udec val) Q t.
Proof.
  intros Hv Ht HQ. unfold print_udec. case_if; [subst; eapply putc_spec; [done|]; apply HQ|].
  wp_step. apply (udec_loop 20); [lia | lia | simpl; lia|].
  rewrite (num_le_fuel 10 ltac:(lia) 20 64); [|lia | lia | lia | apply num_bound64; lia].
  rewrite app_nil_l, <- num_text_rev. eapply put_chars_spec; [done | apply dec_text_byte | done].
Qed.

Lemma print_dec_spec v txt done t Q : -2 ^ 63 <= v < 2 ^ 63 -> signed_text LONG_MIN v = Some txt ->
  shown done t -> (forall t', shown (done ++ txt) t' -> Q tt t') -> wp (print_dec v) Q t.
Proof.
  intros Hv Htxt Ht HQ. unfold signed_text in Htxt. case_match eqn:He; [done|]. simplify_eq.
  bool_to_prop. unfold print_dec. case_if.
  - rewrite int_text_neg in HQ by lia. wp_step. eapply putc_spec; [done|]. intros t1 Ht1.
    wp_step. apply wp_guard; [by apply negb_true_iff, Z.eqb_neq|].
    eapply print_udec_spec; [lia | done|]. intros t2. rewrite <- app_assoc. apply HQ.
  - rewrite int_text_pos in HQ by lia. eapply print_udec_spec; [lia | done | done].
Qed.

Lemma char_upper_zero d : 0 <= d < 16 -> (char_of hex_upper d =? 48) = (d =? 0).
Proof.
  intros Hd. assert (H16 : Forall (fun d => (char_of hex_upper d =? 48) = (d =? 0)) (seqZ 0 16)).
  { by repeat constructor. }
  rewrite Forall_forall in H16. apply H16. apply elem_of_seqZ. lia.
Qed.


(** One round: a digit once the number above is not zero. *)
Lemma hex_nibble_spec n lz j Q t : 0 <= j ->
  let d := (n / 16 ^ j) mod 16 in
  wp (if (d =? 0) && lz && negb (j =? 0) then ret lz
      else putc (char_of hex_upper d) ;;; ret false) Q t -> wp (hex_nibble n lz j) Q t.
Proof.
  intros Hj d Hwp. unfold hex_nibble. cbv zeta. change 15 with (Z.ones 4).
  rewrite Z.land_ones, Z.shiftr_div_pow2, Z.pow_mul_r by lia. change (2 ^ 4) with 16. fold d.
  rewrite char_upper_zero by (apply Z.mod_pos_bound; lia).
  replace (4 * j =? 0) with (j =? 0) by (destruct (Z.eqb_spec j 0), (Z.eqb_spec (4 * j) 0); lia || done).
  by destruct (d =? 0), lz, (j =? 0).
Qed.

(** The loop of print_hex from nibble [k] down. *)
Lemma print_hex_loop n (k : nat) : 0 <= n < 2 ^ 64 -> forall done t (Q : bool -> T -> Prop),
  shown (done ++ (char_of hex_upper <$> upper_digits 16 n (Z.of_nat k + 1))) t ->
  (forall b t', shown (done ++ num_text hex_upper 16 n) t' -> Q b t') ->
  wp (foldM (hex_nibble n) (rev (seqZ 0 (Z.of_nat (S k)))) (n / 16 ^ (Z.of_nat k + 1) =? 0)) Q t.
Proof.
  intros Hn. induction k as [|k IH]; intros done t Q Ht HQ;
    rewrite seqZ_S, rev_app_distr, Z.add_0_l; cbn [rev app foldM]; wp_step;
    apply hex_nibble_spec; [lia| |lia|].
  - rewrite andb_false_r. rewrite Z.pow_0_r, Z.div_1_r.
    wp_step. eapply putc_spec; [done|]. intros t' Ht'. wp_steps. simpl. wp_step. apply HQ.
    rewrite (u8_small (char_of _ _)) in Ht' by (apply char_of_byte, hex_tables_byte).
    unfold num_text. by rewrite <- upper_digits_all, fmap_app, app_assoc.
  - destruct (upper_digits_step 16 n (Z.of_nat (S k)) ltac:(lia) ltac:(lia) Hn) as [Hu Hz].
    rewrite (proj2 (Z.eqb_neq (Z.of_nat (S k)) 0)), andb_true_r, andb_comm by lia.
    replace (Z.of_nat (S k)) with (Z.of_nat k + 1) in * by lia.
    destruct ((n / 16 ^ _ =? 0) && _) eqn:Hb.
    + wp_step. bool_to_prop. rewrite (proj2 (Z.eqb_eq _ _)) by done.
      rewrite <- (proj2 (Z.eqb_eq (n / 16 ^ (Z.of_nat k + 1)) 0)) by (by apply Hz).
      apply (IH done); [|done]. rewrite Hu. unfold upper_digits in Ht.
      by rewrite (proj2 (Z.eqb_eq (n / 16 ^ (Z.of_nat k + 1 + 1)) 0)) in Ht by done.
    + wp_step. eapply putc_spec; [done|]. intros t' Ht'. wp_step.
      rewrite (u8_small (char_of _ _)) in Ht' by (apply char_of_byte, hex_tables_byte).
      rewrite <- (proj2 (Z.eqb_neq (n / 16 ^ (Z.of_nat k + 1)) 0)).
      2: { intros [Ha Hc]%Hz. by rewrite Ha, Hc in Hb. }
      apply (IH done); [|done]. by rewrite Hu, fmap_app, app_assoc.
Qed.

Lemma print_hex_spec n done t Q : 0 <= n < 2 ^ 64 -> shown done t ->
  (forall t', shown (done ++ 48 :: 120 :: num_text hex_upper 16 n) t' -> Q tt t') ->
  wp (print_hex n) Q t.
Proof.
  intros Hn Ht HQ. unfold print_hex. wp_step. eapply put_chars_spec; [done| |].
  { unfold byte. repeat constructor; lia. }
  intros t1 Ht1. wp_step.
  rewrite <- (proj2 (Z.eqb_eq (n / 16 ^ (Z.of_nat 15 + 1)) 0)) by (apply Z.div_small; lia).
  eapply (print_hex_loop n 15 Hn); [|].
  - rewrite upper_digits_above by lia. simpl. rewrite app_nil_r. exact Ht1.
  - intros b t2 Ht2. wp_step. apply HQ. by rewrite <- app_assoc in Ht2.
Qed.

Lemma bin_bit_loop n (k : nat) : 0 <= n < 2 ^ 64 ->
  fold_left (bin_bit n) (rev (seqZ 0 (Z.of_nat k)))
    (bit_char <$> upper_digits 2 n (Z.of_nat k), negb (n / 2 ^ Z.of_nat k =? 0)) =
  (bit_char <$> upper_digits 2 n 0, negb (n =? 0)).
Proof.
  intros Hn. induction k as [|k IH].
  - simpl. by rewrite Z.div_1_r.
  - rewrite seqZ_S, rev_app_distr, Z.add_0_l. cbn [rev app fold_left]. rewrite <- IH. f_equal.
    destruct (upper_digits_step 2 n (Z.of_nat k) ltac:(lia) ltac:(lia) Hn) as [Hu Hz].
    replace (Z.of_nat (S k)) with (Z.of_nat k + 1) by lia. unfold bin_bit.
    change (Z.land (Z.shiftr n (Z.of_nat k)) 1) with (Z.land (Z.shiftr n (Z.of_nat k)) (Z.ones 1)).
    rewrite Z.land_ones, Z.shiftr_div_pow2 by lia. change (2 ^ 1) with 2.
    rewrite <- negb_andb. rewrite Hu.
    destruct ((n / 2 ^ (Z.of_nat k + 1) =? 0) && _) eqn:Hb; cbn [negb].
    + bool_to_prop. unfold upper_digits. rewrite (proj2 (Z.eqb_eq (n / 2 ^ (Z.of_nat k + 1)) 0)) by done.
      by rewrite (proj2 (Z.eqb_eq (n / 2 ^ Z.of_nat k) 0)) by (by apply Hz).
    + rewrite fmap_app. f_equal. rewrite (proj2 (Z.eqb_neq (n / 2 ^ Z.of_nat k) 0)); [done|].
      intros [Ha Hc]%Hz. by rewrite Ha, Hc in Hb.
Qed.

Lemma print_bin_spec n done t Q : 0 <= n < 2 ^ 64 -> shown done t ->
  (forall t', shown (done ++ num_text hex_lower 2 n) t' -> Q tt t') -> wp (print_bin n) Q t.
Proof.
  intros Hn Ht HQ. unfold print_bin. case_if.
  - subst. eapply put_chars_spec; [done| |exact HQ]. unfold byte. repeat constructor; lia.
  - pose proof (bin_bit_loop n 64 Hn) as Hl. rewrite upper_digits_above in Hl by lia.
    rewrite (Z.div_small n), Z.eqb_refl in Hl by lia. change (Z.of_nat 64) with 64 in Hl.
    cbn [fmap list_fmap negb] in Hl. rewrite Hl. cbn [fst]. unfold upper_digits. rewrite Z.div_1_r, (proj2 (Z.eqb_neq n 0)) by done.
    replace (bit_char <$> numeral 2 n) with (num_text hex_lower 2 n).
    + eapply put_chars_spec; [done | apply num_text_byte, hex_tables_byte | done].
    + unfold num_text, numeral. rewrite !map_rev. f_equal.
      apply (fmap_digits _ _ 2 64 n ltac:(lia) bit_char_tbl).
Qed.

Lemma pad_loop width (k : nat) : forall F buf (Q : list Z -> T -> Prop) t,
  (k < F)%nat -> width <= 32 -> Z.to_nat (width - zlen buf) = k ->
  Q (buf ++ replicate k 48) t ->
  wp (iter_fuel F (fun buf =>
    if zlen buf <? width then guard (zlen buf <? 32) ;;; ret (inl (buf ++ [48]))
    else ret (inr buf)) buf) Q t.
Proof.
  induction k as [|k IH]; intros F buf Q t HF Hw Hk HQ; (destruct F as [|F]; [lia|]);
    cbn [iter_fuel]; wp_step.
  - rewrite (proj2 (Z.ltb_ge (zlen buf) width)) by lia. wp_steps. simpl in HQ. by rewrite app_nil_r in HQ.
  - rewrite (proj2 (Z.ltb_lt (zlen buf) width)) by lia. wp_steps. apply IH; [lia | lia | |].
    + rewrite length_app. simpl. lia.
    + by rewrite <- app_assoc.
Qed.

Lemma print_hex_padded_spec n width (up : bool) done t Q : 0 <= n < 2 ^ 64 -> width <= 32 -> shown done t ->
  (forall t', shown (done ++ pad_zero width (num_text (if up then hex_upper else hex_lower) 16 n)) t' ->
    Q tt t') -> wp (print_hex_padded n width up) Q t.
Proof.
  intros Hn Hw Ht HQ. set (tbl := if up then hex_upper else hex_lower) in *.
  assert (Hb : Forall byte tbl) by (unfold tbl; destruct up; apply hex_tables_byte).
  unfold print_hex_padded. fold tbl. wp_step. apply hex_tmp_spec; [done|]. wp_step.
  eapply pad_loop; [|done | reflexivity|]; [lia|].
  rewrite rev_app_distr, <- num_text_rev.
  rewrite <- (length_rev (char_of tbl <$> _)), <- num_text_rev.
  replace (rev (replicate _ 48)) with (replicate (Z.to_nat (width - zlen (num_text tbl 16 n))) 48).
  - eapply put_chars_spec; [done| |done]. apply Forall_app_2; [|by apply num_text_byte].
    apply Forall_replicate. unfold byte. lia.
  - generalize (Z.to_nat (width - zlen (num_text tbl 16 n))). intros k.
    induction k as [|k IH]; [done|]. simpl. rewrite <- IH. apply replicate_cons_app.
Qed.

Lemma read_width_spec fuel m f : forall w p w' f' (Q : Z * Z -> T -> Prop) t,
  cstr m p f -> width_of w f = Some (w', f') -> (length f < fuel)%nat ->
  (cstr m (p + zlen f - zlen f') f' -> (length f' <= length f)%nat ->
   Q (w', p + zlen f - zlen f') t) ->
  wp (iter_fuel fuel (fun '(width, ptr) =>
    let! c := rd m ptr in
    if (48 <=? c) && (c <=? 57) then
      guard (width * 10 + (c - 48) <=? INT_MAX) ;;;
      ret (inl (width * 10 + (c - 48), ptr + 1))
    else ret (inr (width, ptr))) (w, p)) Q t.
Proof.
  revert fuel. induction f as [|c f IH]; intros fuel w p w' f' Q t Hc Hw Hf HQ;
    (destruct fuel as [|fuel]; [simpl in Hf; lia|]); cbn [iter_fuel]; wp_step; unfold rd.
  - simpl in Hw. simplify_eq. rewrite (cstr_nil _ _ Hc). wp_steps. simpl. wp_step.
    replace p with (p + zlen (@nil Z) - zlen (@nil Z)) by (simpl; lia). apply HQ; [|done].
    replace (p + _ - _) with p by (simpl; lia). done.
  - pose proof Hc as (Hh & Ht & Hok)%cstr_head. rewrite Hh. wp_steps. simpl in Hw.
    destruct ((48 <=? c) && (c <=? 57)).
    + destruct (w * 10 + (c - 48) <=? INT_MAX) eqn:Hle in Hw; [|done]. apply wp_bind, wp_guard; [done|]. wp_steps.
      eapply IH; [done | done | simpl in Hf; lia|]. cbn [length] in HQ.
      replace (p + Z.of_nat (S (length f))) with (p + 1 + zlen f) in HQ by lia.
      intros. apply HQ; [done | lia].
    + simplify_eq. wp_steps. replace (p + zlen (c :: f) - zlen (c :: f)) with p in HQ by lia.
      by apply HQ.
Qed.

Ltac text_arg Ht :=
  match goal with va : va_list |- _ =>
    destruct va as [[|w r] fp]; [done|]; cbn [gp_args fp_args] in Ht
  end.
Ltac slot_step := unfold va_slot; cbn [gp_args fp_args]; do 2 wp_step.

Lemma s32_signed w : signed_text LONG_MIN (s32 w) = Some (int_text (s32 w)).
Proof.
  unfold signed_text. pose proof (s32_range w). unfold LONG_MIN.
  by rewrite (proj2 (Z.eqb_neq _ _)) by lia.
Qed.

Lemma vprintf_conv_spec fuel m pad width c va txt va' done t Q :
  print_conv_text m pad width 0 c va = Some (txt, va') -> c <> 37 -> char_ok c ->
  (length txt < fuel)%nat -> shown done t ->
  (forall t', shown (done ++ txt) t' -> Q va' t') -> wp (vprintf_conv fuel m pad width c va) Q t.
Proof.
  intros Ht Hne Hc Hf Hs HQ. unfold print_conv_text in Ht. unfold vprintf_conv.
  rewrite (proj2 (Z.eqb_neq c 37)) in Ht by done. pose proof s32_range as Hr32.
  destruct (c =? 100); [|destruct (c =? 117); [|destruct ((c =? 120) || (c =? 88)) eqn:Hx;
    [|destruct (c =? 98); [|destruct (c =? 99); [|destruct (c =? 115); [|destruct (c =? 102); [done|destruct (c =? 112)]]]]]]].
  - text_arg Ht. simplify_eq/=. slot_step. wp_step. eapply print_dec_spec; [|apply s32_signed|done|].
    { specialize (Hr32 w). lia. } intros. wp_step. auto.
  - text_arg Ht. simplify_eq/=. slot_step. wp_step. eapply print_udec_spec; [apply u32_64 | done|].
    intros. wp_step. auto.
  - text_arg Ht. slot_step. wp_step. destruct ((0 <? width) && pad).
    + destruct (width <=? 32) eqn:Hw in Ht; [|done]. bool_to_prop. simplify_eq/=.
      eapply print_hex_padded_spec; [apply u32_64 | done | done|]. intros. wp_step. auto.
    + simplify_eq/=. eapply print_hex_spec; [apply u32_64 | done|]. intros. wp_step. auto.
  - text_arg Ht. simplify_eq/=. slot_step. wp_step. eapply print_bin_spec; [apply u32_64 | done|].
    intros. wp_step. auto.
  - text_arg Ht. simplify_eq/=. slot_step. wp_step. eapply putc_spec; [done|]. intros. wp_step. auto.
  - text_arg Ht. destruct (cstring_at m (u64 w)) as [l|] eqn:Hl; [|done]. simplify_eq/=.
    apply read_str_cstr in Hl. slot_step. wp_step. eapply print_spec; [done..|]. intros. wp_step. auto.
  - text_arg Ht. simplify_eq/=. slot_step. wp_step. eapply print_hex_spec; [apply u64_64 | done|].
    intros. wp_step. auto.
  - simplify_eq/=. wp_step. eapply put_chars_spec; [done| |].
    { unfold byte, char_ok in *. repeat constructor; lia. } intros. wp_step. auto.
Qed.

Lemma vprintf_long_spec m pad width len c va txt va' done t Q :
  print_conv_text m pad width (S len) c va = Some (txt, va') -> char_ok c -> shown done t ->
  (forall t', shown (done ++ txt) t' -> Q va' t') -> wp (vprintf_long (S len) c va) Q t.
Proof.
  intros Ht Hc Hs HQ. unfold print_conv_text in Ht. unfold vprintf_long.
  destruct (c =? 100); [|destruct (c =? 117)].
  - text_arg Ht. destruct (signed_text LONG_MIN (s64 w)) as [l|] eqn:Hl; [|done]. simplify_eq/=.
    slot_step. wp_step. eapply print_dec_spec; [|done | done|].
    { pose proof (s64_range w). lia. } intros. wp_step. auto.
  - text_arg Ht. simplify_eq/=. slot_step. wp_step. eapply print_udec_spec; [apply u64_64 | done|].
    intros. wp_step. auto.
  - simplify_eq. wp_step. eapply put_chars_spec; [done| |].
    { constructor; [unfold byte; lia|]. apply Forall_app_2.
      - apply Forall_replicate. unfold byte. lia.
      - unfold byte, char_ok in *. repeat constructor; lia. }
    intros. wp_step. auto.
Qed.

Lemma wp_rd m p c (Q : Z -> T -> Prop) t : m !! p = Some c -> Q c t -> wp (rd m p) Q t.
Proof. intros Hc HQ. unfold rd. by rewrite Hc. Qed.

Lemma cstr_last_char m p c f : cstr m p (c :: f) -> m !! p = Some c.
Proof. intros Hc. by apply cstr_head in Hc as (? & _). Qed.

(** Reading a directive as print_directive splits it. *)
Lemma read_directive_spec fuel m p f pad w len c f' (Q : _ -> T -> Prop) t :
  cstr m p f -> print_directive f = Some (pad, w, len, c, f') -> (length f < fuel)%nat ->
  (forall q, cstr m (q + 1) f' -> (length f' < length f)%nat -> char_ok c -> Q (pad, w, len, c, q) t) ->
  wp (read_directive fuel m p) Q t.
Proof.
  intros Hc Hd Hf HQ. unfold print_directive in Hd. unfold read_directive.
  destruct f as [|c0 f]; [done|]. pose proof Hc as (H0 & Hc0 & _)%cstr_head.
  wp_step. eapply wp_rd; [done|]. cbv zeta.
  set (f1 := if c0 =? 48 then f else c0 :: f) in *.
  set (p1 := if c0 =? 48 then p + 1 else p).
  assert (Hc1 : cstr m p1 f1) by (unfold p1, f1; by destruct (c0 =? 48)).
  assert (Hl1 : (length f1 <= S (length f))%nat) by (unfold f1; destruct (c0 =? 48); simpl; lia).
  replace (if c0 =? 48 then (true, f) else (false, c0 :: f)) with (c0 =? 48, f1) in Hd
    by (unfold f1; by destruct (c0 =? 48)). cbn [fst snd] in Hd.
  destruct (width_of 0 f1) as [[w1 f2]|] eqn:Hw; [|done]. cbn in Hd. cbn [length] in Hf.
  wp_step. eapply read_width_spec; [done | done | lia|]. set (q := p1 + zlen f1 - zlen f2).
  intros Hc2 Hl2. destruct f2 as [|c2 f2]; [done|].
  pose proof Hc2 as (H2 & Hc3 & Hok2)%cstr_head. cbn [length] in *.
  wp_step. eapply wp_rd; [done|]. destruct (Z.eqb_spec c2 108) as [->|]; cbn [negb] in Hd.
  - destruct f2 as [|c3 f3]; [done|]. pose proof Hc3 as (H3 & Hc4 & Hok3)%cstr_head. cbn [length] in *.
    wp_step. eapply wp_rd; [done|]. destruct (Z.eqb_spec c3 108) as [->|]; cbn [negb] in Hd.
    + destruct f3 as [|c4 f4]; [done|]. pose proof Hc4 as (H4 & Hc5 & Hok4)%cstr_head. cbn [length] in *.
      wp_step. eapply wp_rd; [done|]. wp_step. simplify_eq. apply HQ; [done | lia | done].
    + wp_step. simplify_eq. apply HQ; [done | lia | done].
  - wp_step. simplify_eq. apply HQ; [done | lia | done].
Qed.

Lemma vprintf_spec fuel m format f va text t (Q : unit -> T -> Prop) :
  cstr m format f -> print_text (length f) m f va = Some text ->
  (length f + length text < fuel)%nat -> shown [] t ->
  (forall t', shown text t' -> Q tt t') -> wp (vprintf fuel m format va) Q t.
Proof.
  intros Hc Ht Hf Hs HQ. assert (Hft : (length text < fuel)%nat) by lia. unfold vprintf.
  apply (wp_iter_idx (T := list Z) length (fun f '(ptr, va) t =>
    cstr m ptr f /\ (length f < fuel)%nat /\ exists k done rest, print_text k m f va = Some rest /\
      text = done ++ rest /\ shown done t) _ _ _ f); [| |lia].
  - clear f va t format Hc Ht Hf Hs. intros f [ptr va] t (Hc & Hf & k & done & rest & Ht & -> & Hs).
    destruct f as [|c f].
    + destruct k; simpl in Ht; simplify_eq; wp_step; (eapply wp_rd; [by apply cstr_nil|]);
        rewrite Z.eqb_refl; wp_step; apply HQ; by rewrite app_nil_r.
    + destruct k as [|k]; [done|]. cbn [print_text] in Ht. cbn [length] in *.
      pose proof Hc as (Hh & Hc' & Hok)%cstr_head. wp_step. eapply wp_rd; [done|].
      unfold char_ok in Hok. rewrite (proj2 (Z.eqb_neq c 0)) by lia.
      destruct (Z.eqb_spec c 37) as [->|Hne]; cbn [negb] in Ht.
      * destruct (print_directive f) as [[[[[pad w] len] c'] f']|] eqn:Hd; [|done]. cbn in Ht.
        destruct (print_conv_text m pad w len c' va) as [[txt va']|] eqn:Hct; [|done]. cbn in Ht.
        destruct (print_text k m f' va') as [r|] eqn:Hr; [|done]. simplify_eq/=.
        rewrite !length_app in Hft. wp_step.
        eapply read_directive_spec; [done | done | lia|]. intros q Hq Hlq Hcok.
        assert (Hfin : forall t', shown (done ++ txt) t' ->
          wp (ret (inl (q + 1, va'))) (fun r0 s' => match r0 with
            | inl x' => exists t', (let '(ptr, va) := x' in cstr m ptr t' /\ (length t' < fuel)%nat /\
                exists k d rest, print_text k m t' va = Some rest /\ done ++ txt ++ r = d ++ rest /\ shown d s')
                /\ (length t' < S (length f))%nat
            | inr r1 => Q r1 s' end) t').
        { intros t' Hs'. wp_step. exists f'. split; [|lia]. split; [done|]. split; [lia|].
          exists k, (done ++ txt), r. by rewrite <- app_assoc. }
        wp_step. destruct len as [|len].
        -- destruct (Z.eqb_spec c' 37) as [->|Hne].
           ++ unfold print_conv_text in Hct. rewrite Z.eqb_refl in Hct. simplify_eq.
              wp_step. eapply putc_spec; [done|]. intros t' Hs'. wp_step. by apply Hfin.
           ++ eapply vprintf_conv_spec; [done | done | done | lia | done | exact Hfin].
        -- eapply vprintf_long_spec; [done | done | done | exact Hfin].
      * destruct (print_text k m f va) as [r|] eqn:Hr; [|done]. simplify_eq/=.
        wp_step. eapply putc_spec; [done|]. intros t' Hs'. rewrite u8_small in Hs' by lia. wp_step.
        exists f. split; [|lia]. split; [done|]. split; [lia|].
        exists k, (done ++ [c]), r. by rewrite <- app_assoc.
  - split; [done|]. split; [lia|]. exists (length f), [], text. done.
Qed.
End vprintf.

(** ** The theorems *)

Lemma vsprintf_spec s buf format f va items text fuel Q :
  let hid := outside buf (zlen text + 1) (mem s) in
  mapped (mem s) buf (zlen text + 1) ->
  cstr hid format f -> parse_fmt f = Some items -> items_text true hid items va = Some text ->
  (length f + length text < fuel)%nat ->
  (forall m, updated (mem s) m buf (text ++ [0]) -> Q tt (set_mem m s)) ->
  wp (vsprintf fuel buf format va) Q s.
Proof.
  intros hid Hm Hs Hp Ht Hf HQ. unfold vsprintf. wp_step.
  eapply (format_loop true sprint_char (vsprintf_conv fuel) (stored s buf) hid text).
  - intros done x s1 p c (m & -> & Hu & _) Hbeg%begins_length. unfold hid. rewrite outside_lookup.
    case_decide; [done|]. intros <-. apply (updated_other _ _ _ _ _ Hu). lia.
  - intros done x s1 c Q' HI Hbeg%begins_length HQ'. rewrite length_app in Hbeg. cbn [length] in Hbeg.
    eapply sprint_char_emits; [exact Hm | done | lia | done].
  - intros done x s1 len c va1 t va' Q' Hct Hok HI Hbeg HQ'. apply begins_length in Hbeg.
    rewrite length_app in Hbeg.
    eapply vsprintf_conv_emits; [exact Hm | done | done | lia | done | rewrite length_app; lia | done].
  - split; [done|]. eauto.
  - exists (mem s). split; [by destruct s|]. split; [apply updated_nil | simpl; lia].
  - lia.
  - intros out s1 (m & -> & Hu & ->).
    apply wp_st; [apply (updated_mapped _ _ _ _ _ _ Hu Hm); lia|].
    apply HQ. by apply updated_snoc.
Qed.

(** vsprintf stores the text of its format, terminated. *)
Theorem vsprintf_ok s buf format f va items text fuel :
  let hid := outside buf (zlen text + 1) (mem s) in
  mapped (mem s) buf (zlen text + 1) ->
  cstr hid format f -> parse_fmt f = Some items -> items_text true hid items va = Some text ->
  (length f + length text < fuel)%nat ->
  returns (vsprintf fuel buf format va) s tt (fun s' =>
    exists m, s' = set_mem m s /\ updated (mem s) m buf (text ++ [0])).
Proof.
  intros hid Hm Hs Hp Ht Hf. apply wp_returns. eapply vsprintf_spec; eauto.
Qed.

(** C31: vsnprintf stores as much of the text of its format as fits in front
    of a terminator, nothing at all into a buffer of size 0, touches no byte
    outside the buffer and returns the length of the whole text. *)
Theorem vsnprintf_ok s buf size format f va items text fuel :
  let hid := outside buf size (mem s) in
  0 <= size -> mapped (mem s) buf size ->
  cstr hid format f -> parse_fmt f = Some items -> items_text false hid items va = Some text ->
  zlen text <= INT_MAX -> (length f + length text < fuel)%nat ->
  returns (vsnprintf fuel buf size format va) s (zlen text) (fun s' =>
    exists m, s' = set_mem m s /\ updated (mem s) m buf
      (if size =? 0 then [] else take (Z.to_nat (size - 1)) text ++ [0])).
Proof.
  intros hid Hsz Hm Hs Hp Ht Hn Hf. apply wp_returns. eapply vsnprintf_spec; [done..|].
  intros m Hu. split; [done|]. by exists m.
Qed.

Lemma printf_run {T} `{Terminal T} fuel m format f va text (c : console T) :
  serial_lock c = false -> cstr m format f -> print_text (length f) m f va = Some text ->
  (length f + length text < fuel)%nat ->
  printf fuel m format va c =
    Ret (tt, mk_console false (fold_left (fun t ch => putchar ch t) text (screen c))).
Proof.
  destruct c as [l scr]. cbn [serial_lock screen]. intros -> Hc Ht Hf.
  destruct fuel as [|fuel]; [lia|].
  pose proof (vprintf_spec scr (S fuel) m format f va text scr (fun _ t => shown scr text t)
    Hc Ht Hf eq_refl (fun _ Hs => Hs)) as Hv.
  apply wp_run in Hv as ([] & t & Hv & Hs). unfold shown in Hs. subst t.
  assert (Ha : acquire (S fuel) (mk_console false scr) = Ret (tt, mk_console true scr)) by done.
  unfold printf, bind. rewrite Ha. cbn [obind]. unfold on_screen. cbn [screen]. by rewrite Hv.
Qed.

(** Printf sends exactly the text of its format to the terminal, one
    character at a time, and leaves the lock free. *)
Theorem printf_ok {T} `{Terminal T} fuel m format f va text (c : console T) :
  serial_lock c = false -> cstr m format f -> print_text (length f) m f va = Some text ->
  (length f + length text < fuel)%nat ->
  printf fuel m format va c =
    Ret (tt, mk_console false (fold_left (fun t ch => putchar ch t) text (screen c))).
Proof. apply printf_run. Qed.

(** ** Instances *)

Module SmallPrint.

(** A terminal that keeps what it was sent. *)
#[global] Instance tape : Terminal (list Z) := { putchar c t := t ++ [c] }.

(** [l] stored from [p] on. *)
Fixpoint lay (p : Z) (l : list Z) (m : gmap Z Z) : gmap Z Z :=
  match l with [] => m | c :: l => <[p := c]> (lay (p + 1) l m) end.

(** A buffer of 16 bytes at 100, the format "x=%d %s" at 200, "ab" at 300 and
    the format "%d %%" at 400. *)
Definition mem0 : gmap Z Z :=
  lay 100 (replicate 16 255) (lay 200 [120; 61; 37; 100; 32; 37; 115; 0]
    (lay 300 [97; 98; 0] (lay 400 [37; 100; 32; 37; 37; 0] ∅))).
Definition s0 : cmem := mk_cmem mem0 0.
Definition args : va_list := mk_va [-42; 300] [].
Definition fmt : list Z := [120; 61; 37; 100; 32; 37; 115].
(** "x=-42 ab" *)
Definition out_text : list Z := [120; 61; 45; 52; 50; 32; 97; 98].

Ltac in_bytes := intros i c; do 12 (destruct i as [|i]; [intros [= <-]; reflexivity|]); intros [=].
Ltac in_cstr := split; [in_bytes | unfold char_ok; repeat constructor; lia].

Lemma mem0_buf n : 0 <= n <= 16 -> mapped mem0 100 n.
Proof.
  intros Hn a Ha. assert (Hin : a ∈ seqZ 100 16) by (apply elem_of_seqZ; lia).
  assert (Hall : Forall (fun a => is_Some (mem0 !! a)) (seqZ 100 16)).
  { repeat constructor; eexists; vm_compute; reflexivity. }
  rewrite Forall_forall in Hall. by apply Hall.
Defined.

Lemma vsnprintf_ok_witness :
  returns (vsnprintf 20 100 5 200 args) s0 8 (fun s' =>
    exists m, s' = set_mem m s0 /\ updated mem0 m 100 [120; 61; 45; 52; 0]).
Proof.
  apply (vsnprintf_ok s0 100 5 200 fmt args
    [Lit 120; Lit 61; Conv 0 100; Lit 32; Conv 0 115] out_text 20);
    [lia | apply mem0_buf; lia | in_cstr | reflexivity | vm_compute; reflexivity | vm_compute; discriminate | simpl; lia].
Defined.

Lemma vsprintf_ok_witness :
  returns (vsprintf 20 100 200 args) s0 tt (fun s' =>
    exists m, s' = set_mem m s0 /\ updated mem0 m 100 (out_text ++ [0])).
Proof.
  apply (vsprintf_ok s0 100 200 fmt args
    [Lit 120; Lit 61; Conv 0 100; Lit 32; Conv 0 115] out_text 20);
    [apply mem0_buf; simpl; lia | in_cstr | reflexivity | vm_compute; reflexivity | simpl; lia].
Defined.

Lemma printf_ok_witness :
  printf 20 mem0 200 args (mk_console false []) = Ret (tt, mk_console false out_text).
Proof.
  etrans; [apply (printf_ok (T := list Z) 20 mem0 200 fmt args out_text (mk_console false []));
    [reflexivity | in_cstr | vm_compute; reflexivity | simpl; lia] | reflexivity].
Defined.

(** snprintf keeps both percent signs of "%%", which printf prints as one. *)
Example percent_doubled :
  items_text false mem0 [Conv 0 100; Lit 32; Conv 0 37] (mk_va [50] []) = Some [53; 48; 32; 37; 37] /\
  print_text 5 mem0 [37; 100; 32; 37; 37] (mk_va [50] []) = Some [53; 48; 32; 37].
Proof. by vm_compute. Qed.

End SmallPrint.
