(* ===== verification/Ports.v ===== *)
(** Port input and output (kernel/src/driver/io/ports.c).

    The in and out instructions are the boundary of the program: a device
    environment [E] with the effect of each instruction.  The drivers are
    proved against laws of the device they talk to, stated beside them. *)
From S2P Require Import Prelude.

Class Ports (E : Type) := {
  inb : Z -> M E Z;
  outb : Z -> Z -> M E unit;
  inl_port : Z -> M E Z;
  outl : Z -> Z -> M E unit
}.

Section ports.
Context {E : Type} `{Ports E}.

(** The ports of a 64-bit access are computed in 16 bits. *)
Definition outq (port value : Z) : M E unit :=
  outl port (Z.land value 0xFFFFFFFF) ;;;
  outl (u16 (port + 4)) (Z.shiftr value 32).

Definition inq (port : Z) : M E Z :=
  let! lower := inl_port port in
  let! upper := inl_port (u16 (port + 4)) in
  ret (Z.lor (Z.shiftl upper 32) lower).
End ports.
