(* ===== verification/Time.v ===== *)
(** Calendar time (kernel/src/sys/timer/rtc.c, kernel/src/lib/time.c).

    The real-time clock is read through ports; dates are records of C
    integers.  gmtime's static structure and ctime's static buffer are
    returned by value.  snprintf is used through the text it produces
    (vsnprintf_ok in StdioProps.v). *)
From S2P Require Import Prelude CString Stdio StdioProps Ports.

(** ** rtc.c *)

Record rtc_time_t := mk_rtc {
  seconds : Z; minutes : Z; hours : Z; days : Z; months : Z; years : Z
}.

Definition RTC_COMMAND_PORT : Z := 0x70.
Definition RTC_DATA_PORT : Z := 0x71.
Definition RTC_REG_A : Z := 0x0A.
Definition RTC_REG_B : Z := 0x0B.
Definition RTC_REG_C : Z := 0x0C.

Section rtc.
Context {E : Type} `{Ports E}.

Definition rtc_enable : M E unit :=
  outb RTC_COMMAND_PORT RTC_REG_B ;;;
  let! prev := inb RTC_DATA_PORT in
  outb RTC_COMMAND_PORT RTC_REG_B ;;;
  outb RTC_DATA_PORT (Z.lor prev 0x40).

Definition rtc_set_frequency (rate : Z) : M E unit :=
  outb RTC_COMMAND_PORT RTC_REG_A ;;;
  let! prev := inb RTC_DATA_PORT in
  outb RTC_COMMAND_PORT RTC_REG_A ;;;
  outb RTC_DATA_PORT (Z.lor (Z.land prev 0xF0) (Z.land rate 0x0F)).

Definition read_rtc_register (reg : Z) : M E Z :=
  outb RTC_COMMAND_PORT reg ;;; inb RTC_DATA_PORT.

Definition bcd_to_bin (value : Z) : Z := u8 (Z.shiftr value 4 * 10 + Z.land value 0x0F).

(** The allocated structure [rtc_time] as it is filled. *)
Definition get_rtc_time : M E rtc_time_t :=
  let! seconds := read_rtc_register 0x00 in
  let! minutes := read_rtc_register 0x02 in
  let! hours := read_rtc_register 0x04 in
  let! day := read_rtc_register 0x07 in
  let! month := read_rtc_register 0x08 in
  let! year := read_rtc_register 0x09 in
  ret (mk_rtc (bcd_to_bin seconds) (bcd_to_bin minutes) (bcd_to_bin hours)
         (bcd_to_bin day) (bcd_to_bin month) (bcd_to_bin year)).
End rtc.

(** ** time.c *)

Definition days_in_month : list Z := [31; 28; 31; 30; 31; 30; 31; 31; 30; 31; 30; 31].

Definition is_leap (y : Z) : bool :=
  (Z.rem y 4 =? 0) && (negb (Z.rem y 100 =? 0) || (Z.rem y 400 =? 0)).

(** Seconds since 1970; reading [days_in_month] out of its bounds is
    undefined.  The month loop asks for the leap day with the two-digit
    year. *)
Definition rtc_to_time_t (rt : rtc_time_t) : outcome Z :=
  let t := fold_left (fun t y =>
    let t := t + 365 * 24 * 3600 in
    if is_leap y then t + 24 * 3600 else t) (seqZ 1970 (years rt + 2000 - 1970)) 0 in
  let months_loop := for_range (S := Z) (R := unit) (Z.to_nat (months rt - 1)) 1 (fun m =>
    match days_in_month !! Z.to_nat (m - 1) with
    | None => undef
    | Some d =>
        modify (fun t => t + d * 24 * 3600) ;;;
        modify (fun t => if (m =? 2) && is_leap (years rt) then t + 24 * 3600 else t) ;;;
        ret None
    end) in
  obind (months_loop t) (fun '(_, t) =>
    Ret (t + (days rt - 1) * 24 * 3600 + hours rt * 3600 + minutes rt * 60 + seconds rt)).

Section clock.
Context {E : Type} `{Ports E}.

Definition get_time : M E Z :=
  let! rt := get_rtc_time in lift (rtc_to_time_t rt).

(** The value stored through a non-NULL argument is the one returned. *)
Definition time : M E Z := get_time.

Definition get_uptime_seconds (cpu_id : Z) : M E Z :=
  let! t := get_time in ret (u64 t).

Definition CLOCKS_PER_SEC : Z := 1000000.

Definition clock : M E Z :=
  let! t := get_uptime_seconds 0 in ret (s64 (u64 (t * CLOCKS_PER_SEC))).

Definition sleep_seconds (fuel : nat) (cpu_id sec : Z) : M E unit :=
  let! start := get_uptime_seconds cpu_id in
  iter_fuel fuel (fun _ =>
    let! now := get_uptime_seconds cpu_id in
    if u64 (now - start) <? sec then ret (inl tt) else ret (inr tt)) tt.

Definition usleep (fuel : nat) (cpu_id usec : Z) : M E unit :=
  let! start := get_uptime_seconds cpu_id in
  let start_ms := u64 (start * 1000) in
  let target_ms := u64 (start_ms + usec / 1000) in
  iter_fuel fuel (fun _ =>
    let! now := get_uptime_seconds cpu_id in
    if u64 (now * 1000) <? target_ms then ret (inl tt) else ret (inr tt)) tt.
End clock.

Record tm := mk_tm {
  tm_sec : Z; tm_min : Z; tm_hour : Z; tm_mday : Z; tm_mon : Z; tm_year : Z;
  tm_wday : Z; tm_yday : Z; tm_isdst : Z
}.

(** The two loops of gmtime: years from 1970, months from 0. *)
Definition year_loop {S} (fuel : nat) (secs : Z) : M S (Z * Z) :=
  iter_fuel fuel (fun '(year, secs) =>
    let days_in_year := if is_leap year then 366 else 365 in
    if days_in_year <=? secs then
      guard (year <? INT_MAX) ;;; ret (inl (year + 1, secs - days_in_year))
    else ret (inr (year, secs))) (1970, secs).

Definition month_loop {S} (year secs : Z) : M S (Z * Z) :=
  iter_fuel 13 (fun '(month, secs) =>
    match days_in_month !! Z.to_nat month with
    | None => undef
    | Some days =>
        let days := if (month =? 1) && is_leap year then days + 1 else days in
        if days <=? secs then ret (inl (month + 1, secs - days)) else ret (inr (month, secs))
    end) (0, secs).

Definition gmtime {S} (fuel : nat) (t : Z) : M S tm :=
  let sec := Z.rem t 60 in
  let secs := t ÷ 60 in
  let min := Z.rem secs 60 in
  let secs := secs ÷ 60 in
  let hour := Z.rem secs 24 in
  let secs := secs ÷ 24 in
  let! '(year, secs) := year_loop fuel secs in
  let yday := secs in
  let! '(month, secs) := month_loop year secs in
  ret (mk_tm sec min hour (secs + 1) month (year - 1900) (Z.rem (4 + t ÷ 86400) 7) yday 0).

Definition LOCAL_TZ_OFFSET : Z := 19800.

(** Overflow of the sum is undefined. *)
Definition localtime {S} (fuel : nat) (t : Z) : M S tm :=
  guard (t + LOCAL_TZ_OFFSET <? 2 ^ 63) ;;; gmtime fuel (t + LOCAL_TZ_OFFSET).

(** "Sun" ... and "Jan" ... *)
Definition wday_name : list (list Z) :=
  [[83; 117; 110]; [77; 111; 110]; [84; 117; 101]; [87; 101; 100]; [84; 104; 117];
   [70; 114; 105]; [83; 97; 116]].
Definition mon_name : list (list Z) :=
  [[74; 97; 110]; [70; 101; 98]; [77; 97; 114]; [65; 112; 114]; [77; 97; 121]; [74; 117; 110];
   [74; 117; 108]; [65; 117; 103]; [83; 101; 112]; [79; 99; 116]; [78; 111; 118]; [68; 101; 99]].

(** An element of a table of strings; an index outside it is undefined. *)
Definition pick {S} (l : list (list Z)) (i : Z) : M S (list Z) :=
  match (if 0 <=? i then l !! Z.to_nat i else None) with Some x => ret x | None => undef end.

(** What snprintf(buf, size, ...) leaves in the buffer before its
    terminator. *)
Definition cut (size : Z) (text : list Z) : list Z := take (Z.to_nat (size - 1)) text.

(** The string in [buf[26]]. *)
Definition ctime {S} (fuel : nat) (t : Z) : M S (list Z) :=
  let! x := localtime fuel t in
  let! w := pick wday_name (tm_wday x) in
  let! m := pick mon_name (tm_mon x) in
  let! y := int_add 1900 (tm_year x) in
  ret (cut 26 (w ++ 32 :: m ++ 32 :: int_text (tm_mday x) ++ 32 :: int_text (tm_hour x) ++
               58 :: int_text (tm_min x) ++ 58 :: int_text (tm_sec x) ++ 32 :: int_text y ++ [10])).

(** The replacement of a conversion of strftime, through [buf[32]]. *)
Definition strftime_conv {S} (x : tm) (c : Z) : M S (list Z) :=
  if c =? 89 then let! y := int_add 1900 (tm_year x) in ret (cut 32 (int_text y))
  else if c =? 109 then let! m := int_add (tm_mon x) 1 in ret (cut 32 (int_text m))
  else if c =? 100 then ret (cut 32 (int_text (tm_mday x)))
  else if c =? 72 then ret (cut 32 (int_text (tm_hour x)))
  else if c =? 77 then ret (cut 32 (int_text (tm_min x)))
  else if c =? 83 then ret (cut 32 (int_text (tm_sec x)))
  else if c =? 97 then pick wday_name (Z.rem (tm_wday x) 7)
  else if c =? 98 then pick mon_name (Z.rem (tm_mon x) 12)
  else if c =? 70 then
    let! y := int_add 1900 (tm_year x) in
    let! m := int_add (tm_mon x) 1 in
    ret (cut 32 (int_text y ++ 45 :: int_text m ++ 45 :: int_text (tm_mday x)))
  else if c =? 84 then ret (cut 32 (int_text (tm_hour x) ++ 58 :: int_text (tm_min x) ++
                                    58 :: int_text (tm_sec x)))
  else if c =? 37 then ret [37]
  else ret [37; c].

(** The characters stored before the terminator, whose number is returned;
    the terminator is stored even when [max] is 0.  A format that ends in a
    percent sign is read past its end. *)
Fixpoint strftime {S} (remaining : Z) (format : list Z) (x : tm) : M S (list Z) :=
  match format with
  | [] => ret []
  | c :: format =>
      if 1 <? remaining then
        if c =? 37 then
          match format with
          | [] => undef
          | c :: format =>
              let! r := strftime_conv x c in
              if remaining <=? zlen r then ret [] else
              let! rest := strftime (remaining - zlen r) format x in
              ret (r ++ rest)
          end
        else
          let! rest := strftime (remaining - 1) format x in
          ret (c :: rest)
      else ret []
  end.
