(* ===== verification/TimeProps.v ===== *)
(** The calendar behind time.c.

    [day_number] counts days from 1970-01-01 by the closed formula of the
    Gregorian calendar; [date_ok] are the dates that exist.  rtc_to_time_t
    computes day numbers, gmtime inverts them. *)
From S2P Require Import Prelude CString Stdio StdioProps Ports Time.

(** ** The Gregorian calendar *)

Definition leap (y : Z) : bool := (y mod 4 =? 0) && (negb (y mod 100 =? 0) || (y mod 400 =? 0)).

(** Days from the first day of 1970 to the first day of year [y]. *)
Definition year_start (y : Z) : Z :=
  365 * (y - 1970) + (y - 1) / 4 - (y - 1) / 100 + (y - 1) / 400 - 477.

Definition month_len (y m : Z) : Z :=
  if m =? 1 then if leap y then 29 else 28
  else if (m =? 3) || (m =? 5) || (m =? 8) || (m =? 10) then 30 else 31.

(** Days of the months before month [m] (from 0). *)
Definition month_start (y m : Z) : Z := fold_left Z.add (month_len y <$> seqZ 0 m) 0.

Definition date_ok (y m d : Z) : Prop := 0 <= m < 12 /\ 1 <= d <= month_len y m.

Definition day_number (y m d : Z) : Z := year_start y + month_start y m + (d - 1).

Definition year_len (y : Z) : Z := if leap y then 366 else 365.

Lemma year_start_succ y : year_start (y + 1) = year_start y + year_len y.
Proof.
  unfold year_start, year_len, leap.
  destruct (Z.eqb_spec (y mod 4) 0), (Z.eqb_spec (y mod 100) 0), (Z.eqb_spec (y mod 400) 0);
    cbn [andb orb negb]; Z.to_euclidean_division_equations; lia.
Qed.

Lemma year_len_range y : 365 <= year_len y <= 366.
Proof. unfold year_len. case_if; lia. Qed.

Lemma year_start_mono y y' : y < y' -> year_start y + year_len y <= year_start y'.
Proof.
  intros Hy. replace y' with (y + 1 + Z.of_nat (Z.to_nat (y' - y - 1))) by lia.
  generalize (Z.to_nat (y' - y - 1)) as k. induction k as [|k IH].
  - rewrite Z.add_0_r, year_start_succ. lia.
  - replace (y + 1 + Z.of_nat (S k)) with (y + 1 + Z.of_nat k + 1) by lia.
    rewrite year_start_succ. pose proof (year_len_range (y + 1 + Z.of_nat k)). lia.
Qed.

Lemma month_len_range y m : 28 <= month_len y m <= 31.
Proof. unfold month_len. repeat case_if; lia. Qed.

Lemma fold_add l a : fold_left Z.add l a = a + fold_left Z.add l 0.
Proof.
  revert a. induction l as [|x l IH]; intros a; cbn [fold_left]; [lia|].
  rewrite (IH (a + x)), (IH (0 + x)). lia.
Qed.

Lemma month_start_succ y m : 0 <= m -> month_start y (m + 1) = month_start y m + month_len y m.
Proof.
  intros Hm. unfold month_start. rewrite seqZ_app by lia. rewrite fmap_app, fold_left_app.
  rewrite (seqZ_cons (0 + m) 1) by lia. by rewrite Z.add_0_l.
Qed.

Lemma month_start_mono y m m' : 0 <= m < m' -> month_start y m + month_len y m <= month_start y m'.
Proof.
  intros Hm. replace m' with (m + 1 + Z.of_nat (Z.to_nat (m' - m - 1))) by lia.
  generalize (Z.to_nat (m' - m - 1)) as k. induction k as [|k IH].
  - rewrite Z.add_0_r, month_start_succ; lia.
  - replace (m + 1 + Z.of_nat (S k)) with (m + 1 + Z.of_nat k + 1) by lia.
    rewrite month_start_succ by lia. pose proof (month_len_range y (m + 1 + Z.of_nat k)). lia.
Qed.

Lemma month_start_12 y : month_start y 12 = year_len y.
Proof. unfold month_start, year_len, month_len. simpl. by destruct (leap y). Qed.

Lemma month_start_nonneg y m : 0 <= m -> 0 <= month_start y m.
Proof.
  intros Hm. destruct (decide (m = 0)) as [->|]; [done|].
  pose proof (month_start_mono y 0 m). pose proof (month_len_range y 0).
  unfold month_start at 1 in H. simpl in H. lia.
Qed.

Lemma day_of_year_range y m d : date_ok y m d -> 0 <= month_start y m + (d - 1) < year_len y.
Proof.
  intros [Hm Hd]. pose proof (month_start_nonneg y m). rewrite <- (month_start_12 y).
  destruct (decide (m = 11)) as [->|].
  - change 12 with (11 + 1). rewrite month_start_succ by lia. lia.
  - pose proof (month_start_mono y m 11). pose proof (month_start_mono y 11 12).
    pose proof (month_len_range y 11). lia.
Qed.

(** Every day has one date. *)
Lemma day_number_inj y m d y' m' d' : date_ok y m d -> date_ok y' m' d' ->
  day_number y m d = day_number y' m' d' -> y = y' /\ m = m' /\ d = d'.
Proof.
  intros H1 H2 He. pose proof (day_of_year_range _ _ _ H1). pose proof (day_of_year_range _ _ _ H2).
  unfold day_number in He. destruct H1 as [Hm Hd], H2 as [Hm' Hd'].
  assert (y = y') as <-.
  { destruct (Z.lt_trichotomy y y') as [Hlt|[?|Hlt]]; [|done|].
    - pose proof (year_start_mono _ _ Hlt). lia.
    - pose proof (year_start_mono _ _ Hlt). lia. }
  assert (m = m') as <-; [|lia].
  destruct (Z.lt_trichotomy m m') as [Hlt|[?|Hlt]]; [|done|].
  - pose proof (month_start_mono y m m'). lia.
  - pose proof (month_start_mono y m' m). lia.
Qed.

(** ** The code against the calendar *)

Lemma is_leap_eq y : 0 <= y -> is_leap y = leap y.
Proof. intros Hy. unfold is_leap, leap. by rewrite !Z.rem_mod_nonneg by lia. Qed.

(** The two-digit year has the leap days of its full year. *)
Lemma leap_two_digit y : leap (2000 + y) = leap y.
Proof.
  unfold leap. replace ((2000 + y) mod 4) with (y mod 4)
    by (rewrite <- (Z.mod_add y 500 4) by lia; f_equal; lia).
  replace ((2000 + y) mod 100) with (y mod 100)
    by (rewrite <- (Z.mod_add y 20 100) by lia; f_equal; lia).
  replace ((2000 + y) mod 400) with (y mod 400)
    by (rewrite <- (Z.mod_add y 5 400) by lia; f_equal; lia). done.
Qed.

Lemma days_in_month_len y m : 0 <= m < 12 -> exists d, days_in_month !! Z.to_nat m = Some d /\
  month_len y m = if (m =? 1) && leap y then d + 1 else d.
Proof.
  intros Hm. assert (m = 0 \/ m = 1 \/ m = 2 \/ m = 3 \/ m = 4 \/ m = 5 \/ m = 6 \/ m = 7 \/
    m = 8 \/ m = 9 \/ m = 10 \/ m = 11) as Hc by lia.
  repeat destruct Hc as [->|Hc]; [..|subst m]; eexists; (split; [reflexivity|]);
    unfold month_len; simpl; by destruct (leap y).
Qed.

(** The seconds of a date and time of day. *)
Definition epoch_seconds (y m d h mi s : Z) : Z := day_number y m d * 86400 + h * 3600 + mi * 60 + s.

Lemma years_fold y (k : nat) : 1970 <= y ->
  fold_left (fun t y =>
    let t := t + 365 * 24 * 3600 in
    if is_leap y then t + 24 * 3600 else t) (seqZ 1970 (Z.of_nat k)) 0 =
  year_start (1970 + Z.of_nat k) * 86400.
Proof.
  intros _. induction k as [|k IH]; [done|].
  rewrite seqZ_S, fold_left_app, IH. cbn [fold_left].
  replace (1970 + Z.of_nat (S k)) with (1970 + Z.of_nat k + 1) by lia.
  rewrite year_start_succ, is_leap_eq by lia. unfold year_len. case_if; lia.
Qed.

Lemma months_loop_spec y m t : 0 <= y -> 1 <= m <= 12 ->
  for_range (S := Z) (R := unit) (Z.to_nat (m - 1)) 1 (fun m =>
    match days_in_month !! Z.to_nat (m - 1) with
    | None => undef
    | Some d =>
        modify (fun t => t + d * 24 * 3600) ;;;
        modify (fun t => if (m =? 2) && is_leap y then t + 24 * 3600 else t) ;;;
        ret None
    end) t = Ret (None, t + month_start (2000 + y) (m - 1) * 86400).
Proof.
  intros Hy Hm.
  enough (wp (for_range (S := Z) (R := unit) (Z.to_nat (m - 1)) 1 (fun m =>
    match days_in_month !! Z.to_nat (m - 1) with
    | None => undef
    | Some d =>
        modify (fun t => t + d * 24 * 3600) ;;;
        modify (fun t => if (m =? 2) && is_leap y then t + 24 * 3600 else t) ;;;
        ret None
    end)) (fun r t' => r = None /\ t' = t + month_start (2000 + y) (m - 1) * 86400) t) as Hw.
  { apply wp_run in Hw as (r & t' & Hr & -> & ->). exact Hr. }
  apply (wp_for (fun j t' => t' = t + month_start (2000 + y) (j - 1) * 86400)).
  - intros j t' Hj ->. destruct (days_in_month_len (2000 + y) (j - 1) ltac:(lia)) as (d & -> & Hl).
    wp_steps. rewrite leap_two_digit in Hl. rewrite is_leap_eq by lia.
    replace (j + 1 - 1) with (j - 1 + 1) by lia. rewrite month_start_succ, Hl by lia.
    replace (j - 1 =? 1) with (j =? 2) by (destruct (Z.eqb_spec j 2), (Z.eqb_spec (j - 1) 1); lia || done).
    case_if; lia.
  - intros t' ->. split; [done|]. do 3 f_equal. lia.
  - unfold month_start. simpl. lia.
Qed.

(** A time of the real-time clock that exists. *)
Definition rtc_ok (rt : rtc_time_t) : Prop :=
  0 <= years rt < 256 /\ date_ok (2000 + years rt) (months rt - 1) (days rt) /\
  0 <= hours rt < 24 /\ 0 <= minutes rt < 60 /\ 0 <= seconds rt < 60.

Lemma rtc_to_time_t_spec rt : rtc_ok rt -> rtc_to_time_t rt =
  Ret (epoch_seconds (2000 + years rt) (months rt - 1) (days rt) (hours rt) (minutes rt) (seconds rt)).
Proof.
  intros (Hy & [Hm Hd] & _). unfold rtc_to_time_t.
  replace (years rt + 2000 - 1970) with (Z.of_nat (Z.to_nat (years rt + 30))) by lia.
  rewrite (years_fold 1970) by lia. rewrite months_loop_spec by lia. cbn [obind].
  f_equal. unfold epoch_seconds, day_number. replace (1970 + _) with (2000 + years rt) by lia. lia.
Qed.

(** gmtime's loops. *)
Lemma year_loop_spec {S} fuel n Q (s : S) : 0 <= n -> n < 365 * Z.of_nat fuel -> n < 2 ^ 31 * 300 ->
  (forall y r, 1970 <= y -> 0 <= r < year_len y -> year_start y + r = n -> Q (y, r) s) ->
  wp (year_loop fuel n) Q s.
Proof.
  intros Hn Hf Hbig HQ. unfold year_loop.
  apply (wp_iter (fun '(y, r) s1 => s1 = s /\ 1970 <= y /\ 0 <= r /\ year_start y + r = n)
    (fun '(y, r) _ => Z.to_nat (r / 365))).
  - intros [y r] s1 (-> & Hy & Hr & He). rewrite is_leap_eq by lia. fold (year_len y).
    pose proof (year_len_range y). case_if.
    + wp_step. apply wp_guard.
      { apply Z.ltb_lt. unfold INT_MAX. unfold year_start in He.
        Z.to_euclidean_division_equations; lia. }
      wp_step. split.
      * rewrite year_start_succ. repeat split; lia.
      * assert ((r - year_len y) / 365 < r / 365) by (Z.to_euclidean_division_equations; lia).
        assert (0 <= (r - year_len y) / 365) by (apply Z.div_pos; lia). lia.
    + wp_step. apply HQ; lia.
  - repeat split; [lia.. |]. unfold year_start. simpl. lia.
  - assert (n / 365 < Z.of_nat fuel) by (apply Z.div_lt_upper_bound; lia).
    assert (0 <= n / 365) by (apply Z.div_pos; lia). lia.
Qed.

Lemma month_loop_spec {S} y n Q (s : S) : 0 <= y -> 0 <= n < year_len y ->
  (forall m r, 0 <= m < 12 -> 0 <= r < month_len y m -> month_start y m + r = n -> Q (m, r) s) ->
  wp (month_loop y n) Q s.
Proof.
  intros Hy Hn HQ. unfold month_loop.
  apply (wp_iter (fun '(m, r) s1 => s1 = s /\ 0 <= m < 12 /\ 0 <= r /\ month_start y m + r = n)
    (fun '(m, r) _ => Z.to_nat (12 - m))).
  - intros [m r] s1 (-> & Hm & Hr & He).
    destruct (days_in_month_len y m Hm) as (d & -> & Hl). rewrite is_leap_eq, <- Hl by lia. case_if.
    + wp_step. pose proof (month_start_succ y m ltac:(lia)) as Hs.
      assert (m <> 11) by (intros ->; change (11 + 1) with 12 in Hs; rewrite month_start_12 in Hs; lia).
      split; [repeat split; lia | lia].
    + wp_step. apply HQ; lia.
  - repeat split; lia.
  - lia.
Qed.

(** The date and time of day gmtime gives, from the second [t] on. *)
Definition tm_of (t : Z) (x : tm) : Prop :=
  let y := 1900 + tm_year x in
  date_ok y (tm_mon x) (tm_mday x) /\ 0 <= tm_hour x < 24 /\ 0 <= tm_min x < 60 /\
  0 <= tm_sec x < 60 /\
  epoch_seconds y (tm_mon x) (tm_mday x) (tm_hour x) (tm_min x) (tm_sec x) = t /\
  tm_yday x = month_start y (tm_mon x) + (tm_mday x - 1) /\
  tm_wday x = (4 + t / 86400) mod 7 /\ tm_isdst x = 0.

Lemma gmtime_spec {S} fuel t Q (s : S) : 0 <= t -> t / 86400 < 365 * Z.of_nat fuel -> t < 2 ^ 55 ->
  (forall x, tm_of t x -> Q x s) -> wp (gmtime fuel t) Q s.
Proof.
  intros Ht Hf Hbig HQ. unfold gmtime.
  assert (0 <= t ÷ 60 /\ t ÷ 60 = t / 60) as [H1 E1] by (rewrite Z.quot_div_nonneg by lia; split; [apply Z.div_pos|]; lia).
  assert (0 <= t ÷ 60 ÷ 60 /\ t ÷ 60 ÷ 60 = t / 60 / 60) as [H2 E2]
    by (rewrite E1, Z.quot_div_nonneg by lia; split; [apply Z.div_pos|]; lia).
  rewrite !Z.rem_mod_nonneg, (Z.quot_div_nonneg (t ÷ 60 ÷ 60)), (Z.quot_div_nonneg t 86400), E2, E1 by
    (try apply Z.add_nonneg_nonneg; try apply Z.quot_pos; lia).
  set (n := t / 60 / 60 / 24).
  assert (Hn : n = t / 86400) by (unfold n; rewrite !Z.div_div by lia; done).
  wp_step. apply year_loop_spec; [rewrite Hn; apply Z.div_pos; lia | lia | |].
  { rewrite Hn. apply Z.div_lt_upper_bound; lia. }
  intros y r Hy Hr Hyr. wp_step. apply month_loop_spec; [lia | done|].
  intros m d Hm Hd Hmd. wp_step. apply HQ. unfold tm_of. cbn [tm_year tm_mon tm_mday tm_hour tm_min tm_sec tm_yday tm_wday tm_isdst].
  replace (1900 + (y - 1900)) with y by lia.
  pose proof (Z.mod_pos_bound t 60 ltac:(lia)). pose proof (Z.mod_pos_bound (t / 60) 60 ltac:(lia)).
  pose proof (Z.mod_pos_bound (t / 60 / 60) 24 ltac:(lia)).
  split; [split; lia|]. do 3 (split; [lia|]). split; [|split; [lia|split; [done | done]]].
  unfold epoch_seconds, day_number. replace (year_start y + month_start y m + (d + 1 - 1)) with n by lia.
  pose proof (Z.div_mod t 60 ltac:(lia)). pose proof (Z.div_mod (t / 60) 60 ltac:(lia)).
  pose proof (Z.div_mod (t / 60 / 60) 24 ltac:(lia)) as H24. fold n in H24. lia.
Qed.

(** Binary-coded decimal. *)
Definition bcd (v : Z) : Z := v / 10 * 16 + v mod 10.

Lemma bcd_to_bin_bcd v : 0 <= v < 100 -> bcd_to_bin (bcd v) = v.
Proof.
  intros Hv. unfold bcd_to_bin, bcd. change 0x0F with (Z.ones 4).
  rewrite Z.land_ones, Z.shiftr_div_pow2 by lia. change (2 ^ 4) with 16.
  pose proof (Z.mod_pos_bound v 10 ltac:(lia)). pose proof (Z.div_mod v 10 ltac:(lia)).
  rewrite Z.div_add_l, (Z.div_small (v mod 10)), Z.add_comm, Z.add_comm by lia.
  rewrite (Z.add_comm (v / 10 * 16)), Z.mod_add, (Z.mod_small (v mod 10)) by lia.
  rewrite u8_small; lia.
Qed.

(** A clock chip behind ports 0x70 and 0x71: its registers read back, and
    reading changes none of them. *)
Class Cmos (E : Type) {P : Ports E} := {
  cmos : E -> Z -> Z;
  cmos_read : forall (e : E) r, 0 <= r < 128 -> exists e',
    read_rtc_register r e = Ret (cmos e r, e') /\ (forall r', cmos e' r' = cmos e r')
}.

Section cmos.
Context {E : Type} `{Cmos E}.

Lemma wp_read_rtc_register e r Q : 0 <= r < 128 ->
  (forall e', (forall r', cmos e' r' = cmos e r') -> Q (cmos e r) e') -> wp (read_rtc_register r) Q e.
Proof.
  intros Hr HQ. destruct (cmos_read e r Hr) as (e' & He & Hsame). unfold wp. rewrite He. by apply HQ.
Qed.

(** The registers hold the time [rt] in binary-coded decimal. *)
Definition cmos_time (e : E) (rt : rtc_time_t) : Prop :=
  cmos e 0 = bcd (seconds rt) /\ cmos e 2 = bcd (minutes rt) /\ cmos e 4 = bcd (hours rt) /\
  cmos e 7 = bcd (days rt) /\ cmos e 8 = bcd (months rt) /\ cmos e 9 = bcd (years rt).

Lemma get_rtc_time_spec e rt Q : rtc_ok rt -> years rt < 100 -> cmos_time e rt ->
  (forall e', Q rt e') -> wp get_rtc_time Q e.
Proof.
  intros (Hy & [Hm Hd] & Hh & Hmi & Hs) Hy' (E0 & E2 & E4 & E7 & E8 & E9) HQ. unfold get_rtc_time.
  wp_step. apply wp_read_rtc_register; [lia|]. intros e1 H1. rewrite E0.
  wp_step. apply wp_read_rtc_register; [lia|]. intros e2 H2. rewrite H1, E2.
  wp_step. apply wp_read_rtc_register; [lia|]. intros e3 H3. rewrite H2, H1, E4.
  wp_step. apply wp_read_rtc_register; [lia|]. intros e4 H4. rewrite H3, H2, H1, E7.
  wp_step. apply wp_read_rtc_register; [lia|]. intros e5 H5. rewrite H4, H3, H2, H1, E8.
  wp_step. apply wp_read_rtc_register; [lia|]. intros e6 H6. rewrite H5, H4, H3, H2, H1, E9.
  pose proof (month_len_range (2000 + years rt) (months rt - 1)).
  wp_step. rewrite !bcd_to_bin_bcd by lia. by destruct rt.
Qed.
End cmos.

(** ** Theorems *)

(** Gmtime gives the date and time of day of a second since 1970: a date
    that exists, whose distance from 1970 by the Gregorian calendar is that
    second, with the day of the year and the weekday; and there is no other
    such structure. *)
Theorem gmtime_ok {S} fuel t (s : S) :
  0 <= t < 2 ^ 55 -> t / 86400 < 365 * Z.of_nat fuel ->
  exists x, gmtime fuel t s = Ret (x, s) /\ tm_of t x /\ forall x', tm_of t x' -> x' = x.
Proof.
  intros Ht Hf.
  assert (wp (gmtime fuel t) (fun x s' => tm_of t x /\ s' = s) s) as Hw
    by (apply gmtime_spec; [lia | done | lia | done]).
  apply wp_run in Hw as (x & s' & Hr & Hx & ->). exists x. split; [done|]. split; [done|].
  intros x' Hx'. unfold tm_of in *.
  destruct Hx as (Hd & Hh & Hmi & Hs & He & Hyd & Hw & Hi).
  destruct Hx' as (Hd' & Hh' & Hmi' & Hs' & He' & Hyd' & Hw' & Hi'). unfold epoch_seconds in *.
  destruct (day_number_inj _ _ _ _ _ _ Hd' Hd) as (Hy & Hm & Hmd); [lia|].
  rewrite Hy, Hm, Hmd in *. destruct x, x'; cbn in *. f_equal; lia.
Qed.

(** Reading the clock and converting the time back gives the date and
    time the clock chip holds in its registers, for every date from 2000 to
    2099. *)
Theorem rtc_gmtime_roundtrip {E} `{Cmos E} (e : E) rt fuel :
  rtc_ok rt -> years rt < 100 -> cmos_time e rt -> (400 < fuel)%nat ->
  exists e', (let! t := time in gmtime fuel t) e = Ret (mk_tm (seconds rt) (minutes rt) (hours rt)
    (days rt) (months rt - 1) (years rt + 100)
    ((4 + day_number (2000 + years rt) (months rt - 1) (days rt)) mod 7)
    (month_start (2000 + years rt) (months rt - 1) + (days rt - 1)) 0, e').
Proof.
  intros Hok Hy Hc Hf. set (y := 2000 + years rt) in *.
  set (n := day_number y (months rt - 1) (days rt)).
  pose proof Hok as (Hyr & Hd & Hh & Hmi & Hs). fold y in Hd.
  assert (0 <= n < 365 * 400).
  { pose proof (day_of_year_range _ _ _ Hd). pose proof (year_len_range y).
    pose proof (year_start_mono 1970 y). pose proof (year_start_mono y 2100).
    pose proof (year_len_range 1970). unfold n, day_number. change (year_start 1970) with 0 in *.
    change (year_start 2100) with 47482 in *. lia. }
  assert (wp (let! t := time in gmtime fuel t) (fun x _ => tm_of (epoch_seconds y (months rt - 1)
    (days rt) (hours rt) (minutes rt) (seconds rt)) x) e) as Hw.
  { wp_step. unfold time, get_time. wp_step. apply (get_rtc_time_spec _ rt); [done.. |]. intros e'.
    rewrite rtc_to_time_t_spec by done. apply wp_lift. fold y. unfold epoch_seconds. fold n.
    apply gmtime_spec; [lia | | lia | done]. apply Z.div_lt_upper_bound; lia. }
  apply wp_run in Hw as (x & e' & -> & Hx). exists e'. do 2 f_equal.
  destruct Hx as (Hd' & Hh' & Hmi' & Hs' & He' & Hyd' & Hw' & Hi'). unfold epoch_seconds in *. fold n in He', Hw'.
  assert (Hn : day_number (1900 + tm_year x) (tm_mon x) (tm_mday x) = n) by lia.
  destruct (day_number_inj _ _ _ _ _ _ Hd' Hd) as (Hy1 & Hm1 & Hd1); [exact Hn|].
  rewrite Hy1, Hm1, Hd1 in *.
  replace ((n * 86400 + _ + _ + _) / 86400) with n in Hw' by (Z.to_euclidean_division_equations; lia).
  destruct x; cbn in *. f_equal; lia.
Qed.

(** What strftime stores, its terminator included, fits a buffer of [max]
    bytes, if [max] is not 0. *)
Lemma strftime_fits {S} (k : nat) : forall format remaining x (s : S) l s',
  (length format <= k)%nat -> 1 <= remaining ->
  strftime remaining format x s = Ret (l, s') -> zlen l + 1 <= remaining.
Proof.
  induction k as [|k IH]; intros format remaining x s l s' Hk Hr Hs;
    (destruct format as [|c format]; [injection Hs as <- <-; simpl; lia|]); cbn [length] in Hk; [lia|].
  cbn [strftime] in Hs. destruct (Z.ltb_spec 1 remaining); [|injection Hs as <- <-; simpl; lia].
  destruct (c =? 37).
  - destruct format as [|c' format]; [done|]. unfold bind in Hs at 1.
    destruct (strftime_conv x c' s) as [[r s1]| | |]; try done. cbn [obind] in Hs.
    destruct (Z.leb_spec remaining (zlen r)); [injection Hs as <- <-; simpl; lia|].
    unfold bind in Hs. destruct (strftime (remaining - zlen r) format x s1) as [[rest s2]| | |] eqn:Hrest; try done.
    injection Hs as <- <-. apply IH in Hrest; [|simpl in Hk; lia | lia]. rewrite length_app. lia.
  - unfold bind in Hs. destruct (strftime (remaining - 1) format x s) as [[rest s2]| | |] eqn:Hrest; try done.
    injection Hs as <- <-. apply IH in Hrest; [|lia | lia]. cbn [length]. lia.
Qed.

(** ** A clock chip *)

Module SmallClock.

(** The selected register and the registers. *)
Record chip := mk_chip { sel : Z; regs : gmap Z Z }.

#[global] Instance chip_ports : Ports chip := {
  inb port := if port =? 0x71 then gets (fun d => default 0 (regs d !! sel d)) else ret 0xFF;
  outb port v := modify (fun d =>
    if port =? 0x70 then mk_chip v (regs d)
    else if port =? 0x71 then mk_chip (sel d) (<[sel d := v]> (regs d)) else d);
  inl_port _ := ret 0xFFFFFFFF;
  outl _ _ := ret tt
}.

#[global] Program Instance chip_cmos : Cmos chip := { cmos d r := default 0 (regs d !! r) }.
Next Obligation. intros [i m] r Hr. exists (mk_chip r m). done. Qed.

(** 2024-02-29 23:59:58. *)
Definition feb29 : rtc_time_t := mk_rtc 58 59 23 29 2 24.
Definition chip0 : chip :=
  mk_chip 0 (list_to_map [(0, 0x58); (2, 0x59); (4, 0x23); (7, 0x29); (8, 0x02); (9, 0x24)]).

Lemma gmtime_ok_witness :
  exists x, gmtime (S := unit) 60 1709251198 tt = Ret (x, tt) /\ tm_of 1709251198 x /\
    forall x', tm_of 1709251198 x' -> x' = x.
Proof. apply (gmtime_ok (S := unit) 60 1709251198 tt); [lia | reflexivity]. Defined.

Lemma rtc_gmtime_roundtrip_witness :
  exists e', (let! t := time in gmtime 401 t) chip0 = Ret (mk_tm 58 59 23 29 1 124 4 59 0, e').
Proof.
  apply (rtc_gmtime_roundtrip chip0 feb29 401); [|simpl; lia | by repeat split | lia].
  unfold rtc_ok, date_ok. cbn. repeat split; lia || (unfold month_len; simpl; lia).
Defined.

End SmallClock.
