(* ===== verification/RingBuffer.v ===== *)
(** The keyboard's ring buffer (kernel/src/driver/keyboard/ring_buffer.c).

    [ring_buffer_t] is the struct of ring_buffer.h; a pointer that may be NULL
    is an [option].  The operations return the struct they update in place.
    The specification is a bounded FIFO that drops its oldest element when a
    push finds it full ([Spec]); [rb_abs] reads that queue off the struct, and
    the refinement theorems say that every operation of the code does on the
    struct what the specification does on the queue. *)
From S2P Require Import Prelude.

Module RingBuffer.

Record ring_buffer_t := mk_rb {
  buffer : option (list Z);
  head : Z;
  tail : Z;
  max : Z;
  full : bool
}.

(** ring_buffer_init: [a1] is whether the kheap_alloc of the struct succeeds,
    [a2] the block the kheap_alloc of the storage returns.  The result is the
    global [keyboard_buffer] the function leaves behind and its return value. *)
Definition ring_buffer_init (a1 : bool) (a2 : option (list Z)) (capacity : Z) :
    option ring_buffer_t * option ring_buffer_t :=
  if negb a1 then (None, None)
  else match a2 with
       | None => (Some (mk_rb None 0 0 0 false), None)
       | Some mem =>
           let rb := mk_rb (Some mem) 0 0 capacity false in
           (Some rb, Some rb)
       end.

Definition is_ring_buffer_empty (rb : ring_buffer_t) : bool :=
  negb (full rb) && (head rb =? tail rb).

Definition is_ring_buffer_full (rb : ring_buffer_t) : bool := full rb.

(** [(i + 1) % max] on [size_t]: undefined when [max] is zero. *)
Definition next_index (i max : Z) : outcome Z :=
  if max =? 0 then Undef else Ret (u64 (i + 1) mod max).

Definition advance_pointer (rb : ring_buffer_t) : outcome ring_buffer_t :=
  obind (if full rb then next_index (tail rb) (max rb) else Ret (tail rb)) (fun t =>
  obind (next_index (head rb) (max rb)) (fun h =>
  Ret (mk_rb (buffer rb) h t (max rb) (h =? t)))).

Definition retreat_pointer (rb : ring_buffer_t) : outcome ring_buffer_t :=
  obind (next_index (tail rb) (max rb)) (fun t =>
  Ret (mk_rb (buffer rb) (head rb) t (max rb) false)).

Definition ring_buffer_push (rb : option ring_buffer_t) (data : Z) :
    outcome (option ring_buffer_t) :=
  match rb with
  | None => Ret None
  | Some r =>
      match buffer r with
      | None => Ret (Some r)
      | Some b =>
          if (0 <=? head r) && (head r <? zlen b) then
            obind (advance_pointer
                     (mk_rb (Some (<[Z.to_nat (head r) := u8 data]> b))
                            (head r) (tail r) (max r) (full r)))
                  (fun r' => Ret (Some r'))
          else Undef
      end
  end.

(** ring_buffer_pop: the return code, [*data] when it is written, the struct.
    [data_ok] is whether the caller's [data] pointer is non-NULL. *)
Definition ring_buffer_pop (rb : option ring_buffer_t) (data_ok : bool) :
    outcome (Z * option Z * option ring_buffer_t) :=
  match rb with
  | None => Ret (-1, None, None)
  | Some r =>
      match buffer r with
      | None => Ret (-1, None, Some r)
      | Some b =>
          if negb data_ok then Ret (-1, None, Some r)
          else if is_ring_buffer_empty r then Ret (-1, None, Some r)
          else if (0 <=? tail r) && (tail r <? zlen b) then
            obind (retreat_pointer r) (fun r' =>
              Ret (0, Some (b !!! Z.to_nat (tail r)), Some r'))
          else Undef
      end
  end.

#[global] Arguments ring_buffer_push : simpl never.
#[global] Arguments ring_buffer_pop : simpl never.

(** ** Specification: a bounded FIFO that drops its oldest element *)
Module Spec.
Definition push (cap : Z) (q : list Z) (d : Z) : list Z :=
  (if zlen q =? cap then drop 1 q else q) ++ [d].
Definition pop (q : list Z) : option Z * list Z :=
  match q with
  | [] => (None, [])
  | x :: q => (Some x, q)
  end.
End Spec.

(** The invariant of an initialised buffer. *)
Record rb_wf (r : ring_buffer_t) (b : list Z) : Prop := {
  wf_buffer : buffer r = Some b;
  wf_len : zlen b = max r;
  wf_max : 0 < max r < 18446744073709551616;
  wf_head : 0 <= head r < max r;
  wf_tail : 0 <= tail r < max r;
  wf_full : full r = true -> head r = tail r
}.

Definition rb_count (r : ring_buffer_t) : Z :=
  if full r then max r else (head r - tail r) mod max r.

(** The queue the struct represents, oldest element first. *)
Definition rb_abs (r : ring_buffer_t) (b : list Z) : list Z :=
  (fun i => b !!! Z.to_nat ((tail r + Z.of_nat i) mod max r)) <$> seq 0 (Z.to_nat (rb_count r)).

Lemma next_index_wf i m :
  0 <= i < m -> m < 18446744073709551616 -> next_index i m = Ret ((i + 1) mod m).
Proof.
  intros. unfold next_index. destruct (Z.eqb_spec m 0); [lia|].
  by rewrite u64_small by lia.
Qed.

(** The successor index, as a case split. *)
Lemma succ_mod i m :
  0 <= i < m -> (i + 1) mod m = if i + 1 =? m then 0 else i + 1.
Proof.
  intros. case_if.
  - rewrite Hb. apply Z.mod_same. lia.
  - apply Z.mod_small. lia.
Qed.

Lemma rb_count_range r b : rb_wf r b -> 0 <= rb_count r <= max r.
Proof.
  intros [? ? ? ? ? ?]. unfold rb_count. case_if; [lia|].
  pose proof (Z.mod_pos_bound (head r - tail r) (max r)). lia.
Qed.

Lemma length_rb_abs r b : rb_wf r b -> zlen (rb_abs r b) = rb_count r.
Proof.
  intros H. pose proof (rb_count_range _ _ H).
  unfold rb_abs. rewrite length_fmap, length_seq. lia.
Qed.

Lemma sub_mod_small a b m :
  0 <= a < m -> 0 <= b < m -> (a - b) mod m = if b <=? a then a - b else a - b + m.
Proof.
  intros. case_if.
  - apply Z.mod_small. lia.
  - rewrite <- (Z.mod_add _ 1) by lia. rewrite Z.mod_small; lia.
Qed.

Lemma add_mod_small a b m :
  0 <= a < m -> 0 <= b < m -> (a + b) mod m = if a + b <? m then a + b else a + b - m.
Proof.
  intros. case_if.
  - apply Z.mod_small. lia.
  - rewrite <- (Z.mod_add _ (-1)) by lia. rewrite Z.mod_small; lia.
Qed.

Lemma seq_fmap_drop1 {A} (f g : nat -> A) n :
  (forall i, (i < n)%nat -> g i = f (S i)) ->
  g <$> seq 0 n = drop 1 (f <$> seq 0 (S n)).
Proof.
  intros H. apply list_eq. intros i. rewrite lookup_drop, !list_lookup_fmap.
  destruct (decide (i < n)%nat) as [Hi|Hi].
  - rewrite !lookup_seq_lt by lia. simpl. f_equal. by rewrite H.
  - rewrite !lookup_seq_ge by lia. done.
Qed.

Lemma seq_fmap_snoc {A} (f g : nat -> A) n x :
  (forall i, (i < n)%nat -> g i = f i) -> g n = x ->
  g <$> seq 0 (S n) = (f <$> seq 0 n) ++ [x].
Proof.
  intros H <-. rewrite seq_S, fmap_app. simpl. f_equal.
  apply list_fmap_ext. intros i y [-> Hi]%lookup_seq. apply H. lia.
Qed.

Lemma idx_inj t i j m :
  0 <= t < m -> 0 <= i < m -> 0 <= j < m -> (t + i) mod m = (t + j) mod m -> i = j.
Proof. intros ???. rewrite !add_mod_small by lia. repeat case_if; lia. Qed.

Lemma idx_succ t i m :
  0 <= t < m -> ((t + 1) mod m + i) mod m = (t + (i + 1)) mod m.
Proof. intros. rewrite Z.add_mod_idemp_l by lia. f_equal. lia. Qed.

(** The write position is the [count]-th position after the read position. *)
Lemma head_idx r b : rb_wf r b -> head r = (tail r + rb_count r) mod max r.
Proof.
  intros [? ? ? ? ? Hf]. unfold rb_count. destruct (full r).
  - rewrite <- (Z.mul_1_l (max r)) at 1. rewrite Z.mod_add by lia.
    rewrite Z.mod_small by lia. by apply Hf.
  - rewrite Z.add_mod_idemp_r by lia. replace (tail r + (head r - tail r)) with (head r) by lia.
    rewrite Z.mod_small; lia.
Qed.

Lemma empty_count r b : rb_wf r b -> is_ring_buffer_empty r = (rb_count r =? 0).
Proof.
  intros [? ? ? ? ? ?]. unfold is_ring_buffer_empty, rb_count.
  destruct (full r); simpl; [destruct (Z.eqb_spec (max r) 0); lia|].
  rewrite sub_mod_small by lia.
  destruct (Z.eqb_spec (head r) (tail r)), (Z.leb_spec (tail r) (head r));
    symmetry; (apply Z.eqb_eq || apply Z.eqb_neq); lia.
Qed.

Lemma full_count r b : rb_wf r b -> full r = (rb_count r =? max r).
Proof.
  intros [? ? ? ? ? ?]. unfold rb_count. destruct (full r).
  - symmetry. by apply Z.eqb_eq.
  - symmetry. apply Z.eqb_neq.
    pose proof (Z.mod_pos_bound (head r - tail r) (max r)). lia.
Qed.

(** What a push leaves in the struct. *)
Definition pushed (r : ring_buffer_t) (b : list Z) (d : Z) : ring_buffer_t :=
  let h := (head r + 1) mod max r in
  let t := if full r then (tail r + 1) mod max r else tail r in
  mk_rb (Some (<[Z.to_nat (head r) := u8 d]> b)) h t (max r) (h =? t).

Lemma ring_buffer_push_eq r b d :
  rb_wf r b -> ring_buffer_push (Some r) d = Ret (Some (pushed r b d)).
Proof.
  intros [Hb ? ? ? ? ?]. unfold ring_buffer_push, pushed. rewrite Hb.
  destruct (Z.leb_spec 0 (head r)), (Z.ltb_spec (head r) (zlen b)); try lia. simpl.
  unfold advance_pointer. simpl. rewrite !next_index_wf by lia.
  destruct (full r); done.
Qed.

Lemma pushed_wf r b d :
  rb_wf r b -> rb_wf (pushed r b d) (<[Z.to_nat (head r) := u8 d]> b).
Proof.
  intros [Hb ? ? ? ? ?]. unfold pushed. constructor; simpl.
  - done.
  - by rewrite length_insert.
  - done.
  - apply Z.mod_pos_bound. lia.
  - case_if; [apply Z.mod_pos_bound; lia | lia].
  - intros Hx. by bool_to_prop.
Qed.

Lemma pushed_count r b d :
  rb_wf r b -> rb_count (pushed r b d) = if full r then max r else rb_count r + 1.
Proof.
  intros [Hb ? ? ? ? Hf]. unfold rb_count, pushed. simpl. destruct (full r).
  - rewrite (Hf eq_refl), Z.eqb_refl. done.
  - rewrite succ_mod by lia.
    rewrite (sub_mod_small (head r) (tail r)) by lia.
    destruct (Z.eqb_spec (head r + 1) (max r)), (Z.leb_spec (tail r) (head r)); try lia;
      (case_if; [lia | rewrite sub_mod_small by lia; case_if; lia]).
Qed.

(** Reading the updated storage at a position that was not written. *)
Lemma total_insert_ne (b : list Z) (i j : Z) x :
  0 <= i -> 0 <= j -> i <> j ->
  <[Z.to_nat i := x]> b !!! Z.to_nat j = b !!! Z.to_nat j.
Proof. intros. apply list_lookup_total_insert_ne. lia. Qed.

Lemma pushed_abs r b d :
  rb_wf r b ->
  rb_abs (pushed r b d) (<[Z.to_nat (head r) := u8 d]> b)
    = (if full r then drop 1 (rb_abs r b) else rb_abs r b) ++ [u8 d].
Proof.
  intros Hwf. pose proof (head_idx _ _ Hwf) as Hh.
  pose proof (rb_count_range _ _ Hwf). pose proof (full_count _ _ Hwf) as Hfc.
  unfold rb_abs. rewrite pushed_count by done.
  destruct Hwf as [Hb Hl ? ? ? Hf].
  assert (Hlast : <[Z.to_nat (head r) := u8 d]> b !!! Z.to_nat (head r) = u8 d)
    by (apply list_lookup_total_insert_eq; lia).
  destruct (full r) eqn:Ef; symmetry in Hfc; bool_to_prop.
  - rewrite Hfc. replace (Z.to_nat (max r)) with (S (Z.to_nat (max r - 1))) by lia.
    rewrite <- (seq_fmap_drop1 _
      (fun i => b !!! Z.to_nat ((tail r + (Z.of_nat i + 1)) mod max r)))
      by (intros i Hi; do 3 f_equal; lia).
    apply seq_fmap_snoc; simpl; rewrite Ef; [intros i Hi|]; rewrite idx_succ by lia.
    + apply total_insert_ne; [lia | apply Z.mod_pos_bound; lia |].
      rewrite Hf by done. intros Heq.
      rewrite <- (Z.mod_small (tail r) (max r)) in Heq at 1 by lia.
      rewrite <- (Z.add_0_r (tail r)) in Heq at 1.
      apply idx_inj in Heq; lia.
    + rewrite <- Hlast at 2. do 2 f_equal. rewrite Hh, Hfc.
      f_equal. lia.
  - replace (Z.to_nat (rb_count r + 1)) with (S (Z.to_nat (rb_count r))) by lia.
    apply seq_fmap_snoc; simpl; rewrite Ef; [intros i Hi|].
    + apply total_insert_ne; [lia | apply Z.mod_pos_bound; lia |].
      rewrite Hh. intros Heq. apply idx_inj in Heq; lia.
    + rewrite Z2Nat.id by lia. by rewrite <- Hh.
Qed.

(** What a successful pop leaves in the struct. *)
Definition popped (r : ring_buffer_t) : ring_buffer_t :=
  mk_rb (buffer r) (head r) ((tail r + 1) mod max r) (max r) false.

Lemma ring_buffer_pop_eq r b :
  rb_wf r b ->
  ring_buffer_pop (Some r) true =
    if rb_count r =? 0 then Ret (-1, None, Some r)
    else Ret (0, Some (b !!! Z.to_nat (tail r)), Some (popped r)).
Proof.
  intros Hwf. unfold ring_buffer_pop. rewrite (empty_count _ _ Hwf).
  destruct Hwf as [Hb ? ? ? ? ?]. rewrite Hb. simpl. case_if; [done|].
  destruct (Z.leb_spec 0 (tail r)), (Z.ltb_spec (tail r) (zlen b)); try lia. simpl.
  unfold retreat_pointer. by rewrite next_index_wf by lia.
Qed.

Lemma popped_wf r b : rb_wf r b -> rb_wf (popped r) b.
Proof.
  intros [? ? ? ? ? ?]. unfold popped. constructor; simpl; try done.
  apply Z.mod_pos_bound. lia.
Qed.

Lemma popped_count r b :
  rb_wf r b -> rb_count r <> 0 -> rb_count (popped r) = rb_count r - 1.
Proof.
  intros [? ? ? ? ? Hf]. unfold rb_count, popped. simpl. rewrite succ_mod by lia.
  destruct (full r).
  - rewrite (Hf eq_refl) in *. intros _. case_if; rewrite sub_mod_small by lia; case_if; lia.
  - rewrite !sub_mod_small by (repeat case_if; lia). repeat case_if; lia.
Qed.

Lemma popped_abs r b :
  rb_wf r b -> rb_count r <> 0 ->
  rb_abs r b = b !!! Z.to_nat (tail r) :: rb_abs (popped r) b.
Proof.
  intros Hwf Hc. pose proof (rb_count_range _ _ Hwf).
  unfold rb_abs. rewrite (popped_count _ _ Hwf Hc). destruct Hwf as [? ? ? ? ? ?].
  replace (Z.to_nat (rb_count r)) with (S (Z.to_nat (rb_count r - 1))) by lia.
  rewrite (seq_fmap_drop1
    (fun i => b !!! Z.to_nat ((tail r + Z.of_nat i) mod max r))
    (fun i => b !!! Z.to_nat ((tail (popped r) + Z.of_nat i) mod max (popped r)))).
  - cbn [seq fmap list_fmap drop Z.of_nat]. by rewrite Z.add_0_r, Z.mod_small by lia.
  - intros i Hi. simpl. rewrite idx_succ by lia. do 3 f_equal. lia.
Qed.

(** ** Runs of operations *)

Inductive op := Push (d : Z) | Pop.

(** A client's sequence of calls on the struct: what each pop returned. *)
Fixpoint run (ops : list op) (r : option ring_buffer_t) :
    outcome (list (Z * option Z) * option ring_buffer_t) :=
  match ops with
  | [] => Ret ([], r)
  | Push d :: ops => obind (ring_buffer_push r d) (run ops)
  | Pop :: ops =>
      obind (ring_buffer_pop r true) (fun '(code, d, r') =>
      obind (run ops r') (fun '(out, r'') => Ret ((code, d) :: out, r'')))
  end.

Fixpoint spec_run (cap : Z) (ops : list op) (q : list Z) : list (Z * option Z) * list Z :=
  match ops with
  | [] => ([], q)
  | Push d :: ops => spec_run cap ops (Spec.push cap q (u8 d))
  | Pop :: ops =>
      let '(d, q') := Spec.pop q in
      let '(out, q'') := spec_run cap ops q' in
      ((match d with Some _ => 0 | None => -1 end, d) :: out, q'')
  end.

Lemma run_refines ops : forall r b,
  rb_wf r b ->
  exists r' b', rb_wf r' b' /\ max r' = max r /\
    run ops (Some r) = Ret ((spec_run (max r) ops (rb_abs r b)).1, Some r') /\
    rb_abs r' b' = (spec_run (max r) ops (rb_abs r b)).2.
Proof.
  induction ops as [|[d|] ops IH]; intros r b Hwf; simpl.
  - by exists r, b.
  - rewrite (ring_buffer_push_eq _ _ _ Hwf). simpl.
    destruct (IH _ _ (pushed_wf r b d Hwf)) as (r' & b' & ? & Hm & Hrun & Habs).
    exists r', b'. unfold Spec.push.
    rewrite (length_rb_abs _ _ Hwf), <- (full_count _ _ Hwf).
    rewrite (pushed_abs _ _ _ Hwf) in Hrun, Habs. done.
  - rewrite (ring_buffer_pop_eq _ _ Hwf).
    pose proof (length_rb_abs _ _ Hwf) as Hlen. case_if; simpl.
    + destruct (rb_abs r b) as [|x q] eqn:Eq; [|simpl in Hlen; lia]. simpl.
      destruct (IH _ _ Hwf) as (r' & b' & ? & Hm & Hrun & Habs).
      rewrite Eq in Hrun, Habs. exists r', b'.
      rewrite Hrun. destruct (spec_run (max r) ops []) eqn:Es. done.
    + rewrite (popped_abs _ _ Hwf Hb). simpl.
      destruct (IH _ _ (popped_wf _ _ Hwf)) as (r' & b' & ? & Hm & Hrun & Habs).
      exists r', b'. simpl in Hrun, Habs, Hm. rewrite Hrun. simpl.
      destruct (spec_run (max r) ops (rb_abs (popped r) b)) eqn:Es. done.
Qed.

Lemma init_wf (mem : list Z) cap :
  zlen mem = cap -> 0 < cap < 18446744073709551616 ->
  exists r, ring_buffer_init true (Some mem) cap = (Some r, Some r) /\
    rb_wf r mem /\ max r = cap /\ rb_abs r mem = [].
Proof.
  intros. eexists. split; [done|]. split; [by constructor; simpl; try lia|].
  split; [done|]. unfold rb_abs, rb_count. cbn [head tail full max].
  rewrite Z.sub_diag, Z.mod_0_l by lia. done.
Qed.

(** C26 A freshly initialised ring buffer behaves, over every sequence of
    pushes and pops, as the bounded FIFO queue of its capacity: no run is
    undefined, each pop returns 0 and the oldest byte not yet popped or
    overwritten, or -1 when the queue is empty, and a push to a full buffer
    drops exactly the oldest byte. *)
Theorem ring_buffer_fifo (mem : list Z) (cap : Z) (ops : list op)
    (Hlen : zlen mem = cap) (Hcap : 0 < cap < 18446744073709551616) :
  exists r r' b',
    ring_buffer_init true (Some mem) cap = (Some r, Some r) /\
    run ops (Some r) = Ret ((spec_run cap ops []).1, Some r') /\
    rb_wf r' b' /\ rb_abs r' b' = (spec_run cap ops []).2.
Proof.
  destruct (init_wf mem cap Hlen Hcap) as (r & Hi & Hwf & Hm & Ha).
  destruct (run_refines ops r mem Hwf) as (r' & b' & ? & ? & Hrun & ?).
  rewrite Ha, Hm in *. by exists r, r', b'.
Qed.

Lemma ring_buffer_fifo_witness :
  exists r r' b',
    ring_buffer_init true (Some [0; 0]) 2 = (Some r, Some r) /\
    run [Push 1; Push 2; Push 3; Pop; Pop; Pop] (Some r)
      = Ret ([(0, Some 2); (0, Some 3); (-1, None)], Some r') /\
    rb_wf r' b' /\ rb_abs r' b' = [].
Proof.
  exact (ring_buffer_fifo [0; 0] 2 [Push 1; Push 2; Push 3; Pop; Pop; Pop]
           eq_refl (conj eq_refl eq_refl)).
Defined.

(** The example of uses_of_ring_buffer: ten pushes into a buffer of eight
    leave the last eight. *)
Example uses_of_ring_buffer :
  (spec_run 8 (Push <$> [0;1;2;3;4;5;6;7;8;9]) []).2 = [2;3;4;5;6;7;8;9].
Proof. reflexivity. Qed.

End RingBuffer.
