(* ===== verification/Pmm.v ===== *)
(** Physical memory (kernel/src/memory: detect_memory.c, pmm.c, kmalloc.c).

    The state [mm] holds the globals of the memory manager and physical memory
    itself, as 64-bit words by address, so that the frame bitmap and the page
    tables are objects of one memory.  A pointer of the source is a virtual
    address: the boot loader maps physical memory both at 0 and at
    [HHDM_OFFSET], so a pointer at or above [HHDM_OFFSET] denotes the physical
    address behind the offset and a pointer below it the address itself
    ([resolve]).  A read of a word with no known contents and a write outside
    known words and the usable region are undefined. *)
From S2P Require Import Prelude.

Record mm := mk_mm {
  pmem : gmap Z Z;
  frames : Z;
  nframes : Z;
  phys_mem_head : Z;
  USABLE_START_PHYS_MEM : Z;
  USABLE_END_PHYS_MEM : Z;
  USABLE_LENGTH_PHYS_MEM : Z;
  TOTAL_PHYS_MEMORY : Z;
  HHDM_OFFSET : Z;
  cr3 : Z;
  h_va_head : Z;
  l_va_head : Z
}.

Definition set_pmem m s := mk_mm m (frames s) (nframes s) (phys_mem_head s)
  (USABLE_START_PHYS_MEM s) (USABLE_END_PHYS_MEM s) (USABLE_LENGTH_PHYS_MEM s)
  (TOTAL_PHYS_MEMORY s) (HHDM_OFFSET s) (cr3 s) (h_va_head s) (l_va_head s).
Definition set_head h s := mk_mm (pmem s) (frames s) (nframes s) h
  (USABLE_START_PHYS_MEM s) (USABLE_END_PHYS_MEM s) (USABLE_LENGTH_PHYS_MEM s)
  (TOTAL_PHYS_MEMORY s) (HHDM_OFFSET s) (cr3 s) (h_va_head s) (l_va_head s).
Definition set_frames f n s := mk_mm (pmem s) f n (phys_mem_head s)
  (USABLE_START_PHYS_MEM s) (USABLE_END_PHYS_MEM s) (USABLE_LENGTH_PHYS_MEM s)
  (TOTAL_PHYS_MEMORY s) (HHDM_OFFSET s) (cr3 s) (h_va_head s) (l_va_head s).
Definition set_usable a e l s := mk_mm (pmem s) (frames s) (nframes s) (phys_mem_head s)
  a e l (TOTAL_PHYS_MEMORY s) (HHDM_OFFSET s) (cr3 s) (h_va_head s) (l_va_head s).
Definition set_total t s := mk_mm (pmem s) (frames s) (nframes s) (phys_mem_head s)
  (USABLE_START_PHYS_MEM s) (USABLE_END_PHYS_MEM s) (USABLE_LENGTH_PHYS_MEM s)
  t (HHDM_OFFSET s) (cr3 s) (h_va_head s) (l_va_head s).
Definition set_va_head v s := mk_mm (pmem s) (frames s) (nframes s) (phys_mem_head s)
  (USABLE_START_PHYS_MEM s) (USABLE_END_PHYS_MEM s) (USABLE_LENGTH_PHYS_MEM s)
  (TOTAL_PHYS_MEMORY s) (HHDM_OFFSET s) (cr3 s) v (l_va_head s).

Definition set_l_va_head v s := mk_mm (pmem s) (frames s) (nframes s) (phys_mem_head s)
  (USABLE_START_PHYS_MEM s) (USABLE_END_PHYS_MEM s) (USABLE_LENGTH_PHYS_MEM s)
  (TOTAL_PHYS_MEMORY s) (HHDM_OFFSET s) (cr3 s) (h_va_head s) v.
Definition set_cr3 c s := mk_mm (pmem s) (frames s) (nframes s) (phys_mem_head s)
  (USABLE_START_PHYS_MEM s) (USABLE_END_PHYS_MEM s) (USABLE_LENGTH_PHYS_MEM s)
  (TOTAL_PHYS_MEMORY s) (HHDM_OFFSET s) c (h_va_head s) (l_va_head s).

(** ** Dereferencing pointers to 64-bit words *)

Definition resolve (s : mm) (p : Z) : Z :=
  if HHDM_OFFSET s <=? p then p - HHDM_OFFSET s else p.

Definition ld64 (p : Z) : M mm Z :=
  let! s := get in
  guard (negb (p =? 0) && (p mod 8 =? 0)) ;;;
  match pmem s !! resolve s p with
  | Some w => ret w
  | None => undef
  end.

Definition writable (s : mm) (a : Z) : bool :=
  bool_decide (is_Some (pmem s !! a)) ||
  ((USABLE_START_PHYS_MEM s <=? a) && (a + 8 <=? USABLE_END_PHYS_MEM s)).

Definition st64 (p v : Z) : M mm unit :=
  let! s := get in
  guard (negb (p =? 0) && (p mod 8 =? 0) && writable s (resolve s p)) ;;;
  put (set_pmem (<[resolve s p := v]> (pmem s)) s).

(** memset(p, 0, 8 * n) *)
Definition zero_words (p n : Z) : M mm unit :=
  let! _ := for_range (R := unit) (Z.to_nat n) 0 (fun i => st64 (p + 8 * i) 0 ;;; ret None) in
  ret tt.

(** ** detect_memory.c *)

(** An entry of the boot loader's memory map. *)
Record memmap_entry := { base : Z; length_ : Z; type_ : Z }.

Definition LIMINE_MEMMAP_USABLE : Z := 0.

(** A round of the loop: start, length and end of the region picked so far. *)
Definition pick_usable (r : Z * Z * Z) (e : memmap_entry) : Z * Z * Z :=
  let '(start, len, end_) := r in
  if (type_ e =? LIMINE_MEMMAP_USABLE) && (len <? length_ e)
  then (base e, length_ e, u64 (base e + length_ e)) else (start, len, end_).

(** [None] is a NULL [mem_entries]. *)
Definition set_usable_mem (mem_entries : option (list memmap_entry)) : M mm unit :=
  match mem_entries with
  | None => ret tt
  | Some entries =>
      let! s := get in
      let '(start, _, end_) :=
        foldl pick_usable (USABLE_START_PHYS_MEM s, USABLE_LENGTH_PHYS_MEM s, USABLE_END_PHYS_MEM s)
          entries in
      let start := Z.land start 0xFFFFFFFFFFFFF000 in
      put (set_usable start end_ (u64 (end_ - start)) (set_head start s))
  end.

Definition get_total_phys_memory (mem_entries : option (list memmap_entry)) : M mm unit :=
  match mem_entries with
  | None => ret tt
  | Some [] => ret tt
  | Some (e :: entries) =>
      modify (set_total (foldl (fun t e => u64 (t + length_ e)) (base e) (e :: entries)))
  end.

(** ** kmalloc.c *)

Definition FRAME_SIZE : Z := 4096.

Definition kmalloc (sz : Z) : M mm Z :=
  let! s := get in
  if USABLE_END_PHYS_MEM s <=? phys_mem_head s then ret 0 else
  put (set_head (u64 (phys_mem_head s + sz)) s) ;;;
  ret (phys_mem_head s).

(** The alignment step of kmalloc_a and kmalloc_ap. *)
Definition page_align_head (align : Z) : M mm unit :=
  let! h := gets phys_mem_head in
  if (align =? 1) && negb (Z.land h 0xFFF =? 0) then
    modify (set_head (u64 (Z.land h 0xFFFFFFFFFFFFF000 + FRAME_SIZE)))
  else ret tt.

Definition kmalloc_a (sz align : Z) : M mm Z :=
  let! s := get in
  if USABLE_END_PHYS_MEM s <=? phys_mem_head s then ret 0 else
  page_align_head align ;;;
  let! ptr := gets phys_mem_head in
  modify (set_head (u64 (ptr + sz))) ;;;
  ret ptr.

(** The result and [*phys], when [phys] is not NULL. *)
Definition kmalloc_p (sz : Z) (phys : bool) : M mm (Z * option Z) :=
  let! h := gets phys_mem_head in
  ret (u64 (h + sz), if phys then Some h else None).

Definition kmalloc_ap (sz align : Z) (phys : bool) : M mm (Z * option Z) :=
  page_align_head align ;;;
  let! s := get in
  if USABLE_END_PHYS_MEM s <=? phys_mem_head s then ret (0, None) else
  let tmp := phys_mem_head s in
  put (set_head (u64 (tmp + sz)) s) ;;;
  ret (tmp, if phys then Some tmp else None).

(** The loop that counts the trailing zeros ends, the address is not zero. *)
Definition check_mem_alloc (ptr size : Z) : M mm bool :=
  if ptr =? 0 then ret false else
  if Z.land ptr (u64 (size - 1)) =? 0 then ret true else
  let! _ := iter_fuel 65 (fun '(addr, alignment) =>
    if Z.land addr 1 =? 0 then ret (inl (Z.shiftr addr 1, u64 (alignment * 2)))
    else ret (inr alignment)) (ptr, 1) in
  ret false.

Definition kmalloc_aligned (sz alignment : Z) : M mm Z :=
  let! s := get in
  if USABLE_END_PHYS_MEM s <=? phys_mem_head s then ret 0 else
  let mask := u64 (alignment - 1) in
  (if negb (Z.land (phys_mem_head s) mask =? 0) then
     modify (set_head (Z.land (u64 (phys_mem_head s + alignment - 1))
                         (Z.lxor mask 0xFFFFFFFFFFFFFFFF)))
   else ret tt) ;;;
  let! ptr := gets phys_mem_head in
  modify (set_head (u64 (ptr + sz))) ;;;
  ret ptr.

Definition kfree (ptr size : Z) : M mm unit :=
  if ptr =? 0 then ret tt else
  let! h := gets phys_mem_head in
  if u64 (ptr + size) =? h then modify (set_head ptr) else ret tt.

(** ** pmm.c *)

Definition BITMAP_SIZE : Z := 64.

Definition ld_frames (idx : Z) : M mm Z :=
  let! f := gets frames in guard (negb (f =? 0)) ;;; ld64 (f + 8 * idx).
Definition st_frames (idx v : Z) : M mm unit :=
  let! f := gets frames in guard (negb (f =? 0)) ;;; st64 (f + 8 * idx) v.

(** [0x1 << off] in [int]: gcc gives INT_MIN for 31; past the width the
    shift is undefined. *)
Definition int_one_shl (off : Z) : outcome Z :=
  if off <? 31 then Ret (Z.shiftl 1 off) else if off =? 31 then Ret (-2147483648) else Undef.

(** A failed [assert] halts. *)
Definition set_frame (bit_no : Z) : M mm unit :=
  let! n := gets nframes in
  if negb (bit_no <? n) then halt else
  let bitmap_idx := bit_no / BITMAP_SIZE in
  let bitmap_off := bit_no mod BITMAP_SIZE in
  let! one := lift (int_one_shl bitmap_off) in
  let! w := ld_frames bitmap_idx in
  st_frames bitmap_idx (Z.lor w (u64 one)) ;;;
  modify (fun s => set_head (u64 (phys_mem_head s + FRAME_SIZE)) s).

Definition clear_frame (bit_no : Z) : M mm unit :=
  let! n := gets nframes in
  if negb (bit_no <? n) then halt else
  let bitmap_idx := bit_no / BITMAP_SIZE in
  let bitmap_off := bit_no mod BITMAP_SIZE in
  let! f := gets frames in
  if f =? 0 then ret tt else
  let! w := ld_frames bitmap_idx in
  st_frames bitmap_idx (Z.land w (Z.lxor (Z.shiftl 1 bitmap_off) 0xFFFFFFFFFFFFFFFF)).

Definition test_frame (bit_no : Z) : M mm Z :=
  let! n := gets nframes in
  if negb (bit_no <? n) then halt else
  let! w := ld_frames (bit_no / BITMAP_SIZE) in
  ret (Z.land w (Z.shiftl 1 (bit_no mod BITMAP_SIZE))).

(** The two nested loops of free_frame_bit_no. *)
Definition scan_word (bitmap_idx : Z) : M mm (option Z) :=
  let! w := ld_frames bitmap_idx in
  if w =? 0xFFFFFFFFFFFFFFFF then ret None else
  for_range 64 0 (fun bitmap_off =>
    let! w := ld_frames bitmap_idx in
    ret (if Z.land w (Z.shiftl 1 bitmap_off) =? 0
         then Some (bitmap_idx * BITMAP_SIZE + bitmap_off) else None)).

Definition scan_frames : M mm (option Z) :=
  let! n := gets nframes in
  for_range (Z.to_nat (u64 (n - 1) / BITMAP_SIZE + 1)) 0 scan_word.

(** [free_bit < nframes] compares as unsigned. *)
Definition free_frame_bit_no : M mm Z :=
  let! r := scan_frames in
  let free_bit := s64 (default (-1) r) in
  let! n := gets nframes in
  if u64 free_bit <? n then ret free_bit else halt.

(** Bytes behind the last whole word of the bitmap, which nothing reads, are
    left out of the memset. *)
Definition init_pmm : M mm unit :=
  let! len := gets USABLE_LENGTH_PHYS_MEM in
  let n := len / FRAME_SIZE in
  let bytes := u64 (8 * u64 (n + 63)) / BITMAP_SIZE in
  let! f := kmalloc_a bytes 1 in
  modify (set_frames f n) ;;;
  if f =? 0 then ret tt else zero_words f (bytes / 8).

(** ** Words of physical memory *)

Lemma wp_get {S} (Q : S -> S -> Prop) s : Q s s -> wp get Q s.
Proof. done. Qed.
Lemma wp_put {S} (s' : S) (Q : unit -> S -> Prop) s : Q tt s' -> wp (put s') Q s.
Proof. done. Qed.

Ltac mm_step :=
  lazymatch goal with
  | |- wp get _ _ => apply wp_get
  | |- wp (put _) _ _ => apply wp_put
  | |- _ => wp_step
  end; cbv beta.
Ltac mm_steps := repeat mm_step.

(** The pointer [p] denotes the aligned word at [a]. *)
Definition points (s : mm) (p a : Z) : Prop := p <> 0 /\ p mod 8 = 0 /\ resolve s p = a.

Lemma ld64_spec s p a w Q :
  points s p a -> pmem s !! a = Some w -> Q w s -> wp (ld64 p) Q s.
Proof.
  intros (Hp & Hm & Ha) Hw HQ. unfold ld64. mm_steps.
  - apply andb_true_intro. split; [|by apply Z.eqb_eq]. by apply negb_true_iff, Z.eqb_neq.
  - rewrite Ha, Hw. exact HQ.
Qed.

Lemma st64_spec s p a v Q :
  points s p a -> writable s a = true -> Q tt (set_pmem (<[a := v]> (pmem s)) s) ->
  wp (st64 p v) Q s.
Proof.
  intros (Hp & Hm & Ha) Hw HQ. unfold st64. mm_steps.
  - rewrite Ha, Hw, andb_true_r. apply andb_true_intro.
    split; [|by apply Z.eqb_eq]. by apply negb_true_iff, Z.eqb_neq.
  - rewrite Ha. exact HQ.
Qed.

Lemma writable_known s a w : pmem s !! a = Some w -> writable s a = true.
Proof. intros Hw. unfold writable. rewrite bool_decide_eq_true_2; [done | by eexists]. Qed.

Lemma writable_usable s a :
  USABLE_START_PHYS_MEM s <= a -> a + 8 <= USABLE_END_PHYS_MEM s -> writable s a = true.
Proof. intros. unfold writable. apply orb_true_intro. right.
  apply andb_true_intro. split; apply Z.leb_le; lia.
Qed.

(** All fields but the memory contents agree. *)
Definition but_mem (s s' : mm) : Prop := s' = set_pmem (pmem s') s.

Lemma but_mem_refl s : but_mem s s.
Proof. by destruct s. Qed.
Lemma but_mem_set s m : but_mem s (set_pmem m s).
Proof. done. Qed.
Lemma but_mem_trans s1 s2 s3 : but_mem s1 s2 -> but_mem s2 s3 -> but_mem s1 s3.
Proof. unfold but_mem. intros -> ->. done. Qed.

(** [zero_words] clears the words it covers and nothing else. *)
Lemma zero_words_spec s p n Q :
  0 <= n -> 0 < p -> p mod 8 = 0 -> p + 8 * n <= HHDM_OFFSET s ->
  USABLE_START_PHYS_MEM s <= p -> p + 8 * n <= USABLE_END_PHYS_MEM s ->
  (forall m', (forall i, 0 <= i < n -> m' !! (p + 8 * i) = Some 0) ->
     (forall a, a < p \/ p + 8 * n <= a -> m' !! a = pmem s !! a) ->
     Q tt (set_pmem m' s)) ->
  wp (zero_words p n) Q s.
Proof.
  intros Hn Hp Hm Hh Hs He HQ. unfold zero_words. apply wp_bind.
  apply (wp_for (fun j s' => but_mem s s' /\
    (forall i, 0 <= i < j -> pmem s' !! (p + 8 * i) = Some 0) /\
    (forall a, a < p \/ p + 8 * j <= a -> pmem s' !! a = pmem s !! a))).
  - intros j s' Hj (Hbm & Hz & Hf). apply wp_bind.
    rewrite Hbm in *. simpl in *.
    apply (st64_spec _ _ (p + 8 * j)).
    + split; [lia|]. split; [|unfold resolve; simpl; case_if; [lia | done]].
      rewrite Z.add_mod, (Z.mul_comm 8), Z.mod_mul, Hm by lia. done.
    + apply writable_usable; simpl; lia.
    + apply wp_ret. repeat split; simpl.
      * intros i Hi. destruct (decide (i = j)) as [->|].
        -- apply lookup_insert_eq.
        -- rewrite lookup_insert_ne by lia. apply Hz. lia.
      * intros a Ha. rewrite lookup_insert_ne by lia. apply Hf. lia.
  - intros s' (Hbm & Hz & Hf). apply wp_ret. rewrite Hbm.
    apply HQ; intros; [apply Hz | apply Hf]; lia.
  - split; [apply but_mem_refl|]. split; [lia | done].
Qed.

(** ** The placement allocator *)

Lemma land_low12 h : Z.land h 0xFFF = h mod 4096.
Proof. exact (Z.land_ones h 12 ltac:(lia)). Qed.

(** Clearing the low [k] bits of a 64-bit value. *)
Lemma land_clear_low h k : 0 <= k <= 64 -> 0 <= h < 2 ^ 64 ->
  Z.land h (Z.lxor (Z.ones k) (Z.ones 64)) = 2 ^ k * (h / 2 ^ k).
Proof.
  intros Hk Hh. transitivity (Z.ldiff h (Z.ones k)).
  - apply Z.bits_inj'. intros i Hi. rewrite Z.ldiff_spec, Z.land_spec, Z.lxor_spec.
    destruct (Z.lt_ge_cases i 64).
    + rewrite (Z.ones_spec_low 64) by lia. by destruct (Z.testbit (Z.ones k) i).
    + by rewrite (testbit_high h 64) by lia.
  - rewrite Z.ldiff_ones_r by lia. rewrite Z.shiftl_mul_pow2, Z.shiftr_div_pow2 by lia. lia.
Qed.

Lemma land_page h : 0 <= h < 18446744073709551616 -> Z.land h 0xFFFFFFFFFFFFF000 = 4096 * (h / 4096).
Proof. apply (land_clear_low h 12). lia. Qed.

Ltac div_lia := Z.to_euclidean_division_equations; lia.

(** The head rounded up to a page. *)
Definition page_up (h : Z) : Z := 4096 * ((h + 4095) / 4096).

Lemma page_up_bounds h : h <= page_up h < h + 4096.
Proof. unfold page_up. div_lia. Qed.
Lemma page_up_mod h : page_up h mod 4096 = 0.
Proof. unfold page_up. rewrite Z.mul_comm. apply Z.mod_mul. lia. Qed.

Lemma page_align_head_run s :
  0 <= phys_mem_head s -> phys_mem_head s + 4096 <= 18446744073709551616 ->
  page_align_head 1 s = Ret (tt, set_head (page_up (phys_mem_head s)) s).
Proof.
  intros H0 H1. unfold page_align_head, bind, gets, obind. rewrite land_low12.
  destruct (Z.eqb_spec (phys_mem_head s mod 4096) 0) as [Hz|Hz]; simpl.
  - unfold ret. do 2 f_equal. replace (page_up (phys_mem_head s)) with (phys_mem_head s)
      by (unfold page_up; div_lia). by destruct s.
  - unfold modify. do 3 f_equal. rewrite land_page by lia. unfold FRAME_SIZE.
    rewrite u64_small; unfold page_up; div_lia.
Qed.

Lemma kmalloc_a_spec s sz Q :
  0 <= phys_mem_head s -> 0 <= sz -> phys_mem_head s + 4096 + sz < 18446744073709551616 ->
  phys_mem_head s < USABLE_END_PHYS_MEM s ->
  Q (page_up (phys_mem_head s)) (set_head (page_up (phys_mem_head s) + sz) s) ->
  wp (kmalloc_a sz 1) Q s.
Proof.
  intros H0 Hsz Hov Hend HQ. pose proof (page_up_bounds (phys_mem_head s)).
  unfold kmalloc_a. mm_steps. case_if; [lia|]. apply wp_bind.
  unfold wp at 1. rewrite page_align_head_run by lia. mm_steps.
  simpl. rewrite u64_small by lia. exact HQ.
Qed.

(** A request to one of the placement allocators. *)
Inductive kreq :=
  | Kmalloc (sz : Z)
  | Kmalloc_a (sz : Z)
  | Kmalloc_ap (sz : Z) (phys : bool)
  | Kmalloc_aligned (sz : Z) (log_align : Z).

Definition kreq_size (r : kreq) : Z :=
  match r with Kmalloc sz | Kmalloc_a sz | Kmalloc_ap sz _ | Kmalloc_aligned sz _ => sz end.
Definition kreq_align (r : kreq) : Z :=
  match r with
  | Kmalloc _ => 1
  | Kmalloc_a _ | Kmalloc_ap _ _ => 4096
  | Kmalloc_aligned _ k => 2 ^ k
  end.
Definition kreq_ok (r : kreq) : Prop :=
  0 <= kreq_size r /\ match r with Kmalloc_aligned _ k => 0 <= k < 64 | _ => True end.

Definition krun (r : kreq) : M mm Z :=
  match r with
  | Kmalloc sz => kmalloc sz
  | Kmalloc_a sz => kmalloc_a sz 1
  | Kmalloc_ap sz phys => let! '(p, _) := kmalloc_ap sz 1 phys in ret p
  | Kmalloc_aligned sz k => kmalloc_aligned sz (2 ^ k)
  end.

Fixpoint kruns (rs : list kreq) : M mm (list Z) :=
  match rs with
  | [] => ret []
  | r :: rs => let! p := krun r in let! ps := kruns rs in ret (p :: ps)
  end.

(** What the allocators promise of the blocks [ps] they return for [rs] from
    the head [lo] on: every block starts at or after the end of the one
    before, on its alignment; NULL only past the usable end. *)
Fixpoint blocks_ok (end_ lo : Z) (rs : list kreq) (ps : list Z) (hi : Z) : Prop :=
  match rs, ps with
  | [], [] => lo = hi
  | r :: rs, p :: ps => exists mid,
      ((p = 0 /\ lo <= mid /\ end_ <= mid) \/
       (lo <= p < lo + kreq_align r /\ lo < end_ /\ p mod kreq_align r = 0 /\
        mid = p + kreq_size r)) /\
      blocks_ok end_ mid rs ps hi
  | _, _ => False
  end.

(** The most the head can move. *)
Fixpoint kreqs_room (rs : list kreq) : Z :=
  match rs with [] => 0 | r :: rs => kreq_size r + kreq_align r + kreqs_room rs end.

Lemma kreq_align_pos r : kreq_ok r -> 0 < kreq_align r.
Proof. intros [_ Hk]. destruct r; simpl; lia. Qed.

Lemma kreqs_room_pos rs : Forall kreq_ok rs -> 0 <= kreqs_room rs.
Proof.
  induction 1 as [|r rs Hr _ IH]; simpl; [lia|].
  pose proof (kreq_align_pos r Hr). destruct Hr. lia.
Qed.

(** One request. *)
Definition block_ok (s : mm) (r : kreq) (p : Z) (s' : mm) : Prop :=
  s' = set_head (phys_mem_head s') s /\
  ((p = 0 /\ phys_mem_head s <= phys_mem_head s' < phys_mem_head s + kreq_align r /\
    USABLE_END_PHYS_MEM s <= phys_mem_head s') \/
   (phys_mem_head s <= p < phys_mem_head s + kreq_align r /\
    phys_mem_head s < USABLE_END_PHYS_MEM s /\ p mod kreq_align r = 0 /\
    phys_mem_head s' = p + kreq_size r)).

Lemma set_head_same s : s = set_head (phys_mem_head s) s.
Proof. by destruct s. Qed.

Lemma kmalloc_aligned_spec s sz k :
  0 <= sz -> 0 <= k < 64 -> 0 <= phys_mem_head s ->
  phys_mem_head s + sz + 2 ^ k < 18446744073709551616 ->
  wp (kmalloc_aligned sz (2 ^ k)) (block_ok s (Kmalloc_aligned sz k)) s.
Proof.
  intros Hsz Hk H0 Hov. assert (0 < 2 ^ k) by (apply Z.pow_pos_nonneg; lia).
  assert (Hm : u64 (2 ^ k - 1) = Z.ones k)
    by (rewrite u64_small by lia; rewrite Z.ones_equiv; lia).
  unfold kmalloc_aligned, block_ok. mm_steps. case_if; mm_steps; simpl.
  - split; [apply set_head_same | left; lia].
  - rewrite Hm, Z.land_ones by lia. set (h := phys_mem_head s) in *.
    destruct (Z.eqb_spec (h mod 2 ^ k) 0) as [Hz|Hz]; simpl; mm_steps; simpl; fold h.
    + rewrite u64_small by lia. split; [done|]. right. lia.
    + rewrite (land_clear_low _ k) by (unwrap; lia). unwrap.
      pose proof (Z.div_mod (h + 2 ^ k - 1) (2 ^ k) ltac:(lia)) as He.
      pose proof (Z.mod_pos_bound (h + 2 ^ k - 1) (2 ^ k) ltac:(lia)).
      assert (Hd : h <= 2 ^ k * ((h + 2 ^ k - 1) / 2 ^ k) < h + 2 ^ k) by lia.
      unwrap. split; [done|]. right. repeat split; try lia.
      rewrite Z.mul_comm. apply Z.mod_mul. lia.
Qed.

Lemma krun_spec s r :
  kreq_ok r -> 0 <= phys_mem_head s ->
  phys_mem_head s + kreq_size r + kreq_align r < 18446744073709551616 ->
  wp (krun r) (block_ok s r) s.
Proof.
  intros [Hsz Hk] H0 Hov. pose proof (page_up_bounds (phys_mem_head s)).
  pose proof (page_up_mod (phys_mem_head s)).
  destruct r as [sz|sz|sz phys|sz k]; simpl in *; unfold block_ok.
  - unfold kmalloc. mm_steps. case_if; mm_steps; simpl.
    + split; [apply set_head_same | left; lia].
    + unwrap. split; [done|]. right. rewrite Z.mod_1_r. lia.
  - destruct (Z.lt_ge_cases (phys_mem_head s) (USABLE_END_PHYS_MEM s)).
    + apply kmalloc_a_spec; try lia. simpl. split; [done|]. right. lia.
    + unfold kmalloc_a. mm_steps. case_if; [|lia]. mm_steps. simpl.
      split; [apply set_head_same | left; lia].
  - unfold kmalloc_ap. mm_steps. unfold wp at 1. rewrite page_align_head_run by lia.
    mm_steps. case_if; mm_steps; simpl in *.
    + split; [done | left; lia].
    + unwrap. split; [done | right; lia].
  - by apply kmalloc_aligned_spec.
Qed.

(** The placement allocators never hand out memory twice: over every
    sequence of kmalloc, kmalloc_a, kmalloc_ap and kmalloc_aligned requests
    each block starts on its alignment at or after the end of the block
    before it, and NULL is returned only once the head has passed the usable
    memory.  (Only the start of a block is checked against that end.) *)
Theorem kmalloc_blocks s rs :
  Forall kreq_ok rs -> 0 <= phys_mem_head s ->
  phys_mem_head s + kreqs_room rs < 18446744073709551616 ->
  wp (kruns rs) (fun ps s' => s' = set_head (phys_mem_head s') s /\
    blocks_ok (USABLE_END_PHYS_MEM s) (phys_mem_head s) rs ps (phys_mem_head s')) s.
Proof.
  intros Hrs. revert s. induction Hrs as [|r rs Hr Hrs IH]; intros s H0 Hov.
  - apply wp_ret. split; [apply set_head_same | done].
  - simpl in *. pose proof (kreqs_room_pos rs Hrs). pose proof (kreq_align_pos r Hr).
    apply wp_bind. eapply wp_mono; [apply krun_spec; [done | done | lia]|].
    intros p s1 [Hs1 Hb]. apply wp_bind. destruct Hr as [Hsz Hk].
    eapply wp_mono; [apply IH; lia|].
    intros ps s2 [Hs2 Hbs]. apply wp_ret. rewrite Hs1 in Hs2. split; [done|].
    exists (phys_mem_head s1). rewrite Hs1 in Hbs at 1. simpl in Hbs. split; [|done].
    destruct Hb; [left | right]; lia.
Qed.

(** ** The frame bitmap *)

(** Frames [set_frame] can mark: its 32-bit shift reaches offsets 0 to 31 of
    a word, and at offset 31 its sign extension marks 32 to 63 as well. *)
Definition markable (n : Z) : bool := n mod 64 <? 32.

(** [w] is the word of the frames from [b] on. *)
Definition word_rep (used : Z -> bool) (b w : Z) : Prop :=
  0 <= w < 2 ^ 64 /\
  (forall o, 0 <= o < 32 -> Z.testbit w o = used (b + o)) /\
  exists high, (forall o, 32 <= o < 64 -> Z.testbit w o = high) /\
    (used (b + 31) = true -> high = true).

Definition last_word (s : mm) : Z := (nframes s - 1) / 64.

Record pmm_rep (s : mm) (used : Z -> bool) : Prop := {
  pr_n : 0 < nframes s < 2 ^ 52;
  pr_frames : 0 < frames s /\ frames s mod 8 = 0 /\
    frames s + 8 * (last_word s + 1) <= HHDM_OFFSET s;
  pr_words : forall i, 0 <= i <= last_word s -> exists w,
    pmem s !! (frames s + 8 * i) = Some w /\ word_rep used (64 * i) w;
  pr_out : forall n, nframes s <= n -> used n = false
}.

(** The frames an allocation can get, in the order it takes them. *)
Definition free_frames (s : mm) (used : Z -> bool) : list Z :=
  filter (fun n => markable n = true /\ used n = false) (seqZ 0 (nframes s)).

Definition bupd (used : Z -> bool) (n : Z) (v : bool) : Z -> bool :=
  fun k => if k =? n then v else used k.

Lemma bupd_eq used n v : bupd used n v n = v.
Proof. unfold bupd. by rewrite Z.eqb_refl. Qed.
Lemma bupd_ne used n v k : k <> n -> bupd used n v k = used k.
Proof. intros. unfold bupd. case_if; [lia | done]. Qed.

Lemma mod8_add p i : p mod 8 = 0 -> (p + 8 * i) mod 8 = 0.
Proof. intros Hm. rewrite Z.mul_comm, Z.mod_add by lia. done. Qed.

Lemma all_ones w : 0 <= w < 2 ^ 64 -> (forall o, 0 <= o < 64 -> Z.testbit w o = true) ->
  w = 0xFFFFFFFFFFFFFFFF.
Proof.
  intros Hw Ho. apply Z.bits_inj'. intros i Hi. change 0xFFFFFFFFFFFFFFFF with (Z.ones 64).
  destruct (Z.lt_ge_cases i 64).
  - rewrite Ho, Z.ones_spec_low by lia. done.
  - rewrite Z.ones_spec_high, (testbit_high w 64) by lia. done.
Qed.

(** The first clear bit of a word is one of the low 32. *)
Lemma first_clear_low used b w o :
  word_rep used b w -> 0 <= o < 64 -> Z.testbit w o = false ->
  (forall i, 0 <= i < o -> Z.testbit w i = true) -> o < 32.
Proof.
  intros (_ & Hlow & high & Hhigh & H31) Ho Hc Hb.
  destruct (Z.lt_ge_cases o 32); [done|].
  rewrite <- Hlow, Hb in H31 by lia. rewrite Hhigh, H31 in Hc by lia. done.
Qed.

Section bitmap.
Context (s : mm) (used : Z -> bool) (Hrep : pmm_rep s used).

Lemma frames_points i : 0 <= i <= last_word s -> points s (frames s + 8 * i) (frames s + 8 * i).
Proof.
  intros Hi. destruct (pr_frames _ _ Hrep) as (Hf & Hm & Hh).
  split; [lia|]. split; [by apply mod8_add|]. unfold resolve. case_if; lia.
Qed.

Lemma ld_frames_spec i w Q :
  0 <= i <= last_word s -> pmem s !! (frames s + 8 * i) = Some w -> Q w s ->
  wp (ld_frames i) Q s.
Proof.
  intros Hi Hw HQ. unfold ld_frames. destruct (pr_frames _ _ Hrep) as (Hf & _).
  mm_steps; [apply negb_true_iff, Z.eqb_neq; lia|].
  by apply (ld64_spec _ _ (frames s + 8 * i) w); [apply frames_points| |].
Qed.

Lemma st_frames_spec i v Q :
  0 <= i <= last_word s -> Q tt (set_pmem (<[frames s + 8 * i := v]> (pmem s)) s) ->
  wp (st_frames i v) Q s.
Proof.
  intros Hi HQ. unfold st_frames. destruct (pr_frames _ _ Hrep) as (Hf & _).
  destruct (pr_words _ _ Hrep i Hi) as (w & Hw & _).
  mm_steps; [apply negb_true_iff, Z.eqb_neq; lia|].
  apply (st64_spec _ _ (frames s + 8 * i)); [by apply frames_points | by eapply writable_known | done].
Qed.

(** What the scan of one word finds. *)
Lemma scan_word_spec i Q :
  0 <= i <= last_word s ->
  ((forall o, 0 <= o < 32 -> used (64 * i + o) = true) -> Q None s) ->
  (forall o, 0 <= o < 32 -> used (64 * i + o) = false ->
     (forall k, 0 <= k < o -> used (64 * i + k) = true) -> Q (Some (64 * i + o)) s) ->
  wp (scan_word i) Q s.
Proof.
  intros Hi Hfull Hfree. destruct (pr_words _ _ Hrep i Hi) as (w & Hw & Hwr).
  pose proof Hwr as (Hrange & Hlow & _).
  unfold scan_word. apply wp_bind. apply (ld_frames_spec i w); [done | done|].
  case_if.
  { apply wp_ret, Hfull. intros o Ho. rewrite <- Hlow, Hb by done.
    change 0xFFFFFFFFFFFFFFFF with (Z.ones 64). apply Z.ones_spec_low. lia. }
  apply (wp_for (fun j s' => s' = s /\ forall o, 0 <= o < j -> Z.testbit w o = true)).
  - intros j s' Hj (-> & Hset). apply wp_bind. apply (ld_frames_spec i w); [done | done|].
    apply wp_ret. rewrite land_bit by lia. destruct (Z.testbit w j) eqn:Hjb; simpl.
    + split; [done|]. intros o Ho. destruct (decide (o = j)) as [->|]; [done | apply Hset; lia].
    + unfold BITMAP_SIZE. rewrite (Z.mul_comm i).
      assert (j < 32) by (eapply first_clear_low; [done | lia | done | done]).
      apply Hfree; [lia | by rewrite <- Hlow by lia|].
      intros k Hk. rewrite <- Hlow by lia. by apply Hset.
  - intros s' (-> & Hset). destruct Hb. apply all_ones; [done|]. intros o Ho. apply Hset. lia.
  - split; [done | lia].
Qed.

Lemma last_word_count : Z.to_nat (u64 (nframes s - 1) / BITMAP_SIZE + 1) = Z.to_nat (last_word s + 1).
Proof. destruct (pr_n _ _ Hrep). unwrap. done. Qed.

(** The scan finds the first markable free frame of the bitmap, which may lie
    past [nframes] in its last word. *)
Lemma scan_frames_spec Q :
  ((forall n, 0 <= n < nframes s -> markable n = true -> used n = true) -> Q None s) ->
  (forall n, 0 <= n < 2 ^ 53 -> markable n = true -> used n = false ->
     (forall k, 0 <= k < n -> markable k = true -> used k = true) -> Q (Some n) s) ->
  wp scan_frames Q s.
Proof.
  intros Hfull Hfree. destruct (pr_n _ _ Hrep) as [Hn0 Hn].
  assert (0 <= last_word s < 2 ^ 46) by (unfold last_word; div_lia).
  unfold scan_frames. apply wp_bind, wp_gets. rewrite last_word_count.
  apply (wp_for (fun j s' => s' = s /\ forall n, 0 <= n < 64 * j -> markable n = true -> used n = true)).
  - intros j s' Hj (-> & Hset). apply scan_word_spec; [lia| |].
    + intros Hall. split; [done|]. intros n Hr Hm. destruct (Z.lt_ge_cases n (64 * j)).
      * apply Hset; [lia | done].
      * unfold markable in Hm. apply Z.ltb_lt in Hm.
        replace n with (64 * j + n mod 64) by div_lia. apply Hall. div_lia.
    + intros o Ho Hu Hbelow. apply Hfree; [lia| |done|].
      * unfold markable. apply Z.ltb_lt. div_lia.
      * intros k Hk Hm. destruct (Z.lt_ge_cases k (64 * j)); [apply Hset; [lia | done]|].
        replace k with (64 * j + (k - 64 * j)) by lia. apply Hbelow. lia.
  - intros s' (-> & Hset). apply Hfull. intros n Hr. apply Hset. unfold last_word. div_lia.
  - split; [done | lia].
Qed.
End bitmap.

Lemma free_frames_head s used n :
  0 <= n < nframes s -> markable n = true -> used n = false ->
  (forall k, 0 <= k < n -> markable k = true -> used k = true) ->
  exists rest, free_frames s used = n :: rest.
Proof.
  intros Hn Hm Hu Hb. unfold free_frames.
  replace (nframes s) with (n + (1 + (nframes s - n - 1))) by lia.
  rewrite seqZ_app by lia. rewrite filter_app, filter_none.
  - rewrite seqZ_cons, filter_cons_True by (done || lia). eexists. rewrite Z.add_0_l. reflexivity.
  - intros k Hk [Hmk Huk]. apply elem_of_seqZ in Hk. rewrite Hb in Huk by (lia || done). done.
Qed.

Lemma free_frames_none s used :
  (forall n, 0 <= n < nframes s -> markable n = true -> used n = true) -> free_frames s used = [].
Proof.
  intros Hall. apply filter_none. intros n Hn [Hm Hu]. apply elem_of_seqZ in Hn.
  rewrite Hall in Hu by (lia || done). done.
Qed.

(** free_frame_bit_no returns the first free frame and halts when there is
    none. *)
Lemma free_frame_bit_no_run s used : pmm_rep s used ->
  free_frame_bit_no s =
    match head (free_frames s used) with Some n => Ret (n, s) | None => Halted end.
Proof.
  intros Hrep. destruct (pr_n _ _ Hrep) as [Hn0 Hn].
  pose proof (scan_frames_spec s used Hrep (fun r s' => s' = s /\
    (s64 (default (-1) r) = default (-1) r) /\
    if u64 (default (-1) r) <? nframes s
    then head (free_frames s used) = Some (default (-1) r)
    else free_frames s used = [])) as Hscan.
  apply wp_run in Hscan.
  - destruct Hscan as (r & s' & Hr & -> & Hs & Hc).
    unfold free_frame_bit_no, bind. rewrite Hr. simpl. rewrite Hs.
    destruct (u64 (default (-1) r) <? nframes s); rewrite Hc; done.
  - intros Hall. split; [done|]. split; [done|]. simpl.
    change (u64 (-1)) with 18446744073709551615. case_if; [lia|]. by apply free_frames_none.
  - intros n Hr Hm Hu Hb. split; [done|]. simpl. split.
    { unfold s64. rewrite Z.mod_small; lia. }
    unwrap. case_if.
    + destruct (free_frames_head s used n) as [rest ->]; done || lia.
    + apply free_frames_none. intros k Hk Hmk. apply Hb; [lia | done].
Qed.

Lemma bit_lor w o i : 0 <= o -> 0 <= i ->
  Z.testbit (Z.lor w (Z.shiftl 1 o)) i = (i =? o) || Z.testbit w i.
Proof.
  intros. rewrite Z.lor_spec, Z.shiftl_1_l, Z.pow2_bits_eqb by lia.
  rewrite orb_comm. by rewrite Z.eqb_sym.
Qed.

(** Marking a frame in its word. *)
Lemma mark_word used b w o one :
  word_rep used b w -> 0 <= o < 32 -> int_one_shl o = Ret one ->
  word_rep (bupd used (b + o) true) b (Z.lor w (u64 one)).
Proof.
  intros (Hr & Hlow & high & Hhigh & H31) Ho. unfold int_one_shl. case_if; [|case_if; [|lia]];
    intros [= <-].
  - assert (0 <= Z.shiftl 1 o < 2 ^ 31).
    { rewrite Z.shiftl_1_l. split; [apply Z.pow_nonneg; lia | apply Z.pow_lt_mono_r; lia]. }
    rewrite u64_small by lia. split; [apply lor_range; lia|]. split; [|exists high; split].
    + intros i Hi. rewrite bit_lor by lia. unfold bupd. rewrite Hlow by lia.
      destruct (Z.eqb_spec i o) as [->|]; [by rewrite Z.eqb_refl|]. case_if; [lia | done].
    + intros i Hi. rewrite bit_lor, Hhigh by lia. destruct (Z.eqb_spec i o); [lia | done].
    + rewrite bupd_ne by lia. done.
  - subst o. change (u64 (-2147483648)) with (Z.shiftl (Z.ones 33) 31).
    assert (Hbits : forall i, 0 <= i < 64 ->
      Z.testbit (Z.lor w (Z.shiftl (Z.ones 33) 31)) i = (31 <=? i) || Z.testbit w i).
    { intros i Hi. rewrite Z.lor_spec, Z.shiftl_spec by lia. rewrite orb_comm. f_equal.
      destruct (Z.leb_spec 31 i); [|rewrite Z.testbit_neg_r by lia; done].
      rewrite Z.ones_spec_low by lia. done. }
    split; [apply lor_range; done || lia|]. split; [|exists true; split; [|done]].
    + intros i Hi. rewrite Hbits, Hlow by lia. unfold bupd.
      destruct (Z.leb_spec 31 i); simpl.
      * replace i with 31 by lia. by rewrite Z.eqb_refl.
      * case_if; [lia | done].
    + intros i Hi. rewrite Hbits by lia. destruct (Z.leb_spec 31 i); [done | lia].
Qed.

(** Clearing a frame in its word. *)
Lemma clear_word used b w o :
  word_rep used b w -> 0 <= o < 32 ->
  word_rep (bupd used (b + o) false) b (Z.land w (Z.lxor (Z.shiftl 1 o) 0xFFFFFFFFFFFFFFFF)).
Proof.
  intros (Hr & Hlow & high & Hhigh & H31) Ho. change 0xFFFFFFFFFFFFFFFF with (Z.ones 64).
  assert (Hb : forall i, 0 <= i < 64 ->
    Z.testbit (Z.land w (Z.lxor (Z.shiftl 1 o) (Z.ones 64))) i = negb (i =? o) && Z.testbit w i).
  { intros i Hi. rewrite Z.land_spec, Z.lxor_spec, Z.shiftl_1_l, Z.pow2_bits_eqb by lia.
    rewrite Z.ones_spec_low by lia. rewrite andb_comm, (Z.eqb_sym o). by destruct (i =? o). }
  split.
  - rewrite Z.land_comm. apply land_range_r; lia.
  - split; [|exists high; split].
    + intros i Hi. rewrite Hb, Hlow by lia. unfold bupd.
      destruct (Z.eqb_spec i o) as [->|]; [by rewrite Z.eqb_refl|]. case_if; [lia | done].
    + intros i Hi. rewrite Hb, Hhigh by lia. destruct (Z.eqb_spec i o); [lia | done].
    + unfold bupd. case_if; [done | exact H31].
Qed.

Lemma other_word used n v i w :
  n / 64 <> i -> word_rep used (64 * i) w -> word_rep (bupd used n v) (64 * i) w.
Proof.
  intros Hne (Hr & Hlow & high & Hhigh & H31). split; [done|]. split.
  - intros o Ho. rewrite bupd_ne by div_lia. by apply Hlow.
  - exists high. rewrite bupd_ne by div_lia. done.
Qed.

(** Replacing the word of frame [n] by one that represents it as [v]. *)
Lemma pmm_rep_update s used n v w' h :
  pmm_rep s used -> 0 <= n < nframes s ->
  word_rep (bupd used n v) (64 * (n / 64)) w' ->
  pmm_rep (set_head h (set_pmem (<[frames s + 8 * (n / 64) := w']> (pmem s)) s)) (bupd used n v).
Proof.
  intros [Hn Hf Hw Ho] Hr Hw'. split; try done.
  - simpl. intros i Hi. destruct (decide (n / 64 = i)) as [<-|Hne].
    + exists w'. by rewrite lookup_insert_eq.
    + destruct (Hw i Hi) as (w & Hl & Hwr). exists w.
      rewrite lookup_insert_ne by lia. split; [done | by apply other_word].
  - simpl. intros k Hk. rewrite bupd_ne by lia. by apply Ho.
Qed.

Lemma frame_index s n : 0 <= n < nframes s -> 0 <= n / 64 <= last_word s.
Proof. intros. unfold last_word. split; [div_lia | apply Z.div_le_mono; lia]. Qed.

Lemma set_frame_spec s used n Q :
  pmm_rep s used -> 0 <= n < nframes s -> markable n = true ->
  (forall w', let s' := set_head (u64 (phys_mem_head s + 4096))
       (set_pmem (<[frames s + 8 * (n / 64) := w']> (pmem s)) s) in
     pmm_rep s' (bupd used n true) -> Q tt s') ->
  wp (set_frame n) Q s.
Proof.
  intros Hrep Hn Hm HQ. apply Z.ltb_lt in Hm. pose proof (frame_index s n Hn) as Hi.
  destruct (pr_words _ _ Hrep _ Hi) as (w & Hw & Hwr).
  assert (Ho : 0 <= n mod 64 < 32) by (pose proof (Z.mod_pos_bound n 64); lia).
  destruct (int_one_shl (n mod 64)) as [one| | |] eqn:H1;
    try (unfold int_one_shl in H1; repeat case_match; bool_to_prop; done || lia).
  unfold set_frame. mm_steps. case_if; [lia|]. unfold BITMAP_SIZE. rewrite H1.
  apply wp_bind. simpl. unfold lift, wp at 1. simpl. apply wp_bind.
  apply (ld_frames_spec s used Hrep _ w); [done | done|]. apply wp_bind.
  apply (st_frames_spec s used Hrep); [done|]. apply wp_modify. simpl.
  apply HQ. apply pmm_rep_update; [done | done|].
  replace n with (64 * (n / 64) + n mod 64) at 1 by div_lia. by apply mark_word.
Qed.

Lemma clear_frame_spec s used n Q :
  pmm_rep s used -> 0 <= n < nframes s -> markable n = true ->
  (forall w', let s' := set_pmem (<[frames s + 8 * (n / 64) := w']> (pmem s)) s in
     pmm_rep s' (bupd used n false) -> Q tt s') ->
  wp (clear_frame n) Q s.
Proof.
  intros Hrep Hn Hm HQ. apply Z.ltb_lt in Hm. pose proof (frame_index s n Hn) as Hi.
  destruct (pr_words _ _ Hrep _ Hi) as (w & Hw & Hwr).
  assert (Ho : 0 <= n mod 64 < 32) by (pose proof (Z.mod_pos_bound n 64); lia).
  destruct (pr_frames _ _ Hrep) as (Hf & _).
  unfold clear_frame. mm_steps. case_if; [lia|]. mm_steps. case_if; [lia|]. apply wp_bind.
  unfold BITMAP_SIZE. apply (ld_frames_spec s used Hrep _ w); [done | done|].
  apply (st_frames_spec s used Hrep); [done|]. apply HQ.
  pose proof (pmm_rep_update s used n false
    (Z.land w (Z.lxor (Z.shiftl 1 (n mod 64)) 0xFFFFFFFFFFFFFFFF)) (phys_mem_head s) Hrep Hn) as Hu.
  apply Hu. replace n with (64 * (n / 64) + n mod 64) at 1 by div_lia. by apply clear_word.
Qed.

Lemma test_frame_run s used n :
  pmm_rep s used -> 0 <= n < nframes s -> markable n = true ->
  exists r, test_frame n s = Ret (r, s) /\ (r =? 0) = negb (used n).
Proof.
  intros Hrep Hn Hm. apply Z.ltb_lt in Hm. pose proof (frame_index s n Hn) as Hi.
  destruct (pr_words _ _ Hrep _ Hi) as (w & Hw & _ & Hlow & _).
  assert (Ho : 0 <= n mod 64 < 32) by (pose proof (Z.mod_pos_bound n 64); lia).
  assert (Ht : wp (test_frame n) (fun r s' => s' = s /\ (r =? 0) = negb (used n)) s).
  { unfold test_frame. mm_steps. case_if; [lia|]. apply wp_bind.
    apply (ld_frames_spec s used Hrep _ w); [done | done|]. apply wp_ret. split; [done|].
    unfold BITMAP_SIZE. rewrite land_bit, Hlow by lia. do 2 f_equal. div_lia. }
  apply wp_run in Ht as (r & s' & Hr & -> & He). by exists r.
Qed.

(** ** Start-up *)

Lemma pick_usable_spec entries a l z :
  let r := foldl pick_usable (a, l, z) entries in
  l <= r.1.2 /\
  (forall e, e ∈ entries -> type_ e = LIMINE_MEMMAP_USABLE -> length_ e <= r.1.2) /\
  (r = (a, l, z) \/ exists e, e ∈ entries /\ type_ e = LIMINE_MEMMAP_USABLE /\
     r = (base e, length_ e, u64 (base e + length_ e))).
Proof.
  revert a l z. induction entries as [|e es IH]; intros a l z; simpl.
  { split; [lia|]. split; [|by left]. intros e He. by apply elem_of_nil in He. }
  destruct ((type_ e =? LIMINE_MEMMAP_USABLE) && (l <? length_ e)) eqn:Hc; bool_to_prop.
  - destruct (IH (base e) (length_ e) (u64 (base e + length_ e))) as (Hl & Hall & Hr).
    split; [lia|]. split.
    + intros e' [->|He']%elem_of_cons Ht; [done | by apply Hall].
    + right. destruct Hr as [Hr|(e' & He' & Ht & Hr)].
      * exists e. split; [by left | done].
      * exists e'. split; [by right | done].
  - destruct (IH a l z) as (Hl & Hall & Hr). split; [done|]. split.
    + intros e' [->|He']%elem_of_cons Ht; [|by apply Hall].
      rewrite Ht, Z.eqb_refl in Hc. simpl in Hc. apply Z.ltb_ge in Hc. lia.
    + destruct Hr as [Hr|(e' & He' & Ht & Hr)]; [by left|]. right. exists e'. split; [by right | done].
Qed.

(** The physical address of a frame (BIT_NO_TO_ADDR). *)
Definition BIT_NO_TO_ADDR (s : mm) (bit_no : Z) : Z :=
  USABLE_START_PHYS_MEM s + bit_no * FRAME_SIZE.

Definition bitmap_bytes (n : Z) : Z := 8 * (n + 63) / 64.

Lemma init_pmm_spec s Q :
  let n := USABLE_LENGTH_PHYS_MEM s / 4096 in
  0 < n < 2 ^ 50 -> 0 < phys_mem_head s -> phys_mem_head s mod 4096 = 0 ->
  USABLE_START_PHYS_MEM s <= phys_mem_head s ->
  phys_mem_head s + bitmap_bytes n <= USABLE_END_PHYS_MEM s ->
  USABLE_END_PHYS_MEM s <= HHDM_OFFSET s < 18446744073709551616 - 4096 ->
  (forall m', let s' := set_head (phys_mem_head s + bitmap_bytes n)
       (set_frames (phys_mem_head s) n (set_pmem m' s)) in
     pmm_rep s' (fun _ => false) -> Q tt s') ->
  wp init_pmm Q s.
Proof.
  intros n Hn Hh0 Hal Hst Hend Hhh HQ. unfold init_pmm.
  assert (Hb : u64 (8 * u64 (n + 63)) / BITMAP_SIZE = bitmap_bytes n)
    by (unfold bitmap_bytes, BITMAP_SIZE; unwrap; done).
  assert (0 < bitmap_bytes n < 2 ^ 50) by (unfold bitmap_bytes; div_lia).
  assert (Hw : bitmap_bytes n / 8 = (n - 1) / 64 + 1) by (unfold bitmap_bytes; div_lia).
  assert (8 * (bitmap_bytes n / 8) <= bitmap_bytes n) by div_lia.
  assert (Hpu : page_up (phys_mem_head s) = phys_mem_head s) by (unfold page_up; div_lia).
  mm_steps. unfold FRAME_SIZE. fold n. rewrite Hb.
  apply kmalloc_a_spec; try lia. rewrite Hpu. mm_steps. case_if; [lia|].
  apply zero_words_spec; simpl; try lia; [div_lia..|].
  intros m' Hz _. apply HQ. split; simpl; try done; unfold last_word; simpl.
  - lia.
  - rewrite <- Hw. split; [lia|]. split; [div_lia | lia].
  - intros i Hi. exists 0. rewrite Hz by (rewrite Hw; lia). split; [done|].
    split; [done|]. split; [intros; apply Z.bits_0|]. exists false.
    split; [intros; apply Z.bits_0 | done].
Qed.

(** Start-up: set_usable_mem takes a longest usable region of the memory
    map, and init_pmm places the frame bitmap, all frames free, at its start.
    Frame 0 starts at the same address: the first frame the allocator hands
    out is the one that holds the bitmap itself. *)
Theorem pmm_boot s entries e0 :
  USABLE_LENGTH_PHYS_MEM s = 0 -> e0 ∈ entries -> type_ e0 = LIMINE_MEMMAP_USABLE ->
  65536 <= length_ e0 ->
  (forall e, e ∈ entries -> type_ e = LIMINE_MEMMAP_USABLE ->
     0 < base e /\ base e mod 4096 = 0 /\ length_ e < 2 ^ 50 /\
     base e + length_ e <= HHDM_OFFSET s) ->
  HHDM_OFFSET s < 18446744073709551616 - 4096 ->
  wp (set_usable_mem (Some entries) ;;; init_pmm) (fun _ s' => exists e,
    e ∈ entries /\ type_ e = LIMINE_MEMMAP_USABLE /\
    (forall e', e' ∈ entries -> type_ e' = LIMINE_MEMMAP_USABLE -> length_ e' <= length_ e) /\
    USABLE_START_PHYS_MEM s' = base e /\ USABLE_END_PHYS_MEM s' = base e + length_ e /\
    nframes s' = length_ e / 4096 /\ pmm_rep s' (fun _ => false) /\
    free_frame_bit_no s' = Ret (0, s') /\ BIT_NO_TO_ADDR s' 0 = frames s') s.
Proof.
  intros Hl0 He0 Ht0 Hlen Hall Hhh. unfold set_usable_mem. mm_steps.
  pose proof (pick_usable_spec entries (USABLE_START_PHYS_MEM s) (USABLE_LENGTH_PHYS_MEM s)
    (USABLE_END_PHYS_MEM s)) as Hp. simpl in Hp.
  destruct (foldl _ _ _) as [[a l] z]. simpl in Hp.
  destruct Hp as (_ & Hmax & [Hr|(e & He & Ht & Hr)]); simplify_eq.
  { pose proof (Hmax e0 He0 Ht0). lia. }
  pose proof (Hmax e0 He0 Ht0). destruct (Hall e He Ht) as (Hb0 & Hbm & Hlb & Hle).
  assert (Ha : Z.land (base e) 0xFFFFFFFFFFFFF000 = base e)
    by (rewrite land_page by lia; div_lia).
  mm_steps. rewrite Ha. replace (u64 _) with (base e + length_ e) by (unwrap; lia).
  assert (0 < length_ e / 4096 < 2 ^ 50) by div_lia.
  assert (base e + bitmap_bytes (length_ e / 4096) <= base e + length_ e)
    by (unfold bitmap_bytes; div_lia).
  assert (Hlu : u64 (base e + length_ e - base e) = length_ e) by (unwrap; lia).
  apply init_pmm_spec; [simpl; rewrite ?Hlu; done || lia..|].
  simpl USABLE_LENGTH_PHYS_MEM. rewrite Hlu. intros m' s' Hrep. exists e.
  assert (Hf : exists rest, free_frames s' (fun _ => false) = 0 :: rest)
    by (apply free_frames_head; simpl; done || lia).
  destruct Hf as [rest Hf]. split_and!; try done.
  - rewrite (free_frame_bit_no_run _ _ Hrep), Hf. done.
  - unfold BIT_NO_TO_ADDR. simpl. lia.
Qed.

(** A machine with 256 KiB of usable memory at 1 MiB. *)
Module SmallMachine.
Definition hhdm : Z := 0xFFFF800000000000.
Definition map : list memmap_entry :=
  [{| base := 0; length_ := 0x9000; type_ := 1 |};
   {| base := 0x1000; length_ := 0x8000; type_ := 0 |};
   {| base := 0x100000; length_ := 0x40000; type_ := 0 |}].
Definition s0 : mm := mk_mm ∅ 0 0 0 0 0 0 0 hhdm 0 0 0.

Lemma pmm_boot_witness :
  wp (set_usable_mem (Some map) ;;; init_pmm) (fun _ s' => exists e,
    e ∈ map /\ type_ e = LIMINE_MEMMAP_USABLE /\
    (forall e', e' ∈ map -> type_ e' = LIMINE_MEMMAP_USABLE -> length_ e' <= length_ e) /\
    USABLE_START_PHYS_MEM s' = base e /\ USABLE_END_PHYS_MEM s' = base e + length_ e /\
    nframes s' = length_ e / 4096 /\ pmm_rep s' (fun _ => false) /\
    free_frame_bit_no s' = Ret (0, s') /\ BIT_NO_TO_ADDR s' 0 = frames s') s0.
Proof.
  apply (pmm_boot s0 map {| base := 0x100000; length_ := 0x40000; type_ := 0 |}).
  - reflexivity.
  - unfold map. set_solver.
  - reflexivity.
  - simpl. lia.
  - intros e He Ht. unfold map in He. unfold LIMINE_MEMMAP_USABLE in Ht. simpl HHDM_OFFSET.
    repeat (apply elem_of_cons in He as [->|He]; [first [discriminate | split_and!; by vm_compute]|]).
    by apply elem_of_nil in He.
  - simpl. unfold hhdm. lia.
Defined.

Lemma kmalloc_blocks_witness :
  let rs := [Kmalloc 24; Kmalloc_a 4096; Kmalloc_aligned 100 8; Kmalloc_ap 8 true] in
  let s := set_usable 0x100000 0x140000 0x40000 (set_head 0x100010 s0) in
  wp (kruns rs) (fun ps s' => s' = set_head (phys_mem_head s') s /\
    blocks_ok (USABLE_END_PHYS_MEM s) (phys_mem_head s) rs ps (phys_mem_head s')) s /\
  (kruns rs s = Ret ([0x100010; 0x101000; 0x102000; 0x103000],
                     set_head 0x103008 s)).
Proof.
  split; [|reflexivity]. apply kmalloc_blocks; simpl; try lia.
  repeat (apply Forall_cons; split; [split; simpl; lia|]). by apply Forall_nil.
Defined.
End SmallMachine.
