(* ===== verification/Paging.v ===== *)
(** Page tables and virtual memory (kernel/src/memory: paging.c, vmm.c,
    kheap.c, uheap.c).

    Page-table entries are words of the physical memory of [mm]; a field
    access is a read or read-modify-write of the bits of paging.h.  The TLB is
    not modelled: translation is by the walk of the current tables. *)
From S2P Require Import Prelude Pmm.

(** ** Bit fields of entries *)

Definition get_bits (pos width w : Z) : Z := Z.land (Z.shiftr w pos) (Z.ones width).
Definition set_bits (pos width v w : Z) : Z :=
  Z.lor (Z.land w (Z.lxor (Z.shiftl (Z.ones width) pos) 0xFFFFFFFFFFFFFFFF))
    (Z.shiftl (Z.land v (Z.ones width)) pos).

(** Fields of [dir_entry_t] and [page_t]: position and width. *)
Inductive field := present | rw | user | frame | nx.
Definition field_pos (f : field) : Z :=
  match f with present => 0 | rw => 1 | user => 2 | frame => 12 | nx => 63 end.
Definition field_width (f : field) : Z := match f with frame => 40 | _ => 1 end.

Definition fget (f : field) (w : Z) : Z := get_bits (field_pos f) (field_width f) w.
Definition fset (f : field) (v w : Z) : Z := set_bits (field_pos f) (field_width f) v w.

Definition ld_field (p : Z) (f : field) : M mm Z := let! w := ld64 p in ret (fget f w).
Definition st_field (p : Z) (f : field) (v : Z) : M mm unit :=
  let! w := ld64 p in st64 p (fset f v w).

(** [e->base_addr << 12] without a cast: gcc gives the shift the 40 bits of
    the field. *)
Definition shl_field (v : Z) : Z := Z.land (Z.shiftl v 12) (Z.ones 40).

Definition PAGE_SIZE : Z := 4096.
Definition PAGE_PRESENT : Z := 1.
Definition PAGE_WRITE : Z := 2.
Definition PAGE_USER : Z := 4.
Definition PML4_INDEX (va : Z) : Z := Z.land (Z.shiftr va 39) 0x1FF.
Definition PDPT_INDEX (va : Z) : Z := Z.land (Z.shiftr va 30) 0x1FF.
Definition PD_INDEX (va : Z) : Z := Z.land (Z.shiftr va 21) 0x1FF.
Definition PT_INDEX (va : Z) : Z := Z.land (Z.shiftr va 12) 0x1FF.

Definition LOWER_HALF_START_ADDR : Z := 0x1000.
Definition LOWER_HALF_END_ADDR : Z := 0x00007FFFFFFFFFFF.
Definition HIGHER_HALF_START_ADDR : Z := 0xFFFF800000001000.
Definition HIGHER_HALF_END_ADDR : Z := 0xFFFFFFFFFFFFFFFF.

(** ** vmm.c: addresses *)

Definition is_user_virt_addr (va : Z) : bool :=
  (LOWER_HALF_START_ADDR <=? va) && (va <? HIGHER_HALF_START_ADDR).
Definition is_kernel_virt_addr (va : Z) : bool := HIGHER_HALF_START_ADDR <=? va.

Definition phys_to_vir (pa : Z) : M mm Z :=
  let! off := gets HHDM_OFFSET in ret (u64 (pa + off)).

Definition vir_to_phys (va : Z) : M mm Z :=
  let! off := gets HHDM_OFFSET in
  if va =? 0 then ret 0 else
  if va <=? off then ret 0 else
  ret (u64 (va - off)).

Definition is_phys_addr (addr : Z) : M mm bool := let! off := gets HHDM_OFFSET in ret (addr <? off).
Definition is_virt_addr (addr : Z) : M mm bool := let! off := gets HHDM_OFFSET in ret (negb (addr <? off)).

(** ** paging.c: frames *)

Definition alloc_frame (page usr is_writeable : Z) : M mm unit :=
  let! bit_no := free_frame_bit_no in
  if u64 bit_no =? 0xFFFFFFFFFFFFFFFF then halt else
  set_frame bit_no ;;;
  st_field page present 1 ;;;
  st_field page rw is_writeable ;;;
  st_field page user usr ;;;
  let! start := gets USABLE_START_PHYS_MEM in
  st_field page frame (Z.shiftr (u64 (start + u64 (bit_no * FRAME_SIZE))) 12).

Definition PHYS_ADDR_TO_BIT_NO (s : mm) (phy_addr : Z) : Z :=
  if phy_addr <=? USABLE_START_PHYS_MEM s then 0
  else (phy_addr - USABLE_START_PHYS_MEM s) / FRAME_SIZE.

Definition free_frame (page : Z) : M mm unit :=
  let! f := ld_field page frame in
  if f =? 0 then ret tt else
  let frame_addr := u64 (Z.shiftl f 12) in
  let! s := get in
  if USABLE_END_PHYS_MEM s <=? frame_addr then st_field page frame 0 else
  clear_frame (PHYS_ADDR_TO_BIT_NO s frame_addr) ;;;
  st_field page frame 0.

(** ** paging.c: tables *)

Definition alloc_page : M mm Z :=
  let! pg := kmalloc_a 8 1 in
  if pg =? 0 then ret 0 else zero_words pg 1 ;;; ret pg.

(** alloc_pt, alloc_pd and alloc_pdpt are the same code. *)
Definition alloc_pt : M mm Z :=
  let! t := kmalloc_a 4096 1 in
  if t =? 0 then ret 0 else zero_words t 512 ;;; ret t.
Definition alloc_pd : M mm Z := alloc_pt.
Definition alloc_pdpt : M mm Z := alloc_pt.

(** A level of get_page: the table behind the entry [e], made when the entry
    is not present; [None] where the source returns NULL. *)
Definition descend (make usr : Z) (alloc : M mm Z) (e : Z) : M mm (option Z) :=
  let! p := ld_field e present in
  let! ok :=
    if p =? 0 then
      if make =? 0 then ret false else
      let! t := alloc in
      if t =? 0 then ret false else
      st_field e present 1 ;;;
      st_field e rw 1 ;;;
      st_field e user usr ;;;
      st_field e frame (Z.shiftr t 12) ;;;
      ret true
    else ret true in
  if negb ok then ret None else
  st_field e user usr ;;;
  let! base := ld_field e frame in
  ret (Some (shl_field base)).

(** The pointer to the page-table entry, 0 for NULL. *)
Definition get_page (va make pml4 : Z) : M mm Z :=
  if pml4 =? 0 then ret 0 else
  let usr := if HIGHER_HALF_START_ADDR <=? va then 0 else 1 in
  let pml4_entry := pml4 + 8 * PML4_INDEX va in
  let! r := descend make usr alloc_pdpt pml4_entry in
  match r with
  | None => ret 0
  | Some pdpt =>
      let! pdpt_entry := phys_to_vir (pdpt + 8 * PDPT_INDEX va) in
      let! r := descend make usr alloc_pd pdpt_entry in
      match r with
      | None => ret 0
      | Some pd =>
          let! pd_entry := phys_to_vir (pd + 8 * PD_INDEX va) in
          let! r := descend make usr alloc_pt pd_entry in
          match r with
          | None => ret 0
          | Some pt =>
              let! page := phys_to_vir (pt + 8 * PT_INDEX va) in
              let! p := ld_field page present in
              if p =? 0 then
                alloc_frame page usr 1 ;;;
                let! f := ld_field page frame in
                if f =? 0 then ret 0 else st_field page user usr ;;; ret page
              else ret page
          end
      end
  end.

(** A level of map_virtual_memory: the table behind entry [i] of [t]. *)
Definition table_of (flags t i : Z) : M mm Z :=
  let! e := ld64 (t + 8 * i) in
  if Z.land e PAGE_PRESENT =? 0 then
    let! n := kmalloc_a PAGE_SIZE 1 in
    zero_words n 512 ;;;
    let! ph := vir_to_phys n in
    st64 (t + 8 * i) (Z.lor ph flags) ;;;
    ret n
  else phys_to_vir (Z.land e 0xFFFFFFFFFFFFF000).

Definition map_virtual_memory (fuel : nat) (phys size flags : Z) : M mm unit :=
  let! virt := phys_to_vir phys in
  let! pml4 := gets cr3 in
  iter_fuel fuel (fun offset =>
    if offset <? size then
      let current_virt := u64 (virt + offset) in
      let! pdpt := table_of flags pml4 (PML4_INDEX current_virt) in
      let! pd := table_of flags pdpt (PDPT_INDEX current_virt) in
      let! pt := table_of flags pd (PD_INDEX current_virt) in
      st64 (pt + 8 * PT_INDEX current_virt) (Z.lor (u64 (phys + offset)) flags) ;;;
      ret (inl (u64 (offset + PAGE_SIZE)))
    else ret (inr tt)) 0.

Definition create_new_pml4 (fuel : nat) : M mm Z :=
  let! p := kmalloc_a 4096 1 in
  zero_words p 512 ;;;
  map_virtual_memory fuel p 4096 (Z.lor PAGE_WRITE PAGE_PRESENT) ;;;
  ret p.

(** A level of map_page. *)
Definition map_level (virt_addr : Z) (alloc : M mm Z) (e : Z) : M mm (option Z) :=
  let! p := ld_field e present in
  let! ok :=
    if p =? 0 then
      let! t := alloc in
      if t =? 0 then ret false else
      zero_words t 512 ;;;
      let! ph := vir_to_phys t in
      st_field e frame (Z.shiftr ph 12) ;;;
      st_field e present 1 ;;;
      st_field e rw 1 ;;;
      st_field e user (if virt_addr <? HIGHER_HALF_START_ADDR then 1 else 0) ;;;
      ret true
    else ret true in
  if negb ok then ret None else
  let! base := ld_field e frame in
  let! t := phys_to_vir (u64 (Z.shiftl base 12)) in
  ret (Some t).

Definition flag (flags bit : Z) : Z := if Z.land flags bit =? 0 then 0 else 1.

(** PAGE_NX is not defined, so the nx bit is left as it is. *)
Definition map_page (phys_page virt_addr flags : Z) : M mm Z :=
  if negb (Z.land phys_page 0xFFF =? 0) || negb (Z.land virt_addr 0xFFF =? 0) then ret (-1) else
  let! c := gets cr3 in
  let! pml4 := phys_to_vir (Z.land c 0xFFFFFFFFFFFFF000) in
  if pml4 =? 0 then ret (-1) else
  let! r := map_level virt_addr alloc_pdpt (pml4 + 8 * PML4_INDEX virt_addr) in
  match r with
  | None => ret (-1)
  | Some pdpt =>
      let! r := map_level virt_addr alloc_pd (pdpt + 8 * PDPT_INDEX virt_addr) in
      match r with
      | None => ret (-1)
      | Some pd =>
          let! r := map_level virt_addr alloc_pt (pd + 8 * PD_INDEX virt_addr) in
          match r with
          | None => ret (-1)
          | Some pt =>
              let page := pt + 8 * PT_INDEX virt_addr in
              st_field page frame (Z.shiftr phys_page 12) ;;;
              st_field page present (flag flags PAGE_PRESENT) ;;;
              st_field page rw (flag flags PAGE_WRITE) ;;;
              st_field page user (flag flags PAGE_USER) ;;;
              ret 0
          end
      end
  end.

Definition map_range (phys_start virt_start size flags : Z) : M mm Z :=
  if negb (Z.land phys_start 0xFFF =? 0) || negb (Z.land virt_start 0xFFF =? 0) then ret (-1) else
  let pages := u64 (size + PAGE_SIZE - 1) / PAGE_SIZE in
  let! r := for_range (Z.to_nat pages) 0 (fun i =>
    let! v := map_page (u64 (phys_start + i * PAGE_SIZE)) (u64 (virt_start + i * PAGE_SIZE)) flags in
    ret (if v =? 0 then None else Some (-1))) in
  ret (default 0 r).

(** The first 10 MiB of the lower half, from the page at 0x1000 on. *)
Definition low_pages : nat := 2560.

Definition for_low_pages (f : Z -> M mm unit) : M mm unit :=
  let! _ := for_range (R := unit) low_pages 0 (fun i =>
    f (LOWER_HALF_START_ADDR + i * PAGE_SIZE) ;;; ret None) in
  ret tt.

Definition init_bs_paging : M mm unit :=
  let! c := gets cr3 in
  let! kernel_pml4 := phys_to_vir c in
  if kernel_pml4 =? 0 then halt else
  for_low_pages (fun addr =>
    let! page := get_page addr 1 kernel_pml4 in
    if page =? 0 then ret tt else
    let! p := ld_field page present in
    let! f := ld_field page frame in
    (if (p =? 0) || (f =? 0) then alloc_frame page 1 1 else ret tt) ;;;
    st_field page user 1 ;;;
    st_field page nx 0).

Definition set_cr3_addr (c : Z) : M mm unit := if c =? 0 then ret tt else modify (set_cr3 c).

Definition init_ap_paging (bsp_cr3 : Z) : M mm unit :=
  set_cr3_addr bsp_cr3 ;;;
  let! c := gets cr3 in
  let! pml4 := phys_to_vir c in
  for_low_pages (fun addr =>
    let! page := get_page addr 1 pml4 in
    if page =? 0 then ret tt else
    let! p := ld_field page present in
    let! f := ld_field page frame in
    if (p =? 0) || (f =? 0) then alloc_frame page 1 1 ;;; st_field page nx 0 else ret tt).

(** ** vmm.c *)

Definition ALLOCATE_CODE : Z := 1.
Definition ALLOCATE_DATA : Z := 2.
Definition ALLOCATE_STACK : Z := 3.

(** The switch on the allocation type. *)
Definition set_page_type (page type : Z) : M mm unit :=
  if type =? ALLOCATE_CODE then st_field page rw 0 ;;; st_field page nx 1
  else if (type =? ALLOCATE_DATA) || (type =? ALLOCATE_STACK)
  then st_field page rw 1 ;;; st_field page nx 1
  else ret tt.

Definition vm_alloc (va type : Z) : M mm unit :=
  let! current_pml4 := gets cr3 in
  if current_pml4 =? 0 then ret tt else
  let! page := get_page va 1 current_pml4 in
  if page =? 0 then ret tt else
  alloc_frame page (if HIGHER_HALF_START_ADDR <=? va then 1 else 0) 1 ;;;
  set_page_type page type.

Definition vm_free (va : Z) : M mm unit :=
  if va =? 0 then ret tt else
  let! current_pml4 := gets cr3 in
  if current_pml4 =? 0 then ret tt else
  let! page := get_page va 0 current_pml4 in
  if page =? 0 then ret tt else
  let! p := ld_field page present in
  if p =? 0 then ret tt else
  free_frame page ;;;
  st_field page present 0 ;;;
  st_field page rw 0 ;;;
  st_field page user 0 ;;;
  st_field page frame 0.

(** ** kheap.c and uheap.c *)

(** [size] rounded up to whole pages. *)
Definition page_round (size : Z) : Z := Z.land (u64 (size + 0xFFF)) 0xFFFFFFFFFFFFF000.

(** The loop that allocates pages from the head up to [limit]. *)
Definition heap_pages (fuel : nat) (get_head : mm -> Z) (put_head : Z -> mm -> mm) (limit type : Z) :
    M mm unit :=
  iter_fuel fuel (fun _ : unit =>
    let! h := gets get_head in
    if h <? limit then
      vm_alloc h type ;;;
      let! h := gets get_head in
      modify (put_head (u64 (h + PAGE_SIZE))) ;;;
      ret (inl tt)
    else ret (inr tt)) tt.

Definition kheap_alloc (fuel : nat) (size type : Z) : M mm Z :=
  let size := page_round size in
  let! h := gets h_va_head in
  if HIGHER_HALF_END_ADDR <? u64 (h + size) then ret 0 else
  let va := h in
  heap_pages fuel h_va_head set_va_head (u64 (va + size)) type ;;;
  let! h := gets h_va_head in
  modify (set_va_head (u64 (h + PAGE_SIZE))) ;;;
  ret va.

Definition uheap_alloc (fuel : nat) (size type : Z) : M mm Z :=
  let size := page_round size in
  let! h := gets l_va_head in
  if LOWER_HALF_END_ADDR <? u64 (h + size) then ret 0 else
  let va := h in
  heap_pages fuel l_va_head set_l_va_head (u64 (va + size)) type ;;;
  let! h := gets l_va_head in
  modify (set_l_va_head (u64 (h + PAGE_SIZE))) ;;;
  ret va.

Definition kheap_free (fuel : nat) (ptr size : Z) : M mm unit :=
  if (ptr =? 0) || (size =? 0) then ret tt else
  iter_fuel fuel (fun '(va, size) =>
    if 0 <? size then
      vm_free va ;;;
      ret (inl (u64 (va + PAGE_SIZE), u64 (size - PAGE_SIZE)))
    else ret (inr tt)) (ptr, page_round size).

Definition uheap_free (fuel : nat) (ptr size : Z) : M mm unit := kheap_free fuel ptr size.
