(* ===== verification/PagingProps.v ===== *)
(** The page tables against the hardware's view of them.

    [walk] is the specification: the four-level translation the processor
    performs on the tables in memory (4-KiB pages).  [tables_wf] is the
    invariant of the tables get_page maintains: a tree, each table with one
    place in it ([role]: its level and the virtual-address prefix it covers),
    apart from the frame bitmap and from memory not yet handed out. *)
From S2P Require Import Prelude Pmm Paging.

(** ** Bit fields *)

Lemma ones_nonneg n : 0 <= n -> 0 <= Z.ones n.
Proof. intros. rewrite Z.ones_equiv. pose proof (Z.pow_pos_nonneg 2 n). lia. Qed.

Section bits.
Context (pos width : Z) (Hp : 0 <= pos) (Hw : 0 <= width) (Hpw : pos + width <= 64).

Lemma set_bits_testbit v w i : 0 <= i < 64 ->
  Z.testbit (set_bits pos width v w) i =
    if (pos <=? i) && (i <? pos + width) then Z.testbit v (i - pos) else Z.testbit w i.
Proof.
  intros Hi. unfold set_bits. change 0xFFFFFFFFFFFFFFFF with (Z.ones 64).
  rewrite Z.lor_spec, Z.land_spec, Z.lxor_spec, !Z.shiftl_spec by lia.
  rewrite Z.land_spec, (Z.ones_spec_low 64) by lia.
  destruct (Z.leb_spec pos i); simpl.
  - destruct (Z.ltb_spec i (pos + width)).
    + rewrite Z.ones_spec_low by lia. simpl. by rewrite andb_false_r, andb_true_r.
    + rewrite Z.ones_spec_high by lia. simpl. by rewrite andb_true_r, andb_false_r, orb_false_r.
  - rewrite !(Z.testbit_neg_r _ (i - pos)) by lia. simpl. by rewrite andb_true_r, orb_false_r.
Qed.

Lemma set_bits_range v w : 0 <= w -> 0 <= set_bits pos width v w < 2 ^ 64.
Proof.
  intros H0. apply lor_range; [lia| |].
  - apply land_range_r; [lia|]. change 0xFFFFFFFFFFFFFFFF with (Z.ones 64).
    assert (Hs : 0 <= Z.shiftl (Z.ones width) pos) by (apply Z.shiftl_nonneg, ones_nonneg; lia).
    assert (0 <= Z.lxor (Z.shiftl (Z.ones width) pos) (Z.ones 64))
      by (apply Z.lxor_nonneg; split; intros; [apply ones_nonneg; lia | done]).
    split; [done|]. apply bits_lt; [lia | done|]. intros i Hi.
    rewrite Z.lxor_spec, Z.shiftl_spec, !Z.ones_spec_high by lia. done.
  - assert (0 <= Z.shiftl (Z.land v (Z.ones width)) pos)
      by (apply Z.shiftl_nonneg, Z.land_nonneg; right; apply ones_nonneg; lia).
    split; [done|]. apply bits_lt; [lia | done|]. intros i Hi.
    rewrite Z.shiftl_spec, Z.land_spec, Z.ones_spec_high by lia. apply andb_false_r.
Qed.

Lemma get_set_bits v w : get_bits pos width (set_bits pos width v w) = v mod 2 ^ width.
Proof.
  unfold get_bits. apply Z.bits_inj'. intros i Hi. rewrite Z.land_spec, Z.shiftr_spec by lia.
  destruct (Z.lt_ge_cases i width).
  - rewrite Z.ones_spec_low, Z.mod_pow2_bits_low, set_bits_testbit by lia.
    rewrite andb_true_r. case_if; [f_equal; lia|]. apply andb_false_iff in Hb as []; bool_to_prop; lia.
  - rewrite Z.ones_spec_high, Z.mod_pow2_bits_high by lia. apply andb_false_r.
Qed.

Lemma get_set_bits_other pos' width' v w :
  0 <= pos' -> 0 <= width' -> pos' + width' <= 64 ->
  pos' + width' <= pos \/ pos + width <= pos' ->
  get_bits pos' width' (set_bits pos width v w) = get_bits pos' width' w.
Proof.
  intros Hp' Hw' Hpw' Hd. unfold get_bits. apply Z.bits_inj'. intros i Hi.
  rewrite !Z.land_spec, !Z.shiftr_spec by lia. destruct (Z.lt_ge_cases i width').
  - rewrite set_bits_testbit by lia. case_if; [lia | done].
  - rewrite Z.ones_spec_high by lia. by rewrite !andb_false_r.
Qed.
End bits.

Lemma fget_fset f v w : fget f (fset f v w) = v mod 2 ^ field_width f.
Proof. apply get_set_bits; destruct f; simpl; lia. Qed.

Lemma fget_fset_ne f g v w : f <> g -> fget f (fset g v w) = fget f w.
Proof. intros. apply get_set_bits_other; destruct f, g; simpl; lia || done. Qed.

Lemma fset_range f v w : 0 <= w -> 0 <= fset f v w < 2 ^ 64.
Proof. apply set_bits_range; destruct f; simpl; lia. Qed.

Lemma fget_range f w : 0 <= fget f w < 2 ^ field_width f.
Proof.
  unfold fget, get_bits. rewrite Z.land_ones by (destruct f; simpl; lia).
  apply Z.mod_pos_bound. destruct f; simpl; lia.
Qed.

(** Two entries that denote the same thing to the walk. *)
Definition entry_eq (w w' : Z) : Prop :=
  fget present w' = fget present w /\ fget frame w' = fget frame w.

Ltac fields :=
  repeat first [ rewrite fget_fset | rewrite fget_fset_ne by done ].

Lemma st_field_spec s p f v a w Q :
  points s p a -> pmem s !! a = Some w ->
  Q tt (set_pmem (<[a := fset f v w]> (pmem s)) s) -> wp (st_field p f v) Q s.
Proof.
  intros Hp Hw HQ. unfold st_field. apply wp_bind. apply (ld64_spec _ _ a w); [done | done|].
  apply (st64_spec _ _ a); [done | by eapply writable_known | done].
Qed.

Lemma ld_field_spec s p f a w Q :
  points s p a -> pmem s !! a = Some w -> Q (fget f w) s -> wp (ld_field p f) Q s.
Proof.
  intros Hp Hw HQ. unfold ld_field. apply wp_bind. apply (ld64_spec _ _ a w); [done | done|].
  by apply wp_ret.
Qed.

(** ** The hardware walk *)

Definition index (lv : nat) (va : Z) : Z := Z.land (Z.shiftr va (12 + 9 * (Z.of_nat lv - 1))) 0x1FF.

(** From the table [t] of level [lv].  All pages are of 4 KB: an entry of an
    upper level with the large-page bit, which paging.c neither sets nor looks
    at, is taken for a link to a table here as it is there. *)
Fixpoint walk (m : gmap Z Z) (t : Z) (lv : nat) (va : Z) : option Z :=
  match lv with
  | O => Some (t + va mod 4096)
  | S lv' =>
      match m !! (t + 8 * index lv va) with
      | Some w => if fget present w =? 0 then None else walk m (4096 * fget frame w) lv' va
      | None => None
      end
  end.

Definition translate (s : mm) (root va : Z) : option Z := walk (pmem s) root 4 va.

(** The part of the address that selects a table of level [lv]; at level 0
    the virtual page. *)
Definition prefix (lv : nat) (va : Z) : Z := (va mod 2 ^ 48) / 2 ^ (12 + 9 * Z.of_nat lv).

Lemma index_range lv va : 0 <= index lv va < 512.
Proof. unfold index. apply (land_range_r _ _ 9); lia. Qed.

Lemma prefix_4 va : prefix 4 va = 0.
Proof. unfold prefix. apply Z.div_small. apply Z.mod_pos_bound. lia. Qed.

Lemma prefix_step lv va : (1 <= lv <= 4)%nat -> 0 <= va ->
  prefix (Nat.pred lv) va = 512 * prefix lv va + index lv va.
Proof.
  intros Hlv Hva. unfold prefix, index. change 0x1FF with (Z.ones 9).
  rewrite Z.land_ones, Z.shiftr_div_pow2 by lia.
  destruct lv as [|[|[|[|[|]]]]]; try lia; simpl Nat.pred; simpl Z.of_nat; simpl Z.add; simpl Z.mul;
    simpl Z.sub; simpl Z.pow; simpl Z.pow_pos; Z.to_euclidean_division_equations; nia.
Qed.

(** ** The invariant *)

Abbreviation roles := (gmap Z (nat * Z)).

Record layout (s : mm) : Prop := {
  ly_start : 4096 <= USABLE_START_PHYS_MEM s /\ USABLE_START_PHYS_MEM s mod 4096 = 0;
  ly_frames : USABLE_START_PHYS_MEM s + 4096 * nframes s <= USABLE_END_PHYS_MEM s;
  ly_end : USABLE_END_PHYS_MEM s <= 2 ^ 40;
  ly_head : USABLE_START_PHYS_MEM s <= phys_mem_head s;
  ly_bitmap : frames s + 8 * (last_word s + 1) <= phys_mem_head s;
  ly_hhdm : 2 ^ 41 <= HHDM_OFFSET s /\ HHDM_OFFSET s + 2 ^ 41 <= 2 ^ 64 /\ HHDM_OFFSET s mod 4096 = 0
}.

Record tables_wf (s : mm) (root : Z) (role : roles) : Prop := {
  tw_root : role !! root = Some (4%nat, 0);
  tw_table : forall t lv pre, role !! t = Some (lv, pre) ->
    0 < t /\ t mod 4096 = 0 /\ t + 4096 <= 2 ^ 40 /\ (1 <= lv <= 4)%nat /\
    (t + 4096 <= frames s \/ frames s + 8 * (last_word s + 1) <= t) /\
    (t + 4096 <= phys_mem_head s \/ USABLE_END_PHYS_MEM s <= t);
  tw_word : forall t r i, role !! t = Some r -> 0 <= i < 512 ->
    exists w, pmem s !! (t + 8 * i) = Some w /\ 0 <= w < 2 ^ 64;
  tw_child : forall t lv pre i w, role !! t = Some (S lv, pre) -> (0 < lv)%nat -> 0 <= i < 512 ->
    pmem s !! (t + 8 * i) = Some w -> fget present w <> 0 ->
    role !! (4096 * fget frame w) = Some (lv, 512 * pre + i)
}.

Record paging_wf (s : mm) (root : Z) (role : roles) (used : Z -> bool) : Prop := {
  pw_layout : layout s;
  pw_pmm : pmm_rep s used;
  pw_tables : tables_wf s root role
}.

(** Words of tables: distinct tables are disjoint. *)
Lemma table_word_inj s root role t i t' i' r r' :
  tables_wf s root role -> role !! t = Some r -> role !! t' = Some r' ->
  0 <= i < 512 -> 0 <= i' < 512 -> t + 8 * i = t' + 8 * i' -> t = t' /\ i = i'.
Proof.
  intros Hw Ht Ht' Hi Hi' He. destruct r as [lv pre], r' as [lv' pre'].
  destruct (tw_table _ _ _ Hw _ _ _ Ht) as (_ & Hm & _).
  destruct (tw_table _ _ _ Hw _ _ _ Ht') as (_ & Hm' & _). div_lia.
Qed.

(** [m'] is [m] on every word of the tables but word [i] of [t]. *)
Definition agree_but (role : roles) (t i : Z) (m m' : gmap Z Z) : Prop :=
  forall t' r j, role !! t' = Some r -> 0 <= j < 512 -> t' + 8 * j <> t + 8 * i ->
    m' !! (t' + 8 * j) = m !! (t' + 8 * j).

Section walks.
Context (s : mm) (root : Z) (role : roles) (Hwf : tables_wf s root role).

(** A walk that does not use the changed entry. *)
Lemma walk_other m' t i lv pre va lv0 t0 :
  agree_but role t i (pmem s) m' -> role !! t = Some (lv, pre) -> 0 <= i < 512 -> 0 <= va ->
  prefix (Nat.pred lv) va <> 512 * pre + i ->
  (1 <= lv0 <= 4)%nat -> role !! t0 = Some (lv0, prefix lv0 va) ->
  walk m' t0 lv0 va = walk (pmem s) t0 lv0 va.
Proof.
  intros Hag Ht Hi Hva Hne. revert t0.
  induction lv0 as [|lv0 IH]; intros t0 Hlv Ht0; [lia|]. simpl.
  pose proof (index_range (S lv0) va) as Hidx.
  destruct (decide (t0 + 8 * index (S lv0) va = t + 8 * i)) as [He|He].
  { destruct (table_word_inj _ _ _ _ _ _ _ _ _ Hwf Ht0 Ht Hidx Hi He) as [-> Hii].
    rewrite Ht in Ht0. simplify_eq. rewrite (prefix_step (S lv0)) in Hne by lia. lia. }
  rewrite (Hag _ _ _ Ht0) by done.
  destruct (tw_word _ _ _ Hwf _ _ _ Ht0 Hidx) as (w & Hw & _). rewrite Hw.
  destruct (Z.eqb_spec (fget present w) 0); [done|].
  destruct lv0 as [|lv0]; [done|]. apply IH; [lia|].
  rewrite (prefix_step (S (S lv0))) by lia.
  by apply (tw_child _ _ _ Hwf t0 (S lv0) _ _ w); [| lia | | |].
Qed.

(** A change of an entry that keeps its meaning, or that links a table of
    absent entries where nothing was, changes no walk. *)
Lemma walk_linked m' t i lv pre w w' va lv0 t0 :
  agree_but role t i (pmem s) m' -> role !! t = Some (lv, pre) -> 0 <= i < 512 -> 0 <= va ->
  pmem s !! (t + 8 * i) = Some w -> m' !! (t + 8 * i) = Some w' ->
  entry_eq w w' \/
    (fget present w = 0 /\ (1 < lv)%nat /\
     forall j, 0 <= j < 512 -> m' !! (4096 * fget frame w' + 8 * j) = Some 0) ->
  (1 <= lv0 <= 4)%nat -> role !! t0 = Some (lv0, prefix lv0 va) ->
  walk m' t0 lv0 va = walk (pmem s) t0 lv0 va.
Proof.
  intros Hag Ht Hi Hva Hw Hw' Hc. revert t0.
  induction lv0 as [|lv0 IH]; intros t0 Hlv Ht0; [lia|]. simpl.
  pose proof (index_range (S lv0) va) as Hidx.
  assert (Hnext : forall v, pmem s !! (t0 + 8 * index (S lv0) va) = Some v -> fget present v <> 0 ->
    walk m' (4096 * fget frame v) lv0 va = walk (pmem s) (4096 * fget frame v) lv0 va).
  { intros v Hv Hpv. destruct lv0 as [|lv0]; [done|]. apply IH; [lia|].
    rewrite (prefix_step (S (S lv0))) by lia.
    by apply (tw_child _ _ _ Hwf t0 (S lv0) _ _ v); [| lia | | |]. }
  destruct (decide (t0 + 8 * index (S lv0) va = t + 8 * i)) as [He|He].
  - destruct (table_word_inj _ _ _ _ _ _ _ _ _ Hwf Ht0 Ht Hidx Hi He) as [-> Hii].
    rewrite Hii in *. rewrite Hw', Hw. destruct Hc as [[Hp Hf]|(Hp & Hlv1 & Hz)].
    + rewrite Hp, Hf. destruct (Z.eqb_spec (fget present w) 0); [done|]. by apply Hnext.
    + rewrite Hp. simpl. destruct (Z.eqb_spec (fget present w') 0); [done|].
      rewrite Ht in Ht0. simplify_eq. destruct lv0 as [|lv0]; [lia|]. simpl.
      rewrite Hz by apply index_range. done.
  - rewrite (Hag _ _ _ Ht0) by done.
    destruct (tw_word _ _ _ Hwf _ _ _ Ht0 Hidx) as (v & Hv & _). rewrite Hv.
    destruct (Z.eqb_spec (fget present v) 0); [done|]. by apply Hnext.
Qed.
End walks.

(** All fields but memory and the head of physical memory agree. *)
Definition but_mem_head (s s' : mm) : Prop := s' = set_head (phys_mem_head s') (set_pmem (pmem s') s).

Lemma but_mem_head_refl s : but_mem_head s s.
Proof. by destruct s. Qed.
Lemma but_mem_head_trans s1 s2 s3 : but_mem_head s1 s2 -> but_mem_head s2 s3 -> but_mem_head s1 s3.
Proof. unfold but_mem_head. intros -> ->. done. Qed.

Definition outside_bitmap (s : mm) (a : Z) : Prop :=
  a + 8 <= frames s \/ frames s + 8 * (last_word s + 1) <= a.

Lemma pmm_rep_insert s used a v :
  pmm_rep s used -> outside_bitmap s a -> pmm_rep (set_pmem (<[a := v]> (pmem s)) s) used.
Proof.
  intros [Hn Hf Hw Ho] Ha. split; try done. intros i Hi. simpl.
  destruct (Hw i Hi) as (w & Hwd & Hr). exists w. split; [|done].
  rewrite lookup_insert_ne; [done|]. unfold outside_bitmap, last_word in *. simpl in *. lia.
Qed.

(** Replacing a word of a table. *)
Lemma entry_update_tables s root role t lv pre i w' :
  tables_wf s root role -> role !! t = Some (lv, pre) -> 0 <= i < 512 -> 0 <= w' < 2 ^ 64 ->
  (fget present w' <> 0 -> (1 < lv)%nat ->
   role !! (4096 * fget frame w') = Some (Nat.pred lv, 512 * pre + i)) ->
  tables_wf (set_pmem (<[t + 8 * i := w']> (pmem s)) s) root role.
Proof.
  intros Hwf Ht Hi Hw' Hc. split; simpl; try apply Hwf.
  - intros t' r j Ht' Hj. destruct (decide (t + 8 * i = t' + 8 * j)) as [He|He].
    + exists w'. rewrite He, lookup_insert_eq. done.
    + rewrite lookup_insert_ne by done. by apply (tw_word _ _ _ Hwf _ r).
  - intros t' lv' pre' j w Ht' Hlv Hj Hl Hp.
    destruct (decide (t + 8 * i = t' + 8 * j)) as [He|He].
    + destruct (table_word_inj _ _ _ _ _ _ _ _ _ Hwf Ht Ht' Hi Hj He) as [<- <-].
      rewrite Ht in Ht'. simplify_eq. rewrite lookup_insert_eq in Hl. simplify_eq.
      apply Hc; [done | lia].
    + rewrite lookup_insert_ne in Hl by done. by eapply (tw_child _ _ _ Hwf).
Qed.

(** Changes outside the tables. *)
Lemma tables_wf_ext s root role m' h :
  tables_wf s root role -> phys_mem_head s <= h ->
  (forall t r i, role !! t = Some r -> 0 <= i < 512 -> m' !! (t + 8 * i) = pmem s !! (t + 8 * i)) ->
  tables_wf (set_head h (set_pmem m' s)) root role.
Proof.
  intros Hwf Hh Hag. split; simpl.
  - apply Hwf.
  - intros t lv pre Ht. destruct (tw_table _ _ _ Hwf _ _ _ Ht) as (? & ? & ? & ? & ? & ?).
    unfold last_word in *. simpl in *. lia.
  - intros t r i Ht Hi. rewrite (Hag t r i) by done. by apply (tw_word _ _ _ Hwf _ r).
  - intros t lv pre i w Ht Hl Hi Hw Hp. rewrite (Hag _ _ _ Ht Hi) in Hw.
    by eapply (tw_child _ _ _ Hwf).
Qed.

Lemma table_outside_bitmap s root role t r i :
  tables_wf s root role -> role !! t = Some r -> 0 <= i < 512 ->
  t + 8 * i + 8 <= frames s \/ frames s + 8 * (last_word s + 1) <= t + 8 * i.
Proof.
  intros Hwf Ht Hi. destruct r as [lv pre].
  destruct (tw_table _ _ _ Hwf _ _ _ Ht) as (_ & _ & _ & _ & Hb & _). lia.
Qed.

Lemma entry_update_wf s root role used t lv pre i w' :
  paging_wf s root role used -> role !! t = Some (lv, pre) -> 0 <= i < 512 -> 0 <= w' < 2 ^ 64 ->
  (fget present w' <> 0 -> (1 < lv)%nat ->
   role !! (4096 * fget frame w') = Some (Nat.pred lv, 512 * pre + i)) ->
  paging_wf (set_pmem (<[t + 8 * i := w']> (pmem s)) s) root role used.
Proof.
  intros [[? ? ? ? ? ?] Hrep Hwf] Ht Hi Hw' Hc. split; [done| |by eapply entry_update_tables].
  apply pmm_rep_insert; [done|]. by eapply table_outside_bitmap.
Qed.

Lemma agree_but_insert role t i w' (m : gmap Z Z) : agree_but role t i m (<[t + 8 * i := w']> m).
Proof. intros t' r j _ _ Hne. by rewrite lookup_insert_ne. Qed.

(** A zeroed table from fresh memory joins the tree. *)
Lemma new_table_wf s root role used c m1 lv pre :
  paging_wf s root role used -> phys_mem_head s <= c -> c mod 4096 = 0 ->
  c + 4096 <= USABLE_END_PHYS_MEM s -> (1 <= lv <= 4)%nat ->
  (forall j, 0 <= j < 512 -> m1 !! (c + 8 * j) = Some 0) ->
  (forall a, a < c \/ c + 4096 <= a -> m1 !! a = pmem s !! a) ->
  role !! c = None /\
  paging_wf (set_head (c + 4096) (set_pmem m1 s)) root (<[c := (lv, pre)]> role) used.
Proof.
  intros [[? ? ? ? Hbm ?] [Hn Hf Hwd Ho] Hwf] Hc Hal He Hlv Hz Hag.
  assert (Hfresh : forall t r, role !! t = Some r -> t + 4096 <= c \/ c + 4096 <= t).
  { intros t [lv' pre'] Ht. destruct (tw_table _ _ _ Hwf _ _ _ Ht) as (_ & _ & _ & _ & _ & Hh). lia. }
  assert (Hnone : role !! c = None).
  { destruct (role !! c) as [r|] eqn:Hr; [|done]. pose proof (Hfresh _ _ Hr). lia. }
  split; [done|]. split.
  - split; unfold last_word in *; simpl in *; done || lia.
  - split; simpl; try done. intros k Hk. destruct (Hwd k Hk) as (w & Hw & Hr). exists w.
    rewrite Hag; [done|]. unfold last_word in *. simpl in *. lia.
  - split; simpl.
    + rewrite lookup_insert_ne; [apply Hwf|]. intros ->. by rewrite (tw_root _ _ _ Hwf) in Hnone.
    + intros t lv' pre' Ht. destruct (decide (c = t)) as [<-|Hne].
      * rewrite lookup_insert_eq in Ht. simplify_eq. unfold last_word in *. simpl in *. lia.
      * rewrite lookup_insert_ne in Ht by done.
        destruct (tw_table _ _ _ Hwf _ _ _ Ht) as (? & ? & ? & ? & ? & ?). unfold last_word in *. simpl in *. lia.
    + intros t r i Ht Hi. destruct (decide (c = t)) as [<-|Hne].
      * exists 0. by rewrite Hz.
      * rewrite lookup_insert_ne in Ht by done. pose proof (Hfresh _ _ Ht).
        rewrite Hag by lia. by apply (tw_word _ _ _ Hwf _ r).
    + intros t lv' pre' i w Ht Hl Hi Hw Hp. destruct (decide (c = t)) as [<-|Hne].
      * rewrite Hz in Hw by done. simplify_eq.
      * rewrite lookup_insert_ne in Ht by done. pose proof (Hfresh _ _ Ht).
        rewrite Hag in Hw by lia. rewrite lookup_insert_ne; [by eapply (tw_child _ _ _ Hwf)|].
        intros ->. rewrite (tw_child _ _ _ Hwf _ _ _ _ _ Ht Hl Hi Hw Hp) in Hnone. done.
Qed.

(** What a step of get_page keeps: present entries of the tables and every
    translation. *)
Record grows (s s' : mm) (role role' : roles) : Prop := {
  gr_role : role ⊆ role';
  gr_state : but_mem_head s s';
  gr_link : forall t r j w, role !! t = Some r -> 0 <= j < 512 -> pmem s !! (t + 8 * j) = Some w ->
    fget present w <> 0 -> exists w', pmem s' !! (t + 8 * j) = Some w' /\ entry_eq w w';
  gr_walk : forall va t0 lv0, 0 <= va -> (1 <= lv0 <= 4)%nat ->
    role !! t0 = Some (lv0, prefix lv0 va) -> walk (pmem s') t0 lv0 va = walk (pmem s) t0 lv0 va
}.

Lemma grows_trans s1 s2 s3 r1 r2 r3 :
  grows s1 s2 r1 r2 -> grows s2 s3 r2 r3 -> grows s1 s3 r1 r3.
Proof.
  intros [Hr Hs Hl Hw] [Hr' Hs' Hl' Hw']. split.
  - by trans r2.
  - by eapply but_mem_head_trans.
  - intros t r j w Ht Hj Hwd Hp. destruct (Hl _ _ _ _ Ht Hj Hwd Hp) as (w2 & Hw2 & Hp2 & Hf2).
    destruct (Hl' t r j w2) as (w3 & Hw3 & Hp3 & Hf3);
      [by eapply lookup_weaken | done | done | by rewrite Hp2|].
    exists w3. split; [done|]. split; [by rewrite Hp3 | by rewrite Hf3].
  - intros va t0 lv0 Hva Hlv Ht0. rewrite Hw' by (done || by eapply lookup_weaken). by apply Hw.
Qed.

Lemma shl_field_val v : 0 <= v -> 4096 * v < 2 ^ 40 -> shl_field v = 4096 * v.
Proof.
  intros. unfold shl_field. rewrite Z.land_ones, Z.shiftl_mul_pow2 by lia.
  rewrite Z.mod_small; lia.
Qed.

Lemma present_cases w : fget present w = 0 \/ fget present w = 1.
Proof. pose proof (fget_range present w). simpl in *. lia. Qed.

Lemma alloc_pt_spec s root role used Q :
  paging_wf s root role used -> phys_mem_head s + 8192 <= USABLE_END_PHYS_MEM s ->
  (forall c m1, phys_mem_head s <= c < phys_mem_head s + 4096 -> c mod 4096 = 0 ->
     (forall j, 0 <= j < 512 -> m1 !! (c + 8 * j) = Some 0) ->
     (forall a, a < c \/ c + 4096 <= a -> m1 !! a = pmem s !! a) ->
     Q c (set_head (c + 4096) (set_pmem m1 s))) ->
  wp alloc_pt Q s.
Proof.
  intros [[[] ? ? ? ? (? & ? & ?)] _ _] Hroom HQ. unfold alloc_pt. apply wp_bind.
  set (c := page_up (phys_mem_head s)).
  assert (phys_mem_head s <= c < phys_mem_head s + 4096) by apply page_up_bounds.
  assert (c mod 4096 = 0) by apply page_up_mod.
  apply kmalloc_a_spec; try lia. fold c. case_if; [lia|].
  apply wp_bind. apply zero_words_spec; simpl; try lia; [div_lia|].
  intros m1 Hz Hag. apply wp_ret. apply (HQ c m1); [lia | done | done|].
  intros a Ha. apply Hag. lia.
Qed.

(** Store the fields of an entry one after another. *)
Ltac st_fields Hp :=
  repeat (lazymatch goal with
  | |- wp (bind (st_field _ _ _) _) _ _ =>
      apply wp_bind; eapply st_field_spec; [exact Hp | apply lookup_insert_eq |]
  | |- wp (st_field _ _ _) _ _ =>
      eapply st_field_spec; [exact Hp | apply lookup_insert_eq |]
  | |- wp (bind (ret _) _) _ _ => apply wp_bind, wp_ret
  | |- wp (ret _) _ _ => apply wp_ret
  end; simpl; rewrite ?insert_insert_eq).

(** The entry of a table that has just been linked. *)
Definition linked_entry (usr c w : Z) : Z :=
  fset user usr (fset frame (Z.shiftr c 12) (fset user usr (fset rw 1 (fset present 1 w)))).

Lemma linked_entry_present usr c w : fget present (linked_entry usr c w) = 1.
Proof. unfold linked_entry. fields. done. Qed.

Lemma linked_entry_frame usr c w : 0 <= c < 2 ^ 40 -> c mod 4096 = 0 ->
  4096 * fget frame (linked_entry usr c w) = c.
Proof.
  intros Hc Hm. unfold linked_entry. fields. simpl field_width.
  rewrite Z.shiftr_div_pow2 by lia. change (2 ^ 12) with 4096.
  rewrite Z.mod_small by div_lia. div_lia.
Qed.

Lemma linked_entry_range usr c w : 0 <= w -> 0 <= linked_entry usr c w < 2 ^ 64.
Proof. intros. unfold linked_entry. repeat (apply fset_range). done. Qed.

Section descend.
Context (s : mm) (root : Z) (role : roles) (used : Z -> bool).
Context (Hwf : paging_wf s root role used).
Context (t : Z) (lv : nat) (pre i e usr : Z).
Context (Ht : role !! t = Some (S (S lv), pre)) (Hi : 0 <= i < 512) (Hp : points s e (t + 8 * i)).

(** The state after linking a fresh table. *)
Lemma link_wf c m1 w :
  phys_mem_head s <= c < phys_mem_head s + 4096 -> c mod 4096 = 0 ->
  phys_mem_head s + 8192 <= USABLE_END_PHYS_MEM s ->
  (forall j, 0 <= j < 512 -> m1 !! (c + 8 * j) = Some 0) ->
  (forall a, a < c \/ c + 4096 <= a -> m1 !! a = pmem s !! a) ->
  pmem s !! (t + 8 * i) = Some w -> 0 <= w -> fget present w = 0 ->
  let s' := set_head (c + 4096) (set_pmem (<[t + 8 * i := linked_entry usr c w]> m1) s) in
  let role' := <[c := (S lv, 512 * pre + i)]> role in
  m1 !! (t + 8 * i) = Some w /\ paging_wf s' root role' used /\ grows s s' role role'.
Proof.
  intros Hc Hal Hroom Hz Hag Hw Hw0 Hnp s' role'.
  pose proof (pw_layout _ _ _ _ Hwf) as [[] ? ? ? ? _].
  pose proof (tw_table _ _ _ (pw_tables _ _ _ _ Hwf) _ _ _ Ht) as (_ & _ & _ & Hlv & _).
  destruct (new_table_wf s root role used c m1 (S lv) (512 * pre + i)) as [Hnone Hwf1]; try done || lia.
  assert (Hfresh : forall t' r, role !! t' = Some r -> t' + 4096 <= c \/ c + 4096 <= t').
  { intros t' [lv' pre'] Ht'.
    destruct (tw_table _ _ _ (pw_tables _ _ _ _ Hwf) _ _ _ Ht') as (_ & _ & _ & _ & _ & Hh). lia. }
  pose proof (Hfresh _ _ Ht). pose proof (linked_entry_frame usr c w ltac:(lia) Hal) as Hfr.
  assert (Ht1 : role' !! t = Some (S (S lv), pre)).
  { unfold role'. rewrite lookup_insert_ne; [done|]. intros ->. by rewrite Ht in Hnone. }
  split_and!.
  - rewrite Hag by lia. done.
  - apply (entry_update_wf _ _ _ _ t (S (S lv)) pre i _ Hwf1 Ht1 Hi).
    + by apply linked_entry_range.
    + intros _ _. rewrite Hfr. apply lookup_insert_eq.
  - split.
    + by apply insert_subseteq.
    + done.
    + intros t' r j v Ht' Hj Hv Hpv. exists v. split; [|done]. simpl.
      pose proof (Hfresh _ _ Ht'). destruct (decide (t + 8 * i = t' + 8 * j)) as [He|He].
      * rewrite <- He, Hw in Hv. simplify_eq.
      * rewrite lookup_insert_ne, Hag by (done || lia). done.
    + intros va t0 lv0 Hva Hlv0 Ht0.
      apply (walk_linked s root role (pw_tables _ _ _ _ Hwf) _ t i (S (S lv)) pre w (linked_entry usr c w));
        try done.
      * intros t' r j Ht' Hj Hne. simpl. pose proof (Hfresh _ _ Ht').
        rewrite lookup_insert_ne, Hag by lia. done.
      * simpl. apply lookup_insert_eq.
      * right. split; [done|]. split; [lia|]. intros j Hj. rewrite Hfr. simpl.
        rewrite lookup_insert_ne by lia. by apply Hz.
Qed.

(** A present entry only has its user bit set. *)
Lemma reuser_wf w :
  pmem s !! (t + 8 * i) = Some w -> 0 <= w ->
  let s' := set_pmem (<[t + 8 * i := fset user usr w]> (pmem s)) s in
  fget present w <> 0 -> paging_wf s' root role used /\ grows s s' role role.
Proof.
  intros Hw Hw0 s' Hpw. assert (Heq : entry_eq w (fset user usr w)) by (split; by fields).
  split.
  - apply (entry_update_wf _ _ _ _ t (S (S lv)) pre i _ Hwf Ht Hi); [by apply fset_range|].
    destruct Heq as [_ ->]. intros _ _.
    by apply (tw_child _ _ _ (pw_tables _ _ _ _ Hwf) t (S lv) pre i w); [| lia | | |].
  - split; [done | done | |].
    + intros t' r j v Ht' Hj Hv Hpv. simpl.
      destruct (decide (t + 8 * i = t' + 8 * j)) as [He|He].
      * rewrite <- He, Hw in Hv. simplify_eq. eexists. by rewrite He, lookup_insert_eq.
      * exists v. rewrite lookup_insert_ne by done. done.
    + intros va t0 lv0 Hva Hlv0 Ht0.
      apply (walk_linked s root role (pw_tables _ _ _ _ Hwf) _ t i (S (S lv)) pre w (fset user usr w));
        try done; [apply agree_but_insert | apply lookup_insert_eq | by left].
Qed.

Lemma descend_spec Q :
  phys_mem_head s + 8192 <= USABLE_END_PHYS_MEM s ->
  (forall s' role' w', paging_wf s' root role' used -> grows s s' role role' ->
     phys_mem_head s <= phys_mem_head s' <= phys_mem_head s + 8192 ->
     pmem s' !! (t + 8 * i) = Some w' -> fget present w' <> 0 ->
     role' !! (4096 * fget frame w') = Some (S lv, 512 * pre + i) ->
     Q (Some (4096 * fget frame w')) s') ->
  wp (descend 1 usr alloc_pt e) Q s.
Proof.
  intros Hroom HQ. destruct (tw_word _ _ _ (pw_tables _ _ _ _ Hwf) _ _ _ Ht Hi) as (w & Hw & Hwr).
  assert (Hshl : forall s' role' w', paging_wf s' root role' used ->
    role' !! (4096 * fget frame w') = Some (S lv, 512 * pre + i) ->
    shl_field (fget frame w') = 4096 * fget frame w').
  { intros s' role' w' Hwf' Hr. apply shl_field_val; [apply fget_range|].
    destruct (tw_table _ _ _ (pw_tables _ _ _ _ Hwf') _ _ _ Hr) as (? & ? & ? & _). lia. }
  unfold descend. apply wp_bind. apply (ld_field_spec _ _ _ _ w _ Hp Hw). apply wp_bind.
  destruct (present_cases w) as [Hnp|Hpr]; [rewrite Hnp | rewrite Hpr]; simpl.
  - apply wp_bind. apply (alloc_pt_spec s root role used); [done | done|].
    intros c m1 Hc Hal Hz Hag. pose proof (pw_layout _ _ _ _ Hwf) as [[] ? ? ? ? _].
    case_if; [lia|].
    destruct (link_wf c m1 w) as (Hw1 & Hwf' & Hg); try done || lia.
    apply wp_bind. eapply st_field_spec; [exact Hp | exact Hw1|]. simpl.
    st_fields Hp.
    apply wp_bind. eapply ld_field_spec; [exact Hp | apply lookup_insert_eq|]. apply wp_ret.
    simpl. fold (linked_entry usr c w).
    set (s' := set_head (c + 4096) (set_pmem (<[t + 8 * i := linked_entry usr c w]> m1) s)) in *.
    assert (Hr : <[c := (S lv, 512 * pre + i)]> role !! (4096 * fget frame (linked_entry usr c w)) =
                 Some (S lv, 512 * pre + i))
      by (rewrite linked_entry_frame by (done || lia); apply lookup_insert_eq).
    rewrite (Hshl s' _ _ Hwf' Hr).
    apply (HQ s' (<[c := (S lv, 512 * pre + i)]> role)); try done; simpl.
    + lia.
    + apply lookup_insert_eq.
    + by rewrite linked_entry_present.
  - apply wp_ret. simpl. apply wp_bind. eapply st_field_spec; [exact Hp | exact Hw|].
    apply wp_bind. eapply ld_field_spec; [exact Hp | apply lookup_insert_eq|]. apply wp_ret.
    destruct (reuser_wf w) as [Hwf' Hg]; [done | lia | lia|].
    assert (Hr : role !! (4096 * fget frame (fset user usr w)) = Some (S lv, 512 * pre + i)).
    { fields. apply (tw_child _ _ _ (pw_tables _ _ _ _ Hwf) t (S lv) pre i w); done || lia. }
    rewrite (Hshl _ _ _ Hwf' Hr). apply (HQ _ role); try done; simpl.
    + lia.
    + apply lookup_insert_eq.
    + fields. lia.
Qed.
End descend.

(** ** Frames *)

(** The usable region holds the frames and ends below 1 TiB. *)
Definition region (s : mm) : Prop :=
  4096 <= USABLE_START_PHYS_MEM s /\ USABLE_START_PHYS_MEM s mod 4096 = 0 /\
  USABLE_START_PHYS_MEM s + 4096 * nframes s <= USABLE_END_PHYS_MEM s <= 2 ^ 40.

Lemma layout_region s : layout s -> region s.
Proof. intros [[] ? ? _ _ _]. done. Qed.

Lemma pmm_rep_ext s used used' :
  (forall n, used n = used' n) -> pmm_rep s used -> pmm_rep s used'.
Proof.
  intros He [Hn Hf Hw Ho]. split; try done.
  - intros i Hi. destruct (Hw i Hi) as (w & Hwd & Hr & Hlow & high & Hh & H31). exists w.
    split; [done|]. split; [done|]. split.
    + intros o Hoo. rewrite <- He. by apply Hlow.
    + exists high. rewrite <- He. done.
  - intros n Hnn. rewrite <- He. by apply Ho.
Qed.

Lemma free_frames_elem s used n : n ∈ free_frames s used ->
  0 <= n < nframes s /\ markable n = true /\ used n = false.
Proof.
  intros Hn. apply list_elem_of_filter in Hn as [[Hm Hu] Hs]. apply elem_of_seqZ in Hs. split; [lia | done].
Qed.

(** Taking the first free frame leaves the others. *)
Lemma free_frames_take s s' used n rest :
  nframes s' = nframes s -> free_frames s used = n :: rest ->
  free_frames s' (bupd used n true) = rest.
Proof.
  intros Hn Hf. assert (Hnd : NoDup (n :: rest)).
  { rewrite <- Hf. apply NoDup_filter, NoDup_seqZ. }
  apply NoDup_cons in Hnd as [Hnin _]. unfold free_frames in *. rewrite Hn.
  transitivity (filter (fun k => k <> n) (n :: rest)).
  - rewrite <- Hf, list_filter_filter. apply filter_ext_in. intros k _. unfold bupd.
    case_if; naive_solver.
  - rewrite filter_cons_False by naive_solver. apply filter_all. intros k Hk ->. done.
Qed.

(** The entry alloc_frame leaves. *)
Definition frame_entry (usr wr addr w : Z) : Z :=
  fset frame (Z.shiftr addr 12) (fset user usr (fset rw wr (fset present 1 w))).

Lemma frame_entry_fields usr wr addr w :
  0 <= addr < 2 ^ 40 -> addr mod 4096 = 0 ->
  let w' := frame_entry usr wr addr w in
  fget present w' = 1 /\ fget rw w' = wr mod 2 /\ fget user w' = usr mod 2 /\
  4096 * fget frame w' = addr /\ fget nx w' = fget nx w.
Proof.
  intros Ha Hm w'. unfold w', frame_entry. split_and!; fields; simpl field_width; try done.
  rewrite Z.shiftr_div_pow2 by lia. change (2 ^ 12) with 4096.
  rewrite Z.mod_small by div_lia. div_lia.
Qed.

Section frames.
Context (s : mm) (used : Z -> bool) (Hly : region s) (Hrep : pmm_rep s used).
Context (page a w : Z) (Hp : points s page a) (Hw : pmem s !! a = Some w) (Ha : outside_bitmap s a).

Lemma frame_addr_range n : 0 <= n < nframes s ->
  4096 <= BIT_NO_TO_ADDR s n /\ BIT_NO_TO_ADDR s n + 4096 <= 2 ^ 40 /\
  BIT_NO_TO_ADDR s n mod 4096 = 0 /\ BIT_NO_TO_ADDR s n + 4096 <= USABLE_END_PHYS_MEM s.
Proof.
  intros Hn. destruct Hly as (H0 & Hm & Hf & He). unfold BIT_NO_TO_ADDR, FRAME_SIZE.
  split_and!; try lia. rewrite Z.mod_add by lia. done.
Qed.

Lemma alloc_frame_spec usr wr n rest Q :
  free_frames s used = n :: rest ->
  (forall w0, let s' := set_head (u64 (phys_mem_head s + 4096))
       (set_pmem (<[a := frame_entry usr wr (BIT_NO_TO_ADDR s n) w]>
          (<[frames s + 8 * (n / 64) := w0]> (pmem s))) s) in
     pmm_rep s' (bupd used n true) -> Q tt s') ->
  wp (alloc_frame page usr wr) Q s.
Proof.
  intros Hf HQ. destruct (free_frames_elem s used n) as (Hn & Hm & Hu); [rewrite Hf; by left|].
  pose proof (frame_addr_range n Hn) as (Ha0 & Ha1 & Ham & _).
  pose proof (frame_index s n Hn) as Hidx.
  destruct (pr_n _ _ Hrep) as [Hn0 Hn52].
  unfold alloc_frame. apply wp_bind. unfold wp at 1.
  rewrite (free_frame_bit_no_run _ _ Hrep), Hf. simpl. unwrap. case_if; [lia|].
  apply wp_bind. apply (set_frame_spec s used); [done | done | done|].
  intros w0 s1 Hrep'. unfold s1 in *. clear s1.
  assert (Hne : frames s + 8 * (n / 64) <> a).
  { unfold outside_bitmap in Ha. lia. }
  apply wp_bind. eapply st_field_spec; [exact Hp | simpl; rewrite lookup_insert_ne by done; exact Hw|].
  simpl. st_fields Hp. apply wp_bind, wp_gets. simpl. st_fields Hp.
  assert (Haddr : u64 (USABLE_START_PHYS_MEM s + u64 (n * FRAME_SIZE)) = BIT_NO_TO_ADDR s n).
  { unfold BIT_NO_TO_ADDR, FRAME_SIZE in *. rewrite (u64_small (n * 4096)) by lia.
    rewrite u64_small by lia. done. }
  rewrite Haddr. apply HQ.
  apply (pmm_rep_insert _ _ a (frame_entry usr wr (BIT_NO_TO_ADDR s n) w)) in Hrep'; [done|].
  unfold outside_bitmap, last_word in *. simpl. done.
Qed.

Lemma free_frame_spec n Q :
  0 <= n < nframes s -> markable n = true -> 4096 * fget frame w = BIT_NO_TO_ADDR s n ->
  (forall w0, let s' := set_pmem (<[a := fset frame 0 w]>
       (<[frames s + 8 * (n / 64) := w0]> (pmem s))) s in
     pmm_rep s' (bupd used n false) -> Q tt s') ->
  wp (free_frame page) Q s.
Proof.
  intros Hn Hm Hfr HQ. pose proof (frame_addr_range n Hn) as (Ha0 & Ha1 & Ham & Hend).
  pose proof (frame_index s n Hn) as Hidx.
  unfold free_frame. apply wp_bind. apply (ld_field_spec _ _ _ _ w _ Hp Hw). case_if; [lia|].
  apply wp_bind, wp_get. simpl.
  assert (Hsh : u64 (Z.shiftl (fget frame w) 12) = BIT_NO_TO_ADDR s n).
  { rewrite Z.shiftl_mul_pow2 by lia. change (2 ^ 12) with 4096. rewrite u64_small; lia. }
  rewrite Hsh. case_if; [lia|].
  assert (Hbit : PHYS_ADDR_TO_BIT_NO s (BIT_NO_TO_ADDR s n) = n).
  { unfold PHYS_ADDR_TO_BIT_NO, BIT_NO_TO_ADDR, FRAME_SIZE in *. case_if; [lia|].
    rewrite Z.add_simpl_l, Z.div_mul by lia. done. }
  rewrite Hbit. apply wp_bind. apply (clear_frame_spec s used); [done | done | done|].
  intros w0 s1 Hrep'. unfold s1 in *. clear s1. eapply st_field_spec; [exact Hp | |].
  { simpl. rewrite lookup_insert_ne; [exact Hw|]. unfold outside_bitmap in Ha. lia. }
  apply HQ. apply (pmm_rep_insert _ _ a (fset frame 0 w)) in Hrep'; [done|].
  unfold outside_bitmap, last_word in *. simpl. done.
Qed.

End frames.

(** C4: alloc_frame takes the first free frame whose bit is among the low 32
    of its bitmap word (the others it never hands out), marks it, and leaves
    a present entry that maps it with the permissions asked for; the frames
    left are the other free ones.  With none left the kernel halts. *)
Theorem alloc_frame_refines s used page a w usr wr :
  region s -> pmm_rep s used -> points s page a -> pmem s !! a = Some w -> outside_bitmap s a ->
  match free_frames s used with
  | [] => alloc_frame page usr wr s = Halted
  | n :: rest => returns (alloc_frame page usr wr) s tt (fun s' =>
      pmm_rep s' (bupd used n true) /\ free_frames s' (bupd used n true) = rest /\
      phys_mem_head s' = u64 (phys_mem_head s + 4096) /\
      exists w', pmem s' !! a = Some w' /\ fget present w' = 1 /\ fget rw w' = wr mod 2 /\
        fget user w' = usr mod 2 /\ 4096 * fget frame w' = BIT_NO_TO_ADDR s n)
  end.
Proof.
  intros Hly Hrep Hp Hw Ha. destruct (free_frames s used) as [|n rest] eqn:Hf.
  - unfold alloc_frame, bind. rewrite (free_frame_bit_no_run _ _ Hrep), Hf. done.
  - apply wp_returns. apply (alloc_frame_spec s used Hly Hrep page a w Hp Hw Ha usr wr n rest _ Hf).
    intros w0 s' Hrep'. split; [done|]. split; [done|].
    destruct (free_frames_elem s used n) as (Hn & _); [rewrite Hf; by left|].
    destruct (frame_addr_range s Hly n Hn) as (Ha0 & Ha1 & Ham & _).
    destruct (frame_entry_fields usr wr (BIT_NO_TO_ADDR s n) w) as (? & ? & ? & ? & _); [lia | done|].
    split; [by apply (free_frames_take s)|]. split; [done|]. eexists.
    split; [apply lookup_insert_eq | done].
Qed.

(** A frame that alloc_frame took goes back with free_frame: the bitmap
    represents the same free frames as before, and the entry no longer names
    a frame. *)
Theorem alloc_free_frame s used page a w usr wr n rest :
  region s -> pmm_rep s used -> points s page a -> pmem s !! a = Some w -> outside_bitmap s a ->
  free_frames s used = n :: rest ->
  wp (alloc_frame page usr wr ;;; free_frame page) (fun _ s' =>
    pmm_rep s' used /\ exists w', pmem s' !! a = Some w' /\ fget frame w' = 0 /\
    forall x, x <> a -> outside_bitmap s x -> pmem s' !! x = pmem s !! x) s.
Proof.
  intros Hly Hrep Hp Hw Ha Hf. apply wp_bind.
  destruct (free_frames_elem s used n) as (Hn & Hm & Hu); [rewrite Hf; by left|].
  destruct (frame_addr_range s Hly n Hn) as (Ha0 & Ha1 & Ham & _).
  apply (alloc_frame_spec s used Hly Hrep page a w Hp Hw Ha usr wr n rest _ Hf).
  intros w0 s1 Hrep1.
  destruct (frame_entry_fields usr wr (BIT_NO_TO_ADDR s n) w) as (_ & _ & _ & Hfr & _); [lia | done|].
  eapply (free_frame_spec s1 (bupd used n true) Hly Hrep1 page a _ Hp (lookup_insert_eq _ _ _) Ha n);
    [done | done | exact Hfr|].
  intros w2 s2 Hrep2. split.
  - eapply pmm_rep_ext; [|exact Hrep2]. intros k. unfold bupd. case_if; [by subst | done].
  - eexists. split; [apply lookup_insert_eq|]. split; [fields; done|].
    intros x Hx Hxb. simpl. pose proof (frame_index s n Hn).
    unfold outside_bitmap in Hxb. rewrite !lookup_insert_ne by lia. done.
Qed.

(** ** get_page *)

(** Entry [i] of table [t] leads to [c]. *)
Definition linked (m : gmap Z Z) (t i c : Z) : Prop :=
  exists w, m !! (t + 8 * i) = Some w /\ fget present w <> 0 /\ 4096 * fget frame w = c.

Lemma walk_step m t lv va c : linked m t (index (S lv) va) c -> walk m t (S lv) va = walk m c lv va.
Proof. intros (w & Hw & Hp & <-). simpl. rewrite Hw. case_if; [done | done]. Qed.

Lemma linked_grows s s' role role' t r i c :
  grows s s' role role' -> role !! t = Some r -> 0 <= i < 512 ->
  linked (pmem s) t i c -> linked (pmem s') t i c.
Proof.
  intros Hg Ht Hi (w & Hw & Hp & Hf).
  destruct (gr_link _ _ _ _ Hg _ _ _ _ Ht Hi Hw Hp) as (w' & Hw' & Hp' & Hf').
  exists w'. split; [done|]. by rewrite Hp', Hf'.
Qed.

Lemma phys_to_vir_spec s pa Q :
  layout s -> 0 < pa < 2 ^ 40 -> pa mod 8 = 0 -> (forall p, points s p pa -> Q p s) ->
  wp (phys_to_vir pa) Q s.
Proof.
  intros Hly Hpa Hm HQ. destruct (ly_hhdm _ Hly) as (H1 & H2 & H3).
  unfold phys_to_vir. mm_steps. rewrite u64_small by lia. apply HQ. split; [lia|].
  split; [div_lia|]. unfold resolve. case_if; lia.
Qed.

(** The entry of [va] in a table of the tree, reached through the direct map. *)
Lemma table_pointer s root role used t r i Q :
  paging_wf s root role used -> role !! t = Some r -> 0 <= i < 512 ->
  (forall p, points s p (t + 8 * i) -> Q p s) -> wp (phys_to_vir (t + 8 * i)) Q s.
Proof.
  intros Hwf Ht Hi HQ. destruct r as [lv pre].
  destruct (tw_table _ _ _ (pw_tables _ _ _ _ Hwf) _ _ _ Ht) as (? & Hm & ? & _).
  apply phys_to_vir_spec; [apply Hwf | lia | div_lia | done].
Qed.

Definition vpn (va : Z) : Z := (va mod 2 ^ 48) / 4096.

(** [t] is the table of the lowest level for [va], the links to it are there. *)
Definition leaf_of (m : gmap Z Z) (root : Z) (role : roles) (va t : Z) : Prop := exists t3 t2,
  role !! root = Some (4%nat, 0) /\ role !! t3 = Some (3%nat, prefix 3 va) /\
  role !! t2 = Some (2%nat, prefix 2 va) /\ role !! t = Some (1%nat, prefix 1 va) /\
  linked m root (index 4 va) t3 /\ linked m t3 (index 3 va) t2 /\ linked m t2 (index 2 va) t.

Lemma leaf_walk m root role va t : leaf_of m root role va t -> walk m root 4 va = walk m t 1 va.
Proof.
  intros (t3 & t2 & _ & _ & _ & _ & H4 & H3 & H2).
  by rewrite (walk_step _ _ _ _ _ H4), (walk_step _ _ _ _ _ H3), (walk_step _ _ _ _ _ H2).
Qed.

Lemma linked_agree s root role t i t' r r' j c m' :
  tables_wf s root role -> agree_but role t i (pmem s) m' -> role !! t' = Some r' ->
  role !! t = Some r -> r.1 <> r'.1 -> 0 <= i < 512 -> 0 <= j < 512 ->
  linked (pmem s) t' j c -> linked m' t' j c.
Proof.
  intros Hwf Hag Ht' Ht Hne Hi Hj (w & Hw & Hp & Hf). exists w. split; [|done].
  rewrite (Hag _ _ _ Ht' Hj); [done|]. intros He.
  destruct (table_word_inj _ _ _ _ _ _ _ _ _ Hwf Ht' Ht Hj Hi He) as [-> _]. naive_solver.
Qed.

(** Changing the entry of [va] changes the translation of its page and of no
    other. *)
Lemma leaf_update s root role va t m' w' :
  tables_wf s root role -> 0 <= va -> leaf_of (pmem s) root role va t ->
  agree_but role t (index 1 va) (pmem s) m' -> m' !! (t + 8 * index 1 va) = Some w' ->
  leaf_of m' root role va t /\
  walk m' root 4 va =
    (if fget present w' =? 0 then None else Some (4096 * fget frame w' + va mod 4096)) /\
  forall va', 0 <= va' -> vpn va' <> vpn va -> walk m' root 4 va' = walk (pmem s) root 4 va'.
Proof.
  intros Hwf Hva Hleaf Hag Hw'. pose proof Hleaf as (t3 & t2 & H4 & H3 & H2 & H1 & Hl4 & Hl3 & Hl2).
  pose proof (index_range 1 va) as Hidx.
  assert (Hleaf' : leaf_of m' root role va t).
  { exists t3, t2. split_and!; try done.
    - eapply (linked_agree s root role t); [done | done | exact H4 | exact H1 | done | done| |done].
      apply index_range.
    - eapply (linked_agree s root role t); [done | done | exact H3 | exact H1 | done | done| |done].
      apply index_range.
    - eapply (linked_agree s root role t); [done | done | exact H2 | exact H1 | done | done| |done].
      apply index_range. }
  split; [done|]. split.
  - rewrite (leaf_walk _ _ _ _ _ Hleaf'). cbn [walk]. rewrite Hw'. done.
  - intros va' Hva' Hv.
    apply (walk_other s root role Hwf _ t (index 1 va) 1 (prefix 1 va)); try done; try lia.
    + rewrite <- (prefix_step 1 va) by lia. exact Hv.
    + by rewrite prefix_4.
Qed.

(** The result of get_page: a pointer to the present entry of [va], whose
    frame is the one mapped before or, where nothing was, the frame [n]. *)
Definition page_got (s : mm) (root va n : Z) (used used' : Z -> bool) (s' : mm) : Prop :=
  match translate s root va with
  | Some pa => used' = used /\ translate s' root va = Some pa
  | None => used' = bupd used n true /\
      translate s' root va = Some (BIT_NO_TO_ADDR s n + va mod 4096)
  end /\
  forall va', 0 <= va' -> vpn va' <> vpn va -> translate s' root va' = translate s root va'.

(** The last part of get_page, at the entry of a table of the lowest level. *)
Definition get_leaf (page usr : Z) : M mm Z :=
  let! p := ld_field page present in
  if p =? 0 then
    alloc_frame page usr 1 ;;;
    let! f := ld_field page frame in
    if f =? 0 then ret 0 else st_field page user usr ;;; ret page
  else ret page.

(** The state after a frame was marked and an entry of the lowest level
    written. *)
Lemma marked_wf s root role used used' t pre i n w0 w w' :
  paging_wf s root role used -> role !! t = Some (1%nat, pre) -> 0 <= i < 512 ->
  0 <= n < nframes s -> 0 <= w' < 2 ^ 64 ->
  let st v := set_head (phys_mem_head s + 4096)
    (set_pmem (<[t + 8 * i := v]> (<[frames s + 8 * (n / 64) := w0]> (pmem s))) s) in
  pmm_rep (st w) used' ->
  paging_wf (st w') root role used' /\ agree_but role t i (pmem s) (pmem (st w')).
Proof.
  intros [Hly Hrep Htw] Ht Hi Hn Hw' st Hrep'. pose proof (frame_index s n Hn) as Hidx.
  assert (Hout : forall t' r j, role !! t' = Some r -> 0 <= j < 512 -> outside_bitmap s (t' + 8 * j))
    by (intros; by eapply table_outside_bitmap).
  assert (Hbm : forall t' r j, role !! t' = Some r -> 0 <= j < 512 ->
    frames s + 8 * (n / 64) <> t' + 8 * j).
  { intros t' r j Ht' Hj. pose proof (Hout _ _ _ Ht' Hj) as Ho. unfold outside_bitmap in Ho. lia. }
  split.
  - destruct Hly as [? ? ? ? ? ?]. split.
    + split; unfold last_word in *; simpl in *; done || lia.
    + eapply (pmm_rep_insert _ _ (t + 8 * i) w') in Hrep'; [|by eapply Hout].
      simpl in Hrep'. rewrite insert_insert_eq in Hrep'. exact Hrep'.
    + refine (entry_update_tables (set_head (phys_mem_head s + 4096)
        (set_pmem (<[frames s + 8 * (n / 64) := w0]> (pmem s)) s)) root role t 1 pre i w' _ Ht Hi _ _).
      * apply tables_wf_ext; [done | lia|]. intros t' r j Ht' Hj.
        rewrite lookup_insert_ne by (by eapply Hbm). done.
      * done.
      * intros _. lia.
  - intros t' r j Ht' Hj Hne. simpl. rewrite lookup_insert_ne, lookup_insert_ne; [done| |done].
    by eapply Hbm.
Qed.

Lemma frame_entry_range usr wr addr w : 0 <= w -> 0 <= frame_entry usr wr addr w < 2 ^ 64.
Proof. intros. unfold frame_entry. by apply fset_range, fset_range, fset_range, fset_range. Qed.

Section leaf.
Context (s : mm) (root : Z) (role : roles) (used : Z -> bool).
Context (Hwf : paging_wf s root role used).
Context (t pre i page usr w n : Z) (rest : list Z).
Context (Ht : role !! t = Some (1%nat, pre)) (Hi : 0 <= i < 512) (Hp : points s page (t + 8 * i)).
Context (Hw : pmem s !! (t + 8 * i) = Some w) (Hnp : fget present w = 0).
Context (Hroom : phys_mem_head s + 4096 <= USABLE_END_PHYS_MEM s).
Context (Hfree : free_frames s used = n :: rest).

Lemma get_leaf_spec Q :
  (forall s' w', paging_wf s' root role (bupd used n true) -> but_mem_head s s' ->
     agree_but role t i (pmem s) (pmem s') -> pmem s' !! (t + 8 * i) = Some w' ->
     fget present w' = 1 -> 4096 * fget frame w' = BIT_NO_TO_ADDR s n ->
     fget user w' = usr mod 2 -> phys_mem_head s' = phys_mem_head s + 4096 -> Q page s') ->
  wp (get_leaf page usr) Q s.
Proof.
  intros HQ. pose proof (pw_layout _ _ _ _ Hwf) as Hly. pose proof (pw_tables _ _ _ _ Hwf) as Htw.
  pose proof (layout_region s Hly) as Hreg.
  destruct (free_frames_elem s used n) as (Hn & _); [rewrite Hfree; by left|].
  destruct (frame_addr_range s Hreg n Hn) as (Ha0 & Ha1 & Ham & _).
  destruct (frame_entry_fields usr 1 (BIT_NO_TO_ADDR s n) w) as (Hfp & _ & _ & Hff & _); [lia | done|].
  unfold get_leaf. apply wp_bind. apply (ld_field_spec _ _ _ _ w _ Hp Hw). rewrite Hnp. simpl.
  apply wp_bind. apply (alloc_frame_spec s used Hreg (pw_pmm _ _ _ _ Hwf) page _ w Hp Hw
    (table_outside_bitmap _ _ _ _ _ _ Htw Ht Hi) usr 1 n rest _ Hfree).
  intros w0 s1 Hrep1. apply wp_bind.
  eapply (ld_field_spec s1); [exact Hp | apply lookup_insert_eq|]. case_if; [lia|].
  unfold s1 in *. clear s1. simpl. st_fields Hp.
  assert (Hh : u64 (phys_mem_head s + 4096) = phys_mem_head s + 4096).
  { destruct Hly as [[] ? ? ? ? ?]. apply u64_small. lia. }
  rewrite Hh in *. set (w' := fset user usr _).
  destruct (tw_word _ _ _ Htw _ _ _ Ht Hi) as (v & Hv & Hvr). rewrite Hw in Hv. simplify_eq.
  assert (Hr' : 0 <= w' < 2 ^ 64) by (apply fset_range, frame_entry_range; lia).
  destruct (marked_wf s root role used _ t pre i n w0 _ w' Hwf Ht Hi Hn Hr' Hrep1) as [Hwf' Hag].
  apply (HQ _ w'); simpl; try done; [apply lookup_insert_eq | unfold w'; fields; done..].
Qed.
End leaf.

(** The three upper levels of get_page: the table of the lowest level for
    [va], and the links to it. *)
Section upper.
Context (s : mm) (root : Z) (role : roles) (used : Z -> bool).
Context (Hwf : paging_wf s root role used).
Context (va pml4 : Z) (Hva : 0 <= va) (Hpml4 : pml4 = root \/ pml4 = HHDM_OFFSET s + root).

Lemma root_points : pml4 <> 0 /\ points s (pml4 + 8 * PML4_INDEX va) (root + 8 * index 4 va).
Proof.
  pose proof (pw_tables _ _ _ _ Hwf) as Htw.
  destruct (tw_table _ _ _ Htw _ _ _ (tw_root _ _ _ Htw)) as (? & Hm & ? & _).
  destruct (ly_hhdm _ (pw_layout _ _ _ _ Hwf)) as (? & ? & Hh).
  change (PML4_INDEX va) with (index 4 va). pose proof (index_range 4 va).
  split; [lia|]. split; [lia|]. unfold resolve.
  destruct Hpml4 as [->| ->]; (split; [div_lia | case_if; lia]).
Qed.

Lemma get_page_upper usr Q (k : Z -> M mm Z) :
  phys_mem_head s + 3 * 8192 <= USABLE_END_PHYS_MEM s ->
  (forall s' role' t1, paging_wf s' root role' used -> grows s s' role role' ->
     phys_mem_head s <= phys_mem_head s' <= phys_mem_head s + 3 * 8192 ->
     leaf_of (pmem s') root role' va t1 -> wp (k t1) Q s') ->
  wp (let! r := descend 1 usr alloc_pdpt (pml4 + 8 * PML4_INDEX va) in
      match r with
      | None => ret 0
      | Some pdpt =>
          let! pdpt_entry := phys_to_vir (pdpt + 8 * PDPT_INDEX va) in
          let! r := descend 1 usr alloc_pd pdpt_entry in
          match r with
          | None => ret 0
          | Some pd =>
              let! pd_entry := phys_to_vir (pd + 8 * PD_INDEX va) in
              let! r := descend 1 usr alloc_pt pd_entry in
              match r with None => ret 0 | Some pt => k pt end
          end
      end) Q s.
Proof.
  intros Hroom HQ. pose proof (tw_root _ _ _ (pw_tables _ _ _ _ Hwf)) as Hroot.
  pose proof (prefix_step 4 va ltac:(lia) Hva) as Hp3. rewrite prefix_4 in Hp3. simpl Nat.pred in Hp3.
  pose proof (prefix_step 3 va ltac:(lia) Hva) as Hp2. simpl Nat.pred in Hp2.
  pose proof (prefix_step 2 va ltac:(lia) Hva) as Hp1. simpl Nat.pred in Hp1.
  apply wp_bind. unfold alloc_pdpt, alloc_pd.
  apply (descend_spec s root role used Hwf root 2 0 (index 4 va) _ usr Hroot (index_range 4 va)
    (proj2 root_points)); [lia|].
  intros s1 role1 w1 Hwf1 Hg1 Hh1 Hw1 Hpr1 Hr1. rewrite <- Hp3 in Hr1.
  assert (HE1 : USABLE_END_PHYS_MEM s1 = USABLE_END_PHYS_MEM s) by (by rewrite (gr_state _ _ _ _ Hg1)).
  set (t3 := 4096 * fget frame w1) in *. change (PDPT_INDEX va) with (index 3 va).
  apply wp_bind. apply (table_pointer s1 root role1 used t3 (3%nat, prefix 3 va));
    [done | done | apply index_range|]. intros e1 He1. apply wp_bind.
  apply (descend_spec s1 root role1 used Hwf1 t3 1 (prefix 3 va) (index 3 va) e1 usr Hr1
    (index_range 3 va) He1); [lia|].
  intros s2 role2 w2 Hwf2 Hg2 Hh2 Hw2 Hpr2 Hr2. rewrite <- Hp2 in Hr2.
  assert (HE2 : USABLE_END_PHYS_MEM s2 = USABLE_END_PHYS_MEM s1) by (by rewrite (gr_state _ _ _ _ Hg2)).
  set (t2 := 4096 * fget frame w2) in *. change (PD_INDEX va) with (index 2 va).
  apply wp_bind. apply (table_pointer s2 root role2 used t2 (2%nat, prefix 2 va));
    [done | done | apply index_range|]. intros e2 He2. apply wp_bind.
  apply (descend_spec s2 root role2 used Hwf2 t2 0 (prefix 2 va) (index 2 va) e2 usr Hr2
    (index_range 2 va) He2); [lia|].
  intros s3 role3 w3 Hwf3 Hg3 Hh3 Hw3 Hpr3 Hr3. rewrite <- Hp1 in Hr3.
  assert (Hl1 : linked (pmem s1) root (index 4 va) t3) by (by exists w1).
  assert (Hl2 : linked (pmem s2) t3 (index 3 va) t2) by (by exists w2).
  assert (Hr13 : role2 !! t3 = Some (3%nat, prefix 3 va)) by (eapply lookup_weaken; [done | apply Hg2]).
  apply (HQ s3 role3 (4096 * fget frame w3)); try done.
  { eapply grows_trans; [|done]. by eapply grows_trans. }
  { lia. }
  exists t3, t2. split_and!; try done.
  - apply (tw_root _ _ _ (pw_tables _ _ _ _ Hwf3)).
  - eapply lookup_weaken; [exact Hr13 | apply Hg3].
  - eapply lookup_weaken; [exact Hr2 | apply Hg3].
  - eapply linked_grows; [exact Hg3| | apply index_range|].
    { apply (tw_root _ _ _ (pw_tables _ _ _ _ Hwf2)). }
    eapply linked_grows; [exact Hg2| | apply index_range | exact Hl1].
    apply (tw_root _ _ _ (pw_tables _ _ _ _ Hwf1)).
  - eapply linked_grows; [exact Hg3 | exact Hr13 | apply index_range | exact Hl2].
  - by exists w3.
Qed.
End upper.

(** Specification of get_page on a well-formed tree. *)
Lemma get_page_spec s root role used va pml4 n rest Q :
  paging_wf s root role used -> 0 <= va -> pml4 = root \/ pml4 = HHDM_OFFSET s + root ->
  phys_mem_head s + 3 * 8192 + 4096 <= USABLE_END_PHYS_MEM s -> free_frames s used = n :: rest ->
  (forall page s' role' used' t w, paging_wf s' root role' used' -> role ⊆ role' ->
    but_mem_head s s' -> phys_mem_head s' <= phys_mem_head s + 3 * 8192 + 4096 ->
    points s' page (t + 8 * index 1 va) -> leaf_of (pmem s') root role' va t ->
    pmem s' !! (t + 8 * index 1 va) = Some w -> fget present w = 1 ->
    page_got s root va n used used' s' -> Q page s') ->
  wp (get_page va 1 pml4) Q s.
Proof.
  intros Hwf Hva Hpml4 Hroom Hfree HQ. unfold get_page.
  destruct (root_points s root role used Hwf va pml4 Hpml4) as [Hne _].
  destruct (Z.eqb_spec pml4 0) as [|_]; [done|].
  set (usr := if HIGHER_HALF_START_ADDR <=? va then 0 else 1).
  apply (get_page_upper s root role used Hwf va pml4 Hva Hpml4 usr _
    (fun pt => let! page := phys_to_vir (pt + 8 * PT_INDEX va) in get_leaf page usr)); [lia|].
  intros s3 role3 t1 Hwf3 Hg Hh Hleaf.
  change (PT_INDEX va) with (index 1 va). pose proof (index_range 1 va) as Hidx.
  pose proof (gr_state _ _ _ _ Hg) as Hst.
  assert (HE : USABLE_END_PHYS_MEM s3 = USABLE_END_PHYS_MEM s) by (by rewrite Hst).
  assert (HB : BIT_NO_TO_ADDR s3 n = BIT_NO_TO_ADDR s n) by (by rewrite Hst).
  pose proof (pw_tables _ _ _ _ Hwf3) as Htw3.
  pose proof Hleaf as (t3 & t2 & _ & _ & _ & Hr1 & _).
  assert (Hsame : forall va', 0 <= va' -> translate s3 root va' = translate s root va').
  { intros va' Hva'. apply (gr_walk _ _ _ _ Hg); [done | lia|].
    rewrite prefix_4. apply (tw_root _ _ _ (pw_tables _ _ _ _ Hwf)). }
  destruct (tw_word _ _ _ Htw3 _ _ _ Hr1 Hidx) as (w & Hw & _).
  assert (Htr3 : translate s root va =
    if fget present w =? 0 then None else Some (4096 * fget frame w + va mod 4096)).
  { rewrite <- Hsame by done. unfold translate. rewrite (leaf_walk _ _ _ _ _ Hleaf). cbn [walk].
    rewrite Hw. done. }
  apply wp_bind. apply (table_pointer s3 root role3 used t1 (1%nat, prefix 1 va)); [done | done | done|].
  intros page Hp. destruct (present_cases w) as [Hnp|Hpr].
  - apply (get_leaf_spec s3 root role3 used Hwf3 t1 (prefix 1 va) (index 1 va) page usr w n rest);
      try done; [lia | rewrite <- Hfree; rewrite Hst; done|].
    intros s4 w' Hwf4 Hst4 Hag Hw' Hp' Hf' _ Hh4.
    destruct (leaf_update s3 root role3 va t1 (pmem s4) w' Htw3 Hva Hleaf Hag Hw') as (Hleaf' & Htr & Hoth).
    apply (HQ page s4 role3 (bupd used n true) t1 w'); try done.
    + apply Hg.
    + by eapply but_mem_head_trans.
    + lia.
    + rewrite Hst4. exact Hp.
    + split.
      * rewrite Htr3, Hnp. simpl. split; [done|]. unfold translate. rewrite Htr, Hp', Hf', HB. done.
      * intros va' Hva' Hv. rewrite <- Hsame by done. by apply Hoth.
  - unfold get_leaf. apply wp_bind. apply (ld_field_spec _ _ _ _ w _ Hp Hw). rewrite Hpr. simpl.
    apply wp_ret. apply (HQ page s3 role3 used t1 w); try done; [apply Hg | lia|].
    split; [|by intros; apply Hsame]. rewrite Htr3, Hpr. simpl. split; [done|].
    rewrite Hsame, Htr3, Hpr by done. done.
Qed.

(** C3: get_page maps: with memory for three tables and a free frame left it
    returns a pointer to the page-table entry of [va] such that the hardware
    walk of the new tables translates [va] - to the frame it was mapped to
    before, or to a newly allocated one - and every other page translates as
    before.  The tables stay a tree, and frames are marked exactly as handed
    out. *)
Theorem get_page_maps s root role used va pml4 n rest :
  paging_wf s root role used -> 0 <= va -> pml4 = root \/ pml4 = HHDM_OFFSET s + root ->
  phys_mem_head s + 3 * 8192 + 4096 <= USABLE_END_PHYS_MEM s -> free_frames s used = n :: rest ->
  wp (get_page va 1 pml4) (fun page s' => exists role' used' t w,
    paging_wf s' root role' used' /\ role ⊆ role' /\
    points s' page (t + 8 * PT_INDEX va) /\ leaf_of (pmem s') root role' va t /\
    pmem s' !! (t + 8 * PT_INDEX va) = Some w /\ fget present w = 1 /\
    page_got s root va n used used' s') s.
Proof.
  intros Hwf Hva Hpml4 Hroom Hfree.
  apply (get_page_spec s root role used va pml4 n rest); try done.
  intros page s' role' used' t w Hwf' Hr _ _ Hp Hl Hw Hpr Hg. by exists role', used', t, w.
Qed.

(** ** vm_alloc *)

(** The entry vm_alloc leaves for its type. *)
Definition typed_entry (type w : Z) : Z :=
  fset nx 1 (fset rw (if type =? ALLOCATE_CODE then 0 else 1) w).

Lemma set_page_type_spec s page a w type Q :
  points s page a -> pmem s !! a = Some w -> 1 <= type <= 3 ->
  Q tt (set_pmem (<[a := typed_entry type w]> (pmem s)) s) -> wp (set_page_type page type) Q s.
Proof.
  intros Hp Hw Hty HQ. unfold set_page_type, typed_entry, ALLOCATE_CODE, ALLOCATE_DATA, ALLOCATE_STACK in *.
  destruct (Z.eqb_spec type 1) as [->|].
  - apply wp_bind. eapply st_field_spec; [exact Hp | exact Hw|]. st_fields Hp. exact HQ.
  - replace ((type =? 2) || (type =? 3)) with true
      by (destruct (Z.eqb_spec type 2), (Z.eqb_spec type 3); simpl; done || lia).
    apply wp_bind. eapply st_field_spec; [exact Hp | exact Hw|]. st_fields Hp. exact HQ.
Qed.

(** What vm_alloc does with an unmapped page. *)
Record vm_alloced (s : mm) (root : Z) (used : Z -> bool) (va type n1 n2 : Z) (role' : roles) (t w : Z)
    (s' : mm) : Prop := {
  va_wf : paging_wf s' root role' (bupd (bupd used n1 true) n2 true);
  va_leaf : leaf_of (pmem s') root role' va t;
  va_word : pmem s' !! (t + 8 * PT_INDEX va) = Some w;
  va_nx : fget nx w = 1;
  va_rw : fget rw w = (if type =? ALLOCATE_CODE then 0 else 1);
  va_user : fget user w = (if is_kernel_virt_addr va then 1 else 0);
  va_map : translate s' root va = Some (BIT_NO_TO_ADDR s n2 + va mod 4096);
  va_other : forall va', 0 <= va' -> vpn va' <> vpn va -> translate s' root va' = translate s root va';
  va_state : but_mem_head s s';
  va_head : phys_mem_head s' <= phys_mem_head s + 3 * 8192 + 8192
}.

Lemma vm_alloc_spec s root role used va type n1 n2 rest :
  paging_wf s root role used -> cr3 s = root -> 0 <= va -> 1 <= type <= 3 ->
  phys_mem_head s + 3 * 8192 + 8192 <= USABLE_END_PHYS_MEM s ->
  free_frames s used = n1 :: n2 :: rest -> translate s root va = None ->
  wp (vm_alloc va type) (fun _ s' => exists role' t w,
    vm_alloced s root used va type n1 n2 role' t w s') s.
Proof.
  intros Hwf Hcr3 Hva Hty Hroom Hfree Hnone.
  pose proof (tw_root _ _ _ (pw_tables _ _ _ _ Hwf)) as Hroot.
  destruct (tw_table _ _ _ (pw_tables _ _ _ _ Hwf) _ _ _ Hroot) as (Hr0 & _).
  unfold vm_alloc. mm_steps. rewrite Hcr3. case_if; [lia|]. apply wp_bind.
  apply (get_page_spec s root role used va root n1 (n2 :: rest)); try done; [by left | lia|].
  intros page s1 role1 used1 t w Hwf1 _ Hst Hh1 Hp Hleaf Hw Hpr [Hgot Hoth].
  rewrite Hnone in Hgot. destruct Hgot as [-> _]. destruct Hp as (Hp0 & Hp). case_if; [done|].
  assert (Hp' : points s1 page (t + 8 * index 1 va)) by done. clear Hp.
  pose proof (pw_layout _ _ _ _ Hwf1) as Hly1. pose proof (pw_tables _ _ _ _ Hwf1) as Htw1.
  pose proof Hleaf as (_ & _ & _ & _ & _ & Hr1 & _). pose proof (index_range 1 va) as Hidx.
  assert (Hf1 : free_frames s1 (bupd used n1 true) = n2 :: rest)
    by (apply (free_frames_take s); [by rewrite Hst | done]).
  destruct (free_frames_elem s1 (bupd used n1 true) n2) as (Hn2 & _); [rewrite Hf1; by left|].
  destruct (frame_addr_range s1 (layout_region _ Hly1) n2 Hn2) as (Ha0 & Ha1 & Ham & _).
  set (usr := if HIGHER_HALF_START_ADDR <=? va then 1 else 0).
  destruct (frame_entry_fields usr 1 (BIT_NO_TO_ADDR s1 n2) w) as (Hfp & Hfw & Hfu & Hff & _); [lia | done|].
  apply wp_bind. apply (alloc_frame_spec s1 _ (layout_region _ Hly1) (pw_pmm _ _ _ _ Hwf1) page _ w Hp' Hw
    (table_outside_bitmap _ _ _ _ _ _ Htw1 Hr1 Hidx) usr 1 n2 rest _ Hf1).
  intros w0 s2 Hrep2. assert (Hh : u64 (phys_mem_head s1 + 4096) = phys_mem_head s1 + 4096).
  { destruct Hly1 as [[] ? ? ? ? ?]. apply u64_small. rewrite Hst in *. simpl in *. lia. }
  set (w1 := frame_entry usr 1 (BIT_NO_TO_ADDR s1 n2) w) in *. unfold s2 in *. clear s2. rewrite Hh in *.
  apply (set_page_type_spec _ page (t + 8 * index 1 va) w1); [done | apply lookup_insert_eq | done|].
  simpl. rewrite insert_insert_eq.
  assert (Hw1r : 0 <= typed_entry type w1 < 2 ^ 64).
  { apply fset_range, fset_range, frame_entry_range.
    destruct (tw_word _ _ _ Htw1 _ _ _ Hr1 Hidx) as (v & Hv & ?). rewrite Hw in Hv. simplify_eq. lia. }
  destruct (marked_wf s1 root role1 _ _ t _ (index 1 va) n2 w0 _ _ Hwf1 Hr1 Hidx Hn2 Hw1r Hrep2)
    as [Hwf2 Hag].
  destruct (leaf_update s1 root role1 va t _ (typed_entry type w1) Htw1 Hva Hleaf Hag)
    as (Hleaf2 & Htr & Hoth2); [simpl; apply lookup_insert_eq|].
  exists role1, t, (typed_entry type w1). change (PT_INDEX va) with (index 1 va).
  unfold typed_entry in *. split; [done | done | simpl; apply lookup_insert_eq | fields; done |..].
  - fields. simpl field_width. by destruct (type =? ALLOCATE_CODE).
  - fields. rewrite Hfu. unfold usr, is_kernel_virt_addr. by case_if.
  - unfold translate. cbn [pmem set_pmem set_head] in *. rewrite Htr. fields.
    rewrite Hfp, Hff. simpl. by rewrite Hst.
  - intros va' Hva' Hv. rewrite <- Hoth by done. unfold translate. by apply Hoth2.
  - eapply but_mem_head_trans; [exact Hst | done].
  - simpl. lia.
Qed.

(** vm_alloc of an unmapped page takes two frames: one inside get_page and
    one of its own, which replaces the first in the entry, so the first stays
    marked as used and mapped nowhere.  The entry ends up present, never
    executable (code pages included), writable unless it is code, and with the
    user bit set exactly for addresses of the kernel's half. *)
Theorem vm_alloc_takes_two_frames s root role used va type n1 n2 rest :
  paging_wf s root role used -> cr3 s = root -> 0 <= va -> 1 <= type <= 3 ->
  phys_mem_head s + 3 * 8192 + 8192 <= USABLE_END_PHYS_MEM s ->
  free_frames s used = n1 :: n2 :: rest -> translate s root va = None ->
  wp (vm_alloc va type) (fun _ s' => exists role' t w,
    paging_wf s' root role' (bupd (bupd used n1 true) n2 true) /\
    leaf_of (pmem s') root role' va t /\ pmem s' !! (t + 8 * PT_INDEX va) = Some w /\
    fget nx w = 1 /\ fget rw w = (if type =? ALLOCATE_CODE then 0 else 1) /\
    fget user w = (if is_kernel_virt_addr va then 1 else 0) /\
    translate s' root va = Some (BIT_NO_TO_ADDR s n2 + va mod 4096) /\
    forall va', 0 <= va' -> vpn va' <> vpn va -> translate s' root va' = translate s root va') s.
Proof.
  intros Hwf Hcr3 Hva Hty Hroom Hfree Hnone.
  eapply wp_mono; [by apply (vm_alloc_spec s root role used va type n1 n2 rest)|].
  intros _ s' (role' & t & w & []). by exists role', t, w.
Qed.
