(* ===== verification/VmmProps.v ===== *)
(** map_page and the kernel heap on the page tables, and a small machine on
    which the theorems about memory are instantiated. *)
From S2P Require Import Prelude Pmm Paging PagingProps.

(** ** map_page *)

(** The pointer, through the direct map, to a word of a table. *)
Lemma direct_points s root role used t r i :
  paging_wf s root role used -> role !! t = Some r -> 0 <= i < 512 ->
  points s (HHDM_OFFSET s + t + 8 * i) (t + 8 * i).
Proof.
  intros Hwf Ht Hi. destruct r as [lv pre].
  destruct (tw_table _ _ _ (pw_tables _ _ _ _ Hwf) _ _ _ Ht) as (? & Hm & ? & _).
  destruct (ly_hhdm _ (pw_layout _ _ _ _ Hwf)) as (? & ? & Hh).
  split; [lia|]. split; [div_lia|]. unfold resolve. case_if; lia.
Qed.

Lemma map_level_present s root role used t r i c va alloc Q :
  paging_wf s root role used -> role !! t = Some r -> 0 <= i < 512 ->
  linked (pmem s) t i c -> 0 <= c < 2 ^ 40 -> Q (Some (HHDM_OFFSET s + c)) s ->
  wp (map_level va alloc (HHDM_OFFSET s + t + 8 * i)) Q s.
Proof.
  intros Hwf Ht Hi (w & Hw & Hp & Hf) Hc HQ.
  pose proof (direct_points _ _ _ _ _ _ _ Hwf Ht Hi) as Hpt.
  destruct (ly_hhdm _ (pw_layout _ _ _ _ Hwf)) as (? & ? & _).
  unfold map_level. apply wp_bind. apply (ld_field_spec _ _ _ _ w _ Hpt Hw). apply wp_bind.
  case_if; [lia|]. apply wp_ret. simpl. apply wp_bind. apply (ld_field_spec _ _ _ _ w _ Hpt Hw).
  unfold phys_to_vir. mm_steps. rewrite Z.shiftl_mul_pow2 by lia. change (2 ^ 12) with 4096.
  replace (fget frame w * 4096) with c by lia. unwrap. by rewrite (Z.add_comm c).
Qed.

(** The entry map_page leaves. *)
Definition mapped_entry (phys flags w : Z) : Z :=
  fset user (flag flags PAGE_USER) (fset rw (flag flags PAGE_WRITE)
    (fset present (flag flags PAGE_PRESENT) (fset frame (Z.shiftr phys 12) w))).

Lemma mapped_entry_fields phys flags w :
  0 <= phys < 2 ^ 52 -> phys mod 4096 = 0 -> 0 <= w ->
  let w' := mapped_entry phys flags w in
  0 <= w' < 2 ^ 64 /\ fget present w' = flag flags PAGE_PRESENT /\ 4096 * fget frame w' = phys.
Proof.
  intros Hp Hm Hw w'. unfold w', mapped_entry. split_and!.
  - by apply fset_range, fset_range, fset_range, fset_range.
  - apply fset_range, fset_range, fset_range, fset_range. done.
  - fields. unfold flag. by case_if.
  - fields. simpl field_width. rewrite Z.shiftr_div_pow2 by lia. change (2 ^ 12) with 4096.
    rewrite Z.mod_small by div_lia. div_lia.
Qed.

(** Map_page, where the tables for the address exist, installs exactly
    the mapping asked for: it returns 0, the hardware walk then takes the page
    to the given frame when the flags say present and nowhere otherwise, all
    other pages translate as before and no frame changes hands. *)
Theorem map_page_maps s root role used t phys va flags :
  paging_wf s root role used -> cr3 s = root -> leaf_of (pmem s) root role va t ->
  0 <= va -> va mod 4096 = 0 -> 0 <= phys < 2 ^ 52 -> phys mod 4096 = 0 ->
  returns (map_page phys va flags) s 0 (fun s' =>
    paging_wf s' root role used /\ but_mem s s' /\
    translate s' root va = (if flag flags PAGE_PRESENT =? 0 then None else Some phys) /\
    forall va', 0 <= va' -> vpn va' <> vpn va -> translate s' root va' = translate s root va').
Proof.
  intros Hwf Hcr3 Hleaf Hva Hvm Hphys Hpm. apply wp_returns.
  pose proof (pw_tables _ _ _ _ Hwf) as Htw.
  pose proof Hleaf as (t3 & t2 & H4 & H3 & H2 & H1 & Hl4 & Hl3 & Hl2).
  destruct (tw_table _ _ _ Htw _ _ _ H4) as (? & Hrm & ? & _).
  destruct (tw_table _ _ _ Htw _ _ _ H3) as (? & _ & ? & _).
  destruct (tw_table _ _ _ Htw _ _ _ H2) as (? & _ & ? & _).
  destruct (tw_table _ _ _ Htw _ _ _ H1) as (? & _ & ? & _).
  destruct (ly_hhdm _ (pw_layout _ _ _ _ Hwf)) as (? & ? & _).
  unfold map_page. rewrite !land_low12, Hpm, Hvm. simpl. mm_steps. rewrite Hcr3.
  rewrite land_page by lia. replace (4096 * (root / 4096)) with root by div_lia.
  unfold phys_to_vir at 1. mm_steps. rewrite u64_small by lia. case_if; [lia|].
  rewrite (Z.add_comm root). apply wp_bind. change (PML4_INDEX va) with (index 4 va).
  apply (map_level_present s root role used root _ _ t3 _ _ _ Hwf H4 (index_range 4 va) Hl4); [lia|].
  apply wp_bind. change (PDPT_INDEX va) with (index 3 va).
  apply (map_level_present s root role used t3 _ _ t2 _ _ _ Hwf H3 (index_range 3 va) Hl3); [lia|].
  apply wp_bind. change (PD_INDEX va) with (index 2 va).
  apply (map_level_present s root role used t2 _ _ t _ _ _ Hwf H2 (index_range 2 va) Hl2); [lia|].
  change (PT_INDEX va) with (index 1 va). pose proof (index_range 1 va) as Hidx.
  pose proof (direct_points _ _ _ _ _ _ _ Hwf H1 Hidx) as Hpt.
  destruct (tw_word _ _ _ Htw _ _ _ H1 Hidx) as (w & Hw & Hwr).
  destruct (mapped_entry_fields phys flags w) as (Hr & Hfp & Hff); [done | done | lia|].
  cbv zeta. apply wp_bind. eapply st_field_spec; [exact Hpt | exact Hw|]. st_fields Hpt.
  fold (mapped_entry phys flags w). split; [done|].
  destruct (leaf_update s root role va t (<[t + 8 * index 1 va := mapped_entry phys flags w]> (pmem s))
    (mapped_entry phys flags w) Htw Hva Hleaf) as (_ & Htr & Hoth);
    [apply agree_but_insert | apply lookup_insert_eq|].
  split; [|split; [done|split; [|done]]].
  - refine (entry_update_wf s root role used t 1 (prefix 1 va) (index 1 va) _ Hwf H1 Hidx Hr _). lia.
  - unfold translate. cbn [pmem set_pmem]. by rewrite Htr, Hfp, Hff, Hvm, Z.add_0_r.
Qed.

(** Where a table is missing map_page loses the one it allocates: the
    allocator returns physical addresses, vir_to_phys answers 0 for those, so
    the entry is made present with frame 0 and map_page goes on in physical
    page 0. *)
Theorem map_page_links_page_zero s root role used va w :
  paging_wf s root role used -> 0 <= va ->
  pmem s !! (root + 8 * PML4_INDEX va) = Some w -> fget present w = 0 ->
  phys_mem_head s + 8192 <= USABLE_END_PHYS_MEM s ->
  returns (map_level va alloc_pdpt (HHDM_OFFSET s + root + 8 * PML4_INDEX va)) s
    (Some (HHDM_OFFSET s)) (fun s' => linked (pmem s') root (PML4_INDEX va) 0).
Proof.
  intros Hwf Hva Hw Hnp Hroom. apply wp_returns. change (PML4_INDEX va) with (index 4 va) in *.
  pose proof (pw_tables _ _ _ _ Hwf) as Htw. pose proof (tw_root _ _ _ Htw) as Hroot.
  pose proof (index_range 4 va) as Hidx.
  pose proof (direct_points _ _ _ _ _ _ _ Hwf Hroot Hidx) as Hp.
  pose proof (pw_layout _ _ _ _ Hwf) as [[] ? ? ? ? (? & ? & ?)].
  destruct (tw_table _ _ _ Htw _ _ _ Hroot) as (_ & _ & _ & _ & _ & Hrh).
  unfold map_level, alloc_pdpt. apply wp_bind. apply (ld_field_spec _ _ _ _ w _ Hp Hw).
  rewrite Hnp. simpl. apply wp_bind, wp_bind. apply (alloc_pt_spec s root role used); [done | done|].
  intros c m1 Hc Hal _ Hag. case_if; [lia|]. apply wp_bind.
  apply zero_words_spec; simpl; try lia; [div_lia|]. intros m2 _ Hag2. apply wp_bind.
  unfold vir_to_phys. mm_steps. simpl. case_if; [lia|]. case_if; [|lia]. mm_steps.
  eapply st_field_spec; [exact Hp | simpl; rewrite Hag2, Hag by lia; exact Hw|]. simpl. st_fields Hp.
  apply wp_bind. eapply ld_field_spec; [exact Hp | simpl; apply lookup_insert_eq|].
  unfold phys_to_vir. fields. mm_steps. split.
  { change (u64 (Z.shiftl (Z.shiftr 0 12 mod 2 ^ field_width frame) 12)) with 0. simpl.
    by rewrite u64_small by lia. }
  simpl.   eexists. split; [apply lookup_insert_eq|]. split; fields; by vm_compute.
Qed.

(** ** The kernel heap *)

Lemma page_round_val size : 0 <= size < 2 ^ 63 -> page_round size = 4096 * ((size + 4095) / 4096).
Proof.
  intros Hs. unfold page_round. change (size + 0xFFF) with (size + 4095). unwrap.
  apply land_page. lia.
Qed.

Lemma paging_wf_va_head s root role used v :
  paging_wf s root role used -> paging_wf (set_va_head v s) root role used.
Proof. intros [[] [] []]. split; split; done. Qed.

Lemma vpn_block h i j : 0 <= h -> h mod 4096 = 0 -> 0 <= i < 2 ^ 30 -> 0 <= j < 2 ^ 30 -> i <> j ->
  vpn (h + 4096 * i) <> vpn (h + 4096 * j).
Proof.
  intros H0 Hm Hi Hj Hne. unfold vpn. intros He.
  pose proof (Z.div_mod (h + 4096 * i) (2 ^ 48)). pose proof (Z.div_mod (h + 4096 * j) (2 ^ 48)).
  assert (Ha : forall x, x mod 4096 = 0 -> (x mod 2 ^ 48) mod 4096 = 0).
  { intros x Hx. change (2 ^ 48) with 281474976710656. div_lia. }
  assert (Hi4 : (h + 4096 * i) mod 4096 = 0) by (rewrite Z.mul_comm, Z.mod_add by lia; done).
  assert (Hj4 : (h + 4096 * j) mod 4096 = 0) by (rewrite Z.mul_comm, Z.mod_add by lia; done).
  pose proof (Ha _ Hi4). pose proof (Ha _ Hj4).
  assert (Heq : (h + 4096 * i) mod 2 ^ 48 = (h + 4096 * j) mod 2 ^ 48) by div_lia.
  rewrite Heq in *. lia.
Qed.

Section kheap.
Context (s : mm) (root : Z) (role : roles) (used : Z -> bool) (type k : Z).
Context (Hwf : paging_wf s root role used) (Hcr3 : cr3 s = root) (Hty : 1 <= type <= 3).
Let h := h_va_head s.
Context (Hh0 : 0 <= h) (Hhm : h mod 4096 = 0) (Hhk : h + 4096 * k + 4096 < 2 ^ 64).
Context (Hroom : phys_mem_head s + k * 32768 <= USABLE_END_PHYS_MEM s).
Context (Hfree : 2 * k <= zlen (free_frames s used)).
Context (Hun : forall j, 0 <= j < k -> translate s root (h + 4096 * j) = None).

(** The first [j] pages of the block are mapped, to the frames [ns]. *)
Record heap_inv (j : Z) (ns : list Z) (role' : roles) (used' : Z -> bool) (s' : mm) : Prop := {
  hi_range : 0 <= j <= k;
  hi_wf : paging_wf s' root role' used';
  hi_state : s' = set_va_head (h + 4096 * j) (set_head (phys_mem_head s') (set_pmem (pmem s') s));
  hi_head : phys_mem_head s' <= phys_mem_head s + j * 32768;
  hi_free : 2 * (k - j) <= zlen (free_frames s' used');
  hi_used : forall n, used n = true -> used' n = true;
  hi_ns : zlen ns = j /\ NoDup ns /\ Forall (fun n => used n = false /\ used' n = true) ns;
  hi_map : forall i n, ns !! i = Some n ->
    translate s' root (h + 4096 * Z.of_nat i) = Some (BIT_NO_TO_ADDR s n);
  hi_other : forall va, 0 <= va -> (forall i, 0 <= i < j -> vpn va <> vpn (h + 4096 * i)) ->
    translate s' root va = translate s root va
}.

Lemma heap_inv_start : 0 <= k -> heap_inv 0 [] role used s.
Proof.
  intros Hk. split; try done; try lia.
  - rewrite Z.mul_0_r, Z.add_0_r. unfold h. by destruct s.
  - split; [done|]. split; [apply NoDup_nil_2 | by apply Forall_nil].
Qed.

Lemma k_small : k < 2 ^ 30.
Proof. destruct (pw_layout _ _ _ _ Hwf) as [[] ? ? ? ? _]. lia. Qed.

Lemma heap_inv_step j ns role' used' s' :
  heap_inv j ns role' used' s' -> j < k ->
  wp (vm_alloc (h + 4096 * j) type) (fun _ s2 => exists n role2 used2,
    heap_inv (j + 1) (ns ++ [n]) role2 used2
      (set_va_head (h + 4096 * (j + 1)) s2) /\ h_va_head s2 = h + 4096 * j) s'.
Proof.
  intros [Hr Hwf' Hst Hhd Hfr Hus (Hln & Hnd & Hns) Hmap Hoth] Hj. pose proof k_small as Hks.
  destruct (free_frames s' used') as [|n1 [|n2 rest]] eqn:Hf; [simpl in Hfr; lia..|].
  assert (He : cr3 s' = root /\ USABLE_END_PHYS_MEM s' = USABLE_END_PHYS_MEM s /\ h_va_head s' = h + 4096 * j)
    by (rewrite Hst; done).
  destruct He as (Hc' & HE & Hva).
  assert (Hblock : forall i, 0 <= i < j -> vpn (h + 4096 * j) <> vpn (h + 4096 * i))
    by (intros i Hi; apply vpn_block; lia || done).
  eapply wp_mono.
  { apply (vm_alloc_spec s' root role' used' (h + 4096 * j) type n1 n2 rest); try done; try lia.
    rewrite Hoth by (done || lia). apply Hun. lia. }
  intros _ s2 (role2 & t & w & [Hwf2 _ _ _ _ _ Hm2 Ho2 Hs2 Hh2]).
  exists n2, role2, (bupd (bupd used' n1 true) n2 true).
  destruct (free_frames_elem s' used' n2) as (Hn2 & _ & Hu2); [rewrite Hf; right; by left|].
  assert (Huo : used n2 = false).
  { destruct (used n2) eqn:E; [|done]. rewrite (Hus _ E) in Hu2. done. }
  assert (Hmono : forall n, used' n = true -> bupd (bupd used' n1 true) n2 true n = true).
  { intros n Hn. unfold bupd. by repeat case_if. }
  split; [|by rewrite Hs2].
  assert (HBs : BIT_NO_TO_ADDR s' n2 = BIT_NO_TO_ADDR s n2) by (by rewrite Hst).
  assert (Hal : (h + 4096 * j) mod 4096 = 0) by (rewrite Z.mul_comm, Z.mod_add by lia; done).
  split; try done; try lia.
  - by apply paging_wf_va_head.
  - rewrite Hs2, Hst. done.
  - simpl. lia.
  - assert (Hrest : free_frames (set_va_head (h + 4096 * (j + 1)) s2) (bupd (bupd used' n1 true) n2 true) = rest).
    { apply (free_frames_take s'); [by rewrite Hs2|]. by apply (free_frames_take s'). }
    rewrite Hrest. simpl in Hfr. lia.
  - intros n Hn. apply Hmono, Hus, Hn.
  - rewrite length_app. simpl. split; [lia|]. split.
    + apply NoDup_app. split; [done|]. split; [|apply NoDup_singleton].
      intros n Hin Hin2. apply list_elem_of_singleton in Hin2 as ->.
      rewrite Forall_forall in Hns. destruct (Hns _ Hin) as [_ Hx]. by rewrite Hx in Hu2.
    + apply Forall_app. split.
      * eapply Forall_impl; [exact Hns|]. intros n [H1 H2]. split; [done | by apply Hmono].
      * apply Forall_singleton. split; [done | apply bupd_eq].
  - intros i n Hi. apply lookup_app_Some in Hi as [Hi|[Hge Hi]].
    + pose proof (lookup_lt_Some _ _ _ Hi). rewrite <- (Hmap i n Hi). apply Ho2; [lia|]. apply not_eq_sym, Hblock. lia.
    + assert (i = length ns) as -> by (apply lookup_lt_Some in Hi; simpl in Hi; lia).
      rewrite Nat.sub_diag in Hi. simpl in Hi. simplify_eq.
      rewrite Hal, Z.add_0_r, HBs in Hm2. exact Hm2.
  - intros va Hva0 Hne. transitivity (translate s' root va).
    + apply Ho2; [done|]. apply Hne. lia.
    + apply Hoth; [done|]. intros i Hi. apply Hne. lia.
Qed.
End kheap.

(** C34: kheap_alloc maps its block: it returns the heap's head, every page of
    the block then translates to a frame of its own that was free before, all
    other pages translate as before, and the head moves past the block and one
    unmapped guard page.  (Needs five pages of physical memory and two free
    frames per page, and a block not mapped yet.) *)
Theorem kheap_alloc_maps s root role used size type fuel :
  let h := h_va_head s in let k := (size + 4095) / 4096 in
  paging_wf s root role used -> cr3 s = root -> 1 <= type <= 3 -> 0 < size ->
  0 <= h -> h mod 4096 = 0 -> h + 4096 * k + 4096 < 2 ^ 64 ->
  phys_mem_head s + k * 32768 <= USABLE_END_PHYS_MEM s ->
  2 * k <= zlen (free_frames s used) ->
  (forall j, 0 <= j < k -> translate s root (h + 4096 * j) = None) -> k < Z.of_nat fuel ->
  returns (kheap_alloc fuel size type) s h (fun s' => exists ns role' used',
    paging_wf s' root role' used' /\ h_va_head s' = h + 4096 * k + 4096 /\
    zlen ns = k /\ NoDup ns /\ Forall (fun n => used n = false /\ used' n = true) ns /\
    (forall i n, ns !! i = Some n ->
       translate s' root (h + 4096 * Z.of_nat i) = Some (BIT_NO_TO_ADDR s n)) /\
    forall va, 0 <= va -> (forall i, 0 <= i < k -> vpn va <> vpn (h + 4096 * i)) ->
      translate s' root va = translate s root va).
Proof.
  intros h k Hwf Hcr3 Hty Hsz Hh0 Hhm Hhk Hroom Hfree Hun Hfuel. apply wp_returns.
  assert (0 <= k) by (unfold k; div_lia). assert (size <= 4096 * k) by (unfold k; div_lia).
  unfold kheap_alloc. mm_steps. fold h.
  rewrite page_round_val by (destruct (pw_layout _ _ _ _ Hwf) as [[] ? ? ? ? _]; lia). fold k.
  rewrite (u64_small (h + 4096 * k)) by lia. unfold HIGHER_HALF_END_ADDR. case_if; [lia|].
  apply wp_bind. unfold heap_pages.
  apply (wp_iter_idx (fun j => Z.to_nat (k - j))
    (fun j _ s' => exists ns role' used', heap_inv s root used k j ns role' used' s')) with (t := 0).
  - intros j _ s' (ns & role' & used' & Hinv). apply wp_bind, wp_gets.
    assert (Hva : h_va_head s' = h + 4096 * j) by (by rewrite (hi_state _ _ _ _ _ _ _ _ _ Hinv)).
    pose proof (hi_range _ _ _ _ _ _ _ _ _ Hinv). rewrite Hva. case_if.
    + apply wp_bind. eapply wp_mono.
      { eapply (heap_inv_step s root role used type k); try eassumption; try done; lia. }
      intros _ s2 (n & role2 & used2 & Hinv2 & Hva2). fold h in Hinv2, Hva2.
      mm_steps. rewrite Hva2. unfold PAGE_SIZE. rewrite u64_small by lia. exists (j + 1).
      replace (h + 4096 * j + 4096) with (h + 4096 * (j + 1)) by lia. split; [|lia].
      exists (ns ++ [n]), role2, used2. exact Hinv2.
    + assert (j = k) as -> by lia. mm_steps. rewrite Hva. unfold PAGE_SIZE. rewrite u64_small by lia.
      split; [done|]. destruct Hinv as [_ Hwf' _ _ _ _ (Hln & Hnd & Hns) Hmap Hoth].
      exists ns, role', used'. split; [by apply paging_wf_va_head|]. split; [done|].
      repeat (split; [done|]). done.
  - exists [], role, used. by apply heap_inv_start.
  - lia.
Qed.

(** The out-of-memory check of kheap_alloc cannot fail, it compares a
    64-bit sum with the largest 64-bit number: a request past the end of the
    address space wraps, and the head is returned with no page mapped. *)
Theorem kheap_alloc_unchecked s size type fuel :
  0 <= h_va_head s < 2 ^ 64 -> 0 <= size < 2 ^ 63 -> 2 ^ 64 <= h_va_head s + page_round size ->
  kheap_alloc (S fuel) size type s = Ret (h_va_head s, set_va_head (u64 (h_va_head s + 4096)) s).
Proof.
  intros Hh Hs Hov. rewrite page_round_val in Hov by done.
  assert (4096 * ((size + 4095) / 4096) < 2 ^ 64) by div_lia.
  set (ps := 4096 * ((size + 4095) / 4096)) in *.
  assert (Hw : u64 (h_va_head s + ps) = h_va_head s + ps - 2 ^ 64).
  { unfold u64. change 18446744073709551616 with (2 ^ 64). symmetry.
    apply Z.mod_unique_pos with 1; lia. }
  unfold kheap_alloc, bind, gets, obind. rewrite page_round_val by done. fold ps. rewrite Hw.
  unfold HIGHER_HALF_END_ADDR. case_if; [lia|]. unfold heap_pages. simpl. unfold bind, gets, obind.
  case_if; [lia|]. done.
Qed.

(** ** A small machine *)

(** 1 MiB of usable memory at 1 MiB, with the bitmap at its start and an
    empty PML4 at 0x1000. *)
Module SmallVm.
Definition root : Z := 0x1000.
Definition hhdm : Z := 0xFFFF800000000000.
Definition mem0 : gmap Z Z :=
  list_to_map ((fun i => (root + 8 * i, 0)) <$> seqZ 0 512) ∪
  list_to_map ((fun i => (0x100000 + 8 * i, 0)) <$> seqZ 0 4).
Definition s : mm := mk_mm mem0 0x100000 256 0x101000 0x100000 0x200000 0x100000 0x200000 hhdm root
  HIGHER_HALF_START_ADDR 0x501000.
Definition role : roles := {[ root := (4%nat, 0) ]}.
Definition none : Z -> bool := fun _ => false.

Lemma root_words i : 0 <= i < 512 -> mem0 !! (root + 8 * i) = Some 0.
Proof.
  intros Hi.
  assert (Hall : forallb (fun i => bool_decide (mem0 !! (root + 8 * i) = Some 0)) (seqZ 0 512) = true)
    by (by vm_compute).
  rewrite forallb_forall in Hall. specialize (Hall i). rewrite bool_decide_eq_true in Hall.
  apply Hall. apply list_elem_of_In, elem_of_seqZ. lia.
Qed.

Lemma pmm_ok : pmm_rep s none.
Proof.
  split; try done.
  intros i Hi. exists 0. change (last_word s) with 3 in Hi.
  assert (Hc : i = 0 \/ i = 1 \/ i = 2 \/ i = 3) by lia.
  split; [by destruct Hc as [->|[->|[->| ->]]]; vm_compute|].
  split; [done|]. split; [intros; apply Z.bits_0|]. exists false. split; [intros; apply Z.bits_0 | done].
Qed.

Lemma wf : paging_wf s root role none.
Proof.
  split; [by split | exact pmm_ok|]. split.
  - apply lookup_singleton_eq.
  - intros t lv pre Ht. unfold role in Ht. apply lookup_singleton_Some in Ht as [<- [= <- <-]].
    change (last_word s) with 3. split_and!; first [lia | by vm_compute | left; by vm_compute].
  - intros t r i Ht Hi. unfold role in Ht. apply lookup_singleton_Some in Ht as [<- _].
    exists 0. split; [by apply root_words | done].
  - intros t lv pre i w Ht _ Hi Hw Hp. unfold role in Ht. apply lookup_singleton_Some in Ht as [<- _].
    change (pmem s) with mem0 in Hw. rewrite root_words in Hw by done. simplify_eq.
Qed.

Definition frees : list Z := free_frames s none.

Lemma unmapped va : 0 <= va -> translate s root va = None.
Proof.
  intros Hva. unfold translate. cbn [walk]. change (pmem s) with mem0.
  rewrite root_words by apply index_range. done.
Qed.

Lemma entry_points : points s 0x1008 0x1008 /\ pmem s !! 0x1008 = Some 0 /\ outside_bitmap s 0x1008.
Proof. split; [by vm_compute|]. split; [by vm_compute|]. left. by vm_compute. Qed.

Lemma alloc_frame_refines_witness :
  match free_frames s none with
  | [] => alloc_frame 0x1008 1 1 s = Halted
  | n :: rest => returns (alloc_frame 0x1008 1 1) s tt (fun s' =>
      pmm_rep s' (bupd none n true) /\ free_frames s' (bupd none n true) = rest /\
      phys_mem_head s' = u64 (phys_mem_head s + 4096) /\
      exists w', pmem s' !! 0x1008 = Some w' /\ fget present w' = 1 /\ fget rw w' = 1 mod 2 /\
        fget user w' = 1 mod 2 /\ 4096 * fget frame w' = BIT_NO_TO_ADDR s n)
  end.
Proof.
  destruct entry_points as (Hp & Hw & Ho).
  exact (alloc_frame_refines s none 0x1008 0x1008 0 1 1 (layout_region s (pw_layout _ _ _ _ wf))
    pmm_ok Hp Hw Ho).
Defined.

Lemma frees_head : free_frames s none = 0 :: 1 :: drop 2 frees.
Proof. by vm_compute. Qed.

Lemma alloc_free_frame_witness :
  wp (alloc_frame 0x1008 1 1 ;;; free_frame 0x1008) (fun _ s' =>
    pmm_rep s' none /\ exists w', pmem s' !! 0x1008 = Some w' /\ fget frame w' = 0 /\
    forall x, x <> 0x1008 -> outside_bitmap s x -> pmem s' !! x = pmem s !! x) s.
Proof.
  destruct entry_points as (Hp & Hw & Ho).
  exact (alloc_free_frame s none 0x1008 0x1008 0 1 1 0 (1 :: drop 2 frees)
    (layout_region s (pw_layout _ _ _ _ wf)) pmm_ok Hp Hw Ho frees_head).
Defined.

Lemma get_page_maps_witness :
  wp (get_page 0x400000 1 root) (fun page s' => exists role' used' t w,
    paging_wf s' root role' used' /\ role ⊆ role' /\
    points s' page (t + 8 * PT_INDEX 0x400000) /\ leaf_of (pmem s') root role' 0x400000 t /\
    pmem s' !! (t + 8 * PT_INDEX 0x400000) = Some w /\ fget present w = 1 /\
    page_got s root 0x400000 0 none used' s') s.
Proof.
  apply (get_page_maps s root role none 0x400000 root 0 (1 :: drop 2 frees)).
  - exact wf.
  - lia.
  - by left.
  - simpl. lia.
  - exact frees_head.
Defined.

Lemma vm_alloc_takes_two_frames_witness :
  wp (vm_alloc 0x400000 ALLOCATE_DATA) (fun _ s' => exists role' t w,
    paging_wf s' root role' (bupd (bupd none 0 true) 1 true) /\
    leaf_of (pmem s') root role' 0x400000 t /\ pmem s' !! (t + 8 * PT_INDEX 0x400000) = Some w /\
    fget nx w = 1 /\ fget rw w = (if ALLOCATE_DATA =? ALLOCATE_CODE then 0 else 1) /\
    fget user w = (if is_kernel_virt_addr 0x400000 then 1 else 0) /\
    translate s' root 0x400000 = Some (BIT_NO_TO_ADDR s 1 + 0x400000 mod 4096) /\
    forall va', 0 <= va' -> vpn va' <> vpn 0x400000 -> translate s' root va' = translate s root va') s.
Proof.
  apply (vm_alloc_takes_two_frames s root role none 0x400000 ALLOCATE_DATA 0 1 (drop 2 frees)).
  - exact wf.
  - reflexivity.
  - lia.
  - unfold ALLOCATE_DATA. lia.
  - simpl. lia.
  - exact frees_head.
  - apply unmapped. lia.
Defined.

Lemma map_page_links_page_zero_witness :
  returns (map_level 0x400000 alloc_pdpt (HHDM_OFFSET s + root + 8 * PML4_INDEX 0x400000)) s
    (Some (HHDM_OFFSET s)) (fun s' => linked (pmem s') root (PML4_INDEX 0x400000) 0).
Proof.
  apply (map_page_links_page_zero s root role none 0x400000 0).
  - exact wf.
  - lia.
  - by vm_compute.
  - reflexivity.
  - simpl. lia.
Defined.

Lemma kheap_alloc_maps_witness :
  let h := h_va_head s in
  returns (kheap_alloc 4 8000 ALLOCATE_DATA) s h (fun s' => exists ns role' used',
    paging_wf s' root role' used' /\ h_va_head s' = h + 4096 * 2 + 4096 /\
    zlen ns = 2 /\ NoDup ns /\ Forall (fun n => none n = false /\ used' n = true) ns /\
    (forall i n, ns !! i = Some n ->
       translate s' root (h + 4096 * Z.of_nat i) = Some (BIT_NO_TO_ADDR s n)) /\
    forall va, 0 <= va -> (forall i, 0 <= i < 2 -> vpn va <> vpn (h + 4096 * i)) ->
      translate s' root va = translate s root va).
Proof.
  apply (kheap_alloc_maps s root role none 8000 ALLOCATE_DATA 4).
  - exact wf.
  - reflexivity.
  - unfold ALLOCATE_DATA. lia.
  - lia.
  - by vm_compute.
  - by vm_compute.
  - by vm_compute.
  - by vm_compute.
  - by vm_compute.
  - intros j Hj. apply unmapped. change (h_va_head s) with 0xFFFF800000001000. lia.
  - by vm_compute.
Defined.

Lemma kheap_alloc_unchecked_witness :
  kheap_alloc 1 0x800000000000 ALLOCATE_DATA s =
    Ret (h_va_head s, set_va_head (u64 (h_va_head s + 4096)) s).
Proof.
  apply (kheap_alloc_unchecked s 0x800000000000 ALLOCATE_DATA 0); by vm_compute.
Defined.

(** The machine after get_page has made the tables of an address. *)
Definition s1 : mm := match get_page 0x400000 1 root s with Ret (_, s') => s' | _ => s end.

Lemma map_page_maps_witness : exists role1 used1 t,
  leaf_of (pmem s1) root role1 0x400000 t /\
  returns (map_page 0x180000 0x400000 3) s1 0 (fun s' =>
    paging_wf s' root role1 used1 /\ but_mem s1 s' /\
    translate s' root 0x400000 = (if flag 3 PAGE_PRESENT =? 0 then None else Some 0x180000) /\
    forall va', 0 <= va' -> vpn va' <> vpn 0x400000 -> translate s' root va' = translate s1 root va').
Proof.
  assert (Hgp : wp (get_page 0x400000 1 root) (fun page s' => exists role' used' t,
    paging_wf s' root role' used' /\ leaf_of (pmem s') root role' 0x400000 t /\ but_mem_head s s') s).
  { apply (get_page_spec s root role none 0x400000 root 0 (1 :: drop 2 frees)).
    - exact wf.
    - lia.
    - by left.
    - simpl. lia.
    - exact frees_head.
    - intros page s' role' used' t w Hwf' _ Hst _ _ Hl _ _ _. by exists role', used', t. }
  destruct (proj1 (wp_run _ _ _) Hgp) as (page & s' & Hrun & role1 & used1 & t & Hwf1 & Hl & Hst).
  assert (Hs1 : s1 = s') by (unfold s1; by rewrite Hrun).
  rewrite <- Hs1 in Hwf1, Hl, Hst. clear Hs1 Hrun s'. revert Hwf1 Hl Hst.
  generalize s1. intros x Hwf1 Hl Hst. exists role1, used1, t. split; [exact Hl|].
  apply (map_page_maps x root role1 used1 t 0x180000 0x400000 3).
  - exact Hwf1.
  - rewrite Hst. reflexivity.
  - exact Hl.
  - lia.
  - reflexivity.
  - lia.
  - reflexivity.
Defined.
End SmallVm.
