(* ===== verification/Process.v ===== *)
(** Processes, threads and the scheduler (kernel/src/process: process.c,
    thread.c).

    The kernel's process and thread structures are shared objects reached
    through pointers: the state [kst] holds them by address, next to the
    globals of the two files.  The result of a kheap_alloc is an argument of
    the function that calls it ([None] for NULL); freeing removes the object,
    so that a later access through a stale pointer is undefined. *)
From S2P Require Import Prelude.

Inductive status_t := READY | RUNNING | DEAD | SLEEPING.

Record process_t := mk_process {
  pid : Z;
  p_status : status_t;
  p_name : list Z;
  p_next : Z;
  threads : Z;
  current_thread : Z;
  p_cpu_time : Z
}.

(** [registers] holds the 26 words of [registers_t], by index. *)
Record thread_t := mk_thread {
  tid : Z;
  t_status : status_t;
  t_name : list Z;
  parent : Z;
  t_next : Z;
  t_cpu_time : Z;
  registers : list Z
}.

Record kst := mk_kst {
  procs : gmap Z process_t;
  thrs : gmap Z thread_t;
  next_free_pid : Z;
  next_free_tid : Z;
  current_process : Z;
  processes_list : Z
}.

Definition set_procs m s := mk_kst m (thrs s) (next_free_pid s) (next_free_tid s)
  (current_process s) (processes_list s).
Definition set_thrs m s := mk_kst (procs s) m (next_free_pid s) (next_free_tid s)
  (current_process s) (processes_list s).
Definition set_next_pid n s := mk_kst (procs s) (thrs s) n (next_free_tid s)
  (current_process s) (processes_list s).
Definition set_next_tid n s := mk_kst (procs s) (thrs s) (next_free_pid s) n
  (current_process s) (processes_list s).
Definition set_list h s := mk_kst (procs s) (thrs s) (next_free_pid s) (next_free_tid s)
  (current_process s) h.

Definition set_p_next n p := mk_process (pid p) (p_status p) (p_name p) n (threads p)
  (current_thread p) (p_cpu_time p).
Definition set_threads t p := mk_process (pid p) (p_status p) (p_name p) (p_next p) t
  (current_thread p) (p_cpu_time p).
Definition set_current t p := mk_process (pid p) (p_status p) (p_name p) (p_next p) (threads p)
  t (p_cpu_time p).
Definition set_t_status st t := mk_thread (tid t) st (t_name t) (parent t) (t_next t)
  (t_cpu_time t) (registers t).
Definition set_t_next n t := mk_thread (tid t) (t_status t) (t_name t) (parent t) n
  (t_cpu_time t) (registers t).
Definition set_parent p t := mk_thread (tid t) (t_status t) (t_name t) p (t_next t)
  (t_cpu_time t) (registers t).
Definition set_registers r t := mk_thread (tid t) (t_status t) (t_name t) (parent t) (t_next t)
  (t_cpu_time t) r.

(** ** Dereferencing *)

Definition ld_proc (p : Z) : M kst process_t := fun s =>
  match procs s !! p with
  | Some x => if p =? 0 then Undef else Ret (x, s)
  | None => Undef
  end.
Definition st_proc (p : Z) (f : process_t -> process_t) : M kst unit :=
  let! x := ld_proc p in modify (fun s => set_procs (<[p := f x]> (procs s)) s).
Definition ld_thread (t : Z) : M kst thread_t := fun s =>
  match thrs s !! t with
  | Some x => if t =? 0 then Undef else Ret (x, s)
  | None => Undef
  end.
Definition st_thread (t : Z) (f : thread_t -> thread_t) : M kst unit :=
  let! x := ld_thread t in modify (fun s => set_thrs (<[t := f x]> (thrs s)) s).

(** ** process.c *)

Definition NAME_MAX_LEN : nat := 64.

(** strncpy of a C string into the array, and the final terminator. *)
Definition copy_name (name : list Z) : list Z :=
  take (NAME_MAX_LEN - 1) (name ++ replicate (NAME_MAX_LEN - 1) 0) ++ [0].

Definition add_process (proc : Z) : M kst unit :=
  if proc =? 0 then ret tt else
  let! h := gets processes_list in
  st_proc proc (set_p_next h) ;;;
  modify (set_list proc).

Definition remove_process (fuel : nat) (proc : Z) : M kst unit :=
  if proc =? 0 then ret tt else
  let! h := gets processes_list in
  iter_fuel fuel (fun '(prev, current) =>
    if current =? 0 then ret (inr tt) else
    let! c := ld_proc current in
    if current =? proc then
      (if negb (prev =? 0) then st_proc prev (set_p_next (p_next c))
       else modify (set_list (p_next c))) ;;;
      ret (inr tt)
    else ret (inl (current, p_next c))) (0, h).

(** [mem]: the address kheap_alloc returns. *)
Definition create_process (mem : option Z) (name : list Z) : M kst Z :=
  match mem with
  | None => ret 0
  | Some proc =>
      let! n := gets next_free_pid in
      modify (fun s => set_next_pid (u64 (n + 1))
        (set_procs (<[proc := mk_process n READY (copy_name name) 0 0 0 0]> (procs s)) s)) ;;;
      add_process proc ;;;
      ret proc
  end.

Definition get_process_by_pid (fuel : nat) (p : Z) : M kst Z :=
  let! h := gets processes_list in
  iter_fuel fuel (fun current =>
    if current =? 0 then ret (inr 0) else
    let! c := ld_proc current in
    if pid c =? p then ret (inr current) else ret (inl (p_next c))) h.

Definition get_current_process : M kst Z := gets processes_list.

(** [regs]: the registers the interrupted thread was saved with.  The result
    is the thread whose saved registers are returned, 0 for NULL. *)
Definition schedule (regs : list Z) : M kst Z :=
  let! cp := gets current_process in
  if cp =? 0 then ret 0 else
  let! p := ld_proc cp in
  if current_thread p =? 0 then ret 0 else
  let current := current_thread p in
  st_thread current (set_registers regs) ;;;
  st_thread current (set_t_status READY) ;;;
  let! t := ld_thread current in
  let! p := ld_proc cp in
  let next_thread := if t_next t =? 0 then threads p else t_next t in
  st_thread next_thread (set_t_status RUNNING) ;;;
  st_proc cp (set_current next_thread) ;;;
  ret next_thread.

(** ** thread.c *)

Definition THREAD_STACK_SIZE : Z := 0x4000.

Definition add_thread (fuel : nat) (thread : Z) : M kst unit :=
  if thread =? 0 then ret tt else
  let! t := ld_thread thread in
  if parent t =? 0 then ret tt else
  let par := parent t in
  let! p := ld_proc par in
  (if threads p =? 0 then
     st_proc par (set_threads thread) ;;;
     st_proc par (set_current thread)
   else
     let! last := iter_fuel fuel (fun last =>
       let! l := ld_thread last in
       if t_next l =? 0 then ret (inr last) else ret (inl (t_next l))) (threads p) in
     st_thread last (set_t_next thread)) ;;;
  st_proc par (set_current thread).

Definition remove_thread (fuel : nat) (thread : Z) : M kst unit :=
  if thread =? 0 then ret tt else
  let! t := ld_thread thread in
  if parent t =? 0 then ret tt else
  let! p := ld_proc (parent t) in
  (if threads p =? thread then st_proc (parent t) (set_threads (t_next t))
   else
     iter_fuel fuel (fun current =>
       if current =? 0 then ret (inr tt) else
       let! c := ld_thread current in
       if t_next c =? thread then st_thread current (set_t_next (t_next t)) ;;; ret (inr tt)
       else ret (inl (t_next c))) (threads p)) ;;;
  st_thread thread (set_t_next 0) ;;;
  st_thread thread (set_parent 0).

(** The registers a new thread starts with: words 21 to 25 are rip, cs,
    rflags, rsp and ss, word 9 is rdi, word 8 rbp. *)
Definition start_registers (stack function arg : Z) : list Z :=
  <[8%nat := 0]> (<[9%nat := arg]> (<[21%nat := function]> (<[22%nat := 0x08]> (<[23%nat := 0x202]>
    (<[24%nat := u64 (stack + THREAD_STACK_SIZE)]> (<[25%nat := 0x10]> (replicate 26 0))))))).

(** [mem] and [stack]: the addresses the two allocations return. *)
Definition create_thread (fuel : nat) (mem stack : option Z) (par : Z) (name : list Z)
    (function arg : Z) : M kst Z :=
  match mem with
  | None => ret 0
  | Some thread =>
      let! n := gets next_free_tid in
      modify (set_next_tid (u64 (n + 1))) ;;;
      match stack with
      | None => modify (set_next_tid n) ;;; ret 0
      | Some stack =>
          modify (fun s => set_thrs (<[thread := mk_thread n READY (copy_name name) par 0 0
            (start_registers stack function arg)]> (thrs s)) s) ;;;
          add_thread fuel thread ;;;
          ret thread
      end
  end.

(** After the removal the function copies the thread's name through a pointer
    that was never set. *)
Definition delete_thread (fuel : nat) (thread : Z) : M kst unit :=
  if thread =? 0 then ret tt else
  let! _ := ld_thread thread in
  remove_thread fuel thread ;;;
  undef.

(** [proc] is dereferenced before it is compared with NULL. *)
Definition delete_process (fuel : nat) (proc : Z) : M kst unit :=
  let! _ := ld_proc proc in
  if proc =? 0 then ret tt else
  remove_process fuel proc ;;;
  iter_fuel fuel (fun _ : unit =>
    let! p := ld_proc proc in
    let thread := threads p in
    if thread =? 0 then ret (inr tt) else
    let! t := ld_thread thread in
    st_proc proc (set_threads (t_next t)) ;;;
    delete_thread fuel thread ;;;
    ret (inl tt)) tt ;;;
  modify (fun s => set_procs (delete proc (procs s)) s).
