(* ===== verification/ProcessProps.v ===== *)
(** The process table and the scheduler: the linked lists the code keeps are
    lists, every operation keeps them so, and scheduling is round-robin. *)
From S2P Require Import Prelude Process.

(** ** Linked lists *)

(** Following [next] from [p] visits exactly [l] and ends at NULL. *)
Fixpoint seg (next : Z -> option Z) (p : Z) (l : list Z) : Prop :=
  match l with
  | [] => p = 0
  | x :: l => p = x /\ x <> 0 /\ exists n, next x = Some n /\ seg next n l
  end.

Lemma seg_ext next next' p l :
  (forall x, x ∈ l -> next' x = next x) -> seg next p l -> seg next' p l.
Proof.
  revert p. induction l as [|x l IH]; intros p He; [done|].
  intros (-> & Hx & n & Hn & Hs). split; [done|]. split; [done|]. exists n. split.
  - rewrite He; [done | by left].
  - apply IH; [|done]. intros y Hy. apply He. by right.
Qed.

Lemma seg_det next p l l' : seg next p l -> seg next p l' -> l = l'.
Proof.
  revert p l'. induction l as [|x l IH]; intros p [|x' l']; simpl; try done.
  - intros -> (<- & ? & _). done.
  - intros (-> & ? & _) ->. done.
  - intros (-> & Hx & n & Hn & Hs) (<- & _ & n' & Hn' & Hs').
    rewrite Hn in Hn'. simplify_eq. f_equal. by eapply IH.
Qed.

Lemma seg_suffix next p l1 x l2 : seg next p (l1 ++ x :: l2) -> seg next x (x :: l2).
Proof.
  revert p. induction l1 as [|y l1 IH]; intros p; simpl.
  - intros (-> & Hx & Hn). done.
  - intros (_ & _ & n & _ & Hs). by eapply IH.
Qed.

Lemma seg_NoDup next p l : seg next p l -> NoDup l.
Proof.
  revert p. induction l as [|x l IH]; intros p Hs; [apply NoDup_nil_2|].
  destruct Hs as (-> & Hx & n & Hn & Hs). apply NoDup_cons. split; [|by eapply IH].
  intros Hin. apply list_elem_of_split in Hin as (l1 & l2 & ->).
  pose proof (seg_suffix next n l1 x l2 Hs) as Hs2.
  assert (Hx1 : seg next x (x :: l1 ++ x :: l2)) by (split; [done|]; split; [done|]; by exists n).
  pose proof (seg_det _ _ _ _ Hs2 Hx1) as He. apply (f_equal length) in He.
  simpl in He. rewrite length_app in He. simpl in He. lia.
Qed.

Lemma seg_nonzero next p l x : seg next p l -> x ∈ l -> x <> 0.
Proof.
  revert p. induction l as [|y l IH]; intros p Hs Hx; [by apply elem_of_nil in Hx|].
  destruct Hs as (-> & Hy & n & _ & Hs). apply elem_of_cons in Hx as [->|Hx]; [done | by eapply IH].
Qed.

Lemma seg_next next p l i x :
  seg next p l -> l !! i = Some x -> next x = Some (default 0 (l !! S i)).
Proof.
  revert p i. induction l as [|y l IH]; intros p i Hs Hi; [done|].
  destruct Hs as (-> & Hy & n & Hn & Hs). destruct i as [|i]; simpl in *.
  - simplify_eq. rewrite Hn. destruct l as [|z l]; simpl in *; [by subst|].
    destruct Hs as (-> & _). done.
  - by eapply IH.
Qed.

Lemma seg_head next p l : seg next p l -> p = default 0 (head l).
Proof. destruct l; simpl; [done|]. by intros (-> & _). Qed.

(** A new last element. *)
Lemma seg_snoc next next' p l x t :
  seg next p (l ++ [x]) -> t <> 0 -> t ∉ l ++ [x] ->
  (forall y, y ∈ l -> next' y = next y) -> next' x = Some t -> next' t = Some 0 ->
  seg next' p (l ++ [x; t]).
Proof.
  revert p. induction l as [|y l IH]; intros p Hs Ht Hnin He Hx Hnt; simpl in *.
  - destruct Hs as (-> & Hx0 & _). split; [done|]. split; [done|]. exists t. split; [done|].
    split; [done|]. split; [done|]. by exists 0.
  - destruct Hs as (-> & Hy & n & Hn & Hs). split; [done|]. split; [done|]. exists n.
    split; [rewrite He; [done | by left]|]. apply IH; try done; set_solver.
Qed.

(** Unlinking an element behind another. *)
Lemma seg_unlink next next' p l1 y x l2 n :
  seg next p (l1 ++ y :: x :: l2) -> next x = Some n ->
  (forall z, z ∈ l1 ++ y :: x :: l2 -> z <> y -> next' z = next z) -> next' y = Some n ->
  seg next' p (l1 ++ y :: l2).
Proof.
  intros Hs Hx He Hy. pose proof (seg_NoDup _ _ _ Hs) as Hnd.
  revert p Hs. induction l1 as [|z l1 IH]; intros p Hs; simpl in *.
  - destruct Hs as (-> & Hy0 & m & _ & (_ & _ & m' & Hm' & Hs)). rewrite Hx in Hm'. simplify_eq.
    split; [done|]. split; [done|]. exists m'. split; [done|].
    apply NoDup_cons in Hnd as [Hny _]. eapply seg_ext; [|exact Hs].
    intros z Hz. apply He; set_solver.
  - destruct Hs as (-> & Hz0 & m & Hm & Hs). apply NoDup_cons in Hnd as [Hnz Hnd].
    split; [done|]. split; [done|]. exists m. split.
    + rewrite He; [done | by left|]. intros ->. set_solver.
    + apply IH; [|done | done]. intros w Hw. apply He. by right.
Qed.

(** ** The process table *)

Definition next_proc (s : kst) (p : Z) : option Z := p_next <$> procs s !! p.
Definition next_thread (s : kst) (t : Z) : option Z := t_next <$> thrs s !! t.

(** Process [p] has the threads [tl]; its current thread is one of them. *)
Record process_ok (s : kst) (p : Z) (tl : list Z) : Prop := {
  po_proc : exists x, procs s !! p = Some x /\ 0 <= pid x < next_free_pid s /\
    seg (next_thread s) (threads x) tl /\
    (tl = [] -> current_thread x = 0) /\ (tl <> [] -> current_thread x ∈ tl);
  po_threads : forall t, t ∈ tl -> exists th, thrs s !! t = Some th /\ parent th = p
}.

(** The table: the processes [pl] in list order, and the threads of each. *)
Record table_ok (s : kst) (pl : list Z) (tl : Z -> list Z) : Prop := {
  tb_list : seg (next_proc s) (processes_list s) pl;
  tb_procs : forall p, p ∈ pl -> process_ok s p (tl p);
  tb_pids : forall p q x y, p ∈ pl -> q ∈ pl -> procs s !! p = Some x -> procs s !! q = Some y ->
    pid x = pid y -> p = q;
  tb_current : current_process s = 0 \/ current_process s ∈ pl;
  tb_pid : 0 <= next_free_pid s
}.

Lemma ld_proc_spec s p x Q : procs s !! p = Some x -> p <> 0 -> Q x s -> wp (ld_proc p) Q s.
Proof. intros Hp H0 HQ. unfold ld_proc, wp. rewrite Hp. case_if; [done | exact HQ]. Qed.

Lemma st_proc_spec s p x f Q : procs s !! p = Some x -> p <> 0 ->
  Q tt (set_procs (<[p := f x]> (procs s)) s) -> wp (st_proc p f) Q s.
Proof.
  intros Hp H0 HQ. unfold st_proc. apply wp_bind. apply (ld_proc_spec _ _ x); [done | done|].
  by apply wp_modify.
Qed.

Lemma ld_thread_spec s t x Q : thrs s !! t = Some x -> t <> 0 -> Q x s -> wp (ld_thread t) Q s.
Proof. intros Hp H0 HQ. unfold ld_thread, wp. rewrite Hp. case_if; [done | exact HQ]. Qed.

Lemma st_thread_spec s t x f Q : thrs s !! t = Some x -> t <> 0 ->
  Q tt (set_thrs (<[t := f x]> (thrs s)) s) -> wp (st_thread t f) Q s.
Proof.
  intros Hp H0 HQ. unfold st_thread. apply wp_bind. apply (ld_thread_spec _ _ x); [done | done|].
  by apply wp_modify.
Qed.

(** Threads of different processes are different. *)
Lemma threads_disjoint s pl tl p q t :
  table_ok s pl tl -> p ∈ pl -> q ∈ pl -> t ∈ tl p -> t ∈ tl q -> p = q.
Proof.
  intros Hok Hp Hq Htp Htq.
  destruct (po_threads _ _ _ (tb_procs _ _ _ Hok p Hp) t Htp) as (x & Hx & <-).
  destruct (po_threads _ _ _ (tb_procs _ _ _ Hok q Hq) t Htq) as (y & Hy & <-). congruence.
Qed.

(** ** get_process_by_pid *)

Lemma get_process_by_pid_spec s pl tl n fuel :
  table_ok s pl tl -> (length pl < fuel)%nat ->
  wp (get_process_by_pid fuel n) (fun r s' => s' = s /\
    ((r ∈ pl /\ exists x, procs s !! r = Some x /\ pid x = n) \/
     (r = 0 /\ forall p x, p ∈ pl -> procs s !! p = Some x -> pid x <> n))) s.
Proof.
  intros Hok Hf. unfold get_process_by_pid. apply wp_bind, wp_gets.
  apply (wp_iter_idx length (fun rest cur s' => s' = s /\ seg (next_proc s) cur rest /\
    exists done_, pl = done_ ++ rest /\
      forall p x, p ∈ done_ -> procs s !! p = Some x -> pid x <> n)) with (t := pl); [| |done].
  - intros rest cur s' (-> & Hs & done_ & Hpl & Hdone).
    destruct rest as [|p rest]; simpl in Hs.
    + subst cur. simpl. apply wp_ret. split; [done|]. right. split; [done|].
      rewrite Hpl, app_nil_r. exact Hdone.
    + destruct Hs as (-> & Hp0 & m & Hm & Hs). case_if; [done|].
      unfold next_proc in Hm. destruct (procs s !! p) as [x|] eqn:Hx; [|done].
      simpl in Hm. injection Hm as <-. apply wp_bind. apply (ld_proc_spec _ _ x); [done | done|]. case_if; apply wp_ret.
      * split; [done|]. left. split; [rewrite Hpl; set_solver | by exists x].
      * exists rest. split; [|simpl; lia]. split; [done|]. split; [done|].
        exists (done_ ++ [p]). rewrite <- app_assoc. split; [done|].
        intros q y Hq Hy. apply elem_of_app in Hq as [Hq|Hq]; [by eapply Hdone|].
        apply list_elem_of_singleton in Hq as ->. congruence.
  - split; [done|]. split; [apply Hok|]. exists []. split; [done|]. intros p x Hp.
    by apply elem_of_nil in Hp.
Qed.

(** ** The scheduler *)

(** Changes that keep the lists. *)
Lemma table_ok_frame s s' pl tl :
  table_ok s pl tl -> processes_list s' = processes_list s -> current_process s' = current_process s ->
  next_free_pid s' = next_free_pid s ->
  (forall q x, q ∈ pl -> procs s !! q = Some x -> exists x', procs s' !! q = Some x' /\
     pid x' = pid x /\ p_next x' = p_next x /\ threads x' = threads x /\
     (current_thread x' = current_thread x \/ current_thread x' ∈ tl q)) ->
  (forall t th, thrs s !! t = Some th -> exists th', thrs s' !! t = Some th' /\
     t_next th' = t_next th /\ parent th' = parent th) ->
  table_ok s' pl tl.
Proof.
  intros [Hl Hp Hi Hc Hn] El Ec En Hprocs Hthrs.
  assert (Hx : forall q, q ∈ pl -> exists x, procs s !! q = Some x).
  { intros q Hq. destruct (po_proc _ _ _ (Hp q Hq)) as (x & Hx & _). by exists x. }
  split; [| |..|by rewrite Ec | by rewrite En].
  - rewrite El. eapply seg_ext; [|exact Hl]. intros q Hq. unfold next_proc.
    destruct (Hx q Hq) as [x Hxq]. destruct (Hprocs q x Hq Hxq) as (x' & -> & _ & He & _).
    rewrite Hxq. simpl. by rewrite He.
  - intros q Hq. destruct (Hp q Hq) as [(x & Hxq & Hpid & Hseg & H0 & H1) Hth].
    destruct (Hprocs q x Hq Hxq) as (x' & Hx' & Epid & _ & Eth & Hcur). split.
    + exists x'. split; [done|]. rewrite Epid, En, Eth. split; [done|]. split.
      * eapply seg_ext; [|exact Hseg]. intros t Ht. unfold next_thread.
        destruct (Hth t Ht) as (th & Ht1 & _). destruct (Hthrs t th Ht1) as (th' & -> & He & _).
        rewrite Ht1. simpl. by rewrite He.
      * split.
        -- intros Hnil. destruct Hcur as [->|Hin]; [by apply H0|]. rewrite Hnil in Hin.
           by apply elem_of_nil in Hin.
        -- intros Hne. destruct Hcur as [->|Hin]; [by apply H1 | done].
    + intros t Ht. destruct (Hth t Ht) as (th & Ht1 & Hpar).
      destruct (Hthrs t th Ht1) as (th' & Ht' & _ & He). exists th'. by rewrite He.
  - intros q r x y Hq Hr Hqx Hry He. destruct (Hx q Hq) as [x0 Hx0]. destruct (Hx r Hr) as [y0 Hy0].
    destruct (Hprocs q x0 Hq Hx0) as (x1 & Hx1 & Ex & _). destruct (Hprocs r y0 Hr Hy0) as (y1 & Hy1 & Ey & _).
    apply (Hi q r x0 y0); try done. congruence.
Qed.

(** The index after [i] in a ring of [n]. *)
Definition ring_next (n i : nat) : nat := if (S i <? n)%nat then S i else 0%nat.

(** The scheduler is at the [i]-th thread [t] of the list [l] of process [p]. *)
Definition at_thread (s : kst) (p : Z) (l : list Z) (i : nat) : Prop :=
  current_process s = p /\ exists x, procs s !! p = Some x /\ Some (current_thread x) = l !! i.

(** What one tick does: the interrupted thread's registers are saved, the next
    thread of the ring runs, no other thread changes. *)
Record ticked (s s' : kst) (regs : list Z) (t u : Z) : Prop := {
  tk_saved : registers <$> thrs s' !! t = Some regs;
  tk_running : t_status <$> thrs s' !! u = Some RUNNING;
  tk_ready : t <> u -> t_status <$> thrs s' !! t = Some READY;
  tk_regs : forall v, v <> t -> registers <$> thrs s' !! v = registers <$> thrs s !! v;
  tk_other : forall v, v <> t -> v <> u -> thrs s' !! v = thrs s !! v;
  tk_procs : forall q, is_Some (procs s' !! q) <-> is_Some (procs s !! q)
}.

(** Where the scheduler goes from the [i]-th thread. *)
Lemma ring_next_spec next p l i t n :
  seg next p l -> l !! i = Some t -> next t = Some n ->
  l !! ring_next (length l) i = Some (if n =? 0 then p else n).
Proof.
  intros Hseg Ht Hn. pose proof (seg_next _ _ _ _ _ Hseg Ht) as Hnext.
  rewrite Hn in Hnext. injection Hnext as ->. unfold ring_next.
  destruct (l !! S i) as [v|] eqn:Hv; simpl.
  - pose proof (lookup_lt_Some _ _ _ Hv) as Hlt. apply Nat.ltb_lt in Hlt. rewrite Hlt, Hv.
    apply list_elem_of_lookup_2 in Hv. pose proof (seg_nonzero _ _ _ v Hseg Hv). by case_if.
  - apply lookup_ge_None in Hv. apply Nat.ltb_ge in Hv. rewrite Hv.
    rewrite (seg_head _ _ _ Hseg). apply lookup_lt_Some in Ht. destruct l; simpl in *; [lia | done].
Qed.

(** The state after a tick from [t] to [u]. *)
Section tick.
Context (s : kst) (pl : list Z) (tl : Z -> list Z) (p t u : Z) (x : process_t) (th tu : thread_t).
Context (regs : list Z) (Hok : table_ok s pl tl) (Hx : procs s !! p = Some x) (Hu : u ∈ tl p).
Context (Hth : thrs s !! t = Some th).
Let t1 := set_t_status READY (set_registers regs th).
Context (Htu : <[t := t1]> (thrs s) !! u = Some tu).
Let s' := set_procs (<[p := set_current u x]> (procs s))
  (set_thrs (<[u := set_t_status RUNNING tu]> (<[t := t1]> (thrs s))) s).

Lemma tick_table : table_ok s' pl tl.
Proof.
  apply (table_ok_frame s); try done; simpl.
  - intros q y Hq Hy. destruct (decide (p = q)) as [<-|Hne].
    + rewrite lookup_insert_eq. rewrite Hx in Hy. simplify_eq. eexists. split; [done|].
      repeat (split; [done|]). by right.
    + rewrite lookup_insert_ne by done. exists y. split; [done|]. repeat (split; [done|]). by left.
  - intros v thv Hv.
    assert (H1 : exists th', <[t := t1]> (thrs s) !! v = Some th' /\ t_next th' = t_next thv /\
      parent th' = parent thv).
    { destruct (decide (t = v)) as [<-|Hne].
      - rewrite lookup_insert_eq. rewrite Hth in Hv. simplify_eq. by eexists.
      - rewrite lookup_insert_ne by done. by exists thv. }
    destruct H1 as (th' & H1 & Hn & Hpa). destruct (decide (u = v)) as [<-|Hne].
    + rewrite lookup_insert_eq. rewrite H1 in Htu. simplify_eq. by eexists.
    + rewrite lookup_insert_ne by done. by exists th'.
Qed.

Lemma tick_ticked : ticked s s' regs t u.
Proof.
  split; simpl.
  - destruct (decide (u = t)) as [->|Hne].
    + rewrite lookup_insert_eq in Htu. simplify_eq. by rewrite lookup_insert_eq.
    + by rewrite lookup_insert_ne, lookup_insert_eq.
  - by rewrite lookup_insert_eq.
  - intros Hne. by rewrite lookup_insert_ne, lookup_insert_eq.
  - intros v Hv. destruct (decide (u = v)) as [<-|Hne].
    + rewrite lookup_insert_eq. rewrite lookup_insert_ne in Htu by done. by rewrite Htu.
    + by rewrite !lookup_insert_ne by done.
  - intros v Hv1 Hv2. by rewrite !lookup_insert_ne by done.
  - intros q. destruct (decide (p = q)) as [<-|Hne].
    + rewrite lookup_insert_eq, Hx. split; by eexists.
    + by rewrite lookup_insert_ne.
Qed.
End tick.

Lemma schedule_spec s pl tl p i t regs :
  table_ok s pl tl -> p ∈ pl -> at_thread s p (tl p) i -> tl p !! i = Some t ->
  wp (schedule regs) (fun r s' => tl p !! ring_next (length (tl p)) i = Some r /\
    table_ok s' pl tl /\ at_thread s' p (tl p) (ring_next (length (tl p)) i) /\
    ticked s s' regs t r) s.
Proof.
  intros Hok Hp (Hcp & x & Hx & Hcur) Ht. rewrite Ht in Hcur. injection Hcur as Hcur.
  pose proof (seg_nonzero _ _ _ p (tb_list _ _ _ Hok) Hp) as Hp0.
  destruct (tb_procs _ _ _ Hok p Hp) as [(x' & Hx' & _ & Hseg & _) Hths].
  rewrite Hx in Hx'. injection Hx' as <-.
  assert (Htin : t ∈ tl p) by (by eapply list_elem_of_lookup_2).
  pose proof (seg_nonzero _ _ _ t Hseg Htin) as Ht0. destruct (Hths t Htin) as (th & Hth & _).
  assert (Hu : tl p !! ring_next (length (tl p)) i =
    Some (if t_next th =? 0 then threads x else t_next th)).
  { eapply ring_next_spec; [exact Hseg | exact Ht|]. unfold next_thread. by rewrite Hth. }
  set (u := if t_next th =? 0 then threads x else t_next th) in *.
  assert (Huin : u ∈ tl p) by (by eapply list_elem_of_lookup_2).
  pose proof (seg_nonzero _ _ _ u Hseg Huin) as Hu0.
  unfold schedule. apply wp_bind, wp_gets. rewrite Hcp. case_if; [done|].
  apply wp_bind. apply (ld_proc_spec _ _ x); [done | done|]. rewrite Hcur. case_if; [done|].
  apply wp_bind. apply (st_thread_spec _ _ th); [done | done|].
  apply wp_bind. eapply st_thread_spec; [apply lookup_insert_eq | done|]. simpl.
  rewrite insert_insert_eq. apply wp_bind. eapply ld_thread_spec; [apply lookup_insert_eq | done|].
  apply wp_bind. apply (ld_proc_spec _ _ x); [done | done|]. simpl. fold u.
  assert (Hex : exists tu, <[t := set_t_status READY (set_registers regs th)]> (thrs s) !! u = Some tu).
  { destruct (Hths u Huin) as (thu & Hthu & _). destruct (decide (t = u)) as [<-|Hne].
    - rewrite lookup_insert_eq. by eexists.
    - rewrite lookup_insert_ne by done. by exists thu. }
  destruct Hex as [tu Htu]. apply wp_bind. eapply st_thread_spec; [exact Htu | done|]. simpl.
  apply wp_bind. eapply st_proc_spec; [exact Hx | done|]. apply wp_ret.
  split; [done|]. split; [exact (tick_table s pl tl p t u x th tu regs Hok Hx Huin Hth Htu)|].
  split; [|exact (tick_ticked s tl p t u x th tu regs Hx Huin Htu)].
  split; [done|]. eexists. simpl. rewrite lookup_insert_eq. split; [done|]. by rewrite Hu.
Qed.

(** A sequence of timer ticks, each with the registers of the thread it
    interrupts; the result is the thread that runs after the last. *)
Fixpoint ticks (rs : list (list Z)) : M kst Z :=
  match rs with
  | [] => ret 0
  | [regs] => schedule regs
  | regs :: rs => let! _ := schedule regs in ticks rs
  end.

Lemma ring_next_mod n i : (i < n)%nat -> ring_next n i = ((i + 1) mod n)%nat.
Proof.
  intros Hi. unfold ring_next. destruct (Nat.ltb_spec (S i) n).
  - rewrite Nat.mod_small; lia.
  - replace (i + 1)%nat with n by lia. by rewrite Nat.Div0.mod_same.
Qed.

Lemma ticks_spec s pl tl p i rs :
  table_ok s pl tl -> p ∈ pl -> at_thread s p (tl p) i -> (i < length (tl p))%nat -> rs <> [] ->
  wp (ticks rs) (fun r s' => let j := ((i + length rs) mod length (tl p))%nat in
    tl p !! j = Some r /\ table_ok s' pl tl /\ at_thread s' p (tl p) j /\
    t_status <$> thrs s' !! r = Some RUNNING) s.
Proof.
  revert s i. induction rs as [|regs rs IH]; intros s i Hok Hp Hat Hi Hne; [done|].
  destruct (lookup_lt_is_Some_2 (tl p) i Hi) as [t Ht].
  pose proof (schedule_spec s pl tl p i t regs Hok Hp Hat Ht) as Hs.
  rewrite ring_next_mod in Hs by done. destruct rs as [|r2 rs].
  - eapply wp_mono; [exact Hs|]. intros r s' (H1 & H2 & H3 & H4). simpl.
    repeat (split; [done|]). apply H4.
  - apply wp_bind. eapply wp_mono; [exact Hs|]. intros r s1 (H1 & H2 & H3 & _).
    apply lookup_lt_Some in H1.
    eapply wp_mono; [by apply (IH s1 ((i + 1) mod length (tl p))%nat)|].
    cbv zeta. rewrite Nat.Div0.add_mod_idemp_l.
    replace (i + 1 + length (r2 :: rs))%nat with (i + length (regs :: r2 :: rs))%nat by (simpl; lia).
    done.
Qed.

(** C19: Scheduling is round-robin and fair: from any state of a well-formed
    process table every thread of the current process runs again within as
    many ticks as the process has threads, whatever the ticks save, and the
    tables stay well-formed.  (It runs whatever its status: threads that are
    DEAD or SLEEPING are scheduled too.) *)
Theorem schedule_fair s pl tl p i u :
  table_ok s pl tl -> p ∈ pl -> at_thread s p (tl p) i -> (i < length (tl p))%nat -> u ∈ tl p ->
  exists k, (1 <= k <= length (tl p))%nat /\ forall rs, length rs = k ->
    wp (ticks rs) (fun r s' => r = u /\ table_ok s' pl tl /\
      t_status <$> thrs s' !! u = Some RUNNING) s.
Proof.
  intros Hok Hp Hat Hi Hu. apply list_elem_of_lookup_1 in Hu as [j Hj].
  pose proof (lookup_lt_Some _ _ _ Hj) as Hjn. set (n := length (tl p)) in *.
  set (k := if (i <? j)%nat then (j - i)%nat else (n - i + j)%nat).
  assert (Hk : (1 <= k <= n)%nat) by (unfold k; destruct (Nat.ltb_spec i j); lia).
  assert (Hm : ((i + k) mod n)%nat = j).
  { unfold k. destruct (Nat.ltb_spec i j).
    - rewrite Nat.mod_small; lia.
    - replace (i + (n - i + j))%nat with (j + 1 * n)%nat by lia.
      rewrite Nat.Div0.mod_add. apply Nat.mod_small. lia. }
  exists k. split; [done|]. intros rs Hrs.
  eapply wp_mono; [apply (ticks_spec s pl tl p i rs); try done; by destruct rs; simpl in *; [lia|]|].
  cbv zeta. fold n. rewrite Hrs, Hm, Hj. intros r s' ([= ->] & H1 & _ & H2). done.
Qed.

(** ** Creating and deleting *)

Lemma next_proc_insert s p x q :
  next_proc (set_procs (<[p := x]> (procs s)) s) q = if decide (p = q) then Some (p_next x) else next_proc s q.
Proof.
  unfold next_proc. simpl. destruct (decide (p = q)) as [<-|Hne].
  - by rewrite lookup_insert_eq.
  - by rewrite lookup_insert_ne.
Qed.

(** What is left of a process when only other parts of the state change. *)
Lemma process_ok_frame s s' p l :
  process_ok s p l -> procs s' !! p = procs s !! p -> next_free_pid s <= next_free_pid s' ->
  (forall t, t ∈ l -> thrs s' !! t = thrs s !! t) -> process_ok s' p l.
Proof.
  intros [(x & Hx & Hpid & Hseg & H0 & H1) Hth] Hp Hn Ht. split.
  - exists x. rewrite Hp. split; [done|]. split; [lia|]. split; [|done].
    eapply seg_ext; [|exact Hseg]. intros t Htin. unfold next_thread. by rewrite Ht.
  - intros t Htin. rewrite Ht by done. by apply Hth.
Qed.

Lemma create_process_spec s pl tl a name :
  table_ok s pl tl -> a <> 0 -> procs s !! a = None -> next_free_pid s + 1 < 18446744073709551616 ->
  wp (create_process (Some a) name) (fun r s' => r = a /\
    table_ok s' (a :: pl) (fun q => if decide (q = a) then [] else tl q) /\
    procs s' = <[a := mk_process (next_free_pid s) READY (copy_name name) (processes_list s) 0 0 0]> (procs s) /\
    current_process s' = current_process s) s.
Proof.
  intros [Hl Hp Hi Hc Hn] Ha Hfresh Hov.
  assert (Hnin : a ∉ pl).
  { intros Hin. destruct (po_proc _ _ _ (Hp a Hin)) as (x & Hx & _). congruence. }
  unfold create_process. apply wp_bind, wp_gets, wp_bind, wp_modify, wp_bind.
  unfold add_process. case_if; [done|]. apply wp_bind, wp_gets, wp_bind.
  eapply st_proc_spec; [apply lookup_insert_eq | done|]. apply wp_modify, wp_ret.
  split; [done|]. simpl. rewrite insert_insert_eq. split; [|done].
  assert (Hold : forall q, q ∈ pl -> q <> a) by (intros q Hq ->; done).
  split; simpl.
  - split; [done|]. split; [done|]. exists (processes_list s). split.
    + unfold next_proc. simpl. by rewrite lookup_insert_eq.
    + eapply seg_ext; [|exact Hl]. intros q Hq. unfold next_proc. simpl.
      rewrite lookup_insert_ne; [done|]. intros ->. done.
  - intros q Hq. case_decide as Hqa.
    + subst q. split; [|intros t Ht; by apply elem_of_nil in Ht].
      eexists. simpl. rewrite lookup_insert_eq. split; [done|]. simpl. rewrite u64_small by lia.
      split; [lia|]. done.
    + apply elem_of_cons in Hq as [->|Hq]; [done|]. apply (process_ok_frame s); simpl; [by apply Hp| | |done].
      * by rewrite lookup_insert_ne.
      * rewrite u64_small; lia.
  - assert (Hnew : forall q y, q ∈ pl -> procs s !! q = Some y -> pid y < next_free_pid s).
    { intros q y Hq Hy. destruct (po_proc _ _ _ (Hp q Hq)) as (y' & Hy' & ? & _). simplify_eq. lia. }
    intros q r x y Hq Hr Hqx Hry He.
    apply elem_of_cons in Hq as [->|Hq]; apply elem_of_cons in Hr as [->|Hr]; [done|..].
    + rewrite lookup_insert_eq in Hqx. rewrite lookup_insert_ne in Hry by (symmetry; by apply Hold).
      simplify_eq. simpl in He. pose proof (Hnew _ _ Hr Hry). lia.
    + rewrite lookup_insert_eq in Hry. rewrite lookup_insert_ne in Hqx by (symmetry; by apply Hold).
      simplify_eq. simpl in He. pose proof (Hnew _ _ Hq Hqx). lia.
    + rewrite lookup_insert_ne in Hqx by (symmetry; by apply Hold).
      rewrite lookup_insert_ne in Hry by (symmetry; by apply Hold). by eapply Hi.
  - destruct Hc as [->|Hc]; [by left|]. right. by right.
  - rewrite u64_small; lia.
Qed.

(** The loop of remove_process finds the process and unlinks it. *)
Lemma remove_process_spec s pl p l1 l2 fuel Q :
  seg (next_proc s) (processes_list s) pl -> pl = l1 ++ p :: l2 -> (length pl < fuel)%nat ->
  (forall s', seg (next_proc s') (processes_list s') (l1 ++ l2) ->
     thrs s' = thrs s -> next_free_pid s' = next_free_pid s -> current_process s' = current_process s ->
     (forall q, q ∉ pl -> procs s' !! q = procs s !! q) ->
     (forall q x, procs s !! q = Some x -> exists n, procs s' !! q = Some (set_p_next n x)) -> Q tt s') ->
  wp (remove_process fuel p) Q s.
Proof.
  intros Hseg Hpl Hf HQ. pose proof (seg_NoDup _ _ _ Hseg) as Hnd.
  assert (Hp0 : p <> 0) by (eapply seg_nonzero; [exact Hseg | rewrite Hpl; set_solver]).
  unfold remove_process. case_if; [done|]. apply wp_bind, wp_gets.
  apply (wp_iter_idx length (fun rest '(prev, cur) s' => s' = s /\ seg (next_proc s) cur (rest ++ p :: l2) /\
    exists d, l1 = d ++ rest /\ prev = default 0 (last d))) with (t := l1).
  - intros rest [prev cur] s' (-> & Hs & d & Hl1 & Hprev). destruct rest as [|q rest]; simpl in Hs.
    + destruct Hs as (-> & _ & n & Hn & Hs). unfold next_proc in Hn.
      destruct (procs s !! p) as [x|] eqn:Hx; [|done]. simpl in Hn. injection Hn as <-.
      case_if; [done|]. apply wp_bind. apply (ld_proc_spec _ _ x); [done | done|].
      case_if; [|done]. apply wp_bind. rewrite app_nil_r in Hl1. subst d.
      assert (Hself : forall q y, procs s !! q = Some y -> exists n, procs s !! q = Some (set_p_next n y)).
      { intros q y Hy. exists (p_next y). rewrite Hy. by destruct y. }
      destruct (last l1) as [y|] eqn:Hlast; simpl in Hprev; subst prev; simpl.
      * apply last_Some in Hlast as [l1' ->]. rewrite <- app_assoc in Hpl. simpl in Hpl.
        assert (Hy : y ∈ pl) by (rewrite Hpl; set_solver).
        pose proof (seg_nonzero _ _ _ _ Hseg Hy) as Hy0. case_if; [|lia].
        assert (Hyx : exists yx, procs s !! y = Some yx).
        { rewrite Hpl in Hseg. apply seg_suffix in Hseg as (_ & _ & m & Hm & _).
          unfold next_proc in Hm. destruct (procs s !! y) as [yx|]; [by exists yx | done]. }
        destruct Hyx as [yx Hyx].
        eapply st_proc_spec; [exact Hyx | done|]. apply wp_ret.
        apply HQ; try done; simpl.
        -- rewrite <- app_assoc. rewrite Hpl in Hseg. eapply (seg_unlink (next_proc s)); [exact Hseg| | |].
           ++ unfold next_proc. by rewrite Hx.
           ++ intros z Hz Hne. rewrite next_proc_insert. by rewrite decide_False by congruence.
           ++ rewrite next_proc_insert, decide_True by done. done.
        -- intros q Hq. rewrite lookup_insert_ne; [done|]. intros ->. done.
        -- intros q z Hz. destruct (decide (y = q)) as [<-|Hne].
           ++ rewrite lookup_insert_eq. simplify_eq. by eexists.
           ++ rewrite lookup_insert_ne by done. by apply Hself.
      * apply last_None in Hlast as ->. apply wp_modify, wp_ret. apply HQ; done.
    + destruct Hs as (-> & Hq0 & n & Hn & Hs). unfold next_proc in Hn.
      destruct (procs s !! q) as [x|] eqn:Hx; [|done]. simpl in Hn. injection Hn as <-.
      case_if; [done|]. apply wp_bind. apply (ld_proc_spec _ _ x); [done | done|]. case_if.
      * exfalso. subst q. rewrite Hpl, Hl1 in Hnd. rewrite <- app_assoc in Hnd. simpl in Hnd.
        apply NoDup_app in Hnd as (_ & _ & Hnd). apply NoDup_cons in Hnd as [Hnd _]. set_solver.
      * apply wp_ret. exists rest. split; [|simpl; lia]. split; [done|]. split; [done|].
        exists (d ++ [q]). rewrite <- app_assoc. split; [done|]. by rewrite last_snoc.
  - split; [done|]. split; [by rewrite <- Hpl|]. by exists [].
  - rewrite Hpl, length_app in Hf. simpl in Hf. lia.
Qed.

Lemma delete_process_spec s pl tl p fuel :
  table_ok s pl tl -> p ∈ pl -> tl p = [] -> current_process s <> p -> (length pl < fuel)%nat ->
  wp (delete_process fuel p) (fun _ s' => exists l1 l2, pl = l1 ++ p :: l2 /\
    table_ok s' (l1 ++ l2) tl /\ procs s' !! p = None /\ thrs s' = thrs s /\
    (forall q x, procs s' !! q = Some x -> exists y, procs s !! q = Some y) /\
    current_process s' = current_process s) s.
Proof.
  intros [Hl Hp Hi Hc Hn] Hpin Htl Hcur Hf.
  pose proof (seg_nonzero _ _ _ p Hl Hpin) as Hp0. pose proof (seg_NoDup _ _ _ Hl) as Hnd.
  destruct (po_proc _ _ _ (Hp p Hpin)) as (x & Hx & _ & Hseg & _). rewrite Htl in Hseg. simpl in Hseg.
  apply list_elem_of_split in Hpin as (l1 & l2 & Hpl).
  unfold delete_process. apply wp_bind. apply (ld_proc_spec _ _ x); [done | done|].
  case_if; [done|]. apply wp_bind. apply (remove_process_spec s pl p l1 l2); [done | done | done|].
  intros s1 Hs1 Et En Ec Hout Hin. destruct (Hin p x Hx) as [m Hm].
  apply wp_bind. destruct fuel as [|fuel]; [lia|]. simpl. apply wp_bind, wp_bind.
  eapply ld_proc_spec; [exact Hm | done|]. simpl. rewrite Hseg. simpl. apply wp_ret, wp_ret.
  apply wp_modify. exists l1, l2. split; [done|].
  assert (Hnp : p ∉ l1 ++ l2).
  { rewrite Hpl in Hnd. apply NoDup_app in Hnd as (_ & Hd & Hnd). apply NoDup_cons in Hnd as [Hnd _].
    intros Hq. apply elem_of_app in Hq as [Hq|Hq]; [|done]. apply (Hd p Hq). by left. }
  assert (Hsub : forall q, q ∈ l1 ++ l2 -> q ∈ pl /\ q <> p).
  { intros q Hq. split; [rewrite Hpl; set_solver|]. intros ->. done. }
  assert (Hlook : forall q x', procs s1 !! q = Some x' -> exists y n, procs s !! q = Some y /\ x' = set_p_next n y).
  { intros q x' Hq. destruct (procs s !! q) as [y|] eqn:Hy.
    - destruct (Hin q y Hy) as [n Hn']. exists y, n. split; [done|]. congruence.
    - destruct (decide (q ∈ pl)) as [Hqp|Hqp].
      + destruct (po_proc _ _ _ (Hp q Hqp)) as (y & Hy' & _). congruence.
      + rewrite (Hout q Hqp) in Hq. congruence. }
  split; [split; simpl|].
  - eapply seg_ext; [|exact Hs1]. intros q Hq. unfold next_proc. simpl.
    rewrite lookup_delete_ne; [done|]. intros ->. done.
  - intros q Hq. destruct (Hsub q Hq) as [Hqp Hqne].
    destruct (Hp q Hqp) as [(y & Hy & Hpid & Hsg & H0 & H1) Hth]. destruct (Hin q y Hy) as [n Hn'].
    split.
    + exists (set_p_next n y). simpl. rewrite lookup_delete_ne by done. rewrite En.
      split; [done|]. split; [done|]. split; [|done]. eapply seg_ext; [|exact Hsg].
      intros t Ht. unfold next_thread. simpl. by rewrite Et.
    + intros t Ht. simpl. rewrite Et. by apply Hth.
  - intros q r y z Hq Hr Hqy Hrz He. destruct (Hsub q Hq), (Hsub r Hr).
    rewrite lookup_delete_ne in Hqy, Hrz by done.
    destruct (Hlook _ _ Hqy) as (y' & n1 & Hy' & ->). destruct (Hlook _ _ Hrz) as (z' & n2 & Hz' & ->).
    by apply (Hi q r y' z').
  - rewrite Ec. destruct Hc as [Hc|Hc]; [by left|]. right. rewrite Hpl in Hc. set_solver.
  - by rewrite En.
  - simpl. split; [apply lookup_delete_eq|]. split; [done|]. split; [|done].
    intros q y Hq. apply lookup_delete_Some in Hq as [_ Hq].
    destruct (Hlook _ _ Hq) as (y' & n & Hy' & _). by exists y'.
Qed.

(** The loop of add_thread finds the last thread. *)
Lemma last_thread_spec s h l x fuel Q :
  seg (next_thread s) h (l ++ [x]) -> (length l < fuel)%nat -> Q x s ->
  wp (iter_fuel fuel (fun last =>
    let! t := ld_thread last in
    if t_next t =? 0 then ret (inr last) else ret (inl (t_next t))) h) Q s.
Proof.
  intros Hseg Hf HQ.
  apply (wp_iter_idx length (fun rest cur s' => s' = s /\ seg (next_thread s) cur (rest ++ [x])))
    with (t := l); [|done | done].
  intros rest cur s' (-> & Hs). destruct rest as [|q rest]; simpl in Hs.
  - destruct Hs as (-> & Hx0 & n & Hn & ->). unfold next_thread in Hn.
    destruct (thrs s !! x) as [t|] eqn:Ht; [|done]. simpl in Hn. injection Hn as Hn.
    apply wp_bind. apply (ld_thread_spec _ _ t); [done | done|]. rewrite Hn. simpl. by apply wp_ret.
  - destruct Hs as (-> & Hq0 & n & Hn & Hs). unfold next_thread in Hn.
    destruct (thrs s !! q) as [t|] eqn:Ht; [|done]. simpl in Hn. injection Hn as Hn.
    apply wp_bind. apply (ld_thread_spec _ _ t); [done | done|].
    assert (Hn0 : n <> 0).
    { destruct rest as [|r rest]; simpl in Hs; destruct Hs as (-> & ? & _); done. }
    rewrite Hn. case_if; [done|]. apply wp_ret. exists rest. split; [done | simpl; lia].
Qed.

Section new_thread.
Context (s : kst) (pl : list Z) (tl : Z -> list Z) (p a : Z) (nt : thread_t) (x x' : process_t).
Context (Hok : table_ok s pl tl) (Hp : p ∈ pl) (Ha : a <> 0) (Hfresh : thrs s !! a = None).
Context (Hx : procs s !! p = Some x) (Hpar : parent nt = p) (Hnn : t_next nt = 0).
Context (Hpid : pid x' = pid x) (Hpn : p_next x' = p_next x) (Hcur : current_thread x' = a).
Let tl' q := if decide (q = p) then tl p ++ [a] else tl q.

(** The table with the thread [a] added to [p]: threads [m] and process
    object [x'] as the code leaves them. *)
Lemma new_thread_table s' m :
  s' = set_procs (<[p := x']> (procs s)) (set_thrs m s) \/
  s' = set_next_tid (next_free_tid s') (set_procs (<[p := x']> (procs s)) (set_thrs m s)) ->
  (forall t th, thrs s !! t = Some th -> exists th', m !! t = Some th' /\ parent th' = parent th /\
     (last (tl p) <> Some t -> t_next th' = t_next th)) ->
  m !! a = Some nt ->
  (forall t, last (tl p) = Some t -> t_next <$> m !! t = Some a) ->
  threads x' = default a (head (tl p)) ->
  table_ok s' pl tl'.
Proof.
  intros Hs' Hm Hma Hlast Hthr. pose proof Hok as [Hl Hps Hi Hc Hn].
  assert (Hstate : procs s' = <[p := x']> (procs s) /\ thrs s' = m /\
    processes_list s' = processes_list s /\ current_process s' = current_process s /\
    next_free_pid s' = next_free_pid s) by (destruct Hs' as [->| ->]; done).
  destruct Hstate as (Eproc & Ethr & El & Ec & En). clear Hs'.
  assert (Hnin : forall q, q ∈ pl -> a ∉ tl q).
  { intros q Hq Hin. destruct (po_threads _ _ _ (Hps q Hq) a Hin) as (th & Hth & _). congruence. }
  assert (Hothers : forall q, q ∈ pl -> q <> p -> forall t, t ∈ tl q -> last (tl p) <> Some t).
  { intros q Hq Hne t Ht Hlt. apply Hne. eapply (threads_disjoint s pl tl); try done.
    apply last_Some in Hlt as [l' ->]. set_solver. }
  split; [| |..|by rewrite Ec | by rewrite En].
  - rewrite El. eapply seg_ext; [|exact Hl]. intros q Hq. unfold next_proc. rewrite Eproc.
    destruct (decide (p = q)) as [<-|Hne].
    + rewrite lookup_insert_eq, Hx. simpl. by rewrite Hpn.
    + by rewrite lookup_insert_ne.
  - intros q Hq. unfold tl'. case_decide as Hqp; [subst q|].
    + destruct (Hps p Hp) as [(y & Hy & Hpd & Hseg & _) Hths]. rewrite Hx in Hy. injection Hy as <-.
      split.
      * exists x'. rewrite Eproc, lookup_insert_eq, Hpid, En, Hthr. split; [done|]. split; [done|].
        split; [|split; [by destruct (tl p)|intros _; rewrite Hcur; set_solver]].
        destruct (last (tl p)) as [z|] eqn:Hz.
        -- apply last_Some in Hz as [l' Hl']. rewrite Hl', <- app_assoc. simpl.
           rewrite (seg_head _ _ _ Hseg), Hl' in Hseg.
           replace (default a (head (l' ++ [z]))) with (default 0 (head (l' ++ [z]))) by (by destruct l').
           pose proof (seg_NoDup _ _ _ Hseg) as Hnd. apply NoDup_app in Hnd as (_ & Hd & _).
           eapply seg_snoc; [exact Hseg | done | rewrite <- Hl'; by apply Hnin| | |].
           ++ intros y Hy. unfold next_thread. rewrite Ethr.
              destruct (Hths y) as (th & Hth & _); [rewrite Hl'; set_solver|].
              destruct (Hm y th Hth) as (th' & Hth' & _ & Hnx). rewrite Hth, Hth'. simpl. f_equal.
              apply Hnx. intros [= ->]. apply (Hd y Hy). by left.
           ++ unfold next_thread. rewrite Ethr. apply Hlast. done.
           ++ unfold next_thread. rewrite Ethr, Hma. simpl. by rewrite Hnn.
        -- apply last_None in Hz. rewrite Hz. simpl. split; [done|]. split; [done|]. exists 0.
           split; [|done]. unfold next_thread. rewrite Ethr, Hma. simpl. by rewrite Hnn.
      * intros t Ht. rewrite Ethr. apply elem_of_app in Ht as [Ht|Ht].
        -- destruct (Hths t Ht) as (th & Hth & Hpa). destruct (Hm t th Hth) as (th' & -> & Hpa' & _).
           exists th'. split; [done|]. congruence.
        -- apply list_elem_of_singleton in Ht as ->. by exists nt.
    + destruct (Hps q Hq) as [(y & Hy & Hpd & Hseg & H0 & H1) Hths]. split.
      * exists y. rewrite Eproc, lookup_insert_ne, En by done. split; [done|]. split; [done|].
        split; [|done]. eapply seg_ext; [|exact Hseg]. intros t Ht. unfold next_thread. rewrite Ethr.
        destruct (Hths t Ht) as (th & Hth & _). destruct (Hm t th Hth) as (th' & -> & _ & Hnx).
        rewrite Hth. simpl. f_equal. apply Hnx. by eapply Hothers.
      * intros t Ht. rewrite Ethr. destruct (Hths t Ht) as (th & Hth & Hpa).
        destruct (Hm t th Hth) as (th' & -> & Hpa' & _). exists th'. split; [done|]. congruence.
  - intros q r y z Hq Hr Hqy Hrz He. rewrite Eproc in Hqy, Hrz.
    assert (Hb : forall q y, <[p := x']> (procs s) !! q = Some y ->
      exists y0, procs s !! q = Some y0 /\ pid y0 = pid y).
    { intros q0 y0 Hq0. destruct (decide (p = q0)) as [<-|Hne].
      - rewrite lookup_insert_eq in Hq0. simplify_eq. by exists x.
      - rewrite lookup_insert_ne in Hq0 by done. by exists y0. }
    destruct (Hb _ _ Hqy) as (y0 & Hy0 & Ey). destruct (Hb _ _ Hrz) as (z0 & Hz0 & Ez).
    apply (Hi q r y0 z0); try done. congruence.
Qed.
End new_thread.

Definition with_thread (tl : Z -> list Z) (p a q : Z) : list Z :=
  if decide (q = p) then tl p ++ [a] else tl q.

Lemma create_thread_spec s pl tl p a stack name function arg fuel :
  table_ok s pl tl -> p ∈ pl -> a <> 0 -> thrs s !! a = None -> (length (tl p) < fuel)%nat ->
  wp (create_thread fuel (Some a) (Some stack) p name function arg) (fun r s' => r = a /\
    table_ok s' pl (with_thread tl p a) /\
    (forall q, is_Some (procs s' !! q) <-> is_Some (procs s !! q)) /\
    (exists th, thrs s' !! a = Some th /\ registers th = start_registers stack function arg) /\
    current_process s' = current_process s) s.
Proof.
  intros Hok Hp Ha Hfresh Hf. pose proof (seg_nonzero _ _ _ p (tb_list _ _ _ Hok) Hp) as Hp0.
  destruct (tb_procs _ _ _ Hok p Hp) as [(x & Hx & _ & Hseg & _) Hths].
  unfold create_thread. apply wp_bind, wp_gets, wp_bind, wp_modify, wp_bind, wp_modify, wp_bind.
  simpl. set (nt := mk_thread _ READY _ p 0 0 _).
  unfold add_thread. case_if; [done|]. apply wp_bind.
  eapply ld_thread_spec; [apply lookup_insert_eq | done|]. simpl. case_if; [done|].
  apply wp_bind. eapply ld_proc_spec; [exact Hx | done|].
  assert (Hiff : forall x' q, is_Some (<[p := x']> (procs s) !! q) <-> is_Some (procs s !! q)).
  { intros x' q. destruct (decide (p = q)) as [<-|Hne].
    - rewrite lookup_insert_eq, Hx. split; by eexists.
    - by rewrite lookup_insert_ne. }
  assert (Hkeep : forall t th, thrs s !! t = Some th -> a <> t) by (intros t th Ht ->; congruence).
  destruct (last (tl p)) as [z|] eqn:Hz.
  - apply last_Some in Hz as Hz'. destruct Hz' as [l Hl].
    assert (Hzin : z ∈ tl p) by (rewrite Hl; set_solver).
    destruct (Hths z Hzin) as (thz & Hthz & _). pose proof (seg_nonzero _ _ _ z Hseg Hzin) as Hz0.
    case_if.
    { rewrite Hb1, Hl in Hseg. destruct l; simpl in Hseg; destruct Hseg as (He & ? & _); congruence. }
    apply wp_bind, wp_bind. rewrite Hl in Hf, Hseg. rewrite length_app in Hf. simpl in Hf.
    apply (last_thread_spec _ _ l z); [|lia|].
    { eapply seg_ext; [|exact Hseg]. intros t Ht. unfold next_thread. simpl.
      destruct (Hths t) as (th & Hth & _); [by rewrite Hl|].
      by rewrite lookup_insert_ne by (by eapply Hkeep). }
    eapply st_thread_spec; [simpl; rewrite lookup_insert_ne by (by eapply Hkeep); exact Hthz | done|].
    simpl. eapply st_proc_spec; [exact Hx | done|]. apply wp_ret. split; [done|]. simpl.
    split; [|split; [apply Hiff | split; [|done]]].
    + eapply (new_thread_table s pl tl p a nt x (set_current a x)) with
        (m := <[z := set_t_next a thz]> (<[a := nt]> (thrs s))); try done; [by right| | | |].
      * intros t th Ht. destruct (decide (z = t)) as [<-|Hne].
        -- rewrite lookup_insert_eq. eexists. split; [done|]. simpl. split; [congruence|].
           intros Hc. by rewrite Hz in Hc.
        -- rewrite !lookup_insert_ne by (done || by eapply Hkeep). by exists th.
      * rewrite lookup_insert_ne, lookup_insert_eq; [done|]. intros ->. congruence.
      * intros t Ht. rewrite Hz in Ht. simplify_eq. by rewrite lookup_insert_eq.
      * simpl. rewrite (seg_head _ _ _ Hseg), Hl. by destruct l.
    + exists nt. rewrite lookup_insert_ne, lookup_insert_eq; [done|]. intros ->. congruence.
  - apply last_None in Hz as Hnil. rewrite Hnil in Hseg. simpl in Hseg. rewrite Hseg. simpl.
    apply wp_bind, wp_bind. eapply st_proc_spec; [exact Hx | done|]. simpl.
    eapply st_proc_spec; [apply lookup_insert_eq | done|]. simpl. rewrite insert_insert_eq.
    eapply st_proc_spec; [apply lookup_insert_eq | done|]. simpl. rewrite insert_insert_eq.
    apply wp_ret. split; [done|]. simpl. split; [|split; [apply Hiff | split; [|done]]].
    + eapply (new_thread_table s pl tl p a nt x (set_current a (set_current a (set_threads a x)))) with
        (m := <[a := nt]> (thrs s)); try done; [by right| | | |].
      * intros t th Ht. rewrite lookup_insert_ne by (by eapply Hkeep). by exists th.
      * apply lookup_insert_eq.
      * intros t Ht. by rewrite Hz in Ht.
      * by rewrite Hnil.
    + exists nt. by rewrite lookup_insert_eq.
Qed.

(** ** Reachable states *)

Definition set_current_process p s := mk_kst (procs s) (thrs s) (next_free_pid s) (next_free_tid s)
  p (processes_list s).

(** The steps of the kernel on the process table: the calls of the system call
    handler, the shell and the timer, each with whatever arguments, when it
    returns.  Allocations return NULL or an address not in use.  A call with
    undefined behaviour is no step: every deletion of a thread, and of a process
    with threads, is one ([delete_thread_undef], [delete_process_busy]). *)
Inductive kstep (s : kst) : kst -> Prop :=
  | ks_process mem name r s' :
      (forall a, mem = Some a -> a <> 0 /\ procs s !! a = None) ->
      next_free_pid s + 1 < 18446744073709551616 ->
      create_process mem name s = Ret (r, s') -> kstep s s'
  | ks_thread fuel mem stack p name function arg r s' :
      (forall a, mem = Some a -> a <> 0 /\ thrs s !! a = None) -> (size (thrs s) < fuel)%nat ->
      create_thread fuel mem stack p name function arg s = Ret (r, s') -> kstep s s'
  | ks_run p : is_Some (procs s !! p) -> kstep s (set_current_process p s)
  | ks_schedule regs r s' : schedule regs s = Ret (r, s') -> kstep s s'
  | ks_delete fuel p s' : (size (procs s) < fuel)%nat -> delete_process fuel p s = Ret (tt, s') -> kstep s s'
  | ks_delete_thread fuel th s' : delete_thread fuel th s = Ret (tt, s') -> kstep s s'.

Definition boot : kst := mk_kst ∅ ∅ 0 0 0 0.

(** The table is well-formed, but for the current process, which may be one
    that was deleted. *)
Definition lists_ok (s : kst) (pl : list Z) (tl : Z -> list Z) : Prop := table_ok (set_current_process 0 s) pl tl.

Definition table_inv (s : kst) : Prop := exists pl tl, lists_ok s pl tl /\
  forall q, is_Some (procs s !! q) <-> q ∈ pl.

(** Well-formed lists do not depend on the current process. *)
Lemma table_ok_current s pl tl : lists_ok s pl tl -> current_process s = 0 \/ current_process s ∈ pl -> table_ok s pl tl.
Proof.
  intros [Hl Hp Hi _ Hn] Hc. split; [exact Hl | | exact Hi | exact Hc | exact Hn].
  intros p Hin. apply (process_ok_frame (set_current_process 0 s)); [by apply Hp | done..].
Qed.
Lemma table_lists s pl tl : table_ok s pl tl -> lists_ok s pl tl.
Proof.
  intros [Hl Hp Hi _ Hn]. split; [exact Hl | | exact Hi | by left | exact Hn].
  intros p Hin. apply (process_ok_frame s); [by apply Hp | done..].
Qed.

Lemma length_dom {A} (m : gmap Z A) l :
  NoDup l -> (forall x, x ∈ l -> is_Some (m !! x)) -> (length l <= size m)%nat.
Proof.
  intros Hnd Hin. rewrite <- size_dom, <- (size_list_to_set (C := gset Z) l) by done.
  apply subseteq_size. intros x Hx. apply elem_of_list_to_set in Hx. by apply elem_of_dom, Hin.
Qed.

Lemma procs_length s pl tl : table_ok s pl tl -> (length pl <= size (procs s))%nat.
Proof.
  intros Hok. apply length_dom; [eapply seg_NoDup, Hok|]. intros p Hp.
  destruct (po_proc _ _ _ (tb_procs _ _ _ Hok p Hp)) as (x & Hx & _). by exists x.
Qed.

Lemma threads_length s pl tl p : table_ok s pl tl -> p ∈ pl -> (length (tl p) <= size (thrs s))%nat.
Proof.
  intros Hok Hp. destruct (tb_procs _ _ _ Hok p Hp) as [(x & Hx & _ & Hseg & _) Hth].
  apply length_dom; [by eapply seg_NoDup|]. intros t Ht. destruct (Hth t Ht) as (y & Hy & _). by exists y.
Qed.

(** Scheduling is defined, whether something can run or not, unless the current
    process was deleted. *)
Lemma schedule_defined s pl tl regs : table_ok s pl tl ->
  wp (schedule regs) (fun _ s' => table_ok s' pl tl /\ forall q, is_Some (procs s' !! q) <-> is_Some (procs s !! q)) s.
Proof.
  intros Hok. destruct (tb_current _ _ _ Hok) as [Hc|Hc].
  - unfold schedule. apply wp_bind, wp_gets. rewrite Hc. simpl. by apply wp_ret.
  - set (p := current_process s) in *.
    destruct (po_proc _ _ _ (tb_procs _ _ _ Hok p Hc)) as (x & Hx & _ & Hseg & H0 & H1).
    destruct (decide (tl p = [])) as [Hnil|Hne].
    + pose proof (seg_nonzero _ _ _ p (tb_list _ _ _ Hok) Hc). unfold schedule.
      apply wp_bind, wp_gets. fold p. case_if; [done|]. apply wp_bind.
      apply (ld_proc_spec _ _ x); [done | done|]. rewrite (H0 Hnil). simpl. by apply wp_ret.
    + specialize (H1 Hne). apply list_elem_of_lookup_1 in H1 as [i Hi].
      assert (Hat : at_thread s p (tl p) i) by (split; [done|]; by exists x).
      eapply wp_mono; [exact (schedule_spec s pl tl p i _ regs Hok Hc Hat Hi)|].
      intros r s' (_ & Hok' & _ & Htk). split; [done|]. exact (tk_procs _ _ _ _ _ Htk).
Qed.

Lemma schedule_dangling s regs : current_process s <> 0 -> procs s !! current_process s = None -> schedule regs s = Undef.
Proof.
  intros H0 Hn. unfold schedule, bind, obind, gets. rewrite (proj2 (Z.eqb_neq _ 0)) by done.
  unfold ld_proc. by rewrite Hn.
Qed.

Lemma wp_ret_inv {S A} (m : M S A) Q s a s' : wp m Q s -> m s = Ret (a, s') -> Q a s'.
Proof. unfold wp. intros Hw Hr. by rewrite Hr in Hw. Qed.

(** ** Code that does not look at the current process *)

Definition blind {A} (m : M kst A) : Prop := forall c s,
  m (set_current_process c s) = obind (m s) (fun '(a, s') => Ret (a, set_current_process c s')).

Lemma blind_ret {A} (a : A) : blind (ret a).
Proof. done. Qed.
Lemma blind_undef {A} : blind (@undef kst A).
Proof. done. Qed.
Lemma blind_bind {A B} (m : M kst A) (k : A -> M kst B) : blind m -> (forall a, blind (k a)) -> blind (bind m k).
Proof.
  intros Hm Hk c s. unfold bind. rewrite Hm. unfold obind at 1 2 4. destruct (m s) as [[a s1]| | |]; [apply Hk | done..].
Qed.
Lemma blind_gets {A} (f : kst -> A) : (forall c s, f (set_current_process c s) = f s) -> blind (gets f).
Proof. intros Hf c s. unfold gets. by rewrite Hf. Qed.
Lemma blind_modify f : (forall c s, f (set_current_process c s) = set_current_process c (f s)) -> blind (modify f).
Proof. intros Hf c s. unfold modify. by rewrite Hf. Qed.
Lemma blind_iter {X A} (body : X -> M kst (X + A)) n : (forall x, blind (body x)) -> forall x, blind (iter_fuel n body x).
Proof.
  intros Hb. induction n as [|n IH]; intros x; [done|]. cbn [iter_fuel].
  apply blind_bind; [apply Hb|]. intros [y|r]; [apply IH | apply blind_ret].
Qed.
Lemma blind_ld_proc p : blind (ld_proc p).
Proof. intros c s. unfold ld_proc. cbn. by repeat case_match. Qed.
Lemma blind_ld_thread t : blind (ld_thread t).
Proof. intros c s. unfold ld_thread. cbn. by repeat case_match. Qed.
Create HintDb blind.
#[local] Hint Resolve blind_ret blind_undef blind_ld_proc blind_ld_thread : blind.

Ltac blinds :=
  cbv zeta;
  repeat first
    [ progress eauto with blind
    | lazymatch goal with
      | |- blind (bind _ _) => apply blind_bind; [|intros ?]
      | |- blind (gets _) => by apply blind_gets
      | |- blind (modify _) => by apply blind_modify
      | |- blind (iter_fuel _ _ _) => apply blind_iter; intros ?
      | |- blind (match ?x with _ => _ end) => destruct x
      end ].

Lemma blind_st_proc p f : blind (st_proc p f).
Proof. unfold st_proc. blinds. Qed.
Lemma blind_st_thread t f : blind (st_thread t f).
Proof. unfold st_thread. blinds. Qed.
#[local] Hint Resolve blind_st_proc blind_st_thread : blind.
Lemma blind_create_process mem name : blind (create_process mem name).
Proof. unfold create_process, add_process. blinds. Qed.
Lemma blind_create_thread fuel mem stack p name function arg : blind (create_thread fuel mem stack p name function arg).
Proof. unfold create_thread, add_thread. blinds. Qed.
Lemma blind_delete_process fuel p : blind (delete_process fuel p).
Proof. unfold delete_process, remove_process, delete_thread, remove_thread. blinds. Qed.

Lemma blind_get_process fuel n : blind (get_process_by_pid fuel n).
Proof. unfold get_process_by_pid. blinds. Qed.

(** Such a run can be looked at without the current process. *)
Lemma blind_run {A} (m : M kst A) s a s' : blind m -> m s = Ret (a, s') ->
  m (set_current_process 0 s) = Ret (a, set_current_process 0 s').
Proof. intros Hm Hr. by rewrite Hm, Hr. Qed.

(** ** Deletion *)

Lemma bind_ret_inv {S A B} (m : M S A) (k : A -> M S B) s b s' : bind m k s = Ret (b, s') ->
  exists a s1, m s = Ret (a, s1) /\ k a s1 = Ret (b, s').
Proof. unfold bind, obind. destruct (m s) as [[a s1]| | |]; [|done..]. intros H. by exists a, s1. Qed.

Lemma delete_thread_undef fuel th s u s' : delete_thread fuel th s = Ret (u, s') -> th = 0 /\ s' = s.
Proof.
  unfold delete_thread. case_if; [intros [= _ <-]; split; [lia | done]|]. unfold bind, obind.
  destruct (ld_thread th s) as [[x s1]| | |]; [|done..]. by destruct (remove_thread fuel th s1) as [[y s2]| | |].
Qed.

(** A process with threads is not deleted. *)
Lemma delete_process_busy s pl tl p fuel u s' : table_ok s pl tl -> p ∈ pl -> tl p <> [] -> (length pl < fuel)%nat ->
  delete_process fuel p s <> Ret (u, s').
Proof.
  intros Hok Hp Hne Hf Hrun. pose proof (seg_nonzero _ _ _ p (tb_list _ _ _ Hok) Hp) as Hp0.
  destruct (tb_procs _ _ _ Hok p Hp) as [(x & Hx & _ & Hseg & _) Hths].
  assert (Hth0 : threads x <> 0) by (destruct (tl p); [done|]; by destruct Hseg as (-> & ? & _)).
  apply list_elem_of_split in Hp as (l1 & l2 & Hpl).
  unfold delete_process in Hrun. apply bind_ret_inv in Hrun as (y & s0 & Hy & Hrun).
  unfold ld_proc in Hy. rewrite Hx, (proj2 (Z.eqb_neq p 0)) in Hy by done. injection Hy as <- <-.
  rewrite (proj2 (Z.eqb_neq p 0)) in Hrun by done. apply bind_ret_inv in Hrun as ([] & s1 & Hrm & Hrun).
  assert (H1 : exists m, procs s1 !! p = Some (set_p_next m x)).
  { refine (wp_ret_inv _ (fun _ s1 => exists m, procs s1 !! p = Some (set_p_next m x)) _ _ _ _ Hrm).
    apply (remove_process_spec s pl p l1 l2); [apply Hok | done | done|]. intros s2 _ _ _ _ _ Hin. by apply Hin. }
  destruct H1 as [m Hm]. apply bind_ret_inv in Hrun as ([] & s2 & Hit & _).
  destruct fuel as [|fuel]; [done|]. cbn [iter_fuel] in Hit. apply bind_ret_inv in Hit as (r & s3 & Hit & _).
  apply bind_ret_inv in Hit as (y & s4 & Hy & Hit). unfold ld_proc in Hy.
  rewrite Hm, (proj2 (Z.eqb_neq p 0)) in Hy by done. injection Hy as <- <-. cbn [threads set_p_next] in Hit.
  rewrite (proj2 (Z.eqb_neq _ 0)) in Hit by done. apply bind_ret_inv in Hit as (t & s5 & _ & Hit).
  apply bind_ret_inv in Hit as (u1 & s6 & _ & Hit). apply bind_ret_inv in Hit as (u2 & s7 & Hd & _).
  by apply delete_thread_undef in Hd as [? _].
Qed.

(** ** The steps *)

Lemma threads_changed s s' pl tl : table_ok s pl tl -> procs s' = procs s -> next_free_pid s' = next_free_pid s ->
  processes_list s' = processes_list s -> current_process s' = current_process s ->
  (forall p t, p ∈ pl -> t ∈ tl p -> thrs s' !! t = thrs s !! t) -> table_ok s' pl tl.
Proof.
  intros [Hl Hp Hi Hc Hn] Ep En El Ec Ht. split.
  - rewrite El. eapply seg_ext; [|exact Hl]. intros q _. unfold next_proc. by rewrite Ep.
  - intros p Hin. apply (process_ok_frame s); [by apply Hp | by rewrite Ep | lia | intros; by eapply Ht].
  - intros p q x y. rewrite Ep. apply Hi.
  - by rewrite Ec.
  - by rewrite En.
Qed.

(** A new thread joins its process; one without a process joins none. *)
Lemma create_thread_step s pl tl fuel mem stack p name function arg r s' :
  table_ok s pl tl -> (forall q, is_Some (procs s !! q) <-> q ∈ pl) ->
  (forall a, mem = Some a -> a <> 0 /\ thrs s !! a = None) -> (size (thrs s) < fuel)%nat ->
  create_thread fuel mem stack p name function arg s = Ret (r, s') ->
  exists tl', table_ok s' pl tl' /\ forall q, is_Some (procs s' !! q) <-> q ∈ pl.
Proof.
  intros Hok Hdom Hmem Hf Hrun. destruct mem as [a|]; [|injection Hrun as _ <-; by exists tl].
  destruct (Hmem a eq_refl) as [Ha Hfr].
  destruct stack as [stack|]; [|injection Hrun as _ <-; exists tl; split; [by apply (threads_changed s)|done]].
  assert (Hth : forall q t, q ∈ pl -> t ∈ tl q -> a <> t).
  { intros q t Hq Ht <-. destruct (po_threads _ _ _ (tb_procs _ _ _ Hok q Hq) a Ht) as (y & Hy & _). congruence. }
  destruct (decide (is_Some (procs s !! p))) as [Hp|Hp].
  - apply Hdom in Hp. pose proof (threads_length s pl tl p Hok Hp).
    destruct (wp_ret_inv _ _ _ _ _ (create_thread_spec s pl tl p a stack name function arg fuel Hok Hp Ha Hfr
      ltac:(lia)) Hrun) as (_ & Hok' & Hd & _).
    exists (with_thread tl p a). split; [done|]. intros q. rewrite (Hd q). apply Hdom.
  - unfold create_thread in Hrun. apply bind_ret_inv in Hrun as (n & s1 & Hn & Hrun). unfold gets in Hn. injection Hn as <- <-.
    apply bind_ret_inv in Hrun as (u & s1 & Hn & Hrun). unfold modify in Hn. injection Hn as _ <-.
    apply bind_ret_inv in Hrun as (u' & s2 & Hn & Hrun). unfold modify in Hn. injection Hn as _ <-.
    apply bind_ret_inv in Hrun as (u'' & s3 & Hadd & Hn). injection Hn as _ <-.
    unfold add_thread in Hadd. rewrite (proj2 (Z.eqb_neq a 0)) in Hadd by done.
    apply bind_ret_inv in Hadd as (x & s4 & Hx & Hadd). unfold ld_thread in Hx. cbn in Hx.
    rewrite lookup_insert_eq, (proj2 (Z.eqb_neq a 0)) in Hx by done. injection Hx as <- <-. cbn [parent] in Hadd.
    destruct (p =? 0).
    + injection Hadd as _ <-. exists tl. split; [|done].
      apply (threads_changed s); try done. intros q t Hq Ht. cbn. rewrite lookup_insert_ne; [done|]. by eapply Hth.
    + exfalso. apply bind_ret_inv in Hadd as (y & s5 & Hy & _). unfold ld_proc in Hy. cbn in Hy.
      destruct (procs s !! p); [by destruct Hp | done].
Qed.

Lemma create_process_step s pl tl mem name r s' :
  table_ok s pl tl -> (forall q, is_Some (procs s !! q) <-> q ∈ pl) ->
  (forall a, mem = Some a -> a <> 0 /\ procs s !! a = None) -> next_free_pid s + 1 < 18446744073709551616 ->
  create_process mem name s = Ret (r, s') ->
  exists pl' tl', table_ok s' pl' tl' /\ forall q, is_Some (procs s' !! q) <-> q ∈ pl'.
Proof.
  intros Hok Hdom Hmem Hov Hrun. destruct mem as [a|]; [|injection Hrun as _ <-; by exists pl, tl].
  destruct (Hmem a eq_refl) as [Ha Hfr].
  destruct (wp_ret_inv _ _ _ _ _ (create_process_spec s pl tl a name Hok Ha Hfr Hov) Hrun) as (_ & Hok' & Hpr & _).
  exists (a :: pl), (fun q => if decide (q = a) then [] else tl q). split; [done|].
  intros q. rewrite Hpr, elem_of_cons. destruct (decide (a = q)) as [<-|Hne].
  - rewrite lookup_insert_eq. split; [by left | by eexists].
  - rewrite lookup_insert_ne by done. rewrite Hdom. naive_solver.
Qed.

(** Here no process is the current one. *)
Lemma delete_process_step s pl tl fuel p s' :
  table_ok s pl tl -> (forall q, is_Some (procs s !! q) <-> q ∈ pl) -> current_process s = 0 ->
  (size (procs s) < fuel)%nat -> delete_process fuel p s = Ret (tt, s') ->
  exists pl', table_ok s' pl' tl /\ forall q, is_Some (procs s' !! q) <-> q ∈ pl'.
Proof.
  intros Hok Hdom Hc Hf Hrun. pose proof (procs_length s pl tl Hok) as Hlen.
  destruct (decide (p ∈ pl)) as [Hp|Hp].
  2: { exfalso. apply bind_ret_inv in Hrun as (x & s1 & Hx & _). unfold ld_proc in Hx.
       destruct (procs s !! p) eqn:Hl; [|done]. apply Hp, Hdom. by eexists. }
  pose proof (seg_nonzero _ _ _ p (tb_list _ _ _ Hok) Hp) as Hp0.
  destruct (decide (tl p = [])) as [Htl|Htl]; 
    [|by destruct (delete_process_busy s pl tl p fuel tt s' Hok Hp Htl ltac:(lia))].
  destruct (wp_ret_inv _ _ _ _ _ (delete_process_spec s pl tl p fuel Hok Hp Htl ltac:(congruence) ltac:(lia)) Hrun)
    as (l1 & l2 & Hpl & Hok' & Hnone & _ & Hsub & _).
  exists (l1 ++ l2). split; [done|]. intros q. split.
  - intros [y Hy]. destruct (Hsub q y Hy) as [z Hz].
    assert (Hq : q ∈ pl) by (apply Hdom; by eexists). rewrite Hpl in Hq.
    assert (q <> p) by congruence. set_solver.
  - intros Hq. destruct (po_proc _ _ _ (tb_procs _ _ _ Hok' q Hq)) as (y & Hy & _). by exists y.
Qed.

Lemma kstep_inv s s' : table_inv s -> kstep s s' -> table_inv s'.
Proof.
  intros (pl & tl & Hok & Hdom) Hstep. unfold table_inv, lists_ok in *.
  destruct Hstep as [mem name r s' Hmem Hov Hrun | fuel mem stack p name fn arg r s' Hmem Hf Hrun
    | p Hp | regs r s' Hrun | fuel p s' Hf Hrun | fuel th s' Hrun].
  - apply blind_run in Hrun; [|apply blind_create_process].
    by apply (create_process_step _ pl tl _ _ _ _ Hok Hdom Hmem Hov Hrun).
  - apply blind_run in Hrun; [|apply blind_create_thread].
    exists pl. by apply (create_thread_step _ pl tl _ _ _ _ _ _ _ _ _ Hok Hdom Hmem Hf Hrun).
  - by exists pl, tl.
  - destruct (decide (current_process s = 0 \/ current_process s ∈ pl)) as [Hc|Hc].
    + destruct (wp_ret_inv _ _ _ _ _ (schedule_defined s pl tl regs (table_ok_current s pl tl Hok Hc)) Hrun) as [Hok' Hd].
      exists pl, tl. split; [by apply table_lists|]. intros q. rewrite (Hd q). apply Hdom.
    + rewrite schedule_dangling in Hrun; [done | tauto|].
      destruct (procs s !! current_process s) eqn:Hl; [|done]. exfalso. apply Hc. right. apply Hdom. by eexists.
  - apply blind_run in Hrun; [|apply blind_delete_process].
    destruct (delete_process_step _ pl tl _ _ _ Hok Hdom eq_refl Hf Hrun) as (pl' & H). by exists pl', tl.
  - apply delete_thread_undef in Hrun as [_ ->]. by exists pl, tl.
Qed.

Lemma reachable_inv s0 s : rtc kstep s0 s -> table_inv s0 -> table_inv s.
Proof. induction 1 as [|s1 s2 s3 Hs _ IH]; [done|]. intros Hi. by apply IH, (kstep_inv s1). Qed.

Lemma lookup_pid s pl tl n : lists_ok s pl tl -> exists r, get_process_by_pid (S (size (procs s))) n s = Ret (r, s) /\
  ((r ∈ pl /\ exists x, procs s !! r = Some x /\ pid x = n) \/
   (r = 0 /\ forall p x, p ∈ pl -> procs s !! p = Some x -> pid x <> n)).
Proof.
  intros Hok. pose proof (procs_length _ _ _ Hok) as Hlen. cbn in Hlen.
  destruct (proj1 (wp_run _ _ _) (get_process_by_pid_spec _ pl tl n (S (size (procs s))) Hok ltac:(lia)))
    as (r & s' & Hrun & -> & Hres).
  exists r. split; [|done]. rewrite blind_get_process in Hrun.
  destruct (get_process_by_pid (S (size (procs s))) n s) as [[r' s']| | |] eqn:Hg; cbn in Hrun; try done.
  injection Hrun as -> Hs. f_equal. f_equal.
  pose proof (blind_get_process (S (size (procs s))) n (current_process s) s) as Hb.
  replace (set_current_process (current_process s) s) with s in Hb by (by destruct s). rewrite Hg in Hb. cbn in Hb.
  injection Hb as Hb. destruct s, s'. cbn in *. unfold set_current_process in *. cbn in *. congruence.
Qed.

Lemma boot_inv : table_inv boot.
Proof.
  exists [], (fun _ => []). split.
  - split; try done; [|..|by left]; intros p; intros; by match goal with H : _ ∈ [] |- _ => apply elem_of_nil in H end.
  - intros q. simpl. rewrite lookup_empty. split; [by intros []|]. intros H. by apply elem_of_nil in H.
Qed.

(** C21: Whatever calls the kernel makes to create and delete processes and
    threads, whichever process is made the current one and whatever ticks occur,
    as long as the behaviour of each is defined, the process table is
    well-formed: the lists are lists, process ids are unique, every process has
    its own threads and its current thread is one of them; and get_process_by_pid
    finds the process with the id, or reports none exactly when there is none.
    The current process is not safe: deleting it leaves its address behind.  A
    tick is defined when there is no current process or it still exists, and
    undefined when it was deleted.  Deleting a thread, and a process that has
    threads, is itself undefined in the source and ends such a run. *)
Theorem process_table_invariant s regs n :
  rtc kstep boot s -> exists pl tl, lists_ok s pl tl /\ (forall q, is_Some (procs s !! q) <-> q ∈ pl) /\
  (current_process s = 0 \/ current_process s ∈ pl -> table_ok s pl tl /\ exists r s', schedule regs s = Ret (r, s')) /\
  (current_process s <> 0 -> current_process s ∉ pl -> schedule regs s = Undef) /\
  exists r, get_process_by_pid (S (size (procs s))) n s = Ret (r, s) /\
    (r <> 0 -> r ∈ pl /\ pid <$> procs s !! r = Some n) /\
    (r = 0 -> forall p x, procs s !! p = Some x -> pid x <> n).
Proof.
  intros Hr. destruct (reachable_inv _ _ Hr boot_inv) as (pl & tl & Hok & Hdom).
  exists pl, tl. split_and!; [done | done | | |].
  - intros Hc. pose proof (table_ok_current s pl tl Hok Hc) as Ht. split; [done|].
    destruct (proj1 (wp_run _ _ _) (schedule_defined s pl tl regs Ht)) as (r & s' & Hrun & _). by exists r, s'.
  - intros H0 Hc. apply schedule_dangling; [done|].
    destruct (procs s !! current_process s) eqn:Hl; [|done]. exfalso. apply Hc, Hdom. by eexists.
  - destruct (lookup_pid s pl tl n Hok) as (r & Hrun & Hres).
    exists r. split; [done|]. destruct Hres as [(Hin & x & Hx & Hpid)|(-> & Hnone)].
    + split; [intros _; by rewrite Hx, <- Hpid|]. intros ->.
      by pose proof (seg_nonzero _ _ _ 0 (tb_list _ _ _ Hok) Hin).
    + split; [done|]. intros _ p x Hx. apply (Hnone p x); [|done]. apply Hdom. by exists x.
Qed.

(** ** A small system: two processes, the first with three threads. *)
Module SmallSystem.
(** The state a run ends in. *)
Definition after (m : M kst Z) (s : kst) : kst := match m s with Ret (_, s') => s' | _ => s end.
Definition s0 : kst := after (create_process (Some 0x1000) [112; 48]) boot.
Definition s1 : kst := after (create_process (Some 0x2000) [112; 49]) s0.
Definition s2 : kst :=
  after (create_thread 8 (Some 0x3000) (Some 0x10000) 0x1000 [97] 0x400000 1) s1.
Definition s3 : kst :=
  after (let! _ := create_thread 8 (Some 0x4000) (Some 0x20000) 0x1000 [98] 0x400100 2 in
         create_thread 8 (Some 0x5000) (Some 0x30000) 0x1000 [99] 0x400200 3) s2.
Definition s3a : kst :=
  after (create_thread 8 (Some 0x4000) (Some 0x20000) 0x1000 [98] 0x400100 2) s2.
Definition s4 : kst := set_current_process 0x1000 s3.

Lemma s4_reachable : rtc kstep boot s4.
Proof.
  apply (rtc_l _ _ s0); [apply (ks_process boot (Some 0x1000) [112; 48] 0x1000);
    [by intros a [= <-] | done | by vm_compute]|].
  apply (rtc_l _ _ s1); [apply (ks_process s0 (Some 0x2000) [112; 49] 0x2000);
    [by intros a [= <-] | by vm_compute | by vm_compute]|].
  apply (rtc_l _ _ s2); [apply (ks_thread s1 8 (Some 0x3000) (Some 0x10000) 0x1000 [97] 0x400000 1 0x3000);
    [by intros a [= <-] | apply Nat.ltb_lt; by vm_compute | by vm_compute]|].
  apply (rtc_l _ _ s3a); [apply (ks_thread s2 8 (Some 0x4000) (Some 0x20000) 0x1000 [98] 0x400100 2 0x4000);
    [by intros a [= <-] | apply Nat.ltb_lt; by vm_compute | by vm_compute]|].
  apply (rtc_l _ _ s3); [apply (ks_thread s3a 8 (Some 0x5000) (Some 0x30000) 0x1000 [99] 0x400200 3 0x5000);
    [by intros a [= <-] | apply Nat.ltb_lt; by vm_compute | by vm_compute]|].
  apply (rtc_l _ _ s4); [apply (ks_run s3 0x1000); eexists; by vm_compute|]. apply rtc_refl.
Qed.

(** The second process made the current one and deleted. *)
Definition s5 : kst := after (let! _ := delete_process 8 0x2000 in ret 0) (set_current_process 0x2000 s4).
Lemma s5_reachable : rtc kstep boot s5.
Proof.
  etrans; [exact s4_reachable|].
  apply (rtc_l _ _ (set_current_process 0x2000 s4)); [apply (ks_run s4 0x2000); eexists; by vm_compute|].
  apply rtc_once, (ks_delete _ 8 0x2000); [apply Nat.ltb_lt; by vm_compute | by vm_compute].
Qed.

Lemma process_table_invariant_witness :
  (exists r s', schedule (replicate 26 7) s4 = Ret (r, s')) /\
  (exists pl tl, lists_ok s5 pl tl /\ 0x1000 ∈ pl) /\ schedule (replicate 26 7) s5 = Undef.
Proof.
  destruct (process_table_invariant s4 (replicate 26 7) 1 s4_reachable) as (pl & tl & _ & Hdom & Hrun & _).
  destruct (process_table_invariant s5 (replicate 26 7) 1 s5_reachable) as (pl' & tl' & Hok' & Hdom' & _ & Hdang & _).
  split_and!.
  - apply Hrun. right. apply Hdom. eexists. vm_compute. reflexivity.
  - exists pl', tl'. split; [exact Hok'|]. apply Hdom'. eexists. vm_compute. reflexivity.
  - apply Hdang; [vm_compute; discriminate|]. intros Hin. apply Hdom' in Hin as [x Hx]. vm_compute in Hx. discriminate Hx.
Defined.

Definition tl4 (p : Z) : list Z := if decide (p = 0x1000) then [0x3000; 0x4000; 0x5000] else [].

Lemma s4_table : table_ok s4 [0x2000; 0x1000] tl4.
Proof.
  assert (Hp : forall p, p ∈ [0x2000; 0x1000] -> p = 0x2000 \/ p = 0x1000) by set_solver.
  split.
  - split; [done|]. split; [done|]. exists 0x1000. split; [done|].
    split; [done|]. split; [done|]. by exists 0.
  - intros p [->| ->]%Hp; split.
    + eexists. split; [by vm_compute|]. by vm_compute.
    + intros t Ht. by apply elem_of_nil in Ht.
    + eexists. split; [by vm_compute|]. split; [by vm_compute|]. split.
      * split; [done|]. split; [done|]. exists 0x4000. split; [done|]. split; [done|]. split; [done|].
        exists 0x5000. split; [done|]. split; [done|]. split; [done|]. by exists 0.
      * split; [done|]. intros _. apply list_elem_of_In. simpl. tauto.
    + intros t Ht. assert (Hc : t = 0x3000 \/ t = 0x4000 \/ t = 0x5000) by (unfold tl4 in Ht; simpl in Ht; set_solver).
      destruct Hc as [->|[->| ->]]; eexists; split; by vm_compute.
  - intros p q x y [->| ->]%Hp [->| ->]%Hp Hx Hy; vm_compute in Hx; vm_compute in Hy; simplify_eq/=; done.
  - right. apply list_elem_of_In. simpl. tauto.
  - done.
Qed.

Lemma schedule_fair_witness :
  exists k, (1 <= k <= length (tl4 0x1000))%nat /\ forall rs, length rs = k ->
    wp (ticks rs) (fun r s' => r = 0x4000 /\ table_ok s' [0x2000; 0x1000] tl4 /\
      t_status <$> thrs s' !! 0x4000 = Some RUNNING) s4.
Proof.
  apply (schedule_fair s4 [0x2000; 0x1000] tl4 0x1000 2 0x4000).
  - exact s4_table.
  - apply list_elem_of_In. simpl. tauto.
  - split; [reflexivity|]. eexists. split; [vm_compute; reflexivity | reflexivity].
  - simpl. lia.
  - apply list_elem_of_In. simpl. tauto.
Defined.
End SmallSystem.
