(* ===== verification/BlockDev.v ===== *)
(** The interface between the file systems and the storage below them.

    [BlockDev] names the four services the file-system code calls:
    kebla_disk_read and kebla_disk_write (kernel/src/driver/disk/disk.c) and
    malloc and free (kernel/src/lib/stdlib.c).  [DiskFrame] says
    what each of them leaves as it was, in terms of the contents [sector] of each
    sector of each disk, whatever the size of its sectors; [BlockDevLaws] adds
    what they do on disks with 512-byte sectors, and the theorems of the file
    systems for such disks are proved against it.  Any call may
    fail; [reliable] is the condition (working hardware, free heap) under which
    calls within the disk's capacity succeed.

    [RamDisk] is an instance that keeps the sectors in a finite map, with
    a switch that makes every call fail, used by the witnesses.  Disk.v models
    disk.c itself over the AHCI driver, and DiskProps.v proves what these laws
    say of one read and one write; it is no instance because every transfer
    there loses a block of the heap, so that [reliable] does not last. *)
From S2P Require Import Prelude.

Class BlockDev (E : Type) := {
  (** kebla_disk_read(disk_no, lba, count, buf): the bytes read, or failure. *)
  kebla_disk_read : Z -> Z -> Z -> E -> option (list Z) * E;
  (** kebla_disk_write(disk_no, lba, count, buf). *)
  kebla_disk_write : Z -> Z -> Z -> list Z -> E -> bool * E;
  (** malloc(size) returns a block, which stdlib.c fills with zeroes. *)
  malloc : Z -> E -> bool * E;
  free : E -> E
}.

(** What a call leaves alone, for disks with sectors of any size: optical disks
    have sectors of 2048 bytes. *)
Class DiskFrame (E : Type) {D : BlockDev E} := {
  sector : E -> Z -> Z -> list Z;
  capacity : E -> Z -> Z;
  reliable : E -> Prop;

  read_frame : forall e d lba n r e', kebla_disk_read d lba n e = (r, e') ->
    (forall d' l, sector e' d' l = sector e d' l) /\
    (forall d', capacity e' d' = capacity e d') /\ (reliable e -> reliable e');
  write_frame : forall e d lba n buf r e', kebla_disk_write d lba n buf e = (r, e') ->
    (forall d' l, d' <> d \/ l < lba \/ lba + n <= l -> sector e' d' l = sector e d' l) /\
    (forall d', capacity e' d' = capacity e d') /\ (reliable e -> reliable e');
  malloc_frame : forall e n r e', malloc n e = (r, e') ->
    (forall d' l, sector e' d' l = sector e d' l) /\
    (forall d', capacity e' d' = capacity e d') /\ (reliable e -> reliable e');
  free_frame : forall e, (forall d' l, sector (free e) d' l = sector e d' l) /\
    (forall d', capacity (free e) d' = capacity e d') /\ (reliable e -> reliable (free e))
}.

(** What the calls do, for disks with sectors of 512 bytes. *)
Class BlockDevLaws (E : Type) {D : BlockDev E} := {
  disk_frame :: DiskFrame E;

  sector_length : forall e d lba, length (sector e d lba) = 512%nat;
  sector_bytes : forall e d lba, Forall byte (sector e d lba);

  read_data : forall e d lba n data e', kebla_disk_read d lba n e = (Some data, e') ->
    0 <= lba -> 0 < n -> data = mjoin (sector e d <$> seqZ lba n);
  read_total : forall e d lba n, reliable e -> 0 <= lba -> 0 < n -> lba + n <= capacity e d ->
    is_Some (kebla_disk_read d lba n e).1;

  write_data : forall e d lba n buf e', kebla_disk_write d lba n buf e = (true, e') ->
    0 <= lba -> Forall byte buf -> n * 512 <= zlen buf ->
    forall i, 0 <= i < n -> sector e' d (lba + i) = slice (i * 512) 512 buf;
  write_total : forall e d lba n buf, reliable e -> 0 <= lba -> 0 < n ->
    lba + n <= capacity e d -> (kebla_disk_write d lba n buf e).1 = true;

  malloc_total : forall e n, reliable e -> 0 < n -> (malloc n e).1 = true
}.

(** Two devices with the same contents and capacities, the second reliable
    if the first is: what a call that writes nothing leaves behind. *)
Definition dev_eq {E} `{DiskFrame E} (e e' : E) : Prop :=
  (forall d l, sector e' d l = sector e d l) /\
  (forall d, capacity e' d = capacity e d) /\ (reliable e -> reliable e').

Lemma dev_eq_refl {E} `{DiskFrame E} (e : E) : dev_eq e e.
Proof. by repeat split. Qed.

Lemma dev_eq_trans {E} `{DiskFrame E} (e1 e2 e3 : E) :
  dev_eq e1 e2 -> dev_eq e2 e3 -> dev_eq e1 e3.
Proof.
  intros (Hs & Hc & Hr) (Hs' & Hc' & Hr'). repeat split; intros.
  - by rewrite Hs'. 
  - by rewrite Hc'.
  - auto.
Qed.

#[export] Hint Resolve dev_eq_refl : machine.

(** Contiguous sectors read as one buffer. *)
Definition sectors {E} `{BlockDevLaws E} (e : E) (d lba n : Z) : list Z :=
  mjoin (sector e d <$> seqZ lba n).

Section sectors.
Context {E} `{BlockDevLaws E}.

Lemma sectors_cons (e : E) d lba n :
  0 < n -> sectors e d lba n = sector e d lba ++ sectors e d (lba + 1) (n - 1).
Proof.
  intros. unfold sectors. rewrite seqZ_cons by done. simpl.
  by rewrite <- Z.add_1_r, <- Z.sub_1_r.
Qed.

Lemma length_sectors (e : E) d lba n : 0 <= n -> zlen (sectors e d lba n) = n * 512.
Proof.
  intros Hn. revert lba. pattern n. apply natlike_ind; [done| |done].
  intros x Hx IH lba. rewrite sectors_cons by lia. rewrite length_app, sector_length.
  replace (Z.succ x - 1) with x by lia. specialize (IH (lba + 1)). lia.
Qed.

Lemma sectors_byte (e : E) d lba n : Forall byte (sectors e d lba n).
Proof.
  unfold sectors. apply Forall_join, Forall_fmap, Forall_true.
  intros. apply sector_bytes.
Qed.

(** One sector of the buffer. *)
Lemma slice_sectors (e : E) d lba n i :
  0 <= i < n -> slice (i * 512) 512 (sectors e d lba n) = sector e d (lba + i).
Proof.
  intros Hi. assert (Hi0 : 0 <= i) by lia.
  revert lba n Hi. pattern i. apply natlike_ind; [| |exact Hi0].
  - intros lba n Hi. rewrite sectors_cons by lia. rewrite Z.add_0_r.
    apply slice_app_exact. by rewrite sector_length.
  - intros x Hx IH lba n Hi. rewrite sectors_cons by lia.
    rewrite slice_app_r by (rewrite sector_length; lia). rewrite sector_length.
    replace (Z.succ x * 512 - Z.of_nat 512) with (x * 512) by lia.
    rewrite IH by lia. f_equal. lia.
Qed.

Lemma sectors_ext (e e' : E) d lba n :
  (forall i, 0 <= i < n -> sector e' d (lba + i) = sector e d (lba + i)) ->
  sectors e' d lba n = sectors e d lba n.
Proof.
  intros Heq. unfold sectors. f_equal. apply list_fmap_ext.
  intros i l Hl%lookup_seqZ. replace l with (lba + Z.of_nat i) by lia. apply Heq. lia.
Qed.

(** A buffer of [n] sectors is determined by its sectors. *)
Lemma sectors_of_slices (e : E) d lba n buf :
  0 <= n -> zlen buf = n * 512 ->
  (forall i, 0 <= i < n -> sector e d (lba + i) = slice (i * 512) 512 buf) ->
  sectors e d lba n = buf.
Proof.
  intros Hn. revert lba buf. pattern n. apply natlike_ind; [| |done].
  - intros lba buf Hl _. destruct buf; [done | simpl in Hl; lia].
  - intros x Hx IH lba buf Hl Hs. rewrite sectors_cons by lia.
    rewrite <- (take_drop 512 buf). f_equal.
    + specialize (Hs 0). rewrite Z.add_0_r in Hs. rewrite Hs by lia. done.
    + replace (Z.succ x - 1) with x by lia. apply IH.
      * rewrite length_drop. lia.
      * intros i Hi. specialize (Hs (i + 1)).
        replace (lba + 1 + i) with (lba + (i + 1)) by lia. rewrite Hs by lia.
        unfold slice. rewrite drop_drop. do 2 f_equal. lia.
Qed.
End sectors.

(** ** A disk in memory *)

Module RamDisk.

Record ram := mk_ram {
  ram_data : gmap (Z * Z) (list Z);   (* written sectors, the others are zero *)
  ram_cap : Z;
  ram_ok : bool
}.

Definition ram_sector (e : ram) (d l : Z) : list Z :=
  match ram_data e !! (d, l) with
  | Some s => u8 <$> resize 512 0 s
  | None => replicate 512 0
  end.

Fixpoint ram_store (d lba : Z) (n : nat) (buf : list Z) (m : gmap (Z * Z) (list Z)) :
    gmap (Z * Z) (list Z) :=
  match n with
  | O => m
  | S n => ram_store d (lba + 1) n (drop 512 buf) (<[(d, lba) := take 512 buf]> m)
  end.

#[global] Instance ram_dev : BlockDev ram := {
  kebla_disk_read d lba n e :=
    if ram_ok e && (0 <? n) && (0 <=? lba) && (lba + n <=? ram_cap e)
    then (Some (mjoin (ram_sector e d <$> seqZ lba n)), e) else (None, e);
  kebla_disk_write d lba n buf e :=
    if ram_ok e && (0 <? n) && (0 <=? lba) && (lba + n <=? ram_cap e)
    then (true, mk_ram (ram_store d lba (Z.to_nat n) buf (ram_data e)) (ram_cap e) (ram_ok e))
    else (false, e);
  malloc n e := (ram_ok e && (0 <? n), e);
  free e := e
}.

Lemma ram_store_other n : forall d lba buf m d' l,
  d' <> d \/ l < lba \/ lba + Z.of_nat n <= l ->
  ram_store d lba n buf m !! (d', l) = m !! (d', l).
Proof.
  induction n as [|n IH]; intros d lba buf m d' l Hl; simpl; [done|].
  rewrite IH by lia. apply lookup_insert_ne. intros [=]. lia.
Qed.

Lemma ram_store_same n : forall d lba buf m i,
  0 <= i < Z.of_nat n ->
  ram_store d lba n buf m !! (d, lba + i) = Some (slice (i * 512) 512 buf).
Proof.
  induction n as [|n IH]; intros d lba buf m i Hi; simpl; [lia|].
  destruct (decide (i = 0)) as [->|].
  - rewrite ram_store_other by lia. rewrite Z.add_0_r, lookup_insert_eq. done.
  - replace (lba + i) with (lba + 1 + (i - 1)) by lia. rewrite IH by lia.
    unfold slice. rewrite drop_drop. do 3 f_equal. lia.
Qed.

Lemma u8_bytes l : Forall byte l -> u8 <$> l = l.
Proof.
  induction 1 as [|b l Hb _ IH]; [done|]. rewrite fmap_cons, IH.
  f_equal. by apply u8_small.
Qed.

Program Definition ram_frame : DiskFrame ram := {|
  sector := ram_sector;
  capacity := fun e _ => ram_cap e;
  reliable := fun e => ram_ok e = true
|}.
Next Obligation. simpl. intros. case_match; simplify_eq; by repeat split. Qed.
Next Obligation.
  simpl. intros e d lba n buf r e' Hw. case_match; simplify_eq; [|by repeat split].
  bool_to_prop. repeat split; try done. intros d' l Hl. unfold ram_sector. simpl.
  rewrite ram_store_other by lia. done.
Qed.
Next Obligation. simpl. intros. simplify_eq. by repeat split. Qed.
Next Obligation. by repeat split. Qed.

#[global] Program Instance ram_laws : BlockDevLaws ram := { disk_frame := ram_frame }.
Next Obligation.
  simpl. intros. unfold ram_sector. destruct (_ !! _); [|apply length_replicate].
  by rewrite length_fmap, length_resize.
Qed.
Next Obligation.
  simpl. intros. unfold ram_sector. destruct (_ !! _).
  - apply Forall_fmap, Forall_true. intros. apply u8_range.
  - apply Forall_replicate. unfold byte. lia.
Qed.
Next Obligation. simpl. intros. case_match; by simplify_eq. Qed.
Next Obligation.
  simpl. intros e d lba n Hr ???. rewrite Hr.
  destruct (Z.ltb_spec 0 n), (Z.leb_spec 0 lba), (Z.leb_spec (lba + n) (ram_cap e));
    try lia. by eexists.
Qed.
Next Obligation.
  simpl. intros e d lba n buf e' Hw ? Hbuf Hlen i Hi. case_match; simplify_eq.
  unfold ram_sector. simpl. rewrite ram_store_same by lia.
  rewrite resize_all_alt by (rewrite length_slice; lia).
  apply u8_bytes. by apply Forall_slice.
Qed.
Next Obligation.
  simpl. intros e d lba n buf Hr ???. rewrite Hr.
  destruct (Z.ltb_spec 0 n), (Z.leb_spec 0 lba), (Z.leb_spec (lba + n) (ram_cap e));
    try lia. done.
Qed.
Next Obligation. simpl. intros e n Hr Hn. rewrite Hr. by apply Z.ltb_lt. Qed.

End RamDisk.
