(* ===== verification/FatBpb.v ===== *)
(** The FAT32 boot sector and volume geometry
    (kernel/src/fs/fat32_fs/src: fat32_bpb.c, fat32_fsinfo.c, fat32_utility.c,
    diskio.c, fat.c and their headers).

    [BPB] is the packed struct of fat32_bpb.h, [bpb_encode]/[bpb_decode] its
    512-byte image.  [fat_state] holds the globals of the FAT32 driver; the
    functions that use the disk or the heap run in [M (fat_state E)] over any
    block device [E].  [live] counts the heap blocks the driver holds, so that
    a path that forgets a free shows in the state. *)
From S2P Require Import Prelude BlockDev.

(** ** The BPB structure *)

Record BPB := mk_bpb {
  BS_jmpBoot : list Z;        (* 3 *)
  BS_OEMName : list Z;        (* 8 *)
  BPB_BytsPerSec : Z;
  BPB_SecPerClus : Z;
  BPB_RsvdSecCnt : Z;
  BPB_NumFATs : Z;
  BPB_RootEntCnt : Z;
  BPB_TotSec16 : Z;
  BPB_Media : Z;
  BPB_FATSz16 : Z;
  BPB_SecPerTrk : Z;
  BPB_NumHeads : Z;
  BPB_HiddSec : Z;
  BPB_TotSec32 : Z;
  BPB_FATSz32 : Z;
  BPB_ExtFlags : Z;
  BPB_FSVer : Z;
  BPB_RootClus : Z;
  BPB_FSInfo : Z;
  BPB_BkBootSec : Z;
  BPB_Reserved : list Z;      (* 12 *)
  BS_DrvNum : Z;
  BS_Reserved1 : Z;
  BS_BootSig : Z;
  BS_VolID : Z;
  BS_VolLab : list Z;         (* 11 *)
  BS_FilSysType : list Z;     (* 8 *)
  boot_code : list Z;         (* 420 *)
  Signature : Z
}.

(** The struct's bytes, field by field in declaration order. *)
Definition bpb_encode (b : BPB) : list Z :=
  BS_jmpBoot b ++ BS_OEMName b ++ le_bytes 2 (BPB_BytsPerSec b) ++
  le_bytes 1 (BPB_SecPerClus b) ++ le_bytes 2 (BPB_RsvdSecCnt b) ++
  le_bytes 1 (BPB_NumFATs b) ++ le_bytes 2 (BPB_RootEntCnt b) ++
  le_bytes 2 (BPB_TotSec16 b) ++ le_bytes 1 (BPB_Media b) ++
  le_bytes 2 (BPB_FATSz16 b) ++ le_bytes 2 (BPB_SecPerTrk b) ++
  le_bytes 2 (BPB_NumHeads b) ++ le_bytes 4 (BPB_HiddSec b) ++
  le_bytes 4 (BPB_TotSec32 b) ++ le_bytes 4 (BPB_FATSz32 b) ++
  le_bytes 2 (BPB_ExtFlags b) ++ le_bytes 2 (BPB_FSVer b) ++
  le_bytes 4 (BPB_RootClus b) ++ le_bytes 2 (BPB_FSInfo b) ++
  le_bytes 2 (BPB_BkBootSec b) ++ BPB_Reserved b ++
  le_bytes 1 (BS_DrvNum b) ++ le_bytes 1 (BS_Reserved1 b) ++
  le_bytes 1 (BS_BootSig b) ++ le_bytes 4 (BS_VolID b) ++
  BS_VolLab b ++ BS_FilSysType b ++ boot_code b ++ le_bytes 2 (Signature b).

(** [memcpy(bpb, sector, sizeof(BPB))]: the fields at their packed offsets. *)
Definition bpb_decode (s : list Z) : BPB := {|
  BS_jmpBoot := slice 0 3 s;
  BS_OEMName := slice 3 8 s;
  BPB_BytsPerSec := load 2 11 s;
  BPB_SecPerClus := load 1 13 s;
  BPB_RsvdSecCnt := load 2 14 s;
  BPB_NumFATs := load 1 16 s;
  BPB_RootEntCnt := load 2 17 s;
  BPB_TotSec16 := load 2 19 s;
  BPB_Media := load 1 21 s;
  BPB_FATSz16 := load 2 22 s;
  BPB_SecPerTrk := load 2 24 s;
  BPB_NumHeads := load 2 26 s;
  BPB_HiddSec := load 4 28 s;
  BPB_TotSec32 := load 4 32 s;
  BPB_FATSz32 := load 4 36 s;
  BPB_ExtFlags := load 2 40 s;
  BPB_FSVer := load 2 42 s;
  BPB_RootClus := load 4 44 s;
  BPB_FSInfo := load 2 48 s;
  BPB_BkBootSec := load 2 50 s;
  BPB_Reserved := slice 52 12 s;
  BS_DrvNum := load 1 64 s;
  BS_Reserved1 := load 1 65 s;
  BS_BootSig := load 1 66 s;
  BS_VolID := load 4 67 s;
  BS_VolLab := slice 71 11 s;
  BS_FilSysType := slice 82 8 s;
  boot_code := slice 90 420 s;
  Signature := load 2 510 s
|}.

(** ** Driver state *)

Record fat_state (E : Type) := mk_fs {
  dev : E;                        (* the disks and the heap *)
  disk_no : Z;                    (* diskio.c *)
  bpb : option BPB;               (* fat32_bpb.c, NULL before mount *)
  fat32_base_lba : Z;             (* fat32_mount.c *)
  fat32_cwd_cluster : Z;          (* cluster_manager.c *)
  fat32_free_cluster_no : Z;      (* cluster_manager.c, next-free hint *)
  live : Z                        (* heap blocks held *)
}.
Arguments mk_fs {E}.
Arguments dev {E}.
Arguments disk_no {E}.
Arguments bpb {E}.
Arguments fat32_base_lba {E}.
Arguments fat32_cwd_cluster {E}.
Arguments fat32_free_cluster_no {E}.
Arguments live {E}.

Section setters.
Context {E : Type}.
Implicit Types s : fat_state E.
Definition set_dev (e : E) s :=
  mk_fs e (disk_no s) (bpb s) (fat32_base_lba s) (fat32_cwd_cluster s)
    (fat32_free_cluster_no s) (live s).
Definition set_disk_no (no : Z) s :=
  mk_fs (dev s) no (bpb s) (fat32_base_lba s) (fat32_cwd_cluster s)
    (fat32_free_cluster_no s) (live s).
Definition set_bpb (b : option BPB) s :=
  mk_fs (dev s) (disk_no s) b (fat32_base_lba s) (fat32_cwd_cluster s)
    (fat32_free_cluster_no s) (live s).
Definition set_base (lba : Z) s :=
  mk_fs (dev s) (disk_no s) (bpb s) lba (fat32_cwd_cluster s)
    (fat32_free_cluster_no s) (live s).
Definition set_cwd (c : Z) s :=
  mk_fs (dev s) (disk_no s) (bpb s) (fat32_base_lba s) c
    (fat32_free_cluster_no s) (live s).
Definition set_free_hint (c : Z) s :=
  mk_fs (dev s) (disk_no s) (bpb s) (fat32_base_lba s) (fat32_cwd_cluster s) c (live s).
Definition set_live (n : Z) s :=
  mk_fs (dev s) (disk_no s) (bpb s) (fat32_base_lba s) (fat32_cwd_cluster s)
    (fat32_free_cluster_no s) n.
End setters.

(** ** Geometry (fat32_bpb.c)

    The getters read the global [bpb]; [uint32_t] arithmetic wraps. *)

(** Unsigned division, undefined on zero. *)
Definition udiv (a b : Z) : outcome Z := if b =? 0 then Undef else Ret (a / b).

Definition get_total_clusters (b : option BPB) : outcome Z :=
  match b with
  | None => Ret 0
  | Some b =>
      let total_sectors := BPB_TotSec32 b in
      let first_data_sector := u32 (BPB_RsvdSecCnt b + u32 (BPB_NumFATs b * BPB_FATSz32 b)) in
      let data_sectors := u32 (total_sectors - first_data_sector) in
      udiv data_sectors (BPB_SecPerClus b)
  end.

Definition get_root_dir_cluster (b : option BPB) : Z :=
  match b with None => 0 | Some b => BPB_RootClus b end.

Definition get_sectors_per_cluster (b : option BPB) : Z :=
  match b with None => 0 | Some b => BPB_SecPerClus b end.

Definition get_bytes_per_sector (b : option BPB) : Z :=
  match b with None => 0 | Some b => BPB_BytsPerSec b end.

Definition get_fat_size_in_sectors (b : option BPB) : Z :=
  match b with None => 0 | Some b => BPB_FATSz32 b end.

Definition get_total_sectors (b : option BPB) : Z :=
  match b with None => 0 | Some b => BPB_TotSec32 b end.

Definition get_first_data_sector (b : option BPB) : Z :=
  match b with
  | None => 0
  | Some b => u32 (u32 (BPB_HiddSec b + BPB_RsvdSecCnt b) + u32 (BPB_NumFATs b * BPB_FATSz32 b))
  end.

Definition get_cluster_size_bytes (b : option BPB) : Z :=
  match b with None => 0 | Some b => u32 (BPB_BytsPerSec b * BPB_SecPerClus b) end.

Definition get_reserved_sector_count (b : option BPB) : Z :=
  match b with None => 0 | Some b => BPB_RsvdSecCnt b end.

(** The next two dereference [bpb] without a test. *)
Definition get_first_fat_sector (b : option BPB) : outcome Z :=
  match b with None => Undef | Some b => Ret (u32 (BPB_HiddSec b + BPB_RsvdSecCnt b)) end.

Definition get_total_no_fat (b : option BPB) : outcome Z :=
  match b with None => Undef | Some b => Ret (BPB_NumFATs b) end.

Definition get_first_sector_of_cluster (b : option BPB) (cluster_number : Z) : Z :=
  match b with
  | None => 0
  | Some b' =>
      u32 (get_first_data_sector b + u32 (u32 (cluster_number - 2) * BPB_SecPerClus b'))
  end.

Definition get_root_dir_sect_num (b : option BPB) : Z :=
  match b with None => 0 | Some b' => get_first_sector_of_cluster b (BPB_RootClus b') end.

Definition is_end_of_cluster_chain (b : option BPB) (cluster_value : Z) : bool :=
  match b with None => false | Some _ => 0x0FFFFFF8 <=? cluster_value end.

Definition is_valid_cluster (b : option BPB) (cluster_value : Z) : bool :=
  match b with
  | None => false
  | Some _ => (2 <=? cluster_value) && (cluster_value <=? 0x0FFFFFEF)
  end.

(** ** create_bpb_fat32 *)

(** "KEBLAOS" with its terminator, "KEBLAOS FAT", "FAT32   ". *)
Definition FAT32_OEM_NAME : list Z := [75; 69; 66; 76; 65; 79; 83; 0].
Definition FAT32_VOLUME_LABEL : list Z := [75; 69; 66; 76; 65; 79; 83; 32; 70; 65; 84].
Definition FAT32_FILESYSTEM_TYPE : list Z := [70; 65; 84; 51; 50; 32; 32; 32].

(** Sectors of a FAT for [total_clusters] entries of 4 bytes, rounded up. *)
Definition fat_sectors_for (total_clusters : Z) : Z :=
  u32 (u32 (total_clusters * 4) + 511) / 512.

Definition create_bpb_fat32 (tot_sectors sectors_per_cluster start_sector : Z) : outcome BPB :=
  let tmp_data_sectors := u32 (tot_sectors - 32) in
  obind (udiv tmp_data_sectors sectors_per_cluster) (fun total_clusters =>
  let fat_size := fat_sectors_for total_clusters in
  let data_sectors := u32 (u32 (tot_sectors - 32) - u32 (2 * fat_size)) in
  obind (udiv data_sectors sectors_per_cluster) (fun total_clusters =>
  let fat_size := fat_sectors_for total_clusters in
  Ret {|
    BS_jmpBoot := [0xEB; 0x58; 0x90];
    BS_OEMName := FAT32_OEM_NAME;
    BPB_BytsPerSec := 512;
    BPB_SecPerClus := sectors_per_cluster;
    BPB_RsvdSecCnt := 32;
    BPB_NumFATs := 2;
    BPB_RootEntCnt := 0;
    BPB_TotSec16 := 0;
    BPB_Media := 0xF8;
    BPB_FATSz16 := 0;
    BPB_SecPerTrk := 63;
    BPB_NumHeads := 255;
    BPB_HiddSec := start_sector;
    BPB_TotSec32 := tot_sectors;
    BPB_FATSz32 := fat_size;
    BPB_ExtFlags := 0;
    BPB_FSVer := 0;
    BPB_RootClus := 2;
    BPB_FSInfo := 1;
    BPB_BkBootSec := 6;
    BPB_Reserved := replicate 12 0;
    BS_DrvNum := 0x80;
    BS_Reserved1 := 0;
    BS_BootSig := 0x29;
    BS_VolID := 0x12345678;
    BS_VolLab := FAT32_VOLUME_LABEL;
    BS_FilSysType := FAT32_FILESYSTEM_TYPE;
    boot_code := replicate 420 0;
    Signature := 0xAA55
  |})).

(** ** create_fsinfo_sector (fat32_fsinfo.c) *)

Record FSInfo := mk_fsinfo {
  FSI_LoadSig : Z;
  FSI_StrucSig : Z;
  FSI_Free_Count : Z;
  FSI_Nxt_Free : Z;
  FSI_TrailSig : Z
}.

Definition create_fsinfo_sector : FSInfo := {|
  FSI_LoadSig := 0x41615252;
  FSI_StrucSig := 0x61417272;
  FSI_Free_Count := 0xFFFFFFFF;
  FSI_Nxt_Free := 0xFFFFFFFF;
  FSI_TrailSig := 0xAA550000
|}.

(** The packed 512-byte struct, reserved areas zeroed by the memset. *)
Definition fsinfo_encode (f : FSInfo) : list Z :=
  le_bytes 4 (FSI_LoadSig f) ++ replicate 480 0 ++ le_bytes 4 (FSI_StrucSig f) ++
  le_bytes 4 (FSI_Free_Count f) ++ le_bytes 4 (FSI_Nxt_Free f) ++ replicate 12 0 ++
  le_bytes 4 (FSI_TrailSig f).

(** ** Disk and heap access *)

Section io.
Context {E : Type} `{BlockDev E}.
Abbreviation fs := (fat_state E).

(** malloc and free, with the count of live blocks. *)
Definition fs_malloc (size : Z) : M fs bool := fun s =>
  let '(ok, e) := malloc size (dev s) in
  Ret (ok, set_live (if ok then live s + 1 else live s) (set_dev e s)).

Definition fs_free : M fs unit := fun s =>
  Ret (tt, set_live (live s - 1) (set_dev (free (dev s)) s)).

(** diskio.c: disk_read fills the caller's buffer, so the bytes are the
    result; [None] is [false].  disk_write takes [count] sectors from the
    buffer, which must hold them. *)
Definition disk_read (lba count : Z) (buffer_ok : bool) : M fs (option (list Z)) := fun s =>
  if negb buffer_ok then Ret (None, s)
  else let '(r, e) := kebla_disk_read (disk_no s) lba count (dev s) in
       Ret (r, set_dev e s).

Definition disk_write (lba count : Z) (buffer : option (list Z)) : M fs bool := fun s =>
  match buffer with
  | None => Ret (false, s)
  | Some buf =>
      if zlen buf <? count * 512 then Undef
      else let '(r, e) := kebla_disk_write (disk_no s) lba count buf (dev s) in
           Ret (r, set_dev e s)
  end.

Definition set_disk_number (no : Z) : M fs unit := modify (set_disk_no no).
Definition get_current_disk_no : M fs Z := gets disk_no.

(** fat32_utility.c *)
Definition fat32_read_sector (lba : Z) (buf_ok : bool) : M fs (option (list Z)) :=
  if negb buf_ok then ret None else disk_read lba 1 buf_ok.

Definition fat32_write_sector (lba : Z) (buf : option (list Z)) : M fs bool :=
  match buf with None => ret false | Some _ => disk_write lba 1 buf end.

Definition fat32_read_sectors (lba count : Z) (buf_ok : bool) : M fs (option (list Z)) :=
  if negb buf_ok then ret None else disk_read lba count buf_ok.

Definition fat32_write_sectors (lba count : Z) (buf : option (list Z)) : M fs bool :=
  match buf with None => ret false | Some _ => disk_write lba count buf end.

(** fat.c: initialize_fat_tables.  The first sector carries FAT[0], FAT[1]
    and the end-of-chain mark of the root directory; the others are zero,
    written in batches of at most 64 sectors. *)
Definition first_fat_sector_image : list Z :=
  [0xF8; 0xFF; 0xFF; 0x0F; 0xFF; 0xFF; 0xFF; 0x0F; 0xFF; 0xFF; 0xFF; 0x0F]
    ++ replicate 500 0.

Definition zero_fat_loop (fuel : nat) (fat_start fat_sector_size : Z) : M fs bool :=
  iter_fuel fuel (fun sectors_written : Z =>
    if sectors_written <? fat_sector_size then
      let sectors_to_write :=
        if 64 <? u32 (fat_sector_size - sectors_written) then 64
        else u32 (fat_sector_size - sectors_written) in
      let! ok := fat32_write_sectors (u64 (fat_start + sectors_written)) sectors_to_write
                   (Some (replicate (64 * 512) 0)) in
      if negb ok then fs_free ;;; ret (inr false)
      else ret (inl (u32 (sectors_written + sectors_to_write)))
    else fs_free ;;; ret (inr true)) 1.

Definition initialize_fat_tables (fuel : nat) (fat_start fat_sector_size : Z) : M fs bool :=
  let! ok := fs_malloc 512 in
  if negb ok then ret false else
  let! ok := fat32_write_sector fat_start (Some first_fat_sector_image) in
  if negb ok then ret false else
  fs_free ;;;
  let! ok := fs_malloc (64 * 512) in
  if negb ok then ret false else
  zero_fat_loop fuel fat_start fat_sector_size.
End io.

(** ** Lemmas: the byte image of the BPB *)

Definition fits (n : Z) (v : Z) : Prop := 0 <= v < 256 ^ n.

Record bpb_ranges (b : BPB) : Prop := {
  r_jmp : length (BS_jmpBoot b) = 3%nat /\ Forall byte (BS_jmpBoot b);
  r_oem : length (BS_OEMName b) = 8%nat /\ Forall byte (BS_OEMName b);
  r_bps : fits 2 (BPB_BytsPerSec b);
  r_spc : fits 1 (BPB_SecPerClus b);
  r_rsvd : fits 2 (BPB_RsvdSecCnt b);
  r_nfat : fits 1 (BPB_NumFATs b);
  r_rootent : fits 2 (BPB_RootEntCnt b);
  r_tot16 : fits 2 (BPB_TotSec16 b);
  r_media : fits 1 (BPB_Media b);
  r_fat16 : fits 2 (BPB_FATSz16 b);
  r_spt : fits 2 (BPB_SecPerTrk b);
  r_heads : fits 2 (BPB_NumHeads b);
  r_hidd : fits 4 (BPB_HiddSec b);
  r_tot32 : fits 4 (BPB_TotSec32 b);
  r_fat32 : fits 4 (BPB_FATSz32 b);
  r_ext : fits 2 (BPB_ExtFlags b);
  r_ver : fits 2 (BPB_FSVer b);
  r_root : fits 4 (BPB_RootClus b);
  r_fsinfo : fits 2 (BPB_FSInfo b);
  r_bk : fits 2 (BPB_BkBootSec b);
  r_rsv : length (BPB_Reserved b) = 12%nat /\ Forall byte (BPB_Reserved b);
  r_drv : fits 1 (BS_DrvNum b);
  r_rsv1 : fits 1 (BS_Reserved1 b);
  r_sig1 : fits 1 (BS_BootSig b);
  r_volid : fits 4 (BS_VolID b);
  r_lab : length (BS_VolLab b) = 11%nat /\ Forall byte (BS_VolLab b);
  r_type : length (BS_FilSysType b) = 8%nat /\ Forall byte (BS_FilSysType b);
  r_code : length (boot_code b) = 420%nat /\ Forall byte (boot_code b);
  r_sig : fits 2 (Signature b)
}.

Lemma load_skip n off (l k : list Z) :
  zlen l <= off -> load n off (l ++ k) = load n (off - zlen l) k.
Proof. intros. unfold load. by rewrite slice_app_r. Qed.

Lemma load_head n v (k : list Z) :
  fits (Z.of_nat n) v -> load n 0 (le_bytes n v ++ k) = v.
Proof.
  intros. unfold load. rewrite slice_app_exact by (rewrite length_le_bytes; done).
  rewrite le_val_bytes. by apply Z.mod_small.
Qed.

(** Walk over the fields before the one that is read. *)
Ltac field_at :=
  repeat first
    [ rewrite load_skip by (rewrite ?length_le_bytes; lia)
    | rewrite slice_app_r by (rewrite ?length_le_bytes; lia) ];
  rewrite ?length_le_bytes;
  repeat match goal with H : length _ = _ |- _ => rewrite !H end;
  match goal with
  | |- load ?n ?o _ = _ => replace o with 0 by lia
  | |- slice ?o _ _ = _ => replace o with 0 by lia
  end;
  first [ apply load_head; done
        | rewrite <- (app_nil_r (le_bytes _ _)); apply load_head; done
        | apply slice_app_exact; lia ].

Lemma bpb_decode_encode b : bpb_ranges b -> bpb_decode (bpb_encode b) = b.
Proof.
  intros [[? _] [? _] ? ? ? ? ? ? ? ? ? ? ? ? ? ? ? ? ? ? [? _] ? ? ? ? [? _] [? _] [? _] ?].
  destruct b; cbn [BS_jmpBoot BS_OEMName BPB_BytsPerSec BPB_SecPerClus BPB_RsvdSecCnt
    BPB_NumFATs BPB_RootEntCnt BPB_TotSec16 BPB_Media BPB_FATSz16 BPB_SecPerTrk BPB_NumHeads
    BPB_HiddSec BPB_TotSec32 BPB_FATSz32 BPB_ExtFlags BPB_FSVer BPB_RootClus BPB_FSInfo
    BPB_BkBootSec BPB_Reserved BS_DrvNum BS_Reserved1 BS_BootSig BS_VolID BS_VolLab
    BS_FilSysType boot_code Signature] in *.
  unfold bpb_decode, bpb_encode. cbn [BS_jmpBoot BS_OEMName BPB_BytsPerSec BPB_SecPerClus
    BPB_RsvdSecCnt BPB_NumFATs BPB_RootEntCnt BPB_TotSec16 BPB_Media BPB_FATSz16
    BPB_SecPerTrk BPB_NumHeads BPB_HiddSec BPB_TotSec32 BPB_FATSz32 BPB_ExtFlags BPB_FSVer
    BPB_RootClus BPB_FSInfo BPB_BkBootSec BPB_Reserved BS_DrvNum BS_Reserved1 BS_BootSig
    BS_VolID BS_VolLab BS_FilSysType boot_code Signature].
  f_equal; field_at.
Qed.

Lemma length_bpb_encode b : bpb_ranges b -> length (bpb_encode b) = 512%nat.
Proof.
  intros [[H1 _] [H2 _] ? ? ? ? ? ? ? ? ? ? ? ? ? ? ? ? ? ? [H3 _] ? ? ? ? [H4 _] [H5 _] [H6 _] ?].
  unfold bpb_encode. rewrite !length_app, !length_le_bytes, H1, H2, H3, H4, H5, H6. done.
Qed.
