(* ===== verification/Gpt.v ===== *)
(** Partition tables (kernel/src/fs/fat32_fs/src/partition: mbr.c, guid.c,
    gpt.c, partition_manager.c).

    The packed structures are records with their byte images; the array of
    partition entries is its 16384 bytes, as it is read from and written to
    the disk.  The manager's globals extend the state of the FAT32 driver,
    whose diskio.c it uses. *)
From S2P Require Import Prelude CString Stdio Ports Time BlockDev FatBpb.

(** ** mbr.c *)

Record MbrPartition := mk_mbr_part {
  mp_status : Z; mp_chs_start : list Z; mp_type : Z; mp_chs_end : list Z;
  mp_lba_start : Z; mp_sector_count : Z
}.

Definition mbr_part_encode (p : MbrPartition) : list Z :=
  le_bytes 1 (mp_status p) ++ mp_chs_start p ++ le_bytes 1 (mp_type p) ++ mp_chs_end p ++
  le_bytes 4 (mp_lba_start p) ++ le_bytes 4 (mp_sector_count p).

Definition mbr_part_zero : MbrPartition := mk_mbr_part 0 [0; 0; 0] 0 [0; 0; 0] 0 0.

(** The 512 bytes of the structure: boot code, disk signature and reserved
    bytes stay zero, as do three of the four partitions. *)
Definition create_protective_mbr (total_sectors : Z) : list Z :=
  let mbr_sectors := if 0xFFFFFFFF <? total_sectors then 0xFFFFFFFF
                     else u32 (u64 (total_sectors - 1)) in
  replicate 440 0 ++ le_bytes 4 0 ++ le_bytes 2 0 ++
  mbr_part_encode (mk_mbr_part 0 [0; 0; 0] 0xEE [0; 0; 0] 1 mbr_sectors) ++
  mjoin (replicate 3 (mbr_part_encode mbr_part_zero)) ++ le_bytes 2 0xAA55.

(** ** gpt.c *)

(** One bit: [crc = (crc >> 1) ^ (0xEDB88320 & -(crc & 1))]. *)
Definition crc_bit (crc : Z) : Z :=
  Z.lxor (Z.shiftr crc 1) (Z.land 0xEDB88320 (u32 (- Z.land crc 1))).

Definition crc_byte (crc b : Z) : Z := Nat.iter 8 crc_bit (Z.lxor crc b).

Definition crc32 (data : list Z) : Z := u32 (Z.lnot (fold_left crc_byte data 0xFFFFFFFF)).

Record GPTPartitionEntry := mk_gpe {
  type_guid : list Z; unique_guid : list Z; start_lba : Z; end_lba : Z;
  attributes : Z; gpe_name : list Z
}.

Definition gpe_encode (e : GPTPartitionEntry) : list Z :=
  type_guid e ++ unique_guid e ++ le_bytes 8 (start_lba e) ++ le_bytes 8 (end_lba e) ++
  le_bytes 8 (attributes e) ++ gpe_name e.

Definition gpe_decode (b : list Z) : GPTPartitionEntry := {|
  type_guid := slice 0 16 b; unique_guid := slice 16 16 b; start_lba := load 8 32 b;
  end_lba := load 8 40 b; attributes := load 8 48 b; gpe_name := slice 56 72 b
|}.

(** The name field: each of the first 36 characters with a zero byte behind
    it, the rest zero. *)
Definition utf16_name (name : list Z) : list Z :=
  let cs := take 36 name in
  mjoin ((fun c => [c; 0]) <$> cs) ++ replicate (72 - 2 * length cs) 0.

Record GPTHeader := mk_gpt {
  signature : list Z; revision : Z; header_size : Z; header_crc32 : Z; h_reserved : Z;
  current_lba : Z; backup_lba : Z; first_usable_lba : Z; last_usable_lba : Z;
  disk_guid : list Z; entries_lba : Z; entries_count : Z; entry_size : Z; entries_crc32 : Z
}.

Definition gpt_encode (h : GPTHeader) : list Z :=
  signature h ++ le_bytes 4 (revision h) ++ le_bytes 4 (header_size h) ++
  le_bytes 4 (header_crc32 h) ++ le_bytes 4 (h_reserved h) ++ le_bytes 8 (current_lba h) ++
  le_bytes 8 (backup_lba h) ++ le_bytes 8 (first_usable_lba h) ++ le_bytes 8 (last_usable_lba h) ++
  disk_guid h ++ le_bytes 8 (entries_lba h) ++ le_bytes 4 (entries_count h) ++
  le_bytes 4 (entry_size h) ++ le_bytes 4 (entries_crc32 h).

Definition set_crc (c : Z) (h : GPTHeader) : GPTHeader :=
  mk_gpt (signature h) (revision h) (header_size h) c (h_reserved h) (current_lba h)
    (backup_lba h) (first_usable_lba h) (last_usable_lba h) (disk_guid h) (entries_lba h)
    (entries_count h) (entry_size h) (entries_crc32 h).

(** "EFI PART" *)
Definition GPT_SIGNATURE : list Z := [69; 70; 73; 32; 80; 65; 82; 84].
Definition GPT_ENTRIES_COUNT : Z := 128.
Definition GPT_ENTRY_SIZE : Z := 128.
Definition GPT_ENTRIES_START_LBA : Z := 2.
Definition GPT_HEADER_LBA : Z := 1.

Section gpt.
Context {E : Type} `{BlockDev E}.
Abbreviation fs := (fat_state E).

Definition create_gpt_partition_entry (tguid uguid : list Z) (start_lba end_lba attributes : Z)
    (name : list Z) : M fs (option GPTPartitionEntry) :=
  let! ok := fs_malloc 128 in
  if negb ok then ret None else
  ret (Some (mk_gpe tguid uguid start_lba end_lba attributes (utf16_name name))).

(** The fields both headers share, with checksum 0. *)
Definition gpt_header (tot_sectors : Z) (guid : list Z) (cur bak ents crc : Z) : GPTHeader :=
  let entry_sectors := (GPT_ENTRIES_COUNT * 128 + 512 - 1) / 512 in
  mk_gpt GPT_SIGNATURE 0x00010000 92 0 0 cur bak (entry_sectors + 2)
    (u64 (tot_sectors - entry_sectors - 2)) guid ents GPT_ENTRIES_COUNT GPT_ENTRY_SIZE crc.

(** [partitions] is the array of entries.  The backup header is written from
    the 92-byte structure itself: the disk takes the 420 bytes [behind] it
    along. *)
Definition create_gpt_header (tot_sectors : Z) (guid partitions behind : list Z) : M fs bool :=
  if tot_sectors <? 128 then ret false else
  let entry_sectors := (GPT_ENTRIES_COUNT * 128 + 512 - 1) / 512 in
  let entries_crc := crc32 (take (Z.to_nat (GPT_ENTRIES_COUNT * GPT_ENTRY_SIZE)) partitions) in
  let primary := gpt_header tot_sectors guid 1 (u64 (tot_sectors - 1)) GPT_ENTRIES_START_LBA
                   entries_crc in
  let backup := gpt_header tot_sectors guid (u64 (tot_sectors - 1)) 1
                  (u64 (tot_sectors - entry_sectors - 1)) entries_crc in
  let primary := set_crc (crc32 (gpt_encode primary)) primary in
  let backup := set_crc (crc32 (gpt_encode backup)) backup in
  let temp_buffer := gpt_encode primary ++ replicate 420 0 in
  let! ok := disk_write GPT_HEADER_LBA 1 (Some temp_buffer) in
  if negb ok then ret false else
  let! ok := disk_write (u64 (tot_sectors - 1)) 1 (Some (gpt_encode backup ++ behind)) in
  if negb ok then ret false else
  ret true.
End gpt.

(** ** guid.c *)

Definition DISK_GUID_EXAMPLE : list Z :=
  [0x01; 0x23; 0x45; 0x67; 0x89; 0xAB; 0xCD; 0xEF; 0x01; 0x23; 0x45; 0x67; 0x89; 0xAB; 0xCD; 0xEF].
Definition ESP_TYPE_GUID : list Z :=
  [0x28; 0x73; 0x2a; 0xc1; 0x1f; 0xf8; 0xd2; 0x11; 0xba; 0x4b; 0x00; 0xa0; 0xc9; 0x3e; 0xc9; 0x3b].
Definition LINUX_FS_GUID : list Z :=
  [0xaf; 0x3d; 0xc6; 0x0f; 0x83; 0x84; 0x72; 0x47; 0x8e; 0x79; 0x3d; 0x69; 0xd8; 0x47; 0x7d; 0xe4].
Definition MS_RESERVED_GUID : list Z :=
  [0x16; 0xE3; 0xC9; 0xE3; 0x5C; 0x0B; 0xB8; 0x4D; 0x81; 0x7D; 0xF9; 0x2D; 0xF0; 0x02; 0x15; 0xAE].
Definition WINDOWS_MSR_GUID : list Z :=
  [0x16; 0xE3; 0xC9; 0xE3; 0x5C; 0x0B; 0xB8; 0x4D; 0x81; 0x7D; 0xF9; 0x2D; 0xF0; 0x02; 0x15; 0xAE].
Definition WINDOWS_RECOVERY_GUID : list Z :=
  [0xA4; 0xBB; 0x94; 0xDE; 0xD1; 0x06; 0x40; 0x4D; 0xA1; 0x6A; 0xBF; 0xD5; 0x01; 0x79; 0xD6; 0xAC].
Definition ESP_GUID : list Z :=
  [0x11; 0x22; 0x33; 0x44; 0x55; 0x66; 0x77; 0x88; 0x99; 0xAA; 0xBB; 0xCC; 0xDD; 0xEE; 0xFF; 0x00].
Definition DATA_PARTITION_GUID : list Z :=
  [0x00; 0xFF; 0xEE; 0xDD; 0xCC; 0xBB; 0xAA; 0x99; 0x88; 0x77; 0x66; 0x55; 0x44; 0x33; 0x22; 0x11].

(** The format string: %x for each byte, "-" behind the fourth, sixth,
    eighth and tenth. *)
Definition guid_format : list Z :=
  let x n := mjoin (replicate n [37; 120]) in
  x 4%nat ++ [45] ++ x 2%nat ++ [45] ++ x 2%nat ++ [45] ++ x 2%nat ++ [45] ++ x 6%nat.

(** The order in which the bytes are passed. *)
Definition guid_order : list nat := [3; 2; 1; 0; 5; 4; 7; 6; 8; 9; 10; 11; 12; 13; 14; 15]%nat.

(** [fmt] is the address of the format string. *)
Definition guid_to_string (fuel : nat) (fmt : Z) (guid : list Z) (out : Z) : M cmem unit :=
  sprintf fuel out fmt (mk_va ((fun i => default 0 (guid !! i)) <$> guid_order) []).

(** The new entropy state, which is also the result; [now] is clock(). *)
Definition mix_entropy (now guid_entropy_state : Z) : Z :=
  let mix := Z.lxor (Z.lxor 100 (Z.shiftl 10 21)) (u64 (Z.shiftl (u64 now) 7)) in
  let mix := Z.lxor mix (Z.shiftr mix 12) in
  let mix := Z.lxor mix (u64 (Z.shiftl mix 25)) in
  let mix := Z.lxor mix (Z.shiftr mix 27) in
  u64 (Z.lxor guid_entropy_state mix * 0x2545F4914F6CDD1D).

(** Byte [k] of a 64-bit number. *)
Definition byte_of (r k : Z) : Z := Z.land (Z.shiftr r (8 * k)) 0xFF.

(** Two draws of eight bytes each; clock() is called for each. *)
Definition generate_guid (now1 now2 st : Z) : list Z * Z :=
  let r1 := mix_entropy now1 st in
  let r2 := mix_entropy now2 r1 in
  let guid := (byte_of r1 <$> seqZ 0 8) ++ (byte_of r2 <$> seqZ 0 8) in
  let g6 := default 0 (guid !! 6%nat) in
  let guid := <[6%nat := Z.lor (Z.land g6 0x0F) 0x40]> guid in
  let g8 := default 0 (guid !! 8%nat) in
  let guid := <[8%nat := Z.lor (Z.land g8 0x3F) 0x80]> guid in
  (guid, r2).

(** ** partition_manager.c *)

Record PartitionEntry := mk_part {
  pdrv_no : Z; partition_no : Z; p_start_lba : Z; p_sectors : Z;
  partition_guid : list Z; partition_type_guid : list Z; gpt_entry : GPTPartitionEntry
}.

Definition gpe_zero : GPTPartitionEntry :=
  mk_gpe (replicate 16 0) (replicate 16 0) 0 0 0 (replicate 72 0).
Definition part_zero : PartitionEntry := mk_part 0 0 0 0 (replicate 16 0) (replicate 16 0) gpe_zero.

(** The globals of the partition manager above the driver's state. *)
Record part_state (E : Type) := mk_ps {
  pfs : fat_state E;
  total_sectors : Z;
  partitions : option (list PartitionEntry);
  partition_count : Z
}.
Arguments mk_ps {E}.
Arguments pfs {E}.
Arguments total_sectors {E}.
Arguments partitions {E}.
Arguments partition_count {E}.

Definition MAX_PARTITIONS : Z := 4.

Section manager.
Context {E : Type} `{BlockDev E}.
Abbreviation fs := (fat_state E).
Abbreviation ps := (part_state E).

(** Code of the driver below. *)
Definition on_fs {A} (k : M fs A) : M ps A := fun s =>
  obind (k (pfs s)) (fun '(a, f) =>
    Ret (a, mk_ps f (total_sectors s) (partitions s) (partition_count s))).
Definition set_total (n : Z) (s : ps) : ps := mk_ps (pfs s) n (partitions s) (partition_count s).
Definition set_partitions (l : option (list PartitionEntry)) (s : ps) : ps :=
  mk_ps (pfs s) (total_sectors s) l (partition_count s).
Definition set_count (n : Z) (s : ps) : ps := mk_ps (pfs s) (total_sectors s) (partitions s) n.

(** [memset(gpt_partitions, 0, sizeof(gpt_partitions))] clears 8 bytes of a
    block of [GPT_ENTRIES_COUNT] bytes, into which 32 sectors are read: past
    the end of the block. *)
Definition get_partitions (pdrv_no : Z) : M fs (option (list PartitionEntry)) :=
  let! ok := fs_malloc GPT_ENTRIES_COUNT in
  if negb ok then fs_free ;;; ret None else
  let total_entries_sectors := (GPT_ENTRIES_COUNT * GPT_ENTRY_SIZE + 512 - 1) / 512 in
  let! r := disk_read GPT_ENTRIES_START_LBA total_entries_sectors true in
  match r with
  | None => ret None
  | Some data =>
      guard (zlen data <=? GPT_ENTRIES_COUNT) ;;;
      let! ok := fs_malloc (178 * MAX_PARTITIONS) in
      if negb ok then fs_free ;;; ret None else
      ret (Some ((fun i =>
        let g := gpe_decode (slice (i * 128) 128 data) in
        mk_part pdrv_no i (start_lba g)
          (if u64 (end_lba g - start_lba g) <=? 1 then 0 else u64 (end_lba g - start_lba g + 1))
          (unique_guid g) (type_guid g) g) <$> seqZ 0 MAX_PARTITIONS))
  end.

(** Assignments to fields of [partitions[i]]. *)
Definition upd_partition (i : Z) (f : PartitionEntry -> PartitionEntry) : M ps unit := fun s =>
  match partitions s with
  | Some l => if (0 <=? i) && (i <? zlen l)
              then Ret (tt, set_partitions (Some (alter f (Z.to_nat i) l)) s) else Undef
  | None => Undef
  end.

(** The write of both copies of the entries and of both headers. *)
Definition write_table (tot_sectors : Z) (entries behind : list Z) : M fs bool :=
  let total_entries_sectors := (GPT_ENTRIES_COUNT * GPT_ENTRY_SIZE + 512 - 1) / 512 in
  let! ok := disk_write GPT_ENTRIES_START_LBA total_entries_sectors (Some entries) in
  if negb ok then ret false else
  let backup_entries_lba := u64 (tot_sectors - total_entries_sectors - 1) in
  let! ok := disk_write backup_entries_lba total_entries_sectors (Some entries) in
  if negb ok then ret false else
  create_gpt_header tot_sectors DISK_GUID_EXAMPLE entries behind.

(** The 8 bytes of [sectors] go into [total_sectors].  The MBR block is not
    tested against NULL and is kept after success. *)
Definition create_partition (pdrv start sectors : Z) (guid tguid name behind : list Z) : M ps bool :=
  let! partition_index := gets partition_count in
  modify (set_total sectors) ;;;
  let! ok := on_fs (fs_malloc 512) in
  guard ok ;;;
  let! ok := on_fs (disk_write 0 1 (Some (create_protective_mbr sectors))) in
  if negb ok then on_fs fs_free ;;; ret false else
  let! ps0 := gets partitions in
  let! ok :=
    (match ps0 with
     | Some _ => ret true
     | None =>
         let! ok := on_fs (fs_malloc (178 * MAX_PARTITIONS)) in
         if negb ok then ret false else
         modify (set_partitions (Some (replicate (Z.to_nat MAX_PARTITIONS) part_zero))) ;;; ret true
     end) in
  if negb ok then ret false else
  if MAX_PARTITIONS <=? partition_index then ret false else
  upd_partition partition_index (fun e =>
    mk_part pdrv (u8 partition_index) start sectors guid tguid (gpt_entry e)) ;;;
  let total_entries_sectors := (GPT_ENTRIES_COUNT * GPT_ENTRY_SIZE + 512 - 1) / 512 in
  let! r := on_fs (disk_read GPT_ENTRIES_START_LBA total_entries_sectors true) in
  match r with
  | None => ret false
  | Some gpt_partitions =>
      let! g := on_fs (create_gpt_partition_entry tguid guid start (u64 (start + sectors - 1)) 0 name) in
      match g with
      | None => ret false
      | Some g =>
          upd_partition partition_index (fun e =>
            mk_part (pdrv_no e) (partition_no e) (p_start_lba e) (p_sectors e) (partition_guid e)
              (partition_type_guid e) g) ;;;
          let gpt_partitions := splice (partition_index * 128) (gpe_encode g) gpt_partitions in
          let! ok := on_fs (write_table sectors gpt_partitions behind) in
          if negb ok then ret false else
          modify (fun s => set_count (partition_count s + 1) s) ;;;
          ret true
      end
  end.

(** An entry whose type GUID is all zero is free. *)
Definition update_partition (partition_index new_start new_sectors : Z) (new_name : list Z)
    (new_attributes : Z) (behind : list Z) : M ps bool :=
  if GPT_ENTRIES_COUNT <=? partition_index then ret false else
  let total_entries_sectors := (GPT_ENTRIES_COUNT * GPT_ENTRY_SIZE + 512 - 1) / 512 in
  let! r := on_fs (disk_read GPT_ENTRIES_START_LBA total_entries_sectors true) in
  match r with
  | None => ret false
  | Some gpt_partitions =>
      let e := gpe_decode (slice (partition_index * 128) 128 gpt_partitions) in
      if forallb (fun b => b =? 0) (type_guid e) then ret false else
      let e := mk_gpe (type_guid e) (unique_guid e) new_start (u64 (new_start + new_sectors - 1))
                 new_attributes (utf16_name new_name) in
      let gpt_partitions := splice (partition_index * 128) (gpe_encode e) gpt_partitions in
      let! tot := gets total_sectors in
      on_fs (write_table tot gpt_partitions behind)
  end.
End manager.
