(* ===== verification/FatCluster.v ===== *)
(** Clusters and cluster chains
    (kernel/src/fs/fat32_fs/src/cluster_manager.c, lines 30-377).

    The functions run in [M (fat_state E)] over a block device.  A loop that
    follows the links stored on the disk is bounded by [fuel]: a FAT with
    a cycle makes the code loop for ever, and the theorems about such a loop
    prove that it ends with fuel above the length of the chain.

    The specification works on the volume a state represents ([vol_rep]): the
    contents of the FAT as a function from clusters to 28-bit entries and the
    bytes of each cluster. *)
From S2P Require Import Prelude BlockDev FatBpb.

Definition CLUSTER_END_OF_CHAIN : Z := 0x0FFFFFFF.

Section code.
Context {E : Type} `{BlockDev E}.
Abbreviation fs := (fat_state E).

Definition fat32_zero_cluster (cluster_no : Z) : M fs bool :=
  let! b := gets bpb in
  let first_sector := get_first_sector_of_cluster b cluster_no in
  let bytes := u32 (get_sectors_per_cluster b * get_bytes_per_sector b) in
  let! ok := fs_malloc bytes in
  if negb ok then ret false else
  let! ok := fat32_write_sectors first_sector (get_sectors_per_cluster b)
               (Some (replicate (Z.to_nat bytes) 0)) in
  fs_free ;;; ret ok.

(** Sector by sector into the caller's buffer, which keeps what was read
    before a failure.  Writing past the buffer is undefined. *)
Definition fat32_read_cluster (cluster_number : Z) (buffer : list Z) : M fs (bool * list Z) :=
  let! b := gets bpb in
  let first_sector := get_first_sector_of_cluster b cluster_number in
  iter_fuel (S (Z.to_nat (get_sectors_per_cluster b))) (fun '(i, buf) =>
    if i <? get_sectors_per_cluster b then
      let! r := fat32_read_sector (u32 (first_sector + i)) true in
      match r with
      | None => ret (inr (false, buf))
      | Some data =>
          guard (i * get_bytes_per_sector b + 512 <=? zlen buf) ;;;
          ret (inl (u8 (i + 1), splice (i * get_bytes_per_sector b) data buf))
      end
    else ret (inr (true, buf))) (0, buffer).

Definition fat32_write_cluster (cluster_number : Z) (buffer : option (list Z)) : M fs bool :=
  let! b := gets bpb in
  let first_sector := get_first_sector_of_cluster b cluster_number in
  let sector_per_cluster := get_sectors_per_cluster b in
  fat32_write_sectors first_sector sector_per_cluster buffer.

Definition fat32_clear_cluster (cluster : Z) : M fs bool :=
  let! b := gets bpb in
  let cluster_size := u32 (get_bytes_per_sector b * get_sectors_per_cluster b) in
  let! ok := fs_malloc cluster_size in
  if negb ok then ret false else
  let! ok := fat32_write_cluster cluster (Some (replicate (Z.to_nat cluster_size) 0)) in
  fs_free ;;; ret ok.

(** The FAT sector and the offset in it of a cluster's entry. *)
Definition fat_location (cluster : Z) : M fs (Z * Z) :=
  let! b := gets bpb in
  let fat_offset := u32 (cluster * 4) in
  let! first := lift (get_first_fat_sector b) in
  let! q := lift (udiv fat_offset (get_bytes_per_sector b)) in
  ret (u32 (first + q), fat_offset mod get_bytes_per_sector b).

(** [sector_buffer] has [bytes_per_sector] bytes and receives 512. *)
Definition fat32_get_next_cluster (current_cluster : Z) : M fs Z :=
  let! '(fat_sector_number, ent_offset) := fat_location current_cluster in
  let! b := gets bpb in
  let! r := fat32_read_sector fat_sector_number true in
  match r with
  | None => ret 0
  | Some sector_buffer =>
      guard ((512 <=? get_bytes_per_sector b) && (ent_offset + 4 <=? 512)) ;;;
      ret (Z.land (load 4 ent_offset sector_buffer) 0x0FFFFFFF)
  end.

Definition fat32_set_next_cluster (current_cluster next_cluster : Z) : M fs bool :=
  let! b := gets bpb in
  if negb (is_valid_cluster b current_cluster) then ret false else
  let! '(fat_sector_number, ent_offset) := fat_location current_cluster in
  let! r := fat32_read_sector fat_sector_number true in
  match r with
  | None => ret false
  | Some sector_buffer =>
      guard (ent_offset + 4 <=? 512) ;;;
      let entry := load 4 ent_offset sector_buffer in
      let sector_buffer :=
        store 4 ent_offset
          (Z.lor (Z.land entry 0xF0000000) (Z.land next_cluster 0x0FFFFFFF)) sector_buffer in
      let! n := lift (get_total_no_fat b) in
      let! r := for_range (Z.to_nat n) 0 (fun i =>
        let target_sector := u32 (fat_sector_number + u32 (i * get_fat_size_in_sectors b)) in
        let! ok := fat32_write_sector target_sector (Some sector_buffer) in
        ret (if ok then None else Some false)) in
      ret (match r with Some v => v | None => true end)
  end.

Definition fat32_validate_cluster_chain (fuel : nat) (start_cluster : Z) : M fs bool :=
  iter_fuel fuel (fun curr =>
    let! b := gets bpb in
    if negb (is_valid_cluster b curr) then ret (inr false) else
    let! next := fat32_get_next_cluster curr in
    if next =? 0 then ret (inr false)
    else if is_end_of_cluster_chain b next then ret (inr true)
    else ret (inl next)) start_cluster.

Definition fat32_free_cluster_chain (fuel : nat) (start_cluster : Z) : M fs bool :=
  iter_fuel fuel (fun current_cluster =>
    let! b := gets bpb in
    if negb (is_valid_cluster b current_cluster) then ret (inr true) else
    let! next_cluster := fat32_get_next_cluster current_cluster in
    if next_cluster =? 0 then ret (inr false) else
    let! ok := fat32_set_next_cluster current_cluster 0 in
    if negb ok then ret (inr false) else
    if is_end_of_cluster_chain b next_cluster then ret (inr true)
    else ret (inl next_cluster)) start_cluster.

(** The allocated cluster, [None] for [false].  The result of the call that
    marks the entry is ignored. *)
Definition fat32_allocate_cluster : M fs (option Z) :=
  let! b := gets bpb in
  let! total_clusters := lift (get_total_clusters b) in
  let! hint := gets fat32_free_cluster_no in
  let! r := for_range (Z.to_nat (u32 (total_clusters + 1) - hint)) hint (fun cluster =>
    let! '(fat_sector_number, ent_offset) := fat_location cluster in
    let! r := fat32_read_sector fat_sector_number true in
    match r with
    | None => ret (Some None)
    | Some sector_buffer =>
        guard ((512 <=? get_bytes_per_sector b) && (ent_offset + 4 <=? 512)) ;;;
        let entry := Z.land (load 4 ent_offset sector_buffer) 0x0FFFFFFF in
        if entry =? 0 then
          let! _ := fat32_set_next_cluster cluster CLUSTER_END_OF_CHAIN in
          modify (set_free_hint (u32 (cluster + 1))) ;;;
          ret (Some (Some cluster))
        else ret None
    end) in
  ret (match r with Some v => v | None => None end).

(** The return value and the [*first_cluster] the function leaves. *)
Definition fat32_allocate_cluster_chain (count : Z) : M fs (bool * Z) :=
  let! r := iter_fuel (S (Z.to_nat count)) (fun '(i, prev_cluster, first_cluster) =>
    if i <? count then
      let! a := fat32_allocate_cluster in
      match a with
      | None => ret (inr (false, prev_cluster, first_cluster))
      | Some new_cluster =>
          if negb (prev_cluster =? 0) then
            let! ok := fat32_set_next_cluster prev_cluster new_cluster in
            if negb ok then ret (inr (false, prev_cluster, first_cluster))
            else ret (inl (u32 (i + 1), new_cluster, first_cluster))
          else ret (inl (u32 (i + 1), new_cluster, new_cluster))
      end
    else ret (inr (true, prev_cluster, first_cluster))) (0, 0, 0) in
  let '(ok, prev_cluster, first_cluster) := r in
  if negb ok then ret (false, first_cluster) else
  let! ok := fat32_set_next_cluster prev_cluster CLUSTER_END_OF_CHAIN in
  ret (ok, first_cluster).

(** reading a chain into [buffer], a buffer of at least [max_bytes] *)
Definition fat32_read_cluster_chain (fuel : nat) (start_cluster : Z) (buffer : list Z)
    (max_bytes : Z) : M fs (bool * list Z) :=
  let! b := gets bpb in
  let cluster_size := get_cluster_size_bytes b in
  iter_fuel fuel (fun '(current, bytes_read, buf) =>
    if negb (is_valid_cluster b current) then ret (inr (true, buf)) else
    if max_bytes <? u32 (bytes_read + cluster_size) then ret (inr (false, buf)) else
    guard (bytes_read + cluster_size <=? zlen buf) ;;;
    let! '(ok, part) := fat32_read_cluster current (slice bytes_read cluster_size buf) in
    let buf := splice bytes_read part buf in
    if negb ok then ret (inr (false, buf)) else
    let bytes_read := u32 (bytes_read + cluster_size) in
    let! next := fat32_get_next_cluster current in
    if is_end_of_cluster_chain b next then ret (inr (true, buf))
    else ret (inl (next, bytes_read, buf))) (start_cluster, 0, buffer).

(** The return value and the [*first_cluster] the function leaves (its
    initial value when the loop body never sets it). *)
Definition fat32_write_cluster_chain (fuel : nat) (buffer : option (list Z)) (size : Z)
    (first_cluster0 : Z) : M fs (bool * Z) :=
  match buffer with
  | None => ret (false, first_cluster0)
  | Some buf =>
      let! b := gets bpb in
      let cluster_size := get_cluster_size_bytes b in
      let! ok := fs_malloc cluster_size in
      if negb ok then ret (false, first_cluster0) else
      let! r := iter_fuel fuel (fun '(written, prev_cluster, first_cluster) =>
        if written <? size then
          let! a := fat32_allocate_cluster in
          match a with
          | None => fs_free ;;; ret (inr (false, prev_cluster, first_cluster))
          | Some curr_cluster =>
              let! first_cluster :=
                (if negb (prev_cluster =? 0) then
                   let! _ := fat32_set_next_cluster prev_cluster curr_cluster in
                   ret first_cluster
                 else ret curr_cluster) in
              let to_write :=
                if cluster_size <? u32 (size - written) then cluster_size
                else u32 (size - written) in
              guard (written + to_write <=? zlen buf) ;;;
              let! ok :=
                (if to_write =? cluster_size then
                   fat32_write_cluster curr_cluster (Some (drop (Z.to_nat written) buf))
                 else
                   fat32_write_cluster curr_cluster
                     (Some (splice 0 (slice written to_write buf)
                              (replicate (Z.to_nat cluster_size) 0)))) in
              if negb ok then fs_free ;;; ret (inr (false, prev_cluster, first_cluster))
              else ret (inl (u32 (written + to_write), curr_cluster, first_cluster))
          end
        else ret (inr (true, prev_cluster, first_cluster))) (0, 0, first_cluster0) in
      let '(ok, prev_cluster, first_cluster) := r in
      if negb ok then ret (false, first_cluster) else
      let! _ := fat32_set_next_cluster prev_cluster CLUSTER_END_OF_CHAIN in
      fs_free ;;; ret (true, first_cluster)
  end.

Definition fat32_count_cluster_chain (fuel : nat) (start_cluster : Z) : M fs Z :=
  iter_fuel fuel (fun '(curr, count) =>
    let! b := gets bpb in
    if negb (is_valid_cluster b curr) then ret (inr count) else
    let count := u32 (count + 1) in
    let! next := fat32_get_next_cluster curr in
    if is_end_of_cluster_chain b next then ret (inr count)
    else ret (inl (next, count))) (start_cluster, 0).

(** The new cluster, [None] for [false]. *)
Definition fat32_append_cluster (fuel : nat) (start_cluster : Z) : M fs (option Z) :=
  let! curr := iter_fuel fuel (fun curr =>
    let! b := gets bpb in
    let! next := fat32_get_next_cluster curr in
    if is_end_of_cluster_chain b next then ret (inr curr) else ret (inl next)) start_cluster in
  let! a := fat32_allocate_cluster in
  match a with
  | None => ret None
  | Some new_cluster =>
      let! _ := fat32_set_next_cluster curr new_cluster in
      let! _ := fat32_set_next_cluster new_cluster CLUSTER_END_OF_CHAIN in
      ret (Some new_cluster)
  end.
End code.

(** ** The volume a state represents *)

(** Number of data clusters; they are numbered from 2. *)
Definition clusters (b : BPB) : Z :=
  (BPB_TotSec32 b - BPB_RsvdSecCnt b - BPB_NumFATs b * BPB_FATSz32 b) / BPB_SecPerClus b.

Definition in_vol (b : BPB) (c : Z) : Prop := 2 <= c < clusters b + 2.

(** A mountable FAT32 volume whose FAT has an entry for every cluster. *)
Record vol_wf (b : BPB) : Prop := {
  v_bps : BPB_BytsPerSec b = 512;
  v_spc : 0 < BPB_SecPerClus b < 256;
  v_rsvd : 0 < BPB_RsvdSecCnt b < 65536;
  v_nfat : 0 < BPB_NumFATs b < 256;
  v_fatsz : 0 < BPB_FATSz32 b;
  v_hidd : 0 <= BPB_HiddSec b;
  v_tot : BPB_HiddSec b + BPB_TotSec32 b < 4294967296;
  v_data : BPB_RsvdSecCnt b + BPB_NumFATs b * BPB_FATSz32 b <= BPB_TotSec32 b;
  v_cover : (clusters b + 2) * 4 <= BPB_FATSz32 b * 512;
  v_max : clusters b + 1 <= 0x0FFFFFEF
}.

Definition fat_base (b : BPB) : Z := BPB_HiddSec b + BPB_RsvdSecCnt b.
Definition data_base (b : BPB) : Z := fat_base b + BPB_NumFATs b * BPB_FATSz32 b.
Definition fat_lba (b : BPB) (c : Z) : Z := fat_base b + c * 4 / 512.
Definition fat_off (c : Z) : Z := (c * 4) mod 512.
Definition data_lba (b : BPB) (c : Z) : Z := data_base b + (c - 2) * BPB_SecPerClus b.
Definition csize (b : BPB) : Z := 512 * BPB_SecPerClus b.

(** Sectors the volume [b] on disk [d0] uses neither for its FATs nor for its
    clusters: those of other disks, the reserved ones in front of the FATs
    (boot sector, FSInfo) and those past the last cluster. *)
Definition out_of_vol (b : BPB) (d0 d l : Z) : Prop :=
  d <> d0 \/ l < fat_base b \/ data_base b + clusters b * BPB_SecPerClus b <= l.

(** The disks around a volume: the contents of the sectors that do not belong
    to it, and whether the copies of its FAT agree.  A theorem that has the
    same [Around] before and after says that these stay as they are. *)
Class Around := {
  around : Z -> Z -> list Z;
  mirrored : Prop
}.

Section view.
Context {E : Type} `{BlockDevLaws E}.

(** The raw 32-bit FAT word and its low 28 bits in the first FAT. *)
Definition fat_word (s : fat_state E) (b : BPB) (c : Z) : Z :=
  load 4 (fat_off c) (sector (dev s) (disk_no s) (fat_lba b c)).
Definition fat_entry (s : fat_state E) (b : BPB) (c : Z) : Z :=
  Z.land (fat_word s b c) 0x0FFFFFFF.
Definition cluster_data (s : fat_state E) (b : BPB) (c : Z) : list Z :=
  sectors (dev s) (disk_no s) (data_lba b c) (BPB_SecPerClus b).

(** [s] has the volume [b] mounted on a reliable disk that holds it. *)
Record fs_wf (s : fat_state E) (b : BPB) : Prop := {
  w_bpb : bpb s = Some b;
  w_vol : vol_wf b;
  w_cap : BPB_HiddSec b + BPB_TotSec32 b <= capacity (dev s) (disk_no s);
  w_rel : reliable (dev s)
}.

(** The copies of the FAT have the same sectors as the first one. *)
Definition copies_agree (s : fat_state E) (b : BPB) : Prop :=
  forall i k, 0 <= i < BPB_NumFATs b -> 0 <= k < BPB_FATSz32 b ->
    sector (dev s) (disk_no s) (fat_base b + i * BPB_FATSz32 b + k) =
    sector (dev s) (disk_no s) (fat_base b + k).

(** [s] represents the FAT [fat] and the cluster contents [data]; around the
    volume the disks are as [Ar] says. *)
Record vol_rep {Ar : Around} (s : fat_state E) (b : BPB) (fat : Z -> Z) (data : Z -> list Z) : Prop := {
  rep_wf : fs_wf s b;
  rep_fat : forall c, in_vol b c -> fat_entry s b c = fat c;
  rep_data : forall c, in_vol b c -> cluster_data s b c = data c;
  rep_out : forall d l, out_of_vol b (disk_no s) d l -> sector (dev s) d l = around d l;
  rep_copies : mirrored -> copies_agree s b
}.

(** What is around the volume in a given state. *)
Definition around_now (s : fat_state E) (b : BPB) : Around :=
  {| around := sector (dev s); mirrored := copies_agree s b |}.

(** The globals other than the device. *)
Definition globals (s : fat_state E) :=
  (disk_no s, bpb s, fat32_base_lba s, fat32_cwd_cluster s, fat32_free_cluster_no s, live s).
End view.

(** Function update. *)
Definition fupd {A} (f : Z -> A) (k : Z) (v : A) : Z -> A :=
  fun i => if i =? k then v else f i.

Lemma fupd_eq {A} (f : Z -> A) k v : fupd f k v k = v.
Proof. unfold fupd. by rewrite Z.eqb_refl. Qed.
Lemma fupd_ne {A} (f : Z -> A) k v i : i <> k -> fupd f k v i = f i.
Proof. intros. unfold fupd. by destruct (Z.eqb_spec i k). Qed.

(** ** Arithmetic of the layout *)

Section layout.
Context (b : BPB) (Hv : vol_wf b).

Lemma clusters_bound : clusters b * BPB_SecPerClus b <=
  BPB_TotSec32 b - BPB_RsvdSecCnt b - BPB_NumFATs b * BPB_FATSz32 b.
Proof.
  destruct Hv. unfold clusters. rewrite Z.mul_comm. apply Z.mul_div_le. lia.
Qed.

Lemma clusters_nonneg : 0 <= clusters b.
Proof. destruct Hv. unfold clusters. apply Z.div_pos; lia. Qed.

Lemma fat_prod_bound :
  0 < BPB_NumFATs b * BPB_FATSz32 b /\ BPB_FATSz32 b <= BPB_NumFATs b * BPB_FATSz32 b
  /\ BPB_NumFATs b * BPB_FATSz32 b < 4294967296.
Proof. destruct Hv. nia. Qed.

Lemma get_total_clusters_wf : get_total_clusters (Some b) = Ret (clusters b).
Proof.
  destruct fat_prod_bound as (? & ? & ?). destruct Hv.
  unfold get_total_clusters, udiv, clusters. unwrap.
  destruct (Z.eqb_spec (BPB_SecPerClus b) 0); [lia|]. do 2 f_equal. lia.
Qed.

Lemma get_first_fat_sector_wf : get_first_fat_sector (Some b) = Ret (fat_base b).
Proof. destruct Hv. unfold get_first_fat_sector, fat_base. by unwrap. Qed.

Lemma get_cluster_size_wf : get_cluster_size_bytes (Some b) = csize b.
Proof. destruct Hv. unfold get_cluster_size_bytes, csize. rewrite v_bps0. by unwrap. Qed.

Lemma csize_pos : 512 <= csize b <= 130560.
Proof. destruct Hv. unfold csize. lia. Qed.

Lemma fat_index_range c : 0 <= c < clusters b + 2 -> 0 <= c * 4 / 512 < BPB_FATSz32 b.
Proof.
  intros. destruct Hv. split; [apply Z.div_pos; lia|]. apply Z.div_lt_upper_bound; lia.
Qed.

Lemma fat_off_range c : 0 <= fat_off c /\ fat_off c + 4 <= 512.
Proof.
  unfold fat_off. replace 512 with (128 * 4) by lia.
  rewrite Z.mul_mod_distr_r by lia.
  pose proof (Z.mod_pos_bound c 128). lia.
Qed.

(** Entries of distinct clusters in the same sector do not overlap. *)
Lemma fat_off_disjoint c c' :
  0 <= c -> 0 <= c' -> c <> c' -> c * 4 / 512 = c' * 4 / 512 ->
  fat_off c + 4 <= fat_off c' \/ fat_off c' + 4 <= fat_off c.
Proof.
  intros ? ? Hne Hq. unfold fat_off.
  rewrite !Z.mod_eq by lia. rewrite Hq. lia.
Qed.

Lemma data_end c : in_vol b c ->
  data_lba b c + BPB_SecPerClus b <= BPB_HiddSec b + BPB_TotSec32 b.
Proof.
  intros Hc. pose proof clusters_bound. destruct Hv. unfold in_vol in Hc.
  unfold data_lba, data_base, fat_base.
  assert ((c - 2) * BPB_SecPerClus b + BPB_SecPerClus b <= clusters b * BPB_SecPerClus b) by nia.
  lia.
Qed.

Lemma data_start c : in_vol b c -> data_base b <= data_lba b c.
Proof. intros Hc. destruct Hv. unfold in_vol in Hc. unfold data_lba. nia. Qed.

Lemma first_sector_wf c : in_vol b c -> get_first_sector_of_cluster (Some b) c = data_lba b c.
Proof.
  intros Hc. pose proof (data_end c Hc). pose proof (data_start c Hc).
  destruct fat_prod_bound as (? & ? & ?). destruct Hv. unfold in_vol in Hc.
  unfold data_lba, data_base, fat_base in *.
  assert (0 <= (c - 2) * BPB_SecPerClus b) by nia.
  unfold get_first_sector_of_cluster, get_first_data_sector. unwrap. lia.
Qed.

Lemma data_disjoint c c' : in_vol b c -> in_vol b c' -> c <> c' ->
  data_lba b c + BPB_SecPerClus b <= data_lba b c' \/
  data_lba b c' + BPB_SecPerClus b <= data_lba b c.
Proof. intros Hc Hc' Hne. destruct Hv. unfold in_vol, data_lba in *. nia. Qed.

Lemma in_vol_valid c : in_vol b c -> is_valid_cluster (Some b) c = true.
Proof.
  intros Hc. destruct Hv. unfold in_vol in Hc. unfold is_valid_cluster.
  apply andb_true_intro. split; apply Z.leb_le; lia.
Qed.
End layout.

(** ** Specifications of the cluster operations *)

Section specs.
Context {E : Type} `{BlockDevLaws E} {Ar : Around}.
Implicit Types (s : fat_state E) (fat : Z -> Z) (data : Z -> list Z).

(** A step that changes neither the disk's contents nor the globals. *)
Definition same_fs s s' : Prop := dev_eq (dev s) (dev s') /\ globals s' = globals s.

Lemma same_fs_refl s : same_fs s s.
Proof. split; [apply dev_eq_refl | done]. Qed.

Lemma same_fs_trans s1 s2 s3 : same_fs s1 s2 -> same_fs s2 s3 -> same_fs s1 s3.
Proof.
  intros [? ?] [? ?]. split; [by eapply dev_eq_trans | congruence].
Qed.

(** The device changed, the contents of the volume did not; the globals but
    the device may differ as long as the volume and the disk are the same. *)
Lemma vol_rep_dev s s' b fat data :
  vol_rep s b fat data -> dev_eq (dev s) (dev s') -> disk_no s' = disk_no s ->
  bpb s' = bpb s -> vol_rep s' b fat data.
Proof.
  intros [[Hb Hv Hc Hr] Hf Hd Ho Hm] (Hs & Hcap & Hrel) Hn Hbp. split.
  - constructor; [congruence | done | rewrite Hn, Hcap; done | auto].
  - intros c Hc'. rewrite <- Hf by done. unfold fat_entry, fat_word. by rewrite Hn, Hs.
  - intros c Hc'. rewrite <- Hd by done. unfold cluster_data. rewrite Hn.
    apply sectors_ext. intros. apply Hs.
  - intros d l Hl. rewrite Hn in Hl. rewrite Hs. by apply Ho.
  - intros M i k Hi Hk. rewrite Hn, !Hs. by apply Hm.
Qed.

Lemma vol_rep_same s s' b fat data :
  vol_rep s b fat data -> same_fs s s' -> vol_rep s' b fat data.
Proof.
  intros Hr [He Hg]. unfold globals in Hg. simplify_eq. by eapply vol_rep_dev.
Qed.

Lemma vol_rep_ext s b fat fat' data data' :
  vol_rep s b fat data -> (forall c, in_vol b c -> fat c = fat' c) ->
  (forall c, in_vol b c -> data c = data' c) -> vol_rep s b fat' data'.
Proof.
  intros [Hw Hf Hd] He He'. split; [done | | | done | done]; intros c Hc.
  - rewrite Hf by done. auto.
  - rewrite Hd by done. auto.
Qed.

(** *** Sectors *)

Lemma read_sector_spec s lba (Q : option (list Z) -> fat_state E -> Prop) :
  reliable (dev s) -> 0 <= lba -> lba + 1 <= capacity (dev s) (disk_no s) ->
  (forall s', same_fs s s' -> Q (Some (sector (dev s) (disk_no s) lba)) s') ->
  wp (fat32_read_sector lba true) Q s.
Proof.
  intros Hr Hl Hc HQ. unfold fat32_read_sector, disk_read, wp. simpl.
  pose proof (read_total (dev s) (disk_no s) lba 1 Hr Hl ltac:(lia) Hc) as [data Hd].
  destruct (kebla_disk_read (disk_no s) lba 1 (dev s)) as [r e] eqn:Hk. simpl in Hd. subst.
  rewrite (read_data _ _ _ _ _ _ Hk) by lia.
  replace (mjoin _) with (sector (dev s) (disk_no s) lba).
  - apply HQ. split; [exact (read_frame _ _ _ _ _ _ Hk) | done].
  - unfold seqZ. simpl. by rewrite app_nil_r.
Qed.

(** What a successful write of [n] sectors leaves. *)
Definition wrote s s' (lba n : Z) (buf : list Z) : Prop :=
  (forall d l, d <> disk_no s \/ l < lba \/ lba + n <= l ->
     sector (dev s') d l = sector (dev s) d l) /\
  (forall i, 0 <= i < n ->
     sector (dev s') (disk_no s) (lba + i) = slice (i * 512) 512 buf) /\
  (forall d, capacity (dev s') d = capacity (dev s) d) /\
  reliable (dev s') /\ globals s' = globals s.

Lemma write_sectors_spec s lba n buf (Q : bool -> fat_state E -> Prop) :
  reliable (dev s) -> 0 <= lba -> 0 < n -> lba + n <= capacity (dev s) (disk_no s) ->
  Forall byte buf -> n * 512 <= zlen buf ->
  (forall s', wrote s s' lba n buf -> Q true s') ->
  wp (fat32_write_sectors lba n (Some buf)) Q s.
Proof.
  intros Hr Hl Hn Hc Hb Hlen HQ. unfold fat32_write_sectors, disk_write, wp.
  destruct (Z.ltb_spec (zlen buf) (n * 512)); [lia|].
  pose proof (write_total (dev s) (disk_no s) lba n buf Hr Hl Hn Hc) as Ht.
  destruct (kebla_disk_write (disk_no s) lba n buf (dev s)) as [r e] eqn:Hk.
  simpl in Ht. subst. destruct (write_frame _ _ _ _ _ _ _ Hk) as (Hf & Hcap & Hrel).
  apply HQ. repeat split; simpl; auto.
  intros i Hi. by eapply write_data.
Qed.

Lemma write_sector_spec s lba buf (Q : bool -> fat_state E -> Prop) :
  reliable (dev s) -> 0 <= lba -> lba + 1 <= capacity (dev s) (disk_no s) ->
  Forall byte buf -> length buf = 512%nat ->
  (forall s', wrote s s' lba 1 buf -> Q true s') ->
  wp (fat32_write_sector lba (Some buf)) Q s.
Proof.
  intros Hr Hl Hc Hb Hlen HQ.
  change (fat32_write_sector lba (Some buf)) with (fat32_write_sectors lba 1 (Some buf)).
  apply write_sectors_spec; try done; lia.
Qed.

(** *** FAT entries *)

Lemma fat_location_spec s b c (Q : Z * Z -> fat_state E -> Prop) :
  fs_wf s b -> 0 <= c < clusters b + 2 -> Q (fat_lba b c, fat_off c) s ->
  wp (fat_location c) Q s.
Proof.
  intros [Hb Hv _ _] Hc HQ. unfold fat_location, wp, bind, gets, lift, obind.
  rewrite Hb, get_first_fat_sector_wf by done. unfold udiv. simpl.
  pose proof (fat_index_range b Hv c Hc). pose proof (v_bps _ Hv) as Hbps.
  pose proof (fat_prod_bound b Hv) as (? & ? & ?).
  destruct Hv. unfold ret. rewrite Hbps. simpl.
  unfold fat_lba, fat_off, fat_base in *. by unwrap.
Qed.

Lemma fat_lba_cap s b c : fs_wf s b -> 0 <= c < clusters b + 2 ->
  0 <= fat_lba b c /\ fat_lba b c + 1 <= capacity (dev s) (disk_no s).
Proof.
  intros [_ Hv Hcap _] Hc. pose proof (fat_index_range b Hv c Hc).
  pose proof (fat_prod_bound b Hv) as (? & ? & ?).
  destruct Hv. unfold fat_lba, fat_base. lia.
Qed.

(** S1: the entry read is the entry of the FAT. *)
Lemma get_next_spec s b fat data c (Q : Z -> fat_state E -> Prop) :
  vol_rep s b fat data -> in_vol b c ->
  (forall s', same_fs s s' -> Q (fat c) s') ->
  wp (fat32_get_next_cluster c) Q s.
Proof.
  intros Hrep Hc HQ. pose proof (rep_wf _ _ _ _ Hrep) as Hw.
  assert (Hc0 : 0 <= c < clusters b + 2) by (unfold in_vol in Hc; lia).
  destruct (fat_lba_cap s b c Hw Hc0). pose proof (fat_off_range c) as [Ho Ho'].
  unfold fat32_get_next_cluster. wp_step. apply (fat_location_spec s b c _ Hw Hc0).
  cbv beta iota. wp_step. apply wp_gets. wp_step.
  apply read_sector_spec; [apply Hw | done | done |]. intros s' Hs. cbv beta iota.
  rewrite (w_bpb _ _ Hw). simpl. rewrite (v_bps _ (w_vol _ _ Hw)).
  destruct (Z.leb_spec (fat_off c + 4) 512); [|lia]. simpl. wp_steps.
  rewrite <- (rep_fat _ _ _ _ Hrep c Hc) in HQ. by apply HQ.
Qed.

(** The word written for an entry: the top four bits are kept. *)
Definition new_word (old v : Z) : Z :=
  Z.lor (Z.land old 0xF0000000) (Z.land v 0x0FFFFFFF).

Lemma new_word_low old v : Z.land (new_word old v) 0x0FFFFFFF = Z.land v 0x0FFFFFFF.
Proof.
  unfold new_word. rewrite Z.land_lor_distr_l, <- !Z.land_assoc. simpl.
  rewrite Z.land_0_r, Z.lor_0_l. done.
Qed.

Lemma new_word_range old v : 0 <= new_word old v < 4294967296.
Proof. by apply (lor_range _ _ 32); [| apply land_range_r ..]. Qed.

(** The state after [j] of the FAT copies were written with [buf]. *)
Definition fat_copies s s' (b : BPB) (c : Z) (buf : list Z) (j : Z) : Prop :=
  (forall d l, (forall i, 0 <= i < j -> d <> disk_no s \/ l <> fat_lba b c + i * BPB_FATSz32 b) ->
     sector (dev s') d l = sector (dev s) d l) /\
  (forall i, 0 <= i < j ->
     sector (dev s') (disk_no s) (fat_lba b c + i * BPB_FATSz32 b) = buf) /\
  (forall d, capacity (dev s') d = capacity (dev s) d) /\
  reliable (dev s') /\ globals s' = globals s.

Lemma fat_copies_step s s1 s2 b c buf j :
  vol_wf b -> 0 <= j -> length buf = 512%nat -> fat_copies s s1 b c buf j ->
  wrote s1 s2 (fat_lba b c + j * BPB_FATSz32 b) 1 buf ->
  fat_copies s s2 b c buf (j + 1).
Proof.
  intros Hv Hj Hlen (Hf & Hw & Hcap & Hrel & Hg) (Hf' & Hw' & Hcap' & Hrel' & Hg').
  assert (Hd : disk_no s1 = disk_no s) by (unfold globals in Hg; congruence).
  rewrite Hd in *. repeat split.
  - intros d l Hl. rewrite Hf'; [apply Hf|].
    + intros i Hi. apply Hl. lia.
    + destruct (Hl j ltac:(lia)); lia.
  - intros i Hi. destruct (decide (i = j)) as [->|].
    + specialize (Hw' 0 ltac:(lia)). rewrite Z.add_0_r in Hw'. rewrite Hw'.
      apply slice_all. lia.
    + rewrite Hf'; [apply Hw; lia|]. right. pose proof (v_fatsz _ Hv). nia.
  - intros d. by rewrite Hcap'.
  - done.
  - congruence.
Qed.

Lemma fat_copy_lba s b c i : fs_wf s b -> 0 <= c < clusters b + 2 -> 0 <= i < BPB_NumFATs b ->
  fat_base b <= fat_lba b c + i * BPB_FATSz32 b < data_base b.
Proof.
  intros [_ Hv _ _] Hc Hi. pose proof (fat_index_range b Hv c Hc).
  destruct Hv. unfold data_base, fat_lba. nia.
Qed.

(** S2: what a successful update of an entry does to every FAT copy. *)
Lemma set_next_raw s b c v (Q : bool -> fat_state E -> Prop) :
  fs_wf s b -> in_vol b c ->
  (forall s', fat_copies s s' b c
     (store 4 (fat_off c) (new_word (fat_word s b c) v)
        (sector (dev s) (disk_no s) (fat_lba b c))) (BPB_NumFATs b) -> Q true s') ->
  wp (fat32_set_next_cluster c v) Q s.
Proof.
  intros Hw Hc HQ. pose proof (w_vol _ _ Hw) as Hv.
  assert (Hc0 : 0 <= c < clusters b + 2) by (unfold in_vol in Hc; lia).
  destruct (fat_lba_cap s b c Hw Hc0). pose proof (fat_off_range c) as [Ho Ho'].
  unfold fat32_set_next_cluster. wp_step. apply wp_gets. rewrite (w_bpb _ _ Hw).
  rewrite (in_vol_valid b Hv c Hc). cbn [negb]. wp_step.
  apply (fat_location_spec s b c _ Hw Hc0). cbv beta iota. wp_step.
  apply read_sector_spec; [apply Hw | done | done |]. intros s1 [Hdev Hg]. cbv beta iota.
  destruct (Z.leb_spec (fat_off c + 4) 512); [|lia]. wp_step. apply wp_ret. wp_step.
  unfold lift. simpl. unfold wp at 1. simpl. wp_step.
  set (buf := store _ _ _ _).
  assert (Hlen : length buf = 512%nat)
    by (unfold buf; rewrite length_store; rewrite ?sector_length; lia).
  assert (Hbyte : Forall byte buf) by (apply store_byte, sector_bytes).
  pose proof (v_nfat _ Hv).
  eapply (wp_for (fun j s' => fat_copies s s' b c buf j)).
  - intros j s2 Hj Hcp. rewrite Z2Nat.id in Hj by lia.
    pose proof Hcp as (_ & _ & Hcap & Hrel & Hg2).
    assert (Hd2 : disk_no s2 = disk_no s) by (unfold globals in Hg2; congruence).
    pose proof (fat_copy_lba s b c j Hw Hc0 ltac:(lia)) as Hl.
    pose proof (w_cap _ _ Hw) as Hcap0.
    pose proof (fat_index_range b Hv c Hc0) as Hidx.
    assert (Hlast : data_base b <= BPB_HiddSec b + BPB_TotSec32 b)
      by (destruct Hv; unfold data_base, fat_base; lia).
    assert (0 <= fat_base b) by (destruct Hv; unfold fat_base; lia).
    pose proof (v_tot _ Hv). pose proof (fat_prod_bound b Hv) as (? & ? & ?).
    pose proof (v_fatsz _ Hv). assert (0 <= j * BPB_FATSz32 b) by nia.
    assert (j * BPB_FATSz32 b <= BPB_NumFATs b * BPB_FATSz32 b) by nia.
    cbn [get_fat_size_in_sectors]. unwrap. wp_step.
    apply write_sector_spec; [done | lia | rewrite Hd2, Hcap; lia | done | done |].
    intros s3 Hwr. apply wp_ret. eapply fat_copies_step; [done | lia | done | exact Hcp | exact Hwr].
  - intros s2 Hcp. apply wp_ret. apply HQ. rewrite Z.add_0_l, Z2Nat.id in Hcp by lia. done.
  - destruct Hdev as (Hs1 & Hcap1 & Hrel1). repeat split; auto.
    + intros; lia.
    + apply Hrel1, Hw.
Qed.

Lemma globals_disk s s' : globals s' = globals s -> disk_no s' = disk_no s.
Proof. unfold globals. congruence. Qed.
Lemma globals_bpb s s' : globals s' = globals s -> bpb s' = bpb s.
Proof. unfold globals. congruence. Qed.

Lemma fat_copies_rep s s' b fat data c v :
  vol_rep s b fat data -> in_vol b c ->
  fat_copies s s' b c
    (store 4 (fat_off c) (new_word (fat_word s b c) v)
       (sector (dev s) (disk_no s) (fat_lba b c))) (BPB_NumFATs b) ->
  vol_rep s' b (fupd fat c (Z.land v 0x0FFFFFFF)) data.
Proof.
  intros [Hw Hf Hd Ho Hm] Hc (Hfr & Hwr & Hcap & Hrel & Hg). pose proof (w_vol _ _ Hw) as Hv.
  pose proof (globals_disk _ _ Hg) as Hdn. pose proof (globals_bpb _ _ Hg) as Hbp.
  pose proof (v_nfat _ Hv). pose proof (v_fatsz _ Hv). unfold in_vol in Hc.
  assert (Hc0 : 0 <= c < clusters b + 2) by lia.
  split.
  - destruct Hw as [? ? ? ?]. constructor; [congruence | done | rewrite Hdn, Hcap; done | done].
  - intros c' Hc'. unfold in_vol in Hc'. unfold fat_entry, fat_word. rewrite Hdn.
    specialize (Hwr 0 ltac:(lia)). rewrite Z.mul_0_l, Z.add_0_r in Hwr.
    pose proof (fat_off_range c) as [? ?]. pose proof (fat_off_range c') as [? ?].
    destruct (decide (c * 4 / 512 = c' * 4 / 512)) as [Hq|Hq].
    + replace (fat_lba b c') with (fat_lba b c) by (unfold fat_lba; lia). rewrite Hwr.
      destruct (decide (c' = c)) as [->|Hne].
      * rewrite fupd_eq, load_store_same by (rewrite ?sector_length; lia).
        rewrite Z.mod_small by apply new_word_range. apply new_word_low.
      * rewrite fupd_ne by done. pose proof (fat_off_disjoint c c').
        rewrite load_store_disjoint by (rewrite ?sector_length; lia).
        rewrite <- Hf by done. unfold fat_entry, fat_word. do 3 f_equal.
        unfold fat_lba. lia.
    + rewrite fupd_ne by (intros ->; done). rewrite <- Hf by done.
      unfold fat_entry, fat_word. rewrite Hfr; [done|]. intros i Hi. right.
      pose proof (fat_index_range b Hv c Hc0). pose proof (fat_index_range b Hv c' ltac:(lia)).
      unfold fat_lba. destruct (decide (i = 0)) as [->|]; [lia|]. nia.
  - intros c' Hc'. rewrite <- Hd by done. unfold cluster_data. rewrite Hdn.
    apply sectors_ext. intros i Hi. apply Hfr. intros k Hk. right.
    pose proof (fat_copy_lba s b c k Hw Hc0 Hk). pose proof (data_start b Hv c' Hc'). lia.
  - intros d l Hl. rewrite Hdn in Hl. rewrite Hfr; [by apply Ho|]. intros i Hi.
    pose proof (fat_copy_lba s b c i Hw Hc0 Hi). pose proof (clusters_nonneg b Hv). pose proof (v_spc _ Hv).
    unfold out_of_vol in Hl. nia.
  - intros M i k Hi Hk. rewrite Hdn. pose proof (fat_index_range b Hv c Hc0) as Hidx.
    destruct (decide (k = c * 4 / 512)) as [->|Hne].
    + replace (fat_base b + i * _ + _) with (fat_lba b c + i * BPB_FATSz32 b) by (unfold fat_lba; lia).
      replace (fat_base b + _) with (fat_lba b c + 0 * BPB_FATSz32 b) by (unfold fat_lba; lia).
      rewrite !Hwr by lia. done.
    + rewrite !Hfr; [by apply Hm | |]; intros j Hj; right; unfold fat_lba; intros Heq; apply Hne.
      * apply (Z.div_mod_unique (BPB_FATSz32 b) 0 j); lia.
      * apply (Z.div_mod_unique (BPB_FATSz32 b) i j); lia.
Qed.

Lemma set_next_spec s b fat data c v (Q : bool -> fat_state E -> Prop) :
  vol_rep s b fat data -> in_vol b c ->
  (forall s', vol_rep s' b (fupd fat c (Z.land v 0x0FFFFFFF)) data ->
     globals s' = globals s -> Q true s') ->
  wp (fat32_set_next_cluster c v) Q s.
Proof.
  intros Hrep Hc HQ. apply (set_next_raw s b c v); [apply Hrep | done |].
  intros s' Hcp. apply HQ; [by eapply fat_copies_rep | by destruct Hcp as (_ & _ & _ & _ & ?)].
Qed.

(** *** Cluster contents *)

Lemma read_cluster_spec s b fat data c buf (Q : bool * list Z -> fat_state E -> Prop) :
  vol_rep s b fat data -> in_vol b c -> zlen buf = csize b ->
  (forall s', same_fs s s' -> Q (true, data c) s') ->
  wp (fat32_read_cluster c buf) Q s.
Proof.
  intros Hrep Hc Hlen HQ. pose proof (rep_wf _ _ _ _ Hrep) as Hw.
  pose proof (w_vol _ _ Hw) as Hv. pose proof (v_spc _ Hv) as Hspc.
  pose proof (v_tot _ Hv). pose proof (data_start b Hv c Hc). pose proof (data_end b Hv c Hc).
  assert (Hdb : 0 <= data_base b)
    by (pose proof (fat_prod_bound b Hv); destruct Hv; unfold data_base, fat_base; lia).
  unfold fat32_read_cluster. wp_step. apply wp_gets. rewrite (w_bpb _ _ Hw).
  rewrite first_sector_wf by done. cbn [get_sectors_per_cluster get_bytes_per_sector].
  rewrite (v_bps _ Hv). unfold csize in Hlen.
  eapply (wp_iter (fun '(i, bf) s' => 0 <= i <= BPB_SecPerClus b /\ same_fs s s' /\
      zlen bf = csize b /\ forall k, 0 <= k < i ->
        slice (k * 512) 512 bf = sector (dev s) (disk_no s) (data_lba b c + k))
    (fun '(i, _) _ => Z.to_nat (BPB_SecPerClus b - i))); [| |lia].
  - intros [i bf] s1 (Hi & Hs1 & Hbf & Hk). unfold csize in Hbf. case_if.
    + unwrap. wp_step. pose proof Hs1 as [(Hsec & Hcap & Hrel) Hg].
      pose proof (globals_disk _ _ Hg) as Hdn. pose proof (w_cap _ _ Hw).
      apply read_sector_spec; [apply Hrel, Hw | lia | rewrite Hdn, Hcap; lia |].
      intros s2 Hs2. cbv beta iota. rewrite Hdn, Hsec.
      destruct (Z.leb_spec (i * 512 + 512) (zlen bf)); [|lia]. wp_steps.
      set (d := sector (dev s) (disk_no s) (data_lba b c + i)). assert (Hd : zlen d = 512) by (unfold d; by rewrite sector_length).
      split; [split; [lia | split; [by eapply same_fs_trans | split]] | lia].
      * unfold csize. rewrite length_splice; lia.
      * intros k Hkk. destruct (decide (k = i)) as [->|].
        -- rewrite slice_splice_eq by lia. done.
        -- rewrite slice_splice_disjoint by lia. apply Hk. lia.
    + apply wp_ret. replace bf with (data c); [by apply HQ|].
      rewrite <- (rep_data _ _ _ _ Hrep c Hc). unfold cluster_data.
      apply sectors_of_slices; [lia | lia |]. intros k Hkk. symmetry. apply Hk. lia.
  - split; [lia | split; [apply same_fs_refl | split; [unfold csize; lia | lia]]].
Qed.

Lemma wrote_rep s s' b fat data c buf :
  vol_rep s b fat data -> in_vol b c -> csize b <= zlen buf ->
  wrote s s' (data_lba b c) (BPB_SecPerClus b) buf ->
  vol_rep s' b fat (fupd data c (take (Z.to_nat (csize b)) buf)).
Proof.
  intros [Hw Hf Hd Ho Hm] Hc Hlen (Hfr & Hwr & Hcap & Hrel & Hg). pose proof (w_vol _ _ Hw) as Hv.
  pose proof (globals_disk _ _ Hg) as Hdn. pose proof (globals_bpb _ _ Hg) as Hbp.
  pose proof (v_spc _ Hv). pose proof (data_start b Hv c Hc).
  split.
  - destruct Hw. constructor; [congruence | done | rewrite Hdn, Hcap; done | done].
  - intros c' Hc'. rewrite <- Hf by done. unfold fat_entry, fat_word. rewrite Hdn, Hfr; [done|].
    right. left. unfold in_vol in Hc'.
    pose proof (fat_copy_lba s b c' 0 Hw ltac:(lia) ltac:(pose proof (v_nfat _ Hv); lia)). lia.
  - intros c' Hc'. unfold cluster_data. rewrite Hdn. destruct (decide (c' = c)) as [->|Hne].
    + rewrite fupd_eq. unfold csize in *. apply sectors_of_slices; [lia | |].
      * rewrite length_take. lia.
      * intros i Hi. rewrite Hwr by lia. rewrite slice_take by lia. done.
    + rewrite fupd_ne by done. rewrite <- Hd by done. apply sectors_ext. intros i Hi.
      apply Hfr. pose proof (data_disjoint b Hv c c' Hc Hc' ltac:(done)). lia.
  - intros d l Hl. rewrite Hdn in Hl. rewrite Hfr; [by apply Ho|].
    unfold out_of_vol, data_lba, in_vol in *. pose proof (fat_prod_bound b Hv). unfold data_base in *. nia.
  - intros M i k Hi Hk. rewrite Hdn, !Hfr; [by apply Hm | |]; right; left; unfold data_base in *; nia.
Qed.

Lemma write_cluster_raw s b c buf (Q : bool -> fat_state E -> Prop) :
  fs_wf s b -> in_vol b c -> csize b <= zlen buf -> Forall byte buf ->
  (forall s', wrote s s' (data_lba b c) (BPB_SecPerClus b) buf -> Q true s') ->
  wp (fat32_write_cluster c (Some buf)) Q s.
Proof.
  intros Hw Hc Hlen Hbyte HQ. pose proof (w_vol _ _ Hw) as Hv. pose proof (v_spc _ Hv).
  pose proof (data_start b Hv c Hc). pose proof (data_end b Hv c Hc).
  pose proof (fat_prod_bound b Hv) as (? & ? & ?).
  assert (0 <= data_base b) by (destruct Hv; unfold data_base, fat_base; lia).
  unfold fat32_write_cluster. wp_step. apply wp_gets. rewrite (w_bpb _ _ Hw).
  rewrite first_sector_wf by done. cbn [get_sectors_per_cluster].
  pose proof (w_cap _ _ Hw). pose proof Hlen as Hlen'. unfold csize in Hlen'.
  apply write_sectors_spec; [apply Hw | lia | lia | lia | done | lia | done].
Qed.

Lemma write_cluster_spec s b fat data c buf (Q : bool -> fat_state E -> Prop) :
  vol_rep s b fat data -> in_vol b c -> csize b <= zlen buf -> Forall byte buf ->
  (forall s', vol_rep s' b fat (fupd data c (take (Z.to_nat (csize b)) buf)) ->
     globals s' = globals s -> Q true s') ->
  wp (fat32_write_cluster c (Some buf)) Q s.
Proof.
  intros Hrep Hc Hlen Hbyte HQ. apply (write_cluster_raw s b); [apply Hrep | done..|].
  intros s' Hwr. apply HQ; [by eapply wrote_rep | by destruct Hwr as (_ & _ & _ & _ & ?)].
Qed.

(** *** The heap *)

Lemma malloc_spec s n (Q : bool -> fat_state E -> Prop) :
  reliable (dev s) -> 0 < n ->
  (forall s', dev_eq (dev s) (dev s') -> globals s' = globals (set_live (live s + 1) s) ->
     Q true s') ->
  wp (fs_malloc n) Q s.
Proof.
  intros Hr Hn HQ. unfold fs_malloc, wp. pose proof (malloc_total (dev s) n Hr Hn) as Ht.
  destruct (malloc n (dev s)) as [ok e] eqn:Hm. simpl in Ht. subst.
  apply HQ; [exact (malloc_frame _ _ _ _ Hm) | done].
Qed.

Lemma free_spec s (Q : unit -> fat_state E -> Prop) :
  (forall s', dev_eq (dev s) (dev s') -> globals s' = globals (set_live (live s - 1) s) ->
     Q tt s') ->
  wp fs_free Q s.
Proof. intros HQ. apply HQ; [apply free_frame | done]. Qed.

Lemma vol_rep_live s s' n b fat data :
  vol_rep s b fat data -> dev_eq (dev s) (dev s') ->
  globals s' = globals (set_live n s) -> vol_rep s' b fat data.
Proof.
  intros Hr Hd Hg. eapply vol_rep_dev; [done | done | |];
    unfold globals in Hg; simpl in Hg; congruence.
Qed.
End specs.

(** Goals about the globals after a sequence of steps. *)
Ltac solve_globals :=
  unfold globals, set_live, set_dev, set_free_hint, set_cwd in *; simpl in *;
  simplify_eq;
  repeat match goal with |- (_, _) = (_, _) => apply f_equal2 end;
  first [congruence | lia].

Section specs2.
Context {E : Type} `{BlockDevLaws E} {Ar : Around}.
Implicit Types (s : fat_state E) (fat : Z -> Z) (data : Z -> list Z).

Definition zeros (b : BPB) : list Z := replicate (Z.to_nat (csize b)) 0.

Lemma zeros_len b : vol_wf b -> zlen (zeros b) = csize b.
Proof. intros Hv. pose proof (csize_pos b Hv). unfold zeros. rewrite length_replicate. lia. Qed.

Lemma clear_cluster_spec s b fat data c (Q : bool -> fat_state E -> Prop) :
  vol_rep s b fat data -> in_vol b c ->
  (forall s', vol_rep s' b fat (fupd data c (zeros b)) -> globals s' = globals s -> Q true s') ->
  wp (fat32_clear_cluster c) Q s.
Proof.
  intros Hrep Hc HQ. pose proof (rep_wf _ _ _ _ Hrep) as Hw.
  pose proof (w_vol _ _ Hw) as Hv. pose proof (csize_pos b Hv).
  unfold fat32_clear_cluster. wp_step. apply wp_gets. rewrite (w_bpb _ _ Hw).
  cbn [get_bytes_per_sector get_sectors_per_cluster]. rewrite (v_bps _ Hv).
  fold (csize b). unwrap. fold (zeros b). wp_step.
  apply malloc_spec; [apply Hw | lia |]. intros s1 Hd1 Hg1. cbn [negb]. wp_step.
  pose proof (zeros_len b Hv).
  apply (write_cluster_spec s1 b fat data);
    [by eapply vol_rep_live | done | lia | apply zeros_byte |].
  intros s2 Hr2 Hg2. wp_step. apply free_spec. intros s3 Hd3 Hg3. apply wp_ret.
  rewrite firstn_all2 in Hr2 by lia.
  apply HQ; [by eapply vol_rep_live | solve_globals].
Qed.
End specs2.

(** ** Allocation *)

(** The free clusters of the volume. *)
Definition free_clusters (b : BPB) (fat : Z -> Z) : list Z :=
  filter (fun c => fat c = 0) (seqZ 2 (clusters b)).

(** The free clusters the allocator would find from the hint [h] on, in the
    order in which it hands them out.  They are not all free clusters of the
    volume: the search never goes back below the hint, and it stops one
    cluster short of the last one, [clusters b + 1] ([free_list_free]). *)
Definition free_list (b : BPB) (fat : Z -> Z) (h : Z) : list Z :=
  filter (fun c => fat c = 0) (seqZ h (clusters b + 1 - h)).

Lemma free_list_free b fat h : 0 <= clusters b -> 2 <= h ->
  free_list b fat h = filter (fun c => h <= c /\ c <> clusters b + 1) (free_clusters b fat).
Proof.
  intros Hc Hh. unfold free_list, free_clusters. rewrite list_filter_filter.
  destruct (decide (clusters b + 1 <= h)).
  - rewrite (seqZ_nil h) by lia. symmetry. apply filter_none. intros c Hin%elem_of_seqZ. lia.
  - replace (clusters b) with ((h - 2) + ((clusters b + 1 - h) + 1)) at 2 by lia.
    rewrite !seqZ_app by lia. rewrite !filter_app.
    rewrite (filter_none _ (seqZ 2 (h - 2))) by (intros c Hin%elem_of_seqZ; lia). cbn [app].
    rewrite (filter_none _ (seqZ (2 + (h - 2) + _) 1)) by (intros c Hin%elem_of_seqZ; lia). rewrite app_nil_r.
    replace (2 + (h - 2)) with h by lia. apply filter_ext_in. intros c Hin%elem_of_seqZ. lia.
Qed.

Lemma free_list_ext b fat fat' h :
  (forall c, h <= c -> fat c = fat' c) -> free_list b fat h = free_list b fat' h.
Proof.
  intros Hf. apply filter_ext_in. intros c Hc%elem_of_seqZ. rewrite Hf by lia. done.
Qed.

Lemma free_list_ext_zero b fat fat' h :
  (forall c, h <= c -> fat c = 0 <-> fat' c = 0) -> free_list b fat h = free_list b fat' h.
Proof. intros Hf. apply filter_ext_in. intros c Hc%elem_of_seqZ. apply Hf. lia. Qed.

(** The first free cluster splits the list. *)
Lemma free_list_first b fat h c :
  h <= c < clusters b + 1 -> fat c = 0 -> (forall c', h <= c' < c -> fat c' <> 0) ->
  free_list b fat h = c :: free_list b fat (c + 1).
Proof.
  intros Hc Hz Hn. unfold free_list.
  replace (clusters b + 1 - h) with ((c - h) + (clusters b + 1 - c)) by lia.
  rewrite seqZ_app by lia. rewrite filter_app.
  replace (filter _ (seqZ h (c - h))) with (@nil Z).
  - replace (h + (c - h)) with c by lia. rewrite seqZ_cons by lia. simpl.
    rewrite filter_cons_True by done.
    by replace (Z.pred (clusters b + 1 - c)) with (clusters b + 1 - (c + 1)) by lia.
  - symmetry. apply filter_none. intros x Hx%elem_of_seqZ. apply Hn. lia.
Qed.

Lemma free_list_none b fat h :
  (forall c, h <= c < clusters b + 1 -> fat c <> 0) -> free_list b fat h = [].
Proof. intros Hn. apply filter_none. intros x Hx%elem_of_seqZ. apply Hn. lia. Qed.

Lemma elem_of_free_list b fat h c :
  c ∈ free_list b fat h <-> fat c = 0 /\ h <= c < clusters b + 1.
Proof. unfold free_list. rewrite list_elem_of_filter, elem_of_seqZ. lia. Qed.

Lemma free_clusters_taken b fat c :
  free_clusters b (fupd fat c CLUSTER_END_OF_CHAIN) = filter (fun x => x <> c) (free_clusters b fat).
Proof.
  unfold free_clusters. rewrite list_filter_filter. apply filter_ext_in. intros x _. unfold fupd.
  destruct (Z.eqb_spec x c); [|tauto]. unfold CLUSTER_END_OF_CHAIN. split; [lia | tauto].
Qed.

Section alloc.
Context {E : Type} `{BlockDevLaws E} {Ar : Around}.
Implicit Types (s : fat_state E) (fat : Z -> Z) (data : Z -> list Z).

(** The allocator takes the first cluster of the free list, marks it as the
    end of a chain and moves the hint past it; it fails, changing nothing,
    exactly when the list is empty. *)
Lemma allocate_spec s b fat data (Q : option Z -> fat_state E -> Prop) :
  vol_rep s b fat data -> 2 <= fat32_free_cluster_no s ->
  (forall c s', fat32_free_cluster_no s <= c < clusters b + 1 -> fat c = 0 ->
     free_list b fat (fat32_free_cluster_no s) = c :: free_list b fat (c + 1) ->
     vol_rep s' b (fupd fat c CLUSTER_END_OF_CHAIN) data ->
     globals s' = globals (set_free_hint (c + 1) s) -> Q (Some c) s') ->
  (forall s', free_list b fat (fat32_free_cluster_no s) = [] -> same_fs s s' -> Q None s') ->
  wp fat32_allocate_cluster Q s.
Proof.
  intros Hrep Hh HQs HQn. pose proof (rep_wf _ _ _ _ Hrep) as Hw.
  pose proof (w_vol _ _ Hw) as Hv. pose proof (clusters_nonneg b Hv). pose proof (v_max _ Hv).
  unfold fat32_allocate_cluster. wp_step. apply wp_gets. rewrite (w_bpb _ _ Hw).
  rewrite get_total_clusters_wf by done. wp_step. unfold lift, wp at 1. cbn [obind].
  wp_step. apply wp_gets. unwrap. wp_step.
  set (h := fat32_free_cluster_no s) in *.
  eapply (wp_for (fun j s' => same_fs s s' /\ forall c, h <= c < j -> fat c <> 0)).
  - intros c s1 Hc [Hs1 Hnz]. assert (Hcl : c < clusters b + 1) by lia.
    pose proof (vol_rep_same _ _ _ _ _ Hrep Hs1) as Hr1.
    pose proof (rep_wf _ _ _ _ Hr1) as Hw1.
    assert (Hin : in_vol b c) by (unfold in_vol; lia).
    wp_step. apply (fat_location_spec s1 b c); [done | unfold in_vol in Hin; lia |].
    cbv beta iota. pose proof (fat_off_range c) as [? ?].
    destruct (fat_lba_cap s1 b c Hw1 ltac:(lia)). wp_step.
    apply read_sector_spec; [apply Hw1 | done | done |]. intros s2 Hs2. cbv beta iota.
    cbn [get_bytes_per_sector]. rewrite (v_bps _ Hv). wp_step. wp_step.
    fold (fat_word s1 b c). fold (fat_entry s1 b c). rewrite (rep_fat _ _ _ _ Hr1 c Hin).
    pose proof (vol_rep_same _ _ _ _ _ Hr1 Hs2) as Hr2.
    case_if; [|apply wp_ret; split; [by eapply same_fs_trans | intros c' Hc';
      destruct (decide (c' = c)) as [->|]; [done | apply Hnz; lia]]].
    wp_step. apply (set_next_spec s2 b fat data); [done | done|]. intros s3 Hr3 Hg3.
    wp_steps. unwrap. eapply HQs; [lia | done | apply free_list_first; [lia | done |] | |].
    + intros c' Hc'. apply Hnz. lia.
    + eapply vol_rep_dev; [exact Hr3 | apply dev_eq_refl | done | done].
    + destruct Hs1 as [_ Hg1], Hs2 as [_ Hg2]. solve_globals.
  - intros s1 [Hs1 Hnz]. apply wp_ret. apply HQn; [|done].
    apply free_list_none. intros c Hc. apply Hnz. lia.
  - split; [apply same_fs_refl | lia].
Qed.
End alloc.

(** ** Chains *)

(** [chain b fat c l]: following the links of [fat] from [c] visits the
    clusters [l] of the volume and ends at an end-of-chain mark. *)
Inductive chain (b : BPB) (fat : Z -> Z) : Z -> list Z -> Prop :=
  | chain_last c :
      in_vol b c -> 0x0FFFFFF8 <= fat c -> chain b fat c [c]
  | chain_next c l :
      in_vol b c -> chain b fat (fat c) l -> chain b fat c (c :: l).

#[export] Hint Constructors chain : machine.

Section chains.
Context (b : BPB) (Hv : vol_wf b).
Implicit Types (fat : Z -> Z).

Lemma chain_in_vol fat c l : chain b fat c l -> in_vol b c.
Proof. by destruct 1. Qed.

Lemma chain_all_in_vol fat c l : chain b fat c l -> Forall (in_vol b) l.
Proof. induction 1; constructor; auto using Forall_nil_2. Qed.

Lemma chain_head fat c l : chain b fat c l -> exists l', l = c :: l'.
Proof. destruct 1; eauto. Qed.

Lemma in_vol_not_end c : in_vol b c -> is_end_of_cluster_chain (Some b) c = false.
Proof. destruct Hv. intros [? ?]. unfold is_end_of_cluster_chain. apply Z.leb_gt. lia. Qed.

(** Links are deterministic, so the chain of a cluster is unique. *)
Lemma chain_det fat c l : chain b fat c l -> forall l', chain b fat c l' -> l = l'.
Proof.
  induction 1 as [c Hc He|c l Hc Hl IH]; intros l' Hl'; inversion Hl' as [|? ? ? Hn]; subst.
  - done.
  - apply chain_in_vol in Hn. unfold in_vol in Hn. destruct Hv. lia.
  - apply chain_in_vol in Hl. unfold in_vol in Hl. destruct Hv. lia.
  - f_equal. auto.
Qed.

(** A chain never visits a cluster twice. *)
Lemma chain_suffix fat c l x :
  chain b fat c l -> x ∈ l -> exists l1 l2, l = l1 ++ l2 /\ chain b fat x l2.
Proof.
  intros Hch. revert x. induction Hch as [c Hc He|c l Hc Hl IH]; intros x Hx.
  - exists [], [c]. apply list_elem_of_singleton in Hx as ->. auto with machine.
  - apply elem_of_cons in Hx as [->|Hx].
    + exists [], (c :: l). auto with machine.
    + destruct (IH x Hx) as (l1 & l2 & -> & ?). by exists (c :: l1), l2.
Qed.

Lemma chain_NoDup fat c l : chain b fat c l -> NoDup l.
Proof.
  induction 1 as [c Hc He|c l Hc Hl IH]; [apply NoDup_singleton|].
  constructor; [|done]. intros Hx.
  destruct (chain_suffix _ _ _ _ Hl Hx) as (l1 & l2 & -> & Hs).
  pose proof (chain_det _ _ _ Hs (c :: l1 ++ l2) (chain_next _ _ _ _ Hc Hl)) as Heq.
  apply (f_equal length) in Heq. simpl in Heq. rewrite length_app in Heq. lia.
Qed.

(** Only the entries on the chain matter. *)
Lemma chain_ext fat fat' c l :
  chain b fat c l -> (forall x, x ∈ l -> fat' x = fat x) -> chain b fat' c l.
Proof using Type.
  induction 1 as [c Hc He|c l Hc Hl IH]; intros Hx.
  - constructor; [done|]. rewrite Hx by left. done.
  - constructor; [done|]. rewrite Hx by left. apply IH. intros x Hxl. apply Hx. by right.
Qed.

(** Extending a chain at its end. *)
Lemma chain_snoc fat c l x n :
  chain b fat c l -> last l = Some x -> in_vol b n -> n ∉ l -> 0x0FFFFFF8 <= fat n ->
  chain b (fupd fat x n) c (l ++ [n]).
Proof.
  induction 1 as [c Hc He|c l Hc Hl IH]; intros Hx Hn Hnl Hen; simpl in *.
  - simplify_eq. apply chain_next; [done|]. rewrite fupd_eq. constructor; [done|].
    rewrite fupd_ne by set_solver. done.
  - destruct (chain_head _ _ _ Hl) as [l' Hl']. assert (Hlx : last l = Some x) by (by subst).
    assert (c <> x).
    { intros ->. apply last_Some_elem_of in Hlx.
      pose proof (chain_NoDup _ _ _ (chain_next _ _ _ _ Hc Hl)) as Hnd.
      apply NoDup_cons in Hnd as [? ?]. done. }
    apply chain_next; [done|]. rewrite fupd_ne by done. apply IH; set_solver.
Qed.
End chains.

(** The FAT with the entries of [l] cleared. *)
Definition freed (fat : Z -> Z) (l : list Z) : Z -> Z :=
  fun c => if decide (c ∈ l) then 0 else fat c.

Section chain_specs.
Context {E : Type} `{BlockDevLaws E} {Ar : Around}.
Implicit Types (s : fat_state E) (fat : Z -> Z) (data : Z -> list Z).

(** One step along a chain, as every loop over a chain takes it. *)
Lemma chain_step_next b fat c l : vol_wf b -> chain b fat c l ->
  (l = [c] /\ is_end_of_cluster_chain (Some b) (fat c) = true) \/
  (exists l', l = c :: l' /\ chain b fat (fat c) l' /\
     is_end_of_cluster_chain (Some b) (fat c) = false /\ fat c <> 0).
Proof.
  intros Hv [c' Hc He|c' l' Hc Hl].
  - left. split; [done|]. unfold is_end_of_cluster_chain. by apply Z.leb_le.
  - right. exists l'. pose proof (chain_in_vol _ _ _ _ Hl) as Hin.
    split; [done|]. split; [done|]. split; [by apply in_vol_not_end|].
    unfold in_vol in Hin. lia.
Qed.

Lemma validate_chain_spec s b fat data c l fuel :
  vol_rep s b fat data -> chain b fat c l -> (length l < fuel)%nat ->
  wp (fat32_validate_cluster_chain fuel c) (fun r s' => r = true /\ same_fs s s') s.
Proof.
  intros Hrep Hch Hfuel. pose proof (w_vol _ _ (rep_wf _ _ _ _ Hrep)) as Hv.
  apply (wp_iter_idx length (fun l c s1 => same_fs s s1 /\ chain b fat c l)) with l;
    [|by split; [apply same_fs_refl|] | done].
  clear l c Hch Hfuel. intros l c s1 [Hs1 Hch].
  pose proof (vol_rep_same _ _ _ _ _ Hrep Hs1) as Hr1. wp_step. apply wp_gets.
  rewrite (w_bpb _ _ (rep_wf _ _ _ _ Hr1)).
  pose proof (chain_in_vol _ _ _ _ Hch) as Hin. rewrite in_vol_valid by done. cbn [negb].
  wp_step. apply (get_next_spec s1 b fat data); [done | done|]. intros s2 Hs2.
  pose proof (same_fs_trans _ _ _ Hs1 Hs2) as Hs.
  destruct (chain_step_next b fat c l Hv Hch) as [[-> He]|(l' & -> & Hl' & He & Hnz)];
    rewrite He.
  - case_if; [unfold is_end_of_cluster_chain in He; bool_to_prop; lia|]. by wp_steps.
  - apply Z.eqb_neq in Hnz. rewrite Hnz. wp_steps. exists l'. simpl. auto with lia.
Qed.

Lemma count_chain_spec s b fat data c l fuel :
  vol_rep s b fat data -> chain b fat c l -> (length l < fuel)%nat ->
  zlen l < 4294967296 ->
  wp (fat32_count_cluster_chain fuel c) (fun r s' => r = zlen l /\ same_fs s s') s.
Proof.
  intros Hrep Hch Hfuel Hlen. pose proof (w_vol _ _ (rep_wf _ _ _ _ Hrep)) as Hv.
  apply (wp_iter_idx length (fun k '(c, n) s1 => same_fs s s1 /\ chain b fat c k /\
    0 <= n /\ n + zlen k = zlen l)) with l; [|by split; [apply same_fs_refl|] | done].
  clear Hch Hfuel c. intros k [c n] s1 (Hs1 & Hch & Hn & Hnl).
  pose proof (vol_rep_same _ _ _ _ _ Hrep Hs1) as Hr1. wp_step. apply wp_gets.
  rewrite (w_bpb _ _ (rep_wf _ _ _ _ Hr1)).
  pose proof (chain_in_vol _ _ _ _ Hch) as Hin. rewrite in_vol_valid by done. cbn [negb].
  wp_step. apply (get_next_spec s1 b fat data); [done | done|]. intros s2 Hs2.
  pose proof (same_fs_trans _ _ _ Hs1 Hs2) as Hs.
  destruct (chain_step_next b fat c k Hv Hch) as [[-> He]|(k' & -> & Hl' & He & Hnz)];
    rewrite He; wp_steps; simpl in Hnl; unwrap.
  - split; [lia | done].
  - exists k'. split; [split; [done | split; [done | lia]] | simpl; lia].
Qed.

(** Freeing a chain clears exactly its entries. *)
Lemma free_chain_spec s b fat data c l fuel :
  vol_rep s b fat data -> chain b fat c l -> (length l < fuel)%nat ->
  wp (fat32_free_cluster_chain fuel c)
    (fun r s' => r = true /\ vol_rep s' b (freed fat l) data /\ globals s' = globals s) s.
Proof.
  intros Hrep Hch Hfuel. pose proof (w_vol _ _ (rep_wf _ _ _ _ Hrep)) as Hv.
  apply (wp_iter_idx length (fun k c s1 => exists fat1,
    vol_rep s1 b fat1 data /\ chain b fat1 c k /\ globals s1 = globals s /\
    forall x, in_vol b x -> freed fat1 k x = freed fat l x)) with l; [|by exists fat | done].
  clear Hch Hfuel c. intros k c s1 (fat1 & Hr1 & Hch & Hg1 & Hfr). wp_step. apply wp_gets.
  rewrite (w_bpb _ _ (rep_wf _ _ _ _ Hr1)).
  pose proof (chain_in_vol _ _ _ _ Hch) as Hin. rewrite in_vol_valid by done. cbn [negb].
  wp_step. apply (get_next_spec s1 b fat1 data); [done | done|]. intros s2 Hs2.
  pose proof (chain_NoDup b Hv _ _ _ Hch) as Hnd.
  assert (Hnz : fat1 c <> 0).
  { destruct (chain_step_next b fat1 c k Hv Hch) as [[-> He]|(k' & -> & Hl' & He & Hnz)]; [|done].
    unfold is_end_of_cluster_chain in He. bool_to_prop. lia. }
  rewrite (proj2 (Z.eqb_neq _ _) Hnz). wp_step.
  apply (set_next_spec s2 b fat1 data); [by eapply vol_rep_same | done |].
  intros s3 Hr3 Hg3. cbn [negb Z.land] in *.
  assert (Hg : globals s3 = globals s) by (destruct Hs2; congruence).
  destruct (chain_step_next b fat1 c k Hv Hch) as [[-> He]|(k' & -> & Hl' & He & _)];
    rewrite He; apply wp_ret.
  - split; [done|]. split; [|done]. eapply vol_rep_ext; [exact Hr3 | | done].
    intros x Hx. rewrite <- Hfr by done. unfold freed, fupd.
    destruct (Z.eqb_spec x c), (decide (x ∈ [c])); set_solver.
  - exists k'. split; [|simpl; lia]. exists (fupd fat1 c 0). split; [done|].
    apply NoDup_cons in Hnd as [Hnc _]. split; [|split; [done|]].
    + eapply chain_ext; [exact Hl'|]. intros x Hx. apply fupd_ne. set_solver.
    + intros x Hx. rewrite <- Hfr by done. unfold freed, fupd.
      destruct (Z.eqb_spec x c) as [->|]; repeat case_decide; set_solver.
Qed.
End chain_specs.

(** ** Building a chain by repeated allocation *)

(** [acc] is the chain built so far from the free clusters of [fat] that the
    allocator hands out from the hint [h0]; [fat1] and [h1] are the FAT and
    the hint now. *)
Record grown (b : BPB) (fat : Z -> Z) (h0 : Z) (acc : list Z) (fat1 : Z -> Z) (h1 : Z) : Prop := {
  g_same : forall x, x ∉ acc -> fat1 x = fat x;
  g_free : free_list b fat h0 = acc ++ free_list b fat1 h1;
  g_below : Forall (fun x => x < h1) acc;
  g_ge : 2 <= h1;
  g_chain : acc <> [] -> chain b fat1 (hd 0 acc) acc
}.

Lemma land_cluster b c : vol_wf b -> in_vol b c -> Z.land c 0x0FFFFFFF = c.
Proof.
  intros [] [? ?]. change 0x0FFFFFFF with (Z.ones 28). rewrite Z.land_ones by lia.
  apply Z.mod_small. lia.
Qed.

Lemma grown_start b fat h0 : 2 <= h0 -> grown b fat h0 [] fat h0.
Proof. constructor; done || constructor. Qed.

Lemma not_elem_below c (acc : list Z) h : Forall (fun x => x < h) acc -> h <= c -> c ∉ acc.
Proof. rewrite Forall_forall. intros Hf Hc Hin. apply Hf in Hin. lia. Qed.

Lemma grown_first b fat h0 fat1 h1 c :
  vol_wf b -> grown b fat h0 [] fat1 h1 -> h1 <= c < clusters b + 1 ->
  free_list b fat1 h1 = c :: free_list b fat1 (c + 1) ->
  grown b fat h0 [c] (fupd fat1 c CLUSTER_END_OF_CHAIN) (c + 1).
Proof.
  intros Hv [Hs Hf Hb Hg _] Hc Hfl. constructor.
  - intros x Hx. rewrite fupd_ne by set_solver. apply Hs. set_solver.
  - rewrite Hf, Hfl. simpl. f_equal. apply free_list_ext. intros. rewrite fupd_ne; [done | lia].
  - constructor; [lia | done].
  - lia.
  - intros _. simpl. constructor; [unfold in_vol; lia|]. rewrite fupd_eq. done.
Qed.

Lemma grown_next b fat h0 acc fat1 h1 c x :
  vol_wf b -> grown b fat h0 acc fat1 h1 -> last acc = Some x -> h1 <= c < clusters b + 1 ->
  free_list b fat1 h1 = c :: free_list b fat1 (c + 1) ->
  grown b fat h0 (acc ++ [c]) (fupd (fupd fat1 c CLUSTER_END_OF_CHAIN) x c) (c + 1).
Proof.
  intros Hv [Hs Hf Hb Hg Hch] Hx Hc Hfl.
  assert (Hne : acc <> []) by (intros ->; done). specialize (Hch Hne).
  pose proof (last_Some_elem_of _ _ Hx) as Hxa.
  assert (Hxc : x < h1) by (rewrite Forall_forall in Hb; by apply Hb).
  assert (Hca : c ∉ acc) by (eapply not_elem_below; [done | lia]).
  constructor.
  - intros y Hy. rewrite !fupd_ne by set_solver. apply Hs. set_solver.
  - rewrite Hf, Hfl, <- app_assoc. simpl. do 2 f_equal. apply free_list_ext.
    intros y Hy. rewrite !fupd_ne by lia. done.
  - apply Forall_app_2; [|by repeat constructor; lia].
    eapply Forall_impl; [exact Hb|]. simpl. lia.
  - lia.
  - intros _. destruct acc as [|a acc]; [done|]. cbn [hd app] in *.
    assert (Hin : in_vol b c) by (unfold in_vol; lia).
    apply (chain_snoc b Hv _ a (a :: acc) x c); [| done | done | done | rewrite fupd_eq; done].
    eapply chain_ext; [exact Hch|]. intros y Hy. apply fupd_ne. intros ->. done.
Qed.

(** Marking the last cluster again as the end changes nothing. *)
Lemma grown_end b fat h0 acc fat1 h1 x :
  vol_wf b -> grown b fat h0 acc fat1 h1 -> last acc = Some x ->
  grown b fat h0 acc (fupd fat1 x CLUSTER_END_OF_CHAIN) h1.
Proof.
  intros Hv [Hs Hf Hb Hg Hch] Hx. pose proof (last_Some_elem_of _ _ Hx) as Hxa.
  assert (Hxc : x < h1) by (rewrite Forall_forall in Hb; by apply Hb).
  constructor; [| | done | done |].
  - intros y Hy. rewrite fupd_ne by set_solver. by apply Hs.
  - rewrite Hf. f_equal. apply free_list_ext. intros y Hy. rewrite fupd_ne by lia. done.
  - intros Hne. specialize (Hch Hne). revert Hx. clear -Hv Hch.
    induction Hch as [c Hc He|c l Hc Hl IH]; intros Hx.
    + simpl in Hx. simplify_eq. constructor; [done|]. by rewrite fupd_eq.
    + destruct (chain_head _ _ _ _ Hl) as [l' Hl']. assert (Hlx : last l = Some x) by (by subst).
      pose proof (chain_NoDup b Hv _ _ _ (chain_next _ _ _ _ Hc Hl)) as [? _]%NoDup_cons.
      apply last_Some_elem_of in Hlx as Hxl.
      constructor; [done|]. rewrite fupd_ne by (intros ->; done). by apply IH.
Qed.

Section build_specs.
Context {E : Type} `{BlockDevLaws E} {Ar : Around}.
Implicit Types (s : fat_state E) (fat : Z -> Z) (data : Z -> list Z).

(** One round: allocate and link to the previous cluster.  Both chain
    builders of the source start a round this way. *)
Lemma grown_head b fat h0 acc fat1 h1 : vol_wf b -> grown b fat h0 acc fat1 h1 ->
  acc <> [] -> exists x, last acc = Some x /\ in_vol b x /\ x <> 0.
Proof.
  intros Hv Hg Hne. destruct (last acc) as [x|] eqn:Hx; [|by apply last_None in Hx].
  exists x. split; [done|]. pose proof (chain_all_in_vol b _ _ _ (g_chain _ _ _ _ _ _ Hg Hne)) as Hall.
  rewrite Forall_forall in Hall. specialize (Hall x (last_Some_elem_of _ _ Hx)).
  split; [done|]. unfold in_vol in Hall. lia.
Qed.

(** The state while a chain is built: [acc] holds the clusters so far. *)
Record building s s1 (b : BPB) fat (acc : list Z) data1 (prev first : Z) : Prop := {
  bu_grown : exists fat1, grown b fat (fat32_free_cluster_no s) acc fat1
               (fat32_free_cluster_no s1) /\ vol_rep s1 b fat1 data1;
  bu_glob : globals s1 = globals (set_free_hint (fat32_free_cluster_no s1) s);
  bu_prev : prev = default 0 (last acc);
  bu_first : acc <> [] -> first = hd 0 acc
}.

Lemma link_spec s s1 b fat acc data1 prev first c s2 fat1 :
  vol_wf b -> grown b fat (fat32_free_cluster_no s) acc fat1 (fat32_free_cluster_no s1) ->
  globals s1 = globals (set_free_hint (fat32_free_cluster_no s1) s) ->
  prev = default 0 (last acc) -> (acc <> [] -> first = hd 0 acc) ->
  fat32_free_cluster_no s1 <= c < clusters b + 1 ->
  free_list b fat1 (fat32_free_cluster_no s1) = c :: free_list b fat1 (c + 1) ->
  vol_rep s2 b (fupd fat1 c CLUSTER_END_OF_CHAIN) data1 ->
  globals s2 = globals (set_free_hint (c + 1) s1) ->
  (if prev =? 0 then building s s2 b fat (acc ++ [c]) data1 c c
   else wp (fat32_set_next_cluster prev c) (fun ok s3 =>
          ok = true /\ building s s3 b fat (acc ++ [c]) data1 c first) s2).
Proof.
  intros Hv Hgr Hg1 -> Hf Hc Hfl Hr2 Hg2. destruct (decide (acc = [])) as [->|Hne].
  - simpl. assert (Hh : fat32_free_cluster_no s2 = c + 1) by (unfold globals in Hg2; simpl in Hg2; congruence).
    constructor; [|rewrite Hh; solve_globals | done | done].
    exists (fupd fat1 c CLUSTER_END_OF_CHAIN). rewrite Hh. split; [|done].
    by apply (grown_first b fat _ fat1 (fat32_free_cluster_no s1)).
  - destruct (grown_head _ _ _ _ _ _ Hv Hgr Hne) as (x & Hx & Hin & Hx0). rewrite Hx.
    cbn [default]. unfold id. rewrite (proj2 (Z.eqb_neq _ _) Hx0).
    apply (set_next_spec s2 b (fupd fat1 c CLUSTER_END_OF_CHAIN) data1); [exact Hr2 | done |]. intros s3 Hr3 Hg3.
    split; [done|]. rewrite (land_cluster b) in Hr3 by (try done; unfold in_vol; pose proof (g_ge _ _ _ _ _ _ Hgr); lia).
    assert (Hh : fat32_free_cluster_no s3 = c + 1)
      by (unfold globals in Hg2, Hg3; simpl in Hg2, Hg3; congruence).
    constructor.
    + eexists. rewrite Hh. split; [by eapply grown_next | exact Hr3].
    + rewrite Hh. solve_globals.
    + by rewrite last_snoc.
    + intros _. rewrite (Hf Hne). by destruct acc.
Qed.

Lemma allocate_chain_spec s b fat data n (Q : bool * Z -> fat_state E -> Prop) :
  vol_rep s b fat data -> 2 <= fat32_free_cluster_no s -> 0 < n < 4294967296 ->
  n <= zlen (free_list b fat (fat32_free_cluster_no s)) ->
  (forall s' fat' acc,
     acc = take (Z.to_nat n) (free_list b fat (fat32_free_cluster_no s)) ->
     grown b fat (fat32_free_cluster_no s) acc fat' (fat32_free_cluster_no s') ->
     vol_rep s' b fat' data ->
     globals s' = globals (set_free_hint (fat32_free_cluster_no s') s) ->
     Q (true, hd 0 acc) s') ->
  wp (fat32_allocate_cluster_chain n) Q s.
Proof.
  intros Hrep Hh Hn Hlen HQ. pose proof (w_vol _ _ (rep_wf _ _ _ _ Hrep)) as Hv.
  unfold fat32_allocate_cluster_chain. wp_step.
  apply (wp_iter_idx (fun acc : list Z => Z.to_nat (n - zlen acc))
    (fun acc '(i, prev, first) s1 => i = zlen acc /\ i <= n /\
       building s s1 b fat acc data prev first)) with [].
  - intros acc [[i prev] first] s1 (-> & Hi & [(fat1 & Hgr & Hr1) Hg1 Hp Hf]). case_if.
    + wp_step. apply (allocate_spec s1 b fat1 data); [done | apply Hgr | |].
      * intros c s2 Hc Hz Hfl Hr2 Hg2. cbv beta iota.
        pose proof (link_spec s s1 b fat acc data prev first c s2 fat1
          Hv Hgr Hg1 Hp Hf Hc Hfl Hr2 Hg2) as Hl.
        destruct (prev =? 0); cbn [negb]; wp_step.
        -- exists (acc ++ [c]). rewrite length_app. simpl. unwrap.
           split; [split; [lia | split; [lia | done]] | lia].
        -- eapply wp_mono; [exact Hl|]. intros ok s3 [-> Hbu]. cbn [negb]. wp_step.
           exists (acc ++ [c]). rewrite length_app. simpl. unwrap.
           split; [split; [lia | split; [lia | done]] | lia].
      * intros s2 Hfl _. rewrite (g_free _ _ _ _ _ _ Hgr), Hfl, app_nil_r in Hlen. lia.
    + wp_step. cbv beta iota. cbn [negb].
      assert (Hna : acc <> []) by (intros ->; simpl in *; lia).
      destruct (grown_head _ _ _ _ _ _ Hv Hgr Hna) as (x & Hx & Hin & _).
      rewrite Hp, Hx. cbn [default]. unfold id. wp_step.
      apply (set_next_spec s1 b fat1 data); [done | done |]. intros s2 Hr2 Hg2. wp_step.
      rewrite (Hf Hna).
      assert (Hh2 : fat32_free_cluster_no s2 = fat32_free_cluster_no s1)
        by (unfold globals in Hg2; congruence).
      eapply (HQ s2 (fupd fat1 x CLUSTER_END_OF_CHAIN)).
      * rewrite (g_free _ _ _ _ _ _ Hgr), take_app_le by lia. rewrite firstn_all2; [done | lia].
      * rewrite Hh2. by eapply grown_end.
      * exact Hr2.
      * rewrite Hh2. solve_globals.
  - split; [done|]. split; [lia|]. constructor; [|by destruct s | done | done].
    exists fat. split; [by apply grown_start | done].
  - simpl. lia.
Qed.

(** The [i]-th cluster of a file of [size] bytes: its bytes, padded with
    zeroes in the last cluster. *)
Definition chunk (b : BPB) (buf : list Z) (size i : Z) : list Z :=
  let d := slice (i * csize b) (Z.min (csize b) (size - i * csize b)) buf in
  d ++ replicate (Z.to_nat (csize b) - length d) 0.

(** [data1] is [data] with the clusters [acc] holding the file's chunks. *)
Definition stored (b : BPB) data buf size (acc : list Z) (data1 : Z -> list Z) : Prop :=
  (forall i c, acc !! i = Some c -> data1 c = chunk b buf size (Z.of_nat i)) /\
  (forall c, c ∉ acc -> data1 c = data c).

Lemma stored_snoc b data buf size acc data1 c :
  stored b data buf size acc data1 -> c ∉ acc ->
  stored b data buf size (acc ++ [c]) (fupd data1 c (chunk b buf size (zlen acc))).
Proof.
  intros [Hi Ho] Hc. split.
  - intros i c' Hl. apply lookup_app_Some in Hl as [Hl|[Hge Hl]].
    + rewrite fupd_ne; [by apply Hi|]. intros ->. apply Hc. by eapply list_elem_of_lookup_2.
    + apply list_lookup_singleton_Some in Hl as [Hl <-]. rewrite fupd_eq. f_equal. lia.
  - intros c' Hc'. rewrite fupd_ne by set_solver. apply Ho. set_solver.
Qed.

(** The bytes the code hands to the cluster write of round [zlen acc]. *)
Lemma written_chunk b buf size w :
  vol_wf b -> 0 <= w -> w * csize b < size -> size <= zlen buf -> Forall byte buf ->
  let off := w * csize b in
  let to_write := Z.min (csize b) (size - off) in
  let out := if to_write =? csize b then drop (Z.to_nat off) buf
             else splice 0 (slice off to_write buf) (zeros b) in
  Forall byte out /\ csize b <= zlen out /\
  take (Z.to_nat (csize b)) out = chunk b buf size w.
Proof.
  intros Hv Hw Hlt Hlen Hby off tw out. pose proof (csize_pos b Hv) as Hcs.
  pose proof (zeros_len b Hv) as Hz. assert (0 <= off) by (unfold off; nia).
  assert (Hsl : zlen (slice off tw buf) = tw) by (rewrite length_slice; lia).
  unfold out, chunk. fold off. fold tw. case_if.
  - rewrite Hb in *. split; [by apply Forall_drop|]. rewrite length_drop. split; [lia|].
    replace (Z.to_nat (csize b) - length (slice off (csize b) buf))%nat with 0%nat by lia.
    rewrite app_nil_r. done.
  - assert (Hlz : length (splice 0 (slice off tw buf) (zeros b)) = length (zeros b))
      by (apply length_splice; lia).
    split; [apply Forall_splice; [by apply Forall_slice | apply zeros_byte]|].
    split; [lia|]. rewrite firstn_all2 by lia.
    unfold splice. simpl. f_equal. unfold zeros. rewrite drop_replicate. done.
Qed.

Definition rounds (b : BPB) (size : Z) : Z := (size + csize b - 1) / csize b.

Lemma rounds_spec b size n : vol_wf b -> 0 < size ->
  0 <= n -> (n < rounds b size <-> n * csize b < size).
Proof.
  intros Hv Hs Hn. pose proof (csize_pos b Hv). unfold rounds. split; intros Hlt.
  - apply Z.lt_le_pred in Hlt. rewrite <- Z.sub_1_r in Hlt.
    assert ((n + 1) * csize b <= size + csize b - 1); [|lia].
    transitivity (csize b * ((size + csize b - 1) / csize b)); [nia | apply Z.mul_div_le; lia].
  - apply Z.lt_succ_r || idtac. assert (n + 1 <= (size + csize b - 1) / csize b); [|lia].
    apply Z.div_le_lower_bound; lia.
Qed.
End build_specs.
