(* ===== verification/GptProps.v ===== *)
(** Partition tables: the checksum detects bursts, and the tables written to
    the disk are the ones firmware accepts.

    [patched] says which sectors of the current disk a run has replaced;
    [gpt_valid] is the check a reader of a GUID partition table makes of a
    header and the array of entries. *)
From S2P Require Import Prelude CString Stdio StdioProps Ports Time BlockDev FatBpb Gpt FatCluster.

(** ** The checksum *)

Definition POLY : Z := 0xEDB88320.

(** One bit, as shift and conditional subtraction over GF(2). *)
Lemma crc_bit_alt c : crc_bit c = Z.lxor (Z.shiftr c 1) (if Z.testbit c 0 then POLY else 0).
Proof.
  unfold crc_bit. f_equal. change (Z.land c 1) with (Z.land c (Z.ones 1)).
  rewrite Z.land_ones by lia. change (2 ^ 1) with 2. rewrite Zmod_odd, Z.bit0_odd.
  by destruct (Z.odd c).
Qed.

Definition word (c : Z) : Prop := 0 <= c < 2 ^ 32.

Lemma lxor_word a b : word a -> word b -> word (Z.lxor a b).
Proof.
  unfold word. intros Ha Hb. assert (0 <= Z.lxor a b) by (apply Z.lxor_nonneg; lia).
  split; [done|]. apply bits_lt; [lia | done|]. intros i Hi.
  rewrite Z.lxor_spec, !(testbit_high _ 32) by lia. done.
Qed.

Lemma crc_bit_word c : word c -> word (crc_bit c).
Proof.
  intros Hc. rewrite crc_bit_alt. apply lxor_word.
  - unfold word in *. rewrite Z.shiftr_div_pow2 by lia. change (2 ^ 1) with 2.
    split; [apply Z.div_pos; lia | apply Z.div_lt_upper_bound; lia].
  - unfold word, POLY. case_if; lia.
Qed.

Lemma crc_bit_linear a b : crc_bit (Z.lxor a b) = Z.lxor (crc_bit a) (crc_bit b).
Proof.
  rewrite !crc_bit_alt, Z.shiftr_lxor, Z.lxor_spec.
  apply Z.bits_inj'. intros i Hi. rewrite !Z.lxor_spec.
  destruct (Z.testbit a 0), (Z.testbit b 0); cbn [xorb]; rewrite ?Z.bits_0;
    repeat match goal with |- context [Z.testbit ?x i] => destruct (Z.testbit x i) end; done.
Qed.

Lemma crc_bit_zero c : word c -> crc_bit c = 0 -> c = 0.
Proof.
  intros Hc Hz. rewrite crc_bit_alt in Hz. apply Z.lxor_eq in Hz.
  destruct (Z.testbit c 0) eqn:Hb.
  - exfalso. assert (Z.testbit (Z.shiftr c 1) 31 = Z.testbit POLY 31) as Ht by (by rewrite Hz).
    rewrite Z.shiftr_spec in Ht by lia. change (Z.testbit POLY 31) with true in Ht.
    by rewrite (testbit_high c 32) in Ht by (unfold word in Hc; lia).
  - rewrite Z.shiftr_div_pow2 in Hz by lia. change (2 ^ 1) with 2 in Hz.
    rewrite Z.bit0_odd in Hb. pose proof (Zmod_odd c) as Hm. rewrite Hb in Hm.
    pose proof (Z.div_mod c 2 ltac:(lia)). lia.
Qed.

Lemma crc_bit_0 : crc_bit 0 = 0.
Proof. done. Qed.

Lemma crc_bit_double w : crc_bit (2 * w) = w.
Proof.
  rewrite crc_bit_alt, Z.testbit_even_0, Z.lxor_0_r, Z.shiftr_div_pow2 by lia.
  change (2 ^ 1) with 2. rewrite Z.mul_comm. apply Z.div_mul. lia.
Qed.

(** Several bits. *)
Abbreviation crc_bits n := (Nat.iter n crc_bit).

Lemma crc_bits_word n c : word c -> word (crc_bits n c).
Proof. induction n; simpl; auto using crc_bit_word. Qed.

Lemma crc_bits_linear n a b : crc_bits n (Z.lxor a b) = Z.lxor (crc_bits n a) (crc_bits n b).
Proof. induction n as [|n IH]; simpl; [done|]. by rewrite IH, crc_bit_linear. Qed.

Lemma crc_bits_zero n c : word c -> crc_bits n c = 0 -> c = 0.
Proof.
  intros Hc. induction n as [|n IH]; simpl; [done|].
  intros Hz. apply IH, crc_bit_zero; auto using crc_bits_word.
Qed.

Lemma crc_bits_shift n w : crc_bits n (w * 2 ^ Z.of_nat n) = w.
Proof.
  revert w. induction n as [|n IH]; intros w; [simpl; lia|].
  rewrite Nat.iter_succ. replace (w * 2 ^ Z.of_nat (S n)) with (2 * w * 2 ^ Z.of_nat n).
  - by rewrite IH, crc_bit_double.
  - rewrite Nat2Z.inj_succ, Z.pow_succ_r by lia. lia.
Qed.

Lemma crc_bits_inj n a b : word a -> word b -> crc_bits n a = crc_bits n b -> a = b.
Proof.
  intros Ha Hb He. apply Z.lxor_eq. apply (crc_bits_zero n); [by apply lxor_word|].
  by rewrite crc_bits_linear, He, Z.lxor_nilpotent.
Qed.

(** Bytes. *)
Lemma crc_byte_bits c b : crc_byte c b = crc_bits 8 (Z.lxor c b).
Proof. reflexivity. Qed.

(** Stated for any function, so that no conversion unfolds [crc_byte]. *)
Lemma fold_left_cons {A B} (f : A -> B -> A) x l c :
  fold_left f (x :: l) c = fold_left f l (f c x).
Proof. reflexivity. Qed.

Lemma crc_byte_word c b : word c -> byte b -> word (crc_byte c b).
Proof.
  intros Hc Hb. rewrite crc_byte_bits. apply crc_bits_word, lxor_word; [done|].
  unfold byte, word in *. lia.
Qed.

Lemma crc_fold_word l c : Forall byte l -> word c -> word (fold_left crc_byte l c).
Proof.
  intros Hl. revert c. induction Hl as [|x l Hx Hl IH]; intros c Hc; [done|].
  rewrite fold_left_cons. auto using crc_byte_word.
Qed.

(** The bytes of [l] are folded in as one number. *)
Lemma crc_fold_val l c :
  Forall byte l -> fold_left crc_byte l c = crc_bits (8 * length l) (Z.lxor c (le_val l)).
Proof.
  intros Hl. revert c. induction Hl as [|x l Hx Hl IH]; intros c; [by rewrite Z.lxor_0_r|].
  rewrite fold_left_cons, IH, crc_byte_bits.
  rewrite <- (crc_bits_shift 8 (le_val l)) at 1. rewrite <- crc_bits_linear, <- Nat.iter_add.
  f_equal; [simpl; lia|]. rewrite Z.lxor_assoc. f_equal. cbn [le_val].
  change (2 ^ Z.of_nat 8) with (2 ^ 8). rewrite (Z.mul_comm 256), Z.add_comm.
  change 256 with (2 ^ 8). rewrite Z.lxor_comm. apply lxor_add_disjoint; unfold byte in Hx; lia.
Qed.

Lemma crc_fold_inj l a b :
  Forall byte l -> word a -> word b -> fold_left crc_byte l a = fold_left crc_byte l b -> a = b.
Proof.
  intros Hl. revert a b. induction Hl as [|x l Hx Hl IH]; intros a b Ha Hb He; [done|].
  rewrite !fold_left_cons in He. assert (Hw : word x) by (unfold byte, word in *; lia).
  apply IH in He; [|by apply crc_byte_word..]. rewrite !crc_byte_bits in He.
  apply crc_bits_inj in He; [|by apply lxor_word..].
  apply (f_equal (fun z => Z.lxor z x)) in He.
  by rewrite !Z.lxor_assoc, Z.lxor_nilpotent, !Z.lxor_0_r in He.
Qed.

Lemma crc32_inj x y : word x -> word y -> u32 (Z.lnot x) = u32 (Z.lnot y) -> x = y.
Proof.
  unfold word, u32, Z.lnot. intros Hx Hy He.
  rewrite <- (Z.mod_add (Z.pred (- x)) 1), <- (Z.mod_add (Z.pred (- y)) 1) in He by lia.
  rewrite !Z.mod_small in He by lia. lia.
Qed.

Lemma le_val_word l : Forall byte l -> (length l <= 4)%nat -> word (le_val l).
Proof.
  intros Hf Hn. pose proof (le_val_bound l Hf). unfold word.
  assert (256 ^ zlen l <= 256 ^ 4) by (apply Z.pow_le_mono_r; lia). lia.
Qed.

(** C32 The checksum of partition tables detects every burst: two byte
    sequences that differ in at most four adjacent bytes have different
    CRC-32 values. *)
Theorem crc32_detects_burst l1 a b l2 :
  Forall byte (l1 ++ a ++ l2) -> Forall byte b -> length a = length b -> (length a <= 4)%nat ->
  a <> b -> crc32 (l1 ++ a ++ l2) <> crc32 (l1 ++ b ++ l2).
Proof.
  rewrite !Forall_app. intros (H1 & Ha & H2) Hb Hl H4 Hne He. apply Hne.
  unfold crc32 in He. rewrite !fold_left_app in He.
  assert (Hc : word (fold_left crc_byte l1 0xFFFFFFFF)) by (apply crc_fold_word; [done | by split]).
  revert He Hc. generalize (fold_left crc_byte l1 0xFFFFFFFF). intros c He Hc.
  apply crc32_inj in He; [|by auto using crc_fold_word..].
  apply crc_fold_inj in He; [|by auto using crc_fold_word..].
  rewrite !crc_fold_val, Hl in He by done.
  apply crc_bits_inj in He; [|apply lxor_word; [done | apply le_val_word; [done | lia]]..].
  apply (f_equal (Z.lxor c)) in He.
  rewrite <- !Z.lxor_assoc, Z.lxor_nilpotent, !Z.lxor_0_l in He.
  rewrite <- (le_bytes_val a), <- (le_bytes_val b), Hl, He by done. done.
Qed.

(** The check value of the IEEE polynomial: "123456789". *)
Example crc32_check : crc32 [49; 50; 51; 52; 53; 54; 55; 56; 57] = 0xCBF43926.
Proof. reflexivity. Qed.

(** ** What a reader of the table checks *)

(** The header in the 512 bytes of a sector. *)
Definition gpt_decode (b : list Z) : GPTHeader := {|
  signature := slice 0 8 b; revision := load 4 8 b; header_size := load 4 12 b;
  header_crc32 := load 4 16 b; h_reserved := load 4 20 b; current_lba := load 8 24 b;
  backup_lba := load 8 32 b; first_usable_lba := load 8 40 b; last_usable_lba := load 8 48 b;
  disk_guid := slice 56 16 b; entries_lba := load 8 72 b; entries_count := load 4 80 b;
  entry_size := load 4 84 b; entries_crc32 := load 4 88 b
|}.

(** The array of entries a header points at. *)
Definition gpt_array (img : Z -> list Z) (h : GPTHeader) : list Z :=
  let n := entries_count h * entry_size h in
  take (Z.to_nat n) (mjoin (img <$> seqZ (entries_lba h) ((n + 511) / 512))).

(** UEFI's conditions on the header at [lba] of a disk: signature, own
    address, the checksum of the header with its own field zeroed, the
    checksum of the array. *)
Definition gpt_valid (img : Z -> list Z) (lba : Z) : bool :=
  let h := gpt_decode (img lba) in
  bool_decide (signature h = GPT_SIGNATURE) && (header_size h =? 92) && (current_lba h =? lba) &&
  (crc32 (store 4 16 0 (slice 0 (header_size h) (img lba))) =? header_crc32 h) &&
  (crc32 (gpt_array img h) =? entries_crc32 h).

Record gpt_ranges (h : GPTHeader) : Prop := {
  gr_sig : length (signature h) = 8%nat; gr_guid : length (disk_guid h) = 16%nat;
  gr_rev : fits 4 (revision h); gr_size : fits 4 (header_size h); gr_crc : fits 4 (header_crc32 h);
  gr_res : fits 4 (h_reserved h); gr_cur : fits 8 (current_lba h); gr_bak : fits 8 (backup_lba h);
  gr_first : fits 8 (first_usable_lba h); gr_last : fits 8 (last_usable_lba h);
  gr_ents : fits 8 (entries_lba h); gr_count : fits 4 (entries_count h);
  gr_esize : fits 4 (entry_size h); gr_ecrc : fits 4 (entries_crc32 h)
}.

Lemma length_gpt_encode h : gpt_ranges h -> length (gpt_encode h) = 92%nat.
Proof.
  intros [H1 H2]. unfold gpt_encode. rewrite !length_app, !length_le_bytes, H1, H2. done.
Qed.

Lemma gpt_decode_encode h k : gpt_ranges h -> gpt_decode (gpt_encode h ++ k) = h.
Proof.
  intros []. destruct h as [f1 f2 f3 f4 f5 f6 f7 f8 f9 f10 f11 f12 f13 f14]; cbn [signature revision header_size header_crc32 h_reserved current_lba
    backup_lba first_usable_lba last_usable_lba disk_guid entries_lba entries_count entry_size
    entries_crc32] in *.
  unfold gpt_decode, gpt_encode. cbn [signature revision header_size header_crc32 h_reserved
    current_lba backup_lba first_usable_lba last_usable_lba disk_guid entries_lba entries_count
    entry_size entries_crc32]. rewrite <- !app_assoc. f_equal; field_at.
Qed.

(** Zeroing the checksum field of the image. *)
Lemma gpt_encode_zero h c : gpt_ranges h -> store 4 16 0 (gpt_encode (set_crc c h)) = gpt_encode (set_crc 0 h).
Proof.
  intros [H1 H2]. unfold store, splice, gpt_encode, set_crc.
  cbn [signature revision header_size header_crc32 h_reserved current_lba
    backup_lba first_usable_lba last_usable_lba disk_guid entries_lba entries_count entry_size
    entries_crc32].
  revert H1. generalize (signature h). intros sg H1.
  do 9 (destruct sg as [|? sg]; try discriminate). reflexivity.
Qed.

Record gpe_ranges (e : GPTPartitionEntry) : Prop := {
  er_type : length (type_guid e) = 16%nat; er_uniq : length (unique_guid e) = 16%nat;
  er_start : fits 8 (start_lba e); er_end : fits 8 (end_lba e); er_attr : fits 8 (attributes e);
  er_name : length (gpe_name e) = 72%nat
}.

Lemma length_gpe_encode e : gpe_ranges e -> length (gpe_encode e) = 128%nat.
Proof.
  intros [H1 H2 _ _ _ H3]. unfold gpe_encode.
  rewrite !length_app, !length_le_bytes, H1, H2, H3. done.
Qed.

Lemma gpe_decode_encode e : gpe_ranges e -> gpe_decode (gpe_encode e) = e.
Proof.
  rewrite <- (app_nil_r (gpe_encode e)).
  intros []. destruct e as [f1 f2 f3 f4 f5 f6]; cbn [type_guid unique_guid start_lba end_lba attributes gpe_name] in *.
  unfold gpe_decode, gpe_encode.
  cbn [type_guid unique_guid start_lba end_lba attributes gpe_name].
  rewrite <- !app_assoc. f_equal; field_at.
Qed.

Lemma utf16_length name : length (utf16_name name) = 72%nat.
Proof.
  unfold utf16_name. rewrite length_app, length_replicate.
  assert (Hj : forall l : list Z, length (mjoin ((fun c => [c; 0]) <$> l)) = (2 * length l)%nat).
  { induction l as [|c l IH]; [done|]. csimpl. rewrite IH. lia. }
  rewrite Hj, length_take. lia.
Qed.

(** ** The current disk as a function of the sector number *)

(** [img] with [n] sectors from [lba] replaced by the bytes [buf]. *)
Definition over (lba n : Z) (buf : list Z) (img : Z -> list Z) (l : Z) : list Z :=
  if (lba <=? l) && (l <? lba + n) then slice ((l - lba) * 512) 512 buf else img l.

Lemma over_in lba n buf img l :
  lba <= l < lba + n -> over lba n buf img l = slice ((l - lba) * 512) 512 buf.
Proof. intros. unfold over. case_if; [done | lia]. Qed.

Lemma over_out lba n buf img l : l < lba \/ lba + n <= l -> over lba n buf img l = img l.
Proof. intros. unfold over. case_if; [lia | done]. Qed.

Lemma over_one lba buf img : zlen buf = 512 -> over lba 1 buf img lba = buf.
Proof. intros. rewrite over_in, Z.sub_diag by lia. by apply slice_all. Qed.

(** Reading [n] sectors of an image. *)
Definition span (img : Z -> list Z) (lba n : Z) : list Z := mjoin (img <$> seqZ lba n).

Lemma span_ext img img' lba n :
  (forall l, lba <= l < lba + n -> img' l = img l) -> span img' lba n = span img lba n.
Proof.
  intros Heq. unfold span. f_equal. apply list_fmap_ext.
  intros i l Hl%lookup_seqZ. apply Heq. lia.
Qed.

Lemma span_cons img lba n : 0 < n -> span img lba n = img lba ++ span img (lba + 1) (n - 1).
Proof.
  intros. unfold span. rewrite seqZ_cons by done. simpl.
  by rewrite <- Z.add_1_r, <- Z.sub_1_r.
Qed.

Lemma span_over lba n buf img : 0 <= n -> zlen buf = n * 512 -> span (over lba n buf img) lba n = buf.
Proof.
  intros Hn. revert lba buf img. pattern n. apply natlike_ind; [| |done].
  - intros lba buf img Hl. destruct buf; [done | simpl in Hl; lia].
  - intros x Hx IH lba buf img Hl. rewrite span_cons by lia.
    rewrite over_in by lia. rewrite <- (take_drop 512 buf) at 3. f_equal.
    + rewrite Z.sub_diag. reflexivity.
    + replace (Z.succ x - 1) with x by lia. transitivity (span (over (lba + 1) x (drop 512 buf) img) (lba + 1) x);
        [|apply IH; rewrite length_drop; lia].
      apply span_ext. intros l Hr. rewrite !over_in by lia. unfold slice.
      rewrite drop_drop. do 2 f_equal. lia.
Qed.

Section on_disk.
Context {E : Type} `{BlockDevLaws E}.
Abbreviation fs := (fat_state E).

(** A run from [s0] that has made the current disk [img] and touched nothing
    else but the number of heap blocks. *)
Record on_disk (s0 s : fs) (img : Z -> list Z) : Prop := {
  od_sector : forall l, sector (dev s) (disk_no s) l = img l;
  od_other : forall d l, d <> disk_no s0 -> sector (dev s) d l = sector (dev s0) d l;
  od_cap : forall d, capacity (dev s) d = capacity (dev s0) d;
  od_rel : reliable (dev s);
  od_glob : globals s = globals (set_live (live s) s0)
}.

Lemma on_disk_start s : reliable (dev s) -> on_disk s s (sector (dev s) (disk_no s)).
Proof. by constructor. Qed.

Lemma on_disk_no s0 s img : on_disk s0 s img -> disk_no s = disk_no s0.
Proof. intros [_ _ _ _ Hg]. unfold globals in Hg. simpl in Hg. congruence. Qed.

Lemma on_disk_write s0 s img lba n buf (Q : bool -> fs -> Prop) :
  on_disk s0 s img -> 0 <= lba -> 0 < n -> lba + n <= capacity (dev s0) (disk_no s0) ->
  Forall byte buf -> n * 512 <= zlen buf ->
  (forall s', on_disk s0 s' (over lba n buf img) -> Q true s') ->
  wp (disk_write lba n (Some buf)) Q s.
Proof.
  intros Ho Hl Hn Hc Hb Hz HQ. pose proof (on_disk_no _ _ _ Ho) as Hd. destruct Ho as [Hs Hx Hcap Hr Hg].
  change (disk_write lba n (Some buf)) with (fat32_write_sectors (E:=E) lba n (Some buf)).
  apply write_sectors_spec; [done.. | by rewrite Hcap, Hd | done | done |].
  intros s' (Hout & Hin & Hc' & Hr' & Hg'). pose proof (globals_disk _ _ Hg') as Hd'.
  apply HQ. constructor.
  - intros l. rewrite Hd'. unfold over. case_if.
    + replace l with (lba + (l - lba)) at 1 by lia. apply Hin. lia.
    + rewrite Hout, Hs by lia. done.
  - intros d l Hne. rewrite Hout, Hx by (done || left; congruence). done.
  - intros d. by rewrite Hc', Hcap.
  - done.
  - unfold globals in *. simpl in *. congruence.
Qed.

(** A write anywhere, past the end of the disk too, whatever its result. *)
Lemma on_disk_any_write s0 s img lba n buf (Q : bool -> fs -> Prop) :
  on_disk s0 s img -> n * 512 <= zlen buf ->
  (forall r s' img', on_disk s0 s' img' -> (forall l, l < lba \/ lba + n <= l -> img' l = img l) -> Q r s') ->
  wp (disk_write lba n (Some buf)) Q s.
Proof.
  intros Ho Hz HQ. pose proof (on_disk_no _ _ _ Ho) as Hd. destruct Ho as [Hs Hx Hcap Hr Hg].
  unfold wp, disk_write. rewrite (proj2 (Z.ltb_ge _ _)) by lia.
  destruct (kebla_disk_write (disk_no s) lba n buf (dev s)) as [r e] eqn:Hk.
  destruct (write_frame _ _ _ _ _ _ _ Hk) as (Hf & Hc & Hrel).
  apply (HQ r _ (sector e (disk_no s))); [constructor|]; cbn [dev set_dev disk_no].
  - done.
  - intros d l Hne. rewrite Hf, Hx by (done || left; congruence). done.
  - intros d. by rewrite Hc, Hcap.
  - by apply Hrel.
  - unfold globals in *. simpl in *. congruence.
  - intros l Hl. rewrite Hf, Hs by tauto. done.
Qed.

Lemma on_disk_read s0 s img lba n (Q : option (list Z) -> fs -> Prop) :
  on_disk s0 s img -> 0 <= lba -> 0 < n -> lba + n <= capacity (dev s0) (disk_no s0) ->
  (forall s', on_disk s0 s' img -> Q (Some (span img lba n)) s') ->
  wp (disk_read lba n true) Q s.
Proof.
  intros Ho Hl Hn Hc HQ. pose proof (on_disk_no _ _ _ Ho) as Hd. destruct Ho as [Hs Hx Hcap Hr Hg].
  unfold disk_read, wp. cbn [negb].
  destruct (read_total (dev s) (disk_no s) lba n Hr Hl Hn) as [data Hd']; [by rewrite Hcap, Hd|].
  destruct (kebla_disk_read (disk_no s) lba n (dev s)) as [r e] eqn:Hk. simpl in Hd'. subst r.
  rewrite (read_data _ _ _ _ _ _ Hk) by lia.
  replace (mjoin _) with (span img lba n).
  - destruct (read_frame _ _ _ _ _ _ Hk) as (Hs' & Hc' & Hr'). apply HQ. constructor; simpl; auto.
    + intros l. by rewrite Hs', Hs.
    + intros d l Hne. by rewrite Hs', Hx.
    + intros d. by rewrite Hc', Hcap.
  - unfold span. f_equal. apply list_fmap_ext. intros. by rewrite Hs.
Qed.

Lemma on_disk_malloc s0 s img n (Q : bool -> fs -> Prop) :
  on_disk s0 s img -> 0 < n -> (forall s', on_disk s0 s' img -> Q true s') -> wp (fs_malloc n) Q s.
Proof.
  intros [Hs Hx Hcap Hr Hg] Hn HQ. apply malloc_spec; [done | done|].
  intros s' (Hs' & Hc' & Hr') Hg'. assert (Hd : disk_no s' = disk_no s) by
    (unfold globals in Hg'; simpl in Hg'; congruence).
  apply HQ. constructor; auto.
  - intros l. by rewrite Hd, Hs', Hs.
  - intros d l Hne. by rewrite Hs', Hx.
  - intros d. by rewrite Hc', Hcap.
  - unfold globals in *. simpl in *. congruence.
Qed.
End on_disk.

(** ** Writing the table *)

Lemma crc32_fits l : fits 4 (crc32 l).
Proof. unfold crc32, u32, fits. apply Z.mod_pos_bound. lia. Qed.

Lemma set_crc_ranges h l : gpt_ranges h -> gpt_ranges (set_crc (crc32 l) h).
Proof. intros []. constructor; try done; apply crc32_fits. Qed.

Lemma gpt_valid_image img lba h k :
  img lba = gpt_encode (set_crc (crc32 (gpt_encode h)) h) ++ k ->
  gpt_ranges h -> header_crc32 h = 0 -> signature h = GPT_SIGNATURE -> header_size h = 92 ->
  current_lba h = lba -> crc32 (gpt_array img h) = entries_crc32 h -> gpt_valid img lba = true.
Proof.
  intros Hi Hr Hz Hs Hn Hc Ha. unfold gpt_valid. set (c := crc32 (gpt_encode h)) in *.
  assert (Hr' : gpt_ranges (set_crc c h)) by by apply set_crc_ranges.
  rewrite Hi, gpt_decode_encode by done. cbn [set_crc signature header_size current_lba entries_crc32 header_crc32].
  rewrite slice_app_exact by (rewrite length_gpt_encode; done).
  rewrite gpt_encode_zero by done. replace (set_crc 0 h) with h by (rewrite <- Hz; by destruct h).
  replace (gpt_array img (set_crc c h)) with (gpt_array img h) by reflexivity.
  rewrite bool_decide_eq_true_2, Hn, Hc, Ha by done. unfold c. by rewrite !Z.eqb_refl.
Qed.

(** [img'] is [img] with a table for a disk of [tot] sectors: two valid
    headers that point at each other, two copies of the entries, and no
    other sector changed. *)
Record table_on (img img' : Z -> list Z) (tot : Z) (entries : list Z) : Prop := {
  tb_primary : gpt_valid img' 1 = true;
  tb_backup : gpt_valid img' (tot - 1) = true;
  tb_link : backup_lba (gpt_decode (img' 1)) = tot - 1 /\ backup_lba (gpt_decode (img' (tot - 1))) = 1;
  tb_entries : span img' 2 32 = entries;
  tb_copy : span img' (tot - 33) 32 = entries;
  tb_frame : forall l, l < 1 \/ 34 <= l < tot - 33 \/ tot <= l -> img' l = img l
}.

Lemma gpt_header_ranges tot guid cur bak ents l :
  128 <= tot < 2 ^ 64 -> length guid = 16%nat -> fits 8 cur -> fits 8 bak -> fits 8 ents ->
  gpt_ranges (gpt_header tot guid cur bak ents (crc32 l)).
Proof.
  intros Ht Hg Hc Hb He. pose proof (crc32_fits l).
  constructor; cbn [gpt_header signature disk_guid revision header_size header_crc32 h_reserved
    current_lba backup_lba first_usable_lba last_usable_lba entries_lba entries_count entry_size
    entries_crc32]; try done.
  unfold fits, u64. apply Z.mod_pos_bound. lia.
Qed.

Lemma gpt_array_header img tot guid cur bak ents crc :
  zlen (span img ents 32) = 16384 ->
  gpt_array img (gpt_header tot guid cur bak ents crc) = span img ents 32.
Proof.
  intros Hl. unfold gpt_array. cbn [gpt_header entries_count entry_size entries_lba].
  apply take_ge. change (GPT_ENTRIES_COUNT * GPT_ENTRY_SIZE) with 16384.
  change ((16384 + 511) / 512) with 32. lia.
Qed.

Lemma gpt_image_byte h k : Forall byte (signature h) ->
  Forall byte (disk_guid h) -> Forall byte k -> Forall byte (gpt_encode h ++ k).
Proof.
  intros. unfold gpt_encode. repeat apply Forall_app_2; auto with machine.
Qed.

Lemma backup_entries_lba tot : 128 <= tot < 2 ^ 64 ->
  u64 (tot - (GPT_ENTRIES_COUNT * GPT_ENTRY_SIZE + 512 - 1) / 512 - 1) = tot - 33.
Proof.
  intros. change ((GPT_ENTRIES_COUNT * GPT_ENTRY_SIZE + 512 - 1) / 512) with 32.
  unfold u64. rewrite Z.mod_small by lia. lia.
Qed.

(** The header with its checksum filled in, in a sector that ends in [k]. *)
Definition sealed (h : GPTHeader) (k : list Z) : list Z :=
  gpt_encode (set_crc (crc32 (gpt_encode h)) h) ++ k.

Lemma sealed_sector h k :
  gpt_ranges h -> Forall byte (signature h) -> Forall byte (disk_guid h) ->
  zlen k = 420 -> Forall byte k -> zlen (sealed h k) = 512 /\ Forall byte (sealed h k).
Proof.
  intros Hr Hs Hg Hk Hb. split.
  - unfold sealed. rewrite length_app, length_gpt_encode by (by apply set_crc_ranges). lia.
  - by apply gpt_image_byte.
Qed.

(** The two headers of [create_gpt_header]. *)
Definition primary_header (tot : Z) (entries : list Z) : GPTHeader :=
  gpt_header tot DISK_GUID_EXAMPLE 1 (tot - 1) 2 (crc32 entries).
Definition backup_header (tot : Z) (entries : list Z) : GPTHeader :=
  gpt_header tot DISK_GUID_EXAMPLE (tot - 1) 1 (tot - 33) (crc32 entries).

Lemma headers_ranges tot entries : 128 <= tot < 2 ^ 64 ->
  gpt_ranges (primary_header tot entries) /\ gpt_ranges (backup_header tot entries).
Proof. intros. split; apply gpt_header_ranges; unfold fits; done || lia. Qed.

Lemma guid_example_byte : Forall byte DISK_GUID_EXAMPLE.
Proof. repeat constructor; done. Qed.
Lemma signature_byte : Forall byte GPT_SIGNATURE.
Proof. repeat constructor; done. Qed.
#[local] Hint Resolve guid_example_byte signature_byte : machine.

(** The disk after the four writes of [write_table]. *)
Definition table_image (tot : Z) (entries k1 k2 : list Z) (img : Z -> list Z) : Z -> list Z :=
  over (tot - 1) 1 (sealed (backup_header tot entries) k2)
    (over 1 1 (sealed (primary_header tot entries) k1)
      (over (tot - 33) 32 entries (over 2 32 entries img))).

Lemma table_image_ok tot entries k1 k2 img :
  128 <= tot < 2 ^ 64 -> zlen entries = 16384 ->
  zlen k1 = 420 -> Forall byte k1 -> zlen k2 = 420 -> Forall byte k2 ->
  table_on img (table_image tot entries k1 k2 img) tot entries.
Proof.
  intros Ht Hl Hk1 Hb1 Hk2 Hb2. set (img' := table_image _ _ _ _ _).
  destruct (headers_ranges tot entries Ht) as [Hp Hb].
  assert (Hi1 : img' 1 = sealed (primary_header tot entries) k1).
  { unfold img', table_image. rewrite over_out by lia. apply over_one, sealed_sector; auto with machine. }
  assert (Hi2 : img' (tot - 1) = sealed (backup_header tot entries) k2).
  { apply over_one, sealed_sector; auto with machine. }
  assert (He : span img' 2 32 = entries).
  { rewrite <- (span_over 2 32 entries img) by lia. apply span_ext. intros l Hr.
    unfold img', table_image. by rewrite !(over_out _ _ _ _ l) by lia. }
  assert (He' : span img' (tot - 33) 32 = entries).
  { rewrite <- (span_over (tot - 33) 32 entries (over 2 32 entries img)) by lia. apply span_ext.
    intros l Hr. unfold img', table_image.
    rewrite (over_out (tot - 1)), (over_out 1) by lia. done. }
  constructor; [ | | | done | done | ].
  - eapply gpt_valid_image; [exact Hi1 | done.. |].
    unfold primary_header. rewrite gpt_array_header; by rewrite He.
  - eapply gpt_valid_image; [exact Hi2 | done.. |].
    unfold backup_header. rewrite gpt_array_header; by rewrite He'.
  - rewrite Hi1, Hi2. unfold sealed. by rewrite !gpt_decode_encode by (by apply set_crc_ranges).
  - intros l Hr. unfold img', table_image. by rewrite !over_out by lia.
Qed.

Section tables.
Context {E : Type} `{BlockDevLaws E}.
Abbreviation fs := (fat_state E).

Lemma write_table_spec (s0 s : fs) img tot entries behind (Q : bool -> fs -> Prop) :
  on_disk s0 s img -> 128 <= tot < 2 ^ 64 -> tot <= capacity (dev s0) (disk_no s0) ->
  zlen entries = 16384 -> Forall byte entries -> zlen behind = 420 -> Forall byte behind ->
  (forall s' img', on_disk s0 s' img' -> table_on img img' tot entries -> Q true s') ->
  wp (write_table tot entries behind) Q s.
Proof.
  intros Ho Ht Hcap Hl Hb Hbl Hbb HQ. unfold write_table, create_gpt_header. cbv zeta.
  destruct (Z.ltb_spec tot 128); [lia|].
  destruct (headers_ranges tot entries Ht) as [Hrp Hrb].
  replace (u64 (tot - 1)) with (tot - 1) by (unfold u64; rewrite Z.mod_small; lia).
  change ((GPT_ENTRIES_COUNT * 128 + 512 - 1) / 512)
    with ((GPT_ENTRIES_COUNT * GPT_ENTRY_SIZE + 512 - 1) / 512).
  rewrite !backup_entries_lba by done.
  rewrite take_ge by (change (GPT_ENTRIES_COUNT * GPT_ENTRY_SIZE) with 16384; lia).
  change ((GPT_ENTRIES_COUNT * GPT_ENTRY_SIZE + 512 - 1) / 512) with 32.
  destruct (sealed_sector _ (replicate 420 0) Hrp) as [Hz1 Hf1]; auto using zeros_byte with machine.
  destruct (sealed_sector _ behind Hrb) as [Hz2 Hf2]; auto with machine.
  apply wp_bind. eapply on_disk_write; [exact Ho | done | lia | unfold GPT_ENTRIES_START_LBA; lia
    | done | lia |]. clear s Ho. intros s Ho. cbn [negb].
  apply wp_bind. eapply on_disk_write; [exact Ho | lia | lia | lia | done | lia |].
  clear s Ho. intros s Ho. cbn [negb].
  apply wp_bind. eapply on_disk_write; [exact Ho | done | lia | unfold GPT_HEADER_LBA; lia
    | exact Hf1 | exact (Z.eq_le_incl _ _ (eq_sym Hz1)) |]. clear s Ho. intros s Ho. cbn [negb].
  apply wp_bind. eapply on_disk_write; [exact Ho | lia | lia | lia | exact Hf2 | exact (Z.eq_le_incl _ _ (eq_sym Hz2)) |].
  clear s Ho. intros s Ho. cbn [negb]. apply wp_ret.
  eapply HQ; [exact Ho|].
  exact (table_image_ok tot entries (replicate 420 0) behind img Ht Hl eq_refl (zeros_byte 420) Hbl Hbb).
Qed.

Lemma wp_on_fs {A} (k : M fs A) (Q : A -> part_state E -> Prop) s :
  wp k (fun a f => Q a (mk_ps f (total_sectors s) (partitions s) (partition_count s))) (pfs s) ->
  wp (on_fs k) Q s.
Proof.
  unfold wp, on_fs, obind. by destruct (k (pfs s)) as [[a f]| | |].
Qed.

Lemma wp_upd_partition i f l (Q : unit -> part_state E -> Prop) s :
  partitions s = Some l -> 0 <= i < zlen l ->
  Q tt (set_partitions (Some (alter f (Z.to_nat i) l)) s) -> wp (upd_partition i f) Q s.
Proof.
  intros Hp Hi HQ. unfold wp, upd_partition. rewrite Hp. by case_if; [|lia].
Qed.
(** With [total_sectors] still 0 only the primary entries are written: the
    place computed for the copy is past the end of the disk, and no header is
    made for a disk of less than 128 sectors. *)
Lemma write_table_unset (s0 s : fs) img entries behind (Q : bool -> fs -> Prop) :
  on_disk s0 s img -> 34 <= capacity (dev s0) (disk_no s0) < 2 ^ 63 ->
  zlen entries = 16384 -> Forall byte entries ->
  (forall s' img', on_disk s0 s' img' -> span img' 2 32 = entries ->
     (forall l, l < 2 \/ 34 <= l < capacity (dev s0) (disk_no s0) -> img' l = img l) -> Q false s') ->
  wp (write_table 0 entries behind) Q s.
Proof.
  intros Ho Hcap Hl Hb HQ. unfold write_table. change ((GPT_ENTRIES_COUNT * GPT_ENTRY_SIZE + 512 - 1) / 512) with 32.
  change GPT_ENTRIES_START_LBA with 2.
  apply wp_bind. eapply on_disk_write; [exact Ho | lia | lia | lia | done | lia |]. clear s Ho. intros s Ho. cbn [negb].
  change (u64 (0 - 32 - 1)) with 18446744073709551583.
  apply wp_bind. eapply on_disk_any_write; [exact Ho | lia|]. clear s Ho. intros r s img' Ho Hf.
  assert (Hq : Q false s).
  { apply (HQ s img' Ho).
    - rewrite <- (span_over 2 32 entries img) by lia. apply span_ext. intros l Hr. apply Hf. lia.
    - intros l Hr. rewrite Hf by lia. by rewrite over_out by lia. }
  destruct r; cbn [negb]; apply wp_ret || exact Hq; exact Hq.
Qed.
End tables.

(** What callers pass: 64-bit positions, 16-byte GUIDs, a name. *)
Record part_args (start : Z) (guid tguid name : list Z) : Prop := {
  pa_start : 0 <= start < 2 ^ 64;
  pa_guid : length guid = 16%nat /\ Forall byte guid;
  pa_type : length tguid = 16%nat /\ Forall byte tguid;
  pa_name : Forall byte name
}.

Definition new_entry (start sectors : Z) (guid tguid name : list Z) : GPTPartitionEntry :=
  mk_gpe tguid guid start (u64 (start + sectors - 1)) 0 (utf16_name name).

Lemma utf16_byte name : Forall byte name -> Forall byte (utf16_name name).
Proof.
  intros Hn. unfold utf16_name. apply Forall_app_2; [|apply zeros_byte].
  apply Forall_join, Forall_fmap, Forall_take. eapply Forall_impl; [exact Hn|].
  intros c Hc. repeat constructor; done || apply Hc.
Qed.

Lemma entry_ok tguid guid start end_ attr name :
  length guid = 16%nat /\ Forall byte guid -> length tguid = 16%nat /\ Forall byte tguid ->
  fits 8 start -> fits 8 end_ -> fits 8 attr -> Forall byte name ->
  let e := mk_gpe tguid guid start end_ attr (utf16_name name) in
  gpe_ranges e /\ Forall byte (gpe_encode e).
Proof.
  intros [Hg Hgb] [Ht Htb] Hs He Ha Hn e. split.
  - constructor; try done. apply utf16_length.
  - unfold gpe_encode, e. cbn [type_guid unique_guid start_lba end_lba attributes gpe_name].
    rewrite !Forall_app. auto 10 using utf16_byte with machine.
Qed.

(** The state of the manager: at most four entries are in use, and the array,
    once allocated, has four. *)
Definition manager_wf {E} (s : part_state E) : Prop :=
  0 <= partition_count s /\
  match partitions s with Some l => length l = 4%nat | None => True end.

Lemma mbr_sector n : zlen (create_protective_mbr n) = 512 /\ Forall byte (create_protective_mbr n).
Proof.
  unfold create_protective_mbr, mbr_part_encode. split; [done|].
  cbn [mp_status mp_chs_start mp_type mp_chs_end mp_lba_start mp_sector_count].
  repeat apply Forall_app_2; auto using zeros_byte with machine; repeat constructor; done.
Qed.

Section manager_specs.
Context {E : Type} `{BlockDevLaws E}.
Abbreviation ps := (part_state E).
Implicit Types s : ps.

(** The current disk. *)
Definition disk_of (f : fat_state E) : Z -> list Z := sector (dev f) (disk_no f).

Lemma span_disk (f : fat_state E) lba n : 0 <= n ->
  zlen (span (disk_of f) lba n) = n * 512 /\ Forall byte (span (disk_of f) lba n).
Proof. intros. split; [by apply length_sectors | apply sectors_byte]. Qed.

(** C7 Creating a partition on a working disk succeeds.  Sector 0 holds a
    protective master boot record, sectors 2 to 33 the old entries with the
    new one in the next free place, whose fields read back as they were
    passed; sectors [sectors - 33] to [sectors - 2] a copy of them, and
    sectors 1 and [sectors - 1] two headers that pass a reader's checks
    (signature, address, both checksums) and name each other; no other sector
    of any disk changes.  [sectors] is the size of the partition where the
    format wants that of the disk: unless they are equal the last sector of
    the disk gets no header, and a partition that starts below the copy has
    the copy and its header inside it, over what was there.  The manager
    counts one more partition and describes it in its array. *)
Theorem create_partition_ok s pdrv start sectors guid tguid name behind :
  reliable (dev (pfs s)) -> manager_wf s -> partition_count s < 4 ->
  part_args start guid tguid name -> 128 <= sectors < 2 ^ 64 ->
  let cap := capacity (dev (pfs s)) (disk_no (pfs s)) in
  sectors <= cap ->
  zlen behind = 420 -> Forall byte behind ->
  let k := partition_count s in
  let e := new_entry start sectors guid tguid name in
  let img := disk_of (pfs s) in
  returns (create_partition pdrv start sectors guid tguid name behind) s true (fun s' =>
    (exists img', on_disk (pfs s) (pfs s') img' /\
       img' 0 = create_protective_mbr sectors /\
       table_on (over 0 1 (create_protective_mbr sectors) img) img' sectors
         (splice (k * 128) (gpe_encode e) (span img 2 32)) /\
       gpe_decode (slice (k * 128) 128 (span img' 2 32)) = e /\
       (sectors <> cap -> img' (cap - 1) = img (cap - 1)) /\
       (start <= sectors - 33 -> start + sectors <= 2 ^ 64 ->
        forall l, sectors - 33 <= l < sectors -> start_lba e <= l <= end_lba e)) /\
    manager_wf s' /\ partition_count s' = k + 1 /\
    (partitions s' ≫= lookup (Z.to_nat k)) = Some (mk_part pdrv k start sectors guid tguid e)).
Proof.
  intros Hr [Hk Hp] Hlt [Hs Hg Ht Hn] Hsec cap Hcap Hbl Hbb k e img. apply wp_returns.
  destruct (entry_ok tguid guid start (u64 (start + sectors - 1)) 0 name Hg Ht) as [He Heb];
    [done | unfold fits, u64; apply Z.mod_pos_bound; lia | done | done |].
  destruct (mbr_sector sectors) as [Hml Hmb].
  destruct (span_disk (pfs s) 2 32) as [Hl Hb]; [lia|].
  change (gpe_ranges e) in He. fold img in Hl, Hb.
  unfold create_partition. wp_steps. apply wp_on_fs.
  eapply on_disk_malloc; [exact (on_disk_start (pfs s) Hr) | done|]. intros f Ho. wp_steps. apply wp_on_fs.
  eapply on_disk_write; [exact Ho | lia | lia | lia | done | rewrite Hml; lia |].
  intros f' Ho'. cbn [negb]. wp_steps.
  apply (wp_mono _ (fun ok s1 => ok = true /\ exists f l, length l = 4%nat /\
    on_disk (pfs s) f (over 0 1 (create_protective_mbr sectors) img) /\
    s1 = mk_ps f sectors (Some l) k)).
  { cbn [partitions set_total pfs total_sectors partition_count].
    destruct (partitions s) as [l|] eqn:Hps; wp_steps; [split; [done|]; by exists f', l|].
    apply wp_on_fs. eapply on_disk_malloc; [exact Ho' | done|]. intros f2 Ho2. cbn [negb]. wp_steps.
    split; [done|]. by exists f2, (replicate (Z.to_nat MAX_PARTITIONS) part_zero). }
  clear Hp f f' Ho Ho'. intros ? s1 (-> & f & l & Hll & Ho & ->). cbn [negb].
  destruct (Z.leb_spec MAX_PARTITIONS (partition_count s)); [unfold MAX_PARTITIONS in *; lia|].
  wp_steps. eapply wp_upd_partition; [done | rewrite Hll; lia|].
  wp_steps. apply wp_on_fs.
  change ((GPT_ENTRIES_COUNT * GPT_ENTRY_SIZE + 512 - 1) / 512) with 32.
  eapply on_disk_read; [exact Ho | done | lia | unfold GPT_ENTRIES_START_LBA; lia |].
  intros f1 Ho1. wp_steps. apply wp_on_fs. unfold create_gpt_partition_entry.
  apply wp_bind. eapply on_disk_malloc; [exact Ho1 | done|]. intros f2 Ho2. cbn [negb].
  wp_steps. eapply wp_upd_partition; [done | rewrite length_alter, Hll; lia|].
  wp_steps. apply wp_on_fs.
  replace (span (over 0 1 (create_protective_mbr sectors) img) GPT_ENTRIES_START_LBA 32)
    with (span img 2 32)
    by (apply span_ext; unfold GPT_ENTRIES_START_LBA; intros; rewrite over_out by lia; done).
  fold (new_entry start sectors guid tguid name). fold e.
  eapply write_table_spec; [exact Ho2 | done | done | | | done | done |].
  { rewrite length_splice; rewrite ?length_gpe_encode by done; lia. }
  { by apply Forall_splice. }
  intros f3 img' Ho3 Htb. cbn [negb]. wp_steps. split; [done|].
  cbn [pfs partitions partition_count set_count set_partitions].
  split; [|split; [|split; [done|]]].
  - exists img'. split; [exact Ho3|]. split; [|split; [exact Htb|split; [|split]]].
    + rewrite (tb_frame _ _ _ _ Htb) by lia. by apply over_one.
    + rewrite (tb_entries _ _ _ _ Htb), slice_splice_eq;
        [by apply gpe_decode_encode | by rewrite length_gpe_encode | lia | lia].
    + intros Hla. rewrite (tb_frame _ _ _ _ Htb) by lia. by rewrite over_out by lia.
    + intros Hst Hend l' Hl'. unfold e, new_entry. cbn [start_lba end_lba]. rewrite u64_small by lia. lia.
  - split; cbn [pfs partitions partition_count set_count]; [lia | by rewrite !length_alter].
  - simpl. rewrite !list_lookup_alter_eq.
    destruct (lookup_lt_is_Some_2 l (Z.to_nat k)) as [p Hp]; [lia|]. unfold k in *. rewrite Hp.
    simpl. unfold u8. rewrite Z.mod_small by lia. done.
Qed.

(** C33 Changing entry [i] of the table: an index past the table and an
    entry that is not in use are refused and the disk keeps its contents.
    Otherwise the outcome depends on [total_sectors], which only
    create_partition sets.  Once a partition was created, both copies of the
    table, at the places create_partition uses, get the new position,
    attributes and name, the entry keeps its two GUIDs, and both headers are
    valid again.  Since the start of the system without one, [total_sectors]
    is 0: the call reports failure but has rewritten the entries in sectors 2
    to 33, while both headers, with the checksum of the old entries, and
    every other sector of the disk stay. *)
Theorem update_partition_ok s i new_start new_sectors new_name new_attributes behind :
  let cap := capacity (dev (pfs s)) (disk_no (pfs s)) in
  let tot := total_sectors s in
  reliable (dev (pfs s)) -> 0 <= i -> tot = 0 \/ 128 <= tot -> tot <= cap -> 34 <= cap < 2 ^ 63 ->
  fits 8 new_start -> fits 8 new_attributes -> Forall byte new_name ->
  zlen behind = 420 -> Forall byte behind ->
  let img := disk_of (pfs s) in
  let old := gpe_decode (slice (i * 128) 128 (span img 2 32)) in
  let e := mk_gpe (type_guid old) (unique_guid old) new_start (u64 (new_start + new_sectors - 1))
             new_attributes (utf16_name new_name) in
  let entries := splice (i * 128) (gpe_encode e) (span img 2 32) in
  let found := (i <? 128) && negb (forallb (fun b => b =? 0) (type_guid old)) in
  returns (update_partition i new_start new_sectors new_name new_attributes behind) s
    (found && negb (tot =? 0)) (fun s' =>
    exists img', on_disk (pfs s) (pfs s') img' /\
      (partitions s', partition_count s', total_sectors s') =
        (partitions s, partition_count s, total_sectors s) /\
      if negb found then img' = img
      else gpe_decode (slice (i * 128) 128 (span img' 2 32)) = e /\
        if tot =? 0 then span img' 2 32 = entries /\ (forall l, l < 2 \/ 34 <= l < cap -> img' l = img l)
        else table_on img img' tot entries).
Proof.
  intros cap tot Hr Hi Ht Htc Hcap Hns Hna Hnm Hbl Hbb img old e entries found. apply wp_returns.
  pose proof (on_disk_start (pfs s) Hr) as Ho. fold (disk_of (pfs s)) in Ho. fold img in Ho.
  destruct (span_disk (pfs s) 2 32) as [Hl Hb]; [lia|]. fold img in Hl, Hb.
  unfold update_partition, found. change GPT_ENTRIES_COUNT with 128 at 1.
  destruct (Z.leb_spec 128 i), (Z.ltb_spec i 128); try lia; cbn [andb negb].
  { wp_steps. split; [done|]. by exists img. }
  wp_steps. apply wp_on_fs. change ((GPT_ENTRIES_COUNT * GPT_ENTRY_SIZE + 512 - 1) / 512) with 32.
  eapply on_disk_read; [exact Ho | done | lia | unfold GPT_ENTRIES_START_LBA; lia |].
  intros f Ho1. cbv zeta. change GPT_ENTRIES_START_LBA with 2. fold old. fold e.
  destruct (forallb _ (type_guid old)); cbn [negb andb].
  { wp_steps. split; [done|]. exists img. by split; [exact Ho1 | split]. }
  assert (Hsl : forall o, 0 <= o <= 112 -> length (slice o 16 (slice (i * 128) 128 (span img 2 32))) = 16%nat /\
            Forall byte (slice o 16 (slice (i * 128) 128 (span img 2 32)))).
  { intros o Hoo. split; [rewrite !length_slice; rewrite ?length_slice; lia | by do 2 apply Forall_slice]. }
  destruct (entry_ok (type_guid old) (unique_guid old) new_start (u64 (new_start + new_sectors - 1))
              new_attributes new_name) as [He Heb];
    [by apply Hsl | by apply Hsl | done | unfold fits, u64; apply Z.mod_pos_bound; lia | done | done |].
  assert (Hel : zlen entries = 16384)
    by (unfold entries; rewrite length_splice; rewrite ?length_gpe_encode by done; lia).
  assert (Hed : gpe_decode (slice (i * 128) 128 entries) = e)
    by (unfold entries; rewrite slice_splice_eq;
      [by apply gpe_decode_encode | by rewrite length_gpe_encode | lia | lia]).
  wp_steps. apply wp_on_fs. fold tot entries. cbn [total_sectors]. destruct (Z.eqb_spec tot 0) as [Htz|Htz]; cbn [negb].
  - change (total_sectors s) with tot. rewrite Htz. eapply write_table_unset; [exact Ho1 | done | done | by apply Forall_splice |].
    intros f' img' Ho2 Hsp Hfr. split; [done|]. exists img'. split; [exact Ho2|]. split; [done|].
    by rewrite Hsp.
  - eapply write_table_spec; [exact Ho1 | | done | done | by apply Forall_splice | done | done |]; [lia|].
    intros f' img' Ho2 Htb. split; [done|]. exists img'. split; [exact Ho2|]. split; [done|].
    by rewrite (tb_entries _ _ _ _ Htb).
Qed.

(** Listing the partitions reads 16 KB into a block of 128 bytes: whenever
    the disk delivers the table, the behaviour is undefined. *)
Theorem get_partitions_overflows (f : fat_state E) pdrv :
  reliable (dev f) -> 34 <= capacity (dev f) (disk_no f) -> get_partitions pdrv f = Undef.
Proof.
  intros Hr Hc. unfold get_partitions, fs_malloc, disk_read, bind.
  pose proof (malloc_total (dev f) GPT_ENTRIES_COUNT Hr eq_refl) as Hm.
  destruct (malloc GPT_ENTRIES_COUNT (dev f)) as [ok e] eqn:Hk. simpl in Hm. subst ok.
  destruct (malloc_frame _ _ _ _ Hk) as (_ & Hc' & Hr'). cbn.
  destruct (read_total e (disk_no f) 2 32 (Hr' Hr)) as [data Hd]; [lia | lia | rewrite Hc'; lia |].
  destruct (kebla_disk_read (disk_no f) 2 32 e) as [r e'] eqn:Hk'. simpl in Hd. subst r.
  pose proof (read_data _ _ _ _ _ _ Hk' ltac:(lia) ltac:(lia)) as Hdata.
  pose proof (length_sectors e (disk_no f) 2 32 ltac:(lia)) as Hl. unfold sectors in Hl.
  rewrite <- Hdata in Hl.
  change ((GPT_ENTRIES_COUNT * GPT_ENTRY_SIZE + 512 - 1) / 512) with 32.
  change GPT_ENTRIES_START_LBA with 2. rewrite Hk'. cbn.
  change GPT_ENTRIES_COUNT with 128. destruct (Z.leb_spec (zlen data) 128); [lia | done].
Qed.
End manager_specs.

(** A generated GUID is 16 bytes with the version and variant of a random
    one. *)
Theorem generate_guid_v4 now1 now2 st :
  let guid := (generate_guid now1 now2 st).1 in
  length guid = 16%nat /\
  (exists b, guid !! 6%nat = Some b /\ Z.shiftr b 4 = 4) /\
  (exists b, guid !! 8%nat = Some b /\ Z.shiftr b 6 = 2).
Proof.
  intros guid. unfold guid, generate_guid. cbn -[mix_entropy byte_of Z.shiftr Z.lor Z.land].
  split; [done|]. split; eexists; (split; [done|]);
    rewrite Z.shiftr_lor, Z.shiftr_land; change (Z.shiftr 0x0F 4) with 0;
    change (Z.shiftr 0x3F 6) with 0; rewrite Z.land_0_r; reflexivity.
Qed.

(** The text of a GUID: %x prints a byte without leading zero, so the
    groups do not have a fixed width. *)
Definition guid_text (guid : list Z) : list Z :=
  let x i := num_text hex_lower 16 (default 0 (guid !! i)) in
  x 3%nat ++ x 2%nat ++ x 1%nat ++ x 0%nat ++ [45] ++ x 5%nat ++ x 4%nat ++ [45] ++
  x 7%nat ++ x 6%nat ++ [45] ++ x 8%nat ++ x 9%nat ++ [45] ++
  x 10%nat ++ x 11%nat ++ x 12%nat ++ x 13%nat ++ x 14%nat ++ x 15%nat.

Lemma guid_byte guid i : Forall byte guid -> u32 (default 0 (guid !! i)) = default 0 (guid !! i).
Proof.
  intros Hb. destruct (guid !! i) as [b|] eqn:Hi; simpl; [|done].
  pose proof (Forall_lookup_1 _ _ _ _ Hb Hi). unfold byte in *. unfold u32. rewrite Z.mod_small; lia.
Qed.

Theorem guid_to_string_ok s fmt guid out fuel :
  let text := guid_text guid in
  Forall byte guid -> mapped (mem s) out (zlen text + 1) ->
  cstr (outside out (zlen text + 1) (mem s)) fmt guid_format ->
  (length guid_format + length text < fuel)%nat ->
  returns (guid_to_string fuel fmt guid out) s tt (fun s' =>
    exists m, s' = set_mem m s /\ updated (mem s) m out (text ++ [0])).
Proof.
  intros text Hb Hm Hc Hf. apply wp_returns. unfold guid_to_string, sprintf.
  eapply vsprintf_spec; [exact Hm | exact Hc | reflexivity | | exact Hf | by eauto].
  unfold guid_order. cbn [fmap list_fmap]. cbn -[num_text u32 lookup].
  rewrite !guid_byte, app_nil_r by done. reflexivity.
Qed.

(** ** A small disk *)
Module SmallTable.
Import RamDisk.

Lemma crc32_detects_burst_witness : crc32 ([1] ++ [2; 3] ++ [4]) <> crc32 ([1] ++ [7; 3] ++ [4]).
Proof. apply crc32_detects_burst; [repeat constructor; done.. | done | simpl; lia | done]. Defined.

Definition disk0 : fat_state ram := mk_fs (mk_ram ∅ 512 true) 0 None 0 0 0 0.
Definition manager0 : part_state ram := mk_ps disk0 0 None 0.
Definition behind0 : list Z := replicate 420 0.
Definition boot : list Z := [66; 111; 111; 116].

Lemma args0 : part_args 34 ESP_GUID LINUX_FS_GUID boot.
Proof. repeat split; try lia; repeat constructor; done. Qed.

Lemma create_partition_ok_witness :
  returns (create_partition 0 34 200 ESP_GUID LINUX_FS_GUID boot behind0) manager0 true
    (fun s' => partition_count s' = 1 /\
       gpe_decode (slice 0 128 (span (disk_of (pfs s')) 2 32)) =
         new_entry 34 200 ESP_GUID LINUX_FS_GUID boot).
Proof.
  destruct (create_partition_ok manager0 0 34 200 ESP_GUID LINUX_FS_GUID boot behind0)
    as (s' & Hrun & (img' & Ho & _ & _ & Hd & _) & _ & Hc & _);
    [done | split; done || simpl; lia | simpl; lia | exact args0 | lia | simpl; lia | done
    | apply zeros_byte |].
  exists s'. split; [exact Hrun|]. split; [exact Hc|].
  replace (span (disk_of (pfs s')) 2 32) with (span img' 2 32); [exact Hd|].
  apply span_ext. intros l _. symmetry. apply Ho.
Defined.

(** A table with one entry. *)
Definition entry0 : GPTPartitionEntry := new_entry 34 200 ESP_GUID LINUX_FS_GUID boot.
Definition disk1 : fat_state ram :=
  mk_fs (mk_ram {[ (0, 2) := gpe_encode entry0 ++ replicate 384 0 ]} 512 true) 0 None 0 0 0 0.
Definition manager1 : part_state ram := mk_ps disk1 200 (Some (replicate 4 part_zero)) 1.

(** The same disk when no partition was created since the start. *)
Definition manager2 : part_state ram := mk_ps disk1 0 None 0.

Lemma update_partition_ok_witness :
  returns (update_partition 0 40 100 boot 0 behind0) manager1 true
    (fun s' => start_lba (gpe_decode (slice 0 128 (span (disk_of (pfs s')) 2 32))) = 40) /\
  returns (update_partition 7 40 100 boot 0 behind0) manager1 false (fun s' =>
    forall l, disk_of (pfs s') l = disk_of (pfs manager1) l) /\
  returns (update_partition 0 40 100 boot 0 behind0) manager2 false (fun s' =>
    start_lba (gpe_decode (slice 0 128 (span (disk_of (pfs s')) 2 32))) = 40 /\
    disk_of (pfs s') 1 = disk_of (pfs manager2) 1).
Proof.
  assert (Hsp : forall s s' img', on_disk (E := ram) s s' img' -> span (disk_of s') 2 32 = span img' 2 32)
    by (intros s s' img' Ho; apply span_ext; intros l _; apply Ho).
  split_and!.
  - destruct (update_partition_ok manager1 0 40 100 boot 0 behind0)
      as (s' & Hrun & img' & Ho & _ & Hd);
      [done | lia | simpl; lia | simpl; lia | simpl; lia | done | done
      | repeat constructor; done | done | apply zeros_byte |].
    replace (_ && negb (forallb _ _)) with true in Hd, Hrun by (vm_compute; reflexivity).
    exists s'. split; [exact Hrun|]. destruct Hd as [Hd _]. rewrite (Hsp _ _ _ Ho).
    change (0 * 128) with 0 in Hd. by rewrite Hd.
  - destruct (update_partition_ok manager1 7 40 100 boot 0 behind0)
      as (s' & Hrun & img' & Ho & _ & Hd);
      [done | lia | simpl; lia | simpl; lia | simpl; lia | done | done
      | repeat constructor; done | done | apply zeros_byte |].
    replace (_ && negb (forallb _ _)) with false in Hd, Hrun by (vm_compute; reflexivity).
    exists s'. split; [exact Hrun|]. cbn [negb] in Hd. intros l. rewrite <- Hd. apply Ho.
  - destruct (update_partition_ok manager2 0 40 100 boot 0 behind0)
      as (s' & Hrun & img' & Ho & _ & Hd);
      [done | lia | simpl; lia | simpl; lia | simpl; lia | done | done
      | repeat constructor; done | done | apply zeros_byte |].
    replace (_ && negb (forallb _ _)) with true in Hd, Hrun by (vm_compute; reflexivity).
    exists s'. split; [exact Hrun|]. destruct Hd as (Hd & _ & Hf). rewrite (Hsp _ _ _ Ho). split.
    + change (0 * 128) with 0 in Hd. by rewrite Hd.
    + rewrite <- Hf by lia. apply Ho.
Defined.

(** The table is laid out for a disk of as many sectors as the partition:
    the copy lies inside the partition.  Sector 180 of a disk of 512 holds
    data of a partition that starts at 34; creating the partition erases it. *)
Definition disk2 : fat_state ram :=
  mk_fs (mk_ram {[ (0, 180) := replicate 512 7 ]} 512 true) 0 None 0 0 0 0.

Lemma backup_erases_partition :
  returns (create_partition 0 34 200 ESP_GUID LINUX_FS_GUID boot behind0) (mk_ps disk2 0 None 0) true
    (fun s' => 34 <= 180 < 34 + 200 /\ disk_of disk2 180 = replicate 512 7 /\
       disk_of (pfs s') 180 = replicate 512 0).
Proof.
  unfold returns. eexists. split; [vm_compute; reflexivity|].
  split; [lia|]. split; vm_compute; reflexivity.
Qed.
End SmallTable.
