(* ===== verification/Pci.v ===== *)
(** PCI devices (kernel/src/driver/pci/pci.c) and the tables of controllers
    built from them (kernel/src/sys/controllers).

    A table is the block its pointer leads to ([None] for NULL) and its
    counter; an access outside the block is undefined.  The eight tables of
    controllers are indexed by [ctrl].  Messages are left out. *)
From S2P Require Import Prelude Ports.

Definition CONFIG_ADDRESS : Z := 0xCF8.
Definition CONFIG_DATA : Z := 0xCFC.
Definition DEVICE_VENDOR_OFFSET : Z := 0x0.
Definition CLASS_SUBCLASS_PROG_REV_OFFSET : Z := 0x8.
Definition BIST_HEADER_LATENCY_CACHE_LINE_OFFSET : Z := 0xC.
Definition STANDARD_HEADER_SINGLE_FUNCTION : Z := 0x0.
Definition STANDARD_HEADER_MULTI_FUNCTION : Z := 0x80.

Record pci_device_t := mk_pci {
  pci_bus : Z; pci_device : Z; pci_function : Z; vendor_id : Z; device_id : Z;
  class_code : Z; subclass_code : Z; prog_if : Z; revision_id : Z;
  bist : Z; cache_line_size : Z; latency_timer : Z; header_type : Z;
  base_address_registers : list Z
}.
Definition pci_zero : pci_device_t := mk_pci 0 0 0 0 0 0 0 0 0 0 0 0 0 (replicate 6 0).

Section pci.
Context {E : Type} `{Ports E}.

(** The enable bit is [1 << 31] in the source. *)
Definition config_address (bus device function offset : Z) : Z :=
  u32 (Z.lor (Z.lor (Z.lor (Z.lor (Z.shiftl 1 31) (Z.shiftl bus 16)) (Z.shiftl device 11))
              (Z.shiftl function 8)) (Z.land offset 0xFC)).

Definition pci_read (bus device function offset : Z) : M E Z :=
  outl CONFIG_ADDRESS (config_address bus device function offset) ;;;
  inl_port CONFIG_DATA.

Definition pci_write (bus device function offset value : Z) : M E unit :=
  outl CONFIG_ADDRESS (config_address bus device function offset) ;;;
  outl CONFIG_DATA value.

Definition pci_exists : M E bool :=
  let! value := pci_read 0 0 0 0 in
  ret (negb (Z.land value 0xFFFF =? 0xFFFF)).

(** BARs [i] up to 5; the low bits of the last one are masked. *)
Fixpoint read_bars (n : nat) (bus device function i : Z) : M E (list Z) :=
  match n with
  | O => ret []
  | S n =>
      let! v := pci_read bus device function (u8 (0x10 + i * 4)) in
      let! l := read_bars n bus device function (i + 1) in
      ret ((if i =? 5 then Z.land v 0xFFFFFFF0 else v) :: l)
  end.

(** The bus, device and function fields of the structure stay 0. *)
Definition pci_device_detect (bus device function : Z) : M E pci_device_t :=
  let! dev_vend := pci_read bus device function DEVICE_VENDOR_OFFSET in
  let! cls := pci_read bus device function CLASS_SUBCLASS_PROG_REV_OFFSET in
  let! bhl := pci_read bus device function BIST_HEADER_LATENCY_CACHE_LINE_OFFSET in
  let header := Z.land (Z.shiftr bhl 16) 0xFF in
  let! bars :=
    if (header =? STANDARD_HEADER_SINGLE_FUNCTION) || (header =? STANDARD_HEADER_MULTI_FUNCTION)
    then read_bars 6 bus device function 0 else ret (replicate 6 0) in
  ret (mk_pci 0 0 0 (Z.land dev_vend 0xFFFF) (u16 (Z.shiftr dev_vend 16))
         (Z.land (Z.shiftr cls 24) 0xFF) (Z.land (Z.shiftr cls 16) 0xFF)
         (Z.land (Z.shiftr cls 8) 0xFF) (Z.land cls 0xFF)
         (Z.land (Z.shiftr bhl 24) 0xFF) (Z.land bhl 0xFF) (Z.land (Z.shiftr bhl 8) 0xFF) header bars).
End pci.

(** The bound of the scanning loop. *)
Definition bus_functions : nat := Z.to_nat (256 * 32 * 8).
#[global] Opaque bus_functions.

(** ** Tables of controllers *)

Inductive ctrl :=
  MassStorage | Network | Wireless | Display | MemoryCtrl | InputDevice | SerialBus | Bridge.
#[global] Instance ctrl_eq_dec : EqDecision ctrl.
Proof. solve_decision. Defined.

Definition CONTROLLER_CLASS_MASS_STORAGE : Z := 0x1.
Definition CONTROLLER_CLASS_NETWORK : Z := 0x2.
Definition CONTROLLER_CLASS_DISPLAY : Z := 0x3.
Definition CONTROLLER_CLASS_MEMORY : Z := 0x5.
Definition CONTROLLER_CLASS_BRIDGE : Z := 0x6.
Definition CONTROLLER_CLASS_INPUT_DEVICE : Z := 0x9.
Definition CONTROLLER_CLASS_SERIAL_BUS : Z := 0xC.
Definition CONTROLLER_CLASS_WIRELESS : Z := 0xD.
Definition MAX_PCI_CONTROLLERS : Z := 256.
(** The eight tables have the same size, each with a macro of its own. *)
Definition MAX_CONTROLLERS : Z := 32.
Definition sizeof_pci_device_t : Z := 40.

Record table := mk_table { entries : option (list pci_device_t); count : Z }.

Record pcis (E : Type) := mk_pcis { p_env : E; pci_devices : table; controllers : ctrl -> table }.
Arguments mk_pcis {E}.
Arguments p_env {E}.
Arguments pci_devices {E}.
Arguments controllers {E}.

Definition set_ctrl (c : ctrl) (t : table) (f : ctrl -> table) : ctrl -> table :=
  fun k => if decide (k = c) then t else f k.

(** [base[count++] = d]. *)
Definition push (d : pci_device_t) (t : table) : outcome table :=
  match entries t with
  | Some l =>
      if (0 <=? count t) && (count t <? zlen l)
      then Ret (mk_table (Some (<[Z.to_nat (count t) := d]> l)) (count t + 1)) else Undef
  | None => Undef
  end.

(** [NULL] outside the counted entries, otherwise the structure there. *)
Definition entry_at (t : table) (index : Z) : outcome (option pci_device_t) :=
  if (index <? 0) || (count t <=? index) then Ret None else
  match entries t with
  | Some l => match l !! Z.to_nat index with Some d => Ret (Some d) | None => Undef end
  | None => Undef
  end.

(** The kernel heap as it is used here: whether a block was found. *)
Class BlockHeap (E : Type) := heap_block : Z -> M E bool.

Section controllers.
Context {E : Type} `{Ports E} `{BlockHeap E}.
Abbreviation st := (pcis E).

Definition on_bus {A} (m : M E A) : M st A := fun s =>
  obind (m (p_env s)) (fun '(a, e) => Ret (a, mk_pcis e (pci_devices s) (controllers s))).
Definition set_devices (t : table) : M st unit :=
  modify (fun s => mk_pcis (p_env s) t (controllers s)).
Definition set_controllers (c : ctrl) (t : table) : M st unit :=
  modify (fun s => mk_pcis (p_env s) (pci_devices s) (set_ctrl c t (controllers s))).

(** A new block of [n] cleared structures, or NULL. *)
Definition new_entries (n : Z) : M st (option (list pci_device_t)) :=
  let! ok := on_bus (heap_block (sizeof_pci_device_t * n)) in
  ret (if ok then Some (replicate (Z.to_nat n) pci_zero) else None).

(** The counters are left as they are. *)
Definition alloc_table (c : ctrl) : M st unit :=
  let! l := new_entries MAX_CONTROLLERS in
  let! t := gets (fun s => controllers s c) in
  set_controllers c (mk_table l (count t)).

Definition alloc_mass_storage_controllers_memory : M st unit := alloc_table MassStorage.
Definition alloc_network_controllers_memory : M st unit := alloc_table Network.
Definition alloc_wireless_controllers_memory : M st unit := alloc_table Wireless.
Definition alloc_display_controllers_memory : M st unit := alloc_table Display.
Definition alloc_memory_controllers_memory : M st unit := alloc_table MemoryCtrl.
Definition alloc_input_devices_memory : M st unit := alloc_table InputDevice.
Definition alloc_serial_bus_controllers_memory : M st unit := alloc_table SerialBus.
Definition alloc_bridge_devices_memory : M st unit := alloc_table Bridge.

Definition alloc_controllers_memory : M st unit :=
  let! l := new_entries MAX_PCI_CONTROLLERS in
  let! t := gets pci_devices in
  set_devices (mk_table l (count t)) ;;;
  match l with
  | None => ret tt
  | Some _ =>
      alloc_mass_storage_controllers_memory ;;; alloc_network_controllers_memory ;;;
      alloc_wireless_controllers_memory ;;; alloc_display_controllers_memory ;;;
      alloc_memory_controllers_memory ;;; alloc_input_devices_memory ;;;
      alloc_serial_bus_controllers_memory ;;; alloc_bridge_devices_memory
  end.

Definition get_pci_controllers_count : M st Z := gets (fun s => count (pci_devices s)).
Definition get_pci_controller (index : Z) : M st (option pci_device_t) :=
  let! t := gets pci_devices in lift (entry_at t index).

Definition controllers_count (c : ctrl) : M st Z := gets (fun s => count (controllers s c)).
Definition get_controller (c : ctrl) (index : Z) : M st (option pci_device_t) :=
  let! t := gets (fun s => controllers s c) in lift (entry_at t index).

Definition get_mass_storage_controllers_count : M st Z := controllers_count MassStorage.
Definition get_mass_storage_controller : Z -> M st (option pci_device_t) := get_controller MassStorage.
Definition get_network_controllers_count : M st Z := controllers_count Network.
Definition get_network_controller : Z -> M st (option pci_device_t) := get_controller Network.
Definition get_wireless_controllers_count : M st Z := controllers_count Wireless.
Definition get_wireless_controller : Z -> M st (option pci_device_t) := get_controller Wireless.
Definition get_display_controllers_count : M st Z := controllers_count Display.
Definition get_display_controller : Z -> M st (option pci_device_t) := get_controller Display.
Definition get_memory_controllers_count : M st Z := controllers_count MemoryCtrl.
Definition get_memory_controller : Z -> M st (option pci_device_t) := get_controller MemoryCtrl.
Definition get_input_devices_count : M st Z := controllers_count InputDevice.
Definition get_input_device : Z -> M st (option pci_device_t) := get_controller InputDevice.
Definition get_serial_bus_controllers_count : M st Z := controllers_count SerialBus.
Definition get_serial_bus_controller : Z -> M st (option pci_device_t) := get_controller SerialBus.
Definition get_bridge_devices_count : M st Z := controllers_count Bridge.
Definition get_bridge_device : Z -> M st (option pci_device_t) := get_controller Bridge.

(** One function of the bus: every one of the 65536 is asked. *)
Definition scan_function (index : Z) : M st (option unit) :=
  let bus := Z.land (Z.shiftr index 8) 0xFF in
  let device := Z.land (Z.shiftr index 3) 0x1F in
  let function := Z.land index 0x07 in
  let! dev_vend := on_bus (pci_read bus device function DEVICE_VENDOR_OFFSET) in
  let dev := u16 (Z.shiftr dev_vend 16) in
  let vend := Z.land dev_vend 0xFFFF in
  if (dev =? 0xFFFF) || (dev =? 0x0000) || (vend =? 0xFFFF) || (vend =? 0x0000) then ret None else
  let! found_device := on_bus (pci_device_detect bus device function) in
  let! t := gets pci_devices in
  let! t := lift (push found_device t) in
  set_devices t ;;; ret None.

Definition pci_scan : M st unit :=
  let! here := on_bus pci_exists in
  if negb here then ret tt else
  for_range bus_functions 0 scan_function ;;; ret tt.

Definition file_if (d : pci_device_t) (code : Z) (c : ctrl) : M st unit :=
  if class_code d =? code then
    let! t := gets (fun s => controllers s c) in
    let! t := lift (push d t) in set_controllers c t
  else ret tt.

(** One device of the list, with the tests in the order of the source. *)
Definition classify (i : Z) : M st (option unit) :=
  let! device := get_pci_controller i in
  match device with
  | None => ret None
  | Some d =>
      file_if d CONTROLLER_CLASS_MASS_STORAGE MassStorage ;;;
      file_if d CONTROLLER_CLASS_NETWORK Network ;;;
      file_if d CONTROLLER_CLASS_WIRELESS Wireless ;;;
      file_if d CONTROLLER_CLASS_DISPLAY Display ;;;
      file_if d CONTROLLER_CLASS_MEMORY MemoryCtrl ;;;
      file_if d CONTROLLER_CLASS_INPUT_DEVICE InputDevice ;;;
      file_if d CONTROLLER_CLASS_SERIAL_BUS SerialBus ;;;
      file_if d CONTROLLER_CLASS_BRIDGE Bridge ;;; ret None
  end.

Definition file_devices : M st unit :=
  let! t := gets pci_devices in
  match entries t with
  | None => ret tt
  | Some _ =>
      if count t <=? 0 then ret tt else
      for_range (Z.to_nat (count t)) 0 classify ;;; ret tt
  end.

Definition init_controllers : M st unit := alloc_controllers_memory ;;; pci_scan ;;; file_devices.
End controllers.
