(* ===== verification/Ahci.v ===== *)
(** The AHCI driver for SATA disks (kernel/src/driver/disk/ahci: ahci.c,
    sata_disk.c).

    The driver builds commands in memory that the host bus adapter reads, and
    the adapter moves sectors to and from memory on its own.  The state is
    physical memory and the adapter with its disks, which is the boundary of
    the program: [Hba] has the register accesses (each may let the adapter
    make progress, and change memory) and what the driver uses of the rest of
    the kernel, the heap and the page tables.

    A byte of physical memory has the address [p + HHDM_OFFSET] in the boot
    loader's direct map, and [ram] names it by this address.  The adapter
    goes to physical addresses.  The processor goes through the page tables:
    [translate] is the name of the byte that it finds at a virtual address.
    vir_to_phys and phys_to_vir of vmm.c subtract and add the offset, which
    is right for an address that translates to itself; kheap_alloc gives its
    pages frames of their own (VmmProps.v), and nothing here says that
    a block of the heap translates to itself. *)
From S2P Require Import Prelude.

(** ** Bytes of memory *)

(** Physical memory; an address that no one wrote holds some byte. *)
Definition ram := Z -> Z.

Definition ld_bytes (a n : Z) (m : ram) : list Z := m <$> seqZ a n.
Definition st_bytes (a : Z) (l : list Z) (m : ram) : ram := fun x =>
  if (a <=? x) && (x <? a + zlen l) then default 0 (l !! Z.to_nat (x - a)) else m x.

(** The same through a translation of addresses, byte by byte. *)
Definition ld_through (tr : Z -> Z) (a n : Z) (m : ram) : list Z := (fun x => m (tr x)) <$> seqZ a n.
Fixpoint st_through (tr : Z -> Z) (a : Z) (l : list Z) (m : ram) : ram :=
  match l with
  | [] => m
  | b :: l => st_through tr (a + 1) l (fun x => if x =? tr a then b else m x)
  end.

(** ** Registers of a port *)

Inductive reg := PxCLB | PxCLBU | PxFB | PxFBU | PxIS | PxCMD | PxTFD | PxSIG | PxSSTS | PxSACT | PxCI.

Record hst (E : Type) := mk_hst { hba : E; mem : ram; HHDM_OFFSET : Z }.
Arguments mk_hst {E}.
Arguments hba {E}.
Arguments mem {E}.
Arguments HHDM_OFFSET {E}.

Definition set_ram {E} (m : ram) (s : hst E) : hst E := mk_hst (hba s) m (HHDM_OFFSET s).

(** [rd_reg] and [wr_reg] are accesses to a register of the port at the given
    address; kheap_alloc and kheap_free are those of kheap.c, which change the
    page tables that [translate] looks up. *)
Class Hba (E : Type) := {
  rd_reg : Z -> reg -> E * ram -> Z * (E * ram);
  wr_reg : Z -> reg -> Z -> E * ram -> E * ram;
  heap_alloc : Z -> E -> Z * E;
  heap_free : Z -> Z -> E -> E;
  translate : E -> Z -> Z
}.

Definition SATA_SIG_ATA : Z := 0x00000101.
Definition SATA_SIG_ATAPI : Z := 0xEB140101.
Definition SATA_SIG_SEMB : Z := 0xC33C0101.
Definition SATA_SIG_PM : Z := 0x96690101.
Inductive AHCI_DEVICE_TYPE := AHCI_DEV_NULL | AHCI_DEV_SATA | AHCI_DEV_SEMB | AHCI_DEV_PM | AHCI_DEV_SATAPI.

Definition HBA_PxCMD_ST : Z := 0x0001.
Definition HBA_PxCMD_FRE : Z := 0x0010.
Definition HBA_PxCMD_FR : Z := 0x4000.
Definition HBA_PxCMD_CR : Z := 0x8000.
Definition HBA_PxIS_TFES : Z := Z.shiftl 1 30.
Definition ATA_DEV_BUSY : Z := 0x80.
Definition ATA_DEV_DRQ : Z := 0x08.
Definition ATA_CMD_READ_DMA_EX : Z := 0x25.
Definition ATA_CMD_WRITE_DMA_EX : Z := 0x35.
Definition ATA_CMD_IDENTIFY : Z := 0xEC.
Definition FIS_TYPE_REG_H2D : Z := 0x27.
Definition MAX_PRDT_ENTRIES : Z := 256.
Definition MAX_SECTORS_PER_CMD : Z := 32.

Section ahci.
Context {E : Type} `{Hba E}.
Abbreviation st := (hst E).

Definition rd (port : Z) (r : reg) : M st Z := fun s =>
  let '(v, (e, m)) := rd_reg port r (hba s, mem s) in Ret (v, mk_hst e m (HHDM_OFFSET s)).
Definition wr (port : Z) (r : reg) (v : Z) : M st unit := fun s =>
  let '(e, m) := wr_reg port r v (hba s, mem s) in Ret (tt, mk_hst e m (HHDM_OFFSET s)).

(** Little-endian accesses of [n] bytes at virtual addresses. *)
Definition ld (n : nat) (a : Z) : M st Z :=
  gets (fun s => le_val (ld_through (translate (hba s)) a (Z.of_nat n) (mem s))).
Definition put_bytes (a : Z) (l : list Z) : M st unit :=
  modify (fun s => set_ram (st_through (translate (hba s)) a l (mem s)) s).
Definition sto (n : nat) (a v : Z) : M st unit := put_bytes a (le_bytes n v).
Definition memset0 (a n : Z) : M st unit := put_bytes a (replicate (Z.to_nat n) 0).

Definition phys_to_vir (pa : Z) : M st Z :=
  let! off := gets HHDM_OFFSET in ret (u64 (pa + off)).
Definition vir_to_phys (va : Z) : M st Z :=
  let! off := gets HHDM_OFFSET in
  if va =? 0 then ret 0 else if va <=? off then ret 0 else ret (u64 (va - off)).

Definition kheap_alloc (size : Z) : M st Z := fun s =>
  let '(p, e) := heap_alloc size (hba s) in Ret (p, mk_hst e (mem s) (HHDM_OFFSET s)).
Definition kheap_free (p size : Z) : M st unit :=
  modify (fun s => mk_hst (heap_free p size (hba s)) (mem s) (HHDM_OFFSET s)).

(** ** ahci.c *)

Definition checkType (port : Z) : M st AHCI_DEVICE_TYPE :=
  if port =? 0 then ret AHCI_DEV_NULL else
  let! ssts := rd port PxSSTS in
  let ipm := Z.land (Z.shiftr ssts 8) 0x0F in
  let det := Z.land ssts 0x0F in
  if negb (det =? 3) then ret AHCI_DEV_NULL else
  if negb (ipm =? 1) then ret AHCI_DEV_NULL else
  let! sig := rd port PxSIG in
  ret (if sig =? SATA_SIG_ATA then AHCI_DEV_SATA
       else if sig =? SATA_SIG_ATAPI then AHCI_DEV_SATAPI
       else if sig =? SATA_SIG_SEMB then AHCI_DEV_SEMB
       else if sig =? SATA_SIG_PM then AHCI_DEV_PM
       else AHCI_DEV_NULL).

Definition startCMD (fuel : nat) (port : Z) : M st unit :=
  iter_fuel fuel (fun _ : unit =>
    let! c := rd port PxCMD in
    if Z.land c HBA_PxCMD_CR =? 0 then ret (inr tt) else ret (inl tt)) tt ;;;
  let! c := rd port PxCMD in
  wr port PxCMD (Z.lor c HBA_PxCMD_FRE) ;;;
  let! c := rd port PxCMD in
  wr port PxCMD (Z.lor c HBA_PxCMD_ST).

Definition stopCMD (fuel : nat) (port : Z) : M st unit :=
  let! c := rd port PxCMD in
  wr port PxCMD (Z.ldiff c HBA_PxCMD_FRE) ;;;
  let! c := rd port PxCMD in
  wr port PxCMD (Z.ldiff c HBA_PxCMD_ST) ;;;
  iter_fuel fuel (fun _ : unit =>
    let! c := rd port PxCMD in
    if negb (Z.land c HBA_PxCMD_FR =? 0) then ret (inl tt) else
    let! c := rd port PxCMD in
    if negb (Z.land c HBA_PxCMD_CR =? 0) then ret (inl tt) else ret (inr tt)) tt.

(** Command headers have 32 bytes: flags at 0, prdtl at 2, ctba at 8. *)
Definition portRebase (fuel : nat) (port : Z) : M st unit :=
  stopCMD fuel port ;;;
  let! base_virt := kheap_alloc (64 * 1024) in
  if base_virt =? 0 then ret tt else
  let! base_phys := vir_to_phys base_virt in
  if base_phys =? 0 then ret tt else
  memset0 base_virt 0x400 ;;;
  memset0 (base_virt + 0x1000) 0x100 ;;;
  memset0 (base_virt + 0x2000) 0x2000 ;;;
  wr port PxCLB (u32 base_phys) ;;;
  wr port PxCLBU (u32 (Z.shiftr base_phys 32)) ;;;
  wr port PxFB (u32 (base_phys + 0x1000)) ;;;
  wr port PxFBU (u32 (Z.shiftr (base_phys + 0x1000) 32)) ;;;
  let! _ := for_range (R := unit) 32 0 (fun i =>
    let phys_ctba := base_phys + 0x2000 + i * 0x100 in
    sto 4 (base_virt + 32 * i + 8) (u32 phys_ctba) ;;;
    sto 4 (base_virt + 32 * i + 12) (u32 (Z.shiftr phys_ctba 32)) ;;;
    sto 2 (base_virt + 32 * i + 2) 8 ;;;
    memset0 (base_virt + 0x2000 + i * 0x100) 0x100 ;;;
    ret None) in
  startCMD fuel port.

Definition findCMDSlot (port : Z) (cmd_slots : nat) : M st Z :=
  let! sact := rd port PxSACT in
  let! ci := rd port PxCI in
  let slots := Z.lor sact ci in
  let! r := for_range cmd_slots 0 (fun i =>
    ret (if Z.testbit slots i then None else Some i)) in
  ret (default (-1) r).

(** One physical region descriptor of 16 bytes: address, byte count less one
    in 22 bits, interrupt bit. *)
Definition put_prdt (e phys chunk : Z) : M st unit :=
  sto 4 e (u32 phys) ;;;
  sto 4 (e + 4) (u32 (Z.shiftr phys 32)) ;;;
  let! w := ld 4 (e + 12) in
  sto 4 (e + 12) (Z.lor (Z.ldiff w (Z.ones 22)) (Z.land (u32 (chunk - 1)) (Z.ones 22))) ;;;
  let! w := ld 4 (e + 12) in
  sto 4 (e + 12) (Z.lor (Z.ldiff w (Z.shiftl 1 31)) (Z.shiftl 1 31)).

(** The descriptors of a buffer: page by page.  [None] when the table is full. *)
Definition build_prdt (cmd_tbl virt total_bytes : Z) : M st (option Z) :=
  iter_fuel 258 (fun '(offset, total_bytes, i) =>
    if 0 <? total_bytes then
      if MAX_PRDT_ENTRIES <=? i then ret (inr None) else
      let! phys := vir_to_phys (u64 (virt + offset)) in
      let page_offset := Z.land phys 0xFFF in
      let chunk := Z.min total_bytes (4096 - page_offset) in
      put_prdt (cmd_tbl + 0x80 + 16 * i) phys chunk ;;;
      ret (inl (u32 (offset + chunk), total_bytes - chunk, i + 1))
    else ret (inr (Some i))) (0, total_bytes, 0).

(** The command frame at the start of the table. *)
Definition put_fis (cmd_fis type start_l start_h count : Z) : M st unit :=
  memset0 cmd_fis 20 ;;;
  sto 1 cmd_fis FIS_TYPE_REG_H2D ;;;
  let! b := ld 1 (cmd_fis + 1) in
  sto 1 (cmd_fis + 1) (Z.lor (Z.ldiff b 0x80) 0x80) ;;;
  sto 1 (cmd_fis + 2) (u8 type) ;;;
  sto 1 (cmd_fis + 4) (u8 start_l) ;;;
  sto 1 (cmd_fis + 5) (u8 (Z.shiftr start_l 8)) ;;;
  sto 1 (cmd_fis + 6) (u8 (Z.shiftr start_l 16)) ;;;
  sto 1 (cmd_fis + 8) (u8 (Z.shiftr start_l 24)) ;;;
  sto 1 (cmd_fis + 9) (u8 start_h) ;;;
  sto 1 (cmd_fis + 10) (u8 (Z.shiftr start_h 8)) ;;;
  sto 1 (cmd_fis + 7) (Z.shiftl 1 6) ;;;
  sto 1 (cmd_fis + 12) (u8 (Z.land count 0xFF)) ;;;
  sto 1 (cmd_fis + 13) (u8 (Z.land (Z.shiftr count 8) 0xFF)).

(** The wait for a port that is not busy; the counter when it ended. *)
Definition wait_not_busy (fuel : nat) (port : Z) : M st Z :=
  iter_fuel fuel (fun spin =>
    let! tfd := rd port PxTFD in
    if negb (Z.land tfd (Z.lor ATA_DEV_BUSY ATA_DEV_DRQ) =? 0) && (spin <? 1000000)
    then ret (inl (spin + 1)) else ret (inr spin)) 0.

(** The wait for completion: [None] after an error, otherwise the counter,
    which [timeout--] takes below 0 when the loop gives up. *)
Definition wait_done (fuel : nat) (port slot : Z) : M st (option Z) :=
  iter_fuel fuel (fun timeout =>
    let! ci := rd port PxCI in
    if Z.testbit ci slot then
      if timeout =? 0 then ret (inr (Some (-1))) else
      let! isr := rd port PxIS in
      if negb (Z.land isr HBA_PxIS_TFES =? 0) then ret (inr None) else ret (inl (timeout - 1))
    else ret (inr (Some timeout))) 1000000.

(** From the wait for the port to the result. *)
Definition issue (fuel : nat) (port slot : Z) : M st bool :=
  let! spin := wait_not_busy fuel port in
  if spin =? 1000000 then ret false else
  let! ci := rd port PxCI in
  wr port PxCI (u32 (Z.lor ci (Z.shiftl 1 slot))) ;;;
  let! r := wait_done fuel port slot in
  match r with
  | None => ret false
  | Some timeout =>
      if timeout =? 0 then ret false else
      let! isr := rd port PxIS in
      if negb (Z.land isr HBA_PxIS_TFES =? 0) then ret false else
      ret true
  end.

Definition runCommand (fuel : nat) (type write port start_l start_h count phys_buf : Z) : M st bool :=
  if port =? 0 then ret false else
  wr port PxIS 0xFFFFFFFF ;;;
  let! slot := findCMDSlot port 32 in
  if slot =? -1 then ret false else
  let! clbu := rd port PxCLBU in
  let! clb := rd port PxCLB in
  let! cmd_header_base := phys_to_vir (Z.lor (u64 (Z.shiftl clbu 32)) clb) in
  if cmd_header_base =? 0 then ret false else
  let cmd_header := cmd_header_base + 32 * slot in
  let! b := ld 1 cmd_header in
  sto 1 cmd_header (Z.lor (Z.ldiff b 0x1F) 5) ;;;
  let! b := ld 1 cmd_header in
  sto 1 cmd_header (Z.lor (Z.ldiff b 0x40) (Z.shiftl (Z.land write 1) 6)) ;;;
  let! ctbau := ld 4 (cmd_header + 12) in
  let! ctba := ld 4 (cmd_header + 8) in
  let! cmd_tbl := phys_to_vir (Z.lor (u64 (Z.shiftl ctbau 32)) ctba) in
  if cmd_tbl =? 0 then ret false else
  memset0 cmd_tbl 4096 ;;;
  let total_bytes := u32 (Z.shiftl count 9) in
  let! virt := phys_to_vir phys_buf in
  let! r := build_prdt cmd_tbl virt total_bytes in
  match r with
  | None => ret false
  | Some i =>
      sto 2 (cmd_header + 2) (u16 i) ;;;
      put_fis cmd_tbl type start_l start_h count ;;;
      issue fuel port slot
  end.

(** ** sata_disk.c *)

(** Word [i] of the 512 bytes of an IDENTIFY answer. *)
Definition id_word (buf i : Z) : M st Z := ld 2 (buf + 2 * i).

(** The IDENTIFY command into a new buffer: its address and the outcome. *)
Definition identify (fuel : nat) (port : Z) : M st (option (Z * bool)) :=
  let! identify_buf := kheap_alloc 512 in
  if identify_buf =? 0 then ret None else
  memset0 identify_buf 512 ;;;
  let! phys_identify_buf := vir_to_phys identify_buf in
  let! ok := runCommand fuel ATA_CMD_IDENTIFY 0 port 0 0 1 phys_identify_buf in
  ret (Some (identify_buf, ok)).

Definition size_words (identify_buf : Z) : M st Z :=
  let! w83 := id_word identify_buf 83 in
  if negb (Z.land w83 (Z.shiftl 1 10) =? 0) then
    let! w103 := id_word identify_buf 103 in
    let! w102 := id_word identify_buf 102 in
    let! w101 := id_word identify_buf 101 in
    let! w100 := id_word identify_buf 100 in
    ret (Z.lor (Z.lor (Z.lor (Z.shiftl w103 48) (Z.shiftl w102 32)) (Z.shiftl w101 16)) w100)
  else
    let! w61 := id_word identify_buf 61 in
    let! w60 := id_word identify_buf 60 in
    ret (Z.lor (Z.shiftl w61 16) w60).

(** The buffer is not freed: every path returns before kheap_free. *)
Definition sata_get_total_sectors (fuel : nat) (port : Z) : M st Z :=
  let! r := identify fuel port in
  match r with
  | None => ret 0
  | Some (identify_buf, ok) => if ok then size_words identify_buf else ret 0
  end.

Definition sata_get_bytes_per_sector (fuel : nat) (port : Z) : M st Z :=
  let! r := identify fuel port in
  match r with
  | None => ret 512
  | Some (identify_buf, ok) =>
      if ok then
        let! w106 := id_word identify_buf 106 in
        let! bytes_per_sector :=
          (if negb (Z.land w106 (Z.shiftl 1 14) =? 0) then
             let! w118 := id_word identify_buf 118 in
             let! w117 := id_word identify_buf 117 in
             ret (Z.lor (Z.shiftl w118 16) w117)
           else ret 0) in
        kheap_free identify_buf 512 ;;;
        ret (if bytes_per_sector =? 0 then 512 else u16 bytes_per_sector)
      else
        kheap_free identify_buf 512 ;;; ret 512
  end.

Definition sata_read (fuel : nat) (port lba count buf_phys_addr : Z) : M st bool :=
  let count := u32 count in
  let! total_sectors := sata_get_total_sectors fuel port in
  if total_sectors <=? 0 then ret false else
  if total_sectors <? u64 (lba + count) then ret false else
  iter_fuel (S (Z.to_nat count)) (fun '(lba, count, buf) =>
    if 0 <? count then
      let chunk := if MAX_SECTORS_PER_CMD <? count then MAX_SECTORS_PER_CMD else count in
      let start_l := u32 (Z.land lba 0xFFFFFFFF) in
      let start_h := u32 (Z.land (Z.shiftr lba 32) 0xFFFFFFFF) in
      let! ok := runCommand fuel ATA_CMD_READ_DMA_EX 0 port start_l start_h chunk buf in
      if negb ok then ret (inr false) else
      ret (inl (u64 (lba + chunk), count - chunk, u64 (buf + chunk * 512)))
    else ret (inr true)) (lba, count, buf_phys_addr).

Definition sata_write (fuel : nat) (port lba count phys_buf_addr : Z) : M st bool :=
  let count := u32 count in
  let! total_sectors := sata_get_total_sectors fuel port in
  if (0 <? total_sectors) && (total_sectors <? u64 (lba + count)) then ret false else
  let start_l := u32 (Z.land lba 0xFFFFFFFF) in
  let start_h := u32 (Z.land (Z.shiftr lba 32) 0xFFFFFFFF) in
  runCommand fuel ATA_CMD_WRITE_DMA_EX 1 port start_l start_h count phys_buf_addr.

Definition SataPortRebase (fuel : nat) (port : Z) : M st unit := portRebase fuel port.
End ahci.
