(* ===== verification/AhciProps.v ===== *)
(** The AHCI driver against the contract of the adapter.

    [read_command] is how an adapter decodes the command that the driver left
    in memory, [scatter] and [gather] are its transfers; [HbaLaws] says that a
    command issued to a ready port completes within a number of polls, with
    the effect of the decoded command on memory and on the drive.  The
    theorems show that what the driver builds is decoded as the transfer it
    was asked for, and hence that sata_read and sata_write move exactly the
    requested sectors.  Memory is named by its address in the direct map; the
    adapter reaches it at the address less the offset of the map, the processor
    through [translate].  Blocks of the heap may have any frame ([heap_fresh]);
    the command memory of a port is asked to be in the direct map ([port_ok]). *)
From Stdlib Require Import FunctionalExtensionality.
From S2P Require Import Prelude FatBpb Ahci.

(** ** Memory *)

Definition byte_ram (m : ram) : Prop := forall x, byte (m x).

Lemma st_bytes_out a l m x : x < a \/ a + zlen l <= x -> st_bytes a l m x = m x.
Proof. intros. unfold st_bytes. case_if; [lia | done]. Qed.

Lemma st_bytes_in a l m x : a <= x < a + zlen l -> st_bytes a l m x = default 0 (l !! Z.to_nat (x - a)).
Proof. intros. unfold st_bytes. case_if; [done | lia]. Qed.

Lemma st_byte a b m x : st_bytes a [b] m x = if x =? a then b else m x.
Proof.
  destruct (Z.eqb_spec x a) as [->|].
  - rewrite st_bytes_in by (simpl; lia). by rewrite Z.sub_diag.
  - apply st_bytes_out. simpl. lia.
Qed.

Lemma st_byte_eq a b m : st_bytes a [b] m a = b.
Proof. by rewrite st_byte, Z.eqb_refl. Qed.

Lemma st_byte_ne a b m x : x <> a -> st_bytes a [b] m x = m x.
Proof. intros. rewrite st_byte. by destruct (Z.eqb_spec x a). Qed.

Lemma st_bytes_byte a l m : byte_ram m -> Forall byte l -> byte_ram (st_bytes a l m).
Proof.
  intros Hm Hl x. unfold st_bytes. case_if; [|apply Hm].
  destruct (l !! _) as [b|] eqn:Hb; simpl; [by eapply Forall_lookup_1 in Hb | done].
Qed.

Lemma ld_bytes_length a n m : 0 <= n -> length (ld_bytes a n m) = Z.to_nat n.
Proof. intros. unfold ld_bytes. by rewrite length_fmap, length_seqZ. Qed.

Lemma ld_bytes_byte a n m : byte_ram m -> Forall byte (ld_bytes a n m).
Proof. intros Hm. apply Forall_fmap, Forall_true. intros. apply Hm. Qed.

Lemma ld_bytes_ext a n m m' :
  (forall x, a <= x < a + n -> m' x = m x) -> ld_bytes a n m' = ld_bytes a n m.
Proof.
  intros He. apply list_fmap_ext. intros i x Hx%lookup_seqZ. apply He. lia.
Qed.

Lemma ld_st_same a l m : ld_bytes a (zlen l) (st_bytes a l m) = l.
Proof.
  apply list_eq. intros i. unfold ld_bytes. rewrite list_lookup_fmap.
  destruct (decide (i < length l)%nat) as [Hi|Hi].
  - rewrite lookup_seqZ_lt by lia. cbn [fmap option_fmap option_map].
    rewrite st_bytes_in by lia. replace (Z.to_nat (a + Z.of_nat i - a)) with i by lia.
    by destruct (lookup_lt_is_Some_2 l i Hi) as [b ->].
  - rewrite lookup_seqZ_ge by lia. symmetry. apply lookup_ge_None_2. lia.
Qed.

Lemma ld_st_disjoint a n b l m :
  a + n <= b \/ b + zlen l <= a -> ld_bytes a n (st_bytes b l m) = ld_bytes a n m.
Proof. intros. apply ld_bytes_ext. intros. apply st_bytes_out. lia. Qed.

Lemma ld_bytes_app a n k m : 0 <= n -> 0 <= k ->
  ld_bytes a (n + k) m = ld_bytes a n m ++ ld_bytes (a + n) k m.
Proof. intros. unfold ld_bytes. by rewrite seqZ_app, fmap_app. Qed.

Lemma st_bytes_app a l k m x :
  st_bytes (a + zlen l) k (st_bytes a l m) x = st_bytes a (l ++ k) m x.
Proof.
  unfold st_bytes. rewrite length_app.
  destruct (Z.leb_spec (a + zlen l) x), (Z.ltb_spec x (a + zlen l + zlen k)), (Z.leb_spec a x),
    (Z.ltb_spec x (a + zlen l)), (Z.ltb_spec x (a + Z.of_nat (length l + length k)));
    cbn [andb]; try lia; try done;
    first [rewrite lookup_app_r by lia; do 2 f_equal; lia | by rewrite lookup_app_l by lia].
Qed.

(** Where the translation is the identity, going through it changes nothing. *)
Lemma ld_through_direct tr a n m :
  (forall x, a <= x < a + n -> tr x = x) -> ld_through tr a n m = ld_bytes a n m.
Proof. intros Hd. apply list_fmap_ext. intros i x Hx%lookup_seqZ. by rewrite Hd by lia. Qed.

Lemma st_through_direct tr l : forall a m,
  (forall x, a <= x < a + zlen l -> tr x = x) -> st_through tr a l m = st_bytes a l m.
Proof.
  induction l as [|b l IH]; intros a m Hd; cbn [st_through length] in *.
  - apply functional_extensionality. intros x. symmetry. apply st_bytes_out. simpl. lia.
  - rewrite IH by (intros; apply Hd; lia). rewrite Hd by lia. apply functional_extensionality. intros x.
    unfold st_bytes. cbn [length].
    destruct (Z.leb_spec (a + 1) x), (Z.ltb_spec x (a + 1 + zlen l)), (Z.leb_spec a x),
      (Z.ltb_spec x (a + Z.of_nat (S (length l)))), (Z.eqb_spec x a) as [->|]; cbn [andb]; try lia; try done.
    + replace (Z.to_nat (x - a)) with (S (Z.to_nat (x - (a + 1)))) by lia. done.
    + by rewrite Z.sub_diag.
Qed.

Lemma st_through_byte tr l : forall a m, byte_ram m -> Forall byte l -> byte_ram (st_through tr a l m).
Proof.
  induction l as [|b l IH]; intros a m Hm Hl; cbn [st_through]; [done|]. apply Forall_cons in Hl as [Hb Hl].
  apply IH; [|done]. intros x. by case_if.
Qed.

(** Only the bytes the addresses translate to change. *)
Lemma st_through_out tr l : forall a m x,
  (forall y, a <= y < a + zlen l -> tr y <> x) -> st_through tr a l m x = m x.
Proof.
  induction l as [|b l IH]; intros a m x Hx; cbn [st_through length] in *; [done|].
  rewrite IH by (intros; apply Hx; lia). destruct (Z.eqb_spec x (tr a)) as [->|]; [|done]. by destruct (Hx a); [lia|].
Qed.

(** Zeros stored read back, whatever the translation. *)
Lemma st_through_zeros tr n : forall a m x,
  m x = 0 \/ (exists y, a <= y < a + Z.of_nat n /\ tr y = x) -> st_through tr a (replicate n 0) m x = 0.
Proof.
  induction n as [|n IH]; intros a m x Hx; cbn [st_through replicate].
  - destruct Hx as [Hx|(y & Hy & _)]; [done | lia].
  - apply IH. case_if; [by left|]. destruct Hx as [Hx|(y & Hy & Ht)]; [by left|].
    right. exists y. split; [|done]. destruct (decide (y = a)) as [->|]; [|lia]. lia.
Qed.

(** A number stored and loaded at the same place. *)
Definition word_at (m : ram) (a : Z) (n : nat) : Z := le_val (ld_bytes a (Z.of_nat n) m).

Lemma word_st_same n a v m : word_at (st_bytes a (le_bytes n v) m) a n = v mod 256 ^ Z.of_nat n.
Proof.
  unfold word_at. rewrite <- (length_le_bytes n v) at 1. rewrite ld_st_same. apply le_val_bytes.
Qed.

Lemma word_st_disjoint n a b l m :
  a + Z.of_nat n <= b \/ b + zlen l <= a -> word_at (st_bytes b l m) a n = word_at m a n.
Proof. intros. unfold word_at. by rewrite ld_st_disjoint. Qed.

Lemma word_ext n a m m' :
  (forall x, a <= x < a + Z.of_nat n -> m' x = m x) -> word_at m' a n = word_at m a n.
Proof. intros. unfold word_at. by rewrite (ld_bytes_ext _ _ m m'). Qed.

Lemma word_one m a : word_at m a 1 = m a.
Proof.
  unfold word_at, ld_bytes. rewrite seqZ_cons, seqZ_nil by lia. cbn [fmap list_fmap le_val]. lia.
Qed.

(** ** What the adapter does with a command *)

Record command := mk_cmd {
  c_type : Z; c_write : bool; c_lba : Z; c_count : Z;
  c_segs : list (Z * Z)          (* physical address and length in bytes *)
}.

Definition read_prd (m : ram) (e : Z) : Z * Z :=
  (word_at m e 8, Z.land (word_at m (e + 12) 4) (Z.ones 22) + 1).

(** The command in slot [slot] of the list at physical address [clb]:
    header, then the table it points at. *)
Definition read_command (off : Z) (m : ram) (clb slot : Z) : command :=
  let h := clb + off + 32 * slot in
  let ct := word_at m (h + 8) 8 + off in
  mk_cmd (m (ct + 2)) (Z.testbit (m h) 6)
    (le_val [m (ct + 4); m (ct + 5); m (ct + 6); m (ct + 8); m (ct + 9); m (ct + 10)])
    (word_at m (ct + 12) 2)
    ((fun i => read_prd m (ct + 0x80 + 16 * i)) <$> seqZ 0 (word_at m (h + 2) 2)).

Fixpoint scatter (off : Z) (segs : list (Z * Z)) (data : list Z) (m : ram) : ram :=
  match segs with
  | [] => m
  | (p, n) :: segs => scatter off segs (drop (Z.to_nat n) data) (st_bytes (p + off) (take (Z.to_nat n) data) m)
  end.

Fixpoint gather (off : Z) (segs : list (Z * Z)) (m : ram) : list Z :=
  match segs with
  | [] => []
  | (p, n) :: segs => ld_bytes (p + off) n m ++ gather off segs m
  end.

Fixpoint seg_bytes (segs : list (Z * Z)) : Z :=
  match segs with
  | [] => 0
  | (_, n) :: segs => n + seg_bytes segs
  end.

(** A buffer cut into segments, one behind the other. *)
Fixpoint contig (p n : Z) (segs : list (Z * Z)) : Prop :=
  match segs with
  | [] => n = 0
  | (q, k) :: segs => q = p /\ 0 < k <= n /\ contig (p + k) (n - k) segs
  end.

Lemma contig_nonneg p n segs : contig p n segs -> 0 <= n.
Proof. destruct segs as [|[q k] segs]; simpl; lia. Qed.

Lemma contig_snoc p n segs k : contig p n segs -> 0 < k -> contig p (n + k) (segs ++ [(p + n, k)]).
Proof.
  revert p n. induction segs as [|[q j] segs IH]; intros p n; simpl.
  - intros -> Hk. repeat split; lia.
  - intros (-> & Hj & Hc) Hk. split; [done|]. split; [lia|].
    replace (p + n) with (p + j + (n - j)) by lia. replace (n + k - j) with (n - j + k) by lia. auto.
Qed.

Lemma contig_bytes p n segs : contig p n segs -> seg_bytes segs = n.
Proof.
  revert p n. induction segs as [|[q k] segs IH]; intros p n; simpl; [lia|].
  intros (_ & _ & Hc%IH). lia.
Qed.

Lemma gather_contig off p n segs m : contig p n segs -> gather off segs m = ld_bytes (p + off) n m.
Proof.
  revert p n. induction segs as [|[q k] segs IH]; intros p n; simpl; [by intros ->|].
  intros (-> & Hk & Hc). rewrite (IH _ _ Hc). apply contig_nonneg in Hc.
  replace n with (k + (n - k)) at 2 by lia. rewrite ld_bytes_app by lia. f_equal. f_equal. lia.
Qed.

Lemma st_bytes_ext a l m m' x : m' x = m x -> st_bytes a l m' x = st_bytes a l m x.
Proof. intros. unfold st_bytes. by case_if. Qed.

Lemma scatter_contig off segs : forall p n data m x,
  contig p n segs -> zlen data = n -> scatter off segs data m x = st_bytes (p + off) data m x.
Proof.
  induction segs as [|[q k] segs IH]; intros p n data m x; simpl.
  - intros -> Hd. destruct data; [|done]. symmetry. apply st_bytes_out. simpl. lia.
  - intros (-> & Hk & Hc) Hd. rewrite (IH _ _ _ _ _ Hc) by (rewrite length_drop; lia).
    rewrite <- (take_drop (Z.to_nat k) data) at 3. rewrite <- st_bytes_app.
    rewrite length_take. f_equal. lia.
Qed.

(** ** The contract *)

(** Sectors [lba], [lba + 1], ... of a drive replaced by [data]. *)
Definition write_sectors (lba n : Z) (data : list Z) (d : Z -> list Z) : Z -> list Z := fun l =>
  if (lba <=? l) && (l <? lba + n) then slice ((l - lba) * 512) 512 data else d l.

(** What a specification can say of an adapter and its drives. *)
Class HbaView (E : Type) := {
  map_base : Z;                        (* start of the direct map *)
  drive : E -> Z -> Z -> list Z;       (* sectors of the drive at a port *)
  drive_size : E -> Z -> Z;
  identity : E -> Z -> list Z;         (* the answer to IDENTIFY *)
  command_list : E -> Z -> Z;          (* its physical address *)
  ready : Z -> E -> Prop;              (* started, idle, no error *)
  owned : E -> Z -> Prop;              (* bytes of memory in use *)
  (** How many of the next allocations will succeed, with a block at an
      address where the direct map has no memory in use. *)
  heap_room : E -> nat;
  (** [pending p slot n i s]: in [s], the command issued in [i] completes
      after [n] more polls. *)
  pending : Z -> Z -> nat -> E * ram -> E * ram -> Prop
}.

Section view.
Context {E : Type} {D : Hba E} `{HbaView E}.

(** The adapter kept everything but, perhaps, the sectors of port [p]; what is
    in use stays where it is. *)
Record kept (p : Z) (e e' : E) : Prop := {
  k_ready : forall q, ready q e -> ready q e';
  k_size : forall q, drive_size e' q = drive_size e q;
  k_ident : forall q, identity e' q = identity e q;
  k_list : forall q, command_list e' q = command_list e q;
  k_owned : forall x, owned e x -> owned e' x;
  k_trans : forall x, owned e (translate e x) -> translate e' x = translate e x;
  k_drive : forall q l, q <> p -> drive e' q l = drive e q l
}.

(** The effect of command [c]: a transfer inside the drive whose segments
    have room for it. *)
Record completes (p : Z) (c : command) (e : E) (m : ram) (e' : E) (m' : ram) : Prop := {
  cp_ready : ready p e';
  cp_kept : kept p e e';
  cp_room : heap_room e' = heap_room e;
  cp_read : c_type c = ATA_CMD_READ_DMA_EX -> c_write c = false -> 0 < c_count c ->
    seg_bytes (c_segs c) = 512 * c_count c -> c_lba c + c_count c <= drive_size e p ->
    (forall l, drive e' p l = drive e p l) /\
    forall x, m' x = scatter map_base (c_segs c)
      (mjoin (drive e p <$> seqZ (c_lba c) (c_count c))) m x;
  cp_write : byte_ram m -> c_type c = ATA_CMD_WRITE_DMA_EX -> c_write c = true -> 0 < c_count c ->
    seg_bytes (c_segs c) = 512 * c_count c -> c_lba c + c_count c <= drive_size e p ->
    (forall l, drive e' p l =
       write_sectors (c_lba c) (c_count c) (gather map_base (c_segs c) m) (drive e p) l) /\
    forall x, m' x = m x;
  cp_identify : c_type c = ATA_CMD_IDENTIFY -> c_write c = false -> seg_bytes (c_segs c) = 512 ->
    (forall l, drive e' p l = drive e p l) /\
    forall x, m' x = scatter map_base (c_segs c) (identity e p) m x
}.
End view.

(** The number of sectors in an IDENTIFY answer: words 100 to 103 with 48-bit
    addresses (bit 10 of word 83), words 60 and 61 otherwise. *)
Definition id_sectors (id : list Z) : Z :=
  if Z.testbit (load 2 166 id) 10 then load 8 200 id else load 4 120 id.

Class HbaLaws (E : Type) {D : Hba E} {V : HbaView E} := {
  map_base_pos : 0 < map_base < 2 ^ 64;
  drive_sector : forall e p l, length (drive e p l) = 512%nat /\ Forall byte (drive e p l);
  identity_sector : forall e p, length (identity e p) = 512%nat /\ Forall byte (identity e p);
  identity_size : forall e p, ready p e -> id_sectors (identity e p) = drive_size e p;
  drive_size_range : forall e p, ready p e -> 0 < drive_size e p < 2 ^ 48;
  command_list_range : forall e p, 0 <= command_list e p < 2 ^ 64;

  rd_clb : forall e p m, ready p e -> rd_reg p PxCLB (e, m) = (u32 (command_list e p), (e, m));
  rd_clbu : forall e p m, ready p e ->
    rd_reg p PxCLBU (e, m) = (Z.shiftr (command_list e p) 32, (e, m));
  rd_slots : forall e p m, ready p e ->
    rd_reg p PxSACT (e, m) = (0, (e, m)) /\ rd_reg p PxCI (e, m) = (0, (e, m));
  rd_idle : forall e p m, ready p e -> exists v w,
    rd_reg p PxTFD (e, m) = (v, (e, m)) /\ Z.land v 0x88 = 0 /\
    rd_reg p PxIS (e, m) = (w, (e, m)) /\ Z.land w HBA_PxIS_TFES = 0;
  wr_clear : forall e p m, ready p e -> wr_reg p PxIS 0xFFFFFFFF (e, m) = (e, m);

  wr_issue : forall e p m slot, ready p e -> 0 <= slot < 32 -> exists n,
    Z.of_nat n < 1000000 /\ pending p slot n (e, m) (wr_reg p PxCI (2 ^ slot) (e, m));
  rd_poll : forall p slot n i s, pending p slot (S n) i s -> exists v s',
    rd_reg p PxCI s = (v, s') /\ Z.testbit v slot = true /\ pending p slot n i s';
  rd_status : forall p slot n i s, pending p slot n i s -> exists v s',
    rd_reg p PxIS s = (v, s') /\ Z.land v HBA_PxIS_TFES = 0 /\ pending p slot n i s';
  rd_done : forall p slot e m s, pending p slot 0 (e, m) s ->
    exists v e' m', rd_reg p PxCI s = (v, (e', m')) /\ Z.testbit v slot = false /\
      completes p (read_command map_base m (command_list e p) slot) e m e' m';

  heap_fresh : forall e n p e', 0 < n -> heap_alloc n e = (p, e') -> p <> 0 ->
    (forall x, p <= x < p + n -> ~ owned e (translate e' x) /\ owned e' (translate e' x)) /\
    map_base < p /\ p + n <= 2 ^ 64 /\ (p - map_base) mod 4096 = 0;
  heap_frame : forall e n p e', heap_alloc n e = (p, e') ->
    (forall q l, drive e' q l = drive e q l) /\ (forall q, kept q e e');
  heap_total : forall e n p e' k, heap_alloc n e = (p, e') -> 0 < n <= 4096 -> heap_room e = S k ->
    p <> 0 /\ heap_room e' = k /\ forall x, p <= x < p + n -> ~ owned e x;

  (** Memory is mapped in pages of 4096 bytes. *)
  translate_page : forall e x, map_base <= x -> let o := (x - map_base) mod 4096 in
    translate e x = translate e (x - o) + o /\ (translate e x - map_base) mod 4096 = o
}.

(** ** Steps of the driver *)

(** [m'] differs from [m] only at addresses in [P]. *)
Definition changed (P : Z -> Prop) (m m' : ram) : Prop := forall x, ~ P x -> m' x = m x.

Lemma changed_trans (P : Z -> Prop) m1 m2 m3 : changed P m1 m2 -> changed P m2 m3 -> changed P m1 m3.
Proof. intros H1 H2 x Hx. by rewrite H2, H1. Qed.

Lemma changed_mono (P P' : Z -> Prop) m m' : (forall x, P x -> P' x) -> changed P m m' -> changed P' m m'.
Proof. intros Hp Hc x Hx. apply Hc. auto. Qed.

Definition in_block (a n : Z) (x : Z) : Prop := a <= x < a + n.

Lemma changed_word P m m' a n :
  changed P m m' -> (forall x, a <= x < a + Z.of_nat n -> ~ P x) -> word_at m' a n = word_at m a n.
Proof. intros Hc Hn. apply word_ext. auto. Qed.

Section steps.
Context {E : Type} `{HbaLaws E}.
Abbreviation st := (hst E).
Implicit Types s : st.

Lemma wp_rd_reg p r s v e m (Q : Z -> st -> Prop) :
  rd_reg p r (hba s, Ahci.mem s) = (v, (e, m)) -> Q v (mk_hst e m (HHDM_OFFSET s)) -> wp (rd p r) Q s.
Proof. unfold wp, rd. by intros ->. Qed.

Lemma wp_wr p r w s e m (Q : unit -> st -> Prop) :
  wr_reg p r w (hba s, Ahci.mem s) = (e, m) -> Q tt (mk_hst e m (HHDM_OFFSET s)) -> wp (wr p r w) Q s.
Proof. unfold wp, wr. by intros ->. Qed.

(** The [n] addresses from [a] translate to themselves. *)
Definition direct (e : E) (a n : Z) : Prop := forall x, in_block a n x -> translate e x = x.

Lemma direct_sub e a n b k : direct e a n -> a <= b -> b + k <= a + n -> direct e b k.
Proof. intros Hd Ha Hb x Hx. apply Hd. unfold in_block in *. lia. Qed.

Lemma wp_ld_ram n a s (Q : Z -> st -> Prop) :
  direct (hba s) a (Z.of_nat n) -> Q (word_at (Ahci.mem s) a n) s -> wp (ld n a) Q s.
Proof. intros Hd HQ. unfold wp, ld, gets. by rewrite ld_through_direct. Qed.

(** With the state in components, for long runs of stores. *)
Lemma wp_put_bytes a l e m off (Q : unit -> st -> Prop) :
  direct e a (zlen l) -> Q tt (mk_hst e (st_bytes a l m) off) -> wp (put_bytes a l) Q (mk_hst e m off).
Proof.
  intros Hd HQ. unfold wp, put_bytes, modify, set_ram. cbn [hba Ahci.mem HHDM_OFFSET]. by rewrite st_through_direct.
Qed.

Lemma wp_sto n a v s (Q : unit -> st -> Prop) :
  direct (hba s) a (Z.of_nat n) -> Q tt (set_ram (st_bytes a (le_bytes n v) (Ahci.mem s)) s) -> wp (sto n a v) Q s.
Proof. intros Hd HQ. destruct s. apply wp_put_bytes; [by rewrite length_le_bytes | done]. Qed.

Lemma wp_memset0 a n s (Q : unit -> st -> Prop) :
  direct (hba s) a n -> Q tt (set_ram (st_bytes a (replicate (Z.to_nat n) 0) (Ahci.mem s)) s) -> wp (memset0 a n) Q s.
Proof.
  intros Hd HQ. destruct s. apply wp_put_bytes; [|done]. intros x Hx. apply Hd. unfold in_block in *.
  rewrite length_replicate in Hx. lia.
Qed.

(** Addresses inside a block known to translate to itself. *)
Ltac direct := cbn [hba set_ram length] in *; rewrite ?length_le_bytes, ?length_replicate;
  match goal with H : direct ?e _ _ |- direct ?e _ _ => eapply direct_sub; [exact H | lia | lia] end.

Lemma wp_phys_to_vir pa s (Q : Z -> st -> Prop) :
  Q (u64 (pa + HHDM_OFFSET s)) s -> wp (phys_to_vir pa) Q s.
Proof. done. Qed.

Lemma wp_vir_to_phys va s (Q : Z -> st -> Prop) :
  0 <= HHDM_OFFSET s < va -> va < 2 ^ 64 -> Q (va - HHDM_OFFSET s) s -> wp (vir_to_phys va) Q s.
Proof.
  intros Ho Hv HQ. unfold vir_to_phys. wp_steps.
  destruct (Z.eqb_spec va 0), (Z.leb_spec va (HHDM_OFFSET s)); try lia. wp_steps.
  unfold u64. by rewrite Z.mod_small by lia.
Qed.

Lemma low_field w v : Z.land (Z.lor (Z.ldiff w (Z.ones 22)) (Z.land v (Z.ones 22))) (Z.ones 22) =
  Z.land v (Z.ones 22).
Proof.
  apply Z.bits_inj'. intros i Hi. rewrite !Z.land_spec, Z.lor_spec, Z.ldiff_spec, Z.land_spec.
  destruct (Z.testbit w i), (Z.testbit v i), (Z.testbit (Z.ones 22) i); done.
Qed.

Lemma high_field w : Z.land (Z.lor (Z.ldiff w (Z.shiftl 1 31)) (Z.shiftl 1 31)) (Z.ones 22) =
  Z.land w (Z.ones 22).
Proof.
  apply Z.bits_inj'. intros i Hi. rewrite !Z.land_spec, Z.lor_spec, Z.ldiff_spec.
  destruct (Z.ltb_spec i 22).
  - replace (Z.testbit (Z.shiftl 1 31) i) with false by
      (rewrite Z.shiftl_spec_low; [done | lia]). by rewrite orb_false_r, andb_true_r.
  - rewrite (Z.ones_spec_high 22) by lia. by rewrite !andb_false_r.
Qed.

Lemma land_mod_ones z n k : 0 <= n <= k -> Z.land (z mod 2 ^ k) (Z.ones n) = Z.land z (Z.ones n).
Proof.
  intros. apply Z.bits_inj'. intros i Hi. rewrite !Z.land_spec.
  destruct (Z.ltb_spec i n).
  - by rewrite Z.mod_pow2_bits_low by lia.
  - rewrite (Z.ones_spec_high n) by lia. by rewrite !andb_false_r.
Qed.

Lemma word_at_app m a n k : word_at m a (n + k) = word_at m a n + 256 ^ Z.of_nat n * word_at m (a + Z.of_nat n) k.
Proof.
  unfold word_at. rewrite Nat2Z.inj_add, ld_bytes_app by lia.
  assert (Ha : forall l l', le_val (l ++ l') = le_val l + 256 ^ zlen l * le_val l').
  { induction l as [|b l IH]; intros l'; cbn [app le_val length]; [lia|].
    rewrite IH, Nat2Z.inj_succ, Z.pow_succ_r by lia. lia. }
  rewrite Ha, ld_bytes_length by lia. do 3 f_equal. lia.
Qed.

Lemma put_prdt_spec e phys chunk s (Q : unit -> st -> Prop) :
  direct (hba s) e 16 -> byte_ram (Ahci.mem s) -> 0 <= phys < 2 ^ 64 -> 1 <= chunk <= 4096 ->
  (forall m, changed (in_block e 16) (Ahci.mem s) m -> byte_ram m -> read_prd m e = (phys, chunk) ->
     Q tt (set_ram m s)) ->
  wp (put_prdt e phys chunk) Q s.
Proof.
  intros Hdir Hb Hp Hc HQ. unfold put_prdt. wp_steps. apply wp_sto; [direct|]. wp_steps. apply wp_sto; [direct|]. wp_steps.
  apply wp_ld_ram; [direct|]. wp_steps. apply wp_sto; [direct|]. wp_steps. apply wp_ld_ram; [direct|]. apply wp_sto; [direct|].
  unfold set_ram. cbn [Ahci.mem hba HHDM_OFFSET]. apply HQ.
  - intros x Hx. unfold in_block in Hx. rewrite !st_bytes_out; rewrite ?length_le_bytes; done || lia.
  - repeat apply st_bytes_byte; auto using le_bytes_byte.
  - unfold read_prd. f_equal.
    + rewrite (word_at_app _ e 4 4). rewrite !(word_st_disjoint 4 _ (e + 12)) by (rewrite length_le_bytes; lia).
      change (Z.of_nat 4) with 4. rewrite word_st_same, word_st_disjoint by (rewrite length_le_bytes; lia).
      rewrite word_st_same. unfold u32. change (256 ^ Z.of_nat 4) with (2 ^ 32).
      change 4294967296 with (2 ^ 32). rewrite !Z.mod_mod by lia. change (256 ^ 4) with (2 ^ 32).
      rewrite Z.shiftr_div_pow2 by lia.
      assert (0 <= phys / 2 ^ 32 < 2 ^ 32) by (split; [apply Z.div_pos; lia | apply Z.div_lt_upper_bound; lia]).
      rewrite (Z.mod_small (phys / _)) by lia. pose proof (Z.div_mod phys (2 ^ 32) ltac:(lia)). lia.
    + rewrite word_st_same. change (256 ^ Z.of_nat 4) with (2 ^ 32).
      rewrite land_mod_ones, high_field, word_st_same by lia. change (256 ^ Z.of_nat 4) with (2 ^ 32).
      rewrite land_mod_ones, low_field by lia. rewrite Z.land_ones by lia.
      unfold u32. rewrite (Z.mod_small (chunk - 1)) by lia. rewrite Z.mod_small by lia. lia.
Qed.

(** The descriptors from [t] on. *)
Definition prds (m : ram) (t n : Z) : list (Z * Z) := (fun i => read_prd m (t + 16 * i)) <$> seqZ 0 n.

Lemma prds_ext m m' t n :
  (forall x, t <= x < t + 16 * n -> m' x = m x) -> prds m' t n = prds m t n.
Proof.
  intros He. apply list_fmap_ext. intros i x Hx%lookup_seqZ. unfold read_prd.
  rewrite !(word_ext _ _ m m') by (intros; apply He; lia). done.
Qed.

Lemma prds_snoc m t n : 0 <= n -> prds m t (n + 1) = prds m t n ++ [read_prd m (t + 16 * n)].
Proof.
  intros. unfold prds. rewrite seqZ_app, fmap_app by lia. f_equal.
Qed.

Lemma low12 z : 0 <= z -> Z.land z 0xFFF = z mod 4096.
Proof. intros. change 0xFFF with (Z.ones 12). by rewrite Z.land_ones by lia. Qed.

(** The state of the loop: the segments built so far and the memory. *)
Definition prdt_inv s (t p0 total : Z) (x : Z * Z * Z) (s' : st) : Prop :=
  let '(offset, rem, i) := x in
  exists m segs, s' = set_ram m s /\ byte_ram m /\ changed (in_block t (16 * i)) (Ahci.mem s) m /\
    zlen segs = i /\ prds m t i = segs /\ contig p0 offset segs /\
    0 <= rem /\ offset + rem = total /\
    (i = 0 /\ offset = 0 \/ i <= 256 /\ (rem = 0 \/ p0 + offset = p0 - p0 mod 4096 + 4096 * i)).

Lemma build_prdt_spec ct virt total s (Q : option Z -> st -> Prop) :
  let p0 := virt - HHDM_OFFSET s in
  direct (hba s) (ct + 0x80) 0x1000 -> byte_ram (Ahci.mem s) -> 0 <= HHDM_OFFSET s < virt -> virt + total <= 2 ^ 64 -> 0 <= total ->
  p0 mod 4096 + total <= 0x100000 ->
  (forall m segs, changed (in_block (ct + 0x80) 0x1000) (Ahci.mem s) m -> byte_ram m ->
     contig p0 total segs -> zlen segs <= 256 -> prds m (ct + 0x80) (zlen segs) = segs ->
     Q (Some (zlen segs)) (set_ram m s)) ->
  wp (build_prdt ct virt total) Q s.
Proof.
  intros p0 Hdir Hb Ho Hv Ht Hp HQ. unfold build_prdt.
  pose proof (Z.mod_pos_bound p0 4096 ltac:(lia)) as Hm0.
  pose proof (Z.div_mod p0 4096 ltac:(lia)) as Hd0.
  eapply (wp_iter (prdt_inv s (ct + 0x80) p0 total) (fun x _ => Z.to_nat (257 - x.2))); [| |simpl; lia].
  - intros [[offset rem] i] s1 (m & segs & -> & Hbm & Hch & Hl & Hpr & Hc & Hr & Hs & Hi).
    destruct (Z.ltb_spec 0 rem).
    2:{ wp_steps. subst i. replace total with offset in HQ by lia. apply HQ; auto; [|lia].
        eapply changed_mono; [|exact Hch]. unfold in_block. lia. }
    assert (Hi' : 0 <= i < 256) by (unfold p0 in *; lia).
    unfold MAX_PRDT_ENTRIES. destruct (Z.leb_spec 256 i); [lia|].
    assert (Hn : 0 <= offset) by (eapply contig_nonneg; exact Hc).
    wp_steps. unfold u64. rewrite Z.mod_small by lia.
    apply wp_vir_to_phys; cbn [HHDM_OFFSET set_ram]; [lia | lia |]. wp_steps.
    replace (virt + offset - HHDM_OFFSET s) with (p0 + offset) by (unfold p0; lia).
    rewrite low12 by lia. pose proof (Z.mod_pos_bound (p0 + offset) 4096 ltac:(lia)).
    set (chunk := Z.min rem (4096 - (p0 + offset) mod 4096)).
    apply put_prdt_spec; [direct | done | lia | lia |]. intros m' Hch' Hbm' Hrd. wp_steps.
    split; [|simpl; lia]. unfold u32. rewrite Z.mod_small by lia.
    exists m', (segs ++ [(p0 + offset, chunk)]). split; [done|]. split; [done|].
    split; [|split; [|split; [|split; [|split; [lia|split; [lia|]]]]]].
    + intros y Hy. unfold in_block in Hy. rewrite Hch' by (unfold in_block; lia).
      apply Hch. unfold in_block. lia.
    + rewrite length_app. simpl. lia.
    + rewrite prds_snoc, Hrd by lia. f_equal. rewrite <- Hpr. apply prds_ext.
      intros y Hy. apply Hch'. unfold in_block. lia.
    + by apply contig_snoc; [|lia].
    + right. split; [lia|]. destruct (Z.eqb_spec (rem - chunk) 0); [by left|right].
      assert (Hck : chunk = 4096 - (p0 + offset) mod 4096) by lia. rewrite Hck.
      destruct Hi as [[-> ->]|[_ [?|Hi]]]; [rewrite Z.add_0_r in *; lia | lia|].
      rewrite Hi. replace ((p0 - p0 mod 4096 + 4096 * i) mod 4096) with 0; [lia|].
      replace (p0 - p0 mod 4096 + 4096 * i) with ((p0 / 4096 + i) * 4096) by lia. by rewrite Z.mod_mul.
  - exists (Ahci.mem s), []. split; [by destruct s|]. split; [done|]. split; [done|].
    do 3 (split; [done|]). lia.
Qed.

Lemma byte_of_low z n k : 0 <= k -> k + 8 <= n -> u8 (Z.shiftr (z mod 2 ^ n) k) = z / 2 ^ k mod 256.
Proof.
  intros Hk Hn. rewrite <- Z.shiftr_div_pow2 by lia. unfold u8. change 256 with (2 ^ 8).
  apply Z.bits_inj'. intros i Hi. destruct (Z.ltb_spec i 8).
  - rewrite !Z.mod_pow2_bits_low, !Z.shiftr_spec by lia. by rewrite Z.mod_pow2_bits_low by lia.
  - by rewrite !Z.mod_pow2_bits_high by lia.
Qed.

(** The six address bytes of the frame hold a 48-bit sector number. *)
Lemma lba_bytes lba : 0 <= lba < 2 ^ 48 ->
  let lo := u32 (Z.land lba 0xFFFFFFFF) in
  let hi := u32 (Z.land (Z.shiftr lba 32) 0xFFFFFFFF) in
  le_val [u8 lo; u8 (Z.shiftr lo 8); u8 (Z.shiftr lo 16); u8 (Z.shiftr lo 24); u8 hi; u8 (Z.shiftr hi 8)] = lba.
Proof.
  intros Hl. unfold u32. change 0xFFFFFFFF with (Z.ones 32). rewrite !Z.land_ones by lia.
  change 4294967296 with (2 ^ 32). rewrite !Z.mod_mod by lia. cbv zeta.
  set (lo := lba mod 2 ^ 32). set (hi := Z.shiftr lba 32 mod 2 ^ 32).
  replace (u8 lo) with (u8 (Z.shiftr lo 0)) by (by rewrite Z.shiftr_0_r).
  replace (u8 hi) with (u8 (Z.shiftr hi 0)) by (by rewrite Z.shiftr_0_r). unfold lo, hi.
  rewrite !byte_of_low by lia. rewrite Z.shiftr_div_pow2 by lia.
  rewrite !Z.div_div by lia. change (2 ^ 0) with 1. rewrite Z.div_1_r, Z.mul_1_r.
  rewrite <- (Z.mod_small lba (256 ^ Z.of_nat 6)) at 7 by lia. rewrite <- le_val_bytes.
  cbn [le_bytes]. rewrite !Z.div_div by lia. reflexivity.
Qed.

Lemma le_bytes_one v : le_bytes 1 v = [u8 v].
Proof. reflexivity. Qed.

Lemma u8_u8 v : u8 (u8 v) = u8 v.
Proof. unfold u8. by rewrite Z.mod_mod. Qed.

Ltac hst_step :=
  lazymatch goal with
  | |- wp (put_bytes _ _) _ _ => apply wp_put_bytes; [direct|]
  | |- wp (ld _ _) _ _ => apply wp_ld_ram; [direct|]; cbn [Ahci.mem]
  | _ => wp_step; cbv beta
  end.

(** Look up an address in a chain of one-byte stores. *)
Ltac peek := repeat first [rewrite st_byte_eq | rewrite st_byte_ne by lia].

Lemma put_fis_spec ct type lba count s (Q : unit -> st -> Prop) :
  direct (hba s) ct 20 -> byte_ram (Ahci.mem s) -> 0 <= lba < 2 ^ 48 -> 0 <= count < 65536 -> byte type ->
  (forall m, changed (in_block ct 20) (Ahci.mem s) m -> byte_ram m -> m (ct + 2) = type ->
     le_val [m (ct + 4); m (ct + 5); m (ct + 6); m (ct + 8); m (ct + 9); m (ct + 10)] = lba ->
     word_at m (ct + 12) 2 = count -> Q tt (set_ram m s)) ->
  wp (put_fis ct type (u32 (Z.land lba 0xFFFFFFFF)) (u32 (Z.land (Z.shiftr lba 32) 0xFFFFFFFF)) count) Q s.
Proof.
  intros Hdir Hb Hl Hc Ht HQ. destruct s as [e0 m0 off0]. unfold set_ram in HQ.
  cbn [Ahci.mem hba HHDM_OFFSET] in *. unfold put_fis, sto, memset0.
  repeat hst_step.
  rewrite !le_bytes_one, !u8_u8.
  match goal with |- Q tt (mk_hst _ ?m _) => set (m' := m) end.
  apply (HQ m'); clear HQ.
  - intros x Hx. unfold in_block in Hx. unfold m'. rewrite !st_byte.
    repeat match goal with |- context [x =? ?a] => destruct (Z.eqb_spec x a); [lia|] end.
    apply st_bytes_out. rewrite length_replicate. lia.
  - unfold m'. repeat apply st_bytes_byte; auto using zeros_byte; repeat constructor; apply u8_range.
  - unfold m'. peek. by apply u8_small.
  - unfold m'. peek. by apply lba_bytes.
  - unfold m'. rewrite (word_at_app _ _ 1 1), !word_one. change (Z.of_nat 1) with 1.
    replace (ct + 12 + 1) with (ct + 13) by lia. peek.
    change 255 with (Z.ones 8). rewrite !Z.land_ones, Z.shiftr_div_pow2 by lia.
    unfold u8. change (2 ^ 8) with 256. rewrite !Z.mod_mod by lia.
    assert (0 <= count / 256 < 256) by (split; [apply Z.div_pos; lia | apply Z.div_lt_upper_bound; lia]).
    rewrite (Z.mod_small (count / 256)) by lia. pose proof (Z.div_mod count 256 ltac:(lia)). lia.
Qed.

(** ** Running a command *)

Definition header s (p : Z) : Z := command_list (hba s) p + HHDM_OFFSET s.
Definition table s (p : Z) : Z := word_at (Ahci.mem s) (header s p + 8) 8 + HHDM_OFFSET s.

(** Memory of the driver, header 0 and its table, and what of it a command
    changes: the address of the table stays. *)
Definition driver_area s (p x : Z) : Prop :=
  in_block (header s p) 32 x \/ in_block (table s p) 0x1080 x.
Definition cmd_area s (p x : Z) : Prop :=
  in_block (header s p) 4 x \/ in_block (table s p) 0x1080 x.

Record port_ok (p : Z) s : Prop := {
  po_port : p <> 0;
  po_off : HHDM_OFFSET s = map_base;
  po_ready : ready p (hba s);
  po_bytes : byte_ram (Ahci.mem s);
  po_header : header s p + 32 <= 2 ^ 64;
  po_table : table s p + 0x1080 <= 2 ^ 64;
  po_disjoint : header s p + 32 <= table s p \/ table s p + 0x1080 <= header s p;
  po_owned : forall x, driver_area s p x -> owned (hba s) x;
  po_direct : forall x, driver_area s p x -> translate (hba s) x = x
}.

Lemma word_range m a n : byte_ram m -> 0 <= word_at m a n < 256 ^ Z.of_nat n.
Proof.
  intros Hm. unfold word_at. pose proof (le_val_bound _ (ld_bytes_byte a (Z.of_nat n) m Hm)) as Hr.
  rewrite ld_bytes_length in Hr by lia. by rewrite Nat2Z.id in Hr.
Qed.

Lemma join_words lo hi : 0 <= lo < 2 ^ 32 -> 0 <= hi < 2 ^ 32 ->
  Z.lor (u64 (Z.shiftl hi 32)) lo = hi * 2 ^ 32 + lo.
Proof.
  intros Hl Hh. rewrite Z.shiftl_mul_pow2 by lia. unfold u64. rewrite Z.mod_small by lia.
  by apply lor_add_disjoint.
Qed.

Lemma split_word z : 0 <= z < 2 ^ 64 -> Z.lor (u64 (Z.shiftl (Z.shiftr z 32) 32)) (u32 z) = z.
Proof.
  intros Hz. rewrite Z.shiftr_div_pow2 by lia. unfold u32. change 4294967296 with (2 ^ 32).
  rewrite join_words.
  - pose proof (Z.div_mod z (2 ^ 32) ltac:(lia)). lia.
  - apply Z.mod_pos_bound. lia.
  - split; [apply Z.div_pos; lia | apply Z.div_lt_upper_bound; lia].
Qed.

Lemma find_slot_spec p s (Q : Z -> st -> Prop) :
  ready p (hba s) -> Q 0 s -> wp (findCMDSlot p 32) Q s.
Proof.
  intros Hr HQ. destruct s as [e m off]. destruct (rd_slots e p m Hr) as [Ha Hi].
  unfold findCMDSlot. wp_step. eapply wp_rd_reg; [exact Ha|]. wp_step. eapply wp_rd_reg; [exact Hi|]. done.
Qed.

Lemma wait_not_busy_spec fuel p s (Q : Z -> st -> Prop) :
  ready p (hba s) -> (0 < fuel)%nat -> Q 0 s -> wp (wait_not_busy fuel p) Q s.
Proof.
  intros Hr Hf HQ. destruct s as [e m off]. destruct (rd_idle e p m Hr) as (v & w & Hv & Hz & _).
  destruct fuel as [|fuel]; [lia|]. unfold wait_not_busy. cbn [iter_fuel]. wp_steps.
  eapply wp_rd_reg; [exact Hv|]. change (Z.lor ATA_DEV_BUSY ATA_DEV_DRQ) with 0x88. rewrite Hz. done.
Qed.

Lemma wait_done_spec fuel p slot n e m s (Q : option Z -> st -> Prop) :
  pending p slot n (e, m) (hba s, Ahci.mem s) -> Z.of_nat n < 1000000 -> (n < fuel)%nat ->
  (forall t e' m', 0 < t -> completes p (read_command map_base m (command_list e p) slot) e m e' m' ->
     Q (Some t) (mk_hst e' m' (HHDM_OFFSET s))) ->
  wp (wait_done fuel p slot) Q s.
Proof.
  intros Hp Hn Hf HQ. unfold wait_done.
  eapply (wp_iter_idx (fun n => n) (fun n t s1 => pending p slot n (e, m) (hba s1, Ahci.mem s1) /\
    Z.of_nat n < t /\ HHDM_OFFSET s1 = HHDM_OFFSET s)); [|split; [exact Hp|]; split; [lia | done] | done].
  clear n Hp Hn Hf. intros n t s1 (Hp & Hn & Ho). wp_step. destruct n as [|n].
  - destruct (rd_done _ _ _ _ _ Hp) as (v & e' & m' & Hv & Hb & Hc).
    eapply wp_rd_reg; [exact Hv|]. rewrite Hb, Ho. apply HQ; [lia | done].
  - destruct (rd_poll _ _ _ _ _ Hp) as (v & [e1 m1] & Hv & Hb & Hp1).
    eapply wp_rd_reg; [exact Hv|]. rewrite Hb. destruct (Z.eqb_spec t 0); [lia|]. wp_step.
    destruct (rd_status _ _ _ _ _ Hp1) as (w & [e2 m2] & Hw & Hz & Hp2).
    eapply wp_rd_reg; [exact Hw|]. rewrite Hz. cbn. exists n. repeat split; [exact Hp2 | lia | done | lia].
Qed.

(** The two stores to the flags of a header set the write bit. *)
Lemma header_flags b w : w = 0 \/ w = 1 ->
  let b1 := u8 (Z.lor (Z.ldiff b 0x1F) 5) in
  Z.testbit (u8 (Z.lor (Z.ldiff b1 0x40) (Z.shiftl (Z.land w 1) 6))) 6 = (w =? 1).
Proof.
  intros Hw b1. unfold u8. change 256 with (2 ^ 8).
  rewrite Z.mod_pow2_bits_low, Z.lor_spec, Z.ldiff_spec by lia.
  destruct Hw as [->| ->]; cbn; by rewrite andb_false_r.
Qed.

(** A command built at header [h] and table [ct] as the adapter decodes it. *)
Lemma decode_built m0 m1 m3 m5 h ct off cl type w lba count segs :
  h = cl + off -> h + 32 <= ct \/ ct + 0x1080 <= h -> word_at m0 (h + 8) 8 + off = ct ->
  changed (in_block h 1) m0 m1 -> Z.testbit (m1 h) 6 = w ->
  changed (in_block (ct + 0x80) 0x1000) (st_bytes ct (replicate (Z.to_nat 4096) 0) m1) m3 ->
  prds m3 (ct + 0x80) (zlen segs) = segs -> zlen segs <= 256 ->
  changed (in_block ct 20) (st_bytes (h + 2) (le_bytes 2 (u16 (zlen segs))) m3) m5 ->
  m5 (ct + 2) = type ->
  le_val [m5 (ct + 4); m5 (ct + 5); m5 (ct + 6); m5 (ct + 8); m5 (ct + 9); m5 (ct + 10)] = lba ->
  word_at m5 (ct + 12) 2 = count ->
  read_command off m5 cl 0 = mk_cmd type w lba count segs /\
  changed (fun x => in_block h 4 x \/ in_block ct 0x1080 x) m0 m5.
Proof.
  intros -> Hd Hct H1 Hw H3 Hs Hl H5 Ht Hlba Hc.
  assert (Hx : forall x, ~ in_block (cl + off) 4 x -> ~ in_block ct 0x1080 x -> m5 x = m0 x).
  { unfold in_block. intros x Ha Hb. rewrite H5 by (unfold in_block; lia).
    rewrite st_bytes_out by (rewrite length_le_bytes; lia). rewrite H3 by (unfold in_block; lia).
    rewrite st_bytes_out by (rewrite length_replicate; lia). apply H1. unfold in_block. lia. }
  assert (Hh : m5 (cl + off) = m1 (cl + off)).
  { rewrite H5 by (unfold in_block; lia). rewrite st_bytes_out by lia.
    rewrite H3 by (unfold in_block; lia). apply st_bytes_out. rewrite length_replicate. lia. }
  assert (Hn : word_at m5 (cl + off + 2) 2 = zlen segs).
  { erewrite word_ext; [|intros x Hr; apply H5; unfold in_block; lia].
    rewrite word_st_same. unfold u16. change (256 ^ Z.of_nat 2) with 65536.
    rewrite Z.mod_mod, Z.mod_small; lia. }
  split.
  - unfold read_command. replace (cl + off + 32 * 0) with (cl + off) by lia.
    replace (word_at m5 (cl + off + 8) 8) with (word_at m0 (cl + off + 8) 8)
      by (symmetry; apply word_ext; intros; apply Hx; unfold in_block; lia).
    rewrite Hct, Ht, Hh, Hw, Hlba, Hc, Hn. f_equal. rewrite <- Hs at 2. apply prds_ext.
    intros x Hr. rewrite H5 by (unfold in_block; lia). apply st_bytes_out.
    rewrite length_le_bytes. lia.
  - intros x Hr. apply Hx; unfold in_block in *; lia.
Qed.

Lemma issue_spec fuel p s (Q : bool -> st -> Prop) :
  ready p (hba s) -> 1000000 < Z.of_nat fuel ->
  (forall e' m', completes p (read_command map_base (Ahci.mem s) (command_list (hba s) p) 0)
     (hba s) (Ahci.mem s) e' m' -> Q true (mk_hst e' m' (HHDM_OFFSET s))) ->
  wp (issue fuel p 0) Q s.
Proof.
  intros Hr Hf HQ. destruct s as [e m off]. cbn [hba Ahci.mem HHDM_OFFSET] in *. unfold issue.
  wp_step. apply wait_not_busy_spec; [done | lia |]. cbn [Z.eqb].
  wp_step. eapply wp_rd_reg; [by apply rd_slots|]. change (u32 (Z.lor 0 (Z.shiftl 1 0))) with (2 ^ 0).
  destruct (wr_issue e p m 0 Hr ltac:(lia)) as (polls & Hpolls & Hpend).
  destruct (wr_reg p PxCI (2 ^ 0) (e, m)) as [e6 m6] eqn:Hwr.
  wp_step. eapply wp_wr; [exact Hwr|]. wp_step.
  eapply wait_done_spec; [exact Hpend | done | lia |].
  intros t e' m' Ht0 Hcomp. destruct (Z.eqb_spec t 0); [lia|].
  destruct (rd_idle e' p m' (cp_ready _ _ _ _ _ _ Hcomp)) as (v & v' & _ & _ & Hv' & Hz').
  wp_step. eapply wp_rd_reg; [exact Hv'|]. rewrite Hz'. apply wp_ret. by apply HQ.
Qed.

Lemma table_join s p : byte_ram (Ahci.mem s) ->
  Z.lor (u64 (Z.shiftl (word_at (Ahci.mem s) (header s p + 12) 4) 32)) (word_at (Ahci.mem s) (header s p + 8) 4) +
    HHDM_OFFSET s = table s p.
Proof.
  intros Hb. pose proof (word_range (Ahci.mem s) (header s p + 8) 4 Hb).
  pose proof (word_range (Ahci.mem s) (header s p + 12) 4 Hb).
  rewrite join_words by (change (256 ^ Z.of_nat 4) with (2 ^ 32) in *; lia).
  unfold table. rewrite (word_at_app _ _ 4 4). change (256 ^ Z.of_nat 4) with (2 ^ 32).
  change (Z.of_nat 4) with 4. replace (header s p + 8 + 4) with (header s p + 12) by lia. lia.
Qed.

(** A transfer the driver can describe in one command. *)
Record transfer (lba count buf : Z) : Prop := {
  tr_lba : 0 <= lba < 2 ^ 48;
  tr_count : 0 < count < 65536;
  tr_buf : 0 < buf /\ buf + map_base + 512 * count <= 2 ^ 64;
  tr_segs : buf mod 4096 + 512 * count <= 0x100000
}.

Lemma run_spec fuel type w p lba count buf s (Q : bool -> st -> Prop) :
  port_ok p s -> byte type -> w = 0 \/ w = 1 -> transfer lba count buf ->
  1000000 < Z.of_nat fuel ->
  (forall mB segs e' m', changed (cmd_area s p) (Ahci.mem s) mB -> byte_ram mB ->
     contig buf (512 * count) segs ->
     completes p (mk_cmd type (w =? 1) lba count segs) (hba s) mB e' m' ->
     Q true (mk_hst e' m' (HHDM_OFFSET s))) ->
  wp (runCommand fuel type w p (u32 (Z.land lba 0xFFFFFFFF)) (u32 (Z.land (Z.shiftr lba 32) 0xFFFFFFFF))
        count buf) Q s.
Proof.
  intros Hok Ht Hw [Hlba Hcnt Hbuf Hsegs] Hf HQ. destruct Hok as [Hp Ho Hr Hb Hh Htb Hd _ Hdir].
  assert (Hdh : direct (hba s) (header s p) 32) by (intros x Hx; apply Hdir; by left).
  assert (Hdt : direct (hba s) (table s p) 0x1080) by (intros x Hx; apply Hdir; by right). clear Hdir.
  pose proof map_base_pos as Hmb. pose proof (command_list_range (hba s) p) as Hcl.
  pose proof (table_join s p Hb) as Hj. destruct s as [e m off]. cbn [Ahci.mem hba HHDM_OFFSET] in *. subst off.
  set (h := header _ p) in *. set (ct := table _ p) in *.
  assert (Hh0 : h = command_list e p + map_base) by done.
  assert (Hct0 : map_base <= ct) by (pose proof (word_range m (h + 8) 8 Hb); change ct with (word_at m (h + 8) 8 + map_base); lia).
  unfold runCommand. destruct (Z.eqb_spec p 0); [done|]. wp_step.
  eapply wp_wr; [by apply wr_clear|]. wp_step. apply find_slot_spec; [done|]. cbn [Z.eqb].
  wp_step. eapply wp_rd_reg; [by apply rd_clbu|]. wp_step. eapply wp_rd_reg; [by apply rd_clb|].
  wp_step. apply wp_phys_to_vir. cbn [hba Ahci.mem HHDM_OFFSET].
  rewrite split_word by done. rewrite <- Hh0.
  replace (u64 h) with h by (unfold u64; rewrite Z.mod_small; lia).
  destruct (Z.eqb_spec h 0); [lia|]. replace (h + 32 * 0) with h by lia.
  unfold sto, memset0. do 9 hst_step. rewrite !le_bytes_one, !word_one, st_byte_eq.
  match goal with |- wp _ _ (mk_hst _ ?mm _) => set (m1 := mm) end.
  assert (Hm1 : changed (in_block h 1) m m1).
  { intros x Hx. unfold m1, in_block in *. by rewrite !st_byte_ne by lia. }
  assert (Hb1 : byte_ram m1) by (repeat apply st_bytes_byte; auto; repeat constructor; apply u8_range).
  assert (Hf1 : Z.testbit (m1 h) 6 = (w =? 1)) by (unfold m1; rewrite st_byte_eq; by apply header_flags).
  do 4 hst_step. rewrite !(changed_word _ m m1) by (done || unfold in_block; lia).
  apply wp_phys_to_vir. cbn [hba Ahci.mem HHDM_OFFSET]. rewrite Hj.
  replace (u64 ct) with ct by (unfold u64; rewrite Z.mod_small; lia).
  destruct (Z.eqb_spec ct 0); [lia|]. do 3 hst_step. apply wp_phys_to_vir. cbn [hba Ahci.mem HHDM_OFFSET].
  replace (u32 (Z.shiftl count 9)) with (512 * count)
    by (rewrite Z.shiftl_mul_pow2 by lia; unfold u32; rewrite Z.mod_small; lia).
  replace (u64 (buf + map_base)) with (buf + map_base) by (unfold u64; rewrite Z.mod_small; lia).
  wp_step. apply build_prdt_spec; cbn [hba Ahci.mem HHDM_OFFSET]; rewrite ?Z.add_simpl_r;
    [direct| |lia|lia|lia|lia|].
  { apply st_bytes_byte; [done | apply zeros_byte]. }
  intros m3 segs Hch3 Hb3 Hseg Hlen Hprd. unfold set_ram. cbn [hba HHDM_OFFSET]. do 3 hst_step.
  apply put_fis_spec; cbn [hba Ahci.mem HHDM_OFFSET]; [direct | |done|lia|done|].
  { apply st_bytes_byte; [done | apply le_bytes_byte]. }
  intros m5 Hch5 Hb5 Hty Hlb Hct. unfold set_ram. cbn [hba HHDM_OFFSET].
  destruct (decode_built m m1 m3 m5 h ct map_base (command_list e p) type (w =? 1) lba count segs)
    as [Hdec Hchg]; try done.
  apply issue_spec; [done | done |]. cbn [hba Ahci.mem HHDM_OFFSET]. rewrite Hdec. intros e' m'. by apply HQ.
Qed.

(** ** Commands of sata_disk.c *)

(** The port is as usable as before, with the same command memory. *)
Record stepped (p : Z) s s' : Prop := {
  sp_ok : port_ok p s';
  sp_header : header s' p = header s p;
  sp_table : table s' p = table s p;
  sp_kept : kept p (hba s) (hba s')
}.

Lemma kept_refl p e : kept p e e.
Proof. by constructor. Qed.

Lemma kept_trans p e1 e2 e3 : kept p e1 e2 -> kept p e2 e3 -> kept p e1 e3.
Proof.
  intros [R1 S1 I1 L1 O1 T1 D1] [R2 S2 I2 L2 O2 T2 D2]. constructor; intros; auto.
  - by rewrite S2.
  - by rewrite I2.
  - by rewrite L2.
  - rewrite T2, T1; [done | done |]. rewrite T1 by done. by apply O1.
  - rewrite D2 by done. by apply D1.
Qed.

Lemma stepped_trans p s1 s2 s3 : stepped p s1 s2 -> stepped p s2 s3 -> stepped p s1 s3.
Proof.
  intros [O1 H1 T1 K1] [O2 H2 T2 K2].
  constructor; [done | congruence | congruence | by eapply kept_trans].
Qed.

Lemma stepped_area p s s' x : stepped p s s' -> driver_area s' p x <-> driver_area s p x.
Proof. intros [_ Hh Ht _]. unfold driver_area. by rewrite Hh, Ht. Qed.

Lemma stepped_intro p s e' m' :
  port_ok p s -> kept p (hba s) e' -> byte_ram m' ->
  (forall x, in_block (header s p + 8) 8 x -> m' x = Ahci.mem s x) ->
  stepped p s (mk_hst e' m' (HHDM_OFFSET s)).
Proof.
  intros [Hp Ho Hr Hb Hh Ht Hd How Hdir] Hk Hb' Hm. set (s' := mk_hst _ _ _).
  assert (Eh : header s' p = header s p) by (unfold header; simpl; by rewrite (k_list _ _ _ Hk)).
  assert (Et : table s' p = table s p).
  { unfold table. rewrite Eh. f_equal. apply word_ext. intros x Hx. apply Hm. unfold in_block. lia. }
  constructor; [|done|done|done]. constructor; rewrite ?Eh, ?Et; try done.
  - by apply (k_ready _ _ _ Hk).
  - intros x Hx. apply (k_owned _ _ _ Hk), How. unfold driver_area in *. by rewrite Eh, Et in Hx.
  - intros x Hx. assert (Hx' : driver_area s p x) by (unfold driver_area in *; by rewrite Eh, Et in Hx).
    pose proof (Hdir x Hx') as Hd'. cbn [hba s']. rewrite (k_trans _ _ _ Hk); [done|]. rewrite Hd'. by apply How.
Qed.

(** [n] bytes of the caller at physical address [buf]. *)
Record buffer_ok (p buf n : Z) s : Prop := {
  bf_pos : 0 < buf;
  bf_end : buf + map_base + n <= 2 ^ 64;
  bf_free : forall x, in_block (buf + map_base) n x -> ~ driver_area s p x
}.

Lemma cmd_driver s p x : cmd_area s p x -> driver_area s p x.
Proof. unfold cmd_area, driver_area, in_block. lia. Qed.

(** Memory after a command that fills the buffer with [data]. *)
Lemma filled_stepped p s mB e' m' buf data segs :
  port_ok p s -> changed (cmd_area s p) (Ahci.mem s) mB -> byte_ram mB -> kept p (hba s) e' ->
  contig buf (zlen data) segs -> buffer_ok p buf (zlen data) s -> Forall byte data ->
  (forall x, m' x = scatter map_base segs data mB x) ->
  stepped p s (mk_hst e' m' (HHDM_OFFSET s)) /\
  forall x, ~ cmd_area s p x -> m' x = st_bytes (buf + map_base) data (Ahci.mem s) x.
Proof.
  intros Hok Hc Hb Hk Hs [Hp He Hf] Hd Hm.
  assert (Hm' : forall x, m' x = st_bytes (buf + map_base) data mB x).
  { intros x. rewrite Hm. by eapply scatter_contig. }
  split.
  - apply stepped_intro; [done | done | |].
    + intros x. rewrite Hm'. by apply st_bytes_byte.
    + intros x Hx. rewrite Hm', st_bytes_out; [apply Hc|].
      * pose proof (po_disjoint _ _ Hok). unfold cmd_area, in_block in *. lia.
      * destruct (decide (in_block (buf + map_base) (zlen data) x)) as [Hi|]; [|unfold in_block in *; lia].
        exfalso. apply (Hf x Hi). left. unfold in_block in *. lia.
  - intros x Hx. rewrite Hm'. by apply st_bytes_ext, Hc.
Qed.

(** The sectors of a drive as one buffer. *)
Definition sectors_of (e : E) (p lba n : Z) : list Z := mjoin (drive e p <$> seqZ lba n).

Lemma sectors_of_cons e p lba n : 0 < n ->
  sectors_of e p lba n = drive e p lba ++ sectors_of e p (lba + 1) (n - 1).
Proof.
  intros. unfold sectors_of. rewrite seqZ_cons by done. simpl. by rewrite <- Z.add_1_r, <- Z.sub_1_r.
Qed.

Lemma sectors_of_app e p lba n k : 0 <= n -> 0 <= k ->
  sectors_of e p lba (n + k) = sectors_of e p lba n ++ sectors_of e p (lba + n) k.
Proof. intros. unfold sectors_of. by rewrite seqZ_app, fmap_app, join_app. Qed.

Lemma sectors_of_ok e p lba n : 0 <= n ->
  zlen (sectors_of e p lba n) = 512 * n /\ Forall byte (sectors_of e p lba n).
Proof.
  intros Hn. split.
  - revert lba. pattern n. apply natlike_ind; [done| |done].
    intros x Hx IH lba. rewrite sectors_of_cons by lia. rewrite length_app, (proj1 (drive_sector _ _ _)).
    replace (Z.succ x - 1) with x by lia. specialize (IH (lba + 1)). lia.
  - apply Forall_join, Forall_fmap, Forall_true. intros. apply drive_sector.
Qed.

Lemma sectors_of_ext e e' p lba n :
  (forall l, drive e' p l = drive e p l) -> sectors_of e' p lba n = sectors_of e p lba n.
Proof. intros He. unfold sectors_of. f_equal. apply list_fmap_ext. intros. apply He. Qed.

Lemma run_read_spec fuel p lba count buf s (Q : bool -> st -> Prop) :
  port_ok p s -> transfer lba count buf -> lba + count <= drive_size (hba s) p ->
  buffer_ok p buf (512 * count) s -> 1000000 < Z.of_nat fuel ->
  (forall s', stepped p s s' -> (forall q l, drive (hba s') q l = drive (hba s) q l) ->
     heap_room (hba s') = heap_room (hba s) ->
     (forall x, ~ cmd_area s p x -> Ahci.mem s' x =
        st_bytes (buf + map_base) (sectors_of (hba s) p lba count) (Ahci.mem s) x) -> Q true s') ->
  wp (runCommand fuel ATA_CMD_READ_DMA_EX 0 p (u32 (Z.land lba 0xFFFFFFFF))
        (u32 (Z.land (Z.shiftr lba 32) 0xFFFFFFFF)) count buf) Q s.
Proof.
  intros Hok Ht Hsz Hbf Hf HQ. pose proof (tr_count _ _ _ Ht) as Hc.
  destruct (sectors_of_ok (hba s) p lba count ltac:(lia)) as [Hl Hby].
  apply run_spec; try done; [by left|].
  intros mB segs e' m' Hch Hb Hseg [Hre Hk Hrm Hrd _ _].
  destruct Hrd as [Hd Hm]; cbn [c_type c_write c_lba c_count c_segs] in *; try done; try lia.
  { by rewrite (contig_bytes _ _ _ Hseg). }
  destruct (filled_stepped p s mB e' m' buf (sectors_of (hba s) p lba count) segs) as [Hst Hx];
    rewrite ?Hl; try done.
  apply HQ; [done | | done | done]. intros q l. destruct (Z.eqb_spec q p) as [->|]; [apply Hd|].
  by apply (k_drive _ _ _ Hk).
Qed.

Lemma run_write_spec fuel p lba count buf s (Q : bool -> st -> Prop) :
  port_ok p s -> transfer lba count buf -> lba + count <= drive_size (hba s) p ->
  buffer_ok p buf (512 * count) s -> 1000000 < Z.of_nat fuel ->
  (forall s', stepped p s s' -> heap_room (hba s') = heap_room (hba s) ->
     (forall l, drive (hba s') p l = write_sectors lba count
        (ld_bytes (buf + map_base) (512 * count) (Ahci.mem s)) (drive (hba s) p) l) ->
     (forall x, ~ cmd_area s p x -> Ahci.mem s' x = Ahci.mem s x) -> Q true s') ->
  wp (runCommand fuel ATA_CMD_WRITE_DMA_EX 1 p (u32 (Z.land lba 0xFFFFFFFF))
        (u32 (Z.land (Z.shiftr lba 32) 0xFFFFFFFF)) count buf) Q s.
Proof.
  intros Hok Ht Hsz [Hbp Hbe Hbf] Hf HQ. pose proof (tr_count _ _ _ Ht) as Hc.
  apply run_spec; try done; [by right|].
  intros mB segs e' m' Hch Hb Hseg [Hre Hk Hrm _ Hwr _].
  destruct Hwr as [Hd Hm]; cbn [c_type c_write c_lba c_count c_segs] in *; try done; try lia.
  { by rewrite (contig_bytes _ _ _ Hseg). }
  apply HQ; cbn [hba Ahci.mem]; [|done| |].
  - apply stepped_intro; [done | done | intros x; rewrite Hm; apply Hb |].
    intros x Hx. rewrite Hm. apply Hch. pose proof (po_disjoint _ _ Hok).
    unfold cmd_area, in_block in *. lia.
  - intros l. rewrite Hd, (gather_contig _ _ _ _ _ Hseg). f_equal. apply ld_bytes_ext.
    intros x Hx. apply Hch. intros Hc'%cmd_driver. by apply (Hbf x).
  - intros x Hx. rewrite Hm. by apply Hch.
Qed.

Lemma run_identify_spec fuel p buf s (Q : bool -> st -> Prop) :
  port_ok p s -> buffer_ok p buf 512 s -> buf mod 4096 = 0 -> 1000000 < Z.of_nat fuel ->
  (forall s', stepped p s s' -> (forall q l, drive (hba s') q l = drive (hba s) q l) ->
     heap_room (hba s') = heap_room (hba s) ->
     ld_bytes (buf + map_base) 512 (Ahci.mem s') = identity (hba s) p ->
     (forall x, ~ driver_area s p x -> ~ in_block (buf + map_base) 512 x ->
        Ahci.mem s' x = Ahci.mem s x) -> Q true s') ->
  wp (runCommand fuel ATA_CMD_IDENTIFY 0 p 0 0 1 buf) Q s.
Proof.
  intros Hok Hbf Hal Hf HQ. destruct (identity_sector (hba s) p) as [Hl Hby].
  refine (run_spec fuel ATA_CMD_IDENTIFY 0 p 0 1 buf s Q _ _ _ _ _ _); try done; [by left | |].
  { destruct Hbf. constructor; lia. }
  intros mB segs e' m' Hch Hb Hseg [Hre Hk Hrm _ _ Hid].
  destruct Hid as [Hd Hm]; cbn [c_type c_write c_lba c_count c_segs] in *; try done.
  { by rewrite (contig_bytes _ _ _ Hseg). }
  destruct (filled_stepped p s mB e' m' buf (identity (hba s) p) segs) as [Hst Hx];
    rewrite ?Hl; try done.
  apply HQ; cbn [hba Ahci.mem]; [done | | done | |].
  - intros q l. destruct (Z.eqb_spec q p) as [->|]; [apply Hd|]. by apply (k_drive _ _ _ Hk).
  - rewrite <- (ld_st_same (buf + map_base) (identity (hba s) p) (Ahci.mem s)), Hl.
    apply ld_bytes_ext. intros x Hr. apply Hx. intros Hc%cmd_driver. by apply (bf_free _ _ _ _ Hbf x).
  - intros x Hn Hi. rewrite Hx by (intros Hc%cmd_driver; done). apply st_bytes_out.
    unfold in_block in Hi. rewrite Hl. lia.
Qed.

Lemma word_load m b id o n : ld_bytes b 512 m = id -> 0 <= o -> o + Z.of_nat n <= 512 ->
  word_at m (b + o) n = load n o id.
Proof.
  intros <- Ho Hn. unfold word_at, load. f_equal. apply list_eq. intros i.
  destruct (decide (i < n)%nat).
  - rewrite lookup_slice by lia. unfold ld_bytes. rewrite !list_lookup_fmap, !lookup_seqZ_lt by lia.
    cbn [fmap option_fmap option_map]. do 2 f_equal. lia.
  - rewrite !lookup_ge_None_2; [done | |].
    + rewrite length_slice; rewrite ?ld_bytes_length; lia.
    + rewrite ld_bytes_length; lia.
Qed.

Lemma join4 a b c d : 0 <= a < 2 ^ 16 -> 0 <= b < 2 ^ 16 -> 0 <= c < 2 ^ 16 ->
  Z.lor (Z.lor (Z.lor (Z.shiftl d 48) (Z.shiftl c 32)) (Z.shiftl b 16)) a =
  a + 2 ^ 16 * (b + 2 ^ 16 * (c + 2 ^ 16 * d)).
Proof.
  intros Ha Hb Hc. rewrite !Z.shiftl_mul_pow2 by lia.
  rewrite lor_add_disjoint by lia. replace (d * 2 ^ 48 + c * 2 ^ 32) with ((d * 2 ^ 16 + c) * 2 ^ 32) by ring.
  rewrite lor_add_disjoint by lia.
  replace ((d * 2 ^ 16 + c) * 2 ^ 32 + b * 2 ^ 16) with (((d * 2 ^ 16 + c) * 2 ^ 16 + b) * 2 ^ 16) by ring.
  rewrite lor_add_disjoint by lia. ring.
Qed.

(** A state that differs from [s] only in the driver's memory and in memory
    that was not in use. *)
Definition quiet_step p s s' : Prop :=
  stepped p s s' /\ (forall q l, drive (hba s') q l = drive (hba s) q l) /\
  forall x, owned (hba s) x -> ~ driver_area s p x -> Ahci.mem s' x = Ahci.mem s x.

(** A page translates to itself or to another page. *)
Lemma page_direct e b : map_base <= b -> (b - map_base) mod 4096 = 0 -> translate e b = b -> direct e b 512.
Proof.
  intros Hb Hm Ht x Hx. unfold in_block in Hx.
  assert (Hxm : map_base <= x) by lia. destruct (translate_page e x Hxm) as [-> _].
  replace ((x - map_base) mod 4096) with (x - b); [replace (x - (x - b)) with b by lia; lia|].
  replace (x - map_base) with (x - b + (b - map_base)) by lia. rewrite Z.add_mod, Hm by lia.
  rewrite Z.add_0_r, Z.mod_mod, Z.mod_small by lia. done.
Qed.

Lemma page_moved e b x : map_base <= b -> (b - map_base) mod 4096 = 0 -> translate e b <> b ->
  in_block b 512 x -> ~ in_block b 512 (translate e x).
Proof.
  intros Hb Hm Ht Hx Hi. unfold in_block in *.
  assert (Hxm : map_base <= x) by lia. destruct (translate_page e x Hxm) as [He _].
  destruct (translate_page e b Hb) as [_ Hmb]. rewrite Hm in Hmb.
  replace ((x - map_base) mod 4096) with (x - b) in He.
  2:{ replace (x - map_base) with (x - b + (b - map_base)) by lia. rewrite (Z.add_mod (x - b)), Hm by lia.
      rewrite Z.add_0_r, Z.mod_mod, Z.mod_small by lia. done. }
  replace (x - (x - b)) with b in He by lia. pose proof (Z.div_mod (b - map_base) 4096 ltac:(lia)).
  pose proof (Z.div_mod (translate e b - map_base) 4096 ltac:(lia)). lia.
Qed.

(** The IDENTIFY answer goes to the frame that the direct map has at the
    address of the buffer.  The driver reads it if that is the buffer's own
    frame; otherwise it reads the zeros it put there before. *)
Lemma identify_spec fuel p s k b e (Q : option (Z * bool) -> st -> Prop) :
  port_ok p s -> heap_room (hba s) = S k -> heap_alloc 512 (hba s) = (b, e) -> 1000000 < Z.of_nat fuel ->
  (forall s', quiet_step p s s' -> heap_room (hba s') = k ->
     ld_through (translate (hba s')) b 512 (Ahci.mem s') =
       (if translate e b =? b then identity (hba s) p else replicate 512 0) -> Q (Some (b, true)) s') ->
  wp (identify fuel p) Q s.
Proof.
  intros Hok Hk Ha Hf HQ. unfold identify, kheap_alloc. wp_step. unfold wp at 1. rewrite Ha.
  destruct (heap_total _ _ _ _ _ Ha ltac:(lia) Hk) as (Hb0 & Hroom & Hspare).
  destruct (heap_fresh (hba s) 512 b e eq_refl Ha Hb0) as (Hfr & Hmb & Hend & Hal).
  destruct (heap_frame _ _ _ _ Ha) as [Hdr Hke]. specialize (Hke p).
  destruct (Z.eqb_spec b 0); [done|]. wp_step. unfold memset0, put_bytes. apply wp_modify.
  unfold set_ram. cbn [hba Ahci.mem HHDM_OFFSET]. set (m1 := st_through _ _ _ _).
  assert (Hfree : forall x, in_block b 512 x -> ~ driver_area s p x)
    by (intros x Hx Hd; by apply (Hspare x Hx), (po_owned _ _ Hok)).
  assert (Hm1 : forall x, owned (hba s) x -> m1 x = Ahci.mem s x).
  { intros x Hx. apply st_through_out. intros y Hy <-. apply (proj1 (Hfr y Hy)), Hx. }
  pose proof (po_off _ _ Hok) as Ho. pose proof map_base_pos as Hmp.
  assert (Hs1 : stepped p s (mk_hst e m1 (HHDM_OFFSET s))).
  { apply stepped_intro; [done | done | |].
    - apply st_through_byte; [apply (po_bytes _ _ Hok) | apply zeros_byte].
    - intros x Hx. apply Hm1, (po_owned _ _ Hok). left. unfold in_block in *. lia. }
  wp_step. apply wp_vir_to_phys; cbn [HHDM_OFFSET]; [lia | lia |]. rewrite Ho.
  rewrite Ho in Hs1. wp_step. apply run_identify_spec; [apply Hs1 | | done | done |].
  { constructor; [lia | lia |]. rewrite Z.sub_add. intros x Hx.
    rewrite (stepped_area _ _ _ _ Hs1). by apply Hfree. }
  rewrite Z.sub_add. cbn [hba Ahci.mem]. intros s' Hs' Hd' Hr' Hid Hx'.
  rewrite (k_ident _ _ _ Hke) in Hid.
  assert (Htr : forall x, in_block b 512 x -> translate (hba s') x = translate e x)
    by (intros x Hx; by apply (k_trans _ _ _ (sp_kept _ _ _ Hs')), Hfr).
  apply wp_ret, HQ; [|congruence |].
  - split; [by eapply stepped_trans|]. split; [intros; by rewrite Hd', Hdr|].
    intros x Hx Hn. rewrite Hx', Hm1; [done | done | by rewrite (stepped_area _ _ _ _ Hs1) |].
    intros Hi. by apply (Hspare x Hi).
  - destruct (Z.eqb_spec (translate e b) b) as [Hdi|Hmo].
    + rewrite <- Hid. apply ld_through_direct. intros x Hx. rewrite Htr by done.
      by apply (page_direct e b ltac:(lia) Hal Hdi).
    + apply list_eq. intros i. unfold ld_through. rewrite list_lookup_fmap.
      destruct (decide (i < 512)%nat); [|by rewrite lookup_seqZ_ge, lookup_ge_None_2 by (rewrite ?length_replicate; lia)].
      rewrite lookup_seqZ_lt, lookup_replicate_2 by lia. cbn [fmap option_fmap option_map]. f_equal.
      set (x := b + Z.of_nat i). assert (Hx : in_block b 512 x) by (unfold in_block, x; lia).
      rewrite Htr by done. rewrite Hx'.
      * apply st_through_zeros. right. exists x. split; [unfold x; lia | done].
      * rewrite (stepped_area _ _ _ _ Hs1). intros Hd. by apply (proj1 (Hfr x Hx)), (po_owned _ _ Hok).
      * by apply page_moved; [lia | ..].
Qed.

Lemma wp_id_word b i s id (Q : Z -> st -> Prop) :
  ld_through (translate (hba s)) b 512 (Ahci.mem s) = id -> 0 <= i <= 255 -> Q (load 2 (2 * i) id) s ->
  wp (id_word b i) Q s.
Proof.
  intros Hb Hi HQ. unfold id_word, ld. apply wp_gets.
  set (m := fun x => Ahci.mem s (translate (hba s) x)).
  change (Q (word_at m (b + 2 * i) 2) s). by rewrite (word_load m _ id) by (done || lia).
Qed.

Lemma load_app n k o id : 0 <= o -> o + Z.of_nat n + Z.of_nat k <= zlen id ->
  load (n + k) o id = load n o id + 256 ^ Z.of_nat n * load k (o + Z.of_nat n) id.
Proof.
  intros Ho Hl. set (m := fun x => default 0 (id !! Z.to_nat x)).
  assert (Hld : forall j q, 0 <= q -> q + Z.of_nat j <= zlen id -> word_at m q j = load j q id).
  { intros j q Hq Hj. unfold word_at, load. f_equal. apply list_eq. intros i. unfold ld_bytes.
    destruct (decide (i < j)%nat).
    - rewrite lookup_slice, list_lookup_fmap, lookup_seqZ_lt by lia. simpl. unfold m.
      destruct (lookup_lt_is_Some_2 id (Z.to_nat q + i)) as [v Hv]; [lia|]. rewrite Hv.
      by replace (Z.to_nat (q + Z.of_nat i)) with (Z.to_nat q + i)%nat by lia; rewrite Hv.
    - rewrite !lookup_ge_None_2; [done | |]; rewrite ?length_slice, ?length_fmap, ?length_seqZ; lia. }
  rewrite <- !Hld by lia. apply word_at_app.
Qed.

Lemma size_words_spec b s id (Q : Z -> st -> Prop) :
  ld_through (translate (hba s)) b 512 (Ahci.mem s) = id -> length id = 512%nat -> Forall byte id ->
  Q (id_sectors id) s -> wp (size_words b) Q s.
Proof.
  intros Hb Hl Hby HQ. unfold size_words, id_sectors in *.
  assert (Hw : forall o, 0 <= o <= 510 -> 0 <= load 2 o id < 2 ^ 16).
  { intros o Ho. apply (load_bound 2 o id Hby); lia. }
  wp_step. apply (wp_id_word _ _ _ id); [done | lia |]. change (2 * 83) with 166. rewrite land_bit, negb_involutive by lia.
  destruct (Z.testbit (load 2 166 id) 10).
  - do 4 (wp_step; apply (wp_id_word _ _ _ id); [done | lia |]). apply wp_ret.
    rewrite join4 by (apply Hw; lia). change 8%nat with (2 + (2 + (2 + 2)))%nat in HQ.
    rewrite !load_app in HQ by lia. exact HQ.
  - do 2 (wp_step; apply (wp_id_word _ _ _ id); [done | lia |]). apply wp_ret.
    change 4%nat with (2 + 2)%nat in HQ. rewrite load_app in HQ by lia.
    rewrite Z.shiftl_mul_pow2, lor_add_disjoint by (lia || apply Hw; lia).
    rewrite Z.add_comm, (Z.mul_comm _ (2 ^ 16)). exact HQ.
Qed.

(** The size the driver finds: that of the drive, or 0. *)
Definition found_size (e : E) (p : Z) : Z :=
  let '(b, e') := heap_alloc 512 e in if translate e' b =? b then drive_size e p else 0.

Lemma found_size_cases e p : found_size e p = drive_size e p \/ found_size e p = 0.
Proof. unfold found_size. destruct (heap_alloc 512 e). case_if; auto. Qed.

Lemma total_sectors_spec fuel p s k (Q : Z -> st -> Prop) :
  port_ok p s -> heap_room (hba s) = S k -> 1000000 < Z.of_nat fuel ->
  (forall s', quiet_step p s s' -> heap_room (hba s') = k -> Q (found_size (hba s) p) s') ->
  wp (sata_get_total_sectors fuel p) Q s.
Proof.
  intros Hok Hk Hf HQ. unfold sata_get_total_sectors. unfold found_size in HQ.
  destruct (heap_alloc 512 (hba s)) as [b e] eqn:Ha. wp_step. eapply identify_spec; [done..|].
  intros s' Hq Hr Hid. destruct (identity_sector (hba s) p). eapply size_words_spec; [exact Hid | | |].
  - by case_if.
  - case_if; [done | apply zeros_byte].
  - specialize (HQ s' Hq Hr). case_if; [by rewrite identity_size by apply (po_ready _ _ Hok) | exact HQ].
Qed.

(** [n] bytes in use by the caller, apart from the driver's memory. *)
Record caller_buffer (p buf n : Z) s : Prop := {
  cb_pos : 0 < buf;
  cb_end : buf + map_base + n <= 2 ^ 64;
  cb_own : forall x, in_block (buf + map_base) n x -> owned (hba s) x /\ ~ driver_area s p x
}.

Lemma sub_buffer p buf n s s' o k :
  caller_buffer p buf n s -> stepped p s s' -> 0 <= o -> 0 <= k -> o + k <= n ->
  buffer_ok p (buf + o) k s'.
Proof.
  intros [Hp He Ho] Hs Hk Hk' Hn. constructor; [lia | lia |].
  intros x Hx. rewrite (stepped_area _ _ _ _ Hs). apply Ho. unfold in_block in *. lia.
Qed.

(** After [d] sectors of a read of [lba] into [buf]. *)
Definition read_inv p lba count buf s (x : Z * Z * Z) (s' : st) : Prop :=
  let '(l, rem, b) := x in
  let d := count - rem in
  0 <= rem <= count /\ l = lba + d /\ b = buf + 512 * d /\
  stepped p s s' /\ (forall q i, drive (hba s') q i = drive (hba s) q i) /\
  heap_room (hba s') = heap_room (hba s) /\
  ld_bytes (buf + map_base) (512 * d) (Ahci.mem s') = sectors_of (hba s) p lba d /\
  forall x, ~ driver_area s p x -> ~ in_block (buf + map_base) (512 * count) x ->
    Ahci.mem s' x = Ahci.mem s x.

Lemma read_round fuel p lba count buf s l rem b s1 :
  port_ok p s -> caller_buffer p buf (512 * count) s -> 0 <= lba ->
  lba + count <= drive_size (hba s) p -> 1000000 < Z.of_nat fuel ->
  read_inv p lba count buf s (l, rem, b) s1 -> 0 < rem ->
  let chunk := if MAX_SECTORS_PER_CMD <? rem then MAX_SECTORS_PER_CMD else rem in
  wp (runCommand fuel ATA_CMD_READ_DMA_EX 0 p (u32 (Z.land l 0xFFFFFFFF))
        (u32 (Z.land (Z.shiftr l 32) 0xFFFFFFFF)) chunk b)
    (fun ok s2 => ok = true /\
       read_inv p lba count buf s (l + chunk, rem - chunk, b + 512 * chunk) s2) s1.
Proof.
  intros Hok Hcb Hl Hsz Hf (Hr & -> & -> & Hst & Hdr & Hrm & Hld & Hx) Hpos chunk.
  pose proof (drive_size_range _ _ (po_ready _ _ Hok)) as Hds.
  assert (Hch : 0 < chunk <= rem /\ chunk <= 32) by (unfold chunk, MAX_SECTORS_PER_CMD; case_if; lia).
  set (d := count - rem) in *. pose proof (cb_pos _ _ _ _ Hcb). pose proof (cb_end _ _ _ _ Hcb).
  pose proof (Z.mod_pos_bound (buf + 512 * d) 4096 ltac:(lia)).
  apply run_read_spec; [apply Hst | constructor; lia | rewrite (k_size _ _ _ (sp_kept _ _ _ Hst)); lia
    | apply (sub_buffer p buf (512 * count) s); [done | done | lia | lia | lia] | done |].
  intros s2 Hst2 Hdr2 Hrm2 Hx2. split; [done|]. unfold read_inv.
  replace (count - (rem - chunk)) with (d + chunk) by lia.
  rewrite (sectors_of_ext (hba s) (hba s1)) in Hx2 by (intros; apply Hdr).
  destruct (sectors_of_ok (hba s) p (lba + d) chunk ltac:(lia)) as [Hln _].
  assert (Hcmd : forall x, in_block (buf + map_base) (512 * count) x -> ~ cmd_area s1 p x).
  { intros x Hi Hc%cmd_driver. rewrite (stepped_area _ _ _ _ Hst) in Hc. by apply (cb_own _ _ _ _ Hcb x). }
  split; [lia|]. split; [lia|]. split; [lia|]. split; [by eapply stepped_trans|].
  split; [intros; by rewrite Hdr2|]. split; [congruence|]. split.
  - replace (512 * (d + chunk)) with (512 * d + 512 * chunk) by lia.
    rewrite ld_bytes_app, sectors_of_app by lia. f_equal.
    + rewrite <- Hld. apply ld_bytes_ext. intros x Hi. rewrite Hx2 by (apply Hcmd; unfold in_block; lia).
      apply st_bytes_out. lia.
    + rewrite <- (ld_st_same (buf + 512 * d + map_base) (sectors_of (hba s) p (lba + d) chunk) (Ahci.mem s1)), Hln.
      replace (buf + map_base + 512 * d) with (buf + 512 * d + map_base) by lia.
      apply ld_bytes_ext. intros x Hi. apply Hx2, Hcmd. unfold in_block. lia.
  - intros x Hn Hi. rewrite Hx2.
    + rewrite st_bytes_out; [by apply Hx|]. unfold in_block in Hi. rewrite Hln. lia.
    + intros Hc%cmd_driver. by rewrite (stepped_area _ _ _ _ Hst) in Hc.
Qed.

Lemma quiet_buffer p s s' buf n :
  quiet_step p s s' -> caller_buffer p buf n s ->
  caller_buffer p buf n s' /\
  forall x, in_block (buf + map_base) n x -> Ahci.mem s' x = Ahci.mem s x.
Proof.
  intros (Hst & _ & Hm) [Hp He Ho]. split.
  - constructor; [done | done |]. intros x Hx. rewrite (stepped_area _ _ _ _ Hst).
    destruct (Ho x Hx). split; [|done]. by apply (k_owned _ _ _ (sp_kept _ _ _ Hst)).
  - intros x Hx. apply Hm; by apply Ho.
Qed.

Lemma sata_read_spec fuel p lba count buf s k (Q : bool -> st -> Prop) :
  port_ok p s -> caller_buffer p buf (512 * count) s -> heap_room (hba s) = S k ->
  0 <= lba -> 0 < count < 2 ^ 32 -> lba + count <= drive_size (hba s) p ->
  1000000 < Z.of_nat fuel ->
  (forall s',
    ld_bytes (buf + map_base) (512 * count) (Ahci.mem s') = sectors_of (hba s) p lba count /\
    (forall x, owned (hba s) x -> ~ driver_area s p x -> ~ in_block (buf + map_base) (512 * count) x ->
       Ahci.mem s' x = Ahci.mem s x) /\
    (forall q l, drive (hba s') q l = drive (hba s) q l) /\
    stepped p s s' /\ heap_room (hba s') = k -> found_size (hba s) p = drive_size (hba s) p -> Q true s') ->
  (forall s', quiet_step p s s' -> found_size (hba s) p = 0 -> Q false s') ->
  wp (sata_read fuel p lba count buf) Q s.
Proof.
  intros Hok Hcb Hk Hl Hc Hsz Hf HQ HQ0. unfold sata_read.
  pose proof (drive_size_range _ _ (po_ready _ _ Hok)) as Hds.
  replace (u32 count) with count by (unfold u32; rewrite Z.mod_small; lia).
  wp_step. eapply total_sectors_spec; [done..|]. intros s1 Hq1 Hk1.
  destruct (found_size_cases (hba s) p) as [Hfs|Hfs]; rewrite Hfs.
  2:{ wp_steps. by apply HQ0. }
  destruct (quiet_buffer _ _ _ _ _ Hq1 Hcb) as [Hcb1 _]. destruct Hq1 as (Hst1 & Hdr1 & Hm1).
  destruct (Z.leb_spec (drive_size (hba s) p) 0); [lia|].
  replace (u64 (lba + count)) with (lba + count) by (unfold u64; rewrite Z.mod_small; lia).
  destruct (Z.ltb_spec (drive_size (hba s) p) (lba + count)); [lia|].
  eapply (wp_iter (read_inv p lba count buf s1) (fun x _ => Z.to_nat x.1.2)); [| |simpl; lia].
  - intros [[l rem] b] s2 Hi. destruct (Z.ltb_spec 0 rem).
    + pose proof Hi as (Hr & -> & -> & _). wp_step.
      eapply wp_mono; [eapply (read_round fuel p lba count buf s1); [apply Hst1 | done | done | | done | exact Hi | done]|].
      { rewrite (k_size _ _ _ (sp_kept _ _ _ Hst1)). lia. }
      intros ok s3 [-> Hi3]. cbn [negb]. wp_step. cbn [fst snd].
      pose proof Hi3 as (Hr3 & _ & _ & _). pose proof (cb_end _ _ _ _ Hcb).
      pose proof (cb_pos _ _ _ _ Hcb). pose proof map_base_pos.
      split; [|unfold MAX_SECTORS_PER_CMD in *; case_if; lia].
      unfold u64. rewrite !Z.mod_small by lia.
      by match goal with |- context [?c * 512] => rewrite (Z.mul_comm c 512) end.
    + destruct Hi as (Hr & _ & _ & Hst & Hdr & Hrm & Hld & Hx).
      replace (count - rem) with count in * by lia. wp_step. apply HQ; [|done].
      split; [by rewrite Hld; apply sectors_of_ext; intros; apply Hdr1|]. split.
      { intros x Ho Hd Hn. rewrite Hx; [by apply Hm1 | by rewrite (stepped_area _ _ _ _ Hst1) | done]. }
      split; [intros; by rewrite Hdr|]. split; [by eapply stepped_trans | congruence].
  - unfold read_inv. rewrite Z.sub_diag, !Z.add_0_r. split; [lia|]. repeat (split; [done|]).
    split; [constructor; try done; apply Hst1 || apply kept_refl|]. done.
Qed.

(** sata_read of sectors inside the drive, into a buffer of the caller.  When
    the block of the heap for the IDENTIFY answer translates to itself it
    succeeds: the buffer holds exactly the sectors, in order, across all the
    commands of at most 32 sectors it is cut into and all the pages the buffer
    spans; no other memory in use changes outside the driver's command memory,
    no drive changes and the port stays usable.  When it does not, the size
    found is 0 and the call fails.  The block is lost: the heap has room for
    one allocation less. *)
Theorem sata_read_ok fuel p lba count buf s k :
  port_ok p s -> caller_buffer p buf (512 * count) s -> heap_room (hba s) = S k ->
  0 <= lba -> 0 < count < 2 ^ 32 -> lba + count <= drive_size (hba s) p ->
  1000000 < Z.of_nat fuel ->
  if found_size (hba s) p =? 0 then returns (sata_read fuel p lba count buf) s false (quiet_step p s) else
  returns (sata_read fuel p lba count buf) s true (fun s' =>
    ld_bytes (buf + map_base) (512 * count) (Ahci.mem s') = sectors_of (hba s) p lba count /\
    (forall x, owned (hba s) x -> ~ driver_area s p x -> ~ in_block (buf + map_base) (512 * count) x ->
       Ahci.mem s' x = Ahci.mem s x) /\
    (forall q l, drive (hba s') q l = drive (hba s) q l) /\
    stepped p s s' /\ heap_room (hba s') = k).
Proof.
  intros Hok ? ? ? ? ? ?. pose proof (drive_size_range _ _ (po_ready _ _ Hok)) as Hds.
  destruct (Z.eqb_spec (found_size (hba s) p) 0); apply wp_returns; eapply sata_read_spec; eauto; intros; lia.
Qed.

Lemma sata_write_spec fuel p lba count buf s k (Q : bool -> st -> Prop) :
  port_ok p s -> caller_buffer p buf (512 * count) s -> heap_room (hba s) = S k ->
  0 <= lba -> 0 < count -> buf mod 4096 + 512 * count <= 0x100000 ->
  lba + count <= drive_size (hba s) p -> 1000000 < Z.of_nat fuel ->
  (forall s',
    (forall l, drive (hba s') p l = write_sectors lba count
       (ld_bytes (buf + map_base) (512 * count) (Ahci.mem s)) (drive (hba s) p) l) /\
    (forall q l, q <> p -> drive (hba s') q l = drive (hba s) q l) /\
    (forall x, owned (hba s) x -> ~ driver_area s p x -> Ahci.mem s' x = Ahci.mem s x) /\
    stepped p s s' /\ heap_room (hba s') = k -> Q true s') ->
  wp (sata_write fuel p lba count buf) Q s.
Proof.
  intros Hok Hcb Hk Hl Hc Hsg Hsz Hf HQ. unfold sata_write.
  pose proof (drive_size_range _ _ (po_ready _ _ Hok)) as Hds.
  pose proof (Z.mod_pos_bound buf 4096 ltac:(lia)).
  replace (u32 count) with count by (unfold u32; rewrite Z.mod_small; lia).
  wp_step. eapply total_sectors_spec; [done..|]. intros s1 Hq1 Hk1.
  destruct (quiet_buffer _ _ _ _ _ Hq1 Hcb) as [Hcb1 Hbm]. destruct Hq1 as (Hst1 & Hdr1 & Hm1).
  replace (u64 (lba + count)) with (lba + count) by (unfold u64; rewrite Z.mod_small; lia).
  replace ((0 <? found_size (hba s) p) && _) with false.
  2:{ destruct (found_size_cases (hba s) p) as [-> | ->]; [|done].
      by rewrite (proj2 (Z.ltb_ge (drive_size (hba s) p) (lba + count))), andb_false_r by lia. }
  pose proof Hcb1 as [Hp He Ho].
  apply run_write_spec; [apply Hst1 | constructor; lia | rewrite (k_size _ _ _ (sp_kept _ _ _ Hst1)); lia
    | constructor; [done | done | intros x Hx; by apply Ho] | done |].
  intros s2 Hst2 Hrm2 Hd2 Hx2. apply HQ. split; [|split; [|split; [|split]]].
  - intros l. rewrite Hd2. rewrite (ld_bytes_ext _ _ (Ahci.mem s) (Ahci.mem s1)) by (intros; by apply Hbm).
    unfold write_sectors. by rewrite Hdr1.
  - intros q l Hq. by rewrite (k_drive _ _ _ (sp_kept _ _ _ Hst2)).
  - intros x Hx Hn. rewrite Hx2; [by apply Hm1|]. intros Hc'%cmd_driver.
    by rewrite (stepped_area _ _ _ _ Hst1) in Hc'.
  - by eapply stepped_trans.
  - congruence.
Qed.

(** C9 sata_write of at most 1 MB (less the offset of the buffer in its page)
    from physical address [buf] to sectors inside the drive succeeds: exactly
    the requested sectors get the bytes of the buffer, every other sector of
    every drive and all memory in use outside the driver's command memory keep
    their contents.  The command memory of the port must translate to itself
    ([port_ok]).  The block that the heap gives for the IDENTIFY answer may
    have any frame: if the answer goes to another one, which must not be in
    use ([heap_room]), the size read is 0 and the driver skips the test of the
    range. *)
Theorem sata_write_ok fuel p lba count buf s k :
  port_ok p s -> caller_buffer p buf (512 * count) s -> heap_room (hba s) = S k ->
  0 <= lba -> 0 < count -> buf mod 4096 + 512 * count <= 0x100000 ->
  lba + count <= drive_size (hba s) p -> 1000000 < Z.of_nat fuel ->
  returns (sata_write fuel p lba count buf) s true (fun s' =>
    (forall l, drive (hba s') p l = write_sectors lba count
       (ld_bytes (buf + map_base) (512 * count) (Ahci.mem s)) (drive (hba s) p) l) /\
    (forall q l, q <> p -> drive (hba s') q l = drive (hba s) q l) /\
    (forall x, owned (hba s) x -> ~ driver_area s p x -> Ahci.mem s' x = Ahci.mem s x) /\
    stepped p s s' /\ heap_room (hba s') = k).
Proof. intros. apply wp_returns. eapply sata_write_spec; eauto. Qed.

(** A port on which a command hangs: the bit in PxCI stays set and no error
    is reported.  The counter passes 0 and ends at -1, which the test for a
    time-out does not see: the driver reports success. *)
Theorem hung_command_succeeds fuel p e e' m off v0 v1 v2 :
  1000000 < Z.of_nat fuel ->
  rd_reg p PxTFD (e, m) = (v0, (e, m)) -> Z.land v0 0x88 = 0 ->
  rd_reg p PxCI (e, m) = (0, (e, m)) -> wr_reg p PxCI 1 (e, m) = (e', m) ->
  rd_reg p PxCI (e', m) = (v1, (e', m)) -> Z.testbit v1 0 = true ->
  rd_reg p PxIS (e', m) = (v2, (e', m)) -> Z.land v2 HBA_PxIS_TFES = 0 ->
  issue fuel p 0 (mk_hst e m off) = Ret (true, mk_hst e' m off).
Proof.
  intros Hf Htfd Hz Hci Hwr Hci' Hb His Hz2.
  enough (Hw : wp (issue fuel p 0) (fun ok s => ok = true /\ s = mk_hst e' m off) (mk_hst e m off)).
  { apply wp_run in Hw as (ok & s & Hr & -> & ->). done. }
  unfold issue. wp_step. destruct fuel as [|fuel]; [lia|]. unfold wait_not_busy at 1. cbn [iter_fuel].
  wp_steps. eapply wp_rd_reg; [exact Htfd|]. change (Z.lor ATA_DEV_BUSY ATA_DEV_DRQ) with 0x88.
  rewrite Hz. cbn [Z.eqb negb andb]. wp_steps. cbn [Z.eqb]. wp_steps. eapply wp_rd_reg; [exact Hci|].
  wp_steps. eapply wp_wr; [exact Hwr|]. wp_steps. cbn [HHDM_OFFSET].
  eapply (wp_iter (fun t s => 0 <= t /\ s = mk_hst e' m off) (fun t _ => Z.to_nat t)); [| |lia].
  - intros t s [Ht ->]. wp_steps. eapply wp_rd_reg; [exact Hci'|]. rewrite Hb.
    destruct (Z.eqb_spec t 0).
    + wp_steps. cbn [Z.eqb]. wp_steps. eapply wp_rd_reg; [exact His|]. rewrite Hz2. by cbn.
    + wp_steps. eapply wp_rd_reg; [exact His|]. rewrite Hz2. cbn. repeat split; lia.
  - split; [lia | done].
Qed.
End steps.

(** ** A simulated adapter *)

(** One port, at address 1, with a drive of 2048 sectors; a command takes
    three polls.  The heap hands out one page after the other; those from
    [s_direct] on have frames of their own. *)
Module SimHba.

Record sim := mk_sim {
  s_sec : Z -> list Z;                 (* the drive *)
  s_busy : option (Z * nat);           (* slot and polls left *)
  s_page : nat;                        (* next page of the heap *)
  s_direct : nat
}.

Definition base : Z := 0x10000000.
Definition pages : nat := 1000.
Definition clb : Z := 0x1000.
Definition page_at (n : nat) : Z := base + 4096 * (Z.of_nat n + 1).

Definition sim_sector (e : sim) (l : Z) : list Z := u8 <$> resize 512 0 (s_sec e l).

(** 2048 sectors, with 48-bit addresses. *)
Definition sim_identity : list Z := store 8 200 2048 (store 2 166 0x400 (replicate 512 0)).

Definition sim_run (slot : Z) (e : sim) (m : ram) : sim * ram :=
  let c := read_command base m clb slot in
  let e := mk_sim (s_sec e) None (s_page e) (s_direct e) in
  if (c_type c =? ATA_CMD_READ_DMA_EX) && negb (c_write c) then
    (e, scatter base (c_segs c) (mjoin (sim_sector e <$> seqZ (c_lba c) (c_count c))) m)
  else if (c_type c =? ATA_CMD_WRITE_DMA_EX) && c_write c then
    (mk_sim (write_sectors (c_lba c) (c_count c) (gather base (c_segs c) m) (s_sec e)) None (s_page e) (s_direct e), m)
  else if (c_type c =? ATA_CMD_IDENTIFY) && negb (c_write c) then
    (e, scatter base (c_segs c) sim_identity m)
  else (e, m).

Definition sim_rd (p : Z) (r : reg) (s : sim * ram) : Z * (sim * ram) :=
  let '(e, m) := s in
  match r with
  | PxCLB => (u32 clb, s)
  | PxCLBU => (Z.shiftr clb 32, s)
  | PxCI =>
      match s_busy e with
      | None => (0, s)
      | Some (slot, S n) => (2 ^ slot, (mk_sim (s_sec e) (Some (slot, n)) (s_page e) (s_direct e), m))
      | Some (slot, O) => (0, sim_run slot e m)
      end
  | _ => (0, s)
  end.

Definition sim_wr (p : Z) (r : reg) (v : Z) (s : sim * ram) : sim * ram :=
  let '(e, m) := s in
  match r with
  | PxCI => (mk_sim (s_sec e) (Some (Z.log2 v, 2%nat)) (s_page e) (s_direct e), m)
  | _ => s
  end.

Definition far : Z := 2 ^ 40.
Definition sim_translate (e : sim) (x : Z) : Z :=
  if (page_at (s_direct e) <=? x) && (x <? page_at pages) then x + far else x.

#[global] Instance sim_hba : Hba sim := {
  rd_reg := sim_rd;
  wr_reg := sim_wr;
  heap_alloc n e :=
    if (0 <? n) && (n <=? 4096) && bool_decide (s_page e < pages)%nat
    then (page_at (s_page e), mk_sim (s_sec e) (s_busy e) (S (s_page e)) (s_direct e)) else (0, e);
  heap_free _ _ e := e;
  translate := sim_translate
}.

#[global] Instance sim_view : HbaView sim := {
  map_base := base;
  drive e p l := if p =? 1 then sim_sector e l else replicate 512 0;
  drive_size _ _ := 2048;
  identity _ _ := sim_identity;
  command_list _ _ := clb;
  ready p e := p = 1 /\ s_busy e = None;
  owned e x := exists va, va < page_at (s_page e) /\ sim_translate e va = x;
  heap_room e := (pages - s_page e)%nat;
  pending p slot n i s := p = 1 /\ 0 <= slot < 32 /\ s_busy i.1 = None /\
    s = (mk_sim (s_sec i.1) (Some (slot, n)) (s_page i.1) (s_direct i.1), i.2)
}.

Lemma sim_sector_ok e l : length (sim_sector e l) = 512%nat /\ Forall byte (sim_sector e l).
Proof.
  unfold sim_sector. split; [by rewrite length_fmap, length_resize|].
  apply Forall_fmap, Forall_true. intros. apply u8_range.
Qed.

Lemma sim_identity_ok : length sim_identity = 512%nat /\ Forall byte sim_identity.
Proof.
  split; [done|]. unfold sim_identity. auto using store_byte, zeros_byte.
Qed.

Lemma sim_kept e e' : s_page e' = s_page e -> s_direct e' = s_direct e -> s_busy e' = None -> kept 1 e e'.
Proof.
  intros Hp Hd Hb. constructor; simpl; intros; try done.
  - naive_solver.
  - unfold sim_translate in *. by rewrite Hp, Hd.
  - unfold sim_translate. by rewrite Hd.
  - by destruct (Z.eqb_spec q 1).
Qed.

Lemma sim_run_frame e m slot e' m' :
  sim_run slot e m = (e', m') -> s_page e' = s_page e /\ s_direct e' = s_direct e /\ s_busy e' = None.
Proof. unfold sim_run. intros. by repeat (case_match; simplify_eq/=). Qed.

(** What is written to the drive reads back as written. *)
Lemma sim_write lba n data e :
  Forall byte data -> zlen data = 512 * n -> forall l,
  sim_sector (mk_sim (write_sectors lba n data (s_sec e)) None (s_page e) (s_direct e)) l =
  write_sectors lba n data (sim_sector e) l.
Proof.
  intros Hb Hl l. unfold sim_sector, write_sectors. cbn [s_sec]. case_if; [|done].
  rewrite resize_all_alt by (rewrite length_slice; lia).
  apply list_eq. intros i. rewrite list_lookup_fmap.
  destruct (slice _ 512 data !! i) as [b|] eqn:Hi; [|done]. simpl. f_equal. apply u8_small.
  exact (Forall_lookup_1 _ _ _ _ (Forall_slice _ _ _ _ Hb) Hi).
Qed.

Lemma gather_length off segs m : Forall (fun s => 0 <= s.2) segs -> zlen (gather off segs m) = seg_bytes segs.
Proof.
  induction 1 as [|[p n] segs Hn _ IH]; simpl; [done|]. simpl in Hn.
  rewrite length_app, ld_bytes_length by lia. lia.
Qed.

Lemma gather_byte off segs m : byte_ram m -> Forall byte (gather off segs m).
Proof.
  intros Hm. induction segs as [|[p n] segs IH]; simpl; [done|].
  apply Forall_app_2; [by apply ld_bytes_byte | done].
Qed.

Lemma command_segs off m cl slot : Forall (fun s => 0 <= s.2) (c_segs (read_command off m cl slot)).
Proof.
  apply Forall_fmap, Forall_true. intros i. simpl. rewrite Z.land_ones by lia.
  pose proof (Z.mod_pos_bound (word_at m (word_at m (cl + off + 32 * slot + 8) 8 + off + 128 + 16 * i + 12) 4)
    (2 ^ 22) ltac:(lia)). lia.
Qed.

Lemma sim_run_completes e m slot e' m' :
  s_busy e = None -> sim_run slot e m = (e', m') ->
  completes 1 (read_command base m clb slot) e m e' m'.
Proof.
  intros Hb Hr. set (c := read_command base m clb slot) in *.
  pose proof (command_segs base m clb slot) as Hsg. fold c in Hsg.
  destruct (sim_run_frame e m slot e' m' Hr) as (Hp & Hsd & Hb'). unfold sim_run in Hr. fold c in Hr.
  constructor; [done | by apply sim_kept | simpl; by rewrite Hp | | |].
  - intros Ht Hw Hc Hs Hl. rewrite Ht, Hw in Hr. simplify_eq/=. done.
  - intros Hbm Ht Hw Hc Hs Hl. rewrite Ht, Hw in Hr. simplify_eq/=. split; [|done].
    intros l. apply (sim_write _ _ _ e); [by apply gather_byte | by rewrite gather_length].
  - intros Ht Hw Hs. rewrite Ht, Hw in Hr. simplify_eq/=. done.
Qed.

#[global] Instance sim_laws : HbaLaws sim.
Proof.
  constructor.
  - done.
  - intros. cbn [drive sim_view]. case_if; [apply sim_sector_ok|]. split; [done | apply zeros_byte].
  - intros. apply sim_identity_ok.
  - by vm_compute.
  - intros. simpl. lia.
  - done.
  - done.
  - done.
  - simpl. intros e p m [_ ->]. done.
  - simpl. intros. by exists 0, 0.
  - done.
  - simpl. intros e p m slot [-> Hb] Hs. exists 2%nat. rewrite Z.log2_pow2 by lia. by repeat split; try lia.
  - simpl. intros p slot n [e m] s (-> & Hs & Hb & ->). eexists _, _. split; [done|].
    rewrite Z.pow2_bits_true by lia. done.
  - simpl. intros p slot n [e m] s (-> & Hs & Hb & ->). by eexists _, _.
  - simpl. intros p slot e m s (-> & Hs & Hb & ->). simpl.
    destruct (sim_run slot _ m) as [e' m'] eqn:Hr. exists 0, e', m'. split; [done|].
    split; [apply Z.bits_0|]. by apply sim_run_completes.
  - simpl. intros e n p e' Hn Ha Hp. case_match; simplify_eq/=. bool_to_prop. rewrite bool_decide_eq_true in *.
    split; [|unfold page_at, base, pages in *; split; [lia|]; split; [lia|];
      replace (_ - _) with ((Z.of_nat (s_page e) + 1) * 4096) by lia; by rewrite Z.mod_mul].
    intros x Hx. split; [|exists x; split; [unfold page_at in *; lia | done]].
    intros (va & Hva & Ht). revert Ht. unfold sim_translate, far. cbn [s_direct].
    unfold page_at, base, pages in *. repeat case_if; lia.
  - simpl. intros e n p e' Ha. case_match; simplify_eq/=; (split; [done|]); intros q; constructor; simpl; try done.
    intros x (va & Hva & Ht). exists va. split; [unfold page_at in *; lia | done].
  - cbn [heap_alloc sim_hba heap_room sim_view]. intros e n p e' k Ha Hn Hk.
    rewrite bool_decide_eq_true_2 in Ha by lia.
    destruct (Z.ltb_spec 0 n), (Z.leb_spec n 4096); try lia. injection Ha as <- <-.
    cbn [s_page]. split; [unfold page_at, base; lia|]. split; [lia|].
    intros x Hx (va & Hva & Ht). revert Ht. unfold sim_translate, far, page_at, base, pages in *. case_if; lia.
  - intros e x Hx. cbn [translate sim_hba map_base sim_view] in *. set (o := (x - base) mod 4096).
    pose proof (Z.div_mod (x - base) 4096 ltac:(lia)) as Hd. pose proof (Z.mod_pos_bound (x - base) 4096 ltac:(lia)) as Ho.
    fold o in Hd, Ho. unfold sim_translate, page_at. split; [repeat case_if; lia|].
    case_if; [|done]. replace (x + far - base) with (x - base + 268435456 * 4096) by (unfold far; lia).
    by rewrite Z.mod_add.
Qed.
End SimHba.

Module SmallDrive.
Import SimHba.

Definition host0 : hst sim :=
  mk_hst (mk_sim (fun l => [u8 l]) None 20 1000) (st_bytes (clb + base + 8) (le_bytes 8 0x3000) (fun _ => 0)) base.
Definition fuel0 : nat := Z.to_nat 1000001.

Lemma table0 : table host0 1 = 0x3000 + base.
Proof. unfold table, header. cbn [hba Ahci.mem HHDM_OFFSET host0 command_list sim_view]. by rewrite word_st_same. Qed.

Lemma host0_ok : port_ok 1 host0.
Proof.
  assert (Hh : header host0 1 = 0x1000 + base) by done.
  constructor; rewrite ?table0, ?Hh; try done.
  - apply st_bytes_byte; [done | apply le_bytes_byte].
  - by left.
  - intros x Hx. exists x. unfold driver_area, in_block in Hx. rewrite table0, Hh in Hx. cbn [host0 hba s_page].
    unfold sim_translate, page_at, base, pages in *. split; [lia|]. cbn [s_direct]. case_if; [lia | done].
  - intros x Hx. unfold driver_area, in_block in Hx. rewrite table0, Hh in Hx. cbn [translate sim_hba host0 hba].
    unfold sim_translate, page_at, base, pages in *. cbn [s_direct]. case_if; [lia | done].
Qed.

Lemma buffer0 count : 0 < count <= 48 -> caller_buffer 1 0x6000 (512 * count) host0.
Proof.
  intros Hc. constructor; cbn [map_base sim_view]; [lia | unfold base; lia |].
  intros x Hx. split.
  - exists x. unfold in_block, base in Hx. cbn [host0 hba s_page]. unfold sim_translate, page_at, base, pages. cbn [s_direct].
    split; [lia|]. case_if; [lia | done].
  - unfold driver_area, in_block in *. rewrite table0. unfold header. simpl. unfold clb, base in *. lia.
Qed.

Lemma sata_read_ok_witness :
  returns (sata_read fuel0 1 5 40 0x6000) host0 true (fun s' =>
    ld_bytes (0x6000 + base) 20480 (Ahci.mem s') = sectors_of (hba host0) 1 5 40).
Proof.
  destruct (sata_read_ok fuel0 1 5 40 0x6000 host0 979) as (s' & Hr & Hd & _);
    [exact host0_ok | by apply buffer0 | done | lia | lia | simpl; lia | unfold fuel0; lia |].
  exists s'. split; [exact Hr | exact Hd].
Defined.

Lemma sata_write_ok_witness :
  returns (sata_write fuel0 1 7 2 0x6000) host0 true (fun s' =>
    drive (hba s') 1 7 = replicate 512 0 /\ drive (hba s') 1 9 = drive (hba host0) 1 9).
Proof.
  destruct (sata_write_ok fuel0 1 7 2 0x6000 host0 979) as (s' & Hr & Hd & _);
    [exact host0_ok | by apply buffer0 | done | lia | lia | done | simpl; lia | unfold fuel0; lia |].
  exists s'. split; [exact Hr|]. rewrite !Hd. split; vm_compute; reflexivity.
Defined.
End SmallDrive.
