(* ===== verification/Satapi.v ===== *)
(** The ATAPI driver for optical drives (kernel/src/driver/disk/ahci/satapi.c),
    over the adapter of Ahci.v.  The routines that only print are left out. *)
From S2P Require Import Prelude Ahci.

Definition ATA_CMD_PACKET : Z := 0xA0.
Definition HBA_PxCMD_ATAPI : Z := Z.shiftl 1 24.

(** A 12-byte command block with a big-endian address and length. *)
Definition cdb12 (op lba sector_count : Z) : list Z :=
  [op; 0; Z.land (Z.shiftr lba 24) 0xFF; Z.land (Z.shiftr lba 16) 0xFF; Z.land (Z.shiftr lba 8) 0xFF;
   Z.land lba 0xFF; Z.land (Z.shiftr sector_count 24) 0xFF; Z.land (Z.shiftr sector_count 16) 0xFF;
   Z.land (Z.shiftr sector_count 8) 0xFF; Z.land sector_count 0xFF; 0; 0].

(** __builtin_bswap32. *)
Definition bswap32 (w : Z) : Z := le_val (rev (le_bytes 4 w)).

Section satapi.
Context {E : Type} `{Hba E}.
Abbreviation st := (hst E).

(** The delay after the mode switch is an empty loop. *)
Definition AtpiPortRebase (fuel : nat) (port : Z) : M st unit :=
  stopCMD fuel port ;;;
  let! c := rd port PxCMD in
  wr port PxCMD (Z.lor c HBA_PxCMD_ATAPI) ;;;
  let! base_virt := kheap_alloc (64 * 1024) in
  if base_virt =? 0 then ret tt else
  let! base_phys := vir_to_phys base_virt in
  if base_phys =? 0 then kheap_free base_virt 1 ;;; ret tt else
  memset0 base_virt 0x400 ;;;
  memset0 (base_virt + 0x1000) 0x100 ;;;
  memset0 (base_virt + 0x2000) 0x2000 ;;;
  wr port PxCLB (u32 base_phys) ;;;
  wr port PxCLBU (u32 (Z.shiftr base_phys 32)) ;;;
  wr port PxFB (u32 (base_phys + 0x1000)) ;;;
  wr port PxFBU (u32 (Z.shiftr (base_phys + 0x1000) 32)) ;;;
  let! _ := for_range (R := unit) 32 0 (fun i =>
    let phys_ctba := base_phys + 0x2000 + i * 0x100 in
    let hdr := base_virt + 32 * i in
    sto 4 (hdr + 8) (u32 phys_ctba) ;;;
    sto 4 (hdr + 12) (u32 (Z.shiftr phys_ctba 32)) ;;;
    sto 2 (hdr + 2) 8 ;;;
    let! b := ld 1 hdr in sto 1 hdr (Z.lor (Z.ldiff b 0x20) 0x20) ;;;
    let! b := ld 1 hdr in sto 1 hdr (Z.lor (Z.ldiff b 0x1F) 5) ;;;
    memset0 (base_virt + 0x2000 + i * 0x100) 0x100 ;;;
    ret None) in
  startCMD fuel port.

(** The packet command in slot [slot]: header, table, frame and command
    block. *)
Definition build_packet (slot : Z) (cdb : list Z) (clb buf_phys buf_size : Z) (write : bool) : M st unit :=
  let! cmd_header_base := phys_to_vir clb in
  let cmd_header := cmd_header_base + 32 * slot in
  let! b := ld 1 cmd_header in sto 1 cmd_header (Z.lor (Z.ldiff b 0x1F) 5) ;;;
  let! b := ld 1 cmd_header in sto 1 cmd_header (Z.lor (Z.ldiff b 0x20) 0x20) ;;;
  let! b := ld 1 cmd_header in
  sto 1 cmd_header (Z.lor (Z.ldiff b 0x40) (if write then 0x40 else 0)) ;;;
  let prdtl := if 0 <? buf_size then 1 else 0 in
  sto 2 (cmd_header + 2) prdtl ;;;
  let! ctbau := ld 4 (cmd_header + 12) in
  let! ctba := ld 4 (cmd_header + 8) in
  let! cmd_tbl := phys_to_vir (Z.lor (u64 (Z.shiftl ctbau 32)) ctba) in
  memset0 cmd_tbl (u64 (144 + (prdtl - 1) * 16)) ;;;
  (if 0 <? buf_size then put_prdt (cmd_tbl + 0x80) buf_phys buf_size else ret tt) ;;;
  memset0 cmd_tbl 20 ;;;
  sto 1 cmd_tbl FIS_TYPE_REG_H2D ;;;
  let! b := ld 1 (cmd_tbl + 1) in
  sto 1 (cmd_tbl + 1) (Z.lor (Z.ldiff b 0x80) 0x80) ;;;
  sto 1 (cmd_tbl + 2) ATA_CMD_PACKET ;;;
  sto 1 (cmd_tbl + 3) (if write then 0 else 1) ;;;
  let sector_count := u32 (buf_size + 2047) / 2048 in
  sto 1 (cmd_tbl + 12) (Z.land sector_count 0xFF) ;;;
  sto 1 (cmd_tbl + 13) (Z.land (Z.shiftr sector_count 8) 0xFF) ;;;
  memset0 (cmd_tbl + 64) 16 ;;;
  put_bytes (cmd_tbl + 64) (take 16 cdb).

(** The wait for completion has no limit. *)
Definition runAtapiCommand (fuel : nat) (port : Z) (cdb : list Z) (buf_phys buf_size : Z) (write : bool) :
    M st bool :=
  wr port PxIS 0xFFFFFFFF ;;;
  let! slot := findCMDSlot port 32 in
  if slot =? -1 then ret false else
  let! clb := rd port PxCLB in
  let! clbu := rd port PxCLBU in
  build_packet slot cdb (Z.lor clb (u64 (Z.shiftl clbu 32))) buf_phys buf_size write ;;;
  let! spin := wait_not_busy fuel port in
  if 1000000 <=? spin then ret false else
  wr port PxCI (u32 (Z.shiftl 1 slot)) ;;;
  let! ok := iter_fuel fuel (fun _ : unit =>
    let! ci := rd port PxCI in
    if Z.testbit ci slot then
      let! isr := rd port PxIS in
      if negb (Z.land isr HBA_PxIS_TFES =? 0) then ret (inr false) else ret (inl tt)
    else ret (inr true)) tt in
  if negb ok then ret false else
  let! isr := rd port PxIS in
  ret (Z.land isr HBA_PxIS_TFES =? 0).

(** READ(12) and WRITE(12); [buffer] is a virtual address. *)
Definition satapi_transfer (fuel : nat) (op : Z) (write : bool) (port lba sector_count buffer : Z) : M st bool :=
  let lba := u32 lba in
  if (port =? 0) || (buffer =? 0) || (sector_count =? 0) then ret false else
  let! buf_phys := vir_to_phys buffer in
  if buf_phys =? 0 then ret false else
  runAtapiCommand fuel port (cdb12 op lba sector_count) buf_phys (u32 (sector_count * 2048)) write.

Definition satapi_read (fuel : nat) : Z -> Z -> Z -> Z -> M st bool := satapi_transfer fuel 0xA8 false.
Definition satapi_write (fuel : nat) : Z -> Z -> Z -> Z -> M st bool := satapi_transfer fuel 0xAA true.

Definition satapi_check_media (fuel : nat) (port : Z) : M st bool :=
  runAtapiCommand fuel port (replicate 12 0) 0 0 false.
Definition satapi_eject (fuel : nat) (port : Z) : M st bool :=
  runAtapiCommand fuel port ([0x1B; 0; 0; 0; 0x02] ++ replicate 7 0) 0 0 false.
Definition satapi_load (fuel : nat) (port : Z) : M st bool :=
  runAtapiCommand fuel port ([0x1B; 0; 0; 0; 0x03] ++ replicate 7 0) 0 0 false.

(** READ CAPACITY into a new buffer of 8 bytes: last address and sector size,
    both big-endian; [None] without memory, the flag is the outcome. *)
Definition read_capacity (fuel : nat) (port : Z) : M st (option (bool * Z * Z)) :=
  let! buf := kheap_alloc 8 in
  if buf =? 0 then ret None else
  memset0 buf 8 ;;;
  let! buf_phys := vir_to_phys buf in
  let! success := runAtapiCommand fuel port (0x25 :: replicate 9 0) buf_phys 8 false in
  let! d0 := ld 4 buf in
  let! d1 := ld 4 (buf + 4) in
  kheap_free buf 36 ;;;
  ret (Some (success, bswap32 d0, bswap32 d1)).

Definition satapi_get_bytes_per_sector (fuel : nat) (port : Z) : M st Z :=
  let! r := read_capacity fuel port in
  match r with
  | Some (true, _, size) => ret (u16 size)
  | _ => ret 0
  end.

Definition satapi_get_total_sectors (fuel : nat) (port : Z) : M st Z :=
  let! r := read_capacity fuel port in
  match r with
  | Some (true, last, _) => ret (u32 (last + 1))
  | _ => ret 0
  end.

Definition satapi_read_capacity (fuel : nat) (port : Z) : M st (option (Z * Z)) :=
  let! r := read_capacity fuel port in
  match r with
  | Some (true, last, size) => ret (Some (last, size))
  | _ => ret None
  end.
End satapi.
