(* ===== verification/Disk.v ===== *)
(** The disk layer (kernel/src/driver/disk/disk.c): the table of disks, their
    detection on the AHCI controllers and the dispatch of reads and writes.

    [hba_pi] is the register of a controller that says which ports it has, by
    the address of its registers; port [i] is at offset 0x100 + 0x80 i.  [disks] is a block of [MAX_TOTAL_DISKS] structures: an access
    outside it is undefined.  NVMe and IDE branches of the source are empty. *)
From S2P Require Import Prelude Ports Pci Ahci Satapi.

Inductive DiskType :=
  DISK_TYPE_UNKNOWN | DISK_TYPE_IDE_PATA | DISK_TYPE_AHCI_SATA | DISK_TYPE_NVME | DISK_TYPE_SCSI |
  DISK_TYPE_SATAPI | DISK_TYPE_FLOPPY | DISK_TYPE_RAID | DISK_TYPE_SATA_COMPAT |
  DISK_TYPE_SATA_VENDOR | DISK_TYPE_SATA_GENERIC | DISK_TYPE_SAS | DISK_TYPE_IPI.
#[global] Instance DiskType_eq_dec : EqDecision DiskType.
Proof. solve_decision. Defined.

Definition type_code (t : DiskType) : Z :=
  match t with
  | DISK_TYPE_UNKNOWN => 0 | DISK_TYPE_IDE_PATA => 1 | DISK_TYPE_AHCI_SATA => 2 | DISK_TYPE_NVME => 3
  | DISK_TYPE_SCSI => 4 | DISK_TYPE_SATAPI => 5 | DISK_TYPE_FLOPPY => 6 | DISK_TYPE_RAID => 7
  | DISK_TYPE_SATA_COMPAT => 8 | DISK_TYPE_SATA_VENDOR => 9 | DISK_TYPE_SATA_GENERIC => 10
  | DISK_TYPE_SAS => 11 | DISK_TYPE_IPI => 12
  end.

Record Disk := mk_disk {
  initialized : bool; dtype : DiskType; bytes_per_sector : Z; total_sectors : Z;
  root_directory_sector : Z; root_directory_size : Z; pvd_sector : Z; context : Z
}.
Definition disk_zero : Disk := mk_disk false DISK_TYPE_UNKNOWN 0 0 0 0 0 0.

(** The tests of an entry in kebla_disk_status. *)
Definition disk_ready (disk : Disk) : bool :=
  if bool_decide (dtype disk = DISK_TYPE_UNKNOWN) then false else
  if bytes_per_sector disk =? 0 then false else
  if total_sectors disk =? 0 then false else
  if context disk =? 0 then false else true.

Definition MAX_TOTAL_DISKS : Z := 2.
Definition MAX_BATCH_SIZE : Z := 256.

Definition MASS_STORAGE_CLASS : Z := 0x01.
Definition MASS_STORAGE_SUBCLASS_SERIAL_ATA : Z := 0x06.

Record dst (E : Type) := mk_dst { host : hst E; disks : option (list Disk); disk_count : Z }.
Arguments mk_dst {E}.
Arguments host {E}.
Arguments disks {E}.
Arguments disk_count {E}.

Section disk.
Context {E : Type} `{Hba E}.
Abbreviation st := (dst E).

Definition on_host {A} (k : M (hst E) A) : M st A := fun s =>
  obind (k (host s)) (fun '(a, h) => Ret (a, mk_dst h (disks s) (disk_count s))).
Definition set_disks (l : option (list Disk)) (s : st) : st := mk_dst (host s) l (disk_count s).
Definition set_disk_count (n : Z) (s : st) : st := mk_dst (host s) (disks s) n.

(** [disks[i]]. *)
Definition disk_at (i : Z) : M st Disk := fun s =>
  match disks s with
  | Some l => if 0 <=? i then match l !! Z.to_nat i with Some d => Ret (d, s) | None => Undef end else Undef
  | None => Undef
  end.
Definition upd_disk (i : Z) (f : Disk -> Disk) : M st unit :=
  let! d := disk_at i in
  modify (fun s => set_disks (alter f (Z.to_nat i) <$> disks s) s).

Definition kebla_disk_status (disk_no : Z) : M st bool :=
  let! null := gets (fun s => match disks s with None => true | Some _ => false end) in
  if null then ret false else
  let! n := gets disk_count in
  if n <? disk_no then ret false else
  let! disk := disk_at disk_no in
  ret (disk_ready disk).

(** A drive found on a port: the entry [disks[disk_count]] is filled before
    the number of disks is tested. *)
Definition add_disk (fuel : nat) (t : DiskType) (port : Z) (rebase : M (hst E) unit)
    (get_bytes get_total : M (hst E) Z) : M st (option Z) :=
  let! n := gets disk_count in
  upd_disk n (fun d => mk_disk (initialized d) t (bytes_per_sector d) (total_sectors d)
    (root_directory_sector d) (root_directory_size d) (pvd_sector d) port) ;;;
  on_host rebase ;;;
  let! b := on_host get_bytes in
  upd_disk n (fun d => mk_disk (initialized d) (dtype d) b (total_sectors d)
    (root_directory_sector d) (root_directory_size d) (pvd_sector d) (context d)) ;;;
  let! ts := on_host get_total in
  upd_disk n (fun d => mk_disk (initialized d) (dtype d) (bytes_per_sector d) ts
    (root_directory_sector d) (root_directory_size d) (pvd_sector d) (context d)) ;;;
  if (b <=? 0) || (ts <=? 0) then ret None else
  upd_disk n (fun d => mk_disk true (dtype d) (bytes_per_sector d) (total_sectors d)
    (root_directory_sector d) (root_directory_size d) (pvd_sector d) (context d)) ;;;
  if MAX_TOTAL_DISKS <=? n then ret (Some n) else
  modify (set_disk_count (n + 1)) ;;; ret None.

(** One port of a controller. *)
Definition probe_port (fuel : nat) (pi port i : Z) : M st (option Z) :=
  if negb (Z.testbit pi i) then ret None else
  let! ssts := on_host (rd port PxSSTS) in
  let det := Z.land ssts 0x0F in
  let ipm := Z.land (Z.shiftr ssts 8) 0x0F in
  if negb (det =? 3) || negb (ipm =? 1) then ret None else
  let! type := on_host (checkType port) in
  match type with
  | AHCI_DEV_SATA =>
      add_disk fuel DISK_TYPE_AHCI_SATA port (SataPortRebase fuel port)
        (sata_get_bytes_per_sector fuel port) (sata_get_total_sectors fuel port)
  | AHCI_DEV_SATAPI =>
      add_disk fuel DISK_TYPE_SATAPI port (AtpiPortRebase fuel port)
        (satapi_get_bytes_per_sector fuel port) (satapi_get_total_sectors fuel port)
  | _ => ret None
  end.

(** The address of the registers in BAR 5.  For a 64-bit BAR the source reads
    entry 6 of the six entries. *)
Definition bar5_of (dev : pci_device_t) : M st Z :=
  match base_address_registers dev !! 5%nat with
  | Some bar5_val =>
      guard (negb (Z.land bar5_val 0x6 =? 0x4)) ;;; ret (Z.ldiff bar5_val 0xF)
  | None => undef
  end.

(** [Some r] leaves the scan with [r]. *)
Definition scan_controller (fuel : nat) (hba_pi : Z -> Z) (dev : pci_device_t) :
    M st (option Z) :=
  if negb (class_code dev =? MASS_STORAGE_CLASS) then ret None else
  if negb (subclass_code dev =? MASS_STORAGE_SUBCLASS_SERIAL_ATA) then ret None else
  if negb (prog_if dev =? 1) then ret None else
  let! bar5 := bar5_of dev in
  if bar5 =? 0 then ret (Some (-1)) else
  let! abar := on_host (phys_to_vir bar5) in
  if abar =? 0 then ret (Some (-1)) else
  let! n := gets disk_count in
  if MAX_TOTAL_DISKS <=? n then ret (Some n) else
  for_range 32 0 (fun i => probe_port fuel (hba_pi abar) (abar + 0x100 + 128 * i) i).

Fixpoint scan_controllers (fuel : nat) (hba_pi : Z -> Z) (l : list pci_device_t) : M st Z :=
  match l with
  | [] => gets disk_count
  | dev :: l =>
      let! r := scan_controller fuel hba_pi dev in
      match r with
      | Some v => ret v
      | None => scan_controllers fuel hba_pi l
      end
  end.

(** [block] says whether malloc finds memory for the table. *)
Definition kebla_get_disks (fuel : nat) (hba_pi : Z -> Z) (block : bool)
    (mass_storage_controllers : list pci_device_t) : M st Z :=
  modify (set_disk_count 0) ;;;
  let! d := gets disks in
  match d, block with
  | None, false => ret (-1)
  | _, _ =>
      modify (set_disks (Some (replicate (Z.to_nat MAX_TOTAL_DISKS) disk_zero))) ;;;
      scan_controllers fuel hba_pi mass_storage_controllers
  end.

Definition kebla_disk_init (fuel : nat) (disk_no : Z) : M st bool :=
  if (disk_no <? 0) || (MAX_TOTAL_DISKS <=? disk_no) then ret false else
  let! disk := disk_at disk_no in
  if context disk =? 0 then ret false else
  if initialized disk then ret true else
  match dtype disk with
  | DISK_TYPE_AHCI_SATA =>
      (* the fields are set in a copy of the structure *)
      on_host (portRebase fuel (context disk)) ;;;
      let! b := on_host (sata_get_bytes_per_sector fuel (context disk)) in
      let! ts := on_host (sata_get_total_sectors fuel (context disk)) in
      ret (negb ((b <=? 0) || (ts <=? 0)))
  | DISK_TYPE_SATAPI =>
      on_host (AtpiPortRebase fuel (context disk)) ;;;
      let! b := on_host (satapi_get_bytes_per_sector fuel (context disk)) in
      upd_disk disk_no (fun d => mk_disk (initialized d) (dtype d) b (total_sectors d)
        (root_directory_sector d) (root_directory_size d) (pvd_sector d) (context d)) ;;;
      let! ts := on_host (satapi_get_total_sectors fuel (context disk)) in
      upd_disk disk_no (fun d => mk_disk (initialized d) (dtype d) (bytes_per_sector d) ts
        (root_directory_sector d) (root_directory_size d) (pvd_sector d) (context d)) ;;;
      if (b <=? 0) || (ts <=? 0) then ret false else
      upd_disk disk_no (fun d => mk_disk (initialized d) (dtype d) (bytes_per_sector d)
        (total_sectors d) 0 0 0 (context d)) ;;;
      ret true
  | _ => ret false
  end.

(** [buf] is a virtual address; the bytes go through memory. *)
Definition kebla_disk_read (fuel : nat) (disk_no lba count buf : Z) : M st bool :=
  let! n := gets disk_count in
  if n <=? disk_no then ret false else
  let! d := gets disks in
  match d with
  | None => ret false
  | Some _ =>
      if count <=? 0 then ret false else
      if buf =? 0 then ret false else
      let! disk := disk_at disk_no in
      match dtype disk with
      | DISK_TYPE_AHCI_SATA =>
          if context disk =? 0 then ret false else
          let! phys := on_host (vir_to_phys buf) in
          on_host (sata_read fuel (context disk) lba count phys)
      | DISK_TYPE_SATAPI =>
          if context disk =? 0 then ret false else
          on_host (satapi_read fuel (context disk) lba count buf)
      | _ => ret false
      end
  end.

Definition kebla_disk_write (fuel : nat) (disk_no lba count buf : Z) : M st bool :=
  let! n := gets disk_count in
  if n <=? disk_no then ret false else
  let! d := gets disks in
  match d with
  | None => ret false
  | Some _ =>
      if count <=? 0 then ret false else
      if buf =? 0 then ret false else
      let! disk := disk_at disk_no in
      if total_sectors disk <? u64 (lba + count) then ret false else
      match dtype disk with
      | DISK_TYPE_AHCI_SATA =>
          if context disk =? 0 then ret false else
          let! phys := on_host (vir_to_phys buf) in
          on_host (sata_write fuel (context disk) lba count phys)
      | DISK_TYPE_SATAPI =>
          if context disk =? 0 then ret false else
          on_host (satapi_write fuel (context disk) lba count buf)
      | _ => ret false
      end
  end.

(** Zeroes in batches of 256 sectors.  [buffer] is the address malloc gave
    (0 if none); [progress_ok] tells whether the pointer is not NULL; the
    result and the percentage last stored. *)
Definition clear_disk (fuel : nat) (disk_no buffer : Z) (progress_ok : bool) : M st (Z * Z) :=
  let! d := gets disks in
  let! n := gets disk_count in
  match d with
  | None => ret (-1, 0)
  | Some _ =>
      if (n <=? disk_no) || (disk_no <? 0) || negb progress_ok then ret (-1, 0) else
      let! disk := disk_at disk_no in
      let tot := total_sectors disk in
      if (tot <=? 0) || (bytes_per_sector disk <=? 0) then ret (-1, 0) else
      if buffer =? 0 then ret (-1, 0) else
      on_host (memset0 buffer (512 * MAX_BATCH_SIZE)) ;;;
      iter_fuel (S (Z.to_nat tot)) (fun '(lba, progress) =>
        if lba <? tot then
          let progress := u64 (lba * 100) / tot in
          let sectors_to_write := if u64 (lba + MAX_BATCH_SIZE) <=? tot then MAX_BATCH_SIZE else u32 (tot - lba) in
          let! ok := kebla_disk_write fuel disk_no lba sectors_to_write buffer in
          if negb ok then ret (inr (-1, progress)) else
          ret (inl (u64 (lba + MAX_BATCH_SIZE), progress))
        else ret (inr (0, progress))) (0, 0)
  end.

(** [|] instead of [||]; a negative number passes. *)
Definition find_disk_type (disk_no : Z) : M st Z :=
  let! n := gets disk_count in
  if (MAX_TOTAL_DISKS <? disk_no) || (n - 1 <? disk_no) then ret (-1) else
  let! d := gets disks in
  match d with
  | None => ret (-1)
  | Some _ => let! disk := disk_at disk_no in ret (type_code (dtype disk))
  end.

Definition get_total_disks : M st Z := gets disk_count.
End disk.
