(* ===== verification/DiskProps.v ===== *)
(** The disk layer over the AHCI driver: reads and writes of a SATA disk
    reach exactly the requested sectors, clearing a disk zeroes it, and the
    detection overruns the table of disks on the third drive. *)
From S2P Require Import Prelude Ahci AhciProps Satapi Disk.

Section disk_specs.
Context {E : Type} `{HbaLaws E}.
Abbreviation st := (dst E).
Implicit Types s : st.

Lemma wp_on_host {A} (k : M (hst E) A) (Q : A -> st -> Prop) s :
  wp k (fun a h => Q a (mk_dst h (disks s) (disk_count s))) (host s) -> wp (on_host k) Q s.
Proof. unfold wp, on_host, obind. by destruct (k (host s)) as [[a h]| | |]. Qed.

Lemma wp_disk_at i l d (Q : Disk -> st -> Prop) s :
  disks s = Some l -> 0 <= i -> l !! Z.to_nat i = Some d -> Q d s -> wp (disk_at i) Q s.
Proof.
  intros Hl Hi Hd HQ. unfold wp, disk_at. rewrite Hl. destruct (Z.leb_spec 0 i); [|lia]. by rewrite Hd.
Qed.

(** Disk [i] of the table is a SATA drive of 512-byte sectors on a usable
    port. *)
Record sata_disk (i p : Z) s : Prop := {
  sd_index : 0 <= i < disk_count s;
  sd_entry : exists l d, disks s = Some l /\ l !! Z.to_nat i = Some d /\
    dtype d = DISK_TYPE_AHCI_SATA /\ context d = p /\ bytes_per_sector d = 512 /\
    total_sectors d = drive_size (hba (host s)) p;
  sd_port : port_ok p (host s)
}.

(** A virtual buffer of the caller in pages that translate to themselves, as
    vir_to_phys assumes. *)
Definition buffer_at (p vbuf n : Z) s : Prop :=
  map_base < vbuf /\ 0 < n /\ caller_buffer p (vbuf - map_base) n (host s) /\ direct (hba (host s)) vbuf n.

Lemma vir_to_phys_spec vbuf n p s (Q : Z -> hst E -> Prop) :
  port_ok p (host s) -> buffer_at p vbuf n s -> Q (vbuf - map_base) (host s) ->
  wp (vir_to_phys vbuf) Q (host s).
Proof.
  intros Hok (Hv & Hn & [_ He _] & _) HQ. pose proof map_base_pos. pose proof (po_off _ _ Hok) as Ho.
  apply wp_vir_to_phys; rewrite ?Ho; [lia | lia | done].
Qed.

(** C8 kebla_disk_read of sectors inside a SATA disk of the table, into a
    buffer whose pages translate to themselves.  The result depends on the
    block [b] that the heap gives for the IDENTIFY answer.  If its page
    translates to itself the call succeeds: what the processor reads in the
    buffer afterwards are the bytes of the sectors, and nothing else in use
    changes but the driver's command memory.  If the heap gave it a frame of
    its own, the answer goes to another frame, the driver finds a disk of size
    0 and the call fails, with no memory in use changed but the command
    memory.  No sector of any disk changes in either case. *)
Theorem kebla_disk_read_ok fuel i p lba count vbuf s k b e1 :
  sata_disk i p s -> buffer_at p vbuf (512 * count) s -> heap_room (hba (host s)) = S k ->
  0 <= lba -> 0 < count < 2 ^ 32 -> lba + count <= drive_size (hba (host s)) p ->
  1000000 < Z.of_nat fuel -> heap_alloc 512 (hba (host s)) = (b, e1) ->
  let ok := translate e1 b =? b in
  returns (kebla_disk_read fuel i lba count vbuf) s ok (fun s' =>
    (ok = true -> ld_through (translate (hba (host s'))) vbuf (512 * count) (Ahci.mem (host s')) =
       sectors_of (hba (host s)) p lba count) /\
    (forall x, owned (hba (host s)) x -> ~ driver_area (host s) p x ->
       ~ (ok = true /\ in_block vbuf (512 * count) x) -> Ahci.mem (host s') x = Ahci.mem (host s) x) /\
    (forall q l, drive (hba (host s')) q l = drive (hba (host s)) q l) /\
    disks s' = disks s /\ stepped p (host s) (host s')).
Proof.
  intros [Hi (l & d & Hl & Hd & Ht & Hc & _ & _) Hok] Hb Hk Hlba Hcnt Hsz Hf Ha ok. apply wp_returns.
  unfold kebla_disk_read. wp_steps. destruct (Z.leb_spec (disk_count s) i); [lia|]. wp_steps. rewrite Hl.
  destruct (Z.leb_spec count 0); [lia|]. pose proof map_base_pos. pose proof Hb as (Hv & _ & Hcb & Hdir).
  destruct (Z.eqb_spec vbuf 0); [lia|]. wp_steps. eapply wp_disk_at; [done | lia | done |].
  rewrite Ht, Hc. destruct (Z.eqb_spec p 0); [by destruct (po_port _ _ Hok)|].
  pose proof (drive_size_range _ _ (po_ready _ _ Hok)) as Hds.
  assert (Hfs : found_size (hba (host s)) p = if ok then drive_size (hba (host s)) p else 0)
    by (unfold found_size; by rewrite Ha). clearbody ok.
  wp_steps. apply wp_on_host. eapply vir_to_phys_spec; [done | done |].
  apply wp_on_host. eapply sata_read_spec; [done | done | done | done | done | done | done | |].
  - rewrite Z.sub_add. intros h' (Hld & Hx & Hdr & Hst & _) Hfd. cbn [host] in Hfd. destruct ok; cbv iota in Hfs; [|lia]. split; [done|].
    cbn [host disks] in *. split; [|split; [intros x Ho Hn Hi'; apply Hx; tauto | done]]. intros _. rewrite <- Hld.
    apply ld_through_direct. intros x Hx'. destruct Hcb as [_ _ Hown]. rewrite Z.sub_add in Hown.
    rewrite (k_trans _ _ _ (sp_kept _ _ _ Hst)); [by apply Hdir|]. rewrite Hdir by done. by apply Hown.
  - intros h' (Hst & Hdr & Hx) Hfd. cbn [host] in Hfd. destruct ok; cbv iota in Hfs; [lia|]. split; [done|]. cbn [host disks].
    split; [done|]. split; [intros x Ho Hn _; by apply Hx | done].
Qed.

Lemma kebla_disk_write_spec fuel i p lba count vbuf s k (Q : bool -> st -> Prop) :
  sata_disk i p s -> buffer_at p vbuf (512 * count) s -> heap_room (hba (host s)) = S k ->
  0 <= lba -> 0 < count -> (vbuf - map_base) mod 4096 + 512 * count <= 0x100000 ->
  lba + count <= drive_size (hba (host s)) p -> 1000000 < Z.of_nat fuel ->
  (forall h',
     (forall l, drive (hba h') p l = write_sectors lba count
        (ld_bytes vbuf (512 * count) (Ahci.mem (host s))) (drive (hba (host s)) p) l) ->
     (forall q l, q <> p -> drive (hba h') q l = drive (hba (host s)) q l) ->
     (forall x, owned (hba (host s)) x -> ~ driver_area (host s) p x ->
        Ahci.mem h' x = Ahci.mem (host s) x) ->
     stepped p (host s) h' -> heap_room (hba h') = k ->
     Q true (mk_dst h' (disks s) (disk_count s))) ->
  wp (kebla_disk_write fuel i lba count vbuf) Q s.
Proof.
  intros [Hi (l & d & Hl & Hd & Ht & Hc & _ & Htot) Hok] Hb Hk Hlba Hcnt Hsg Hsz Hf HQ.
  unfold kebla_disk_write. wp_steps. destruct (Z.leb_spec (disk_count s) i); [lia|]. wp_steps. rewrite Hl.
  destruct (Z.leb_spec count 0); [lia|]. pose proof map_base_pos. pose proof Hb as (Hv & _ & Hcb & _).
  pose proof (drive_size_range _ _ (po_ready _ _ Hok)) as Hds.
  destruct (Z.eqb_spec vbuf 0); [lia|]. wp_steps. eapply wp_disk_at; [done | lia | done |].
  rewrite Htot. replace (u64 (lba + count)) with (lba + count) by (unfold u64; rewrite Z.mod_small; lia).
  destruct (Z.ltb_spec (drive_size (hba (host s)) p) (lba + count)); [lia|].
  rewrite Ht, Hc. destruct (Z.eqb_spec p 0); [by destruct (po_port _ _ Hok)|].
  wp_steps. apply wp_on_host. eapply vir_to_phys_spec; [done | done |].
  apply wp_on_host. eapply sata_write_spec; [done | done | done | done | done | done | done | done |].
  rewrite Z.sub_add. intros h' (Hd' & Hq & Hx & Hst & Hr). by apply HQ.
Qed.

(** [n] batches of zeroes cover the first sectors. *)
Definition zeroed (d d' : Z -> list Z) (n : Z) : Prop :=
  forall l, d' l = if (0 <=? l) && (l <? n) then replicate 512 0 else d l.

Lemma zeroed_step d d1 d2 lba n buf :
  0 <= lba -> 0 < n -> zeroed d d1 lba -> (forall i, 0 <= i < n -> slice (i * 512) 512 buf = replicate 512 0) ->
  (forall l, d2 l = write_sectors lba n buf d1 l) -> zeroed d d2 (lba + n).
Proof.
  intros Hl Hn Hz Hb Hw l. rewrite Hw. unfold write_sectors. rewrite (Hz l).
  destruct (Z.leb_spec lba l), (Z.ltb_spec l (lba + n)), (Z.leb_spec 0 l), (Z.ltb_spec l lba);
    cbn [andb]; try lia; try done. apply Hb. lia.
Qed.

(** The batches the clearing of [tot] sectors takes. *)
Definition batches (tot : Z) : Z := (tot + 255) / 256.

(** After the batches below [lba]. *)
Definition clear_inv p vbuf s (k : nat) (x : Z * Z) (s' : st) : Prop :=
  let tot := drive_size (hba (host s)) p in
  0 <= x.1 /\ x.1 mod 256 = 0 /\ x.1 < tot + 256 /\
  disks s' = disks s /\ disk_count s' = disk_count s /\ stepped p (host s) (host s') /\
  (forall q l, q <> p -> drive (hba (host s')) q l = drive (hba (host s)) q l) /\
  zeroed (drive (hba (host s)) p) (drive (hba (host s')) p) (Z.min x.1 tot) /\
  ld_bytes vbuf (512 * 256) (Ahci.mem (host s')) = replicate (Z.to_nat (512 * 256)) 0 /\
  Z.of_nat (heap_room (hba (host s'))) + x.1 / 256 = Z.of_nat k.

Lemma sata_disk_stepped i p s s' :
  sata_disk i p s -> disks s' = disks s -> disk_count s' = disk_count s ->
  stepped p (host s) (host s') -> sata_disk i p s'.
Proof.
  intros [Hi (l & d & Hl & Hd & Ht & Hc & Hb & Hn) Hok] Hds Hn' Hst. constructor.
  - by rewrite Hn'.
  - exists l, d. rewrite Hds, (k_size _ _ _ (sp_kept _ _ _ Hst)). done.
  - apply Hst.
Qed.

Lemma buffer_stepped p vbuf n n' s s' :
  buffer_at p vbuf n s -> stepped p (host s) (host s') -> 0 < n' <= n -> buffer_at p vbuf n' s'.
Proof.
  intros (Hv & Hn & [Hp He Ho] & Hdir) Hst Hn'. split; [done|]. split; [lia|]. split; [constructor; [done | lia |]|].
  - intros x Hx. destruct (Ho x) as [Hw Ha]; [unfold in_block in *; lia|].
    split; [by apply (k_owned _ _ _ (sp_kept _ _ _ Hst))|]. by rewrite (stepped_area _ _ _ _ Hst).
  - intros x Hx. assert (Hx' : in_block vbuf n x) by (unfold in_block in *; lia).
    rewrite (k_trans _ _ _ (sp_kept _ _ _ Hst)); [by apply Hdir|]. rewrite (Hdir x Hx').
    rewrite Z.sub_add in Ho. by apply Ho.
Qed.

Ltac div256 z := pose proof (Z.div_mod z 256 ltac:(lia)); pose proof (Z.mod_pos_bound z 256 ltac:(lia)).

Lemma clear_round fuel i p vbuf s k lba pr s1 :
  sata_disk i p s -> buffer_at p vbuf (512 * 256) s -> (vbuf - map_base) mod 4096 = 0 ->
  batches (drive_size (hba (host s)) p) <= Z.of_nat k -> 1000000 < Z.of_nat fuel ->
  clear_inv p vbuf s k (lba, pr) s1 -> lba < drive_size (hba (host s)) p ->
  let n := Z.min 256 (drive_size (hba (host s)) p - lba) in
  wp (kebla_disk_write fuel i lba n vbuf)
    (fun ok s2 => ok = true /\ clear_inv p vbuf s k (lba + 256, pr) s2) s1.
Proof.
  intros Hsd Hb Hal Hk Hf (Hl & Hm & _ & Hds & Hdc & Hst & Hq & Hz & Hld & Hr) Hlt n. cbn [fst] in *.
  set (tot := drive_size (hba (host s)) p) in *.
  assert (Hroom : exists k', heap_room (hba (host s1)) = S k').
  { destruct (heap_room (hba (host s1))) as [|k']; [exfalso|by exists k'].
    unfold batches in Hk. div256 (tot + 255). div256 lba. lia. }
  destruct Hroom as [k' Hk']. pose proof Hb as (Hv & _ & [_ _ Ho] & _). rewrite Z.sub_add in Ho.
  eapply kebla_disk_write_spec; [by eapply sata_disk_stepped | eapply buffer_stepped; [exact Hb | done | lia] | done
    | lia | lia | lia | rewrite (k_size _ _ _ (sp_kept _ _ _ Hst)); fold tot; lia | done |].
  intros h' Hw Hq' Hx Hst' Hr'. split; [done|]. unfold clear_inv. cbn [fst host disks disk_count]. fold tot.
  split; [lia|]. split; [by rewrite (Z.add_mod lba 256), Hm by lia|]. split; [lia|].
  split; [done|]. split; [done|]. split; [by eapply stepped_trans|].
  split; [intros q l Hne; by rewrite Hq', Hq|]. split; [|split].
  - replace (Z.min (lba + 256) tot) with (lba + n) by lia. replace (Z.min lba tot) with lba in Hz by lia.
    eapply zeroed_step; [done | lia | exact Hz | | exact Hw].
    intros j Hj. change 512%nat with (Z.to_nat 512). rewrite <- (slice_replicate (Z.to_nat (512 * 256)) (j * 512) 512) by lia. rewrite <- Hld.
    replace (512 * 256) with (512 * n + 512 * (256 - n)) by lia. rewrite ld_bytes_app by lia.
    symmetry. apply slice_app_l; [lia | lia |]. rewrite ld_bytes_length; lia.
  - rewrite <- Hld. apply ld_bytes_ext. intros x Hx'. apply Hx.
    + apply (k_owned _ _ _ (sp_kept _ _ _ Hst)), Ho. unfold in_block. lia.
    + rewrite (stepped_area _ _ _ _ Hst). apply Ho. unfold in_block. lia.
  - rewrite Hr'. rewrite Hk' in Hr. replace (lba + 256) with (lba + 1 * 256) by lia.
    rewrite Z.div_add by lia. lia.
Qed.

(** C10 clear_disk on a SATA disk of the table: every sector of the disk is
    zero afterwards, beyond its end and on other disks nothing changes, and the
    result is 0.  The size is the one in the table.  The buffer is aligned to
    a page and its pages, like the port's command memory, translate to
    themselves; the heap has room for the IDENTIFY buffer that each batch of
    256 sectors loses, in blocks of any frame, at addresses where the direct
    map has no memory in use ([heap_room]). *)
Theorem clear_disk_ok fuel i p vbuf s k :
  sata_disk i p s -> buffer_at p vbuf (512 * 256) s -> (vbuf - map_base) mod 4096 = 0 ->
  heap_room (hba (host s)) = k -> batches (drive_size (hba (host s)) p) <= Z.of_nat k ->
  1000000 < Z.of_nat fuel ->
  exists progress, returns (clear_disk fuel i vbuf true) s (0, progress) (fun s' =>
    zeroed (drive (hba (host s)) p) (drive (hba (host s')) p) (drive_size (hba (host s)) p) /\
    (forall q l, q <> p -> drive (hba (host s')) q l = drive (hba (host s)) q l) /\
    stepped p (host s) (host s')).
Proof.
  intros Hsd Hb Hal Hk Hroom Hf.
  enough (Hw : wp (clear_disk fuel i vbuf true) (fun r s' => r.1 = 0 /\
    zeroed (drive (hba (host s)) p) (drive (hba (host s')) p) (drive_size (hba (host s)) p) /\
    (forall q l, q <> p -> drive (hba (host s')) q l = drive (hba (host s)) q l) /\
    stepped p (host s) (host s')) s).
  { apply wp_run in Hw as ([r pr] & s' & Hr & Hr0 & Hp). simpl in Hr0. subst r. by exists pr, s'. }
  pose proof Hsd as [Hi (l & d & Hl & Hd & Ht & Hc & Hbs & Hn) Hok].
  pose proof (drive_size_range _ _ (po_ready _ _ Hok)) as Hds. pose proof map_base_pos.
  pose proof Hb as (Hv & _ & [_ _ Ho] & Hdir). rewrite Z.sub_add in Ho.
  set (tot := drive_size (hba (host s)) p) in *.
  unfold clear_disk. wp_steps. rewrite Hl.
  destruct (Z.leb_spec (disk_count s) i), (Z.ltb_spec i 0); try lia. cbn [orb negb].
  wp_steps. eapply wp_disk_at; [done | lia | done |]. rewrite Hn, Hbs. fold tot.
  destruct (Z.leb_spec tot 0); [lia|]. cbn [orb Z.leb Z.compare]. destruct (Z.eqb_spec vbuf 0); [lia|].
  wp_steps. apply wp_on_host. apply wp_memset0; [done|]. unfold set_ram. cbn [hba Ahci.mem HHDM_OFFSET].
  unfold MAX_BATCH_SIZE. set (m1 := st_bytes vbuf _ _). set (s1 := mk_dst _ _ _).
  assert (Hst : stepped p (host s) (host s1)).
  { apply stepped_intro; [done | apply kept_refl | apply st_bytes_byte; [apply Hok | apply zeros_byte] |].
    intros x Hx. apply st_bytes_out. rewrite length_replicate.
    destruct (decide (in_block vbuf (512 * 256) x)) as [Hin|]; [|unfold in_block in *; lia].
    exfalso. apply (Ho x Hin). left. unfold in_block in *. lia. }
  eapply (wp_iter (clear_inv p vbuf s k) (fun x _ => Z.to_nat (tot - x.1))); [| |simpl; lia].
  - intros [lba pr] s2 Hinv. destruct (Z.ltb_spec lba tot).
    + wp_steps. pose proof Hinv as (Hl0 & _ & Hl1 & _). cbn [fst] in *. fold tot in Hl1.
      replace (if u64 (lba + 256) <=? tot then 256 else u32 (tot - lba)) with (Z.min 256 (tot - lba)).
      2:{ unfold u64, u32. rewrite Z.mod_small by lia. case_if; [lia|]. rewrite Z.mod_small by lia. lia. }
      eapply wp_mono; [eapply (clear_round fuel i p vbuf s k); try done|].
      intros ok s3 [-> Hinv3]. cbn [negb]. wp_steps. unfold u64. rewrite (Z.mod_small (lba + 256)) by lia.
      split; [|simpl; lia]. exact Hinv3.
    + wp_steps. destruct Hinv as (_ & _ & _ & _ & _ & Hst2 & Hq & Hz & _). cbn [fst] in *. fold tot in Hz.
      split; [done|]. rewrite Z.min_r in Hz by lia. done.
  - unfold clear_inv. cbn [fst]. fold tot. do 2 (split; [lia || done|]). split; [lia|].
    do 2 (split; [done|]). split; [exact Hst|]. split; [done|]. split; [|split].
    + rewrite Z.min_l by lia. intros x. by destruct (Z.leb_spec 0 x), (Z.ltb_spec x 0); try lia.
    + cbn [host Ahci.mem s1]. apply ld_st_same.
    + cbn [host hba s1]. rewrite Hk. change (0 / 256) with 0. lia.
Qed.

(** The entry of a drive found is written before the number of disks is
    tested: with as many disks as the table has entries the write is outside
    the table. *)
Lemma add_disk_full fuel t port rebase get_bytes get_total s l :
  disks s = Some l -> disk_count s = zlen l ->
  add_disk fuel t port rebase get_bytes get_total s = Undef.
Proof.
  intros Hl Hn. unfold add_disk, upd_disk, disk_at. cbv beta delta [bind gets obind mbind]. cbn. rewrite Hl, Hn.
  destruct (Z.leb_spec 0 (Z.of_nat (length l))); [|lia].
  by rewrite lookup_ge_None_2 by lia.
Qed.
End disk_specs.

(** A machine with one SATA disk of 2048 sectors. *)
Module OneDisk.
Import SimHba.

Definition disk0 : Disk := mk_disk true DISK_TYPE_AHCI_SATA 512 2048 0 0 0 1.
Definition host1 (direct_pages : nat) : hst sim :=
  mk_hst (mk_sim (fun l => [u8 l]) None 100 direct_pages) (st_bytes (clb + base + 8) (le_bytes 8 0x3000) (fun _ => 0)) base.
Definition st1 (direct_pages : nat) : dst sim := mk_dst (host1 direct_pages) (Some [disk0; disk_zero]) 1.

Section machine.
Context (n : nat) (Hn : (100 <= n)%nat).

Lemma table1 : table (host1 n) 1 = 0x3000 + base.
Proof. unfold table, header. cbn [hba Ahci.mem HHDM_OFFSET host1 command_list sim_view]. by rewrite word_st_same. Qed.

Lemma low1 x : x < base + 413696 -> owned (hba (host1 n)) x /\ translate (hba (host1 n)) x = x.
Proof.
  intros Hx. assert (Ht : sim_translate (hba (host1 n)) x = x).
  { unfold sim_translate, page_at. cbn [host1 hba s_direct]. case_if; [lia | done]. }
  split; [|done]. exists x. split; [|done]. cbn [host1 hba s_page]. unfold page_at. lia.
Qed.

Lemma host1_ok : port_ok 1 (host1 n).
Proof.
  assert (Hh : header (host1 n) 1 = 0x1000 + base) by done.
  constructor; rewrite ?table1, ?Hh; try done.
  - apply st_bytes_byte; [done | apply le_bytes_byte].
  - by left.
  - intros x Hx. apply low1. unfold driver_area, in_block in Hx. rewrite table1, Hh in Hx. lia.
  - intros x Hx. apply low1. unfold driver_area, in_block in Hx. rewrite table1, Hh in Hx. lia.
Qed.

Lemma st1_disk : sata_disk 0 1 (st1 n).
Proof. constructor; [simpl; lia | by exists [disk0; disk_zero], disk0 | exact host1_ok]. Qed.

Lemma buffer1 k : 0 < k <= 131072 -> buffer_at 1 (0x6000 + base) k (st1 n).
Proof.
  intros Hk. unfold buffer_at. cbn [map_base sim_view host st1]. split; [lia|]. split; [lia|].
  replace (0x6000 + base - base) with 0x6000 by lia. split.
  - constructor; cbn [map_base sim_view]; [lia | unfold base; lia |].
    intros x Hx. split; [apply low1; unfold in_block in Hx; lia|].
    unfold driver_area, in_block in *. rewrite table1. unfold header. simpl. unfold clb, base in *. lia.
  - intros x Hx. apply low1. unfold in_block in Hx. lia.
Qed.
End machine.

(** With a heap whose pages translate to themselves the sectors are read; with
    one that gives pages frames of their own the call fails. *)
Lemma kebla_disk_read_ok_witness :
  returns (kebla_disk_read SmallDrive.fuel0 0 5 40 (0x6000 + base)) (st1 1000) true (fun s' =>
    ld_through (translate (hba (host s'))) (0x6000 + base) 20480 (Ahci.mem (host s')) =
      sectors_of (hba (host1 1000)) 1 5 40) /\
  returns (kebla_disk_read SmallDrive.fuel0 0 5 40 (0x6000 + base)) (st1 100) false (fun _ => True).
Proof.
  split.
  - destruct (kebla_disk_read_ok SmallDrive.fuel0 0 1 5 40 (0x6000 + base) (st1 1000) 899 (page_at 100)
      (mk_sim (fun l => [u8 l]) None 101 1000)) as (s' & Hr & Hd & _);
      [by apply st1_disk; lia | by apply buffer1; lia | done | lia | lia | simpl; lia | unfold SmallDrive.fuel0; lia | done |].
    exists s'. split; [exact Hr | exact (Hd eq_refl)].
  - destruct (kebla_disk_read_ok SmallDrive.fuel0 0 1 5 40 (0x6000 + base) (st1 100) 899 (page_at 100)
      (mk_sim (fun l => [u8 l]) None 101 100)) as (s' & Hr & _);
      [by apply st1_disk; lia | by apply buffer1; lia | done | lia | lia | simpl; lia | unfold SmallDrive.fuel0; lia | done |].
    exists s'. split; [exact Hr | exact I].
Defined.

Lemma clear_disk_ok_witness :
  exists progress, returns (clear_disk SmallDrive.fuel0 0 (0x6000 + base) true) (st1 100) (0, progress) (fun s' =>
    drive (hba (host s')) 1 2047 = replicate 512 0).
Proof.
  destruct (clear_disk_ok SmallDrive.fuel0 0 1 (0x6000 + base) (st1 100) 900) as (pr & s' & Hr & Hz & _);
    [by apply st1_disk; lia | by apply buffer1; lia | done | done | vm_compute; discriminate | unfold SmallDrive.fuel0; lia |].
  exists pr, s'. split; [exact Hr|]. by rewrite Hz.
Defined.
End OneDisk.
