(* ===== verification/FatMount.v ===== *)
(** Creating and mounting a FAT32 volume
    (kernel/src/fs/fat32_fs/src/fat32_mount.c, fat.c) and the 32-byte
    directory entry (fat32_types.h).

    Output to the console is not modelled.  [fat32_load_fat_cache] reads the
    FAT into a buffer that nothing else uses; the buffer is its result. *)
From S2P Require Import Prelude CString BlockDev FatBpb FatCluster.

(** ** Directory entries *)

Record DirEntry := mk_dirent {
  DIR_Name : list Z;            (* 11 *)
  DIR_Attr : Z;
  DIR_NTRes : Z;
  DIR_CrtTimeTenth : Z;
  DIR_CrtTime : Z;
  DIR_CrtDate : Z;
  DIR_LstAccDate : Z;
  DIR_FstClusHI : Z;
  DIR_WrtTime : Z;
  DIR_WrtDate : Z;
  DIR_FstClusLO : Z;
  DIR_FileSize : Z
}.

Definition dir_encode (e : DirEntry) : list Z :=
  DIR_Name e ++ le_bytes 1 (DIR_Attr e) ++ le_bytes 1 (DIR_NTRes e) ++
  le_bytes 1 (DIR_CrtTimeTenth e) ++ le_bytes 2 (DIR_CrtTime e) ++ le_bytes 2 (DIR_CrtDate e) ++
  le_bytes 2 (DIR_LstAccDate e) ++ le_bytes 2 (DIR_FstClusHI e) ++ le_bytes 2 (DIR_WrtTime e) ++
  le_bytes 2 (DIR_WrtDate e) ++ le_bytes 2 (DIR_FstClusLO e) ++ le_bytes 4 (DIR_FileSize e).

(** The entry at an offset of a buffer. *)
Definition dir_decode (off : Z) (buf : list Z) : DirEntry := {|
  DIR_Name := slice off 11 buf;
  DIR_Attr := load 1 (off + 11) buf;
  DIR_NTRes := load 1 (off + 12) buf;
  DIR_CrtTimeTenth := load 1 (off + 13) buf;
  DIR_CrtTime := load 2 (off + 14) buf;
  DIR_CrtDate := load 2 (off + 16) buf;
  DIR_LstAccDate := load 2 (off + 18) buf;
  DIR_FstClusHI := load 2 (off + 20) buf;
  DIR_WrtTime := load 2 (off + 22) buf;
  DIR_WrtDate := load 2 (off + 24) buf;
  DIR_FstClusLO := load 2 (off + 26) buf;
  DIR_FileSize := load 4 (off + 28) buf
|}.

Definition ATTR_READ_ONLY : Z := 0x01.
Definition ATTR_VOLUME_ID : Z := 0x08.
Definition ATTR_DIRECTORY : Z := 0x10.
Definition ATTR_ARCHIVE : Z := 0x20.

(** An entry zeroed by memset, then name, attributes, cluster and size set. *)
Definition new_entry (name : list Z) (attr cluster size : Z) : DirEntry :=
  mk_dirent name attr 0 0 0 0 0 (Z.land (Z.shiftr cluster 16) 0xFFFF) 0 0
    (Z.land cluster 0xFFFF) size.

(** The byte at an offset of a local buffer the code knows to be there. *)
Definition byte_at (off : Z) (buf : list Z) : Z := default 0 (buf !! Z.to_nat off).

Section code.
Context {E : Type} `{BlockDev E}.
Abbreviation fs := (fat_state E).

(** The first slot of the cluster that is a volume label or free. *)
Definition find_label_slot (cluster_size : Z) (buf : list Z) : M fs (option Z) :=
  for_range (Z.to_nat ((cluster_size + 31) / 32)) 0 (fun i =>
    let offset := i * 32 in
    ret (if (byte_at (offset + 11) buf =? ATTR_VOLUME_ID) || (byte_at offset buf =? 0x00)
            || (byte_at offset buf =? 0xE5)
         then Some offset else None)).

(** The label padded to 11 upper-case characters.  [label] is the caller's
    array: reading behind it is undefined. *)
Fixpoint label_name (n : nat) (label : list Z) : outcome (list Z) :=
  match n with
  | O => Ret []
  | S n =>
      match label with
      | [] => Undef
      | c :: rest =>
          obind (label_name n rest) (fun l =>
            Ret ((if negb (c =? 0) && negb (c =? 46) then u8 (toupper (s8 c)) else 32) :: l))
      end
  end.

Definition fat32_set_volume_label (label : list Z) : M fs bool :=
  let! b := gets bpb in
  let root_cluster := get_root_dir_cluster b in
  let cluster_size := get_cluster_size_bytes b in
  let! ok := fs_malloc cluster_size in
  if negb ok then ret false else
  let! '(ok, buf) := fat32_read_cluster root_cluster (replicate (Z.to_nat cluster_size) 0) in
  if negb ok then fs_free ;;; ret false else
  let! slot := find_label_slot cluster_size buf in
  match slot with
  | None => fs_free ;;; ret false
  | Some offset =>
      let! name := lift (label_name 11 label) in
      let buf := splice offset (dir_encode (new_entry name ATTR_VOLUME_ID 0 0)) buf in
      let! ok := fat32_write_cluster root_cluster (Some buf) in
      fs_free ;;; ret ok
  end.

(** 16 sectors per cluster, fewer on small volumes. *)
Definition choose_sectors_per_cluster (sectors : Z) : Z :=
  if sectors <? 65536 then 1
  else if sectors <? 262144 then 2
  else if sectors <? 524288 then 4
  else 16.

Definition create_fat32_volume (fuel : nat) (start_lba sectors : Z) : M fs bool :=
  let sectors_per_cluster := choose_sectors_per_cluster sectors in
  let! ok := fs_malloc 512 in
  if negb ok then modify (set_bpb None) ;;; ret false else
  let! b := lift (create_bpb_fat32 sectors sectors_per_cluster start_lba) in
  modify (set_bpb (Some b)) ;;;
  let! ok := fat32_write_sector start_lba (Some (bpb_encode b)) in
  if negb ok then ret false else
  let! ok := fat32_write_sector (u32 (start_lba + 6)) (Some (bpb_encode b)) in
  if negb ok then ret false else
  let! ok := fs_malloc 512 in
  if negb ok then ret false else
  let! ok := fat32_write_sector (u32 (start_lba + 1)) (Some (fsinfo_encode create_fsinfo_sector)) in
  if negb ok then ret false else
  fs_free ;;;
  let fat_sector_size := BPB_FATSz32 b in
  let! r := for_range (Z.to_nat (BPB_NumFATs b)) 0 (fun fat_num =>
    let fat_start := u32 (u32 (start_lba + BPB_RsvdSecCnt b) + u32 (fat_num * fat_sector_size)) in
    let! ok := initialize_fat_tables fuel fat_start fat_sector_size in
    ret (if ok then None else Some false)) in
  match r with
  | Some v => ret v
  | None =>
      fat32_write_sectors (u32 (start_lba + BPB_RootClus b)) (BPB_SecPerClus b)
        (Some (replicate (Z.to_nat (512 * BPB_SecPerClus b)) 0))
  end.

Definition fat32_reset : M fs unit :=
  modify (set_base 0) ;;; modify (set_cwd 0) ;;;
  let! b := gets bpb in
  match b with
  | Some _ => fs_free ;;; modify (set_bpb None)
  | None => ret tt
  end.

Definition fat32_load_fat_cache : M fs (option (list Z)) :=
  let! b := gets bpb in
  let! fat_start_lba := lift (get_first_fat_sector b) in
  disk_read fat_start_lba (get_fat_size_in_sectors b) true.

(** The local [sector] is not freed on any path. *)
Definition fat32_mount (disk_no start_lba : Z) (vol_label : list Z) : M fs bool :=
  set_disk_number disk_no ;;;
  modify (set_base (u32 start_lba)) ;;;
  let! ok := fs_malloc 512 in
  if negb ok then ret false else
  let! r := fat32_read_sector start_lba true in
  match r with
  | None => ret false
  | Some sector =>
      let! old := gets bpb in
      let! ok := (match old with None => fs_malloc 512 | Some _ => ret true end) in
      if negb ok then ret false else
      modify (set_bpb (Some (bpb_decode sector))) ;;;
      let! b := gets bpb in
      modify (set_cwd (get_root_dir_cluster b)) ;;;
      let! no_fat := lift (get_total_no_fat b) in
      if negb (get_bytes_per_sector b =? 512) then ret false
      else if get_fat_size_in_sectors b =? 0 then ret false
      else if no_fat =? 0 then ret false
      else if get_sectors_per_cluster b =? 0 then ret false
      else if get_total_sectors b <=? 0 then ret false
      else
      let! ok := fat32_set_volume_label vol_label in
      if negb ok then ret false else
      modify (set_cwd (get_root_dir_cluster b)) ;;;
      let! cache := fat32_load_fat_cache in
      match cache with
      | None => ret false
      | Some _ =>
          let! _ := lift (get_total_clusters b) in
          ret true
      end
  end.
End code.
