(* ===== verification/FatDir.v ===== *)
(** Directories of the FAT32 driver: names, directory entries, lookup, paths
    (kernel/src/fs/fat32_fs/src: cluster_manager.c lines 379-1017, lfn.c,
    dir_manager.c).

    A C string argument is its list of characters (non-zero bytes); a pointer
    that the code tests against NULL is an [option].  A fixed-size array that
    a C string is copied into makes longer strings undefined.  The tokens of a
    path are [fields], which CString.v proves to be what the strtok loop
    yields.  Loops over a directory's cluster chain are bounded by [fuel]. *)
From S2P Require Import Prelude CString BlockDev FatBpb FatCluster FatMount.

(** ** Short and long names *)

(** Upper case, space padded 8.3 form of a name. *)
Definition not_dot (c : Z) : bool := negb (c =? 46).

Definition pad (n : nat) (l : list Z) : list Z := l ++ replicate (n - length l) 32.

Definition fat32_format_83_name (name : list Z) : list Z :=
  let i := Nat.min 8 (lead not_dot name) in
  let base := take i name in
  let rest := drop i name in
  let rest := drop (lead not_dot rest) rest in
  let ext := match rest with
             | [] => []
             | _ :: r => take 3 r
             end in
  let up := map (fun c => u8 (toupper c)) in
  pad 8 (up base) ++ pad 3 (up ext).

(** lfn.c *)
Definition fat32_lfn_checksum (short_name : list Z) : Z :=
  foldl (fun sum c => u8 ((if Z.land sum 1 =? 0 then 0 else 0x80) + Z.shiftr sum 1 + c)) 0 short_name.

Definition fat32_needs_lfn (name : list Z) : bool :=
  if 12 <? zlen name then true
  else existsb (fun c => islower (s8 c) || (c =? 32)) name.

Definition ATTR_LONG_NAME : Z := 0x0F.
Definition LONG_FILENAME_SIZE : Z := 256.

Record LFNEntry := mk_lfn {
  LDIR_Ord : Z;
  LDIR_Name1 : list Z;     (* 5 *)
  LDIR_Attr : Z;
  LDIR_Type : Z;
  LDIR_Chksum : Z;
  LDIR_Name2 : list Z;     (* 6 *)
  LDIR_FstClusLO : Z;
  LDIR_Name3 : list Z      (* 2 *)
}.

Definition lfn_encode (e : LFNEntry) : list Z :=
  le_bytes 1 (LDIR_Ord e) ++ mjoin (le_bytes 2 <$> LDIR_Name1 e) ++ le_bytes 1 (LDIR_Attr e) ++
  le_bytes 1 (LDIR_Type e) ++ le_bytes 1 (LDIR_Chksum e) ++ mjoin (le_bytes 2 <$> LDIR_Name2 e) ++
  le_bytes 2 (LDIR_FstClusLO e) ++ mjoin (le_bytes 2 <$> LDIR_Name3 e).

Definition load16s (off : Z) (n : nat) (buf : list Z) : list Z :=
  (fun i => load 2 (off + 2 * i) buf) <$> seqZ 0 (Z.of_nat n).

Definition lfn_decode (off : Z) (buf : list Z) : LFNEntry := {|
  LDIR_Ord := load 1 off buf;
  LDIR_Name1 := load16s (off + 1) 5 buf;
  LDIR_Attr := load 1 (off + 11) buf;
  LDIR_Type := load 1 (off + 12) buf;
  LDIR_Chksum := load 1 (off + 13) buf;
  LDIR_Name2 := load16s (off + 14) 6 buf;
  LDIR_FstClusLO := load 2 (off + 26) buf;
  LDIR_Name3 := load16s (off + 28) 2 buf
|}.

(** The 13 UTF-16 units of a long-name entry. *)
Definition lfn_units (e : LFNEntry) : list Z := LDIR_Name1 e ++ LDIR_Name2 e ++ LDIR_Name3 e.

(** Unit [idx] of the long name: a sign-extended character, the terminator
    or padding. *)
Definition lfn_unit (name : list Z) (idx : Z) : Z :=
  if idx <? zlen name then u16 (s8 (byte_at idx name))
  else if idx =? zlen name then 0x0000 else 0xFFFF.

(** The [i]-th long-name entry written for [name]. *)
Definition lfn_entry (name : list Z) (lfn_count checksum i : Z) : LFNEntry :=
  let order := lfn_count - i in
  let start := (order - 1) * 13 in
  let unit j := lfn_unit name (start + j) in
  mk_lfn (if order =? lfn_count then Z.lor (u8 order) 0x40 else u8 order)
    (unit <$> seqZ 0 5) ATTR_LONG_NAME 0 checksum (unit <$> seqZ 5 6) 0 (unit <$> seqZ 11 2).

Definition lfn_count_of (name : list Z) : Z :=
  if fat32_needs_lfn name then (zlen name + 12) / 13 else 0.

(** Comparing the 256-byte [long_name] buffer with a name by strcmp: equal, or
    not; without a terminator the comparison may run off the buffer. *)
Definition c_string (buf : list Z) : list Z := take (lead (fun c => negb (c =? 0)) buf) buf.

Definition long_name_is (long_name name : list Z) : outcome bool :=
  if negb (existsb (Z.eqb 0) long_name) && bool_decide (take (length long_name) name = long_name)
  then Undef
  else Ret (str_cmp (c_string long_name) name =? 0).

(** Storing at a position of the [long_name] array. *)
Definition put_char (pos v : Z) (long_name : list Z) : outcome (list Z) :=
  if (0 <=? pos) && (pos <? LONG_FILENAME_SIZE)
  then Ret (<[Z.to_nat pos := u8 v]> long_name) else Undef.

(** Collecting the units of an entry at [pos]; [skip] is the test of
    fat32_dir_exists that leaves out terminators and padding. *)
Fixpoint put_units (skip : bool) (units : list Z) (pos : Z) (long_name : list Z) :
    outcome (list Z) :=
  match units with
  | [] => Ret long_name
  | ch :: units =>
      if skip && ((ch =? 0xFFFF) || (ch =? 0x0000)) then put_units skip units pos long_name
      else obind (put_char pos ch long_name) (put_units skip units (pos + 1))
  end.

Definition put_lfn (skip : bool) (e : LFNEntry) (long_name : list Z) : outcome (list Z) :=
  let order := Z.land (LDIR_Ord e) 0x1F - 1 in
  put_units skip (lfn_units e) (order * 13) long_name.

Definition no_name : list Z := replicate 256 0.

Definition first_cluster_of (e : DirEntry) : Z :=
  Z.lor (u32 (Z.shiftl (DIR_FstClusHI e) 16)) (DIR_FstClusLO e).

Section code.
Context {E : Type} `{BlockDev E}.
Abbreviation fs := (fat_state E).

(** ** Free entries *)

(** Scan of one cluster for [needed] contiguous free entries. *)
Definition scan_free (cluster_size needed : Z) (buf : list Z) : option Z :=
  snd (foldl (fun '(free_count, found) off =>
    match found with
    | Some _ => (free_count, found)
    | None =>
        let first := byte_at off buf in
        if (first =? 0x00) || (first =? 0xE5) then
          let free_count := u32 (free_count + 1) in
          (free_count, if free_count =? needed
                       then Some (u32 (off - u32 (u32 (needed - 1) * 32))) else None)
        else (0, None)
    end) (0, None) ((fun i => i * 32) <$> seqZ 0 ((cluster_size + 31) / 32))).

(** The cluster and offset of the entries; the directory is extended when
    it has no room. *)
Definition fat32_find_contiguous_free_entries (fuel : nat) (dir_cluster needed : Z) :
    M fs (option (Z * Z)) :=
  let! b := gets bpb in
  let cluster_size := get_cluster_size_bytes b in
  let! ok := fs_malloc cluster_size in
  if negb ok then ret None else
  let! r := iter_fuel fuel (fun '(curr, buf) =>
    if negb (is_valid_cluster b curr) then ret (inr None) else
    let! '(ok, buf) := fat32_read_cluster curr buf in
    if negb ok then fs_free ;;; ret (inr (Some None)) else
    match scan_free cluster_size needed buf with
    | Some off => fs_free ;;; ret (inr (Some (Some (curr, off))))
    | None =>
        let! next := fat32_get_next_cluster curr in
        if is_end_of_cluster_chain b next then ret (inr None) else ret (inl (next, buf))
    end) (dir_cluster, replicate (Z.to_nat cluster_size) 0) in
  match r with
  | Some v => ret v
  | None =>
      let! a := fat32_append_cluster fuel dir_cluster in
      match a with
      | None => fs_free ;;; ret None
      | Some new_cluster =>
          let! _ := fat32_clear_cluster new_cluster in
          fs_free ;;; ret (Some (new_cluster, 0))
      end
  end.

(** The same search for a single entry. *)
Definition fat32_find_free_dir_entry (fuel : nat) (dir_cluster : Z) : M fs (option (Z * Z)) :=
  let! b := gets bpb in
  let cluster_size := get_cluster_size_bytes b in
  let! ok := fs_malloc cluster_size in
  if negb ok then ret None else
  let! r := iter_fuel fuel (fun '(curr, buf) =>
    if negb (is_valid_cluster b curr) then ret (inr None) else
    let! '(ok, buf) := fat32_read_cluster curr buf in
    if negb ok then fs_free ;;; ret (inr (Some None)) else
    let! found := for_range (Z.to_nat ((cluster_size + 31) / 32)) 0 (fun i =>
      let offset := i * 32 in
      let first := byte_at offset buf in
      ret (if (first =? 0x00) || (first =? 0xE5) then Some offset else None)) in
    match found with
    | Some offset => fs_free ;;; ret (inr (Some (Some (curr, offset))))
    | None =>
        let! next := fat32_get_next_cluster curr in
        if is_end_of_cluster_chain b next then ret (inr None) else ret (inl (next, buf))
    end) (dir_cluster, replicate (Z.to_nat cluster_size) 0) in
  match r with
  | Some v => ret v
  | None =>
      let! a := fat32_append_cluster fuel dir_cluster in
      match a with
      | None => fs_free ;;; ret None
      | Some new_cluster =>
          let! _ := fat32_clear_cluster new_cluster in
          fs_free ;;; ret (Some (new_cluster, 0))
      end
  end.

(** ** Creating entries *)

(** The bytes written for a name: its long-name entries, then the short
    entry. *)
Definition entry_bytes (name : list Z) (attr first_cluster file_size : Z) : list Z :=
  let short_name := fat32_format_83_name name in
  let lfn_count := lfn_count_of name in
  mjoin ((fun i => lfn_encode (lfn_entry name lfn_count (fat32_lfn_checksum short_name) i))
           <$> seqZ 0 lfn_count)
    ++ dir_encode (new_entry short_name attr first_cluster file_size).

Definition fat32_create_dir_entry (fuel : nat) (parent_cluster : Z) (name : list Z)
    (attr first_cluster file_size : Z) : M fs bool :=
  let! b := gets bpb in
  let cluster_size := get_cluster_size_bytes b in
  let total_entries := u32 (lfn_count_of name + 1) in
  let! r := fat32_find_contiguous_free_entries fuel parent_cluster total_entries in
  match r with
  | None => ret false
  | Some (entry_cluster, entry_offset) =>
      let! ok := fs_malloc cluster_size in
      if negb ok then ret false else
      let! '(ok, buf) := fat32_read_cluster entry_cluster (replicate (Z.to_nat cluster_size) 0) in
      if negb ok then fs_free ;;; ret false else
      let bytes := entry_bytes name attr first_cluster file_size in
      guard (entry_offset + zlen bytes <=? zlen buf) ;;;
      let! ok := fat32_write_cluster entry_cluster (Some (splice entry_offset bytes buf)) in
      fs_free ;;; ret ok
  end.

(** The "." and ".." entries of a new directory: the cluster's high half is
    not masked, but it fits. *)
Definition dot_name : list Z := 46 :: replicate 10 32.
Definition dotdot_name : list Z := [46; 46] ++ replicate 9 32.

Definition fat32_init_directory (dir_cluster parent_cluster : Z) : M fs bool :=
  let! b := gets bpb in
  let cluster_size := get_cluster_size_bytes b in
  let! ok := fs_malloc cluster_size in
  if negb ok then ret false else
  guard (64 <=? cluster_size) ;;;
  let buf := splice 0 (dir_encode (new_entry dot_name ATTR_DIRECTORY dir_cluster 0)
                         ++ dir_encode (new_entry dotdot_name ATTR_DIRECTORY parent_cluster 0))
               (replicate (Z.to_nat cluster_size) 0) in
  let! ok := fat32_write_cluster dir_cluster (Some buf) in
  fs_free ;;; ret ok.

Definition fat32_mkdir_internal (fuel : nat) (parent_cluster : Z) (name : list Z) : M fs bool :=
  let! a := fat32_allocate_cluster in
  match a with
  | None => ret false
  | Some new_cluster =>
      let! _ := fat32_clear_cluster new_cluster in
      let! ok := fat32_init_directory new_cluster parent_cluster in
      if negb ok then ret false else
      fat32_create_dir_entry fuel parent_cluster name ATTR_DIRECTORY new_cluster 0
  end.

(** ** Lookup *)

(** One pass of fat32_dir_exists over a cluster: [inl found] ends the
    search, [inr long_name] goes on with the next cluster. *)
Definition dir_exists_scan (cluster_size : Z) (name buf long_name : list Z) :
    M fs (bool + list Z) :=
  iter_fuel (S (Z.to_nat cluster_size)) (fun '(off, long_name) =>
    if off <? cluster_size then
      let e := dir_decode off buf in
      let first := byte_at off buf in
      if first =? 0x00 then ret (inr (inl false))
      else if first =? 0xE5 then ret (inl (off + 32, no_name))
      else if DIR_Attr e =? ATTR_LONG_NAME then
        let! long_name := lift (put_lfn true (lfn_decode off buf) long_name) in
        ret (inl (off + 32, long_name))
      else if negb (Z.land (DIR_Attr e) ATTR_DIRECTORY =? 0) then
        let! same := (if negb (byte_at 0 long_name =? 0)
                      then lift (long_name_is long_name name) else ret false) in
        if same then ret (inr (inl true))
        else if bool_decide (DIR_Name e = fat32_format_83_name name) then ret (inr (inl true))
        else ret (inl (off + 32, no_name))
      else ret (inl (off + 32, no_name))
    else ret (inr (inr long_name))) (0, long_name).

Definition fat32_dir_exists (fuel : nat) (dir_cluster : Z) (name : list Z) : M fs bool :=
  let! b := gets bpb in
  let cluster_size := get_cluster_size_bytes b in
  let! ok := fs_malloc cluster_size in
  if negb ok then ret false else
  iter_fuel fuel (fun '(curr, buf, long_name) =>
    if negb (is_valid_cluster b curr) then fs_free ;;; ret (inr false) else
    let! '(ok, buf) := fat32_read_cluster curr buf in
    if negb ok then fs_free ;;; ret (inr false) else
    let! r := dir_exists_scan cluster_size name buf long_name in
    match r with
    | inl found => fs_free ;;; ret (inr found)
    | inr long_name =>
        let! next := fat32_get_next_cluster curr in
        if is_end_of_cluster_chain b next then fs_free ;;; ret (inr false)
        else ret (inl (next, buf, long_name))
    end) (dir_cluster, replicate (Z.to_nat cluster_size) 0, no_name).

(** One pass of fat32_find_dir over a cluster: [Some None] is the end of the
    directory, [Some (Some c)] the directory found. *)
Definition find_dir_scan (entries : Z) (name buf : list Z) : option (option Z) :=
  foldl (fun acc i =>
    match acc with
    | Some _ => acc
    | None =>
        let e := dir_decode (i * 32) buf in
        let first := byte_at (i * 32) buf in
        if first =? 0x00 then Some None
        else if first =? 0xE5 then None
        else if negb (Z.land (DIR_Attr e) ATTR_DIRECTORY =? 0)
                && bool_decide (DIR_Name e = fat32_format_83_name name)
        then Some (Some (first_cluster_of e))
        else None
    end) None (seqZ 0 entries).

Definition fat32_find_dir (fuel : nat) (dir_cluster : Z) (name : list Z) : M fs (option Z) :=
  let! b := gets bpb in
  if dir_cluster <? get_root_dir_cluster b then ret None else
  let! total := lift (get_total_clusters b) in
  if u32 (total + 2) <? dir_cluster then ret None else
  let cluster_size := u32 (get_bytes_per_sector b * get_sectors_per_cluster b) in
  let! ok := fs_malloc cluster_size in
  if negb ok then ret None else
  iter_fuel fuel (fun '(curr, buf) =>
    if negb (is_valid_cluster b curr) then fs_free ;;; ret (inr None) else
    let! '(ok, buf) := fat32_read_cluster curr buf in
    if negb ok then fs_free ;;; ret (inr None) else
    match find_dir_scan (cluster_size / 32) name buf with
    | Some found => fs_free ;;; ret (inr found)
    | None =>
        let! next := fat32_get_next_cluster curr in
        if is_end_of_cluster_chain b next then fs_free ;;; ret (inr None)
        else ret (inl (next, buf))
    end) (dir_cluster, replicate (Z.to_nat cluster_size) 0).

Definition fat32_create_file_in_dir (fuel : nat) (parent_cluster : Z) (filename : list Z)
    (content : option (list Z)) (size : Z) : M fs bool :=
  let! '(ok, first_cluster) := fat32_write_cluster_chain fuel content size 0 in
  if negb ok then ret false else
  fat32_create_dir_entry fuel parent_cluster filename ATTR_ARCHIVE first_cluster size.

(** One pass of fat32_find_file over a cluster; the end mark only leaves the
    pass.  The result of the cluster read is not tested. *)
Definition find_file_scan (cluster_size : Z) (name buf long_name : list Z) :
    M fs ((DirEntry * Z) + list Z) :=
  iter_fuel (S (Z.to_nat cluster_size)) (fun '(off, long_name) =>
    if off <? cluster_size then
      let e := dir_decode off buf in
      let first := byte_at off buf in
      if first =? 0x00 then ret (inr (inr long_name))
      else if first =? 0xE5 then ret (inl (off + 32, long_name))
      else if DIR_Attr e =? ATTR_LONG_NAME then
        let! long_name := lift (put_lfn false (lfn_decode off buf) long_name) in
        ret (inl (off + 32, long_name))
      else
        let! same := lift (long_name_is long_name name) in
        if same || bool_decide (DIR_Name e = fat32_format_83_name name)
        then ret (inr (inl (e, off)))
        else ret (inl (off + 32, no_name))
    else ret (inr (inr long_name))) (0, long_name).

(** The entry, its cluster and its offset. *)
Definition fat32_find_file (fuel : nat) (dir_cluster : Z) (name : list Z) :
    M fs (option (DirEntry * Z * Z)) :=
  let! b := gets bpb in
  let cluster_size := get_cluster_size_bytes b in
  let! ok := fs_malloc cluster_size in
  if negb ok then ret None else
  iter_fuel fuel (fun '(curr, buf, long_name) =>
    if negb (is_valid_cluster b curr) then fs_free ;;; ret (inr None) else
    let! '(_, buf) := fat32_read_cluster curr buf in
    let! r := find_file_scan cluster_size name buf long_name in
    match r with
    | inl (e, off) => fs_free ;;; ret (inr (Some (e, curr, off)))
    | inr long_name =>
        let! next := fat32_get_next_cluster curr in
        if is_end_of_cluster_chain b next then fs_free ;;; ret (inr None)
        else ret (inl (next, buf, long_name))
    end) (dir_cluster, replicate (Z.to_nat cluster_size) 0, no_name).

(** ** Paths *)

Definition slash : list Z := [47].
Definition dot : list Z := [46].
Definition dotdot : list Z := [46; 46].

Definition path_tokens (path : list Z) : list (list Z) :=
  fields (S (length path)) slash path.

(** The loop over the tokens; [strict] is false in f_cwd, where a missing
    ".." leaves the directory as it is. *)
Fixpoint walk_tokens (fuel : nat) (strict : bool) (tokens : list (list Z)) (cluster : Z) :
    M fs (option Z) :=
  match tokens with
  | [] => ret (Some cluster)
  | token :: tokens =>
      if bool_decide (token = dot) then walk_tokens fuel strict tokens cluster
      else if bool_decide (token = dotdot) then
        let! r := fat32_find_dir fuel cluster dotdot in
        match r with
        | Some parent => walk_tokens fuel strict tokens parent
        | None => if strict then ret None else walk_tokens fuel strict tokens cluster
        end
      else
        let! r := fat32_find_dir fuel cluster token in
        match r with
        | Some next => walk_tokens fuel strict tokens next
        | None => ret None
        end
  end.

Definition starts_with_slash (path : list Z) : bool :=
  match path with c :: _ => c =? 47 | [] => false end.

(** strdup allocates the copy that strtok cuts up. *)
Definition fat32_path_to_cluster (fuel : nat) (path : option (list Z)) : M fs (option Z) :=
  let! b := gets bpb in
  match path, b with
  | Some path, Some _ =>
      let! ok := fs_malloc (zlen path + 1) in
      if negb ok then ret None else
      let! cwd := gets fat32_cwd_cluster in
      let start := if starts_with_slash path then get_root_dir_cluster b else cwd in
      let! r := walk_tokens fuel true (path_tokens path) start in
      fs_free ;;; ret r
  | _, _ => ret None
  end.

(** The position of the last slash. *)
Definition last_slash (path : list Z) : option nat :=
  foldl (fun acc i => if byte_at (Z.of_nat i) path =? 47 then Some i else acc) None
    (seq 0 (length path)).

(** Parent directory and last component, as f_mkdir, f_open, f_stat,
    f_unlink and fat32_split_path all compute them. *)
Definition resolve_parent (fuel : nat) (path : list Z) : M fs (option (Z * list Z)) :=
  let! b := gets bpb in
  match last_slash path with
  | None => let! cwd := gets fat32_cwd_cluster in ret (Some (cwd, path))
  | Some O => ret (Some (get_root_dir_cluster b, drop 1 path))
  | Some n =>
      let! r := fat32_path_to_cluster fuel (Some (take n path)) in
      ret (match r with Some c => Some (c, drop (S n) path) | None => None end)
  end.

(** [strcpy(tmp, path)] into [char tmp[256]]. *)
Definition copy_to_tmp (path : list Z) : M fs unit := guard (zlen path <? 256).

Definition fat32_split_path (fuel : nat) (path : option (list Z)) : M fs (option (Z * list Z)) :=
  match path with
  | None => ret None
  | Some path => copy_to_tmp path ;;; resolve_parent fuel path
  end.

Definition fat32_mkdir_root (fuel : nat) (name : list Z) : M fs bool :=
  let! b := gets bpb in
  let root := get_root_dir_cluster b in
  let! e := fat32_dir_exists fuel root name in
  if e then ret false else fat32_mkdir_internal fuel root name.
End code.

(** ** dir_manager.c *)

Record FAT32_DIR := mk_dir {
  d_first_cluster : Z;
  d_current_cluster : Z;
  d_pos : Z;
  d_parent_cluster : Z;
  d_name : list Z
}.

Record FAT32_DIRENT := mk_dirinfo {
  de_name : list Z;
  de_attr : Z;
  de_size : Z;
  de_first_cluster : Z
}.

(** The printable form of an 8.3 name: trailing spaces dropped, a dot before
    a non-empty extension. *)
Fixpoint drop_spaces (l : list Z) : list Z :=
  match l with
  | [] => []
  | c :: l => if c =? 32 then drop_spaces l else c :: l
  end.
Definition trim_spaces (l : list Z) : list Z := rev (drop_spaces (rev l)).

Definition display_name (n83 : list Z) : list Z :=
  let base := c_string (trim_spaces (take 8 n83)) in
  if byte_at 8 n83 =? 32 then base
  else base ++ [46] ++ c_string (trim_spaces (slice 8 3 n83)).

(** fat32_match_pattern: the outer loop and its recursion on the pattern. *)
Fixpoint fat32_match_pattern (pattern name : list Z) : bool :=
  match pattern with
  | [] => match name with [] => true | _ => false end
  | p :: pattern' =>
      if p =? 42 then
        match name with
        | [] => match pattern' with [] => true | _ => false end
        | _ =>
            match pattern' with
            | [] => true
            | _ => (fix any (name : list Z) : bool :=
                      match name with
                      | [] => false
                      | _ :: rest => fat32_match_pattern pattern' name || any rest
                      end) name
            end
        end
      else
        match name with
        | [] => false
        | c :: name' =>
            if negb (p =? 63) && negb (tolower (s8 p) =? tolower (s8 c)) then false
            else fat32_match_pattern pattern' name'
        end
  end.

Section dir_manager.
Context {E : Type} `{BlockDev E}.
Abbreviation fs := (fat_state E).

Definition f_cwd (fuel : nat) (path : option (list Z)) : M fs bool :=
  match path with
  | None | Some [] => ret false
  | Some path =>
      let! b := gets bpb in
      let! cwd := gets fat32_cwd_cluster in
      let current := if starts_with_slash path then get_root_dir_cluster b else cwd in
      if bool_decide (path = slash) then
        modify (set_cwd (get_root_dir_cluster b)) ;;; ret true
      else
        copy_to_tmp path ;;;
        let! r := walk_tokens fuel false (path_tokens path) current in
        match r with
        | None => ret false
        | Some current => modify (set_cwd current) ;;; ret true
        end
  end.

(** On success the handle.  When the parent of an absolute path cannot be
    resolved [parent_cluster] keeps the value [old_parent] it had. *)
Definition f_opendir (fuel : nat) (old_parent : Z) (path : option (list Z)) : M fs (option FAT32_DIR) :=
  match path with
  | None => ret None
  | Some path =>
      let! b := gets bpb in
      let root := get_root_dir_cluster b in
      let! cluster := (if bool_decide (path = slash) then ret (Some root)
                       else fat32_path_to_cluster fuel (Some path)) in
      match cluster with
      | None => ret None
      | Some cluster =>
          let! parent :=
            (if starts_with_slash path then
               copy_to_tmp path ;;;
               match last_slash path with
               | None | Some O => ret root
               | Some n =>
                   let! r := fat32_path_to_cluster fuel (Some (take n path)) in
                   ret (default old_parent r)
               end
             else gets fat32_cwd_cluster) in
          ret (Some (mk_dir cluster cluster 0 parent (take 255 path)))
      end
  end.

Definition f_closedir (dp : FAT32_DIR) : FAT32_DIR := mk_dir 0 0 0 0 [].

(** The scan of one cluster from [pos]: the position reached and what ended
    it: the end mark ([Some None]), an entry, or the end of the cluster. *)
Definition readdir_scan (cluster_size : Z) (buf : list Z) (pos : Z) :
    M fs (Z * option (option FAT32_DIRENT)) :=
  iter_fuel (S (Z.to_nat cluster_size)) (fun pos =>
    if pos <? cluster_size then
      guard (pos + 32 <=? zlen buf) ;;;
      let dir := dir_decode pos buf in
      let first := byte_at pos buf in
      let pos := u32 (pos + 32) in
      if first =? 0x00 then ret (inr (pos, Some None))
      else if first =? 0xE5 then ret (inl pos)
      else if DIR_Attr dir =? 0x0F then ret (inl pos)
      else if negb (Z.land (DIR_Attr dir) 0x08 =? 0) then ret (inl pos)
      else ret (inr (pos, Some (Some
             (mk_dirinfo (display_name (DIR_Name dir)) (DIR_Attr dir) (DIR_FileSize dir)
                (first_cluster_of dir)))))
    else ret (inr (pos, None))) pos.

(** The entry, if any, and the handle afterwards. *)
Definition f_readdir (fuel : nat) (dp : FAT32_DIR) : M fs (option FAT32_DIRENT * FAT32_DIR) :=
  let! b := gets bpb in
  let cluster_size := get_cluster_size_bytes b in
  let! ok := fs_malloc cluster_size in
  if negb ok then ret (None, dp) else
  let at_pos c p := mk_dir (d_first_cluster dp) c p (d_parent_cluster dp) (d_name dp) in
  iter_fuel fuel (fun '(curr, pos, buf) =>
    if negb (is_valid_cluster b curr) then fs_free ;;; ret (inr (None, at_pos curr pos)) else
    let! '(ok, buf) := fat32_read_cluster curr buf in
    if negb ok then fs_free ;;; ret (inr (None, at_pos curr pos)) else
    let! '(pos, r) := readdir_scan cluster_size buf pos in
    match r with
    | Some e => fs_free ;;; ret (inr (e, at_pos curr pos))
    | None =>
        let! next := fat32_get_next_cluster curr in
        ret (inl (next, 0, buf))
    end) (d_current_cluster dp, d_pos dp, replicate (Z.to_nat cluster_size) 0).

Definition f_mkdir (fuel : nat) (path : option (list Z)) : M fs bool :=
  match path with
  | None => ret false
  | Some path =>
      copy_to_tmp path ;;;
      let! r := resolve_parent fuel path in
      match r with
      | None => ret false
      | Some (parent_cluster, dirname) =>
          if zlen dirname =? 0 then ret false else
          let! e := fat32_dir_exists fuel parent_cluster dirname in
          if e then ret false else fat32_mkdir_internal fuel parent_cluster dirname
      end
  end.

(** The old entry's first byte becomes 0xE5. *)
Definition delete_entry (entry_offset : Z) (buf : list Z) : list Z :=
  splice entry_offset [0xE5] buf.

Definition f_rename (fuel : nat) (oldpath newpath : option (list Z)) : M fs bool :=
  match oldpath, newpath with
  | Some _, Some _ =>
      let! o := fat32_split_path fuel oldpath in
      match o with
      | None => ret false
      | Some (old_parent, oldname) =>
          let! f := fat32_find_file fuel old_parent oldname in
          match f with
          | None => ret false
          | Some (entry, entry_cluster, entry_offset) =>
              let! n := fat32_split_path fuel newpath in
              match n with
              | None => ret false
              | Some (new_parent, newname) =>
                  let! e := fat32_dir_exists fuel new_parent newname in
                  if e then ret false else
                  let! ok := fat32_create_dir_entry fuel new_parent newname (DIR_Attr entry)
                               (first_cluster_of entry) (DIR_FileSize entry) in
                  if negb ok then ret false else
                  let! b := gets bpb in
                  let! '(ok, buf) := fat32_read_cluster entry_cluster
                                       (replicate (Z.to_nat (get_cluster_size_bytes b)) 0) in
                  if negb ok then ret false else
                  guard (entry_offset <? zlen buf) ;;;
                  fat32_write_cluster entry_cluster (Some (delete_entry entry_offset buf))
              end
          end
      end
  | _, _ => ret false
  end.

Definition f_chdir (fuel : nat) (path : option (list Z)) : M fs bool :=
  match path with
  | None => ret false
  | Some _ =>
      let! r := fat32_path_to_cluster fuel path in
      match r with
      | None => ret false
      | Some cluster =>
          if cluster =? 0 then ret false
          else modify (set_cwd cluster) ;;; ret true
      end
  end.

Definition find_loop (fuel : nat) (pattern : list Z) (dp : FAT32_DIR) :
    M fs (option FAT32_DIRENT * FAT32_DIR) :=
  iter_fuel fuel (fun dp =>
    let! '(r, dp) := f_readdir fuel dp in
    match r with
    | None => ret (inr (None, dp))
    | Some entry =>
        if fat32_match_pattern pattern (de_name entry) then ret (inr (Some entry, dp))
        else ret (inl dp)
    end) dp.

Definition f_findnext (fuel : nat) (dp : FAT32_DIR) (pattern : list Z) :
    M fs (option FAT32_DIRENT * FAT32_DIR) := find_loop fuel pattern dp.

Definition f_findfirst (fuel : nat) (dp : FAT32_DIR) (path pattern : list Z) :
    M fs (option FAT32_DIRENT * FAT32_DIR) :=
  let! r := f_opendir fuel (d_parent_cluster dp) (Some path) in
  match r with
  | None => ret (None, dp)
  | Some dp => find_loop fuel pattern dp
  end.
End dir_manager.

(** [fat32_cwd_path] is never assigned, so f_getcwd copies the empty string:
    the characters stored, or NULL. *)
Definition f_getcwd (fat32_cwd_path : list Z) (size : Z) : option (list Z) :=
  if size =? 0 then None
  else if size <? zlen fat32_cwd_path + 1 then None
  else Some (fat32_cwd_path ++ [0]).
