(* ===== verification/FatFile.v ===== *)
(** Open files of the FAT32 driver
    (kernel/src/fs/fat32_fs/src/file_manager.c).

    An operation takes the file object and returns it as it leaves it.  A
    caller's buffer is the list of its bytes; an access outside it is
    undefined.  NULL arguments, which every operation refuses, are left out,
    except for paths. *)
From S2P Require Import Prelude CString BlockDev FatBpb FatCluster FatMount FatDir.

Record FAT32_FILE := mk_file {
  first_cluster : Z;
  current_cluster : Z;
  size : Z;
  pos : Z;
  parent_cluster : Z;
  dir_entry_cluster : Z;
  dir_entry_offset : Z;
  name : list Z;
  mode : Z;
  error : Z
}.

Definition set_chain (first cur : Z) (fp : FAT32_FILE) : FAT32_FILE :=
  mk_file first cur (size fp) (pos fp) (parent_cluster fp) (dir_entry_cluster fp)
    (dir_entry_offset fp) (name fp) (mode fp) (error fp).
Definition set_pos (p : Z) (fp : FAT32_FILE) : FAT32_FILE :=
  mk_file (first_cluster fp) (current_cluster fp) (size fp) p (parent_cluster fp)
    (dir_entry_cluster fp) (dir_entry_offset fp) (name fp) (mode fp) (error fp).
Definition set_size (n : Z) (fp : FAT32_FILE) : FAT32_FILE :=
  mk_file (first_cluster fp) (current_cluster fp) n (pos fp) (parent_cluster fp)
    (dir_entry_cluster fp) (dir_entry_offset fp) (name fp) (mode fp) (error fp).

Definition FA_CREATE : Z := 0x04.
Definition FA_CREATE_ALWAYS : Z := 0x08.

(** The size and first cluster of a file stored into its directory entry. *)
Definition update_entry (fp : FAT32_FILE) (buf : list Z) : list Z :=
  let off := dir_entry_offset fp in
  let buf := store 4 (off + 28) (size fp) buf in
  let buf := store 2 (off + 20) (Z.land (Z.shiftr (first_cluster fp) 16) 0xFFFF) buf in
  store 2 (off + 26) (Z.land (first_cluster fp) 0xFFFF) buf.

Section code.
Context {E : Type} `{BlockDev E}.
Abbreviation fs := (fat_state E).

(** The malloc of [tmp] is not tested, and [tmp] is freed only when the
    parent directory is not found. *)
Definition f_open (fuel : nat) (fp : FAT32_FILE) (path : option (list Z)) (m : Z) :
    M fs (bool * FAT32_FILE) :=
  match path with
  | None => ret (false, fp)
  | Some path =>
      let! ok := fs_malloc (zlen path + 1) in
      guard ok ;;;
      let! r := resolve_parent fuel path in
      match r with
      | None => fs_free ;;; ret (false, fp)
      | Some (parent, filename) =>
          let! f := fat32_find_file fuel parent filename in
          let! f :=
            (match f with
             | Some _ => ret f
             | None =>
                 if Z.land m (Z.lor FA_CREATE FA_CREATE_ALWAYS) =? 0 then ret None else
                 let! ok := fat32_create_dir_entry fuel parent filename 0x20 0 0 in
                 if negb ok then ret None else fat32_find_file fuel parent filename
             end) in
          match f with
          | None => ret (false, fp)
          | Some (entry, entry_cluster, entry_offset) =>
              ret (true, mk_file (first_cluster_of entry) (first_cluster_of entry)
                           (DIR_FileSize entry) 0 parent entry_cluster entry_offset
                           (take 255 filename) (u8 m) (error fp))
          end
      end
  end.

(** Writing the entry back, as f_close and f_sync do. *)
Definition write_back (fp : FAT32_FILE) : M fs bool :=
  let! b := gets bpb in
  let cluster_size := get_cluster_size_bytes b in
  let! ok := fs_malloc cluster_size in
  if negb ok then ret false else
  let! '(ok, buf) := fat32_read_cluster (dir_entry_cluster fp) (replicate (Z.to_nat cluster_size) 0) in
  if negb ok then fs_free ;;; ret false else
  guard (dir_entry_offset fp + 32 <=? zlen buf) ;;;
  let! ok := fat32_write_cluster (dir_entry_cluster fp) (Some (update_entry fp buf)) in
  fs_free ;;; ret ok.

Definition f_close (fp : FAT32_FILE) : M fs (bool * FAT32_FILE) :=
  let! ok := write_back fp in
  if negb ok then ret (false, fp) else
  ret (true, mk_file 0 0 0 0 0 0 0 [] 0 (error fp)).

Definition f_sync (fp : FAT32_FILE) : M fs bool := write_back fp.

(** Walking down the chain by whole clusters: the cluster reached and the
    offset left. *)
Definition walk_chain (fuel : nat) (cluster_size cluster offset : Z) : M fs (Z * Z) :=
  iter_fuel fuel (fun '(cluster, offset) =>
    if (cluster_size <=? offset) && negb (cluster =? 0) then
      let! next := fat32_get_next_cluster cluster in
      ret (inl (next, u32 (offset - cluster_size)))
    else ret (inr (cluster, offset))) (cluster, offset).

(** The return value, the caller's buffer, [*br] and the file. *)
Definition f_read (fuel : nat) (fp : FAT32_FILE) (buff : list Z) (btr : Z) :
    M fs (bool * list Z * Z * FAT32_FILE) :=
  if size fp <=? pos fp then ret (true, buff, 0, fp) else
  let! b := gets bpb in
  let cluster_size := get_cluster_size_bytes b in
  let! ok := fs_malloc cluster_size in
  if negb ok then ret (false, buff, 0, fp) else
  let remaining := u32 (size fp - pos fp) in
  let btr := if remaining <? btr then remaining else btr in
  let! '(cluster, offset) := walk_chain fuel cluster_size (first_cluster fp) (pos fp) in
  let! '(ok, buff, br) := iter_fuel fuel (fun '(cluster, offset, br, buff, cbuf) =>
    if (br <? btr) && negb (cluster =? 0) then
      let! '(ok, cbuf) := fat32_read_cluster cluster cbuf in
      if negb ok then ret (inr (false, buff, br)) else
      let copy_size := u32 (cluster_size - offset) in
      let copy_size := if u32 (btr - br) <? copy_size then u32 (btr - br) else copy_size in
      guard ((offset + copy_size <=? zlen cbuf) && (br + copy_size <=? zlen buff)) ;;;
      let buff := splice br (slice offset copy_size cbuf) buff in
      let! next := fat32_get_next_cluster cluster in
      ret (inl (next, 0, u32 (br + copy_size), buff, cbuf))
    else ret (inr (true, buff, br)))
    (cluster, offset, 0, buff, replicate (Z.to_nat cluster_size) 0) in
  fs_free ;;;
  if negb ok then ret (false, buff, br, fp)
  else ret (true, buff, br, set_pos (u32 (pos fp + br)) fp).

(** The next cluster of the chain, appended when the chain ends. *)
Definition next_or_append (fuel : nat) (cluster : Z) : M fs (option Z) :=
  let! next := fat32_get_next_cluster cluster in
  if 0x0FFFFFF8 <=? next then fat32_append_cluster fuel cluster else ret (Some next).

(** The return value, [*bw] and the file. *)
Definition f_write (fuel : nat) (fp : FAT32_FILE) (buff : list Z) (btw : Z) :
    M fs (bool * Z * FAT32_FILE) :=
  let! b := gets bpb in
  let cluster_size := get_cluster_size_bytes b in
  let! ok := fs_malloc cluster_size in
  if negb ok then ret (false, 0, fp) else
  let! r :=
    (if first_cluster fp =? 0 then
       let! a := fat32_allocate_cluster in
       ret (match a with Some c => Some (c, set_chain c c fp) | None => None end)
     else ret (Some (first_cluster fp, fp))) in
  match r with
  | None => fs_free ;;; ret (false, 0, fp)
  | Some (current, fp) =>
      let! w := iter_fuel fuel (fun '(cluster, offset) =>
        if (cluster_size <=? offset) && negb (cluster =? 0) then
          let! next := next_or_append fuel cluster in
          match next with
          | None => ret (inr None)
          | Some next => ret (inl (next, u32 (offset - cluster_size)))
          end
        else ret (inr (Some (cluster, offset)))) (current, pos fp) in
      match w with
      | None => fs_free ;;; ret (false, 0, fp)
      | Some (current, offset) =>
          let! '(ok, bw, current) := iter_fuel fuel (fun '(cluster, offset, bw, cbuf) =>
            if bw <? btw then
              let! '(ok, cbuf) := fat32_read_cluster cluster cbuf in
              if negb ok then ret (inr (false, bw, cluster)) else
              let write_bytes := u32 (cluster_size - offset) in
              let write_bytes := if u32 (btw - bw) <? write_bytes then u32 (btw - bw)
                                 else write_bytes in
              guard ((offset + write_bytes <=? zlen cbuf) && (bw + write_bytes <=? zlen buff)) ;;;
              let cbuf := splice offset (slice bw write_bytes buff) cbuf in
              let! ok := fat32_write_cluster cluster (Some cbuf) in
              if negb ok then ret (inr (false, bw, cluster)) else
              let bw := u32 (bw + write_bytes) in
              if btw <=? bw then ret (inr (true, bw, cluster)) else
              let! next := next_or_append fuel cluster in
              match next with
              | None => ret (inr (false, bw, cluster))
              | Some next => ret (inl (next, 0, bw, cbuf))
              end
            else ret (inr (true, bw, cluster)))
            (current, offset, 0, replicate (Z.to_nat cluster_size) 0) in
          fs_free ;;;
          if negb ok then ret (false, bw, fp) else
          let fp := set_pos (u32 (pos fp + bw)) fp in
          let fp := if size fp <? pos fp then set_size (pos fp) fp else fp in
          ret (true, bw, set_chain (first_cluster fp) current fp)
      end
  end.

Definition f_lseek (fuel : nat) (fp : FAT32_FILE) (ofs : Z) : M fs FAT32_FILE :=
  let! b := gets bpb in
  let cluster_size := get_cluster_size_bytes b in
  let ofs := if size fp <? ofs then size fp else ofs in
  let! '(cluster, _) := walk_chain fuel cluster_size (first_cluster fp) ofs in
  ret (set_chain (first_cluster fp) cluster (set_pos ofs fp)).

Definition f_truncate (fuel : nat) (fp : FAT32_FILE) : M fs (bool * FAT32_FILE) :=
  let! b := gets bpb in
  let cluster_size := get_cluster_size_bytes b in
  if pos fp =? 0 then
    let! _ := (if negb (first_cluster fp =? 0)
               then fat32_free_cluster_chain fuel (first_cluster fp) else ret true) in
    ret (true, set_size 0 (set_chain 0 0 fp))
  else
    let! '(cluster, _) := walk_chain fuel cluster_size (first_cluster fp) (pos fp) in
    if cluster =? 0 then ret (false, fp) else
    let! next := fat32_get_next_cluster cluster in
    let! _ := fat32_set_next_cluster cluster 0x0FFFFFFF in
    let! _ := (if negb (next =? 0) then fat32_free_cluster_chain fuel next else ret true) in
    ret (true, set_size (pos fp) (set_chain (first_cluster fp) cluster fp)).

(** The callback gets the bytes and a state of its own. *)
Definition f_forward {A} (func : list Z -> A -> Z * A) (fuel : nat) (fp : FAT32_FILE) (btf : Z)
    (a : A) : M fs (bool * Z * A * FAT32_FILE) :=
  if size fp <=? pos fp then ret (true, 0, a, fp) else
  let! b := gets bpb in
  let cluster_size := get_cluster_size_bytes b in
  let! ok := fs_malloc cluster_size in
  if negb ok then ret (false, 0, a, fp) else
  let remaining := u32 (size fp - pos fp) in
  let btf := if remaining <? btf then remaining else btf in
  let! '(cluster, offset) := walk_chain fuel cluster_size (first_cluster fp) (pos fp) in
  let! '(ok, bf, a) := iter_fuel fuel (fun '(cluster, offset, bf, a, cbuf) =>
    if (bf <? btf) && negb (cluster =? 0) then
      let! '(ok, cbuf) := fat32_read_cluster cluster cbuf in
      if negb ok then ret (inr (false, bf, a)) else
      let forward_size := u32 (cluster_size - offset) in
      let forward_size := if u32 (btf - bf) <? forward_size then u32 (btf - bf) else forward_size in
      guard (offset + forward_size <=? zlen cbuf) ;;;
      let '(sent, a) := func (slice offset forward_size cbuf) a in
      let bf := u32 (bf + sent) in
      if sent <? forward_size then ret (inr (true, bf, a)) else
      let! next := fat32_get_next_cluster cluster in
      ret (inl (next, 0, bf, a, cbuf))
    else ret (inr (true, bf, a)))
    (cluster, offset, 0, a, replicate (Z.to_nat cluster_size) 0) in
  fs_free ;;;
  if negb ok then ret (false, bf, a, fp)
  else ret (true, bf, a, set_pos (u32 (pos fp + bf)) fp).

(** The walk to the last cluster follows links until one is zero. *)
Definition f_expand (fuel : nat) (fp : FAT32_FILE) (sz : Z) : M fs (bool * FAT32_FILE) :=
  let! b := gets bpb in
  let cluster_size := get_cluster_size_bytes b in
  let! needed := lift (udiv (u32 (u32 (sz + cluster_size) - 1)) cluster_size) in
  let! current := (if negb (first_cluster fp =? 0)
                   then fat32_count_cluster_chain fuel (first_cluster fp) else ret 0) in
  if needed <=? current then ret (true, fp) else
  let! '(ok, first_new) := fat32_allocate_cluster_chain (u32 (needed - current)) in
  if negb ok then ret (false, fp) else
  if first_cluster fp =? 0 then ret (true, set_chain first_new first_new fp) else
  let! last := iter_fuel fuel (fun last =>
    let! next := fat32_get_next_cluster last in
    if next =? 0 then ret (inr last) else
    let! next := fat32_get_next_cluster last in
    ret (inl next)) (first_cluster fp) in
  let! _ := fat32_set_next_cluster last first_new in
  ret (true, fp).

(** The characters stored before the terminator; [None] is NULL.  [buff]
    has [len] bytes. *)
Definition f_gets (fuel : nat) (len : Z) (fp : FAT32_FILE) : M fs (option (list Z) * FAT32_FILE) :=
  if len <=? 0 then ret (None, fp) else
  iter_fuel (S (Z.to_nat len)) (fun '(acc, fp) =>
    if zlen acc <? len - 1 then
      let! '(ok, c, br, fp) := f_read fuel fp [0] 1 in
      if negb ok || (br =? 0) then
        ret (inr (if zlen acc =? 0 then None else Some acc, fp))
      else
        let acc := acc ++ c in
        if byte_at 0 c =? 10 then ret (inr (Some acc, fp)) else ret (inl (acc, fp))
    else ret (inr (Some acc, fp))) ([], fp).

Definition f_putc (fuel : nat) (c : Z) (fp : FAT32_FILE) : M fs (Z * FAT32_FILE) :=
  let! '(ok, bw, fp) := f_write fuel fp [u8 c] 1 in
  if negb ok then ret (-1, fp) else if negb (bw =? 1) then ret (-1, fp) else ret (u8 c, fp).

Definition f_puts (fuel : nat) (str : list Z) (fp : FAT32_FILE) : M fs (Z * FAT32_FILE) :=
  let len := u32 (zlen str) in
  let! '(ok, bw, fp) := f_write fuel fp str len in
  if negb ok then ret (-1, fp) else if negb (bw =? len) then ret (-1, fp) else ret (s32 bw, fp).

Definition f_tell (fp : FAT32_FILE) : Z := pos fp.
Definition f_size (fp : FAT32_FILE) : Z := size fp.
Definition f_eof (fp : FAT32_FILE) : bool := size fp <=? pos fp.
Definition f_error (fp : FAT32_FILE) : Z := error fp.

(** When the parent is not found the array [tmp] on the stack is passed to
    free, which is undefined. *)
Definition f_stat (fuel : nat) (path : option (list Z)) : M fs (option FAT32_DIRENT) :=
  match path with
  | None => ret None
  | Some path =>
      copy_to_tmp path ;;;
      let! r := resolve_parent fuel path in
      match r with
      | None => undef
      | Some (parent, filename) =>
          let! f := fat32_find_file fuel parent filename in
          match f with
          | None => ret None
          | Some (entry, _, _) =>
              ret (Some (mk_dirinfo filename (DIR_Attr entry) (DIR_FileSize entry)
                           (first_cluster_of entry)))
          end
      end
  end.

Definition f_unlink (fuel : nat) (path : option (list Z)) : M fs bool :=
  match path with
  | None => ret false
  | Some path =>
      copy_to_tmp path ;;;
      let! r := resolve_parent fuel path in
      match r with
      | None => undef
      | Some (parent, filename) =>
          let! f := fat32_find_file fuel parent filename in
          match f with
          | None => ret false
          | Some (entry, entry_cluster, entry_offset) =>
              let first := first_cluster_of entry in
              let! _ := (if negb (first =? 0) then fat32_free_cluster_chain fuel first
                         else ret true) in
              let! b := gets bpb in
              let cluster_size := get_cluster_size_bytes b in
              let! ok := fs_malloc cluster_size in
              if negb ok then ret false else
              let! '(ok, buf) := fat32_read_cluster entry_cluster
                                   (replicate (Z.to_nat cluster_size) 0) in
              if negb ok then fs_free ;;; ret false else
              guard (entry_offset <? zlen buf) ;;;
              let! ok := fat32_write_cluster entry_cluster (Some (delete_entry entry_offset buf)) in
              fs_free ;;; ret ok
          end
      end
  end.
End code.
