(* ===== verification/FatChain.v ===== *)
(** Files as cluster chains: writing a buffer to a fresh chain, reading
    a chain back, appending to and freeing chains
    (kernel/src/fs/fat32_fs/src/cluster_manager.c, lines 132-377), and the
    theorems about the cluster layer. *)
From S2P Require Import Prelude BlockDev FatBpb FatCluster.

Section write_chain.
Context {E : Type} `{BlockDevLaws E} {Ar : Around}.
Implicit Types (s : fat_state E) (fat : Z -> Z) (data : Z -> list Z).

(** The loop state of [fat32_write_cluster_chain] after [zlen acc] rounds. *)
Definition writing s0 (b : BPB) fat data buf size (acc : list Z)
    '(written, prev, first) s1 : Prop :=
  written = Z.min (zlen acc * csize b) size /\ zlen acc <= rounds b size /\
  exists data1, building s0 s1 b fat acc data1 prev first /\
    stored b data buf size acc data1.

Lemma written_step b size n : vol_wf b -> 0 < size -> 0 <= n < rounds b size ->
  Z.min (n * csize b) size = n * csize b /\ n * csize b < size /\
  n * csize b + Z.min (csize b) (size - n * csize b) = Z.min ((n + 1) * csize b) size.
Proof.
  intros Hv Hs [Hn Hr]. pose proof (csize_pos b Hv).
  apply rounds_spec in Hr; [|done ..]. lia.
Qed.

Lemma building_store s0 s1 s2 b fat acc data1 prev first c chunk0 :
  building s0 s1 b fat acc data1 prev first ->
  (forall fat1, vol_rep s1 b fat1 data1 -> vol_rep s2 b fat1 (fupd data1 c chunk0)) ->
  globals s2 = globals s1 ->
  building s0 s2 b fat acc (fupd data1 c chunk0) prev first.
Proof.
  intros [(fat1 & Hgr & Hr) Hg Hp Hf] Hs2 Hg2.
  assert (Hh : fat32_free_cluster_no s2 = fat32_free_cluster_no s1)
    by (unfold globals in Hg2; congruence).
  constructor; [|rewrite Hh; congruence | done | done].
  exists fat1. rewrite Hh. auto.
Qed.

Lemma fupd_rep_unique s b fat fat' data data' data2 :
  vol_rep s b fat data -> vol_rep s b fat' data' -> vol_rep s b fat data2 ->
  vol_rep s b fat' data2.
Proof.
  intros H1 H2 H3. eapply vol_rep_ext; [exact H3 | | done]. intros c Hc.
  rewrite <- (rep_fat _ _ _ _ H1), <- (rep_fat _ _ _ _ H2) by done. done.
Qed.

(** One cluster's worth of data is written to the cluster just linked. *)
Lemma store_round s0 s1 b fat data data1 buf size acc c prev first :
  vol_wf b -> 0 < size <= zlen buf -> Forall byte buf -> zlen acc < rounds b size ->
  size < 4294967296 -> c ∉ acc -> in_vol b c ->
  building s0 s1 b fat (acc ++ [c]) data1 prev first ->
  stored b data buf size acc data1 ->
  let written := zlen acc * csize b in
  let to_write := if csize b <? u32 (size - written) then csize b else u32 (size - written) in
  wp (if to_write =? csize b then
        fat32_write_cluster c (Some (drop (Z.to_nat written) buf))
      else fat32_write_cluster c
             (Some (splice 0 (slice written to_write buf) (replicate (Z.to_nat (csize b)) 0))))
    (fun ok s2 => ok = true /\ written + to_write <= zlen buf /\
       writing s0 b fat data buf size (acc ++ [c]) (u32 (written + to_write), prev, first) s2) s1.
Proof.
  intros Hv Hsz Hby Hr H32 Hca Hc Hbu Hst written to_write.
  pose proof (csize_pos b Hv) as Hcs.
  destruct (written_step b size (zlen acc) Hv ltac:(lia) ltac:(lia)) as (Hmin & Hlt & Hnext).
  fold written in Hmin, Hlt, Hnext.
  assert (Htw : to_write = Z.min (csize b) (size - written))
    by (unfold to_write; assert (0 <= written) by (unfold written; nia); unwrap; case_if; lia).
  assert (Hu : u32 (written + to_write) = Z.min (zlen (acc ++ [c]) * csize b) size).
  { assert (0 <= written) by (unfold written; nia). rewrite length_app. simpl. unwrap. rewrite Htw, Hnext. f_equal. f_equal. lia. }
  destruct (written_chunk b buf size (zlen acc) Hv ltac:(lia) Hlt ltac:(lia) Hby)
    as (Ho1 & Ho2 & Ho3). fold written in Ho1, Ho2, Ho3. rewrite <- Htw in Ho1, Ho2, Ho3.
  pose proof Hbu as [(fat1 & Hgr & Hrep) _ _ _].
  assert (Hw : forall out, Forall byte out -> csize b <= zlen out ->
    take (Z.to_nat (csize b)) out = chunk b buf size (zlen acc) ->
    wp (fat32_write_cluster c (Some out)) (fun ok s2 => ok = true /\ written + to_write <= zlen buf /\
      writing s0 b fat data buf size (acc ++ [c]) (u32 (written + to_write), prev, first) s2) s1).
  { intros out Hb1 Hb2 Hb3. apply (write_cluster_spec s1 b fat1 data1); try done.
    intros s2 Hr2 Hg2. rewrite Hb3 in Hr2. split; [done|]. split; [lia|]. unfold writing.
    split; [exact Hu|]. split; [rewrite length_app; simpl; lia|].
    exists (fupd data1 c (chunk b buf size (zlen acc))). split; [|by apply stored_snoc].
    apply (building_store s0 s1 s2); [done | | done]. intros fat2 Hr2'.
    eapply vol_rep_ext; [exact Hr2 | | done]. intros x Hx.
    rewrite <- (rep_fat _ _ _ _ Hrep), <- (rep_fat _ _ _ _ Hr2') by done. done. }
  fold (zeros b). destruct (to_write =? csize b); by apply Hw.
Qed.

(** Writing [size] bytes allocates the first [rounds b size] free clusters,
    links them into a chain in that order, stores the bytes in them and
    frees the scratch block. *)
Lemma write_chain_spec s b fat data buf size fuel f0 (Q : bool * Z -> fat_state E -> Prop) :
  vol_rep s b fat data -> 2 <= fat32_free_cluster_no s ->
  0 < size < 4294967296 -> size <= zlen buf -> Forall byte buf ->
  rounds b size <= zlen (free_list b fat (fat32_free_cluster_no s)) ->
  rounds b size < Z.of_nat fuel ->
  (forall s' fat' data' acc,
     acc = take (Z.to_nat (rounds b size)) (free_list b fat (fat32_free_cluster_no s)) ->
     grown b fat (fat32_free_cluster_no s) acc fat' (fat32_free_cluster_no s') ->
     stored b data buf size acc data' ->
     vol_rep s' b fat' data' ->
     globals s' = globals (set_free_hint (fat32_free_cluster_no s') s) ->
     Q (true, hd 0 acc) s') ->
  wp (fat32_write_cluster_chain fuel (Some buf) size f0) Q s.
Proof.
  intros Hrep Hh Hsz Hlen Hby Hfree Hfuel HQ. pose proof (w_vol _ _ (rep_wf _ _ _ _ Hrep)) as Hv.
  pose proof (csize_pos b Hv) as Hcs. unfold fat32_write_cluster_chain. wp_step. apply wp_gets.
  rewrite (w_bpb _ _ (rep_wf _ _ _ _ Hrep)), get_cluster_size_wf by done. wp_step.
  apply malloc_spec; [apply Hrep | lia |]. intros s0 Hd0 Hg0. cbn [negb]. wp_step.
  assert (Hr0 : vol_rep s0 b fat data) by (by eapply vol_rep_live).
  assert (Hh0 : fat32_free_cluster_no s0 = fat32_free_cluster_no s) by (unfold globals in Hg0; simpl in Hg0; congruence).
  assert (Hr : 0 < rounds b size) by (apply rounds_spec; done || lia).
  apply (wp_iter_idx (fun acc : list Z => Z.to_nat (rounds b size - zlen acc))
    (writing s0 b fat data buf size)) with []; [| |cbn [length]; lia].
  - intros acc [[written prev] first] s1 (-> & Hle & data1 & Hbu & Hst).
    pose proof Hbu as [(fat1 & Hgr & Hr1) Hg1 Hp Hf]. case_if.
    + assert (Hrd : zlen acc < rounds b size) by (apply rounds_spec; done || lia).
      destruct (written_step b size (zlen acc) Hv ltac:(lia) ltac:(lia)) as (Hmin & _ & _).
      rewrite Hmin. wp_step. apply (allocate_spec s1 b fat1 data1); [done | apply Hgr | |].
      * intros c s2 Hc Hz Hfl Hr2 Hg2. cbv beta iota.
        pose proof (link_spec s0 s1 b fat acc data1 prev first c s2 fat1
          Hv Hgr Hg1 Hp Hf Hc Hfl Hr2 Hg2) as Hl.
        assert (Hca : c ∉ acc) by (eapply not_elem_below; [apply Hgr | lia]).
        assert (Hin : in_vol b c) by (pose proof (g_ge _ _ _ _ _ _ Hgr); unfold in_vol; lia).
        wp_step. eapply (wp_mono _ (fun f s3 => building s0 s3 b fat (acc ++ [c]) data1 c f)).
        { destruct (prev =? 0); cbn [negb]; [by wp_step|]. wp_step.
          eapply wp_mono; [exact Hl|]. intros ok s3 [_ Hb3]. by wp_step. }
        intros f s3 Hb3. cbv zeta.
        pose proof (store_round s0 s3 b fat data data1 buf size acc c c f Hv ltac:(lia) Hby Hrd
          ltac:(lia) Hca Hin Hb3 Hst) as Hsr. cbv zeta in Hsr.
        set (tw := if csize b <? _ then _ else _) in *.
        wp_step. apply wp_guard.
        { apply wp_run in Hsr as (? & ? & _ & _ & Hle' & _). by apply Z.leb_le. }
        wp_step. eapply wp_mono; [exact Hsr|]. intros ok s4 (-> & _ & Hwr). cbn [negb]. wp_step.
        exists (acc ++ [c]). split; [exact Hwr|]. rewrite length_app. simpl. lia.
      * intros s2 Hfl _. pose proof (g_free _ _ _ _ _ _ Hgr) as Hgf. rewrite Hh0, Hfl, app_nil_r in Hgf.
        rewrite Hgf in Hfree. lia.
    + wp_step. cbv beta iota. cbn [negb].
      assert (Hrd : zlen acc = rounds b size).
      { apply Z.le_antisymm; [done|]. apply Z.nlt_ge. intros Hlt%rounds_spec; done || lia. }
      assert (Hna : acc <> []).
      { intros ->. simpl in Hrd. lia. }
      destruct (grown_head _ _ _ _ _ _ Hv Hgr Hna) as (x & Hx & Hin & _).
      rewrite Hp, Hx. cbn [default]. unfold id. wp_step.
      apply (set_next_spec s1 b fat1 data1); [done | done |]. intros s2 Hr2 Hg2. wp_step.
      apply free_spec. intros s3 Hd3 Hg3. wp_step. rewrite (Hf Hna).
      assert (Hh3 : fat32_free_cluster_no s3 = fat32_free_cluster_no s1)
        by (unfold globals in Hg2, Hg3; simpl in Hg3; congruence).
      eapply (HQ s3 (fupd fat1 x CLUSTER_END_OF_CHAIN) data1 acc).
      * rewrite <- Hh0, (g_free _ _ _ _ _ _ Hgr), take_app_le by lia.
        rewrite firstn_all2; [done | lia].
      * rewrite Hh3, <- Hh0. by eapply grown_end.
      * done.
      * by eapply vol_rep_live.
      * rewrite Hh3. solve_globals.
  - unfold writing. simpl. split; [lia|]. split; [lia|].
    exists data. split; [|split; [done | done]]. constructor; [|by destruct s0 | done | done].
    exists fat. split; [apply grown_start; lia | done].
Qed.
End write_chain.

Section read_chain.
Context {E : Type} `{BlockDevLaws E} {Ar : Around}.
Implicit Types (s : fat_state E) (fat : Z -> Z) (data : Z -> list Z).

Lemma data_length s b fat data c :
  vol_rep s b fat data -> in_vol b c -> zlen (data c) = csize b.
Proof.
  intros Hr Hc. rewrite <- (rep_data _ _ _ _ Hr c Hc). unfold cluster_data.
  pose proof (v_spc _ (w_vol _ _ (rep_wf _ _ _ _ Hr))).
  rewrite length_sectors by lia. unfold csize. lia.
Qed.

Lemma splice_app_next (d1 d2 buf : list Z) (n : Z) :
  n = zlen d1 -> zlen d1 + zlen d2 <= zlen buf ->
  splice n d2 (splice 0 d1 buf) = splice 0 (d1 ++ d2) buf.
Proof.
  intros -> Hl. unfold splice. simpl. rewrite Nat2Z.id.
  rewrite take_app_le by done. rewrite firstn_all.
  rewrite drop_app_ge by lia. rewrite drop_drop, length_app, <- app_assoc.
  do 3 f_equal. lia.
Qed.

(** Reading a chain fills the buffer with the contents of its clusters. *)
Lemma read_chain_spec s b fat data c l buf max_bytes fuel
    (Q : bool * list Z -> fat_state E -> Prop) :
  vol_rep s b fat data -> chain b fat c l -> (length l < fuel)%nat ->
  zlen l * csize b <= max_bytes < 4294967296 -> max_bytes <= zlen buf ->
  (forall s', same_fs s s' -> Q (true, splice 0 (mjoin (data <$> l)) buf) s') ->
  wp (fat32_read_cluster_chain fuel c buf max_bytes) Q s.
Proof.
  intros Hrep Hch Hfuel Hmax Hlen HQ. pose proof (w_vol _ _ (rep_wf _ _ _ _ Hrep)) as Hv.
  pose proof (csize_pos b Hv) as Hcs. unfold fat32_read_cluster_chain. wp_step. apply wp_gets.
  rewrite (w_bpb _ _ (rep_wf _ _ _ _ Hrep)), get_cluster_size_wf by done.
  apply (wp_iter_idx length (fun k '(c, n, bf) s1 => same_fs s s1 /\ chain b fat c k /\
    exists done, l = done ++ k /\ n = zlen (mjoin (data <$> done)) /\
      n = zlen done * csize b /\ bf = splice 0 (mjoin (data <$> done)) buf)) with l;
    [| |done].
  - clear Hch Hfuel c. intros k [[c n] bf] s1 (Hs1 & Hch & dn & Hl & Hn & Hn' & ->).
    pose proof (vol_rep_same _ _ _ _ _ Hrep Hs1) as Hr1.
    pose proof (chain_in_vol _ _ _ _ Hch) as Hin. rewrite in_vol_valid by done. cbn [negb].
    destruct (chain_head _ _ _ _ Hch) as [k0 Hk0].
    assert (Hfit : n + csize b <= max_bytes)
      by (subst l k; rewrite length_app in Hmax; simpl in Hmax; nia).
    unwrap. destruct (Z.ltb_spec max_bytes (n + csize b)); [lia|].
    assert (Hbf : length (splice 0 (mjoin (data <$> dn)) buf) = length buf)
      by (apply length_splice; lia).
    pose proof (data_length _ _ _ _ _ Hrep Hin) as Hdc.
    wp_step. wp_step. wp_step.
    apply (read_cluster_spec s1 b fat data); [done | done | rewrite length_slice; lia |].
    intros s2 Hs2. cbv beta iota zeta. cbn [negb]. rewrite splice_app_next by lia.
    replace (mjoin (data <$> dn) ++ data c) with (mjoin (data <$> (dn ++ [c])))
      by (rewrite fmap_app, join_app; simpl; by rewrite app_nil_r).
    assert (Hs2' : same_fs s s2) by (by eapply same_fs_trans).
    wp_step. apply (get_next_spec s2 b fat data); [by eapply vol_rep_same | done |].
    intros s3 Hs3. assert (Hs3' : same_fs s s3) by (by eapply same_fs_trans).
    destruct (chain_step_next b fat c k Hv Hch) as [[-> He]|(k' & -> & Hl' & He & Hnz)];
      rewrite He; apply wp_ret.
    + rewrite Hl in HQ. by apply HQ.
    + exists k'. split; [|simpl; lia]. split; [done|]. split; [done|].
      exists (dn ++ [c]). split; [by rewrite Hl, <- app_assoc|].
      rewrite fmap_app, join_app, !length_app. simpl. rewrite app_nil_r. repeat split; lia.
  - split; [apply same_fs_refl|]. split; [done|]. exists []. by rewrite <- (app_nil_l buf) at 2.
Qed.

(** ** Round trip *)

(** The chunks of a file, put together, begin with its bytes. *)
Lemma chunks_prefix b buf size n : vol_wf b -> size <= zlen buf -> 0 <= n <= rounds b size ->
  0 < size ->
  exists pad, mjoin (chunk b buf size <$> seqZ 0 n) = take (Z.to_nat (Z.min (n * csize b) size)) buf ++ pad
    /\ (n < rounds b size -> pad = []).
Proof.
  intros Hv Hl [Hn0 Hn] Hs. pose proof (csize_pos b Hv) as Hcs. revert Hn. pattern n.
  apply natlike_ind; [| |done]; clear n Hn0.
  - intros _. exists []. rewrite Z.min_l by lia. done.
  - intros n Hn IH Hr. destruct IH as (pad & Hj & Hp); [lia|].
    rewrite Hp, app_nil_r in Hj by lia. clear pad Hp.
    destruct (written_step b size n Hv Hs ltac:(lia)) as (Hmin & Hlt & Hnext).
    rewrite Hmin in Hj. rewrite <- Z.add_1_r, seqZ_app, fmap_app, join_app, Hj by lia.
    rewrite seqZ_cons by lia. simpl. rewrite app_nil_r, Z.add_0_l. unfold chunk at 1.
    set (d := slice _ _ _). exists (replicate (Z.to_nat (csize b) - length d) 0).
    rewrite app_assoc. split.
    + f_equal. rewrite <- Hnext. unfold d, slice.
      rewrite Z2Nat.inj_add by nia. apply take_take_drop.
    + intros Hlt'. assert (Hfull : (n + 1) * csize b < size) by (apply rounds_spec; done || lia).
      replace (length d) with (Z.to_nat (csize b)); [by rewrite Nat.sub_diag|].
      unfold d. rewrite length_slice; nia.
Qed.

Lemma stored_chunks b data buf size acc data' :
  stored b data buf size acc data' ->
  data' <$> acc = chunk b buf size <$> seqZ 0 (zlen acc).
Proof.
  intros [Hi _]. apply list_eq. intros i. rewrite !list_lookup_fmap.
  destruct (acc !! i) as [c|] eqn:Hc.
  - rewrite lookup_seqZ_lt by (apply lookup_lt_Some in Hc; lia). simpl. by rewrite (Hi _ _ Hc).
  - rewrite lookup_seqZ_ge by (apply lookup_ge_None in Hc; lia). done.
Qed.
End read_chain.

Section append.
Context {E : Type} `{BlockDevLaws E} {Ar : Around}.
Implicit Types (s : fat_state E) (fat : Z -> Z) (data : Z -> list Z).

(** Entries on a chain are not free. *)
Lemma chain_nonzero b fat c l x : vol_wf b -> chain b fat c l -> x ∈ l -> fat x <> 0.
Proof.
  intros Hv Hch Hx. destruct (chain_suffix b _ _ _ _ Hch Hx) as (l1 & l2 & _ & Hs).
  destruct (chain_step_next b fat x l2 Hv Hs) as [[_ He]|(? & _ & _ & _ & ?)]; [|done].
  unfold is_end_of_cluster_chain in He. bool_to_prop. lia.
Qed.

Lemma last_of_chain b fat c l : chain b fat c l -> exists x, last l = Some x.
Proof. intros [l' ->]%chain_head. destruct (last (c :: l')) eqn:Hl; [eauto|]. by apply last_None in Hl. Qed.

Lemma append_spec s b fat data c l fuel (Q : option Z -> fat_state E -> Prop) :
  vol_rep s b fat data -> chain b fat c l -> (length l < fuel)%nat ->
  2 <= fat32_free_cluster_no s ->
  (forall n s' fat', fat n = 0 -> fat32_free_cluster_no s <= n ->
     free_list b fat (fat32_free_cluster_no s) = n :: free_list b fat (n + 1) ->
     chain b fat' c (l ++ [n]) -> (forall x, x <> n -> last l <> Some x -> fat' x = fat x) ->
     vol_rep s' b fat' data -> globals s' = globals (set_free_hint (n + 1) s) -> Q (Some n) s') ->
  (forall s', free_list b fat (fat32_free_cluster_no s) = [] -> same_fs s s' -> Q None s') ->
  wp (fat32_append_cluster fuel c) Q s.
Proof.
  intros Hrep Hch Hfuel Hh HQs HQn. pose proof (w_vol _ _ (rep_wf _ _ _ _ Hrep)) as Hv.
  destruct (last_of_chain _ _ _ _ Hch) as [x Hx].
  unfold fat32_append_cluster. wp_step.
  apply (wp_mono _ (fun r s1 => r = x /\ same_fs s s1)).
  { apply (wp_iter_idx length (fun k c s1 => same_fs s s1 /\ chain b fat c k /\ last k = Some x)) with l;
      [|by split; [apply same_fs_refl|] | done].
    clear Hch Hfuel HQs HQn Hx c. intros k c s1 (Hs1 & Hch & Hx). wp_step. apply wp_gets.
    pose proof (vol_rep_same _ _ _ _ _ Hrep Hs1) as Hr1. wp_step.
    apply (get_next_spec s1 b fat data); [done | by eapply chain_in_vol |]. intros s2 Hs2.
    rewrite (w_bpb _ _ (rep_wf _ _ _ _ Hr1)).
    destruct (chain_step_next b fat c k Hv Hch) as [[-> He]|(k' & -> & Hl' & He & Hnz)];
      rewrite He; apply wp_ret.
    - simpl in Hx. simplify_eq. split; [done | by eapply same_fs_trans].
    - exists k'. split; [|simpl; lia]. split; [by eapply same_fs_trans|]. split; [done|].
      destruct (chain_head _ _ _ _ Hl') as [? ->]. done. }
  intros x' s1 [-> Hs1]. pose proof (vol_rep_same _ _ _ _ _ Hrep Hs1) as Hr1.
  assert (Hh1 : fat32_free_cluster_no s1 = fat32_free_cluster_no s)
    by (destruct Hs1 as [_ Hg]; unfold globals in Hg; congruence).
  wp_step. apply (allocate_spec s1 b fat data); [done | lia | |]; rewrite Hh1.
  - intros n s2 Hn Hz Hfl Hr2 Hg2. cbv beta iota.
    assert (Hin : in_vol b n) by (unfold in_vol; lia).
    pose proof (last_Some_elem_of _ _ Hx) as Hxl.
    assert (Hnl : n ∉ l) by (intros Hin'; by apply (chain_nonzero b fat c l n Hv Hch Hin')).
    assert (Hxin : in_vol b x)
      by (pose proof (chain_all_in_vol b _ _ _ Hch) as Ha; rewrite Forall_forall in Ha; auto).
    wp_step. apply (set_next_spec s2 b (fupd fat n CLUSTER_END_OF_CHAIN) data); [done | done|].
    intros s3 Hr3 Hg3. rewrite (land_cluster b) in Hr3 by done.
    wp_step. apply (set_next_spec s3 b _ data _ _ _ Hr3); [done|]. intros s4 Hr4 Hg4. wp_step.
    eapply HQs; [done | lia | done | | | exact Hr4 |].
    + apply (chain_ext b (fupd (fupd fat n CLUSTER_END_OF_CHAIN) x n)).
      * apply chain_snoc; try done; [|by rewrite fupd_eq].
        eapply chain_ext; [exact Hch|]. intros y Hy. apply fupd_ne. by intros ->.
      * intros y Hy. destruct (decide (y = n)) as [->|]; [|by rewrite fupd_ne].
        rewrite fupd_eq, fupd_ne, fupd_eq; [done|]. by intros ->.
    + intros y Hy Hlast. rewrite fupd_ne by done. rewrite fupd_ne by congruence.
      by rewrite fupd_ne.
    + destruct Hs1 as [_ Hg1]. solve_globals.
  - intros s2 Hfl Hs2. wp_step. apply HQn; [done | by eapply same_fs_trans].
Qed.
End append.
