(* ===== verification/FatChainProps.v ===== *)
(** The theorems about the cluster layer of the FAT32 driver, with a small
    volume on a RAM disk on which each of them is instantiated. *)
From S2P Require Import Prelude BlockDev FatBpb FatCluster FatChain.

Section props.
Context {E : Type} `{BlockDevLaws E} {Ar : Around}.
Implicit Types (s : fat_state E) (fat : Z -> Z) (data : Z -> list Z).

(** The word of cluster [c] in the [i]-th copy of the FAT. *)
Definition fat_copy_word s (b : BPB) (i c : Z) : Z :=
  load 4 (fat_off c) (sector (dev s) (disk_no s) (fat_lba b c + i * BPB_FATSz32 b)).

(** A state represents the volume it holds. *)
Lemma vol_rep_self s b : fs_wf s b -> vol_rep (Ar := around_now s b) s b (fat_entry s b) (cluster_data s b).
Proof. by split. Qed.

Lemma new_word_high old v : 0 <= old ->
  Z.land (new_word old v) 0xF0000000 = Z.land old 0xF0000000.
Proof.
  intros. unfold new_word. rewrite Z.land_lor_distr_l, <- !Z.land_assoc. simpl.
  rewrite Z.land_0_r, Z.lor_0_r. done.
Qed.

(** Setting a FAT entry writes the same word to every copy of the FAT:
    the low 28 bits are the new link, the four reserved bits are the old
    ones; a later read of the entry returns the link, and no other entry, no
    cluster's contents, no sector outside the FATs and no other disk
    changes. *)
Theorem fat32_set_next_cluster_ok s b c v :
  fs_wf s b -> in_vol b c ->
  returns (fat32_set_next_cluster c v) s true (fun s' =>
    (forall i, 0 <= i < BPB_NumFATs b ->
       Z.land (fat_copy_word s' b i c) 0x0FFFFFFF = Z.land v 0x0FFFFFFF /\
       Z.land (fat_copy_word s' b i c) 0xF0000000 = Z.land (fat_word s b c) 0xF0000000) /\
    returns (fat32_get_next_cluster c) s' (Z.land v 0x0FFFFFFF) (same_fs s') /\
    (forall c', in_vol b c' -> c' <> c -> fat_entry s' b c' = fat_entry s b c') /\
    (forall c', in_vol b c' -> cluster_data s' b c' = cluster_data s b c') /\
    (forall d l, d <> disk_no s \/ l < fat_base b \/ data_base b <= l ->
       sector (dev s') d l = sector (dev s) d l) /\
    globals s' = globals s).
Proof.
  intros Hw Hc. apply wp_returns. apply (set_next_raw s b c v); [done | done|].
  intros s' Hcp. split; [done|].
  pose proof (fat_copies_rep s s' b (fat_entry s b) (cluster_data s b) c v
    (vol_rep_self s b Hw) Hc Hcp) as Hr.
  destruct Hcp as (Hfr & Hwr & Hcap & Hrel & Hg).
  assert (Hc0 : 0 <= c < clusters b + 2) by (unfold in_vol in Hc; lia).
  pose proof (fat_off_range c) as [? ?].
  repeat split; try done.
  - unfold fat_copy_word. rewrite (globals_disk _ _ Hg), Hwr, load_store_same by (rewrite ?sector_length; lia).
    rewrite Z.mod_small by apply new_word_range. apply new_word_low.
  - unfold fat_copy_word. rewrite (globals_disk _ _ Hg), Hwr, load_store_same by (rewrite ?sector_length; lia).
    rewrite Z.mod_small by apply new_word_range. apply new_word_high.
    apply (load_bound 4); rewrite ?sector_length; [apply sector_bytes | lia | lia].
  - apply wp_returns. apply (get_next_spec s' b _ _ _ _ Hr Hc). intros s2 Hs2.
    rewrite fupd_eq. done.
  - intros c' Hc' Hne. rewrite (rep_fat _ _ _ _ Hr) by done. by rewrite fupd_ne.
  - intros c' Hc'. by rewrite (rep_data _ _ _ _ Hr).
  - intros d l Hl. apply Hfr. intros i Hi. pose proof (fat_copy_lba s b c i Hw Hc0 Hi). lia.
Qed.

(** C5: Of the free clusters of the volume the allocator hands out the first
    one that is not below the hint and is not the last cluster, number
    [clusters b + 1]: it marks it as the end of a chain in every copy of the
    FAT and moves the hint past it; every other entry, the contents of all
    clusters, and the sectors of all disks outside the volume stay as they
    are.  When there is none it fails and changes nothing: then every cluster
    still free is below the hint or is the last one, so a volume can be
    reported full while it has free clusters. *)
Theorem fat32_allocate_cluster_refines s b fat data :
  vol_rep s b fat data -> 2 <= fat32_free_cluster_no s ->
  let found := filter (fun c => fat32_free_cluster_no s <= c /\ c <> clusters b + 1) (free_clusters b fat) in
  match found with
  | [] => returns fat32_allocate_cluster s None (fun s' => same_fs s s' /\
      forall c, in_vol b c -> fat c = 0 -> c < fat32_free_cluster_no s \/ c = clusters b + 1)
  | c :: rest =>
      returns fat32_allocate_cluster s (Some c) (fun s' =>
        let fat' := fupd fat c CLUSTER_END_OF_CHAIN in
        vol_rep s' b fat' data /\ globals s' = globals (set_free_hint (c + 1) s) /\
        free_clusters b fat' = filter (fun x => x <> c) (free_clusters b fat) /\
        filter (fun x => c + 1 <= x /\ x <> clusters b + 1) (free_clusters b fat') = rest)
  end.
Proof.
  intros Hr Hh found. pose proof (clusters_nonneg b (w_vol _ _ (rep_wf _ _ _ _ Hr))) as Hcl.
  pose proof (free_list_free b fat _ Hcl Hh) as Hfl. fold found in Hfl. destruct found as [|c rest] eqn:Hfo; apply wp_returns.
  - apply (allocate_spec s b fat data); [done | done | intros c s' _ _ Hc; congruence |].
    intros s' Hnil Hs. split; [done|]. split; [done|]. intros c Hin Hz. unfold in_vol in Hin.
    destruct (decide (c < fat32_free_cluster_no s)); [by left|]. destruct (decide (c = clusters b + 1)); [by right|].
    assert (c ∈ free_list b fat (fat32_free_cluster_no s)) as Hi by (apply elem_of_free_list; lia).
    rewrite Hnil in Hi. by apply elem_of_nil in Hi.
  - apply (allocate_spec s b fat data); [done | done | | intros s' Hnil; congruence].
    intros c' s' Hc Hz Heq Hr' Hg. rewrite Heq in Hfl. injection Hfl as -> Hrest. split; [done|].
    split; [done|]. split; [done|]. split; [apply free_clusters_taken|].
    rewrite <- free_list_free by lia. rewrite <- Hrest. apply free_list_ext. intros x Hx. apply fupd_ne. lia.
Qed.

(** The last cluster of the volume, number [clusters b + 1], is a data
    cluster the allocator never hands out: with every other cluster taken
    the volume is reported full although that one is free. *)
Theorem fat32_allocate_misses_last_cluster s b fat data :
  vol_rep s b fat data -> 2 <= fat32_free_cluster_no s ->
  (forall c, 2 <= c <= clusters b -> fat c <> 0) ->
  fat (clusters b + 1) = 0 -> 0 < clusters b ->
  in_vol b (clusters b + 1) /\ returns fat32_allocate_cluster s None (same_fs s).
Proof.
  intros Hr Hh Hn Hz Hpos. split; [unfold in_vol; lia|]. apply wp_returns.
  assert (Hnil : free_list b fat (fat32_free_cluster_no s) = [])
    by (apply free_list_none; intros c Hc; apply Hn; lia).
  apply (allocate_spec s b fat data); [done | done | |by intros].
  intros c s' Hc Hzc Hfl. by rewrite Hnil in Hfl.
Qed.

(** Allocating [n] clusters links the first [n] free clusters, in order,
    into one chain that starts at the returned cluster; entries of other
    clusters and all file contents are untouched, and the hint moves past
    the last one. *)
Theorem fat32_allocate_cluster_chain_ok s b fat data n :
  vol_rep s b fat data -> 2 <= fat32_free_cluster_no s -> 0 < n < 4294967296 ->
  n <= zlen (free_list b fat (fat32_free_cluster_no s)) ->
  let l := take (Z.to_nat n) (free_list b fat (fat32_free_cluster_no s)) in
  returns (fat32_allocate_cluster_chain n) s (true, hd 0 l) (fun s' => exists fat',
    vol_rep s' b fat' data /\ chain b fat' (hd 0 l) l /\
    (forall c, c ∉ l -> fat' c = fat c) /\
    Forall (fun c => c < fat32_free_cluster_no s') l /\
    globals s' = globals (set_free_hint (fat32_free_cluster_no s') s)).
Proof.
  intros Hr Hh Hn Hlen l. apply wp_returns.
  apply (allocate_chain_spec s b fat data n); try done.
  intros s' fat' acc -> Hg Hr' Hgl. split; [done|]. exists fat'.
  assert (l <> []) by (intros Hl; apply (f_equal length) in Hl; unfold l in Hl;
    rewrite length_take in Hl; simpl in Hl; lia).
  destruct Hg. repeat split; auto; apply Hr'.
Qed.

(** C17: Freeing a chain clears the entries of exactly its clusters and
    nothing else, for every chain, given fuel above its length. *)
Theorem fat32_free_cluster_chain_ok s b fat data c l fuel :
  vol_rep s b fat data -> chain b fat c l -> (length l < fuel)%nat ->
  returns (fat32_free_cluster_chain fuel c) s true (fun s' =>
    vol_rep s' b (freed fat l) data /\ globals s' = globals s).
Proof. intros Hr Hch Hf. by apply wp_returns, free_chain_spec. Qed.

(** Allocating a chain and freeing it again gives back the FAT and the
    contents of every cluster; only the allocation hint has moved. *)
Theorem fat32_alloc_free_restores s b fat data n fuel :
  vol_rep s b fat data -> 2 <= fat32_free_cluster_no s -> 0 < n < Z.of_nat fuel ->
  n < 4294967296 -> n <= zlen (free_list b fat (fat32_free_cluster_no s)) ->
  wp (let! '(ok, first) := fat32_allocate_cluster_chain n in
      let! freed_ok := fat32_free_cluster_chain fuel first in ret (ok && freed_ok))
    (fun r s' => r = true /\ vol_rep s' b fat data /\
       globals s' = globals (set_free_hint (fat32_free_cluster_no s') s)) s.
Proof.
  intros Hr Hh Hn Hn32 Hlen. wp_step.
  apply (allocate_chain_spec s b fat data n); try done; [lia|].
  intros s1 fat1 acc Hacc Hg Hr1 Hg1. cbv beta iota. wp_step.
  assert (Hla : length acc = Z.to_nat n) by (subst acc; rewrite length_take; lia).
  assert (Hne : acc <> []) by (intros ->; simpl in Hla; lia).
  eapply wp_mono; [apply (free_chain_spec s1 b fat1 data _ acc); [done | by apply Hg | lia]|].
  intros ok s2 (-> & Hr2 & Hg2). wp_step. split; [done|]. split.
  - eapply vol_rep_ext; [exact Hr2 | | done]. intros c Hc. unfold freed. case_decide as Hin.
    + symmetry. subst acc. apply elem_of_take in Hin as (i & Hi & _).
      apply list_elem_of_lookup_2, elem_of_free_list in Hi as [? _]. done.
    + by apply Hg.
  - assert (fat32_free_cluster_no s2 = fat32_free_cluster_no s1) as ->
      by (unfold globals in Hg2; congruence). congruence.
Qed.

(** A FAT whose links stay in the volume: every entry of a cluster is free
    or reserved (below 2), a link to a cluster of the volume, or above the
    valid range (bad or end of chain).  Cycles and cross links are allowed. *)
Definition fat_closed (b : BPB) fat : Prop :=
  forall c, in_vol b c -> 0 <= fat c < 2 \/ in_vol b (fat c) \/ 0x0FFFFFEF < fat c.

(** The clusters in use. *)
Definition used_list (b : BPB) fat : list Z :=
  filter (fun c => fat c <> 0) (seqZ 2 (clusters b)).

Lemma used_list_clear b fat c : in_vol b c -> fat c <> 0 ->
  (length (used_list b (fupd fat c 0%Z)) < length (used_list b fat))%nat.
Proof.
  intros Hc Hne. unfold in_vol in Hc. unfold used_list.
  replace (clusters b) with ((c - 2) + (clusters b + 2 - c)) by lia.
  rewrite seqZ_app by lia. replace (2 + (c - 2)) with c by lia.
  rewrite (seqZ_cons c) by lia. rewrite !filter_app, !length_app.
  rewrite filter_cons_False by (rewrite fupd_eq; tauto). rewrite filter_cons_True by done.
  rewrite (filter_ext_in (fun x => fupd fat c 0 x <> 0) (fun x => fat x <> 0) (seqZ 2 _)),
    (filter_ext_in (fun x => fupd fat c 0 x <> 0) (fun x => fat x <> 0) (seqZ (Z.succ c) _)).
  - simpl. lia.
  - intros x Hx%elem_of_seqZ. rewrite fupd_ne by lia. done.
  - intros x Hx%elem_of_seqZ. rewrite fupd_ne by lia. done.
Qed.

Lemma fat_closed_clear b fat c : fat_closed b fat -> fat_closed b (fupd fat c 0).
Proof.
  intros Hcl x Hx. unfold fupd. destruct (Z.eqb_spec x c); [lia | by apply Hcl].
Qed.

(** C18: Freeing ends on every FAT whose links stay in the volume, cyclic or
    cross-linked ones included, from every start: each round clears an entry
    that was in use, so rounds are bounded by the number of clusters in use.
    What it clears is all it changes. *)
Theorem fat32_free_cluster_chain_terminates s b fat data c fuel :
  vol_rep s b fat data -> fat_closed b fat -> in_vol b c \/ 0x0FFFFFEF < c \/ c < 2 ->
  (S (length (used_list b fat)) < fuel)%nat ->
  wp (fat32_free_cluster_chain fuel c) (fun _ s' => exists fat',
    vol_rep s' b fat' data /\ (forall x, fat' x = fat x \/ fat' x = 0) /\
    globals s' = globals s) s.
Proof.
  intros Hrep Hcl Hc Hfuel. pose proof (w_vol _ _ (rep_wf _ _ _ _ Hrep)) as Hv.
  apply (wp_iter_idx (fun '(_, fat1) => S (length (used_list b fat1)))
    (fun '(c1, fat1) c s1 => c1 = c /\ vol_rep s1 b fat1 data /\ fat_closed b fat1 /\
      (in_vol b c \/ 0x0FFFFFEF < c \/ c < 2) /\
      (forall x, fat1 x = fat x \/ fat1 x = 0) /\ globals s1 = globals s)) with (c, fat);
    [|by auto 8 | done].
  clear c Hc Hfuel. intros [? fat1] c s1 (-> & Hr1 & Hcl1 & Hc & Hx & Hg). wp_step. apply wp_gets.
  rewrite (w_bpb _ _ (rep_wf _ _ _ _ Hr1)). unfold is_valid_cluster at 1.
  case_if; [apply wp_ret; by exists fat1|].
  assert (Hin : in_vol b c) by (destruct Hc as [?|?]; [done | lia]).
  wp_step. apply (get_next_spec s1 b fat1 data); [done | done|]. intros s2 [Hd2 Hg2].
  assert (Hr2 : vol_rep s2 b fat1 data) by (eapply vol_rep_same; [exact Hr1 | done]).
  case_if; [apply wp_ret; exists fat1; split; [done | split; [done | congruence]]|].
  wp_step. apply (set_next_spec s2 b fat1 data); [done | done|]. intros s3 Hr3 Hg3.
  cbn [negb Z.land] in *. assert (Hg' : globals s3 = globals s) by congruence.
  assert (Hx' : forall x, fupd fat1 c 0 x = fat x \/ fupd fat1 c 0 x = 0).
  { intros x. unfold fupd. destruct (x =? c); auto. }
  case_if; apply wp_ret; [by eauto|].
  exists (fat1 c, fupd fat1 c 0). split; [|pose proof (used_list_clear b fat1 c Hin); lia].
  split; [done|]. split; [done|]. split; [by apply fat_closed_clear|].
  split; [|done]. destruct (Hcl1 c Hin) as [?|[?|?]]; auto with lia.
Qed.

(** Counting and validating a chain of the volume give its length and
    acceptance, and change nothing. *)
Theorem fat32_count_validate_chain s b fat data c l fuel :
  vol_rep s b fat data -> chain b fat c l -> (length l < fuel)%nat -> zlen l < 4294967296 ->
  returns (fat32_count_cluster_chain fuel c) s (zlen l) (same_fs s) /\
  returns (fat32_validate_cluster_chain fuel c) s true (same_fs s).
Proof.
  intros Hr Hch Hf Hl. split; apply wp_returns;
    [by eapply count_chain_spec | by eapply validate_chain_spec].
Qed.

(** Appending a cluster to a chain extends it at its end with the first
    free cluster, keeping all other entries and all contents; on a full
    volume it fails and changes nothing. *)
Theorem fat32_append_cluster_ok s b fat data c l fuel :
  vol_rep s b fat data -> chain b fat c l -> (length l < fuel)%nat ->
  2 <= fat32_free_cluster_no s ->
  match head (free_list b fat (fat32_free_cluster_no s)) with
  | None => returns (fat32_append_cluster fuel c) s None (same_fs s)
  | Some n => returns (fat32_append_cluster fuel c) s (Some n) (fun s' => exists fat',
      vol_rep s' b fat' data /\ chain b fat' c (l ++ [n]) /\
      (forall x, x <> n -> last l <> Some x -> fat' x = fat x) /\
      globals s' = globals (set_free_hint (n + 1) s))
  end.
Proof.
  intros Hr Hch Hf Hh. destruct (free_list b fat (fat32_free_cluster_no s)) as [|n rest] eqn:Hfl;
    apply wp_returns, (append_spec s b fat data c l fuel); try done.
  - intros n s' fat' _ _ Hn. by rewrite Hfl in Hn.
  - intros n' s' fat' _ _ Hn Hc' Hx Hr' Hg. rewrite Hfl in Hn. injection Hn as <- ->.
    split; [done|]. by exists fat'.
  - intros s' Hn. by rewrite Hfl in Hn.
Qed.

(** C6: Writing [size] bytes to a new chain and reading that chain back
    yields the bytes that were written.  The write uses ceil(size/cluster)
    free clusters, leaves every other cluster's entry and contents as they
    were, and holds no heap block at the end. *)
Theorem fat32_write_read_chain s b fat data buf size fuel f0 out :
  vol_rep s b fat data -> 2 <= fat32_free_cluster_no s ->
  0 < size -> size <= zlen buf -> Forall byte buf ->
  rounds b size * csize b < 4294967296 ->
  rounds b size <= zlen (free_list b fat (fat32_free_cluster_no s)) ->
  rounds b size < Z.of_nat fuel -> zlen out = rounds b size * csize b ->
  exists first s1 l fat1 data1 s2 out',
    fat32_write_cluster_chain fuel (Some buf) size f0 s = Ret (true, first, s1) /\
    vol_rep s1 b fat1 data1 /\ chain b fat1 first l /\ zlen l = rounds b size /\
    (forall c, c ∉ l -> fat1 c = fat c /\ data1 c = data c) /\ live s1 = live s /\
    fat32_read_cluster_chain fuel first out (zlen out) s1 = Ret (true, out', s2) /\
    take (Z.to_nat size) out' = take (Z.to_nat size) buf /\ same_fs s1 s2.
Proof.
  intros Hr Hh Hsz Hlen Hby H32 Hfree Hfuel Hout.
  pose proof (w_vol _ _ (rep_wf _ _ _ _ Hr)) as Hv. pose proof (csize_pos b Hv) as Hcs.
  assert (Hrp : 0 < rounds b size) by (apply rounds_spec; done || lia).
  assert (Hrs : size <= rounds b size * csize b)
    by (apply Z.nlt_ge; intros Hlt; apply rounds_spec in Hlt; done || lia).
  assert (Hw : wp (fat32_write_cluster_chain fuel (Some buf) size f0) (fun '(ok, first) s1 =>
    ok = true /\ exists l fat1 data1, vol_rep s1 b fat1 data1 /\ chain b fat1 first l /\
      zlen l = rounds b size /\ (forall c, c ∉ l -> fat1 c = fat c /\ data1 c = data c) /\
      live s1 = live s /\ stored b data buf size l data1) s).
  { apply (write_chain_spec s b fat data); try done; [lia|].
    intros s1 fat1 data1 acc Hacc Hg Hst Hr1 Hg1. split; [done|].
    assert (Hla : zlen acc = rounds b size) by (subst acc; rewrite length_take; lia).
    assert (acc <> []) by (intros ->; simpl in Hla; lia).
    exists acc, fat1, data1. destruct Hg, Hst. repeat split; auto; try apply Hr1.
    unfold globals in Hg1. simpl in Hg1. congruence. }
  apply wp_run in Hw as ([ok first] & s1 & Hw & -> & l & fat1 & data1 & Hr1 & Hch & Hl & Ho & Hlv & Hst).
  assert (Hrd : wp (fat32_read_cluster_chain fuel first out (zlen out)) (fun r s2 =>
    r = (true, splice 0 (mjoin (data1 <$> l)) out) /\ same_fs s1 s2) s1).
  { apply (read_chain_spec s1 b fat1 data1 first l); try done; nia. }
  apply wp_run in Hrd as (r & s2 & Hrd & -> & Hs2).
  exists first, s1, l, fat1, data1, s2, (splice 0 (mjoin (data1 <$> l)) out).
  repeat (split; [done|]). split; [|done].
  rewrite (stored_chunks _ _ _ _ _ _ Hst), Hl.
  destruct (chunks_prefix b buf size (rounds b size) Hv Hlen ltac:(lia) Hsz) as (pad & -> & _).
  rewrite Z.min_r by done. unfold splice. simpl. rewrite <- !app_assoc.
  rewrite take_app_le by (rewrite length_take; lia). rewrite take_take. f_equal. lia.
Qed.
End props.

(** ** A small volume

    32 reserved sectors, two FATs of one sector and 8 data clusters of one
    sector each, on a blank RAM disk. *)
Module SmallVol.
Import RamDisk.

Definition b : BPB :=
  mk_bpb [0xEB; 0x58; 0x90] FAT32_OEM_NAME 512 1 32 2 0 0 0xF8 0 63 255 0 42 1 0 0 2 1 6
    (replicate 12 0) 0x80 0 0x29 0x12345678 FAT32_VOLUME_LABEL FAT32_FILESYSTEM_TYPE
    (replicate 420 0) 0xAA55.

(** The FAT sector with the given links from cluster 2 on. *)
Definition fat_image (links : list Z) : list Z :=
  [0xF8; 0xFF; 0xFF; 0x0F; 0xFF; 0xFF; 0xFF; 0x0F] ++ mjoin (le_bytes 4 <$> links) ++
    replicate (504 - 4 * length links) 0.

Definition st (links : list Z) (hint : Z) : fat_state ram :=
  mk_fs (mk_ram {[ (0, 32) := fat_image links; (0, 33) := fat_image links ]} 64 true)
    0 (Some b) 0 2 hint 0.

Lemma b_wf : vol_wf b.
Proof. constructor; vm_compute; intuition congruence. Qed.

Lemma st_wf links hint : fs_wf (st links hint) b.
Proof. constructor; [done | apply b_wf | vm_compute; congruence | done]. Qed.

(** The FAT of [st] as a function. *)
Definition fat (links : list Z) (c : Z) : Z := fat_entry (st links 2) b c.
Definition data (links : list Z) (c : Z) : list Z := cluster_data (st links 2) b c.

(** Nothing but zeros around the volume. *)
#[export] Instance blank_around : Around := {| around _ _ := replicate 512 0; mirrored := True |}.

Lemma st_rep links hint : vol_rep (st links hint) b (fat links) (data links).
Proof.
  split; [apply st_wf | done | done | |].
  - intros d l Hl. unfold out_of_vol in Hl. change (fat_base b) with 32 in Hl.
    change (data_base b + clusters b * BPB_SecPerClus b) with 42 in Hl. cbn in Hl.
    unfold st. cbn [sector disk_frame ram_laws ram_frame dev]. unfold ram_sector. cbn [ram_data].
    by rewrite lookup_insert_ne, lookup_singleton_ne by (intros [=]; lia).
  - intros _ i k Hi Hk. change (BPB_NumFATs b) with 2 in Hi. change (BPB_FATSz32 b) with 1 in Hk |- *.
    change (fat_base b) with 32. assert (k = 0) as -> by lia. assert (i = 0 \/ i = 1) as [-> | ->] by lia; done.
Qed.

(** The chain 3, 5, 4 and a free rest. *)
Definition chain354 : list Z := [0x0FFFFFFF; 5; 0x0FFFFFFF; 4].
Definition eoc : Z := 0x0FFFFFFF.

Lemma chain354_ok : chain b (fat chain354) 3 [3; 5; 4].
Proof.
  apply chain_next; [by vm_compute|]. change (fat chain354 3) with 5.
  apply chain_next; [by vm_compute|]. change (fat chain354 5) with 4.
  apply chain_last; by vm_compute.
Qed.

Lemma fat32_set_next_cluster_witness :
  fs_wf (st chain354 2) b /\ in_vol b 9 /\
  returns (fat32_set_next_cluster 9 3) (st chain354 2) true
    (fun s' => fat_entry s' b 3 = fat_entry (st chain354 2) b 3).
Proof.
  assert (Hin : in_vol b 9) by (by vm_compute).
  destruct (fat32_set_next_cluster_ok (st chain354 2) b 9 3 (st_wf _ _) Hin)
    as (s' & Hs & _ & _ & Ho & _).
  split; [apply st_wf|]. split; [exact Hin|]. exists s'. split; [exact Hs|].
  apply Ho; [by vm_compute | lia].
Defined.

(** Cluster 9, the last one, stays free when 6, 7 and 8 are taken. *)
Lemma fat32_allocate_cluster_refines_witness :
  free_clusters b (fat chain354) = [6; 7; 8; 9] /\
  returns fat32_allocate_cluster (st chain354 2) (Some 6) (fun s' =>
    vol_rep s' b (fupd (fat chain354) 6 CLUSTER_END_OF_CHAIN) (data chain354)).
Proof.
  split; [by vm_compute|].
  pose proof (fat32_allocate_cluster_refines (st chain354 2) b (fat chain354) (data chain354)
    (st_rep _ _) ltac:(simpl; lia)) as Hr. cbv zeta in Hr.
  replace (filter _ _) with [6; 7; 8] in Hr by (by vm_compute).
  destruct Hr as (s' & Hs & Hv & _). exists s'. exact (conj Hs Hv).
Defined.

Lemma fat32_allocate_misses_last_cluster_witness :
  fat (replicate 7 eoc) 9 = 0 /\ in_vol b 9 /\
  returns fat32_allocate_cluster (st (replicate 7 eoc) 2) None (same_fs (st (replicate 7 eoc) 2)).
Proof.
  split; [by vm_compute|].
  apply (fat32_allocate_misses_last_cluster (st (replicate 7 eoc) 2) b (fat (replicate 7 eoc))
    (data (replicate 7 eoc)) (st_rep _ _)).
  - simpl. lia.
  - change (clusters b) with 8. intros c Hc.
    assert (c = 2 \/ c = 3 \/ c = 4 \/ c = 5 \/ c = 6 \/ c = 7 \/ c = 8)
      as [->|[->|[->|[->|[->|[->| ->]]]]]] by lia; by vm_compute.
  - by vm_compute.
  - by vm_compute.
Defined.

Lemma fat32_allocate_cluster_chain_witness :
  returns (fat32_allocate_cluster_chain 3) (st chain354 2) (true, 6) (fun s' => exists fat',
    vol_rep s' b fat' (data chain354) /\ chain b fat' 6 [6; 7; 8]).
Proof.
  assert (Hf : free_list b (fat chain354) 2 = [6; 7; 8]) by (by vm_compute).
  pose proof (fat32_allocate_cluster_chain_ok (st chain354 2) b (fat chain354) (data chain354) 3
    (st_rep _ _) ltac:(simpl; lia) ltac:(lia)) as Hr.
  change (fat32_free_cluster_no (st chain354 2)) with 2 in Hr. rewrite Hf in Hr.
  destruct (Hr ltac:(simpl; lia)) as (s' & Hs & fat' & Hv & Hc & _).
  exists s'. split; [exact Hs|]. exists fat'. exact (conj Hv Hc).
Defined.

Lemma fat32_free_cluster_chain_witness :
  chain b (fat chain354) 3 [3; 5; 4] /\
  returns (fat32_free_cluster_chain 4 3) (st chain354 2) true (fun s' =>
    vol_rep s' b (freed (fat chain354) [3; 5; 4]) (data chain354) /\
    globals s' = globals (st chain354 2)).
Proof.
  split; [apply chain354_ok|].
  apply (fat32_free_cluster_chain_ok (st chain354 2) b (fat chain354) (data chain354) 3 [3; 5; 4] 4);
    [apply st_rep | apply chain354_ok | simpl; lia].
Defined.

Lemma fat32_alloc_free_restores_witness :
  wp (let! '(ok, first) := fat32_allocate_cluster_chain 2 in
      let! freed_ok := fat32_free_cluster_chain 3 first in ret (ok && freed_ok))
    (fun r s' => r = true /\ vol_rep s' b (fat chain354) (data chain354) /\
       globals s' = globals (set_free_hint (fat32_free_cluster_no s') (st chain354 2)))
    (st chain354 2).
Proof.
  apply (fat32_alloc_free_restores (st chain354 2) b (fat chain354) (data chain354) 2 3);
    [apply st_rep | simpl; lia | lia | lia | by vm_compute].
Defined.

(** The cycle 2, 3, 2. *)
Definition cycle23 : list Z := [3; 2; eoc; eoc; eoc; eoc; eoc; eoc].

Lemma fat32_free_cluster_chain_terminates_witness :
  wp (fat32_free_cluster_chain 10 2) (fun _ s' => exists fat',
    vol_rep s' b fat' (data cycle23) /\
    (forall x, fat' x = fat cycle23 x \/ fat' x = 0) /\
    globals s' = globals (st cycle23 2)) (st cycle23 2).
Proof.
  apply (fat32_free_cluster_chain_terminates (st cycle23 2) b (fat cycle23) (data cycle23));
    [apply st_rep | | by left; vm_compute | vm_compute; lia].
  intros c Hc. unfold in_vol in Hc. change (clusters b) with 8 in Hc.
  assert (c = 2 \/ c = 3 \/ c = 4 \/ c = 5 \/ c = 6 \/ c = 7 \/ c = 8 \/ c = 9)
    as [->|[->|[->|[->|[->|[->|[->| ->]]]]]]] by lia;
    first [by right; left; vm_compute | by right; right; vm_compute].
Defined.

Lemma fat32_count_validate_chain_witness :
  returns (fat32_count_cluster_chain 4 3) (st chain354 2) 3 (same_fs (st chain354 2)) /\
  returns (fat32_validate_cluster_chain 4 3) (st chain354 2) true (same_fs (st chain354 2)).
Proof.
  apply (fat32_count_validate_chain (st chain354 2) b (fat chain354) (data chain354) 3 [3; 5; 4] 4);
    [apply st_rep | apply chain354_ok | simpl; lia | simpl; lia].
Defined.

Lemma fat32_append_cluster_witness :
  returns (fat32_append_cluster 4 3) (st chain354 2) (Some 6) (fun s' => exists fat',
    chain b fat' 3 [3; 5; 4; 6]).
Proof.
  pose proof (fat32_append_cluster_ok (st chain354 2) b (fat chain354) (data chain354) 3 [3; 5; 4] 4
    (st_rep _ _) chain354_ok ltac:(simpl; lia) ltac:(simpl; lia)) as Hr.
  replace (head _) with (Some 6) in Hr by (by vm_compute).
  destruct Hr as (s' & Hs & fat' & _ & Hc & _).
  exists s'. split; [exact Hs|]. exists fat'. exact Hc.
Defined.

(** 700 bytes take two clusters. *)
Lemma fat32_write_read_chain_witness :
  exists first s1 s2 out',
    fat32_write_cluster_chain 3 (Some (replicate 700 65)) 700 0 (st chain354 2)
      = Ret (true, first, s1) /\
    fat32_read_cluster_chain 3 first (replicate 1024 0) 1024 s1 = Ret (true, out', s2) /\
    take 700 out' = replicate 700 65.
Proof.
  destruct (fat32_write_read_chain (st chain354 2) b (fat chain354) (data chain354)
    (replicate 700 65) 700 3 0 (replicate 1024 0))
    as (first & s1 & l & fat1 & data1 & s2 & out' & Hw & _ & _ & _ & _ & _ & Hr & Ht & _).
  - apply st_rep.
  - simpl. lia.
  - lia.
  - rewrite length_replicate. lia.
  - apply Forall_replicate. unfold byte. lia.
  - by vm_compute.
  - by vm_compute.
  - by vm_compute.
  - rewrite length_replicate. by vm_compute.
  - exists first, s1, s2, out'. rewrite length_replicate in Hr.
    split; [exact Hw|]. split; [exact Hr|]. etransitivity; [exact Ht|]. apply firstn_all2.
    rewrite length_replicate. lia.
Defined.
End SmallVol.
