(* ===== verification/FatFileProps.v ===== *)
(** Reading and writing open files: f_read, f_write and f_lseek implement a
    byte array with a position (file_manager.c, lines 142-337). *)
From S2P Require Import Prelude BlockDev FatBpb FatCluster FatMount FatDir FatFile FatChain FatChainProps.

(** The bytes of a chain: its clusters put together. *)
Definition contents (data : Z -> list Z) (l : list Z) : list Z := mjoin (data <$> l).

Section contents.
Context (b : BPB) (data : Z -> list Z).

Lemma contents_app l1 l2 : contents data (l1 ++ l2) = contents data l1 ++ contents data l2.
Proof. unfold contents. by rewrite fmap_app, join_app. Qed.

Lemma contents_length l : Forall (fun c => zlen (data c) = csize b) l ->
  zlen (contents data l) = zlen l * csize b.
Proof.
  induction 1 as [|c l Hc _ IH]; [done|].
  change (contents data (c :: l)) with (data c ++ contents data l).
  rewrite length_app. cbn [length]. lia.
Qed.

(** A piece of one cluster of the chain. *)
Lemma slice_contents dn c k o n :
  Forall (fun c => zlen (data c) = csize b) (dn ++ c :: k) -> 0 <= o -> 0 <= n ->
  o + n <= csize b ->
  slice (zlen dn * csize b + o) n (contents data (dn ++ c :: k)) = slice o n (data c).
Proof.
  intros [Hdn [Hc Hk]%Forall_cons]%Forall_app Ho Hn Hon. rewrite contents_app.
  pose proof (contents_length dn Hdn) as Hl. rewrite slice_app_r by lia. rewrite Hl.
  replace (zlen dn * csize b + o - zlen dn * csize b) with o by lia.
  unfold contents. simpl. apply slice_app_l; lia.
Qed.
End contents.

Lemma slice_split {A} p n m (l : list A) :
  0 <= p -> 0 <= n -> 0 <= m -> slice p n l ++ slice (p + n) m l = slice p (n + m) l.
Proof.
  intros. unfold slice. rewrite !Z2Nat.inj_add by lia.
  rewrite <- drop_drop. apply take_take_drop.
Qed.

Section read.
Context {E : Type} `{BlockDevLaws E} {Ar : Around}.
Implicit Types (s : fat_state E) (fat : Z -> Z) (data : Z -> list Z).

Lemma chain_data s b fat data c l : vol_rep s b fat data -> chain b fat c l ->
  Forall (fun c => zlen (data c) = csize b) l.
Proof.
  intros Hr Hc. eapply Forall_impl; [by eapply chain_all_in_vol|]. intros x Hx. simpl.
  by eapply data_length.
Qed.

(** The walk ends at the cluster that holds the offset. *)
Lemma walk_chain_spec s b fat data c l offset fuel (Q : Z * Z -> fat_state E -> Prop) :
  vol_rep s b fat data -> chain b fat c l -> 0 <= offset < zlen l * csize b ->
  offset < 4294967296 -> (length l < fuel)%nat ->
  (forall s' dn c' k o, same_fs s s' -> l = dn ++ k -> chain b fat c' k ->
     offset = zlen dn * csize b + o -> 0 <= o < csize b -> Q (c', o) s') ->
  wp (walk_chain fuel (csize b) c offset) Q s.
Proof.
  intros Hrep Hch Ho H32 Hfuel HQ. pose proof (w_vol _ _ (rep_wf _ _ _ _ Hrep)) as Hv.
  pose proof (csize_pos b Hv) as Hcs. unfold walk_chain.
  apply (wp_iter_idx length (fun k '(c', o) s1 => same_fs s s1 /\ chain b fat c' k /\
    exists dn, l = dn ++ k /\ offset = zlen dn * csize b + o /\ 0 <= o < zlen k * csize b)) with l;
    [| |done].
  - clear Hch Hfuel c. intros k [c' o] s1 (Hs1 & Hch & dn & Hl & Hof & Hok).
    pose proof (chain_in_vol _ _ _ _ Hch) as Hin.
    assert (Hc0 : c' <> 0) by (unfold in_vol in Hin; lia).
    rewrite (proj2 (Z.eqb_neq _ _) Hc0), andb_true_r. case_if.
    + wp_step. apply (get_next_spec s1 b fat data); [by eapply vol_rep_same | done |].
      intros s2 Hs2. wp_step.
      destruct (chain_step_next b fat c' k Hv Hch) as [[-> _]|(k' & -> & Hk' & _ & _)].
      { simpl in Hok. lia. }
      exists k'. split; [|simpl; lia]. split; [by eapply same_fs_trans|]. split; [done|].
      exists (dn ++ [c']). rewrite <- app_assoc. split; [done|]. rewrite length_app.
      cbn [length] in Hok |- *. unwrap. split; [lia | lia].
    + wp_step. eapply HQ; [done | done | done | done | lia].
  - split; [apply same_fs_refl|]. split; [done|]. exists []. simpl. split; [done|]. lia.
Qed.

Lemma same_fs_dev s s' : same_fs s s' -> dev_eq (dev s) (dev s').
Proof. by intros [? _]. Qed.

(** f_read copies the bytes at the position and advances it. *)
Lemma f_read_spec s b fat data fp l buff btr fuel
    (Q : bool * list Z * Z * FAT32_FILE -> fat_state E -> Prop) :
  vol_rep s b fat data -> chain b fat (first_cluster fp) l ->
  0 <= pos fp < size fp -> size fp <= zlen l * csize b -> size fp < 4294967296 ->
  0 <= btr < 4294967296 -> (length l < fuel)%nat ->
  let n := Z.min btr (size fp - pos fp) in
  n <= zlen buff ->
  (forall s', same_fs s s' ->
     Q (true, splice 0 (slice (pos fp) n (contents data l)) buff, n, set_pos (pos fp + n) fp) s') ->
  wp (f_read fuel fp buff btr) Q s.
Proof.
  intros Hrep Hch Hpos Hsz H32 Hbtr Hfuel n Hbuff HQ.
  pose proof (w_vol _ _ (rep_wf _ _ _ _ Hrep)) as Hv. pose proof (csize_pos b Hv) as Hcs.
  pose proof (chain_data _ _ _ _ _ _ Hrep Hch) as Hdl.
  unfold f_read. destruct (Z.leb_spec (size fp) (pos fp)); [lia|].
  wp_step. apply wp_gets. rewrite (w_bpb _ _ (rep_wf _ _ _ _ Hrep)), get_cluster_size_wf by done.
  wp_step. apply malloc_spec; [apply Hrep | lia |]. intros s0 Hd0 Hg0. cbn [negb].
  assert (Hr0 : vol_rep s0 b fat data) by (by eapply vol_rep_live).
  unwrap. replace (if size fp - pos fp <? btr then size fp - pos fp else btr) with n
    by (unfold n; case_if; lia).
  wp_step. apply (walk_chain_spec s0 b fat data (first_cluster fp) l); try done; [lia | lia |].
  intros s1 dn c' k o Hs1 Hl Hk Hof Hor. cbv beta iota. wp_step.
  apply (wp_iter_idx length (fun k '(cl, o, br, bf, cb) s2 => same_fs s0 s2 /\ 0 <= br <= n /\
    bf = splice 0 (slice (pos fp) br (contents data l)) buff /\ zlen cb = csize b /\
    (br = n \/ chain b fat cl k /\ exists dn, l = dn ++ k /\
       zlen dn * csize b + o = pos fp + br /\ 0 <= o < csize b))) with k.
  - clear Hk Hof Hor Hl c' dn o s1 Hs1 k.
    intros k [[[[cl o] br] bf] cb] s1 (Hs1 & Hbr & -> & Hcb & Hcase).
    destruct (Z.ltb_spec br n) as [Hlt|Hge]; cbn [andb].
    + destruct Hcase as [->|(Hk & dn & Hl & Hof & Hor)]; [lia|].
      pose proof (chain_in_vol _ _ _ _ Hk) as Hin.
      assert (Hc0 : cl <> 0) by (unfold in_vol in Hin; lia).
      rewrite (proj2 (Z.eqb_neq _ _) Hc0). cbn [negb].
      pose proof (vol_rep_same _ _ _ _ _ Hr0 Hs1) as Hr1.
      wp_step. apply (read_cluster_spec s1 b fat data); [done | done | lia |].
      intros s2 Hs2. cbv beta iota. cbn [negb]. unfold n in Hlt, Hbr.
      unwrap. set (cp := if n - br <? csize b - o then n - br else csize b - o).
      assert (Hcp : cp = Z.min (n - br) (csize b - o)) by (unfold cp; case_if; lia).
      pose proof (data_length _ _ _ _ _ Hrep Hin) as Hdc.
      destruct (chain_head _ _ _ _ Hk) as [k0 Hk0].
      assert (Hpiece : slice o cp (data cl) = slice (pos fp + br) cp (contents data l)).
      { rewrite <- Hof, Hl, Hk0. rewrite Hl, Hk0 in Hdl. symmetry.
        apply slice_contents; [done | lia | unfold n in *; lia | lia]. }
      pose proof (contents_length b data l Hdl) as Hcl.
      assert (Hsl : zlen (slice (pos fp) br (contents data l)) = br)
        by (rewrite length_slice; unfold n in *; lia).
      assert (Hsl2 : zlen (slice (pos fp + br) cp (contents data l)) = cp)
        by (rewrite length_slice; unfold n in *; lia).
      assert (Hbl : length (splice 0 (slice (pos fp) br (contents data l)) buff) = length buff)
        by (apply length_splice; unfold n in *; lia).
      wp_step. apply wp_guard; [rewrite Hbl; unfold n in *; bool_true|].
      rewrite Hpiece, splice_app_next by (unfold n in *; lia).
      rewrite slice_split by (unfold n in *; lia).
      wp_step. apply (get_next_spec s2 b fat data); [by eapply vol_rep_same | done |].
      intros s3 Hs3. wp_step. rewrite (u32_small (br + cp)) by (unfold n in *; lia).
      assert (Hs03 : same_fs s0 s3) by (repeat (eapply same_fs_trans; [eassumption|]); apply same_fs_refl).
      destruct (chain_step_next b fat cl k Hv Hk) as [[-> _]|(k' & -> & Hk' & _ & _)].
      * exists []. split; [|simpl; lia]. split; [done|]. split; [unfold n in *; lia|].
        split; [done|]. split; [lia|]. left. rewrite Hl, length_app in Hsz. simpl in Hsz. unfold n in *. lia.
      * exists k'. split; [|simpl; lia]. split; [done|]. split; [unfold n in *; lia|].
        split; [done|]. split; [lia|]. destruct (decide (br + cp = n)); [by left|]. right.
        split; [done|]. exists (dn ++ [cl]). rewrite <- app_assoc, length_app. cbn [length app].
        split; [done|]. unfold n in *. lia.
    + wp_step. cbv beta iota. wp_step. apply free_spec. intros s2 Hd2 Hg2. cbn [negb]. wp_step.
      assert (br = n) as -> by lia. unwrap. apply HQ.
      split.
      * eapply dev_eq_trans; [exact Hd0|]. eapply dev_eq_trans; [apply Hs1 | done].
      * destruct Hs1 as [_ Hg1]. solve_globals.
  - split; [done|]. split; [unfold n; lia|]. split; [|split].
    + rewrite <- (app_nil_l buff) at 1. done.
    + rewrite length_replicate. lia.
    + right. split; [done|]. exists dn. split; [done|]. lia.
  - subst l. rewrite length_app in Hfuel. lia.
Qed.
End read.

(** ** Lemmas on buffers for the write *)

Lemma splice_app_left {A} p (d l k : list A) :
  0 <= p -> p + zlen d <= zlen l -> splice p d l ++ k = splice p d (l ++ k).
Proof.
  intros Hp Hl. unfold splice. rewrite take_app_le by lia. rewrite drop_app_le by lia.
  by rewrite <- !app_assoc.
Qed.

Lemma splice_app_right {A} p (d l k : list A) :
  zlen l <= p -> l ++ splice (p - zlen l) d k = splice p d (l ++ k).
Proof.
  intros Hp. unfold splice. rewrite take_app_ge by lia. rewrite drop_app_ge by lia.
  rewrite <- app_assoc. do 2 f_equal; [f_equal; lia|]. f_equal. f_equal. lia.
Qed.

Lemma take_slice {A} (n m : Z) (l : list A) :
  0 <= n -> 0 <= m -> take (Z.to_nat n) l ++ slice n m l = take (Z.to_nat (n + m)) l.
Proof. intros. unfold slice. rewrite Z2Nat.inj_add by lia. apply take_take_drop. Qed.

(** Changing a piece of one cluster changes that piece of the contents. *)
Lemma contents_splice b data dn c k o d :
  Forall (fun c => zlen (data c) = csize b) (dn ++ c :: k) -> NoDup (dn ++ c :: k) ->
  0 <= o -> o + zlen d <= csize b ->
  contents (fupd data c (splice o d (data c))) (dn ++ c :: k)
    = splice (zlen dn * csize b + o) d (contents data (dn ++ c :: k)).
Proof.
  intros Hl Hnd Ho Hd. apply NoDup_app in Hnd as (_ & Hdis & [Hck _]%NoDup_cons).
  assert (Heq : forall l, c ∉ l -> contents (fupd data c (splice o d (data c))) l = contents data l).
  { intros l Hc. unfold contents. f_equal. apply list_fmap_ext. intros i x Hx.
    apply fupd_ne. intros ->. apply Hc. by eapply list_elem_of_lookup_2. }
  apply Forall_app in Hl as [Hdn [Hc Hk]%Forall_cons].
  pose proof (contents_length b data dn Hdn) as Hlen.
  rewrite !contents_app, Heq by set_solver.
  rewrite <- splice_app_right by lia. rewrite Hlen.
  replace (zlen dn * csize b + o - zlen dn * csize b) with o by lia. f_equal.
  change (contents ?f (c :: k)) with (f c ++ contents f k). rewrite fupd_eq, Heq by done.
  apply splice_app_left; lia.
Qed.

(** Replacing the tail of a chain. *)
Lemma chain_retail b fat fat' c0 dn c k k' :
  chain b fat c0 (dn ++ c :: k) -> (forall x, x ∈ dn -> fat' x = fat x) ->
  chain b fat' c (c :: k') -> chain b fat' c0 (dn ++ c :: k').
Proof.
  revert c0. induction dn as [|x dn IH]; intros c0 Hc Hx Hk; simpl in *.
  - destruct (chain_head _ _ _ _ Hc) as [? [= -> _]]. done.
  - destruct (chain_head _ _ _ _ Hc) as [? [= -> _]].
    inversion Hc as [? ? ? Heq|? ? Hin Hn]; [by destruct dn|]. subst.
    apply chain_next; [done|]. rewrite Hx by set_solver. apply IH; [done | set_solver | done].
Qed.

Section write.
Context {E : Type} `{BlockDevLaws E} {Ar : Around}.
Implicit Types (s : fat_state E) (fat : Z -> Z) (data : Z -> list Z).

(** The file's chain in the state [s1] reached from [s]: it starts at
    [first], and [acc] was appended to [l]. *)
Definition growing s s1 (b : BPB) fat first l acc data1 : Prop :=
  exists fat1, vol_rep s1 b fat1 data1 /\ chain b fat1 first (l ++ acc) /\
    (forall x, x ∉ l ++ acc -> fat1 x = fat x) /\
    free_list b fat (fat32_free_cluster_no s) = acc ++ free_list b fat1 (fat32_free_cluster_no s1) /\
    2 <= fat32_free_cluster_no s1 /\
    globals s1 = globals (set_free_hint (fat32_free_cluster_no s1) s).

Lemma growing_same s s1 s2 b fat first l acc data1 :
  growing s s1 b fat first l acc data1 -> same_fs s1 s2 -> growing s s2 b fat first l acc data1.
Proof.
  intros (fat1 & Hr & Hc & Hf & Hfl & Hh & Hg) Hs.
  assert (fat32_free_cluster_no s2 = fat32_free_cluster_no s1) as Heq
    by (destruct Hs as [_ Hg2]; unfold globals in Hg2; congruence).
  exists fat1. rewrite Heq. split; [by eapply vol_rep_same|]. repeat (split; [done|]).
  destruct Hs as [_ ->]. done.
Qed.

Lemma growing_write s s1 s2 b fat first l acc data1 c d :
  growing s s1 b fat first l acc data1 ->
  (forall fat1, vol_rep s1 b fat1 data1 -> vol_rep s2 b fat1 (fupd data1 c d)) ->
  globals s2 = globals s1 -> growing s s2 b fat first l acc (fupd data1 c d).
Proof.
  intros (fat1 & Hr & Hc & Hf & Hfl & Hh & Hg) Hw Hg2.
  assert (fat32_free_cluster_no s2 = fat32_free_cluster_no s1) as Heq by (unfold globals in Hg2; congruence).
  exists fat1. rewrite Heq. split; [by apply Hw|]. repeat (split; [done|]). by rewrite Hg2.
Qed.

(** Moving on from the cluster [c] of the chain: to the next one, or to
    a cluster appended at the end. *)
Lemma next_or_append_spec s s1 b fat first l acc data1 dn c k fuel
    (Q : option Z -> fat_state E -> Prop) :
  growing s s1 b fat first l acc data1 -> l ++ acc = dn ++ c :: k -> (1 < fuel)%nat ->
  (k = [] -> zlen acc < zlen (free_list b fat (fat32_free_cluster_no s))) ->
  (forall s2 c' k' acc', growing s s2 b fat first l acc' data1 ->
     l ++ acc' = dn ++ c :: c' :: k' ->
     ((k <> [] /\ acc' = acc) \/ (k = [] /\ k' = [] /\ acc' = acc ++ [c'] /\ c' ∉ l ++ acc)) ->
     Q (Some c') s2) ->
  wp (next_or_append fuel c) Q s1.
Proof.
  intros Hgr Hl Hfuel Hfree HQ. pose proof Hgr as (fat1 & Hr & Hc & Hf & Hfl & Hh & Hg).
  pose proof (w_vol _ _ (rep_wf _ _ _ _ Hr)) as Hv. rewrite Hl in Hc.
  assert (Hcc : chain b fat1 c (c :: k)).
  { destruct (chain_suffix b fat1 first _ c Hc ltac:(set_solver)) as (l1 & l2 & Heq & Hs).
    pose proof (chain_NoDup b Hv _ _ _ Hc) as Hnd.
    destruct (chain_head _ _ _ _ Hs) as [k2 ->].
    assert (c :: k = c :: k2) as ->; [|done]. revert Hnd Heq. clear.
    revert l1. induction dn as [|x dn IH]; intros [|y l1] Hnd Heq; simpl in *; simplify_eq; try done.
    - apply NoDup_cons in Hnd as [? _]. set_solver.
    - apply NoDup_cons in Hnd as [? _]. set_solver.
    - apply NoDup_cons in Hnd as [_ ?]. by eapply IH. }
  pose proof (chain_in_vol _ _ _ _ Hcc) as Hin.
  unfold next_or_append. wp_step. apply (get_next_spec s1 b fat1 data1); [done | done|].
  intros s2 Hs2. pose proof (growing_same _ _ _ _ _ _ _ _ _ Hgr Hs2) as Hgr2.
  assert (Hh2 : fat32_free_cluster_no s2 = fat32_free_cluster_no s1)
    by (destruct Hs2 as [_ Hg2]; unfold globals in Hg2; congruence).
  destruct (chain_step_next b fat1 c (c :: k) Hv Hcc) as [[[= ->] He]|(k' & [= ->] & Hk' & He & _)];
    unfold is_end_of_cluster_chain in He; rewrite He.
  - apply (append_spec s2 b fat1 data1 c [c]); [by eapply vol_rep_same | done | simpl; lia | lia | |];
      rewrite Hh2.
    + intros n s3 fat3 Hz Hge Hfr Hc3 Hx Hr3 Hg3.
      assert (Hnl : n ∉ dn ++ [c]) by (intros Hi; by apply (chain_nonzero b fat1 first (dn ++ [c]) n Hv Hc Hi)).
      assert (Hx' : forall x, x ∉ [c; n] -> fat3 x = fat1 x)
        by (intros x Hxn; apply Hx; [set_solver | simpl; set_solver]).
      pose proof (chain_NoDup b Hv _ _ _ Hc) as (_ & Hdis & _)%NoDup_app.
      assert (Hh3 : fat32_free_cluster_no s3 = n + 1) by (unfold globals in Hg3; simpl in Hg3; congruence).
      apply (HQ s3 n [] (acc ++ [n])).
      * exists fat3. rewrite Hh3. split; [done|]. split.
        { rewrite app_assoc, Hl, <- app_assoc. simpl. simpl in Hc3.
          apply (chain_retail b fat1 fat3 first dn c []); [done | | done].
          intros x Hxd. apply Hx'. specialize (Hdis x Hxd). set_solver. }
        split; [intros x Hxn; rewrite app_assoc, Hl in Hxn; rewrite Hx', Hf; [done | rewrite Hl; set_solver | set_solver]|].
        split; [|split; [lia | destruct Hs2 as [_ Hg2]; solve_globals]].
        rewrite Hfl, Hfr, <- app_assoc. simpl. do 2 f_equal. apply free_list_ext_zero. intros x Hxn.
        destruct (decide (x = c)) as [->|]; [|rewrite Hx' by (set_solver by lia); done].
        pose proof (chain_nonzero b fat1 first (dn ++ [c]) c Hv Hc ltac:(set_solver)).
        pose proof (chain_nonzero b fat3 c _ c Hv Hc3 ltac:(set_solver)). tauto.
      * rewrite app_assoc, Hl, <- app_assoc. done.
      * right. rewrite Hl. done.
    + intros s3 Hfr. rewrite Hfl, Hfr, app_nil_r in Hfree. specialize (Hfree eq_refl). lia.
  - wp_step. destruct (chain_head _ _ _ _ Hk') as [k2 ->].
    apply (HQ s2 _ k2 acc); [done | by rewrite Hl | by left].
Qed.

Lemma growing_data s0 s s1 b fat fat0 data first l acc data1 :
  vol_rep s0 b fat0 data -> growing s s1 b fat first l acc data1 ->
  vol_wf b /\ NoDup (l ++ acc) /\ Forall (in_vol b) (l ++ acc) /\
  Forall (fun c => zlen (data c) = csize b) (l ++ acc) /\
  Forall (fun c => zlen (data1 c) = csize b) (l ++ acc).
Proof.
  intros Hr0 (fat1 & Hr & Hc & _). pose proof (w_vol _ _ (rep_wf _ _ _ _ Hr)) as Hv.
  pose proof (chain_all_in_vol b _ _ _ Hc) as Hin. split; [done|].
  split; [by eapply chain_NoDup|]. split; [done|].
  split; (eapply Forall_impl; [exact Hin|]); intros c Hci; simpl; by eapply data_length.
Qed.

(** The file after [bw] bytes of [buff] were written at [p]. *)
Definition wrote_to s s1 (b : BPB) fat data first l buff p bw acc data1 : Prop :=
  growing s s1 b fat first l acc data1 /\
  contents data1 (l ++ acc) = splice p (take (Z.to_nat bw) buff) (contents data (l ++ acc)) /\
  (forall c, c ∉ l ++ acc -> data1 c = data c).

Lemma data_bytes s b fat data c : vol_rep s b fat data -> in_vol b c -> Forall byte (data c).
Proof.
  intros Hr Hc. rewrite <- (rep_data _ _ _ _ Hr c Hc). apply sectors_byte.
Qed.

Lemma write_round s0 fat0 s s1 b fat data first l buff p bw acc data1 dn cl k o wb :
  vol_rep s0 b fat0 data ->
  wrote_to s s1 b fat data first l buff p bw acc data1 ->
  l ++ acc = dn ++ cl :: k -> zlen dn * csize b + o = p + bw -> 0 <= o -> 0 <= wb ->
  o + wb <= csize b -> 0 <= p -> 0 <= bw -> bw + wb <= zlen buff -> Forall byte buff ->
  wp (fat32_write_cluster cl (Some (splice o (slice bw wb buff) (data1 cl)))) (fun ok s2 =>
    ok = true /\ exists data2, wrote_to s s2 b fat data first l buff p (bw + wb) acc data2) s1.
Proof.
  intros Hr0 (Hgr & Hcont & Hout) Hl Hof Ho Hwb How Hp Hbw Hbuf Hby.
  destruct (growing_data _ _ _ _ _ _ _ _ _ _ _ Hr0 Hgr) as (Hv & Hnd & Hin & Hdl & Hdl1).
  pose proof Hgr as (fat1 & Hr1 & Hc & _). pose proof (csize_pos b Hv) as Hcs.
  assert (Hcl : in_vol b cl) by (rewrite Hl in Hin; by apply Forall_app in Hin as [_ [? _]%Forall_cons]).
  pose proof (data_length _ _ _ _ _ Hr1 Hcl) as Hlen.
  assert (Hsl : zlen (slice bw wb buff) = wb) by (rewrite length_slice; lia).
  assert (Hspl : length (splice o (slice bw wb buff) (data1 cl)) = length (data1 cl))
    by (apply length_splice; lia).
  apply (write_cluster_spec s1 b fat1 data1); [done | done | lia | |].
  { apply Forall_splice; [by apply Forall_slice | by eapply data_bytes]. }
  rewrite firstn_all2 by lia. intros s2 Hr2 Hg2. split; [done|].
  exists (fupd data1 cl (splice o (slice bw wb buff) (data1 cl))). split; [|split].
  - apply (growing_write s s1 s2); [done | | done]. intros fat2 Hr2'.
    eapply vol_rep_ext; [exact Hr2 | | done]. intros x Hx.
    by rewrite <- (rep_fat _ _ _ _ Hr1), <- (rep_fat _ _ _ _ Hr2').
  - pose proof (contents_length b data _ Hdl) as Htot. rewrite Hl in *. rewrite length_app in Htot. cbn [length] in Htot.
    rewrite (contents_splice b data1 dn cl k o); [| done | done | lia | lia]. rewrite Hcont, Hof.
    assert (Ht : zlen (take (Z.to_nat bw) buff) = bw) by (rewrite length_take; lia).
    rewrite <- Ht at 1. rewrite splice_extend by (rewrite ?Ht, ?Hsl; nia).
    by rewrite take_slice.
  - intros x Hx. rewrite fupd_ne; [by apply Hout|]. intros ->. apply Hx. rewrite Hl. set_solver.
Qed.

Lemma wrote_extend s0 fat0 s s1 s2 b fat data first l buff p bw acc data1 c :
  vol_rep s0 b fat0 data ->
  wrote_to s s1 b fat data first l buff p bw acc data1 ->
  growing s s2 b fat first l (acc ++ [c]) data1 -> c ∉ l ++ acc ->
  0 <= p -> 0 <= bw -> p + bw <= zlen (l ++ acc) * csize b ->
  wrote_to s s2 b fat data first l buff p bw (acc ++ [c]) data1.
Proof.
  intros Hr0 (Hgr & Hcont & Hout) Hg2 Hc Hp Hbw Hle.
  destruct (growing_data _ _ _ _ _ _ _ _ _ _ _ Hr0 Hgr) as (_ & _ & _ & Hdl & _).
  split; [done|]. split; [|intros x Hx; apply Hout; set_solver].
  rewrite app_assoc, (contents_app _ (l ++ acc)), Hcont, (contents_app data (l ++ acc)).
  rewrite <- splice_app_left; [|done|].
  - f_equal. unfold contents. simpl. by rewrite Hout.
  - rewrite (contents_length b data _ Hdl), length_take. lia.
Qed.

(** What holds of a file's chain at the start of f_write. *)
Definition write_start (b : BPB) fat fp l : Prop :=
  (first_cluster fp <> 0 /\ chain b fat (first_cluster fp) l) \/ (first_cluster fp = 0 /\ l = []).

(** The allocation of the first cluster of an empty file. *)
Lemma write_first_spec s b fat data fp l (Q : option (Z * FAT32_FILE) -> fat_state E -> Prop) :
  vol_rep s b fat data -> 2 <= fat32_free_cluster_no s -> write_start b fat fp l ->
  (l = [] -> free_list b fat (fat32_free_cluster_no s) <> []) ->
  (forall s1 first fp' acc k, growing s s1 b fat first l acc data -> l ++ acc = first :: k ->
     (zlen acc = if zlen l =? 0 then 1 else 0) ->
     first_cluster fp' = first -> pos fp' = pos fp -> size fp' = size fp ->
     Q (Some (first, fp')) s1) ->
  wp (if first_cluster fp =? 0 then
        let! a := fat32_allocate_cluster in
        ret (match a with Some c => Some (c, set_chain c c fp) | None => None end)
      else ret (Some (first_cluster fp, fp))) Q s.
Proof.
  intros Hr Hh Hst Hfree HQ. pose proof (w_vol _ _ (rep_wf _ _ _ _ Hr)) as Hv.
  destruct Hst as [[Hne Hch]|[-> ->]].
  - rewrite (proj2 (Z.eqb_neq _ _) Hne). wp_step. destruct (chain_head _ _ _ _ Hch) as [k ->].
    apply (HQ s (first_cluster fp) fp [] k); [|by rewrite app_nil_r | done ..].
    exists fat. rewrite app_nil_r. repeat (split; [done|]). by destruct s.
  - simpl. wp_step. apply (allocate_spec s b fat data); [done | done | |].
    + intros c s1 Hc Hz Hfl Hr1 Hg1. wp_step.
      assert (Hh1 : fat32_free_cluster_no s1 = c + 1) by (unfold globals in Hg1; simpl in Hg1; congruence).
      apply (HQ s1 c (set_chain c c fp) [c] []); try done. exists (fupd fat c CLUSTER_END_OF_CHAIN).
      rewrite Hh1. split; [done|]. split; [|split; [|split; [|split]]].
      * constructor; [unfold in_vol; lia | by rewrite fupd_eq].
      * intros x Hx. apply fupd_ne. set_solver.
      * rewrite Hfl. simpl. f_equal. apply free_list_ext. intros x Hx. rewrite fupd_ne by lia. done.
      * lia.
      * done.
    + intros s1 Hfl. by destruct Hfree.
Qed.

(** The clusters f_write appends at most. *)
Definition extra (b : BPB) (l : list Z) (n : Z) : Z := Z.max 0 (rounds b n - zlen l).

(** The walk of f_write, which appends clusters as it goes. *)
Lemma write_walk_spec s s1 b fat data first l acc k p n fuel
    (Q : option (Z * Z) -> fat_state E -> Prop) :
  vol_wf b -> growing s s1 b fat first l acc data -> l ++ acc = first :: k ->
  zlen acc <= extra b l n -> 0 <= p < n -> p < 4294967296 ->
  extra b l n <= zlen (free_list b fat (fat32_free_cluster_no s)) ->
  rounds b n < Z.of_nat fuel -> (1 < fuel)%nat ->
  (forall s2 acc dn cl k o, growing s s2 b fat first l acc data -> l ++ acc = dn ++ cl :: k ->
     zlen dn * csize b + o = p -> 0 <= o < csize b -> zlen acc <= extra b l n ->
     Q (Some (cl, o)) s2) ->
  wp (iter_fuel fuel (fun '(cluster, offset) =>
    if (csize b <=? offset) && negb (cluster =? 0) then
      let! next := next_or_append fuel cluster in
      match next with
      | None => ret (inr None)
      | Some next => ret (inl (next, u32 (offset - csize b)))
      end
    else ret (inr (Some (cluster, offset)))) (first, p)) Q s1.
Proof.
  intros Hv Hgr Hl Hacc Hp H32 Hfree Hfuel Hf1 HQ. pose proof (csize_pos b Hv) as Hcs.
  apply (wp_iter_idx (fun dn : list Z => Z.to_nat (rounds b n - zlen dn))
    (fun dn '(cl, o) s2 => exists acc k, growing s s2 b fat first l acc data /\
      l ++ acc = dn ++ cl :: k /\ zlen dn * csize b + o = p /\ 0 <= o /\
      zlen acc <= extra b l n)) with []; [| |simpl; lia].
  - clear Hgr Hl Hacc acc k s1. intros dn [cl o] s1 (acc & k & Hgr & Hl & Hof & Ho & Hacc).
    assert (Hdn : zlen dn < rounds b n) by (apply rounds_spec; done || nia).
    pose proof Hgr as (fat1 & Hr1 & Hc & _).
    assert (Hin : in_vol b cl).
    { pose proof (chain_all_in_vol b _ _ _ Hc) as Hin. rewrite Hl in Hin.
      by apply Forall_app in Hin as [_ [? _]%Forall_cons]. }
    assert (Hc0 : cl <> 0) by (unfold in_vol in Hin; lia).
    rewrite (proj2 (Z.eqb_neq _ _) Hc0), andb_true_r. case_if; [|wp_step; eapply HQ; done || lia].
    assert (Hmore : zlen dn + 1 < rounds b n) by (apply rounds_spec; done || nia).
    assert (Hlen : zlen l + zlen acc = zlen dn + 1 + zlen k)
      by (apply (f_equal length) in Hl; rewrite !length_app in Hl; simpl in Hl; lia).
    wp_step. apply (next_or_append_spec s s1 b fat first l acc data dn cl k); try done.
    { intros ->. simpl in Hlen. unfold extra in *. lia. }
    intros s2 c' k' acc' Hgr' Hl' Hcase. wp_step. exists (dn ++ [cl]). rewrite length_app. cbn [length].
    unwrap. split; [|lia]. exists acc', k'. rewrite <- app_assoc. split; [done|]. split; [done|].
    split; [lia|]. split; [lia|]. destruct Hcase as [[_ ->]|(-> & -> & -> & _)]; [done|].
    rewrite length_app. simpl in Hlen |- *. unfold extra in *. lia.
  - exists acc, k. repeat (split; [done|]). simpl. lia.
Qed.

(** f_write stores the bytes at the position of the file. *)
Lemma f_write_spec s b fat data fp l buff btw fuel (Q : bool * Z * FAT32_FILE -> fat_state E -> Prop) :
  vol_rep s b fat data -> 2 <= fat32_free_cluster_no s -> write_start b fat fp l ->
  0 <= pos fp <= zlen l * csize b -> 0 < btw -> pos fp + btw < 4294967296 ->
  btw <= zlen buff -> Forall byte buff ->
  extra b l (pos fp + btw) <= zlen (free_list b fat (fat32_free_cluster_no s)) ->
  rounds b (pos fp + btw) + 1 < Z.of_nat fuel ->
  (forall s' fp' first acc data',
     wrote_to s s' b fat data first l buff (pos fp) btw acc data' ->
     zlen acc <= extra b l (pos fp + btw) ->
     first_cluster fp' = first -> pos fp' = pos fp + btw ->
     size fp' = Z.max (size fp) (pos fp + btw) ->
     Q (true, btw, fp') s') ->
  wp (f_write fuel fp buff btw) Q s.
Proof.
  intros Hrep Hh Hst Hpos Hbtw H32 Hbuf Hby Hfree Hfuel HQ.
  pose proof (w_vol _ _ (rep_wf _ _ _ _ Hrep)) as Hv. pose proof (csize_pos b Hv) as Hcs.
  set (n := pos fp + btw) in *.
  assert (HR : 0 < rounds b n) by (apply rounds_spec; done || lia).
  unfold f_write. wp_step. apply wp_gets.
  rewrite (w_bpb _ _ (rep_wf _ _ _ _ Hrep)), get_cluster_size_wf by done.
  wp_step. apply malloc_spec; [apply Hrep | lia |]. intros s0 Hd0 Hg0. cbn [negb]. wp_step.
  assert (Hr0 : vol_rep s0 b fat data) by (by eapply vol_rep_live).
  assert (Hh0 : fat32_free_cluster_no s0 = fat32_free_cluster_no s) by (unfold globals in Hg0; simpl in Hg0; congruence).
  rewrite <- Hh0 in Hfree.
  apply (write_first_spec s0 b fat data fp l); [done | lia | done | |].
  { intros ->. unfold extra in Hfree. simpl in Hfree. intros Hn. rewrite Hn in Hfree. simpl in Hfree. lia. }
  intros s1 first fp1 acc k Hgr Hl Hacc Hfp1 Hpos1 Hsize1. cbv beta iota. rewrite Hpos1. wp_step.
  assert (Hacc' : zlen acc <= extra b l n).
  { rewrite Hacc. unfold extra. destruct (Z.eqb_spec (zlen l) 0); lia. }
  apply (write_walk_spec s0 s1 b fat data first l acc k (pos fp) n); try done; try lia.
  clear Hgr Hl Hacc Hacc' acc k s1. intros s1 acc dn cl k o Hgr Hl Hof Ho Hacc. cbv beta iota. wp_step.
  apply (wp_iter_idx (fun dn : list Z => Z.to_nat (rounds b n - zlen dn))
    (fun dn '(cl, o, bw, cb) s2 => exists acc k data1,
      wrote_to s0 s2 b fat data first l buff (pos fp) bw acc data1 /\ l ++ acc = dn ++ cl :: k /\
      zlen dn * csize b + o = pos fp + bw /\ 0 <= o < csize b /\ 0 <= bw < btw /\
      zlen acc <= extra b l n /\ zlen cb = csize b)) with dn; [| |lia].
  - clear Hgr Hl Hof Ho Hacc acc dn cl k o s1.
    intros dn [[[cl o] bw] cb] s1 (acc & k & data1 & Hw & Hl & Hof & Ho & Hbw & Hacc & Hcb).
    destruct (Z.ltb_spec bw btw); [|lia]. pose proof Hw as (Hgr & _).
    pose proof Hgr as (fat1 & Hr1 & _).
    destruct (growing_data _ _ _ _ _ _ _ _ _ _ _ Hr0 Hgr) as (_ & _ & Hin & _ & _).
    assert (Hlen : zlen (l ++ acc) = zlen dn + 1 + zlen k)
      by (rewrite Hl, length_app; cbn [length]; lia).
    rewrite Hl in Hin. apply Forall_app in Hin as [_ [Hin _]%Forall_cons].
    wp_step. apply (read_cluster_spec s1 b fat1 data1); [done | done | lia |].
    intros s2 Hs2. cbv beta iota. cbn [negb]. unwrap.
    set (wb := if btw - bw <? csize b - o then btw - bw else csize b - o).
    assert (Hwb : wb = Z.min (btw - bw) (csize b - o)) by (unfold wb; case_if; lia).
    pose proof (data_length _ _ _ _ _ Hr1 Hin) as Hdc.
    wp_step. apply wp_guard; [bool_true|]. wp_step.
    assert (Hw2 : wrote_to s0 s2 b fat data first l buff (pos fp) bw acc data1).
    { destruct Hw as (_ & ? & ?). split; [by eapply growing_same | done]. }
    eapply wp_mono; [apply (write_round s0 fat s0 s2 b fat data first l buff (pos fp) bw acc data1 dn cl k o wb);
      done || lia|].
    intros ok s3 (-> & data2 & Hw3). cbn [negb]. rewrite (u32_small (bw + wb)) by lia. case_if.
    + wp_step. cbv beta iota. wp_step. apply free_spec. intros s4 Hd4 Hg4. cbn [negb]. wp_step.
      assert (bw + wb = btw) as Hfin by lia. rewrite Hfin in *.
      assert (Hw4 : wrote_to s s4 b fat data first l buff (pos fp) btw acc data2).
      { destruct Hw3 as ((fat3 & Hr3 & Hc3 & Hf3 & Hfl3 & Hh3 & Hg3) & Hc & Ho').
        split; [|done]. assert (Hh4 : fat32_free_cluster_no s4 = fat32_free_cluster_no s3)
          by (unfold globals in Hg4; simpl in Hg4; congruence).
        exists fat3. rewrite Hh4, <- Hh0. split; [by eapply vol_rep_live|].
        repeat (split; [done|]). solve_globals. }
      unwrap. cbn [set_pos pos size]. rewrite Hsize1.
      case_if; apply (HQ s4 _ first acc data2 Hw4 Hacc); simpl; try done; lia.
    + assert (Hdn : zlen dn + 1 < rounds b n) by (apply rounds_spec; done || nia).
      rewrite length_app in Hlen.
      wp_step. apply (next_or_append_spec s0 s3 b fat first l acc data2 dn cl k); [by destruct Hw3 | done | lia | |].
      { intros ->. simpl in Hlen. unfold extra in *. lia. }
      intros s4 c' k' acc' Hgr' Hl' Hcase. wp_step. exists (dn ++ [cl]). rewrite length_app. cbn [length].
      split; [|lia]. exists acc', k', data2. rewrite <- app_assoc. split; [|split; [done|]].
      * destruct Hcase as [[_ ->]|(-> & -> & -> & Hc')]; [by destruct Hw3|].
        apply (wrote_extend s0 fat s0 s3); try done; try lia. rewrite length_app. simpl in Hlen. nia.
      * split; [lia|]. split; [lia|]. split; [lia|]. split.
        -- destruct Hcase as [[_ ->]|(-> & -> & -> & _)]; [done|].
           rewrite length_app. simpl in Hlen |- *. unfold extra in *. lia.
        -- rewrite length_splice; rewrite ?length_slice; lia.
  - exists acc, k, data. split; [|repeat (split; [done || lia|]); rewrite length_replicate; lia].
    split; [done|]. split; [|done]. simpl. unfold splice. simpl.
    rewrite Nat.add_0_r. by rewrite take_drop.
Qed.

(** F_read returns the bytes of the file at its position: at most
    [btr] and never past the end of the file, copied into the caller's
    buffer; the position advances by what was read and the disk, the heap
    and the driver's state are unchanged. *)
Theorem f_read_ok s b fat data fp l buff btr fuel :
  vol_rep s b fat data -> chain b fat (first_cluster fp) l ->
  0 <= pos fp < size fp -> size fp <= zlen l * csize b -> size fp < 4294967296 ->
  0 <= btr < 4294967296 -> btr <= zlen buff -> (length l < fuel)%nat ->
  let n := Z.min btr (size fp - pos fp) in
  returns (f_read fuel fp buff btr) s
    (true, splice 0 (slice (pos fp) n (contents data l)) buff, n, set_pos (pos fp + n) fp)
    (same_fs s).
Proof.
  intros Hr Hc Hp Hs H32 Hb Hbl Hf n. apply wp_returns.
  apply (f_read_spec s b fat data fp l); try done. lia.
Qed.

(** C2: f_write stores its bytes at the file's position: the contents of
    the file become the old ones with the bytes spliced in, over a chain
    that keeps the old clusters and grows by as many free ones as needed;
    the entries and contents of all other clusters are untouched, the
    position advances, the size grows to cover it and the heap is as
    before. *)
Theorem f_write_ok s b fat data fp l buff btw fuel :
  vol_rep s b fat data -> 2 <= fat32_free_cluster_no s -> write_start b fat fp l ->
  0 <= pos fp <= zlen l * csize b -> 0 < btw -> pos fp + btw < 4294967296 ->
  btw <= zlen buff -> Forall byte buff ->
  extra b l (pos fp + btw) <= zlen (free_list b fat (fat32_free_cluster_no s)) ->
  rounds b (pos fp + btw) + 1 < Z.of_nat fuel ->
  exists s' fp' acc fat' data',
    f_write fuel fp buff btw s = Ret ((true, btw, fp'), s') /\
    vol_rep s' b fat' data' /\ chain b fat' (first_cluster fp') (l ++ acc) /\
    contents data' (l ++ acc) =
      splice (pos fp) (take (Z.to_nat btw) buff) (contents data (l ++ acc)) /\
    (forall c, c ∉ l ++ acc -> fat' c = fat c /\ data' c = data c) /\
    Forall (fun c => fat c = 0) acc /\
    pos fp' = pos fp + btw /\ size fp' = Z.max (size fp) (pos fp + btw) /\ live s' = live s.
Proof.
  intros Hr Hh Hst Hp Hb H32 Hbl Hby Hfr Hf.
  assert (Hw : wp (f_write fuel fp buff btw) (fun '(ok, bw, fp') s' => ok = true /\ bw = btw /\
    exists acc data', wrote_to s s' b fat data (first_cluster fp') l buff (pos fp) btw acc data' /\
      pos fp' = pos fp + btw /\ size fp' = Z.max (size fp) (pos fp + btw)) s).
  { apply (f_write_spec s b fat data fp l); try done. intros s' fp' first acc data' Hw _ <- Hp' Hs'.
    split; [done|]. split; [done|]. by exists acc, data'. }
  apply wp_run in Hw as ([[ok bw] fp'] & s' & Hrun & -> & -> & acc & data' & Hw & Hp' & Hs').
  destruct Hw as ((fat' & Hr' & Hc' & Hf' & Hfl & _ & Hg) & Hcont & Hout).
  exists s', fp', acc, fat', data'. split; [done|]. split; [done|]. split; [done|]. split; [done|].
  split; [by intros c Hc; split; [apply Hf' | apply Hout]|]. split.
  - apply Forall_forall. intros c Hc. eapply elem_of_free_list. rewrite Hfl. set_solver.
  - split; [done|]. split; [done|]. unfold globals in Hg. simpl in Hg. congruence.
Qed.

Lemma walk_ends s b fat data c l offset fuel (Q : Z * Z -> fat_state E -> Prop) :
  vol_rep s b fat data -> chain b fat c l -> 0 <= offset < zlen l * csize b ->
  offset < 4294967296 -> (length l < fuel)%nat ->
  (forall s' c' o, same_fs s s' -> Q (c', o) s') ->
  wp (walk_chain fuel (csize b) c offset) Q s.
Proof. intros. eapply walk_chain_spec; eauto. Qed.

(** [s'] is the volume after [bytes] were written at the position of the file
    [fp], with the clusters [l], whose structure is [fp'] now: the bytes are
    spliced into the contents of the file, whose chain keeps its clusters and
    grows by no more free ones than needed; the entries and contents of all
    other clusters, so all other files, and the disks outside the volume are
    as before. *)
Definition file_written (b : BPB) fat data (fp : FAT32_FILE) (l bytes : list Z) s' (fp' : FAT32_FILE) : Prop :=
  exists acc fat' data', vol_rep s' b fat' data' /\ chain b fat' (first_cluster fp') (l ++ acc) /\
    contents data' (l ++ acc) = splice (pos fp) bytes (contents data (l ++ acc)) /\
    (forall c, c ∉ l ++ acc -> fat' c = fat c /\ data' c = data c) /\
    Forall (fun c => fat c = 0) acc /\ zlen acc <= extra b l (pos fp + zlen bytes) /\
    pos fp' = pos fp + zlen bytes /\ size fp' = Z.max (size fp) (pos fp + zlen bytes).

(** The three calls one after the other. *)
Lemma write_seek_read_spec s b fat data fp l buff out btw fuel :
  vol_rep s b fat data -> 2 <= fat32_free_cluster_no s -> write_start b fat fp l ->
  0 <= pos fp <= zlen l * csize b -> 0 <= size fp <= zlen l * csize b -> 0 < btw ->
  pos fp + btw < 4294967296 -> size fp < 4294967296 ->
  btw <= zlen buff -> Forall byte buff -> zlen out = btw ->
  extra b l (pos fp + btw) <= zlen (free_list b fat (fat32_free_cluster_no s)) ->
  rounds b (pos fp + btw) + zlen l + 1 < Z.of_nat fuel ->
  wp (f_write fuel fp buff btw) (fun '(ok1, _, fp1) s1 => ok1 = true /\
    wp (f_lseek fuel fp1 (pos fp)) (fun fp2 s2 =>
      wp (f_read fuel fp2 out btw) (fun '(ok2, o, n, fp3) s3 =>
        ok2 = true /\ n = btw /\ o = take (Z.to_nat btw) buff /\ live s3 = live s /\
        file_written b fat data fp l (take (Z.to_nat btw) buff) s3 fp3) s2) s1) s.
Proof.
  intros Hr Hh Hst Hp Hsz Hb H32 Hs32 Hbl Hby Hout Hfr Hf.
  pose proof (w_vol _ _ (rep_wf _ _ _ _ Hr)) as Hv. pose proof (csize_pos b Hv) as Hcs.
  assert (HR : 0 < rounds b (pos fp + btw)) by (apply rounds_spec; done || lia).
  apply (f_write_spec s b fat data fp l); try done; [lia|].
  intros s1 fp1 first acc data1 (Hgr & Hcont & Hoth) Hacc Hf1 Hp1 Hs1. cbv beta iota. split; [done|].
  destruct (growing_data _ _ _ _ _ _ _ _ _ _ _ Hr Hgr) as (_ & _ & _ & Hdl & Hdl1).
  pose proof Hgr as (fat1 & Hr1 & Hc1 & Hfo & Hfl & _ & Hg1). pose proof Hacc as Hacc0.
  assert (Htk : zlen (take (Z.to_nat btw) buff) = btw) by (rewrite length_take; lia).
  assert (Hlen1 : zlen (contents data1 (l ++ acc)) = zlen (l ++ acc) * csize b) by (by apply contents_length).
  assert (Hlen : zlen (contents data (l ++ acc)) = zlen (l ++ acc) * csize b) by (by apply contents_length).
  assert (Hroom : pos fp + btw <= zlen (l ++ acc) * csize b).
  { apply Z.nlt_ge. intros Hlt.
    assert (Hl1 : zlen (contents data1 (l ++ acc)) = zlen (splice (pos fp) (take (Z.to_nat btw) buff) (contents data (l ++ acc)))) by (by rewrite Hcont).
    unfold splice in Hl1. rewrite !length_app, !length_take, length_drop in Hl1. lia. }
  unfold extra in Hacc. rewrite length_app in Hroom, Hlen, Hlen1.
  unfold f_lseek. wp_step. apply wp_gets.
  rewrite (w_bpb _ _ (rep_wf _ _ _ _ Hr1)), get_cluster_size_wf by done.
  destruct (Z.ltb_spec (size fp1) (pos fp)); [lia|]. wp_step.
  apply (walk_ends s1 b fat1 data1 (first_cluster fp1) (l ++ acc)); rewrite ?Hf1, ?length_app; try done; try lia.
  intros s2 c' o Hs2. cbv beta iota. wp_step.
  apply (f_read_spec s2 b fat1 data1 _ (l ++ acc)); simpl; rewrite ?Hf1, ?length_app; try done; try lia.
  { by eapply vol_rep_same. }
  intros s3 Hs3. replace (Z.min btw (size fp1 - pos fp)) with btw by lia. split_and!; [done | done | | |].
  - rewrite Hcont. rewrite slice_splice_eq by lia. unfold splice. simpl. rewrite drop_ge by lia. apply app_nil_r.
  - destruct Hs2 as [_ Hg2], Hs3 as [_ Hg3]. unfold globals in *. simpl in *. congruence.
  - exists acc, fat1, data1. rewrite Htk. split_and!; [| | done | | | done | cbn; lia | done].
    + eapply vol_rep_same; [|exact Hs3]. by eapply vol_rep_same.
    + cbn. by subst first.
    + intros c Hc. split; [by apply Hfo | by apply Hoth].
    + apply Forall_forall. intros c Hc. eapply elem_of_free_list. rewrite Hfl. set_solver.
Qed.

(** What was written is read back: writing [btw] bytes, seeking to the
    position before the write and reading [btw] bytes yields the bytes. *)
Theorem f_write_seek_read s b fat data fp l buff out btw fuel :
  vol_rep s b fat data -> 2 <= fat32_free_cluster_no s -> write_start b fat fp l ->
  0 <= pos fp <= zlen l * csize b -> 0 <= size fp <= zlen l * csize b -> 0 < btw ->
  pos fp + btw < 4294967296 -> size fp < 4294967296 ->
  btw <= zlen buff -> Forall byte buff -> zlen out = btw ->
  extra b l (pos fp + btw) <= zlen (free_list b fat (fat32_free_cluster_no s)) ->
  rounds b (pos fp + btw) + zlen l + 1 < Z.of_nat fuel ->
  wp (let! '(ok1, _, fp1) := f_write fuel fp buff btw in
      let! fp2 := f_lseek fuel fp1 (pos fp) in
      let! '(ok2, out, n, _) := f_read fuel fp2 out btw in
      ret (ok1 && ok2, n, out))
    (fun r s' => r = (true, btw, take (Z.to_nat btw) buff) /\ live s' = live s) s.
Proof.
  intros. apply wp_bind. eapply wp_mono; [eapply (write_seek_read_spec s b fat data fp l buff out btw); done|].
  intros [[ok1 n1] fp1] s1 [-> Hw1]. apply wp_bind. eapply wp_mono; [exact Hw1|]. intros fp2 s2 Hw2.
  apply wp_bind. eapply wp_mono; [exact Hw2|]. intros [[[ok2 o] n] fp3] s3 (-> & -> & -> & Hl & _). by apply wp_ret.
Qed.
End write.

Module SmallFile.
Import RamDisk SmallVol.

(** A file of 1200 bytes over the chain 3, 5, 4. *)
Definition fp (p : Z) : FAT32_FILE := mk_file 3 3 1200 p 2 2 64 [65] 3 0.

Lemma fp_start p : write_start b (fat chain354) (fp p) [3; 5; 4].
Proof. left. split; [done | apply chain354_ok]. Qed.

Lemma f_read_witness :
  returns (f_read 4 (fp 500) (replicate 40 0) 40) (SmallVol.st chain354 2)
    (true, splice 0 (slice 500 40 (contents (data chain354) [3; 5; 4])) (replicate 40 0), 40,
     set_pos 540 (fp 500))
    (same_fs (SmallVol.st chain354 2)).
Proof.
  apply (f_read_ok (SmallVol.st chain354 2) b (fat chain354) (data chain354) (fp 500) [3; 5; 4]
    (replicate 40 0) 40 4); simpl; try lia; [apply st_rep | apply chain354_ok | done].
Defined.

(** Writing 700 bytes at 1000 appends one cluster. *)
Lemma f_write_witness :
  exists s' fp' acc fat' data',
    f_write 6 (fp 1000) (replicate 700 7) 700 (SmallVol.st chain354 2) = Ret ((true, 700, fp'), s') /\
    vol_rep s' b fat' data' /\ chain b fat' (first_cluster fp') ([3; 5; 4] ++ acc) /\
    size fp' = 1700.
Proof.
  destruct (f_write_ok (SmallVol.st chain354 2) b (fat chain354) (data chain354) (fp 1000) [3; 5; 4]
    (replicate 700 7) 700 6) as (s' & fp' & acc & fat' & data' & Hrun & Hr & Hc & _ & _ & _ & _ & Hs & _).
  - apply st_rep.
  - simpl. lia.
  - apply fp_start.
  - vm_compute. intuition congruence.
  - lia.
  - by vm_compute.
  - rewrite length_replicate. lia.
  - apply Forall_replicate. unfold byte. lia.
  - by vm_compute.
  - by vm_compute.
  - exists s', fp', acc, fat', data'. split; [exact Hrun|]. split; [exact Hr|]. split; [exact Hc|].
    exact Hs.
Defined.

Lemma f_write_seek_read_witness :
  wp (let! '(ok1, _, fp1) := f_write 9 (fp 1000) (replicate 700 7) 700 in
      let! fp2 := f_lseek 9 fp1 1000 in
      let! '(ok2, out, n, _) := f_read 9 fp2 (replicate 700 0) 700 in
      ret (ok1 && ok2, n, out))
    (fun r s' => r = (true, 700, take (Z.to_nat 700) (replicate 700 7)) /\ live s' = 0)
    (SmallVol.st chain354 2).
Proof.
  apply (f_write_seek_read (SmallVol.st chain354 2) b (fat chain354) (data chain354) (fp 1000) [3; 5; 4]
    (replicate 700 7) (replicate 700 0) 700 9).
  - apply st_rep.
  - simpl. lia.
  - apply fp_start.
  - vm_compute. intuition congruence.
  - vm_compute. intuition congruence.
  - lia.
  - by vm_compute.
  - by vm_compute.
  - rewrite length_replicate. lia.
  - apply Forall_replicate. unfold byte. lia.
  - by rewrite length_replicate.
  - by vm_compute.
  - by vm_compute.
Defined.
End SmallFile.
