(* ===== verification/FatDirProps.v ===== *)
(** Theorems about names and directories of the FAT32 driver: long-name
    entries round-trip, ".." lookup, pattern matching. *)
From S2P Require Import Prelude CString BlockDev FatBpb FatCluster FatMount FatDir FatChain FatChainProps.

(** ** Long names *)

Section long_names.
Implicit Types name ln : list Z.

(** The entries of a name read back in the order they are stored: the last
    part of the name comes first. *)
Fixpoint read_lfns (skip : bool) (entries : list LFNEntry) (ln : list Z) : outcome (list Z) :=
  match entries with
  | [] => Ret ln
  | e :: entries => obind (put_lfn skip e ln) (read_lfns skip entries)
  end.

(** The long-name entries fat32_create_dir_entry writes for a name. *)
Definition lfn_entries name checksum : list LFNEntry :=
  lfn_entry name ((zlen name + 12) / 13) checksum <$> seqZ 0 ((zlen name + 12) / 13).

Lemma u8_unit c : 0 <= c < 256 -> u8 (u16 (s8 c)) = c.
Proof.
  intros Hc. unfold u8, u16, s8.
  rewrite Z.mod_mod_divide by (exists 256; lia).
  rewrite Zminus_mod_idemp_l. replace (c + 128 - 128) with c by lia. apply Z.mod_small. lia.
Qed.

Lemma lfn_units_entry name n ck i :
  lfn_units (lfn_entry name n ck i) = (fun j => lfn_unit name ((n - i - 1) * 13 + j)) <$> seqZ 0 13.
Proof. unfold lfn_units, lfn_entry. simpl. done. Qed.

Lemma put_units_spec units pos ln : 0 <= pos -> pos + zlen units <= 256 -> length ln = 256%nat ->
  put_units false units pos ln = Ret (splice pos (u8 <$> units) ln).
Proof.
  revert pos ln. induction units as [|u units IH]; intros pos ln Hp Hl Hln; simpl.
  - unfold splice. simpl. by rewrite Nat.add_0_r, take_drop.
  - cbn [length] in Hl. unfold put_char, LONG_FILENAME_SIZE.
    replace ((0 <=? pos) && (pos <? 256)) with true by (symmetry; bool_true). simpl.
    rewrite IH by (rewrite ?length_insert; lia). f_equal. apply list_eq. intros j.
    rewrite !lookup_splice by (cbn [length]; rewrite ?length_insert, ?length_fmap; lia).
    cbn [length]. rewrite !length_fmap.
    destruct (decide (j = Z.to_nat pos)) as [->|Hne].
    + rewrite Z2Nat.id by lia. rewrite Z.leb_refl, (proj2 (Z.leb_gt _ _)) by lia. simpl.
      rewrite (proj2 (Z.ltb_lt _ _)) by lia. rewrite Nat.sub_diag. simpl.
      rewrite list_lookup_insert_eq by lia. done.
    + destruct (Z.leb_spec (pos + 1) (Z.of_nat j)), (Z.leb_spec pos (Z.of_nat j)); simpl; try lia;
        [|by rewrite list_lookup_insert_ne].
      destruct (Z.ltb_spec (Z.of_nat j) (pos + 1 + zlen units)), (Z.ltb_spec (Z.of_nat j) (pos + Z.of_nat (S (length units)))); try lia.
      * replace (j - Z.to_nat pos)%nat with (S (j - Z.to_nat (pos + 1))) by lia. done.
      * by rewrite list_lookup_insert_ne.
Qed.

(** The buffer once the units from [from] on are in place. *)
Definition filled name (from : Z) ln : Prop :=
  length ln = 256%nat /\
  forall j, from <= j < 13 * ((zlen name + 12) / 13) ->
    ln !! Z.to_nat j = Some (u8 (lfn_unit name j)).

Lemma count_bounds name : zlen name <= 247 ->
  0 <= (zlen name + 12) / 13 <= 19 /\ zlen name <= 13 * ((zlen name + 12) / 13).
Proof.
  intros Hl. pose proof (Z.div_mod (zlen name + 12) 13). pose proof (Z.mod_pos_bound (zlen name + 12) 13). lia.
Qed.

Lemma put_lfn_step name ck i ln :
  zlen name <= 247 -> 0 <= i < (zlen name + 12) / 13 ->
  filled name (13 * ((zlen name + 12) / 13 - i)) ln ->
  exists ln', put_lfn false (lfn_entry name ((zlen name + 12) / 13) ck i) ln = Ret ln' /\
    filled name (13 * ((zlen name + 12) / 13 - (i + 1))) ln' /\
    (forall j, 13 * ((zlen name + 12) / 13) <= Z.of_nat j -> ln' !! j = ln !! j).
Proof.
  intros Hl Hi [Hln Hf]. destruct (count_bounds name Hl) as [Hn _].
  set (n := (zlen name + 12) / 13) in *. unfold put_lfn.
  assert (Hord : Z.land (LDIR_Ord (lfn_entry name n ck i)) 0x1F = n - i).
  { unfold lfn_entry. cbn [LDIR_Ord]. rewrite u8_small by lia.
    assert (Hm : Z.land (n - i) 31 = n - i) by (change 31 with (Z.ones 5); rewrite Z.land_ones by lia; apply Z.mod_small; lia).
    case_if; [|done]. rewrite Z.land_lor_distr_l. change (Z.land 64 31) with 0. by rewrite Z.lor_0_r. }
  rewrite Hord, lfn_units_entry.
  assert (Hlu : zlen ((fun j => lfn_unit name ((n - i - 1) * 13 + j)) <$> seqZ 0 13) = 13)
    by (rewrite length_fmap; done).
  rewrite put_units_spec; [|lia | lia | done].
  eexists. split; [done|]. set (us := u8 <$> _).
  assert (Hus : zlen us = 13) by (unfold us; by rewrite !length_fmap).
  split; [split|].
  - rewrite length_splice; lia.
  - intros j Hj. rewrite lookup_splice by lia. rewrite Z2Nat.id by lia.
    destruct (Z.leb_spec ((n - i - 1) * 13) j), (Z.ltb_spec j ((n - i - 1) * 13 + zlen us)); simpl; try lia.
    + unfold us. rewrite list_lookup_fmap, list_lookup_fmap, lookup_seqZ_lt by lia. simpl. do 3 f_equal. lia.
    + apply Hf. lia.
  - intros j Hj. rewrite lookup_splice by lia.
    destruct (Z.leb_spec ((n - i - 1) * 13) (Z.of_nat j)), (Z.ltb_spec (Z.of_nat j) ((n - i - 1) * 13 + zlen us)); simpl; lia || done.
Qed.

Lemma read_lfns_spec name ck : zlen name <= 247 -> forall (k : nat) i ln,
  i + Z.of_nat k = (zlen name + 12) / 13 -> 0 <= i ->
  filled name (13 * ((zlen name + 12) / 13 - i)) ln ->
  (forall j, 13 * ((zlen name + 12) / 13) <= Z.of_nat j -> (j < 256)%nat -> ln !! j = Some 0) ->
  exists ln', read_lfns false (lfn_entry name ((zlen name + 12) / 13) ck <$> seqZ i (Z.of_nat k)) ln = Ret ln' /\
    filled name 0 ln' /\
    (forall j, 13 * ((zlen name + 12) / 13) <= Z.of_nat j -> (j < 256)%nat -> ln' !! j = Some 0).
Proof.
  intros Hl k. induction k as [|k IH]; intros i ln Hik Hi Hf Hz.
  - simpl. exists ln. split; [done|]. split; [|done]. by replace 0 with (13 * ((zlen name + 12) / 13 - i)) by lia.
  - rewrite Nat2Z.inj_succ, seqZ_cons by lia. simpl.
    destruct (put_lfn_step name ck i ln Hl ltac:(lia) Hf) as (ln1 & -> & Hf1 & Hz1). simpl.
    replace (Z.pred (Z.succ (Z.of_nat k))) with (Z.of_nat k) by lia. rewrite <- Z.add_1_r.
    apply IH; [lia | lia | done |]. intros j Hj1 Hj2. rewrite Hz1 by lia. by apply Hz.
Qed.

Lemma c_string_of (name ln : list Z) :
  Forall char_ok name -> (forall j c, name !! j = Some c -> ln !! j = Some c) ->
  ln !! length name = Some 0 -> c_string ln = name.
Proof.
  intros Hok. revert ln. induction Hok as [|c name Hc Hok IH]; intros ln Hl H0.
  - destruct ln as [|x ln]; [done|]. simpl in H0. simplify_eq. done.
  - destruct ln as [|x ln]; [done|]. pose proof (Hl 0%nat c eq_refl) as [= ->].
    unfold c_string. simpl. unfold char_ok in Hc. destruct (Z.eqb_spec c 0); [lia|]. simpl. f_equal.
    apply IH; [|done]. intros j c' Hj. by apply (Hl (S j)).
Qed.

(** C37: The long-name entries written for a name of at most 247 characters
    read back as the name: collecting them in stored order into the cleared
    256-byte buffer, as fat32_find_file does, leaves the name as the
    buffer's C string. *)
Theorem lfn_roundtrip name ck :
  Forall char_ok name -> 0 < zlen name <= 247 ->
  exists ln, read_lfns false (lfn_entries name ck) no_name = Ret ln /\ c_string ln = name.
Proof.
  intros Hok Hl. destruct (count_bounds name ltac:(lia)) as [Hn Hn'].
  destruct (read_lfns_spec name ck ltac:(lia) (Z.to_nat ((zlen name + 12) / 13)) 0 no_name)
    as (ln & Hr & [Hlen Hf] & Hz).
  - lia.
  - lia.
  - split; [done|]. intros j Hj. lia.
  - intros j Hj1 Hj2. unfold no_name. by rewrite lookup_replicate_2.
  - rewrite Z2Nat.id in Hr by lia. exists ln. split; [done|].
    apply c_string_of; [done | |].
    + intros j c Hj. pose proof (lookup_lt_Some _ _ _ Hj) as Hjl.
      rewrite <- (Nat2Z.id j), Hf by lia. unfold lfn_unit, byte_at. rewrite Nat2Z.id, Hj.
      rewrite (proj2 (Z.ltb_lt _ _)) by lia. simpl. rewrite u8_unit; [done|].
      rewrite Forall_lookup in Hok. specialize (Hok _ _ Hj). unfold char_ok in Hok. lia.
    + destruct (decide (zlen name < 13 * ((zlen name + 12) / 13))).
      * rewrite <- (Nat2Z.id (length name)), Hf by lia. unfold lfn_unit.
        rewrite Z.ltb_irrefl, Z.eqb_refl. done.
      * apply Hz; lia.
Qed.

(** Reading back the entries of a name of 248 to 255 characters, which
    f_open and f_mkdir accept, writes behind the 256-byte buffer of the
    lookup: twenty entries hold 260 units and all are stored. *)
Theorem lfn_overflow name ck :
  248 <= zlen name <= 255 -> read_lfns false (lfn_entries name ck) no_name = Undef.
Proof.
  intros Hl. assert (Hn : (zlen name + 12) / 13 = 20).
  { symmetry. apply (Z.div_unique_pos _ _ _ (zlen name + 12 - 260)); lia. }
  unfold lfn_entries. rewrite Hn. rewrite seqZ_cons by lia. cbn [fmap list_fmap read_lfns].
  unfold put_lfn. rewrite lfn_units_entry.
  replace (Z.land (LDIR_Ord (lfn_entry name 20 ck 0)) 31 - 1) with 19 by done.
  replace (seqZ 0 13) with (seqZ 0 9 ++ seqZ 9 4) by done. rewrite fmap_app.
  set (u1 := _ <$> seqZ 0 9). set (u2 := _ <$> seqZ 9 4).
  assert (Happ : forall us vs pos ln, length ln = 256%nat -> 0 <= pos -> pos + zlen us <= 256 ->
    put_units false (us ++ vs) pos ln = put_units false vs (pos + zlen us) (splice pos (u8 <$> us) ln)).
  { induction us as [|u us IH]; intros vs pos ln Hln Hp Hle.
    - simpl. rewrite Z.add_0_r. unfold splice. simpl. by rewrite Nat.add_0_r, take_drop.
    - cbn [length] in Hle. pose proof (put_units_spec (u :: us) pos ln Hp ltac:(cbn [length]; lia) Hln) as Hall.
      simpl in Hall |- *. unfold put_char, LONG_FILENAME_SIZE in *.
      replace ((0 <=? pos) && (pos <? 256)) with true in * by (symmetry; bool_true). simpl in Hall |- *.
      rewrite IH by (rewrite ?length_insert; lia). rewrite put_units_spec in Hall by (rewrite ?length_insert; lia).
      injection Hall as Hall. rewrite Hall. f_equal. lia. }
  rewrite Happ by (unfold u1; rewrite ?length_fmap; simpl; lia).
  assert (H1 : zlen u1 = 9) by (unfold u1; by rewrite length_fmap). rewrite H1.
  unfold u2. simpl. done.
Qed.
End long_names.

(** ** The dot-dot entry *)

Section dotdot.
Context {E : Type} `{BlockDevLaws E} {Ar : Around}.
Implicit Types (s : fat_state E) (fat : Z -> Z) (data : Z -> list Z).

Lemma length_dir_encode e : length (DIR_Name e) = 11%nat -> length (dir_encode e) = 32%nat.
Proof. intros Hn. unfold dir_encode. rewrite !length_app, !length_le_bytes, Hn. done. Qed.

Lemma dir_encode_byte e : Forall byte (DIR_Name e) -> Forall byte (dir_encode e).
Proof. intros Hn. unfold dir_encode. repeat (apply Forall_app_2; [auto using le_bytes_byte|]). apply le_bytes_byte. Qed.

(** Name and first byte of the entry stored at an offset. *)
Lemma entry_name pre e post off : off = zlen pre -> length (DIR_Name e) = 11%nat ->
  DIR_Name (dir_decode off (pre ++ dir_encode e ++ post)) = DIR_Name e /\
  byte_at off (pre ++ dir_encode e ++ post) = byte_at 0 (DIR_Name e).
Proof.
  intros -> Hn. split.
  - unfold dir_decode. cbn [DIR_Name]. rewrite slice_app_r by lia. rewrite Z.sub_diag.
    unfold dir_encode. rewrite <- app_assoc. apply slice_app_exact. lia.
  - unfold byte_at. rewrite Nat2Z.id. rewrite lookup_app_r by lia. rewrite Nat.sub_diag.
    rewrite lookup_app_l by (rewrite length_dir_encode; [lia | done]).
    unfold dir_encode. rewrite lookup_app_l by lia. done.
Qed.

Lemma find_scan_keep r (l : list Z) name buf :
  foldl (fun acc i =>
    match acc with
    | Some _ => acc
    | None =>
        let e := dir_decode (i * 32) buf in
        let first := byte_at (i * 32) buf in
        if first =? 0x00 then Some None
        else if first =? 0xE5 then None
        else if negb (Z.land (DIR_Attr e) ATTR_DIRECTORY =? 0)
                && bool_decide (DIR_Name e = fat32_format_83_name name)
        then Some (Some (first_cluster_of e))
        else None
    end) (Some r) l = Some r.
Proof. induction l; simpl; auto. Qed.

(** The cluster of a fresh directory: ".", "..", then the end mark. *)
Definition fresh_dir (b : BPB) (c p : Z) : list Z :=
  splice 0 (dir_encode (new_entry dot_name ATTR_DIRECTORY c 0)
              ++ dir_encode (new_entry dotdot_name ATTR_DIRECTORY p 0)) (zeros b).

Lemma fresh_dir_app b c p : vol_wf b -> exists z,
  fresh_dir b c p = dir_encode (new_entry dot_name ATTR_DIRECTORY c 0)
    ++ dir_encode (new_entry dotdot_name ATTR_DIRECTORY p 0) ++ 0 :: z.
Proof.
  intros Hv. pose proof (csize_pos b Hv). unfold fresh_dir, splice.
  change (take (Z.to_nat 0) (zeros b)) with (@nil Z).
  exists (replicate (Z.to_nat (csize b) - 65) 0). cbn [app].
  rewrite <- app_assoc, length_app, !length_dir_encode by done. do 2 f_equal.
  unfold zeros. rewrite drop_replicate.
  replace (Z.to_nat (csize b) - _)%nat with (S (Z.to_nat (csize b) - 65)) by (simpl; lia). done.
Qed.

Lemma fresh_dir_scan b c p entries : vol_wf b -> 3 <= entries ->
  find_dir_scan entries dotdot (fresh_dir b c p) = Some None.
Proof.
  intros Hv He. destruct (fresh_dir_app b c p Hv) as [z ->]. set (e1 := new_entry dot_name _ _ _).
  set (e2 := new_entry dotdot_name _ _ _).
  destruct (entry_name [] e1 (dir_encode e2 ++ 0 :: z) 0 eq_refl eq_refl) as [Hn1 Hb1]. cbn [app] in Hn1, Hb1.
  assert (H32 : 32 = zlen (dir_encode e1)) by (rewrite length_dir_encode; done).
  destruct (entry_name (dir_encode e1) e2 (0 :: z) 32 H32 eq_refl) as [Hn2 Hb2].
  assert (Hb3 : byte_at 64 (dir_encode e1 ++ dir_encode e2 ++ 0 :: z) = 0).
  { unfold byte_at. rewrite app_assoc, lookup_app_r by (rewrite length_app, !length_dir_encode; done || (simpl; lia)).
    rewrite length_app, !length_dir_encode by done. done. }
  unfold find_dir_scan. rewrite !(seqZ_cons _ entries), !(seqZ_cons _ (Z.pred entries)),
    !(seqZ_cons _ (Z.pred (Z.pred entries))) by lia. cbn [foldl]. cbv zeta.
  change (0 * 32) with 0. change (Z.succ 0 * 32) with 32. change (Z.succ (Z.succ 0) * 32) with 64.
  rewrite Hb1, Hn1. change (byte_at 0 (DIR_Name e1)) with 46.
  change (bool_decide (DIR_Name e1 = fat32_format_83_name dotdot)) with false. rewrite andb_false_r.
  change (46 =? 0) with false. change (46 =? 229) with false. cbv iota zeta.
  rewrite Hb2, Hn2. change (byte_at 0 (DIR_Name e2)) with 46.
  change (bool_decide (DIR_Name e2 = fat32_format_83_name dotdot)) with false. rewrite andb_false_r.
  change (46 =? 0) with false. change (46 =? 229) with false. cbv iota zeta.
  rewrite Hb3. simpl. apply find_scan_keep.
Qed.

(** A lookup of ".." in a directory fat32_init_directory has just
    written fails, although the entry is there: the name is compared in the
    form of fat32_format_83_name, which takes the first dot of ".." for the
    separator of an extension. *)
Theorem fat32_find_dotdot_fails s b fat data c p fuel :
  vol_rep s b fat data -> in_vol b c -> BPB_RootClus b <= c -> (0 < fuel)%nat ->
  wp (let! ok := fat32_init_directory c p in
      let! r := fat32_find_dir fuel c dotdot in ret (ok, r))
    (fun r s' => r = (true, None) /\ vol_rep s' b fat (fupd data c (fresh_dir b c p)) /\
       DIR_Name (dir_decode 32 (fresh_dir b c p)) = dotdot_name) s.
Proof.
  intros Hrep Hc Hroot Hf. pose proof (rep_wf _ _ _ _ Hrep) as Hw.
  pose proof (w_vol _ _ Hw) as Hv. pose proof (csize_pos b Hv) as Hcs. pose proof (v_max _ Hv) as Hmax.
  pose proof (clusters_nonneg b Hv). pose proof (v_spc _ Hv) as Hspc. unfold in_vol in Hc.
  assert (Hlen : length (fresh_dir b c p) = length (zeros b)).
  { pose proof (zeros_len b Hv). apply length_splice; [lia|]. rewrite length_app, !length_dir_encode by done. simpl. lia. }
  pose proof (zeros_len b Hv) as Hz.
  assert (Hby : Forall byte (fresh_dir b c p)).
  { apply Forall_splice; [|apply zeros_byte]. apply Forall_app_2; apply dir_encode_byte; repeat constructor; done. }
  wp_step. unfold fat32_init_directory. wp_step. apply wp_gets.
  rewrite (w_bpb _ _ Hw), get_cluster_size_wf by done. wp_step.
  apply malloc_spec; [apply Hw | lia |]. intros s1 Hd1 Hg1. cbn [negb]. wp_step. wp_step.
  fold (zeros b). fold (fresh_dir b c p). wp_step.
  apply (write_cluster_spec s1 b fat data); [by eapply vol_rep_live | done | lia | done |].
  rewrite firstn_all2 by lia. intros s2 Hr2 Hg2. wp_step. apply free_spec. intros s3 Hd3 Hg3. wp_step.
  assert (Hr3 : vol_rep s3 b fat (fupd data c (fresh_dir b c p))) by (by eapply vol_rep_live).
  wp_step. unfold fat32_find_dir. wp_step. apply wp_gets. rewrite (w_bpb _ _ (rep_wf _ _ _ _ Hr3)).
  cbn [get_root_dir_cluster]. destruct (Z.ltb_spec c (BPB_RootClus b)); [lia|].
  wp_step. rewrite get_total_clusters_wf by done. unfold lift, wp at 1. cbn [obind].
  unwrap. destruct (Z.ltb_spec (clusters b + 2) c); [lia|].
  cbn [get_bytes_per_sector get_sectors_per_cluster]. rewrite (v_bps _ Hv). fold (csize b). unwrap.
  wp_step. apply malloc_spec; [apply Hr3 | lia |]. intros s4 Hd4 Hg4. cbn [negb].
  assert (Hr4 : vol_rep s4 b fat (fupd data c (fresh_dir b c p))) by (by eapply vol_rep_live).
  destruct fuel as [|fuel]; [lia|]. cbn [iter_fuel]. wp_step. rewrite (in_vol_valid b Hv c Hc). cbn [negb].
  wp_step. apply (read_cluster_spec s4 b fat _ c _ _ Hr4 Hc); [rewrite length_replicate; lia|].
  intros s5 Hs5. cbv beta iota. cbn [negb]. rewrite fupd_eq.
  rewrite fresh_dir_scan; [|done | apply Z.div_le_lower_bound; lia].
  wp_step. apply free_spec. intros s6 Hd6 Hg6. do 3 wp_step. split; [done|]. split.
  - eapply vol_rep_live; [by eapply vol_rep_same | done | exact Hg6].
  - destruct (fresh_dir_app b c p Hv) as [z ->].
    apply (entry_name _ (new_entry dotdot_name ATTR_DIRECTORY p 0) (0 :: z)); [|done].
    by rewrite length_dir_encode.
Qed.
End dotdot.

(** ** Pattern matching *)

(** What a pattern means: "*" stands for any string, "?" for any character,
    other characters for themselves up to case. *)
Inductive glob : list Z -> list Z -> Prop :=
  | glob_nil : glob [] []
  | glob_star_end p n : glob p n -> glob (42 :: p) n
  | glob_star_char p c n : glob (42 :: p) n -> glob (42 :: p) (c :: n)
  | glob_char x p c n :
      x <> 42 -> x = 63 \/ tolower (s8 x) = tolower (s8 c) -> glob p n -> glob (x :: p) (c :: n).

Fixpoint no_double_star (p : list Z) : bool :=
  match p with
  | [] => true
  | x :: p => (if x =? 42 then negb (bool_decide (head p = Some 42)) else true) && no_double_star p
  end.

Lemma glob_star p n : glob (42 :: p) n <-> exists k, glob p (drop k n) /\ (k <= length n)%nat.
Proof.
  split.
  - remember (42 :: p) as q eqn:Hq. induction 1 as [|p' n Hg IH|p' c n Hg IH|x p' c n Hx Hm Hg IH]; simplify_eq.
    + exists 0%nat. split; [done | lia].
    + destruct (IH eq_refl) as (k & Hk & Hl). exists (S k). simpl. split; [done | lia].
  - intros (k & Hk & Hl). revert n Hk Hl. induction k as [|k IH]; intros n Hk Hl; [by constructor|].
    destruct n as [|c n]; [simpl in Hl; lia|]. apply glob_star_char. apply IH; [done | simpl in Hl; lia].
Qed.

Lemma glob_empty_name p : glob p [] -> p = [] \/ exists p', p = 42 :: p'.
Proof. inversion 1; eauto. Qed.

(** C38: f_findfirst and f_findnext match names as patterns mean: for every
    pattern without two adjacent stars fat32_match_pattern accepts exactly the
    names the pattern stands for.  (With "**" at the end of a name the code
    refuses names the pattern stands for.) *)
Theorem fat32_match_pattern_glob pattern name :
  no_double_star pattern = true -> (fat32_match_pattern pattern name = true <-> glob pattern name).
Proof.
  revert name. induction pattern as [|x p IH]; intros name Hnd; simpl in Hnd.
  - destruct name; simpl; split; try done; [constructor | inversion 1].
  - apply andb_prop in Hnd as [Hx Hnd]. specialize (fun n => IH n Hnd).
    cbn [fat32_match_pattern]. destruct (Z.eqb_spec x 42) as [->|Hne].
    + apply negb_true_iff, bool_decide_eq_false in Hx.
      destruct p as [|y p]; [destruct name as [|c name]|].
      * split; [|done]. intros _. repeat constructor.
      * split; [|done]. intros _. apply glob_star. exists (length (c :: name)). rewrite drop_all. split; [constructor | lia].
      * simpl in Hx. rewrite glob_star.
        assert (Hmiss : ~ glob (y :: p) []) by (intros [?|[? [= -> _]]]%glob_empty_name; done).
        assert (Hany : forall n, ((fix any (name : list Z) : bool :=
          match name with [] => false | _ :: rest => fat32_match_pattern (y :: p) name || any rest end) n = true
          <-> exists k, glob (y :: p) (drop k n) /\ (k <= length n)%nat)).
        { induction n as [|c n IHn].
          - split; [done|]. intros (k & Hk & _). by rewrite drop_nil in Hk.
          - rewrite orb_true_iff, IH, IHn. split.
            + intros [Hg|(k & Hk & Hl)]; [exists 0%nat; split; [done | simpl; lia] | exists (S k); split; [done | simpl; lia]].
            + intros ([|k] & Hk & Hl); [by left | right; exists k; split; [done | simpl in Hl; lia]]. }
        destruct name as [|c name]; [|exact (Hany (c :: name))]. split; [done|]. intros (k & Hk & _). by rewrite drop_nil in Hk.
    + destruct name as [|c name].
      * split; [done|]. inversion 1; congruence.
      * destruct (Z.eqb_spec x 63), (Z.eqb_spec (tolower (s8 x)) (tolower (s8 c))); simpl;
          rewrite ?IH; (split; [|inversion 1; subst; intuition congruence]); intros Hg;
          try done; constructor; auto.
Qed.

(** ** Witnesses *)

Module DirWitness.
Import RamDisk SmallVol.

Lemma lfn_roundtrip_witness :
  exists ln, read_lfns false (lfn_entries (replicate 30 97) 7) no_name = Ret ln /\
    c_string ln = replicate 30 97.
Proof.
  apply (lfn_roundtrip (replicate 30 97) 7); [|rewrite length_replicate; lia].
  apply Forall_replicate. unfold char_ok. lia.
Defined.

Lemma lfn_overflow_witness : read_lfns false (lfn_entries (replicate 248 97) 7) no_name = Undef.
Proof. apply (lfn_overflow (replicate 248 97) 7). rewrite length_replicate. lia. Defined.

Lemma fat32_find_dotdot_fails_witness :
  wp (let! ok := fat32_init_directory 6 2 in
      let! r := fat32_find_dir 5 6 dotdot in ret (ok, r))
    (fun r s' => r = (true, None) /\
       vol_rep s' b (fat chain354) (fupd (data chain354) 6 (fresh_dir b 6 2)) /\
       DIR_Name (dir_decode 32 (fresh_dir b 6 2)) = dotdot_name) (SmallVol.st chain354 2).
Proof.
  apply (fat32_find_dotdot_fails (SmallVol.st chain354 2) b (fat chain354) (data chain354) 6 2 5);
    [apply st_rep | by vm_compute | by vm_compute | lia].
Defined.

(** "*.T?T" *)
Lemma fat32_match_pattern_glob_witness :
  fat32_match_pattern [42; 46; 84; 63; 84] [97; 46; 116; 120; 116] = true <->
  glob [42; 46; 84; 63; 84] [97; 46; 116; 120; 116].
Proof. apply (fat32_match_pattern_glob [42; 46; 84; 63; 84] [97; 46; 116; 120; 116]). reflexivity. Defined.
End DirWitness.
