(* ===== verification/FatMountProps.v ===== *)
(** Theorems about mounting and creating FAT32 volumes. *)
From S2P Require Import Prelude CString BlockDev FatBpb FatCluster FatMount FatChain FatChainProps FatDirProps.

Section label.
Context {E : Type} `{BlockDevLaws E} {Ar : Around}.
Implicit Types (s : fat_state E) (fat : Z -> Z) (data : Z -> list Z).






End label.

Section mount.
Context {E : Type} `{BlockDevLaws E}.
Implicit Types (s : fat_state E) (fat : Z -> Z) (data : Z -> list Z).



(** A boot sector that is not FAT32 is refused and the disk is left
    as it is: a sector size other than 512, or a zero FAT size, FAT count,
    cluster size or sector count. *)
Theorem fat32_mount_rejects s d lba label :
  let b := bpb_decode (sector (dev s) d lba) in
  reliable (dev s) -> 0 <= lba -> lba + 1 <= capacity (dev s) d ->
  BPB_BytsPerSec b <> 512 \/ BPB_FATSz32 b = 0 \/ BPB_NumFATs b = 0 \/ BPB_SecPerClus b = 0 \/
    BPB_TotSec32 b <= 0 ->
  returns (fat32_mount d lba label) s false (fun s' => dev_eq (dev s) (dev s')).
Proof.
  intros b Hrel Hlba Hcap Hbad. apply wp_returns.
  unfold fat32_mount, set_disk_number. wp_step. apply wp_modify. wp_step. apply wp_modify.
  wp_step. apply malloc_spec; [done | lia |]. intros s1 Hd1 Hg1. cbn [negb].
  assert (Hdn1 : disk_no s1 = d) by (unfold globals in Hg1; simpl in Hg1; congruence).
  pose proof Hd1 as (Hsec1 & Hcap1 & Hrel1). simpl in Hsec1, Hcap1, Hrel1.
  wp_step. apply read_sector_spec; [by apply Hrel1 | done | rewrite Hdn1, Hcap1; done |].
  intros s2 [Hd2 _]. cbv beta iota. rewrite Hdn1, Hsec1. fold b.
  assert (Hdev2 : dev_eq (dev s) (dev s2)) by (eapply dev_eq_trans; [exact Hd1 | done]).
  wp_step. apply wp_gets. wp_step. apply (wp_mono _ (fun ok s3 => ok = true /\ dev_eq (dev s) (dev s3))).
  { destruct (bpb s2); [by wp_step|]. apply malloc_spec; [apply Hdev2; done | lia |].
    intros s3 Hd3 _. split; [done | by eapply dev_eq_trans]. }
  intros ok s3 [-> Hd3]. cbn [negb]. wp_step. apply wp_modify. wp_step. apply wp_gets.
  wp_step. apply wp_modify. cbn [bpb set_bpb]. wp_step. unfold lift, wp at 1. cbn [obind get_total_no_fat].
  cbn [get_bytes_per_sector get_fat_size_in_sectors get_sectors_per_cluster get_total_sectors].
  destruct (Z.eqb_spec (BPB_BytsPerSec b) 512); cbn [negb]; [|by wp_step].
  destruct (Z.eqb_spec (BPB_FATSz32 b) 0); [by wp_step|]. destruct (Z.eqb_spec (BPB_NumFATs b) 0); [by wp_step|].
  destruct (Z.eqb_spec (BPB_SecPerClus b) 0); [by wp_step|].
  destruct (Z.leb_spec (BPB_TotSec32 b) 0); [by wp_step | lia].
Qed.
End mount.

(** ** Creating a volume *)

Section create.
Context {E : Type} `{BlockDevLaws E} {Ar : Around}.
Implicit Types (s : fat_state E).

(** [s'] is [s] with the [n] sectors from [lba] of its disk replaced. *)
Definition replaced s s' (lba n : Z) (f : Z -> list Z) : Prop :=
  (forall i, 0 <= i < n -> sector (dev s') (disk_no s) (lba + i) = f i) /\
  (forall d l, d <> disk_no s \/ l < lba \/ lba + n <= l -> sector (dev s') d l = sector (dev s) d l) /\
  (forall d, capacity (dev s') d = capacity (dev s) d) /\ reliable (dev s') /\
  disk_no s' = disk_no s.

Lemma wrote_replaced s s' lba n buf : wrote s s' lba n buf ->
  replaced s s' lba n (fun i => slice (i * 512) 512 buf).
Proof.
  intros (Hf & Hw & Hc & Hr & Hg). split; [done|]. split; [done|]. split; [done|]. split; [done|].
  unfold globals in Hg. congruence.
Qed.

Lemma replaced_dev s s1 s' lba n f : replaced s s1 lba n f -> dev_eq (dev s1) (dev s') ->
  disk_no s' = disk_no s1 -> replaced s s' lba n f.
Proof.
  intros (Hi & Ho & Hc & Hr & Hd) (Hs & Hc' & Hr') Hd'. split; [|split; [|split; [|split]]].
  - intros i Hin. rewrite Hs. by apply Hi.
  - intros d l Hl. rewrite Hs. by apply Ho.
  - intros d. by rewrite Hc'.
  - auto.
  - congruence.
Qed.

Lemma dev_replaced s s1 s' lba n f : dev_eq (dev s) (dev s1) -> disk_no s1 = disk_no s ->
  replaced s1 s' lba n f -> replaced s s' lba n f.
Proof.
  intros (Hs & Hc & Hr0) Hd (Hi & Ho & Hc' & Hr & Hd'). rewrite Hd in *. split; [done|].
  split; [intros d l Hl; rewrite Ho by done; apply Hs|]. split; [intros d; by rewrite Hc'|].
  split; [done | congruence].
Qed.

Definition zero_sector : list Z := replicate 512 0.

(** The sectors of a FAT after initialisation. *)
Definition fresh_fat (i : Z) : list Z := if i =? 0 then first_fat_sector_image else zero_sector.

Lemma zero_fat_loop_spec s0 s fat_start n fuel (Q : bool -> fat_state E -> Prop) :
  replaced s0 s fat_start 1 fresh_fat -> 0 <= fat_start -> 0 < n < 4294967296 ->
  fat_start + n < 18446744073709551616 ->
  fat_start + n <= capacity (dev s0) (disk_no s0) -> n < Z.of_nat fuel ->
  (forall s', replaced s0 s' fat_start n fresh_fat -> Q true s') ->
  wp (zero_fat_loop fuel fat_start n) Q s.
Proof.
  intros Hrep Hfs Hn H64 Hcap Hfuel HQ. unfold zero_fat_loop.
  apply (wp_iter (fun w s1 => 0 < w <= n /\ replaced s0 s1 fat_start w fresh_fat)
    (fun w _ => Z.to_nat (n - w))); [|split; [lia | done] | lia].
  intros w s1 [Hw (Hi & Ho & Hc & Hr & Hd)]. case_if.
  - unwrap. set (k := if 64 <? n - w then 64 else n - w).
    assert (Hk : 0 < k <= 64 /\ w + k <= n) by (unfold k; case_if; lia). unwrap.
    wp_step. apply write_sectors_spec; [done | lia | lia | rewrite Hd, Hc; lia | apply zeros_byte |
      rewrite length_replicate; lia |].
    intros s2 (Hf2 & Hw2 & Hc2 & Hr2 & Hg2). cbn [negb]. wp_step. rewrite Hd in Hf2, Hw2.
    split; [|lia]. split; [lia|]. split; [|split; [|split; [|split]]].
    + intros i Hin. destruct (decide (i < w)).
      * rewrite Hf2 by lia. apply Hi. lia.
      * replace (fat_start + i) with (fat_start + w + (i - w)) by lia. rewrite Hw2 by lia.
        unfold fresh_fat. rewrite (proj2 (Z.eqb_neq i 0)) by lia. apply slice_replicate; lia.
    + intros d l Hl. rewrite Hf2 by lia. apply Ho. lia.
    + intros d. by rewrite Hc2.
    + done.
    + unfold globals in Hg2. congruence.
  - wp_step. apply free_spec. intros s2 Hd2 Hg2. wp_step. apply HQ.
    assert (w = n) as -> by lia. eapply replaced_dev; [by split | done |].
    unfold globals in Hg2. simpl in Hg2. congruence.
Qed.

Lemma initialize_fat_tables_spec s fat_start n fuel (Q : bool -> fat_state E -> Prop) :
  reliable (dev s) -> 0 <= fat_start -> 0 < n < 4294967296 ->
  fat_start + n < 18446744073709551616 ->
  fat_start + n <= capacity (dev s) (disk_no s) -> n < Z.of_nat fuel ->
  (forall s', replaced s s' fat_start n fresh_fat -> Q true s') ->
  wp (initialize_fat_tables fuel fat_start n) Q s.
Proof.
  intros Hrel Hfs Hn H64 Hcap Hfuel HQ. unfold initialize_fat_tables. wp_step.
  apply malloc_spec; [done | lia |]. intros s1 Hd1 Hg1. cbn [negb].
  assert (Hn1 : disk_no s1 = disk_no s) by (unfold globals in Hg1; simpl in Hg1; congruence).
  pose proof Hd1 as (_ & Hc1 & Hr1). wp_step.
  apply write_sector_spec; [auto | lia | rewrite Hn1, Hc1; lia | | done |].
  { unfold first_fat_sector_image. apply Forall_app_2; [repeat constructor; done | apply zeros_byte]. }
  intros s2 Hw2. cbn [negb]. wp_step. apply free_spec. intros s3 Hd3 Hg3. wp_step.
  apply wrote_replaced in Hw2.
  assert (Hrep : replaced s s3 fat_start 1 fresh_fat).
  { eapply dev_replaced; [exact Hd1 | done |]. eapply replaced_dev; [| exact Hd3 | unfold globals in Hg3; simpl in Hg3; congruence].
    destruct Hw2 as (Hi & Hrest). split; [|done]. intros i Hi0. rewrite Hi by done. assert (i = 0) as -> by lia. done. }
  pose proof Hrep as (_ & _ & Hc3 & Hr3 & _).
  apply malloc_spec; [done | lia |]. intros s4 Hd4 Hg4. cbn [negb].
  apply (zero_fat_loop_spec s); try done. eapply replaced_dev; [exact Hrep | done |].
  unfold globals in Hg4. simpl in Hg4. congruence.
Qed.

(** Geometry of the volume create_fat32_volume lays out. *)
Lemma create_geometry sectors start : 100 <= sectors < 4294967296 -> 0 <= start < 4294967296 ->
  exists b, create_bpb_fat32 sectors (choose_sectors_per_cluster sectors) start = Ret b /\
    BPB_RsvdSecCnt b = 32 /\ BPB_NumFATs b = 2 /\ BPB_RootClus b = 2 /\
    BPB_SecPerClus b = choose_sectors_per_cluster sectors /\
    0 < BPB_FATSz32 b /\ 32 + 2 * BPB_FATSz32 b <= sectors /\ bpb_ranges b.
Proof.
  intros Hs Hst. set (spc := choose_sectors_per_cluster sectors).
  assert (Hspc : 0 < spc <= 16 /\ (sectors - 32) / spc * 4 < 4294967296 - 512).
  { unfold spc, choose_sectors_per_cluster. repeat case_if; (split; [lia|]).
    - rewrite Z.div_1_r. lia.
    - pose proof (Z.mul_div_le (sectors - 32) 2). lia.
    - pose proof (Z.mul_div_le (sectors - 32) 4). lia.
    - pose proof (Z.mul_div_le (sectors - 32) 16). lia. }
  destruct Hspc as [Hspc Hb4].
  assert (Hfs : forall t, 0 <= t <= (sectors - 32) / spc -> fat_sectors_for t = (t * 4 + 511) / 512).
  { intros t Ht. unfold fat_sectors_for. by unwrap. }
  assert (Hf : forall t, 0 <= t <= (sectors - 32) / spc -> 128 * fat_sectors_for t <= t + 127 /\ 0 <= fat_sectors_for t /\ t <= 128 * fat_sectors_for t).
  { intros t Ht. rewrite Hfs by done. pose proof (Z.div_mod (t * 4 + 511) 512). pose proof (Z.mod_pos_bound (t * 4 + 511) 512). lia. }
  pose proof (Z.mul_div_le (sectors - 32) spc ltac:(lia)) as Hm.
  assert (Ht0 : 0 <= (sectors - 32) / spc) by (apply Z.div_pos; lia).
  unfold create_bpb_fat32. rewrite (u32_small (sectors - 32)) by lia. unfold udiv.
  rewrite (proj2 (Z.eqb_neq spc 0)) by lia. cbn [obind].
  destruct (Hf _ (conj Ht0 (Z.le_refl _))) as (Hf1 & Hf1' & _). set (f1 := fat_sectors_for ((sectors - 32) / spc)) in *.
  assert (Hd1 : (sectors - 32) / spc <= sectors - 32) by nia.
  unwrap. set (t2 := (sectors - 32 - 2 * f1) / spc).
  assert (Ht2 : 0 < t2 <= (sectors - 32) / spc).
  { unfold t2. split; [|apply Z.div_le_mono; lia].
    assert (1 <= (sectors - 32 - 2 * f1) / spc); [|lia]. apply Z.div_le_lower_bound; lia. }
  destruct (Hf t2 ltac:(lia)) as (Hf2 & Hf2' & Hf2'').
  eexists. split; [done|]. cbn [BPB_RsvdSecCnt BPB_NumFATs BPB_RootClus BPB_SecPerClus BPB_FATSz32].
  repeat (split; [done || lia|]).
  constructor; unfold fits; simpl; try lia; split; done || (by repeat constructor) || apply zeros_byte.
Qed.

Lemma bpb_encode_byte b : bpb_ranges b -> Forall byte (bpb_encode b).
Proof.
  intros Hr. unfold bpb_encode. repeat apply Forall_app_2; try apply le_bytes_byte; apply Hr.
Qed.

(** C36: Creating a volume of at least 100 sectors writes the boot sector
    and the FSInfo sector and initialises both FATs: the root cluster is
    marked as a chain of one, every other entry of the FATs is free.  The
    step meant to clear the root directory clears the [sectors per cluster]
    sectors from [start + 2] on instead of those of the root cluster, which
    keep what the disk held: volumes of 524288 sectors and more (16 sectors
    per cluster) lose the backup boot sector at [start + 6] that was written
    just before, smaller ones keep it.  No other sector of any disk
    changes. *)
Theorem create_fat32_volume_ok s start sectors fuel :
  reliable (dev s) -> 0 <= start -> 100 <= sectors -> start + sectors < 4294967296 ->
  start + sectors <= capacity (dev s) (disk_no s) -> sectors < Z.of_nat fuel ->
  exists b s', create_fat32_volume fuel start sectors s = Ret (true, s') /\
    create_bpb_fat32 sectors (choose_sectors_per_cluster sectors) start = Ret b /\
    (let sec := sector (dev s') (disk_no s) in
      sec start = bpb_encode b /\
      sec (start + 1) = fsinfo_encode create_fsinfo_sector /\
      sec (start + 6) = (if sectors <? 524288 then bpb_encode b else zero_sector) /\
      (forall i k, 0 <= i < 2 -> 0 <= k < BPB_FATSz32 b ->
         sec (start + 32 + i * BPB_FATSz32 b + k) = fresh_fat k) /\
      (forall i, 2 <= i < 2 + choose_sectors_per_cluster sectors -> sec (start + i) = zero_sector) /\
      (forall d l, d <> disk_no s \/ l < start \/ start + 32 + 2 * BPB_FATSz32 b <= l \/
         (start + 2 + choose_sectors_per_cluster sectors <= l < start + 32 /\ l <> start + 6) ->
         sector (dev s') d l = sector (dev s) d l)).
Proof.
  intros Hrel Hst Hsec H32 Hcap Hfuel.
  destruct (create_geometry sectors start) as (b & Hb & Hrsv & Hnf & Hroot & Hspc & Hf0 & Hf & Hrng); [lia | lia |].
  assert (Hspcb : 1 <= choose_sectors_per_cluster sectors <= 16 /\ (sectors < 524288 -> choose_sectors_per_cluster sectors <= 4) /\ (524288 <= sectors -> choose_sectors_per_cluster sectors = 16))
    by (unfold choose_sectors_per_cluster; repeat case_if; lia).
  destruct Hspcb as (Hspcb & Hsmall & Hbig).
  pose proof (length_bpb_encode b Hrng) as Hbl. pose proof (bpb_encode_byte b Hrng) as Hbb.
  assert (Hfl : length (fsinfo_encode create_fsinfo_sector) = 512%nat) by done.
  assert (Hfb : Forall byte (fsinfo_encode create_fsinfo_sector)) by (unfold fsinfo_encode; repeat apply Forall_app_2; auto using le_bytes_byte, zeros_byte).
  set (F := BPB_FATSz32 b) in *.
  assert (Hw : wp (create_fat32_volume fuel start sectors) (fun r s' => r = true /\
    exists s1 s2 s3 s4 s5, replaced s s1 start 1 (fun _ => bpb_encode b) /\
      replaced s1 s2 (start + 6) 1 (fun _ => bpb_encode b) /\
      replaced s2 s3 (start + 1) 1 (fun _ => fsinfo_encode create_fsinfo_sector) /\
      replaced s3 s4 (start + 32) F fresh_fat /\ replaced s4 s5 (start + 32 + F) F fresh_fat /\
      replaced s5 s' (start + 2) (choose_sectors_per_cluster sectors) (fun _ => zero_sector)) s).
  { assert (Hone : forall s0 s1 lba buf, length buf = 512%nat -> wrote s0 s1 lba 1 buf -> replaced s0 s1 lba 1 (fun _ => buf)).
    { intros s0 s1 lba buf Hl Hw. apply wrote_replaced in Hw as (Hi & Hr). split; [|done]. intros i Hi0.
      rewrite Hi by done. assert (i = 0) as -> by lia. apply slice_all. lia. }
    unfold create_fat32_volume. wp_step. apply malloc_spec; [done | lia |]. intros s1 Hd1 Hg1. cbn [negb].
    wp_step. rewrite Hb. unfold lift, wp at 1. cbn [obind]. wp_step. apply wp_modify. wp_step.
    assert (Hn1 : disk_no s1 = disk_no s) by (unfold globals in Hg1; simpl in Hg1; congruence).
    apply write_sector_spec; [apply Hd1; done | lia | simpl; rewrite Hn1, (proj1 (proj2 Hd1)); lia | done | done |].
    intros s2 Hw2. cbn [negb]. apply (Hone _ _ _ _ Hbl) in Hw2.
    apply (dev_replaced s (set_bpb (Some b) s1)) in Hw2; [|exact Hd1 | exact Hn1].
    pose proof Hw2 as (_ & _ & Hc2 & Hr2 & Hn2). wp_step. unwrap.
    apply write_sector_spec; [done | lia | rewrite Hn2, Hc2; lia | done | done |].
    intros s3 Hw3. cbn [negb]. apply (Hone _ _ _ _ Hbl) in Hw3. pose proof Hw3 as (_ & _ & Hc3 & Hr3 & Hn3).
    wp_step. apply malloc_spec; [done | lia |]. intros s4 Hd4 Hg4. cbn [negb]. wp_step.
    assert (Hn4 : disk_no s4 = disk_no s3) by (unfold globals in Hg4; simpl in Hg4; congruence).
    apply write_sector_spec; [apply Hd4; done | lia | rewrite Hn4, (proj1 (proj2 Hd4)), Hn3, Hc3, Hn2, Hc2; lia | done | done |].
    intros s5 Hw5. cbn [negb]. apply (Hone _ _ _ _ Hfl) in Hw5.
    apply (replaced_dev s2 s3 s4) in Hw3; [|done | done].
    wp_step. apply free_spec. intros s6 Hd6 Hg6.
    apply (replaced_dev s4 s5 s6) in Hw5; [|done | unfold globals in Hg6; simpl in Hg6; congruence].
    pose proof Hw3 as (_ & _ & Hc4 & Hr4 & Hn4'). pose proof Hw5 as (_ & _ & Hc6 & Hr6 & Hn6).
    rewrite Hnf, Hrsv. change (Z.to_nat 2) with 2%nat. cbn [for_range]. fold F. cbv zeta.
    do 3 wp_step. change (0 * F) with 0. unwrap. rewrite Z.add_0_r.
    apply (initialize_fat_tables_spec s6); try done; try lia; [rewrite Hn6, Hc6, Hn4', Hc4, Hn2, Hc2; lia|].
    intros s7 Hw7. wp_step. pose proof Hw7 as (_ & _ & Hc7 & Hr7 & Hn7). do 2 wp_step.
    replace ((0 + 1) * F) with F by lia.
    apply (initialize_fat_tables_spec s7); try done; try lia; [rewrite Hn7, Hc7, Hn6, Hc6, Hn4', Hc4, Hn2, Hc2; lia|].
    intros s8 Hw8. do 2 wp_step. pose proof Hw8 as (_ & _ & Hc8 & Hr8 & Hn8). rewrite Hroot, Hspc.
    apply write_sectors_spec; [done | lia | lia | rewrite Hn8, Hc8, Hn7, Hc7, Hn6, Hc6, Hn4', Hc4, Hn2, Hc2; lia |
      apply zeros_byte | rewrite length_replicate; lia |].
    intros s9 Hw9. split; [done|]. apply wrote_replaced in Hw9.
    exists s2, s4, s6, s7, s8. repeat (split; [done|]).
    destruct Hw9 as (Hi & Hr9). split; [|done]. intros i Hi0. rewrite Hi by done. apply slice_replicate; lia. }
  apply wp_run in Hw as (r & s' & Hrun & -> & s1 & s2 & s3 & s4 & s5 & H1 & H2 & H3 & H4 & H5 & H6).
  exists b, s'. split; [done|]. split; [done|]. intros sec. unfold sec.
  destruct H1 as (Hi1 & Ho1 & _ & _ & Hn1). destruct H2 as (Hi2 & Ho2 & _ & _ & Hn2).
  destruct H3 as (Hi3 & Ho3 & _ & _ & Hn3). destruct H4 as (Hi4 & Ho4 & _ & _ & Hn4).
  destruct H5 as (Hi5 & Ho5 & _ & _ & Hn5). destruct H6 as (Hi6 & Ho6 & _ & _ & Hn6).
  rewrite Hn5, Hn4, Hn3, Hn2, Hn1 in Hi6, Ho6. rewrite Hn4, Hn3, Hn2, Hn1 in Hi5, Ho5.
  rewrite Hn3, Hn2, Hn1 in Hi4, Ho4. rewrite Hn2, Hn1 in Hi3, Ho3. rewrite Hn1 in Hi2, Ho2.
  split; [|split; [|split; [|split; [|split]]]].
  - rewrite Ho6, Ho5, Ho4, Ho3, Ho2 by lia. specialize (Hi1 0). rewrite Z.add_0_r in Hi1. apply Hi1. lia.
  - rewrite Ho6, Ho5, Ho4 by lia. specialize (Hi3 0). rewrite Z.add_0_r in Hi3. apply Hi3. lia.
  - case_if.
    + rewrite Ho6, Ho5, Ho4, Ho3 by lia. specialize (Hi2 0). rewrite Z.add_0_r in Hi2. apply Hi2. lia.
    + replace (start + 6) with (start + 2 + 4) by lia. apply Hi6. lia.
  - fold F. intros i k Hi Hk. rewrite Ho6 by nia. assert (i = 0 \/ i = 1) as [-> | ->] by lia.
    + rewrite Ho5 by lia. replace (start + 32 + 0 * F + k) with (start + 32 + k) by lia. by apply Hi4.
    + replace (start + 32 + 1 * F + k) with (start + 32 + F + k) by lia. by apply Hi5.
  - intros i Hi. replace (start + i) with (start + 2 + (i - 2)) by lia. apply Hi6. lia.
  - fold F. intros d l Hl. rewrite Ho6, Ho5, Ho4, Ho3, Ho2, Ho1 by lia. done.
Qed.

(** The FAT that create_bpb_fat32 lays out can be too small for the
    volume: with 164 sectors of one sector per cluster it has 128 entries,
    but the driver then finds 130 data clusters, which need 132. *)
Theorem create_bpb_fat_too_small : exists b,
  create_bpb_fat32 164 1 0 = Ret b /\ clusters b = 130 /\ BPB_FATSz32 b * 512 / 4 = 128 /\
  get_total_clusters (Some b) = Ret 130.
Proof. eexists. repeat split. Qed.
End create.

Module MountWitness.
Import RamDisk SmallVol.

(** The small volume with its boot sector on disk 0. *)
Definition boot_disk : ram := mk_ram {[ (0, 0) := bpb_encode b ]} 64 true.
Definition s0 : fat_state ram := mk_fs boot_disk 5 None 0 0 2 0.
Definition label : list Z := replicate 11 65.



(** A blank disk is refused. *)
Lemma fat32_mount_rejects_witness :
  returns (fat32_mount 0 3 label) s0 false (fun s' => dev_eq (dev s0) (dev s')).
Proof.
  apply (fat32_mount_rejects s0 0 3 label); [done | lia | vm_compute; congruence|].
  left. vm_compute. congruence.
Defined.

Lemma create_fat32_volume_witness :
  exists s', create_fat32_volume (Z.to_nat 201) 4 200 (mk_fs (mk_ram ∅ 300 true) 0 None 0 0 2 0) = Ret (true, s') /\
    bpb_decode (sector (dev s') 0 4) = bpb_decode (sector (dev s') 0 10).
Proof.
  destruct (create_fat32_volume_ok (mk_fs (mk_ram ∅ 300 true) 0 None 0 0 2 0) 4 200 (Z.to_nat 201))
    as (b' & s' & Hrun & _ & Hs).
  - done.
  - lia.
  - lia.
  - lia.
  - vm_compute. congruence.
  - lia.
  - exists s'. split; [exact Hrun|]. destruct Hs as (H1 & _ & H6 & _).
    cbv zeta in H1, H6. change (4 + 6) with 10 in H6. cbn [disk_no] in H1, H6.
    etransitivity; [exact (f_equal bpb_decode H1) | exact (f_equal bpb_decode (eq_sym H6))].
Defined.
End MountWitness.
