(* ===== verification/Serial.v ===== *)
(** The serial line (kernel/src/driver/io/serial.c): output through the port,
    with a log of what was sent.

    [serial_log] is the 8192-byte static buffer; [port_env] is the environment
    behind the ports.  The wait for the transmitter takes fuel. *)
From S2P Require Import Prelude CString Stdio Ports.

Definition SERIAL_LOG_SIZE : Z := 8192.
Definition COM1 : Z := 0x3F8.

Record serial (E : Type) := mk_serial { port_env : E; serial_log : list Z; serial_log_index : Z }.
Arguments mk_serial {E}.
Arguments port_env {E}.
Arguments serial_log {E}.
Arguments serial_log_index {E}.

Section serial.
Context {E : Type} `{Ports E}.
Abbreviation st := (serial E).

Definition on_ports {A} (k : M E A) : M st A := fun s =>
  obind (k (port_env s)) (fun '(a, e) => Ret (a, mk_serial e (serial_log s) (serial_log_index s))).

Definition set_log (i c : Z) : M st unit :=
  let! l := gets serial_log in
  guard ((0 <=? i) && (i <? zlen l)) ;;;
  modify (fun s => mk_serial (port_env s) (<[Z.to_nat i := u8 c]> (serial_log s)) (serial_log_index s)).
Definition set_log_index (i : Z) : M st unit :=
  modify (fun s => mk_serial (port_env s) (serial_log s) i).

(** The buffer the result points to. *)
Definition get_serial_log : M st (list Z) :=
  let! i := gets serial_log_index in
  (if SERIAL_LOG_SIZE <=? i then set_log_index (SERIAL_LOG_SIZE - 1) else ret tt) ;;;
  let! i := gets serial_log_index in
  set_log i 0 ;;;
  gets serial_log.

Definition serial_init : M st unit :=
  on_ports (outb (COM1 + 1) 0x00) ;;;
  on_ports (outb (COM1 + 3) 0x80) ;;;
  on_ports (outb (COM1 + 0) 0x03) ;;;
  on_ports (outb (COM1 + 1) 0x00) ;;;
  on_ports (outb (COM1 + 3) 0x03) ;;;
  on_ports (outb (COM1 + 2) 0xC7) ;;;
  on_ports (outb (COM1 + 4) 0x0B).

Definition serial_putchar (fuel : nat) (c : Z) : M st unit :=
  iter_fuel fuel (fun _ : unit =>
    let! v := on_ports (inb (COM1 + 5)) in
    if Z.land v 0x20 =? 0 then ret (inl tt) else ret (inr tt)) tt ;;;
  on_ports (outb COM1 (u8 c)) ;;;
  let! i := gets serial_log_index in
  if i <? SERIAL_LOG_SIZE - 1 then
    set_log i c ;;;
    set_log_index (i + 1) ;;;
    let! i := gets serial_log_index in
    set_log i 0
  else ret tt.

Definition serial_print (fuel : nat) (m : gmap Z Z) (str : Z) : M st unit :=
  iter_fuel fuel (fun str =>
    let! c := rd m str in
    if negb (c =? 0) then serial_putchar fuel c ;;; ret (inl (str + 1)) else ret (inr tt)) str.

(** A string in a local buffer or a literal. *)
Definition serial_chars (fuel : nat) (l : list Z) : M st unit :=
  foldM (fun _ c => serial_putchar fuel c) l tt.

Definition serial_clearchar (fuel : nat) : M st unit :=
  serial_putchar fuel 8 ;;;
  serial_putchar fuel 32 ;;;
  serial_putchar fuel 8.

(** [buffer] is filled from its end; the list is what stands behind [i]. *)
Definition serial_print_hex (fuel : nat) (num : Z) : M st unit :=
  let '(buffer, _) := fold_left (fun '(buffer, num) _ =>
      (char_of hex_upper (Z.land num 0xF) :: buffer, Z.shiftr num 4)) (seq 0 16) ([], num) in
  serial_chars fuel [48; 120] ;;;
  serial_chars fuel buffer.

Definition serial_print_dec (fuel : nat) (num : Z) : M st unit :=
  if num =? 0 then serial_chars fuel [48] else
  let negative := num <? 0 in
  (if negative then guard (negb (num =? LONG_MIN)) else ret tt) ;;;
  let num := if negative then - num else num in
  let! buffer := iter_fuel 21 (fun '(buffer, num) =>
    if 0 <? num then
      guard (zlen buffer <? 20) ;;; ret (inl ((48 + num mod 10) :: buffer, num / 10))
    else ret (inr buffer)) ([], num) in
  (if negative then guard (zlen buffer <? 20) else ret tt) ;;;
  serial_chars fuel (if negative then 45 :: buffer else buffer).

Definition serial_print_bin (fuel : nat) (num : Z) : M st unit :=
  let '(buffer, _) := fold_left (fun '(buffer, num) _ =>
      ((if Z.land num 1 =? 0 then 48 else 49) :: buffer, Z.shiftr num 1)) (seq 0 64) ([], num) in
  serial_chars fuel [48; 98] ;;;
  serial_chars fuel buffer.

Definition SERIAL_PRINTF_BUF : Z := 1024.

(** [buf] is the address of the local buffer in the memory [m]. *)
Definition serial_printf (fuel : nat) (m : cmem) (buf fmt : Z) (args : va_list) : M st unit :=
  let! '(_, m) := lift (vsnprintf fuel buf SERIAL_PRINTF_BUF fmt args m) in
  serial_print fuel (mem m) buf.
End serial.
