(* ===== verification/Vga.v ===== *)
(** Drawing in the frame buffer (kernel/src/driver/vga/vga.c).

    The frame buffer is a map of its 32-bit pixels, by their index from
    [fb0_address]; an access to a pixel outside it, or to an address that is
    not a multiple of four from the start, is undefined, and so is an overflow
    of int.  NULL is [None].  Numbers of the frame buffer are 64 bits wide,
    coordinates are int. *)
From S2P Require Import Prelude CString CStdlib Stdio.

Record fbuf := mk_fb {
  fb0_address : option (gmap Z Z); fb0_width : Z; fb0_height : Z; fb0_pitch : Z
}.

(** Arithmetic of int. *)
Definition int_op {S} (z : Z) : M S Z := guard ((INT_MIN <=? z) && (z <=? INT_MAX)) ;;; ret z.

Section vga.
Abbreviation st := fbuf.

(** [fb0_address[i]]; an index of 64 bits wraps around the address space. *)
Definition ld_pix (i : Z) : M st Z := fun s =>
  match fb0_address s with
  | Some m => match m !! s64 i with Some v => Ret (v, s) | None => Undef end
  | None => Undef
  end.
Definition st_pix (i color : Z) : M st unit := fun s =>
  match fb0_address s with
  | Some m =>
      match m !! s64 i with
      | Some _ => Ret (tt, mk_fb (Some (<[s64 i := u32 color]> m)) (fb0_width s) (fb0_height s) (fb0_pitch s))
      | None => Undef
      end
  | None => Undef
  end.

Definition off_screen (x y : Z) : M st bool :=
  gets (fun s => (x <? 0) || (fb0_width s <=? x) || (y <? 0) || (fb0_height s <=? y)).

(** The pixel at [y * fb0_pitch + x * 4] bytes. *)
Definition pixel_index (x y : Z) : M st Z :=
  let! pitch := gets fb0_pitch in
  let! x4 := int_op (x * 4) in
  let off := u64 (y * pitch) + x4 in
  guard (off mod 4 =? 0) ;;; ret (off / 4).

Definition set_pixel (x y color : Z) : M st unit :=
  let! off := off_screen x y in
  if off then ret tt else
  let! i := pixel_index x y in st_pix i color.

Definition get_pixel (x y : Z) : M st Z :=
  let! off := off_screen x y in
  if off then ret 0 else
  let! i := pixel_index x y in ld_pix i.

Definition cls_color (color : Z) : M st unit :=
  let! h := gets fb0_height in
  repeat_n h (fun y =>
    let! w := gets fb0_width in
    repeat_n w (fun x => set_pixel (s32 x) (s32 y) color)).

Definition draw_line (fuel : nat) (x1 y1 x2 y2 color : Z) : M st unit :=
  let! d := int_op (x2 - x1) in let! dx := lift (abs d) in
  let! d := int_op (y2 - y1) in let! dy := lift (abs d) in
  let sx := if x1 <? x2 then 1 else -1 in
  let sy := if y1 <? y2 then 1 else -1 in
  let! err := int_op (dx - dy) in
  iter_fuel fuel (fun '(x1, y1, err) =>
    set_pixel x1 y1 color ;;;
    if (x1 =? x2) && (y1 =? y2) then ret (inr tt) else
    let! e2 := int_op (2 * err) in
    let! '(err, x1) :=
      (if - dy <? e2 then
         let! err := int_op (err - dy) in let! x1 := int_op (x1 + sx) in ret (err, x1)
       else ret (err, x1)) in
    let! '(err, y1) :=
      (if e2 <? dx then
         let! err := int_op (err + dx) in let! y1 := int_op (y1 + sy) in ret (err, y1)
       else ret (err, y1)) in
    ret (inl (x1, y1, err))) (x1, y1, err).

(** Rows are taken to be [fb0_width] pixels apart. *)
Definition draw_vertical_line (x y length color : Z) : M st unit :=
  let! _ := int_op (y + length) in
  repeat_n length (fun k =>
    let! w := gets fb0_width in st_pix (u64 ((y + k) * w + x)) color).

Definition draw_horizontal_line (x y length color : Z) : M st unit :=
  let! _ := int_op (x + length) in
  repeat_n length (fun k =>
    let! w := gets fb0_width in st_pix (u64 (y * w + (x + k))) color).

Definition draw_rectangle (x y width height color : Z) : M st unit :=
  draw_horizontal_line x y width color ;;;
  let! b := int_op (y + height) in
  draw_horizontal_line x b width color ;;;
  draw_vertical_line x y height color ;;;
  let! r := int_op (x + width) in
  draw_vertical_line r y height color.

Definition draw_filled_rectangle (x y width height color : Z) : M st unit :=
  let! _ := int_op (y + height) in
  repeat_n height (fun i =>
    let! _ := int_op (x + width) in
    repeat_n width (fun j => set_pixel (x + j) (y + i) color)).

(** The eight points of a circle that mirror [(x, y)]. *)
Definition circle_points (cx cy x y : Z) : list (Z * Z) :=
  [(cx + x, cy + y); (cx - x, cy + y); (cx + x, cy - y); (cx - x, cy - y);
   (cx + y, cy + x); (cx - y, cy + x); (cx + y, cy - x); (cx - y, cy - x)].

Definition plot_points (l : list (Z * Z)) (color : Z) : M st unit :=
  foldM (fun _ '(x, y) =>
    let! x := int_op x in let! y := int_op y in set_pixel x y color) l tt.

Definition draw_circle (fuel : nat) (center_x center_y radius color : Z) : M st unit :=
  let! decision := int_op (1 - radius) in
  iter_fuel fuel (fun '(x, y, decision) =>
    if y <=? x then
      plot_points (circle_points center_x center_y x y) color ;;;
      let! y := int_op (y + 1) in
      if decision <=? 0 then
        let! decision := int_op (decision + (2 * y + 1)) in ret (inl (x, y, decision))
      else
        let! x := int_op (x - 1) in
        let! decision := int_op (decision + (2 * (y - x) + 1)) in ret (inl (x, y, decision))
    else ret (inr tt)) (radius, 0, decision).

Definition draw_filled_circle (center_x center_y radius color : Z) : M st unit :=
  repeat_n (2 * radius + 1) (fun j =>
    let y := j - radius in
    repeat_n (2 * radius + 1) (fun i =>
      let x := i - radius in
      let! d := int_op (x * x + y * y) in
      let! r := int_op (radius * radius) in
      if d <=? r then
        let! px := int_op (center_x + x) in let! py := int_op (center_y + y) in
        set_pixel px py color
      else ret tt)).

Definition draw_triangle (fuel : nat) (x1 y1 x2 y2 x3 y3 color : Z) : M st unit :=
  draw_line fuel x1 y1 x2 y2 color ;;;
  draw_line fuel x2 y2 x3 y3 color ;;;
  draw_line fuel x3 y3 x1 y1 color.

Definition draw_gradient (start_color end_color : Z) : M st unit :=
  let! h := gets fb0_height in
  repeat_n h (fun y =>
    let color := u32 (start_color + u64 (y * (u64 (end_color - start_color) / h))) in
    let! w := gets fb0_width in
    repeat_n w (fun x => set_pixel (s32 x) (s32 y) color)).

(** The images are arrays of 64-bit words. *)
Definition image_at (image_data : list Z) (i : Z) : M st Z :=
  if 0 <=? i then match image_data !! Z.to_nat i with Some c => ret (u32 c) | None => undef end
  else undef.

Definition display_image (x y : Z) (image_data : list Z) (img_width img_height : Z) : M st unit :=
  repeat_n img_height (fun i =>
    repeat_n img_width (fun j =>
      let! k := int_op (i * img_width + j) in
      let! color := image_at image_data k in
      let! px := int_op (x + j) in let! py := int_op (y + i) in
      set_pixel px py color)).

Definition draw_image_with_transparency (x y : Z) (image_data : list Z) (img_width img_height : Z) :
    M st unit :=
  repeat_n img_height (fun row =>
    repeat_n img_width (fun col =>
      let! k := int_op (row * img_width + col) in
      let! color := image_at image_data k in
      if negb (color =? 0) then
        let! px := int_op (x + col) in let! py := int_op (y + row) in
        set_pixel px py color
      else ret tt)).
End vga.

(** ** framebuffer.c: the answer of the boot loader *)

Record limine_framebuffer := mk_lfb {
  fb_address : gmap Z Z; fb_width : Z; fb_height : Z; fb_pitch : Z; fb_bpp : Z; fb_edid_size : Z
}.
Record limine_framebuffer_response := mk_lfr { revision : Z; framebuffers : list limine_framebuffer }.

Section framebuffer.
(** Whether the boot loader supports the base revision, and its answer. *)
Context (supported : bool) (response : option limine_framebuffer_response).

Definition usable_response : option limine_framebuffer_response :=
  match response with
  | Some r => if supported && (1 <=? zlen (framebuffers r)) then Some r else None
  | None => None
  end.

Definition init_framebuffer {S} : M S limine_framebuffer :=
  match usable_response with
  | Some r => match framebuffers r !! 0%nat with Some f => ret f | None => undef end
  | None => halt
  end.
Definition get_fb_revision : Z := match usable_response with Some r => revision r | None => 0 end.
Definition get_fb_count : Z := match usable_response with Some r => zlen (framebuffers r) | None => 0 end.
Definition get_all_fb_ptr : option (list limine_framebuffer) := framebuffers <$> usable_response.
Definition get_first_fb_ptr : option limine_framebuffer :=
  match usable_response with Some r => framebuffers r !! 0%nat | None => None end.
Definition get_fb0_address : option (gmap Z Z) := fb_address <$> get_first_fb_ptr.
Definition get_fb0_width : Z := match get_first_fb_ptr with Some f => fb_width f | None => 0 end.
Definition get_fb0_height : Z := match get_first_fb_ptr with Some f => fb_height f | None => 0 end.
Definition get_fb0_pitch : Z := match get_first_fb_ptr with Some f => fb_pitch f | None => 0 end.
Definition get_fb0_bpp : Z := match get_first_fb_ptr with Some f => fb_bpp f | None => 0 end.
Definition get_fb0_edid_size : Z := match get_first_fb_ptr with Some f => fb_edid_size f | None => 0 end.

(** The globals of vga.c that the drawing uses. *)
Definition init_vga : fbuf := mk_fb get_fb0_address get_fb0_width get_fb0_height get_fb0_pitch.
End framebuffer.
