(* ===== verification/VgaTerm.v ===== *)
(** The text terminal (kernel/src/driver/vga/vga_term.c): characters drawn in
    the frame buffer and sent to the serial line.

    [term] holds the globals of the file besides the frame buffer and the
    serial line.  Cursor positions are int; sums with the font sizes are taken
    in 64 bits and cut back. *)
From S2P Require Import Prelude CString CStdlib Stdio Ports Serial Vga Fonts.

Record term (E : Type) := mk_term {
  ser : serial E; fb : fbuf; cur_x : Z; cur_y : Z;
  text_color : Z; back_color : Z; font_width : Z; font_height : Z; font_size : Z;
  cursor_visible : bool; prev_cursor_x : Z; prev_cursor_y : Z
}.
Arguments mk_term {E}.
Arguments ser {E}.
Arguments fb {E}.
Arguments cur_x {E}.
Arguments cur_y {E}.
Arguments text_color {E}.
Arguments back_color {E}.
Arguments font_width {E}.
Arguments font_height {E}.
Arguments font_size {E}.
Arguments cursor_visible {E}.
Arguments prev_cursor_x {E}.
Arguments prev_cursor_y {E}.

Section term.
Context {E : Type} `{Ports E}.
Abbreviation st := (term E).

Definition set_cur (x y : Z) (s : st) : st :=
  mk_term (ser s) (fb s) x y (text_color s) (back_color s) (font_width s) (font_height s)
    (font_size s) (cursor_visible s) (prev_cursor_x s) (prev_cursor_y s).
Definition set_ser (k : serial E) (s : st) : st :=
  mk_term k (fb s) (cur_x s) (cur_y s) (text_color s) (back_color s) (font_width s) (font_height s)
    (font_size s) (cursor_visible s) (prev_cursor_x s) (prev_cursor_y s).
Definition set_fb (f : fbuf) (s : st) : st :=
  mk_term (ser s) f (cur_x s) (cur_y s) (text_color s) (back_color s) (font_width s) (font_height s)
    (font_size s) (cursor_visible s) (prev_cursor_x s) (prev_cursor_y s).
Definition set_cursor (v : bool) (px py : Z) (s : st) : st :=
  mk_term (ser s) (fb s) (cur_x s) (cur_y s) (text_color s) (back_color s) (font_width s)
    (font_height s) (font_size s) v px py.

Definition on_ser {A} (k : M (serial E) A) : M st A := fun s =>
  obind (k (ser s)) (fun '(a, x) => Ret (a, set_ser x s)).
Definition on_fb {A} (k : M fbuf A) : M st A := fun s =>
  obind (k (fb s)) (fun '(a, x) => Ret (a, set_fb x s)).
Definition set_x (x : Z) : M st unit := modify (fun s => set_cur x (cur_y s) s).
Definition set_y (y : Z) : M st unit := modify (fun s => set_cur (cur_x s) y s).

Definition clear_screen : M st unit :=
  let! c := gets back_color in
  on_fb (cls_color c) ;;;
  set_x 0 ;;; set_y 0.

(** The pixel rows of a text line move up; the last ones are filled. *)
Definition scroll_up : M st unit :=
  let! f := gets fb in
  match fb0_address f with
  | None => ret tt
  | Some _ =>
      let! line_height := gets font_height in
      let! color := gets back_color in
      let pitch_pixels := fb0_pitch f / 4 in
      on_fb (repeat_n (fb0_height f - line_height) (fun k =>
        let row := line_height + k in
        repeat_n pitch_pixels (fun col =>
          let dest_row := row - line_height in
          let! p := ld_pix (u64 (row * pitch_pixels + col)) in
          st_pix (u64 (dest_row * pitch_pixels + col)) p))) ;;;
      on_fb (repeat_n (u64 (line_height * pitch_pixels)) (fun i =>
        st_pix (u64 (u64 (fb0_height f - line_height) * pitch_pixels + i)) color))
  end.

Definition update_cur_pos : M st unit :=
  let! f := gets fb in
  let! fw := gets font_width in
  let! fh := gets font_height in
  let! x := gets cur_x in
  let! x := int_op (x + Z.quot (s32 fw) 2) in
  set_x x ;;;
  (if s32 (fb0_width f) <=? x then
     set_x 0 ;;;
     let! y := gets cur_y in
     let! y := int_op (y + s32 fh) in set_y y
   else ret tt) ;;;
  let! y := gets cur_y in
  if s32 (fb0_height f) <=? y then
    scroll_up ;;;
    let! y := gets cur_y in
    let! y := int_op (y - s32 fh) in set_y y
  else ret tt.

(** [font[i]] in a glyph table. *)
Definition glyph_row (font : list Z) (i : Z) : M fbuf Z :=
  if 0 <=? i then match font !! Z.to_nat i with Some b => ret b | None => undef end else undef.

(** The set bits of [rows] rows of [font] from [base] on. *)
Definition draw_glyph (font : list Z) (base rows x y color : Z) : M fbuf unit :=
  repeat_n rows (fun row =>
    repeat_n 8 (fun col =>
      let! b := glyph_row font (base + row) in
      if negb (Z.land b (Z.shiftl 1 (7 - col)) =? 0) then
        let! px := int_op (x + col) in let! py := int_op (y + row) in
        set_pixel px py color
      else ret tt)).

(** [c] is a char: signed. *)
Definition draw_char_8x8 (x y c color : Z) : M st unit :=
  on_fb (guard (0 <=? s8 c) ;;; draw_glyph g_8x8_font (s8 c * 8) 8 x y color) ;;;
  update_cur_pos.

Definition draw_char_8x16 (x y c color : Z) : M st unit :=
  on_fb (guard (0 <=? s8 c) ;;; draw_glyph g_8x16_font (s8 c * 16) 16 x y color) ;;;
  update_cur_pos.

Definition draw_char (x y c color : Z) : M st unit :=
  let! fs := gets font_size in
  let! fh := gets font_height in
  if u64 (fs * fh) =? 8 then draw_char_8x8 x y c color else draw_char_8x16 x y c color.

Definition draw_string (fuel : nat) (m : gmap Z Z) (x y str color : Z) : M st unit :=
  iter_fuel fuel (fun '(x, str) =>
    let! c := rd m str in
    if negb (c =? 0) then
      draw_char x y c color ;;;
      let! fw := gets font_width in
      ret (inl (s32 (x + fw / 2), str + 1))
    else ret (inr tt)) (x, str).

Definition create_newline : M st unit :=
  let! f := gets fb in
  let! fh := gets font_height in
  set_x 0 ;;;
  let! y := gets cur_y in
  set_y (s32 (y + fh)) ;;;
  let! y := gets cur_y in
  if u64 (fb0_height f - fh) <=? u64 y then
    scroll_up ;;;
    let! y := gets cur_y in set_y (s32 (y - fh))
  else ret tt.

Definition backspace_manage (fuel : nat) : M st unit :=
  on_ser (serial_clearchar fuel) ;;;
  let! x := gets cur_x in
  let! y := gets cur_y in
  if (x =? 0) && (y =? 0) then ret tt else
  let! f := gets fb in
  let! fw := gets font_width in
  let! fh := gets font_height in
  (if x =? 0 then set_x (s32 (fb0_width f - fw)) ;;; set_y (s32 (y - fh))
   else set_x (s32 (x - fw))) ;;;
  let! x := gets cur_x in
  let! y := gets cur_y in
  let! color := gets back_color in
  on_fb (repeat_n fh (fun row =>
    repeat_n (fw + 1) (fun col => set_pixel (s32 (x + col)) (s32 (y + row)) color))).

(** What putchar and color_putchar do with a character they do not draw; the
    result says whether it was one. *)
Definition control_char (fuel : nat) (c : Z) : M st bool :=
  if c =? 9 then
    let! x := gets cur_x in
    let! x := int_op (x + 4) in
    set_x (Z.land x (-4)) ;;; update_cur_pos ;;; ret true
  else if c =? 13 then set_x 0 ;;; update_cur_pos ;;; ret true
  else if c =? 10 then create_newline ;;; update_cur_pos ;;; ret true
  else if c =? 8 then backspace_manage fuel ;;; ret true
  else ret (c =? 0).

(** A character drawn at the cursor, which moves on. *)
Definition show_char (c color : Z) : M st unit :=
  let! x := gets cur_x in
  let! y := gets cur_y in
  draw_char x y c color ;;;
  let! x := gets cur_x in
  let! x := int_op (x + 1) in
  set_x x ;;; update_cur_pos.

(** [putchar] of vga_term.c; [putchar] is the interface of Stdio. *)
Definition term_putchar (fuel : nat) (c : Z) : M st unit :=
  on_ser (serial_putchar fuel c) ;;;
  let! b := control_char fuel c in
  if b then ret tt else
  let! color := gets text_color in
  show_char (if 128 <=? c then 63 else c) color.

Definition color_putchar (fuel : nat) (c color : Z) : M st unit :=
  on_ser (serial_putchar fuel c) ;;;
  let! b := control_char fuel c in
  if b then ret tt else show_char c color.

Definition color_print (fuel : nat) (m : gmap Z Z) (text color : Z) : M st unit :=
  iter_fuel fuel (fun text =>
    let! ch := rd m text in
    if negb (ch =? 0) then color_putchar fuel ch color ;;; ret (inl (text + 1)) else ret (inr tt)) text.

Definition get_cursor_pos_x : M st Z := gets (fun s => u64 (cur_x s)).
Definition get_cursor_pos_y : M st Z := gets (fun s => u64 (cur_y s)).
Definition set_cursor_pos_x (pos_x : Z) : M st unit := set_x (s32 pos_x).
Definition set_cursor_pos_y (pos_y : Z) : M st unit := set_y (s32 pos_y).
Definition move_cur_up : M st unit := let! y := gets cur_y in let! y := int_op (y - 1) in set_y y.
Definition move_cur_down : M st unit := let! y := gets cur_y in let! y := int_op (y + 1) in set_y y.
Definition move_cur_left : M st unit := let! x := gets cur_x in let! x := int_op (x - 1) in set_x x.
Definition move_cur_right : M st unit := let! x := gets cur_x in let! x := int_op (x + 1) in set_x x.

Definition draw_checkmark (x y color : Z) : M st unit :=
  on_fb (draw_glyph checkmark 0 16 x y color).

(** A negative row or column ends the loop: it is compared in 64 bits. *)
Definition fill_rect (x y width height color : Z) : M fbuf unit :=
  let! y_end := int_op (y + height) in
  iter_fuel (S (Z.to_nat height)) (fun row =>
    let! h := gets fb0_height in
    if (row <? y_end) && (u64 row <? h) then
      let! x_end := int_op (x + width) in
      iter_fuel (S (Z.to_nat width)) (fun col =>
        let! w := gets fb0_width in
        if (col <? x_end) && (u64 col <? w) then
          set_pixel col row color ;;; ret (inl (col + 1))
        else ret (inr tt)) x ;;;
      ret (inl (row + 1))
    else ret (inr tt)) y.

Definition draw_cursor : M st unit :=
  let! px := gets prev_cursor_x in
  let! py := gets prev_cursor_y in
  let! fw := gets font_width in
  let! fh := gets font_height in
  let! bc := gets back_color in
  let! tc := gets text_color in
  (if negb (px =? -1) && negb (py =? -1) then
     on_fb (fill_rect px py (s32 (fw / 2)) (s32 fh) bc) else ret tt) ;;;
  let! v := gets cursor_visible in
  let! x := gets cur_x in
  let! y := gets cur_y in
  (if v then on_fb (fill_rect x y (s32 (fw / 2)) (s32 fh) tc) else ret tt) ;;;
  modify (set_cursor v x y).

Definition toggle_cursor : M st unit :=
  modify (fun s => set_cursor (negb (cursor_visible s)) (prev_cursor_x s) (prev_cursor_y s) s) ;;;
  draw_cursor.
End term.
