(* ===== verification/SerialProps.v ===== *)
(** What goes over the serial line, and what its log keeps of it. *)
From S2P Require Import Prelude CString Stdio Ports Serial.

(** A transmitter behind port 0x3F8: its status says so after finitely many
    polls ([polls], at most [patience]) when it can take a byte, and it sends
    the bytes it is given then. *)
Class SerialLine (E : Type) {P : Ports E} := {
  sent : E -> list Z;
  polls : E -> nat;
  patience : nat;
  polls_bound : forall e, (polls e <= patience)%nat;
  line_busy : forall e n, polls e = S n -> exists v e', inb (COM1 + 5) e = Ret (v, e') /\
    Z.land v 0x20 = 0 /\ polls e' = n /\ sent e' = sent e;
  line_free : forall e, polls e = O -> exists v e', inb (COM1 + 5) e = Ret (v, e') /\
    Z.land v 0x20 <> 0 /\ polls e' = O /\ sent e' = sent e;
  line_send : forall e c, polls e = O -> exists e', outb COM1 c e = Ret (tt, e') /\
    sent e' = sent e ++ [c]
}.

Section serial_specs.
Context {E : Type} `{SerialLine E}.
Implicit Types s : serial E.

Lemma wp_on_ports {A} (k : M E A) (Q : A -> serial E -> Prop) s :
  wp k (fun a e => Q a (mk_serial e (serial_log s) (serial_log_index s))) (port_env s) ->
  wp (on_ports k) Q s.
Proof. unfold wp, on_ports, obind. by destruct (k (port_env s)) as [[a e]| | |]. Qed.

(** The log has its size and is terminated behind what it holds. *)
Record log_ok s : Prop := {
  lo_size : zlen (serial_log s) = SERIAL_LOG_SIZE;
  lo_index : 0 <= serial_log_index s < SERIAL_LOG_SIZE;
  lo_end : serial_log s !! Z.to_nat (serial_log_index s) = Some 0
}.

(** What the log holds. *)
Definition logged s : list Z := take (Z.to_nat (serial_log_index s)) (serial_log s).
Definition log_room : nat := Z.to_nat (SERIAL_LOG_SIZE - 1).

Lemma logged_length s : log_ok s -> zlen (logged s) = serial_log_index s.
Proof. intros [Hs Hi _]. unfold logged. rewrite length_take. lia. Qed.

Lemma wp_set_log i c s (Q : unit -> serial E -> Prop) : 0 <= i < zlen (serial_log s) ->
  Q tt (mk_serial (port_env s) (<[Z.to_nat i := u8 c]> (serial_log s)) (serial_log_index s)) ->
  wp (set_log i c) Q s.
Proof. intros Hi HQ. unfold set_log. by wp_steps. Qed.

Lemma wait_spec fuel s (Q : unit -> serial E -> Prop) : (patience < fuel)%nat ->
  (forall e, polls e = O -> sent e = sent (port_env s) ->
     Q tt (mk_serial e (serial_log s) (serial_log_index s))) ->
  wp (iter_fuel fuel (fun _ : unit =>
    let! v := on_ports (inb (COM1 + 5)) in
    if Z.land v 0x20 =? 0 then ret (inl tt) else ret (inr tt)) tt) Q s.
Proof.
  intros Hf HQ.
  eapply (wp_iter (fun _ s' => sent (port_env s') = sent (port_env s) /\
    serial_log s' = serial_log s /\ serial_log_index s' = serial_log_index s)
    (fun _ s' => polls (port_env s'))); [| done | pose proof (polls_bound (port_env s)); lia].
  intros [] [e l i] (Hs & Hl & Hi). cbn in *. subst l i. wp_steps. apply wp_on_ports. cbn [port_env].
  destruct (polls e) as [|n] eqn:Hp.
  - destruct (line_free e Hp) as (v & e' & Hv & Hz & Hp' & Hs'). unfold wp at 1. rewrite Hv.
    destruct (Z.eqb_spec (Z.land v 0x20) 0); [done|]. wp_steps. apply HQ; [done | congruence].
  - destruct (line_busy e n Hp) as (v & e' & Hv & Hz & Hp' & Hs'). unfold wp at 1. rewrite Hv.
    rewrite Hz. cbn [Z.eqb]. wp_steps. cbn. repeat split; [congruence | lia].
Qed.

(** A byte goes over the line, and to the log while it has room. *)
Lemma serial_putchar_spec fuel c s (Q : unit -> serial E -> Prop) :
  log_ok s -> (patience < fuel)%nat ->
  (forall s', log_ok s' -> sent (port_env s') = sent (port_env s) ++ [u8 c] ->
     logged s' = take log_room (logged s ++ [u8 c]) -> Q tt s') ->
  wp (serial_putchar fuel c) Q s.
Proof.
  intros Hlo Hf HQ. pose proof (logged_length s Hlo) as Hll. destruct Hlo as [Hsz Hi He].
  unfold serial_putchar. wp_steps. apply wait_spec; [done|]. intros e Hp Hs.
  wp_steps. apply wp_on_ports. cbn [port_env]. destruct (line_send e (u8 c) Hp) as (e' & Ho & Hs').
  unfold wp at 1. rewrite Ho. wp_steps. cbn [serial_log serial_log_index port_env].
  unfold log_room in HQ. unfold SERIAL_LOG_SIZE in *. case_if.
  - wp_steps. apply wp_set_log; [cbn; lia|]. cbn [port_env serial_log serial_log_index]. wp_steps.
    unfold set_log_index. wp_steps. cbn [serial_log_index].
    apply wp_set_log; [cbn; rewrite length_insert; lia|]. cbn [port_env serial_log serial_log_index].
    apply HQ.
    + constructor; cbn; rewrite ?length_insert; [done | unfold SERIAL_LOG_SIZE; lia |].
      apply list_lookup_insert_eq. rewrite length_insert. lia.
    + cbn. congruence.
    + rewrite take_ge by (rewrite length_app; cbn [length]; lia). unfold logged.
      cbn [serial_log serial_log_index].
      replace (Z.to_nat (serial_log_index s + 1)) with (S (Z.to_nat (serial_log_index s))) by lia.
      rewrite take_insert_ge by lia.
      rewrite (take_S_r _ _ (u8 c)) by (apply list_lookup_insert_eq; lia). f_equal.
      by rewrite take_insert_ge by lia.
  - wp_steps. apply HQ; [by constructor | cbn; congruence |].
    unfold logged at 1. cbn [serial_log serial_log_index]. fold (logged s). rewrite take_app_le by lia. by rewrite take_ge by lia.
Qed.
End serial_specs.
