(* ===== verification/VgaProps.v ===== *)
(** What the drawing routines put on the screen: single pixels, rectangles,
    and lines, which are the points nearest to the ideal line. *)
From S2P Require Import Prelude CString CStdlib Stdio Vga.

(** A pixel in memory holds 32 bits. *)
Definition cell_ok (o : option Z) : Prop := exists v, o = Some v /\ u32 v = v.

(** A frame buffer that its numbers describe. *)
Record screen_ok (f : fbuf) : Prop := {
  so_width : 0 < fb0_width f < 2 ^ 29;
  so_height : 0 < fb0_height f < 2 ^ 31;
  so_pitch : fb0_pitch f mod 4 = 0 /\ 4 * fb0_width f <= fb0_pitch f;
  so_size : fb0_pitch f * fb0_height f < 2 ^ 63;
  so_cells : exists m, fb0_address f = Some m /\
    forall i, 0 <= i < fb0_pitch f / 4 * fb0_height f -> cell_ok (m !! i)
}.

Definition stride (f : fbuf) : Z := fb0_pitch f / 4.
Definition cells (f : fbuf) : gmap Z Z := default ∅ (fb0_address f).
Definition on_screen_at (f : fbuf) (x y : Z) : bool :=
  (0 <=? x) && (x <? fb0_width f) && (0 <=? y) && (y <? fb0_height f).

(** The colour of a pixel. *)
Definition pixel (f : fbuf) (x y : Z) : Z := default 0 (cells f !! (y * stride f + x)).

Definition with_cells (m : gmap Z Z) (f : fbuf) : fbuf :=
  mk_fb (Some m) (fb0_width f) (fb0_height f) (fb0_pitch f).

(** [set_pixel] as a function. *)
Definition plot (color : Z) (p : Z * Z) (f : fbuf) : fbuf :=
  if on_screen_at f p.1 p.2 then with_cells (<[p.2 * stride f + p.1 := u32 color]> (cells f)) f else f.

(** Frame buffers of the same size and shape. *)
Definition same_shape (f g : fbuf) : Prop :=
  fb0_width g = fb0_width f /\ fb0_height g = fb0_height f /\ fb0_pitch g = fb0_pitch f.

Lemma stride_width f : screen_ok f -> 4 * stride f = fb0_pitch f /\ fb0_width f <= stride f.
Proof.
  intros [Hw Hh [Hp Hpw] Hs Hc]. unfold stride.
  pose proof (Z.div_mod (fb0_pitch f) 4 ltac:(lia)). lia.
Qed.

Lemma cell_range f x y : screen_ok f -> on_screen_at f x y = true ->
  0 <= y * stride f + x < stride f * fb0_height f /\ y * stride f + x < 2 ^ 62.
Proof.
  intros Hok Hon. pose proof (stride_width f Hok) as [Hs Hw]. unfold on_screen_at in Hon. bool_to_prop.
  pose proof (so_size _ Hok). pose proof (so_height _ Hok). nia.
Qed.

Lemma cell_inj f x y x' y' : screen_ok f -> on_screen_at f x y = true -> on_screen_at f x' y' = true ->
  y * stride f + x = y' * stride f + x' -> x = x' /\ y = y'.
Proof.
  intros Hok H1 H2 He. pose proof (stride_width f Hok) as [Hs Hw]. unfold on_screen_at in *. bool_to_prop.
  assert (y = y') by nia. subst. lia.
Qed.

Lemma cells_mapped f i : screen_ok f -> 0 <= i < stride f * fb0_height f ->
  fb0_address f = Some (cells f) /\ cell_ok (cells f !! i).
Proof.
  intros [_ _ _ _ (m & Hm & Hc)] Hi. unfold cells. rewrite Hm. split; [done|]. by apply Hc.
Qed.

Lemma with_cells_ok f m : screen_ok f ->
  (forall i, 0 <= i < stride f * fb0_height f -> cell_ok (m !! i)) -> screen_ok (with_cells m f).
Proof.
  intros [Hw Hh Hp Hs Hc] Hm. constructor; cbn; try done. by exists m.
Qed.

Lemma u32_u32 v : u32 (u32 v) = u32 v.
Proof. apply u32_small, u32_range. Qed.

Lemma insert_ok f i v : screen_ok f -> screen_ok (with_cells (<[i := u32 v]> (cells f)) f).
Proof.
  intros Hok. apply with_cells_ok; [done|]. intros j Hj.
  destruct (decide (i = j)) as [->|]; simplify_map_eq; [|by apply cells_mapped].
  exists (u32 v). split; [done | apply u32_u32].
Qed.

Lemma plot_ok c p f : screen_ok f -> screen_ok (plot c p f).
Proof. intros Hok. unfold plot. case_if; [by apply insert_ok | done]. Qed.

Lemma plot_shape c p f : same_shape f (plot c p f).
Proof. unfold plot. by case_if. Qed.

Lemma shape_screen f g x y : same_shape f g -> on_screen_at g x y = on_screen_at f x y.
Proof. intros (Hw & Hh & _). unfold on_screen_at. by rewrite Hw, Hh. Qed.

Lemma shape_stride f g : same_shape f g -> stride g = stride f.
Proof. intros (_ & _ & Hp). unfold stride. by rewrite Hp. Qed.

Lemma shape_trans f g h : same_shape f g -> same_shape g h -> same_shape f h.
Proof. unfold same_shape. intuition congruence. Qed.

(** A plotted pixel has its colour, the others keep theirs. *)
Lemma pixel_plot c p f x y : screen_ok f -> on_screen_at f x y = true ->
  pixel (plot c p f) x y = if bool_decide (p = (x, y)) then u32 c else pixel f x y.
Proof.
  intros Hok Hon. destruct p as [px py]. unfold plot. cbn [fst snd].
  destruct (on_screen_at f px py) eqn:Hp.
  - change (pixel (with_cells ?m f) x y) with (default 0 (m !! (y * stride f + x))).
    case_bool_decide as Heq.
    + injection Heq as -> ->. by simplify_map_eq.
    + rewrite lookup_insert_ne; [done|]. intros He. apply Heq.
      by destruct (cell_inj f px py x y Hok Hp Hon He) as [-> ->].
  - case_bool_decide as Heq; [|done]. simplify_eq. congruence.
Qed.

Lemma wp_int_op {S} z (Q : Z -> S -> Prop) s :
  INT_MIN <= z <= INT_MAX -> Q z s -> wp (int_op z) Q s.
Proof. intros Hz HQ. unfold int_op. wp_steps. done. Qed.

Lemma s64_small z : - 2 ^ 63 <= z < 2 ^ 63 -> s64 z = z.
Proof. intros. unfold s64. rewrite Z.mod_small; lia. Qed.

Lemma wp_st_pix i c f (Q : unit -> fbuf -> Prop) : screen_ok f -> 0 <= i < stride f * fb0_height f ->
  Q tt (with_cells (<[i := u32 c]> (cells f)) f) -> wp (st_pix i c) Q f.
Proof.
  intros Hok Hi HQ. destruct (cells_mapped f i Hok Hi) as [Ha (v & Hv & _)].
  pose proof (stride_width f Hok). pose proof (so_size _ Hok). pose proof (so_height _ Hok).
  unfold wp, st_pix. rewrite Ha, s64_small by nia. by rewrite Hv.
Qed.

Lemma wp_ld_pix i f (Q : Z -> fbuf -> Prop) : screen_ok f -> 0 <= i < stride f * fb0_height f ->
  Q (default 0 (cells f !! i)) f -> wp (ld_pix i) Q f.
Proof.
  intros Hok Hi HQ. destruct (cells_mapped f i Hok Hi) as [Ha (v & Hv & _)].
  pose proof (stride_width f Hok). pose proof (so_size _ Hok). pose proof (so_height _ Hok).
  unfold wp, ld_pix. rewrite Ha, s64_small by nia. rewrite Hv in *. done.
Qed.

Lemma wp_set_pixel x y c f (Q : unit -> fbuf -> Prop) :
  screen_ok f -> Q tt (plot c (x, y) f) -> wp (set_pixel x y c) Q f.
Proof.
  intros Hok HQ. unfold set_pixel, off_screen, plot, on_screen_at in *. cbn [fst snd] in HQ.
  wp_steps. destruct (Z.ltb_spec x 0), (Z.leb_spec (fb0_width f) x), (Z.ltb_spec y 0),
    (Z.leb_spec (fb0_height f) y), (Z.leb_spec 0 x), (Z.ltb_spec x (fb0_width f)), (Z.leb_spec 0 y),
    (Z.ltb_spec y (fb0_height f)); try lia; cbn [orb andb] in *; wp_steps; try exact HQ.
  pose proof (stride_width f Hok) as [Hs Hw]. pose proof (so_size _ Hok). pose proof (so_width _ Hok).
  assert (Hr : 0 <= y * stride f + x < stride f * fb0_height f) by nia.
  unfold pixel_index. wp_steps. apply wp_int_op; [unfold INT_MIN, INT_MAX; lia|].
  replace (u64 (y * fb0_pitch f) + x * 4) with ((y * stride f + x) * 4).
  2:{ unfold u64. rewrite Z.mod_small by nia. lia. }
  rewrite Z.mod_mul, Z.div_mul by lia. wp_steps. by apply wp_st_pix.
Qed.

(** ** Lines *)

(** The multiple of [a / n] at [k], rounded to the nearest integer, halves
    down. *)
Definition near (a n k : Z) : Z := (2 * a * k + n - 1) / (2 * n).

Lemma near_bounds a n k : 0 < n -> - n <= 2 * (n * near a n k - a * k) < n.
Proof.
  intros Hn. unfold near.
  pose proof (Z.div_mod (2 * a * k + n - 1) (2 * n) ltac:(lia)).
  pose proof (Z.mod_pos_bound (2 * a * k + n - 1) (2 * n) ltac:(lia)). lia.
Qed.

Lemma near_unique a n k j : 0 < n -> - n <= 2 * (n * j - a * k) < n -> j = near a n k.
Proof. intros Hn Hj. pose proof (near_bounds a n k Hn). nia. Qed.

Lemma near_0 a n : 0 <= n -> near a n 0 = 0.
Proof.
  intros Hn. destruct (decide (n = 0)) as [->|]; [by unfold near; rewrite Z.mul_0_r, Z.div_0_r|].
  symmetry. apply near_unique; lia.
Qed.

Lemma near_full a n : 0 < n -> near a n n = a.
Proof. intros Hn. symmetry. apply near_unique; lia. Qed.

Lemma near_range a n k : 0 <= a -> 0 < n -> 0 <= k <= n -> 0 <= near a n k <= a.
Proof. intros Ha Hn Hk. pose proof (near_bounds a n k Hn). nia. Qed.

(** One step along the longer axis takes one along the shorter exactly when
    the deviation asks for it. *)
Lemma near_succ a n k : 0 <= a <= n -> 0 < n ->
  near a n (k + 1) =
    near a n k + (if 2 * (n * near a n k - a * k) <? 2 * a - n then 1 else 0).
Proof.
  intros Ha Hn. symmetry. apply near_unique; [done|]. pose proof (near_bounds a n k Hn).
  destruct (Z.ltb_spec (2 * (n * near a n k - a * k)) (2 * a - n)); lia.
Qed.

(** Steps in x and y after [k] steps along the longer axis. *)
Definition line_at (dx dy k : Z) : Z * Z :=
  if dy <=? dx then (k, near dy dx k) else (near dx dy k, k).

Definition sign_to (a b : Z) : Z := if a <? b then 1 else -1.

(** The points of the line from [(x1, y1)] to [(x2, y2)]. *)
Definition line_points (x1 y1 x2 y2 : Z) : list (Z * Z) :=
  let dx := Z.abs (x2 - x1) in let dy := Z.abs (y2 - y1) in
  (fun k => let '(i, j) := line_at dx dy k in (x1 + sign_to x1 x2 * i, y1 + sign_to y1 y2 * j))
    <$> seqZ 0 (Z.max dx dy + 1).

Definition plot_all (c : Z) (l : list (Z * Z)) (f : fbuf) : fbuf :=
  fold_left (fun f p => plot c p f) l f.

(** The error term of the loop after [i] and [j] steps. *)
Definition line_err (dx dy : Z) (p : Z * Z) : Z := dx * (p.2 + 1) - dy * (p.1 + 1).

Lemma line_step dx dy k : 0 <= dx -> 0 <= dy -> 0 <= k < Z.max dx dy ->
  let '(i, j) := line_at dx dy k in let e2 := 2 * line_err dx dy (i, j) in
  line_at dx dy (k + 1) = (if - dy <? e2 then i + 1 else i, if e2 <? dx then j + 1 else j).
Proof.
  intros Hx Hy Hk. unfold line_at, line_err. destruct (Z.leb_spec dy dx); cbn [fst snd].
  - pose proof (near_bounds dy dx k ltac:(lia)) as Hb. rewrite near_succ by lia.
    destruct (Z.ltb_spec (- dy) (2 * (dx * (near dy dx k + 1) - dy * (k + 1)))).
    2:{ exfalso. assert (dy = dx) as -> by lia. assert (near dx dx k = k); [|lia].
        symmetry. apply near_unique; lia. }
    f_equal. destruct (Z.ltb_spec (2 * (dx * near dy dx k - dy * k)) (2 * dy - dx)),
      (Z.ltb_spec (2 * (dx * (near dy dx k + 1) - dy * (k + 1))) dx); lia.
  - pose proof (near_bounds dx dy k ltac:(lia)) as Hb. rewrite near_succ by lia.
    destruct (Z.ltb_spec (2 * (dx * (k + 1) - dy * (near dx dy k + 1))) dx); [|lia].
    f_equal. destruct (Z.ltb_spec (2 * (dy * near dx dy k - dx * k)) (2 * dx - dy)),
      (Z.ltb_spec (- dy) (2 * (dx * (k + 1) - dy * (near dx dy k + 1)))); lia.
Qed.

Lemma line_at_range dx dy k : 0 <= dx -> 0 <= dy -> 0 <= k <= Z.max dx dy ->
  let '(i, j) := line_at dx dy k in
  0 <= i <= dx /\ 0 <= j <= dy /\ - 2 * Z.max dx dy <= line_err dx dy (i, j) <= 2 * Z.max dx dy.
Proof.
  intros Hx Hy Hk. unfold line_at, line_err. destruct (Z.leb_spec dy dx); cbn [fst snd].
  - destruct (decide (dx = 0)) as [->|].
    { assert (k = 0) as -> by lia. rewrite near_0 by lia. lia. }
    pose proof (near_bounds dy dx k ltac:(lia)). pose proof (near_range dy dx k Hy ltac:(lia)). lia.
  - pose proof (near_bounds dx dy k ltac:(lia)). pose proof (near_range dx dy k Hx ltac:(lia)). lia.
Qed.

Lemma line_at_0 dx dy : 0 <= dx -> 0 <= dy -> line_at dx dy 0 = (0, 0).
Proof. intros. unfold line_at. by case_if; rewrite near_0 by lia. Qed.

(** The end is reached with the last step and not before. *)
Lemma line_at_end dx dy k : 0 <= dx -> 0 <= dy -> 0 <= k <= Z.max dx dy ->
  line_at dx dy k = (dx, dy) <-> k = Z.max dx dy.
Proof.
  intros Hx Hy Hk. unfold line_at. destruct (Z.leb_spec dy dx); split; intros He.
  - injection He. lia.
  - rewrite Z.max_l in He by lia. subst k. f_equal. destruct (decide (dx = 0)) as [->|];
      [rewrite near_0 by lia; lia | by apply near_full; lia].
  - injection He. lia.
  - rewrite Z.max_r in He by lia. subst k. f_equal. apply near_full. lia.
Qed.

Lemma plot_all_ok c l f : screen_ok f -> screen_ok (plot_all c l f).
Proof.
  revert f. induction l as [|p l IH]; intros f Hok; [done|]. apply IH. by apply plot_ok.
Qed.

(** Plotted pixels are those of the list. *)
Lemma pixel_plot_all c l f x y : screen_ok f -> on_screen_at f x y = true ->
  pixel (plot_all c l f) x y = if bool_decide ((x, y) ∈ l) then u32 c else pixel f x y.
Proof.
  revert f. induction l as [|p l IH]; intros f Hok Hon; [done|].
  cbn [plot_all fold_left]. fold (plot_all c l (plot c p f)).
  rewrite IH by (by apply plot_ok || by rewrite (shape_screen f) by apply plot_shape).
  rewrite pixel_plot by done. repeat case_bool_decide; set_solver.
Qed.

Lemma lookup_line x1 y1 x2 y2 k :
  let dx := Z.abs (x2 - x1) in let dy := Z.abs (y2 - y1) in
  0 <= k <= Z.max dx dy ->
  line_points x1 y1 x2 y2 !! Z.to_nat k =
    Some (let '(i, j) := line_at dx dy k in (x1 + sign_to x1 x2 * i, y1 + sign_to y1 y2 * j)).
Proof.
  intros dx dy Hk. unfold line_points. fold dx dy. rewrite list_lookup_fmap, lookup_seqZ_lt by lia.
  cbn [fmap option_fmap option_map]. by replace (0 + Z.of_nat (Z.to_nat k)) with k by lia.
Qed.

Lemma sign_end a b : a + sign_to a b * Z.abs (b - a) = b.
Proof. unfold sign_to. destruct (Z.ltb_spec a b); lia. Qed.

Lemma sign_step a b i : a + sign_to a b * i = b -> 0 <= i -> i = Z.abs (b - a).
Proof. unfold sign_to. destruct (Z.ltb_spec a b); lia. Qed.

Lemma line_last x1 y1 x2 y2 : last (line_points x1 y1 x2 y2) = Some (x2, y2).
Proof.
  rewrite last_lookup. set (n := Z.max (Z.abs (x2 - x1)) (Z.abs (y2 - y1))).
  replace (Nat.pred (length (line_points x1 y1 x2 y2))) with (Z.to_nat n)
    by (unfold line_points; rewrite length_fmap, length_seqZ; lia).
  rewrite lookup_line by lia.
  rewrite (proj2 (line_at_end (Z.abs (x2 - x1)) (Z.abs (y2 - y1)) n ltac:(lia) ltac:(lia) ltac:(lia))) by done.
  by rewrite !sign_end.
Qed.

Lemma sign_abs a b i : 0 <= i -> Z.abs (a + sign_to a b * i - a) = i.
Proof. intros. unfold sign_to. case_if; lia. Qed.

Lemma line_points_near x1 y1 x2 y2 x y : (x, y) ∈ line_points x1 y1 x2 y2 ->
  2 * Z.abs (Z.abs (x2 - x1) * Z.abs (y - y1) - Z.abs (y2 - y1) * Z.abs (x - x1)) <=
    Z.max (Z.abs (x2 - x1)) (Z.abs (y2 - y1)).
Proof.
  intros (k & Hp & Hk%elem_of_seqZ)%list_elem_of_fmap.
  set (dx := Z.abs (x2 - x1)) in *. set (dy := Z.abs (y2 - y1)) in *.
  pose proof (line_at_range dx dy k ltac:(lia) ltac:(lia) ltac:(lia)) as Hr.
  destruct (line_at dx dy k) as [i j] eqn:Hl. injection Hp as -> ->. rewrite !sign_abs by lia.
  unfold line_at in Hl. destruct (Z.leb_spec dy dx); injection Hl as <- <-.
  - destruct (decide (dx = 0)) as [Hz|].
    { rewrite Hz in *. lia. }
    pose proof (near_bounds dy dx k ltac:(lia)). lia.
  - pose proof (near_bounds dx dy k ltac:(lia)). lia.
Qed.

(** The loop has drawn the first [k] points. *)
Definition line_inv x1 y1 x2 y2 c f (k : Z) (v : Z * Z * Z) (s : fbuf) : Prop :=
  let dx := Z.abs (x2 - x1) in let dy := Z.abs (y2 - y1) in
  let '(x, y, err) := v in let '(i, j) := line_at dx dy k in
  0 <= k <= Z.max dx dy /\ x = x1 + sign_to x1 x2 * i /\ y = y1 + sign_to y1 y2 * j /\
  err = line_err dx dy (i, j) /\ s = plot_all c (take (Z.to_nat k) (line_points x1 y1 x2 y2)) f.

Lemma plot_next x1 y1 x2 y2 c f k p : 0 <= k ->
  line_points x1 y1 x2 y2 !! Z.to_nat k = Some p ->
  plot c p (plot_all c (take (Z.to_nat k) (line_points x1 y1 x2 y2)) f) =
  plot_all c (take (Z.to_nat (k + 1)) (line_points x1 y1 x2 y2)) f.
Proof.
  intros Hk Hp. replace (Z.to_nat (k + 1)) with (S (Z.to_nat k)) by lia.
  rewrite (take_S_r _ _ _ Hp). unfold plot_all. by rewrite fold_left_app.
Qed.

(** The test for the end point. *)
Lemma line_done x1 y1 x2 y2 k :
  let dx := Z.abs (x2 - x1) in let dy := Z.abs (y2 - y1) in
  0 <= k <= Z.max dx dy ->
  let '(i, j) := line_at dx dy k in
  (x1 + sign_to x1 x2 * i =? x2) && (y1 + sign_to y1 y2 * j =? y2) = (k =? Z.max dx dy).
Proof.
  intros dx dy Hk. pose proof (line_at_end dx dy k ltac:(lia) ltac:(lia) Hk) as Hend.
  pose proof (line_at_range dx dy k ltac:(lia) ltac:(lia) Hk) as Hr.
  destruct (line_at dx dy k) as [i j]. apply eq_true_iff_eq. rewrite andb_true_iff, !Z.eqb_eq. split.
  - intros [Hx%sign_step Hy%sign_step]; [|lia..]. apply Hend. by subst i j.
  - intros He. apply Hend in He. injection He as -> ->. by rewrite !sign_end.
Qed.

(** One axis of a round. *)
Lemma wp_axis {S} (b : bool) e e' x x' (Q : Z * Z -> S -> Prop) s :
  INT_MIN <= e' <= INT_MAX -> INT_MIN <= x' <= INT_MAX ->
  Q (if b then (e', x') else (e, x)) s ->
  wp (if b then let! e := int_op e' in let! x := int_op x' in ret (e, x) else ret (e, x)) Q s.
Proof.
  intros He Hx HQ. destruct b; wp_steps; [|done]. apply wp_int_op; [done|].
  wp_steps. apply wp_int_op; [done|]. by wp_steps.
Qed.

Ltac int_side := unfold INT_MIN, INT_MAX; lia.

Lemma draw_line_spec fuel x1 y1 x2 y2 c f (Q : unit -> fbuf -> Prop) :
  screen_ok f ->
  - 2 ^ 26 <= x1 < 2 ^ 26 -> - 2 ^ 26 <= y1 < 2 ^ 26 ->
  - 2 ^ 26 <= x2 < 2 ^ 26 -> - 2 ^ 26 <= y2 < 2 ^ 26 ->
  Z.max (Z.abs (x2 - x1)) (Z.abs (y2 - y1)) < Z.of_nat fuel ->
  Q tt (plot_all c (line_points x1 y1 x2 y2) f) -> wp (draw_line fuel x1 y1 x2 y2 c) Q f.
Proof.
  intros Hok H1 H2 H3 H4 Hf HQ. unfold draw_line.
  assert (Habs : forall z, INT_MIN < z <= INT_MAX -> abs z = Ret (Z.abs z)).
  { intros z Hz. unfold abs, int_ok, INT_MIN, INT_MAX in *. destruct (Z.ltb_spec z 0); [|f_equal; lia].
    destruct (Z.leb_spec (-2147483648) (- z)), (Z.ltb_spec (- z) 2147483648); try lia. cbn. f_equal. lia. }
  wp_steps. apply wp_int_op; [int_side|]. wp_steps. rewrite Habs by int_side. apply wp_lift.
  wp_steps. apply wp_int_op; [int_side|]. wp_steps. rewrite Habs by int_side. apply wp_lift.
  set (dx := Z.abs (x2 - x1)) in *. set (dy := Z.abs (y2 - y1)) in *.
  fold (sign_to x1 x2) (sign_to y1 y2). wp_steps. apply wp_int_op; [int_side|].
  eapply (wp_iter_idx (fun k => Z.to_nat (Z.max dx dy - k)) (line_inv x1 y1 x2 y2 c f)) with (t := 0).
  - intros k [[x y] err] s Hinv. unfold line_inv in Hinv. fold dx dy in Hinv.
    pose proof (line_at_end dx dy k ltac:(lia) ltac:(lia)) as Hend.
    pose proof (line_at_range dx dy k ltac:(lia) ltac:(lia)) as Hr.
    pose proof (line_step dx dy k ltac:(lia) ltac:(lia)) as Hstep.
    pose proof (lookup_line x1 y1 x2 y2 k) as Hpt. cbv zeta in Hpt. fold dx dy in Hpt.
    pose proof (line_done x1 y1 x2 y2 k) as Hdone. cbv zeta in Hdone. fold dx dy in Hdone.
    destruct (line_at dx dy k) as [i j]. destruct Hinv as (Hk & Hx & Hy & He & Hs).
    specialize (Hr Hk) as (Hi & Hj & Herr). specialize (Hend Hk). specialize (Hpt Hk). specialize (Hdone Hk).
    rewrite <- Hx, <- Hy in Hpt. wp_steps. apply wp_set_pixel; [subst s; by apply plot_all_ok|].
    subst s. rewrite (plot_next _ _ _ _ _ _ _ (x, y)) by (done || lia).
    rewrite Hx, Hy, Hdone. destruct (Z.eqb_spec k (Z.max dx dy)) as [Hkm|].
    { wp_steps. rewrite take_ge; [done|]. unfold line_points. rewrite length_fmap, length_seqZ.
      fold dx dy. lia. }
    specialize (Hstep ltac:(lia)). rewrite <- Hx, <- Hy. rewrite <- He in Hstep.
    wp_steps. apply wp_int_op; [int_side|].
    assert (Hsx : -1 <= sign_to x1 x2 <= 1) by (unfold sign_to; case_if; lia).
    assert (Hsy : -1 <= sign_to y1 y2 <= 1) by (unfold sign_to; case_if; lia).
    assert (Hbx : - 2 ^ 28 <= x <= 2 ^ 28) by (rewrite Hx; unfold sign_to; case_if; lia).
    assert (Hby : - 2 ^ 28 <= y <= 2 ^ 28) by (rewrite Hy; unfold sign_to; case_if; lia).
    wp_step. apply wp_axis; [int_side | int_side |].
    cbv zeta in Hstep. destruct (- dy <? 2 * err); cbv beta iota; wp_step;
      (apply wp_axis; [int_side | int_side |]); destruct (2 * err <? dx); wp_steps;
      exists (k + 1); (split; [|lia]);
      unfold line_inv; fold dx dy; rewrite Hstep; (split; [lia|]);
      unfold line_err in *; cbn [fst snd] in *; repeat split; try done; lia.
  - unfold line_inv. fold dx dy. rewrite line_at_0 by lia. unfold line_err. cbn [fst snd].
    repeat split; try done; lia.
  - lia.
Qed.

(** draw_line draws the pixels of [line_points] and no others: from one end
    to the other, one per step along the longer axis, each the nearest to the
    ideal line (halves towards the start), in as many rounds as there are
    points. *)
Theorem draw_line_ok fuel x1 y1 x2 y2 c f :
  screen_ok f ->
  - 2 ^ 26 <= x1 < 2 ^ 26 -> - 2 ^ 26 <= y1 < 2 ^ 26 ->
  - 2 ^ 26 <= x2 < 2 ^ 26 -> - 2 ^ 26 <= y2 < 2 ^ 26 ->
  Z.max (Z.abs (x2 - x1)) (Z.abs (y2 - y1)) < Z.of_nat fuel ->
  returns (draw_line fuel x1 y1 x2 y2 c) f tt (fun f' =>
    forall x y, on_screen_at f x y = true ->
      pixel f' x y =
        (if bool_decide ((x, y) ∈ line_points x1 y1 x2 y2) then u32 c else pixel f x y)) /\
  line_points x1 y1 x2 y2 !! 0%nat = Some (x1, y1) /\
  last (line_points x1 y1 x2 y2) = Some (x2, y2) /\
  (forall x y, (x, y) ∈ line_points x1 y1 x2 y2 ->
     2 * Z.abs (Z.abs (x2 - x1) * Z.abs (y - y1) - Z.abs (y2 - y1) * Z.abs (x - x1)) <=
       Z.max (Z.abs (x2 - x1)) (Z.abs (y2 - y1))).
Proof.
  intros Hok H1 H2 H3 H4 Hf. split; [|split; [|split]].
  - apply wp_returns. apply draw_line_spec; try done. split; [done|].
    intros x y Hon. by apply pixel_plot_all.
  - change 0%nat with (Z.to_nat 0). rewrite lookup_line, line_at_0 by lia. do 2 f_equal; lia.
  - apply line_last.
  - intros x y. apply line_points_near.
Qed.

(** A screen of 16 by 48 pixels. *)
Module SmallFrame.
Definition fb1 : fbuf := mk_fb (Some (gset_to_gmap 0 (list_to_set (seqZ 0 768)))) 16 48 64.

Lemma cells1 i : 0 <= i < 768 -> cells fb1 !! i = Some 0.
Proof.
  intros Hi. apply lookup_gset_to_gmap_Some. split; [|done]. apply elem_of_list_to_set, elem_of_seqZ. lia.
Qed.

Lemma fb1_ok : screen_ok fb1.
Proof.
  constructor; cbn; try lia; [done|]. eexists. split; [done|]. intros i Hi. change (64 / 4 * 48) with 768 in Hi.
  exists 0. split; [|done]. by apply (cells1 i).
Qed.

(** From (1, 2) to (13, 6): the third point is (3, 3). *)
Lemma draw_line_ok_witness :
  returns (draw_line 13 1 2 13 6 7) fb1 tt (fun f' => pixel f' 3 3 = 7 /\ pixel f' 3 2 = 0).
Proof.
  destruct (draw_line_ok 13 1 2 13 6 7 fb1) as [(f' & Hf & Hp) _]; [exact fb1_ok | lia.. |].
  exists f'. split; [exact Hf|]. split; (etrans; [by apply Hp|]); by vm_compute.
Defined.
End SmallFrame.
