(* ===== verification/VgaTermProps.v ===== *)
(** The text terminal shows what a reference terminal shows: glyphs, line
    breaks, scrolling and erasing as operations on the picture, and every byte
    goes over the serial line; no text makes it touch memory outside the frame
    buffer. *)
From S2P Require Import Prelude CString CStdlib Stdio StdioProps Ports Serial SerialProps Vga VgaProps Fonts VgaTerm.

(** ** Painting *)

(** [g] is [f] with the pixels of [P] in colour [c]. *)
Record painted (f g : fbuf) (P : Z -> Z -> bool) (c : Z) : Prop := {
  pt_ok : screen_ok g;
  pt_shape : same_shape f g;
  pt_pixel : forall x y, on_screen_at f x y = true ->
    pixel g x y = if P x y then u32 c else pixel f x y
}.

Lemma painted_none f c : screen_ok f -> painted f f (fun _ _ => false) c.
Proof. by constructor. Qed.

Lemma painted_ext f g P P' c : painted f g P c ->
  (forall x y, on_screen_at f x y = true -> P' x y = P x y) -> painted f g P' c.
Proof. intros [Ho Hs Hp] He. constructor; [done | done |]. intros x y Hon. rewrite He, Hp; done. Qed.

Lemma painted_trans f g h P P' c : painted f g P c -> painted g h P' c ->
  painted f h (fun x y => P x y || P' x y) c.
Proof.
  intros [Ho Hs Hp] [Ho' Hs' Hp']. constructor; [done | by eapply shape_trans |].
  intros x y Hon. rewrite Hp', Hp by (done || by rewrite (shape_screen f)).
  by destruct (P x y), (P' x y).
Qed.

Lemma wp_paint_pixel x y c f (Q : unit -> fbuf -> Prop) : screen_ok f ->
  (forall g, painted f g (fun x' y' => bool_decide ((x, y) = (x', y'))) c -> Q tt g) ->
  wp (set_pixel x y c) Q f.
Proof.
  intros Hok HQ. apply wp_set_pixel; [done|]. apply HQ. constructor; [by apply plot_ok | apply plot_shape |].
  intros x' y' Hon. by rewrite pixel_plot.
Qed.

(** A loop whose rounds paint paints the union. *)
Lemma wp_paint_loop n body (P : Z -> Z -> Z -> bool) (R : Z -> Z -> bool) c f (Q : unit -> fbuf -> Prop) :
  0 <= n -> screen_ok f ->
  (forall k g, 0 <= k < n -> screen_ok g -> same_shape f g ->
     wp (body k) (fun _ h => painted g h (P k) c) g) ->
  (forall x y, R x y = true <-> exists k, 0 <= k < n /\ P k x y = true) ->
  (forall g, painted f g R c -> Q tt g) -> wp (repeat_n n body) Q f.
Proof.
  intros Hn Hok Hb HR HQ.
  apply (wp_repeat_n (fun k g => painted f g (fun x y => existsb (fun j => P j x y) (seqZ 0 k)) c)).
  - done.
  - by apply painted_none.
  - intros k g Hk Hg. eapply wp_mono; [apply Hb; [done | apply Hg | apply Hg]|].
    intros [] h Hh. eapply painted_ext; [by eapply painted_trans|]. intros x y _.
    rewrite seqZ_app, existsb_app by lia.
    change (seqZ (0 + k) 1) with [0 + (0 + k)]. cbn [existsb]. by rewrite orb_false_r, !Z.add_0_l.
  - intros g Hg. apply HQ. eapply painted_ext; [exact Hg|]. intros x y _.
    apply eq_true_iff_eq. rewrite HR, existsb_exists.
    split; intros (k & Hk & Hp); exists k; (split; [|done]).
    + apply list_elem_of_In, elem_of_seqZ. lia.
    + apply list_elem_of_In, elem_of_seqZ in Hk. lia.
Qed.

(** The inner rectangle loop of the source: [nx] columns in [ny] rows. *)
Definition in_rect (px py nx ny x y : Z) : bool :=
  (px <=? x) && (x <? px + nx) && (py <=? y) && (y <? py + ny).

Lemma in_rect_spec px py nx ny x y :
  in_rect px py nx ny x y = true <-> px <= x < px + nx /\ py <= y < py + ny.
Proof. unfold in_rect. rewrite !andb_true_iff, !Z.leb_le, !Z.ltb_lt. lia. Qed.

Lemma paint_rect_spec (fx fy : Z -> Z) px py nx ny c f (Q : unit -> fbuf -> Prop) :
  screen_ok f -> 0 <= nx -> 0 <= ny ->
  (forall k, 0 <= k < nx -> fx k = px + k) -> (forall k, 0 <= k < ny -> fy k = py + k) ->
  (forall g, painted f g (in_rect px py nx ny) c -> Q tt g) ->
  wp (repeat_n ny (fun row => repeat_n nx (fun col => set_pixel (fx col) (fy row) c))) Q f.
Proof.
  intros Hok Hnx Hny Hfx Hfy HQ.
  eapply (wp_paint_loop ny _ (fun row => in_rect px (py + row) nx 1)); [done | done | | | exact HQ].
  - intros row g Hrow Hg _.
    eapply (wp_paint_loop nx _ (fun col => in_rect (px + col) (py + row) 1 1)
      (in_rect px (py + row) nx 1)); [done | done | | | done].
    + intros col h Hcol Hh _. rewrite Hfx, Hfy by done. apply wp_paint_pixel; [done|].
      intros h' Hh'. eapply painted_ext; [exact Hh'|]. intros x y _. apply eq_true_iff_eq.
      rewrite in_rect_spec, bool_decide_eq_true. split; [intros; f_equal; lia | intros; simplify_eq; lia].
    + intros x y. rewrite in_rect_spec. split.
      * intros. exists (x - px). rewrite in_rect_spec. lia.
      * intros (col & Hcol & Hin). rewrite in_rect_spec in Hin. lia.
  - intros x y. rewrite in_rect_spec. split.
    + intros. exists (y - py). rewrite in_rect_spec. lia.
    + intros (row & Hrow & Hin). rewrite in_rect_spec in Hin. lia.
Qed.

(** Bit [x] from the left of row [y] of a glyph. *)
Definition glyph_bit (font : list Z) (base x y : Z) : bool :=
  Z.testbit (default 0 (font !! Z.to_nat (base + y))) (7 - x).

Definition glyph_at (font : list Z) (base rows px py x y : Z) : bool :=
  in_rect px py 8 rows x y && glyph_bit font base (x - px) (y - py).

Lemma draw_glyph_spec font base rows px py c f (Q : unit -> fbuf -> Prop) :
  screen_ok f -> 0 <= base -> 0 <= rows <= 16 -> base + rows <= zlen font ->
  INT_MIN <= px <= INT_MAX - 8 -> INT_MIN <= py <= INT_MAX - 16 ->
  (forall g, painted f g (glyph_at font base rows px py) c -> Q tt g) ->
  wp (draw_glyph font base rows px py c) Q f.
Proof.
  intros Hok Hb Hr Hl Hx Hy HQ. unfold draw_glyph.
  eapply (wp_paint_loop rows _ (fun row x y => in_rect px (py + row) 8 1 x y && glyph_bit font base (x - px) row));
    [lia | done | | | exact HQ].
  - intros row g Hrow Hg _.
    eapply (wp_paint_loop 8 _ (fun col x y => bool_decide ((px + col, py + row) = (x, y)) &&
      glyph_bit font base col row) (fun x y => in_rect px (py + row) 8 1 x y && glyph_bit font base (x - px) row));
      [lia | done | | |].
    + intros col g' Hcol Hg' _. wp_steps. unfold glyph_row. destruct (Z.leb_spec 0 (base + row)); [|lia].
      destruct (lookup_lt_is_Some_2 font (Z.to_nat (base + row))) as [b Hbr]; [lia|]. rewrite Hbr. wp_steps.
      rewrite land_bit by lia. rewrite negb_involutive. unfold glyph_bit. rewrite Hbr. cbn [default from_option id].
      destruct (Z.testbit b (7 - col)).
      * wp_steps. apply wp_int_op; [unfold INT_MIN, INT_MAX in *; lia|].
        wp_steps. apply wp_int_op; [unfold INT_MIN, INT_MAX in *; lia|].
        apply wp_paint_pixel; [done|]. intros h Hh. eapply painted_ext; [exact Hh|].
        intros. cbv beta. by rewrite andb_true_r.
      * wp_steps. eapply painted_ext; [by apply painted_none|]. intros. cbv beta. apply andb_false_r.
    + intros x y. rewrite andb_true_iff, in_rect_spec. split.
      * intros [Hin Hbit]. exists (x - px). split; [lia|]. rewrite Hbit, andb_true_r.
        apply bool_decide_eq_true_2. f_equal; lia.
      * intros (col & Hcol & [Hd%bool_decide_eq_true Hbit]%andb_true_iff). simplify_eq.
        replace (px + col - px) with col by lia. split; [lia | done].
    + done.
  - intros x y. unfold glyph_at. rewrite andb_true_iff, in_rect_spec. split.
    + intros [Hin Hbit]. exists (y - py). split; [lia|]. rewrite Hbit, andb_true_r. apply in_rect_spec. lia.
    + intros (row & Hrow & [Hin%in_rect_spec Hbit]%andb_true_iff).
      replace (y - py) with row by lia. split; [lia | done].
Qed.

(** ** Scrolling *)

(** The cells below [n] hold what was [d] cells further on. *)
Record moved (f g : fbuf) (d n : Z) : Prop := {
  mv_ok : screen_ok g;
  mv_shape : same_shape f g;
  mv_cells : forall i, 0 <= i < stride f * fb0_height f ->
    cells g !! i = if i <? n then cells f !! (i + d) else cells f !! i
}.

Lemma with_cells_shape m f : same_shape f (with_cells m f).
Proof. done. Qed.

Lemma moved_step f g d n : screen_ok f -> 0 <= d -> 0 <= n -> n + d < stride f * fb0_height f -> moved f g d n ->
  wp (let! p := ld_pix (u64 (n + d)) in st_pix (u64 n) p) (fun _ h => moved f h d (n + 1)) g.
Proof.
  intros Hf Hd Hn Hlt [Hg Hs Hc]. pose proof (so_size _ Hf). pose proof (stride_width f Hf).
  destruct Hs as (Hw & Hh & Hp). assert (Hst : stride g = stride f) by (unfold stride; congruence).
  unfold u64. rewrite !Z.mod_small by nia. wp_steps. apply wp_ld_pix; [done | rewrite Hst, Hh; lia |].
  apply wp_st_pix; [done | rewrite Hst, Hh; lia |].
  destruct (cells_mapped f (n + d) Hf ltac:(lia)) as [_ (v & Hv & Hv32)].
  assert (Hgv : cells g !! (n + d) = Some v).
  { rewrite Hc by lia. destruct (Z.ltb_spec (n + d) n); [lia | done]. }
  rewrite Hgv. cbn [default from_option id]. constructor; [by apply insert_ok | done |].
  intros i Hi. cbn [cells with_cells fb0_address default from_option id].
  change (cells (with_cells ?m g)) with m. destruct (decide (i = n)) as [->|Hne].
  - rewrite lookup_insert_eq, Hv32. destruct (Z.ltb_spec n (n + 1)); [done | lia].
  - rewrite lookup_insert_ne by done. rewrite Hc by done.
    destruct (Z.ltb_spec i n), (Z.ltb_spec i (n + 1)); done || lia.
Qed.

Lemma move_rows_spec f k : screen_ok f -> 0 <= k <= fb0_height f ->
  wp (repeat_n (fb0_height f - k) (fun j =>
        let row := k + j in
        repeat_n (stride f) (fun col =>
          let dest_row := row - k in
          let! p := ld_pix (u64 (row * stride f + col)) in
          st_pix (u64 (dest_row * stride f + col)) p)))
    (fun _ g => moved f g (k * stride f) ((fb0_height f - k) * stride f)) f.
Proof.
  intros Hok Hk. pose proof (stride_width f Hok). pose proof (so_width _ Hok).
  apply (wp_repeat_n (fun j g => moved f g (k * stride f) (j * stride f))).
  - lia.
  - constructor; [done | done |]. intros i Hi. destruct (Z.ltb_spec i (0 * stride f)); [lia | done].
  - intros j g Hj Hg. cbv zeta.
    apply (wp_repeat_n (fun col g => moved f g (k * stride f) (j * stride f + col))).
    + lia.
    + by rewrite Z.add_0_r.
    + intros col h Hcol Hh.
      replace ((k + j) * stride f + col) with (j * stride f + col + k * stride f) by lia.
      replace (k + j - k) with j by lia. rewrite Z.add_assoc. apply moved_step; [done | nia..| done].
    + intros h Hh. by replace ((j + 1) * stride f) with (j * stride f + stride f) by lia.
  - done.
Qed.

(** Cells from [a] on, [n] of them, in colour [c]. *)
Lemma fill_cells_spec f a n c : screen_ok f -> 0 <= a -> 0 <= n -> a + n <= stride f * fb0_height f ->
  wp (repeat_n n (fun i => st_pix (u64 (a + i)) c)) (fun _ g =>
    screen_ok g /\ same_shape f g /\ forall i, 0 <= i < stride f * fb0_height f ->
      cells g !! i = if (a <=? i) && (i <? a + n) then Some (u32 c) else cells f !! i) f.
Proof.
  intros Hok Ha Hn Hl. pose proof (so_size _ Hok). pose proof (stride_width f Hok).
  apply (wp_repeat_n (fun k g => screen_ok g /\ same_shape f g /\
    forall i, 0 <= i < stride f * fb0_height f ->
      cells g !! i = if (a <=? i) && (i <? a + k) then Some (u32 c) else cells f !! i)).
  - done.
  - split; [done|]. split; [done|]. intros i Hi.
    destruct (Z.leb_spec a i), (Z.ltb_spec i (a + 0)); done || lia.
  - intros k g Hk (Hg & Hs & Hc). pose proof Hs as (Hw & Hh & Hp).
    assert (Hst : stride g = stride f) by (unfold stride; congruence).
    unfold u64. rewrite Z.mod_small by nia. apply wp_st_pix; [done | rewrite Hst, Hh; lia |].
    split; [by apply insert_ok|]. split; [done|]. intros i Hi. change (cells (with_cells ?m g)) with m.
    destruct (decide (i = a + k)) as [->|].
    + rewrite lookup_insert_eq. destruct (Z.leb_spec a (a + k)), (Z.ltb_spec (a + k) (a + (k + 1))); done || lia.
    + rewrite lookup_insert_ne by done. rewrite Hc by done.
      destruct (Z.leb_spec a i), (Z.ltb_spec i (a + k)), (Z.ltb_spec i (a + (k + 1))); done || lia.
  - done.
Qed.

(** ** The reference terminal *)

(** A picture and the place of the next character. *)
Record tty := mk_tty { img : Z -> Z -> Z; tx : Z; ty : Z }.

Section reference.
(** The size of the screen and the colours. *)
Context (W H ink bg : Z).

(** The picture moves up by a line of text. *)
Definition scrolled (p : Z -> Z -> Z) (x y : Z) : Z := if y <? H - 16 then p x (y + 16) else bg.
Definition over (P : Z -> Z -> bool) (c : Z) (p : Z -> Z -> Z) (x y : Z) : Z := if P x y then c else p x y.

(** Half a character to the right, or to the next line. *)
Definition advance (t : tty) : tty :=
  let x := tx t + 4 in
  let '(x, y) := if W <=? x then (0, ty t + 16) else (x, ty t) in
  if H <=? y then mk_tty (scrolled (img t)) x (y - 16) else mk_tty (img t) x y.

(** To the next line, which is never the last one. *)
Definition newline (t : tty) : tty :=
  if H - 16 <=? ty t + 16 then mk_tty (scrolled (img t)) 0 (ty t) else mk_tty (img t) 0 (ty t + 16).

Definition show (c : Z) (t : tty) : tty :=
  let t := advance (mk_tty (over (glyph_at g_8x16_font (c * 16) 16 (tx t) (ty t)) ink (img t)) (tx t) (ty t)) in
  advance (mk_tty (img t) (tx t + 1) (ty t)).

(** Back by eight columns, or to the end of the line above; nine columns are
    erased. *)
Definition erase (t : tty) : tty :=
  if (tx t =? 0) && (ty t =? 0) then t else
  let '(x, y) := if tx t =? 0 then (W - 8, ty t - 16) else (tx t - 8, ty t) in
  mk_tty (over (in_rect x y 9 16) bg (img t)) x y.

Definition tty_put (t : tty) (c : Z) : tty :=
  if c =? 9 then advance (mk_tty (img t) (4 * ((tx t + 4) / 4)) (ty t))
  else if c =? 13 then advance (mk_tty (img t) 0 (ty t))
  else if c =? 10 then advance (newline t)
  else if c =? 8 then erase t
  else if c =? 0 then t
  else show (if 128 <=? c then 63 else c) t.

(** The place is in a line of text of the screen, at most [n] columns to the
    left or [r] to the right of it. *)
Record place_ok (n r : Z) (t : tty) : Prop := {
  pl_x : - n <= tx t < W + r;
  pl_y : 0 <= ty t < H;
  pl_line : ty t mod 16 = 0
}.
End reference.

(** What a character sends over the serial line. *)
Definition echo (c : Z) : list Z := if c =? 8 then [8; 8; 32; 8] else [c].

(** A character takes nine columns and erasing gives eight back. *)
Lemma erase_after_show W H ink bg c t : 0 <= tx t -> tx t + 9 < W -> ty t < H ->
  tx (erase W bg (show W H ink bg c t)) = tx t + 1.
Proof.
  intros Hx HW HH. unfold show, advance. cbn [tx ty img].
  destruct (Z.leb_spec W (tx t + 4)); [lia|]. destruct (Z.leb_spec H (ty t)); [lia|]. cbn [tx ty img].
  destruct (Z.leb_spec W (tx t + 4 + 1 + 4)); [lia|]. destruct (Z.leb_spec H (ty t)); [lia|].
  unfold erase. cbn [tx ty img]. destruct (Z.eqb_spec (tx t + 4 + 1 + 4) 0); [lia|]. cbn. lia.
Qed.

Section term_specs.
Context {E : Type} {PE : Ports E} {SL : SerialLine E}.
Abbreviation st := (term E).
Implicit Types (s : st) (t : tty).

Lemma wp_on_fb {A} (k : M fbuf A) (Q : A -> st -> Prop) s :
  wp k (fun a f => Q a (set_fb f s)) (fb s) -> wp (on_fb k) Q s.
Proof. unfold wp, on_fb, obind. by destruct (k (fb s)) as [[a f]| | |]. Qed.

Lemma wp_on_ser {A} (k : M (serial E) A) (Q : A -> st -> Prop) s :
  wp k (fun a x => Q a (set_ser x s)) (ser s) -> wp (on_ser k) Q s.
Proof. unfold wp, on_ser, obind. by destruct (k (ser s)) as [[a x]| | |]. Qed.

(** The terminal shows [t]. *)
Record shows W H ink bg (s : st) (t : tty) : Prop := {
  sh_screen : screen_ok (fb s);
  sh_width : fb0_width (fb s) = W;
  sh_height : fb0_height (fb s) = H;
  sh_size : 8 <= W < 2 ^ 29 /\ 16 <= H < 2 ^ 29;
  sh_font : font_width s = 8 /\ font_height s = 16 /\ font_size s = 1;
  sh_colors : text_color s = ink /\ back_color s = bg /\ u32 ink = ink /\ u32 bg = bg;
  sh_cursor : cur_x s = tx t /\ cur_y s = ty t;
  sh_image : forall x y, 0 <= x < W -> 0 <= y < H -> pixel (fb s) x y = img t x y
}.

Context (W H ink bg : Z).
Abbreviation rep := (shows W H ink bg).

Lemma on_screen_iff s t x y : rep s t -> on_screen_at (fb s) x y = true <-> 0 <= x < W /\ 0 <= y < H.
Proof.
  intros Hr. unfold on_screen_at. rewrite (sh_width _ _ _ _ _ _ Hr), (sh_height _ _ _ _ _ _ Hr).
  rewrite !andb_true_iff, !Z.leb_le, !Z.ltb_lt. lia.
Qed.

Lemma rep_cur s t x y : rep s t -> rep (set_cur x y s) (mk_tty (img t) x y).
Proof. intros [? ? ? ? ? ? _ ?]. by constructor. Qed.

(** A new frame buffer of the same shape, with a new picture. *)
Lemma rep_fb s t g p : rep s t -> screen_ok g -> same_shape (fb s) g ->
  (forall x y, 0 <= x < W -> 0 <= y < H -> pixel g x y = p x y) ->
  rep (set_fb g s) (mk_tty p (tx t) (ty t)).
Proof.
  intros [? Hw Hh ? ? ? ? _] Hg (Hw' & Hh' & _) Hp.
  constructor; cbn [fb set_fb font_width font_height font_size text_color back_color cur_x cur_y tx ty img];
    try done; congruence.
Qed.

Lemma rep_painted s t g P c : rep s t -> painted (fb s) g P c -> u32 c = c ->
  rep (set_fb g s) (mk_tty (over P c (img t)) (tx t) (ty t)).
Proof.
  intros Hr [Hg Hs Hp] Hc. eapply rep_fb; [done | done | done |]. intros x y Hx Hy.
  rewrite Hp by (by apply (on_screen_iff s t)). unfold over. rewrite Hc.
  by rewrite (sh_image _ _ _ _ _ _ Hr) by done.
Qed.

Lemma scroll_up_spec s t (Q : unit -> st -> Prop) : rep s t ->
  (forall g, rep (set_fb g s) (mk_tty (scrolled H bg (img t)) (tx t) (ty t)) -> Q tt (set_fb g s)) ->
  wp scroll_up Q s.
Proof.
  intros Hr HQ. pose proof Hr as [Hok Hw Hh Hsz (Hfw & Hfh & Hfs) (Htc & Hbc & _ & Hbg) _ Himg].
  destruct (cells_mapped (fb s) 0 Hok) as [Ha _].
  { pose proof (stride_width _ Hok). pose proof (so_width _ Hok). nia. }
  pose proof (stride_width _ Hok) as [Hst Hsw]. pose proof (so_size _ Hok). pose proof (so_width _ Hok).
  unfold scroll_up. wp_steps. rewrite Ha. wp_steps. rewrite Hfh, Hbc. fold (stride (fb s)).
  apply wp_on_fb. eapply wp_mono; [apply (move_rows_spec (fb s) 16); [done | lia]|].
  intros [] g [Hg Hs Hc]. apply wp_on_fb. rewrite Hh in *. pose proof Hs as (Hw' & Hh' & Hp').
  assert (Hst' : stride g = stride (fb s)) by (unfold stride; congruence).
  cbn [fb set_fb]. unfold u64 at 1 3. rewrite !Z.mod_small by nia. rewrite <- Hst'.
  eapply wp_mono; [apply (fill_cells_spec g ((H - 16) * stride g) (16 * stride g) bg);
    [done | nia | lia | rewrite Hh', Hh; nia]|].
  intros [] h (Hok' & Hs' & Hc'). change (set_fb h (set_fb g s)) with (set_fb h s). apply HQ.
  eapply rep_fb; [done | done | by eapply shape_trans |]. intros x y Hx Hy.
  unfold pixel. rewrite (shape_stride g h) by done. rewrite Hst'.
  rewrite Hc' by (rewrite Hst', Hh', Hh; nia). rewrite Hst'. unfold scrolled.
  destruct (Z.ltb_spec y (H - 16)).
  - destruct (Z.leb_spec ((H - 16) * stride (fb s)) (y * stride (fb s) + x)); [nia|]. cbn [andb].
    rewrite Hc by nia. destruct (Z.ltb_spec (y * stride (fb s) + x) ((H - 16) * stride (fb s))); [|nia].
    rewrite <- Himg by lia. unfold pixel. do 2 f_equal. lia.
  - destruct (Z.leb_spec ((H - 16) * stride (fb s)) (y * stride (fb s) + x)); [|nia].
    destruct (Z.ltb_spec (y * stride (fb s) + x) ((H - 16) * stride (fb s) + 16 * stride (fb s))); [|nia].
    cbn. done.
Qed.

Lemma s32_small_of z : - 2 ^ 31 <= z < 2 ^ 31 -> s32 z = z.
Proof. intros. apply s32_small. lia. Qed.

Lemma rep_eta s t x y : cur_x s = x -> cur_y s = y -> set_cur x y s = s.
Proof. intros <- <-. by destruct s. Qed.

Ltac fits := unfold INT_MIN, INT_MAX; cbn [tx ty img cur_x cur_y set_cur set_fb set_ser fb]; lia.

Lemma update_cur_pos_spec s t (Q : unit -> st -> Prop) : rep s t ->
  - 2 ^ 30 <= tx t < 2 ^ 30 -> - 2 ^ 30 <= ty t < 2 ^ 30 ->
  (forall s', rep s' (advance W H bg t) -> ser s' = ser s -> Q tt s') -> wp update_cur_pos Q s.
Proof.
  intros Hr Hx Hy HQ. pose proof Hr as [Hok Hw Hh Hsz (Hfw & Hfh & Hfs) Hcol [Hcx Hcy] Himg].
  unfold update_cur_pos. wp_steps. rewrite Hfw, Hcx, Hw, Hh, Hfh.
  change (Z.quot (s32 8) 2) with 4. change (s32 16) with 16. apply wp_int_op; [fits|].
  unfold set_x, set_y. wp_steps. rewrite !s32_small_of by lia. unfold advance in HQ.
  destruct (Z.leb_spec W (tx t + 4)).
  - wp_steps. cbn [cur_y set_cur cur_x]. rewrite Hcy. apply wp_int_op; [fits|]. wp_steps. cbn [cur_y set_cur].
    destruct (Z.leb_spec H (ty t + 16)).
    + wp_steps. eapply scroll_up_spec; [by repeat eapply rep_cur|]. intros g Hg. wp_steps.
      cbn [cur_y set_cur set_fb]. apply wp_int_op; [fits|]. wp_steps. apply HQ; [|done].
      exact (rep_cur _ _ 0 (ty t + 16 - 16) Hg).
    + wp_steps. apply HQ; [|done]. exact (rep_cur _ _ 0 (ty t + 16) Hr).
  - wp_steps. cbn [cur_y set_cur]. rewrite Hcy. destruct (Z.leb_spec H (ty t)).
    + wp_steps. eapply scroll_up_spec; [by eapply rep_cur|]. intros g Hg. wp_steps.
      cbn [cur_y set_cur set_fb]. apply wp_int_op; [fits|]. wp_steps. apply HQ; [|done].
      exact (rep_cur _ _ (tx t + 4) (ty t - 16) Hg).
    + wp_steps. apply HQ; [|done]. exact (rep_cur _ _ (tx t + 4) (ty t) Hr).
Qed.

Lemma create_newline_spec s t (Q : unit -> st -> Prop) : rep s t -> 0 <= ty t < 2 ^ 30 ->
  (forall s', rep s' (newline H bg t) -> ser s' = ser s -> Q tt s') -> wp create_newline Q s.
Proof.
  intros Hr Hy HQ. pose proof Hr as [Hok Hw Hh Hsz (Hfw & Hfh & Hfs) Hcol [Hcx Hcy] Himg].
  unfold create_newline, set_x, set_y. wp_steps. cbn [cur_x cur_y set_cur]. rewrite Hfh, Hh, Hcy.
  rewrite !s32_small_of by lia. rewrite !u64_small by lia. unfold newline in HQ.
  destruct (Z.leb_spec (H - 16) (ty t + 16)).
  - wp_steps. eapply scroll_up_spec; [by repeat eapply rep_cur|]. intros g Hg. wp_steps.
    cbn [cur_x cur_y set_cur set_fb]. replace (ty t + 16 - 16) with (ty t) by lia.
    rewrite s32_small_of by lia. apply HQ; [|done]. exact (rep_cur _ _ 0 (ty t) Hg).
  - wp_steps. apply HQ; [|done]. exact (rep_cur _ _ 0 (ty t + 16) Hr).
Qed.

Lemma draw_char_spec c s t (Q : unit -> st -> Prop) : rep s t -> 0 <= c < 128 ->
  - 2 ^ 29 <= tx t < 2 ^ 30 -> 0 <= ty t < 2 ^ 29 ->
  (forall s', rep s' (advance W H bg
      (mk_tty (over (glyph_at g_8x16_font (c * 16) 16 (tx t) (ty t)) ink (img t)) (tx t) (ty t))) ->
     ser s' = ser s -> Q tt s') ->
  wp (draw_char (tx t) (ty t) c ink) Q s.
Proof.
  intros Hr Hc Hx Hy HQ. pose proof Hr as [Hok Hw Hh Hsz (Hfw & Hfh & Hfs) Hcol [Hcx Hcy] Himg].
  destruct font_sizes as (_ & Hfont & _). unfold draw_char. wp_steps. rewrite Hfs, Hfh.
  change (u64 (1 * 16) =? 8) with false. cbv iota. unfold draw_char_8x16. wp_steps. apply wp_on_fb.
  assert (Hs8 : s8 c = c) by (unfold s8; rewrite Z.mod_small; lia). rewrite Hs8. wp_steps.
  apply draw_glyph_spec; [done | lia | lia | lia | fits | fits |]. intros g Hg.
  eapply update_cur_pos_spec; [eapply rep_painted; [done | done | apply Hcol] | cbn; lia | cbn; lia |].
  intros s' Hs' Hser. by apply HQ.
Qed.

Lemma line_mod a b k : a mod 16 = 0 -> b = a + k * 16 -> b mod 16 = 0.
Proof. intros Ha ->. by rewrite Z.mod_add by lia. Qed.

Lemma advance_place n r t : 8 <= W -> 16 <= H -> 0 <= n -> 0 <= r -> - n <= tx t -> 0 <= ty t < H ->
  ty t mod 16 = 0 -> place_ok W H n r (advance W H bg t).
Proof.
  intros HW HH Hn Hrr Hx Hy Hm. unfold advance.
  destruct (Z.leb_spec W (tx t + 4)); cbn beta iota; case_if; constructor; cbn [tx ty]; try lia.
  all: first [apply (line_mod (ty t) _ 0); [done | lia] | apply (line_mod (ty t) _ 1); [done | lia]
    | apply (line_mod (ty t) _ (-1)); [done | lia]].
Qed.

Lemma show_char_spec c s t n r (Q : unit -> st -> Prop) : rep s t -> 0 <= c < 128 ->
  place_ok W H n r t -> 0 <= n < 2 ^ 29 -> 0 <= r < 2 ^ 28 ->
  (forall s', rep s' (show W H ink bg c t) -> ser s' = ser s -> Q tt s') -> wp (show_char c ink) Q s.
Proof.
  intros Hr Hc [Hx Hy Hm] Hn Hrr HQ. pose proof Hr as [_ _ _ Hsz _ _ [Hcx Hcy] _].
  unfold show_char, set_x. wp_steps. rewrite Hcx, Hcy.
  apply draw_char_spec; [done | done | lia | lia |]. intros s1 Hr1 Hs1. unfold show in HQ.
  set (t1 := advance W H bg (mk_tty (over _ _ _) _ _)) in *.
  assert (Hp1 : place_ok W H n r t1) by (apply advance_place; cbn [tx ty]; try done; lia).
  destruct Hp1 as [Hx1 Hy1 Hm1]. pose proof Hr1 as [_ _ _ _ _ _ [Hcx1 Hcy1] _].
  wp_steps. rewrite Hcx1. apply wp_int_op; [fits|]. wp_steps. rewrite Hcy1.
  eapply update_cur_pos_spec; [by eapply rep_cur | cbn; lia | cbn; lia |].
  intros s' Hs' Hser. apply HQ; [exact Hs' |]. by rewrite Hser.
Qed.

(** The line of the terminal: what it has sent. *)
Definition line (s : st) : list Z := sent (port_env (ser s)).

Lemma rep_ser s t x : rep s t -> rep (set_ser x s) t.
Proof. intros [? ? ? ? ? ? ? ?]. by constructor. Qed.

Lemma send_spec fuel c s t (Q : unit -> st -> Prop) : rep s t -> log_ok (ser s) -> (patience < fuel)%nat ->
  (forall s', rep s' t -> log_ok (ser s') -> line s' = line s ++ [u8 c] -> Q tt s') ->
  wp (on_ser (serial_putchar fuel c)) Q s.
Proof.
  intros Hr Hl Hf HQ. apply wp_on_ser. apply serial_putchar_spec; [done | done |]. intros x Hx Hs _.
  apply HQ; [by apply rep_ser | done | exact Hs].
Qed.

Lemma clearchar_spec fuel s t (Q : unit -> st -> Prop) : rep s t -> log_ok (ser s) -> (patience < fuel)%nat ->
  (forall s', rep s' t -> log_ok (ser s') -> line s' = line s ++ [8; 32; 8] -> Q tt s') ->
  wp (on_ser (serial_clearchar fuel)) Q s.
Proof.
  intros Hr Hl Hf HQ. apply wp_on_ser. unfold serial_clearchar. wp_steps.
  apply serial_putchar_spec; [done | done |]. intros x1 Hx1 Hs1 _. wp_steps.
  apply serial_putchar_spec; [done | done |]. intros x2 Hx2 Hs2 _.
  apply serial_putchar_spec; [done | done |]. intros x3 Hx3 Hs3 _.
  apply HQ; [by apply rep_ser | done |]. unfold line. cbn [ser set_ser].
  rewrite Hs3, Hs2, Hs1, <- !app_assoc. done.
Qed.

Lemma backspace_spec fuel n r s t (Q : unit -> st -> Prop) : rep s t -> place_ok W H n r t -> 0 <= n < 2 ^ 29 -> 0 <= r < 2 ^ 28 ->
  log_ok (ser s) -> (patience < fuel)%nat ->
  (forall s', rep s' (erase W bg t) -> log_ok (ser s') -> line s' = line s ++ [8; 32; 8] -> Q tt s') ->
  wp (backspace_manage fuel) Q s.
Proof.
  intros Hr0 [Hx Hy Hm] Hn Hrr Hl Hf HQ. unfold backspace_manage. wp_steps.
  eapply clearchar_spec; [done | done | done |]. intros s1 Hr Hl1 Hs1. clear Hr0.
  pose proof Hr as [Hok Hw Hh Hsz (Hfw & Hfh & Hfs) (_ & Hbc & _ & Hbg) [Hcx Hcy] Himg].
  wp_steps. rewrite Hcx, Hcy. unfold erase in HQ.
  destruct ((tx t =? 0) && (ty t =? 0)) eqn:H00; [wp_steps; by apply HQ|]. wp_steps.
  rewrite Hfw, Hfh, Hw. unfold set_x, set_y.
  assert (Herase : forall x y s2, - 2 ^ 30 <= x < 2 ^ 30 -> - 2 ^ 30 <= y < 2 ^ 30 ->
    s2 = set_cur x y s1 -> (forall s', rep s' (mk_tty (over (in_rect x y 9 16) bg (img t)) x y) ->
      ser s' = ser s1 -> Q tt s') ->
    wp (on_fb (repeat_n 16 (fun row => repeat_n (8 + 1) (fun col => set_pixel (s32 (x + col)) (s32 (y + row)) bg)))) Q s2).
  { intros x y s2 Hx2 Hy2 -> HQ2. apply wp_on_fb.
    apply (paint_rect_spec (fun col => s32 (x + col)) (fun row => s32 (y + row)) x y 9 16); [done | lia | lia | | |].
    - intros. apply s32_small_of. lia.
    - intros. apply s32_small_of. lia.
    - intros g Hg. apply HQ2; [|done]. exact (rep_painted _ _ _ _ _ (rep_cur s1 t x y Hr) Hg Hbg). }
  destruct (Z.eqb_spec (tx t) 0) as [Hx0|].
  - destruct (Z.eqb_spec (ty t) 0); [done|]. pose proof (Z.div_mod (ty t) 16 ltac:(lia)).
    wp_steps. cbn [cur_x cur_y set_cur back_color]. rewrite Hbc, !s32_small_of by lia.
    eapply Herase; [lia | lia | done |]. intros s' Hs' Hser. apply HQ; [done | by rewrite Hser |].
    unfold line. by rewrite Hser.
  - wp_steps. cbn [cur_x cur_y set_cur back_color]. rewrite Hbc, Hcy, !s32_small_of by lia.
    eapply Herase; [lia | lia | done |]. intros s' Hs' Hser. apply HQ; [done | by rewrite Hser |].
    unfold line. by rewrite Hser.
Qed.

Lemma tab_stop x : Z.land x (-4) = 4 * (x / 4).
Proof.
  change (-4) with (Z.lnot (Z.ones 2)). rewrite <- Z.ldiff_land, Z.ldiff_ones_r by lia.
  rewrite Z.shiftr_div_pow2, Z.shiftl_mul_pow2 by lia. change (2 ^ 2) with 4. lia.
Qed.

(** Every character leaves the place in a line of the screen; only erasing
    moves it to the left. *)
Lemma tty_put_place n r t c : 8 <= W -> 16 <= H -> 0 <= n -> 0 <= r -> place_ok W H n r t ->
  place_ok W H (n + 8) r (tty_put W H ink bg t c).
Proof.
  intros HW HH Hn Hrr Hp. pose proof Hp as [Hx Hy Hm]. unfold tty_put. repeat case_if.
  - apply advance_place; cbn [tx ty]; try done; try lia. pose proof (Z.div_mod (tx t + 4) 4 ltac:(lia)).
    pose proof (Z.mod_pos_bound (tx t + 4) 4 ltac:(lia)). lia.
  - apply advance_place; cbn [tx ty]; try done; lia.
  - unfold newline. case_if; apply advance_place; cbn [tx ty]; try done; try lia.
    apply (line_mod (ty t) _ 1); [done | lia].
  - unfold erase. pose proof (Z.div_mod (ty t) 16 ltac:(lia)). destruct (Z.eqb_spec (tx t) 0), (Z.eqb_spec (ty t) 0);
      cbn [andb]; constructor; cbn [tx ty]; try done; try lia.
    apply (line_mod (ty t) _ (-1)); [done | lia].
  - constructor; [lia | done | done].
  - unfold show. set (t1 := advance W H bg (mk_tty (over _ _ _) _ _)).
    assert (Hp1 : place_ok W H n r t1) by (apply advance_place; cbn [tx ty]; try done; lia).
    destruct Hp1. apply advance_place; cbn [tx ty]; try done; lia.
  - unfold show. set (t1 := advance W H bg (mk_tty (over _ _ _) _ _)).
    assert (Hp1 : place_ok W H n r t1) by (apply advance_place; cbn [tx ty]; try done; lia).
    destruct Hp1. apply advance_place; cbn [tx ty]; try done; lia.
Qed.

Lemma control_char_spec fuel c n r s t (Q : bool -> st -> Prop) : rep s t -> place_ok W H n r t -> 0 <= n < 2 ^ 29 -> 0 <= r < 2 ^ 28 ->
  log_ok (ser s) -> (patience < fuel)%nat ->
  (c = 9 \/ c = 13 \/ c = 10 \/ c = 8 \/ c = 0 -> forall s', rep s' (tty_put W H ink bg t c) ->
     log_ok (ser s') -> line s' = line s ++ (if c =? 8 then [8; 32; 8] else []) -> Q true s') ->
  (c <> 9 -> c <> 13 -> c <> 10 -> c <> 8 -> c <> 0 -> Q false s) ->
  wp (control_char fuel c) Q s.
Proof.
  intros Hr Hp Hn Hrr Hl Hf HQ HQ'. pose proof Hp as [Hx Hy Hm].
  pose proof Hr as [_ _ _ Hsz _ _ [Hcx Hcy] _]. unfold control_char, set_x.
  assert (Hsame : forall s', rep s' (tty_put W H ink bg t c) -> ser s' = ser s -> c <> 8 ->
    c = 9 \/ c = 13 \/ c = 10 \/ c = 0 -> Q true s').
  { intros s' Hs' Hser H8 Hc. apply HQ; [tauto | done | by rewrite Hser |]. unfold line. rewrite Hser.
    destruct (Z.eqb_spec c 8); [done|]. by rewrite app_nil_r. }
  unfold tty_put in *. destruct (Z.eqb_spec c 9).
  { wp_steps. rewrite Hcx. apply wp_int_op; [fits|]. wp_steps. rewrite Hcy, tab_stop.
    pose proof (Z.div_mod (tx t + 4) 4 ltac:(lia)). pose proof (Z.mod_pos_bound (tx t + 4) 4 ltac:(lia)).
    eapply update_cur_pos_spec; [by eapply rep_cur | cbn; lia | cbn; lia |].
    intros s' Hs' Hser. wp_steps. apply Hsame; [exact Hs' | exact Hser | lia | tauto]. }
  destruct (Z.eqb_spec c 13).
  { wp_steps. rewrite Hcy. eapply update_cur_pos_spec; [by eapply rep_cur | cbn; lia | cbn; lia |].
    intros s' Hs' Hser. wp_steps. apply Hsame; [exact Hs' | exact Hser | lia | tauto]. }
  destruct (Z.eqb_spec c 10).
  { wp_steps. eapply create_newline_spec; [done | lia |]. intros s1 Hr1 Hs1. wp_steps.
    eapply update_cur_pos_spec; [exact Hr1 | unfold newline; case_if; cbn; lia
      | unfold newline; case_if; cbn; lia |].
    intros s' Hs' Hser. wp_steps. apply Hsame; [exact Hs' | congruence | lia | tauto]. }
  destruct (Z.eqb_spec c 8).
  { wp_steps. eapply backspace_spec; [done | done | done | done | done | done |]. intros s' Hs' Hl' Hline.
    wp_steps. apply HQ; [tauto | done | done | done]. }
  wp_steps. destruct (Z.eqb_spec c 0) as [->|]; [by apply Hsame; auto | by apply HQ'].
Qed.

Lemma term_putchar_spec fuel c n r s t (Q : unit -> st -> Prop) : rep s t -> place_ok W H n r t -> 0 <= n < 2 ^ 29 -> 0 <= r < 2 ^ 28 ->
  log_ok (ser s) -> (patience < fuel)%nat -> 0 <= c < 256 ->
  (forall s', rep s' (tty_put W H ink bg t c) -> log_ok (ser s') -> line s' = line s ++ echo c -> Q tt s') ->
  wp (term_putchar fuel c) Q s.
Proof.
  intros Hr Hp Hn Hrr Hl Hf Hc HQ. unfold term_putchar. wp_steps.
  eapply send_spec; [done | done | done |]. intros s1 Hr1 Hl1 Hs1. rewrite u8_small in Hs1 by lia.
  wp_steps. eapply control_char_spec; [done | done | done | done | done | done | |].
  - intros Hctl s2 Hr2 Hl2 Hs2. wp_steps. apply HQ; [done | done |]. rewrite Hs2, Hs1, <- app_assoc.
    f_equal. unfold echo. by destruct (Z.eqb_spec c 8) as [->|].
  - intros H9 H13 H10 H8 H0. wp_steps. pose proof Hr1 as [_ _ _ _ _ (Htc & _) _ _]. rewrite Htc.
    eapply show_char_spec; [done | destruct (Z.leb_spec 128 c); lia | done | done | done |].
    intros s2 Hr2 Hs2. apply HQ.
    + unfold tty_put. destruct (Z.eqb_spec c 9), (Z.eqb_spec c 13), (Z.eqb_spec c 10), (Z.eqb_spec c 8),
        (Z.eqb_spec c 0); done.
    + by rewrite Hs2.
    + unfold line. rewrite Hs2. unfold line in Hs1. rewrite Hs1. unfold echo.
      by destruct (Z.eqb_spec c 8).
Qed.

(** Characters one after the other. *)
Lemma term_text_spec fuel text : forall n r s t (Q : unit -> st -> Prop),
  rep s t -> place_ok W H n r t -> 0 <= n -> n + 8 * zlen text < 2 ^ 29 -> 0 <= r < 2 ^ 28 ->
  log_ok (ser s) -> (patience < fuel)%nat -> Forall byte text ->
  (forall s', rep s' (fold_left (tty_put W H ink bg) text t) ->
     place_ok W H (n + 8 * zlen text) r (fold_left (tty_put W H ink bg) text t) ->
     log_ok (ser s') -> line s' = line s ++ mjoin (echo <$> text) -> Q tt s') ->
  wp (foldM (fun _ c => term_putchar fuel c) text tt) Q s.
Proof.
  induction text as [|c text IH]; intros n r s t Q Hr Hp Hn Hlen Hrr Hl Hf Hb HQ.
  - cbn [foldM]. wp_steps. apply HQ; cbn; [done | by rewrite Z.add_0_r | done | by rewrite app_nil_r].
  - inversion Hb as [|? ? Hc Hb']; subst. cbn [length] in Hlen. cbn [foldM]. wp_steps.
    pose proof Hr as [_ _ _ Hsz _ _ _ _].
    eapply term_putchar_spec; [done | done | lia | done | done | done | done |]. intros s1 Hr1 Hl1 Hs1.
    eapply (IH (n + 8) r); [exact Hr1 | apply tty_put_place; try done; lia | lia | lia | done | done | done | done |].
    intros s' Hs' Hp' Hl' Hline. apply HQ; [done | | done |].
    + cbn [fold_left length] in *. by replace (n + 8 * Z.of_nat (S (length text))) with (n + 8 + 8 * zlen text) by lia.
    + rewrite Hline, Hs1. cbn. by rewrite app_assoc.
Qed.

(** The screen as the terminal of the printing functions. *)
Definition screen_terminal (fuel : nat) : Terminal st :=
  {| putchar c s := match term_putchar fuel c s with Ret (_, s') => s' | _ => s end |}.

Lemma fold_putchar fuel text : forall s s',
  foldM (fun _ c => term_putchar fuel c) text tt s = Ret (tt, s') ->
  fold_left (fun s c => @putchar st (screen_terminal fuel) c s) text s = s'.
Proof.
  induction text as [|c text IH]; intros s s' Hr; cbn [foldM] in Hr; [by injection Hr|].
  unfold bind, obind in Hr. cbn [fold_left putchar screen_terminal].
  destruct (term_putchar fuel c s) as [[[] s1]| | |]; try done. by apply IH.
Qed.
End term_specs.

Section term_theorems.
Context {E : Type} {PE : Ports E} {SL : SerialLine E}.

(** putchar over a text shows exactly the picture of the reference
    terminal (glyphs at the cursor, line breaks, scrolling by a line, erasing)
    and sends the bytes over the serial line; no text makes it undefined, and
    the cursor stays in a line of the screen. *)
Theorem term_text_ok fuel text W H ink bg n r (s : term E) t :
  shows W H ink bg s t -> place_ok W H n r t -> 0 <= n -> n + 8 * zlen text < 2 ^ 29 -> 0 <= r < 2 ^ 28 ->
  log_ok (ser s) -> (patience < fuel)%nat -> Forall byte text ->
  returns (foldM (fun _ c => term_putchar fuel c) text tt) s tt (fun s' =>
    let t' := fold_left (tty_put W H ink bg) text t in
    shows W H ink bg s' t' /\ place_ok W H (n + 8 * zlen text) r t' /\
    line s' = line s ++ mjoin (echo <$> text)).
Proof.
  intros. apply wp_returns. by eapply term_text_spec.
Qed.

(** C27 printf on the screen: the text a reference formatter gives for the
    format and the arguments appears as on the reference terminal and goes over
    the serial line, and the lock is free again. *)
Theorem screen_printf_ok fuel m format f va text W H ink bg n r t (c : console (term E)) :
  serial_lock c = false -> cstr m format f -> print_text (length f) m f va = Some text ->
  (length f + length text < fuel)%nat -> (patience < fuel)%nat -> Forall byte text ->
  shows W H ink bg (screen c) t -> place_ok W H n r t -> 0 <= n -> n + 8 * zlen text < 2 ^ 29 -> 0 <= r < 2 ^ 28 ->
  log_ok (ser (screen c)) ->
  let _ := screen_terminal fuel in
  returns (printf fuel m format va) c tt (fun c' =>
    serial_lock c' = false /\
    shows W H ink bg (screen c') (fold_left (tty_put W H ink bg) text t) /\
    line (screen c') = line (screen c) ++ mjoin (echo <$> text)).
Proof.
  intros Hk Hc Ht Hf Hp Hb Hr Hpl Hn Hlen Hrr Hl ST. unfold returns.
  rewrite (printf_run fuel m format f va text c Hk Hc Ht Hf). eexists. split; [done|].
  cbn [serial_lock screen]. split; [done|].
  assert (Hw : wp (foldM (fun _ c => term_putchar fuel c) text tt) (fun _ s' =>
    shows W H ink bg s' (fold_left (tty_put W H ink bg) text t) /\
    line s' = line (screen c) ++ mjoin (echo <$> text)) (screen c)).
  { by eapply term_text_spec. }
  apply wp_run in Hw as ([] & s' & Hs' & Hq). apply fold_putchar in Hs'. unfold ST. by rewrite Hs'.
Qed.
End term_theorems.

(** A screen of 16 by 48 pixels and a line that takes every byte at once. *)
Module SmallScreen.
Import SmallFrame.

#[global] Instance wire : Ports (list Z) := {
  inb _ e := Ret (0x20, e);
  outb p c e := Ret (tt, if p =? COM1 then e ++ [c] else e);
  inl_port _ e := Ret (0, e);
  outl _ _ e := Ret (tt, e)
}.

#[global] Instance wire_line : SerialLine (list Z).
Proof.
  refine {| sent := id; polls _ := O; patience := O |}; try done.
  - intros e _. by exists 0x20, e.
  - intros e c _. by exists (e ++ [c]).
Defined.

Definition term1 : term (list Z) :=
  mk_term (mk_serial [] (replicate (Z.to_nat 8192) 0) 0) fb1 0 0 0xFFFFFFFF 0 8 16 1 true (-1) (-1).
Definition tty1 : tty := mk_tty (fun _ _ => 0) 0 0.

Lemma term1_shows : shows 16 48 0xFFFFFFFF 0 term1 tty1.
Proof.
  constructor; cbn; try done; try lia; [apply fb1_ok|]. intros x y Hx Hy. unfold pixel. rewrite cells1; [done|].
  change (stride fb1) with 16. lia.
Qed.

Lemma term1_log : log_ok (ser term1).
Proof. constructor; [by vm_compute | cbn; unfold SERIAL_LOG_SIZE; lia | done]. Qed.

Lemma tty1_place : place_ok 16 48 0 0 tty1.
Proof. constructor; cbn; lia || done. Qed.

(** "A", a line break, "b" and a backspace. *)
Lemma term_text_ok_witness :
  returns (foldM (fun _ c => term_putchar 1 c) [65; 10; 98; 8] tt) term1 tt (fun s' =>
    shows 16 48 0xFFFFFFFF 0 s' (fold_left (tty_put 16 48 0xFFFFFFFF 0) [65; 10; 98; 8] tty1) /\
    line s' = [65; 10; 98; 8; 8; 32; 8]).
Proof.
  destruct (term_text_ok 1 [65; 10; 98; 8] 16 48 0xFFFFFFFF 0 0 0 term1 tty1) as (s' & Hs & Hr & _ & Hl);
    [exact term1_shows | exact tty1_place | lia | cbn; lia | lia | exact term1_log | cbn; lia
    | repeat constructor; lia |].
  exists s'. split; [exact Hs|]. split; [exact Hr | exact Hl].
Defined.

(** printf("%d", 42). *)
Definition mem1 : gmap Z Z := list_to_map [(100, 37); (101, 100); (102, 0)].

Lemma screen_printf_ok_witness :
  let _ := screen_terminal 9 in
  returns (printf 9 mem1 100 (mk_va [42] [])) (mk_console false term1) tt (fun c' =>
    line (screen c') = [52; 50]).
Proof.
  destruct (screen_printf_ok 9 mem1 100 [37; 100] (mk_va [42] []) [52; 50] 16 48 0xFFFFFFFF 0 0 0 tty1
    (mk_console false term1)) as (c' & Hc & _ & _ & Hl);
    [done | SmallPrint.in_cstr | by vm_compute | cbn; lia | cbn; lia | repeat constructor; lia | exact term1_shows
    | exact tty1_place | lia | cbn; lia | lia | exact term1_log |].
  exists c'. split; [exact Hc | exact Hl].
Defined.
End SmallScreen.
