(* ===== verification/Irq.v ===== *)
(** Interrupt requests (kernel/src/arch/interrupt/irq_manage.c): the table of
    handlers and the dispatch.

    [Hd] names handlers and [exec] runs one on the machine [S]; an index
    outside the table is undefined.  The end of an interrupt goes to the local
    APIC where the processor has one, otherwise to the two PICs. *)
From S2P Require Import Prelude.

Definition TOTAL_IRQ : Z := 224.
Definition PIC_COMMAND_MASTER : Z := 0x20.
Definition PIC_COMMAND_SLAVE : Z := 0xA0.
Definition PIC_EOI : Z := 0x20.

Record irq_state (S Hd : Type) := mk_irq { machine : S; irq_routines : list (option Hd) }.
Arguments mk_irq {S Hd}.
Arguments machine {S Hd}.
Arguments irq_routines {S Hd}.

Section irq.
Context {S Hd : Type} (exec : Hd -> M S unit).
Context (has_apic : bool) (apic_send_eoi : M S unit) (pic_outb : Z -> Z -> M S unit).
Abbreviation st := (irq_state S Hd).

Definition on_machine {A} (k : M S A) : M st A := fun s =>
  obind (k (machine s)) (fun '(a, x) => Ret (a, mk_irq x (irq_routines s))).

Definition irq_set (irq_no : Z) (h : option Hd) : M st unit :=
  let! l := gets irq_routines in
  guard ((0 <=? irq_no) && (irq_no <? zlen l)) ;;;
  modify (fun s => mk_irq (machine s) (<[Z.to_nat irq_no := h]> (irq_routines s))).

Definition irq_install (irq_no : Z) (h : Hd) : M st unit := irq_set irq_no (Some h).
Definition irq_uninstall (irq_no : Z) : M st unit := irq_set irq_no None.

Definition irq_handler (int_no : Z) : M st unit :=
  let irq_no := int_no - 32 in
  let! l := gets irq_routines in
  guard ((0 <=? irq_no) && (irq_no <? zlen l)) ;;;
  (match l !! Z.to_nat irq_no with
   | Some (Some h) => on_machine (exec h)
   | _ => ret tt
   end) ;;;
  if has_apic then on_machine apic_send_eoi else
  (if 40 <=? int_no then on_machine (pic_outb PIC_COMMAND_SLAVE PIC_EOI) else ret tt) ;;;
  on_machine (pic_outb PIC_COMMAND_MASTER PIC_EOI).
End irq.
