(* ===== verification/Keyboard.v ===== *)
(** The keyboard (kernel/src/driver/keyboard/keyboard.c): scan codes to
    characters, the modifier keys, and the interrupt handler that shows a
    character on the terminal and puts it into the ring buffer.

    [kbd] holds the globals of the file; the port and the terminal are those
    of VgaTerm, [apic_send_eoi] ends the interrupt.  A table read outside its
    128 entries is undefined. *)
From S2P Require Import Prelude CString CStdlib Stdio Ports Serial Vga VgaTerm RingBuffer.

Definition UNKNOWN : Z := 0xFFFFFFFF.
Definition ESC : Z := 0x1.
Definition NUM_1 : Z := 0x2.
Definition NUM_0 : Z := 0xB.
Definition BACKSPACE : Z := 0xE.
Definition ENTER : Z := 0x1C.
Definition CTRL : Z := 0x1D.
Definition LSHIFT : Z := 0x2A.
Definition RSHIFT : Z := 0x36.
Definition ALT : Z := 0x38.
Definition CAPS_LOCK : Z := 0x3A.
Definition F1 : Z := 0x3B.
Definition F10 : Z := 0x44.
Definition F11 : Z := 0x57.
Definition F12 : Z := 0x58.
Definition UP : Z := 0x48.
Definition LEFT : Z := 0x4B.
Definition RIGHT : Z := 0x4D.
Definition DOWN : Z := 0x50.
Definition DELETE : Z := 0x53.
Definition KEYBOARD_DATA_PORT : Z := 0x60.
Definition KEYBOARD_CAPACITY : Z := 2048.

(** What a key means, by its scan code. *)
Definition lowercase : list Z := [
  UNKNOWN; 1; 49; 50; 51; 52; 53; 54; 55; 56; 57; 48; 45; 61; 8; 9;
  113; 119; 101; 114; 116; 121; 117; 105; 111; 112; 91; 93; 10; 29; 97; 115;
  100; 102; 103; 104; 106; 107; 108; 59; 39; 96; 42; 92; 122; 120; 99; 118;
  98; 110; 109; 44; 46; 47; 54; 42; 56; 32; 58; 59; 60; 61; 62; 63;
  64; 65; 66; 67; 68; 69; 70; 71; 72; 73; 45; 75; UNKNOWN; 77; 43; 79;
  80; 81; 82; 83; UNKNOWN; UNKNOWN; UNKNOWN; 87; 88; UNKNOWN; UNKNOWN; UNKNOWN; UNKNOWN; UNKNOWN; UNKNOWN; UNKNOWN;
  UNKNOWN; UNKNOWN; UNKNOWN; UNKNOWN; UNKNOWN; UNKNOWN; UNKNOWN; UNKNOWN; UNKNOWN; UNKNOWN; UNKNOWN; UNKNOWN; UNKNOWN; UNKNOWN; UNKNOWN; UNKNOWN;
  UNKNOWN; UNKNOWN; UNKNOWN; UNKNOWN; UNKNOWN; UNKNOWN; UNKNOWN; UNKNOWN; UNKNOWN; UNKNOWN; UNKNOWN; UNKNOWN; UNKNOWN; UNKNOWN; UNKNOWN; UNKNOWN].

(** The same with shift or caps lock. *)
Definition uppercase : list Z := [
  UNKNOWN; 1; 33; 64; 35; 36; 37; 94; 38; 42; 40; 41; 95; 43; 8; 9;
  81; 87; 69; 82; 84; 89; 85; 73; 79; 80; 123; 125; 10; 29; 65; 83;
  68; 70; 71; 72; 74; 75; 76; 58; 34; 126; 42; 124; 90; 88; 67; 86;
  66; 78; 77; 60; 62; 63; 54; 42; 56; 32; 58; 59; 60; 61; 62; 63;
  64; 65; 66; 67; 68; 69; 70; 71; 72; 73; 45; 75; UNKNOWN; 77; 43; 79;
  80; 81; 82; 83; UNKNOWN; UNKNOWN; UNKNOWN; 87; 88; UNKNOWN; UNKNOWN; UNKNOWN; UNKNOWN; UNKNOWN; UNKNOWN; UNKNOWN;
  UNKNOWN; UNKNOWN; UNKNOWN; UNKNOWN; UNKNOWN; UNKNOWN; UNKNOWN; UNKNOWN; UNKNOWN; UNKNOWN; UNKNOWN; UNKNOWN; UNKNOWN; UNKNOWN; UNKNOWN; UNKNOWN;
  UNKNOWN; UNKNOWN; UNKNOWN; UNKNOWN; UNKNOWN; UNKNOWN; UNKNOWN; UNKNOWN; UNKNOWN; UNKNOWN; UNKNOWN; UNKNOWN; UNKNOWN; UNKNOWN; UNKNOWN; UNKNOWN].

Record kbd (E : Type) := mk_kbd {
  kterm : term E; keyboard_buffer : option RingBuffer.ring_buffer_t;
  shift : bool; capsLock : bool; entered_keys : Z
}.
Arguments mk_kbd {E}.
Arguments kterm {E}.
Arguments keyboard_buffer {E}.
Arguments shift {E}.
Arguments capsLock {E}.
Arguments entered_keys {E}.

Definition is_printable (ch : Z) : bool := (32 <=? ch) && (ch <=? 126).

Section keyboard.
Context {E : Type} `{Ports E} (apic_send_eoi : M E unit).
Abbreviation st := (kbd E).

Definition on_term {A} (k : M (term E) A) : M st A := fun s =>
  obind (k (kterm s)) (fun '(a, t) =>
    Ret (a, mk_kbd t (keyboard_buffer s) (shift s) (capsLock s) (entered_keys s))).
Definition on_port {A} (k : M E A) : M st A := on_term (on_ser (on_ports k)).

Definition set_shift (b : bool) : M st unit :=
  modify (fun s => mk_kbd (kterm s) (keyboard_buffer s) b (capsLock s) (entered_keys s)).
Definition set_capsLock (b : bool) : M st unit :=
  modify (fun s => mk_kbd (kterm s) (keyboard_buffer s) (shift s) b (entered_keys s)).
Definition set_entered_keys (n : Z) : M st unit :=
  modify (fun s => mk_kbd (kterm s) (keyboard_buffer s) (shift s) (capsLock s) n).
Definition set_buffer (b : option RingBuffer.ring_buffer_t) : M st unit :=
  modify (fun s => mk_kbd (kterm s) b (shift s) (capsLock s) (entered_keys s)).

Definition getScanCode : M st Z :=
  let! v := on_port (inb KEYBOARD_DATA_PORT) in ret (Z.land v 0x7F).

(** [key_state] is a char; its conversion to 64 bits extends the sign. *)
Definition getKeyState : M st bool :=
  let! v := on_port (inb KEYBOARD_DATA_PORT) in
  let key_state := s8 (Z.land (s8 v) 0x80) in
  ret (negb (u64 key_state =? 0xFFFFFF80)).

Definition table_at (tbl : list Z) (i : Z) : M st Z :=
  if 0 <=? i then match tbl !! Z.to_nat i with Some c => ret c | None => undef end else undef.

(** The result is a char: the low byte of the entry. *)
Definition scanCodeToChar (scanCode : Z) : M st Z :=
  let scanCode := if scanCode =? 0xE0 then Z.lor scanCode 0x100 else scanCode in
  let! sh := gets shift in
  let! caps := gets capsLock in
  let! c :=
    (if (NUM_1 <=? scanCode) && (scanCode <=? NUM_0)
     then table_at (if sh then uppercase else lowercase) scanCode
     else table_at (if caps then uppercase else lowercase) scanCode) in
  ret (u8 c).

Definition handel_shift_key (keyPressed : bool) : M st unit :=
  set_shift keyPressed ;;;
  let! c := gets capsLock in set_capsLock (negb c).

Definition handel_caps_lock_key (keyPressed : bool) : M st unit :=
  if keyPressed then let! c := gets capsLock in set_capsLock (negb c) else ret tt.

Definition handel_backspace_key (fuel : nat) (keyPressed : bool) : M st unit :=
  let! n := gets entered_keys in
  if keyPressed && (0 <? n) then
    on_term (backspace_manage fuel) ;;; set_entered_keys (n - 1)
  else ret tt.

(** Only a local variable changes. *)
Definition handel_del_key (keyPressed : bool) : M st unit := ret tt.

Definition key_ctrl (fuel : nat) (scanCode : Z) (keyPress : bool) : M st unit :=
  if (scanCode =? 0x60) || (scanCode =? 0x608) || (scanCode =? UNKNOWN) then ret tt
  else if scanCode =? ENTER then set_entered_keys 0
  else if (scanCode =? CTRL) || (scanCode =? ALT) || (scanCode =? ESC) then ret tt
  else if (F1 <=? scanCode) && (scanCode <=? F10) || (scanCode =? F11) || (scanCode =? F12) then ret tt
  else if scanCode =? DELETE then handel_del_key keyPress
  else if (scanCode =? LSHIFT) || (scanCode =? RSHIFT) then handel_shift_key keyPress
  else if scanCode =? CAPS_LOCK then handel_caps_lock_key keyPress
  else if scanCode =? UP then ret tt
  else if scanCode =? LEFT then if keyPress then on_term move_cur_left else ret tt
  else if scanCode =? RIGHT then if keyPress then on_term move_cur_right else ret tt
  else if scanCode =? DOWN then ret tt
  else if scanCode =? BACKSPACE then handel_backspace_key fuel keyPress
  else if keyPress then
    let! n := gets entered_keys in
    let! n := int_op (n + 1) in
    set_entered_keys n ;;;
    let! c := scanCodeToChar scanCode in
    on_term (term_putchar fuel c)
  else ret tt.

Definition keyboardHandler (fuel : nat) : M st unit :=
  let! scancode_raw := on_port (inb KEYBOARD_DATA_PORT) in
  let pressed := negb (Z.testbit scancode_raw 7) in
  let scancode := Z.land scancode_raw 0x7F in
  key_ctrl fuel scancode pressed ;;;
  let! b := gets keyboard_buffer in
  (match b with
   | Some _ =>
       if pressed then
         let! c := scanCodeToChar scancode in
         let! b := lift (RingBuffer.ring_buffer_push b c) in
         set_buffer b
       else ret tt
   | None => ret tt
   end) ;;;
  on_port apic_send_eoi.

(** [a1] and [a2] are what the allocations of the ring buffer give. *)
Definition initKeyboard (enableKeyboard : M st unit) (a1 : bool) (a2 : option (list Z)) : M st unit :=
  enableKeyboard ;;;
  set_buffer (RingBuffer.ring_buffer_init a1 a2 KEYBOARD_CAPACITY).2 ;;;
  on_port apic_send_eoi.
End keyboard.
