(* ===== verification/KeyboardProps.v ===== *)
(** The keyboard against its specification: what the keys put into the queue
    and on the terminal, with shift and caps lock as a user sees them. *)
From S2P Require Import Prelude CString CStdlib Stdio Ports Serial SerialProps Vga VgaProps Fonts VgaTerm.
From S2P Require Import VgaTermProps RingBuffer Keyboard.
Import RingBuffer.

(** ** Keys *)

Inductive key := KShift | KCaps | KEnter | KBack | KLeft | KRight | KSilent | KChar.
#[global] Instance key_eq_dec : EqDecision key.
Proof. solve_decision. Defined.

(** What kind of key has a scan code of seven bits. *)
Definition silent : list Z :=
  [0x60; CTRL; ALT; ESC] ++ seqZ F1 10 ++ [F11; F12; DELETE; UP; DOWN].
Definition key_of (code : Z) : key :=
  if bool_decide (code ∈ [LSHIFT; RSHIFT]) then KShift
  else if code =? CAPS_LOCK then KCaps
  else if code =? ENTER then KEnter
  else if code =? BACKSPACE then KBack
  else if code =? LEFT then KLeft
  else if code =? RIGHT then KRight
  else if bool_decide (code ∈ silent) then KSilent
  else KChar.

(** The character of a key: digits follow shift alone, the other keys the
    combination of shift and caps lock. *)
Definition key_char (down locked : bool) (code : Z) : Z :=
  let upper := if (NUM_1 <=? code) && (code <=? NUM_0) then down else xorb down locked in
  u8 (default 0 ((if upper then uppercase else lowercase) !! Z.to_nat code)).

(** ** The specification *)

(** Whether a shift key is down and caps are locked, how many characters can
    be erased, the queue of characters and the terminal. *)
Record keys := mk_keys { down : bool; locked : bool; entered : Z; typed : list Z; tt_of : tty }.

Section spec.
Context (W H ink bg cap : Z).

(** The key itself. *)
Definition control (k : keys) (code : Z) (pressed : bool) : keys :=
  let 'mk_keys d l n q t := k in
  match key_of code, pressed with
  | KShift, _ => mk_keys pressed l n q t
  | KCaps, true => mk_keys d (negb l) n q t
  | KEnter, _ => mk_keys d l 0 q t
  | KBack, true => if 0 <? n then mk_keys d l (n - 1) q (erase W bg t) else k
  | KLeft, true => mk_keys d l n q (mk_tty (img t) (tx t - 1) (ty t))
  | KRight, true => mk_keys d l n q (mk_tty (img t) (tx t + 1) (ty t))
  | KChar, true => mk_keys d l (n + 1) q (tty_put W H ink bg t (key_char d l code))
  | _, _ => k
  end.

(** Every key that goes down, also those without a character, is queued. *)
Definition enqueue (k : keys) (code : Z) : keys :=
  mk_keys (down k) (locked k) (entered k)
    (Spec.push cap (typed k) (key_char (down k) (locked k) code)) (tt_of k).

(** Bit 7 of a raw code tells a release. *)
Definition event (k : keys) (raw : Z) : keys :=
  let code := Z.land raw 0x7F in
  let pressed := negb (Z.testbit raw 7) in
  let k := control k code pressed in
  if pressed then enqueue k code else k.

(** A shift key goes down only when none is, and up only when one is. *)
Definition event_ok (k : keys) (raw : Z) : Prop :=
  0 <= raw < 256 /\
  (key_of (Z.land raw 0x7F) = KShift -> down k = Z.testbit raw 7).

Fixpoint events_ok (k : keys) (raws : list Z) : Prop :=
  match raws with
  | [] => True
  | raw :: raws => event_ok k raw /\ events_ok (event k raw) raws
  end.
End spec.

(** ** The code *)

(** A keyboard whose data register the outside fills ([feed]); reading it and
    ending an interrupt send nothing over the serial line. *)
Class KeyPort (E : Type) {P : Ports E} {L : SerialLine E} := {
  feed : Z -> E -> E;
  end_of_interrupt : M E unit;
  feed_sent : forall c e, sent (feed c e) = sent e;
  feed_read : forall c e, exists e', inb KEYBOARD_DATA_PORT (feed c e) = Ret (c, e') /\ sent e' = sent e;
  eoi_sent : forall e, exists e', end_of_interrupt e = Ret (tt, e') /\ sent e' = sent e
}.

Lemma tables_total code : 0 <= code < 128 ->
  is_Some (lowercase !! Z.to_nat code) /\ is_Some (uppercase !! Z.to_nat code).
Proof. intros. split; apply lookup_lt_is_Some_2; cbn [length lowercase uppercase]; lia. Qed.

Lemma low7 raw : 0 <= raw < 256 -> 0 <= Z.land raw 0x7F < 128.
Proof. intros. exact (land_range_r raw 0x7F 7 ltac:(lia) ltac:(lia)). Qed.

Section keyboard_specs.
Context {E : Type} {PE : Ports E} {SL : SerialLine E} {KP : KeyPort E}.
Context (W H ink bg cap : Z).
Abbreviation st := (kbd E).
Abbreviation rep := (shows W H ink bg).
Implicit Types (s : st) (k : keys).

Lemma wp_on_term {A} (m : M (term E) A) (Q : A -> st -> Prop) s :
  wp m (fun a t => Q a (mk_kbd t (keyboard_buffer s) (shift s) (capsLock s) (entered_keys s))) (kterm s) ->
  wp (on_term m) Q s.
Proof. unfold wp, on_term, obind. by destruct (m (kterm s)) as [[a t]| | |]. Qed.

(** The driver holds the state [k]; the place on the terminal is at most [n]
    columns to the left and [r] to the right of the screen. *)
Record keeps (n r : Z) s k : Prop := {
  kp_shift : shift s = down k;
  kp_caps : capsLock s = xorb (down k) (locked k);
  kp_entered : entered_keys s = entered k;
  kp_queue : exists rb b, keyboard_buffer s = Some rb /\ rb_wf rb b /\ RingBuffer.max rb = cap /\
    rb_abs rb b = typed k;
  kp_term : rep (kterm s) (tt_of k);
  kp_place : place_ok W H n r (tt_of k);
  kp_log : log_ok (ser (kterm s))
}.

Lemma scan_char_spec code s (Q : Z -> st -> Prop) : 0 <= code < 128 ->
  (forall d l, shift s = d -> capsLock s = xorb d l -> Q (key_char d l code) s) ->
  wp (scanCodeToChar code) Q s.
Proof.
  intros Hc HQ. destruct (tables_total code Hc) as [[lo Hlo] [up Hup]]. unfold scanCodeToChar.
  destruct (Z.eqb_spec code 0xE0); [lia|]. wp_steps.
  specialize (HQ (shift s) (xorb (shift s) (capsLock s)) eq_refl).
  rewrite <- xorb_assoc, xorb_nilpotent, xorb_false_l in HQ. specialize (HQ eq_refl).
  unfold key_char in HQ. rewrite <- xorb_assoc, xorb_nilpotent, xorb_false_l in HQ.
  unfold table_at. destruct (Z.leb_spec 0 code); [|lia].
  destruct ((NUM_1 <=? code) && (code <=? NUM_0)).
  - destruct (shift s); rewrite ?Hlo, ?Hup in *; wp_steps; exact HQ.
  - destruct (capsLock s); rewrite ?Hlo, ?Hup in *; wp_steps; exact HQ.
Qed.

(** key_ctrl by kind of key. *)
Definition ctrl_of (fuel : nat) (code : Z) (p : bool) : M st unit :=
  match key_of code with
  | KShift => handel_shift_key p
  | KCaps => handel_caps_lock_key p
  | KEnter => set_entered_keys 0
  | KBack => handel_backspace_key fuel p
  | KLeft => if p then on_term move_cur_left else ret tt
  | KRight => if p then on_term move_cur_right else ret tt
  | KSilent => ret tt
  | KChar =>
      if p then
        let! n := gets entered_keys in
        let! n := int_op (n + 1) in
        set_entered_keys n ;;;
        let! c := scanCodeToChar code in
        on_term (term_putchar fuel c)
      else ret tt
  end.

Lemma key_ctrl_kind fuel code p : 0 <= code < 128 -> key_ctrl fuel code p = ctrl_of fuel code p.
Proof.
  intros Hc. assert (Hall : Forall (fun code => key_ctrl fuel code p = ctrl_of fuel code p) (seqZ 0 128)).
  { repeat (apply Forall_cons; split; [reflexivity|]). constructor. }
  rewrite Forall_forall in Hall. apply Hall, elem_of_seqZ. lia.
Qed.

Lemma place_mono n n' r r' t : place_ok W H n r t -> n <= n' -> r <= r' -> place_ok W H n' r' t.
Proof. intros [Hx Hy Hm] Hn Hr. constructor; [lia | done | done]. Qed.

Lemma keeps_mono n n' r r' s k : keeps n r s k -> n <= n' -> r <= r' -> keeps n' r' s k.
Proof. intros [? ? ? ? ? Hp ?] Hn Hr. constructor; try done. by eapply place_mono. Qed.

(** A new terminal and a new count of characters. *)
Lemma keeps_term n r n' r' s k t' T c : keeps n r s k -> rep T t' -> place_ok W H n' r' t' -> log_ok (ser T) ->
  keeps n' r' (mk_kbd T (keyboard_buffer s) (shift s) (capsLock s) c)
    (mk_keys (down k) (locked k) c (typed k) t').
Proof. intros [? ? ? ? _ _ _] Hr Hp Hl. by constructor. Qed.

Lemma control_spec fuel code p n r s k (Q : unit -> st -> Prop) :
  keeps n r s k -> 0 <= code < 128 -> (key_of code = KShift -> down k = negb p) ->
  0 <= n < 2 ^ 29 -> 0 <= r < 2 ^ 28 -> 0 <= entered k < INT_MAX -> (patience < fuel)%nat ->
  (forall s', keeps (n + 8) (r + 1) s' (control W H ink bg k code p) -> Q tt s') ->
  wp (key_ctrl fuel code p) Q s.
Proof.
  intros Hk Hc Hsh Hn Hr He Hf HQ. rewrite key_ctrl_kind by done.
  pose proof Hk as [Hs Hcl Hen Hq Ht Hp Hl]. destruct k as [d l m q t]. cbn [down locked entered typed tt_of] in *.
  pose proof Ht as [_ _ _ Hsz _ _ [Hcx Hcy] _].
  assert (Hsame : keeps (n + 8) (r + 1) s (mk_keys d l m q t)) by (eapply keeps_mono; [exact Hk | lia | lia]).
  unfold ctrl_of, control in *. destruct (key_of code).
  - specialize (Hsh eq_refl). subst d. unfold handel_shift_key, set_shift, set_capsLock. wp_steps.
    apply HQ. destruct Hsame. constructor; cbn in *; try done. rewrite Hcl. by destruct p, l.
  - unfold handel_caps_lock_key, set_capsLock. destruct p; wp_steps; [|by apply HQ].
    apply HQ. destruct Hsame. constructor; cbn in *; try done. rewrite Hcl. by destruct d, l.
  - unfold set_entered_keys. wp_steps. apply HQ. destruct Hsame. by constructor.
  - unfold handel_backspace_key, set_entered_keys. wp_steps. rewrite Hen.
    destruct p; cbn [andb]; [|wp_steps; by apply HQ]. destruct (Z.ltb_spec 0 m); [|wp_steps; by apply HQ].
    wp_steps. apply wp_on_term. eapply backspace_spec; [done | done | done | done | done | done |].
    intros T HT HlT _. wp_steps. apply HQ. cbn [kterm keyboard_buffer shift capsLock].
    eapply (keeps_term _ _ _ _ _ (mk_keys d l m q t)); [exact Hk | exact HT | | done].
    eapply place_mono; [apply (tty_put_place W H ink bg n r t 8); try done; lia | lia | lia].
  - destruct p; [|wp_steps; by apply HQ]. apply wp_on_term. unfold move_cur_left, set_x. wp_steps.
    rewrite Hcx. destruct Hp as [Hx Hy Hm]. apply wp_int_op; [unfold INT_MIN, INT_MAX; lia|]. wp_steps. apply HQ.
    rewrite <- Hen. eapply (keeps_term _ _ _ _ _ (mk_keys d l (entered_keys s) q t));
      [by rewrite Hen | rewrite Hcy; by apply rep_cur | constructor; cbn; (lia || done) | done].
  - destruct p; [|wp_steps; by apply HQ]. apply wp_on_term. unfold move_cur_right, set_x. wp_steps.
    rewrite Hcx. destruct Hp as [Hx Hy Hm]. apply wp_int_op; [unfold INT_MIN, INT_MAX; lia|]. wp_steps. apply HQ.
    rewrite <- Hen. eapply (keeps_term _ _ _ _ _ (mk_keys d l (entered_keys s) q t));
      [by rewrite Hen | rewrite Hcy; by apply rep_cur | constructor; cbn; (lia || done) | done].
  - wp_steps. by apply HQ.
  - destruct p; [|wp_steps; by apply HQ]. unfold set_entered_keys. wp_steps. rewrite Hen.
    apply wp_int_op; [unfold INT_MIN, INT_MAX in *; lia|]. wp_steps. apply scan_char_spec; [done|].
    cbn [shift capsLock]. intros d' l' Hd' Hcl'.
    assert (d' = d) as -> by congruence.
    assert (l' = l) as -> by (rewrite Hcl in Hcl'; by destruct d, l, l').
    apply wp_on_term. cbn [kterm].
    eapply term_putchar_spec; [done | done | done | done | done | done | apply u8_range |].
    intros T HT HlT _. apply HQ. cbn [keyboard_buffer shift capsLock entered_keys].
    eapply (keeps_term _ _ _ _ _ (mk_keys d l m q t)); [exact Hk | exact HT | | done].
    eapply place_mono; [apply (tty_put_place W H ink bg n r); try done; lia | lia | lia].
Qed.

Lemma wp_on_port {A} (m : M E A) (Q : A -> st -> Prop) s :
  wp m (fun a e => Q a (mk_kbd (set_ser (mk_serial e (serial_log (ser (kterm s))) (serial_log_index (ser (kterm s))))
      (kterm s)) (keyboard_buffer s) (shift s) (capsLock s) (entered_keys s))) (port_env (ser (kterm s))) ->
  wp (on_port m) Q s.
Proof. intros Hm. unfold on_port. apply wp_on_term, wp_on_ser, wp_on_ports. exact Hm. Qed.

(** A new environment changes nothing the driver knows of. *)
Lemma keeps_env n r s k e : keeps n r s k ->
  keeps n r (mk_kbd (set_ser (mk_serial e (serial_log (ser (kterm s))) (serial_log_index (ser (kterm s))))
      (kterm s)) (keyboard_buffer s) (shift s) (capsLock s) (entered_keys s)) k.
Proof.
  intros [? ? ? ? Ht ? [? ? ?]]. constructor; first [done | by apply rep_ser | by constructor].
Qed.

Lemma enqueue_spec code n r s k (Q : unit -> st -> Prop) : keeps n r s k -> 0 <= code < 128 ->
  (forall s', keeps n r s' (enqueue cap k code) -> Q tt s') ->
  wp (let! c := scanCodeToChar code in
      let! b := lift (ring_buffer_push (keyboard_buffer s) c) in set_buffer b) Q s.
Proof.
  intros [Hs Hcl Hen (rb & b & Hb & Hwf & Hm & Ha) Ht Hp Hl] Hc HQ. wp_step. apply scan_char_spec; [done|].
  intros d' l' Hd' Hcl'. assert (d' = down k) as -> by congruence.
  assert (l' = locked k) as -> by (rewrite Hcl in Hcl'; by destruct (down k), (locked k), l').
  rewrite Hb, (ring_buffer_push_eq _ _ _ Hwf). wp_step. apply wp_lift. unfold set_buffer. wp_step.
  apply HQ. constructor; cbn; try done.
  eexists _, _. split; [done|]. split; [by apply pushed_wf|]. split; [done|].
  rewrite pushed_abs by done. unfold Spec.push. rewrite <- Ha, (length_rb_abs _ _ Hwf).
  rewrite (full_count _ _ Hwf), Hm. unfold key_char. by rewrite u8_small by apply u8_range.
Qed.

Definition interrupt (fuel : nat) (raw : Z) : M st unit :=
  on_port (modify (feed raw)) ;;; keyboardHandler end_of_interrupt fuel.

Lemma interrupt_spec fuel raw n r s k (Q : unit -> st -> Prop) :
  keeps n r s k -> event_ok k raw -> 0 <= n < 2 ^ 29 -> 0 <= r < 2 ^ 28 -> 0 <= entered k < INT_MAX ->
  (patience < fuel)%nat ->
  (forall s', keeps (n + 8) (r + 1) s' (event W H ink bg cap k raw) -> Q tt s') ->
  wp (interrupt fuel raw) Q s.
Proof.
  intros Hk [Hraw Hsh] Hn Hr He Hf HQ. unfold interrupt. wp_step. apply wp_on_port. wp_step.
  apply (keeps_env _ _ _ _ (feed raw (port_env (ser (kterm s))))) in Hk. revert Hk. set (s1 := mk_kbd _ _ _ _ _).
  intros Hk. unfold keyboardHandler. wp_step. apply wp_on_port.
  destruct (feed_read raw (port_env (ser (kterm s)))) as (e1 & He1 & _).
  unfold wp at 1. cbn [s1 kterm ser set_ser port_env]. rewrite He1.
  apply (keeps_env _ _ _ _ e1) in Hk. revert Hk. cbn [s1 kterm ser set_ser serial_log serial_log_index
    keyboard_buffer shift capsLock entered_keys]. set (s2 := mk_kbd _ _ _ _ _). intros Hk.
  pose proof (low7 raw Hraw) as Hc. wp_steps.
  eapply control_spec; [exact Hk | done | by rewrite negb_involutive | done | done | done | done |].
  intros s3 Hk3. wp_steps. unfold event in HQ. cbv zeta in HQ.
  set (k3 := control _ _ _ _ k _ _) in *.
  assert (Hlast : forall s4 k4, keeps (n + 8) (r + 1) s4 k4 ->
    (forall s', keeps (n + 8) (r + 1) s' k4 -> Q tt s') -> wp (on_port end_of_interrupt) Q s4).
  { intros s4 k4 Hk4 HQ4. apply wp_on_port. destruct (eoi_sent (port_env (ser (kterm s4)))) as (e4 & He4 & _).
    unfold wp. rewrite He4. apply HQ4. by apply keeps_env. }
  destruct (kp_queue _ _ _ _ Hk3) as (rb & b & Hb & _). rewrite Hb.
  destruct (negb (Z.testbit raw 7)).
  - rewrite <- Hb. eapply enqueue_spec; [exact Hk3 | done |]. intros s4 Hk4. by eapply Hlast.
  - wp_steps. by eapply Hlast.
Qed.
End keyboard_specs.

Lemma event_entered W H ink bg cap k raw : 0 <= entered k ->
  0 <= entered (event W H ink bg cap k raw) <= entered k + 1.
Proof.
  intros He. unfold event, enqueue, control. destruct k as [d l m q t]. cbn [entered] in *.
  destruct (key_of _), (negb _); cbn [entered]; try lia; case_if; cbn; lia.
Qed.

(** C28 The keyboard driver over any sequence of interrupts in which shift goes
    down and up in turn: the ring buffer holds the queue of the characters of
    the keys that went down (a bounded queue that drops its oldest), shift and
    caps lock combine as a user expects, and the terminal shows the characters
    with their corrections.  A keyboard that repeats the code of a shift key held
    down, or two shift keys held together, are left out: the code takes the
    second code for a release. *)
Theorem keyboard_ok {E : Type} {PE : Ports E} {SL : SerialLine E} {KP : KeyPort E} fuel raws W H ink bg cap :
  forall n r (s : kbd E) k,
  keeps W H ink bg cap n r s k -> events_ok W H ink bg cap k raws ->
  0 <= n -> n + 8 * zlen raws < 2 ^ 29 -> 0 <= r -> r + zlen raws < 2 ^ 28 ->
  0 <= entered k -> entered k + zlen raws < INT_MAX -> (patience < fuel)%nat ->
  returns (foldM (fun _ raw => interrupt fuel raw) raws tt) s tt (fun s' =>
    keeps W H ink bg cap (n + 8 * zlen raws) (r + zlen raws) s'
      (fold_left (event W H ink bg cap) raws k)).
Proof.
  induction raws as [|raw raws IH]; intros n r s k Hk Hev Hn Hn' Hr Hr' He He' Hf.
  - exists s. split; [done|]. cbn. by rewrite !Z.add_0_r.
  - destruct Hev as [Hok Hev]. cbn [length] in *. pose proof (event_entered W H ink bg cap k raw He).
    apply wp_returns. cbn [foldM]. wp_step. eapply interrupt_spec; [done | done | lia | lia | lia | done |].
    intros s1 Hk1. apply wp_run. edestruct (IH (n + 8) (r + 1)) as (s' & Hrun & Hk'); [exact Hk1 | done | lia.. | done |].
    exists tt, s'. split; [exact Hrun|]. split; [done|]. cbn [fold_left].
    eapply keeps_mono; [exact Hk' | lia | lia].
Qed.

(** The key state is lost in the conversion: every key looks pressed. *)
Lemma getKeyState_true {E} `{Ports E} (s : kbd E) b s' :
  (forall e v e', inb KEYBOARD_DATA_PORT e = Ret (v, e') -> 0 <= v < 256) ->
  getKeyState s = Ret (b, s') -> b = true.
Proof.
  intros Hv. unfold getKeyState, bind, on_port, on_term, on_ser, on_ports, obind, ret.
  destruct (inb KEYBOARD_DATA_PORT _) as [[v e]| | |] eqn:Hi; try done. apply Hv in Hi.
  intros [= <- _].
  assert (Hall : Forall (fun v => negb (u64 (s8 (Z.land (s8 v) 0x80)) =? 0xFFFFFF80) = true) (seqZ 0 256)).
  { apply (bool_decide_unpack _). by vm_compute. }
  rewrite Forall_forall in Hall. apply Hall, elem_of_seqZ. lia.
Qed.

(** The screen of 16 by 48 pixels with a keyboard. *)
Module SmallKeyboard.
Import SmallScreen.

(** What was sent, and the data register of the keyboard. *)
#[global] Instance board : Ports (list Z * Z) := {
  inb p e := Ret (if p =? KEYBOARD_DATA_PORT then e.2 else 0x20, e);
  outb p c e := Ret (tt, if p =? COM1 then (e.1 ++ [c], e.2) else e);
  inl_port _ e := Ret (0, e);
  outl _ _ e := Ret (tt, e)
}.

#[global] Instance board_line : SerialLine (list Z * Z).
Proof.
  refine {| sent := fst; polls _ := O; patience := O |}; try done.
  - intros e _. by exists 0x20, e.
  - intros e c _. by eexists.
Defined.

#[global] Instance board_keys : KeyPort (list Z * Z).
Proof.
  refine {| feed c e := (e.1, c); end_of_interrupt := ret tt |}; try done.
  - intros c e. by exists (e.1, c).
  - intros e. by exists e.
Defined.

Definition buffer0 : list Z := replicate (Z.to_nat KEYBOARD_CAPACITY) 0.
Definition rb0 : ring_buffer_t := mk_rb (Some buffer0) 0 0 KEYBOARD_CAPACITY false.
Definition kbd0 : kbd (list Z * Z) :=
  mk_kbd (mk_term (mk_serial ([], 0) (replicate (Z.to_nat 8192) 0) 0) (fb term1) 0 0 0xFFFFFFFF 0 8 16 1 true (-1) (-1))
    (Some rb0) false false 0.
Definition keys0 : keys := mk_keys false false 0 [] tty1.

Lemma kbd0_keeps : keeps 16 48 0xFFFFFFFF 0 KEYBOARD_CAPACITY 0 0 kbd0 keys0.
Proof.
  constructor; [done | done | done | | | exact tty1_place |].
  - exists rb0, buffer0. split; [done|]. split; [|split; [done | by vm_compute]].
    constructor; cbn [buffer head tail max full rb0]; unfold KEYBOARD_CAPACITY; try lia; try done; by vm_compute.
  - destruct term1_shows. by constructor.
  - constructor; [by vm_compute | cbn; unfold SERIAL_LOG_SIZE; lia | done].
Qed.

(** Shift and "a", then "1": the queue has the characters of the shift key
    itself, of "A" and of "1". *)
Lemma keyboard_ok_witness :
  returns (foldM (fun _ raw => interrupt 1 raw) [0x2A; 0x1E; 0x9E; 0xAA; 0x02; 0x82] tt) kbd0 tt (fun s' =>
    exists rb b, keyboard_buffer s' = Some rb /\ rb_abs rb b = [42; 65; 49]).
Proof.
  destruct (keyboard_ok 1 [0x2A; 0x1E; 0x9E; 0xAA; 0x02; 0x82] 16 48 0xFFFFFFFF 0 KEYBOARD_CAPACITY 0 0 kbd0 keys0)
    as (s' & Hs & Hk); [exact kbd0_keeps | | lia | cbn; lia | lia | cbn; lia | cbn; lia | cbn; unfold INT_MAX; lia
    | cbn; lia |].
  { repeat (split; [split; [lia | intros; first [done | discriminate]]|]). done. }
  exists s'. split; [exact Hs|]. destruct (kp_queue _ _ _ _ _ _ _ _ _ Hk) as (rb & b & Hb & _ & _ & Ha).
  exists rb, b. split; [exact Hb|]. rewrite Ha. by vm_compute.
Defined.
End SmallKeyboard.
