(* ===== verification/Iso9660.v ===== *)
(** ISO 9660 (kernel/src/fs/iso9660/iso9660.c): directories and files of an
    optical disk.

    The calls to the disk layer and the heap are those of [BlockDev]; [Media]
    has those to the SATAPI driver.  A buffer is the list of its bytes: a read
    of more bytes than the buffer has, or an access outside it, is undefined.
    Strings are lists of their characters. *)
From S2P Require Import Prelude CString Ahci Satapi Disk BlockDev.

Definition ISO_BLOCK_SIZE : Z := 2048.

(** satapi_load and satapi_eject, by the port of the disk; a read of the
    status register of a port. *)
Class Media (E : Type) := {
  satapi_load : Z -> E -> bool * E;
  satapi_eject : Z -> E -> bool * E;
  port_ssts : Z -> E -> Z * E
}.

Record iso9660_file_t := mk_file {
  name : list Z; sector_no : Z; size : Z; file_disk_no : Z; is_dir : bool
}.
Record iso9660_dir_t := mk_dir { dir_buffer : list Z; dir_size : Z; dir_offset : Z }.

Record ist (E : Type) := mk_ist { idev : E; idisks : option (list Disk); idisk_count : Z; ilive : Z }.
Arguments mk_ist {E}.
Arguments idev {E}.
Arguments idisks {E}.
Arguments idisk_count {E}.
Arguments ilive {E}.

(** Bytes of a buffer. *)
Definition at_byte {S} (buf : list Z) (i : Z) : M S Z :=
  if 0 <=? i then match buf !! Z.to_nat i with Some b => ret b | None => undef end else undef.
Definition at_bytes {S} (buf : list Z) (i n : Z) : M S (list Z) :=
  guard ((0 <=? i) && (0 <=? n) && (i + n <=? zlen buf)) ;;; ret (slice i n buf).

Definition read_u32_le {S} (buf : list Z) (i : Z) : M S Z :=
  let! l := at_bytes buf i 4 in
  match l with
  | [a; b; c; d] => ret (u32 (Z.lor (Z.lor (Z.lor a (Z.shiftl b 8)) (Z.shiftl c 16)) (Z.shiftl d 24)))
  | _ => undef
  end.
Definition read_u16_le {S} (buf : list Z) (i : Z) : M S Z :=
  let! l := at_bytes buf i 2 in
  match l with
  | [a; b] => ret (u16 (Z.lor a (Z.shiftl b 8)))
  | _ => undef
  end.

(** The directory record at [i] of a buffer: fields by their offset. *)
Definition rec_length {S} (buf : list Z) (i : Z) : M S Z := at_byte buf i.
Definition rec_extent {S} (buf : list Z) (i : Z) : M S Z := read_u32_le buf (i + 2).
Definition rec_data_length {S} (buf : list Z) (i : Z) : M S Z := read_u32_le buf (i + 10).
Definition rec_flags {S} (buf : list Z) (i : Z) : M S Z := at_byte buf (i + 25).
Definition rec_id_length {S} (buf : list Z) (i : Z) : M S Z := at_byte buf (i + 32).

(** The record of the directory itself or of its parent. *)
Definition is_dot_record {S} (buf : list Z) (i : Z) : M S bool :=
  let! n := rec_id_length buf i in
  if negb (n =? 1) then ret false else
  let! c := at_byte buf (i + 33) in
  ret ((c =? 0) || (c =? 1)).

(** The string in the output buffer of [output_size] bytes. *)
Definition parse_filename {S} (buf : list Z) (i output_size : Z) : M S (list Z) :=
  let! name_len := rec_id_length buf i in
  let! dots := is_dot_record buf i in
  if dots then ret [] else
  let! semi := (if 2 <=? name_len then at_byte buf (i + 33 + name_len - 2) else ret 0) in
  let name_len := if (2 <=? name_len) && (semi =? 59) then name_len - 2 else name_len in
  let copy_len := Z.min name_len (output_size - 1) in
  let! l := at_bytes buf (i + 33) copy_len in
  let l := take (lead (fun c => negb (c =? 0)) l) l in
  let l := take (lead (fun c => negb (c =? 59)) l) l in
  ret ((fun c => u8 (toupper (s8 c))) <$> l).

Section iso.
Context {E : Type} `{BlockDev E} `{Media E}.
Abbreviation st := (ist E).

Definition iso_malloc (n : Z) : M st bool := fun s =>
  let '(ok, e) := malloc n (idev s) in
  Ret (ok, mk_ist e (idisks s) (idisk_count s) (if ok then ilive s + 1 else ilive s)).
Definition iso_free : M st unit :=
  modify (fun s => mk_ist (free (idev s)) (idisks s) (idisk_count s) (ilive s - 1)).

(** kebla_disk_read into a buffer of [room] bytes. *)
Definition disk_read_into (room disk_no lba count : Z) : M st (option (list Z)) := fun s =>
  let '(r, e) := kebla_disk_read disk_no lba count (idev s) in
  let s := mk_ist e (idisks s) (idisk_count s) (ilive s) in
  match r with
  | Some l => if zlen l <=? room then Ret (Some l, s) else Undef
  | None => Ret (None, s)
  end.

Definition disk_of (disk_no : Z) : M st Disk := fun s =>
  match idisks s with
  | Some l => if 0 <=? disk_no then match l !! Z.to_nat disk_no with Some d => Ret (d, s) | None => Undef end else Undef
  | None => Undef
  end.
Definition no_disk (disk_no : Z) : M st bool :=
  gets (fun s => (idisk_count s <=? disk_no) || match idisks s with None => true | Some _ => false end).
Definition upd_iso_disk (disk_no : Z) (f : Disk -> Disk) : M st unit :=
  modify (fun s => mk_ist (idev s) (alter f (Z.to_nat disk_no) <$> idisks s) (idisk_count s) (ilive s)).

(** The block number is cut to a byte: the block read is always 0. *)
Definition read_iso_block (room disk_no block_no : Z) : M st (option (list Z)) :=
  let lba := u8 (block_no * ISO_BLOCK_SIZE) in
  disk_read_into room disk_no lba ISO_BLOCK_SIZE.

(** The buffer has one block and four are read into it.  Only a descriptor at
    block 16 is looked at: every other one ends the search. *)
Definition iso9660_init (disk_no : Z) : M st Z :=
  let! bad := no_disk disk_no in
  if bad then ret (-1) else
  let! disk := disk_of disk_no in
  if (context disk =? 0) || negb (bool_decide (dtype disk = DISK_TYPE_SATAPI)) then ret (-1) else
  let! ok := iso_malloc ISO_BLOCK_SIZE in
  if negb ok then ret (-1) else
  let! r := for_range 16 16 (fun i =>
    let! b := disk_read_into ISO_BLOCK_SIZE disk_no i 4 in
    match b with
    | None => ret (Some (Some (-1)))
    | Some buf =>
        let! vd_type := at_byte buf 0 in
        if vd_type =? 1 then
          let! id := at_bytes buf 1 5 in
          if negb (bool_decide (id = [67; 68; 48; 48; 49])) then ret (Some (Some (-1))) else
          let! bs := read_u16_le buf 128 in
          let! ts := read_u32_le buf 80 in
          let! rs := read_u32_le buf (156 + 2) in
          let! rz := read_u32_le buf (156 + 10) in
          upd_iso_disk disk_no (fun d => mk_disk (initialized d) (dtype d) bs ts rs rz i (context d)) ;;;
          ret (Some (Some 0))
        else ret (Some None)
    end) in
  match r with
  | Some (Some v) => ret v
  | _ => iso_free ;;; ret (-1)
  end.

Definition iso9660_mount (disk_no : Z) : M st Z :=
  let! bad := no_disk disk_no in
  if bad then ret (-1) else
  let! disk := disk_of disk_no in
  if negb (bool_decide (dtype disk = DISK_TYPE_SATAPI)) then ret (-1) else
  let! r := iso9660_init disk_no in
  if negb (r =? 0) then ret (-1) else
  if context disk =? 0 then ret (-1) else
  let! ok := (fun s => let '(b, e) := satapi_load (context disk) (idev s) in
                       Ret (b, mk_ist e (idisks s) (idisk_count s) (ilive s))) in
  if negb ok then ret (-1) else ret 0.

Definition iso9660_unmount (disk_no : Z) : M st Z :=
  let! bad := no_disk disk_no in
  if bad then ret (-1) else
  let! disk := disk_of disk_no in
  if negb (bool_decide (dtype disk = DISK_TYPE_SATAPI)) then ret (-1) else
  if context disk =? 0 then ret (-1) else
  (fun s => let '(_, e) := satapi_eject (context disk) (idev s) in
            Ret (tt, mk_ist e (idisks s) (idisk_count s) (ilive s))) ;;;
  ret 0.

(** One record of a directory; [inl] is the offset to go on from. *)
Definition find_record (disk_no sector_size : Z) (filename buffer : list Z) (processed : Z) :
    M st (Z + option iso9660_file_t) :=
  let! len := rec_length buffer processed in
  if len =? 0 then
    ret (inl (u32 (processed + (sector_size - processed mod sector_size))))
  else
  let! dots := is_dot_record buffer processed in
  if dots then ret (inl (u32 (processed + len))) else
  let! current := parse_filename buffer processed 256 in
  if str_cmp current filename =? 0 then
    let! sec := rec_extent buffer processed in
    let! sz := rec_data_length buffer processed in
    let! fl := rec_flags buffer processed in
    ret (inr (Some (mk_file current sec sz disk_no (negb (Z.land fl 2 =? 0)))))
  else ret (inl (u32 (processed + len))).

(** The result structure on success.  The buffer is lost when the sector size
    is 0. *)
Definition iso9660_find_file (disk_no dir_sector dir_size : Z) (filename : list Z) :
    M st (option iso9660_file_t) :=
  let! bad := no_disk disk_no in
  if bad || (dir_size <=? 0) then ret None else
  let! ok := iso_malloc dir_size in
  if negb ok then ret None else
  let! disk := disk_of disk_no in
  let sector_size := bytes_per_sector disk in
  if sector_size <=? 0 then ret None else
  let sector_count := u32 (u32 (dir_size + sector_size - 1) / sector_size) in
  let! b := disk_read_into dir_size disk_no dir_sector sector_count in
  match b with
  | None => iso_free ;;; ret None
  | Some data =>
      let buffer := data ++ replicate (Z.to_nat dir_size - length data) 0 in
      let! r := iter_fuel (S (Z.to_nat dir_size)) (fun processed =>
        if processed <? dir_size then find_record disk_no sector_size filename buffer processed
        else ret (inr None)) 0 in
      iso_free ;;; ret r
  end.

Definition skip_slash (path : list Z) : list Z :=
  match path with c :: l => if c =? 47 then l else path | [] => path end.

(** The loop over the components; the structure of the last one found. *)
Fixpoint stat_tokens (disk_no : Z) (tokens : list (list Z)) (cur_sector cur_size : Z) :
    M st (option iso9660_file_t) :=
  match tokens with
  | [] => ret None
  | token :: rest =>
      let! f := iso9660_find_file disk_no cur_sector cur_size token in
      match f with
      | None => ret None
      | Some info =>
          match rest with
          | [] => ret (Some info)
          | _ => if is_dir info then stat_tokens disk_no rest (sector_no info) (size info) else ret None
          end
      end
  end.

(** A path of slashes alone has no component: the result is 0 with nothing
    found. *)
Definition iso9660_stat (disk_no : Z) (path : list Z) : M st (Z * option iso9660_file_t) :=
  let! bad := no_disk disk_no in
  if bad then ret (-1, None) else
  let! disk := disk_of disk_no in
  let path := skip_slash path in
  match path with
  | [] => ret (-1, None)
  | _ =>
      let! ok := iso_malloc (zlen path + 1) in
      guard ok ;;;
      let tokens := fields (S (length path)) [47] path in
      let! r := stat_tokens disk_no tokens (root_directory_sector disk) (root_directory_size disk) in
      iso_free ;;;
      ret (match r, tokens with None, _ :: _ => -1 | _, _ => 0 end, r)
  end.

(** The first component that is not a directory is opened, whatever follows. *)
Fixpoint open_tokens (disk_no : Z) (tokens : list (list Z)) (cur_sector cur_size : Z) :
    M st (option iso9660_file_t) :=
  match tokens with
  | [] => ret None
  | token :: rest =>
      let! f := iso9660_find_file disk_no cur_sector cur_size token in
      match f with
      | None => ret None
      | Some info =>
          if is_dir info then open_tokens disk_no rest (sector_no info) (size info)
          else ret (Some info)
      end
  end.

Definition iso9660_open (disk_no : Z) (path : list Z) : M st (option iso9660_file_t) :=
  let! bad := no_disk disk_no in
  if bad then ret None else
  let! disk := disk_of disk_no in
  if negb (bool_decide (dtype disk = DISK_TYPE_SATAPI)) then ret None else
  let path := skip_slash path in
  match path with
  | [] => ret None
  | _ =>
      let! ok := iso_malloc (zlen path + 1) in
      guard ok ;;;
      let! r := open_tokens disk_no (fields (S (length path)) [47] path)
                  (root_directory_sector disk) (root_directory_size disk) in
      iso_free ;;;
      match r with
      | None => ret None
      | Some info =>
          let! ok := iso_malloc 272 in
          ret (if ok then Some info else None)
      end
  end.

(** The bytes stored in [buff] and the result; the file has no position. *)
Definition iso9660_read (fp : option iso9660_file_t) (buff_ok : bool) (sz : Z) : M st (Z * list Z) :=
  let! none := gets (fun s => match idisks s with None => true | Some _ => false end) in
  match fp with
  | None => ret (-1, [])
  | Some file =>
      if negb buff_ok || (sz <=? 0) || none then ret (-1, []) else
      let! disk := disk_of (file_disk_no file) in
      let bps := bytes_per_sector disk in
      let sz := if size file <? sz then size file else sz in
      let! ok := iso_malloc bps in
      if negb ok then ret (-1, []) else
      iter_fuel (S (Z.to_nat sz)) (fun '(out, remaining, cur_sector) =>
        if 0 <? remaining then
          let! b := disk_read_into bps (file_disk_no file) cur_sector 1 in
          match b with
          | None => iso_free ;;; ret (inr (zlen out, out))
          | Some data =>
              let copy := if remaining <? bps then remaining else bps in
              let! l := at_bytes (data ++ replicate (Z.to_nat bps - length data) 0) 0 copy in
              ret (inl (out ++ l, remaining - copy, u32 (cur_sector + 1)))
          end
        else iso_free ;;; ret (inr (zlen out, out))) ([], sz, sector_no file)
  end.

Definition iso9660_get_fsize (fp : option iso9660_file_t) : Z :=
  match fp with Some f => s32 (size f) | None => -1 end.

Definition iso9660_close (fp : option iso9660_file_t) : M st Z :=
  match fp with Some _ => iso_free ;;; ret 0 | None => ret (-1) end.

(** Only a single name is looked up, a leading slash included.  A read that
    fails leaves the zeroes of malloc. *)
Definition iso9660_opendir (disk_no : Z) (path : list Z) : M st (option iso9660_dir_t) :=
  let! bad := no_disk disk_no in
  if bad then ret None else
  let! disk := disk_of disk_no in
  let! place :=
    (if (0 <? zlen path) && negb (str_cmp path [47] =? 0) then
       let! f := iso9660_find_file disk_no (root_directory_sector disk) (root_directory_size disk) path in
       match f with
       | None => ret None
       | Some info => ret (if is_dir info then Some (sector_no info, size info) else None)
       end
     else ret (Some (root_directory_sector disk, root_directory_size disk))) in
  match place with
  | None => ret None
  | Some (sec, sz) =>
      let! ok := iso_malloc 24 in
      if negb ok then ret None else
      let! ok := iso_malloc sz in
      if negb ok then iso_free ;;; ret None else
      let! b := disk_read_into sz disk_no sec (u32 (sz + 2047) / 2048) in
      let data := default [] b in
      ret (Some (mk_dir (data ++ replicate (Z.to_nat sz - length data) 0) sz 0))
  end.

(** The entry found, stored over [ent] whose disk number stays, and the
    directory with its new offset. *)
Definition iso9660_readdir (dir : iso9660_dir_t) (ent : iso9660_file_t) : M st (option iso9660_file_t * iso9660_dir_t) :=
  let buffer := dir_buffer dir in
  let at_offset o := mk_dir buffer (dir_size dir) o in
  iter_fuel (S (Z.to_nat (dir_size dir))) (fun offset =>
    if offset <? dir_size dir then
      let! len := rec_length buffer offset in
      if len =? 0 then ret (inl (u32 (offset + (2048 - offset mod 2048)))) else
      let! dots := is_dot_record buffer offset in
      if dots then ret (inl (u32 (offset + len))) else
      let! n := parse_filename buffer offset 256 in
      let! sec := rec_extent buffer offset in
      let! sz := rec_data_length buffer offset in
      let! fl := rec_flags buffer offset in
      ret (inr (Some (mk_file n sec sz (file_disk_no ent) (negb (Z.land fl 2 =? 0))), at_offset (u32 (offset + len))))
    else ret (inr (None, at_offset offset))) (dir_offset dir).

Definition iso9660_closedir (dir : option iso9660_dir_t) : M st Z :=
  match dir with
  | None => ret (-1)
  | Some _ => iso_free ;;; iso_free ;;; ret 0
  end.

Definition iso9660_check_media (ctx : Z) : M st bool :=
  if ctx =? 0 then ret false else fun s =>
  let '(v, e) := port_ssts ctx (idev s) in
  Ret (Z.land v 0x0F =? 3, mk_ist e (idisks s) (idisk_count s) (ilive s)).
End iso.
