(* ===== verification/Iso9660Props.v ===== *)
(** Theorems of Iso9660.v: directories and files of an optical disk.

    [OpticalLaws] says what the calls of iso9660.c promise of a disk of
    2048-byte blocks.  [dirent] is a directory record with [rec_bytes] its
    bytes on the disk; [dir_bytes] lays records out in blocks, padded with
    zeroes, and [walk] is the way through them.  Both loops over a directory
    (find_file and readdir) are proved by rule induction on [walk]; path
    resolution follows [resolves], the path in the directory tree. *)
From S2P Require Import Prelude CString Ahci Satapi Disk BlockDev Iso9660.

(** ** What the disk and the heap promise *)

Class OpticalLaws (E : Type) {D : BlockDev E} := {
  block : E -> Z -> Z -> list Z;
  blocks_of : E -> Z -> Z;
  working : E -> Prop;
  same_media : E -> E -> Prop :=
    fun e e' => (forall d l, block e' d l = block e d l) /\
                (forall d, blocks_of e' d = blocks_of e d) /\ working e';
  block_length : forall e d l, length (block e d l) = 2048%nat;
  oread_ok : forall e d lba n, working e -> 0 <= lba -> 0 < n -> lba + n <= blocks_of e d ->
    exists e', kebla_disk_read d lba n e = (Some (mjoin (block e d <$> seqZ lba n)), e') /\ same_media e e';
  omalloc_ok : forall e n, working e -> 0 < n ->
    exists e', malloc n e = (true, e') /\ same_media e e';
  ofree_ok : forall e, working e -> same_media e (free e)
}.

(** ** Directory records *)

Record dirent := mk_dirent {
  ext_attr : Z; extent : Z; extent_be : list Z; data_len : Z; len_be_date : list Z;
  flags : Z; unit_gap_seq : list Z; ident : list Z; padding : list Z
}.

Definition ent_len (r : dirent) : Z := 33 + zlen (ident r) + zlen (padding r).

Definition rec_bytes (r : dirent) : list Z :=
  [ent_len r; ext_attr r] ++ le_bytes 4 (extent r) ++ extent_be r ++ le_bytes 4 (data_len r) ++
  len_be_date r ++ [flags r] ++ unit_gap_seq r ++ [zlen (ident r)] ++ ident r ++ padding r.

Record wf_ent (r : dirent) : Prop := {
  wf_len : ent_len r < 256;
  wf_ident : 0 < zlen (ident r);
  wf_chars : Forall byte (ident r);
  wf_extent : 0 <= extent r < 2 ^ 32;
  wf_data : 0 <= data_len r < 2 ^ 32;
  wf_ebe : length (extent_be r) = 4%nat;
  wf_lbe : length (len_be_date r) = 11%nat;
  wf_ugs : length (unit_gap_seq r) = 6%nat
}.

(** The record of the directory itself or of its parent is not listed. *)
Definition visible (r : dirent) : bool :=
  negb (bool_decide (ident r = [0]) || bool_decide (ident r = [1])).

(** The name is what stands before the version, in upper case. *)
Definition iso_name (id : list Z) : list Z :=
  (fun c => u8 (toupper (s8 c))) <$> take (lead (fun c => negb (c =? 0) && negb (c =? 59)) id) id.

Definition entry (d : Z) (r : dirent) : iso9660_file_t :=
  mk_file (iso_name (ident r)) (extent r) (data_len r) d (Z.testbit (flags r) 1).

(** ** Bytes of a buffer that holds a record *)

Definition at_rec (buf : list Z) (off : Z) (r : dirent) : Prop :=
  exists pre post, buf = pre ++ rec_bytes r ++ post /\ off = zlen pre.

Section fields.
Context {S : Type}.
Implicit Types s : S.

Lemma at_byte_eq (buf : list Z) i b s : buf !! Z.to_nat i = Some b -> 0 <= i -> at_byte buf i s = Ret (b, s).
Proof. intros Hb Hi. unfold at_byte. rewrite (proj2 (Z.leb_le 0 i)), Hb by done. done. Qed.

Lemma at_bytes_eq (buf : list Z) i n s :
  0 <= i -> 0 <= n -> i + n <= zlen buf -> at_bytes buf i n s = Ret (slice i n buf, s).
Proof.
  intros. unfold at_bytes, guard. rewrite (proj2 (Z.leb_le 0 i)), (proj2 (Z.leb_le 0 n)),
    (proj2 (Z.leb_le (i + n) (zlen buf))) by lia. done.
Qed.

Lemma length_rec_bytes r : wf_ent r -> zlen (rec_bytes r) = ent_len r.
Proof.
  intros [_ _ _ _ _ H1 H2 H3]. unfold rec_bytes, ent_len.
  rewrite !length_app, !length_le_bytes, H1, H2, H3. simpl. lia.
Qed.

Lemma rec_byte buf off r k b s :
  at_rec buf off r -> rec_bytes r !! Z.to_nat k = Some b -> 0 <= k -> at_byte buf (off + k) s = Ret (b, s).
Proof.
  intros (pre & post & -> & ->) Hk H0. apply at_byte_eq; [|lia].
  rewrite lookup_app_r by lia. rewrite lookup_app_l.
  - rewrite <- Hk. f_equal. lia.
  - apply lookup_lt_Some in Hk. lia.
Qed.

Lemma rec_slice buf off r k n s :
  at_rec buf off r -> 0 <= k -> 0 <= n -> k + n <= zlen (rec_bytes r) ->
  at_bytes buf (off + k) n s = Ret (slice k n (rec_bytes r), s).
Proof.
  intros (pre & post & -> & ->) Hk Hn Hb. rewrite at_bytes_eq; rewrite ?length_app; [|lia..].
  rewrite slice_app_r by lia. rewrite slice_app_l by lia. do 3 f_equal. lia.
Qed.

(** Little-endian words. *)
Lemma lor_bytes v : 0 <= v < 2 ^ 32 ->
  u32 (Z.lor (Z.lor (Z.lor (v mod 256) (Z.shiftl (v / 256 mod 256) 8)) (Z.shiftl (v / 256 / 256 mod 256) 16))
        (Z.shiftl (v / 256 / 256 / 256 mod 256) 24)) = v.
Proof.
  intros Hv. change (2 ^ 32) with 4294967296 in Hv. rewrite !Z.shiftl_mul_pow2 by lia.
  assert (Hb : forall z, 0 <= z mod 256 < 256) by (intros; apply Z.mod_pos_bound; lia).
  pose proof (Hb v) as H0. pose proof (Hb (v / 256)) as H1. pose proof (Hb (v / 256 / 256)) as H2.
  pose proof (Hb (v / 256 / 256 / 256)) as H3.
  rewrite (Z.lor_comm (v mod 256)), lor_add_disjoint by (simpl; lia).
  rewrite (Z.lor_comm (_ + v mod 256)), lor_add_disjoint by lia.
  rewrite (Z.lor_comm (_ + (_ + v mod 256))), lor_add_disjoint by lia.
  clear H0 H1 H2 H3 Hb. unfold u32. Z.to_euclidean_division_equations. lia.
Qed.

Lemma rec_word buf off r k v s :
  at_rec buf off r -> wf_ent r -> 0 <= k -> k + 4 <= 33 -> 0 <= v < 2 ^ 32 ->
  slice k 4 (rec_bytes r) = le_bytes 4 v -> read_u32_le buf (off + k) s = Ret (v, s).
Proof.
  intros Ha Hw Hk Hk' Hv Hs. pose proof (length_rec_bytes r Hw) as Hl. unfold ent_len in Hl.
  unfold read_u32_le, bind, obind. erewrite rec_slice by (done || lia). rewrite Hs.
  simpl. unfold ret. by rewrite lor_bytes.
Qed.
End fields.

(** The fields of constant size as elements of the list. *)
Ltac list_elems l n :=
  lazymatch n with
  | O => destruct l; [|done]
  | S ?m => let x := fresh "x" in let l' := fresh "l" in destruct l as [|x l']; [done|]; list_elems l' m
  end.
Ltac open_record r Hw :=
  let H1 := fresh in let H2 := fresh in let H3 := fresh in
  destruct r as [? ? ebe ? lbe ? ugs ? ?]; destruct Hw as [? ? ? ? ? H1 H2 H3]; simpl in *;
  list_elems ebe 4%nat; list_elems lbe 11%nat; list_elems ugs 6%nat.

Lemma bool_dot (id : list Z) : 0 < zlen id ->
  negb (bool_decide (id = [0]) || bool_decide (id = [1])) =
  negb ((zlen id =? 1) && match id with c :: _ => (c =? 0) || (c =? 1) | [] => false end).
Proof.
  intros H. destruct id as [|c [|]]; [simpl in H; lia| |].
  - simpl. f_equal. destruct (Z.eqb_spec c 0), (Z.eqb_spec c 1); subst; try done.
    rewrite !bool_decide_false by congruence. done.
  - rewrite !bool_decide_false by done. rewrite (proj2 (Z.eqb_neq _ 1)) by (simpl; lia). done.
Qed.

(** Stripping ";1" and cutting at ';' is cutting at ';'. *)
Lemma take_lead_lead P Q l :
  take (lead Q (take (lead P l) l)) (take (lead P l) l) = take (lead (fun c => P c && Q c) l) l.
Proof.
  induction l as [|c l IH]; [done|]. simpl. destruct (P c); [|done]. simpl.
  destruct (Q c); [|done]. simpl. by rewrite IH.
Qed.

Lemma lead_take P (l : list Z) n : (lead P l <= n)%nat -> take (lead P (take n l)) (take n l) = take (lead P l) l.
Proof.
  revert n. induction l as [|c l IH]; intros n Hn; [by rewrite take_nil|].
  simpl in *. destruct (P c) eqn:Hc.
  - destruct n; [lia|]. simpl. rewrite Hc. simpl. f_equal. apply IH. lia.
  - destruct n; [done|]. simpl. by rewrite Hc.
Qed.

Lemma lead_before P l (i : nat) c : l !! i = Some c -> P c = false -> (lead P l <= i)%nat.
Proof.
  intros Hl Hc. destruct (Nat.le_gt_cases (lead P l) i); [done|].
  exfalso. rewrite (lead_lookup P l i c) in Hc by done. done.
Qed.

Section parse.
Context {S : Type}.
Implicit Types s : S.

Lemma rec_length_eq buf off r s : at_rec buf off r -> rec_length buf off s = Ret (ent_len r, s).
Proof.
  intros Ha. unfold rec_length. replace off with (off + 0) by lia. by apply (rec_byte _ _ r).
Qed.

Lemma rec_extent_eq buf off r s : at_rec buf off r -> wf_ent r -> rec_extent buf off s = Ret (extent r, s).
Proof. intros Ha Hw. eapply rec_word; try done. apply Hw. Qed.

Lemma rec_data_length_eq buf off r s :
  at_rec buf off r -> wf_ent r -> rec_data_length buf off s = Ret (data_len r, s).
Proof.
  intros Ha Hw. eapply rec_word; try done; [apply Hw|]. open_record r Hw. done.
Qed.

Lemma rec_flags_eq buf off r s : at_rec buf off r -> wf_ent r -> rec_flags buf off s = Ret (flags r, s).
Proof. intros Ha Hw. eapply rec_byte; try done. open_record r Hw. done. Qed.

Lemma rec_id_length_eq buf off r s :
  at_rec buf off r -> wf_ent r -> rec_id_length buf off s = Ret (zlen (ident r), s).
Proof. intros Ha Hw. eapply rec_byte; try done. open_record r Hw. done. Qed.

Lemma rec_ident buf off r (k : nat) c s :
  at_rec buf off r -> wf_ent r -> ident r !! k = Some c ->
  at_byte buf (off + 33 + Z.of_nat k) s = Ret (c, s).
Proof.
  intros Ha Hw Hc. rewrite <- Z.add_assoc. eapply rec_byte; [done| |lia].
  replace (Z.to_nat (33 + Z.of_nat k)) with (33 + k)%nat by lia.
  open_record r Hw. unfold rec_bytes. simpl. by rewrite lookup_app_l by (by apply lookup_lt_Some in Hc).
Qed.

Lemma is_dot_record_eq buf off r s :
  at_rec buf off r -> wf_ent r -> is_dot_record buf off s = Ret (negb (visible r), s).
Proof.
  intros Ha Hw. unfold is_dot_record, visible, bind, obind.
  rewrite (rec_id_length_eq _ _ r) by done. pose proof (wf_ident _ Hw) as Hl.
  rewrite bool_dot, negb_involutive by done.
  destruct (Z.eqb_spec (zlen (ident r)) 1) as [H1|]; [|done]. simpl.
  destruct (ident r) as [|c l] eqn:Hi; [done|].
  replace (off + 33) with (off + 33 + Z.of_nat 0) by lia.
  rewrite (rec_ident _ _ r 0 c) by (done || by rewrite Hi). done.
Qed.

Lemma ident_slice buf off r n s :
  at_rec buf off r -> wf_ent r -> 0 <= n <= zlen (ident r) ->
  at_bytes buf (off + 33) n s = Ret (take (Z.to_nat n) (ident r), s).
Proof.
  intros Ha Hw Hn. pose proof (length_rec_bytes r Hw) as Hl. unfold ent_len in Hl.
  erewrite rec_slice by (done || lia). do 2 f_equal.
  open_record r Hw. unfold slice, rec_bytes. change (Z.to_nat 33) with 33%nat. simpl. by rewrite drop_0, take_app_le by lia.
Qed.

Lemma parse_filename_ok buf off r s :
  at_rec buf off r -> wf_ent r -> visible r = true ->
  parse_filename buf off 256 s = Ret (iso_name (ident r), s).
Proof.
  intros Ha Hw Hv. unfold parse_filename, bind, obind.
  rewrite (rec_id_length_eq _ _ r), (is_dot_record_eq _ _ r), Hv by done. cbn [negb]. cbv iota beta.
  pose proof (wf_ident _ Hw) as Hi. pose proof (wf_len _ Hw) as Hlen. unfold ent_len in Hlen.
  unfold iso_name. set (stop := fun c : Z => negb (c =? 0) && negb (c =? 59)).
  assert (Hcut : forall n, (lead stop (ident r) <= n)%nat -> Z.of_nat n <= zlen (ident r) ->
    match at_bytes buf (off + 33) (Z.of_nat n) s with
    | Ret (l, s') => ret ((fun c => u8 (toupper (s8 c))) <$>
        take (lead (fun c => negb (c =? 59)) (take (lead (fun c => negb (c =? 0)) l) l))
          (take (lead (fun c => negb (c =? 0)) l) l)) s'
    | Undef => Undef | Halted => Halted | OutOfFuel => OutOfFuel
    end = Ret ((fun c => u8 (toupper (s8 c))) <$> take (lead stop (ident r)) (ident r), s)).
  { intros n Hn Hz. rewrite (ident_slice _ _ r) by (done || lia). rewrite Nat2Z.id.
    rewrite take_lead_lead, lead_take by done. done. }
  destruct (Z.leb_spec 2 (zlen (ident r))) as [H2|H2]; cbn [andb]; cbv iota beta.
  - destruct (lookup_lt_is_Some_2 (ident r) (length (ident r) - 2)) as [c Hc]; [lia|].
    replace (off + 33 + zlen (ident r) - 2) with (off + 33 + Z.of_nat (length (ident r) - 2)) by lia.
    rewrite (rec_ident _ _ r _ c) by done. destruct (Z.eqb_spec c 59) as [->|].
    + rewrite Z.min_l by lia.
      replace (zlen (ident r) - 2) with (Z.of_nat (length (ident r) - 2)) by lia.
      apply Hcut; [|lia]. by eapply lead_before.
    + rewrite Z.min_l by lia. apply Hcut; [apply lead_le | lia].
  - unfold ret at 1. rewrite Z.min_l by lia. apply Hcut; [apply lead_le | lia].
Qed.

Lemma iso_name_chars id : Forall byte id -> Forall char_ok (iso_name id).
Proof.
  intros Hid. unfold iso_name. apply Forall_fmap, Forall_lookup. intros i c Hc.
  apply lookup_take_Some in Hc as [Hc Hi]. pose proof (lead_lookup _ _ _ _ Hi Hc) as Hn.
  rewrite Forall_lookup in Hid. pose proof (Hid _ _ Hc) as Hb. unfold byte in Hb.
  apply andb_true_iff in Hn as [Hn _]. apply negb_true_iff, Z.eqb_neq in Hn.
  unfold compose, char_ok, toupper, u8, s8. destruct (Z_lt_le_dec c 128) as [Hs|Hs].
  - rewrite (Z.mod_small (c + 128)) by lia. case_if; bool_to_prop;
      rewrite Z.mod_small by lia; lia.
  - replace ((c + 128) mod 256) with (c - 128) by
      (rewrite <- (Z.mod_add _ (-1)) by lia; rewrite Z.mod_small; lia).
    case_if; bool_to_prop; [lia|]. rewrite <- (Z.mod_add _ 1) by lia. rewrite Z.mod_small by lia. lia.
Qed.
End parse.

(** ** The way through a directory *)

Definition recs_bytes (rs : list dirent) : list Z := mjoin (rec_bytes <$> rs).
Definition sec_bytes (rs : list dirent) : list Z :=
  recs_bytes rs ++ replicate (2048 - length (recs_bytes rs)) 0.
Definition dir_bytes (ss : list (list dirent)) : list Z := mjoin (sec_bytes <$> ss).

Record wf_dir (ss : list (list dirent)) : Prop := {
  wf_recs : Forall (Forall wf_ent) ss;
  wf_fit : Forall (fun rs => zlen (recs_bytes rs) <= 2048) ss;
  wf_size : zlen ss * 2048 < 2 ^ 32 - 2048
}.

(** [walk buf off rest]: from [off] the records [rest] are met, in order. *)
Inductive walk (buf : list Z) : Z -> list dirent -> Prop :=
  | walk_end : walk buf (zlen buf) []
  | walk_rec off r rest :
      wf_ent r -> at_rec buf off r -> walk buf (off + ent_len r) rest -> walk buf off (r :: rest)
  | walk_gap off rest :
      0 <= off -> buf !! Z.to_nat off = Some 0 ->
      walk buf (off + (2048 - off mod 2048)) rest -> walk buf off rest.

Lemma walk_le buf off rest : walk buf off rest -> off <= zlen buf.
Proof.
  induction 1 as [|off r rest Hw _ _ IH|off rest H0 Hb _ IH]; [done| |].
  - pose proof (wf_ident r Hw). unfold ent_len in IH. lia.
  - apply lookup_lt_Some in Hb. lia.
Qed.

Lemma walk_ge buf off rest : walk buf off rest -> 0 <= off.
Proof. destruct 1 as [|off r rest _ (? & ? & _ & ->)|]; lia. Qed.

Lemma length_sec_bytes rs : zlen (recs_bytes rs) <= 2048 -> zlen (sec_bytes rs) = 2048.
Proof. intros. unfold sec_bytes. rewrite length_app, length_replicate. lia. Qed.

Lemma length_dir_bytes ss : Forall (fun rs => zlen (recs_bytes rs) <= 2048) ss ->
  zlen (dir_bytes ss) = zlen ss * 2048.
Proof.
  unfold dir_bytes. induction 1 as [|rs ss Hr _ IH]; [done|].
  change (mjoin (sec_bytes <$> rs :: ss)) with (sec_bytes rs ++ mjoin (sec_bytes <$> ss)).
  rewrite length_app. cbn [length]. pose proof (length_sec_bytes rs Hr). lia.
Qed.

(** A block that holds the records [rs], some of them passed. *)
Lemma walk_block pre rs n tail rest :
  Forall wf_ent rs -> (zlen pre + zlen (recs_bytes rs) + Z.of_nat n) mod 2048 = 0 -> Z.of_nat n <= 2048 ->
  walk (pre ++ recs_bytes rs ++ replicate n 0 ++ tail) (zlen pre + zlen (recs_bytes rs) + Z.of_nat n) rest ->
  walk (pre ++ recs_bytes rs ++ replicate n 0 ++ tail) (zlen pre) (rs ++ rest).
Proof.
  intros Hrs. revert pre. induction Hrs as [|r rs Hr Hrs IH]; intros pre Hm Hn Hw.
  - change (recs_bytes []) with (@nil Z) in *. cbn [app length Z.of_nat] in *. destruct n as [|n]; [by rewrite !Z.add_0_r in Hw|]. apply walk_gap; [lia| |].
    + rewrite Nat2Z.id, lookup_app_r, Nat.sub_diag by done. done.
    + replace (2048 - zlen pre mod 2048) with (0 + Z.of_nat (Datatypes.S n)); [by rewrite Z.add_assoc|].
      rewrite Z.add_0_r in Hm. apply Z.mod_divide in Hm as [k Hk]; [|done].
      replace (zlen pre) with (2048 - Z.of_nat (Datatypes.S n) + (k - 1) * 2048) by lia.
      rewrite Z.mod_add, Z.mod_small by lia. lia.
  - change (recs_bytes (r :: rs)) with (rec_bytes r ++ recs_bytes rs) in *.
    rewrite length_app, Nat2Z.inj_add in Hm, Hw. rewrite <- !app_assoc in *.
    apply walk_rec; [done | by eexists _, _ |].
    rewrite <- (length_rec_bytes r Hr), <- Nat2Z.inj_add, <- length_app, (app_assoc pre).
    apply IH; [|done|]; rewrite length_app, Nat2Z.inj_add.
    + by rewrite <- !Z.add_assoc in *.
    + rewrite <- app_assoc. by rewrite <- !Z.add_assoc in *.
Qed.

Lemma walk_blocks ss pre : Forall (Forall wf_ent) ss ->
  Forall (fun rs => zlen (recs_bytes rs) <= 2048) ss -> zlen pre mod 2048 = 0 ->
  walk (pre ++ dir_bytes ss) (zlen pre) (mjoin ss).
Proof.
  intros Hs. revert pre. induction Hs as [|rs ss Hr Hs IH]; intros pre Hf Hm.
  - unfold dir_bytes. simpl. rewrite app_nil_r. apply walk_end.
  - apply Forall_cons in Hf as [Hf Hfs]. pose proof (length_sec_bytes rs Hf) as Hl.
    change (dir_bytes (rs :: ss)) with (sec_bytes rs ++ dir_bytes ss). simpl mjoin.
    specialize (IH (pre ++ sec_bytes rs) Hfs). rewrite length_app, Nat2Z.inj_add, Hl in IH.
    specialize (IH ltac:(rewrite <- Z.add_mod_idemp_l, Hm by done; done)).
    unfold sec_bytes in *. rewrite length_app, length_replicate in Hl. rewrite <- !app_assoc in *.
    apply walk_block; [done| |lia|]; rewrite <- Z.add_assoc;
      replace (zlen (recs_bytes rs) + _) with 2048 by lia; [|done].
    by rewrite <- Z.add_mod_idemp_l, Hm by done.
Qed.

Lemma walk_dir ss : wf_dir ss -> walk (dir_bytes ss) 0 (mjoin ss).
Proof. intros [H1 H2 _]. by apply (walk_blocks ss []). Qed.

(** ** A loop along the way *)

(** The first element with [P] and what follows it. *)
Fixpoint first_hit {A} (P : A -> bool) (l : list A) : option (A * list A) :=
  match l with
  | [] => None
  | x :: l => if P x then Some (x, l) else first_hit P l
  end.

Lemma first_hit_Some {A} (P : A -> bool) l x k : first_hit P l = Some (x, k) ->
  exists pre, l = pre ++ x :: k /\ (forall y, y ∈ pre -> ~ P y = true) /\ P x = true.
Proof.
  induction l as [|y l IH]; simpl; [done|]. destruct (P y) eqn:Hy; intros Hh.
  - simplify_eq. exists []. repeat split; try done. intros y Hy'. by apply elem_of_nil in Hy'.
  - destruct (IH Hh) as (pre & -> & Hpre & Hx). exists (y :: pre). repeat split; try done.
    intros z Hz. apply elem_of_cons in Hz as [->|Hz]; [congruence | by apply Hpre].
Qed.

Lemma first_hit_None {A} (P : A -> bool) l : first_hit P l = None -> forall y, y ∈ l -> ~ P y = true.
Proof.
  induction l as [|x l IH]; simpl; intros Hh y Hy; [by apply elem_of_nil in Hy|].
  destruct (P x) eqn:Hx; [done|]. apply elem_of_cons in Hy as [->|Hy]; [congruence | by apply IH].
Qed.

(** A loop that passes zeroes and records without [P], and ends at the end of
    the buffer or at a record with [P]. *)
Lemma walk_loop {S R} (body : Z -> M S (Z + R)) buf (P : dirent -> bool) (none : R)
    (some : dirent -> Z -> R) fuel off rest s :
  body (zlen buf) s = Ret (inr none, s) ->
  (forall off, 0 <= off -> buf !! Z.to_nat off = Some 0 ->
     off + (2048 - off mod 2048) <= zlen buf ->
     body off s = Ret (inl (off + (2048 - off mod 2048)), s)) ->
  (forall off r, wf_ent r -> at_rec buf off r -> off + ent_len r <= zlen buf ->
     body off s = Ret (if P r then inr (some r (off + ent_len r)) else inl (off + ent_len r), s)) ->
  walk buf off rest -> zlen buf - off < Z.of_nat fuel ->
  wp (iter_fuel fuel body off) (fun v s' => s' = s /\
    match first_hit P rest with
    | None => v = none
    | Some (r, rest') => exists off', v = some r off' /\ walk buf off' rest'
    end) s.
Proof.
  intros Hend Hgap Hrec Hw. revert fuel.
  induction Hw as [|off r rest Hr Ha Hw IH|off rest H0 Hb Hw IH]; intros fuel Hf.
  - destruct fuel as [|fuel]; [lia|]. unfold wp. simpl. unfold bind, obind. by rewrite Hend.
  - pose proof (walk_le _ _ _ Hw). pose proof (wf_ident r Hr).
    assert (33 < ent_len r) by (unfold ent_len; lia). destruct fuel as [|fuel]; [lia|].
    unfold wp. cbn [iter_fuel first_hit]. unfold bind, obind. rewrite (Hrec off r) by done.
    destruct (P r); [simpl; split; [done|]; by eexists|]. apply IH. lia.
  - pose proof (walk_le _ _ _ Hw). pose proof (Z.mod_pos_bound off 2048 ltac:(lia)).
    destruct fuel as [|fuel]; [lia|]. unfold wp. cbn [iter_fuel]. unfold bind, obind.
    rewrite Hgap by done. apply IH. lia.
Qed.

(** ** Files on the disk *)

Definition lookup_name (n : list Z) (rs : list dirent) : option dirent :=
  fst <$> first_hit (fun r => visible r && bool_decide (iso_name (ident r) = n)) rs.

Section disk.
Context {E : Type} `{D : BlockDev E} `{L : !OpticalLaws E} `{Md : Media E}.
Implicit Types s : ist E.

Definition blocks (e : E) (d lba n : Z) : list Z := mjoin (block e d <$> seqZ lba n).

(** Disk [d] of the table is [disk], a mounted optical disk. *)
Record mounted (s : ist E) (d : Z) (disk : Disk) : Prop := {
  mt_disks : exists l, idisks s = Some l /\ l !! Z.to_nat d = Some disk;
  mt_no : 0 <= d < idisk_count s;
  mt_type : dtype disk = DISK_TYPE_SATAPI;
  mt_bps : bytes_per_sector disk = 2048;
  mt_working : working (idev s)
}.

(** What a call that keeps nothing leaves behind. *)
Record same_st (s s' : ist E) : Prop := {
  ss_media : same_media (idev s) (idev s');
  ss_disks : idisks s' = idisks s;
  ss_count : idisk_count s' = idisk_count s
}.

(** The directory [ss] at block [sec]. *)
Record dir_on (e : E) (d sec : Z) (ss : list (list dirent)) : Prop := {
  do_wf : wf_dir ss;
  do_some : 0 < zlen ss;
  do_sec : 0 <= sec /\ sec + zlen ss <= blocks_of e d;
  do_bytes : blocks e d sec (zlen ss) = dir_bytes ss
}.

Lemma same_media_refl (e : E) : working e -> same_media e e.
Proof. by repeat split. Qed.

Lemma same_media_trans (e1 e2 e3 : E) : same_media e1 e2 -> same_media e2 e3 -> same_media e1 e3.
Proof.
  intros (Hb & Hc & _) (Hb' & Hc' & Hw). repeat split; [| |done]; intros; by rewrite ?Hb', ?Hc'.
Qed.

Lemma same_st_trans s1 s2 s3 : same_st s1 s2 -> same_st s2 s3 -> same_st s1 s3.
Proof.
  intros [H1 H2 H3] [H1' H2' H3']. split; [by eapply same_media_trans|congruence..].
Qed.

Lemma mounted_same s s' d disk : same_st s s' -> mounted s d disk -> mounted s' d disk.
Proof.
  intros [(_ & _ & Hw) Hd Hc] [? ? ? ? _]. split; try done; [by rewrite Hd | by rewrite Hc].
Qed.

Lemma blocks_same s s' d lba n : same_st s s' -> blocks (idev s') d lba n = blocks (idev s) d lba n.
Proof. intros [(Hb & _) _ _]. unfold blocks. f_equal. apply list_fmap_ext. intros. apply Hb. Qed.

Lemma dir_on_same s s' d sec ss : same_st s s' -> dir_on (idev s) d sec ss -> dir_on (idev s') d sec ss.
Proof.
  intros Hs [? ? ? Hb]. split; try done.
  - destruct Hs as [(_ & Hc & _) _ _]. by rewrite Hc.
  - by rewrite (blocks_same s s').
Qed.

Lemma length_blocks e d lba n : 0 <= n -> zlen (blocks e d lba n) = n * 2048.
Proof.
  intros Hn. unfold blocks. revert lba. pattern n. apply natlike_ind; [done| |done].
  intros x Hx IH lba. rewrite seqZ_cons by lia. rewrite fmap_cons.
  change (mjoin (?a :: ?l)) with (a ++ mjoin l). rewrite length_app, block_length.
  replace (Z.pred (Z.succ x)) with x by lia. specialize (IH (Z.succ lba)). lia.
Qed.

(** The calls. *)
Lemma wp_malloc n s Q : working (idev s) -> 0 < n ->
  (forall s', same_st s s' -> ilive s' = ilive s + 1 -> Q true s') -> wp (iso_malloc n) Q s.
Proof.
  intros Hw Hn HQ. destruct (omalloc_ok (idev s) n Hw Hn) as (e' & He & Hs).
  unfold wp, iso_malloc. rewrite He. apply HQ; [by split | done].
Qed.

Lemma wp_free s Q : working (idev s) ->
  (forall s', same_st s s' -> ilive s' = ilive s - 1 -> Q tt s') -> wp iso_free Q s.
Proof. intros Hw HQ. apply HQ; [split; [by apply ofree_ok | done..] | done]. Qed.

Lemma wp_read room d lba n s Q : working (idev s) -> 0 <= lba -> 0 < n -> lba + n <= blocks_of (idev s) d ->
  n * 2048 <= room ->
  (forall s', same_st s s' -> ilive s' = ilive s -> Q (Some (blocks (idev s) d lba n)) s') ->
  wp (disk_read_into room d lba n) Q s.
Proof.
  intros Hw Hl Hn Hc Hr HQ. destruct (oread_ok (idev s) d lba n Hw Hl Hn Hc) as (e' & He & Hs).
  unfold wp, disk_read_into. rewrite He.
  change (mjoin _) with (blocks (idev s) d lba n). rewrite length_blocks by lia.
  rewrite (proj2 (Z.leb_le _ _)) by done. apply HQ; [by split | done].
Qed.

Lemma wp_no_disk s d disk Q : mounted s d disk -> Q false s -> wp (no_disk d) Q s.
Proof.
  intros [(l & Hl & _) Hd _ _ _] HQ. apply wp_gets. rewrite Hl, orb_false_r.
  by rewrite (proj2 (Z.leb_gt _ _)) by lia.
Qed.

Lemma wp_disk_of s d disk Q : mounted s d disk -> Q disk s -> wp (disk_of d) Q s.
Proof.
  intros [(l & Hl & Hd) Hn _ _ _] HQ. unfold wp, disk_of.
  rewrite Hl, (proj2 (Z.leb_le 0 d)), Hd by lia. done.
Qed.
End disk.

Section find.
Context {E : Type} `{D : BlockDev E} `{L : !OpticalLaws E} `{Md : Media E}.
Implicit Types s : ist E.

(** [find_record] at a gap and at a record. *)
Lemma find_record_gap d buf off filename s :
  0 <= off -> buf !! Z.to_nat off = Some 0 -> zlen buf < 2 ^ 32 ->
  off + (2048 - off mod 2048) <= zlen buf ->
  find_record d 2048 filename buf off s = Ret (inl (off + (2048 - off mod 2048)), s).
Proof.
  intros H0 Hb Hl Hle. pose proof (Z.mod_pos_bound off 2048 ltac:(lia)).
  unfold find_record, rec_length, bind, obind. rewrite (at_byte_eq _ _ 0) by done. simpl.
  unfold ret. by rewrite u32_small by lia.
Qed.

Lemma land_dir f : negb (Z.land f 2 =? 0) = Z.testbit f 1.
Proof. change 2 with (Z.shiftl 1 1). by rewrite land_bit, negb_involutive. Qed.

Lemma find_record_rec d buf off filename r s :
  wf_ent r -> at_rec buf off r -> off + ent_len r <= zlen buf -> zlen buf < 2 ^ 32 -> Forall char_ok filename ->
  find_record d 2048 filename buf off s =
  Ret (if visible r && bool_decide (iso_name (ident r) = filename) then inr (Some (entry d r))
       else inl (off + ent_len r), s).
Proof.
  intros Hw Ha Hle Hl Hf. assert (Hoff : 0 <= off) by (destruct Ha as (? & ? & _ & ->); lia).
  pose proof (wf_ident r Hw) as Hi. unfold find_record, bind, obind. rewrite (rec_length_eq _ _ r) by done.
  assert (Hn : 33 < ent_len r) by (unfold ent_len; lia).
  rewrite (proj2 (Z.eqb_neq (ent_len r) 0)) by lia. rewrite (is_dot_record_eq _ _ r) by done.
  destruct (visible r) eqn:Hv; simpl; [|unfold ret; by rewrite u32_small by lia].
  rewrite (parse_filename_ok _ _ r) by done. pose proof (iso_name_chars _ (wf_chars r Hw)) as Hc.
  destruct (Z.eqb_spec (str_cmp (iso_name (ident r)) filename) 0) as [He|He].
  - apply str_cmp_eq in He; [|done..]. rewrite bool_decide_true by done.
    rewrite (rec_extent_eq _ _ r), (rec_data_length_eq _ _ r), (rec_flags_eq _ _ r) by done.
    unfold ret, entry. by rewrite land_dir.
  - rewrite bool_decide_false; [unfold ret; by rewrite u32_small by lia|].
    intros Hn'. apply He. by apply str_cmp_eq.
Qed.

(** The size of a directory in blocks. *)
Lemma dir_sectors n : 0 < n -> n * 2048 < 2 ^ 32 - 2048 -> u32 (u32 (n * 2048 + 2048 - 1) / 2048) = n.
Proof.
  intros H0 H1. rewrite (u32_small (_ - 1)) by lia.
  replace (n * 2048 + 2048 - 1) with (2047 + n * 2048) by lia.
  rewrite Z.div_add, Z.div_small, Z.add_0_l by lia. apply u32_small. lia.
Qed.

Lemma find_file_spec s d disk sec ss filename Q :
  mounted s d disk -> dir_on (idev s) d sec ss -> Forall char_ok filename ->
  (forall s', same_st s s' -> ilive s' = ilive s -> Q (entry d <$> lookup_name filename (mjoin ss)) s') ->
  wp (iso9660_find_file d sec (zlen ss * 2048) filename) Q s.
Proof.
  intros Hm Hd Hf HQ. pose proof (do_wf _ _ _ _ Hd) as Hwf. pose proof (do_some _ _ _ _ Hd) as Hs0.
  pose proof (wf_size _ Hwf) as Hsz. pose proof (length_dir_bytes ss (wf_fit _ Hwf)) as Hlen.
  unfold iso9660_find_file. wp_step. eapply wp_no_disk; [done|]. cbv beta.
  rewrite (proj2 (Z.leb_gt _ 0)) by lia. cbn [orb]. wp_step.
  apply wp_malloc; [apply Hm | lia |]. intros s1 H1 Hl1. cbv beta. cbn [negb]. wp_step.
  eapply wp_disk_of; [by eapply mounted_same|]. cbv beta zeta. rewrite (mt_bps _ _ _ Hm). cbn [Z.leb Z.compare].
  rewrite dir_sectors by lia. wp_step.
  pose proof (dir_on_same _ _ _ _ _ H1 Hd) as Hd1. pose proof (do_sec _ _ _ _ Hd1) as [? ?].
  apply wp_read; [apply H1 | done | done | done | lia |]. intros s2 H2 Hl2. cbv beta.
  rewrite (do_bytes _ _ _ _ Hd1).
  replace (Z.to_nat (zlen ss * 2048) - length (dir_bytes ss))%nat with 0%nat by lia.
  cbn [replicate]. rewrite app_nil_r. wp_step. eapply wp_mono.
  - eapply (walk_loop _ (dir_bytes ss) (fun r => visible r && bool_decide (iso_name (ident r) = filename))
      None (fun r _ => Some (entry d r))); [| | |by apply walk_dir|lia].
    + cbv beta. rewrite (proj2 (Z.ltb_ge _ _)) by lia. done.
    + intros off Hof Hb Hle. rewrite (proj2 (Z.ltb_lt _ _)) by (apply lookup_lt_Some in Hb; lia).
      apply find_record_gap; try done. lia.
    + intros off r Hw Ha Hle. pose proof (wf_ident r Hw). rewrite (proj2 (Z.ltb_lt _ _)) by (unfold ent_len in *; lia).
      rewrite (find_record_rec d (dir_bytes ss) off filename r) by (done || lia). by case_match.
  - cbv beta. intros v s' [-> Hv]. wp_step. apply wp_free; [apply H2|]. intros s3 H3 Hl3. cbv beta. wp_step.
    replace v with (entry d <$> lookup_name filename (mjoin ss)).
    + apply HQ; [|lia]. eapply same_st_trans; [done|]. by eapply same_st_trans.
    + unfold lookup_name. destruct (first_hit _ _) as [[r rest]|]; [|done]. by destruct Hv as (? & -> & _).
Qed.
End find.

(** ** Paths *)

#[local] Arguments Z.testbit : simpl never.

Section paths.
Context {E : Type} `{D : BlockDev E} `{L : !OpticalLaws E} `{Md : Media E}.
Implicit Types s : ist E.

(** The components lead from the directory at [sec] of [size] bytes to [r]. *)
Inductive resolves (e : E) (d : Z) : Z -> Z -> list (list Z) -> dirent -> Prop :=
  | res_last sec ss n r : dir_on e d sec ss -> lookup_name n (mjoin ss) = Some r ->
      resolves e d sec (zlen ss * 2048) [n] r
  | res_dir sec ss n r names r' : dir_on e d sec ss -> lookup_name n (mjoin ss) = Some r ->
      Z.testbit (flags r) 1 = true -> resolves e d (extent r) (data_len r) names r' ->
      resolves e d sec (zlen ss * 2048) (n :: names) r'.

(** They do not: a name is missing, or a file stands where a directory is
    needed. *)
Inductive missing (e : E) (d : Z) : Z -> Z -> list (list Z) -> Prop :=
  | mis_name sec ss n names : dir_on e d sec ss -> lookup_name n (mjoin ss) = None ->
      missing e d sec (zlen ss * 2048) (n :: names)
  | mis_file sec ss n r n' names : dir_on e d sec ss -> lookup_name n (mjoin ss) = Some r ->
      Z.testbit (flags r) 1 = false -> missing e d sec (zlen ss * 2048) (n :: n' :: names)
  | mis_dir sec ss n r names : dir_on e d sec ss -> lookup_name n (mjoin ss) = Some r ->
      Z.testbit (flags r) 1 = true -> missing e d (extent r) (data_len r) names ->
      missing e d sec (zlen ss * 2048) (n :: names).

Lemma resolves_same s s' d sec size names r :
  same_st s s' -> resolves (idev s) d sec size names r -> resolves (idev s') d sec size names r.
Proof.
  intros Hs. induction 1; [eapply res_last | eapply res_dir]; eauto using dir_on_same.
Qed.

Lemma missing_same s s' d sec size names :
  same_st s s' -> missing (idev s) d sec size names -> missing (idev s') d sec size names.
Proof.
  intros Hs. induction 1; [eapply mis_name | eapply mis_file | eapply mis_dir]; eauto using dir_on_same.
Qed.

Lemma resolves_names e d sec size names r : resolves e d sec size names r -> names <> [].
Proof. by destruct 1. Qed.
Lemma missing_names e d sec size names : missing e d sec size names -> names <> [].
Proof. by destruct 1. Qed.

(** A call that finds the same state again, with [r] as its result. *)
Definition finds {A} (m : M (ist E) A) (s : ist E) (v : A) : Prop :=
  wp m (fun r s' => r = v /\ same_st s s' /\ ilive s' = ilive s) s.

Lemma finds_bind {A B} (m : M (ist E) A) (k : A -> M (ist E) B) s v w :
  finds m s v -> (forall s', same_st s s' -> ilive s' = ilive s -> finds (k v) s' w) -> finds (bind m k) s w.
Proof.
  intros Hm Hk. unfold finds in *. wp_step. eapply wp_mono; [done|]. cbv beta. intros r s1 (-> & H1 & Hl1).
  eapply wp_mono; [by apply Hk|]. cbv beta. intros r s2 (-> & H2 & Hl2).
  split; [done|]. split; [by eapply same_st_trans | congruence].
Qed.

Lemma find_file_finds s d disk sec ss n :
  mounted s d disk -> dir_on (idev s) d sec ss -> Forall char_ok n ->
  finds (iso9660_find_file d sec (zlen ss * 2048) n) s (entry d <$> lookup_name n (mjoin ss)).
Proof. intros. eapply find_file_spec; try done. Qed.

Lemma finds_ret {A} s (v : A) : working (idev s) -> finds (ret v) s v.
Proof. intros. split; [done|]. split; [|done]. split; [by apply same_media_refl | done..]. Qed.

Lemma stat_tokens_resolves s d disk sec size names r :
  mounted s d disk -> Forall (Forall char_ok) names -> resolves (idev s) d sec size names r ->
  finds (stat_tokens d names sec size) s (Some (entry d r)).
Proof.
  revert s sec size. induction names as [|n names IH]; intros s sec size Hm Hn Hr; [by apply resolves_names in Hr|].
  apply Forall_cons in Hn as [Hn Hns]. inversion Hr; subst; simpl;
    (eapply finds_bind; [by eapply find_file_finds|]); intros s' Hs Hl;
    pose proof (mounted_same _ _ _ _ Hs Hm) as Hm'.
  - replace (lookup_name n (mjoin ss)) with (Some r). apply finds_ret, Hm'.
  - replace (lookup_name n (mjoin ss)) with (Some r0). simpl.
    destruct names as [|n' names]; [by edestruct resolves_names|].
    replace (Z.testbit (flags r0) 1) with true. apply IH; try done. by eapply resolves_same.
Qed.

Lemma stat_tokens_missing s d disk sec size names :
  mounted s d disk -> Forall (Forall char_ok) names -> missing (idev s) d sec size names ->
  finds (stat_tokens d names sec size) s None.
Proof.
  revert s sec size. induction names as [|n names IH]; intros s sec size Hm Hn Hr; [by apply missing_names in Hr|].
  apply Forall_cons in Hn as [Hn Hns]. inversion Hr; subst; simpl;
    (eapply finds_bind; [by eapply find_file_finds|]); intros s' Hs Hl;
    pose proof (mounted_same _ _ _ _ Hs Hm) as Hm'; match goal with H : lookup_name n _ = _ |- _ => rewrite H end.
  - apply finds_ret, Hm'.
  - simpl. replace (Z.testbit (flags r) 1) with false. apply finds_ret, Hm'.
  - simpl. destruct names as [|n' names]; [by edestruct missing_names|].
    replace (Z.testbit (flags r) 1) with true. apply IH; try done. by eapply missing_same.
Qed.

Lemma open_tokens_resolves s d disk sec size names r :
  mounted s d disk -> Forall (Forall char_ok) names -> resolves (idev s) d sec size names r ->
  Z.testbit (flags r) 1 = false ->
  finds (open_tokens d names sec size) s (Some (entry d r)).
Proof.
  intros Hm Hn Hr Hf. revert s sec size Hm Hr.
  induction Hn as [|n names Hn Hns IH]; intros s sec size Hm Hr; [by apply resolves_names in Hr|].
  inversion Hr; subst; simpl;
    (eapply finds_bind; [by eapply find_file_finds|]); intros s' Hs Hl;
    pose proof (mounted_same _ _ _ _ Hs Hm) as Hm'.
  - replace (lookup_name n (mjoin ss)) with (Some r). simpl. rewrite Hf. apply finds_ret, Hm'.
  - replace (lookup_name n (mjoin ss)) with (Some r0). simpl.
    replace (Z.testbit (flags r0) 1) with true. apply IH; [done|]. by eapply resolves_same.
Qed.
End paths.

(** ** Stat, open, read, close *)

Section api.
Context {E : Type} `{D : BlockDev E} `{L : !OpticalLaws E} `{Md : Media E}.
Implicit Types s : ist E.

Definition path_names (path : list Z) : list (list Z) :=
  fields (S (length (skip_slash path))) [47] (skip_slash path).

Lemma path_some path : path_names path <> [] -> exists c l, skip_slash path = c :: l.
Proof. unfold path_names. destruct (skip_slash path); [done | by eexists _, _]. Qed.

(** The copy of the path around the search. *)
Lemma copied_finds {A B} (m : M (ist E) A) (k : A -> B) n s v :
  working (idev s) -> 0 < n ->
  (forall s1, same_st s s1 -> finds m s1 v) ->
  finds (let! ok := iso_malloc n in guard ok ;;; let! r := m in iso_free ;;; ret (k r)) s (k v).
Proof.
  intros Hw Hn Hm. unfold finds. wp_step. apply wp_malloc; [done..|]. intros s1 H1 Hl1. cbv beta.
  wp_step. wp_step. cbv beta. wp_step. eapply wp_mono; [by apply Hm|]. cbv beta.
  intros r s2 (-> & H2 & Hl2). wp_step. apply wp_free; [apply H2|]. intros s3 H3 Hl3. cbv beta.
  wp_step. split; [done|]. split; [|lia]. eapply same_st_trans; [done|]. by eapply same_st_trans.
Qed.

Lemma stat_spec s d disk path r :
  mounted s d disk -> Forall (Forall char_ok) (path_names path) ->
  path_names path <> [] ->
  (forall s', same_st s s' ->
    finds (stat_tokens d (path_names path) (root_directory_sector disk) (root_directory_size disk)) s' r) ->
  finds (iso9660_stat d path) s (match r with None => -1 | _ => 0 end, r).
Proof.
  intros Hm Hc Hne Hr. unfold iso9660_stat, finds. wp_step. eapply wp_no_disk; [done|]. cbv beta iota. wp_step.
  eapply wp_disk_of; [done|]. cbv beta zeta. unfold path_names in *.
  destruct (skip_slash path) as [|c l] eqn:Hp; [done|].
  assert (Heq : (match r with None => -1 | _ => 0 end, r) =
    (match r, fields (S (length (c :: l))) [47] (c :: l) with None, _ :: _ => -1 | _, _ => 0 end, r))
    by (by destruct r, (fields _ _ _)).
  rewrite Heq. apply (copied_finds _ (fun r => (_, r))); [apply Hm | simpl; lia | done].
Qed.

(** Opening a path that leads to a file allocates its structure. *)
Lemma open_spec s d disk path r Q :
  mounted s d disk -> Forall (Forall char_ok) (path_names path) ->
  resolves (idev s) d (root_directory_sector disk) (root_directory_size disk) (path_names path) r ->
  Z.testbit (flags r) 1 = false ->
  (forall s', same_st s s' -> ilive s' = ilive s + 1 -> Q (Some (entry d r)) s') ->
  wp (iso9660_open d path) Q s.
Proof.
  intros Hm Hc Hr Hf HQ. unfold iso9660_open. wp_step. eapply wp_no_disk; [done|]. cbv beta iota. wp_step.
  eapply wp_disk_of; [done|]. cbv beta zeta. rewrite bool_decide_true by apply Hm. cbn [negb].
  pose proof (resolves_names _ _ _ _ _ _ Hr) as Hne. unfold path_names in *.
  destruct (skip_slash path) as [|c l] eqn:Hp; [done|].
  wp_step. apply wp_malloc; [apply Hm | lia |]. intros s1 H1 Hl1. cbv beta. wp_step. wp_step. cbv beta.
  wp_step. eapply wp_mono; [eapply (open_tokens_resolves _ _ disk); try done; [by eapply mounted_same | by eapply resolves_same]|].
  cbv beta. intros v s2 (-> & H2 & Hl2). wp_step. apply wp_free; [apply H2|]. intros s3 H3 Hl3. cbv beta iota.
  wp_step. apply wp_malloc; [apply H3 | lia |]. intros s4 H4 Hl4. cbv beta iota. wp_step.
  apply HQ; [|lia]. eapply same_st_trans; [done|]. eapply same_st_trans; [done|]. by eapply same_st_trans.
Qed.

(** The blocks of the file, and its contents. *)
Definition file_blocks (r : dirent) : Z := (data_len r + 2047) / 2048.
Definition contents (e : E) (d : Z) (r : dirent) : list Z :=
  take (Z.to_nat (data_len r)) (blocks e d (extent r) (file_blocks r)).

Lemma blocks_cons (e : E) d lba n : 0 < n -> blocks e d lba n = block e d lba ++ blocks e d (lba + 1) (n - 1).
Proof.
  intros. unfold blocks. rewrite seqZ_cons by done. simpl. by rewrite <- Z.add_1_r, <- Z.sub_1_r.
Qed.

Lemma blocks_app (e : E) d lba n m : 0 <= n -> 0 <= m ->
  blocks e d lba (n + m) = blocks e d lba n ++ blocks e d (lba + n) m.
Proof.
  intros Hn Hm. unfold blocks. rewrite seqZ_app by done. by rewrite fmap_app, join_app.
Qed.

(** One block more of a run of blocks. *)
Lemma take_blocks (e : E) d lba m k c : 0 <= k < m -> 0 <= c <= 2048 ->
  take (Z.to_nat (2048 * k + c)) (blocks e d lba m) =
  take (Z.to_nat (2048 * k)) (blocks e d lba m) ++ take (Z.to_nat c) (block e d (lba + k)).
Proof.
  intros Hk Hc. replace m with (k + (m - k)) by lia. rewrite blocks_app by lia.
  pose proof (length_blocks e d lba k ltac:(lia)) as Hl. rewrite (blocks_cons e d (lba + k)) by lia.
  pose proof (block_length e d (lba + k)) as Hb.
  rewrite (take_app_ge (blocks e d lba k)) by lia. rewrite (take_app_le (blocks e d lba k)) by lia.
  rewrite (take_ge (blocks e d lba k)) by lia. f_equal. rewrite take_app_le by lia. f_equal. lia.
Qed.

Lemma iso_read_round s d disk out remaining cur :
  mounted s d disk -> 0 <= cur < blocks_of (idev s) d -> blocks_of (idev s) d < 2 ^ 32 -> 0 < remaining ->
  finds (let! b := disk_read_into 2048 d cur 1 in
         match b with
         | None => iso_free ;;; ret (inr (zlen out, out))
         | Some data =>
             let copy := if remaining <? 2048 then remaining else 2048 in
             let! l := at_bytes (data ++ replicate (Z.to_nat 2048 - length data) 0) 0 copy in
             ret (inl (out ++ l, remaining - copy, u32 (cur + 1)))
         end) s
    (inl (out ++ take (Z.to_nat (Z.min remaining 2048)) (block (idev s) d cur),
          remaining - Z.min remaining 2048, cur + 1)).
Proof.
  intros Hm Hc Hcap Hr. unfold finds. wp_step. apply wp_read; [apply Hm | lia.. |].
  intros s' Hs Hl. cbv beta iota zeta. rewrite blocks_cons, app_nil_r by lia.
  assert (Hmin : (if remaining <? 2048 then remaining else 2048) = Z.min remaining 2048) by (case_if; lia).
  rewrite Hmin. pose proof (block_length (idev s) d cur) as Hb.
  rewrite Hb. cbn [Z.to_nat]. rewrite (Nat.sub_diag). cbn [replicate]. rewrite app_nil_r. wp_step.
  unfold wp. rewrite at_bytes_eq by lia. unfold slice. simpl. split; [|done].
  by rewrite u32_small by lia.
Qed.

Lemma iso_read_spec s d disk r sz Q :
  mounted s d disk -> wf_ent r -> 0 < sz < 2 ^ 31 -> extent r + file_blocks r <= blocks_of (idev s) d ->
  blocks_of (idev s) d < 2 ^ 32 ->
  (forall s', same_st s s' -> ilive s' = ilive s ->
     Q (Z.min sz (data_len r), take (Z.to_nat sz) (contents (idev s) d r)) s') ->
  wp (iso9660_read (Some (entry d r)) true sz) Q s.
Proof.
  intros Hm Hw Hsz Hcap Hcap2 HQ. pose proof (wf_extent r Hw) as He. pose proof (wf_data r Hw) as Hdl.
  unfold iso9660_read. wp_step. wp_step. cbv beta. cbn [file_disk_no entry size sector_no].
  pose proof (mt_disks _ _ _ Hm) as (l & Hl & _). rewrite Hl. rewrite (proj2 (Z.leb_gt _ _)) by lia. cbn [orb negb].
  wp_step. eapply wp_disk_of; [done|]. cbv beta zeta. rewrite (mt_bps _ _ _ Hm).
  set (n := if data_len r <? sz then data_len r else sz).
  assert (Hn : n = Z.min sz (data_len r)) by (unfold n; case_if; lia). clearbody n.
  wp_step. apply wp_malloc; [apply Hm | lia |]. intros s1 H1 Hl1. cbv beta. cbn [negb].
  set (B := blocks (idev s) d (extent r) (file_blocks r)).
  eapply (wp_iter (fun '(out, remaining, cur) s' => same_st s s' /\ ilive s' = ilive s + 1 /\
    exists k, 0 <= k /\ remaining = Z.max 0 (n - 2048 * k) /\ cur = extent r + k /\
    out = take (Z.to_nat (n - remaining)) B)
    (fun '(_, remaining, _) _ => Z.to_nat remaining)).
  2: { split; [done|]. split; [done|]. exists 0. repeat split; try lia. by rewrite Z.sub_diag. }
  2: lia.
  intros [[out remaining] cur] s2 (H2 & Hl2 & k & Hk & Hr & Hcur & Hout). cbv beta iota.
  destruct (Z.ltb_spec 0 remaining) as [Hlt|Hge].
  - assert (Hkf : k + 1 <= file_blocks r) by (apply Z.div_le_lower_bound; lia).
    pose proof (mounted_same _ _ _ _ H2 Hm) as Hm2. pose proof (ss_media _ _ H2) as (Hb2 & Hc2 & _).
    eapply wp_mono; [eapply iso_read_round; [done|rewrite ?Hc2; lia..]|]. cbv beta.
    intros v s3 (-> & H3 & Hl3). cbv iota beta. split; [|lia].
    split; [by eapply same_st_trans|]. split; [lia|]. exists (k + 1). repeat split; try lia.
    rewrite Hout, Hb2, Hcur. replace (n - remaining) with (2048 * k) by lia.
    unfold B. rewrite <- take_blocks by lia. do 2 f_equal. lia.
  - wp_step. apply wp_free; [apply H2|]. intros s3 H3 Hl3. cbv beta. wp_step.
    assert (Hz : remaining = 0) by lia. rewrite Hz, Z.sub_0_r in Hout.
    assert (Hlen : n <= zlen B).
    { unfold B. rewrite length_blocks by (unfold file_blocks; apply Z.div_pos; lia).
      unfold file_blocks. pose proof (Z.div_mod (data_len r + 2047) 2048 ltac:(lia)).
      pose proof (Z.mod_pos_bound (data_len r + 2047) 2048 ltac:(lia)). lia. }
    replace (zlen out) with (Z.min sz (data_len r)) by (rewrite Hout, length_take; lia).
    replace out with (take (Z.to_nat sz) (contents (idev s) d r)).
    + apply HQ; [by do 2 (eapply same_st_trans; [done|]; try done) | lia].
    + unfold contents. rewrite take_take, Hout. fold B. f_equal. lia.
Qed.
End api.

(** ** Listing a directory *)

Section listing.
Context {E : Type} `{D : BlockDev E} `{L : !OpticalLaws E} `{Md : Media E}.
Implicit Types s : ist E.

(** A caller that reads entries into [ent] until there are none. *)
Fixpoint read_all (fuel : nat) (dir : iso9660_dir_t) (ent : iso9660_file_t) :
    M (ist E) (list iso9660_file_t) :=
  match fuel with
  | O => fun _ => OutOfFuel
  | S n =>
      let! '(r, dir) := iso9660_readdir dir ent in
      match r with
      | None => ret []
      | Some f => let! l := read_all n dir ent in ret (f :: l)
      end
  end.

Lemma readdir_spec buf off rest ent s :
  walk buf off rest -> zlen buf < 2 ^ 32 ->
  wp (iso9660_readdir (mk_dir buf (zlen buf) off) ent) (fun v s' => s' = s /\
    match first_hit visible rest with
    | None => v = (None, mk_dir buf (zlen buf) (zlen buf))
    | Some (r, rest') => exists off', v = (Some (entry (file_disk_no ent) r), mk_dir buf (zlen buf) off') /\
        walk buf off' rest'
    end) s.
Proof.
  intros Hw Hlen. pose proof (walk_ge _ _ _ Hw). unfold iso9660_readdir. cbn [dir_buffer dir_size dir_offset]. eapply wp_mono.
  - eapply (walk_loop _ buf visible (None, mk_dir buf (zlen buf) (zlen buf))
      (fun r o => (Some (entry (file_disk_no ent) r), mk_dir buf (zlen buf) o))); [| | |done|lia].
    + cbv beta. by rewrite (proj2 (Z.ltb_ge _ _)) by lia.
    + intros o Ho Hb Hle. pose proof (Z.mod_pos_bound o 2048 ltac:(lia)). unfold bind, obind.
      rewrite (proj2 (Z.ltb_lt _ _)) by lia. unfold rec_length. rewrite (at_byte_eq _ _ 0) by done. simpl.
      unfold ret. by rewrite u32_small by lia.
    + intros o r Hr Ha Hle. assert (Ho : 0 <= o) by (destruct Ha as (? & ? & _ & ->); lia).
      pose proof (wf_ident r Hr). assert (33 < ent_len r) by (unfold ent_len; lia).
      unfold bind, obind. rewrite (proj2 (Z.ltb_lt _ _)), (rec_length_eq _ _ r) by (done || lia).
      rewrite (proj2 (Z.eqb_neq _ 0)), (is_dot_record_eq _ _ r) by (done || lia).
      destruct (visible r) eqn:Hv; cbn [negb]; cbv iota; [|unfold ret; by rewrite u32_small by lia].
      rewrite (parse_filename_ok _ _ r), (rec_extent_eq _ _ r), (rec_data_length_eq _ _ r),
        (rec_flags_eq _ _ r) by done.
      unfold ret, entry. rewrite land_dir, u32_small by lia. done.
  - done.
Qed.

Lemma read_all_spec buf off rest ent fuel s :
  walk buf off rest -> zlen buf < 2 ^ 32 -> (length rest < fuel)%nat ->
  wp (read_all fuel (mk_dir buf (zlen buf) off) ent)
    (fun l s' => l = entry (file_disk_no ent) <$> base.filter (fun r => visible r = true) rest /\ s' = s) s.
Proof.
  revert off rest. induction fuel as [|fuel IH]; intros off rest Hw Hl Hf; [lia|]. cbn [read_all].
  wp_step. eapply wp_mono; [by apply (readdir_spec buf off rest)|]. cbv beta. intros [r dir] s' [-> Hv].
  destruct (first_hit visible rest) as [[x rest']|] eqn:Hh.
  - destruct Hv as (o & [= -> ->] & Hw'). cbv iota. apply first_hit_Some in Hh as (pre & -> & Hpre & Hx).
    rewrite length_app in Hf. simpl in Hf. wp_step.
    eapply wp_mono; [apply (IH o rest'); [done..|lia]|]. cbv beta. intros l s' [-> ->]. wp_step.
    split; [|done]. rewrite filter_app, (filter_none _ pre), filter_cons_True by done. done.
  - simplify_eq. apply wp_ret. split; [|done]. by rewrite filter_none by (by apply first_hit_None).
Qed.

(** The directory that opendir finds for a path: the root for "/" and the
    empty path, otherwise a directory of that name in the root. *)
Inductive opens (e : E) (d : Z) (disk : Disk) : list Z -> Z -> list (list dirent) -> Prop :=
  | opens_root path ss : path = [] \/ path = [47] ->
      dir_on e d (root_directory_sector disk) ss -> root_directory_size disk = zlen ss * 2048 ->
      opens e d disk path (root_directory_sector disk) ss
  | opens_name path rs r ss : path <> [] -> path <> [47] -> Forall char_ok path ->
      dir_on e d (root_directory_sector disk) rs -> root_directory_size disk = zlen rs * 2048 ->
      lookup_name path (mjoin rs) = Some r -> Z.testbit (flags r) 1 = true ->
      dir_on e d (extent r) ss -> data_len r = zlen ss * 2048 ->
      opens e d disk path (extent r) ss.

(** The place of the directory. *)
Lemma opendir_place s d disk path sec ss :
  mounted s d disk -> opens (idev s) d disk path sec ss ->
  finds (if (0 <? zlen path) && negb (str_cmp path [47] =? 0) then
       let! f := iso9660_find_file d (root_directory_sector disk) (root_directory_size disk) path in
       match f with
       | None => ret None
       | Some info => ret (if is_dir info then Some (sector_no info, size info) else None)
       end
     else ret (Some (root_directory_sector disk, root_directory_size disk))) s (Some (sec, zlen ss * 2048)).
Proof.
  intros Hm [p ss' Hp Hd Hsz | p rs r ss' Hp Hp' Hc Hd Hsz Hl Hf Hd' Hsz'].
  - replace ((0 <? zlen p) && _) with false by (by destruct Hp as [-> | ->]). rewrite Hsz.
    apply finds_ret. apply Hm.
  - rewrite (proj2 (Z.ltb_lt 0 (zlen p))) by (destruct p; [done | simpl; lia]).
    rewrite (proj2 (Z.eqb_neq (str_cmp p [47]) 0)).
    2:{ intros He. apply Hp'. by apply str_cmp_eq in He; [|done | repeat constructor]. }
    cbn [andb negb]. rewrite Hsz. unfold finds. wp_step.
    eapply find_file_spec; [done..|]. intros s1 H1 Hl1. rewrite Hl. cbn [fmap option_fmap option_map].
    wp_step. cbn [entry is_dir sector_no size]. rewrite Hf, Hsz'. split; [done|]. by split.
Qed.

(** Opening a directory. *)
Lemma opendir_spec s d disk path sec ss Q :
  mounted s d disk -> opens (idev s) d disk path sec ss ->
  (forall s', same_st s s' -> ilive s' = ilive s + 2 ->
     Q (Some (mk_dir (dir_bytes ss) (zlen (dir_bytes ss)) 0)) s') ->
  wp (iso9660_opendir d path) Q s.
Proof.
  intros Hm Hop HQ. assert (Hd : dir_on (idev s) d sec ss) by (by destruct Hop).
  pose proof (do_wf _ _ _ _ Hd) as Hwf. pose proof (do_some _ _ _ _ Hd) as Hs0.
  pose proof (wf_size _ Hwf) as Hlim. pose proof (length_dir_bytes ss (wf_fit _ Hwf)) as Hlen.
  unfold iso9660_opendir. wp_step. eapply wp_no_disk; [done|]. cbv beta iota. wp_step.
  eapply wp_disk_of; [done|]. cbv beta. wp_step. eapply wp_mono; [by apply opendir_place|].
  cbv beta. intros place s0 (-> & H0 & Hl0). cbv beta iota. wp_step.
  apply wp_malloc; [apply H0 | lia |]. intros s1 H1 Hl1. cbv beta. cbn [negb]. wp_step.
  apply wp_malloc; [apply H1 | lia |]. intros s2 H2 Hl2. cbv beta. cbn [negb]. wp_step.
  pose proof (same_st_trans _ _ _ H0 (same_st_trans _ _ _ H1 H2)) as H12. pose proof (dir_on_same _ _ _ _ _ H12 Hd) as Hd2.
  pose proof (do_sec _ _ _ _ Hd2) as [Hse1 Hse2].
  assert (Hcnt : u32 (zlen ss * 2048 + 2047) / 2048 = zlen ss).
  { rewrite u32_small, Z.add_comm, Z.div_add, Z.div_small by lia. lia. }
  rewrite Hcnt. apply wp_read; [apply H2 | done | done | done | lia |]. intros s4 H4 Hl4. cbv beta. wp_step.
  cbn [default from_option id]. rewrite (do_bytes _ _ _ _ Hd2).
  replace (Z.to_nat (zlen ss * 2048) - length (dir_bytes ss))%nat with 0%nat by lia.
  cbn [replicate]. rewrite app_nil_r, <- Hlen. apply HQ; [by eapply same_st_trans | lia].
Qed.
End listing.

(** ** Sectors that are larger than the buffer *)

(** A read of [n] sectors delivers more than [room] bytes. *)
Definition wide {E} `{BlockDev E} (room d lba n : Z) (e : E) : Prop :=
  exists l e', kebla_disk_read d lba n e = (Some l, e') /\ room < zlen l.

Section wide.
Context {E : Type} `{D : BlockDev E} `{Md : Media E}.

Lemma init_overflows (s : ist E) l d disk e :
  idisks s = Some l -> l !! Z.to_nat d = Some disk -> 0 <= d < idisk_count s ->
  dtype disk = DISK_TYPE_SATAPI -> context disk <> 0 ->
  malloc ISO_BLOCK_SIZE (idev s) = (true, e) -> wide ISO_BLOCK_SIZE d 16 4 e ->
  iso9660_init d s = Undef /\ iso9660_mount d s = Undef.
Proof.
  intros Hl Hd Hn Ht Hx Hm (b & e' & Hr & Hw).
  assert (Hbad : no_disk d s = Ret (false, s)).
  { unfold no_disk, gets. rewrite Hl, orb_false_r. by rewrite (proj2 (Z.leb_gt _ _)) by lia. }
  assert (Hdisk : disk_of d s = Ret (disk, s)) by (unfold disk_of; by rewrite Hl, (proj2 (Z.leb_le 0 d)), Hd by lia).
  assert (Hi : iso9660_init d s = Undef).
  { unfold iso9660_init, bind at 1, obind. rewrite Hbad. unfold bind at 1, obind. rewrite Hdisk.
    rewrite (proj2 (Z.eqb_neq _ 0)), bool_decide_true by done. cbn [orb negb].
    unfold bind at 1, obind, iso_malloc. rewrite Hm. cbn [negb for_range].
    unfold bind, obind, disk_read_into. cbn [idev]. by rewrite Hr, (proj2 (Z.leb_gt _ _)) by done. }
  split; [done|]. unfold iso9660_mount, bind at 1, obind. rewrite Hbad. unfold bind at 1, obind. rewrite Hdisk.
  rewrite bool_decide_true by done. cbn [negb]. unfold bind at 1, obind. by rewrite Hi.
Qed.
End wide.

(** ** Sessions *)

Section sessions.
Context {E : Type} `{D : BlockDev E} `{L : !OpticalLaws E} `{Md : Media E}.
Implicit Types s : ist E.

(** Open a file, read [sz] bytes, close it. *)
Definition read_session (d : Z) (path : list Z) (sz : Z) : M (ist E) (Z * list Z * Z) :=
  let! f := iso9660_open d path in
  let! v := iso9660_read f true sz in
  let! c := iso9660_close f in
  ret (v, c).

(** List a directory. *)
Definition list_session (d : Z) (path : list Z) (fuel : nat) (ent : iso9660_file_t) : M (ist E) (list iso9660_file_t * Z) :=
  let! dir := iso9660_opendir d path in
  match dir with
  | None => ret ([], -1)
  | Some dir =>
      let! l := read_all fuel dir ent in
      let! c := iso9660_closedir (Some dir) in
      ret (l, c)
  end.

(** C11 A path whose components lead through the directories on the disk to a
    file: opening it, reading [sz] bytes and closing it gives the first [sz]
    bytes of the file's blocks (all of them when it is shorter), keeps the
    disk table, and gives back every block taken from the heap. *)
Theorem iso_read_file s d disk path r sz :
  mounted s d disk -> Forall (Forall char_ok) (path_names path) ->
  resolves (idev s) d (root_directory_sector disk) (root_directory_size disk) (path_names path) r ->
  Z.testbit (flags r) 1 = false -> wf_ent r -> 0 < sz < 2 ^ 31 ->
  extent r + file_blocks r <= blocks_of (idev s) d -> blocks_of (idev s) d < 2 ^ 32 ->
  returns (read_session d path sz) s
    ((Z.min sz (data_len r), take (Z.to_nat sz) (contents (idev s) d r)), 0)
    (fun s' => same_st s s' /\ ilive s' = ilive s).
Proof.
  intros Hm Hp Hr Hf Hw Hsz Hcap Hlim. apply wp_returns. unfold read_session. wp_step.
  eapply open_spec; try done. intros s1 H1 Hl1. cbv beta. wp_step.
  pose proof (ss_media _ _ H1) as (_ & Hc & _).
  eapply iso_read_spec; try done; [by eapply mounted_same | by rewrite Hc..|].
  intros s2 H2 Hl2. cbv beta. wp_step. unfold iso9660_close. wp_step. apply wp_free; [apply H2|].
  intros s3 H3 Hl3. cbv beta. wp_steps. unfold contents. rewrite (blocks_same _ _ _ _ _ H1).
  split; [done|]. split; [|lia]. eapply same_st_trans; [done|]. by eapply same_st_trans.
Qed.

(** C12 Listing the root of a disk, or a directory in the root by its name:
    opendir, readdir until it finds nothing and closedir give exactly the
    entries of the directory's records, in the order of the disk, without
    those of the directory itself and of its parent, the names in upper case
    without version; the heap is as before.  (opendir does not follow paths
    deeper than that.) *)
Theorem iso_list_dir s d disk path sec ss fuel ent :
  mounted s d disk -> opens (idev s) d disk path sec ss -> (length (mjoin ss) < fuel)%nat ->
  returns (list_session d path fuel ent) s
    (entry (file_disk_no ent) <$> base.filter (fun r => visible r = true) (mjoin ss), 0)
    (fun s' => same_st s s' /\ ilive s' = ilive s).
Proof.
  intros Hm Hop Hf. assert (Hd : dir_on (idev s) d sec ss) by (by destruct Hop).
  pose proof (do_wf _ _ _ _ Hd) as Hwf. pose proof (wf_size _ Hwf).
  pose proof (length_dir_bytes ss (wf_fit _ Hwf)). apply wp_returns. unfold list_session. wp_step.
  eapply opendir_spec; try done. intros s1 H1 Hl1. cbv beta iota. wp_step.
  eapply wp_mono; [apply read_all_spec; [by apply walk_dir | lia | done]|]. cbv beta. intros l s' [-> ->].
  wp_step. unfold iso9660_closedir. wp_step. apply wp_free; [apply H1|]. intros s2 H2 Hl2. cbv beta.
  wp_step. apply wp_free; [apply H2|]. intros s3 H3 Hl3. cbv beta. wp_steps.
  split; [done|]. split; [|lia]. eapply same_st_trans; [done|]. by eapply same_st_trans.
Qed.

(** Stat tells a path that leads to a record from one that does not. *)
Theorem iso9660_stat_ok s d disk path :
  mounted s d disk -> Forall (Forall char_ok) (path_names path) ->
  (forall r, resolves (idev s) d (root_directory_sector disk) (root_directory_size disk) (path_names path) r ->
     finds (iso9660_stat d path) s (0, Some (entry d r))) /\
  (missing (idev s) d (root_directory_sector disk) (root_directory_size disk) (path_names path) ->
     finds (iso9660_stat d path) s (-1, None)).
Proof.
  intros Hm Hp. split.
  - intros r Hr. apply (stat_spec s d disk path (Some (entry d r))); try done; [by eapply resolves_names|].
    intros s' Hs. eapply stat_tokens_resolves; try done; [by eapply mounted_same | by eapply resolves_same].
  - intros Hr. apply (stat_spec s d disk path None); try done; [by eapply missing_names|].
    intros s' Hs. eapply stat_tokens_missing; try done; [by eapply mounted_same | by eapply missing_same].
Qed.

(** Every mount of a working disk overflows the buffer of one block with the
    four blocks that init reads. *)
Theorem iso9660_init_overflows s d disk :
  mounted s d disk -> context disk <> 0 -> 20 <= blocks_of (idev s) d ->
  iso9660_init d s = Undef /\ iso9660_mount d s = Undef.
Proof.
  intros [(l & Hl & Hd) Hn Ht _ Hw] Hx Hcap.
  destruct (omalloc_ok (idev s) ISO_BLOCK_SIZE Hw ltac:(done)) as (e & He & (_ & Hc & Hw')).
  apply (init_overflows s l d disk e); try done.
  destruct (oread_ok e d 16 4 Hw' ltac:(lia) ltac:(lia) ltac:(rewrite Hc; lia)) as (e' & He' & _).
  eexists _, e'. split; [exact He'|]. change (mjoin _) with (blocks e d 16 4). by rewrite length_blocks by lia.
Qed.
End sessions.

(** ** A small disk *)
Module SmallIso.

(** Blocks that are not listed are zero. *)
Record cd := mk_cd { cd_blocks : list (Z * list Z); cd_size : Z }.
Definition cd_block (e : cd) (l : Z) : list Z :=
  resize 2048 0 (default [] (snd <$> List.find (fun p => fst p =? l) (cd_blocks e))).

#[global] Instance cd_dev : BlockDev cd := {
  kebla_disk_read d lba n e :=
    if (0 <? n) && (0 <=? lba) && (lba + n <=? cd_size e)
    then (Some (mjoin (cd_block e <$> seqZ lba n)), e) else (None, e);
  kebla_disk_write d lba n buf e := (false, e);
  malloc n e := (0 <? n, e);
  free e := e
}.
#[global] Instance cd_media : Media cd := {
  satapi_load p e := (true, e); satapi_eject p e := (true, e); port_ssts p e := (3, e)
}.
#[global] Program Instance cd_laws : OpticalLaws cd := {
  block e d l := cd_block e l; blocks_of e d := cd_size e; working e := True
}.
Next Obligation. intros. apply length_resize. Qed.
Next Obligation.
  simpl. intros e d lba n _ ???. exists e. split; [|by repeat split].
  rewrite (proj2 (Z.ltb_lt _ _)), (proj2 (Z.leb_le 0 lba)), (proj2 (Z.leb_le _ (cd_size e))) by lia. done.
Qed.
Next Obligation. simpl. intros e n _ ?. exists e. split; [by rewrite (proj2 (Z.ltb_lt _ _)) by lia | by repeat split]. Qed.
Next Obligation. by repeat split. Qed.

#[global] Program Instance cd_frame : DiskFrame cd := {
  sector e d l := cd_block e l; capacity e d := cd_size e; reliable e := True
}.
Next Obligation. simpl. intros. case_match; simplify_eq; by repeat split. Qed.
Next Obligation. simpl. intros. simplify_eq. by repeat split. Qed.
Next Obligation. simpl. intros. simplify_eq. by repeat split. Qed.
Next Obligation. by repeat split. Qed.

Definition rec (id : list Z) (sec len fl : Z) : dirent :=
  mk_dirent 0 sec [0; 0; 0; 0] len [0; 0; 0; 0; 0; 0; 0; 0; 0; 0; 0] fl [0; 0; 0; 0; 0; 0] id [].
(** "/" has SUB, "/SUB" has A.TXT;1 with the text "hello". *)
Definition sub : dirent := rec [83; 85; 66] 31 2048 2.
Definition a_txt : dirent := rec [65; 46; 84; 88; 84; 59; 49] 32 5 0.
Definition root_dir : list (list dirent) := [[rec [0] 30 2048 2; rec [1] 30 2048 2; sub]].
Definition sub_dir : list (list dirent) := [[rec [0] 31 2048 2; rec [1] 30 2048 2; a_txt]].
Definition cd0 : cd := mk_cd [(30, dir_bytes root_dir); (31, dir_bytes sub_dir); (32, [104; 101; 108; 108; 111])] 40.
Definition disk0 : Disk := mk_disk true DISK_TYPE_SATAPI 2048 40 30 2048 16 1.
Definition s0 : ist cd := mk_ist cd0 (Some [disk0]) 1 0.
(** "/SUB/A.TXT" *)
Definition path0 : list Z := [47; 83; 85; 66; 47; 65; 46; 84; 88; 84].

Lemma mounted0 : mounted s0 0 disk0.
Proof. split; try done. by exists [disk0]. Qed.

Ltac small_wf := repeat first [constructor | split]; vm_compute; intuition discriminate.

Lemma root_on : dir_on cd0 0 30 root_dir.
Proof. split; [small_wf | done | split; done | vm_compute; reflexivity]. Qed.
Lemma sub_on : dir_on cd0 0 31 sub_dir.
Proof. split; [small_wf | done | split; done | vm_compute; reflexivity]. Qed.

Lemma path0_ok : Forall (Forall char_ok) (path_names path0).
Proof. vm_compute. repeat constructor; done. Qed.
Lemma path0_resolves : resolves (idev s0) 0 30 2048 (path_names path0) a_txt.
Proof.
  change (path_names path0) with [[83; 85; 66]; [65; 46; 84; 88; 84]].
  apply (res_dir cd0 0 30 root_dir _ sub); [apply root_on | vm_compute; reflexivity | done |].
  apply (res_last cd0 0 31 sub_dir); [apply sub_on | vm_compute; reflexivity].
Qed.

Lemma iso_read_file_witness :
  returns (read_session 0 path0 4) s0 ((4, [104; 101; 108; 108]), 0)
    (fun s' => same_st s0 s' /\ ilive s' = ilive s0).
Proof.
  assert (Heq : (4, [104; 101; 108; 108]) =
    (Z.min 4 (data_len a_txt), take (Z.to_nat 4) (contents (idev s0) 0 a_txt))) by (vm_compute; reflexivity).
  rewrite Heq. apply (iso_read_file s0 0 disk0 path0 a_txt 4);
    [apply mounted0 | apply path0_ok | apply path0_resolves | done | small_wf | done | done | done].
Defined.

Lemma iso_list_dir_witness :
  returns (list_session 0 [47] 9 (mk_file [] 0 0 7 false)) s0 ([mk_file [83; 85; 66] 31 2048 7 true], 0)
    (fun s' => same_st s0 s' /\ ilive s' = ilive s0) /\
  returns (list_session 0 [83; 85; 66] 9 (mk_file [] 0 0 7 false)) s0 ([mk_file [65; 46; 84; 88; 84] 32 5 7 false], 0)
    (fun s' => same_st s0 s' /\ ilive s' = ilive s0).
Proof.
  split.
  - assert (Heq : [mk_file [83; 85; 66] 31 2048 7 true] =
      entry 7 <$> base.filter (fun r => visible r = true) (mjoin root_dir)) by (vm_compute; reflexivity).
    rewrite Heq. apply (iso_list_dir s0 0 disk0 [47] 30 root_dir 9); [apply mounted0 | | simpl; lia].
    apply (opens_root cd0 0 disk0); [by right | apply root_on | done].
  - assert (Heq : [mk_file [65; 46; 84; 88; 84] 32 5 7 false] =
      entry 7 <$> base.filter (fun r => visible r = true) (mjoin sub_dir)) by (vm_compute; reflexivity).
    rewrite Heq. apply (iso_list_dir s0 0 disk0 [83; 85; 66] 31 sub_dir 9); [apply mounted0 | | simpl; lia].
    apply (opens_name cd0 0 disk0 [83; 85; 66] root_dir sub);
      [done | done | repeat constructor; done | apply root_on | done | vm_compute; reflexivity | done | apply sub_on | done].
Defined.
End SmallIso.
