(* ===== verification/Descriptors.v ===== *)
(** Segment and interrupt descriptors: arch/gdt/gdt.c, tss.c and
    multi_core_gdt_tss.c, and the gates of arch/interrupt/pic/pic_interrupt.c
    and apic/apic_interrupt.c (under kernel/src).

    The tables are the bytes the processor reads; a descriptor is written
    field by field at its offset, so that the two members of the union
    [gdt_entry] overlay each other.  [hw] holds the registers the assembly
    routines load: gdt_flush and tss_flush end with sti, and loading the task
    register marks the segment busy in the table and demands an available
    64-bit TSS.  Addresses of the tables and of the entry stubs are given by
    the linker and are parameters.  Messages are left out. *)
From S2P Require Import Prelude Pmm.

Definition GDT_ENTRIES : Z := 7.
Definition TOTAL_INT_ENTRIES : Z := 256.
Definition TSS_STACK_SIZE : Z := 0x1000.
Definition STACK_SIZE : Z := 16384.
Definition MAX_CPUS : Z := 256.
Definition sizeof_tss : Z := 104.

(** ** Fields *)

(** Descriptor [i] of a table, and the members of the first structure. *)
Definition set_limit_low (i v : Z) (t : list Z) : list Z := store 2 (8 * i) v t.
Definition set_base_low (i v : Z) (t : list Z) : list Z := store 2 (8 * i + 2) v t.
Definition set_base_middle (i v : Z) (t : list Z) : list Z := store 1 (8 * i + 4) v t.
Definition set_access (i v : Z) (t : list Z) : list Z := store 1 (8 * i + 5) v t.
Definition set_granularity (i v : Z) (t : list Z) : list Z := store 1 (8 * i + 6) v t.
Definition set_base_high (i v : Z) (t : list Z) : list Z := store 1 (8 * i + 7) v t.
Definition granularity (i : Z) (t : list Z) : Z := load 1 (8 * i + 6) t.
(** Those of the second. *)
Definition set_base_upper (i v : Z) (t : list Z) : list Z := store 4 (8 * i) v t.
Definition set_reserved (i v : Z) (t : list Z) : list Z := store 4 (8 * i + 4) v t.

Definition gdt_set_entry (i base limit access gran : Z) (gdt : list Z) : list Z :=
  let gdt := set_limit_low i (Z.land limit 0xFFFF) gdt in
  let gdt := set_granularity i (Z.land (Z.shiftr limit 16) 0x0F) gdt in
  let gdt := set_base_low i (Z.land base 0xFFFF) gdt in
  let gdt := set_base_middle i (Z.land (Z.shiftr base 16) 0xFF) gdt in
  let gdt := set_base_high i (Z.land (Z.shiftr base 24) 0xFF) gdt in
  let gdt := set_access i access gdt in
  set_granularity i (Z.lor (granularity i gdt) (Z.land gran 0xF0)) gdt.

Definition tss_set_entry (i base limit access gran : Z) (gdt : list Z) : list Z :=
  let gdt := gdt_set_entry i base limit access gran gdt in
  let gdt := set_base_upper (i + 1) (Z.land (Z.shiftr base 32) 0xFFFFFFFF) gdt in
  set_reserved (i + 1) 0 gdt.

(** The routines of multi_core_gdt_tss.c, on a table of a core. *)
Definition gdt_setup (idx base limit access gran : Z) (t : list Z) : list Z :=
  let t := set_limit_low idx (Z.land limit 0xFFFF) t in
  let t := set_base_low idx (Z.land base 0xFFFF) t in
  let t := set_base_middle idx (Z.land (Z.shiftr base 16) 0xFF) t in
  let t := set_access idx access t in
  let t := set_granularity idx (Z.lor (Z.land (Z.shiftr limit 16) 0x0F) (Z.land gran 0xF0)) t in
  set_base_high idx (Z.land (Z.shiftr base 24) 0xFF) t.

Definition tss_setup (idx base limit access gran : Z) (t : list Z) : list Z :=
  let t := gdt_setup idx base limit access gran t in
  let t := set_base_upper (idx + 1) (Z.land (Z.shiftr base 32) 0xFFFFFFFF) t in
  set_reserved (idx + 1) 0 t.

(** The values print_gdt_entry shows: base, limit, access and flags. *)
Definition print_gdt_entry (selector : Z) (gdt : list Z) : Z * Z * Z * Z :=
  let o := 8 * Z.shiftr selector 3 in
  let base := u32 (Z.lor (Z.lor (Z.shiftl (load 1 (o + 7) gdt) 24) (Z.shiftl (load 1 (o + 4) gdt) 16))
                    (load 2 (o + 2) gdt)) in
  let gran := load 1 (o + 6) gdt in
  let limit := Z.lor (Z.shiftl (Z.land gran 0xF) 16) (load 2 o gdt) in
  (base, limit, load 1 (o + 5) gdt, Z.shiftr (Z.land gran 0xF0) 4).

Definition gdt_init (gdt : list Z) : list Z :=
  let gdt := gdt_set_entry 0 0 0 0 0 gdt in
  let gdt := gdt_set_entry 1 0 0xFFFF 0x9A 0xA0 gdt in
  let gdt := gdt_set_entry 2 0 0xFFFF 0x92 0xA0 gdt in
  let gdt := gdt_set_entry 3 0 0xFFFF 0xFA 0xA0 gdt in
  gdt_set_entry 4 0 0xFFFF 0xF2 0xA0 gdt.

(** The task state segment: rsp0 at byte 4, iopb_offset at byte 102. *)
Definition tss_image (rsp0 : Z) : list Z :=
  store 2 102 sizeof_tss (store 8 4 rsp0 (replicate (Z.to_nat sizeof_tss) 0)).

(** ** Gates *)

(** A gate of 16 bytes: pic_int_set_gate, apic_int_set_gate and
    ap_int_set_gate have the same body. *)
Definition int_set_gate (index offset selector attr : Z) (t : list Z) : list Z :=
  let o := 16 * index in
  let t := store 2 o (Z.land offset 0xFFFF) t in
  let t := store 2 (o + 6) (Z.land (u16 (Z.shiftr offset 16)) 0xFFFF) t in
  let t := store 4 (o + 8) (Z.land (u32 (Z.shiftr offset 32)) 0xFFFFFFFF) t in
  let t := store 2 (o + 2) selector t in
  let t := store 1 (o + 5) attr t in
  let t := store 1 (o + 4) 0 t in
  store 4 (o + 12) 0 t.
Definition pic_int_set_gate := int_set_gate.
Definition apic_int_set_gate := int_set_gate.
Definition ap_int_set_gate := int_set_gate.

Definition set_gates (l : list (Z * Z * Z)) (t : list Z) : list Z :=
  fold_left (fun t '(index, offset, attr) => int_set_gate index offset 0x8 attr t) l t.

Section gates.
Context (isr irq : Z -> Z).

Definition isr_gates : list (Z * Z * Z) := (fun k => (k, isr k, 0x8E)) <$> seqZ 0 32.
Definition irq_gates (l : list Z) (attr : Z) : list (Z * Z * Z) :=
  (fun n => (32 + n, irq n, attr)) <$> l.

Definition set_pic_int_descriptor_table (t : list Z) : list Z :=
  set_gates (isr_gates ++ irq_gates [0; 1; 3; 4; 5; 6; 7; 8; 9; 10; 11; 12; 13; 14; 15] 0x8E) t.

Definition set_bsp_apic_int_descriptor_table (t : list Z) : list Z :=
  set_gates (isr_gates ++ irq_gates (seqZ 0 19) 0x8E ++ irq_gates [19; 96] 0xEE) t.

Definition set_ap_descriptor_table (t : list Z) : list Z :=
  set_gates (isr_gates ++ irq_gates [16] 0x8E ++ irq_gates [18; 19; 96] 0xEE) t.
End gates.

(** ** The state *)

(** The registers: GDTR and IDTR with limit and base, the task register, the
    code segment and the interrupt flag. *)
Record hw := mk_hw {
  r_gdtr : option (Z * Z); r_idtr : option (Z * Z); r_tr : option Z; r_cs : option Z; r_if : bool
}.

Record cpu_data_t := mk_cpu_data {
  kernel_stack : Z; user_stack : Z; lapic_id : Z; gdt_entries : list Z; cd_gdtr : Z * Z;
  cd_tss : list Z; tss_stack : Z; is_online : Z
}.

Record cst := mk_cst {
  c_mm : mm; gdt : list Z; gdtr : Z * Z; tss : list Z;
  int_entries : list Z; int_ptr : Z * Z;
  core_int_entries : list (list Z); core_int_ptr : list (Z * Z);
  cpu_datas : list cpu_data_t; c_hw : hw
}.

Definition set_c_mm v s := mk_cst v (gdt s) (gdtr s) (tss s) (int_entries s) (int_ptr s)
  (core_int_entries s) (core_int_ptr s) (cpu_datas s) (c_hw s).
Definition set_gdt v s := mk_cst (c_mm s) v (gdtr s) (tss s) (int_entries s) (int_ptr s)
  (core_int_entries s) (core_int_ptr s) (cpu_datas s) (c_hw s).
Definition set_gdtr v s := mk_cst (c_mm s) (gdt s) v (tss s) (int_entries s) (int_ptr s)
  (core_int_entries s) (core_int_ptr s) (cpu_datas s) (c_hw s).
Definition set_tss v s := mk_cst (c_mm s) (gdt s) (gdtr s) v (int_entries s) (int_ptr s)
  (core_int_entries s) (core_int_ptr s) (cpu_datas s) (c_hw s).
Definition set_ints v p s := mk_cst (c_mm s) (gdt s) (gdtr s) (tss s) v p
  (core_int_entries s) (core_int_ptr s) (cpu_datas s) (c_hw s).
Definition set_core v p s := mk_cst (c_mm s) (gdt s) (gdtr s) (tss s) (int_entries s) (int_ptr s)
  v p (cpu_datas s) (c_hw s).
Definition set_hw v s := mk_cst (c_mm s) (gdt s) (gdtr s) (tss s) (int_entries s) (int_ptr s)
  (core_int_entries s) (core_int_ptr s) (cpu_datas s) v.

Definition on_mm {A} (m : M mm A) : M cst A := fun s =>
  obind (m (c_mm s)) (fun '(a, x) => Ret (a, set_c_mm x s)).

Definition cli : M cst unit := modify (fun s => set_hw
  (mk_hw (r_gdtr (c_hw s)) (r_idtr (c_hw s)) (r_tr (c_hw s)) (r_cs (c_hw s)) false) s).
Definition sti : M cst unit := modify (fun s => set_hw
  (mk_hw (r_gdtr (c_hw s)) (r_idtr (c_hw s)) (r_tr (c_hw s)) (r_cs (c_hw s)) true) s).

(** lgdt, the far return to selector 8, sti. *)
Definition gdt_flush (r : Z * Z) : M cst unit :=
  modify (fun s => set_hw (mk_hw (Some r) (r_idtr (c_hw s)) (r_tr (c_hw s)) (Some 8) true) s).

(** ltr on the table at GDTR, then sti: the segment becomes busy. *)
Definition ltr_table (selector : Z) (t : list Z) : option (list Z) :=
  let o := 8 * Z.shiftr selector 3 in
  if (o + 16 <=? zlen t) && (load 1 (o + 5) t =? 0x89) then Some (store 1 (o + 5) 0x8B t) else None.
Definition set_tr (selector : Z) : M cst unit :=
  modify (fun s => set_hw (mk_hw (r_gdtr (c_hw s)) (r_idtr (c_hw s)) (Some selector) (r_cs (c_hw s)) true) s).
Definition tss_flush (selector : Z) : M cst unit :=
  let! t := gets gdt in
  match ltr_table selector t with
  | Some t => modify (set_gdt t) ;;; set_tr selector
  | None => undef
  end.

Definition idt_flush (r : Z * Z) : M cst unit :=
  modify (fun s => set_hw (mk_hw (r_gdtr (c_hw s)) (Some r) (r_tr (c_hw s)) (r_cs (c_hw s)) (r_if (c_hw s))) s).

Section tables.
(** &gdt, &tss, &int_entries, &core_int_entries[core], the local copies of
    init_gdt_tss_in_cpu; the stubs. *)
Context (at_gdt at_tss at_ints : Z) (at_core : Z -> Z) (at_temp_gdt at_temp_tss : Z) (isr irq : Z -> Z).

Definition tss_init : M cst unit :=
  let! stack := on_mm (kmalloc_a TSS_STACK_SIZE 1) in
  if stack =? 0 then ret tt else
  modify (set_tss (tss_image (u64 (stack + TSS_STACK_SIZE)))) ;;;
  modify (fun s => set_gdt (tss_set_entry 5 at_tss sizeof_tss 0x89 0 (gdt s)) s).

Definition gdt_tss_init : M cst unit :=
  modify (fun s => set_gdt (gdt_init (gdt s)) s) ;;;
  tss_init ;;;
  modify (set_gdtr (8 * GDT_ENTRIES - 1, at_gdt)) ;;;
  let! r := gets gdtr in gdt_flush r ;;;
  tss_flush 0x28.

(** The stack goes to a copy of the structure of the core and is lost. *)
Definition set_tss_stack (cpu_id : Z) : M cst unit :=
  let! l := gets cpu_datas in
  match l !! Z.to_nat cpu_id with
  | None => undef
  | Some temp =>
      let! p := on_mm (kmalloc_a STACK_SIZE 1) in
      ret tt
  end.

(** Everything is written to a copy, which is loaded and then goes out of
    scope. *)
Definition init_gdt_tss_in_cpu (cpu_id : Z) : M cst unit :=
  if MAX_CPUS <=? cpu_id then ret tt else
  set_tss_stack cpu_id ;;;
  let! l := gets cpu_datas in
  match l !! Z.to_nat cpu_id with
  | None => undef
  | Some temp =>
      let t := gdt_setup 0 0 0 0 0 (gdt_entries temp) in
      let t := gdt_setup 1 0 0xFFFF 0x9A 0xA0 t in
      let t := gdt_setup 2 0 0xFFFF 0x92 0xA0 t in
      let t := gdt_setup 3 0 0xFFFF 0xFA 0xA0 t in
      let t := gdt_setup 4 0 0xFFFF 0xF2 0xA0 t in
      let t := tss_setup 5 at_temp_tss sizeof_tss 0x89 0 t in
      gdt_flush (8 * 7 - 1, at_temp_gdt) ;;;
      match ltr_table 0x28 t with
      | Some _ => set_tr 0x28
      | None => undef
      end
  end.

(** memset of the table, the gates, the pointer. *)
Definition load_ints (set : list Z -> list Z) : M cst unit :=
  modify (set_ints (set (replicate (Z.to_nat (16 * TOTAL_INT_ENTRIES)) 0))
            (u16 (16 * TOTAL_INT_ENTRIES - 1), at_ints)) ;;;
  let! r := gets int_ptr in idt_flush r.

Definition ap_apic_int_init (core_id : Z) : M cst unit :=
  cli ;;;
  guard ((0 <=? core_id) && (core_id <? MAX_CPUS)) ;;;
  let t := set_ap_descriptor_table isr irq (replicate (Z.to_nat (16 * 256)) 0) in
  modify (fun s => set_core (<[Z.to_nat core_id := t]> (core_int_entries s))
                     (<[Z.to_nat core_id := (u16 (16 * 256 - 1), at_core core_id)]> (core_int_ptr s)) s) ;;;
  idt_flush (u16 (16 * 256 - 1), at_core core_id) ;;;
  sti.
End tables.
