(* ===== verification/Intc.v ===== *)
(** Interrupt controllers: arch/interrupt/pic/pic.c, apic/ioapic.c,
    apic/apic.c and the start-up of both in pic_interrupt.c and
    apic_interrupt.c (under kernel/src).

    [Mmio] has the accesses of 32-bit device registers and of the model
    specific registers; ports are those of [Ports].  Addresses of registers
    are computed in 32 bits.  The globals LAPIC_BASE and ioapic_addr are part
    of the state.  Messages are left out. *)
From S2P Require Import Prelude Ports Irq Pmm Descriptors.

Class Mmio (E : Type) := {
  mmio_read : Z -> M E Z;
  mmio_write : Z -> Z -> M E unit;
  rdmsr : Z -> M E Z;
  wrmsr : Z -> Z -> M E unit
}.

Definition PIC1_COMMAND_PORT : Z := 0x20.
Definition PIC1_DATA_PORT : Z := 0x21.
Definition PIC2_COMMAND_PORT : Z := 0xA0.
Definition PIC2_DATA_PORT : Z := 0xA1.
Definition ICW_1 : Z := 0x11.
Definition ICW_2_M : Z := 0x20.
Definition ICW_2_S : Z := 0x28.
Definition ICW_3_M : Z := 0x04.
Definition ICW_3_S : Z := 0x02.
Definition ICW_4 : Z := 0x01.

Section pic.
Context {E : Type} `{Ports E}.

Definition io_wait : M E unit := outb 0x80 0.

Definition pic_irq_remap : M E unit :=
  outb PIC1_COMMAND_PORT 0x11 ;;; outb PIC2_COMMAND_PORT 0x11 ;;;
  outb PIC1_DATA_PORT 0x20 ;;; outb PIC2_DATA_PORT 0x28 ;;;
  outb PIC1_DATA_PORT 0x04 ;;; outb PIC2_DATA_PORT 0x02 ;;;
  outb PIC1_DATA_PORT 0x01 ;;; outb PIC2_DATA_PORT 0x01 ;;;
  outb PIC1_DATA_PORT 0x0 ;;; outb PIC2_DATA_PORT 0x0.

Definition disable_pic : M E unit :=
  outb PIC1_COMMAND_PORT ICW_1 ;;; io_wait ;;; outb PIC2_COMMAND_PORT ICW_1 ;;; io_wait ;;;
  outb PIC1_DATA_PORT ICW_2_M ;;; io_wait ;;; outb PIC2_DATA_PORT ICW_2_S ;;; io_wait ;;;
  outb PIC1_DATA_PORT ICW_3_M ;;; io_wait ;;; outb PIC2_DATA_PORT ICW_3_S ;;; io_wait ;;;
  outb PIC1_DATA_PORT ICW_4 ;;; io_wait ;;; outb PIC2_DATA_PORT ICW_4 ;;; io_wait ;;;
  outb PIC1_DATA_PORT 0xFF ;;; io_wait ;;; outb PIC2_DATA_PORT 0xFF ;;; io_wait.

Definition enable_pic : M E unit :=
  outb PIC1_DATA_PORT 0x00 ;;; io_wait ;;; outb PIC2_DATA_PORT 0x00 ;;; io_wait.

Definition send_eoi (irq : Z) : M E unit :=
  (if 40 <=? irq then outb PIC2_COMMAND_PORT PIC_EOI else ret tt) ;;;
  outb PIC1_COMMAND_PORT PIC_EOI.
End pic.

Definition IOAPIC_REGSEL : Z := 0x00.
Definition IOAPIC_WINDOW : Z := 0x10.
Definition IOAPICID : Z := 0x00.
Definition IOAPICVER : Z := 0x01.
Definition IOAPICREDTBL : Z := 0x10.

Definition LAPIC_ID_REGISTER : Z := 0x20.
Definition LAPIC_VERSION_REGISTER : Z := 0x30.
Definition LAPIC_EOI_REGISTER : Z := 0xB0.
Definition LAPIC_SVR_REGISTER : Z := 0xF0.
Definition LAPIC_ICRLO_REGISTER : Z := 0x300.
Definition LAPIC_ICRHI_REGISTER : Z := 0x310.
Definition IA32_APIC_BASE_MSR : Z := 0x1B.
Definition IA32_APIC_BASE_MSR_ENABLE : Z := 0x800.

(** The devices with the globals of the two files, beside the tables. *)
Record ics (E : Type) := mk_ics { i_env : E; LAPIC_BASE : Z; ioapic_addr : Z; i_cpu : cst }.
Arguments mk_ics {E}.
Arguments i_env {E}.
Arguments LAPIC_BASE {E}.
Arguments ioapic_addr {E}.
Arguments i_cpu {E}.

Section apic.
Context {E : Type} `{Ports E} `{Mmio E}.
Abbreviation st := (ics E).

Definition on_dev {A} (m : M E A) : M st A := fun s =>
  obind (m (i_env s)) (fun '(a, e) => Ret (a, mk_ics e (LAPIC_BASE s) (ioapic_addr s) (i_cpu s))).
Definition on_cpu {A} (m : M cst A) : M st A := fun s =>
  obind (m (i_cpu s)) (fun '(a, c) => Ret (a, mk_ics (i_env s) (LAPIC_BASE s) (ioapic_addr s) c)).

Definition ioapic_write_reg (reg value : Z) : M st unit :=
  let! a := gets ioapic_addr in
  on_dev (mmio_write (u32 (a + IOAPIC_REGSEL)) reg) ;;;
  on_dev (mmio_write (u32 (a + IOAPIC_WINDOW)) value).

Definition ioapic_read_reg (reg : Z) : M st Z :=
  let! a := gets ioapic_addr in
  on_dev (mmio_write (u32 (a + IOAPIC_REGSEL)) reg) ;;;
  on_dev (mmio_read (u32 (a + IOAPIC_WINDOW))).

Definition enable_ioapic_mode : M st unit := on_dev (outb 0x22 0x70) ;;; on_dev (outb 0x23 0x01).

Definition ioapic_route_irq (irq_no apic_id vector_no flags : Z) : M st unit :=
  let reg_low := u32 (IOAPICREDTBL + irq_no * 2) in
  let reg_high := u32 (reg_low + 1) in
  let! high := ioapic_read_reg reg_high in
  let high := Z.land high 0x00FFFFFF in
  let high := Z.lor high (u32 (Z.shiftl apic_id 24)) in
  ioapic_write_reg reg_high high ;;;
  ioapic_write_reg reg_low (Z.lor vector_no flags).

(** The lines routed, each to its vector. *)
Definition routed_irqs : list Z :=
  [0; 1; 3; 4; 5; 6; 7; 8; 9; 10; 11; 12; 13; 14; 15; 16; 17; 18; 19; 96].
Fixpoint route_lines (lapic_id flags : Z) (l : list Z) : M st unit :=
  match l with
  | [] => ret tt
  | n :: l => ioapic_route_irq n lapic_id (32 + n) flags ;;; route_lines lapic_id flags l
  end.
Definition ioapic_route_all_irq (lapic_id flags : Z) : M st unit := route_lines lapic_id flags routed_irqs.

(** The identification and the version, for a message. *)
Definition ioapic_init : M st (Z * Z) :=
  let! i := ioapic_read_reg IOAPICID in
  let! v := ioapic_read_reg IOAPICVER in
  ret (Z.shiftr i 24, Z.land v 0xFF).

Definition apic_write (reg value : Z) : M st unit :=
  let! b := gets LAPIC_BASE in on_dev (mmio_write (u32 (b + reg)) value).
Definition apic_read (reg : Z) : M st Z :=
  let! b := gets LAPIC_BASE in on_dev (mmio_read (u32 (b + reg))).

Definition apic_send_eoi : M st unit :=
  let! b := gets LAPIC_BASE in
  if b =? 0 then ret tt else on_dev (mmio_write (u32 (b + LAPIC_EOI_REGISTER)) 0).

Definition get_lapic_base : M st Z :=
  let! m := on_dev (rdmsr IA32_APIC_BASE_MSR) in ret (Z.land m 0xFFFFF000).
Definition get_lapic_id : M st Z :=
  let! v := apic_read LAPIC_ID_REGISTER in ret (Z.land (Z.shiftr v 24) 0xFF).
Definition get_lapic_version : M st Z :=
  let! v := apic_read LAPIC_VERSION_REGISTER in ret (Z.land v 0xFF).

Definition lapic_send_ipi (fuel : nat) (cpu_id vector : Z) : M st unit :=
  apic_write LAPIC_ICRHI_REGISTER (u32 (Z.shiftl cpu_id 24)) ;;;
  apic_write LAPIC_ICRLO_REGISTER (Z.lor (Z.land vector 0xFF) 0x4000) ;;;
  iter_fuel fuel (fun _ =>
    let! v := apic_read LAPIC_ICRLO_REGISTER in
    ret (if Z.land v (Z.shiftl 1 12) =? 0 then inr tt else inl tt)) tt.

Definition is_apic_enabled : M st bool :=
  let! m := on_dev (rdmsr IA32_APIC_BASE_MSR) in
  ret (negb (Z.land m IA32_APIC_BASE_MSR_ENABLE =? 0)).

Definition set_lapic_base (b : Z) : M st unit :=
  modify (fun s => mk_ics (i_env s) (u32 b) (ioapic_addr s) (i_cpu s)).

Definition enable_apic : M st unit :=
  let! m := on_dev (rdmsr IA32_APIC_BASE_MSR) in
  set_lapic_base (Z.land m 0xFFFFF000) ;;;
  let! _ := get_lapic_id in
  let! on := is_apic_enabled in
  if on then ret tt else
  let! b := gets LAPIC_BASE in
  on_dev (wrmsr IA32_APIC_BASE_MSR (Z.lor b IA32_APIC_BASE_MSR_ENABLE)).

Definition disable_apic : M st unit :=
  let! m := on_dev (rdmsr IA32_APIC_BASE_MSR) in
  on_dev (wrmsr IA32_APIC_BASE_MSR (Z.land m (u64 (Z.lnot IA32_APIC_BASE_MSR_ENABLE)))).

Definition init_apic : M st unit :=
  on_cpu cli ;;;
  let! b := get_lapic_base in
  set_lapic_base b ;;;
  enable_apic ;;;
  let! v := apic_read LAPIC_SVR_REGISTER in
  apic_write LAPIC_SVR_REGISTER (Z.lor (Z.lor (Z.land v 0xFFFFFF00) 0x100) 0xFF) ;;;
  apic_send_eoi ;;;
  on_cpu sti.

Section boot.
Context (at_ints : Z) (isr irq : Z -> Z).

Definition pic_int_init : M st unit :=
  on_cpu cli ;;;
  on_cpu (load_ints at_ints (set_pic_int_descriptor_table isr irq)) ;;;
  on_dev enable_pic ;;;
  on_dev pic_irq_remap ;;;
  on_cpu sti.

(** [bsp_lapic_id] is the loader's answer. *)
Definition bsp_apic_irq_remap (bsp_lapic_id : Z) : M st unit :=
  ioapic_route_all_irq (u8 bsp_lapic_id) 0.

Definition bsp_apic_int_init (bsp_lapic_id : Z) : M st unit :=
  on_cpu cli ;;;
  on_cpu (load_ints at_ints (set_bsp_apic_int_descriptor_table isr irq)) ;;;
  enable_apic ;;;
  enable_ioapic_mode ;;;
  ioapic_init ;;;
  bsp_apic_irq_remap bsp_lapic_id ;;;
  on_cpu sti.
End boot.
End apic.

Definition IPI_IRQ : Z := 18.
Definition init_ipi {S Hd} (ipi_handler : Hd) : M (irq_state S Hd) unit := irq_install IPI_IRQ ipi_handler.
