(* ===== verification/IntProps.v ===== *)
(** Descriptors read back as the processor reads them, and interrupts get
    from their line to their handler: through the redirection table of the
    I/O APIC (or the two PICs), the gate in the interrupt descriptor table and
    the code segment the gate names. *)
From S2P Require Import Prelude Ports Irq Pmm Descriptors Intc.

(** ** Runs of stores *)

Definition poke (w : nat * Z * Z) (t : list Z) : list Z := let '(n, o, v) := w in store n o v t.
Definition stores (l : list (nat * Z * Z)) (t : list Z) : list Z := fold_left (fun t w => poke w t) l t.

Definition fits (len : Z) (w : nat * Z * Z) : Prop :=
  let '(n, o, _) := w in 0 <= o /\ o + Z.of_nat n <= len.
Definition misses (n : nat) (off : Z) (w : nat * Z * Z) : Prop :=
  let '(m, o, _) := w in off + Z.of_nat n <= o \/ o + Z.of_nat m <= off.

Lemma length_stores l t : Forall (fits (zlen t)) l -> length (stores l t) = length t.
Proof.
  revert t. induction l as [|[[n o] v] l IH]; intros t Hl; [done|].
  apply Forall_cons in Hl as [[Ho Hn] Hl]. cbn [stores fold_left poke].
  assert (Hs : length (store n o v t) = length t) by (by apply length_store).
  etrans; [apply IH; by rewrite Hs | done].
Qed.

Lemma load_stores_other n off l t : 0 <= off -> off + Z.of_nat n <= zlen t ->
  Forall (fits (zlen t)) l -> Forall (misses n off) l -> load n off (stores l t) = load n off t.
Proof.
  revert t. induction l as [|[[m o] v] l IH]; intros t H0 H1 Hf Hm; [done|].
  apply Forall_cons in Hf as [[Ho Hn] Hf]. apply Forall_cons in Hm as [Hd Hm]. cbn [stores fold_left poke].
  assert (Hs : length (store m o v t) = length t) by (by apply length_store).
  etrans; [apply IH; rewrite ?Hs; done|]. by apply load_store_disjoint.
Qed.

Lemma load_stores n off v l1 l2 t : 0 <= off -> off + Z.of_nat n <= zlen t ->
  Forall (fits (zlen t)) l1 -> Forall (fits (zlen t)) l2 -> Forall (misses n off) l2 ->
  load n off (stores (l1 ++ (n, off, v) :: l2) t) = v mod 256 ^ Z.of_nat n.
Proof.
  intros H0 H1 Hl1 Hl2 Hm. unfold stores. rewrite fold_left_app. fold (stores l1 t).
  pose proof (length_stores l1 t Hl1) as Hs. cbn [fold_left poke].
  fold (stores l2 (store n off v (stores l1 t))).
  assert (Hs' : length (store n off v (stores l1 t)) = length t) by (rewrite length_store; rewrite ?Hs; done).
  rewrite load_stores_other; rewrite ?Hs'; try done. apply load_store_same; rewrite ?Hs; done.
Qed.

Lemma stores_app l1 l2 t : stores (l1 ++ l2) t = stores l2 (stores l1 t).
Proof. apply fold_left_app. Qed.

Ltac each := repeat first [apply Forall_cons; split | apply Forall_nil; exact I]; cbn; lia.

(** The element at place [k] of the run is the one that is read. *)
Ltac read_at k :=
  lazymatch goal with
  | |- context [load ?n ?o (stores ?l ?t)] =>
      let l1 := eval cbn in (take k l) in
      let l2 := eval cbn in (drop (S k) l) in
      let v := eval cbn in (snd (default (O, 0, 0) (l !! k))) in
      change (load n o (stores l t)) with (load n o (stores (l1 ++ (n, o, v) :: l2) t));
      rewrite (load_stores n o v l1 l2 t); [|lia|cbn; lia|each|each|each]
  end.

(** ** Segment descriptors *)

Definition gdt_writes (i base limit access gran : Z) : list (nat * Z * Z) :=
  [(2%nat, 8 * i, Z.land limit 0xFFFF); (1%nat, 8 * i + 6, Z.land (Z.shiftr limit 16) 0x0F);
   (2%nat, 8 * i + 2, Z.land base 0xFFFF); (1%nat, 8 * i + 4, Z.land (Z.shiftr base 16) 0xFF);
   (1%nat, 8 * i + 7, Z.land (Z.shiftr base 24) 0xFF); (1%nat, 8 * i + 5, access);
   (1%nat, 8 * i + 6, Z.lor (Z.land (Z.shiftr limit 16) 0x0F) (Z.land gran 0xF0))].

Lemma land_byte z m : 0 <= m < 256 -> Z.land z m mod 256 = Z.land z m.
Proof. intros. apply Z.mod_small. change 256 with (2 ^ 8). apply land_range_r; lia. Qed.

Lemma gdt_set_entry_stores i base limit access gran t : 0 <= i -> 8 * i + 8 <= zlen t ->
  gdt_set_entry i base limit access gran t = stores (gdt_writes i base limit access gran) t.
Proof.
  intros Hi Ht. unfold gdt_set_entry, gdt_writes.
  assert (Hg : granularity i (stores [(2%nat, 8 * i, Z.land limit 0xFFFF);
    (1%nat, 8 * i + 6, Z.land (Z.shiftr limit 16) 0x0F); (2%nat, 8 * i + 2, Z.land base 0xFFFF);
    (1%nat, 8 * i + 4, Z.land (Z.shiftr base 16) 0xFF); (1%nat, 8 * i + 7, Z.land (Z.shiftr base 24) 0xFF);
    (1%nat, 8 * i + 5, access)] t) = Z.land (Z.shiftr limit 16) 0x0F).
  { unfold granularity. read_at 1%nat. apply land_byte. lia. }
  unfold stores in *. cbn [fold_left poke] in *. unfold set_granularity at 1. cbv zeta.
  unfold set_access, set_base_high, set_base_middle, set_base_low, set_granularity, set_limit_low.
  by rewrite Hg.
Qed.

Lemma land_mod z n m : 0 <= n -> m = 2 ^ n - 1 -> Z.land z m = z mod 2 ^ n.
Proof. intros Hn ->. rewrite <- Z.land_ones by done. by rewrite Z.ones_equiv, Z.sub_1_r. Qed.

Lemma base_join b : 0 <= b ->
  u32 (Z.lor (Z.lor (Z.shiftl (Z.land (Z.shiftr b 24) 0xFF) 24) (Z.shiftl (Z.land (Z.shiftr b 16) 0xFF) 16))
        (Z.land b 0xFFFF)) = u32 b.
Proof.
  intros Hb. rewrite !(land_mod _ 8 0xFF), (land_mod _ 16 0xFFFF), !Z.shiftr_div_pow2, !Z.shiftl_mul_pow2 by lia.
  pose proof (Z.mod_pos_bound (b / 2 ^ 24) (2 ^ 8) ltac:(lia)). pose proof (Z.mod_pos_bound (b / 2 ^ 16) (2 ^ 8) ltac:(lia)).
  pose proof (Z.mod_pos_bound b (2 ^ 16) ltac:(lia)).
  rewrite lor_add_disjoint by lia.
  replace ((b / 2 ^ 24) mod 2 ^ 8 * 2 ^ 24 + (b / 2 ^ 16) mod 2 ^ 8 * 2 ^ 16)
    with (((b / 2 ^ 24) mod 2 ^ 8 * 2 ^ 8 + (b / 2 ^ 16) mod 2 ^ 8) * 2 ^ 16) by lia.
  rewrite lor_add_disjoint by lia. unfold u32. change 4294967296 with (2 ^ 32). clear -Hb.
  Z.to_euclidean_division_equations. lia.
Qed.

Lemma limit_join l g : 0 <= l < 2 ^ 20 ->
  Z.lor (Z.shiftl (Z.land (Z.lor (Z.land (Z.shiftr l 16) 0xF) (Z.land g 0xF0)) 0xF) 16) (Z.land l 0xFFFF) = l.
Proof.
  intros Hl. rewrite Z.land_lor_distr_l, <- !Z.land_assoc. change (Z.land 0xF 0xF) with 0xF.
  change (Z.land 0xF0 0xF) with 0. rewrite Z.land_0_r, Z.lor_0_r.
  rewrite (land_mod _ 4 0xF), (land_mod _ 16 0xFFFF), Z.shiftr_div_pow2, Z.shiftl_mul_pow2 by lia.
  pose proof (Z.mod_pos_bound l (2 ^ 16) ltac:(lia)). rewrite lor_add_disjoint by lia. clear -Hl.
  Z.to_euclidean_division_equations. lia.
Qed.

Lemma flags_join l g : 0 <= g < 256 ->
  Z.shiftr (Z.land (Z.lor (Z.land (Z.shiftr l 16) 0xF) (Z.land g 0xF0)) 0xF0) 4 = Z.shiftr g 4.
Proof.
  intros Hg. rewrite Z.land_lor_distr_l, <- !Z.land_assoc. change (Z.land 0xF 0xF0) with 0.
  change (Z.land 0xF0 0xF0) with 0xF0. rewrite Z.land_0_r, Z.lor_0_l.
  rewrite Z.shiftr_land. change (Z.shiftr 0xF0 4) with 0xF.
  rewrite (land_mod _ 4 0xF), Z.shiftr_div_pow2 by lia. apply Z.mod_small. split; [apply Z.div_pos; lia|].
  apply Z.div_lt_upper_bound; lia.
Qed.

Lemma gran_byte l g : Z.lor (Z.land l 0xF) (Z.land g 0xF0) mod 256 = Z.lor (Z.land l 0xF) (Z.land g 0xF0).
Proof.
  apply Z.mod_small. change 256 with (2 ^ 8).
  apply lor_range; [lia | pose proof (land_range_r l 0xF 8 ltac:(lia) ltac:(lia)); lia
    | pose proof (land_range_r g 0xF0 8 ltac:(lia) ltac:(lia)); lia].
Qed.

Lemma mod_u16 z : Z.land z 0xFFFF mod 256 ^ Z.of_nat 2 = Z.land z 0xFFFF.
Proof. change (256 ^ Z.of_nat 2) with (2 ^ 16). rewrite (land_mod _ 16) by lia. by apply Z.mod_mod. Qed.

(** A segment reads back as it was written. *)
Lemma gdt_entry_read i rpl base limit access gran t :
  0 <= i -> 8 * i + 8 <= zlen t -> 0 <= rpl < 8 -> 0 <= base -> 0 <= limit < 2 ^ 20 ->
  0 <= access < 256 -> 0 <= gran < 256 ->
  print_gdt_entry (8 * i + rpl) (gdt_set_entry i base limit access gran t) =
  (u32 base, limit, access, Z.shiftr gran 4).
Proof.
  intros Hi Ht Hr Hb Hl Ha Hg. unfold print_gdt_entry.
  assert (Hs : Z.shiftr (8 * i + rpl) 3 = i).
  { rewrite Z.shiftr_div_pow2 by lia. change (2 ^ 3) with 8. rewrite Z.add_comm, Z.mul_comm, Z.div_add by lia.
    rewrite Z.div_small by lia. lia. }
  rewrite Hs, gdt_set_entry_stores by done. unfold gdt_writes. cbv zeta.
  do 1 read_at 4%nat. read_at 3%nat. read_at 2%nat. read_at 6%nat. read_at 0%nat. read_at 5%nat.
  change (256 ^ Z.of_nat 1) with 256. rewrite gran_byte, !land_byte, !mod_u16, (Z.mod_small access) by lia.
  rewrite base_join, limit_join, flags_join by done. done.
Qed.

Lemma misses_sub n off m o w : misses m o w -> o <= off -> off + Z.of_nat n <= o + Z.of_nat m -> misses n off w.
Proof. destruct w as [[k p] v]. unfold misses. lia. Qed.

(** The other descriptors of the table. *)
Lemma entry_other j rpl l t : 0 <= j -> 8 * j + 8 <= zlen t -> 0 <= rpl < 8 ->
  Forall (fits (zlen t)) l -> Forall (misses 8 (8 * j)) l ->
  print_gdt_entry (8 * j + rpl) (stores l t) = print_gdt_entry (8 * j + rpl) t.
Proof.
  intros Hj Ht Hr Hf Hm. unfold print_gdt_entry.
  assert (Hs : Z.shiftr (8 * j + rpl) 3 = j).
  { rewrite Z.shiftr_div_pow2 by lia. change (2 ^ 3) with 8. rewrite Z.add_comm, Z.mul_comm, Z.div_add by lia.
    rewrite Z.div_small by lia. lia. }
  rewrite Hs. cbv zeta.
  assert (Hl : forall n off, 8 * j <= off -> off + Z.of_nat n <= 8 * j + 8 -> load n off (stores l t) = load n off t).
  { intros n off H1 H2. apply load_stores_other; [lia | lia | done |].
    eapply Forall_impl; [exact Hm|]. intros w Hw. eapply misses_sub; [exact Hw | lia | lia]. }
  rewrite !Hl by lia. done.
Qed.

Definition tss_writes (i base : Z) : list (nat * Z * Z) :=
  [(4%nat, 8 * (i + 1), Z.land (Z.shiftr base 32) 0xFFFFFFFF); (4%nat, 8 * (i + 1) + 4, 0)].

Lemma tss_set_entry_stores i base limit access gran t : 0 <= i -> 8 * i + 16 <= zlen t ->
  tss_set_entry i base limit access gran t =
  stores (gdt_writes i base limit access gran ++ tss_writes i base) t.
Proof.
  intros Hi Ht. unfold tss_set_entry. rewrite gdt_set_entry_stores, stores_app by lia. done.
Qed.

Lemma gdt_writes_fit i base limit access gran len : 0 <= i -> 8 * i + 8 <= len ->
  Forall (fits len) (gdt_writes i base limit access gran).
Proof. intros. unfold gdt_writes. each. Qed.

Lemma gdt_writes_miss i j base limit access gran : i <> j ->
  Forall (misses 8 (8 * j)) (gdt_writes i base limit access gran).
Proof. intros. unfold gdt_writes. each. Qed.

Lemma length_gdt_set_entry i base limit access gran t : 0 <= i -> 8 * i + 8 <= zlen t ->
  length (gdt_set_entry i base limit access gran t) = length t.
Proof.
  intros. rewrite gdt_set_entry_stores by done. apply length_stores. by apply gdt_writes_fit.
Qed.

Lemma gdt_entry_other i j rpl base limit access gran t : 0 <= i -> 8 * i + 8 <= zlen t ->
  0 <= j -> 8 * j + 8 <= zlen t -> i <> j -> 0 <= rpl < 8 ->
  print_gdt_entry (8 * j + rpl) (gdt_set_entry i base limit access gran t) = print_gdt_entry (8 * j + rpl) t.
Proof.
  intros. rewrite gdt_set_entry_stores by done.
  apply entry_other; try done; [by apply gdt_writes_fit | by apply gdt_writes_miss].
Qed.

(** The segments of the kernel and of user programs, by their selectors. *)
Record segments_ok (t : list Z) : Prop := {
  sg_len : zlen t = 8 * GDT_ENTRIES;
  sg_null : print_gdt_entry 0 t = (0, 0, 0, 0);
  sg_kernel_code : print_gdt_entry 0x08 t = (0, 0xFFFF, 0x9A, 0xA);
  sg_kernel_data : print_gdt_entry 0x10 t = (0, 0xFFFF, 0x92, 0xA);
  sg_user_code : print_gdt_entry 0x1B t = (0, 0xFFFF, 0xFA, 0xA);
  sg_user_data : print_gdt_entry 0x23 t = (0, 0xFFFF, 0xF2, 0xA)
}.

Lemma gdt_init_ok t : zlen t = 8 * GDT_ENTRIES -> segments_ok (gdt_init t).
Proof.
  unfold GDT_ENTRIES. intros Ht. unfold gdt_init. cbv zeta.
  set (t0 := gdt_set_entry 0 0 0 0 0 t).
  assert (H0 : zlen t0 = 56) by (unfold t0; rewrite length_gdt_set_entry; lia).
  set (t1 := gdt_set_entry 1 0 0xFFFF 0x9A 0xA0 t0).
  assert (H1 : zlen t1 = 56) by (unfold t1; rewrite length_gdt_set_entry; lia).
  set (t2 := gdt_set_entry 2 0 0xFFFF 0x92 0xA0 t1).
  assert (H2 : zlen t2 = 56) by (unfold t2; rewrite length_gdt_set_entry; lia).
  set (t3 := gdt_set_entry 3 0 0xFFFF 0xFA 0xA0 t2).
  assert (H3 : zlen t3 = 56) by (unfold t3; rewrite length_gdt_set_entry; lia).
  constructor; [unfold GDT_ENTRIES; rewrite length_gdt_set_entry; lia | change 0 with (8 * 0 + 0) at 1
    | change 0x08 with (8 * 1 + 0) | change 0x10 with (8 * 2 + 0) | change 0x1B with (8 * 3 + 3)
    | change 0x23 with (8 * 4 + 3); by rewrite gdt_entry_read by lia];
  rewrite gdt_entry_other by lia; unfold t3;
  [rewrite gdt_entry_other by lia.. | by rewrite gdt_entry_read by lia]; unfold t2;
  [rewrite gdt_entry_other by lia.. | by rewrite gdt_entry_read by lia]; unfold t1;
  [rewrite gdt_entry_other by lia | by rewrite gdt_entry_read by lia].
  unfold t0. by rewrite gdt_entry_read by lia.
Qed.

Lemma segments_keep t l : segments_ok t -> Forall (fits 56) l -> Forall (misses 40 0) l -> segments_ok (stores l t).
Proof.
  intros [Hl Hn Hc Hd Huc Hud] Hf Hm. unfold GDT_ENTRIES in Hl.
  assert (Hf' : Forall (fits (zlen t)) l) by (by rewrite Hl).
  assert (Hm' : forall j, 0 <= j < 5 -> Forall (misses 8 (8 * j)) l).
  { intros j Hj. eapply Forall_impl; [exact Hm|]. intros w Hw. eapply misses_sub; [exact Hw | lia | lia]. }
  constructor; [by rewrite length_stores | change 0 with (8 * 0 + 0) at 1
    | change 0x08 with (8 * 1 + 0) | change 0x10 with (8 * 2 + 0) | change 0x1B with (8 * 3 + 3)
    | change 0x23 with (8 * 4 + 3)]; rewrite entry_other; try done; try lia; apply Hm'; lia.
Qed.

(** ** Gates *)

(** A gate as the processor reads it: target, segment, attributes, stack. *)
Definition gate_at (k : Z) (t : list Z) : Z * Z * Z * Z :=
  let o := 16 * k in
  (load 2 o t + load 2 (o + 6) t * 2 ^ 16 + load 4 (o + 8) t * 2 ^ 32,
   load 2 (o + 2) t, load 1 (o + 5) t, load 1 (o + 4) t).

Definition gate_writes (k off sel attr : Z) : list (nat * Z * Z) :=
  [(2%nat, 16 * k, Z.land off 0xFFFF); (2%nat, 16 * k + 6, Z.land (u16 (Z.shiftr off 16)) 0xFFFF);
   (4%nat, 16 * k + 8, Z.land (u32 (Z.shiftr off 32)) 0xFFFFFFFF); (2%nat, 16 * k + 2, sel);
   (1%nat, 16 * k + 5, attr); (1%nat, 16 * k + 4, 0); (4%nat, 16 * k + 12, 0)].

Lemma gate_writes_fit k off sel attr len : 0 <= k -> 16 * k + 16 <= len -> Forall (fits len) (gate_writes k off sel attr).
Proof. intros. unfold gate_writes. each. Qed.

Lemma gate_read k off sel attr t : 0 <= k -> 16 * k + 16 <= zlen t -> 0 <= off < 2 ^ 64 -> 0 <= sel < 2 ^ 16 ->
  0 <= attr < 256 -> gate_at k (int_set_gate k off sel attr t) = (off, sel, attr, 0).
Proof.
  intros Hk Ht Ho Hs Ha. unfold gate_at. cbv zeta.
  change (int_set_gate k off sel attr t) with (stores (gate_writes k off sel attr) t). unfold gate_writes.
  read_at 0%nat. read_at 1%nat. read_at 2%nat. read_at 3%nat. read_at 4%nat. read_at 5%nat.
  change (256 ^ Z.of_nat 1) with 256. change (256 ^ Z.of_nat 2) with (2 ^ 16). change (256 ^ Z.of_nat 4) with (2 ^ 32).
  rewrite (Z.mod_small sel), (Z.mod_small attr) by lia. do 3 f_equal.
  rewrite !(land_mod _ 16 0xFFFF), (land_mod _ 32 0xFFFFFFFF), !Z.shiftr_div_pow2 by lia. unfold u16, u32.
  change 65536 with (2 ^ 16). change 4294967296 with (2 ^ 32). rewrite !Z.mod_mod by lia.
  clear -Ho. Z.to_euclidean_division_equations. lia.
Qed.

Lemma gate_other k j off sel attr t : 0 <= k -> 16 * k + 16 <= zlen t -> 0 <= j -> 16 * j + 16 <= zlen t -> k <> j ->
  gate_at j (int_set_gate k off sel attr t) = gate_at j t.
Proof.
  intros Hk Ht Hj Hjt Hne. unfold gate_at. cbv zeta.
  change (int_set_gate k off sel attr t) with (stores (gate_writes k off sel attr) t).
  assert (Hl : forall n o, 16 * j <= o -> o + Z.of_nat n <= 16 * j + 16 ->
    load n o (stores (gate_writes k off sel attr) t) = load n o t).
  { intros n o H1 H2. apply load_stores_other; [lia | lia | by apply gate_writes_fit | unfold gate_writes; each]. }
  rewrite !Hl by lia. done.
Qed.

Lemma length_int_set_gate k off sel attr t : 0 <= k -> 16 * k + 16 <= zlen t ->
  length (int_set_gate k off sel attr t) = length t.
Proof. intros. apply (length_stores (gate_writes k off sel attr)). by apply gate_writes_fit. Qed.

Definition gate_ok (len : Z) (g : Z * Z * Z) : Prop :=
  let '(k, off, attr) := g in 0 <= k /\ 16 * k + 16 <= len /\ 0 <= off < 2 ^ 64 /\ 0 <= attr < 256.
Definition gate_index (g : Z * Z * Z) : Z := g.1.1.

Lemma set_gates_other l t j : Forall (gate_ok (zlen t)) l -> 0 <= j -> 16 * j + 16 <= zlen t -> j ∉ gate_index <$> l ->
  gate_at j (set_gates l t) = gate_at j t.
Proof.
  revert t. induction l as [|[[k off] attr] l IH]; intros t Hl Hj Hjt Hn; [done|].
  apply Forall_cons in Hl as [(Hk & Hkt & Ho & Ha) Hl]. rewrite fmap_cons, not_elem_of_cons in Hn.
  destruct Hn as [Hne Hn]. cbn [set_gates fold_left]. fold (set_gates l (int_set_gate k off 8 attr t)).
  assert (Hlen : length (int_set_gate k off 8 attr t) = length t) by (by apply length_int_set_gate).
  rewrite IH; rewrite ?Hlen; try done. apply gate_other; done || (unfold gate_index in Hne; simpl in Hne; lia).
Qed.

Lemma set_gates_read l t k off attr : Forall (gate_ok (zlen t)) l -> NoDup (gate_index <$> l) ->
  (k, off, attr) ∈ l -> gate_at k (set_gates l t) = (off, 8, attr, 0).
Proof.
  revert t. induction l as [|[[k' off'] attr'] l IH]; intros t Hl Hnd Hin; [by apply elem_of_nil in Hin|].
  apply Forall_cons in Hl as [(Hk & Hkt & Ho & Ha) Hl]. rewrite fmap_cons, NoDup_cons in Hnd.
  destruct Hnd as [Hn Hnd]. cbn [set_gates fold_left]. fold (set_gates l (int_set_gate k' off' 8 attr' t)).
  assert (Hlen : length (int_set_gate k' off' 8 attr' t) = length t) by (by apply length_int_set_gate).
  apply elem_of_cons in Hin as [Heq|Hin].
  - injection Heq as -> -> ->. rewrite set_gates_other; rewrite ?Hlen; try done. by apply gate_read.
  - apply IH; rewrite ?Hlen; done.
Qed.

Section gates.
Context (isr irq : Z -> Z) (Hisr : forall k, 0 <= isr k < 2 ^ 64) (Hirq : forall k, 0 <= irq k < 2 ^ 64).

Lemma gates_fit l : Forall (fun k => 0 <= k < 256) (gate_index <$> l) ->
  Forall (fun g => 0 <= g.1.2 < 2 ^ 64 /\ 0 <= g.2 < 256) l -> Forall (gate_ok (16 * TOTAL_INT_ENTRIES)) l.
Proof.
  intros Hi Ho. rewrite Forall_fmap in Hi. eapply Forall_impl; [apply Forall_and; exact (conj Hi Ho)|].
  intros [[k off] attr] [H1 [H2 H3]]. unfold compose, gate_index in H1. cbn in *. unfold TOTAL_INT_ENTRIES. lia.
Qed.

Lemma targets_ok f l : (forall k, 0 <= f k < 2 ^ 64) -> forall attr, 0 <= attr < 256 -> forall g : Z -> Z,
  Forall (fun p : Z * Z * Z => 0 <= p.1.2 < 2 ^ 64 /\ 0 <= p.2 < 256) ((fun k => (g k, f k, attr)) <$> l).
Proof. intros Hf attr Ha g. apply Forall_fmap, Forall_true. intros k. cbn. auto. Qed.

Lemma bsp_index :
  gate_index <$> (isr_gates isr ++ irq_gates irq (seqZ 0 19) 0x8E ++ irq_gates irq [19; 96] 0xEE) = seqZ 0 52 ++ [128].
Proof. vm_compute. reflexivity. Qed.

Lemma bsp_range : Forall (fun k => 0 <= k < 256) (seqZ 0 52 ++ [128]) /\ NoDup (seqZ 0 52 ++ [128]).
Proof. apply (bool_decide_unpack _). by vm_compute. Qed.

Lemma bsp_fits : Forall (gate_ok (16 * TOTAL_INT_ENTRIES))
  (isr_gates isr ++ irq_gates irq (seqZ 0 19) 0x8E ++ irq_gates irq [19; 96] 0xEE).
Proof.
  apply gates_fit; [rewrite bsp_index; apply bsp_range|]. unfold isr_gates, irq_gates. rewrite !Forall_app.
  split; [|split].
  - by apply (targets_ok isr _ Hisr 0x8E ltac:(lia) (fun k => k)).
  - by apply (targets_ok irq _ Hirq 0x8E ltac:(lia) (fun n => 32 + n)).
  - by apply (targets_ok irq _ Hirq 0xEE ltac:(lia) (fun n => 32 + n)).
Qed.

(** Every gate of the table for the APIC; [n] is a line, [k] an exception. *)
Lemma bsp_gate t k off attr : zlen t = 16 * TOTAL_INT_ENTRIES ->
  (k, off, attr) ∈ isr_gates isr ++ irq_gates irq (seqZ 0 19) 0x8E ++ irq_gates irq [19; 96] 0xEE ->
  gate_at k (set_bsp_apic_int_descriptor_table isr irq t) = (off, 8, attr, 0).
Proof.
  intros Ht Hin. unfold set_bsp_apic_int_descriptor_table. apply set_gates_read.
  - rewrite Ht. apply bsp_fits.
  - rewrite bsp_index. apply bsp_range.
  - done.
Qed.

Lemma bsp_irq_gate t n : zlen t = 16 * TOTAL_INT_ENTRIES -> n ∈ seqZ 0 19 ->
  gate_at (32 + n) (set_bsp_apic_int_descriptor_table isr irq t) = (irq n, 8, 0x8E, 0).
Proof.
  intros Ht Hn. apply bsp_gate; [done|]. rewrite !elem_of_app. right. left.
  apply list_elem_of_fmap. by exists n.
Qed.

Lemma bsp_user_gate t n : zlen t = 16 * TOTAL_INT_ENTRIES -> n ∈ [19; 96] ->
  gate_at (32 + n) (set_bsp_apic_int_descriptor_table isr irq t) = (irq n, 8, 0xEE, 0).
Proof.
  intros Ht Hn. apply bsp_gate; [done|]. rewrite !elem_of_app. right. right.
  apply list_elem_of_fmap. by exists n.
Qed.

Lemma bsp_exception_gate t k : zlen t = 16 * TOTAL_INT_ENTRIES -> k ∈ seqZ 0 32 ->
  gate_at k (set_bsp_apic_int_descriptor_table isr irq t) = (isr k, 8, 0x8E, 0).
Proof.
  intros Ht Hk. apply bsp_gate; [done|]. rewrite !elem_of_app. left.
  apply list_elem_of_fmap. by exists k.
Qed.

(** A vector without a gate keeps what the table had. *)
Lemma bsp_no_gate t k : zlen t = 16 * TOTAL_INT_ENTRIES -> 0 <= k < TOTAL_INT_ENTRIES -> 52 <= k -> k <> 128 ->
  gate_at k (set_bsp_apic_int_descriptor_table isr irq t) = gate_at k t.
Proof.
  intros Ht Hk H1 H2. unfold set_bsp_apic_int_descriptor_table. unfold TOTAL_INT_ENTRIES in *.
  apply set_gates_other; [rewrite Ht; apply bsp_fits | lia | lia |].
  rewrite bsp_index, elem_of_app, elem_of_seqZ, list_elem_of_singleton. lia.
Qed.

Lemma pic_gates t : zlen t = 16 * TOTAL_INT_ENTRIES ->
  forall n, 0 <= n < 16 -> n <> 2 -> gate_at (32 + n) (set_pic_int_descriptor_table isr irq t) = (irq n, 8, 0x8E, 0).
Proof.
  intros Ht n Hn Hn2. unfold set_pic_int_descriptor_table. set (ns := [0; 1; 3; 4; 5; 6; 7; 8; 9; 10; 11; 12; 13; 14; 15]).
  set (l := isr_gates isr ++ irq_gates irq ns 0x8E).
  assert (Hidx : gate_index <$> l = seqZ 0 32 ++ ((fun n => 32 + n) <$> ns)) by (by vm_compute).
  apply set_gates_read.
  - rewrite Ht. apply gates_fit; [rewrite Hidx; apply (bool_decide_unpack _); by vm_compute|].
    unfold l. rewrite !Forall_app. split; by apply targets_ok.
  - rewrite Hidx. apply (bool_decide_unpack _). by vm_compute.
  - unfold l. rewrite elem_of_app. right. apply list_elem_of_fmap. exists n. split; [done|].
    assert (Hns : Forall (fun m => m = 2 \/ m ∈ ns) (seqZ 0 16)) by (apply (bool_decide_unpack _); by vm_compute).
    rewrite Forall_forall in Hns. destruct (Hns n) as [?|?]; [apply elem_of_seqZ; lia | done | done].
Qed.
End gates.

(** ** The controllers *)

(** One 8259: what it waits for, its vectors, its mask. *)
Inductive pic_phase := Ready | Icw2 | Icw3 | Icw4.
Record pic8259 := mk_pic { phase : pic_phase; vectors : Z; cascade : Z; imr : Z }.

(** A byte to the command port ([true]) or to the data port. *)
Definition pic_accept (command : bool) (v : Z) (p : pic8259) : pic8259 :=
  if command then if Z.testbit v 4 then mk_pic Icw2 (vectors p) (cascade p) 0 else p
  else match phase p with
  | Icw2 => mk_pic Icw3 (Z.land v 0xF8) (cascade p) (imr p)
  | Icw3 => mk_pic Icw4 (vectors p) v (imr p)
  | Icw4 => mk_pic Ready (vectors p) (cascade p) (imr p)
  | Ready => mk_pic Ready (vectors p) (cascade p) v
  end.

Definition pics_accept (port v : Z) (m : pic8259 * pic8259) : pic8259 * pic8259 :=
  if port =? PIC1_COMMAND_PORT then (pic_accept true v m.1, m.2)
  else if port =? PIC1_DATA_PORT then (pic_accept false v m.1, m.2)
  else if port =? PIC2_COMMAND_PORT then (m.1, pic_accept true v m.2)
  else if port =? PIC2_DATA_PORT then (m.1, pic_accept false v m.2)
  else m.

(** The vector of a line, if it is let through. *)
Definition pic_vector (m : pic8259 * pic8259) (n : Z) : option Z :=
  if n <? 8 then
    match phase m.1 with
    | Ready => if Z.testbit (imr m.1) n then None else Some (vectors m.1 + n)
    | _ => None
    end
  else match phase m.1, phase m.2 with
  | Ready, Ready =>
      if Z.testbit (imr m.1) 2 || Z.testbit (imr m.2) (n - 8) || negb (Z.testbit (cascade m.1) 2) then None
      else Some (vectors m.2 + (n - 8))
  | _, _ => None
  end.

(** Devices of a machine: the two PICs behind their ports, an I/O APIC with
    [lines] inputs behind its two registers, a local APIC on another page.
    [redir e k] is register 16 + k of the I/O APIC; bits 12 and 14 of an even
    one can only be read. *)
Class IntDevices (E : Type) {P : Ports E} {Mm : Mmio E} := {
  pics : E -> pic8259 * pic8259;
  redir : E -> Z -> Z;
  selected : E -> Z;
  io_base : Z;
  lines : Z;
  lapic_page : Z;
  lines_range : 20 <= lines <= 96;
  io_base_range : 0 <= io_base /\ io_base + 16 < 2 ^ 32;
  lapic_range : 0 <= lapic_page /\ lapic_page + 4096 <= 2 ^ 32 /\
    (lapic_page + 4096 <= io_base \/ io_base + 16 < lapic_page);
  redir_range : forall e k, 0 <= redir e k < 2 ^ 32;
  outb_pic : forall e p v, exists e', outb p v e = Ret (tt, e') /\ pics e' = pics_accept p v (pics e) /\
    (forall k, redir e' k = redir e k) /\ selected e' = selected e;
  select_write : forall e v, exists e', mmio_write io_base v e = Ret (tt, e') /\ pics e' = pics e /\
    (forall k, redir e' k = redir e k) /\ selected e' = Z.land v 0xFF;
  window_read : forall e, exists v e', mmio_read (io_base + 16) e = Ret (v, e') /\ pics e' = pics e /\
    (forall k, redir e' k = redir e k) /\ selected e' = selected e /\ 0 <= v < 2 ^ 32 /\
    (16 <= selected e < 16 + 2 * lines -> v = redir e (selected e - 16));
  window_write : forall e v, 0 <= v < 2 ^ 32 -> exists e', mmio_write (io_base + 16) v e = Ret (tt, e') /\
    pics e' = pics e /\ selected e' = selected e /\
    (forall k, 0 <= k < 2 * lines -> redir e' k =
       if k =? selected e - 16 then
         if Z.even k then Z.lor (Z.land v 0xFFFFAFFF) (Z.land (redir e k) 0x5000) else v
       else redir e k);
  lapic_read : forall e a, lapic_page <= a < lapic_page + 4096 -> exists v e', mmio_read a e = Ret (v, e') /\
    pics e' = pics e /\ (forall k, redir e' k = redir e k) /\ 0 <= v < 2 ^ 32;
  lapic_write : forall e a v, lapic_page <= a < lapic_page + 4096 -> exists e', mmio_write a v e = Ret (tt, e') /\
    pics e' = pics e /\ (forall k, redir e' k = redir e k);
  apic_msr : forall e, exists v e', rdmsr IA32_APIC_BASE_MSR e = Ret (v, e') /\ Z.land v 0xFFFFF000 = lapic_page /\
    pics e' = pics e /\ (forall k, redir e' k = redir e k);
  apic_msr_set : forall e v, Z.land v 0xFFFFF000 = lapic_page -> exists e', wrmsr IA32_APIC_BASE_MSR v e = Ret (tt, e') /\
    pics e' = pics e /\ (forall k, redir e' k = redir e k)
}.

(** An entry of the redirection table that lets its line through to [vector]
    of the processor [id], edge-triggered, active high. *)
Definition routed {E} `{IntDevices E} (e : E) (n id vector : Z) : Prop :=
  Z.land (redir e (2 * n)) 0xFFFFAFFF = vector /\ Z.shiftr (redir e (2 * n + 1)) 24 = id.

Section delivery.
Context {E : Type} {P : Ports E} {Mm : Mmio E} {L : IntDevices E}.
Implicit Types s : ics E.

(** What the set-up of the I/O APIC keeps. *)
Record kept s s' : Prop := {
  kp_io : ioapic_addr s' = ioapic_addr s;
  kp_cpu : i_cpu s' = i_cpu s;
  kp_pics : pics (i_env s') = pics (i_env s)
}.
Lemma kept_after s1 s2 s3 : kept s1 s2 -> kept s2 s3 -> kept s1 s3.
Proof. intros [] []. split; congruence. Qed.

Definition same_redir s s' : Prop := forall k, redir (i_env s') k = redir (i_env s) k.

Lemma wp_on_dev {A} (m : M E A) Q s v e' : m (i_env s) = Ret (v, e') ->
  Q v (mk_ics e' (LAPIC_BASE s) (ioapic_addr s) (i_cpu s)) -> wp (on_dev m) Q s.
Proof. intros Hm HQ. unfold wp, on_dev. by rewrite Hm. Qed.

Lemma wp_dev {A} (m : M E A) (Q : A -> ics E -> Prop) s :
  wp m (fun a e => Q a (mk_ics e (LAPIC_BASE s) (ioapic_addr s) (i_cpu s))) (i_env s) -> wp (on_dev m) Q s.
Proof. unfold wp, on_dev, obind. by destruct (m (i_env s)) as [[a e]| | |]. Qed.

Lemma read_reg_spec reg s Q : ioapic_addr s = io_base -> 0 <= reg < 256 ->
  (forall v s', kept s s' -> same_redir s s' -> 0 <= v < 2 ^ 32 -> Q v s') ->
  wp (ioapic_read_reg reg) Q s.
Proof.
  intros Ha Hr HQ. pose proof io_base_range. unfold ioapic_read_reg. wp_steps. rewrite Ha.
  unfold IOAPIC_REGSEL, IOAPIC_WINDOW. rewrite Z.add_0_r, !u32_small by lia.
  destruct (select_write (i_env s) reg) as (e1 & H1 & Hp1 & Hr1 & Hs1). eapply wp_on_dev; [exact H1|].
  destruct (window_read e1) as (v & e2 & H2 & Hp2 & Hr2 & Hs2 & Hv & _). eapply wp_on_dev; [exact H2|]. apply HQ; [| |done].
  - split; cbn; congruence.
  - intros k. cbn. by rewrite Hr2, Hr1.
Qed.

Lemma write_reg_spec reg value s Q : ioapic_addr s = io_base -> 0 <= reg < 256 -> 0 <= value < 2 ^ 32 ->
  (forall s', kept s s' -> (forall k, 0 <= k < 2 * lines -> redir (i_env s') k =
     if k =? reg - 16 then
       if Z.even k then Z.lor (Z.land value 0xFFFFAFFF) (Z.land (redir (i_env s) k) 0x5000) else value
     else redir (i_env s) k) -> Q tt s') ->
  wp (ioapic_write_reg reg value) Q s.
Proof.
  intros Ha Hr Hv HQ. pose proof io_base_range. unfold ioapic_write_reg. wp_steps. rewrite Ha.
  unfold IOAPIC_REGSEL, IOAPIC_WINDOW. rewrite Z.add_0_r, !u32_small by lia.
  destruct (select_write (i_env s) reg) as (e1 & H1 & Hp1 & Hr1 & Hs1). eapply wp_on_dev; [exact H1|].
  destruct (window_write e1 value Hv) as (e2 & H2 & Hp2 & Hs2 & Hr2). eapply wp_on_dev; [exact H2|].
  rewrite Hs1, (land_mod _ 8 0xFF), (Z.mod_small reg) in Hr2 by lia. apply HQ.
  - split; cbn; congruence.
  - intros k Hk. cbn. rewrite Hr2, !Hr1 by done. done.
Qed.

Lemma high_id h id : 0 <= h < 2 ^ 32 -> 0 <= id < 256 ->
  let v := Z.lor (Z.land h 0x00FFFFFF) (u32 (Z.shiftl id 24)) in
  0 <= v < 2 ^ 32 /\ Z.shiftr v 24 = id.
Proof.
  intros Hh Hid. cbv zeta. rewrite (land_mod _ 24 0xFFFFFF), Z.shiftl_mul_pow2, u32_small by lia.
  pose proof (Z.mod_pos_bound h (2 ^ 24) ltac:(lia)). rewrite Z.lor_comm, lor_add_disjoint by lia.
  split; [lia|]. rewrite Z.shiftr_div_pow2, Z.add_comm, Z.div_add by lia. rewrite Z.div_small by lia. lia.
Qed.

Lemma low_vector v old : 0 <= v < 256 ->
  Z.land (Z.lor (Z.land v 0xFFFFAFFF) (Z.land old 0x5000)) 0xFFFFAFFF = v.
Proof.
  intros Hv. rewrite Z.land_lor_distr_l, <- !Z.land_assoc. change (Z.land 0x5000 0xFFFFAFFF) with 0.
  change (Z.land 0xFFFFAFFF 0xFFFFAFFF) with 0xFFFFAFFF. rewrite Z.land_0_r, Z.lor_0_r.
  rewrite <- (Z.mod_small v 256) at 1 by done. change 256 with (2 ^ 8). rewrite <- (land_mod _ 8 0xFF) by lia.
  rewrite <- Z.land_assoc. change (Z.land 0xFF 0xFFFFAFFF) with 0xFF. rewrite (land_mod _ 8 0xFF) by lia.
  by apply Z.mod_small.
Qed.

Lemma route_spec n id vec s Q : ioapic_addr s = io_base -> 0 <= n < 120 -> 0 <= id < 256 -> 0 <= vec < 256 ->
  (forall s', kept s s' -> (n < lines -> routed (i_env s') n id vec) ->
     (forall m i v, 0 <= m < lines -> m <> n -> routed (i_env s) m i v -> routed (i_env s') m i v) -> Q tt s') ->
  wp (ioapic_route_irq n id vec 0) Q s.
Proof.
  intros Ha Hn Hid Hv HQ. pose proof lines_range. unfold ioapic_route_irq, IOAPICREDTBL. cbv zeta.
  rewrite (u32_small (16 + n * 2)), (u32_small (16 + n * 2 + 1)) by lia. wp_step.
  apply read_reg_spec; [done | lia |]. intros h s1 K1 R1 Hh. wp_step.
  destruct (high_id h id Hh Hid) as [Hhr Hhid]. revert Hhr Hhid. generalize (Z.lor (Z.land h 0xFFFFFF) (u32 (Z.shiftl id 24))).
  intros hv Hhr Hhid. apply write_reg_spec; [by rewrite (kp_io _ _ K1) | lia | done |]. intros s2 K2 R2.
  rewrite Z.lor_0_r. apply write_reg_spec; [by rewrite (kp_io _ _ K2), (kp_io _ _ K1) | lia | lia |]. intros s3 K3 R3.
  assert (Hev : Z.even (2 * n) = true) by (rewrite Z.even_mul; done).
  assert (Hod : Z.even (2 * n + 1) = false) by (rewrite Z.even_add, Z.even_mul; done).
  apply HQ; [eapply kept_after; [done|]; by eapply kept_after | |].
  - intros Hl. unfold routed. rewrite (R3 (2 * n)), (R3 (2 * n + 1)), (R2 (2 * n + 1)) by lia.
    rewrite Hev, Hod. destruct (Z.eqb_spec (2 * n) (16 + n * 2 - 16)), (Z.eqb_spec (2 * n + 1) (16 + n * 2 - 16)),
      (Z.eqb_spec (2 * n + 1) (16 + n * 2 + 1 - 16)); try lia. split; [by apply low_vector | done].
  - intros m i v Hm Hne. unfold routed. intros [Hlo Hhi].
    rewrite (R3 (2 * m)), (R3 (2 * m + 1)), (R2 (2 * m)), (R2 (2 * m + 1)), !R1 by lia.
    destruct (Z.eqb_spec (2 * m) (16 + n * 2 - 16)), (Z.eqb_spec (2 * m + 1) (16 + n * 2 - 16)),
      (Z.eqb_spec (2 * m) (16 + n * 2 + 1 - 16)), (Z.eqb_spec (2 * m + 1) (16 + n * 2 + 1 - 16)); lia.
Qed.

Lemma route_lines_spec id l s Q : ioapic_addr s = io_base -> 0 <= id < 256 -> Forall (fun n => 0 <= n < 120) l ->
  NoDup l ->
  (forall s', kept s s' -> (forall n, n ∈ l -> n < lines -> routed (i_env s') n id (32 + n)) ->
     (forall m i v, 0 <= m < lines -> m ∉ l -> routed (i_env s) m i v -> routed (i_env s') m i v) -> Q tt s') ->
  wp (route_lines id 0 l) Q s.
Proof.
  revert s. induction l as [|n l IH]; intros s Ha Hid Hl Hnd HQ; cbn [route_lines].
  - wp_step. apply HQ; [by split | | done]. intros n Hn. by apply elem_of_nil in Hn.
  - apply Forall_cons in Hl as [Hn Hl]. apply NoDup_cons in Hnd as [Hni Hnd]. wp_step.
    apply route_spec; [done | done | done | lia |]. intros s1 K1 Hr Ho.
    apply IH; [by rewrite (kp_io _ _ K1) | done | done | done |]. intros s2 K2 Hr2 Ho2.
    apply HQ; [by eapply kept_after | |].
    + intros m [->|Hm]%elem_of_cons Hlt; [|by apply Hr2]. apply Ho2; [lia | done | by apply Hr].
    + intros m i v Hm Hnm Hrm. rewrite not_elem_of_cons in Hnm. destruct Hnm. apply Ho2; [done.. |]. by apply Ho.
Qed.
End delivery.

(** ** Loading the tables *)

(** The descriptor of the task state segment, once it is in use. *)
Lemma tss_entry_read b t : zlen t = 56 -> 0 <= b < 2 ^ 64 ->
  let t' := stores (gdt_writes 5 b sizeof_tss 0x89 0 ++ tss_writes 5 b ++ [(1%nat, 45, 0x8B)]) t in
  print_gdt_entry 0x28 t' = (u32 b, sizeof_tss, 0x8B, 0) /\ load 4 48 t' = b / 2 ^ 32.
Proof.
  intros Ht Hb. unfold sizeof_tss. cbv zeta. split.
  - unfold print_gdt_entry. change (8 * Z.shiftr 40 3) with 40. cbv zeta. unfold gdt_writes, tss_writes. cbn [app].
    change (8 * 5) with 40. read_at 4%nat. read_at 3%nat. read_at 2%nat. read_at 6%nat. read_at 0%nat. read_at 9%nat.
    change (256 ^ Z.of_nat 1) with 256. rewrite gran_byte, !land_byte, !mod_u16 by lia.
    rewrite base_join, limit_join, flags_join by lia. done.
  - unfold gdt_writes, tss_writes. cbn [app]. change (8 * (5 + 1)) with 48. change (8 * 5) with 40.
    read_at 7%nat. change (256 ^ Z.of_nat 4) with (2 ^ 32).
    rewrite (land_mod _ 32 0xFFFFFFFF), Z.mod_mod, Z.shiftr_div_pow2 by lia.
    apply Z.mod_small. split; [apply Z.div_pos; lia | apply Z.div_lt_upper_bound; lia].
Qed.

(** The processor runs on the kernel's tables, with interrupts enabled. *)
Record gdt_loaded (at_gdt at_tss : Z) (c : cst) : Prop := {
  gl_segments : segments_ok (gdt c);
  gl_tss : print_gdt_entry 0x28 (gdt c) = (u32 at_tss, sizeof_tss, 0x8B, 0);
  gl_tss_high : load 4 48 (gdt c) = at_tss / 2 ^ 32;
  gl_stack : exists top, load 8 4 (tss c) = top /\ 0 < top /\ top mod 4096 = 0;
  gl_gdtr : r_gdtr (c_hw c) = Some (8 * GDT_ENTRIES - 1, at_gdt);
  gl_tr : r_tr (c_hw c) = Some 0x28;
  gl_cs : r_cs (c_hw c) = Some 8
}.

(** Memory for the stack of the task state segment. *)
Definition stack_room (m : mm) : Prop :=
  0 < phys_mem_head m /\ phys_mem_head m + 8192 < 2 ^ 63 /\ phys_mem_head m < USABLE_END_PHYS_MEM m.

Lemma ltr_ready t : zlen t = 56 -> load 1 45 t = 0x89 -> ltr_table 0x28 t = Some (store 1 45 0x8B t).
Proof.
  intros Ht Hl. unfold ltr_table. change (8 * Z.shiftr 40 3) with 40. change (40 + 5) with 45. rewrite Hl, Ht. done.
Qed.

Lemma wp_on_mm {A} (m : M mm A) Q c : wp m (fun a x => Q a (set_c_mm x c)) (c_mm c) -> wp (on_mm m) Q c.
Proof. unfold wp, on_mm, obind. by destruct (m (c_mm c)) as [[a x]| | |]. Qed.

Lemma tss_image_stack top : 0 <= top < 2 ^ 64 -> load 8 4 (tss_image top) = top.
Proof.
  intros Ht. unfold tss_image, sizeof_tss.
  assert (Hz : zlen (replicate (Z.to_nat 104) 0) = 104) by done. revert Hz.
  generalize (replicate (Z.to_nat 104) 0). intros t Hz.
  change (store 2 102 104 (store 8 4 top t)) with (stores [(8%nat, 4, top); (2%nat, 102, 104)] t).
  read_at 0%nat. by apply Z.mod_small.
Qed.

(** The task state segment on a table of segments, and in use. *)
Lemma tss_loaded b t : segments_ok t -> 0 <= b < 2 ^ 64 ->
  exists t', ltr_table 0x28 (tss_set_entry 5 b sizeof_tss 0x89 0 t) = Some t' /\ segments_ok t' /\
    print_gdt_entry 0x28 t' = (u32 b, sizeof_tss, 0x8B, 0) /\ load 4 48 t' = b / 2 ^ 32.
Proof.
  intros Hseg Hb. pose proof (sg_len _ Hseg) as Hl. unfold GDT_ENTRIES in Hl.
  rewrite tss_set_entry_stores by lia.
  exists (stores (gdt_writes 5 b sizeof_tss 0x89 0 ++ tss_writes 5 b ++ [(1%nat, 45, 0x8B)]) t). split.
  - rewrite app_assoc, (stores_app (_ ++ _)). apply ltr_ready.
    + rewrite length_stores; [lia|]. unfold gdt_writes, tss_writes. cbn [app]. each.
    + unfold gdt_writes, tss_writes. cbn [app]. change (8 * (5 + 1)) with 48. change (8 * 5) with 40.
      change (40 + 5) with 45. read_at 5%nat. done.
  - split; [|by apply tss_entry_read].
    apply segments_keep; [done | |]; unfold gdt_writes, tss_writes; cbn [app]; each.
Qed.

Lemma gdt_tss_init_spec at_gdt at_tss c Q : zlen (gdt c) = 56 -> stack_room (c_mm c) -> 0 <= at_tss < 2 ^ 64 ->
  (forall c', gdt_loaded at_gdt at_tss c' -> Q tt c') -> wp (gdt_tss_init at_gdt at_tss) Q c.
Proof.
  intros Ht (Hh & Hov & Hend) Hat HQ. pose proof (page_up_bounds (phys_mem_head (c_mm c))) as Hp.
  pose proof (page_up_mod (phys_mem_head (c_mm c))) as Hpm.
  pose proof (gdt_init_ok (gdt c) ltac:(unfold GDT_ENTRIES; lia)) as Hseg.
  unfold gdt_tss_init, tss_init. wp_steps. revert Hseg. generalize (gdt_init (gdt c)). intros t Hseg.
  unfold TSS_STACK_SIZE. apply wp_on_mm.
  apply kmalloc_a_spec; cbn [c_mm set_gdt]; [lia | lia | lia | lia |].
  rewrite (proj2 (Z.eqb_neq _ 0)) by lia. wp_steps. unfold gdt_flush, tss_flush. wp_steps.
  cbn [gdt gdtr set_gdt set_tss set_c_mm set_gdtr set_hw].
  destruct (tss_loaded at_tss t Hseg Hat) as (t' & Hltr & Hs' & Hr & Hr4). rewrite Hltr.
  unfold set_tr. wp_steps. apply HQ.
  constructor; cbn [gdt tss c_hw set_hw set_gdt set_gdtr set_tss r_gdtr r_tr r_cs]; try assumption; try reflexivity.
  exists (page_up (phys_mem_head (c_mm c)) + 4096). rewrite u64_small by lia.
  split; [apply tss_image_stack; lia|]. split; [lia|]. by rewrite Z.add_mod, Hpm by lia.
Qed.

(** ** From the line to the handler *)

Section boot.
Context {E : Type} {P : Ports E} {Mm : Mmio E} {L : IntDevices E}.
Context (at_gdt at_tss at_ints : Z) (isr irq : Z -> Z).
Context (Hisr : forall k, 0 <= isr k < 2 ^ 64) (Hirq : forall k, 0 <= irq k < 2 ^ 64).
Implicit Types s : ics E.

Lemma wp_on_cpu {A} (m : M cst A) (Q : A -> ics E -> Prop) s :
  wp m (fun a c => Q a (mk_ics (i_env s) (LAPIC_BASE s) (ioapic_addr s) c)) (i_cpu s) -> wp (on_cpu m) Q s.
Proof. unfold wp, on_cpu, obind. by destruct (m (i_cpu s)) as [[a c]| | |]. Qed.

Lemma page_of_msr b : Z.land b 0xFFFFF000 = lapic_page ->
  Z.land lapic_page 0xFFFFF000 = lapic_page /\ Z.land (Z.lor lapic_page IA32_APIC_BASE_MSR_ENABLE) 0xFFFFF000 = lapic_page.
Proof.
  intros <-. unfold IA32_APIC_BASE_MSR_ENABLE. rewrite Z.land_lor_distr_l, <- Z.land_assoc.
  change (Z.land 0xFFFFF000 0xFFFFF000) with 0xFFFFF000. change (Z.land 0x800 0xFFFFF000) with 0.
  by rewrite Z.lor_0_r.
Qed.

Lemma enable_apic_spec s Q :
  (forall s', kept s s' -> same_redir s s' -> LAPIC_BASE s' = lapic_page -> Q tt s') -> wp enable_apic Q s.
Proof.
  intros HQ. pose proof lapic_range. pose proof io_base_range. unfold enable_apic. wp_step.
  destruct (apic_msr (i_env s)) as (v & e1 & H1 & Hv & Hp1 & Hr1). eapply wp_on_dev; [exact H1|]. cbv beta. wp_step.
  unfold set_lapic_base. wp_step. rewrite Hv, u32_small by lia. wp_step. unfold get_lapic_id, apic_read. wp_steps.
  cbn [LAPIC_BASE]. unfold LAPIC_ID_REGISTER. rewrite (u32_small (lapic_page + 0x20)) by lia.
  assert (Hid : lapic_page <= lapic_page + 0x20 < lapic_page + 4096) by lia.
  destruct (lapic_read e1 _ Hid) as (w & e2 & H2 & Hp2 & Hr2 & _).
  eapply wp_on_dev; [exact H2|]. wp_steps. unfold is_apic_enabled. wp_step.
  destruct (apic_msr e2) as (v3 & e3 & H3 & Hv3 & Hp3 & Hr3). eapply wp_on_dev; [exact H3|]. wp_steps.
  cbn [LAPIC_BASE ioapic_addr i_cpu i_env].
  destruct (negb _).
  - wp_steps. apply HQ; [split; cbn; congruence | intros k; cbn; by rewrite Hr3, Hr2, Hr1 | done].
  - wp_steps. cbn [LAPIC_BASE]. destruct (page_of_msr v Hv) as [_ Hset].
    destruct (apic_msr_set e3 _ Hset) as (e4 & H4 & Hp4 & Hr4). eapply wp_on_dev; [exact H4|].
    apply HQ; [split; cbn; congruence | intros k; cbn; by rewrite Hr4, Hr3, Hr2, Hr1 | done].
Qed.

Lemma ioapic_mode_spec s Q :
  (forall s', ioapic_addr s' = ioapic_addr s -> i_cpu s' = i_cpu s -> same_redir s s' -> Q tt s') ->
  wp enable_ioapic_mode Q s.
Proof.
  intros HQ. unfold enable_ioapic_mode. wp_step.
  destruct (outb_pic (i_env s) 0x22 0x70) as (e1 & H1 & _ & Hr1 & _). eapply wp_on_dev; [exact H1|]. cbv beta.
  destruct (outb_pic e1 0x23 0x01) as (e2 & H2 & _ & Hr2 & _). eapply wp_on_dev; [exact H2|].
  apply HQ; [done | done | intros k; cbn; by rewrite Hr2, Hr1].
Qed.

Lemma ioapic_init_spec s Q : ioapic_addr s = io_base ->
  (forall v s', kept s s' -> same_redir s s' -> Q v s') -> wp ioapic_init Q s.
Proof.
  intros Ha HQ. unfold ioapic_init, IOAPICID, IOAPICVER. wp_step. apply read_reg_spec; [done | lia |].
  intros i s1 K1 R1 _. wp_step. apply read_reg_spec; [by rewrite (kp_io _ _ K1) | lia |].
  intros v s2 K2 R2 _. wp_step. apply HQ; [by eapply kept_after | intros k; by rewrite R2, R1].
Qed.

(** Interrupt [32 + n] runs the stub of line [n] in the kernel's code
    segment; only [attr] 0xEE lets a user program raise it. *)
Record gate_to (c : cst) (n attr : Z) : Prop := {
  gt_idtr : r_idtr (c_hw c) = Some (16 * TOTAL_INT_ENTRIES - 1, at_ints);
  gt_gate : gate_at (32 + n) (int_entries c) = (irq n, 8, attr, 0);
  gt_segment : print_gdt_entry 8 (gdt c) = (0, 0xFFFF, 0x9A, 0xA)
}.

Lemma load_zeros n o k : load n o (replicate k 0) = 0.
Proof.
  assert (H : forall l, Forall (fun b => b = 0) l -> le_val l = 0)
    by (induction 1 as [|b l -> _ IH]; cbn; [done | rewrite IH; lia]).
  apply H, Forall_slice. by apply Forall_replicate.
Qed.

(** The gate of vector [k] is present and open to user programs: an int
    instruction of a program passes it. *)
Definition user_gate (k : Z) (c : cst) : bool :=
  let '(_, _, attr, _) := gate_at k (int_entries c) in Z.land attr 0xE0 =? 0xE0.

Lemma idt_len : zlen (replicate (Z.to_nat (16 * TOTAL_INT_ENTRIES)) 0) = 16 * TOTAL_INT_ENTRIES.
Proof. rewrite length_replicate. reflexivity. Qed.

Lemma load_ints_spec (set : list Z -> list Z) c Q :
  (forall c', r_idtr (c_hw c') = Some (16 * TOTAL_INT_ENTRIES - 1, at_ints) ->
     int_entries c' = set (replicate (Z.to_nat (16 * TOTAL_INT_ENTRIES)) 0) -> gdt c' = gdt c ->
     Q tt c') -> wp (load_ints at_ints set) Q c.
Proof. intros HQ. unfold load_ints, idt_flush. wp_steps. by apply HQ. Qed.

(** The 256 gates of the bootstrap processor. *)
Lemma bsp_user_gates c k : int_entries c = set_bsp_apic_int_descriptor_table isr irq (replicate (Z.to_nat (16 * TOTAL_INT_ENTRIES)) 0) ->
  0 <= k < TOTAL_INT_ENTRIES -> user_gate k c = bool_decide (k = 51 \/ k = 128).
Proof.
  intros Hi Hk. unfold user_gate. rewrite Hi. pose proof idt_len as Hl.
  destruct (decide (k < 32)); [|destruct (decide (k < 51)); [|destruct (decide (k = 51 \/ k = 128)) as [He|He]]].
  - rewrite (bsp_exception_gate isr irq Hisr Hirq) by (try done; apply elem_of_seqZ; lia). rewrite bool_decide_false by lia. done.
  - replace k with (32 + (k - 32)) at 1 by lia.
    rewrite (bsp_irq_gate isr irq Hisr Hirq) by (try done; apply elem_of_seqZ; lia). rewrite bool_decide_false by lia. done.
  - rewrite bool_decide_true by done. replace k with (32 + (k - 32)) by lia.
    rewrite (bsp_user_gate isr irq Hisr Hirq) by (try done; rewrite !elem_of_cons; lia). done.
  - rewrite (bsp_no_gate isr irq Hisr Hirq) by (try done; lia). rewrite bool_decide_false by done.
    unfold gate_at. cbv zeta. by rewrite !load_zeros.
Qed.

(** C23 Starting the bootstrap processor (descriptor tables, APIC, I/O APIC)
    from any state of the tables and devices: afterwards interrupts are
    enabled, every line of the I/O APIC in use (all below 20 but the cascade)
    goes unmasked to its own vector of the bootstrap processor, the gate of
    that vector leads to the line's stub with the kernel's 64-bit code
    segment, which the processor's descriptor table has at selector 8, each of
    the 32 exceptions has its stub, and of all 256 vectors user programs can
    raise just 51 and 128 with an int instruction: every other gate is for the
    kernel alone or is not present. *)
Theorem bsp_interrupts_ok s id :
  zlen (gdt (i_cpu s)) = 8 * GDT_ENTRIES -> stack_room (c_mm (i_cpu s)) -> 0 <= at_tss < 2 ^ 64 ->
  ioapic_addr s = io_base -> 0 <= id < 256 ->
  returns (on_cpu (gdt_tss_init at_gdt at_tss) ;;; bsp_apic_int_init at_ints isr irq id) s tt (fun s' =>
    r_if (c_hw (i_cpu s')) = true /\
    (forall n, 0 <= n < 20 -> n <> 2 -> routed (i_env s') n id (32 + n)) /\
    (forall n, 0 <= n < 19 -> gate_to (i_cpu s') n 0x8E) /\
    (forall n, n = 19 \/ n = 96 -> gate_to (i_cpu s') n 0xEE) /\
    (forall k, 0 <= k < 32 -> gate_at k (int_entries (i_cpu s')) = (isr k, 8, 0x8E, 0)) /\
    (forall k, 0 <= k < TOTAL_INT_ENTRIES -> user_gate k (i_cpu s') = bool_decide (k = 51 \/ k = 128))).
Proof.
  intros Hg Hroom Hat Hio Hid. apply wp_returns. wp_step. apply wp_on_cpu.
  apply gdt_tss_init_spec; [done | done | done |]. intros c1 Hc1. cbv beta.
  unfold bsp_apic_int_init. wp_step. apply wp_on_cpu. unfold cli. wp_steps. apply wp_on_cpu.
  apply load_ints_spec. intros c2 Hidt Hints Hgdt. cbn [i_env LAPIC_BASE ioapic_addr]. wp_step.
  apply enable_apic_spec. intros s3 K3 R3 _. wp_step. apply ioapic_mode_spec. intros s4 Hio4 Hcpu4 R4. wp_step.
  apply ioapic_init_spec; [rewrite Hio4, (kp_io _ _ K3); done|]. intros v s5 K5 R5. wp_step.
  unfold bsp_apic_irq_remap, ioapic_route_all_irq. rewrite u8_small by done.
  apply route_lines_spec; [rewrite (kp_io _ _ K5), Hio4, (kp_io _ _ K3); done | done
    | apply (bool_decide_unpack _); by vm_compute | apply (bool_decide_unpack _); by vm_compute |].
  intros s6 K6 Hrt _. apply wp_on_cpu. unfold sti. wp_steps. cbn [i_cpu i_env c_hw set_hw r_if].
  assert (Hcpu : i_cpu s6 = c2).
  { rewrite (kp_cpu _ _ K6), (kp_cpu _ _ K5), Hcpu4. by rewrite (kp_cpu _ _ K3). }
  split; [done|]. split; [done|]. pose proof lines_range. split_and!.
  - intros n Hn Hn2. apply Hrt; [|lia].
    assert (Hall : Forall (fun m => m = 2 \/ m ∈ routed_irqs) (seqZ 0 20)) by (apply (bool_decide_unpack _); by vm_compute).
    rewrite Forall_forall in Hall. destruct (Hall n) as [?|?]; [apply elem_of_seqZ; lia | done | done].
  - intros n Hn. constructor; cbn [c_hw set_hw r_idtr int_entries gdt]; rewrite Hcpu; [done | |].
    + rewrite Hints. apply bsp_irq_gate; [exact Hisr | exact Hirq | exact idt_len |]. apply elem_of_seqZ. lia.
    + rewrite Hgdt. apply Hc1.
  - intros n Hn. constructor; cbn [c_hw set_hw r_idtr int_entries gdt]; rewrite Hcpu; [done | |].
    + rewrite Hints. apply bsp_user_gate; [exact Hisr | exact Hirq | exact idt_len |].
      rewrite !elem_of_cons. destruct Hn; auto.
    + rewrite Hgdt. apply Hc1.
  - intros k Hk. cbn [int_entries set_hw]. rewrite Hcpu, Hints.
    apply bsp_exception_gate; [exact Hisr | exact Hirq | exact idt_len |]. apply elem_of_seqZ. lia.
  - intros k Hk. apply bsp_user_gates; [|done]. cbn [int_entries set_hw]. by rewrite Hcpu, Hints.
Qed.

(** *** With the two PICs *)

Lemma wp_outb (p v : Z) (e : E) (Q : unit -> E -> Prop) :
  (forall e', pics e' = pics_accept p v (pics e) -> Q tt e') -> wp (outb p v) Q e.
Proof. intros HQ. destruct (outb_pic e p v) as (e' & He & Hp & _). unfold wp. rewrite He. by apply HQ. Qed.

Lemma remap_spec (e : E) (Q : unit -> E -> Prop) :
  (forall e', pics e' = (mk_pic Ready 0x20 0x04 0, mk_pic Ready 0x28 0x02 0) -> Q tt e') -> wp pic_irq_remap Q e.
Proof.
  intros HQ. unfold pic_irq_remap. do 9 (wp_step; apply wp_outb; intros ? ?). apply wp_outb. intros e2 He2. apply HQ.
  rewrite He2. repeat match goal with H : pics _ = _ |- _ => rewrite H; clear H end. by destruct (pics e) as [[] []].
Qed.

Lemma disable_spec (e : E) (Q : unit -> E -> Prop) :
  (forall e', pics e' = (mk_pic Ready 0x20 0x04 0xFF, mk_pic Ready 0x28 0x02 0xFF) -> Q tt e') -> wp disable_pic Q e.
Proof.
  intros HQ. unfold disable_pic, io_wait. do 19 (wp_step; apply wp_outb; intros ? ?). apply wp_outb. intros e2 He2. apply HQ.
  rewrite He2. repeat match goal with H : pics _ = _ |- _ => rewrite H; clear H end. by destruct (pics e) as [[] []].
Qed.

(** disable_pic stops every line. *)
Theorem disable_pic_ok (e : E) :
  returns disable_pic e tt (fun e' => forall n, 0 <= n < 16 -> pic_vector (pics e') n = None).
Proof.
  apply wp_returns, disable_spec. intros e' He'. split; [done|]. intros n Hn. rewrite He'.
  assert (Hall : Forall (fun n => pic_vector (mk_pic Ready 0x20 0x04 0xFF, mk_pic Ready 0x28 0x02 0xFF) n = None) (seqZ 0 16))
    by (apply (bool_decide_unpack _); by vm_compute).
  rewrite Forall_forall in Hall. apply Hall, elem_of_seqZ. lia.
Qed.

(** Starting with the two PICs, whatever they were doing: each line but the
    cascade gets through to vector 32 + n, whose gate leads to the stub of
    that line, with interrupts enabled. *)
Theorem pic_interrupts_ok s n : 0 <= n < 16 -> n <> 2 ->
  returns (pic_int_init at_ints isr irq) s tt (fun s' =>
    r_if (c_hw (i_cpu s')) = true /\ pic_vector (pics (i_env s')) n = Some (32 + n) /\
    r_idtr (c_hw (i_cpu s')) = Some (16 * TOTAL_INT_ENTRIES - 1, at_ints) /\
    gate_at (32 + n) (int_entries (i_cpu s')) = (irq n, 8, 0x8E, 0)).
Proof.
  intros Hn Hn2. apply wp_returns. unfold pic_int_init. wp_step. apply wp_on_cpu. unfold cli. wp_steps. apply wp_on_cpu.
  apply load_ints_spec. intros c2 Hidt Hints Hgdt. cbn [i_env LAPIC_BASE ioapic_addr]. wp_step.
  apply wp_dev. unfold enable_pic, io_wait. do 3 (wp_step; apply wp_outb; intros ? _). apply wp_outb. intros e1 _.
  cbn [i_env LAPIC_BASE ioapic_addr i_cpu]. wp_step. apply wp_dev. apply remap_spec. intros e2 He2. apply wp_on_cpu.
  unfold sti. wp_steps. cbn [i_cpu i_env c_hw set_hw r_if r_idtr int_entries]. split; [done|]. split; [done|]. rewrite He2, Hints.
  split; [|split; [done | apply pic_gates; [exact Hisr | exact Hirq | exact idt_len | done | done]]].
  assert (Hall : Forall (fun n => pic_vector (mk_pic Ready 0x20 0x04 0, mk_pic Ready 0x28 0x02 0) n = Some (32 + n)) (seqZ 0 16))
    by (apply (bool_decide_unpack _); by vm_compute).
  rewrite Forall_forall in Hall. apply Hall, elem_of_seqZ. lia.
Qed.
End boot.

(** *** Failures *)

(** Without memory for the stack the task register is loaded from a
    descriptor that was never written. *)
Theorem tss_init_failure at_gdt at_tss c : zlen (gdt c) = 8 * GDT_ENTRIES -> Forall (fun b => b = 0) (gdt c) ->
  USABLE_END_PHYS_MEM (c_mm c) <= phys_mem_head (c_mm c) -> gdt_tss_init at_gdt at_tss c = Undef.
Proof.
  unfold GDT_ENTRIES. intros Hl Hz Hm. unfold gdt_tss_init, tss_init, bind at 1, obind, modify.
  unfold bind at 1 2, obind, on_mm, kmalloc_a, bind at 1, obind, get. cbn [c_mm set_gdt].
  rewrite (proj2 (Z.leb_le _ _)) by done. cbn.
  assert (Hg : gdt c = replicate 56 0).
  { apply list_eq_same_length with 56%nat; [try done; lia | try done; lia |]. intros i x y Hi Hx Hy.
    rewrite Forall_lookup in Hz. rewrite (Hz _ _ Hx). apply lookup_replicate in Hy as [-> _]. done. }
  rewrite Hg. vm_compute. reflexivity.
Qed.

(** A further processor is left with a descriptor table in the dead frame of
    the routine that set it up; the structure of the core gets nothing. *)
Theorem init_gdt_tss_in_cpu_loses at_temp_gdt at_temp_tss cpu c c' :
  init_gdt_tss_in_cpu at_temp_gdt at_temp_tss cpu c = Ret (tt, c') -> cpu < MAX_CPUS ->
  cpu_datas c' = cpu_datas c /\ r_gdtr (c_hw c') = Some (55, at_temp_gdt).
Proof.
  intros Hi Hc. unfold init_gdt_tss_in_cpu in Hi. rewrite (proj2 (Z.leb_gt _ _)) in Hi by done.
  unfold bind at 1, obind in Hi. destruct (set_tss_stack cpu c) as [[[] c1]| | |] eqn:Hs; try done.
  assert (H1 : cpu_datas c1 = cpu_datas c).
  { unfold set_tss_stack, bind, obind, gets, on_mm in Hs. destruct (cpu_datas c !! _); [|done].
    destruct (kmalloc_a _ _ _) as [[v m]| | |]; try done. unfold obind, ret in Hs. simplify_eq. done. }
  unfold bind at 1, obind, gets in Hi. destruct (cpu_datas c1 !! _) as [temp|]; [|done]. cbv zeta in Hi.
  unfold bind at 1, obind, gdt_flush, modify in Hi. destruct (ltr_table _ _) as [t|]; [|done].
  unfold set_tr, modify in Hi. injection Hi as <-. split; [exact H1 | reflexivity].
Qed.

(** A machine with both kinds of controllers. *)
Module SmallInts.
Record dev := mk_dev { d_pics : pic8259 * pic8259; d_regs : gmap Z Z; d_sel : Z }.
Definition io0 : Z := 0xFEC00000.
Definition lapic0 : Z := 0xFEE00000.
Definition reg_of (e : dev) (k : Z) : Z := u32 (default 0 (d_regs e !! k)).
Definition window_value (e : dev) (v : Z) : Z :=
  let k := d_sel e - 16 in
  if Z.even k then Z.lor (Z.land v 0xFFFFAFFF) (Z.land (reg_of e k) 0x5000) else v.

#[global] Instance dev_ports : Ports dev := {
  inb _ e := Ret (0, e); outb p v e := Ret (tt, mk_dev (pics_accept p v (d_pics e)) (d_regs e) (d_sel e));
  inl_port _ e := Ret (0, e); outl _ _ e := Ret (tt, e)
}.
#[global] Instance dev_mmio : Mmio dev := {
  mmio_read a e := Ret (if a =? io0 + 16 then reg_of e (d_sel e - 16) else 0, e);
  mmio_write a v e :=
    if a =? io0 then Ret (tt, mk_dev (d_pics e) (d_regs e) (Z.land v 0xFF))
    else if a =? io0 + 16 then Ret (tt, mk_dev (d_pics e) (<[d_sel e - 16 := window_value e v]> (d_regs e)) (d_sel e))
    else Ret (tt, e);
  rdmsr _ e := Ret (lapic0, e);
  wrmsr _ _ e := Ret (tt, e)
}.

Lemma window_value_range e v : 0 <= v < 2 ^ 32 -> u32 (window_value e v) = window_value e v.
Proof.
  intros Hv. apply u32_small. unfold window_value. cbv zeta. destruct (Z.even _); [|done].
  apply (lor_range _ _ 32); [lia | apply land_range_r; lia |].
  pose proof (land_range_r (reg_of e (d_sel e - 16)) 0x5000 32 ltac:(lia) ltac:(lia)). lia.
Qed.

#[global] Program Instance dev_ints : IntDevices dev := {
  pics := d_pics; redir := reg_of; selected := d_sel; io_base := io0; lines := 24; lapic_page := lapic0
}.
Next Obligation. lia. Qed.
Next Obligation. unfold io0. lia. Qed.
Next Obligation. unfold lapic0, io0. lia. Qed.
Next Obligation. intros. apply u32_range. Qed.
Next Obligation. intros e p v. by eexists. Qed.
Next Obligation. intros e v. by eexists. Qed.
Next Obligation.
  intros e. eexists _, e. split; [done|]. repeat split; try done; apply u32_range.
Qed.
Next Obligation.
  intros e v Hv. eexists. split; [done|]. split; [done|]. split; [done|]. intros k Hk.
  unfold reg_of at 1. cbn [d_regs]. destruct (Z.eqb_spec k (d_sel e - 16)) as [->|Hne].
  - rewrite lookup_insert_eq. cbn [default from_option id]. by apply window_value_range.
  - by rewrite lookup_insert_ne by done.
Qed.
Next Obligation. intros e a Ha. eexists _, e. split; [done|]. repeat split; try done; case_if; try lia; apply u32_range. Qed.
Next Obligation.
  intros e a v Ha. unfold lapic0 in Ha. exists e. split; [|done]. cbn. unfold io0.
  destruct (Z.eqb_spec a 0xFEC00000), (Z.eqb_spec a (0xFEC00000 + 16)); try lia. done.
Qed.
Next Obligation. intros e. eexists _, e. split; [done|]. by repeat split. Qed.
Next Obligation. intros e v _. exists e. by repeat split. Qed.

Definition mm0 : mm := mk_mm ∅ 0 0 0x100000 0x100000 0x8000000 0x7F00000 0x8000000 0 0 0 0.
Definition hw0 : hw := mk_hw None None None None false.
Definition cpu0 : cst := mk_cst mm0 (replicate 56 0) (0, 0) [] [] (0, 0) [] [] [] hw0.
Definition s0 : ics dev := mk_ics (mk_dev (mk_pic Icw3 7 7 7, mk_pic Ready 8 8 8) ∅ 0) 0 io0 cpu0.
Definition stub (k : Z) : Z := 0xFFFFFFFF80000000 + 64 * (k mod 256).

Lemma stub_range k : 0 <= stub k < 2 ^ 64.
Proof. unfold stub. pose proof (Z.mod_pos_bound k 256 ltac:(lia)). lia. Qed.

(** The keyboard: line 1. *)
Lemma bsp_interrupts_ok_witness :
  returns (on_cpu (gdt_tss_init 0x1000 0x2000) ;;; bsp_apic_int_init 0x3000 stub stub 3) s0 tt (fun s' =>
    routed (i_env s') 1 3 33 /\ gate_to 0x3000 stub (i_cpu s') 1 0x8E /\ user_gate 14 (i_cpu s') = false).
Proof.
  destruct (bsp_interrupts_ok 0x1000 0x2000 0x3000 stub stub stub_range stub_range s0 3) as (s' & Hs & _ & Hr & Hg & _ & _ & Hu);
    [done | unfold stack_room; cbn; lia | lia | done | lia |].
  exists s'. split; [exact Hs|]. split_and!; [apply Hr; lia | apply Hg; lia |]. rewrite Hu by (unfold TOTAL_INT_ENTRIES; lia). reflexivity.
Defined.

Lemma pic_interrupts_ok_witness :
  returns (pic_int_init 0x3000 stub stub) s0 tt (fun s' => pic_vector (pics (i_env s')) 12 = Some 44).
Proof.
  destruct (pic_interrupts_ok 0x3000 stub stub stub_range stub_range s0 12) as (s' & Hs & _ & Hr & _); [lia | lia |].
  exists s'. split; [exact Hs | exact Hr].
Defined.
End SmallInts.
