(* ===== verification/Mouse.v ===== *)
(** The PS/2 mouse (kernel/src/driver/mouse/mouse.c): packets of three bytes,
    the position and the buttons, and the cursor with what lies under it.

    [mouse] holds the globals of the file beside the ports and the frame
    buffer.  The waiting loops give up after 100000 rounds. *)
From S2P Require Import Prelude CString CStdlib Stdio Ports Vga Irq Pmm Descriptors Intc.

Definition CURSOR_WIDTH : Z := 12.
Definition CURSOR_HEIGHT : Z := 12.
Definition CURSOR_COLOR : Z := 0xFFFF0000.
Definition CURSOR_BG_COLOR : Z := 0xFF000000.
Definition MOUSE_IRQ : Z := 12.
Definition MOUSE_VECTOR : Z := 44.
Definition MOUSE_CMD_PORT : Z := 0x64.
Definition MOUSE_DATA_PORT : Z := 0x60.
Definition MOUSE_TIMEOUT : Z := 100000.

Record mouse (E : Type) := mk_mouse {
  m_env : E; m_fb : fbuf; mouse_x : Z; mouse_y : Z;
  mouse_left_pressed : bool; mouse_right_pressed : bool; mouse_middle_pressed : bool;
  mouse_cycle : Z; mouse_bytes : list Z; mouse_initialized : bool; cursor_background : list Z
}.
Arguments mk_mouse {E}.
Arguments m_env {E}.
Arguments m_fb {E}.
Arguments mouse_x {E}.
Arguments mouse_y {E}.
Arguments mouse_left_pressed {E}.
Arguments mouse_right_pressed {E}.
Arguments mouse_middle_pressed {E}.
Arguments mouse_cycle {E}.
Arguments mouse_bytes {E}.
Arguments mouse_initialized {E}.
Arguments cursor_background {E}.

Section mouse.
Context {E : Type} `{Ports E}.
Abbreviation st := (mouse E).

Definition on_mport {A} (k : M E A) : M st A := fun s =>
  obind (k (m_env s)) (fun '(a, e) =>
    Ret (a, mk_mouse e (m_fb s) (mouse_x s) (mouse_y s) (mouse_left_pressed s) (mouse_right_pressed s)
              (mouse_middle_pressed s) (mouse_cycle s) (mouse_bytes s) (mouse_initialized s) (cursor_background s))).
Definition on_fb {A} (k : M fbuf A) : M st A := fun s =>
  obind (k (m_fb s)) (fun '(a, f) =>
    Ret (a, mk_mouse (m_env s) f (mouse_x s) (mouse_y s) (mouse_left_pressed s) (mouse_right_pressed s)
              (mouse_middle_pressed s) (mouse_cycle s) (mouse_bytes s) (mouse_initialized s) (cursor_background s))).

Definition set_pos (x y : Z) : M st unit := modify (fun s =>
  mk_mouse (m_env s) (m_fb s) x y (mouse_left_pressed s) (mouse_right_pressed s)
    (mouse_middle_pressed s) (mouse_cycle s) (mouse_bytes s) (mouse_initialized s) (cursor_background s)).
Definition set_buttons (l r m : bool) : M st unit := modify (fun s =>
  mk_mouse (m_env s) (m_fb s) (mouse_x s) (mouse_y s) l r m
    (mouse_cycle s) (mouse_bytes s) (mouse_initialized s) (cursor_background s)).
(** [mouse_bytes[i] = data] and the new cycle. *)
Definition set_byte (i : nat) (data cycle : Z) : M st unit := modify (fun s =>
  mk_mouse (m_env s) (m_fb s) (mouse_x s) (mouse_y s) (mouse_left_pressed s) (mouse_right_pressed s)
    (mouse_middle_pressed s) cycle (<[i := data]> (mouse_bytes s)) (mouse_initialized s) (cursor_background s)).
Definition set_background (i color : Z) : M st unit := modify (fun s =>
  mk_mouse (m_env s) (m_fb s) (mouse_x s) (mouse_y s) (mouse_left_pressed s) (mouse_right_pressed s)
    (mouse_middle_pressed s) (mouse_cycle s) (mouse_bytes s) (mouse_initialized s)
    (<[Z.to_nat i := u32 color]> (cursor_background s))).
Definition set_initialized : M st unit := modify (fun s =>
  mk_mouse (m_env s) (m_fb s) (mouse_x s) (mouse_y s) (mouse_left_pressed s) (mouse_right_pressed s)
    (mouse_middle_pressed s) (mouse_cycle s) (mouse_bytes s) true (cursor_background s)).

Definition byte_of (i : nat) : M st Z :=
  let! l := gets mouse_bytes in match l !! i with Some b => ret b | None => undef end.

(** The sizes of the screen are converted to int. *)
Definition in_frame (px py : Z) : M st bool :=
  gets (fun s => (0 <=? px) && (px <? s32 (fb0_width (m_fb s))) && (0 <=? py) && (py <? s32 (fb0_height (m_fb s)))).

(** The loops over the square of the cursor. *)
Definition each_cell (x y : Z) (body : Z -> Z -> Z -> M st unit) : M st unit :=
  repeat_n CURSOR_HEIGHT (fun i =>
    repeat_n CURSOR_WIDTH (fun j =>
      let! px := int_op (x + j) in
      let! py := int_op (y + i) in
      body px py (i * CURSOR_WIDTH + j))).

Definition save_cursor_background (x y : Z) : M st unit :=
  each_cell x y (fun px py k =>
    let! inside := in_frame px py in
    if inside then let! c := on_fb (get_pixel px py) in set_background k c
    else set_background k CURSOR_BG_COLOR).

Definition restore_cursor_background (x y : Z) : M st unit :=
  each_cell x y (fun px py k =>
    let! inside := in_frame px py in
    if inside then
      let! l := gets cursor_background in
      match l !! Z.to_nat k with
      | Some c => on_fb (set_pixel px py c)
      | None => undef
      end
    else ret tt).

(** [kind] 0 waits for a byte to read, 1 for bit 1 of the status to be set. *)
Definition mouse_wait (kind : Z) : M st unit :=
  iter_fuel (Z.to_nat MOUSE_TIMEOUT) (fun timeout =>
    let timeout := timeout - 1 in
    if timeout =? 0 then ret (inr tt) else
    let! v := on_mport (inb MOUSE_CMD_PORT) in
    if Z.land v (if kind =? 0 then 1 else 2) =? 0 then ret (inl timeout) else ret (inr tt)) MOUSE_TIMEOUT.

Definition mouse_write (data : Z) : M st unit :=
  mouse_wait 1 ;;; on_mport (outb MOUSE_CMD_PORT 0xD4) ;;;
  mouse_wait 1 ;;; on_mport (outb MOUSE_DATA_PORT data).

Definition mouse_read : M st Z := mouse_wait 0 ;;; on_mport (inb MOUSE_DATA_PORT).

Definition draw_mouse_cursor (x y color : Z) : M st unit :=
  save_cursor_background x y ;;;
  each_cell x y (fun px py _ =>
    let! inside := in_frame px py in
    if inside then on_fb (set_pixel px py color) else ret tt).

Definition erase_mouse_cursor (old_x old_y : Z) : M st unit := restore_cursor_background old_x old_y.

(** The buttons, from the first byte of the packet. *)
Definition update_buttons : M st unit :=
  let! b := byte_of 0 in
  set_buttons (negb (Z.land b 0x01 =? 0)) (negb (Z.land b 0x02 =? 0)) (negb (Z.land b 0x04 =? 0)).

(** A movement of nine bits, the sign in the first byte. *)
Definition sign_extend (sign : bool) (b : Z) : Z := s32 (if sign then Z.lor b 0xFFFFFF00 else b).

Definition mouse_handler : M st unit :=
  let! old_x := gets mouse_x in
  let! old_y := gets mouse_y in
  let! data := mouse_read in
  let! cycle := gets mouse_cycle in
  if cycle =? 0 then
    if Z.land data 0x08 =? 0 then ret tt else
    set_byte 0 data 1 ;;; update_buttons
  else if cycle =? 1 then set_byte 1 data 2 ;;; update_buttons
  else if cycle =? 2 then
    set_byte 2 data 0 ;;;
    let! status := byte_of 0 in
    let! b1 := byte_of 1 in
    let! b2 := byte_of 2 in
    let dx := sign_extend (negb (Z.land status 0x10 =? 0)) b1 in
    let dy := sign_extend (negb (Z.land status 0x20 =? 0)) b2 in
    if negb (Z.land status 0x40 =? 0) || negb (Z.land status 0x80 =? 0) then ret tt else
    erase_mouse_cursor old_x old_y ;;;
    let! mx := gets mouse_x in let! x := int_op (mx + dx) in
    let! my := gets mouse_y in let! y := int_op (my - dy) in
    let x := if x <? 0 then 0 else x in
    let y := if y <? 0 then 0 else y in
    let! w := gets (fun s => s32 (fb0_width (m_fb s)) - CURSOR_WIDTH) in
    let! h := gets (fun s => s32 (fb0_height (m_fb s)) - CURSOR_HEIGHT) in
    let x := if w <=? x then w else x in
    let y := if h <=? y then h else y in
    set_pos x y ;;;
    draw_mouse_cursor x y CURSOR_COLOR ;;;
    update_buttons
  else update_buttons.

Definition mouseHandler (apic_send_eoi : M E unit) : M st unit := mouse_handler ;;; on_mport apic_send_eoi.

Definition mouse_install (enable_mouse : M st unit) : M st unit :=
  mouse_wait 1 ;;; on_mport (outb MOUSE_CMD_PORT 0xA8) ;;;
  mouse_wait 1 ;;; on_mport (outb MOUSE_CMD_PORT 0x20) ;;;
  mouse_wait 0 ;;;
  let! v := mouse_read in
  let status := Z.lor v 2 in
  mouse_wait 1 ;;; on_mport (outb MOUSE_CMD_PORT 0x60) ;;;
  mouse_wait 1 ;;; on_mport (outb MOUSE_DATA_PORT status) ;;;
  mouse_write 0xF6 ;;; mouse_read ;;;
  mouse_write 0xF4 ;;; mouse_read ;;;
  enable_mouse ;;;
  set_initialized.

Definition get_mouse_x : M st Z := gets mouse_x.
Definition get_mouse_y : M st Z := gets mouse_y.
Definition is_left_button_pressed : M st bool := gets mouse_left_pressed.
Definition is_right_button_pressed : M st bool := gets mouse_right_pressed.
Definition is_middle_button_pressed : M st bool := gets mouse_middle_pressed.

Definition mouse_in_rect (x y width height : Z) : M st bool :=
  let! mx := get_mouse_x in
  let! my := get_mouse_y in
  if mx <? x then ret false else
  let! r := int_op (x + width) in
  if (r <? mx) || (my <? y) then ret false else
  let! b := int_op (y + height) in
  ret (my <=? b).
End mouse.

(** The table of handlers: the vector is taken for a line on the way out. *)
Definition enable_mouse {S Hd} (h : Hd) : M (irq_state S Hd) unit := irq_install MOUSE_IRQ h.
Definition disable_mouse {S Hd} : M (irq_state S Hd) unit := irq_uninstall MOUSE_VECTOR.

(** The first steps of mouse_init: the line is routed to processor 0. *)
Definition mouse_route {E} `{Ports E} `{Mmio E} : M (ics E) unit :=
  on_cpu cli ;;; ioapic_route_irq MOUSE_IRQ 0 MOUSE_VECTOR 0.
