(* ===== verification/MouseProps.v ===== *)
(** The mouse against a reference: packets of three bytes move a position on
    the screen, and the cursor is shown there over an unchanged picture. *)
From S2P Require Import Prelude CString CStdlib Stdio Ports Vga VgaProps Mouse.

(** ** What a user sees *)

(** [pend] are the bytes of the packet so far, [first] the last first byte,
    [shown] whether the cursor has been drawn. *)
Record pointer := mk_pointer { at_x : Z; at_y : Z; pend : list Z; first : Z; shown : bool }.

Definition delta (sign : bool) (b : Z) : Z := if sign then b - 256 else b.
Definition clamp (hi z : Z) : Z := Z.max 0 (Z.min hi z).

(** A byte without bit 3 does not start a packet; a packet with an overflow
    bit is dropped. *)
Definition receive (W H : Z) (p : pointer) (b : Z) : pointer :=
  match pend p with
  | [] => if Z.testbit b 3 then mk_pointer (at_x p) (at_y p) [b] b (shown p) else p
  | [b0] => mk_pointer (at_x p) (at_y p) [b0; b] (first p) (shown p)
  | b0 :: b1 :: _ =>
      if Z.testbit b0 6 || Z.testbit b0 7 then mk_pointer (at_x p) (at_y p) [] (first p) (shown p)
      else mk_pointer (clamp (W - 12) (at_x p + delta (Z.testbit b0 4) b1))
             (clamp (H - 12) (at_y p - delta (Z.testbit b0 5) b)) [] (first p) true
  end.

(** ** The code *)

(** A controller to which a byte of the mouse has come ([offer]). *)
Class MousePort (E : Type) {P : Ports E} := {
  waiting : E -> option Z;
  offer : Z -> E -> E;
  mouse_eoi : M E unit;
  offer_waiting : forall b e, waiting (offer b e) = Some b;
  status_read : forall e, exists v e', inb MOUSE_CMD_PORT e = Ret (v, e') /\ waiting e' = waiting e;
  data_read : forall e b, waiting e = Some b -> exists e', inb MOUSE_DATA_PORT e = Ret (b, e');
  eoi_total : forall e, exists e', mouse_eoi e = Ret (tt, e')
}.

Lemma wp_get_pixel x y f (Q : Z -> fbuf -> Prop) : screen_ok f -> on_screen_at f x y = true ->
  Q (pixel f x y) f -> wp (get_pixel x y) Q f.
Proof.
  intros Hok Hon HQ. pose proof (cell_range f x y Hok Hon) as [Hr _].
  pose proof (stride_width f Hok) as [Hs Hw]. pose proof (so_size _ Hok). pose proof (so_width _ Hok).
  unfold get_pixel, off_screen, on_screen_at in *. bool_to_prop. wp_steps.
  destruct (Z.ltb_spec x 0), (Z.leb_spec (fb0_width f) x), (Z.ltb_spec y 0), (Z.leb_spec (fb0_height f) y); try lia.
  cbn [orb]. unfold pixel_index. wp_steps. apply wp_int_op; [unfold INT_MIN, INT_MAX; lia|].
  replace (u64 (y * fb0_pitch f) + x * 4) with ((y * stride f + x) * 4).
  2:{ unfold u64. rewrite Z.mod_small by nia. lia. }
  rewrite Z.mod_mul, Z.div_mul by lia. wp_steps. by apply wp_ld_pix.
Qed.

Lemma pixel_u32 f x y : screen_ok f -> on_screen_at f x y = true -> u32 (pixel f x y) = pixel f x y.
Proof.
  intros Hok Hon. pose proof (cell_range f x y Hok Hon) as [Hr _].
  destruct (cells_mapped f _ Hok Hr) as [_ (v & Hv & Hu)]. unfold pixel. rewrite Hv. exact Hu.
Qed.

(** The square of the cursor at [(x, y)] and the number of a cell in it. *)
Definition in_square (x y u v : Z) : bool := (x <=? u) && (u <? x + 12) && (y <=? v) && (v <? y + 12).
Definition cell (x y u v : Z) : Z := 12 * (v - y) + (u - x).
Definition on_frame (f : fbuf) (x y : Z) : Prop :=
  0 <= x /\ x + 12 <= fb0_width f /\ 0 <= y /\ y + 12 <= fb0_height f.

(** [g] is [f] with the first [k] cells of the square in the colours [col]. *)
Record filled (f g : fbuf) (x y : Z) (col : Z -> Z) (k : Z) : Prop := {
  fl_ok : screen_ok g;
  fl_shape : same_shape f g;
  fl_pixel : forall u v, on_screen_at f u v = true ->
    pixel g u v = if in_square x y u v && (cell x y u v <? k) then u32 (col (cell x y u v)) else pixel f u v
}.

Lemma filled_0 f x y col : screen_ok f -> filled f f x y col 0.
Proof.
  intros Hok. split; [done | by repeat split |]. intros u v Hon. unfold in_square, cell.
  destruct (Z.leb_spec x u), (Z.ltb_spec u (x + 12)), (Z.leb_spec y v), (Z.ltb_spec v (y + 12)),
    (Z.ltb_spec (12 * (v - y) + (u - x)) 0); cbn; try done; lia.
Qed.

Lemma filled_step f g x y col i j : filled f g x y col (12 * i + j) -> 0 <= i < 12 -> 0 <= j < 12 ->
  on_screen_at f (x + j) (y + i) = true -> filled f (plot (col (12 * i + j)) (x + j, y + i) g) x y col (12 * i + j + 1).
Proof.
  intros [Hok Hsh Hp] Hi Hj Hon. split; [by apply plot_ok | eapply shape_trans; [done | apply plot_shape]|].
  intros u v Huv. rewrite pixel_plot by (done || by rewrite (shape_screen f g)). rewrite Hp by done.
  unfold in_square, cell. case_bool_decide as Heq.
  - injection Heq as <- <-. destruct (Z.leb_spec x (x + j)), (Z.ltb_spec (x + j) (x + 12)), (Z.leb_spec y (y + i)),
      (Z.ltb_spec (y + i) (y + 12)), (Z.ltb_spec (12 * (y + i - y) + (x + j - x)) (12 * i + j + 1)); try lia.
    cbn. do 2 f_equal. lia.
  - destruct (Z.leb_spec x u), (Z.ltb_spec u (x + 12)), (Z.leb_spec y v), (Z.ltb_spec v (y + 12)); cbn; try done.
    destruct (Z.ltb_spec (12 * (v - y) + (u - x)) (12 * i + j)),
      (Z.ltb_spec (12 * (v - y) + (u - x)) (12 * i + j + 1)); try done; [lia|].
    exfalso. apply Heq. f_equal; lia.
Qed.

Lemma frame_screen f x y i j : on_frame f x y -> 0 <= i < 12 -> 0 <= j < 12 -> on_screen_at f (x + j) (y + i) = true.
Proof.
  intros (? & ? & ? & ?) Hi Hj. unfold on_screen_at.
  by rewrite !(proj2 (Z.leb_le _ _)), !(proj2 (Z.ltb_lt _ _)) by lia.
Qed.

Section mouse_specs.
Context {E : Type} {PE : Ports E} {MP : MousePort E}.
Abbreviation st := (mouse E).
Implicit Types s : st.

Definition with_fb (f : fbuf) s : st :=
  mk_mouse (m_env s) f (mouse_x s) (mouse_y s) (mouse_left_pressed s) (mouse_right_pressed s)
    (mouse_middle_pressed s) (mouse_cycle s) (mouse_bytes s) (mouse_initialized s) (cursor_background s).
Definition with_bg (l : list Z) s : st :=
  mk_mouse (m_env s) (m_fb s) (mouse_x s) (mouse_y s) (mouse_left_pressed s) (mouse_right_pressed s)
    (mouse_middle_pressed s) (mouse_cycle s) (mouse_bytes s) (mouse_initialized s) l.
Definition with_menv (e : E) s : st :=
  mk_mouse e (m_fb s) (mouse_x s) (mouse_y s) (mouse_left_pressed s) (mouse_right_pressed s)
    (mouse_middle_pressed s) (mouse_cycle s) (mouse_bytes s) (mouse_initialized s) (cursor_background s).

Lemma wp_mouse_fb {A} (m : M fbuf A) (Q : A -> st -> Prop) s :
  wp m (fun a f => Q a (with_fb f s)) (m_fb s) -> wp (on_fb m) Q s.
Proof. unfold wp, on_fb, obind. by destruct (m (m_fb s)) as [[a f]| | |]. Qed.
Lemma wp_on_mport {A} (m : M E A) (Q : A -> st -> Prop) s :
  wp m (fun a e => Q a (with_menv e s)) (m_env s) -> wp (on_mport m) Q s.
Proof. unfold wp, on_mport, obind. by destruct (m (m_env s)) as [[a f]| | |]. Qed.

(** The loops over the square, cell by cell. *)
Lemma each_cell_spec (I : Z -> st -> Prop) x y body (Q : unit -> st -> Prop) s :
  INT_MIN <= x -> x + 12 <= INT_MAX -> INT_MIN <= y -> y + 12 <= INT_MAX ->
  (forall i j s, 0 <= i < 12 -> 0 <= j < 12 -> I (12 * i + j) s ->
     wp (body (x + j) (y + i) (12 * i + j)) (fun _ s' => I (12 * i + j + 1) s') s) ->
  I 0 s -> (forall s', I 144 s' -> Q tt s') -> wp (each_cell x y body) Q s.
Proof.
  intros Hx Hx' Hy Hy' Hb HI HQ. unfold each_cell, CURSOR_HEIGHT, CURSOR_WIDTH.
  apply (wp_repeat_n (fun i s => I (12 * i) s)); [lia | done | |done].
  intros i s1 Hi HI1. apply (wp_repeat_n (fun j s => I (12 * i + j) s)); [lia | by rewrite Z.add_0_r | |].
  - intros j s2 Hj HI2. wp_step. apply wp_int_op; [lia|]. wp_step. apply wp_int_op; [lia|].
    replace (i * 12 + j) with (12 * i + j) by lia. eapply wp_mono; [by apply Hb|]. cbv beta.
    intros _ s3 H3. by rewrite Z.add_assoc.
  - intros s2 HI2. by replace (12 * (i + 1)) with (12 * i + 12) by lia.
Qed.

Lemma in_frame_spec px py s (Q : bool -> st -> Prop) : screen_ok (m_fb s) -> on_screen_at (m_fb s) px py = true ->
  Q true s -> wp (in_frame px py) Q s.
Proof.
  intros Hok Hon HQ. unfold in_frame. wp_step. pose proof (so_width _ Hok). pose proof (so_height _ Hok).
  rewrite !s32_small by lia. unfold on_screen_at in Hon. by rewrite Hon.
Qed.

Lemma frame_int f x y : screen_ok f -> on_frame f x y ->
  INT_MIN <= x /\ x + 12 <= INT_MAX /\ INT_MIN <= y /\ y + 12 <= INT_MAX.
Proof.
  intros Hok (? & ? & ? & ?). pose proof (so_width _ Hok). pose proof (so_height _ Hok). unfold INT_MIN, INT_MAX. lia.
Qed.

(** Filling the square. *)
Lemma fill_spec (col : Z -> Z) body x y s (Q : unit -> st -> Prop) :
  screen_ok (m_fb s) -> on_frame (m_fb s) x y ->
  (forall px py k g (R : unit -> st -> Prop), 0 <= k < 144 -> screen_ok g -> same_shape (m_fb s) g ->
     on_screen_at g px py = true -> R tt (with_fb (plot (col k) (px, py) g) s) -> wp (body px py k) R (with_fb g s)) ->
  (forall g, filled (m_fb s) g x y col 144 -> Q tt (with_fb g s)) -> wp (each_cell x y body) Q s.
Proof.
  intros Hok Hfr Hb HQ. destruct (frame_int _ _ _ Hok Hfr) as (? & ? & ? & ?).
  apply (each_cell_spec (fun k s' => exists g, s' = with_fb g s /\ filled (m_fb s) g x y col k)); try done.
  - intros i j s1 Hi Hj (g & -> & Hg). pose proof (frame_screen _ _ _ _ _ Hfr Hi Hj) as Hon.
    apply Hb; [lia | apply Hg | apply Hg | by rewrite (shape_screen (m_fb s) g) by apply Hg |].
    eexists. split; [done|]. by apply filled_step.
  - exists (m_fb s). split; [by destruct s | by apply filled_0].
  - intros s' (g & -> & Hg). by apply HQ.
Qed.

Lemma restore_spec x y s (Q : unit -> st -> Prop) :
  screen_ok (m_fb s) -> on_frame (m_fb s) x y -> zlen (cursor_background s) = 144 ->
  (forall g, filled (m_fb s) g x y (fun k => default 0 (cursor_background s !! Z.to_nat k)) 144 -> Q tt (with_fb g s)) ->
  wp (restore_cursor_background x y) Q s.
Proof.
  intros Hok Hfr Hl HQ. unfold restore_cursor_background. eapply fill_spec; [done | done | | exact HQ].
  intros px py k g R Hk Hg Hsh Hon HR. wp_step. apply in_frame_spec; [done | done |]. cbv iota. wp_steps.
  cbn [cursor_background with_fb] in *. destruct (lookup_lt_is_Some_2 (cursor_background s) (Z.to_nat k)) as [c Hc]; [lia|].
  rewrite Hc in *. apply wp_mouse_fb. apply wp_set_pixel; done.
Qed.

Lemma draw_square_spec x y c s (Q : unit -> st -> Prop) :
  screen_ok (m_fb s) -> on_frame (m_fb s) x y ->
  (forall g, filled (m_fb s) g x y (fun _ => c) 144 -> Q tt (with_fb g s)) ->
  wp (each_cell x y (fun px py _ =>
    let! inside := in_frame px py in if inside then on_fb (set_pixel px py c) else ret tt)) Q s.
Proof.
  intros Hok Hfr HQ. eapply fill_spec; [done | done | | exact HQ].
  intros px py k g R Hk Hg Hsh Hon HR. wp_step. apply in_frame_spec; [done | done |]. cbv iota.
  apply wp_mouse_fb. apply wp_set_pixel; done.
Qed.

(** The first [k] cells of the square are saved. *)
Definition saved (f : fbuf) (x y k : Z) (l : list Z) : Prop :=
  zlen l = 144 /\ forall u v, on_screen_at f u v = true -> in_square x y u v = true -> cell x y u v < k ->
    l !! Z.to_nat (cell x y u v) = Some (pixel f u v).

Lemma save_spec x y s (Q : unit -> st -> Prop) :
  screen_ok (m_fb s) -> on_frame (m_fb s) x y -> zlen (cursor_background s) = 144 ->
  (forall l, saved (m_fb s) x y 144 l -> Q tt (with_bg l s)) -> wp (save_cursor_background x y) Q s.
Proof.
  intros Hok Hfr Hl HQ. destruct (frame_int _ _ _ Hok Hfr) as (? & ? & ? & ?). unfold save_cursor_background.
  apply (each_cell_spec (fun k s' => exists l, s' = with_bg l s /\ saved (m_fb s) x y k l)); try done.
  - intros i j s1 Hi Hj (l & -> & Hln & Hs). pose proof (frame_screen _ _ _ _ _ Hfr Hi Hj) as Hon.
    wp_step. apply in_frame_spec; [done | done |]. cbv iota. wp_step. apply wp_mouse_fb. apply wp_get_pixel; [done | done |].
    unfold set_background. wp_step. eexists. split; [done|]. split; [by rewrite length_insert|].
    intros u v Huv Hsq Hk. rewrite pixel_u32 by done. cbn [cursor_background with_bg with_fb].
    unfold in_square in Hsq. bool_to_prop. unfold cell in *.
    destruct (decide (u = x + j /\ v = y + i)) as [[-> ->]|Hne].
    + replace (12 * (y + i - y) + (x + j - x)) with (12 * i + j) by lia. apply list_lookup_insert_eq. lia.
    + rewrite list_lookup_insert_ne by lia. apply Hs; [done | unfold in_square; bool_true | lia].
  - exists (cursor_background s). split; [by destruct s|]. split; [done|]. unfold in_square, cell. intros u v _ Hsq Hk.
    bool_to_prop. lia.
  - intros s' (l & -> & Hg). by apply HQ.
Qed.
End mouse_specs.

Section mouse_picture.
Context {E : Type} {PE : Ports E} {MP : MousePort E}.
Context (W H : Z) (desk : Z -> Z -> Z).
Abbreviation st := (mouse E).
Implicit Types (s : st) (p : pointer).

(** The driver is at [p]; under the cursor and around it lies the picture
    [desk]. *)
Record points s p : Prop := {
  pt_screen : screen_ok (m_fb s);
  pt_width : fb0_width (m_fb s) = W /\ fb0_height (m_fb s) = H /\ H < 2 ^ 30;
  pt_pos : mouse_x s = at_x p /\ mouse_y s = at_y p;
  pt_frame : on_frame (m_fb s) (at_x p) (at_y p);
  pt_cycle : mouse_cycle s = zlen (pend p) /\ (length (pend p) < 3)%nat;
  pt_bytes : exists b0 b1 b2, mouse_bytes s = [b0; b1; b2] /\ b0 = first p /\
    Forall byte [b0; b1; b2] /\
    match pend p with [] => True | [a] => a = b0 | [a; b] => a = b0 /\ b = b1 | _ => False end;
  pt_buttons : mouse_left_pressed s = Z.testbit (first p) 0 /\ mouse_right_pressed s = Z.testbit (first p) 1 /\
    mouse_middle_pressed s = Z.testbit (first p) 2;
  pt_saved : zlen (cursor_background s) = 144;
  pt_under : forall u v, on_screen_at (m_fb s) u v = true -> in_square (at_x p) (at_y p) u v = true ->
    cursor_background s !! Z.to_nat (cell (at_x p) (at_y p) u v) = Some (desk u v) /\ u32 (desk u v) = desk u v;
  pt_around : forall u v, on_screen_at (m_fb s) u v = true -> in_square (at_x p) (at_y p) u v = false ->
    pixel (m_fb s) u v = desk u v;
  pt_cursor : shown p = true -> forall u v, on_screen_at (m_fb s) u v = true ->
    in_square (at_x p) (at_y p) u v = true -> pixel (m_fb s) u v = CURSOR_COLOR
}.

Lemma points_env s p e : points s p -> points (with_menv e s) p.
Proof. intros []. by constructor. Qed.

(** Waiting changes nothing but the state of the controller. *)
Lemma mouse_wait_spec kind s (Q : unit -> st -> Prop) :
  (forall e, waiting e = waiting (m_env s) -> Q tt (with_menv e s)) -> wp (mouse_wait kind) Q s.
Proof.
  intros HQ. unfold mouse_wait.
  apply (wp_iter (fun t s' => 1 <= t <= MOUSE_TIMEOUT /\ exists e, s' = with_menv e s /\ waiting e = waiting (m_env s))
    (fun t _ => Z.to_nat (t - 1))).
  - intros t s' (Ht & e & -> & He). cbv zeta. destruct (Z.eqb_spec (t - 1) 0); [wp_step; by apply HQ|]. wp_step.
    apply wp_on_mport. destruct (status_read e) as (v & e' & Hv & He'). unfold wp at 1. cbn [m_env with_menv]. rewrite Hv.
    destruct (_ =? 0); wp_step.
    + split; [split; [lia|]|lia]. exists e'. split; [done | congruence].
    + apply HQ. congruence.
  - split; [unfold MOUSE_TIMEOUT; lia|]. exists (m_env s). split; [by destruct s | done].
  - unfold MOUSE_TIMEOUT. lia.
Qed.

Lemma mouse_read_spec b s (Q : Z -> st -> Prop) : waiting (m_env s) = Some b ->
  (forall e, Q b (with_menv e s)) -> wp mouse_read Q s.
Proof.
  intros Hb HQ. unfold mouse_read. wp_step. apply mouse_wait_spec. intros e He. apply wp_on_mport. cbn [m_env with_menv].
  destruct (data_read e b) as (e' & Hr); [congruence|]. unfold wp. rewrite Hr. apply HQ.
Qed.

Lemma bit_test w k : 0 <= k -> negb (Z.land w (Z.shiftl 1 k) =? 0) = Z.testbit w k.
Proof. intros. by rewrite land_bit, negb_involutive. Qed.

Lemma sign_extend_delta sign b : byte b -> sign_extend sign b = delta sign b.
Proof.
  intros Hb. unfold byte in Hb. unfold sign_extend, delta. destruct sign; [|apply s32_small; lia].
  assert (Hl : Z.lor b 0xFFFFFF00 = 0xFFFFFF00 + b).
  { rewrite Z.lor_comm. change 0xFFFFFF00 with (0xFFFFFF * 2 ^ 8). apply lor_add_disjoint; lia. }
  rewrite Hl. unfold s32. replace (0xFFFFFF00 + b + 2147483648) with (b - 256 + 2147483648 + 1 * 4294967296) by lia.
  rewrite Z.mod_add, Z.mod_small by lia. lia.
Qed.

(** The buttons follow the first byte of the packet. *)
Lemma update_buttons_spec s (Q : unit -> st -> Prop) b0 l : mouse_bytes s = b0 :: l ->
  Q tt (mk_mouse (m_env s) (m_fb s) (mouse_x s) (mouse_y s) (Z.testbit b0 0) (Z.testbit b0 1) (Z.testbit b0 2)
          (mouse_cycle s) (mouse_bytes s) (mouse_initialized s) (cursor_background s)) ->
  wp update_buttons Q s.
Proof.
  intros Hb HQ. unfold update_buttons, byte_of. wp_steps. rewrite Hb. cbn [lookup list_lookup]. wp_steps.
  unfold set_buttons. wp_step.
  change 0x01 with (Z.shiftl 1 0). change 0x02 with (Z.shiftl 1 1). change 0x04 with (Z.shiftl 1 2).
  rewrite !bit_test by lia. exact HQ.
Qed.

(** Erasing the cursor uncovers the picture. *)
Lemma square_cell x y u v : in_square x y u v = true -> 0 <= cell x y u v < 144.
Proof. unfold in_square, cell. intros Hs. bool_to_prop. lia. Qed.

Lemma erased s p g : points s p ->
  filled (m_fb s) g (at_x p) (at_y p) (fun k => default 0 (cursor_background s !! Z.to_nat k)) 144 ->
  forall u v, on_screen_at (m_fb s) u v = true -> pixel g u v = desk u v /\ u32 (desk u v) = desk u v.
Proof.
  intros Hp Hg u v Hon. pose proof (fl_pixel _ _ _ _ _ _ Hg u v Hon) as Hpx.
  destruct (in_square (at_x p) (at_y p) u v) eqn:Hsq; cbn [andb] in Hpx.
  - destruct (pt_under _ _ Hp u v Hon Hsq) as [Hc Hu]. pose proof (square_cell _ _ _ _ Hsq).
    rewrite (proj2 (Z.ltb_lt _ _)), Hc in Hpx by lia. cbn in Hpx. split; congruence.
  - pose proof (pt_around _ _ Hp u v Hon Hsq) as Ha. split; [congruence|]. rewrite <- Ha.
    apply pixel_u32; [apply Hp | done].
Qed.

(** The screen with the cursor at [(x, y)], and what is saved of [g]. *)
Lemma redrawn (g h : fbuf) x y l : screen_ok g -> on_frame g x y ->
  (forall u v, on_screen_at g u v = true -> pixel g u v = desk u v /\ u32 (desk u v) = desk u v) ->
  saved g x y 144 l -> filled g h x y (fun _ => CURSOR_COLOR) 144 ->
  (forall u v, on_screen_at h u v = true -> in_square x y u v = true ->
     l !! Z.to_nat (cell x y u v) = Some (desk u v) /\ u32 (desk u v) = desk u v /\ pixel h u v = CURSOR_COLOR) /\
  (forall u v, on_screen_at h u v = true -> in_square x y u v = false -> pixel h u v = desk u v).
Proof.
  intros Hok Hfr Hg [_ Hs] Hh. split; intros u v Hon Hsq; rewrite (shape_screen g h) in Hon by apply Hh;
    pose proof (fl_pixel _ _ _ _ _ _ Hh u v Hon) as Hpx; rewrite Hsq in Hpx; cbn [andb] in Hpx; destruct (Hg u v Hon) as [Hp Hu].
  - pose proof (square_cell _ _ _ _ Hsq). rewrite (proj2 (Z.ltb_lt _ _)) in Hpx by lia.
    split; [|split; [done | exact Hpx]]. rewrite <- Hp. apply Hs; [done | done | lia].
  - congruence.
Qed.

Lemma clamp_code hi z : 0 <= hi -> (if hi <=? (if z <? 0 then 0 else z) then hi else (if z <? 0 then 0 else z)) = clamp hi z.
Proof. intros. unfold clamp. repeat case_if; lia. Qed.

Lemma clamp_range hi z : 0 <= hi -> 0 <= clamp hi z <= hi.
Proof. unfold clamp. lia. Qed.

(** A complete packet that is not dropped. *)
Lemma packet_spec s p b0 b1 b2 (Q : unit -> st -> Prop) :
  points s p -> mouse_bytes s = [b0; b1; b2] -> b0 = first p -> Forall byte [b0; b1; b2] -> mouse_cycle s = 0 ->
  (forall s', points s' (mk_pointer (clamp (W - 12) (at_x p + delta (Z.testbit b0 4) b1))
     (clamp (H - 12) (at_y p - delta (Z.testbit b0 5) b2)) [] (first p) true) -> Q tt s') ->
  wp (erase_mouse_cursor (at_x p) (at_y p) ;;;
    let! mx := gets mouse_x in let! x := int_op (mx + delta (Z.testbit b0 4) b1) in
    let! my := gets mouse_y in let! y := int_op (my - delta (Z.testbit b0 5) b2) in
    let x := if x <? 0 then 0 else x in
    let y := if y <? 0 then 0 else y in
    let! w := gets (fun s => s32 (fb0_width (m_fb s)) - CURSOR_WIDTH) in
    let! h := gets (fun s => s32 (fb0_height (m_fb s)) - CURSOR_HEIGHT) in
    let x := if w <=? x then w else x in
    let y := if h <=? y then h else y in
    set_pos x y ;;; draw_mouse_cursor x y CURSOR_COLOR ;;; update_buttons) Q s.
Proof.
  intros Hp Hb Hb0 Hby Hcy HQ. pose proof (pt_screen _ _ Hp) as Hok. pose proof (pt_frame _ _ Hp) as Hfr.
  pose proof (pt_width _ _ Hp) as (HW & HH & HH30). pose proof Hfr as (? & ? & ? & ?). pose proof (so_width _ Hok).
  pose proof (so_height _ Hok). pose proof (pt_pos _ _ Hp) as [Hx Hy].
  assert (Hd : forall sg b, byte b -> -256 <= delta sg b < 256) by (unfold delta, byte; intros [] ?; lia).
  pose proof Hby as Hby'. rewrite !Forall_cons in Hby'. destruct Hby' as (? & Hb1 & Hb2 & _).
  pose proof (Hd (Z.testbit b0 4) b1 Hb1). pose proof (Hd (Z.testbit b0 5) b2 Hb2).
  unfold erase_mouse_cursor. wp_step. apply restore_spec; [done | done | apply Hp |]. intros g Hg.
  pose proof (erased _ _ _ Hp Hg) as Her. pose proof (fl_shape _ _ _ _ _ _ Hg) as (Hgw & Hgh & _).
  wp_steps. apply wp_int_op; [cbn [mouse_x with_fb]; unfold INT_MIN, INT_MAX; lia|]. wp_steps.
  apply wp_int_op; [cbn [mouse_y with_fb]; unfold INT_MIN, INT_MAX; lia|]. wp_steps.
  cbn [mouse_x mouse_y m_fb with_fb]. rewrite Hgw, Hgh, Hx, Hy, !s32_small by lia. unfold CURSOR_WIDTH, CURSOR_HEIGHT.
  rewrite !clamp_code, HW, HH by lia.
  set (x := clamp _ _). set (y := clamp _ _).
  assert (Hfx : on_frame g x y).
  { unfold on_frame. rewrite Hgw, Hgh, HW, HH.
    assert (0 <= x <= W - 12) by (apply clamp_range; lia). assert (0 <= y <= H - 12) by (apply clamp_range; lia). lia. }
  unfold set_pos, draw_mouse_cursor. wp_steps.
  apply save_spec; [apply Hg | exact Hfx | apply Hp |]. intros l Hl. cbn [m_fb with_fb] in Hl.
  apply draw_square_spec; [apply Hg | exact Hfx |]. cbn [m_fb with_bg with_fb]. intros h Hh.
  eapply update_buttons_spec; [exact Hb|]. apply HQ.
  destruct (redrawn g h x y l) as [Hin Hout]; [apply Hg | done | | done | done |].
  { intros u v Hon. apply Her. by rewrite <- (shape_screen (m_fb s) g) by apply Hg. }
  pose proof (fl_shape _ _ _ _ _ _ Hh) as (Hhw & Hhh & _).
  constructor; cbn -[in_square cell clamp byte]; try done.
  - apply Hh.
  - split; [congruence|]. split; congruence.
  - unfold on_frame in *. by rewrite Hhw, Hhh.
  - split; [done | lia].
  - exists b0, b1, b2. split; [done|]. split; [done|]. split; done.
  - by subst b0.
  - apply Hl.
  - intros u v Hon Hsq. destruct (Hin u v Hon Hsq) as (? & ? & _). done.
  - intros _ u v Hon Hsq. by destruct (Hin u v Hon Hsq) as (_ & _ & ?).
Qed.

(** A byte of the mouse comes and its interrupt is served. *)
Definition mouse_interrupt (b : Z) : M st unit := on_mport (modify (offer b)) ;;; mouseHandler mouse_eoi.

Lemma mask_test b k : 0 <= k -> (Z.land b (Z.shiftl 1 k) =? 0) = negb (Z.testbit b k).
Proof. intros. by rewrite land_bit. Qed.

(** A byte that only goes into the packet. *)
Lemma keep_byte s p i b p' (Q : unit -> st -> Prop) : points s p -> byte b ->
  (i = 0%nat /\ p' = mk_pointer (at_x p) (at_y p) [b] b (shown p) \/
   i = 1%nat /\ exists b0, pend p = [b0] /\ p' = mk_pointer (at_x p) (at_y p) [b0; b] (first p) (shown p)) ->
  (forall s', points s' p' -> Q tt s') -> wp (set_byte i b (Z.of_nat i + 1) ;;; update_buttons) Q s.
Proof.
  intros [] Hb Hi HQ. destruct pt_bytes0 as (b0 & b1 & b2 & Hbs & Hf & Hby & Hpd).
  rewrite !Forall_cons in Hby. destruct Hby as (Hb0 & Hb1 & Hb2 & _). unfold set_byte. wp_steps.
  destruct Hi as [[-> ->]|[-> (a & Hpa & ->)]]; (eapply update_buttons_spec; [cbn; by rewrite Hbs|]); apply HQ;
    constructor; cbn -[in_square cell byte on_screen_at]; try done.
  - split; [done | lia].
  - exists b, b1, b2. rewrite Hbs. split; [done|]. split; [done|]. split; [|done]. by rewrite !Forall_cons.
  - split; [done | lia].
  - rewrite Hpa in Hpd. exists b0, b, b2. rewrite Hbs. split; [done|]. split; [done|].
    split; [|by subst]. by rewrite !Forall_cons.
  - by subst b0.
Qed.

Lemma handler_spec s p b (Q : unit -> st -> Prop) : points s p -> byte b -> waiting (m_env s) = Some b ->
  (forall s', points s' (receive W H p b) -> Q tt s') -> wp mouse_handler Q s.
Proof.
  intros Hp Hb Hw HQ. unfold mouse_handler. do 2 (wp_step; wp_step; cbv beta).
  destruct (pt_pos _ _ Hp) as [Hx Hy]. rewrite Hx, Hy. wp_step. apply (mouse_read_spec b); [done|]. intros e.
  apply (points_env _ _ e) in Hp. revert Hp. generalize (with_menv e s). clear s Hw Hx Hy. intros s Hp. wp_steps.
  destruct (pt_cycle _ _ Hp) as [Hc Hl3]. rewrite Hc. unfold receive in HQ.
  destruct (pend p) as [|a0 [|a1 [|]]] eqn:Hpd; [| | |simpl in Hl3; lia].
  - change (zlen (@nil Z) =? 0) with true. cbv iota. change 0x08 with (Z.shiftl 1 3). rewrite mask_test by lia. destruct (Z.testbit b 3); cbn [negb]; cbv iota.
    + eapply (keep_byte s p 0); [done | done | by left | done].
    + wp_step. by apply HQ.
  - change (zlen [a0] =? 0) with false. change (zlen [a0] =? 1) with true. cbv iota.
    eapply (keep_byte s p 1); [done | done | right; split; [done|]; by eexists | done].
  - change (zlen [a0; a1] =? 0) with false. change (zlen [a0; a1] =? 1) with false.
    change (zlen [a0; a1] =? 2) with true. cbv iota.
    destruct (pt_bytes _ _ Hp) as (b0 & b1 & b2 & Hbs & Hf & Hby & Hpb). rewrite Hpd in Hpb. destruct Hpb as [-> ->].
    rewrite !Forall_cons in Hby. destruct Hby as (Hb0 & Hb1 & Hb2 & _).
    unfold set_byte, byte_of. wp_steps. cbn [mouse_bytes]. rewrite Hbs. cbn [insert list_insert].
    do 3 (cbn [mouse_bytes lookup list_lookup]; wp_steps).
    change 0x10 with (Z.shiftl 1 4). change 0x20 with (Z.shiftl 1 5). change 0x40 with (Z.shiftl 1 6). change 0x80 with (Z.shiftl 1 7).
    rewrite !mask_test, !negb_involutive, !sign_extend_delta by (done || lia).
    set (s1 := mk_mouse _ _ _ _ _ _ _ _ _ _ _).
    assert (Hp1 : points s1 (mk_pointer (at_x p) (at_y p) [] (first p) (shown p))).
    { destruct Hp. constructor; cbn -[in_square cell byte on_screen_at]; try done; [split; [done | lia]|].
      exists b0, b1, b. split; [done|]. split; [done|]. split; [|done]. by rewrite !Forall_cons. }
    destruct (Z.testbit b0 6 || Z.testbit b0 7); [wp_step; by apply HQ|].
    apply (packet_spec s1 _ b0 b1 b Q Hp1); [done | done | by rewrite !Forall_cons | done | exact HQ].
Qed.

Lemma mouse_interrupt_spec s p b (Q : unit -> st -> Prop) : points s p -> byte b ->
  (forall s', points s' (receive W H p b) -> Q tt s') -> wp (mouse_interrupt b) Q s.
Proof.
  intros Hp Hb HQ. unfold mouse_interrupt. wp_step. apply wp_on_mport. wp_step. unfold mouseHandler. wp_step.
  eapply handler_spec; [by apply points_env | done | apply offer_waiting |]. intros s1 H1. apply wp_on_mport.
  destruct (eoi_total (m_env s1)) as (e & He). unfold wp. rewrite He. by apply HQ, points_env.
Qed.
End mouse_picture.

(** C30 The mouse over any sequence of bytes: packets are found and decoded as
    by the reference (bytes out of step and packets with an overflow are
    dropped), the position never leaves the screen, the buttons are those of
    the last first byte, and the screen shows the cursor in its square over
    the picture, which comes back unchanged wherever the cursor has been. *)
Theorem mouse_ok {E : Type} {PE : Ports E} {MP : MousePort E} W H desk bs : forall (s : mouse E) p,
  points W H desk s p -> Forall byte bs ->
  returns (foldM (fun _ b => mouse_interrupt b) bs tt) s tt (fun s' =>
    points W H desk s' (fold_left (receive W H) bs p)).
Proof.
  induction bs as [|b bs IH]; intros s p Hp Hb; [by exists s|].
  apply Forall_cons in Hb as [Hb Hbs]. apply wp_returns. cbn [foldM fold_left]. wp_step.
  eapply mouse_interrupt_spec; [done | done |]. intros s1 H1. apply wp_run.
  destruct (IH s1 _ H1 Hbs) as (s' & Hs & Hp'). by exists tt, s'.
Qed.

(** The state at start-up: nothing has been saved, so the picture that the
    first movement uncovers is black in the square at (40, 12). *)
Definition mouse_at_start {E} (e : E) (f : fbuf) : mouse E :=
  mk_mouse e f 40 12 false false false 0 [0; 0; 0] false (replicate 144 0).

Lemma mouse_start {E} (e : E) f : screen_ok f -> 52 <= fb0_width f -> 24 <= fb0_height f < 2 ^ 30 ->
  points (fb0_width f) (fb0_height f) (fun u v => if in_square 40 12 u v then 0 else pixel f u v)
    (mouse_at_start e f) (mk_pointer 40 12 [] 0 false).
Proof.
  intros Hok Hw Hh. constructor; cbn -[in_square cell on_screen_at replicate]; try done.
  - split; [done|]. split; [done | lia].
  - unfold on_frame. lia.
  - split; [done | lia].
  - exists 0, 0, 0. split; [done|]. split; [done|]. split; [|done]. repeat constructor; done.
  - intros u v Hon Hsq. rewrite Hsq. split; [|done]. apply lookup_replicate. split; [done|].
    pose proof (square_cell _ _ _ _ Hsq). lia.
  - intros u v Hon Hsq. by rewrite Hsq.
Qed.

(** The screen of 16 by 48 pixels with a mouse. *)
Module SmallMouse.
Import SmallFrame.

#[global] Instance port0 : Ports Z := {
  inb p e := Ret (if p =? MOUSE_DATA_PORT then e else 1, e); outb _ _ e := Ret (tt, e);
  inl_port _ e := Ret (0, e); outl _ _ e := Ret (tt, e)
}.
#[global] Instance mouse0 : MousePort Z.
Proof.
  refine {| waiting := Some; offer b _ := b; mouse_eoi := ret tt |}; try done.
  - intros e. by exists 1, e.
  - intros e b [= ->]. by exists b.
  - intros e. by exists e.
Defined.

Definition m0 : mouse Z := mk_mouse 0 fb1 0 12 false false false 0 [0; 0; 0] true (replicate 144 0).

Lemma black_pixel u v : on_screen_at fb1 u v = true -> pixel fb1 u v = 0.
Proof.
  intros Hon. unfold on_screen_at in Hon. bool_to_prop. cbn [fb0_width fb0_height fb1] in *.
  unfold pixel. change (stride fb1) with 16. rewrite cells1 by lia. done.
Qed.

Lemma black_points f : screen_ok f -> fb0_width f = 16 -> fb0_height f = 48 ->
  (forall u v, on_screen_at f u v = true -> pixel f u v = 0) ->
  points 16 48 (fun _ _ => 0) (mk_mouse 0 f 0 12 false false false 0 [0; 0; 0] true (replicate 144 0))
    (mk_pointer 0 12 [] 0 false).
Proof.
  intros Hok Hw Hh Hb. constructor; cbn -[in_square cell on_screen_at replicate]; try done.
  - unfold on_frame. lia.
  - split; [done | lia].
  - exists 0, 0, 0. split; [done|]. split; [done|]. split; [|done]. repeat constructor; done.
  - intros u v Hon Hsq. split; [|done]. apply lookup_replicate. split; [done|].
    pose proof (square_cell _ _ _ _ Hsq). lia.
  - intros u v Hon _. by apply Hb.
Qed.

Lemma m0_points : points 16 48 (fun _ _ => 0) m0 (mk_pointer 0 12 [] 0 false).
Proof. exact (black_points fb1 fb1_ok eq_refl eq_refl black_pixel). Qed.

(** Three pixels to the right, with the left button. *)
Lemma mouse_ok_witness :
  returns (foldM (fun _ b => mouse_interrupt b) [0x00; 0x09; 3; 0] tt) m0 tt (fun s' =>
    mouse_x s' = 3 /\ mouse_left_pressed s' = true /\ pixel (m_fb s') 3 12 = CURSOR_COLOR /\ pixel (m_fb s') 2 12 = 0).
Proof.
  destruct (mouse_ok 16 48 (fun _ _ => 0) [0x00; 0x09; 3; 0] m0 _ m0_points) as (s' & Hs & Hp);
    [repeat constructor; done|].
  exists s'. split; [exact Hs|]. destruct Hp. change (fold_left _ _ _) with (mk_pointer 3 12 [] 9 true) in *.
  destruct pt_width0 as (Hw & Hh & _).
  split; [apply pt_pos0|]. split; [apply pt_buttons0|].
  assert (Hon : forall u v, (0 <=? u) && (u <? 16) && (0 <=? v) && (v <? 48) = true -> on_screen_at (m_fb s') u v = true)
    by (intros u v; unfold on_screen_at; by rewrite Hw, Hh).
  split; [apply pt_cursor0 | apply pt_around0]; first [reflexivity | apply Hon; reflexivity].
Defined.
End SmallMouse.
