(* ===== verification/PciProps.v ===== *)
(** PCI: the configuration space as the specification, the list of the
    functions present on the bus, and the tables of controllers. *)
From S2P Require Import Prelude Ports Pci.

(** ** The configuration mechanism *)

(** The word that an address in the address register selects. *)
Definition conf_at (c : Z -> Z -> Z -> Z -> Z) (a : Z) : Z :=
  c (Z.land (Z.shiftr a 16) 0xFF) (Z.land (Z.shiftr a 11) 0x1F) (Z.land (Z.shiftr a 8) 0x07) (Z.land a 0xFC).

(** A host bridge: [conf] is the configuration space by bus, device, function
    and offset, [latch] the address register. *)
Class PciBus (E : Type) {P : Ports E} := {
  conf : E -> Z -> Z -> Z -> Z -> Z;
  latch : E -> Z;
  conf_range : forall e b d f o, 0 <= conf e b d f o < 4294967296;
  address_write : forall e a, 0 <= a < 4294967296 ->
    exists e', outl CONFIG_ADDRESS a e = Ret (tt, e') /\ latch e' = a /\ conf e' = conf e;
  data_read : forall e, Z.testbit (latch e) 31 = true ->
    exists e', inl_port CONFIG_DATA e = Ret (conf_at (conf e) (latch e), e') /\ conf e' = conf e
}.

Class BlockHeapLaws (E : Type) {P : Ports E} {B : PciBus E} {H : BlockHeap E} := {
  room : E -> nat;
  block_ok : forall e n k, room e = S k ->
    exists e', heap_block n e = Ret (true, e') /\ room e' = k /\ conf e' = conf e
}.

(** Offsets of words survive the mask. *)
Lemma land_fc o : 0 <= o < 256 -> o mod 4 = 0 -> Z.land o 0xFC = o.
Proof.
  intros Ho H4. assert (Hs : o = Z.shiftl (o / 4) 2).
  { rewrite Z.shiftl_mul_pow2 by lia. change (2 ^ 2) with 4.
    pose proof (Z.div_mod o 4 ltac:(lia)). lia. }
  rewrite Hs at 1. change 0xFC with (Z.shiftl (Z.ones 6) 2).
  rewrite <- Z.shiftl_land, Z.land_ones, Z.mod_small; [done | | lia].
  split; [apply Z.div_pos; lia | apply Z.div_lt_upper_bound; lia].
Qed.

(** The address names its own fields. *)
Lemma config_address_add b d f o :
  0 <= b < 256 -> 0 <= d < 32 -> 0 <= f < 8 -> 0 <= o < 256 -> o mod 4 = 0 ->
  config_address b d f o = 2147483648 + b * 65536 + d * 2048 + f * 256 + o.
Proof.
  intros Hb Hd Hf Ho H4. unfold config_address.
  rewrite land_fc by done.
  rewrite !Z.shiftl_mul_pow2 by lia.
  rewrite (lor_add_disjoint 1 (b * 2 ^ 16) 31) by lia.
  replace (1 * 2 ^ 31 + b * 2 ^ 16) with ((2 ^ 15 + b) * 2 ^ 16) by lia.
  rewrite (lor_add_disjoint _ (d * 2 ^ 11) 16) by lia.
  replace ((2 ^ 15 + b) * 2 ^ 16 + d * 2 ^ 11) with (((2 ^ 15 + b) * 2 ^ 5 + d) * 2 ^ 11) by lia.
  rewrite (lor_add_disjoint _ (f * 2 ^ 8) 11) by lia.
  replace (((2 ^ 15 + b) * 2 ^ 5 + d) * 2 ^ 11 + f * 2 ^ 8)
    with ((((2 ^ 15 + b) * 2 ^ 5 + d) * 2 ^ 3 + f) * 2 ^ 8) by lia.
  rewrite lor_add_disjoint by lia. rewrite u32_small by lia. lia.
Qed.

Lemma conf_at_address c b d f o :
  0 <= b < 256 -> 0 <= d < 32 -> 0 <= f < 8 -> 0 <= o < 256 -> o mod 4 = 0 ->
  conf_at c (config_address b d f o) = c b d f o.
Proof.
  intros Hb Hd Hf Ho H4. unfold conf_at.
  assert (Hl : Z.land (config_address b d f o) 0xFC = o).
  { rewrite config_address_add by done.
    change 0xFC with (Z.land (Z.ones 8) 0xFC). rewrite Z.land_assoc, Z.land_ones by lia.
    replace (2147483648 + b * 65536 + d * 2048 + f * 256 + o)
      with (o + (8388608 + b * 256 + d * 8 + f) * 2 ^ 8) by lia.
    rewrite Z.mod_add, Z.mod_small by lia. by apply land_fc. }
  rewrite Hl, config_address_add by done. rewrite !Z.shiftr_div_pow2 by lia.
  change 0xFF with (Z.ones 8). change 0x1F with (Z.ones 5). change 0x07 with (Z.ones 3).
  rewrite !Z.land_ones by lia.
  f_equal; Z.to_euclidean_division_equations; lia.
Qed.

Lemma config_address_enabled b d f o :
  0 <= b < 256 -> 0 <= d < 32 -> 0 <= f < 8 -> 0 <= o < 256 -> o mod 4 = 0 ->
  Z.testbit (config_address b d f o) 31 = true /\ 0 <= config_address b d f o < 4294967296.
Proof.
  intros. rewrite config_address_add by done. split; [|lia].
  rewrite Z.testbit_true by lia. Z.to_euclidean_division_equations; lia.
Qed.

(** ** What is on the bus *)

Definition place (i : Z) : Z * Z * Z :=
  (Z.land (Z.shiftr i 8) 0xFF, Z.land (Z.shiftr i 3) 0x1F, Z.land i 0x07).

Section config.
Variable c : Z -> Z -> Z -> Z -> Z.

Definition bar_words (b d f : Z) : list Z :=
  [c b d f 0x10; c b d f 0x14; c b d f 0x18; c b d f 0x1C; c b d f 0x20; Z.land (c b d f 0x24) 0xFFFFFFF0].

(** The structure of a function, field by field from its registers. *)
Definition device_at (b d f : Z) : pci_device_t :=
  let header := c b d f 0xC / 65536 mod 256 in
  {| pci_bus := 0; pci_device := 0; pci_function := 0;
     vendor_id := c b d f 0 mod 65536; device_id := c b d f 0 / 65536;
     class_code := c b d f 8 / 16777216; subclass_code := c b d f 8 / 65536 mod 256;
     prog_if := c b d f 8 / 256 mod 256; revision_id := c b d f 8 mod 256;
     bist := c b d f 0xC / 16777216; cache_line_size := c b d f 0xC mod 256;
     latency_timer := c b d f 0xC / 256 mod 256; header_type := header;
     base_address_registers :=
       if decide (header = 0 \/ header = 128) then bar_words b d f else replicate 6 0 |}.

(** Functions whose two identifiers are neither all zeros nor all ones. *)
Definition answers (b d f : Z) : Prop :=
  let v := c b d f 0 in
  v / 65536 <> 0xFFFF /\ v / 65536 <> 0 /\ v mod 65536 <> 0xFFFF /\ v mod 65536 <> 0.

Definition present (i : Z) : Prop := let '(b, d, f) := place i in answers b d f.
(** Most places have no function: all ones. *)
#[global] Instance answers_dec b d f : Decision (answers b d f).
Proof.
  unfold answers. destruct (decide (c b d f 0 = 0xFFFFFFFF)) as [He|_]; [right | apply _].
  rewrite He. intros [Hn _]. by apply Hn.
Defined.
#[global] Instance present_dec i : Decision (present i).
Proof. unfold present. destruct (place i) as [[b d] f]. apply _. Defined.

Definition device_of (i : Z) : pci_device_t := let '(b, d, f) := place i in device_at b d f.
(** The devices among [n] functions from [i] on, in the order of the bus. *)
Fixpoint found_from (i : Z) (n : nat) : list pci_device_t :=
  match n with
  | O => []
  | S n => (if decide (present i) then [device_of i] else []) ++ found_from (i + 1) n
  end.
Definition found : list pci_device_t := found_from 0 bus_functions.
End config.

Lemma found_from_S c i n :
  found_from c i (S n) = (if decide (present c i) then [device_of c i] else []) ++ found_from c (i + 1) n.
Proof. done. Qed.

(** A table holds the devices of a list, in a block of [cap] structures. *)
Definition holds (cap : Z) (t : table) (l : list pci_device_t) : Prop :=
  count t = zlen l /\ zlen l <= cap /\
  entries t = Some (l ++ replicate (Z.to_nat cap - length l) pci_zero).

Lemma push_holds cap t l d : holds cap t l -> zlen l < cap ->
  exists t', push d t = Ret t' /\ holds cap t' (l ++ [d]).
Proof.
  intros (Hc & _ & He) Hl. unfold push. rewrite He, Hc.
  rewrite (proj2 (andb_true_iff _ _)).
  2: { split; [apply Z.leb_le; lia|]. apply Z.ltb_lt. rewrite length_app, length_replicate. lia. }
  eexists. split; [done|]. unfold holds. cbn [count entries]. rewrite length_app. cbn [length].
  split; [lia|]. split; [lia|]. f_equal. rewrite Nat2Z.id.
  rewrite insert_app_r_alt by lia. rewrite Nat.sub_diag, <- app_assoc. f_equal.
  by replace (Z.to_nat cap - length l)%nat with (S (Z.to_nat cap - (length l + 1))) by lia.
Qed.

Lemma push_full cap t l d : holds cap t l -> cap <= zlen l -> push d t = Undef.
Proof.
  intros (Hc & Hm & He) Hl. unfold push. rewrite He, Hc.
  rewrite (proj2 (andb_false_iff _ _)); [done|]. right.
  apply Z.ltb_ge. rewrite length_app, length_replicate. lia.
Qed.

(** The structure with index [i] of a list, [None] (NULL) for any other [i]. *)
Definition nth_device (l : list pci_device_t) (i : Z) : option pci_device_t :=
  if i <? 0 then None else l !! Z.to_nat i.

Lemma entry_at_holds cap t l i : holds cap t l -> entry_at t i = Ret (nth_device l i).
Proof.
  intros (Hc & _ & He). unfold entry_at, nth_device. rewrite He, Hc.
  destruct (Z.ltb_spec i 0); [done|]. cbn [orb].
  destruct (Z.leb_spec (zlen l) i) as [Hi|Hi]; [by rewrite lookup_ge_None_2 by lia|].
  destruct (lookup_lt_is_Some_2 l (Z.to_nat i)) as [d Hd]; [lia|].
  by rewrite (lookup_app_l_Some _ _ _ _ Hd), Hd.
Qed.

(** ** Reading the bus *)

Section scan.
Context {E : Type} {P : Ports E} {B : PciBus E} {H : BlockHeap E} {L : BlockHeapLaws E}.
Abbreviation st := (pcis E).

Lemma pci_read_ok b d f o e (Q : Z -> E -> Prop) :
  0 <= b < 256 -> 0 <= d < 32 -> 0 <= f < 8 -> 0 <= o < 256 -> o mod 4 = 0 ->
  (forall e', conf e' = conf e -> Q (conf e b d f o) e') -> wp (pci_read b d f o) Q e.
Proof.
  intros Hb Hd Hf Ho H4 HQ. destruct (config_address_enabled b d f o) as [He Hr]; try done.
  unfold pci_read, wp, bind.
  destruct (address_write e _ Hr) as (e1 & -> & Hl & Hc). cbn [obind].
  destruct (data_read e1) as (e2 & -> & Hc2); [by rewrite Hl|].
  rewrite Hl, conf_at_address, Hc by done. apply HQ. congruence.
Qed.

Lemma read_bars_ok n b d f i e (Q : list Z -> E -> Prop) :
  0 <= b < 256 -> 0 <= d < 32 -> 0 <= f < 8 -> 0 <= i -> i + Z.of_nat n <= 6 ->
  (forall e', conf e' = conf e ->
     Q ((fun j => if j =? 5 then Z.land (conf e b d f (0x10 + j * 4)) 0xFFFFFFF0
                  else conf e b d f (0x10 + j * 4)) <$> seqZ i (Z.of_nat n)) e') ->
  wp (read_bars n b d f i) Q e.
Proof.
  intros Hb Hd Hf. revert i e Q. induction n as [|n IH]; intros i e Q Hi Hn HQ; cbn [read_bars].
  - apply wp_ret. by apply HQ.
  - unwrap. apply wp_bind, pci_read_ok; [lia.. | Z.to_euclidean_division_equations; lia |].
    intros e1 Hc1. apply wp_bind, IH; [lia.. |]. intros e2 Hc2. apply wp_ret.
    rewrite Nat2Z.inj_succ, seqZ_cons, fmap_cons in HQ by lia.
    replace (Z.pred (Z.succ (Z.of_nat n))) with (Z.of_nat n) in HQ by lia.
    replace (Z.succ i) with (i + 1) in HQ by lia. rewrite Hc1. apply HQ. congruence.
Qed.

Lemma land_ff v : Z.land v 0xFF = v mod 256.
Proof. change 0xFF with (Z.ones 8). by rewrite Z.land_ones. Qed.
Lemma land_ffff v : Z.land v 0xFFFF = v mod 65536.
Proof. change 0xFFFF with (Z.ones 16). by rewrite Z.land_ones. Qed.

Lemma pci_device_detect_ok b d f e (Q : pci_device_t -> E -> Prop) :
  0 <= b < 256 -> 0 <= d < 32 -> 0 <= f < 8 ->
  (forall e', conf e' = conf e -> Q (device_at (conf e) b d f) e') ->
  wp (pci_device_detect b d f) Q e.
Proof.
  intros Hb Hd Hf HQ. unfold pci_device_detect.
  apply wp_bind, pci_read_ok; [done.. |]. intros e1 H1.
  apply wp_bind, pci_read_ok; [done.. |]. intros e2 H2. rewrite H1 in H2 |- *.
  apply wp_bind, pci_read_ok; [done.. |]. intros e3 H3. rewrite H2 in H3 |- *.
  assert (Hall : forall bars e', conf e' = conf e ->
    bars = base_address_registers (device_at (conf e) b d f) ->
    Q (mk_pci 0 0 0 (Z.land (conf e b d f 0) 0xFFFF) (u16 (Z.shiftr (conf e b d f 0) 16))
         (Z.land (Z.shiftr (conf e b d f 8) 24) 0xFF) (Z.land (Z.shiftr (conf e b d f 8) 16) 0xFF)
         (Z.land (Z.shiftr (conf e b d f 8) 8) 0xFF) (Z.land (conf e b d f 8) 0xFF)
         (Z.land (Z.shiftr (conf e b d f 12) 24) 0xFF) (Z.land (conf e b d f 12) 0xFF)
         (Z.land (Z.shiftr (conf e b d f 12) 8) 0xFF) (Z.land (Z.shiftr (conf e b d f 12) 16) 0xFF) bars) e').
  { intros bars e' Hc ->. specialize (HQ e' Hc). unfold device_at in *.
    rewrite !land_ff, land_ffff. rewrite !Z.shiftr_div_pow2 by lia.
    change (2 ^ 16) with 65536. change (2 ^ 24) with 16777216. change (2 ^ 8) with 256.
    pose proof (conf_range e b d f 0). pose proof (conf_range e b d f 8). pose proof (conf_range e b d f 12).
    unfold u16. rewrite (Z.mod_small (conf e b d f 0 / 65536)) by (Z.to_euclidean_division_equations; lia).
    rewrite !(Z.mod_small (_ / 16777216)) by (Z.to_euclidean_division_equations; lia). exact HQ. }
  unfold DEVICE_VENDOR_OFFSET, CLASS_SUBCLASS_PROG_REV_OFFSET,
    BIST_HEADER_LATENCY_CACHE_LINE_OFFSET in *.
  apply wp_bind. cbn [device_at base_address_registers] in Hall.
  unfold STANDARD_HEADER_SINGLE_FUNCTION, STANDARD_HEADER_MULTI_FUNCTION.
  pose proof (land_ff (Z.shiftr (conf e b d f 12) 16)) as Hhd.
  rewrite Z.shiftr_div_pow2 in Hhd at 2 by lia. change (2 ^ 16) with 65536 in Hhd.
  destruct (decide _) as [Hh|Hh].
  - rewrite (proj2 (orb_true_iff _ _)) by (rewrite Hhd, !Z.eqb_eq; lia).
    apply read_bars_ok; [lia.. |]. intros e4 H4. apply wp_ret, Hall; [congruence|].
    by rewrite H3.
  - rewrite (proj2 (orb_false_iff _ _)) by (rewrite Hhd, !Z.eqb_neq; lia).
    apply wp_ret, wp_ret, Hall; congruence.
Qed.

(** ** Scanning *)

Lemma wp_on_bus {A} (m : M E A) (Q : A -> st -> Prop) s :
  wp m (fun a e => Q a (mk_pcis e (pci_devices s) (controllers s))) (p_env s) -> wp (on_bus m) Q s.
Proof. unfold wp, on_bus. by destruct (m (p_env s)) as [[a e]| | |]. Qed.

Lemma place_range i b d f : place i = (b, d, f) -> 0 <= b < 256 /\ 0 <= d < 32 /\ 0 <= f < 8.
Proof.
  intros [= <- <- <-]. change 0xFF with (Z.ones 8). change 0x1F with (Z.ones 5). change 0x07 with (Z.ones 3).
  rewrite !Z.land_ones by lia. Z.to_euclidean_division_equations; lia.
Qed.

(** The bus has the configuration space [c], the list of devices is [l]. *)
Definition listed (c : Z -> Z -> Z -> Z -> Z) (ct : ctrl -> table) (l : list pci_device_t) (s : st) : Prop :=
  conf (p_env s) = c /\ controllers s = ct /\ holds 256 (pci_devices s) l.

Lemma answers_test c b d f : 0 <= c b d f 0 < 4294967296 ->
  (u16 (Z.shiftr (c b d f 0) 16) =? 0xFFFF) || (u16 (Z.shiftr (c b d f 0) 16) =? 0x0000) ||
  (Z.land (c b d f 0) 0xFFFF =? 0xFFFF) || (Z.land (c b d f 0) 0xFFFF =? 0x0000) = true <->
  ~ answers c b d f.
Proof.
  intros Hr. rewrite land_ffff, Z.shiftr_div_pow2 by lia. change (2 ^ 16) with 65536.
  rewrite u16_small by (Z.to_euclidean_division_equations; lia).
  rewrite !orb_true_iff, !Z.eqb_eq. unfold answers. lia.
Qed.

Lemma scan_absent c ct l i s : listed c ct l s -> ~ present c i ->
  wp (scan_function i) (fun r s' => r = None /\ listed c ct l s') s.
Proof.
  intros (Hc & Hk & Hh) Hp. unfold present in Hp. destruct (place i) as [[b d] f] eqn:Hi.
  destruct (place_range _ _ _ _ Hi) as (Hb & Hd & Hf). unfold place in Hi. simplify_eq.
  unfold scan_function. apply wp_bind, wp_on_bus, pci_read_ok; [done.. |]. intros e Hce.
  rewrite (proj2 (answers_test _ _ _ _ (conf_range _ _ _ _ _))) by done.
  apply wp_ret. split; [done|]. by split_and!.
Qed.

Lemma scan_present c ct l i s : listed c ct l s -> present c i -> exists s1,
  conf (p_env s1) = c /\ controllers s1 = ct /\ pci_devices s1 = pci_devices s /\
  scan_function i s = (let! t := lift (push (device_of c i) (pci_devices s1)) in
                       set_devices t ;;; ret None) s1.
Proof.
  intros (Hc & Hk & Hh) Hp. unfold present, device_of in *. destruct (place i) as [[b d] f] eqn:Hi.
  destruct (place_range _ _ _ _ Hi) as (Hb & Hd & Hf). unfold place in Hi.
  injection Hi as Hib Hid Hif. unfold scan_function. rewrite Hib, Hid, Hif.
  pose proof (pci_read_ok b d f 0 (p_env s) (fun v e => v = c b d f 0 /\ conf e = c)) as Hr.
  apply wp_run in Hr as (v & e1 & Hr & -> & H1); [| try done; intros; split; congruence ..].
  pose proof (pci_device_detect_ok b d f e1 (fun v e => v = device_at c b d f /\ conf e = c)) as Hd2.
  apply wp_run in Hd2 as (v & e2 & Hd2 & -> & H2); [| try done; intros; split; congruence ..].
  exists (mk_pcis e2 (pci_devices s) (controllers s)). split_and!; [done.. |].
  unfold bind at 1. unfold on_bus at 1. unfold DEVICE_VENDOR_OFFSET. rewrite Hr. cbn [obind].
  destruct (_ || _) eqn:Ht.
  - apply answers_test in Ht; [done|]. rewrite <- Hc. apply conf_range.
  - unfold bind at 1. unfold on_bus. cbn [p_env]. by rewrite Hd2.
Qed.

Lemma scan_room c ct l i s : listed c ct l s -> present c i -> zlen l < 256 ->
  wp (scan_function i) (fun r s' => r = None /\ listed c ct (l ++ [device_of c i]) s') s.
Proof.
  intros Hl Hp Hroom. destruct (scan_present _ _ _ _ _ Hl Hp) as (s1 & Hc & Hk & Hd & Hrun).
  destruct Hl as (_ & _ & Hh). destruct (push_holds _ _ _ (device_of c i) Hh Hroom) as (t & Ht & Hh').
  unfold wp. rewrite Hrun, Hd. unfold bind, lift. rewrite Ht. cbn. done.
Qed.

Lemma scan_full c ct l i s : listed c ct l s -> present c i -> 256 <= zlen l -> scan_function i s = Undef.
Proof.
  intros Hl Hp Hfull. destruct (scan_present _ _ _ _ _ Hl Hp) as (s1 & _ & _ & Hd & Hrun).
  destruct Hl as (_ & _ & Hh). rewrite Hrun, Hd. unfold bind, lift.
  by rewrite (push_full _ _ _ _ Hh).
Qed.

Lemma scan_loop c ct n : forall i l s, listed c ct l s -> zlen l + zlen (found_from c i n) <= 256 ->
  wp (for_range n i scan_function) (fun _ s' => listed c ct (l ++ found_from c i n) s') s.
Proof.
  induction n as [|n IH]; intros i l s Hl Hn; cbn [for_range].
  - apply wp_ret. by rewrite app_nil_r.
  - rewrite found_from_S in *. destruct (decide (present c i)) as [Hp|Hp].
    + rewrite length_app in Hn. cbn [length] in Hn. apply wp_bind.
      eapply wp_mono; [apply scan_room; [done.. | lia]|].
      intros r s' [-> Hl']. eapply wp_mono; [apply IH; [done|]|].
      * rewrite length_app. cbn [length]. lia.
      * intros ? ? Hr. by rewrite <- app_assoc in Hr.
    + apply wp_bind. eapply wp_mono; [by apply scan_absent|]. intros r s' [-> Hl']. by apply IH.
Qed.

Lemma scan_overrun c ct n : forall i l s, listed c ct l s -> 256 < zlen l + zlen (found_from c i n) ->
  for_range n i scan_function s = Undef.
Proof.
  induction n as [|n IH]; intros i l s Hl Hn.
  - destruct Hl as (_ & _ & _ & Hm & _). change (found_from c i 0) with (@nil pci_device_t) in Hn.
    cbn [length] in Hn. lia.
  - rewrite found_from_S in Hn. cbn [for_range]. unfold bind at 1.
    destruct (decide (present c i)) as [Hp|Hp].
    + destruct (decide (zlen l < 256)) as [Hlt|Hge].
      * pose proof (scan_room c ct l i s Hl Hp Hlt) as Hs.
        apply wp_run in Hs as (r & s' & -> & -> & Hl'). cbn [obind].
        apply (IH _ _ _ Hl'). rewrite length_app in *. cbn [length app] in *. lia.
      * by rewrite (scan_full _ _ _ _ _ Hl Hp) by lia.
    + pose proof (scan_absent c ct l i s Hl Hp) as Hs.
      apply wp_run in Hs as (r & s' & -> & -> & Hl'). cbn [obind]. by apply (IH _ _ _ Hl').
Qed.

Lemma scan_overrun_all c ct n s : listed c ct [] s -> 256 < zlen (found_from c 0 n) ->
  for_range n 0 scan_function s = Undef.
Proof. intros Hl Hn. apply (scan_overrun c ct n 0 [] s Hl). cbn [length]. lia. Qed.

(** ** The tables *)

(** The same bus and list of devices. *)
Definition same_bus (s s' : st) : Prop :=
  conf (p_env s') = conf (p_env s) /\ pci_devices s' = pci_devices s.

Lemma new_entries_ok n k s (Q : option (list pci_device_t) -> st -> Prop) : room (p_env s) = S k ->
  (forall s', same_bus s s' -> controllers s' = controllers s -> room (p_env s') = k ->
     Q (Some (replicate (Z.to_nat n) pci_zero)) s') -> wp (new_entries n) Q s.
Proof.
  intros Hr HQ. unfold new_entries. apply wp_bind, wp_on_bus. unfold wp at 1.
  destruct (block_ok _ (sizeof_pci_device_t * n) _ Hr) as (e & -> & Hk & Hc).
  apply wp_ret. by apply HQ.
Qed.

(** Tables whose block is there, all of them empty. *)
Definition blank (K : list ctrl) (s : st) : Prop :=
  forall k, count (controllers s k) = 0 /\ (k ∈ K -> holds 32 (controllers s k) []).

Lemma alloc_table_ok K c k s (Q : unit -> st -> Prop) : blank K s -> room (p_env s) = S k ->
  (forall s', same_bus s s' -> blank (c :: K) s' -> room (p_env s') = k -> Q tt s') ->
  wp (alloc_table c) Q s.
Proof.
  intros Hb Hr HQ. unfold alloc_table. apply wp_bind. eapply new_entries_ok; [done|].
  intros s1 Hs Hc Hr1. apply wp_bind, wp_gets, wp_modify, HQ; [exact Hs | | done].
  intros j. cbn [controllers]. unfold set_ctrl. rewrite Hc. destruct (Hb c) as [Hn _].
  destruct (Hb j) as [Hj HK]. destruct (decide (j = c)) as [->|Hne].
  - cbn [count]. rewrite Hn. done.
  - split; [done|]. intros [?|?]%elem_of_cons; [done | by apply HK].
Qed.

(** One more table, in a sequence of allocations. *)
Ltac next_table Hb Hr Hs :=
  eapply (alloc_table_ok _ _ _ _ _ Hb Hr);
  let s' := fresh "s" in let Hc := fresh in let Hp := fresh in
  let Hb' := fresh in let Hr' := fresh in
  intros s' [Hc Hp] Hb' Hr'; rewrite <- Hc, <- Hp in Hs; clear Hb Hr Hc Hp;
  rename Hb' into Hb; rename Hr' into Hr.

Lemma alloc_controllers_ok k s (Q : unit -> st -> Prop) :
  count (pci_devices s) = 0 -> (forall j, count (controllers s j) = 0) -> room (p_env s) = (9 + k)%nat ->
  (forall s', listed (conf (p_env s)) (controllers s') [] s' ->
     (forall j, holds 32 (controllers s' j) []) -> Q tt s') ->
  wp alloc_controllers_memory Q s.
Proof.
  intros Hd Hj Hr HQ. unfold alloc_controllers_memory.
  apply wp_bind. eapply new_entries_ok; [done|]. intros s1 [Hc1 Hp1] Hk1 Hr1.
  apply wp_bind, wp_gets, wp_bind, wp_modify. rewrite Hp1, Hd.
  unfold alloc_mass_storage_controllers_memory, alloc_network_controllers_memory,
    alloc_wireless_controllers_memory, alloc_display_controllers_memory, alloc_memory_controllers_memory,
    alloc_input_devices_memory, alloc_serial_bus_controllers_memory, alloc_bridge_devices_memory.
  match goal with |- wp _ _ ?x => set (s2 := x) end.
  assert (Hb : blank [] s2) by (intros j; cbn; rewrite Hk1; split; [apply Hj | set_solver]).
  assert (Hr2 : room (p_env s2) = (8 + k)%nat) by done.
  assert (Hs : conf (p_env s2) = conf (p_env s) /\
    pci_devices s2 = mk_table (Some (replicate (Z.to_nat 256) pci_zero)) 0) by done.
  clearbody s2. do 7 (apply wp_bind; next_table Hb Hr2 Hs). next_table Hb Hr2 Hs.
  destruct Hs as [Hc Hp]. apply HQ.
  - split_and!; [done | done |]. rewrite Hp. by split_and!.
  - intros j. destruct (Hb j) as [_ Hj']. apply Hj'. destruct j; set_solver.
Qed.

(** ** Filing the devices *)

Definition class_of (k : ctrl) : Z :=
  match k with
  | MassStorage => CONTROLLER_CLASS_MASS_STORAGE | Network => CONTROLLER_CLASS_NETWORK
  | Wireless => CONTROLLER_CLASS_WIRELESS | Display => CONTROLLER_CLASS_DISPLAY
  | MemoryCtrl => CONTROLLER_CLASS_MEMORY | InputDevice => CONTROLLER_CLASS_INPUT_DEVICE
  | SerialBus => CONTROLLER_CLASS_SERIAL_BUS | Bridge => CONTROLLER_CLASS_BRIDGE
  end.
Definition of_class (k : ctrl) (l : list pci_device_t) : list pci_device_t :=
  filter (fun d => class_code d = class_of k) l.

(** Every table holds the devices of its class: for the tables of [K] those
    of [l ++ [d]], for the others those of [l]. *)
Definition filed (K : list ctrl) (l : list pci_device_t) (d : pci_device_t) (s : st) : Prop :=
  forall k, holds 32 (controllers s k) (of_class k (if decide (k ∈ K) then l ++ [d] else l)).

Lemma of_class_snoc k l d :
  of_class k (l ++ [d]) = of_class k l ++ (if decide (class_code d = class_of k) then [d] else []).
Proof.
  unfold of_class. rewrite filter_app, filter_cons, filter_nil. by destruct (decide _).
Qed.

Lemma file_if_ok K l d code c s (Q : unit -> st -> Prop) : filed K l d s -> code = class_of c -> c ∉ K ->
  zlen (of_class c (l ++ [d])) <= 32 ->
  (forall s', same_bus s s' -> filed (c :: K) l d s' -> Q tt s') -> wp (file_if d code c) Q s.
Proof.
  intros Hf -> Hc Hlen HQ. unfold file_if. rewrite of_class_snoc in Hlen.
  pose proof (Hf c) as Hh. rewrite decide_False in Hh by done.
  destruct (Z.eqb_spec (class_code d) (class_of c)) as [Heq|Hne].
  - rewrite decide_True in Hlen by done. rewrite length_app in Hlen. cbn [length] in Hlen.
    destruct (push_holds _ _ _ d Hh) as (t & Ht & Hh'); [lia|].
    apply wp_bind, wp_gets, wp_bind. unfold wp at 1, lift. rewrite Ht. cbn [obind].
    apply wp_modify, HQ; [done|]. intros k. cbn [controllers]. unfold set_ctrl.
    destruct (decide (k = c)) as [->|Hk].
    + rewrite decide_True by set_solver. by rewrite of_class_snoc, decide_True.
    + specialize (Hf k). destruct (decide (k ∈ K)); [rewrite decide_True by set_solver; done|].
      by rewrite decide_False by set_solver.
  - apply wp_ret, HQ; [done|]. intros k. specialize (Hf k). destruct (decide (k ∈ K)).
    + by rewrite decide_True by set_solver.
    + destruct (decide (k = c)) as [->|Hk]; [|by rewrite decide_False by set_solver].
      rewrite decide_True by set_solver. by rewrite of_class_snoc, decide_False, app_nil_r.
Qed.

Ltac next_file Hf Hs Hl :=
  eapply (file_if_ok _ _ _ _ _ _ _ Hf); [done | set_solver | apply Hl |];
  let s' := fresh "s" in let Hc := fresh in let Hp := fresh in let Hf' := fresh in
  intros s' [Hc Hp] Hf'; rewrite <- Hc, <- Hp in Hs; clear Hf Hc Hp; rename Hf' into Hf.

(** The devices filed so far, and the list they come from. *)
Definition filing (c : Z -> Z -> Z -> Z -> Z) (l : list pci_device_t) (i : Z) (s : st) : Prop :=
  listed c (controllers s) l s /\ forall k, holds 32 (controllers s k) (of_class k (take (Z.to_nat i) l)).

Lemma of_class_take k l n : (length (of_class k (take n l)) <= length (of_class k l))%nat.
Proof.
  rewrite <- (take_drop n l) at 2. unfold of_class. rewrite filter_app, length_app. lia.
Qed.

Lemma classify_ok c l i s : filing c l i s -> 0 <= i < zlen l ->
  (forall k, zlen (of_class k l) <= 32) ->
  wp (classify i) (fun r s' => r = None /\ filing c l (i + 1) s') s.
Proof.
  intros [(Hc & _ & Hh) Hk] Hi Hlen. unfold classify, get_pci_controller.
  apply wp_bind, wp_bind, wp_gets. unfold wp at 1, lift. rewrite (entry_at_holds _ _ _ i Hh). cbn [obind].
  unfold nth_device. rewrite (proj2 (Z.ltb_ge i 0)) by lia.
  destruct (lookup_lt_is_Some_2 l (Z.to_nat i)) as [d Hd]; [lia|]. rewrite Hd.
  assert (Ht : take (Z.to_nat (i + 1)) l = take (Z.to_nat i) l ++ [d])
    by (rewrite <- take_S_r with (1 := Hd); f_equal; lia).
  assert (Hl : forall k, zlen (of_class k (take (Z.to_nat i) l ++ [d])) <= 32).
  { intros k. rewrite <- Ht. specialize (Hlen k). pose proof (of_class_take k l (Z.to_nat (i + 1))). lia. }
  assert (Hf : filed [] (take (Z.to_nat i) l) d s).
  { intros k. rewrite decide_False by set_solver. apply Hk. }
  assert (Hs : conf (p_env s) = c /\ holds 256 (pci_devices s) l) by done.
  clear Hc Hh Hk. do 8 (apply wp_bind; next_file Hf Hs Hl). apply wp_ret. split; [done|].
  destruct Hs as [Hc Hh]. split; [by split_and!|]. intros k. rewrite Ht. specialize (Hf k). rewrite decide_True in Hf; [done|].
  destruct k; set_solver.
Qed.

Lemma classify_loop c l s : filing c l 0 s -> (forall k, zlen (of_class k l) <= 32) ->
  wp (for_range (length l) 0 classify) (fun _ s' => filing c l (zlen l) s') s.
Proof.
  intros Hf Hlen. apply (wp_for (fun i => filing c l i)); [| |done].
  - intros j s1 Hj Hf1. eapply wp_mono; [apply classify_ok; [done | lia | done]|].
    by intros r s2 [-> Hf2].
  - done.
Qed.

(** ** Start-up *)

(** The kernel before: empty tables, room for the nine blocks, a bus that
    answers, and no more devices than the tables take. *)
Record bus_ready (s : st) : Prop := {
  br_devices : count (pci_devices s) = 0;
  br_tables : forall k, count (controllers s k) = 0;
  br_room : (9 <= room (p_env s))%nat;
  br_bus : conf (p_env s) 0 0 0 0 mod 65536 <> 0xFFFF
}.
Record bus_fits (c : Z -> Z -> Z -> Z -> Z) : Prop := {
  bf_all : zlen (found c) <= 256;
  bf_class : forall k, zlen (of_class k (found c)) <= 32
}.

Lemma pci_exists_ok e (Q : bool -> E -> Prop) : conf e 0 0 0 0 mod 65536 <> 0xFFFF ->
  (forall e', conf e' = conf e -> Q true e') -> wp pci_exists Q e.
Proof.
  intros Hb HQ. unfold pci_exists. apply wp_bind, pci_read_ok; [done.. |]. intros e' He. apply wp_ret.
  rewrite land_ffff. rewrite (proj2 (Z.eqb_neq _ _)) by done. by apply HQ.
Qed.

Lemma alloc_scan s (Q : unit -> st -> Prop) : bus_ready s ->
  (forall s', listed (conf (p_env s)) (controllers s') [] s' -> (forall j, holds 32 (controllers s' j) []) ->
     wp (for_range bus_functions 0 scan_function ;;; ret tt) Q s') ->
  wp alloc_controllers_memory (fun _ s' => wp pci_scan Q s') s.
Proof.
  intros [Hd Hj Hr Hb] HQ.
  apply (alloc_controllers_ok (room (p_env s) - 9)); [done.. | lia |].
  intros s1 (Hc & _ & Hh) Ht. unfold pci_scan. apply wp_bind, wp_on_bus, pci_exists_ok; [by rewrite Hc|].
  intros e' He. apply HQ; [|done]. split_and!; cbn; first [congruence | done | exact Hh].
Qed.

Lemma scan_and_file n c s : listed c (controllers s) [] s -> (forall j, holds 32 (controllers s j) []) ->
  zlen (found_from c 0 n) <= 256 -> (forall k, zlen (of_class k (found_from c 0 n)) <= 32) ->
  wp (for_range n 0 scan_function ;;; ret tt) (fun _ s' =>
    wp file_devices (fun _ s2 => filing c (found_from c 0 n) (zlen (found_from c 0 n)) s2) s') s.
Proof.
  intros Hl Ht Ha Hc. apply wp_bind.
  eapply wp_mono; [apply (scan_loop _ _ _ _ _ _ Hl), Ha|]. intros r s2 Hl2. apply wp_ret.
  unfold file_devices. apply wp_bind, wp_gets.
  pose proof Hl2 as (_ & Hk & Hn & _ & He). cbn [app] in Hn, He, Hl2. rewrite He, Hn.
  set (l := found_from c 0 n) in *.
  assert (Hf : filing c l 0 s2).
  { split; [by rewrite Hk|]. intros k. rewrite Hk. apply Ht. }
  destruct (Z.leb_spec (zlen l) 0).
  - apply wp_ret. by replace (zlen l) with 0 by lia.
  - rewrite Nat2Z.id. apply wp_bind. eapply wp_mono; [by apply classify_loop|]. intros. by apply wp_ret.
Qed.

Lemma init_controllers_spec s : bus_ready s -> bus_fits (conf (p_env s)) ->
  wp init_controllers (fun _ s' => filing (conf (p_env s)) (found (conf (p_env s)))
    (zlen (found (conf (p_env s)))) s') s.
Proof.
  intros Hr Hf. unfold init_controllers. apply wp_bind.
  eapply wp_mono; [|intros u s' Hs; apply wp_bind; exact Hs].
  apply alloc_scan; [exact Hr|]. intros s1 Hl Ht. destruct Hf. by apply scan_and_file.
Qed.

(** What the getters answer. *)
Definition answers_with (l : list pci_device_t) (cnt : M st Z) (get : Z -> M st (option pci_device_t))
    (s : st) : Prop :=
  cnt s = Ret (zlen l, s) /\ forall i, get i s = Ret (nth_device l i, s).

Lemma holds_answers_all c l i s : filing c l i s ->
  answers_with l get_pci_controllers_count get_pci_controller s.
Proof.
  intros [(_ & _ & Hh) _]. split; [by unfold get_pci_controllers_count, gets; destruct Hh as [-> _]|].
  intros j. unfold get_pci_controller, bind, gets, lift. cbn [obind]. by rewrite (entry_at_holds _ _ _ _ Hh).
Qed.

Lemma holds_answers c l s k : filing c l (zlen l) s ->
  answers_with (of_class k l) (controllers_count k) (get_controller k) s.
Proof.
  intros [_ Hk]. specialize (Hk k). rewrite firstn_all2 in Hk by lia.
  split; [by unfold controllers_count, gets; destruct Hk as [-> _]|].
  intros j. unfold get_controller, bind, gets, lift. cbn [obind]. by rewrite (entry_at_holds _ _ _ _ Hk).
Qed.

(** ** The theorems *)

(** C24 After the start of the controllers the list of PCI devices has
    exactly the functions present on the bus, in bus order, each with the
    fields its configuration registers have, and each of the eight tables has
    exactly the devices of its class, in the same order; the getters answer
    with them and give NULL outside. *)
Theorem init_controllers_ok s : bus_ready s -> bus_fits (conf (p_env s)) ->
  exists s', init_controllers s = Ret (tt, s') /\
    answers_with (found (conf (p_env s))) get_pci_controllers_count get_pci_controller s' /\
    forall k, answers_with (of_class k (found (conf (p_env s)))) (controllers_count k) (get_controller k) s'.
Proof.
  intros Hr Hf. destruct (proj1 (wp_run _ _ _) (init_controllers_spec s Hr Hf)) as ([] & s' & Hrun & Hs).
  exists s'. split; [done|]. split; [by eapply holds_answers_all | by intros k; eapply holds_answers].
Qed.

(** With more than 256 functions present the scan writes past its table. *)
Theorem pci_scan_overrun s : bus_ready s -> 256 < zlen (found (conf (p_env s))) -> init_controllers s = Undef.
Proof.
  intros [Hd Hj Hr Hb] Hn.
  pose proof (alloc_controllers_ok (room (p_env s) - 9) s (fun _ s' =>
    listed (conf (p_env s)) (controllers s') [] s')) as Ha.
  apply wp_run in Ha as ([] & s1 & Ha & Hc & _ & Hh); [|done..|lia|done].
  pose proof (pci_exists_ok (p_env s1) (fun b e => b = true /\ conf e = conf (p_env s))) as He.
  apply wp_run in He as (b & e & He & -> & Hce); [|by rewrite Hc|split; congruence].
  unfold init_controllers, pci_scan, bind, on_bus. rewrite Ha. cbn [obind]. rewrite He. cbn [obind negb].
  rewrite (scan_overrun_all (conf (p_env s)) (controllers s1)); [done | | exact Hn].
  exact (conj Hce (conj eq_refl Hh)).
Qed.
End scan.

(** ** A small machine: a host bridge, a network card and an AHCI controller *)
Module SmallBus.
Record bus := mk_bus { b_latch : Z; b_room : nat }.

(** The words of a function from a list, 0 for the others. *)
Fixpoint word (l : list (Z * Z)) (o : Z) : Z :=
  match l with
  | [] => 0
  | (p, v) :: l => if p =? o then u32 v else word l o
  end.
Definition host_bridge : list (Z * Z) := [(0, 0x12378086); (8, 0x06000002)].
Definition network_card : list (Z * Z) :=
  [(0, 0x100E8086); (8, 0x02000003); (0x10, 0xFEB80000); (0x14, 0xC001)].
Definition isa_bridge : list (Z * Z) := [(0, 0x29188086); (8, 0x06010002); (12, 0x00800000)].
Definition sata : list (Z * Z) :=
  [(0, 0x29228086); (8, 0x01060102); (12, 0x00800000); (0x24, 0xFEBF1008)].
Definition space (b d f o : Z) : Z :=
  if negb (b =? 0) then 0xFFFFFFFF else
  if (d =? 0) && (f =? 0) then word host_bridge o else
  if (d =? 3) && (f =? 0) then word network_card o else
  if (d =? 31) && (f =? 0) then word isa_bridge o else
  if (d =? 31) && (f =? 2) then word sata o else 0xFFFFFFFF.

#[local] Instance ports_bus : Ports bus := {
  inb _ := ret 0; outb _ _ := ret tt;
  inl_port p e := if p =? CONFIG_DATA then Ret (conf_at space (b_latch e), e) else Ret (0, e);
  outl p v e := if p =? CONFIG_ADDRESS then Ret (tt, mk_bus v (b_room e)) else Ret (tt, e)
}.
#[local] Instance heap_bus : BlockHeap bus := fun _ e =>
  match b_room e with O => Ret (false, e) | S k => Ret (true, mk_bus (b_latch e) k) end.

Lemma space_range b d f o : 0 <= space b d f o < 4294967296.
Proof.
  assert (Hw : forall l, 0 <= word l o < 4294967296).
  { induction l as [|[p v] l IH]; cbn [word]; [lia|]. by destruct (p =? o); [apply u32_range|]. }
  unfold space. repeat case_match; try apply Hw; lia.
Qed.

#[local] Program Instance bus_pci : PciBus bus := { conf _ := space; latch := b_latch }.
Next Obligation. intros. apply space_range. Qed.
Next Obligation. intros. eexists. split; [reflexivity | done]. Qed.
Next Obligation. intros. eexists. split; [reflexivity | done]. Qed.
#[local] Program Instance bus_heap : BlockHeapLaws bus := { room := b_room }.
Next Obligation. intros e n k Hk. unfold heap_block, heap_bus. rewrite Hk. by eexists. Qed.

Definition start : pcis bus := mk_pcis (mk_bus 0 20) (mk_table None 0) (fun _ => mk_table None 0).

Lemma start_ready : bus_ready start.
Proof. split; try done. cbn. lia. Qed.

(** The AHCI controller has the base address of its registers in BAR 5. *)
Definition ahci : pci_device_t :=
  mk_pci 0 0 0 0x8086 0x2922 1 6 1 2 0 0 0 0x80 [0; 0; 0; 0; 0; 0xFEBF1000].
Definition inventory : list pci_device_t :=
  [ mk_pci 0 0 0 0x8086 0x1237 6 0 0 2 0 0 0 0 [0; 0; 0; 0; 0; 0];
    mk_pci 0 0 0 0x8086 0x100E 2 0 0 3 0 0 0 0 [0xFEB80000; 0xC001; 0; 0; 0; 0];
    mk_pci 0 0 0 0x8086 0x2918 6 1 0 2 0 0 0 0x80 [0; 0; 0; 0; 0; 0]; ahci ].
Lemma found_inventory : found (conf (p_env start)) = inventory.
Proof. vm_compute. reflexivity. Qed.
Lemma start_fits : bus_fits (conf (p_env start)).
Proof.
  split; [|intros k]; rewrite found_inventory; [cbn; lia | destruct k; vm_compute; discriminate].
Qed.

Lemma init_controllers_ok_witness : exists s', init_controllers start = Ret (tt, s') /\
  get_mass_storage_controllers_count s' = Ret (1, s') /\ get_mass_storage_controller 0 s' = Ret (Some ahci, s') /\
  get_mass_storage_controller 1 s' = Ret (None, s') /\ get_bridge_devices_count s' = Ret (2, s').
Proof.
  destruct (init_controllers_ok start start_ready start_fits) as (s' & Hrun & _ & Hk).
  exists s'. split; [exact Hrun|]. rewrite found_inventory in Hk.
  destruct (Hk MassStorage) as [Hn Hg]. destruct (Hk Bridge) as [Hb _].
  split; [exact Hn|]. split; [exact (Hg 0)|]. split; [exact (Hg 1) | exact Hb].
Defined.
End SmallBus.
