(* ===== verification/Acpi.v ===== *)
(** ACPI (kernel/src/sys/acpi): finding the tables, the I/O APIC in the MADT,
    switching the hardware to ACPI mode, power off and reset.

    The tables lie in memory, which the firmware filled: [a_mem] gives the
    byte at an address.  Structures are packed: fields are read at their
    offsets.  A pointer that is NULL must not be read.  [Ports16] adds the
    16-bit port accesses, [poke] a store to memory of a device. *)
From S2P Require Import Prelude Ports Ahci Intc.

Class Ports16 (E : Type) := {
  inw : Z -> M E Z;
  outw : Z -> Z -> M E unit;
  poke : Z -> Z -> M E unit
}.

Definition sizeof_acpi_header_t : Z := 36.
Definition sizeof_madt_t : Z := 44.

(** An [n]-byte integer in memory. *)
Definition ld (n a : Z) (m : ram) : Z := le_val (ld_bytes a n m).

(** The pointers the files share, 0 for NULL, and the I/O APIC's address. *)
Record tables := mk_tables {
  rsdp : Z; rsdp_ext : Z; rsdt : Z; xsdt : Z; fadt : Z; madt : Z; mcfg : Z; hpet : Z; found_ioapic : Z
}.
Record acpis (E : Type) := mk_acpis { a_env : E; a_mem : ram; a_tables : tables }.
Arguments mk_acpis {E}.
Arguments a_env {E}.
Arguments a_mem {E}.
Arguments a_tables {E}.

(** The message of validate_rsdp_table, its only effect. *)
Inductive verdict := Validated | BadChecksum | BadSignature | NotFound.

Definition RSD_PTR : list Z := [82; 83; 68; 32; 80; 84; 82; 32].
Definition APIC_SIG : list Z := [65; 80; 73; 67].
Definition MCFG_SIG : list Z := [77; 67; 70; 71].
Definition FACP_SIG : list Z := [70; 65; 67; 80].
Definition HPET_SIG : list Z := [72; 80; 69; 84].

Definition SLP_EN : Z := Z.shiftl 1 13.
Definition S5_SLEEP_TYPA : Z := Z.shiftl 5 10.
Definition PM1A_CNT_REG : Z := 0x604.

Section acpi.
Context {E : Type} `{Ports E} `{Ports16 E} `{Mmio E}.
Abbreviation st := (acpis E).

Definition on_ports {A} (m : M E A) : M st A := fun s =>
  obind (m (a_env s)) (fun '(a, e) => Ret (a, mk_acpis e (a_mem s) (a_tables s))).
Definition set_tables (f : tables -> tables) : M st unit :=
  modify (fun s => mk_acpis (a_env s) (a_mem s) (f (a_tables s))).
Definition tab (f : tables -> Z) : M st Z := gets (fun s => f (a_tables s)).

(** [p->field] for a field of [n] bytes at offset [o]. *)
Definition field (p o n : Z) : M st Z :=
  guard (negb (p =? 0)) ;;; gets (fun s => ld n (p + o) (a_mem s)).
Definition field_bytes (p o n : Z) : M st (list Z) :=
  guard (negb (p =? 0)) ;;; gets (fun s => ld_bytes (p + o) n (a_mem s)).

(** [address] is what the bootloader answers, 0 for no answer. *)
Definition find_acpi_table_pointer (address : Z) : M st unit :=
  if address =? 0 then ret tt else
  set_tables (fun t => mk_tables address (rsdp_ext t) (rsdt t) (xsdt t) (fadt t) (madt t) (mcfg t) (hpet t) (found_ioapic t)) ;;;
  let! revision := field address 15 1 in
  if 2 <=? revision then
    set_tables (fun t => mk_tables (rsdp t) address (rsdt t) (xsdt t) (fadt t) (madt t) (mcfg t) (hpet t) (found_ioapic t))
  else ret tt.

(** The sum of the first twenty bytes, in eight bits. *)
Definition byte_sum (l : list Z) : Z := fold_left (fun sum b => u8 (sum + b)) l 0.

Definition validate_rsdp_table (p : Z) : M st verdict :=
  if p =? 0 then ret NotFound else
  let! sig := field_bytes p 0 8 in
  if bool_decide (sig = RSD_PTR) then
    let! l := field_bytes p 0 20 in
    ret (if byte_sum l mod 256 =? 0 then Validated else BadChecksum)
  else ret BadSignature.

(** The pointer a table of the list goes to, by its signature. *)
Definition set_by_signature (entry : Z) : M st unit :=
  let! sig := field_bytes entry 0 4 in
  set_tables (fun t =>
    if bool_decide (sig = APIC_SIG) then
      mk_tables (rsdp t) (rsdp_ext t) (rsdt t) (xsdt t) (fadt t) entry (mcfg t) (hpet t) (found_ioapic t)
    else if bool_decide (sig = MCFG_SIG) then
      mk_tables (rsdp t) (rsdp_ext t) (rsdt t) (xsdt t) (fadt t) (madt t) entry (hpet t) (found_ioapic t)
    else if bool_decide (sig = FACP_SIG) then
      mk_tables (rsdp t) (rsdp_ext t) (rsdt t) (xsdt t) entry (madt t) (mcfg t) (hpet t) (found_ioapic t)
    else if bool_decide (sig = HPET_SIG) then
      mk_tables (rsdp t) (rsdp_ext t) (rsdt t) (xsdt t) (fadt t) (madt t) (mcfg t) entry (found_ioapic t)
    else t).

(** The pointers of a root table, [size] bytes each.  The number of entries
    is computed in 64 unsigned bits and kept in an int. *)
Definition parse_entries (table size : Z) : M st unit :=
  let! length := field table 4 4 in
  let entry_count := s32 (u64 (length - sizeof_acpi_header_t) / size) in
  for_range (Z.to_nat entry_count) 0 (fun i =>
    let! entry := field table (sizeof_acpi_header_t + i * size) size in
    set_by_signature entry ;;; ret (@None unit)) ;;; ret tt.

Definition parse_rsdt_table (p : Z) : M st unit :=
  let! revision := field p 15 1 in
  if 2 <=? revision then
    let! a := field p 24 8 in
    set_tables (fun t => mk_tables (rsdp t) (rsdp_ext t) (rsdt t) a (fadt t) (madt t) (mcfg t) (hpet t) (found_ioapic t)) ;;;
    parse_entries a 8
  else
    let! a := field p 16 4 in
    set_tables (fun t => mk_tables (rsdp t) (rsdp_ext t) a (xsdt t) (fadt t) (madt t) (mcfg t) (hpet t) (found_ioapic t)) ;;;
    parse_entries a 4.

(** One entry of the MADT at [ptr]; only I/O APICs (type 1) have an effect. *)
Definition madt_entry (ptr : Z) : M st Z :=
  let! type := field ptr 0 1 in
  (if type =? 0x01 then
     let! a := field ptr 4 4 in
     set_tables (fun t => mk_tables (rsdp t) (rsdp_ext t) (rsdt t) (xsdt t) (fadt t) (madt t) (mcfg t) (hpet t) a)
   else ret tt) ;;;
  field ptr 1 1.

Definition parse_madt (fuel : nat) (p : Z) : M st unit :=
  if p =? 0 then ret tt else
  let! len := field p 4 4 in
  let stop := p + len in
  iter_fuel fuel (fun ptr =>
    if ptr <? stop then
      let! n := madt_entry ptr in ret (inl (ptr + n))
    else ret (inr tt)) (p + sizeof_madt_t).

(** Control block of PM1a or PM1b: the 64-bit field at [x] if there is one,
    otherwise the 32-bit field at [o]. *)
Definition control_block (f x o : Z) : M st Z :=
  let! revision := field f 8 1 in
  let! xa := field f (x + 4) 8 in
  if (2 <=? revision) && negb (xa =? 0) then ret (u32 xa) else field f o 4.

Definition is_acpi_enabled : M st Z :=
  let! f := tab fadt in
  if f =? 0 then ret (-1) else
  let! pm1a_control := control_block f 172 64 in
  if pm1a_control =? 0 then ret (-1) else
  let! acpi_status := on_ports (inw (u16 pm1a_control)) in
  ret (if Z.land acpi_status 1 =? 0 then 0 else 1).

Definition acpi_enable : M st unit :=
  let! f := tab fadt in
  if f =? 0 then ret tt else
  let! port := field f 48 4 in
  let! value := field f 52 1 in
  if negb (port =? 0) && negb (value =? 0) then on_ports (outb (u16 port) value) else ret tt.

(** parse_fadt has an empty body. *)
Definition init_acpi (fuel : nat) (address : Z) : M st unit :=
  find_acpi_table_pointer address ;;;
  let! p := tab rsdp in
  validate_rsdp_table p ;;;
  parse_rsdt_table p ;;;
  let! on := is_acpi_enabled in
  (if on =? 0 then acpi_enable else ret tt) ;;;
  let! m := tab madt in
  parse_madt fuel m.

(** ** Power *)

Definition qemu_poweroff : M st unit :=
  on_ports (outw PM1A_CNT_REG (Z.lor S5_SLEEP_TYPA SLP_EN)) ;;; halt.

Definition qemu_reboot (fuel : nat) : M st unit :=
  iter_fuel fuel (fun _ : unit =>
    let! v := on_ports (inb 0x64) in
    if Z.land v 0x02 =? 0 then ret (inr tt) else on_ports (outb 0x80 0) ;;; ret (inl tt)) tt ;;;
  on_ports (outb 0x64 0xFE) ;;; halt.

Definition acpi_poweroff : M st unit :=
  let! f := tab fadt in
  if f =? 0 then ret tt else
  let! on := is_acpi_enabled in
  (if on =? 0 then acpi_enable else ret tt) ;;;
  let! pm1a_control := control_block f 172 64 in
  let! pm1b_control := control_block f 184 68 in
  if pm1a_control =? 0 then ret tt else
  on_ports (outw (u16 pm1a_control) (Z.lor S5_SLEEP_TYPA SLP_EN)) ;;;
  (if pm1b_control =? 0 then ret tt
   else on_ports (outw (u16 pm1b_control) (Z.lor S5_SLEEP_TYPA SLP_EN))) ;;; halt.

Definition acpi_reboot : M st unit :=
  let! f := tab fadt in
  let! reset_value := field f 128 1 in
  let! space := field f 116 1 in
  let! access := field f 119 1 in
  let! address := field f 120 8 in
  if space =? 1 then
    match access with
    | 1 => on_ports (outb (u16 address) reset_value)
    | 2 => on_ports (outw (u16 address) reset_value)
    | 3 => on_ports (outl (u16 address) reset_value)
    | _ => ret tt
    end
  else if space =? 0 then on_ports (poke address reset_value) else ret tt.

(** ** Memory-mapped configuration space *)

(** The base is the reserved field of the table. *)
Definition mmconfig_address (reserved bus device function offset : Z) : Z :=
  u64 (reserved + Z.lor (Z.lor (Z.lor (Z.shiftl bus 20) (Z.shiftl device 15)) (Z.shiftl function 12))
                        (Z.land offset 0xFFF)).

Definition pci_read_mmconfig (bus device function offset : Z) : M st Z :=
  let! m := tab mcfg in
  if m =? 0 then ret 0xFFFFFFFF else
  let! reserved := field m 36 8 in
  on_ports (mmio_read (mmconfig_address reserved bus device function offset)).

Definition pci_write_mmconfig (bus device function offset value : Z) : M st unit :=
  let! m := tab mcfg in
  if m =? 0 then ret tt else
  let! reserved := field m 36 8 in
  on_ports (mmio_write (mmconfig_address reserved bus device function offset) value).
End acpi.
