(* ===== verification/AcpiProps.v ===== *)
(** ACPI: the tables in memory as lists, and what the parsers find in them. *)
From S2P Require Import Prelude Ports Ahci AhciProps Intc Acpi.

Lemma wp_bind_assoc {S A B C} (a : M S A) (b : A -> M S B) (k : B -> M S C) Q s :
  wp (bind (bind a b) k) Q s -> wp (bind a (fun x => bind (b x) k)) Q s.
Proof. unfold wp, bind, obind. by destruct (a s) as [[x s']| | |]. Qed.

(** ** Bytes in memory *)

(** The bytes [l] lie at address [a]. *)
Definition lies (m : ram) (a : Z) (l : list Z) : Prop := ld_bytes a (zlen l) m = l.

Lemma lies_app m a l k : lies m a (l ++ k) <-> lies m a l /\ lies m (a + zlen l) k.
Proof.
  unfold lies. rewrite length_app, Nat2Z.inj_add, ld_bytes_app by lia. split.
  - intros Heq. apply app_inj_1 in Heq; [done|]. rewrite ld_bytes_length; lia.
  - intros [-> ->]. done.
Qed.

Lemma lies_slice m a l o n : lies m a l -> 0 <= o -> 0 <= n -> o + n <= zlen l ->
  ld_bytes (a + o) n m = slice o n l.
Proof.
  intros Hl Ho Hn Hb. unfold lies in Hl.
  rewrite <- Hl. replace (zlen l) with (o + (n + (zlen l - o - n))) by lia.
  rewrite !ld_bytes_app by lia. unfold slice. rewrite drop_app_ge by (rewrite ld_bytes_length; lia).
  rewrite ld_bytes_length, Nat.sub_diag, drop_0, take_app_le by (rewrite ?ld_bytes_length; lia).
  by rewrite take_ge by (rewrite ld_bytes_length; lia).
Qed.

Lemma ld_lies m a l o n : lies m a l -> 0 <= o -> 0 <= n -> o + n <= zlen l ->
  ld n (a + o) m = le_val (slice o n l).
Proof. intros. unfold ld. f_equal. by apply lies_slice. Qed.

Section root.
Context {E : Type} {P : Ports E} {P2 : Ports16 E} {Mm : Mmio E}.
Abbreviation st := (acpis E).

(** Same devices and memory, other pointers. *)
Definition moved (s : st) (t : tables) : st := mk_acpis (a_env s) (a_mem s) t.

Lemma wp_field p o n s (Q : Z -> st -> Prop) : p <> 0 -> Q (ld n (p + o) (a_mem s)) s -> wp (field p o n) Q s.
Proof.
  intros Hp HQ. unfold field. apply wp_bind, wp_guard; [by apply negb_true_iff, Z.eqb_neq | exact HQ].
Qed.
Lemma wp_field_bytes p o n s (Q : list Z -> st -> Prop) :
  p <> 0 -> Q (ld_bytes (p + o) n (a_mem s)) s -> wp (field_bytes p o n) Q s.
Proof.
  intros Hp HQ. unfold field_bytes. apply wp_bind, wp_guard; [by apply negb_true_iff, Z.eqb_neq | exact HQ].
Qed.

(** ** The root table *)

(** The last of the tables [es] with a signature, [old] if there is none. *)
Definition pick (m : ram) (sig : list Z) (es : list Z) (old : Z) : Z :=
  fold_left (fun found e => if decide (ld_bytes e 4 m = sig) then e else found) es old.

Definition with_tables (m : ram) (es : list Z) (t : tables) : tables :=
  mk_tables (rsdp t) (rsdp_ext t) (rsdt t) (xsdt t) (pick m FACP_SIG es (fadt t)) (pick m APIC_SIG es (madt t))
    (pick m MCFG_SIG es (mcfg t)) (pick m HPET_SIG es (hpet t)) (found_ioapic t).

Lemma set_by_signature_ok e s (Q : unit -> st -> Prop) : e <> 0 ->
  Q tt (moved s (with_tables (a_mem s) [e] (a_tables s))) -> wp (set_by_signature e) Q s.
Proof.
  intros He HQ. unfold set_by_signature. apply wp_bind, wp_field_bytes; [done|]. rewrite Z.add_0_r.
  apply wp_modify. unfold moved, with_tables, pick in HQ. cbn [fold_left] in HQ.
  destruct (a_tables s) as [a b c d f1 f2 f3 f4 g]. cbn in HQ |- *.
  set (sig := ld_bytes e 4 (a_mem s)) in *. clearbody sig.
  repeat case_decide; repeat case_bool_decide; simplify_eq; done.
Qed.

Lemma with_tables_app m es es' t : with_tables m (es ++ es') t = with_tables m es' (with_tables m es t).
Proof. unfold with_tables, pick. by rewrite !fold_left_app. Qed.

(** A root table at [a] with entries of [size] bytes. *)
Record root_at (m : ram) (a size : Z) (es : list Z) : Prop := {
  ra_ptr : a <> 0;
  ra_len : ld 4 (a + 4) m = 36 + size * zlen es;
  ra_entry : forall i e, es !! i = Some e -> ld size (a + (36 + Z.of_nat i * size)) m = e;
  ra_some : Forall (fun e => e <> 0) es;
  ra_max : zlen es < 2147483648
}.

Lemma parse_entries_ok a size es s (Q : unit -> st -> Prop) : size = 4 \/ size = 8 ->
  root_at (a_mem s) a size es -> Q tt (moved s (with_tables (a_mem s) es (a_tables s))) ->
  wp (parse_entries a size) Q s.
Proof.
  intros Hsz [Ha Hl He Hn Hm] HQ. unfold parse_entries. apply wp_bind, wp_field; [done|]. rewrite Hl.
  unfold sizeof_acpi_header_t. replace (36 + size * zlen es - 36) with (zlen es * size) by lia.
  rewrite u64_small by lia. rewrite Z.div_mul by lia. rewrite s32_small, Nat2Z.id by lia.
  apply wp_bind.
  apply (wp_for (fun i s' => s' = moved s (with_tables (a_mem s) (take (Z.to_nat i) es) (a_tables s)))).
  - intros i s' Hi ->. destruct (lookup_lt_is_Some_2 es (Z.to_nat i)) as [e Hk]; [lia|].
    apply wp_bind, wp_field; [done|]. cbn [a_mem moved].
    pose proof (He _ _ Hk) as Hv. rewrite Z2Nat.id in Hv by lia. rewrite Hv.
    apply wp_bind, set_by_signature_ok; [exact (proj1 (Forall_lookup _ _) Hn _ _ Hk)|].
    apply wp_ret. unfold moved. cbn [a_mem a_env a_tables]. f_equal. rewrite <- with_tables_app.
    f_equal. rewrite <- take_S_r with (1 := Hk). f_equal. lia.
  - intros s' ->. apply wp_ret. rewrite firstn_all2 in * by lia. exact HQ.
  - unfold moved, with_tables, pick. cbn. by destruct s as [? ? []].
Qed.

(** ** The MADT *)

Record item := mk_item { it_type : Z; it_data : list Z }.
Definition item_bytes (i : item) : list Z := it_type i :: 2 + zlen (it_data i) :: it_data i.
Definition items_bytes (l : list item) : list Z := mjoin (item_bytes <$> l).
(** An I/O APIC has its identification, a byte, its address and its base. *)
Definition item_ok (i : item) : Prop := it_type i = 1 -> 10 <= zlen (it_data i).

Record madt_at (m : ram) (p : Z) (l : list item) : Prop := {
  ma_ptr : 0 < p;
  ma_len : ld 4 (p + 4) m = 44 + zlen (items_bytes l);
  ma_items : lies m (p + 44) (items_bytes l);
  ma_ok : Forall item_ok l
}.

(** The address in the last I/O APIC of the list. *)
Definition ioapic_of (l : list item) (old : Z) : Z :=
  fold_left (fun a i => if decide (it_type i = 1) then le_val (slice 2 4 (it_data i)) else a) l old.
Definition with_ioapic (l : list item) (t : tables) : tables :=
  mk_tables (rsdp t) (rsdp_ext t) (rsdt t) (xsdt t) (fadt t) (madt t) (mcfg t) (hpet t) (ioapic_of l (found_ioapic t)).

Lemma with_ioapic_app l k t : with_ioapic (l ++ k) t = with_ioapic k (with_ioapic l t).
Proof. unfold with_ioapic, ioapic_of. by rewrite !fold_left_app. Qed.

Lemma le_val_first x l : le_val (slice 0 1 (x :: l)) = x.
Proof. unfold slice. change (Z.to_nat 0) with 0%nat. change (Z.to_nat 1) with 1%nat. cbn. rewrite ?take_0. cbn. lia. Qed.
Lemma le_val_second x y l : le_val (slice 1 1 (x :: y :: l)) = y.
Proof. unfold slice. change (Z.to_nat 1) with 1%nat. cbn. rewrite ?take_0. cbn. lia. Qed.

Lemma madt_entry_ok i ptr s (Q : Z -> st -> Prop) : ptr <> 0 -> lies (a_mem s) ptr (item_bytes i) -> item_ok i ->
  Q (2 + zlen (it_data i)) (moved s (with_ioapic [i] (a_tables s))) -> wp (madt_entry ptr) Q s.
Proof.
  intros Hp Hl Hok HQ. unfold madt_entry. apply wp_bind, wp_field; [done|].
  assert (Hlen : zlen (item_bytes i) = 2 + zlen (it_data i)) by (cbn [item_bytes length]; lia).
  rewrite (ld_lies _ _ _ _ _ Hl) by lia.
  unfold item_bytes at 1. rewrite le_val_first.
  apply wp_bind. unfold with_ioapic, ioapic_of in HQ. cbn [fold_left] in HQ.
  assert (Hend : forall s', a_mem s' = a_mem s -> Q (2 + zlen (it_data i)) s' -> wp (field ptr 1 1) Q s').
  { intros s' Hm HQ'. apply wp_field; [done|]. rewrite Hm, (ld_lies _ _ _ _ _ Hl) by lia.
    unfold item_bytes. rewrite le_val_second. exact HQ'. }
  destruct (Z.eqb_spec (it_type i) 1) as [H1|H1].
  - rewrite decide_True in HQ by done. specialize (Hok H1). apply wp_bind, wp_field; [done|].
    rewrite (ld_lies _ _ _ _ _ Hl) by lia. apply wp_modify, Hend; [done|].
    by replace (slice 4 4 (item_bytes i)) with (slice 2 4 (it_data i)) by done.
  - rewrite decide_False in HQ by done. apply wp_ret, Hend; [done|].
    unfold moved in HQ. by destruct s as [? ? []].
Qed.

Lemma items_bytes_cons i l : items_bytes (i :: l) = item_bytes i ++ items_bytes l.
Proof. done. Qed.

Lemma parse_madt_ok fuel p l s (Q : unit -> st -> Prop) : madt_at (a_mem s) p l -> (length l < fuel)%nat ->
  Q tt (moved s (with_ioapic l (a_tables s))) -> wp (parse_madt fuel p) Q s.
Proof.
  intros [Hp Hlen Hl Hok] Hf HQ. unfold parse_madt. rewrite (proj2 (Z.eqb_neq _ _)) by lia.
  apply wp_bind, wp_field; [lia|]. rewrite Hlen.
  apply (wp_iter_idx (@length item) (fun rest ptr s' => exists pre, l = pre ++ rest /\ 0 < ptr /\
    ptr + zlen (items_bytes rest) = p + (44 + zlen (items_bytes l)) /\
    lies (a_mem s) ptr (items_bytes rest) /\ s' = moved s (with_ioapic pre (a_tables s)))
    _ _ _ l); [| |done].
  - intros rest ptr s' (pre & -> & Hpos & Hend & Hr & ->). destruct rest as [|i rest].
    + change (zlen (items_bytes [])) with 0 in Hend. rewrite (proj2 (Z.ltb_ge _ _)) by lia.
      apply wp_ret. by rewrite app_nil_r in HQ.
    + rewrite items_bytes_cons in Hr, Hend. rewrite length_app in Hend.
      assert (Hil : zlen (item_bytes i) = 2 + zlen (it_data i)) by (cbn [item_bytes length]; lia).
      rewrite (proj2 (Z.ltb_lt _ _)) by lia. apply lies_app in Hr as [Hr1 Hr2].
      apply Forall_app in Hok as [_ Hok]. apply Forall_cons in Hok as [Hi _].
      apply wp_bind, (madt_entry_ok i); [lia | exact Hr1 | exact Hi |]. apply wp_ret. exists rest.
      split; [|cbn; lia]. exists (pre ++ [i]). rewrite <- app_assoc. split_and!; [done | lia.. | | ].
      * by rewrite <- Hil.
      * unfold moved. cbn [a_mem a_env a_tables]. by rewrite with_ioapic_app.
  - exists []. split_and!; [done | unfold sizeof_madt_t; lia.. | exact Hl |].
    unfold moved. by destruct s as [? ? []].
Qed.

(** An entry of length 0 keeps the parser in its loop for ever. *)
Theorem parse_madt_stuck fuel p (s : st) : 0 < p -> 44 < ld 4 (p + 4) (a_mem s) ->
  ld 1 (p + 45) (a_mem s) = 0 -> parse_madt fuel p s = OutOfFuel.
Proof.
  intros Hp Hlen H0. unfold parse_madt. rewrite (proj2 (Z.eqb_neq _ _)) by lia.
  unfold bind at 1, field at 1, bind at 1, guard. rewrite (proj2 (Z.eqb_neq _ _)) by lia. cbn [negb ret obind gets].
  set (len := ld 4 (p + 4) (a_mem s)) in *.
  assert (Hgen : forall s' : st, a_mem s' = a_mem s ->
    iter_fuel fuel (fun ptr => if ptr <? p + len then let! n := madt_entry ptr in ret (inl (ptr + n))
      else ret (inr tt)) (p + sizeof_madt_t) s' = OutOfFuel); [|by apply Hgen].
  unfold sizeof_madt_t. induction fuel as [|n IH]; intros s' Hm; [done|].
  cbn [iter_fuel]. unfold bind at 1. rewrite (proj2 (Z.ltb_lt _ _)) by lia.
  assert (He : wp (madt_entry (p + 44)) (fun r s2 => r = 0 /\ a_mem s2 = a_mem s) s').
  { unfold madt_entry. apply wp_bind, wp_field; [lia|]. apply wp_bind.
    assert (Hend : forall s2 : st, a_mem s2 = a_mem s -> wp (field (p + 44) 1 1) (fun r s2 => r = 0 /\ a_mem s2 = a_mem s) s2).
    { intros s2 H2. apply wp_field; [lia|]. by replace (p + 44 + 1) with (p + 45) by lia; rewrite H2. }
    destruct (_ =? 1); [|by apply wp_ret, Hend].
    apply wp_bind, wp_field; [lia|]. by apply wp_modify, Hend. }
  apply wp_run in He as (r & s2 & He & -> & Hm2). unfold bind at 1. rewrite He. cbn [obind ret].
  rewrite Z.add_0_r. by apply IH.
Qed.

(** ** Start-up *)

(** Where the root pointer leads and the size of the pointers there. *)
Definition root_of (m : ram) (p : Z) : Z * Z :=
  if 2 <=? ld 1 (p + 15) m then (ld 8 (p + 24) m, 8) else (ld 4 (p + 16) m, 4).
Definition root_tables (m : ram) (p : Z) (es : list Z) : tables :=
  with_tables m es (if 2 <=? ld 1 (p + 15) m then mk_tables p p 0 (ld 8 (p + 24) m) 0 0 0 0 0
                    else mk_tables p 0 (ld 4 (p + 16) m) 0 0 0 0 0 0).
Definition no_tables : tables := mk_tables 0 0 0 0 0 0 0 0 0.

(** What firmware leaves in memory: a root pointer at [p], a list [es] of
    tables and among them a MADT with the items [l]. *)
Record firmware (m : ram) (p : Z) (es : list Z) (l : list item) : Prop := {
  fw_ptr : p <> 0;
  fw_root : root_at m (root_of m p).1 (root_of m p).2 es;
  fw_madt : madt_at m (pick m APIC_SIG es 0) l
}.

Lemma find_pointer_ok p s (Q : unit -> st -> Prop) : p <> 0 -> a_tables s = no_tables ->
  Q tt (moved s (mk_tables p (if 2 <=? ld 1 (p + 15) (a_mem s) then p else 0) 0 0 0 0 0 0 0)) ->
  wp (find_acpi_table_pointer p) Q s.
Proof.
  intros Hp Ht HQ. unfold find_acpi_table_pointer. rewrite (proj2 (Z.eqb_neq _ _)) by done.
  apply wp_bind, wp_modify, wp_bind, wp_field; [done|]. cbn [a_mem]. rewrite Ht. cbn.
  destruct (2 <=? ld 1 (p + 15) (a_mem s)); [by apply wp_modify | by apply wp_ret].
Qed.

Lemma validate_ok p s (Q : verdict -> st -> Prop) : p <> 0 -> (forall v, Q v s) -> wp (validate_rsdp_table p) Q s.
Proof.
  intros Hp HQ. unfold validate_rsdp_table. rewrite (proj2 (Z.eqb_neq _ _)) by done.
  apply wp_bind, wp_field_bytes; [done|]. case_bool_decide; [|by apply wp_ret].
  apply wp_bind, wp_field_bytes; [done|]. by apply wp_ret.
Qed.

Lemma parse_root_ok p es s (Q : unit -> st -> Prop) : p <> 0 ->
  root_at (a_mem s) (root_of (a_mem s) p).1 (root_of (a_mem s) p).2 es ->
  a_tables s = mk_tables p (if 2 <=? ld 1 (p + 15) (a_mem s) then p else 0) 0 0 0 0 0 0 0 ->
  Q tt (moved s (root_tables (a_mem s) p es)) -> wp (parse_rsdt_table p) Q s.
Proof.
  intros Hp Hr Ht HQ. unfold parse_rsdt_table. apply wp_bind, wp_field; [done|].
  unfold root_of in Hr. unfold root_tables in HQ.
  destruct (2 <=? ld 1 (p + 15) (a_mem s)); cbn [fst snd] in Hr;
    (apply wp_bind, wp_field; [done|]; apply wp_bind, wp_modify, (parse_entries_ok _ _ es); [lia | exact Hr |];
     rewrite Ht; exact HQ).
Qed.

(** The PM1a control port, the command port and the value that switches the
    hardware to ACPI mode, from the FADT at [f]. *)
Definition pm1a_of (m : ram) (f : Z) : Z :=
  if (2 <=? ld 1 (f + 8) m) && negb (ld 8 (f + 176) m =? 0) then u32 (ld 8 (f + 176) m) else ld 4 (f + 64) m.
Definition smi_of (m : ram) (f : Z) : Z := ld 4 (f + 48) m.
Definition enable_of (m : ram) (f : Z) : Z := ld 1 (f + 52) m.

(** Hardware with these ports: [sci] says whether it is in ACPI mode. *)
Class AcpiHw (pm1a smi enable : Z) := {
  sci : E -> bool;
  status_read : forall e, exists v e', inw pm1a e = Ret (v, e') /\ Z.testbit v 0 = sci e /\ sci e' = sci e;
  enable_write : forall e, exists e', outb smi enable e = Ret (tt, e') /\ sci e' = true
}.

Section enable.
Context (m : ram) (f : Z) `{Hw : AcpiHw (u16 (pm1a_of m f)) (u16 (smi_of m f)) (enable_of m f)}.
Hypothesis (Hf : f <> 0) (Hpm : pm1a_of m f <> 0) (Hsmi : smi_of m f <> 0) (Hen : enable_of m f <> 0).

Lemma control_block_ok s (Q : Z -> st -> Prop) : a_mem s = m -> Q (pm1a_of m f) s -> wp (control_block f 172 64) Q s.
Proof using Hf.
  intros Hm HQ. unfold control_block. apply wp_bind, wp_field; [done|]. apply wp_bind, wp_field; [done|].
  rewrite Hm. change (172 + 4) with 176. unfold pm1a_of in HQ.
  destruct (_ && _); [by apply wp_ret|]. apply wp_field; [done|]. by rewrite Hm.
Qed.

Lemma land_1 v : (Z.land v 1 =? 0) = negb (Z.testbit v 0).
Proof using. exact (land_bit v 0 ltac:(lia)). Qed.

(** The status is tested and the mode switched if it has to be. *)
Lemma enable_ok s (Q : unit -> st -> Prop) : a_mem s = m -> fadt (a_tables s) = f ->
  (forall e, sci e = true -> Q tt (mk_acpis e m (a_tables s))) ->
  wp (let! on := is_acpi_enabled in if on =? 0 then acpi_enable else ret tt) Q s.
Proof using Hf Hpm Hsmi Hen.
  intros Hm Ht HQ. apply wp_bind. unfold is_acpi_enabled. apply wp_bind, wp_gets. rewrite Ht.
  rewrite (proj2 (Z.eqb_neq f 0)) by done. apply wp_bind, control_block_ok; [done|].
  rewrite (proj2 (Z.eqb_neq (pm1a_of m f) 0)) by done. apply wp_bind. unfold wp at 1, on_ports.
  destruct (status_read (a_env s)) as (v & e1 & -> & Hv & Hs1). cbn [obind]. apply wp_ret.
  rewrite land_1, Hv, Hm. destruct (sci (a_env s)) eqn:Hon; cbn [negb Z.eqb].
  - apply wp_ret, HQ. congruence.
  - unfold acpi_enable. apply wp_bind, wp_gets. cbn [a_tables]. rewrite Ht, (proj2 (Z.eqb_neq f 0)) by done.
    apply wp_bind, wp_field; [done|]. apply wp_bind, wp_field; [done|]. cbn [a_mem].
    fold (smi_of m f). fold (enable_of m f).
    rewrite (proj2 (Z.eqb_neq (smi_of m f) 0)), (proj2 (Z.eqb_neq (enable_of m f) 0)) by done. cbn [negb andb].
    unfold wp, on_ports. cbn [a_env]. destruct (enable_write e1) as (e2 & -> & He2). cbn [obind]. by apply HQ.
Qed.
End enable.
End root.

(** C25 With the tables of the firmware in memory, starting ACPI finds every
    table the root table lists (the last one of each signature), the address
    of the I/O APIC that the MADT gives, and leaves the hardware in ACPI
    mode, for root tables of either kind. *)
Theorem init_acpi_ok {E} {P : Ports E} {P2 : Ports16 E} {Mm : Mmio E} fuel p es l (s : acpis E) (f : Z)
    {Hw : AcpiHw (u16 (pm1a_of (a_mem s) f)) (u16 (smi_of (a_mem s) f)) (enable_of (a_mem s) f)} :
  a_tables s = no_tables -> firmware (a_mem s) p es l -> (length l < fuel)%nat ->
  f = pick (a_mem s) FACP_SIG es 0 -> f <> 0 ->
  pm1a_of (a_mem s) f <> 0 -> smi_of (a_mem s) f <> 0 -> enable_of (a_mem s) f <> 0 ->
  exists s', init_acpi fuel p s = Ret (tt, s') /\ sci (a_env s') = true /\
    a_tables s' = with_ioapic l (root_tables (a_mem s) p es) /\
    fadt (a_tables s') = f /\ madt (a_tables s') = pick (a_mem s) APIC_SIG es 0 /\
    mcfg (a_tables s') = pick (a_mem s) MCFG_SIG es 0 /\ hpet (a_tables s') = pick (a_mem s) HPET_SIG es 0 /\
    found_ioapic (a_tables s') = ioapic_of l 0.
Proof.
  intros Ht [Hp Hr Hm] Hfuel Hf Hf0 Hpm Hsmi Hen.
  assert (Hsel : fadt (root_tables (a_mem s) p es) = f /\ madt (root_tables (a_mem s) p es) = pick (a_mem s) APIC_SIG es 0 /\
    mcfg (root_tables (a_mem s) p es) = pick (a_mem s) MCFG_SIG es 0 /\
    hpet (root_tables (a_mem s) p es) = pick (a_mem s) HPET_SIG es 0 /\ found_ioapic (root_tables (a_mem s) p es) = 0).
  { unfold root_tables. destruct (2 <=? _); cbn; by rewrite Hf. }
  destruct Hsel as (Hs1 & Hs2 & Hs3 & Hs4 & Hs5).
  assert (Hwp : wp (init_acpi fuel p) (fun _ s' => sci (a_env s') = true /\
    a_tables s' = with_ioapic l (root_tables (a_mem s) p es)) s).
  { unfold init_acpi. apply wp_bind, find_pointer_ok; [done.. |].
    apply wp_bind, wp_gets, wp_bind, validate_ok; [done|]. intros v.
    apply wp_bind, (parse_root_ok _ es); [done.. |].
    cbn [a_tables a_mem moved rsdp].
    apply wp_bind_assoc, wp_bind, (enable_ok (a_mem s) f Hf0 Hpm Hsmi Hen); [done | exact Hs1 |].
    intros e He. apply wp_bind, wp_gets. cbn [a_tables moved]. rewrite Hs2.
    by apply (parse_madt_ok _ _ l). }
  apply wp_run in Hwp as ([] & s' & Hrun & Hsci & Htab). exists s'. rewrite Htab.
  split_and!; try done. cbn [with_ioapic found_ioapic]. by rewrite Hs5.
Qed.

(** ** A small firmware: an XSDT with a MADT and a FADT *)
Module SmallAcpi.
Definition zeros (n : nat) : list Z := replicate n 0.
Definition rsdp_image : list Z :=
  RSD_PTR ++ [0xD1] ++ zeros 6 ++ [2] ++ le_bytes 4 0 ++ le_bytes 4 36 ++ le_bytes 8 0x2000 ++ zeros 4.
Definition xsdt_image : list Z :=
  [88; 83; 68; 84] ++ le_bytes 4 52 ++ zeros 28 ++ le_bytes 8 0x3000 ++ le_bytes 8 0x4000.
Definition items : list item :=
  [ mk_item 0 [0; 0; 1; 0; 0; 0]; mk_item 1 ([0; 0] ++ le_bytes 4 0xFEC00000 ++ le_bytes 4 0);
    mk_item 2 [0; 0; 2; 0; 0; 0; 0; 0] ].
Definition madt_image : list Z :=
  APIC_SIG ++ le_bytes 4 74 ++ zeros 28 ++ le_bytes 4 0xFEE00000 ++ le_bytes 4 1 ++ items_bytes items.
Definition fadt_image : list Z :=
  FACP_SIG ++ le_bytes 4 116 ++ [1] ++ zeros 39 ++ le_bytes 4 0xB2 ++ [0xF1] ++ zeros 11 ++ le_bytes 4 0x604 ++ zeros 48.

Definition memory : ram := fun a =>
  let at_ b (l : list Z) := default 0 (l !! Z.to_nat (a - b)) in
  if a <? 0x2000 then at_ 0x1000 rsdp_image else if a <? 0x3000 then at_ 0x2000 xsdt_image
  else if a <? 0x4000 then at_ 0x3000 madt_image else at_ 0x4000 fadt_image.

(** The hardware: whether it is in ACPI mode. *)
#[local] Instance ports_dev : Ports bool := {
  inb _ := ret 0; outb p v e := Ret (tt, if (p =? 0xB2) && (v =? 0xF1) then true else e);
  inl_port _ := ret 0; outl _ _ := ret tt }.
#[local] Instance ports16_dev : Ports16 bool := {
  inw p e := Ret (if p =? 0x604 then Z.b2z e else 0, e); outw _ _ := ret tt; poke _ _ := ret tt }.
#[local] Instance mmio_dev : Mmio bool := {
  mmio_read _ := ret 0; mmio_write _ _ := ret tt; rdmsr _ := ret 0; wrmsr _ _ := ret tt }.
#[local] Instance hw_dev : AcpiHw 0x604 0xB2 0xF1 := {
  sci e := e; status_read e := ex_intro _ (Z.b2z e) (ex_intro _ e (conj eq_refl (conj (Z.b2z_bit0 e) eq_refl)));
  enable_write e := ex_intro _ true (conj eq_refl eq_refl) }.

Definition start : acpis bool := mk_acpis false memory no_tables.

#[local] Instance hw_start :
  AcpiHw (u16 (pm1a_of (a_mem start) 0x4000)) (u16 (smi_of (a_mem start) 0x4000)) (enable_of (a_mem start) 0x4000).
Proof.
  replace (u16 (pm1a_of (a_mem start) 0x4000)) with 0x604 by (vm_compute; reflexivity).
  replace (u16 (smi_of (a_mem start) 0x4000)) with 0xB2 by (vm_compute; reflexivity).
  replace (enable_of (a_mem start) 0x4000) with 0xF1 by (vm_compute; reflexivity). exact hw_dev.
Defined.

Lemma start_firmware : firmware (a_mem start) 0x1000 [0x3000; 0x4000] items.
Proof.
  split; [done | |].
  - split; [by vm_compute | by vm_compute | | by repeat constructor | by vm_compute].
    intros [|[|i]] e He; [injection He as <-; by vm_compute.. | done].
  - replace (pick _ _ _ _) with 0x3000 by (vm_compute; reflexivity).
    split; [done | by vm_compute | by vm_compute |]. repeat constructor; by vm_compute.
Qed.

Lemma init_acpi_ok_witness : exists s', init_acpi 4 0x1000 start = Ret (tt, s') /\
  found_ioapic (a_tables s') = 0xFEC00000 /\ madt (a_tables s') = 0x3000 /\ fadt (a_tables s') = 0x4000.
Proof.
  destruct (init_acpi_ok 4 0x1000 [0x3000; 0x4000] items start 0x4000 eq_refl start_firmware)
    as (s' & Hrun & _ & _ & Hf & Hm & _ & _ & Hi);
    [cbn; lia | by vm_compute.. |].
  exists s'. split; [exact Hrun|]. split; [|split].
  - rewrite Hi. vm_compute. reflexivity.
  - rewrite Hm. vm_compute. reflexivity.
  - exact Hf.
Defined.
End SmallAcpi.
