(* ===== verification/Timers.v ===== *)
(** Timers: kernel/src/sys/timer (pit_timer.c, apic_timer.c, tsc.c) and the
    HPET (sys/acpi/descriptor_table/hpet.c).

    The globals of the first three files are in [timers], beside the
    interrupt controllers of [Intc] and the interrupt flag; the table of
    handlers is that of [Irq], whose machine they are.  [Events] has what the
    processor waits for: [wait_irq] is the line of the next interrupt that
    ends a hlt, [rdtsc] the time stamp counter.  A hlt with interrupts
    disabled never ends.  Messages are left out. *)
From S2P Require Import Prelude Ports Irq Pmm Descriptors Intc Acpi.

Class Events (E : Type) := { wait_irq : M E Z; rdtsc : M E Z }.

Definition PIT_TIMER_IRQ : Z := 0.
Definition MAX_PIT_TICKS : Z := 0xFFFFFFFFFFFFFFFF.
Definition CHANEL0_DATA_PORT : Z := 0x40.
Definition COMMAND_PORT : Z := 0x43.
Definition PIT_FREQUENCY : Z := 1193182.

Definition APIC_TIMER_VECTOR : Z := 48.
Definition APIC_IRQ : Z := 16.
Definition MAX_APIC_TICKS : Z := 0xFFFFFFFFFFFFFFFF.
Definition LAPIC_TPR_REGISTER : Z := 0x80.
Definition APIC_TIMER_DIV_REGISTER : Z := 0x3E0.
Definition APIC_TIMER_INITCNT_REGISTER : Z := 0x380.
Definition APIC_TIMER_CURRCNT_REGISTER : Z := 0x390.
Definition APIC_LVT_TIMER_REGISTER : Z := 0x320.
Definition APIC_LVT_TIMER_MODE_PERIODIC : Z := Z.shiftl 1 17.
Definition APIC_LVT_TIMER_MODE_ONESHOT : Z := 0.
Definition DIV_BY_16 : Z := 3.

(** The handlers of this component. *)
Inductive handler := PitTimer | ApicTimer.
#[global] Instance handler_eq_dec : EqDecision handler.
Proof. solve_decision. Defined.

Record timers (E : Type) := mk_timers {
  t_ics : ics E; t_if : bool; pit_ticks : Z; frequency : Z;
  apic_ticks : list Z; apic_calibrated : bool; apic_timer_ticks_per_ms : Z; cpu_frequency_hz : Z
}.
Arguments mk_timers {E}.
Arguments t_ics {E}.
Arguments t_if {E}.
Arguments pit_ticks {E}.
Arguments frequency {E}.
Arguments apic_ticks {E}.
Arguments apic_calibrated {E}.
Arguments apic_timer_ticks_per_ms {E}.
Arguments cpu_frequency_hz {E}.

Section timers.
Context {E : Type} `{Ports E} `{Mmio E} `{Events E} (has_apic : bool).
Abbreviation tm := (timers E).
Abbreviation st := (irq_state tm handler).

Definition on_ics {A} (m : M (ics E) A) : M tm A := fun s =>
  obind (m (t_ics s)) (fun '(a, i) =>
    Ret (a, mk_timers i (t_if s) (pit_ticks s) (frequency s) (apic_ticks s) (apic_calibrated s)
              (apic_timer_ticks_per_ms s) (cpu_frequency_hz s))).
Definition on_port {A} (m : M E A) : M tm A := on_ics (on_dev m).

Definition set_if (b : bool) : M tm unit := modify (fun s =>
  mk_timers (t_ics s) b (pit_ticks s) (frequency s) (apic_ticks s) (apic_calibrated s)
    (apic_timer_ticks_per_ms s) (cpu_frequency_hz s)).
Definition cli : M tm unit := set_if false.
Definition sti : M tm unit := set_if true.
Definition set_pit (ticks freq : Z) : M tm unit := modify (fun s =>
  mk_timers (t_ics s) (t_if s) ticks freq (apic_ticks s) (apic_calibrated s)
    (apic_timer_ticks_per_ms s) (cpu_frequency_hz s)).
Definition set_apic_ticks (l : list Z) : M tm unit := modify (fun s =>
  mk_timers (t_ics s) (t_if s) (pit_ticks s) (frequency s) l (apic_calibrated s)
    (apic_timer_ticks_per_ms s) (cpu_frequency_hz s)).
Definition set_calibration (per_ms : Z) : M tm unit := modify (fun s =>
  mk_timers (t_ics s) (t_if s) (pit_ticks s) (frequency s) (apic_ticks s) true per_ms (cpu_frequency_hz s)).
Definition set_cpu_frequency (hz : Z) : M tm unit := modify (fun s =>
  mk_timers (t_ics s) (t_if s) (pit_ticks s) (frequency s) (apic_ticks s) (apic_calibrated s)
    (apic_timer_ticks_per_ms s) hz).

(** ** The programmable interval timer *)

Definition read_pit_count : M tm Z :=
  cli ;;; on_port (outb COMMAND_PORT 0) ;;;
  let! lo := on_port (inb CHANEL0_DATA_PORT) in
  let! hi := on_port (inb CHANEL0_DATA_PORT) in
  sti ;;; ret (Z.lor lo (u16 (Z.shiftl hi 8))).

Definition set_pit_count (count : Z) : M tm unit :=
  cli ;;; on_port (outb CHANEL0_DATA_PORT (Z.land count 0xFF)) ;;;
  on_port (outb CHANEL0_DATA_PORT (Z.shiftr (Z.land count 0xFF00) 8)) ;;; sti.

Definition pit_timerHandler : M tm unit :=
  on_port (send_eoi PIT_TIMER_IRQ) ;;;
  let! t := gets pit_ticks in
  let! f := gets frequency in
  let t := if MAX_PIT_TICKS <=? t then 0 else t in
  set_pit (u64 (t + 1)) f.

Definition enable_pit_timer : M st unit := irq_install PIT_TIMER_IRQ PitTimer.
Definition disable_pit_timer : M st unit := irq_uninstall PIT_TIMER_IRQ.

(** An interval of 0 ms, or of more than 1000 ms, divides by zero. *)
Definition init_pit_timer (interval_ms : Z) : M st unit :=
  on_machine cli ;;; enable_pit_timer ;;;
  guard (negb (interval_ms =? 0)) ;;;
  let freq := 1000 / interval_ms in
  let! t := on_machine (gets pit_ticks) in
  on_machine (set_pit t freq) ;;;
  guard (negb (freq =? 0)) ;;;
  let divisor := u16 (PIT_FREQUENCY / freq) in
  on_machine (on_port (outb COMMAND_PORT 0x36)) ;;;
  on_machine (set_pit_count divisor) ;;;
  on_machine sti ;;;
  on_machine (on_port (send_eoi PIT_TIMER_IRQ)).

(** ** The timer of the local APIC: its handler *)

Definition get_core_id : M tm Z := on_ics get_lapic_id.

(** [apic_ticks[i]] of the 256 counters. *)
Definition ticks_at (i : Z) : M tm Z := fun s =>
  match apic_ticks s !! Z.to_nat i with
  | Some v => if 0 <=? i then Ret (v, s) else Undef
  | None => Undef
  end.
Definition put_ticks (i v : Z) : M tm unit :=
  let! _ := ticks_at i in
  let! l := gets apic_ticks in set_apic_ticks (<[Z.to_nat i := v]> l).

Definition apic_timer_handler : M tm unit :=
  let! cpu_id := get_core_id in
  let! t := ticks_at cpu_id in
  let t := if MAX_APIC_TICKS <=? t then 0 else t in
  let! k := gets apic_timer_ticks_per_ms in
  put_ticks cpu_id (u64 (t + k)) ;;;
  on_ics apic_send_eoi.

(** ** Waiting *)

Definition exec (h : handler) : M tm unit :=
  match h with PitTimer => pit_timerHandler | ApicTimer => apic_timer_handler end.

Definition hlt : M st unit :=
  let! on := gets (fun s => t_if (machine s)) in
  if negb on then halt else
  let! line := on_machine (on_port wait_irq) in
  irq_handler exec has_apic (on_ics apic_send_eoi) (fun p v => on_port (outb p v)) (32 + line).

(** The product is computed in 32 bits. *)
Definition pit_sleep (fuel : nat) (millisec : Z) : M st unit :=
  let! t := gets (fun s => pit_ticks (machine s)) in
  let! f := gets (fun s => frequency (machine s)) in
  let endTicks := u64 (t + u32 (f * millisec) / 1000) in
  iter_fuel fuel (fun _ : unit =>
    let! t := gets (fun s => pit_ticks (machine s)) in
    if t <? endTicks then hlt ;;; ret (inl tt) else ret (inr tt)) tt.

(** ** The time stamp counter *)

Definition read_tsc : M st Z := on_machine (on_port rdtsc).

Definition get_cpu_freq_msr (fuel : nat) : M st Z :=
  let! start_tsc := read_tsc in
  pit_sleep fuel 100 ;;;
  let! end_tsc := read_tsc in
  ret (u64 (u64 (end_tsc - start_tsc) * 10)).

Definition tsc_sleep (fuel : nat) (microseconds : Z) : M st unit :=
  on_machine cli ;;;
  let! start := read_tsc in
  let! hz := gets (fun s => cpu_frequency_hz (machine s)) in
  let cycles_to_wait := u64 (microseconds * hz) / 1000000 in
  iter_fuel fuel (fun _ : unit =>
    let! t := read_tsc in
    if u64 (t - start) <? cycles_to_wait then ret (inl tt) else ret (inr tt)) tt ;;;
  on_machine sti.

Definition init_tsc (fuel : nat) : M st unit :=
  let! hz := get_cpu_freq_msr fuel in on_machine (set_cpu_frequency hz).

(** ** Calibrating and starting the APIC timer *)

(** The timer counts down from its maximum during [sleep]. *)
Definition count_during (sleep : M st unit) : M st Z :=
  on_machine (on_ics (apic_write LAPIC_TPR_REGISTER 0x0)) ;;;
  on_machine (on_ics (apic_write APIC_TIMER_DIV_REGISTER DIV_BY_16)) ;;;
  on_machine (on_ics (apic_write APIC_TIMER_INITCNT_REGISTER 0xFFFFFFFF)) ;;;
  sleep ;;;
  let! end_count := on_machine (on_ics (apic_read APIC_TIMER_CURRCNT_REGISTER)) in
  ret (u32 (0xFFFFFFFF - end_count)).

(** The product is computed in 32 bits before it is widened. *)
Definition calibrate_apic_timer_tsc (fuel : nat) : M st unit :=
  let! elapsed := count_during (tsc_sleep fuel 100000) in
  on_machine (set_calibration (u32 (elapsed * 10) / 1000)).

Definition calibrate_apic_timer_pit (fuel : nat) : M st unit :=
  let! elapsed := count_during (pit_sleep fuel 1000) in
  on_machine (set_calibration (elapsed / 1000)).

Definition apic_start_oneshot_timer (initial_count : Z) : M st unit :=
  on_machine (on_ics (apic_write LAPIC_TPR_REGISTER 0x0)) ;;;
  on_machine (on_ics (apic_write APIC_TIMER_DIV_REGISTER DIV_BY_16)) ;;;
  on_machine (on_ics (apic_write APIC_TIMER_INITCNT_REGISTER initial_count)) ;;;
  on_machine (on_ics (apic_write APIC_LVT_TIMER_REGISTER (Z.lor APIC_TIMER_VECTOR APIC_LVT_TIMER_MODE_ONESHOT))).

Definition init_apic_timer (fuel : nat) (interval_ms : Z) : M st unit :=
  let! on := on_machine (on_ics is_apic_enabled) in
  if negb on then ret tt else
  let! cpu_id := on_machine get_core_id in
  on_machine (put_ticks cpu_id 0) ;;;
  on_machine cli ;;;
  irq_install APIC_IRQ ApicTimer ;;;
  apic_start_oneshot_timer 0xFFFFFFFF ;;;
  let! k := gets (fun s => apic_timer_ticks_per_ms (machine s)) in
  (if k =? 0 then calibrate_apic_timer_pit fuel else ret tt) ;;;
  let! k := gets (fun s => apic_timer_ticks_per_ms (machine s)) in
  on_machine (on_ics (apic_write APIC_LVT_TIMER_REGISTER (Z.lor APIC_TIMER_VECTOR APIC_LVT_TIMER_MODE_PERIODIC))) ;;;
  on_machine (on_ics (apic_write APIC_TIMER_DIV_REGISTER DIV_BY_16)) ;;;
  on_machine (on_ics (apic_write APIC_TIMER_INITCNT_REGISTER (u32 (k * interval_ms)))) ;;;
  on_machine sti.

Definition apic_delay (fuel : nat) (milliseconds : Z) : M st unit :=
  let! cpu_id := on_machine get_core_id in
  let! start_ticks := on_machine (ticks_at cpu_id) in
  let! k := gets (fun s => apic_timer_ticks_per_ms (machine s)) in
  let target_ticks := u64 (start_ticks + u64 (milliseconds * k)) in
  iter_fuel fuel (fun _ : unit =>
    let! t := on_machine (ticks_at cpu_id) in
    if t <? target_ticks then hlt ;;; ret (inl tt) else ret (inr tt)) tt.

Definition get_apic_ticks : M tm Z :=
  let! cpu_id := get_core_id in ticks_at cpu_id.
End timers.

(** ** The high precision event timer *)

Definition HPET_GENERAL_CAPS : Z := 0x000.
Definition HPET_GENERAL_CONFIG : Z := 0x010.
Definition HPET_MAIN_COUNTER : Z := 0x0F0.
Definition HPET_TIMER0_CONFIG : Z := 0x100.
Definition HPET_TIMER0_COMPARATOR : Z := 0x108.
Definition HPET_TN_INT_ENB_CNF : Z := Z.shiftl 1 2.
Definition HPET_TN_TYPE_CNF : Z := Z.shiftl 1 3.
Definition HPET_TN_VAL_SET_CNF : Z := Z.shiftl 1 6.
Definition HPET_TN_IRQ_SHIFT : Z := 9.

Class Mmio64 (E : Type) := { mmio_read64 : Z -> M E Z; mmio_write64 : Z -> Z -> M E unit }.

(** The static variables of hpet.c, 0 for a NULL base. *)
Record hpet_state (E : Type) := mk_hpet { h_env : E; hpet_base : Z; hpet_tick_period_fs : Z; hpet_frequency_hz : Z }.
Arguments mk_hpet {E}.
Arguments h_env {E}.
Arguments hpet_base {E}.
Arguments hpet_tick_period_fs {E}.
Arguments hpet_frequency_hz {E}.

Section hpet.
Context {E : Type} `{Mmio E} `{Mmio64 E}.
Abbreviation st := (hpet_state E).

Definition on_hpet {A} (m : M E A) : M st A := fun s =>
  obind (m (h_env s)) (fun '(a, e) => Ret (a, mk_hpet e (hpet_base s) (hpet_tick_period_fs s) (hpet_frequency_hz s))).
Definition set_hpet (base period hz : Z) : M st unit := modify (fun s => mk_hpet (h_env s) base period hz).

Definition hpet_clear_enable (base : Z) : M st unit :=
  let! v := on_hpet (mmio_read (base + HPET_GENERAL_CONFIG)) in
  on_hpet (mmio_write (base + HPET_GENERAL_CONFIG) (Z.land v (u32 (Z.lnot 1)))).
Definition hpet_set_enable (base : Z) : M st unit :=
  let! v := on_hpet (mmio_read (base + HPET_GENERAL_CONFIG)) in
  on_hpet (mmio_write (base + HPET_GENERAL_CONFIG) (Z.lor v 1)).

(** [table]: the address space and the base address in the HPET's ACPI table,
    [None] for a NULL pointer, which the message of the source dereferences. *)
Definition hpet_init (table : option (Z * Z)) : M st unit :=
  match table with
  | None => undef
  | Some (space, base) =>
      if negb (space =? 0) then ret tt else
      let! s := get in
      set_hpet base (hpet_tick_period_fs s) (hpet_frequency_hz s) ;;;
      hpet_clear_enable base ;;;
      let! capabilities := on_hpet (mmio_read64 (base + HPET_GENERAL_CAPS)) in
      let period := u32 (Z.shiftr capabilities 32) in
      guard (negb (period =? 0)) ;;;
      set_hpet base period (1000000000000000 / period) ;;;
      on_hpet (mmio_write64 (base + HPET_MAIN_COUNTER) 0) ;;;
      hpet_set_enable base
  end.

Definition hpet_sleep_us (fuel : nat) (microseconds : Z) : M st unit :=
  let! base := gets hpet_base in
  let! period := gets hpet_tick_period_fs in
  if (base =? 0) || (period =? 0) then ret tt else
  let! start := on_hpet (mmio_read64 (base + HPET_MAIN_COUNTER)) in
  let ticks := u64 (microseconds * 1000000000) / period in
  let stop := u64 (start + ticks) in
  iter_fuel fuel (fun _ : unit =>
    let! now := on_hpet (mmio_read64 (base + HPET_MAIN_COUNTER)) in
    if now <? stop then ret (inl tt) else ret (inr tt)) tt.

(** The installation of the handler is [irq_install] of [Irq]. *)
Definition hpet_enable_periodic_irq (irq_number period_fs : Z) : M st unit :=
  let! base := gets hpet_base in
  let! period := gets hpet_tick_period_fs in
  if (base =? 0) || (period =? 0) then ret tt else
  let ticks := period_fs / period in
  hpet_clear_enable base ;;;
  on_hpet (mmio_write64 (base + HPET_TIMER0_CONFIG) 0) ;;;
  on_hpet (mmio_write64 (base + HPET_TIMER0_COMPARATOR) ticks) ;;;
  on_hpet (mmio_write64 (base + HPET_TIMER0_CONFIG) HPET_TN_VAL_SET_CNF) ;;;
  on_hpet (mmio_write64 (base + HPET_TIMER0_COMPARATOR) ticks) ;;;
  on_hpet (mmio_write64 (base + HPET_TIMER0_CONFIG)
    (Z.lor (Z.lor HPET_TN_TYPE_CNF HPET_TN_INT_ENB_CNF)
       (Z.shiftl (Z.land irq_number 0x1F) HPET_TN_IRQ_SHIFT))) ;;;
  hpet_set_enable base.
End hpet.
