(* ===== verification/TimersProps.v ===== *)
(** Timers: sleeping on timer interrupts lasts exactly the interrupts asked
    for and ends; programming the interval timer. *)
From S2P Require Import Prelude Ports Irq Pmm Descriptors Intc IntProps Acpi Timers.

(** ** The machine around the timers *)

(** [due n e]: how many other interrupts at most come before one on line
    [n], for the two timer lines; [core] is the local APIC's identifier. *)
Class TimerHw (E : Type) {P : Ports E} {Mm : Mmio E} {Ev : Events E} := {
  due : Z -> E -> nat;
  due_max : nat;
  core : Z;
  core_range : 0 <= core < 256;
  wait_ok : forall e, exists n e', wait_irq e = Ret (n, e') /\ 0 <= n < 224 /\
    forall l, l = 0 \/ l = 16 -> (due l e' <= due_max)%nat /\ (n = l \/ (due l e' < due l e)%nat);
  out_ok : forall e p v, exists e', outb p v e = Ret (tt, e') /\ forall l, due l e' = due l e;
  write_ok : forall e a v, exists e', mmio_write a v e = Ret (tt, e') /\ forall l, due l e' = due l e;
  id_ok : forall e a, exists v e', mmio_read a e = Ret (v, e') /\ (forall l, due l e' = due l e) /\
    (a mod 4096 = LAPIC_ID_REGISTER -> Z.land (Z.shiftr v 24) 0xFF = core)
}.

Section waiting.
Context {E : Type} {P : Ports E} {Mm : Mmio E} {Ev : Events E} {Hw : TimerHw E} (has_apic : bool).
Abbreviation tm := (timers E).
Abbreviation st := (irq_state tm handler).

Definition env (s : tm) : E := i_env (t_ics s).

(** The counters and the table of handlers as the sleeping loops find them. *)
Record awake (s : st) : Prop := {
  aw_if : t_if (machine s) = true;
  aw_len : length (irq_routines s) = 224%nat;
  aw_ticks : length (apic_ticks (machine s)) = 256%nat;
  aw_base : LAPIC_BASE (t_ics (machine s)) mod 4096 = 0;
  aw_range : 0 <= LAPIC_BASE (t_ics (machine s)) < 4294967296
}.

(** What a step leaves alone: everything but the devices. *)
Record kept_t (s s' : tm) : Prop := {
  kt_due : forall l, due l (env s') = due l (env s);
  kt_if : t_if s' = t_if s; kt_pit : pit_ticks s' = pit_ticks s; kt_freq : frequency s' = frequency s;
  kt_ticks : apic_ticks s' = apic_ticks s; kt_per : apic_timer_ticks_per_ms s' = apic_timer_ticks_per_ms s;
  kt_base : LAPIC_BASE (t_ics s') = LAPIC_BASE (t_ics s)
}.
Lemma kept_t_refl s : kept_t s s.
Proof using. by split. Qed.
Lemma kept_t_trans s1 s2 s3 : kept_t s1 s2 -> kept_t s2 s3 -> kept_t s1 s3.
Proof using. intros [] []. split; congruence. Qed.

Lemma wp_on_machine {A} (m : M tm A) (Q : A -> st -> Prop) s :
  wp m (fun a x => Q a (mk_irq x (irq_routines s))) (machine s) -> wp (on_machine m) Q s.
Proof using. unfold wp, on_machine. by destruct (m (machine s)) as [[a x]| | |]. Qed.

Lemma tm_outb p v s (Q : unit -> tm -> Prop) : (forall s', kept_t s s' -> Q tt s') -> wp (on_port (outb p v)) Q s.
Proof using Hw.
  intros HQ. unfold wp, on_port, on_ics, on_dev. destruct (out_ok (i_env (t_ics s)) p v) as (e & -> & Hd).
  cbn [obind]. apply HQ. by split.
Qed.

Lemma wp_send_eoi irq s (Q : unit -> tm -> Prop) :
  (forall s', kept_t s s' -> Q tt s') -> wp (on_port (send_eoi irq)) Q s.
Proof using Hw.
  intros HQ. unfold wp, on_port, on_ics, on_dev, send_eoi, bind.
  destruct (40 <=? irq).
  - destruct (out_ok (i_env (t_ics s)) PIC2_COMMAND_PORT PIC_EOI) as (e & -> & Hd). cbn [obind].
    destruct (out_ok e PIC1_COMMAND_PORT PIC_EOI) as (e2 & -> & Hd2). cbn [obind].
    apply HQ. split; try done. intros l. cbn. by rewrite Hd2, Hd.
  - cbn [obind ret]. destruct (out_ok (i_env (t_ics s)) PIC1_COMMAND_PORT PIC_EOI) as (e2 & -> & Hd2).
    cbn [obind]. apply HQ. by split.
Qed.

Lemma wp_apic_eoi s (Q : unit -> tm -> Prop) : (forall s', kept_t s s' -> Q tt s') -> wp (on_ics apic_send_eoi) Q s.
Proof using Hw.
  intros HQ. unfold wp, on_ics, apic_send_eoi, bind, gets. cbn [obind].
  destruct (LAPIC_BASE (t_ics s) =? 0); [by apply HQ; split|]. unfold on_dev.
  destruct (write_ok (i_env (t_ics s)) (u32 (LAPIC_BASE (t_ics s) + LAPIC_EOI_REGISTER)) 0) as (e & -> & Hd).
  cbn [obind]. apply HQ. by split.
Qed.

Lemma wp_core s (Q : Z -> tm -> Prop) : LAPIC_BASE (t_ics s) mod 4096 = 0 -> 0 <= LAPIC_BASE (t_ics s) < 4294967296 ->
  (forall s', kept_t s s' -> Q core s') -> wp get_core_id Q s.
Proof using Hw.
  intros Hb Hr HQ. unfold wp, get_core_id, on_ics, get_lapic_id, apic_read, bind, gets, on_dev. cbn [obind].
  destruct (id_ok (i_env (t_ics s)) (u32 (LAPIC_BASE (t_ics s) + LAPIC_ID_REGISTER))) as (v & e & -> & Hd & Hv).
  cbn [obind ret]. rewrite Hv; [by apply HQ; split|].
  unfold LAPIC_ID_REGISTER, u32. Z.to_euclidean_division_equations; lia.
Qed.

(** ** Handlers and hlt *)

(** The effect of an interrupt on line [n] with the handler [h]. *)
Definition pit_after (h : option handler) (t : Z) : Z :=
  match h with
  | Some PitTimer => u64 ((if MAX_PIT_TICKS <=? t then 0 else t) + 1)
  | _ => t
  end.
Definition apic_after (h : option handler) (t k : Z) : Z :=
  match h with
  | Some ApicTimer => u64 ((if MAX_APIC_TICKS <=? t then 0 else t) + k)
  | _ => t
  end.

Record ticked (h : option handler) (s s' : tm) : Prop := {
  tk_due : forall l, due l (env s') = due l (env s);
  tk_if : t_if s' = t_if s;
  tk_pit : pit_ticks s' = pit_after h (pit_ticks s);
  tk_freq : frequency s' = frequency s;
  tk_len : length (apic_ticks s') = length (apic_ticks s);
  tk_apic : forall t, apic_ticks s !! Z.to_nat core = Some t ->
    apic_ticks s' !! Z.to_nat core = Some (apic_after h t (apic_timer_ticks_per_ms s));
  tk_per : apic_timer_ticks_per_ms s' = apic_timer_ticks_per_ms s;
  tk_base : LAPIC_BASE (t_ics s') = LAPIC_BASE (t_ics s)
}.

Lemma ticked_kept h s s1 s2 : ticked h s s1 -> kept_t s1 s2 -> ticked h s s2.
Proof using.
  intros [] []. split; try congruence.
  - intros t Ht. by rewrite kt_ticks0; apply tk_apic0.
Qed.
Lemma kept_ticked h s s1 s2 : kept_t s s1 -> ticked h s1 s2 -> ticked h s s2.
Proof using.
  intros [] []. split; try congruence.
  - intros t Ht. rewrite <- kt_per0. apply tk_apic0. by rewrite kt_ticks0.
Qed.

Lemma pit_handler_ok s (Q : unit -> tm -> Prop) :
  (forall s', ticked (Some PitTimer) s s' -> Q tt s') -> wp pit_timerHandler Q s.
Proof using Hw.
  intros HQ. unfold pit_timerHandler. apply wp_bind, wp_send_eoi. intros s1 Hk.
  apply wp_bind, wp_gets, wp_bind, wp_gets, wp_modify, HQ, (kept_ticked _ _ _ _ Hk). by split.
Qed.

Lemma wp_ticks_at i s t (Q : Z -> tm -> Prop) : 0 <= i -> apic_ticks s !! Z.to_nat i = Some t -> Q t s ->
  wp (ticks_at i) Q s.
Proof using. intros Hi Ht HQ. unfold wp, ticks_at. by rewrite Ht, (proj2 (Z.leb_le _ _)). Qed.

Lemma apic_handler_ok s (Q : unit -> tm -> Prop) : length (apic_ticks s) = 256%nat ->
  LAPIC_BASE (t_ics s) mod 4096 = 0 -> 0 <= LAPIC_BASE (t_ics s) < 4294967296 ->
  (forall s', ticked (Some ApicTimer) s s' -> Q tt s') -> wp apic_timer_handler Q s.
Proof using Hw.
  intros Hl Hb Hr HQ. unfold apic_timer_handler. apply wp_bind, wp_core; [done..|]. intros s1 Hk.
  pose proof core_range as Hc. pose proof Hk as [_ _ _ _ Ht Hp _].
  destruct (lookup_lt_is_Some_2 (apic_ticks s1) (Z.to_nat core)) as [t Hv]; [rewrite Ht; lia|].
  apply wp_bind, (wp_ticks_at _ _ t); [lia | done |]. apply wp_bind, wp_gets, wp_bind. unfold put_ticks.
  apply wp_bind, (wp_ticks_at _ _ t); [lia | done |]. apply wp_bind, wp_gets, wp_modify, wp_apic_eoi.
  intros s2 Hk2. apply HQ, (kept_ticked _ _ _ _ Hk). refine (ticked_kept _ _ _ _ _ Hk2).
  split; cbn; try done; [by rewrite length_insert|].
  intros t' Ht'. rewrite list_lookup_insert_eq by (rewrite Ht; lia). by simplify_eq.
Qed.

(** The next interrupt, on line [n] with handler [h]. *)
Record step (n : Z) (h : option handler) (s s' : st) : Prop := {
  st_table : irq_routines s' = irq_routines s;
  st_handler : irq_routines s !! Z.to_nat n = Some h;
  st_due : forall l, l = 0 \/ l = 16 -> (due l (env (machine s')) <= due_max)%nat /\
                     (n = l \/ (due l (env (machine s')) < due l (env (machine s)))%nat);
  st_awake : awake s';
  st_pit : pit_ticks (machine s') = pit_after h (pit_ticks (machine s));
  st_freq : frequency (machine s') = frequency (machine s);
  st_apic : forall t, apic_ticks (machine s) !! Z.to_nat core = Some t ->
    apic_ticks (machine s') !! Z.to_nat core = Some (apic_after h t (apic_timer_ticks_per_ms (machine s)));
  st_per : apic_timer_ticks_per_ms (machine s') = apic_timer_ticks_per_ms (machine s)
}.

Lemma exec_ok h s (Q : unit -> tm -> Prop) : length (apic_ticks s) = 256%nat ->
  LAPIC_BASE (t_ics s) mod 4096 = 0 -> 0 <= LAPIC_BASE (t_ics s) < 4294967296 ->
  (forall s', ticked h s s' -> Q tt s') -> wp (match h with Some h => exec h | None => ret tt end) Q s.
Proof using Hw.
  intros Hl Hb Hr HQ. destruct h as [[]|]; [by apply pit_handler_ok | by apply apic_handler_ok |].
  apply wp_ret, HQ. by split.
Qed.

Lemma wp_wait s (Q : Z -> tm -> Prop) :
  (forall n s', 0 <= n < 224 -> (forall l, l = 0 \/ l = 16 -> (due l (env s') <= due_max)%nat /\ (n = l \/ (due l (env s') < due l (env s))%nat)) ->
     (exists e, s' = mk_timers (mk_ics e (LAPIC_BASE (t_ics s)) (ioapic_addr (t_ics s)) (i_cpu (t_ics s)))
        (t_if s) (pit_ticks s) (frequency s) (apic_ticks s) (apic_calibrated s)
        (apic_timer_ticks_per_ms s) (cpu_frequency_hz s)) -> Q n s') -> wp (on_port wait_irq) Q s.
Proof using Hw.
  intros HQ. unfold wp, on_port, on_ics, on_dev.
  destruct (wait_ok (i_env (t_ics s))) as (n & e & -> & Hn & Hd). cbn [obind]. apply HQ; [done..|by eexists].
Qed.

Lemma hlt_ok s (Q : unit -> st -> Prop) : awake s ->
  (forall n h s', step n h s s' -> Q tt s') -> wp (hlt has_apic) Q s.
Proof using Hw.
  intros Ha HQ. pose proof Ha as [Hif Hlen Hat Hb Hr]. unfold hlt.
  apply wp_bind, wp_gets. rewrite Hif. cbn [negb].
  apply wp_bind, wp_on_machine, wp_wait. intros n x Hn Hd [e He]. unfold irq_handler.
  apply wp_bind, wp_gets. replace (32 + n - 32) with n by lia. cbn [irq_routines].
  apply wp_bind, wp_guard; [rewrite Hlen; bool_true|].
  destruct (lookup_lt_is_Some_2 (irq_routines s) (Z.to_nat n)) as [h Hh]; [lia|]. rewrite Hh.
  apply wp_bind.
  assert (Hend : forall y, ticked h x y -> Q tt (mk_irq y (irq_routines s))).
  { intros y [D I Pt F L T Pr B]. apply (HQ n h). subst x. cbn in *.
    split; cbn; try done; [|split; cbn; congruence].
    intros l Hl. rewrite D. exact (Hd l Hl). }
  assert (Hrun : wp (on_machine (match h with Some h => exec h | None => ret tt end))
    (fun _ s2 => wp (if has_apic then on_machine (on_ics apic_send_eoi)
       else (if 40 <=? 32 + n then on_machine (on_port (outb PIC_COMMAND_SLAVE PIC_EOI)) else ret tt) ;;;
            on_machine (on_port (outb PIC_COMMAND_MASTER PIC_EOI))) Q s2) (mk_irq x (irq_routines s))).
  2: { destruct h; exact Hrun. }
  apply wp_on_machine, exec_ok; [by subst x..|]. cbn [machine irq_routines]. intros y Hy.
  destruct has_apic.
  - apply wp_on_machine, wp_apic_eoi. cbn. intros z Hz. apply Hend. by eapply ticked_kept.
  - apply wp_bind. destruct (40 <=? 32 + n).
    + apply wp_on_machine, tm_outb. cbn. intros z Hz. apply wp_on_machine, tm_outb. cbn.
      intros z' Hz'. apply Hend. eapply ticked_kept; [|exact Hz']. by eapply ticked_kept.
    + apply wp_ret, wp_on_machine, tm_outb. cbn. intros z Hz. apply Hend. by eapply ticked_kept.
Qed.

(** ** Sleeping *)

(** A loop that waits for a counter: [rd] reads it and [cnt] is its value,
    which grows by [k] when an interrupt runs the handler [h] and stays
    otherwise; line [l] has that handler. *)
Section sleep.
Context (rd : M st Z) (cnt : tm -> Z) (k l lo target per : Z) (h : handler).
Hypothesis Hk : 0 < k.
Hypothesis rd_ok : forall s, awake s -> rd s = Ret (cnt (machine s), s).
Hypothesis cnt_step : forall n g s s', awake s -> step n g s s' ->
  apic_timer_ticks_per_ms (machine s) = per -> lo <= cnt (machine s) -> cnt (machine s) + k <= target ->
  cnt (machine s') = if decide (g = Some h) then cnt (machine s) + k else cnt (machine s).

Definition wait_for (fuel : nat) : M st unit :=
  iter_fuel fuel (fun _ : unit =>
    let! t := rd in if t <? target then hlt has_apic ;;; ret (inl tt) else ret (inr tt)) tt.

Lemma wait_for_ok fuel r s (Q : unit -> st -> Prop) : awake s -> l = 0 \/ l = 16 ->
  irq_routines s !! Z.to_nat l = Some (Some h) -> apic_timer_ticks_per_ms (machine s) = per -> lo <= cnt (machine s) ->
  target = cnt (machine s) + Z.of_nat r * k ->
  (r * S due_max + due l (env (machine s)) < fuel)%nat ->
  (forall s', awake s' -> irq_routines s' = irq_routines s -> cnt (machine s') = target ->
     frequency (machine s') = frequency (machine s) ->
     apic_timer_ticks_per_ms (machine s') = apic_timer_ticks_per_ms (machine s) -> Q tt s') ->
  wp (wait_for fuel) Q s.
Proof using Hw Hk rd_ok cnt_step.
  intros Ha Hl Hh Hp Hlo Ht Hf HQ. unfold wait_for.
  apply (wp_iter_idx (fun '(r, d) => r * S due_max + d)%nat (fun '(r, d) _ s' => awake s' /\
    irq_routines s' = irq_routines s /\ lo <= cnt (machine s') /\ target = cnt (machine s') + Z.of_nat r * k /\
    d = due l (env (machine s')) /\ frequency (machine s') = frequency (machine s) /\
    apic_timer_ticks_per_ms (machine s') = apic_timer_ticks_per_ms (machine s)) _ _ _ (r, due l (env (machine s))));
    [|done|done].
  clear r Ha Ht Hf Hlo. intros [r d] _ s1 (Ha & Htab & Hlo & Ht & -> & Hfr & Hper).
  apply wp_bind. unfold wp at 1. rewrite (rd_ok s1 Ha). destruct (Z.ltb_spec (cnt (machine s1)) target) as [Hlt|Hge].
  2: { apply wp_ret, HQ; try done. nia. }
  assert (Hr : (0 < r)%nat) by nia.
  apply wp_bind, hlt_ok; [done|]. intros n g s2 Hs. apply wp_ret.
  pose proof (cnt_step n g s1 s2 Ha Hs ltac:(congruence) Hlo ltac:(nia)) as Hc. destruct Hs as [S1 S2 S3 S4 S5 S6 S7 S8].
  destruct (S3 l Hl) as [Hmax Hdec]. destruct (decide (g = Some h)) as [->|Hg].
  - exists ((r - 1)%nat, due l (env (machine s2))). split; [|nia].
    split_and!; try congruence; rewrite Hc; nia.
  - exists (r, due l (env (machine s2))). split; [by split_and!; try congruence|].
    destruct Hdec as [->|Hdec]; [|nia]. rewrite Htab, Hh in S2. congruence.
Qed.
End sleep.

(** C20 A sleep on the interval timer ends, whatever other interrupts come
    between, exactly when the number of timer interrupts that the frequency
    gives for the time asked has passed. *)
Theorem pit_sleep_ok fuel ms (s : st) : awake s -> irq_routines s !! 0%nat = Some (Some PitTimer) ->
  0 <= pit_ticks (machine s) -> 0 <= ms -> 0 <= frequency (machine s) -> frequency (machine s) * ms < 4294967296 ->
  pit_ticks (machine s) + frequency (machine s) * ms / 1000 < MAX_PIT_TICKS ->
  (Z.to_nat (frequency (machine s) * ms / 1000) * S due_max + due 0 (env (machine s)) < fuel)%nat ->
  exists s', pit_sleep has_apic fuel ms s = Ret (tt, s') /\ awake s' /\
    pit_ticks (machine s') = pit_ticks (machine s) + frequency (machine s) * ms / 1000.
Proof using Hw.
  intros Ha Hh Hp Hms Hfr Hov Hmax Hfuel. set (q := frequency (machine s) * ms / 1000) in *.
  assert (Hq : 0 <= q) by (apply Z.div_pos; nia). unfold MAX_PIT_TICKS in Hmax.
  enough (Hwp : wp (pit_sleep has_apic fuel ms) (fun _ s' => awake s' /\
    pit_ticks (machine s') = pit_ticks (machine s) + q) s).
  { apply wp_run in Hwp as ([] & s' & ? & ? & ?). by exists s'. }
  unfold pit_sleep. apply wp_bind, wp_gets, wp_bind, wp_gets.
  rewrite (u32_small (_ * _)) by nia. fold q. rewrite u64_small by lia.
  apply (wait_for_ok (gets (fun s => pit_ticks (machine s))) pit_ticks 1 0 (pit_ticks (machine s))
    _ (apic_timer_ticks_per_ms (machine s)) PitTimer ltac:(lia) ltac:(done)) with (r := Z.to_nat q);
    [|done|by left|done|done|lia|lia|done|by intros].
  intros n g s1 s2 _ [_ _ _ _ Hpit _ _ _] _ Hge Hle. rewrite Hpit. destruct g as [[]|]; cbn; try done.
  unfold MAX_PIT_TICKS. destruct (Z.leb_spec 0xFFFFFFFFFFFFFFFF (pit_ticks (machine s1))); [lia|].
  rewrite u64_small by lia. by rewrite decide_True.
Qed.

(** A delay on the APIC timer ends after exactly as many timer interrupts as
    milliseconds are asked for: the counter grows by the ticks of a
    millisecond per interrupt, and the interrupts come every 100 ms. *)
Theorem apic_delay_ok fuel ms t (s : st) : awake s -> irq_routines s !! 16%nat = Some (Some ApicTimer) ->
  apic_ticks (machine s) !! Z.to_nat core = Some t -> 0 <= t -> 0 <= ms ->
  0 < apic_timer_ticks_per_ms (machine s) -> t + ms * apic_timer_ticks_per_ms (machine s) < MAX_APIC_TICKS ->
  (Z.to_nat ms * S due_max + due 16 (env (machine s)) < fuel)%nat ->
  exists s', apic_delay has_apic fuel ms s = Ret (tt, s') /\
    apic_ticks (machine s') !! Z.to_nat core = Some (t + ms * apic_timer_ticks_per_ms (machine s)).
Proof using Hw.
  intros Ha Hh Ht Ht0 Hms Hk Hmax Hfuel. set (k := apic_timer_ticks_per_ms (machine s)) in *.
  unfold MAX_APIC_TICKS in Hmax. pose proof core_range as Hcr.
  set (cnt := fun x : tm => default 0 (apic_ticks x !! Z.to_nat core)).
  enough (Hwp : wp (apic_delay has_apic fuel ms) (fun _ s' => awake s' /\ cnt (machine s') = t + ms * k) s).
  { apply wp_run in Hwp as ([] & s' & Hrun & Ha' & Hc). exists s'. split; [done|]. unfold cnt in Hc.
    destruct (lookup_lt_is_Some_2 (apic_ticks (machine s')) (Z.to_nat core)) as [v Hv];
      [rewrite (aw_ticks _ Ha'); lia|]. rewrite Hv in Hc |- *. cbn in Hc. by rewrite Hc. }
  unfold apic_delay. apply wp_bind, wp_on_machine, wp_core; [apply Ha..|]. intros x Hx.
  pose proof Hx as [D I Pt F T Pr B].
  apply wp_bind, wp_on_machine, (wp_ticks_at _ _ t); [lia | cbn; by rewrite T |]. apply wp_bind, wp_gets. cbn [machine irq_routines].
  rewrite Pr. fold k. rewrite (u64_small (ms * k)) by nia. rewrite u64_small by nia.
  set (s1 := mk_irq x (irq_routines s)).
  assert (Ha1 : awake s1) by (destruct Ha; split; cbn; congruence).
  apply (wait_for_ok (on_machine (ticks_at core)) cnt k 16 t _ k ApicTimer Hk) with (r := Z.to_nat ms);
    [| |done|by right|done|done| | | |by intros].
  - intros s2 Ha2. unfold on_machine, ticks_at, cnt.
    destruct (lookup_lt_is_Some_2 (apic_ticks (machine s2)) (Z.to_nat core)) as [v Hv];
      [rewrite (aw_ticks _ Ha2); lia|]. rewrite Hv, (proj2 (Z.leb_le 0 core)) by lia. by destruct s2.
  - intros n g s2 s3 Ha2 [_ _ _ _ _ _ Hap _] Hp2 Hlo Hle. unfold cnt in *.
    destruct (lookup_lt_is_Some_2 (apic_ticks (machine s2)) (Z.to_nat core)) as [v Hv];
      [rewrite (aw_ticks _ Ha2); lia|]. rewrite (Hap v Hv), Hp2. rewrite Hv in Hlo, Hle |- *. cbn [default id] in *.
    destruct g as [[]|]; cbn [apic_after default id]; rewrite ?decide_False by done; try done.
    rewrite decide_True by done. unfold MAX_APIC_TICKS.
    destruct (Z.leb_spec 0xFFFFFFFFFFFFFFFF v); [lia|]. apply u64_small. lia.
  - cbn. unfold cnt. rewrite T, Ht. done.
  - cbn. unfold cnt. rewrite T, Ht. cbn [default id]. lia.
  - cbn. rewrite D. exact Hfuel.
Qed.
End waiting.

(** ** Programming the interval timer *)

(** What channel 0 of the chip is waiting for after a command. *)
Inductive pit_phase := Running | WaitLow | WaitHigh (lo : Z).

(** The chip: [reload] is the divisor it counts down from. *)
Class PitChip (E : Type) {P : Ports E} := {
  phase : E -> pit_phase;
  reload : E -> Z;
  pit_command : forall e, exists e', outb COMMAND_PORT 0x36 e = Ret (tt, e') /\ phase e' = WaitLow;
  pit_low : forall e v, phase e = WaitLow -> exists e', outb CHANEL0_DATA_PORT v e = Ret (tt, e') /\ phase e' = WaitHigh v;
  pit_high : forall e lo v, phase e = WaitHigh lo ->
    exists e', outb CHANEL0_DATA_PORT v e = Ret (tt, e') /\ phase e' = Running /\ reload e' = lo + 256 * v;
  pit_eoi : forall e, exists e', outb PIC1_COMMAND_PORT PIC_EOI e = Ret (tt, e') /\ reload e' = reload e
}.

Section program.
Context {E : Type} {P : Ports E} {Mm : Mmio E} {Ev : Events E} {Ch : PitChip E}.
Abbreviation tm := (timers E).
Abbreviation st := (irq_state tm handler).

Lemma divisor_bytes d : 0 <= d < 65536 -> Z.land d 0xFF + 256 * Z.shiftr (Z.land d 0xFF00) 8 = d.
Proof using.
  intros Hd. rewrite Z.shiftr_land. change (Z.shiftr 0xFF00 8) with (Z.ones 8). change 0xFF with (Z.ones 8).
  rewrite !Z.land_ones, Z.shiftr_div_pow2 by lia. change (2 ^ 8) with 256.
  Z.to_euclidean_division_equations; lia.
Qed.

(** For an interval of 1 to 1000 ms the chip gets the low 16 bits of the
    quotient of its clock and the frequency; up to 52 ms that is the quotient
    itself. *)
Theorem init_pit_timer_ok ms (s : st) : 1 <= ms <= 1000 -> (1 <= length (irq_routines s))%nat ->
  exists s', init_pit_timer ms s = Ret (tt, s') /\
    reload (env (machine s')) = PIT_FREQUENCY / (1000 / ms) mod 65536 /\
    (ms <= 52 -> reload (env (machine s')) = PIT_FREQUENCY / (1000 / ms)) /\
    frequency (machine s') = 1000 / ms /\ t_if (machine s') = true /\
    irq_routines s' !! 0%nat = Some (Some PitTimer).
Proof using Ch.
  intros Hms Hlen. assert (Hf : 1 <= 1000 / ms <= 1000) by (Z.to_euclidean_division_equations; nia).
  set (f := 1000 / ms) in *. set (d := u16 (PIT_FREQUENCY / f)).
  assert (Hd : 0 <= d < 65536) by apply u16_range.
  enough (Hrun : exists s', init_pit_timer ms s = Ret (tt, s') /\ reload (env (machine s')) = d /\
    frequency (machine s') = f /\ t_if (machine s') = true /\ irq_routines s' !! 0%nat = Some (Some PitTimer)).
  { destruct Hrun as (s' & ? & Hr & ? & ? & ?). exists s'. split_and!; try done. intros H52. rewrite Hr.
    unfold d. apply u16_small. unfold PIT_FREQUENCY.
    assert (19 <= f) by (unfold f; Z.to_euclidean_division_equations; nia).
    Z.to_euclidean_division_equations; nia. }
  destruct s as [x tab]. cbn [irq_routines] in Hlen.
  destruct (pit_command (env x)) as (e1 & H1 & F1). destruct (pit_low e1 (Z.land d 0xFF) F1) as (e2 & H2 & F2).
  destruct (pit_high e2 _ (Z.shiftr (Z.land d 0xFF00) 8) F2) as (e3 & H3 & _ & R3).
  destruct (pit_eoi e3) as (e4 & H4 & R4).
  eexists. split.
  - unfold init_pit_timer, enable_pit_timer, irq_install, irq_set, bind, gets, guard, modify.
    cbn [obind on_machine irq_routines machine].
    rewrite (proj2 (Z.eqb_neq ms 0)) by lia. fold f. rewrite (proj2 (Z.eqb_neq f 0)) by lia. fold d. cbn.
    rewrite (proj2 (Z.ltb_lt PIT_TIMER_IRQ (zlen tab))) by (unfold PIT_TIMER_IRQ; lia). cbn.
    unfold on_machine at 1, on_port, on_ics, on_dev. cbn. unfold env in H1. rewrite H1. cbn.
    unfold on_machine at 1, set_pit_count, bind, on_port, on_ics, on_dev. cbn. rewrite H2. cbn. rewrite H3. cbn.
    unfold on_machine, send_eoi, bind. cbn. rewrite H4. cbn. reflexivity.
  - cbn. rewrite R4, R3, divisor_bytes by done. split_and!; try done.
    apply (list_lookup_insert_eq tab 0). exact Hlen.
Qed.
End program.

(** ** A machine with three interrupts in turn: keyboard, PIT, APIC timer *)
Module SmallTimer.
Inductive turn := Keys | Pit | Apic.
Record dev := mk_dev { d_turn : turn; d_phase : pit_phase; d_reload : Z }.

#[local] Instance ports_dev : Ports dev := {
  inb _ := ret 0;
  outb p v e :=
    Ret (tt, if (p =? COMMAND_PORT) && (v =? 0x36) then mk_dev (d_turn e) WaitLow (d_reload e) else
             if p =? CHANEL0_DATA_PORT then
               match d_phase e with
               | Running => e
               | WaitLow => mk_dev (d_turn e) (WaitHigh v) (d_reload e)
               | WaitHigh lo => mk_dev (d_turn e) Running (lo + 256 * v)
               end
             else e);
  inl_port _ := ret 0; outl _ _ := ret tt }.
#[local] Instance mmio_dev : Mmio dev := {
  mmio_read _ := ret 0; mmio_write _ _ := ret tt; rdmsr _ := ret 0; wrmsr _ _ := ret tt }.
#[local] Instance events_dev : Events dev := {
  wait_irq e :=
    match d_turn e with
    | Keys => Ret (1, mk_dev Pit (d_phase e) (d_reload e))
    | Pit => Ret (0, mk_dev Apic (d_phase e) (d_reload e))
    | Apic => Ret (16, mk_dev Keys (d_phase e) (d_reload e))
    end;
  rdtsc := ret 0 }.

Definition due_in (l : Z) (e : dev) : nat :=
  match d_turn e, (l =? 0)%Z with
  | Keys, true => 1 | Pit, true => 0 | Apic, true => 2
  | Keys, false => 2 | Pit, false => 1 | Apic, false => 0
  end.

#[local] Program Instance hw_dev : TimerHw dev := { due := due_in; due_max := 2; core := 0 }.
Next Obligation. lia. Qed.
Next Obligation.
  intros e. unfold wait_irq, events_dev, due_in.
  destruct (d_turn e); eexists _, _; (split; [reflexivity|]); (split; [lia|]); intros l [-> | ->]; cbn; lia.
Qed.
Next Obligation.
  intros e p v. eexists. split; [reflexivity|]. intros l. unfold due_in.
  by destruct (_ && _); [|destruct (_ =? _); [destruct (d_phase e)|]].
Qed.
Next Obligation. intros e a v. by eexists. Qed.
Next Obligation. intros e a. by exists 0, e. Qed.

#[local] Program Instance chip_dev : PitChip dev := { phase := d_phase; reload := d_reload }.
Next Obligation. intros e. by eexists. Qed.
Next Obligation. intros e v Hp. unfold outb, ports_dev. cbn. rewrite Hp. by eexists. Qed.
Next Obligation. intros e lo v Hp. unfold outb, ports_dev. cbn. rewrite Hp. by eexists. Qed.
Next Obligation. intros e. by eexists. Qed.

Definition icst : ics dev := mk_ics (mk_dev Keys Running 0) 0xFEE00000 0xFEC00000 SmallInts.cpu0.
Definition start : irq_state (timers dev) handler :=
  mk_irq (mk_timers icst true 7 10 (replicate 256 0) true 5 0)
    (<[0%nat := Some PitTimer]> (<[16%nat := Some ApicTimer]> (replicate 224 None))).

Lemma start_awake : awake start.
Proof. by split. Qed.

(** A second is ten interrupts at the frequency of 10 Hz. *)
Lemma pit_sleep_ok_witness : exists s', pit_sleep true 40 1000 start = Ret (tt, s') /\ awake s' /\
  pit_ticks (machine s') = 17.
Proof.
  apply (pit_sleep_ok true 40 1000 start start_awake); first [by vm_compute | vm_compute; lia].
Defined.

(** The interval of the kernel, 100 ms, is programmed as 53782 pulses: 45 ms. *)
Lemma init_pit_timer_100 : exists s', init_pit_timer 100 start = Ret (tt, s') /\
  reload (env (machine s')) = 53782 /\ frequency (machine s') = 10.
Proof.
  destruct (init_pit_timer_ok 100 start) as (s' & Hr & Hd & _ & Hf & _); [lia | by vm_compute; lia |].
  by exists s'.
Qed.
End SmallTimer.
