(* ===== verification/UserMode.v ===== *)
(** User programs (kernel/src/usr): loading an ELF image
    (load_and_parse_elf.c) and the hand-assembled program of
    switch_to_user.c.

    Memory is the byte memory of [Ahci]; the image is the one the bootloader
    put at [elf_base].  uheap_alloc is a parameter: the addresses it returns.
    The jump to user mode is the pair of the stack and the code address it
    gets.  Headers are read again in every round of the loop, from the memory
    as it is then. *)
From S2P Require Import Prelude Ahci Acpi.

Definition PT_LOAD : Z := 1.
Definition sizeof_Elf64_Phdr : Z := 56.
Definition USER_STACK_SIZE : Z := 0x4000.

(** The fields of an ELF header at [b] that are used. *)
Definition e_entry (b : Z) (m : ram) : Z := ld 8 (b + 24) m.
Definition e_phoff (b : Z) (m : ram) : Z := ld 8 (b + 32) m.
Definition e_phnum (b : Z) (m : ram) : Z := ld 2 (b + 56) m.

(** The fields of a program header at [p] that are used. *)
Definition p_type (p : Z) (m : ram) : Z := ld 4 p m.
Definition p_offset (p : Z) (m : ram) : Z := ld 8 (p + 8) m.
Definition p_vaddr (p : Z) (m : ram) : Z := ld 8 (p + 16) m.
Definition p_filesz (p : Z) (m : ram) : Z := ld 8 (p + 32) m.
Definition p_memsz (p : Z) (m : ram) : Z := ld 8 (p + 40) m.

(** [memcpy] and [memset] on the memory, byte by byte. *)
Fixpoint copy_bytes (n : nat) (d s : Z) (m : ram) : ram :=
  match n with
  | O => m
  | S n => copy_bytes n (d + 1) (s + 1) (st_bytes d [m s] m)
  end.
Fixpoint set_bytes (n : nat) (d v : Z) (m : ram) : ram :=
  match n with
  | O => m
  | S n => set_bytes n (d + 1) v (st_bytes d [v] m)
  end.

(** One segment, with the header at [ph]. *)
Definition load_segment (elf_base ph : Z) (m : ram) : ram :=
  if negb (p_type ph m =? PT_LOAD) then m else
  let src := u64 (elf_base + p_offset ph m) in
  let dst := p_vaddr ph m in
  let m1 := copy_bytes (Z.to_nat (p_filesz ph m)) dst src m in
  set_bytes (Z.to_nat (u64 (p_memsz ph m1 - p_filesz ph m1))) (u64 (dst + p_filesz ph m1)) 0 m1.

(** The loop has a 16-bit counter and a 16-bit bound. *)
Definition load_segments (fuel : nat) (elf_base phdrs : Z) : M ram unit :=
  iter_fuel fuel (fun i =>
    let! n := gets (e_phnum elf_base) in
    if i <? n then
      modify (load_segment elf_base (u64 (phdrs + i * sizeof_Elf64_Phdr))) ;;; ret (inl (u16 (i + 1)))
    else ret (inr tt)) 0.

(** [stack]: what uheap_alloc returns for the user stack. *)
Definition load_user_elf_and_jump (fuel : nat) (elf_base stack : Z) : M ram (Z * Z) :=
  let! phoff := gets (e_phoff elf_base) in
  load_segments fuel elf_base (u64 (elf_base + phoff)) ;;;
  let! user_entry := gets (e_entry elf_base) in
  ret (stack, user_entry).

(** ** The program of switch_to_user.c *)

(** The eight bytes [(a >> 0) & 0xFF] to [(a >> 56) & 0xFF]. *)
Definition address_bytes (a : Z) : list Z :=
  [Z.land (Z.shiftr a 0) 0xFF; Z.land (Z.shiftr a 8) 0xFF; Z.land (Z.shiftr a 16) 0xFF; Z.land (Z.shiftr a 24) 0xFF;
   Z.land (Z.shiftr a 32) 0xFF; Z.land (Z.shiftr a 40) 0xFF; Z.land (Z.shiftr a 48) 0xFF; Z.land (Z.shiftr a 56) 0xFF].

Definition user_program (str_addr read_buf_addr filename_ptr : Z) : list Z :=
  [0x48; 0xBB] ++ address_bytes str_addr ++
  [0xCD; 0x5A] ++
  [0x48; 0xBB] ++ address_bytes read_buf_addr ++
  [0x48; 0xC7; 0xC1; 0x40; 0x00; 0x00; 0x00] ++
  [0xCD; 0x59] ++
  [0x48; 0xBB] ++ address_bytes read_buf_addr ++
  [0xCD; 0x5A] ++
  [0x48; 0xBB] ++ address_bytes filename_ptr ++
  [0xB0; 0x01] ++
  [0xCD; 0x33] ++
  [0x48; 0xBB] ++ address_bytes read_buf_addr ++
  [0x48; 0xC7; 0xC1; 0x40; 0x00; 0x00; 0x00] ++
  [0x48; 0xC7; 0xC2; 0x00; 0x00; 0x00; 0x00] ++
  [0xCD; 0x36] ++
  [0x48; 0xC7; 0xC2; 0x00; 0x00; 0x00; 0x00] ++
  [0xCD; 0x34] ++
  [0x48; 0xBB] ++ address_bytes str_addr ++
  [0xCD; 0x5A] ++
  [0xEB; 0xFE].

(** "Enter input: " and "test.txt", with their terminators. *)
Definition prompt_text : list Z := [69; 110; 116; 101; 114; 32; 105; 110; 112; 117; 116; 58; 32; 0].
Definition filename_text : list Z := [116; 101; 115; 116; 46; 116; 120; 116; 0].

(** [user_code], [prompt_str], [read_buf] and [filename] are the addresses
    uheap_alloc returns. *)
Definition create_user_function (user_code prompt_str read_buf filename : Z) : M ram Z :=
  modify (st_bytes prompt_str prompt_text) ;;;
  modify (st_bytes filename filename_text) ;;;
  modify (st_bytes user_code (user_program prompt_str read_buf filename)) ;;;
  ret user_code.

Definition init_user_mode (user_code prompt_str read_buf filename stack : Z) : M ram (Z * Z) :=
  let! code_addr := create_user_function user_code prompt_str read_buf filename in
  ret (u64 (stack + USER_STACK_SIZE), code_addr).

(** The privilege level of the code segment. *)
Definition is_user_mode (cs : Z) : bool := Z.land cs 0x3 =? 3.
