(* ===== verification/UserModeProps.v ===== *)
(** Loading puts the image that the program headers describe into memory; the
    hand-assembled program is the sequence of instructions it is meant to be. *)
From S2P Require Import Prelude Ahci AhciProps Acpi AcpiProps UserMode.

(** ** Copying *)

Lemma st_bytes_nil a m x : st_bytes a [] m x = m x.
Proof. unfold st_bytes. cbn [length]. case_if; [lia | done]. Qed.

Lemma st_bytes_cons a v l m x : st_bytes (a + 1) l (st_bytes a [v] m) x = st_bytes a (v :: l) m x.
Proof. exact (st_bytes_app a [v] l m x). Qed.

Lemma ld_bytes_1 s m : ld_bytes s 1 m = [m s].
Proof. done. Qed.

(** Copying from a region that does not meet the target. *)
Lemma copy_bytes_ok n : forall d s m x,
  d + Z.of_nat n <= s \/ s + Z.of_nat n <= d ->
  copy_bytes n d s m x = st_bytes d (ld_bytes s (Z.of_nat n) m) m x.
Proof.
  induction n as [|n IH]; intros d s m x Hd; cbn [copy_bytes].
  - unfold ld_bytes. cbn. by rewrite st_bytes_nil.
  - rewrite IH by lia. rewrite Nat2Z.inj_succ, <- Z.add_1_l, ld_bytes_app by lia.
    rewrite ld_bytes_1. cbn [app].
    rewrite <- st_bytes_cons. f_equal. unfold ld_bytes. apply list_fmap_ext.
    intros i y Hy%lookup_seqZ. apply st_bytes_out. cbn [length]. lia.
Qed.

Lemma set_bytes_ok n : forall d v m x, set_bytes n d v m x = st_bytes d (replicate n v) m x.
Proof.
  induction n as [|n IH]; intros d v m x; cbn [set_bytes]; [by rewrite st_bytes_nil|].
  rewrite IH. cbn [replicate]. by rewrite <- st_bytes_cons.
Qed.

(** ** The reference: segments of an image *)

Record segment := mk_segment { sg_vaddr : Z; sg_data : list Z }.

(** The [i]-th program header of an image, as the bytes a segment puts at its
    address: its part of the file and then zeros. *)
Definition field_of (img : list Z) (o n : Z) : Z := le_val (slice o n img).
Definition header_at (img : list Z) (i : Z) : Z := field_of img 32 8 + i * 56.
Definition segment_of (img : list Z) (i : Z) : option segment :=
  let h := header_at img i in
  if field_of img h 4 =? 1 then
    Some (mk_segment (field_of img (h + 16) 8)
            (slice (field_of img (h + 8) 8) (field_of img (h + 32) 8) img ++
             replicate (Z.to_nat (field_of img (h + 40) 8 - field_of img (h + 32) 8)) 0))
  else None.
Definition header_count (img : list Z) : Z := field_of img 56 2.
Definition segments (img : list Z) : list segment := omap (segment_of img) (seqZ 0 (header_count img)).

(** Memory with the segments in it, later ones over earlier ones. *)
Definition with_segments (l : list segment) (m : ram) : ram :=
  fold_left (fun m s => st_bytes (sg_vaddr s) (sg_data s) m) l m.

(** An image whose headers lie in it, whose segments have their bytes in it
    and go to addresses outside it, at [b]. *)
Record image_ok (b : Z) (img : list Z) : Prop := {
  im_base : 0 <= b /\ b + zlen img < 18446744073709551616;
  im_bytes : Forall byte img;
  im_head : 64 <= zlen img;
  im_headers : field_of img 32 8 + header_count img * 56 <= zlen img;
  im_data : forall i, 0 <= i < header_count img -> let h := header_at img i in
    field_of img h 4 = 1 -> field_of img (h + 8) 8 + field_of img (h + 32) 8 <= zlen img /\
    field_of img (h + 32) 8 <= field_of img (h + 40) 8 /\
    field_of img (h + 16) 8 + field_of img (h + 40) 8 < 18446744073709551616 /\
    (field_of img (h + 16) 8 + field_of img (h + 40) 8 <= b \/ b + zlen img <= field_of img (h + 16) 8)
}.

Lemma field_range img o n : Forall byte img -> 0 <= o -> 0 <= n -> o + n <= zlen img ->
  0 <= field_of img o n < 256 ^ n.
Proof.
  intros Hb Ho Hn Hl. unfold field_of. pose proof (le_val_bound (slice o n img)) as Hv.
  rewrite length_slice in Hv by lia. rewrite Z2Nat.id in Hv by lia. apply Hv. by apply Forall_slice.
Qed.

(** ** Loading *)

Section loading.
Context (b : Z) (img : list Z) (Hok : image_ok b img).

Lemma ld_image m o n : lies m b img -> 0 <= o -> 0 <= n -> o + n <= zlen img -> ld n (b + o) m = field_of img o n.
Proof using. intros. by apply ld_lies. Qed.

Lemma lies_same m m' : (forall x, b <= x < b + zlen img -> m' x = m x) -> lies m b img -> lies m' b img.
Proof using. intros Hx Hl. unfold lies in *. rewrite <- Hl at 2. apply ld_bytes_ext. intros. apply Hx. lia. Qed.

Lemma header_range i : 0 <= i < header_count img -> 0 <= header_at img i /\ header_at img i + 56 <= zlen img.
Proof using Hok.
  intros Hi. destruct Hok as [Hb Hby Hh Hp _]. unfold header_at.
  pose proof (field_range img 32 8 Hby) as Hr. lia.
Qed.

Lemma header_field m i o n : lies m b img -> 0 <= i < header_count img -> 0 <= o -> 0 <= n -> o + n <= 56 ->
  ld n (b + header_at img i + o) m = field_of img (header_at img i + o) n.
Proof using Hok.
  intros Hl Hi Ho Hn Hs. pose proof (header_range i Hi). rewrite <- Z.add_assoc. apply ld_image; [done | lia..].
Qed.

Definition put (s : option segment) (m : ram) (x : Z) : Z :=
  match s with Some s => st_bytes (sg_vaddr s) (sg_data s) m x | None => m x end.

Lemma load_segment_ok m i : lies m b img -> 0 <= i < header_count img ->
  forall x, load_segment b (b + header_at img i) m x = put (segment_of img i) m x.
Proof using Hok.
  intros Hl Hi. pose proof (header_range i Hi) as Hh. pose proof (im_base _ _ Hok) as Hb.
  pose proof (im_bytes _ _ Hok) as Hby. pose proof (im_data _ _ Hok i Hi) as Hd. cbn zeta in Hd.
  unfold load_segment, segment_of. set (h := header_at img i) in *.
  assert (Hf : forall m', lies m' b img -> p_type (b + h) m' = field_of img h 4 /\ p_offset (b + h) m' = field_of img (h + 8) 8 /\
    p_vaddr (b + h) m' = field_of img (h + 16) 8 /\ p_filesz (b + h) m' = field_of img (h + 32) 8 /\
    p_memsz (b + h) m' = field_of img (h + 40) 8).
  { intros m' Hl'. unfold p_type, p_offset, p_vaddr, p_filesz, p_memsz.
    rewrite <- !Z.add_assoc, !ld_image by (done || lia). done. }
  destruct (Hf m Hl) as (-> & -> & -> & -> & _). unfold PT_LOAD.
  destruct (Z.eqb_spec (field_of img h 4) 1) as [H1|H1]; [|done]. cbn [negb].
  destruct (Hd H1) as (Hfile & Hmem & Htop & Hout).
  assert (H8 : forall o, 0 <= o -> o + 8 <= 56 -> 0 <= field_of img (h + o) 8 < 18446744073709551616).
  { intros o ? ?. apply (field_range img (h + o) 8 Hby); lia. }
  pose proof (H8 8 ltac:(lia) ltac:(lia)). pose proof (H8 16 ltac:(lia) ltac:(lia)).
  pose proof (H8 32 ltac:(lia) ltac:(lia)). pose proof (H8 40 ltac:(lia) ltac:(lia)).
  set (off := field_of img (h + 8) 8) in *. set (va := field_of img (h + 16) 8) in *.
  set (fs := field_of img (h + 32) 8) in *. set (ms := field_of img (h + 40) 8) in *.
  rewrite (u64_small (b + off)) by lia.
  set (m1 := copy_bytes (Z.to_nat fs) va (b + off) m).
  assert (Hm1 : forall x, m1 x = st_bytes va (slice off fs img) m x).
  { intros x. unfold m1. rewrite copy_bytes_ok by lia. rewrite Z2Nat.id by lia. f_equal.
    apply lies_slice; [done | lia..]. }
  assert (Hsl : length (slice off fs img) = Z.to_nat fs) by (apply length_slice; lia).
  assert (Hl1 : lies m1 b img).
  { apply (lies_same m); [|done]. intros x Hx. rewrite Hm1. apply st_bytes_out. lia. }
  destruct (Hf m1 Hl1) as (_ & _ & _ & -> & ->). intros x.
  rewrite (u64_small (ms - fs)), (u64_small (va + fs)) by lia.
  rewrite set_bytes_ok. cbn [put sg_vaddr sg_data]. rewrite <- st_bytes_app, Hsl, Z2Nat.id by lia.
  apply st_bytes_ext, Hm1.
Qed.

(** Segments stay clear of the image. *)
Lemma segment_clear i s : 0 <= i < header_count img -> segment_of img i = Some s ->
  sg_vaddr s + zlen (sg_data s) <= b \/ b + zlen img <= sg_vaddr s.
Proof using Hok.
  intros Hi Hs. pose proof (im_data _ _ Hok i Hi) as Hd. cbn zeta in Hd. unfold segment_of in Hs.
  pose proof (header_range i Hi) as Hh. pose proof (im_bytes _ _ Hok) as Hby.
  destruct (Z.eqb_spec (field_of img (header_at img i) 4) 1) as [H1|H1]; [|done]. simplify_eq.
  destruct (Hd H1) as (Hfile & Hmem & _ & Hout). cbn [sg_vaddr sg_data].
  pose proof (field_range img (header_at img i + 8) 8 Hby) as H8.
  pose proof (field_range img (header_at img i + 32) 8 Hby) as H32.
  rewrite length_app, length_replicate, length_slice by lia. lia.
Qed.

Lemma put_lies m m' i : 0 <= i < header_count img -> lies m b img ->
  (forall x, m' x = put (segment_of img i) m x) -> lies m' b img.
Proof using Hok.
  intros Hi Hl Hx. apply (lies_same m); [|done]. intros x Hr. rewrite Hx. unfold put.
  destruct (segment_of img i) as [s|] eqn:Hs; [|done]. apply st_bytes_out.
  pose proof (segment_clear i s Hi Hs). lia.
Qed.

Lemma with_segments_ext l : forall m m', (forall x, m' x = m x) -> forall x, with_segments l m' x = with_segments l m x.
Proof using.
  induction l as [|s l IH]; intros m m' Hm x; [apply Hm|]. cbn. apply IH. intros y. apply st_bytes_ext, Hm.
Qed.

Definition segments_upto (i : Z) : list segment := omap (segment_of img) (seqZ 0 i).
Lemma segments_upto_S i : 0 <= i ->
  segments_upto (i + 1) = segments_upto i ++ match segment_of img i with Some s => [s] | None => [] end.
Proof using.
  intros Hi. unfold segments_upto. rewrite seqZ_app, omap_app by lia. f_equal.
Qed.

Lemma count_range : 0 <= header_count img < 65536.
Proof using Hok. destruct Hok. apply (field_range img 56 2); lia || done. Qed.

Lemma load_segments_ok fuel m (Q : unit -> ram -> Prop) : lies m b img -> (Z.to_nat (header_count img) < fuel)%nat ->
  (forall m', lies m' b img -> (forall x, m' x = with_segments (segments img) m x) -> Q tt m') ->
  wp (load_segments fuel b (u64 (b + field_of img 32 8))) Q m.
Proof using Hok.
  intros Hl Hf HQ. pose proof count_range as Hc. pose proof (im_base _ _ Hok) as Hb.
  pose proof (im_head _ _ Hok) as Hhd. pose proof (im_headers _ _ Hok) as Hhs.
  pose proof (field_range img 32 8 (im_bytes _ _ Hok)) as Hph.
  apply (wp_iter (fun i m' => 0 <= i <= header_count img /\ lies m' b img /\
      (forall x, m' x = with_segments (segments_upto i) m x))
    (fun i _ => Z.to_nat (header_count img - i))); [| |lia].
  2: { split; [lia|]. by split. }
  intros i m' (Hi & Hl' & Hx). apply wp_bind, wp_gets. unfold e_phnum. rewrite ld_image by (done || lia).
  fold (header_count img). destruct (Z.ltb_spec i (header_count img)) as [Hlt|Hge].
  - apply wp_bind, wp_modify, wp_ret. rewrite u16_small by lia. split; [|lia].
    assert (Ha : u64 (u64 (b + field_of img 32 8) + i * sizeof_Elf64_Phdr) = b + header_at img i).
    { pose proof (header_range i ltac:(lia)) as Hr. unfold header_at, sizeof_Elf64_Phdr in *.
      rewrite (u64_small (b + _)) by lia. rewrite u64_small by lia. lia. }
    rewrite Ha. pose proof (load_segment_ok m' i Hl' ltac:(lia)) as Hs.
    split; [lia|]. split; [by apply (put_lies m' _ i); [lia|..]|]. intros x. rewrite Hs, segments_upto_S by lia.
    unfold put, with_segments. rewrite fold_left_app. destruct (segment_of img i) as [s|]; cbn; [|apply Hx].
    apply st_bytes_ext, Hx.
  - replace i with (header_count img) in * by lia. by apply wp_ret, HQ.
Qed.
End loading.

(** Segments that do not meet are all in memory in the end. *)
Definition apart (s t : segment) : Prop :=
  sg_vaddr s + zlen (sg_data s) <= sg_vaddr t \/ sg_vaddr t + zlen (sg_data t) <= sg_vaddr s.

Lemma with_segments_out l : forall m s, Forall (apart s) l -> lies m (sg_vaddr s) (sg_data s) ->
  lies (with_segments l m) (sg_vaddr s) (sg_data s).
Proof.
  induction l as [|t l IH]; intros m s Hf Hl; [done|]. apply Forall_cons in Hf as [Ht Hf].
  cbn. apply IH; [done|]. unfold lies in *. rewrite <- Hl at 2. by apply ld_st_disjoint.
Qed.

Lemma with_segments_lies l : forall m, ForallOrdPairs apart l ->
  Forall (fun s => lies (with_segments l m) (sg_vaddr s) (sg_data s)) l.
Proof.
  induction l as [|s l IH]; intros m Hp; [done|]. inversion_clear Hp. constructor.
  - cbn. apply with_segments_out; [done|]. apply ld_st_same.
  - cbn. by apply IH.
Qed.

(** C39 Loading an ELF image puts every loadable segment at its address, the
    bytes of the file first and zeros up to the size in memory, changes
    nothing else, and jumps to the entry point of the header. *)
Theorem load_user_elf_ok b img fuel stack m : image_ok b img -> lies m b img ->
  (Z.to_nat (header_count img) < fuel)%nat ->
  exists m', load_user_elf_and_jump fuel b stack m = Ret ((stack, field_of img 24 8), m') /\
    (forall x, m' x = with_segments (segments img) m x) /\
    (ForallOrdPairs apart (segments img) ->
     Forall (fun s => lies m' (sg_vaddr s) (sg_data s)) (segments img)).
Proof.
  intros Hok Hl Hf. pose proof (im_head _ _ Hok) as Hh.
  assert (Hwp : wp (load_user_elf_and_jump fuel b stack) (fun r m' => r = (stack, field_of img 24 8) /\
    forall x, m' x = with_segments (segments img) m x) m).
  { unfold load_user_elf_and_jump. apply wp_bind, wp_gets. unfold e_phoff. rewrite (ld_image b img) by (done || lia).
    apply wp_bind, (load_segments_ok b img Hok); [done..|]. intros m' Hl' Hx.
    apply wp_bind, wp_gets, wp_ret. unfold e_entry. by rewrite (ld_image b img) by (done || lia). }
  apply wp_run in Hwp as (r & m' & Hrun & -> & Hx). exists m'. split; [done|]. split; [done|].
  intros Hp. eapply Forall_impl; [exact (with_segments_lies _ m Hp)|]. intros s Hs. unfold lies in *.
  rewrite <- Hs at 2. by apply ld_bytes_ext.
Qed.

(** ** The hand-assembled program *)

(** The instructions it uses. *)
Inductive instr :=
  | MovRbx (imm : Z) | MovRcx (imm : Z) | MovRdx (imm : Z) | MovAl (imm : Z) | Int (n : Z) | Jmp (rel : Z).

(** One instruction of the x86 encoding, with the bytes after it. *)
Definition decode1 (l : list Z) : option (instr * list Z) :=
  match l with
  | 0x48 :: 0xBB :: a :: b :: c :: d :: e :: f :: g :: h :: l => Some (MovRbx (le_val [a; b; c; d; e; f; g; h]), l)
  | 0x48 :: 0xC7 :: 0xC1 :: a :: b :: c :: d :: l => Some (MovRcx (s32 (le_val [a; b; c; d])), l)
  | 0x48 :: 0xC7 :: 0xC2 :: a :: b :: c :: d :: l => Some (MovRdx (s32 (le_val [a; b; c; d])), l)
  | 0xB0 :: v :: l => Some (MovAl v, l)
  | 0xCD :: n :: l => Some (Int n, l)
  | 0xEB :: r :: l => Some (Jmp (s8 r), l)
  | _ => None
  end.
Fixpoint decode (fuel : nat) (l : list Z) : option (list instr) :=
  match fuel, l with
  | _, [] => Some []
  | O, _ => None
  | S n, _ => match decode1 l with Some (i, l) => cons i <$> decode n l | None => None end
  end.

Lemma address_bytes_val a : 0 <= a < 18446744073709551616 -> address_bytes a = le_bytes 8 a.
Proof.
  intros Ha. unfold address_bytes. change 0xFF with (Z.ones 8).
  rewrite !Z.land_ones, !Z.shiftr_div_pow2 by lia. change (2 ^ 8) with 256. change (2 ^ 0) with 1.
  rewrite Z.div_1_r. cbn [le_bytes]. rewrite !Z.div_div by lia. done.
Qed.

Lemma address_read a : 0 <= a < 18446744073709551616 -> le_val (address_bytes a) = a.
Proof. intros Ha. rewrite address_bytes_val, le_val_bytes by done. by apply Z.mod_small. Qed.

(** The program: it prints the prompt, reads 64 bytes into the buffer, prints
    them, opens the file, writes the buffer to it, closes it, prints the
    prompt again and stops in a loop. *)
Theorem user_program_ok str buf file :
  0 <= str < 18446744073709551616 -> 0 <= buf < 18446744073709551616 -> 0 <= file < 18446744073709551616 ->
  decode 30 (user_program str buf file) = Some
    [ MovRbx str; Int 0x5A; MovRbx buf; MovRcx 64; Int 0x59; MovRbx buf; Int 0x5A;
      MovRbx file; MovAl 1; Int 0x33; MovRbx buf; MovRcx 64; MovRdx 0; Int 0x36;
      MovRdx 0; Int 0x34; MovRbx str; Int 0x5A; Jmp (-2) ].
Proof.
  intros Hs Hb Hf.
  transitivity (Some
    [ MovRbx (le_val (address_bytes str)); Int 0x5A; MovRbx (le_val (address_bytes buf)); MovRcx 64; Int 0x59;
      MovRbx (le_val (address_bytes buf)); Int 0x5A; MovRbx (le_val (address_bytes file)); MovAl 1; Int 0x33;
      MovRbx (le_val (address_bytes buf)); MovRcx 64; MovRdx 0; Int 0x36; MovRdx 0; Int 0x34;
      MovRbx (le_val (address_bytes str)); Int 0x5A; Jmp (-2) ]); [reflexivity|].
  by rewrite !address_read.
Qed.

(** ** A small image: code with a tail of zeros, and a note to skip *)
Module SmallElf.
Definition header : list Z :=
  replicate 24 0 ++ le_bytes 8 0x401000 ++ le_bytes 8 64 ++ replicate 16 0 ++ le_bytes 2 2 ++ replicate 6 0.
Definition phdr (type offset vaddr filesz memsz : Z) : list Z :=
  le_bytes 4 type ++ le_bytes 4 5 ++ le_bytes 8 offset ++ le_bytes 8 vaddr ++ le_bytes 8 vaddr ++
  le_bytes 8 filesz ++ le_bytes 8 memsz ++ le_bytes 8 4096.
Definition code : list Z := [0xCD; 0x5A; 0xEB; 0xFE].
Definition image : list Z := header ++ phdr 4 0 0 0 0 ++ phdr 1 176 0x401000 4 8 ++ code.
Definition memory : ram := st_bytes 0x100000 image (fun _ => 0xAA).

Lemma image_fits : image_ok 0x100000 image.
Proof.
  split; [by vm_compute | | by vm_compute | by vm_compute |].
  - apply Forall_forall. intros x Hx. assert (Hb : forallb (fun v => (0 <=? v) && (v <? 256)) image = true) by (by vm_compute).
    rewrite forallb_forall in Hb. apply list_elem_of_In, Hb in Hx. bool_to_prop. done.
  - change (header_count image) with 2. intros i Hi. assert (i = 0 \/ i = 1) as [-> | ->] by lia; vm_compute; [done|].
    intros _. repeat split; try done. by right.
Qed.

Lemma load_user_elf_ok_witness : exists m', load_user_elf_and_jump 3 0x100000 0x700000 memory =
  Ret ((0x700000, 0x401000), m') /\ ld_bytes 0x401000 8 m' = code ++ [0; 0; 0; 0].
Proof.
  destruct (load_user_elf_ok 0x100000 image 3 0x700000 memory image_fits) as (m' & Hr & _ & Hs);
    [apply ld_st_same | by vm_compute; lia |].
  exists m'. split; [exact Hr|].
  change (segments image) with [mk_segment 0x401000 (code ++ [0; 0; 0; 0])] in Hs.
  specialize (Hs ltac:(repeat constructor)). exact (Forall_inv Hs).
Defined.
End SmallElf.
