(* ===== verification/Vsfs.v ===== *)
(** VSFS, the kernel's own simple file system (kernel/src/fs/vsfs/vsfs.c):
    blocks, bitmaps and the creation of a volume.

    The disk is the interface [BlockDev].  Writing the superblock sends a
    whole block from an object of 64 bytes: [beyond] is what lies behind it in
    memory.  A bit outside a bitmap is undefined. *)
From S2P Require Import Prelude BlockDev.

Definition MAX_FILES : Z := 256.
Definition SECTOR_SIZE : Z := 512.
Definition BLOCK_SIZE : Z := 4096.
Definition FS_MAGIC : Z := 0x20240218.
Definition sizeof_inode_t : Z := 116.
Definition sizeof_superblock_t : Z := 64.

Record superblock_t := mk_super {
  sb_magic : Z; sb_name : list Z; sb_start_lba : Z; byte_per_block : Z; sb_total_blocks : Z; reserved_blocks : Z;
  total_inodes : Z; num_super_block : Z; num_inode_bitmap : Z; num_inode_table : Z; num_data_bitmap : Z;
  inode_bitmap_block : Z; data_bitmap_block : Z; inode_table_block : Z; data_region_block : Z
}.

(** The structure in memory and on disk. *)
Definition superblock_bytes (s : superblock_t) : list Z :=
  le_bytes 4 (sb_magic s) ++ sb_name s ++ le_bytes 4 (sb_start_lba s) ++ le_bytes 4 (byte_per_block s) ++
  le_bytes 4 (sb_total_blocks s) ++ le_bytes 4 (reserved_blocks s) ++ le_bytes 4 (total_inodes s) ++
  le_bytes 4 (num_super_block s) ++ le_bytes 4 (num_inode_bitmap s) ++ le_bytes 4 (num_inode_table s) ++
  le_bytes 4 (num_data_bitmap s) ++ le_bytes 4 (inode_bitmap_block s) ++ le_bytes 4 (data_bitmap_block s) ++
  le_bytes 4 (inode_table_block s) ++ le_bytes 4 (data_region_block s).

(** "VSFS   " with its terminator. *)
Definition VSFS_NAME : list Z := [86; 83; 70; 83; 32; 32; 32; 0].

Record vst (E : Type) := mk_vst { v_dev : E; lba_offset : Z; sb : option superblock_t }.
Arguments mk_vst {E}.
Arguments v_dev {E}.
Arguments lba_offset {E}.
Arguments sb {E}.

(** All in 32 bits. *)
Definition block_to_lba (block_no : Z) : Z := u32 (block_no * BLOCK_SIZE) / SECTOR_SIZE.
Definition lba_to_block (lba : Z) : Z := u32 (lba * SECTOR_SIZE) / BLOCK_SIZE.

(** ** Bitmaps *)

Definition bitmap_byte (bm : list Z) (i : Z) : outcome Z :=
  if 0 <=? i then match bm !! Z.to_nat (i / 8) with Some b => Ret b | None => Undef end else Undef.
Definition bitmap_test (bm : list Z) (i : Z) : outcome Z :=
  obind (bitmap_byte bm i) (fun b => Ret (Z.land b (Z.shiftl 1 (i mod 8)))).
Definition bitmap_set (bm : list Z) (i : Z) : outcome (list Z) :=
  obind (bitmap_byte bm i) (fun b => Ret (<[Z.to_nat (i / 8) := u8 (Z.lor b (Z.shiftl 1 (i mod 8)))]> bm)).
Definition bitmap_clear (bm : list Z) (i : Z) : outcome (list Z) :=
  obind (bitmap_byte bm i) (fun b => Ret (<[Z.to_nat (i / 8) := u8 (Z.land b (Z.lnot (Z.shiftl 1 (i mod 8))))]> bm)).

(** The first clear bit among [n] from [i] on, and the bitmap with it set. *)
Fixpoint alloc_bit (n : nat) (i : Z) (bm : list Z) : outcome (Z * list Z) :=
  match n with
  | O => Ret (-1, bm)
  | S n =>
      obind (bitmap_test bm i) (fun b =>
        if b =? 0 then obind (bitmap_set bm i) (fun bm => Ret (i, bm)) else alloc_bit n (i + 1) bm)
  end.
Definition vsfs_alloc_inode (inode_bitmap : list Z) : outcome (Z * list Z) :=
  alloc_bit (Z.to_nat MAX_FILES) 0 inode_bitmap.
Definition vsfs_alloc_block (data_bitmap : list Z) (max_blocks : Z) : outcome (Z * list Z) :=
  alloc_bit (Z.to_nat max_blocks) 0 data_bitmap.

Section vsfs.
Context {E : Type} `{BlockDev E}.
Abbreviation st := (vst E).

Definition read_block (disk_no block_no count : Z) : M st (option (list Z)) := fun s =>
  let lba := block_to_lba block_no in
  let lba_count := u32 (count * BLOCK_SIZE) / SECTOR_SIZE in
  let '(r, e) := kebla_disk_read disk_no (u32 (lba_offset s + lba)) lba_count (v_dev s) in
  Ret (r, mk_vst e (lba_offset s) (sb s)).

Definition write_block (disk_no block_no count : Z) (buff : list Z) : M st bool := fun s =>
  let lba := block_to_lba block_no in
  let lba_count := u32 (count * BLOCK_SIZE) / SECTOR_SIZE in
  let '(r, e) := kebla_disk_write disk_no (u32 (lba_offset s + lba)) lba_count buff (v_dev s) in
  Ret (r, mk_vst e (lba_offset s) (sb s)).

(** The layout, as mkfs computes it. *)
Definition inode_bitmap_blocks : Z := ((MAX_FILES + 7) / 8 + BLOCK_SIZE) / BLOCK_SIZE.
Definition data_bitmap_blocks (total_blocks : Z) : Z :=
  u32 (u32 (total_blocks - 1 - inode_bitmap_blocks + 7) / 8 + BLOCK_SIZE) / BLOCK_SIZE.
Definition inode_table_blocks : Z := (MAX_FILES * sizeof_inode_t + BLOCK_SIZE) / BLOCK_SIZE.

Definition new_superblock (start_lba total_sectors : Z) : superblock_t :=
  let total_blocks := u32 (total_sectors * SECTOR_SIZE) / BLOCK_SIZE in
  let reserved := u32 (1 + inode_bitmap_blocks + data_bitmap_blocks total_blocks + inode_table_blocks) in
  let data_bm := u32 (1 + inode_bitmap_blocks) in
  let table := u32 (data_bm + data_bitmap_blocks total_blocks) in
  mk_super FS_MAGIC VSFS_NAME (u32 start_lba) BLOCK_SIZE total_blocks reserved MAX_FILES 1
    inode_bitmap_blocks inode_table_blocks (data_bitmap_blocks total_blocks)
    1 data_bm table (u32 (table + inode_table_blocks)).

Definition vmalloc (size : Z) : M st bool := fun s =>
  let '(ok, e) := malloc size (v_dev s) in Ret (ok, mk_vst e (lba_offset s) (sb s)).

(** A volume that is too small only gets a message. *)
Definition vsfs_mkfs (beyond : list Z) (disk_no start_lba total_sectors : Z) : M st bool :=
  modify (fun s => mk_vst (v_dev s) (u32 start_lba) (sb s)) ;;;
  let! ok := vmalloc sizeof_superblock_t in
  if negb ok then modify (fun s => mk_vst (v_dev s) (lba_offset s) None) ;;; ret false else
  let b := new_superblock start_lba total_sectors in
  modify (fun s => mk_vst (v_dev s) (lba_offset s) (Some b)) ;;;
  let! ok := write_block disk_no 0 1 (superblock_bytes b ++ beyond) in
  if negb ok then ret false else
  let! ok := write_block disk_no (inode_bitmap_block b) (num_inode_bitmap b)
               (replicate (Z.to_nat (BLOCK_SIZE * inode_bitmap_blocks)) 0) in
  if negb ok then ret false else
  let! ok := write_block disk_no (data_bitmap_block b) (num_data_bitmap b)
               (replicate (Z.to_nat (BLOCK_SIZE * num_data_bitmap b)) 0) in
  if negb ok then ret false else
  write_block disk_no (inode_table_block b) (num_inode_table b)
    (replicate (Z.to_nat (BLOCK_SIZE * num_inode_table b)) 0).
End vsfs.
