(* ===== verification/VsfsProps.v ===== *)
(** VSFS: the bitmaps hand out each bit once, and a new volume has its areas
    one behind the other. *)
From S2P Require Import Prelude BlockDev Vsfs.

(** ** Bitmaps as sets of bits *)

Definition used (bm : list Z) (i : Z) : bool := Z.testbit (bm !!! Z.to_nat (i / 8)) (i mod 8).
Definition in_map (bm : list Z) (i : Z) : Prop := 0 <= i < 8 * zlen bm.

Section bitmap.
Implicit Types bm : list Z.

Lemma in_map_lookup bm i : in_map bm i -> bm !! Z.to_nat (i / 8) = Some (bm !!! Z.to_nat (i / 8)).
Proof.
  intros [Hi Hl]. apply list_lookup_lookup_total_lt.
  assert (0 <= i / 8 < zlen bm) by (Z.to_euclidean_division_equations; lia). lia.
Qed.

Lemma bit_range i : 0 <= i mod 8 < 8.
Proof. apply Z.mod_pos_bound. lia. Qed.

Lemma bitmap_byte_ok bm i : in_map bm i -> bitmap_byte bm i = Ret (bm !!! Z.to_nat (i / 8)).
Proof.
  intros Hi. unfold bitmap_byte. rewrite (in_map_lookup _ _ Hi). destruct Hi. by rewrite (proj2 (Z.leb_le _ _)).
Qed.

Lemma bitmap_test_ok bm i : in_map bm i ->
  exists v, bitmap_test bm i = Ret v /\ (v =? 0) = negb (used bm i).
Proof.
  intros Hi. unfold bitmap_test. rewrite bitmap_byte_ok by done. eexists. split; [done|].
  apply land_bit. apply bit_range.
Qed.

(** Setting and clearing change one bit. *)
Lemma used_insert bm i v j : in_map bm i -> 0 <= j -> byte v ->
  (forall k, 0 <= k < 8 -> k <> i mod 8 -> Z.testbit v k = Z.testbit (bm !!! Z.to_nat (i / 8)) k) ->
  used (<[Z.to_nat (i / 8) := v]> bm) j = if decide (j = i) then Z.testbit v (i mod 8) else used bm j.
Proof.
  intros Hi Hj Hv Hk. unfold used. pose proof (in_map_lookup _ _ Hi) as Hl. apply lookup_lt_Some in Hl.
  destruct Hi as [Hi _]. destruct (decide (j = i)) as [->|Hne].
  - by rewrite list_lookup_total_insert_eq.
  - destruct (decide (j / 8 = i / 8)) as [He|He].
    + rewrite He, list_lookup_total_insert_eq by done. apply Hk; [apply bit_range|].
      Z.to_euclidean_division_equations; lia.
    + rewrite list_lookup_total_insert_ne; [done|]. Z.to_euclidean_division_equations; lia.
Qed.

Lemma bitmap_set_ok bm i : Forall byte bm -> in_map bm i ->
  exists bm', bitmap_set bm i = Ret bm' /\ Forall byte bm' /\ length bm' = length bm /\
    forall j, 0 <= j -> used bm' j = if decide (j = i) then true else used bm j.
Proof.
  intros Hb Hi. unfold bitmap_set. rewrite bitmap_byte_ok by done. cbn [obind]. eexists. split; [done|].
  pose proof (bit_range i) as Hr. set (b := bm !!! Z.to_nat (i / 8)).
  assert (Hbb : byte b) by (apply (Forall_lookup_1 _ _ _ _ Hb (in_map_lookup _ _ Hi))).
  set (v := u8 (Z.lor b (Z.shiftl 1 (i mod 8)))).
  assert (Hv : v = Z.lor b (Z.shiftl 1 (i mod 8))).
  { apply u8_small. apply (lor_range _ _ 8); [lia | exact Hbb |]. rewrite Z.shiftl_1_l. split; [apply Z.pow_nonneg; lia|].
    apply Z.pow_lt_mono_r; lia. }
  split; [apply Forall_insert; [done | apply u8_range]|]. split; [apply length_insert|].
  intros j Hj. rewrite used_insert; [|done|done|apply u8_range|].
  - rewrite Hv, Z.lor_spec, Z.shiftl_spec, Z.sub_diag by lia. by rewrite orb_true_r.
  - intros k Hk Hne. rewrite Hv, Z.lor_spec, Z.shiftl_1_l, Z.pow2_bits_eqb by lia.
    by rewrite (proj2 (Z.eqb_neq _ _)), orb_false_r by lia.
Qed.

Lemma bitmap_clear_ok bm i : Forall byte bm -> in_map bm i ->
  exists bm', bitmap_clear bm i = Ret bm' /\ Forall byte bm' /\ length bm' = length bm /\
    forall j, 0 <= j -> used bm' j = if decide (j = i) then false else used bm j.
Proof.
  intros Hb Hi. unfold bitmap_clear. rewrite bitmap_byte_ok by done. cbn [obind]. eexists. split; [done|].
  pose proof (bit_range i) as Hr. set (b := bm !!! Z.to_nat (i / 8)).
  assert (Hbb : byte b) by (apply (Forall_lookup_1 _ _ _ _ Hb (in_map_lookup _ _ Hi))).
  set (v := u8 (Z.land b (Z.lnot (Z.shiftl 1 (i mod 8))))).
  assert (Hv : v = Z.land b (Z.lnot (Z.shiftl 1 (i mod 8)))).
  { apply u8_small. rewrite Z.land_comm. by apply (land_range_r _ _ 8). }
  split; [apply Forall_insert; [done | apply u8_range]|]. split; [apply length_insert|].
  intros j Hj. rewrite used_insert; [|done|done|apply u8_range|].
  - rewrite Hv, Z.land_spec, Z.lnot_spec, Z.shiftl_spec, Z.sub_diag by lia. by rewrite andb_false_r.
  - intros k Hk Hne. rewrite Hv, Z.land_spec, Z.lnot_spec, Z.shiftl_1_l, Z.pow2_bits_eqb by lia.
    by rewrite (proj2 (Z.eqb_neq _ _)), andb_true_r by lia.
Qed.

(** The least clear bit of a range, or -1 with the map unchanged. *)
Definition took (bm : list Z) (lo hi r : Z) (bm' : list Z) : Prop :=
  (lo <= r < hi /\ used bm r = false /\ (forall j, lo <= j < r -> used bm j = true) /\
   Forall byte bm' /\ length bm' = length bm /\
   forall j, 0 <= j -> used bm' j = if decide (j = r) then true else used bm j) \/
  (r = -1 /\ bm' = bm /\ forall j, lo <= j < hi -> used bm j = true).

Lemma alloc_bit_ok n : forall i bm, Forall byte bm -> 0 <= i -> i + Z.of_nat n <= 8 * zlen bm ->
  exists r bm', alloc_bit n i bm = Ret (r, bm') /\ took bm i (i + Z.of_nat n) r bm'.
Proof.
  induction n as [|n IH]; intros i bm Hb Hi Hn; cbn [alloc_bit].
  - exists (-1), bm. split; [done|]. right. split_and!; [done | done | lia].
  - assert (Him : in_map bm i) by (unfold in_map; lia).
    destruct (bitmap_test_ok bm i Him) as (v & -> & Hv). cbn [obind]. rewrite Hv.
    destruct (used bm i) eqn:Hu; cbn [negb].
    + destruct (IH (i + 1) bm Hb ltac:(lia) ltac:(lia)) as (r & bm' & -> & Ht). exists r, bm'. split; [done|].
      assert (Hex : forall r, (forall j, i + 1 <= j < r -> used bm j = true) -> forall j, i <= j < r -> used bm j = true).
      { intros r' Hr' j Hj. destruct (decide (j = i)) as [->|]; [done|]. apply Hr'. lia. }
      destruct Ht as [(Hr & H1 & H2 & H3)|(-> & -> & H2)]; [left|right].
      * split; [lia|]. split; [done|]. split; [by apply Hex | done].
      * split_and!; [done..|]. intros j Hj. eapply (Hex (i + 1 + Z.of_nat n)); [done | lia].
    + destruct (bitmap_set_ok bm i Hb Him) as (bm' & -> & Hb' & Hl & Hj). cbn [obind].
      exists i, bm'. split; [done|]. left. split; [lia|]. split_and!; try done. lia.
Qed.
End bitmap.

(** ** Making a volume *)

Section mkfs.
Context {E : Type} {D : BlockDev E} {L : BlockDevLaws E}.
Abbreviation st := (vst E).

(** Sector [l] of the disk after [n] sectors from [lba] on got the bytes of
    [buf]. *)
Definition patched (lba n : Z) (buf : list Z) (l : Z) (old : list Z) : list Z :=
  if decide (lba <= l < lba + n) then slice ((l - lba) * 512) 512 buf else old.

Record wrote (d lba n : Z) (buf : list Z) (e e' : E) : Prop := {
  wr_here : forall l, sector e' d l = patched lba n buf l (sector e d l);
  wr_other : forall d' l, d' <> d -> sector e' d' l = sector e d' l;
  wr_cap : forall d', capacity e' d' = capacity e d';
  wr_rel : reliable e'
}.

Lemma write_block_ok d block count buf s (Q : bool -> st -> Prop) : reliable (v_dev s) ->
  0 <= block -> 0 < count -> 0 <= lba_offset s -> (block + count) * 4096 < 4294967296 ->
  lba_offset s + 8 * (block + count) < 4294967296 -> lba_offset s + 8 * (block + count) <= capacity (v_dev s) d ->
  Forall byte buf -> zlen buf = count * 4096 ->
  (forall e', wrote d (lba_offset s + 8 * block) (8 * count) buf (v_dev s) e' ->
     Q true (mk_vst e' (lba_offset s) (sb s))) -> wp (write_block d block count buf) Q s.
Proof.
  intros Hrel Hb Hc Ho Hw1 Hw2 Hcap Hby Hlen HQ. unfold wp, write_block, block_to_lba, BLOCK_SIZE, SECTOR_SIZE.
  rewrite (u32_small (block * 4096)), (u32_small (count * 4096)) by lia.
  replace (block * 4096 / 512) with (8 * block) by (Z.to_euclidean_division_equations; lia).
  replace (count * 4096 / 512) with (8 * count) by (Z.to_euclidean_division_equations; lia).
  rewrite (u32_small (lba_offset s + _)) by lia.
  pose proof (write_total (v_dev s) d (lba_offset s + 8 * block) (8 * count) buf Hrel) as Ht.
  destruct (kebla_disk_write d (lba_offset s + 8 * block) (8 * count) buf (v_dev s)) as [r e'] eqn:Hwr.
  cbn [fst] in Ht. rewrite Ht in * by lia. apply HQ.
  destruct (write_frame _ _ _ _ _ _ _ Hwr) as (Hf & Hcp & Hr). split; [| | |by apply Hr].
  - intros l. unfold patched. case_decide as Hl; [|apply Hf; lia].
    pose proof (write_data _ _ _ _ _ _ Hwr ltac:(lia) Hby ltac:(lia) (l - (lba_offset s + 8 * block)) ltac:(lia)) as Hd.
    replace (lba_offset s + 8 * block + (l - (lba_offset s + 8 * block))) with l in Hd by lia. exact Hd.
  - intros d' l Hd. apply Hf. by left.
  - exact Hcp.
Qed.

Lemma length_superblock b : length (sb_name b) = 8%nat -> zlen (superblock_bytes b) = 64.
Proof. intros Hn. unfold superblock_bytes. rewrite !length_app, !length_le_bytes, Hn. done. Qed.

Lemma superblock_byte b : Forall byte (sb_name b) -> Forall byte (superblock_bytes b).
Proof. intros Hn. unfold superblock_bytes. repeat apply Forall_app_2; auto with machine. Qed.

(** A volume of [n] sectors at [start] that the layout fits. *)
Record fits (start n cap : Z) : Prop := {
  fi_start : 0 <= start;
  fi_size : 0 <= n < 8388608;
  fi_layout : 8 * reserved_blocks (new_superblock start n) <= n;
  fi_end : start + n < 4294967296 /\ start + n <= cap
}.

(** The numbers of the layout, without wrap-around. *)
Lemma layout_numbers start n : 0 <= n < 8388608 ->
  let b := new_superblock start n in let db := num_data_bitmap b in
  num_inode_bitmap b = 1 /\ num_inode_table b = 8 /\ 1 <= db <= 64 /\ inode_bitmap_block b = 1 /\
  data_bitmap_block b = 2 /\ inode_table_block b = 2 + db /\ data_region_block b = 10 + db /\
  reserved_blocks b = 10 + db.
Proof.
  intros Hn. cbn. unfold data_bitmap_blocks, BLOCK_SIZE, SECTOR_SIZE. change inode_bitmap_blocks with 1.
  change inode_table_blocks with 8. rewrite (u32_small (n * 512)) by lia.
  set (t := n * 512 / 4096). assert (0 <= t < 1048576) by (unfold t; Z.to_euclidean_division_equations; lia).
  rewrite (u32_small (t - 1 - 1 + 7)) by lia.
  set (x := (t - 1 - 1 + 7) / 8). assert (0 <= x < 131073) by (unfold x; Z.to_euclidean_division_equations; lia).
  rewrite (u32_small (x + 4096)) by lia. set (db := (x + 4096) / 4096).
  assert (1 <= db <= 33) by (unfold db; Z.to_euclidean_division_equations; lia).
  unwrap. lia.
Qed.

(** What the disk holds of a new volume: the superblock in the first block,
    zeros in the bitmaps and the inode table, and what it held before in the
    data region and outside. *)
Definition volume (b : superblock_t) (beyond : list Z) (start l : Z) (old : list Z) : list Z :=
  if decide (start <= l < start + 8) then slice ((l - start) * 512) 512 (superblock_bytes b ++ beyond)
  else if decide (start + 8 <= l < start + 8 * data_region_block b) then replicate 512 0 else old.

Lemma patched_zeros lba n l old : 0 <= n ->
  patched lba n (replicate (Z.to_nat (n * 512)) 0) l old = if decide (lba <= l < lba + n) then replicate 512 0 else old.
Proof.
  intros Hn. unfold patched. case_decide; [|done]. rewrite slice_replicate by lia. done.
Qed.

(** C40 Making a volume on a working disk succeeds: the superblock describes
    areas that follow each other without gap or overlap, the first block
    holds it, both bitmaps and the inode table are zeros, and no other sector
    of any disk changes. *)
Theorem vsfs_mkfs_ok beyond d start n (s : st) : reliable (v_dev s) -> fits start n (capacity (v_dev s) d) ->
  Forall byte beyond -> zlen beyond = 4032 ->
  exists s', vsfs_mkfs beyond d start n s = Ret (true, s') /\
    let b := new_superblock start n in
    sb s' = Some b /\ lba_offset s' = start /\
    data_bitmap_block b = inode_bitmap_block b + num_inode_bitmap b /\
    inode_table_block b = data_bitmap_block b + num_data_bitmap b /\
    data_region_block b = inode_table_block b + num_inode_table b /\
    sb_total_blocks b <= 8 * 4096 * num_data_bitmap b /\
    (forall l, sector (v_dev s') d l = volume b beyond start l (sector (v_dev s) d l)) /\
    (forall d' l, d' <> d -> sector (v_dev s') d' l = sector (v_dev s) d' l).
Proof.
  intros Hrel [Hst Hn Hlay [Hend Hcap]] Hby Hbl.
  destruct (layout_numbers start n Hn) as (N1 & N2 & N3 & N4 & N5 & N6 & N7 & N8).
  set (b := new_superblock start n) in *. set (db := num_data_bitmap b) in *.
  assert (Htot : sb_total_blocks b <= 8 * 4096 * db).
  { unfold db. cbn. unfold data_bitmap_blocks. change inode_bitmap_blocks with 1. unfold BLOCK_SIZE, SECTOR_SIZE.
    rewrite (u32_small (n * 512)) by lia. set (t := n * 512 / 4096).
    assert (0 <= t < 1048576) by (unfold t; Z.to_euclidean_division_equations; lia).
    unwrap. rewrite u32_small by (Z.to_euclidean_division_equations; lia). Z.to_euclidean_division_equations; lia. }
  enough (Hwp : wp (vsfs_mkfs beyond d start n) (fun r s' => r = true /\ sb s' = Some b /\ lba_offset s' = start /\
    (forall l, sector (v_dev s') d l = volume b beyond start l (sector (v_dev s) d l)) /\
    (forall d' l, d' <> d -> sector (v_dev s') d' l = sector (v_dev s) d' l)) s).
  { apply wp_run in Hwp as (r & s' & Hrun & -> & H1 & H2 & H3 & H4). exists s'. cbn zeta. fold b db.
    rewrite N1, N2, N4, N5, N6, N7. split_and!; try done; lia. }
  unfold vsfs_mkfs. apply wp_bind, wp_modify, wp_bind. rewrite u32_small by lia. fold b.
  unfold wp at 1, vmalloc. cbn [v_dev lba_offset sb].
  pose proof (malloc_total (v_dev s) sizeof_superblock_t Hrel ltac:(done)) as Hm.
  destruct (malloc sizeof_superblock_t (v_dev s)) as [ok e0] eqn:Hmal. cbn [fst] in Hm. subst ok.
  destruct (malloc_frame _ _ _ _ Hmal) as (F0 & C0 & R0). cbn [negb].
  apply wp_bind, wp_modify. cbn [v_dev lba_offset].
  apply wp_bind, write_block_ok; cbn [v_dev lba_offset]; rewrite ?C0; try lia; [auto | | |].
  { apply Forall_app_2; [|done]. apply superblock_byte. repeat constructor; unfold byte; lia. }
  { rewrite length_app, Nat2Z.inj_add, length_superblock by done. lia. }
  intros e1 [W1 O1 C1 R1]. cbn [negb v_dev lba_offset sb].
  rewrite N1, N2, N4, N5, N6. fold db.
  apply wp_bind, write_block_ok; cbn [v_dev lba_offset]; rewrite ?C1, ?C0; try lia;
    [done | apply zeros_byte | rewrite length_replicate; done |].
  intros e2 [W2 O2 C2 R2]. cbn [negb v_dev lba_offset sb].
  apply wp_bind, write_block_ok; cbn [v_dev lba_offset]; rewrite ?C2, ?C1, ?C0; try lia;
    [done | apply zeros_byte | rewrite length_replicate; unfold BLOCK_SIZE; lia |].
  intros e3 [W3 O3 C3 R3]. cbn [negb v_dev lba_offset sb].
  apply write_block_ok; cbn [v_dev lba_offset]; rewrite ?C3, ?C2, ?C1, ?C0; try lia;
    [done | apply zeros_byte | rewrite length_replicate; unfold BLOCK_SIZE; lia |].
  intros e4 [W4 O4 C4 R4]. cbn [v_dev lba_offset sb]. split_and!; [done.. | |].
  - intros l. rewrite W4, W3, W2, W1, F0. unfold volume. rewrite N7.
    replace (BLOCK_SIZE * 8) with (8 * 8 * 512) by done.
    replace (BLOCK_SIZE * db) with (8 * db * 512) by (unfold BLOCK_SIZE; lia).
    replace (BLOCK_SIZE * inode_bitmap_blocks) with (8 * 1 * 512) by done.
    rewrite !patched_zeros by lia. unfold patched.
    replace (start + 8 * 0) with start by lia.
    repeat case_decide; lia || done.
  - intros d' l Hd. by rewrite O4, O3, O2, O1, F0.
Qed.
End mkfs.

(** ** A small volume *)
Module SmallVsfs.
Import RamDisk.
Definition disk0 : ram := mk_ram ∅ 4096 true.
Definition start : vst ram := mk_vst disk0 0 None.
Definition junk : list Z := replicate 4032 0xAA.

Lemma vsfs_mkfs_ok_witness : exists s', vsfs_mkfs junk 0 2048 1024 start = Ret (true, s') /\
  lba_offset s' = 2048 /\ take 64 (sector (v_dev s') 0 2048) = superblock_bytes (new_superblock 2048 1024) /\
  sector (v_dev s') 0 2056 = replicate 512 0.
Proof.
  destruct (vsfs_mkfs_ok junk 0 2048 1024 start) as (s' & Hrun & Hs).
  - done.
  - split; [lia | lia | vm_compute; discriminate | split; cbn; lia].
  - apply Forall_replicate. unfold byte. lia.
  - done.
  - destruct Hs as (_ & Ho & _ & _ & _ & _ & Hsec & _). exists s'. split; [exact Hrun|]. split; [exact Ho|].
    rewrite !Hsec. split; vm_compute; reflexivity.
Defined.

(** Taking a bit: the least free one. *)
Lemma alloc_inode_example : vsfs_alloc_inode ([0x07] ++ replicate 31 0) = Ret (3, [0x0F] ++ replicate 31 0).
Proof. reflexivity. Qed.
End SmallVsfs.
