(* ===== verification/Ext2.v ===== *)
(** ext2 (kernel/src/fs/ext2/ext2.c): creating and mounting a volume, reading
    inodes and files, listing and creating directories.

    The disk and the heap are the interface [BlockDev].  Structures are the
    bytes they have on disk, with their fields by offset.  A local buffer is
    the list of its bytes: an access outside it, or to one that a failed read
    left unset (the empty list), is undefined, and so is a read of more bytes
    than the buffer has.  [eout] is what has been printed, a name and a number
    per line. *)
From S2P Require Import Prelude BlockDev Vsfs Iso9660.

Definition SECTORS_PER_BLOCK : Z := 8.
Definition EXT2_BLOCK_SIZE : Z := SECTOR_SIZE * SECTORS_PER_BLOCK.
Definition sizeof_ext2_inode_t : Z := 128.
Definition sizeof_ext2_superblock_t : Z := 90.
Definition sizeof_ext2_group_desc_t : Z := 32.
Definition sizeof_ext2_fs_t : Z := 120.
Definition INODES_PER_GROUP : Z := 8192.
Definition INODE_TABLE_BLOCKS : Z := (INODES_PER_GROUP * sizeof_ext2_inode_t + EXT2_BLOCK_SIZE - 1) / EXT2_BLOCK_SIZE.
Definition BLOCKS_PER_GROUP : Z := EXT2_BLOCK_SIZE * 8.
Definition TOTAL_GROUPS (blocks : Z) : Z := u32 (blocks + BLOCKS_PER_GROUP - 1) / BLOCKS_PER_GROUP.
Definition EXT2_SUPER_MAGIC : Z := 0xEF53.
Definition EXT2_ROOT_INO : Z := 2.
Definition EXT2_GOOD_OLD_REV : Z := 0.

(** ** Fields *)

Definition s_inodes_count (b : list Z) : Z := load 4 0 b.
Definition s_blocks_count (b : list Z) : Z := load 4 4 b.
Definition s_log_block_size (b : list Z) : Z := load 4 24 b.
Definition s_blocks_per_group (b : list Z) : Z := load 4 32 b.
Definition s_inodes_per_group (b : list Z) : Z := load 4 40 b.
Definition s_magic (b : list Z) : Z := load 2 56 b.
Definition s_inode_size (b : list Z) : Z := load 2 88 b.

Definition i_size (b : list Z) : Z := load 4 4 b.
Definition i_block (b : list Z) (i : Z) : Z := load 4 (40 + 4 * i) b.

(** A field of a structure somewhere in a buffer. *)
Definition peek {S} (n : nat) (buf : list Z) (off : Z) : M S Z :=
  let! l := at_bytes buf off (Z.of_nat n) in ret (le_val l).
Definition poke {S} (n : nat) (off v : Z) (buf : list Z) : M S (list Z) :=
  guard ((0 <=? off) && (off + Z.of_nat n <=? zlen buf)) ;;; ret (store n off v buf).
Definition copy_to {S} (off : Z) (d buf : list Z) : M S (list Z) :=
  guard ((0 <=? off) && (off + zlen d <=? zlen buf)) ;;; ret (splice off d buf).

(** A directory entry at [off]: the fields in the order the code sets them. *)
Definition put_entry {S} (off inode rec_len name_len file_type : Z) (name buf : list Z) : M S (list Z) :=
  let! buf := poke 4 off inode buf in
  let! buf := poke 2 (off + 4) rec_len buf in
  let! buf := poke 1 (off + 6) name_len buf in
  let! buf := poke 1 (off + 7) file_type buf in
  copy_to (off + 8) name buf.

(** An inode of a new directory whose only block is [b]. *)
Definition dir_inode (size b : Z) : list Z :=
  store 4 40 b (store 4 28 2 (store 2 26 2 (store 4 4 size
    (store 2 0 (Z.lor 0x4000 0x1ED) (replicate 128 0))))).

(** ** State *)

Record ext2_fs_t := mk_fs { fs_disk_no : Z; fs_start_lba : Z; block_size : Z; super : list Z; groups : option (list Z) }.

Record est (E : Type) := mk_est { edev : E; EXT2_START_LBA : Z; ext2 : option ext2_fs_t; eout : list (list Z * Z) }.
Arguments mk_est {E}.
Arguments edev {E}.
Arguments EXT2_START_LBA {E}.
Arguments ext2 {E}.
Arguments eout {E}.

Section ext2.
Context {E : Type} `{BlockDev E}.
Abbreviation st := (est E).

Definition disk_read (d lba n : Z) : M st (option (list Z)) := fun s =>
  let '(r, e) := kebla_disk_read d lba n (edev s) in Ret (r, mk_est e (EXT2_START_LBA s) (ext2 s) (eout s)).
Definition disk_write (d lba n : Z) (buf : list Z) : M st bool := fun s =>
  let '(r, e) := kebla_disk_write d lba n buf (edev s) in Ret (r, mk_est e (EXT2_START_LBA s) (ext2 s) (eout s)).
Definition ext2_malloc (n : Z) : M st bool := fun s =>
  let '(r, e) := malloc n (edev s) in Ret (r, mk_est e (EXT2_START_LBA s) (ext2 s) (eout s)).
Definition set_fs (fs : ext2_fs_t) : M st unit :=
  modify (fun s => mk_est (edev s) (EXT2_START_LBA s) (Some fs) (eout s)).
(** A null pointer is not looked at. *)
Definition the_fs : M st ext2_fs_t := fun s => match ext2 s with Some fs => Ret (fs, s) | None => Undef end.
Definition group_field (n : nat) (group off : Z) : M st Z :=
  let! fs := the_fs in
  match groups fs with
  | Some g => peek n g (group * sizeof_ext2_group_desc_t + off)
  | None => undef
  end.

(** ** Creating a volume *)

(** The structures of a new volume, in the buffer of one block. *)
Definition zero_block : list Z := replicate (Z.to_nat EXT2_BLOCK_SIZE) 0.
Definition new_super (total_blocks total_groups total_inodes : Z) : list Z :=
  let total_metadata_blocks := u32 (total_groups * (1 + 1 + INODE_TABLE_BLOCKS) + 2) in
  let b := store 4 0 total_inodes zero_block in
  let b := store 4 4 total_blocks b in
  let b := store 4 8 0 b in
  let b := store 4 12 (u32 (total_blocks - total_metadata_blocks)) b in
  let b := store 4 16 (u32 (total_inodes - 1)) b in
  let b := store 4 20 (if 1024 <? EXT2_BLOCK_SIZE then 0 else 1) b in
  let b := store 4 24 2 b in
  let b := store 4 32 BLOCKS_PER_GROUP b in
  let b := store 4 40 INODES_PER_GROUP b in
  let b := store 2 56 EXT2_SUPER_MAGIC b in
  let b := store 4 76 EXT2_GOOD_OLD_REV b in
  let b := store 2 88 sizeof_ext2_inode_t b in
  store 4 84 EXT2_ROOT_INO b.
Definition new_group_desc (total_blocks total_inodes : Z) : list Z :=
  let b := store 4 0 3 zero_block in
  let b := store 4 4 4 b in
  let b := store 4 8 5 b in
  let b := store 2 12 (u16 (total_blocks - 10)) b in
  let b := store 2 14 (u16 (total_inodes - 1)) b in
  store 2 16 1 b.
Definition new_root_table : list Z := splice 128 (dir_inode EXT2_BLOCK_SIZE (5 + INODE_TABLE_BLOCKS)) zero_block.

(** Bits 0 to 9 of the block bitmap. *)
Fixpoint mark_bits (n : nat) (i : Z) (bm : list Z) : outcome (list Z) :=
  match n with
  | O => Ret bm
  | S n => obind (bitmap_set bm i) (fun bm => mark_bits n (i + 1) bm)
  end.

(** "." and "..", the latter up to the end of the block. *)
Definition put_dots (self parent size : Z) (buf : list Z) : M st (list Z) :=
  let! buf := put_entry 0 self 12 1 2 [46] buf in
  put_entry 12 parent (u16 (size - 12)) 2 2 [46; 46] buf.

Definition create_ext2_fs (disk_no start_lba total_sectors : Z) : M st bool :=
  if total_sectors <? 100 then ret false else
  modify (fun s => mk_est (edev s) start_lba (ext2 s) (eout s)) ;;;
  let total_blocks := u32 (total_sectors / SECTORS_PER_BLOCK) in
  let total_groups := TOTAL_GROUPS total_blocks in
  let total_inodes := u32 (total_groups * INODES_PER_GROUP) in
  let! ok := disk_write disk_no (u64 (start_lba + 2)) 2 (new_super total_blocks total_groups total_inodes) in
  if negb ok then ret false else
  let! ok := disk_write disk_no (u64 (start_lba + 4)) 2 (new_group_desc total_blocks total_inodes) in
  if negb ok then ret false else
  let! bitmap := lift (mark_bits 10 0 zero_block) in
  let! ok := disk_write disk_no (u64 (start_lba + 6)) 2 bitmap in
  if negb ok then ret false else
  let! ok := disk_write disk_no (u64 (start_lba + 8)) 2 (store 1 0 0x06 zero_block) in
  if negb ok then ret false else
  let! ok := disk_write disk_no (u64 (start_lba + 10)) 2 new_root_table in
  if negb ok then ret false else
  let! root := put_dots EXT2_ROOT_INO EXT2_ROOT_INO EXT2_BLOCK_SIZE zero_block in
  disk_write disk_no (u64 (start_lba + 9 * 2)) 2 root.

(** ** Blocks *)

Definition block_lba (start : Z) (fs : ext2_fs_t) (block : Z) : Z := u64 (start + block * (block_size fs / SECTOR_SIZE)).

(** Into a buffer of [room] bytes. *)
Definition ext2_read_block (room block : Z) : M st (option (list Z)) :=
  let! s := get in
  match ext2 s with
  | None => ret None
  | Some fs =>
      if s_blocks_count (super fs) <=? block then ret None else
      let! r := disk_read (fs_disk_no fs) (block_lba (EXT2_START_LBA s) fs block) (block_size fs / SECTOR_SIZE) in
      match r with
      | Some l => guard (zlen l <=? room) ;;; ret (Some l)
      | None => ret None
      end
  end.

Definition ext2_write_block (block : Z) (buf : list Z) : M st bool :=
  let! s := get in
  match ext2 s with
  | None => ret false
  | Some fs =>
      if s_blocks_count (super fs) <=? block then ret false else
      disk_write (fs_disk_no fs) (block_lba (EXT2_START_LBA s) fs block) (block_size fs / SECTOR_SIZE) buf
  end.

(** A block in a fresh buffer of one block: nothing where the read fails. *)
Definition fresh_block (block : Z) : M st (list Z) :=
  let! fs := the_fs in
  let! r := ext2_read_block (block_size fs) block in
  ret (default [] r).

(** ** Mounting *)

(** The group descriptors: one block of them, into a buffer with room for
    those of the volume. *)
Definition mount_groups (fs : ext2_fs_t) : M st bool :=
  let sb := super fs in
  let with_groups g := mk_fs (fs_disk_no fs) (fs_start_lba fs) (block_size fs) sb g in
  guard (negb (s_blocks_per_group sb =? 0)) ;;;
  let group_count := u32 (s_blocks_count sb + s_blocks_per_group sb - 1) / s_blocks_per_group sb in
  let room := group_count * sizeof_ext2_group_desc_t in
  let! ok := ext2_malloc room in
  if negb ok then set_fs (with_groups None) ;;; ret false else
  let zeros := replicate (Z.to_nat room) 0 in
  set_fs (with_groups (Some zeros)) ;;;
  let! r := ext2_read_block room (if block_size fs =? 1024 then 2 else 1) in
  set_fs (with_groups (Some (splice 0 (default [] r) zeros))) ;;;
  ret true.

(** The superblock, and the groups behind it. *)
Definition mount_super (disk_no : Z) (fs : ext2_fs_t) : M st bool :=
  let! start := gets EXT2_START_LBA in
  set_fs (mk_fs disk_no start (block_size fs) (super fs) (groups fs)) ;;;
  let! r := disk_read disk_no (u64 (start + 2)) 2 in
  match r with
  | None => ret false
  | Some buffer =>
      guard (zlen buffer =? 1024) ;;;
      let sb := take (Z.to_nat sizeof_ext2_superblock_t) buffer in
      set_fs (mk_fs disk_no start (block_size fs) sb (groups fs)) ;;;
      if negb (s_magic sb =? 0xEF53) then ret false else
      guard (s_log_block_size sb <=? 20) ;;;
      let fs := mk_fs disk_no start (Z.shiftl 1024 (s_log_block_size sb)) sb (groups fs) in
      set_fs fs ;;;
      mount_groups fs
  end.

Definition ext2_mount (disk_no : Z) : M st bool :=
  let! old := gets ext2 in
  match old with
  | Some fs => mount_super disk_no fs
  | None =>
      let! ok := ext2_malloc sizeof_ext2_fs_t in
      if negb ok then ret false else
      mount_super disk_no (mk_fs 0 0 0 (replicate (Z.to_nat sizeof_ext2_superblock_t) 0) None)
  end.

(** ** Inodes and files *)

(** The block and the offset of an inode. *)
Definition inode_place (inode_no : Z) : M st (Z * Z) :=
  let! fs := the_fs in
  let per := s_inodes_per_group (super fs) in
  guard (negb (per =? 0)) ;;;
  let group := u32 (inode_no - 1) / per in
  let index := u32 (inode_no - 1) mod per in
  let! table := group_field 4 group 8 in
  let at_ := u32 (index * s_inode_size (super fs)) in
  guard (negb (block_size fs =? 0)) ;;;
  ret (u32 (table + at_ / block_size fs), at_ mod block_size fs).

(** The inode, or nothing where its block cannot be read. *)
Definition ext2_read_inode (inode_no : Z) : M st (option (list Z)) :=
  let! '(block, offset) := inode_place inode_no in
  let! fs := the_fs in
  let! r := ext2_read_block (block_size fs) block in
  match r with
  | None => ret None
  | Some buf => let! l := at_bytes buf offset sizeof_ext2_inode_t in ret (Some l)
  end.

(** The loop over block pointers: it stops at a null pointer, or when
    [remaining], which wraps below the last block, is 0.  A block that cannot
    be read leaves its part of the buffer as it was. *)
Fixpoint read_blocks (bs : Z) (ptrs buffer : list Z) (buf_offset remaining : Z) : M st (list Z * Z * Z) :=
  match ptrs with
  | [] => ret (buffer, buf_offset, remaining)
  | p :: ptrs =>
      if negb (0 <? remaining) || (p =? 0) then ret (buffer, buf_offset, remaining) else
      let! r := ext2_read_block (zlen buffer - buf_offset) p in
      let buffer := match r with Some l => splice buf_offset l buffer | None => buffer end in
      read_blocks bs ptrs buffer (u32 (buf_offset + bs)) (u32 (remaining - bs))
  end.

Definition words (n : nat) (l : list Z) : list Z := (fun i => load 4 (4 * Z.of_nat i) l) <$> seq 0 n.

(** Always true; the buffer with what was read. *)
Definition ext2_read_file (inode buffer : list Z) : M st (list Z) :=
  let! fs := the_fs in
  let bs := block_size fs in
  let! '(buffer, off, remaining) := read_blocks bs (i_block inode <$> seqZ 0 12) buffer 0 (i_size inode) in
  if (0 <? remaining) && negb (i_block inode 12 =? 0) then
    let! pointers := fresh_block (i_block inode 12) in
    guard (negb (bool_decide (pointers = []))) ;;;
    let! '(buffer, _, _) := read_blocks bs (words (Z.to_nat (bs / 4)) pointers) buffer off remaining in
    ret buffer
  else ret buffer.

(** ** Directories *)

Definition c_string (l : list Z) : list Z := take (CString.lead (fun c => negb (c =? 0)) l) l.

(** One round of the listing. *)
Definition list_entry (size : Z) (buf : list Z) (offset : Z) : M st (Z + unit) :=
  if offset <? size then
    let! n := peek 4 buf offset in
    (if n =? 0 then ret tt else
     let! name_len := peek 1 buf (offset + 6) in
     let! name := at_bytes buf (offset + 8) name_len in
     modify (fun s => mk_est (edev s) (EXT2_START_LBA s) (ext2 s) (eout s ++ [(c_string name, s32 n)]))) ;;;
    let! rec_len := peek 2 buf (offset + 4) in
    ret (inl (u32 (offset + rec_len)))
  else ret (inr tt).

Definition ext2_list_dir (fuel : nat) (inode_no : Z) : M st unit :=
  let! i := ext2_read_inode inode_no in
  match i with
  | None => undef
  | Some inode =>
      let! buf := fresh_block (i_block inode 0) in
      iter_fuel fuel (list_entry (i_size inode) buf) 0
  end.

Definition ext2_alloc_inode : M st Z :=
  let! fs := the_fs in
  let! block := group_field 4 0 4 in
  let! bitmap := fresh_block block in
  let! '(i, bitmap) := lift (alloc_bit (Z.to_nat (s_inodes_count (super fs))) 0 bitmap) in
  if i <? 0 then ret 0 else
  ext2_write_block block bitmap ;;;
  ret (u32 (i + 1)).

Definition ext2_alloc_block : M st Z :=
  let! fs := the_fs in
  let! block := group_field 4 0 0 in
  let! bitmap := fresh_block block in
  let! '(i, bitmap) := lift (alloc_bit (Z.to_nat (s_blocks_count (super fs))) 0 bitmap) in
  if i <? 0 then ret 0 else
  ext2_write_block block bitmap ;;;
  ret i.

(** What an entry with a name of this length needs. *)
Definition actual_len (name_len : Z) : Z := 8 + Z.land (name_len + 3) (Z.lnot 3).

(** One round of the search for an entry with room behind its name, with the
    split of that entry. *)
Definition try_entry (bs block new_inode_no : Z) (name parent_buf : list Z) (offset_p : Z) : M st (Z + bool) :=
  if offset_p <? bs then
    let! name_len := peek 1 parent_buf (offset_p + 6) in
    let! rec_len := peek 2 parent_buf (offset_p + 4) in
    if actual_len name_len <? rec_len then
      let new := offset_p + actual_len name_len in
      let len := u8 (zlen name) in
      let! b := put_entry new new_inode_no (rec_len - actual_len name_len) len 2 (take (Z.to_nat len) name) parent_buf in
      let! b := poke 2 (offset_p + 4) (actual_len name_len) b in
      ext2_write_block block b ;;;
      ret (inr true)
    else ret (inl (u32 (offset_p + rec_len)))
  else ret (inr false).

(** The new inode into its table. *)
Definition write_inode (inode_no : Z) (inode : list Z) : M st unit :=
  let! '(block, offset) := inode_place inode_no in
  let! buf := fresh_block block in
  let! buf := copy_to offset inode buf in
  ext2_write_block block buf ;;;
  ret tt.

Definition ext2_create_dir (fuel : nat) (parent_inode_no : Z) (name : list Z) : M st bool :=
  let! new_inode_no := ext2_alloc_inode in
  let! new_block := ext2_alloc_block in
  if (new_inode_no =? 0) || (new_block =? 0) then ret false else
  let! fs := the_fs in
  let bs := block_size fs in
  write_inode new_inode_no (dir_inode bs new_block) ;;;
  let! block_buf := put_dots new_inode_no parent_inode_no bs (replicate (Z.to_nat bs) 0) in
  ext2_write_block new_block block_buf ;;;
  let! parent := ext2_read_inode parent_inode_no in
  match parent with
  | None => undef
  | Some parent =>
      let! parent_buf := fresh_block (i_block parent 0) in
      iter_fuel fuel (try_entry bs (i_block parent 0) new_inode_no name parent_buf) 0
  end.
End ext2.
