(* ===== verification/Ext2Props.v ===== *)
(** ext2: on a mounted volume files read as the blocks their inode names, and
    making a directory adds it to its parent and to nothing else.

    [view] relates the machine state to an abstract volume, a function from
    block numbers to their bytes; reads and writes of blocks are look-ups and
    updates there. *)
From stdpp Require Import functions.
From S2P Require Import Prelude BlockDev Vsfs VsfsProps Iso9660 Ext2.

(** ** Directories as lists of entries *)

Record dentry := mk_dentry { de_inode : Z; de_name : list Z }.

Definition de_len (d : dentry) : Z := actual_len (zlen (de_name d)).

(** The entry [d] with record length [rl] at [off]. *)
Record entry_at (buf : list Z) (off : Z) (d : dentry) (rl : Z) : Prop := {
  ea_off : 0 <= off;
  ea_fits : off + de_len d <= zlen buf;
  ea_inode : load 4 off buf = de_inode d;
  ea_rec : load 2 (off + 4) buf = rl;
  ea_nlen : load 1 (off + 6) buf = zlen (de_name d);
  ea_name : slice (off + 8) (zlen (de_name d)) buf = de_name d
}.

Definition dir_end (ds : list dentry) : Z := foldr (fun d n => de_len d + n) 0 ds.

(** Entries one behind the other, each with the length it needs. *)
Fixpoint tight_at (buf : list Z) (off : Z) (ds : list dentry) : Prop :=
  match ds with
  | [] => True
  | d :: ds => entry_at buf off d (de_len d) /\ tight_at buf (off + de_len d) ds
  end.

(** A directory block: the last entry has the rest of the block. *)
Definition holds_dir (buf : list Z) (ds : list dentry) (last : dentry) : Prop :=
  tight_at buf 0 ds /\ entry_at buf (dir_end ds) last (zlen buf - dir_end ds).

Lemma actual_len_bounds n : 0 <= n -> 8 + n <= actual_len n <= 8 + n + 3.
Proof.
  intros Hn. unfold actual_len. change (Z.lnot 3) with (Z.lnot (Z.ones 2)).
  replace (Z.land (n + 3) (Z.lnot (Z.ones 2))) with (Z.ldiff (n + 3) (Z.ones 2)) by apply Z.ldiff_land.
  rewrite Z.ldiff_ones_r, Z.shiftl_mul_pow2, Z.shiftr_div_pow2 by lia.
  Z.to_euclidean_division_equations; lia.
Qed.

Lemma de_len_bounds d : 8 + zlen (de_name d) <= de_len d <= 8 + zlen (de_name d) + 3.
Proof. apply actual_len_bounds. lia. Qed.

Lemma dir_end_app ds ds' : dir_end (ds ++ ds') = dir_end ds + dir_end ds'.
Proof. induction ds as [|d ds IH]; cbn; [done|]. unfold dir_end in *. lia. Qed.

Lemma dir_end_nonneg ds : 0 <= dir_end ds.
Proof. induction ds as [|d ds IH]; cbn; [done|]. pose proof (de_len_bounds d). unfold dir_end in IH. lia. Qed.

Lemma tight_at_app buf ds : forall off ds',
  tight_at buf off (ds ++ ds') <-> tight_at buf off ds /\ tight_at buf (off + dir_end ds) ds'.
Proof.
  induction ds as [|d ds IH]; intros off ds'; cbn [app tight_at dir_end foldr].
  - rewrite Z.add_0_r. naive_solver.
  - rewrite IH. unfold dir_end. rewrite Z.add_assoc. naive_solver.
Qed.

(** Two buffers of one length that agree on the bytes below [hi]. *)
Definition agree_below (hi : Z) (b b' : list Z) : Prop :=
  length b' = length b /\ forall o n, 0 <= o -> 0 <= n -> o + n <= hi -> slice o n b' = slice o n b.

Lemma entry_at_agree hi b b' off d rl :
  agree_below hi b b' -> off + de_len d <= hi -> entry_at b off d rl -> entry_at b' off d rl.
Proof.
  intros [Hl Ha] Hhi [H1 H2 H3 H4 H5 H6]. pose proof (de_len_bounds d). unfold load in *.
  split; unfold load; rewrite ?Hl, ?Ha by lia; done.
Qed.

Lemma tight_at_agree hi b b' ds : forall off,
  agree_below hi b b' -> off + dir_end ds <= hi -> tight_at b off ds -> tight_at b' off ds.
Proof.
  induction ds as [|d ds IH]; intros off Ha Hhi; cbn [tight_at]; [done|]. cbn [dir_end foldr] in Hhi.
  pose proof (dir_end_nonneg ds). unfold dir_end in *.
  intros [He Ht]. split; [apply (entry_at_agree hi b); [done | lia | done] | apply IH; [done | lia | done]].
Qed.

(** ** Buffers *)

Section buffers.
Context {S : Type}.

Lemma wp_at_bytes buf i n (Q : list Z -> S -> Prop) s : 0 <= i -> 0 <= n -> i + n <= zlen buf ->
  Q (slice i n buf) s -> wp (at_bytes buf i n) Q s.
Proof. intros. unfold at_bytes. wp_steps. done. Qed.

Lemma wp_peek n buf i (Q : Z -> S -> Prop) s : 0 <= i -> i + Z.of_nat n <= zlen buf ->
  Q (load n i buf) s -> wp (peek n buf i) Q s.
Proof. intros. unfold peek. apply wp_bind, wp_at_bytes; [lia..|]. by apply wp_ret. Qed.

Lemma wp_poke n i v buf (Q : list Z -> S -> Prop) s : 0 <= i -> i + Z.of_nat n <= zlen buf ->
  Q (store n i v buf) s -> wp (poke n i v buf) Q s.
Proof. intros. unfold poke. wp_steps. done. Qed.

Lemma wp_copy_to i d buf (Q : list Z -> S -> Prop) s : 0 <= i -> i + zlen d <= zlen buf ->
  Q (splice i d buf) s -> wp (copy_to i d buf) Q s.
Proof. intros. unfold copy_to. wp_steps. done. Qed.

Definition entry_bytes (n rl nl ft : Z) (nm : list Z) : list Z :=
  le_bytes 4 n ++ le_bytes 2 rl ++ le_bytes 1 nl ++ le_bytes 1 ft ++ nm.

Lemma length_entry_bytes n rl nl ft nm : zlen (entry_bytes n rl nl ft nm) = 8 + zlen nm.
Proof. unfold entry_bytes. rewrite !length_app, !length_le_bytes. lia. Qed.

Lemma put_entry_splice off n rl nl ft nm buf (Q : list Z -> S -> Prop) s :
  0 <= off -> off + 8 + zlen nm <= zlen buf ->
  Q (splice off (entry_bytes n rl nl ft nm) buf) s -> wp (put_entry off n rl nl ft nm buf) Q s.
Proof.
  intros Ho Hl HQ. unfold put_entry.
  apply wp_bind, wp_poke; [lia.. |]. unfold store. pose proof (length_le_bytes 4 n).
  apply wp_bind, wp_poke; [lia | rewrite ?length_splice; lia |]. unfold store. pose proof (length_le_bytes 2 rl).
  rewrite splice_extend' by lia.
  apply wp_bind, wp_poke; [lia | rewrite ?length_splice; rewrite ?length_app; lia |]. unfold store. pose proof (length_le_bytes 1 nl).
  rewrite splice_extend' by (rewrite ?length_app; lia).
  apply wp_bind, wp_poke; [lia | rewrite ?length_splice; rewrite ?length_app; lia |]. unfold store. pose proof (length_le_bytes 1 ft).
  rewrite splice_extend' by (rewrite ?length_app; lia).
  apply wp_copy_to; [lia | rewrite ?length_splice; rewrite ?length_app; lia |].
  rewrite splice_extend' by (rewrite ?length_app; lia).
  by rewrite <- !app_assoc.
Qed.

Lemma wp_put_entry off n rl nl ft nm buf (Q : list Z -> S -> Prop) s :
  0 <= off -> off + actual_len (zlen nm) <= zlen buf -> Forall byte buf -> Forall byte nm ->
  0 <= n < 4294967296 -> 0 <= rl < 65536 -> nl = zlen nm -> nl < 256 ->
  (forall buf', entry_at buf' off (mk_dentry n nm) rl -> agree_below off buf buf' -> Forall byte buf' -> Q buf' s) ->
  wp (put_entry off n rl nl ft nm buf) Q s.
Proof.
  intros Ho Hf Hb Hn Hi Hr -> Hl HQ. pose proof (actual_len_bounds (zlen nm) ltac:(lia)).
  apply put_entry_splice; [lia..|]. pose proof (length_entry_bytes n rl (zlen nm) ft nm) as Hlen.
  apply HQ.
  - split; unfold de_len, load; cbn [de_name de_inode]; rewrite ?slice_splice_inside, ?length_splice by lia; try lia;
      unfold entry_bytes;
      repeat first [rewrite slice_app_r by (rewrite length_le_bytes; lia) | rewrite !length_le_bytes].
    + rewrite Z.sub_diag, slice_app_exact by (by rewrite length_le_bytes). rewrite le_val_bytes. by apply Z.mod_small.
    + replace (off + 4 - off - Z.of_nat 4) with 0 by lia.
      rewrite slice_app_exact by (by rewrite length_le_bytes). rewrite le_val_bytes. by apply Z.mod_small.
    + replace (off + 6 - off - Z.of_nat 4 - Z.of_nat 2) with 0 by lia.
      rewrite slice_app_exact by (by rewrite length_le_bytes). rewrite le_val_bytes. apply Z.mod_small. lia.
    + replace (off + 8 - off - Z.of_nat 4 - Z.of_nat 2 - Z.of_nat 1 - Z.of_nat 1) with 0 by lia. by apply slice_all.
  - split; [apply length_splice; lia|]. intros. apply slice_splice_disjoint; lia.
  - apply Forall_splice; [|done]. unfold entry_bytes. rewrite !Forall_app. split_and!; try apply le_bytes_byte; done.
Qed.
End buffers.

(** ** The volume as a function from block numbers to bytes *)

Section ext2.
Context {E : Type} {D : BlockDev E} {L : BlockDevLaws E}.
Abbreviation st := (est E).
Variables (fs : ext2_fs_t) (start : Z) (rest : Z -> Z -> list Z).
Abbreviation bs := (block_size fs).
Abbreviation count := (s_blocks_count (super fs)).
Abbreviation per_block := (bs / 512).

Definition block_size_ok : Prop := bs = 1024 \/ bs = 2048 \/ bs = 4096.

(** The state stands for the blocks [f]: the volume is mounted on a working
    disk that has all of it, and sectors outside it have the bytes [rest]. *)
Record view (f : Z -> list Z) (out : list (list Z * Z)) (s : st) : Prop := {
  vw_fs : ext2 s = Some fs;
  vw_start : EXT2_START_LBA s = start;
  vw_reliable : reliable (edev s);
  vw_cap : start + count * per_block <= capacity (edev s) (fs_disk_no fs);
  vw_block : forall b, 0 <= b < count -> sectors (edev s) (fs_disk_no fs) (start + b * per_block) per_block = f b;
  vw_rest : forall d l, d <> fs_disk_no fs \/ l < start \/ start + count * per_block <= l -> sector (edev s) d l = rest d l;
  vw_out : eout s = out
}.

Hypothesis size_ok : block_size_ok.
Hypothesis range_ok : 0 <= start /\ start + count * per_block < 18446744073709551616.
Hypothesis count_ok : count < 4294967296.

Lemma per_block_ok : (per_block = 2 \/ per_block = 4 \/ per_block = 8) /\ per_block * 512 = bs.
Proof. destruct size_ok as [-> | [-> | ->]]; cbn; auto. Qed.

Lemma view_length f out s b : view f out s -> 0 <= b < count -> zlen (f b) = bs.
Proof.
  intros Hv Hb. rewrite <- (vw_block _ _ _ Hv b Hb). destruct per_block_ok as [? Hp].
  rewrite length_sectors by lia. done.
Qed.

Lemma view_byte f out s b : view f out s -> 0 <= b < count -> Forall byte (f b).
Proof. intros Hv Hb. rewrite <- (vw_block _ _ _ Hv b Hb). apply sectors_byte. Qed.

Lemma block_range b : 0 <= b < count -> 0 < per_block /\ 0 <= b * per_block /\ b * per_block + per_block <= count * per_block.
Proof. intros Hb. destruct per_block_ok as [Hp _]. nia. Qed.

Lemma block_lba_ok b : 0 <= b < count -> block_lba start fs b = start + b * per_block.
Proof.
  intros Hb. unfold block_lba, SECTOR_SIZE. apply u64_small.
  pose proof (block_range b Hb). lia.
Qed.

(** What a device that only differs in the heap or in an unread state shows. *)
Lemma view_dev_eq f out s e : view f out s -> dev_eq (edev s) e -> view f out (mk_est e (EXT2_START_LBA s) (ext2 s) (eout s)).
Proof.
  intros [H1 H2 H3 H4 H5 H6 H7] (Hs & Hc & Hr). split; cbn; rewrite ?Hc; auto.
  - intros b Hb. rewrite <- (H5 b Hb). apply sectors_ext. intros. apply Hs.
  - intros d l Hd. rewrite Hs. auto.
Qed.

Lemma ext2_read_block_ok f out s room b (Q : option (list Z) -> st -> Prop) : view f out s -> 0 <= b < count -> bs <= room ->
  (forall s', view f out s' -> Q (Some (f b)) s') -> wp (ext2_read_block room b) Q s.
Proof.
  intros Hv Hb Hr HQ. pose proof (view_length _ _ _ _ Hv Hb) as Hlen.
  unfold ext2_read_block. apply wp_bind. unfold get, wp at 1.
  rewrite (vw_fs _ _ _ Hv), (proj2 (Z.leb_gt _ _)) by lia. rewrite (vw_start _ _ _ Hv), (block_lba_ok b Hb).
  destruct per_block_ok as [Hpb Hpb']. pose proof (block_range b Hb) as Hbr. change (bs / SECTOR_SIZE) with per_block.
  apply wp_bind. unfold wp at 1, disk_read.
  pose proof (read_total (edev s) (fs_disk_no fs) (start + b * per_block) per_block (vw_reliable _ _ _ Hv)) as Ht.
  pose proof (vw_cap _ _ _ Hv) as Hc.
  destruct (kebla_disk_read _ _ _ _) as [r e] eqn:Hrd. cbn in Ht.
  destruct Ht as [l ->]; [lia..|].
  pose proof (read_frame _ _ _ _ _ _ Hrd) as Hfr.
  apply read_data in Hrd; [|lia | lia].
  change (l = sectors (edev s) (fs_disk_no fs) (start + b * per_block) per_block) in Hrd.
  rewrite (vw_block _ _ _ Hv b Hb) in Hrd. subst l.
  wp_steps. apply HQ. by apply view_dev_eq.
Qed.

Lemma fresh_block_ok f out s b (Q : list Z -> st -> Prop) : view f out s -> 0 <= b < count ->
  (forall s', view f out s' -> Q (f b) s') -> wp (fresh_block b) Q s.
Proof.
  intros Hv Hb HQ. unfold fresh_block. apply wp_bind. unfold wp at 1, the_fs. rewrite (vw_fs _ _ _ Hv).
  apply wp_bind. eapply ext2_read_block_ok; [done.. | lia |]. intros s' Hv'. apply wp_ret. by apply HQ.
Qed.

Lemma ext2_write_block_ok f out s b buf (Q : bool -> st -> Prop) : view f out s -> 0 <= b < count ->
  zlen buf = bs -> Forall byte buf ->
  (forall s', view (<[b := buf]> f) out s' -> Q true s') -> wp (ext2_write_block b buf) Q s.
Proof.
  intros Hv Hb Hlen Hby HQ.
  unfold ext2_write_block. apply wp_bind. unfold get, wp at 1.
  rewrite (vw_fs _ _ _ Hv), (proj2 (Z.leb_gt _ _)) by lia. rewrite (vw_start _ _ _ Hv), (block_lba_ok b Hb).
  destruct per_block_ok as [Hpb Hpb']. pose proof (block_range b Hb) as Hbr. change (bs / SECTOR_SIZE) with per_block.
  unfold wp, disk_write.
  pose proof (write_total (edev s) (fs_disk_no fs) (start + b * per_block) per_block buf (vw_reliable _ _ _ Hv)) as Ht.
  pose proof (vw_cap _ _ _ Hv) as Hc.
  destruct (kebla_disk_write _ _ _ _ _) as [r e] eqn:Hw. cbn in Ht.
  rewrite Ht in Hw |- *; [|lia..].
  pose proof (write_frame _ _ _ _ _ _ _ Hw) as (Hfr & Hcap & Hrel).
  pose proof (write_data _ _ _ _ _ _ Hw) as Hd.
  apply HQ. destruct Hv as [H1 H2 H3 H4 H5 H6 H7]. split; cbn; rewrite ?Hcap; auto.
  - intros b' Hb'. destruct (decide (b' = b)) as [->|Hne].
    + rewrite fn_lookup_insert. apply sectors_of_slices; [lia.. |]. intros i Hi. apply Hd; done || lia.
    + rewrite fn_lookup_insert_ne by done. rewrite <- H5 by done. apply sectors_ext. intros i Hi. apply Hfr.
      right. destruct (proj1 (Z.lt_gt_cases b' b) Hne) as [Hlt|Hlt]; [left | right].
      * pose proof (Z.mul_le_mono_nonneg_r (b' + 1) b per_block). lia.
      * pose proof (Z.mul_le_mono_nonneg_r (b + 1) b' per_block). lia.
  - intros d l Hl. rewrite <- H6 by done. apply Hfr. lia.
Qed.

(** ** Files *)

Lemma join_fmap_cons {A} (g : A -> list Z) x l : mjoin (g <$> x :: l) = g x ++ mjoin (g <$> l).
Proof. done. Qed.

Lemma length_file_blocks f out s ptrs : view f out s -> Forall (fun p => 0 < p < count) ptrs ->
  zlen (mjoin (f <$> ptrs)) = zlen ptrs * bs.
Proof.
  intros Hv. induction 1 as [|p ptrs Hp _ IH]; [done|].
  rewrite join_fmap_cons, length_app. pose proof (view_length _ _ _ p Hv ltac:(lia)).
  cbn [length]. lia.
Qed.

Lemma read_blocks_ok ptrs : forall zs f out buffer off remaining s (Q : list Z * Z * Z -> st -> Prop), view f out s ->
  Forall (fun p => 0 < p < count) ptrs -> Forall (fun p => p = 0) zs ->
  0 <= off -> off + zlen ptrs * bs <= zlen buffer -> off + zlen ptrs * bs < 4294967296 ->
  0 <= remaining < 4294967296 -> (ptrs <> [] -> (zlen ptrs - 1) * bs < remaining) ->
  (forall s', view f out s' ->
     Q (splice off (mjoin (f <$> ptrs)) buffer, off + zlen ptrs * bs, u32 (remaining - zlen ptrs * bs)) s') ->
  wp (read_blocks bs (ptrs ++ zs) buffer off remaining) Q s.
Proof.
  induction ptrs as [|p ptrs IH]; intros zs f out buffer off remaining s Q Hv Hp Hz Ho Hl Hw Hr Hrem HQ.
  - assert (Hend : Q (buffer, off, remaining) s).
    { specialize (HQ s Hv). cbn in HQ. rewrite Z.add_0_r, Z.sub_0_r, u32_small in HQ by done.
      unfold splice in HQ. cbn in HQ. rewrite Nat.add_0_r, take_drop in HQ. done. }
    destruct Hz as [|z zs ->]; cbn [app read_blocks]; [by apply wp_ret|]. rewrite orb_true_r. by apply wp_ret.
  - apply Forall_cons in Hp as [Hp Hps]. cbn [app read_blocks]. specialize (Hrem ltac:(done)).
    destruct per_block_ok as [Hpb Hpb']. cbn [length] in *.
    rewrite (proj2 (Z.ltb_lt 0 remaining)), (proj2 (Z.eqb_neq p 0)) by nia. cbn [negb orb].
    apply wp_bind. eapply ext2_read_block_ok; [done | lia | nia |]. intros s' Hv'. cbv zeta.
    pose proof (view_length _ _ _ p Hv' ltac:(lia)) as Hlen.
    rewrite (u32_small (off + bs)) by nia.
    destruct (decide (ptrs = [])) as [->|Hne].
    + apply (IH zs f out); cbn [length]; try done; [lia | rewrite length_splice; lia | lia | apply u32_range |].
      intros s'' Hv''. specialize (HQ s'' Hv''). cbn [length] in HQ |- *.
      rewrite join_fmap_cons in HQ. change (mjoin (f <$> [])) with (@nil Z) in *. rewrite app_nil_r in HQ. cbn [length] in HQ.
      change (Z.of_nat 1) with 1 in HQ. change (Z.of_nat 0) with 0. rewrite Z.mul_1_l in HQ.
      rewrite Z.mul_0_l, Z.add_0_r, Z.sub_0_r, (u32_small (u32 _)) by apply u32_range.
      unfold splice at 1. cbn [length app]. by rewrite Nat.add_0_r, take_drop.
    + assert (0 < zlen ptrs) by (destruct ptrs; [done | cbn; lia]).
      rewrite (u32_small (remaining - bs)) by nia.
      apply (IH zs f out); try done; [lia | rewrite length_splice; nia | nia | nia | nia |].
      intros s'' Hv''. specialize (HQ s'' Hv''). rewrite join_fmap_cons in HQ. cbn [length] in HQ.
      rewrite splice_extend' by (rewrite ?(length_file_blocks _ _ _ _ Hv'' Hps); nia).
      replace (off + bs + zlen ptrs * bs) with (off + Z.of_nat (S (length ptrs)) * bs) by lia.
      by replace (remaining - bs - zlen ptrs * bs) with (remaining - Z.of_nat (S (length ptrs)) * bs) by lia.
Qed.
(** The inode describes a file kept in the blocks [l]: the first twelve by
    its own pointers, the others by the single indirect block, and null
    pointers behind the last. *)
Record file_at (f : Z -> list Z) (inode l : list Z) : Prop := {
  fl_size : 0 <= i_size inode /\ (zlen l - 1) * bs < i_size inode <= zlen l * bs;
  fl_ptrs : Forall (fun p => 0 < p < count) l;
  fl_direct : i_block inode <$> seqZ 0 12 = take 12 l ++ replicate (12 - length l) 0;
  fl_indirect :
    if decide (length l <= 12)%nat then i_block inode 12 = 0
    else 0 < i_block inode 12 < count /\
         words (Z.to_nat (bs / 4)) (f (i_block inode 12)) =
           drop 12 l ++ replicate (Z.to_nat (bs / 4) - (length l - 12)) 0
}.

Lemma the_fs_ok f out s (Q : ext2_fs_t -> st -> Prop) : view f out s -> Q fs s -> wp the_fs Q s.
Proof. intros Hv HQ. unfold wp, the_fs. by rewrite (vw_fs _ _ _ Hv). Qed.

Lemma zeros_null n : Forall (fun p => p = 0) (replicate n 0).
Proof. by apply Forall_replicate. Qed.

Lemma read_file_spec f out s inode l buffer (Q : list Z -> st -> Prop) : view f out s -> file_at f inode l ->
  zlen l * bs <= zlen buffer -> zlen l * bs < 4294967296 ->
  (forall s', view f out s' -> Q (splice 0 (mjoin (f <$> l)) buffer) s') -> wp (ext2_read_file inode buffer) Q s.
Proof.
  intros Hv [Hsz Hp Hd Hi] Hroom Hw HQ. destruct per_block_ok as [Hpb Hpb'].
  unfold ext2_read_file. apply wp_bind, (the_fs_ok f out); [done|]. cbv zeta. rewrite Hd. apply wp_bind.
  destruct (decide (length l <= 12)%nat) as [Hle|Hgt].
  - rewrite take_ge by lia.
    apply (read_blocks_ok l _ f out); try done; [apply zeros_null | lia.. |]. intros s' Hv'.
    rewrite Hi. cbn [negb Z.eqb]. rewrite andb_false_r. apply wp_ret. by apply HQ.
  - destruct Hi as [Hi12 Hwords].
    assert (Ht : zlen (take 12 l) = 12) by (rewrite length_take; lia).
    assert (Hdl : zlen (drop 12 l) = zlen l - 12) by (rewrite length_drop; lia).
    apply (read_blocks_ok (take 12 l) _ f out); try done;
      [by apply Forall_take | apply zeros_null | nia.. |].
    intros s' Hv'. rewrite Ht, (u32_small (i_size inode - _)) by nia.
    rewrite (proj2 (Z.ltb_lt 0 _)), (proj2 (Z.eqb_neq (i_block inode 12) 0)) by nia. cbn [negb andb].
    apply wp_bind, (fresh_block_ok f out); [done | lia |]. intros s1 Hv1.
    pose proof (view_length _ _ _ _ Hv1 (conj (Z.lt_le_incl _ _ (proj1 Hi12)) (proj2 Hi12))) as Hlen.
    apply wp_bind, wp_guard. { rewrite bool_decide_eq_false_2; [done|]. intros He. rewrite He in Hlen. cbn in Hlen. lia. }
    rewrite Hwords. pose proof (length_file_blocks _ _ _ _ Hv1 (Forall_take _ 12 _ Hp)) as Hl1.
    apply wp_bind, (read_blocks_ok (drop 12 l) _ f out); try done;
      [by apply Forall_drop | apply zeros_null | lia | rewrite length_splice; nia | nia | nia | nia |].
    intros s2 Hv2. apply wp_ret. specialize (HQ s2 Hv2).
    rewrite splice_extend' by (rewrite ?(length_file_blocks _ _ _ _ Hv1 (Forall_drop _ 12 _ Hp)); lia).
    by rewrite <- join_app, <- fmap_app, take_drop.
Qed.

(** ** Inodes *)

Abbreviation per_group := (s_inodes_per_group (super fs)).
Abbreviation inode_bytes := (s_inode_size (super fs)).

(** A field of a group descriptor. *)
Definition group_word (group off : Z) (v : Z) : Prop :=
  exists g, groups fs = Some g /\ 0 <= group /\ group * 32 + off + 4 <= zlen g /\ load 4 (group * 32 + off) g = v.

(** Inode [n] is at offset [o] of block [b]. *)
Record inode_slot (n b o : Z) : Prop := {
  is_no : 1 <= n < 4294967296;
  is_per : 0 < per_group;
  is_table : exists t, group_word ((n - 1) / per_group) 8 t /\ 0 <= t /\ b = t + (n - 1) mod per_group * inode_bytes / bs;
  is_bytes : 0 <= (n - 1) mod per_group * inode_bytes < 4294967296;
  is_off : o = ((n - 1) mod per_group * inode_bytes) mod bs;
  is_block : 0 < b < count;
  is_fits : o + 128 <= bs
}.

Lemma group_field_ok f out s group off v (Q : Z -> st -> Prop) : view f out s -> group_word group off v -> 0 <= off ->
  Q v s -> wp (group_field 4 group off) Q s.
Proof.
  intros Hv (g & Hg & Hgr & Hlen & <-) Ho HQ. unfold group_field. apply wp_bind, (the_fs_ok f out); [done|].
  rewrite Hg. unfold sizeof_ext2_group_desc_t. apply wp_peek; [lia..|done].
Qed.

Lemma inode_place_ok f out s n b o (Q : Z * Z -> st -> Prop) : view f out s -> inode_slot n b o ->
  Q (b, o) s -> wp (inode_place n) Q s.
Proof.
  intros Hv [Hn Hper (t & Ht & Ht0 & ->) Hby -> Hb Hf] HQ. destruct per_block_ok as [Hpb Hpb'].
  unfold inode_place. apply wp_bind, (the_fs_ok f out); [done|]. cbv zeta.
  apply wp_bind, wp_guard; [rewrite (proj2 (Z.eqb_neq per_group 0)) by lia; done|].
  rewrite (u32_small (n - 1)) by lia. apply wp_bind. eapply group_field_ok; [done.. |].
  rewrite (u32_small (_ * _)) by done.
  apply wp_bind, wp_guard; [rewrite (proj2 (Z.eqb_neq bs 0)) by lia; done|].
  apply wp_ret. by rewrite u32_small by lia.
Qed.

Lemma slot_off n b o : inode_slot n b o -> 0 <= o.
Proof. intros [_ _ _ _ -> _ _]. apply Z.mod_pos_bound. destruct per_block_ok. lia. Qed.

Lemma read_inode_ok f out s n b o (Q : option (list Z) -> st -> Prop) : view f out s -> inode_slot n b o ->
  (forall s', view f out s' -> Q (Some (slice o 128 (f b))) s') -> wp (ext2_read_inode n) Q s.
Proof.
  intros Hv Hs HQ. pose proof (slot_off _ _ _ Hs). pose proof (is_block _ _ _ Hs). pose proof (is_fits _ _ _ Hs).
  unfold ext2_read_inode. apply wp_bind. eapply inode_place_ok; [done.. |].
  apply wp_bind, (the_fs_ok f out); [done|]. apply wp_bind, (ext2_read_block_ok f out); [done | lia | lia |].
  intros s' Hv'. pose proof (view_length _ _ _ b Hv' ltac:(lia)).
  unfold sizeof_ext2_inode_t. apply wp_bind, wp_at_bytes; [lia.. |]. apply wp_ret. by apply HQ.
Qed.

Lemma write_inode_ok f out s n b o inode (Q : unit -> st -> Prop) : view f out s -> inode_slot n b o ->
  zlen inode = 128 -> Forall byte inode ->
  (forall s', view (<[b := splice o inode (f b)]> f) out s' -> Q tt s') -> wp (write_inode n inode) Q s.
Proof.
  intros Hv Hs Hl Hby HQ. pose proof (slot_off _ _ _ Hs). pose proof (is_block _ _ _ Hs). pose proof (is_fits _ _ _ Hs).
  unfold write_inode. apply wp_bind. eapply inode_place_ok; [done.. |].
  apply wp_bind, (fresh_block_ok f out); [done | lia |]. intros s1 Hv1. pose proof (view_length _ _ _ b Hv1 ltac:(lia)).
  apply wp_bind, wp_copy_to; [lia.. |].
  apply wp_bind, (ext2_write_block_ok f out); [done | lia | rewrite length_splice; lia | |].
  - apply Forall_splice; [done | by eapply view_byte; [|lia]].
  - intros s2 Hv2. apply wp_ret. by apply HQ.
Qed.

(** ** Bitmaps *)

(** The least clear bit. *)
Definition least_free (bm : list Z) (j : Z) : Prop :=
  in_map bm j /\ used bm j = false /\ forall k, 0 <= k < j -> used bm k = true.

Lemma alloc_bit_least n : forall i bm j, Forall byte bm -> least_free bm j -> 0 <= i <= j -> j < i + Z.of_nat n ->
  exists bm', alloc_bit n i bm = Ret (j, bm') /\ Forall byte bm' /\ length bm' = length bm /\
    forall k, 0 <= k -> used bm' k = if decide (k = j) then true else used bm k.
Proof.
  induction n as [|n IH]; intros i bm j Hb (Hm & Hf & Hl) Hi Hn; [lia|]. cbn [alloc_bit].
  assert (Him : in_map bm i) by (unfold in_map in *; lia).
  destruct (bitmap_test_ok bm i Him) as (v & -> & Hv). cbn [obind]. rewrite Hv.
  destruct (decide (i = j)) as [->|Hne].
  - rewrite Hf. cbn [negb]. destruct (bitmap_set_ok bm j Hb Hm) as (bm' & -> & Hb' & Hl' & Hu). cbn [obind]. by exists bm'.
  - rewrite Hl by lia. cbn [negb]. apply IH; [done | done | lia | lia].
Qed.

(** What an allocation leaves of a bitmap. *)
Definition took_bit (bm : list Z) (j : Z) (bm' : list Z) : Prop :=
  forall k, 0 <= k -> used bm' k = if decide (k = j) then true else used bm k.

Lemma alloc_inode_ok f out s ib j (Q : Z -> st -> Prop) : view f out s -> group_word 0 4 ib -> 0 <= ib < count ->
  least_free (f ib) j -> j < s_inodes_count (super fs) -> j + 1 < 4294967296 ->
  (forall s' bm', took_bit (f ib) j bm' -> view (<[ib := bm']> f) out s' -> Q (j + 1) s') -> wp ext2_alloc_inode Q s.
Proof.
  intros Hv Hg Hib Hj Hc Hw HQ. unfold ext2_alloc_inode. apply wp_bind, (the_fs_ok f out); [done|].
  apply wp_bind. eapply group_field_ok; [done.. |]. apply wp_bind, (fresh_block_ok f out); [done.. |]. intros s1 Hv1.
  assert (0 <= j) by (destruct Hj as [[? _] _]; done).
  destruct (alloc_bit_least (Z.to_nat (s_inodes_count (super fs))) 0 (f ib) j) as (bm' & -> & Hby & Hl & Hu);
    [by eapply view_byte | done | lia | lia |].
  apply wp_bind, wp_lift. rewrite (proj2 (Z.ltb_ge j 0)) by done.
  apply wp_bind, (ext2_write_block_ok f out); [done.. | rewrite Hl; by eapply view_length | done |].
  intros s2 Hv2. apply wp_ret. rewrite u32_small by lia. by eapply HQ.
Qed.

Lemma alloc_block_ok f out s bb j (Q : Z -> st -> Prop) : view f out s -> group_word 0 0 bb -> 0 <= bb < count ->
  least_free (f bb) j -> j < count ->
  (forall s' bm', took_bit (f bb) j bm' -> view (<[bb := bm']> f) out s' -> Q j s') -> wp ext2_alloc_block Q s.
Proof.
  intros Hv Hg Hbb Hj Hc HQ. unfold ext2_alloc_block. apply wp_bind, (the_fs_ok f out); [done|].
  apply wp_bind. eapply group_field_ok; [done.. |]. apply wp_bind, (fresh_block_ok f out); [done.. |]. intros s1 Hv1.
  assert (0 <= j) by (destruct Hj as [[? _] _]; done).
  destruct (alloc_bit_least (Z.to_nat count) 0 (f bb) j) as (bm' & -> & Hby & Hl & Hu);
    [by eapply view_byte | done | lia | lia |].
  apply wp_bind, wp_lift. rewrite (proj2 (Z.ltb_ge j 0)) by done.
  apply wp_bind, (ext2_write_block_ok f out); [done.. | rewrite Hl; by eapply view_length | done |].
  intros s2 Hv2. apply wp_ret. by eapply HQ.
Qed.

(** ** Listing *)

Definition line (d : dentry) : list (list Z * Z) :=
  if de_inode d =? 0 then [] else [(c_string (de_name d), s32 (de_inode d))].
Definition lines (ds : list dentry) : list (list Z * Z) := mjoin (line <$> ds).

Lemma view_print f out s l : view f out s ->
  view f (out ++ l) (mk_est (edev s) (EXT2_START_LBA s) (ext2 s) (eout s ++ l)).
Proof. intros [H1 H2 H3 H4 H5 H6 <-]. by split. Qed.

Lemma list_entry_ok f out s buf off d rl size (Q : Z + unit -> st -> Prop) : view f out s -> entry_at buf off d rl ->
  off < size -> 0 <= off + rl < 4294967296 ->
  (forall s', view f (out ++ line d) s' -> Q (inl (off + rl)) s') -> wp (list_entry size buf off) Q s.
Proof.
  intros Hv [Ho Hf Hi Hr Hn Hnm] Hs Hw HQ. pose proof (de_len_bounds d).
  unfold list_entry. rewrite (proj2 (Z.ltb_lt off size)) by done.
  apply wp_bind, wp_peek; [lia..|]. rewrite Hi. unfold line in HQ.
  assert (Hgo : forall s', Q (inl (off + rl)) s' -> wp (let! rec_len := peek 2 buf (off + 4) in ret (inl (u32 (off + rec_len)))) Q s').
  { intros s' HQ'. apply wp_bind, wp_peek; [lia.. |]. rewrite Hr, u32_small by done. by apply wp_ret. }
  apply wp_bind. destruct (de_inode d =? 0).
  - apply wp_ret, Hgo, HQ. by rewrite app_nil_r.
  - apply wp_bind, wp_peek; [lia.. |]. rewrite Hn. apply wp_bind, wp_at_bytes; [lia.. |]. rewrite Hnm.
    apply wp_modify, Hgo, HQ. by apply view_print.
Qed.

Lemma list_loop f buf ds : forall last off out fuel s (Q : unit -> st -> Prop), view f out s -> zlen buf < 4294967296 ->
  tight_at buf off ds -> entry_at buf (off + dir_end ds) last (zlen buf - (off + dir_end ds)) ->
  (length ds + 1 < fuel)%nat ->
  (forall s', view f (out ++ lines (ds ++ [last])) s' -> Q tt s') ->
  wp (iter_fuel fuel (list_entry (zlen buf) buf) off) Q s.
Proof.
  induction ds as [|d ds IH]; intros last off out fuel s Q Hv Hz Ht Hl Hfuel HQ;
    (destruct fuel as [|fuel]; [cbn in Hfuel; lia|]); cbn [iter_fuel].
  - cbn [dir_end foldr] in Hl. rewrite Z.add_0_r in Hl.
    pose proof (ea_fits _ _ _ _ Hl). pose proof (ea_off _ _ _ _ Hl). pose proof (de_len_bounds last).
    apply wp_bind. eapply list_entry_ok; [done.. | lia | lia |]. intros s' Hv'.
    destruct fuel as [|fuel]; [cbn in Hfuel; lia|]. cbn [iter_fuel]. apply wp_bind. unfold list_entry.
    rewrite (proj2 (Z.ltb_ge _ _)) by lia. apply wp_ret, wp_ret, HQ. unfold lines. cbn. by rewrite app_nil_r.
  - destruct Ht as [Hd Ht]. pose proof (ea_fits _ _ _ _ Hd). pose proof (ea_off _ _ _ _ Hd). pose proof (de_len_bounds d).
    apply wp_bind. eapply list_entry_ok; [done.. | lia | lia |]. intros s' Hv'.
    cbn [dir_end foldr] in Hl. cbn [length] in Hfuel.
    apply (IH last _ _ _ _ _ Hv' Hz Ht); [by rewrite <- Z.add_assoc | lia |].
    intros s2 Hv2. apply HQ. unfold lines in *. by rewrite <- app_assoc in Hv2.
Qed.

Lemma list_dir_ok f out s n b o ds last fuel (Q : unit -> st -> Prop) : view f out s -> inode_slot n b o ->
  let inode := slice o 128 (f b) in
  0 <= i_block inode 0 < count -> i_size inode = bs -> holds_dir (f (i_block inode 0)) ds last -> (length ds + 1 < fuel)%nat ->
  (forall s', view f (out ++ lines (ds ++ [last])) s' -> Q tt s') -> wp (ext2_list_dir fuel n) Q s.
Proof.
  intros Hv Hs inode Hb Hsz [Ht Hl] Hfuel HQ. destruct per_block_ok as [Hpb Hpb'].
  unfold ext2_list_dir. apply wp_bind. eapply read_inode_ok; [done..|]. intros s1 Hv1. fold inode.
  apply wp_bind, (fresh_block_ok f out); [done.. |]. intros s2 Hv2.
  pose proof (view_length _ _ _ _ Hv2 Hb) as Hlen. rewrite Hsz, <- Hlen.
  destruct size_ok as [Hbs | [Hbs | Hbs]]; eapply list_loop; done || lia.
Qed.

(** ** Adding an entry *)

Lemma try_entry_skip f out s buf off d block n name (Q : Z + bool -> st -> Prop) : view f out s ->
  entry_at buf off d (de_len d) -> off < bs -> zlen buf = bs ->
  Q (inl (off + de_len d)) s -> wp (try_entry bs block n name buf off) Q s.
Proof.
  intros Hv [Ho Hf Hi Hr Hn Hnm] Hs Hb HQ. pose proof (de_len_bounds d). unfold try_entry.
  rewrite (proj2 (Z.ltb_lt off bs)) by done.
  apply wp_bind, wp_peek; [lia.. |]. apply wp_bind, wp_peek; [lia.. |]. rewrite Hn, Hr.
  change (actual_len (zlen (de_name d))) with (de_len d). rewrite Z.ltb_irrefl.
  rewrite u32_small; [by apply wp_ret|]. destruct size_ok as [Hbs | [Hbs | Hbs]]; lia.
Qed.

Lemma try_entry_split f out s off d rl block n name (Q : Z + bool -> st -> Prop) : view f out s -> 0 <= block < count ->
  let buf := f block in let new := mk_dentry n name in
  entry_at buf off d rl -> off + rl = bs -> off + de_len d + de_len new <= bs ->
  0 <= n < 4294967296 -> Forall byte name -> zlen name < 256 ->
  (forall s' buf', entry_at buf' off d (de_len d) -> entry_at buf' (off + de_len d) new (rl - de_len d) ->
     agree_below off buf buf' -> view (<[block := buf']> f) out s' -> Q (inr true) s') ->
  wp (try_entry bs block n name buf off) Q s.
Proof.
  intros Hv Hblk buf new He Hrl Hfit Hn Hname Hlen HQ. pose proof (view_length _ _ _ _ Hv Hblk) as Hzl. fold buf in Hzl.
  pose proof (view_byte _ _ _ _ Hv Hblk) as Hby. fold buf in Hby.
  pose proof (de_len_bounds d). pose proof (de_len_bounds new) as Hnl. cbn [de_name new] in Hnl.
  destruct He as [Ho Hf Hi Hr Hnlen Hnm]. unfold try_entry. destruct per_block_ok as [Hpb Hpb'].
  rewrite (proj2 (Z.ltb_lt off bs)) by lia.
  apply wp_bind, wp_peek; [lia.. |]. apply wp_bind, wp_peek; [lia.. |]. rewrite Hnlen, Hr.
  change (actual_len (zlen (de_name d))) with (de_len d).
  rewrite (proj2 (Z.ltb_lt (de_len d) rl)) by lia. cbv zeta. rewrite u8_small, Nat2Z.id, firstn_all by lia.
  apply wp_bind, wp_put_entry; [lia | change (actual_len (zlen name)) with (de_len new); lia | done | done | done |
    destruct size_ok as [Hbs | [Hbs | Hbs]]; lia | done | done |].
  intros b1 He1 [Ha1 Ha2] Hb1. apply wp_bind, wp_poke; [lia | rewrite Ha1; lia |].
  assert (Hl2 : length (store 2 (off + 4) (de_len d) b1) = length buf) by (rewrite length_store by (rewrite ?Ha1; lia); done).
  apply wp_bind, (ext2_write_block_ok f out); [done.. | rewrite Hl2; done | by apply store_byte |].
  intros s' Hv'. apply wp_ret. eapply HQ; [| | |exact Hv'].
  - unfold load in *. split; unfold load; try (rewrite Hl2; done); try done;
      try (unfold store; rewrite slice_splice_disjoint by (rewrite ?length_le_bytes, ?Ha1; lia); rewrite Ha2 by lia; done).
    change (load 2 (off + 4) (store 2 (off + 4) (de_len d) b1) = de_len d).
    rewrite load_store_same by (rewrite ?Ha1; lia). apply Z.mod_small. destruct size_ok as [Hbs | [Hbs | Hbs]]; lia.
  - destruct He1 as [E1 E2 E3 E4 E5 E6]. cbn [de_name de_inode new] in *. unfold load in *. fold new in E2.
    split; unfold load; cbn [de_name de_inode new]; try done; [rewrite Hl2, <- Ha1; done | | | |];
      (unfold store; rewrite slice_splice_disjoint by (rewrite ?length_le_bytes, ?Ha1; lia); done).
  - split; [done|]. intros o m Ho' Hm Hle. unfold store.
    rewrite slice_splice_disjoint by (rewrite ?length_le_bytes, ?Ha1; lia). by apply Ha2; [..|lia].
Qed.

Lemma add_loop f out block n name ds : forall last off fuel s (Q : bool -> st -> Prop), view f out s -> 0 <= block < count ->
  let buf := f block in let new := mk_dentry n name in let e := off + dir_end ds in
  tight_at buf off ds -> entry_at buf e last (bs - e) -> e + de_len last + de_len new <= bs -> 0 <= off ->
  0 <= n < 4294967296 -> Forall byte name -> zlen name < 256 -> (length ds < fuel)%nat ->
  (forall s' buf', entry_at buf' e last (de_len last) -> entry_at buf' (e + de_len last) new (bs - (e + de_len last)) ->
     agree_below e buf buf' -> view (<[block := buf']> f) out s' -> Q true s') ->
  wp (iter_fuel fuel (try_entry bs block n name buf) off) Q s.
Proof.
  induction ds as [|d ds IH]; intros last off fuel s Q Hv Hb buf new e Ht Hl Hfit Ho Hn Hnm Hlen Hfuel HQ;
    (destruct fuel as [|fuel]; [lia|]); cbn [iter_fuel]; subst e; cbn [dir_end foldr] in *; apply wp_bind.
  - rewrite Z.add_0_r in *.
    apply (try_entry_split f out s off last (bs - off) block n name); try done; [lia|].
    intros s' buf' H1 H2 H3 H4. apply wp_ret. eapply HQ; try done. by replace (bs - (off + de_len last)) with (bs - off - de_len last) by lia.
  - destruct Ht as [Hd Ht]. pose proof (de_len_bounds d). pose proof (dir_end_nonneg ds). unfold dir_end in *.
    pose proof (de_len_bounds last). pose proof (de_len_bounds new).
    eapply try_entry_skip; [done.. | lia | by eapply view_length |]. cbn [length] in Hfuel.
    apply (IH last _ fuel s Q Hv Hb Ht); unfold dir_end; rewrite <- ?Z.add_assoc in *; try done; lia.
Qed.

(** The first two entries of a new directory. *)
Definition dot (n : Z) : dentry := mk_dentry n [46].
Definition dotdot (p : Z) : dentry := mk_dentry p [46; 46].

Lemma put_dots_ok self parent (s : st) (Q : list Z -> st -> Prop) : 0 <= self < 4294967296 -> 0 <= parent < 4294967296 ->
  (forall b, holds_dir b [dot self] (dotdot parent) -> zlen b = bs -> Forall byte b -> Q b s) ->
  wp (put_dots self parent bs (replicate (Z.to_nat bs) 0)) Q s.
Proof.
  intros Hs Hp HQ. unfold put_dots. destruct per_block_ok as [Hpb Hpb']. pose proof (actual_len_bounds 1).
  assert (Hz : zlen (replicate (Z.to_nat bs) 0) = bs) by (rewrite length_replicate; lia).
  apply wp_bind, wp_put_entry; try done; [change (actual_len (zlen [46])) with 12; rewrite Hz; lia | apply zeros_byte | by repeat constructor |].
  intros b1 He1 [Ha1 _] Hb1. rewrite u16_small by (destruct size_ok as [Hbs | [Hbs | Hbs]]; lia).
  apply wp_put_entry; try done; [change (actual_len (zlen [46; 46])) with 12; rewrite Ha1, Hz; lia | by repeat constructor |
    destruct size_ok as [Hbs | [Hbs | Hbs]]; lia |].
  intros b2 He2 Ha2 Hb2. pose proof (proj1 Ha2) as Hl2. apply HQ; [| by rewrite Hl2, Ha1 | done].
  split; cbn [tight_at dir_end foldr].
  - split; [|done]. apply (entry_at_agree 12 b1); done.
  - change (de_len (dot self) + 0) with 12. rewrite Hl2, Ha1, Hz. done.
Qed.

(** ** Making a directory *)

Lemma dir_inode_ok b : zlen (dir_inode bs b) = 128 /\ Forall byte (dir_inode bs b).
Proof.
  unfold dir_inode. split.
  - assert (H : length (replicate 128 0) = 128%nat) by done. revert H. generalize (replicate 128 0). intros l Hl.
    rewrite !length_store; rewrite ?length_store; rewrite ?length_store; rewrite ?length_store; rewrite ?length_store; rewrite ?Hl; lia.
  - do 5 apply store_byte. apply zeros_byte.
Qed.

Lemma dir_inode_fields b : 0 <= b < 4294967296 -> i_block (dir_inode bs b) 0 = b /\ i_size (dir_inode bs b) = bs.
Proof.
  intros Hb. unfold i_block, i_size, dir_inode.
  assert (H : length (replicate 128 0) = 128%nat) by done. revert H. generalize (replicate 128 0). intros l Hl.
  set (l1 := store 2 0 _ l). assert (H1 : zlen l1 = 128) by (subst l1; rewrite length_store; lia).
  set (l2 := store 4 4 _ l1). assert (H2 : zlen l2 = 128) by (subst l2; rewrite length_store; lia).
  set (l3 := store 2 26 _ l2). assert (H3 : zlen l3 = 128) by (subst l3; rewrite length_store; lia).
  set (l4 := store 4 28 _ l3). assert (H4 : zlen l4 = 128) by (subst l4; rewrite length_store; lia).
  split.
  - change (40 + 4 * 0) with 40. rewrite load_store_same by lia. by apply Z.mod_small.
  - rewrite load_store_disjoint by lia. unfold l4. rewrite load_store_disjoint by lia.
    unfold l3. rewrite load_store_disjoint by lia. unfold l2. rewrite load_store_same by lia. apply Z.mod_small.
    destruct size_ok as [-> | [-> | ->]]; done.
Qed.

(** The parent [p] is a directory of one block with room for [name], inode
    [n] and block [b] are the first free ones, and the blocks involved are
    different and, but for [b], marked as used. *)
Record mkdir_ready (f : Z -> list Z) (p n b : Z) (name : list Z) (ds : list dentry) (last : dentry)
    (pt po nt no ib bb pd : Z) : Prop := {
  mr_parent : inode_slot p pt po;
  mr_pd : i_block (slice po 128 (f pt)) 0 = pd /\ 0 < pd < count;
  mr_psize : i_size (slice po 128 (f pt)) = bs;
  mr_dir : holds_dir (f pd) ds last;
  mr_room : dir_end (ds ++ [last; mk_dentry n name]) <= bs;
  mr_name : Forall byte name /\ zlen name < 256;
  mr_new : inode_slot n nt no;
  mr_ib : group_word 0 4 ib /\ 0 < ib < count;
  mr_bb : group_word 0 0 bb /\ 0 < bb < count;
  mr_inode : least_free (f ib) (n - 1) /\ n - 1 < s_inodes_count (super fs);
  mr_block : least_free (f bb) b /\ 0 < b < count;
  mr_used : Forall (fun x => used (f bb) x = true) [pt; nt; ib; bb; pd];
  mr_apart : NoDup [ib; bb; pd] /\ (pt ∉ [ib; bb; pd]) /\ (nt ∉ [ib; bb; pd]);
  mr_slots : pt = nt -> po + 128 <= no \/ no + 128 <= po
}.

(** What making the directory leaves. *)
Record made_dir (f f' : Z -> list Z) (p n b : Z) (name : list Z) (ds : list dentry) (last : dentry)
    (nt no ib bb pd : Z) : Prop := {
  md_ib : took_bit (f ib) (n - 1) (f' ib);
  md_bb : took_bit (f bb) b (f' bb);
  md_inode : slice no 128 (f' nt) = dir_inode bs b;
  md_slots : forall o, 0 <= o -> o + 128 <= bs -> o + 128 <= no \/ no + 128 <= o -> slice o 128 (f' nt) = slice o 128 (f nt);
  md_dir : holds_dir (f' b) [dot n] (dotdot p);
  md_parent : holds_dir (f' pd) (ds ++ [last]) (mk_dentry n name);
  md_rest : forall x, x ∉ [ib; bb; nt; b; pd] -> f' x = f x
}.

(** The parent's block with the new entry. *)
Lemma holds_dir_added buf buf' ds last new : let e := dir_end ds in holds_dir buf ds last ->
  entry_at buf' e last (de_len last) -> entry_at buf' (e + de_len last) new (zlen buf - (e + de_len last)) ->
  agree_below e buf buf' -> holds_dir buf' (ds ++ [last]) new.
Proof.
  intros e [Ht Hl] H1 H2 Ha. split.
  - apply tight_at_app. split; [apply (tight_at_agree e buf); [done | cbn; lia | done]|]. cbn. split; [|done]. done.
  - rewrite dir_end_app. cbn [dir_end foldr]. rewrite Z.add_0_r, (proj1 Ha). done.
Qed.

Lemma create_dir_spec f out s p n b name ds last pt po nt no ib bb pd fuel (Q : bool -> st -> Prop) :
  view f out s -> mkdir_ready f p n b name ds last pt po nt no ib bb pd -> (length ds < fuel)%nat ->
  (forall s' f', view f' out s' -> made_dir f f' p n b name ds last nt no ib bb pd -> Q true s') ->
  wp (ext2_create_dir fuel p name) Q s.
Proof.
  intros Hv [Hp [Hpd Hpdr] Hps Hdir Hroom [Hnb Hnl] Hn [Hib Hibr] [Hbb Hbbr] [Hfi Hic] [Hfb Hbr] Hused (Hnd & Hpt & Hnt) Hsl] Hfuel HQ.
  pose proof (is_no _ _ _ Hn) as Hnr. pose proof (is_no _ _ _ Hp) as Hpr.
  assert (Hne : forall x, x ∈ [pt; nt; ib; bb; pd] -> x <> b).
  { intros x Hx ->. rewrite Forall_forall in Hused. specialize (Hused _ Hx). destruct Hfb as (_ & Hf & _). congruence. }
  apply NoDup_cons in Hnd as [Hd1 Hnd]. apply NoDup_cons in Hnd as [Hd2 _].
  assert (pt <> b /\ nt <> b /\ ib <> b /\ bb <> b /\ pd <> b) as (B1 & B2 & B3 & B4 & B5) by (split_and!; apply Hne; set_solver).
  assert (ib <> bb /\ ib <> pd /\ bb <> pd) as (D1 & D2 & D3) by set_solver.
  assert (pt <> ib /\ pt <> bb /\ pt <> pd /\ nt <> ib /\ nt <> bb /\ nt <> pd) as (T1 & T2 & T3 & T4 & T5 & T6) by set_solver.
  clear Hne Hused Hd1 Hd2 Hpt Hnt.
  unfold ext2_create_dir.
  apply wp_bind. eapply alloc_inode_ok; [done | done | lia | done | done | lia |]. intros s1 bm1 Hbm1 Hv1.
  apply wp_bind. eapply alloc_block_ok; [done | done | lia | by rewrite fn_lookup_insert_ne | lia |]. intros s2 bm2 Hbm2 Hv2.
  rewrite fn_lookup_insert_ne in Hbm2 by done. replace (n - 1 + 1) with n by lia.
  rewrite (proj2 (Z.eqb_neq n 0)), (proj2 (Z.eqb_neq b 0)) by lia. cbn [orb].
  apply wp_bind. eapply the_fs_ok; [done|]. cbv zeta. destruct (dir_inode_ok b) as [Hil Hiby].
  apply wp_bind. eapply write_inode_ok; [done.. |]. intros s3 Hv3.
  rewrite !fn_lookup_insert_ne in Hv3 by done.
  apply wp_bind, put_dots_ok; [lia.. |]. intros dots Hdots Hdl Hdb.
  apply wp_bind. eapply ext2_write_block_ok; [done | lia | done | done |]. intros s4 Hv4.
  set (f4 := <[b := dots]> _) in Hv4.
  pose proof (slot_off _ _ _ Hn) as Hno. pose proof (is_fits _ _ _ Hn) as Hnf. pose proof (is_block _ _ _ Hn) as Hnt.
  pose proof (slot_off _ _ _ Hp) as Hpo. pose proof (is_fits _ _ _ Hp) as Hpf.
  pose proof (view_length _ _ _ nt Hv ltac:(destruct Hnt; split; [by apply Z.lt_le_incl | done])) as Hntl.
  assert (Hpi : slice po 128 (f4 pt) = slice po 128 (f pt)).
  { subst f4. rewrite fn_lookup_insert_ne by done. destruct (decide (pt = nt)) as [->|].
    - rewrite fn_lookup_insert. specialize (Hsl eq_refl). apply slice_splice_disjoint; rewrite ?Hil, ?Hntl; done || lia.
    - by rewrite !fn_lookup_insert_ne. }
  assert (Hf4 : f4 pd = f pd) by (subst f4; by rewrite !fn_lookup_insert_ne).
  apply wp_bind. eapply read_inode_ok; [done.. |]. intros s5 Hv5. rewrite Hpi, Hpd.
  apply wp_bind. eapply fresh_block_ok; [done | lia |]. intros s6 Hv6.
  destruct Hdir as [Ht Hl]. pose proof (view_length _ _ _ pd Hv ltac:(lia)) as Hpdl. rewrite Hpdl in Hl.
  rewrite dir_end_app in Hroom.
  change (dir_end [last; mk_dentry n name]) with (de_len last + (de_len (mk_dentry n name) + 0)) in Hroom.
  eapply (add_loop f4 out pd n name ds last 0 fuel s6); rewrite ?Hf4, ?Z.add_0_l; try done; [lia.. |].
  intros s' buf' He1 He2 Ha Hv'. apply (HQ s' _ Hv'). subst f4. split.
  - by rewrite !fn_lookup_insert_ne, fn_lookup_insert by done.
  - by rewrite !fn_lookup_insert_ne, fn_lookup_insert by done.
  - rewrite !fn_lookup_insert_ne, fn_lookup_insert by done.
    apply slice_splice_eq; [by rewrite Hil | exact Hno | rewrite Hntl; exact Hnf].
  - intros o Ho Hof Hd. rewrite !fn_lookup_insert_ne, fn_lookup_insert by done.
    apply slice_splice_disjoint; rewrite ?Hil, ?Hntl; done || lia.
  - by rewrite fn_lookup_insert_ne, fn_lookup_insert by done.
  - rewrite fn_lookup_insert. apply (holds_dir_added (f pd)); try done; rewrite ?Hpdl; [|done..]. by split; rewrite ?Hpdl.
  - intros x Hx. rewrite !not_elem_of_cons in Hx. destruct Hx as (X1 & X2 & X3 & X4 & X5 & _).
    by rewrite !fn_lookup_insert_ne by done.
Qed.

(** The parent's inode stays what it was. *)
Lemma listed_parent f f' p n b name ds last pt po nt no ib bb pd :
  mkdir_ready f p n b name ds last pt po nt no ib bb pd -> made_dir f f' p n b name ds last nt no ib bb pd ->
  let inode := slice po 128 (f' pt) in
  inode = slice po 128 (f pt) /\ 0 <= i_block inode 0 < count /\ i_size inode = bs /\
  holds_dir (f' (i_block inode 0)) (ds ++ [last]) (mk_dentry n name).
Proof.
  intros Hm Hmd inode. assert (He : inode = slice po 128 (f pt)).
  { unfold inode. destruct (decide (pt = nt)) as [->|Hne].
    - apply (md_slots _ _ _ _ _ _ _ _ _ _ _ _ _ Hmd); [eapply slot_off, mr_parent; done | eapply is_fits, mr_parent; done |].
      by apply (mr_slots _ _ _ _ _ _ _ _ _ _ _ _ _ _ Hm).
    - rewrite (md_rest _ _ _ _ _ _ _ _ _ _ _ _ _ Hmd); [done|].
      destruct (mr_apart _ _ _ _ _ _ _ _ _ _ _ _ _ _ Hm) as (_ & Hpt & _).
      pose proof (mr_used _ _ _ _ _ _ _ _ _ _ _ _ _ _ Hm) as Hu. apply Forall_cons in Hu as [Hu _].
      destruct (mr_block _ _ _ _ _ _ _ _ _ _ _ _ _ _ Hm) as [(_ & Hf & _) _].
      assert (pt <> b) by congruence. set_solver. }
  destruct (mr_pd _ _ _ _ _ _ _ _ _ _ _ _ _ _ Hm) as [Hpd Hr].
  rewrite He, Hpd. split_and!; [done | lia | lia | apply (mr_psize _ _ _ _ _ _ _ _ _ _ _ _ _ _ Hm) |].
  apply (md_parent _ _ _ _ _ _ _ _ _ _ _ _ _ Hmd).
Qed.

(** C16 Reading a file of a mounted volume, kept in direct and indirect blocks,
    stores the bytes of its blocks in order at the start of the buffer and
    changes no sector. *)
Theorem ext2_read_file_ok f out s inode l buffer : view f out s -> file_at f inode l ->
  zlen l * bs <= zlen buffer -> zlen l * bs < 4294967296 ->
  exists s', ext2_read_file inode buffer s = Ret (splice 0 (mjoin (f <$> l)) buffer, s') /\ view f out s'.
Proof.
  intros Hv Hf Hr Hw.
  assert (H : wp (ext2_read_file inode buffer) (fun r s' => r = splice 0 (mjoin (f <$> l)) buffer /\ view f out s') s)
    by (eapply read_file_spec; [done.. | by intros]).
  apply wp_run in H as (r & s' & Hrun & -> & Hv'). by exists s'.
Qed.

(** C15 Making a directory on a mounted volume takes the first free inode and
    the first free block, writes the inode and a block with "." and "..",
    and adds the name to the parent, changing nothing else; the parent then
    lists its old entries and the new one, and the new directory lists its
    two. *)
Theorem ext2_create_dir_ok f out s p n b name ds last pt po nt no ib bb pd fuel :
  view f out s -> mkdir_ready f p n b name ds last pt po nt no ib bb pd -> (length ds + 2 < fuel)%nat ->
  exists s1 f', ext2_create_dir fuel p name s = Ret (true, s1) /\ view f' out s1 /\
    made_dir f f' p n b name ds last nt no ib bb pd /\
    (exists s2, ext2_list_dir fuel p s1 = Ret (tt, s2) /\ eout s2 = out ++ lines (ds ++ [last; mk_dentry n name])) /\
    (exists s3, ext2_list_dir fuel n s1 = Ret (tt, s3) /\ eout s3 = out ++ lines [dot n; dotdot p]).
Proof.
  intros Hv Hm Hfuel.
  assert (H : wp (ext2_create_dir fuel p name) (fun r s' => r = true /\ exists f', view f' out s' /\
    made_dir f f' p n b name ds last nt no ib bb pd) s).
  { eapply create_dir_spec; [done.. | lia |]. intros s' f' Hv' Hmd. split; [done|]. by exists f'. }
  apply wp_run in H as (r & s1 & Hrun & -> & f' & Hv1 & Hmd). exists s1, f'. split_and!; [done.. | |].
  - pose proof (listed_parent _ _ _ _ _ _ _ _ _ _ _ _ _ _ _ Hm Hmd) as (Hin & Hb & Hsz & Hd).
    assert (H : wp (ext2_list_dir fuel p) (fun _ s2 => eout s2 = out ++ lines (ds ++ [last; mk_dentry n name])) s1).
    { eapply list_dir_ok; [done | apply (mr_parent _ _ _ _ _ _ _ _ _ _ _ _ _ _ Hm) | done | done | done | rewrite length_app; cbn; lia |].
      intros s2 Hv2. rewrite (vw_out _ _ _ Hv2), <- app_assoc. done. }
    apply wp_run in H as ([] & s2 & H2 & Ho). by exists s2.
  - pose proof (mr_block _ _ _ _ _ _ _ _ _ _ _ _ _ _ Hm) as [_ Hbr]. destruct (dir_inode_fields b ltac:(lia)) as [F1 F2].
    assert (H : wp (ext2_list_dir fuel n) (fun _ s2 => eout s2 = out ++ lines [dot n; dotdot p]) s1).
    { pose proof (md_inode _ _ _ _ _ _ _ _ _ _ _ _ _ Hmd) as Hi.
      eapply list_dir_ok; [done | apply (mr_new _ _ _ _ _ _ _ _ _ _ _ _ _ _ Hm) | rewrite Hi, F1; lia | by rewrite Hi | | |].
      - rewrite Hi, F1. apply (md_dir _ _ _ _ _ _ _ _ _ _ _ _ _ Hmd).
      - cbn. lia.
      - intros s2 Hv2. by rewrite (vw_out _ _ _ Hv2). }
    apply wp_run in H as ([] & s2 & H2 & Ho). by exists s2.
Qed.
End ext2.

(** ** A small volume *)
Module SmallExt2.
Import RamDisk.

Definition zeros (n : nat) : list Z := replicate n 0.

(** 64 blocks of 1024 bytes and 32 inodes in one group. *)
Definition sb : list Z :=
  le_bytes 4 32 ++ le_bytes 4 64 ++ zeros 16 ++ zeros 8 ++ le_bytes 4 64 ++ zeros 4 ++ le_bytes 4 32 ++ zeros 12 ++
  le_bytes 2 0xEF53 ++ zeros 30 ++ le_bytes 2 128.
Definition fs0 : ext2_fs_t := mk_fs 0 0 1024 sb (Some (le_bytes 4 3 ++ le_bytes 4 4 ++ le_bytes 4 5 ++ zeros 20)).

Definition root_block : list Z :=
  entry_bytes 2 12 1 2 [46] ++ zeros 3 ++ entry_bytes 2 1012 2 2 [46; 46] ++ zeros 1002.
Definition data_at (i : Z) : list Z := replicate 1024 i.
Definition disk0 : ram := mk_ram
  (ram_store 0 6 2 ([0xFF; 0x03] ++ zeros 1022) (ram_store 0 8 2 ([0xFF; 0x03] ++ zeros 1022)
  (ram_store 0 10 2 (zeros 128 ++ dir_inode 1024 9 ++ zeros 768) (ram_store 0 18 2 root_block
  (ram_store 0 40 2 (data_at 7) (ram_store 0 42 2 (data_at 8) ∅)))))) 4096 true.
Definition start0 : est ram := mk_est disk0 0 (Some fs0) [].
Definition blocks0 (b : Z) : list Z := sectors disk0 0 (0 + b * (1024 / 512)) (1024 / 512).

Lemma view0 : view fs0 0 (ram_sector disk0) blocks0 [] start0.
Proof. by split. Qed.

(** A file of 1500 bytes in blocks 20 and 21. *)
Definition file_inode : list Z := store 4 44 21 (store 4 40 20 (store 4 4 1500 (zeros 128))).

Lemma file0 : file_at fs0 blocks0 file_inode [20; 21].
Proof.
  split; [vm_compute; intuition discriminate | by repeat constructor | vm_compute; reflexivity | vm_compute; reflexivity].
Qed.

Lemma ext2_read_file_ok_witness :
  exists s', ext2_read_file file_inode (zeros 2048) start0 = Ret (data_at 7 ++ data_at 8, s').
Proof.
  destruct (ext2_read_file_ok fs0 0 (ram_sector disk0) ltac:(left; done) ltac:(done) blocks0 [] start0 file_inode [20; 21] (zeros 2048)
    view0 file0 ltac:(done) ltac:(done)) as (s' & H & _).
  exists s'. rewrite H. vm_compute. reflexivity.
Defined.

(** The directory "bin" in the root. *)
Definition name0 : list Z := [98; 105; 110].

Lemma ready0 : mkdir_ready fs0 blocks0 2 11 10 name0 [dot 2] (dotdot 2) 5 128 6 256 4 3 9.
Proof.
  assert (Hbits : forall k, 0 <= k < 10 -> used (blocks0 3) k = true /\ used (blocks0 4) k = true).
  { intros k Hk. assert (k = 0 \/ k = 1 \/ k = 2 \/ k = 3 \/ k = 4 \/ k = 5 \/ k = 6 \/ k = 7 \/ k = 8 \/ k = 9)
      as [-> | [-> | [-> | [-> | [-> | [-> | [-> | [-> | [-> | ->]]]]]]]]] by lia; split; vm_compute; reflexivity. }
  split.
  - split; try (vm_compute; intuition (discriminate || reflexivity)).
    exists 5. split; [eexists|]; split_and!; try (vm_compute; intuition (discriminate || reflexivity)).
  - split; vm_compute; intuition (discriminate || reflexivity).
  - vm_compute. reflexivity.
  - split; [split; [|done]|]; split; vm_compute; intuition (discriminate || reflexivity).
  - vm_compute. discriminate.
  - split; [by repeat constructor | done].
  - split; try (vm_compute; intuition (discriminate || reflexivity)).
    exists 5. split; [eexists|]; split_and!; try (vm_compute; intuition (discriminate || reflexivity)).
  - split; [eexists; split_and!; try done; vm_compute; intuition (discriminate || reflexivity) | done].
  - split; [eexists; split_and!; try done; vm_compute; intuition (discriminate || reflexivity) | done].
  - split; [split; [vm_compute; intuition discriminate | split; [vm_compute; reflexivity | apply Hbits]] | done].
  - split; [split; [vm_compute; intuition discriminate | split; [vm_compute; reflexivity | apply Hbits]] | done].
  - repeat constructor; vm_compute; reflexivity.
  - split_and!; (apply (bool_decide_unpack _); vm_compute; exact I).
  - intros [=].
Qed.

Lemma ext2_create_dir_ok_witness : exists s1 s2, ext2_create_dir 5 2 name0 start0 = Ret (true, s1) /\
  ext2_list_dir 5 2 s1 = Ret (tt, s2) /\ eout s2 = [([46], 2); ([46; 46], 2); (name0, 11)].
Proof.
  destruct (ext2_create_dir_ok fs0 0 (ram_sector disk0) ltac:(left; done) ltac:(done) ltac:(done) blocks0 [] start0
    2 11 10 name0 [dot 2] (dotdot 2) 5 128 6 256 4 3 9 5 view0 ready0 ltac:(cbn; lia))
    as (s1 & f' & H1 & _ & _ & (s2 & H2 & Ho) & _).
  exists s1, s2. split; [done|]. split; [done|]. exact Ho.
Defined.
End SmallExt2.
