(* ===== verification/Ext2MountProps.v ===== *)
(** ext2: mounting.  A volume whose group descriptors fill a block mounts as
    it is on the disk; with fewer the read runs over the end of the buffer,
    and the volumes the kernel makes itself are of this kind. *)
From S2P Require Import Prelude BlockDev Vsfs VsfsProps Ext2 Ext2Props.

Section mount.
Context {E : Type} {D : BlockDev E} {L : BlockDevLaws E}.
Abbreviation st := (est E).

Lemma ext2_malloc_run n (s : st) : reliable (edev s) -> 0 < n ->
  exists e, dev_eq (edev s) e /\ ext2_malloc n s = Ret (true, mk_est e (EXT2_START_LBA s) (ext2 s) (eout s)).
Proof.
  intros Hr Hn. unfold ext2_malloc. pose proof (malloc_total (edev s) n Hr Hn) as Ht.
  destruct (malloc n (edev s)) as [r e] eqn:Hm. cbn in Ht. subst r. exists e. split; [|done]. by apply (malloc_frame _ _ _ _ Hm).
Qed.

Lemma disk_read_run d lba n (s : st) : reliable (edev s) -> 0 <= lba -> 0 < n -> lba + n <= capacity (edev s) d ->
  exists e, dev_eq (edev s) e /\
    disk_read d lba n s = Ret (Some (sectors (edev s) d lba n), mk_est e (EXT2_START_LBA s) (ext2 s) (eout s)).
Proof.
  intros Hr Hl Hn Hc. unfold disk_read. pose proof (read_total (edev s) d lba n Hr Hl Hn Hc) as Ht.
  destruct (kebla_disk_read d lba n (edev s)) as [r e] eqn:Hm. cbn in Ht. destruct Ht as [l ->].
  rewrite (read_data _ _ _ _ _ _ Hm Hl Hn). exists e. split; [|done]. by apply (read_frame _ _ _ _ _ _ Hm).
Qed.

(** The superblock [sb] on the disk is one the code can work with. *)
Record mountable (e : E) (d start : Z) (sb : list Z) : Prop := {
  mo_super : sb = take 90 (sectors e d (start + 2) 2);
  mo_magic : s_magic sb = 0xEF53;
  mo_size : 0 <= s_log_block_size sb <= 2;
  mo_groups : 0 < s_blocks_per_group sb;
  mo_count : 2 < s_blocks_count sb /\ s_blocks_count sb + s_blocks_per_group sb - 1 < 4294967296;
  mo_start : 0 <= start;
  mo_cap : let n := start + s_blocks_count sb * (Z.shiftl 1024 (s_log_block_size sb) / 512) in
           n < 18446744073709551616 /\ n <= capacity e d
}.

Definition group_count (sb : list Z) : Z := (s_blocks_count sb + s_blocks_per_group sb - 1) / s_blocks_per_group sb.

(** The file system structure after a mount. *)
Definition mounted_fs (e : E) (d start : Z) (sb : list Z) : ext2_fs_t :=
  let bs := Z.shiftl 1024 (s_log_block_size sb) in
  let gd := if bs =? 1024 then 2 else 1 in
  mk_fs d start bs sb
    (Some (splice 0 (sectors e d (start + gd * (bs / 512)) (bs / 512)) (replicate (Z.to_nat (group_count sb * 32)) 0))).

Lemma log_sizes sb : 0 <= s_log_block_size sb <= 2 ->
  Z.shiftl 1024 (s_log_block_size sb) = 1024 \/ Z.shiftl 1024 (s_log_block_size sb) = 2048 \/
  Z.shiftl 1024 (s_log_block_size sb) = 4096.
Proof.
  intros H. assert (s_log_block_size sb = 0 \/ s_log_block_size sb = 1 \/ s_log_block_size sb = 2) as [-> | [-> | ->]] by lia; auto.
Qed.

(** What is left after the superblock has been read. *)
Lemma mount_until_groups d (s : st) sb : reliable (edev s) -> mountable (edev s) d (EXT2_START_LBA s) sb ->
  let start := EXT2_START_LBA s in
  exists e g, dev_eq (edev s) e /\
    let fs := mk_fs d start (Z.shiftl 1024 (s_log_block_size sb)) sb g in
    ext2_mount d s = mount_groups fs (mk_est e start (Some fs) (eout s)).
Proof.
  intros Hr [Hsb Hm Hl Hg Hc Hst [Hw Hcap]] start. fold start in Hsb, Hst, Hw, Hcap.
  assert (Hpb : 2 <= Z.shiftl 1024 (s_log_block_size sb) / 512) by (destruct (log_sizes sb Hl) as [Hb | [Hb | Hb]]; rewrite Hb; done).
  assert (H4 : start + 4 <= capacity (edev s) d /\ start + 4 < 18446744073709551616) by nia.
  assert (Hgo : forall fs e m, dev_eq (edev s) e -> exists e1, dev_eq (edev s) e1 /\
    let fs1 := mk_fs d start (Z.shiftl 1024 (s_log_block_size sb)) sb (groups fs) in
    mount_super d fs (mk_est e start m (eout s)) = mount_groups fs1 (mk_est e1 start (Some fs1) (eout s))).
  { intros fs e m He. pose proof He as (Es & Ec & Er).
    set (s0 := mk_est e start (Some (mk_fs d start (block_size fs) (super fs) (groups fs))) (eout s)).
    destruct (disk_read_run d (start + 2) 2 s0) as (e1 & He1 & Hrd); cbn; [auto | lia | lia | rewrite Ec; lia |].
    exists e1. split; [by apply (dev_eq_trans _ e)|]. cbn [edev s0] in Hrd.
    assert (Hsec : sectors e d (start + 2) 2 = sectors (edev s) d (start + 2) 2) by (apply sectors_ext; intros; apply Es).
    rewrite Hsec in Hrd. unfold mount_super, set_fs, bind at 1 2 3, modify, gets. cbn [obind edev EXT2_START_LBA eout].
    rewrite u64_small by lia. fold s0. rewrite Hrd. cbn [obind]. unfold bind at 1. rewrite length_sectors by lia.
    change (Z.to_nat sizeof_ext2_superblock_t) with 90%nat. rewrite <- Hsb, Hm, (proj2 (Z.leb_le _ 20)) by lia. done. }
  unfold ext2_mount, bind at 1, gets. cbn [obind]. destruct (ext2 s) as [fs|] eqn:Hfs.
  - destruct (Hgo fs (edev s) (ext2 s) (dev_eq_refl _)) as (e & He & Heq). exists e, (groups fs). split; [done|].
    cbv zeta in *. rewrite <- Heq. by destruct s.
  - destruct (ext2_malloc_run sizeof_ext2_fs_t s Hr ltac:(done)) as (e & He & Hma).
    unfold bind. rewrite Hma. cbn [obind negb]. rewrite Hfs. 
    destruct (Hgo (mk_fs 0 0 0 (replicate (Z.to_nat sizeof_ext2_superblock_t) 0) None) e None He) as (e1 & He1 & Heq).
    exists e1, None. split; [done|]. exact Heq.
Qed.

(** The volume as the device shows it. *)
Definition disk_blocks (e : E) (d start bs : Z) (b : Z) : list Z := sectors e d (start + b * (bs / 512)) (bs / 512).

(** The run up to the read of the descriptors. *)
Lemma groups_read d (s : st) start sb e g : reliable (edev s) ->
  0 < s_blocks_per_group sb /\ s_blocks_count sb + s_blocks_per_group sb - 1 < 4294967296 -> 0 < s_blocks_count sb ->
  dev_eq (edev s) e ->
  let bs := Z.shiftl 1024 (s_log_block_size sb) in
  let room := group_count sb * 32 in let zeros := replicate (Z.to_nat room) 0 in
  let with_groups g := mk_fs d start bs sb g in
  exists e1, dev_eq (edev s) e1 /\
    mount_groups (with_groups g) (mk_est e start (Some (with_groups g)) (eout s)) =
    (let! r := ext2_read_block room (if bs =? 1024 then 2 else 1) in
     set_fs (with_groups (Some (splice 0 (default [] r) zeros))) ;;; ret true) (mk_est e1 start (Some (with_groups (Some zeros))) (eout s)).
Proof.
  intros Hr [Hg Hc] Hn He bs room zeros with_groups. pose proof He as (Es & Ec & Er).
  assert (Hgc : 0 < group_count sb) by (apply Z.div_str_pos; lia).
  destruct (ext2_malloc_run room (mk_est e start (Some (with_groups g)) (eout s))) as (e1 & He1 & Hma); cbn; [auto | lia |].
  exists e1. split; [by apply (dev_eq_trans _ e)|].
  unfold mount_groups, bind at 1. cbn [super with_groups block_size fs_disk_no fs_start_lba].
  rewrite (proj2 (Z.eqb_neq (s_blocks_per_group sb) 0)) by lia. cbn [negb guard ret obind].
  rewrite u32_small by lia. fold (group_count sb). unfold sizeof_ext2_group_desc_t. fold room. unfold bind at 1. rewrite Hma. done.
Qed.

(** Mounting a volume with a good superblock, whose group descriptors fill
    at least a block, succeeds: the volume is mounted as it is on the disk,
    with the first block of its group descriptors. *)
Theorem ext2_mount_ok d s sb : reliable (edev s) -> mountable (edev s) d (EXT2_START_LBA s) sb ->
  let start := EXT2_START_LBA s in let fs := mounted_fs (edev s) d start sb in
  block_size fs <= group_count sb * 32 ->
  exists s', ext2_mount d s = Ret (true, s') /\
    view fs start (sector (edev s)) (disk_blocks (edev s) d start (block_size fs)) (eout s) s'.
Proof.
  intros Hr Hmo start fs Hroom. destruct (mount_until_groups d s sb Hr Hmo) as (e & g & He & ->).
  destruct Hmo as [Hsb Hm Hl Hg Hc Hst [Hw Hcap]]. fold start in Hsb, Hst, Hw, Hcap |- *.
  destruct (groups_read d s start sb e g Hr (conj Hg (proj2 Hc)) ltac:(lia) He) as (e1 & He1 & ->).
  pose proof (log_sizes sb Hl) as Hbs. destruct He1 as (Es & Ec & Er).
  set (zeros := replicate _ 0). set (fs1 := mk_fs _ _ _ _ _). set (s1 := mk_est _ _ _ _).
  assert (H : wp (ext2_read_block (group_count sb * 32) (if block_size fs1 =? 1024 then 2 else 1))
    (fun r s' => r = Some (disk_blocks (edev s) d start (block_size fs) (if block_size fs1 =? 1024 then 2 else 1)) /\
       view fs1 start (sector (edev s)) (disk_blocks (edev s) d start (block_size fs)) (eout s) s') s1).
  { apply (ext2_read_block_ok fs1 start (sector (edev s)) Hbs (conj Hst Hw) (disk_blocks (edev s) d start (block_size fs)) (eout s)).
    - split; cbn; rewrite ?Ec; auto.
      intros b Hb. apply sectors_ext. intros i Hi. apply Es.
    - cbn. case_match; lia.
    - done.
    - done. }
  apply wp_run in H as (r & s' & H1 & -> & [V1 V2 V3 V4 V5 V6 V7]).
  exists (mk_est (edev s') (EXT2_START_LBA s') (Some fs) (eout s')). split; [|by split].
  unfold bind at 1. cbn [block_size fs1] in H1. rewrite H1. done.
Qed.

(** With fewer descriptors the block runs over the end of the buffer. *)
Theorem ext2_mount_overruns d (s : st) sb : reliable (edev s) -> mountable (edev s) d (EXT2_START_LBA s) sb ->
  group_count sb * 32 < Z.shiftl 1024 (s_log_block_size sb) -> ext2_mount d s = Undef.
Proof.
  intros Hr Hmo Hroom. destruct (mount_until_groups d s sb Hr Hmo) as (e & g & He & ->).
  destruct Hmo as [Hsb Hm Hl Hg Hc Hst [Hw Hcap]].
  destruct (groups_read d s (EXT2_START_LBA s) sb e g Hr (conj Hg (proj2 Hc)) ltac:(lia) He) as (e1 & (Es & Ec & Er) & ->).
  pose proof (log_sizes sb Hl) as Hbs.
  set (fs1 := mk_fs _ _ _ _ _). set (s1 := mk_est _ _ _ _). set (b := if Z.shiftl 1024 (s_log_block_size sb) =? 1024 then 2 else 1).
  assert (Hb : 0 <= b < s_blocks_count sb) by (subst b; case_match; lia).
  pose proof (block_range fs1 Hbs b Hb) as Hbr. cbn [block_size fs1] in Hbr.
  destruct (disk_read_run d (EXT2_START_LBA s + b * (block_size fs1 / 512)) (block_size fs1 / 512) s1)
    as (e2 & _ & Hrd); cbn [edev s1 block_size fs1]; [auto | lia | lia | rewrite Ec; cbn in Hbr; lia |].
  unfold bind at 1, ext2_read_block, bind at 1, get. cbn [obind ext2 s1 EXT2_START_LBA].
  rewrite (proj2 (Z.leb_gt _ _)) by (cbn; lia).
  rewrite block_lba_ok by done. unfold bind at 1. change SECTOR_SIZE with 512. cbn [fs_disk_no fs1]. rewrite Hrd. cbn [obind].
  unfold bind, guard. rewrite length_sectors by (cbn; lia).
  rewrite (proj2 (Z.leb_gt _ _)); [done|]. cbn [block_size fs1]. destruct (per_block_ok fs1 Hbs) as [_ Hp]. cbn in Hp. lia.
Qed.

(** ** A volume made by the kernel itself *)

Lemma length_store_eq n off v b (N : nat) : length b = N -> 0 <= off -> off + Z.of_nat n <= Z.of_nat N ->
  length (store n off v b) = N.
Proof. intros <- ? ?. by apply length_store. Qed.

Ltac store_len := repeat first [assumption | apply length_store_eq; [|lia|lia]].
Ltac load_stores :=
  repeat first
    [ rewrite load_store_same; [| lia | (match goal with |- _ <= zlen ?b => assert (length b = 4096%nat) as -> by store_len end; lia) ]
    | rewrite load_store_disjoint; [| lia | lia |
        (match goal with |- _ <= zlen ?b => assert (length b = 4096%nat) as -> by store_len end; lia) ..| lia] ].

Lemma new_super_fields t g i : 0 <= t < 4294967296 -> let b := new_super t g i in
  length b = 4096%nat /\ s_magic b = 0xEF53 /\ s_log_block_size b = 2 /\ s_blocks_per_group b = 32768 /\ s_blocks_count b = t.
Proof.
  intros Ht b. subst b. unfold new_super. cbv zeta.
  assert (Hz : length zero_block = 4096%nat) by apply length_replicate. revert Hz. generalize zero_block. intros z Hz.
  split; [store_len; done|].
  unfold s_magic, s_log_block_size, s_blocks_per_group, s_blocks_count.
  split_and!; load_stores; [done.. |]. by apply Z.mod_small.
Qed.

(** [n] sectors written from [lba] on. *)
Record wrote_sectors (d lba n : Z) (buf : list Z) (e e' : E) : Prop := {
  ws_here : sectors e' d lba n = take (Z.to_nat (n * 512)) buf;
  ws_other : forall l, l < lba \/ lba + n <= l -> sector e' d l = sector e d l;
  ws_cap : capacity e' d = capacity e d;
  ws_rel : reliable e'
}.

Lemma disk_write_ok d lba n buf s (Q : bool -> st -> Prop) : reliable (edev s) -> 0 <= lba -> 0 < n ->
  lba + n <= capacity (edev s) d -> Forall byte buf -> n * 512 <= zlen buf ->
  (forall e, wrote_sectors d lba n buf (edev s) e -> Q true (mk_est e (EXT2_START_LBA s) (ext2 s) (eout s))) ->
  wp (disk_write d lba n buf) Q s.
Proof.
  intros Hr Hl Hn Hc Hb Hlen HQ. unfold wp, disk_write.
  pose proof (write_total (edev s) d lba n buf Hr Hl Hn Hc) as Ht.
  destruct (kebla_disk_write d lba n buf (edev s)) as [r e] eqn:Hw. cbn in Ht. subst r. apply HQ.
  pose proof (write_frame _ _ _ _ _ _ _ Hw) as (Hf & Hca & Hre). split; auto.
  apply sectors_of_slices; [lia | rewrite length_take; lia |]. intros i Hi.
  rewrite (write_data _ _ _ _ _ _ Hw Hl Hb Hlen i Hi). symmetry. apply slice_take; lia.
Qed.

Lemma wrote_keeps d lba n buf e e' l m : wrote_sectors d lba n buf e e' -> l + m <= lba -> sectors e' d l m = sectors e d l m.
Proof. intros Hw Hl. apply sectors_ext. intros i Hi. apply (ws_other _ _ _ _ _ _ Hw). lia. Qed.

Lemma load_take n off m l : 0 <= off -> off + Z.of_nat n <= Z.of_nat m -> load n off (take m l) = load n off l.
Proof. intros. unfold load. by rewrite slice_take by lia. Qed.

Lemma created_mountable e d start t g i : 2 < t < 4294934528 -> 0 <= start -> start + t * 8 < 18446744073709551616 ->
  start + t * 8 <= capacity e d -> sectors e d (start + 2) 2 = take 1024 (new_super t g i) ->
  exists sb, mountable e d start sb /\ s_log_block_size sb = 2 /\ s_blocks_count sb = t /\ s_blocks_per_group sb = 32768.
Proof.
  intros Ht Hs Hw Hc Hsec. destruct (new_super_fields t g i ltac:(lia)) as (Hl & H1 & H2 & H3 & H4).
  set (sb := take 90 (sectors e d (start + 2) 2)).
  assert (Hf : forall n off, 0 <= off -> off + Z.of_nat n <= 90 -> load n off sb = load n off (new_super t g i)).
  { intros n off Ho Hn. subst sb. rewrite Hsec, take_take. apply load_take; lia. }
  unfold s_magic, s_log_block_size, s_blocks_per_group, s_blocks_count in *.
  rewrite <- Hf in H1, H2, H3, H4 by lia. exists sb. split_and!; [|done..].
  split; unfold s_magic, s_log_block_size, s_blocks_per_group, s_blocks_count; rewrite ?H1, ?H2, ?H3, ?H4.
  - done.
  - done.
  - lia.
  - lia.
  - lia.
  - done.
  - cbv zeta. replace (Z.shiftl 1024 2 / 512) with 8 by done. lia.
Qed.

Lemma mark_bits_ok n : forall i bm, Forall byte bm -> 0 <= i -> i + Z.of_nat n <= 8 * zlen bm ->
  exists bm', mark_bits n i bm = Ret bm' /\ Forall byte bm' /\ length bm' = length bm.
Proof.
  induction n as [|n IH]; intros i bm Hb Hi Hn; cbn [mark_bits]; [by exists bm|].
  destruct (bitmap_set_ok bm i) as (bm1 & -> & Hb1 & Hl1 & _); [done | unfold in_map; lia |]. cbn [obind].
  destruct (IH (i + 1) bm1) as (bm2 & -> & Hb2 & Hl2); [done | lia | rewrite Hl1; lia |]. exists bm2. by rewrite Hl2.
Qed.

(** The writes after the first leave the superblock alone. *)
Definition keeps_super (d start total : Z) (super : list Z) (e : E) : Prop :=
  reliable e /\ start + total <= capacity e d /\ sectors e d (start + 2) 2 = take 1024 super.

Lemma next_write d start total super lba buf s (Q : bool -> st -> Prop) : keeps_super d start total super (edev s) ->
  0 <= start -> start + 4 <= lba -> lba + 2 <= start + total -> Forall byte buf -> length buf = 4096%nat ->
  (forall e, keeps_super d start total super e -> Q true (mk_est e (EXT2_START_LBA s) (ext2 s) (eout s))) ->
  wp (disk_write d lba 2 buf) Q s.
Proof.
  intros (Hr & Hc & Hs) H0 Hl Ht Hb Hlen HQ. apply disk_write_ok; [done | lia | lia | lia | done | rewrite Hlen; lia |].
  intros e W. apply HQ. split_and!; [apply W | by rewrite (ws_cap _ _ _ _ _ _ W) |].
  by rewrite (wrote_keeps _ _ _ _ _ _ _ _ W) by lia.
Qed.

(** A structure that stands for a volume with blocks of 4096 bytes. *)
Definition fs4096 : ext2_fs_t := mk_fs 0 0 EXT2_BLOCK_SIZE [] None.
Lemma fs4096_size : block_size_ok fs4096.
Proof. right; right. done. Qed.

Lemma create_spec d start total (s : st) (Q : bool -> st -> Prop) : reliable (edev s) -> 100 <= total ->
  0 <= start -> start + total < 18446744073709551616 -> start + total <= capacity (edev s) d ->
  (forall s' g i, keeps_super d start total (new_super (u32 (total / 8)) g i) (edev s') -> EXT2_START_LBA s' = start -> Q true s') ->
  wp (create_ext2_fs d start total) Q s.
Proof.
  intros Hr Ht Hs Hw Hc HQ. unfold create_ext2_fs. rewrite (proj2 (Z.ltb_ge total 100)) by lia.
  apply wp_bind, wp_modify. cbv zeta. change SECTORS_PER_BLOCK with 8. rewrite !u64_small by lia.
  set (t := u32 (total / 8)) in *. set (g := TOTAL_GROUPS t). set (i := u32 (g * INODES_PER_GROUP)).
  assert (Hby : Forall byte (new_super t g i)) by (unfold new_super; do 13 apply store_byte; apply zeros_byte).
  destruct (new_super_fields t g i ltac:(apply u32_range)) as (Hl & _).
  assert (Hz : length zero_block = 4096%nat) by apply length_replicate.
  assert (Hzb : Forall byte zero_block) by apply zeros_byte.
  apply wp_bind, disk_write_ok; cbn [edev EXT2_START_LBA ext2 eout]; [done | lia | lia | lia | done | rewrite Hl; lia |].
  intros e1 W1. cbn [negb].
  assert (K1 : keeps_super d start total (new_super t g i) e1).
  { split_and!; [apply W1 | by rewrite (ws_cap _ _ _ _ _ _ W1) | apply (ws_here _ _ _ _ _ _ W1)]. }
  apply wp_bind, (next_write d start total (new_super t g i)); cbn [edev EXT2_START_LBA ext2 eout]; [done | lia.. | | |].
  { unfold new_group_desc. by do 6 apply store_byte. }
  { unfold new_group_desc. store_len. }
  intros e2 K2. cbn [negb].
  destruct (mark_bits_ok 10 0 zero_block Hzb ltac:(lia) ltac:(rewrite Hz; lia)) as (bm & -> & Hbb & Hbl).
  apply wp_bind, wp_lift.
  apply wp_bind, (next_write d start total (new_super t g i)); cbn [edev EXT2_START_LBA ext2 eout]; [done | lia.. | done | congruence |].
  intros e3 K3. cbn [negb].
  apply wp_bind, (next_write d start total (new_super t g i)); cbn [edev EXT2_START_LBA ext2 eout]; [done | lia.. | by apply store_byte | store_len |].
  intros e4 K4. cbn [negb]. destruct (dir_inode_ok fs4096 (5 + INODE_TABLE_BLOCKS)) as [Hil Hib].
  change (block_size fs4096) with EXT2_BLOCK_SIZE in Hil, Hib.
  apply wp_bind, (next_write d start total (new_super t g i)); cbn [edev EXT2_START_LBA ext2 eout]; [done | lia.. | | |].
  { unfold new_root_table. by apply Forall_splice. }
  { unfold new_root_table. rewrite length_splice; [done | lia |]. rewrite Hz, Hil. lia. }
  intros e5 K5. cbn [negb]. apply wp_bind.
  change (put_dots EXT2_ROOT_INO EXT2_ROOT_INO EXT2_BLOCK_SIZE zero_block) with
    (put_dots (E := E) EXT2_ROOT_INO EXT2_ROOT_INO (block_size fs4096) (replicate (Z.to_nat (block_size fs4096)) 0)).
  apply (put_dots_ok fs4096 fs4096_size EXT2_ROOT_INO EXT2_ROOT_INO); [done.. |]. intros b _ Hbz Hbby.
  apply (next_write d start total (new_super t g i)); cbn [edev EXT2_START_LBA ext2 eout]; [done | lia.. | done | |].
  { change (block_size fs4096) with 4096 in Hbz. lia. }
  intros e6 K6. by eapply HQ.
Qed.

(** A volume of less than 16 GB made by create_ext2_fs is one ext2_mount
    reads past the end of its buffer for. *)
Theorem create_then_mount d start total (s : st) : reliable (edev s) -> 100 <= total < 33554432 - 262144 ->
  0 <= start -> start + total < 18446744073709551616 -> start + total <= capacity (edev s) d ->
  exists s', create_ext2_fs d start total s = Ret (true, s') /\ ext2_mount d s' = Undef.
Proof.
  intros Hr Ht Hs Hw Hc.
  assert (Htb : 12 <= total / 8 /\ total / 8 * 8 <= total /\ total / 8 < 4161536) by (Z.to_euclidean_division_equations; lia).
  assert (H : wp (create_ext2_fs d start total) (fun r s' => r = true /\ reliable (edev s') /\ EXT2_START_LBA s' = start /\
    exists sb, mountable (edev s') d start sb /\ s_log_block_size sb = 2 /\ s_blocks_count sb = total / 8 /\ s_blocks_per_group sb = 32768) s).
  { apply create_spec; [done | lia.. |]. intros s' g i (Hr' & Hc' & Hsec) Hst. rewrite u32_small in Hsec by lia.
    split_and!; [done.. |]. eapply created_mountable; [| | | |exact Hsec]; lia. }
  apply wp_run in H as (r & s' & Hrun & -> & Hr' & Hst & sb & Hm & Hlog & Hcnt & Hbpg).
  exists s'. split; [done|]. apply (ext2_mount_overruns d s' sb); [done | by rewrite Hst |].
  rewrite Hlog. unfold group_count. rewrite Hcnt, Hbpg. change (Z.shiftl 1024 2) with 4096.
  Z.to_euclidean_division_equations; lia.
Qed.
End mount.

(** ** A small volume of 32 groups *)
Module SmallMount.
Import RamDisk.
Definition sb : list Z :=
  le_bytes 4 256 ++ le_bytes 4 256 ++ replicate 24 0 ++ le_bytes 4 8 ++ replicate 4 0 ++ le_bytes 4 8 ++ replicate 12 0 ++
  le_bytes 2 0xEF53 ++ replicate 30 0 ++ le_bytes 2 128.
Definition disk0 : ram := mk_ram (ram_store 0 2 2 (sb ++ replicate 934 0) (ram_store 0 4 2 (replicate 1024 9) ∅)) 4096 true.
Definition start0 : est ram := mk_est disk0 0 None [].

Lemma mountable0 : mountable disk0 0 0 sb.
Proof. split; vm_compute; intuition (discriminate || reflexivity). Qed.

Lemma ext2_mount_ok_witness : exists s', ext2_mount 0 start0 = Ret (true, s') /\
  ext2 s' = Some (mk_fs 0 0 1024 sb (Some (replicate 1024 9))).
Proof.
  destruct (ext2_mount_ok (L := ram_laws) 0 start0 sb (eq_refl true) mountable0 ltac:(vm_compute; discriminate)) as (s' & H & Hv).
  exists s'. split; [exact H|]. rewrite (vw_fs _ _ _ _ _ _ Hv). vm_compute. reflexivity.
Defined.
End SmallMount.
