(* ===== verification/Vfs.v ===== *)
(** The virtual file system (kernel/src/vfs/vfs.c): every call goes by the
    type of the disk to the ISO 9660 or the FAT32 driver.

    A pointer to an open file or directory is a number, 0 for NULL; [v_heap]
    has the objects behind them.  A pointer without an object, or to an object
    of another driver, is undefined to follow.  The two drivers run on the one
    device; [v_disks] and [v_count] are the table of disk.c, and a disk number
    outside it is undefined where the code does not test it.  Messages are
    left out. *)
From S2P Require Import Prelude CString Disk BlockDev FatBpb FatCluster FatMount FatDir FatFile Iso9660.

Definition VFS_READ : Z := 0x01.
Definition VFS_WRITE : Z := 0x02.
Definition VFS_CREATE : Z := 0x04.
Definition VFS_CREATE_ALWAYS : Z := 0x08.

Inductive VFS_TYPE :=
  VFS_UNKNOWN | VFS_FAT12 | VFS_FAT16 | VFS_FAT32 | VFS_EXFAT | VFS_EXT2 | VFS_EXT3 | VFS_EXT4 | VFS_NTFS |
  VFS_UDF | VFS_NFS | VFS_SMB | VFS_SSHFS | VFS_WEBDEV | VFS_APFS | VFS_ISO9660 | VFS_TEMPFS | VFS_RAW.
#[global] Instance VFS_TYPE_eq_dec : EqDecision VFS_TYPE.
Proof. solve_decision. Defined.

Definition sizeof_FAT32_FILE : Z := 292.
Definition FAT32_FILE_ZERO : FAT32_FILE := FatFile.mk_file 0 0 0 0 0 0 0 [] 0 0.

Inductive obj :=
  | FatFileObj (f : FAT32_FILE) | FatDirObj (d : FAT32_DIR)
  | IsoFileObj (f : iso9660_file_t) | IsoDirObj (d : iso9660_dir_t).

Record vfs_state (E : Type) := mk_vfs {
  v_fat : fat_state E; v_disks : option (list Disk); v_count : Z; v_iso_live : Z;
  v_heap : gmap Z obj; v_next : Z
}.
Arguments mk_vfs {E}.
Arguments v_fat {E}.
Arguments v_disks {E}.
Arguments v_count {E}.
Arguments v_iso_live {E}.
Arguments v_heap {E}.
Arguments v_next {E}.

(** What vfs_stat and vfs_readdir store for the caller. *)
Inductive info := IsoInfo (f : iso9660_file_t) | FatInfo (d : FAT32_DIRENT).

Section vfs.
Context {E : Type} `{BlockDev E} `{Media E}.
Abbreviation st := (vfs_state E).

(** ** The drivers and the objects *)

Definition on_fat {A} (m : M (fat_state E) A) : M st A := fun s =>
  obind (m (v_fat s)) (fun '(a, f) => Ret (a, mk_vfs f (v_disks s) (v_count s) (v_iso_live s) (v_heap s) (v_next s))).
Definition on_iso {A} (m : M (ist E) A) : M st A := fun s =>
  obind (m (mk_ist (dev (v_fat s)) (v_disks s) (v_count s) (v_iso_live s))) (fun '(a, i) =>
    Ret (a, mk_vfs (set_dev (idev i) (v_fat s)) (idisks i) (idisk_count i) (ilive i) (v_heap s) (v_next s))).

Definition set_heap (h : gmap Z obj) (s : st) : st :=
  mk_vfs (v_fat s) (v_disks s) (v_count s) (v_iso_live s) h (v_next s).
Definition new_obj (o : obj) : M st Z := fun s =>
  Ret (v_next s, mk_vfs (v_fat s) (v_disks s) (v_count s) (v_iso_live s) (<[v_next s := o]> (v_heap s)) (v_next s + 1)).
(** A pointer to a local variable of a function that has returned. *)
Definition dangling : M st Z := fun s =>
  Ret (v_next s, mk_vfs (v_fat s) (v_disks s) (v_count s) (v_iso_live s) (v_heap s) (v_next s + 1)).
Definition put_obj (p : Z) (o : obj) : M st unit := modify (fun s => set_heap (<[p := o]> (v_heap s)) s).
Definition drop_obj (p : Z) : M st unit := modify (fun s => set_heap (delete p (v_heap s)) s).

Definition fat_file (p : Z) : M st FAT32_FILE := fun s =>
  match v_heap s !! p with Some (FatFileObj f) => Ret (f, s) | _ => Undef end.
Definition fat_dir (p : Z) : M st FAT32_DIR := fun s =>
  match v_heap s !! p with Some (FatDirObj d) => Ret (d, s) | _ => Undef end.
Definition iso_file (p : Z) : M st iso9660_file_t := fun s =>
  match v_heap s !! p with Some (IsoFileObj f) => Ret (f, s) | _ => Undef end.
Definition iso_dir (p : Z) : M st iso9660_dir_t := fun s =>
  match v_heap s !! p with Some (IsoDirObj d) => Ret (d, s) | _ => Undef end.

(** [disks[disk_no]]. *)
Definition vdisk (disk_no : Z) : M st Disk := fun s =>
  match v_disks s with
  | Some l => if 0 <=? disk_no then match l !! Z.to_nat disk_no with Some d => Ret (d, s) | None => Undef end else Undef
  | None => Undef
  end.
Definition vtype (disk_no : Z) : M st DiskType := let! d := vdisk disk_no in ret (dtype d).
Definition too_big (disk_no : Z) : M st bool := gets (fun s => v_count s <=? disk_no).
Definition no_disks : M st bool := gets (fun s => match v_disks s with None => true | Some _ => false end).

(** 0 for success and -1 for failure. *)
Definition status (ok : bool) : Z := if ok then 0 else -1.

(** ** Disks *)

(** kebla_disk_read into a buffer of [room] bytes. *)
Definition vread (room disk_no lba count : Z) : M st (option (list Z)) := fun s =>
  let '(r, e) := kebla_disk_read disk_no lba count (dev (v_fat s)) in
  let s := mk_vfs (set_dev e (v_fat s)) (v_disks s) (v_count s) (v_iso_live s) (v_heap s) (v_next s) in
  match r with
  | Some l => if zlen l <=? room then Ret (Some l, s) else Undef
  | None => Ret (None, s)
  end.

(** Reads the sector, and falls off its end without a value otherwise. *)
Definition is_gpt_disk (disk_no : Z) : M st (option bool) :=
  let! r := vread 512 disk_no 0 1 in ret (match r with None => Some false | Some _ => None end).

Definition FAT32_ID : list Z := [70; 65; 84; 51; 50].
Definition FAT16_ID : list Z := [70; 65; 84; 49; 54].
Definition FAT12_ID : list Z := [70; 65; 84; 49; 50].
Definition EXFAT_ID : list Z := [69; 88; 70; 65; 84; 32; 32; 32].
Definition NTFS_ID : list Z := [78; 84; 70; 83; 32; 32; 32; 32].
Definition CD001_ID : list Z := [67; 68; 48; 48; 49].

(** memcmp at an offset. *)
Definition has_at (off : Z) (id buf : list Z) : M st bool :=
  let! l := at_bytes buf off (zlen id) in ret (bool_decide (l = id)).

(** The FAT variants a boot sector can name. *)
Definition fat_variant (b : list Z) : M st (option VFS_TYPE) :=
  let! a := has_at 0x52 FAT32_ID b in
  let! a' := has_at 0x36 FAT32_ID b in
  if a || a' then ret (Some VFS_FAT32) else
  let! a := has_at 0x36 FAT16_ID b in
  if a then ret (Some VFS_FAT16) else
  let! a := has_at 0x36 FAT12_ID b in
  if a then ret (Some VFS_FAT12) else ret None.

(** [stack]: what the buffer for the ext superblock, of 1536 bytes, holds
    before two sectors are read into it. *)
Definition detect_filesystem (stack : list Z) (disk_no : Z) : M st VFS_TYPE :=
  let! r := vread 512 disk_no 0 1 in
  match r with
  | None => ret VFS_UNKNOWN
  | Some sector =>
      let! s1 := at_byte sector 510 in
      let! s2 := at_byte sector 511 in
      let! ptype := at_byte sector (0x1BE + 4) in
      let! part :=
        (if (s1 =? 0x55) && (s2 =? 0xAA) && negb (ptype =? 0) then
           let! l := at_bytes sector (0x1BE + 8) 4 in
           let! r := vread 512 disk_no (le_val l) 1 in
           match r with Some pboot => fat_variant pboot | None => ret None end
         else ret None) in
      match part with Some t => ret t | None =>
      let! raw := fat_variant sector in
      match raw with Some t => ret t | None =>
      let! a := has_at 0x03 EXFAT_ID sector in
      if a then ret VFS_EXFAT else
      let! a := has_at 0x03 NTFS_ID sector in
      if a then ret VFS_NTFS else
      let! r := vread (1024 + 512) disk_no 2 2 in
      let! ext := match r with
                  | Some l => let! m := at_bytes (splice 0 l stack) (1024 + 0x38) 2 in ret (le_val m =? 0xEF53)
                  | None => ret false
                  end in
      if ext then ret VFS_EXT2 else
      let! r := vread 512 disk_no 16 1 in
      let! iso := match r with Some l => has_at 1 CD001_ID l | None => ret false end in
      ret (if iso then VFS_ISO9660 else VFS_RAW)
      end end
  end.

Definition vfs_init (disk_no : Z) : M st Z :=
  let! big := too_big disk_no in
  let! null := no_disks in
  if big || null then ret (-1) else
  let! t := vtype disk_no in
  match t with
  | DISK_TYPE_SATAPI => let! r := on_iso (iso9660_init disk_no) in ret (status (r =? 0))
  | DISK_TYPE_AHCI_SATA => ret 0
  | _ => ret (-1)
  end.

(** The test of disk.c, which lets the number of disks itself pass. *)
Definition vfs_disk_status (disk_no : Z) : M st Z :=
  let! null := no_disks in
  if null then ret (-1) else
  let! n := gets v_count in
  if n <? disk_no then ret (-1) else
  let! d := vdisk disk_no in
  ret (status (disk_ready d)).

(** "DATA VOLUME". *)
Definition DATA_VOLUME : list Z := [68; 65; 84; 65; 32; 86; 79; 76; 85; 77; 69].

Definition vfs_mount (disk_no lba : Z) (type : VFS_TYPE) : M st Z :=
  let! big := too_big disk_no in
  let! null := no_disks in
  if big || null then ret (-1) else
  let! t := vtype disk_no in
  if bool_decide (t = DISK_TYPE_SATAPI) then on_iso (iso9660_mount disk_no)
  else if bool_decide (t = DISK_TYPE_AHCI_SATA) || bool_decide (type = VFS_FAT32) then
    on_fat (set_disk_number disk_no) ;;;
    on_fat fat32_reset ;;;
    let! ok := on_fat (fat32_mount disk_no lba DATA_VOLUME) in
    ret (status ok)
  else ret (-1).

Definition vfs_unmount (disk_no : Z) : M st Z :=
  let! big := too_big disk_no in
  let! null := no_disks in
  if big || null then ret (-1) else
  let! t := vtype disk_no in
  match t with
  | DISK_TYPE_SATAPI => on_iso (iso9660_unmount disk_no)
  | DISK_TYPE_AHCI_SATA => ret 0
  | _ => ret (-1)
  end.

Definition vfs_mkfs (fuel : nat) (pd start_lba sectors : Z) (fs_type : VFS_TYPE) : M st Z :=
  let! big := too_big pd in
  let! null := no_disks in
  if big || (sectors =? 0) || null then ret (-1) else
  let! t := vtype pd in
  if bool_decide (t = DISK_TYPE_SATAPI) then ret (-1) else
  match fs_type with
  | VFS_FAT12 | VFS_FAT16 | VFS_EXFAT => ret 0
  | VFS_FAT32 =>
      on_fat (set_disk_number pd) ;;;
      let! ok := on_fat (create_fat32_volume fuel start_lba sectors) in
      ret (status ok)
  | _ => ret (-1)
  end.

(** Calls that do nothing on a FAT disk, and nothing else elsewhere. *)
Definition no_op (disk_no : Z) : M st Z :=
  let! t := vtype disk_no in
  match t with DISK_TYPE_AHCI_SATA => ret 0 | _ => ret (-1) end.
Definition vfs_setcp (disk_no cp : Z) : M st Z :=
  let! big := too_big disk_no in if big then ret (-1) else no_op disk_no.

(** ** Files *)

Definition vfs_open (fuel : nat) (pd_no : Z) (path : option (list Z)) (mode : Z) : M st Z :=
  let! big := too_big pd_no in
  let! null := no_disks in
  match path with
  | None => ret 0
  | Some name =>
      if big || null || (mode <? VFS_READ) then ret 0 else
      let! t := vtype pd_no in
      match t with
      | DISK_TYPE_SATAPI =>
          let! r := on_iso (iso9660_open pd_no name) in
          match r with Some f => new_obj (IsoFileObj f) | None => ret 0 end
      | DISK_TYPE_AHCI_SATA =>
          let! ok := on_fat (fs_malloc sizeof_FAT32_FILE) in
          if negb ok then ret 0 else
          let! '(ok, f) := on_fat (f_open fuel FAT32_FILE_ZERO path mode) in
          if negb ok then on_fat fs_free ;;; ret 0 else new_obj (FatFileObj f)
      | _ => ret 0
      end
  end.

Definition vfs_close (disk_no fp : Z) : M st Z :=
  if fp =? 0 then ret (-1) else
  let! t := vtype disk_no in
  match t with
  | DISK_TYPE_SATAPI =>
      let! f := iso_file fp in
      drop_obj fp ;;; on_iso (iso9660_close (Some f))
  | DISK_TYPE_AHCI_SATA =>
      let! f := fat_file fp in
      let! '(ok, _) := on_fat (f_close f) in
      on_fat fs_free ;;; drop_obj fp ;;; ret (status ok)
  | _ => ret (-1)
  end.

(** The result and the caller's buffer, [None] for NULL. *)
Definition vfs_read (fuel : nat) (disk_no fp : Z) (buff : option (list Z)) (size : Z) : M st (Z * option (list Z)) :=
  let! t := vtype disk_no in
  match t with
  | DISK_TYPE_SATAPI =>
      let! f := (if fp =? 0 then ret None else let! f := iso_file fp in ret (Some f)) in
      let! '(n, l) := on_iso (iso9660_read f (match buff with Some _ => true | None => false end) size) in
      match buff with
      | Some b => guard (zlen l <=? zlen b) ;;; ret (n, Some (splice 0 l b))
      | None => ret (n, None)
      end
  | DISK_TYPE_AHCI_SATA =>
      match buff with
      | Some b =>
          if fp =? 0 then ret (-1, buff) else
          let! f := fat_file fp in
          let! '(ok, b, _, f) := on_fat (f_read fuel f b (u32 size)) in
          put_obj fp (FatFileObj f) ;;; ret (status ok, Some b)
      | None => ret (-1, None)
      end
  | _ => ret (-1, buff)
  end.

Definition vfs_write (fuel : nat) (disk_no fp : Z) (buff : option (list Z)) (filesize : Z) : M st Z :=
  match buff with
  | None => ret (-1)
  | Some b =>
      if (fp =? 0) || (filesize <=? 0) then ret (-1) else
      let! t := vtype disk_no in
      match t with
      | DISK_TYPE_AHCI_SATA =>
          let! f := fat_file fp in
          let! '(ok, _, f) := on_fat (f_write fuel f b (u32 filesize)) in
          put_obj fp (FatFileObj f) ;;; ret (status ok)
      | _ => ret (-1)
      end
  end.

Definition vfs_lseek (fuel : nat) (disk_no fp offset : Z) : M st Z :=
  let! t := vtype disk_no in
  match t with
  | DISK_TYPE_AHCI_SATA =>
      if fp =? 0 then ret (-1) else
      let! f := fat_file fp in
      let! f := on_fat (f_lseek fuel f (u32 offset)) in
      put_obj fp (FatFileObj f) ;;; ret 0
  | _ => ret (-1)
  end.

Definition vfs_truncate (fuel : nat) (disk_no fp : Z) : M st Z :=
  let! t := vtype disk_no in
  match t with
  | DISK_TYPE_AHCI_SATA =>
      if fp =? 0 then ret (-1) else
      let! f := fat_file fp in
      let! '(ok, f) := on_fat (f_truncate fuel f) in
      put_obj fp (FatFileObj f) ;;; ret (status ok)
  | _ => ret (-1)
  end.

Definition vfs_sync (disk_no fp : Z) : M st Z :=
  let! t := vtype disk_no in
  match t with
  | DISK_TYPE_AHCI_SATA =>
      if fp =? 0 then ret (-1) else
      let! f := fat_file fp in
      let! ok := on_fat (f_sync f) in ret (status ok)
  | _ => ret (-1)
  end.

Definition vfs_get_fsize (disk_no fp : Z) : M st Z :=
  let! t := vtype disk_no in
  match t with
  | DISK_TYPE_SATAPI =>
      if fp =? 0 then ret (iso9660_get_fsize None) else
      let! f := iso_file fp in ret (iso9660_get_fsize (Some f))
  | DISK_TYPE_AHCI_SATA =>
      if fp =? 0 then ret 0 else
      let! f := fat_file fp in ret (s32 (f_size f))
  | _ => ret (-1)
  end.

(** ** Directories *)

(** A FAT directory is opened in a local variable, whose address is returned.
    [stack] is what its field [parent_cluster] has before. *)
Definition vfs_opendir (fuel : nat) (stack disk_no : Z) (path : list Z) : M st Z :=
  let! big := too_big disk_no in
  if big then ret 0 else
  let! t := vtype disk_no in
  match t with
  | DISK_TYPE_SATAPI =>
      let! r := on_iso (iso9660_opendir disk_no path) in
      match r with Some d => new_obj (IsoDirObj d) | None => ret 0 end
  | DISK_TYPE_AHCI_SATA =>
      let! r := on_fat (f_opendir fuel stack (Some path)) in
      match r with Some _ => dangling | None => ret 0 end
  | _ => ret 0
  end.

Definition vfs_closedir (disk_no dp : Z) : M st Z :=
  if dp =? 0 then ret (-1) else
  let! t := vtype disk_no in
  match t with
  | DISK_TYPE_SATAPI =>
      let! d := iso_dir dp in
      drop_obj dp ;;; on_iso (iso9660_closedir (Some d))
  | DISK_TYPE_AHCI_SATA =>
      let! d := fat_dir dp in
      put_obj dp (FatDirObj (f_closedir d)) ;;; ret 0
  | _ => ret (-1)
  end.

(** An optical disk gives 1 for an entry and 0 at the end, a FAT disk 0 and
    -1. *)
Definition vfs_readdir (fuel : nat) (disk_no dp : Z) (fno : option iso9660_file_t) : M st (Z * option info) :=
  match fno with
  | None => ret (-1, None)
  | Some ent =>
      if dp =? 0 then ret (-1, None) else
      let! t := vtype disk_no in
      match t with
      | DISK_TYPE_SATAPI =>
          let! d := iso_dir dp in
          let! '(r, d) := on_iso (iso9660_readdir d ent) in
          put_obj dp (IsoDirObj d) ;;;
          ret (match r with Some f => (1, Some (IsoInfo f)) | None => (0, None) end)
      | DISK_TYPE_AHCI_SATA =>
          let! d := fat_dir dp in
          let! '(r, d) := on_fat (f_readdir fuel d) in
          put_obj dp (FatDirObj d) ;;;
          ret (match r with Some f => (0, Some (FatInfo f)) | None => (-1, None) end)
      | _ => ret (-1, None)
      end
  end.

Definition vfs_mkdir (disk_no : Z) (path : option (list Z)) : M st Z :=
  let! null := no_disks in
  match path with
  | None => ret (-1)
  | Some _ => if null then ret (-1) else no_op disk_no
  end.

(** By path, on FAT only. *)
Definition by_path (disk_no : Z) (path : option (list Z)) (m : M (fat_state E) bool) : M st Z :=
  match path with
  | None => ret (-1)
  | Some _ =>
      let! t := vtype disk_no in
      match t with
      | DISK_TYPE_AHCI_SATA => let! ok := on_fat m in ret (status ok)
      | _ => ret (-1)
      end
  end.
Definition vfs_unlink (fuel : nat) (disk_no : Z) (path : option (list Z)) : M st Z :=
  by_path disk_no path (f_unlink fuel path).
Definition vfs_rename (fuel : nat) (disk_no : Z) (old_path new_path : option (list Z)) : M st Z :=
  match new_path with
  | None => ret (-1)
  | Some _ => by_path disk_no old_path (f_rename fuel old_path new_path)
  end.
Definition vfs_chdir (fuel : nat) (disk_no : Z) (path : option (list Z)) : M st Z :=
  let! t := vtype disk_no in
  match t with
  | DISK_TYPE_AHCI_SATA => let! ok := on_fat (f_chdir fuel path) in ret (status ok)
  | _ => ret (-1)
  end.

Definition vfs_stat (fuel : nat) (disk_no : Z) (path : option (list Z)) : M st (Z * option info) :=
  match path with
  | None => ret (-1, None)
  | Some p =>
      let! t := vtype disk_no in
      match t with
      | DISK_TYPE_SATAPI =>
          let! '(r, f) := on_iso (iso9660_stat disk_no p) in ret (r, IsoInfo <$> f)
      | DISK_TYPE_AHCI_SATA =>
          let! r := on_fat (f_stat fuel path) in
          ret (match r with Some f => (0, Some (FatInfo f)) | None => (-1, None) end)
      | _ => ret (-1, None)
      end
  end.

Definition vfs_chmod (disk_no : Z) (path : option (list Z)) (attr mask : Z) : M st Z :=
  match path with None => ret (-1) | Some _ => no_op disk_no end.
Definition vfs_utime (disk_no : Z) (path : option (list Z)) (fno_ok : bool) : M st Z :=
  match path with None => ret (-1) | Some _ => if fno_ok then no_op disk_no else ret (-1) end.

(** [cwd]: the string fat32_cwd_path. *)
Definition vfs_getcwd (cwd : list Z) (disk_no len : Z) : M st (Z * option (list Z)) :=
  let! t := vtype disk_no in
  match t with
  | DISK_TYPE_AHCI_SATA =>
      match f_getcwd cwd (u32 len) with Some l => ret (0, Some l) | None => ret (-1, None) end
  | _ => ret (-1, None)
  end.

Definition vfs_getfree (disk_no : Z) : M st Z := no_op disk_no.
Definition vfs_getlabel (disk_no : Z) : M st Z := no_op disk_no.
Definition vfs_setlabel (disk_no : Z) : M st Z := no_op disk_no.
Definition vfs_forward (disk_no : Z) : M st Z := no_op disk_no.
Definition vfs_expand (disk_no : Z) : M st Z := no_op disk_no.

(** "OK", "DISK_ERR" and "UNKNOWN_ERROR". *)
Definition vfs_error_string (result : Z) : list Z :=
  if result =? 0 then [79; 75]
  else if result =? -1 then [68; 73; 83; 75; 95; 69; 82; 82]
  else [85; 78; 75; 78; 79; 87; 78; 95; 69; 82; 82; 79; 82].

(** The result, always -1 as 64 bits, and the entries printed. *)
Definition vfs_listdir (fuel : nat) (stack disk_no : Z) (path : option (list Z)) : M st (Z * list FAT32_DIRENT) :=
  let! big := too_big disk_no in
  if big then ret (u64 (-1), []) else
  let! t := vtype disk_no in
  match t with
  | DISK_TYPE_AHCI_SATA =>
      let! r := on_fat (f_opendir fuel stack path) in
      match r with
      | None => ret (u64 (-1), [])
      | Some dir =>
          let! l := iter_fuel fuel (fun '(dir, l) =>
            let! '(e, dir) := on_fat (f_readdir fuel dir) in
            match e with
            | Some e => ret (inl (dir, l ++ [e]))
            | None => ret (inr l)
            end) (dir, []) in
          ret (u64 (-1), l)
      end
  | _ => ret (u64 (-1), [])
  end.
(** "/testfile.txt" and the line written to it. *)
Definition test_path : list Z := [47; 116; 101; 115; 116; 102; 105; 108; 101; 46; 116; 120; 116].
Definition test_text : list Z :=
  [84; 104; 105; 115; 32; 105; 115; 32; 97; 32; 116; 101; 115; 116; 32; 116; 101; 120; 116; 32; 100; 97; 116; 97;
   32; 119; 114; 105; 116; 116; 101; 110; 32; 102; 114; 111; 109; 32; 118; 102; 115; 32; 116; 101; 115; 116; 46; 10].

(** A failed mount is only reported.  The function ends without a value when
    everything went well. *)
Definition vfs_test (fuel : nat) (disk_no lba : Z) (type : VFS_TYPE) : M st (option bool) :=
  let! big := too_big disk_no in
  let! null := no_disks in
  if big || null then ret (Some false) else
  let! _ := vdisk disk_no in
  let! _ := vfs_mount disk_no lba type in
  let! testfile := vfs_open fuel disk_no (Some test_path) (Z.lor (Z.lor VFS_CREATE_ALWAYS VFS_WRITE) VFS_READ) in
  if testfile =? 0 then ret (Some false) else
  let! r := vfs_write fuel disk_no testfile (Some test_text) (zlen test_text) in
  if negb (r =? 0) then ret (Some false) else
  let! r := vfs_close disk_no testfile in
  if negb (r =? 0) then ret (Some false) else ret None.
End vfs.
