(* ===== verification/VfsProps.v ===== *)
(** The virtual file system: no call on an optical disk changes a sector of
    any disk, and files on a FAT disk read back what was written through their
    handles. *)
From S2P Require Import Prelude CString Disk BlockDev FatBpb FatCluster FatMount FatDir FatFile FatChainProps FatFileProps Iso9660 Iso9660Props Vfs.

(** ** Code that keeps a relation between its states *)

Section preserves.
Context {S : Type} (R : S -> S -> Prop) `{!PreOrder R}.

Definition preserves {A} (m : M S A) : Prop := forall s a s', m s = Ret (a, s') -> R s s'.

Lemma preserves_ret {A} (a : A) : preserves (ret a).
Proof. intros s b s' [= -> ->]. done. Qed.

Lemma preserves_bind {A B} (m : M S A) (k : A -> M S B) :
  preserves m -> (forall a, preserves (k a)) -> preserves (bind m k).
Proof.
  intros Hm Hk s b s' H. unfold bind, obind in H. destruct (m s) as [[a s1]| | |] eqn:Hs; try done.
  transitivity s1; [by eapply Hm | by eapply Hk].
Qed.

Lemma preserves_gets {A} (f : S -> A) : preserves (gets f).
Proof. intros s b s' [= _ ->]. done. Qed.

Lemma preserves_get : preserves (@get S).
Proof. intros s b s' [= _ ->]. done. Qed.

Lemma preserves_undef {A} : preserves (@undef S A).
Proof. by intros s b s'. Qed.

Lemma preserves_guard b : preserves (guard b).
Proof. destruct b; [apply preserves_ret | apply preserves_undef]. Qed.

Lemma preserves_modify f : (forall s, R s (f s)) -> preserves (modify f).
Proof. intros Hf s b s' [= _ <-]. apply Hf. Qed.

Lemma preserves_iter {X A} (body : X -> M S (X + A)) n : (forall x, preserves (body x)) ->
  forall x, preserves (iter_fuel n body x).
Proof.
  intros Hb. induction n as [|n IH]; intros x; [by intros s a s'|]. cbn [iter_fuel].
  apply preserves_bind; [apply Hb|]. intros [y|r]; [apply IH | apply preserves_ret].
Qed.

Lemma preserves_for {A} (body : Z -> M S (option A)) n : (forall i, preserves (body i)) ->
  forall i, preserves (for_range n i body).
Proof.
  intros Hb. induction n as [|n IH]; intros i; [apply preserves_ret|]. cbn [for_range].
  apply preserves_bind; [apply Hb|]. intros [v|]; [apply preserves_ret | apply IH].
Qed.
End preserves.

Create HintDb keeps.
#[export] Hint Resolve preserves_ret preserves_gets preserves_get preserves_undef preserves_guard : keeps.
#[export] Hint Extern 0 (PreOrder _) => typeclasses eauto : keeps.

(** The shape of the code: sequences, branches, loops. *)
Ltac keep :=
  cbv zeta;
  repeat first
    [ progress eauto with keeps
    | lazymatch goal with
      | |- preserves _ (bind _ _) => apply preserves_bind; [typeclasses eauto | | intros ?]
      | |- preserves _ (iter_fuel _ _ _) => apply preserves_iter; [typeclasses eauto | intros ?]
      | |- preserves _ (for_range _ _ _) => apply preserves_for; [typeclasses eauto | intros ?]
      | |- preserves _ (match ?x with _ => _ end) => destruct x
      | |- preserves _ (let _ := _ in _) => cbv zeta
      end ].

(** ** The ISO 9660 driver only reads *)

(** Loading or ejecting a medium changes no sector. *)
Class MediaLaws (E : Type) {D : BlockDev E} {F : DiskFrame E} {Md : Media E} := {
  load_frame : forall p e b e', satapi_load p e = (b, e') -> dev_eq e e';
  eject_frame : forall p e b e', satapi_eject p e = (b, e') -> dev_eq e e';
  ssts_frame : forall p e b e', port_ssts p e = (b, e') -> dev_eq e e'
}.

Definition types (l : option (list Disk)) : option (list DiskType) :=
  match l with Some x => Some (dtype <$> x) | None => None end.

Section iso.
Context {E : Type} {D : BlockDev E} {F : DiskFrame E} {Md : Media E} {ML : MediaLaws E}.

(** Same sectors, same types of disks. *)
Definition iso_keeps (s s' : ist E) : Prop :=
  dev_eq (idev s) (idev s') /\ types (idisks s') = types (idisks s) /\ idisk_count s' = idisk_count s.

#[global] Instance iso_keeps_preorder : PreOrder iso_keeps.
Proof.
  split.
  - intros s. split_and!; [apply dev_eq_refl | done..].
  - intros s1 s2 s3 (H1 & H2 & H3) (H4 & H5 & H6). split_and!; [by eapply dev_eq_trans | congruence..].
Qed.

Lemma keeps_malloc n : preserves iso_keeps (iso_malloc n).
Proof.
  intros s a s' H. unfold iso_malloc in H. destruct (malloc n (idev s)) as [ok e] eqn:Hm. simplify_eq.
  split_and!; [by apply (malloc_frame _ _ _ _ Hm) | done..].
Qed.
Lemma keeps_free : preserves iso_keeps iso_free.
Proof. apply preserves_modify. intros s. split_and!; [apply free_frame | done..]. Qed.
Lemma keeps_read room d lba n : preserves iso_keeps (disk_read_into room d lba n).
Proof.
  intros s a s' H. unfold disk_read_into in H. destruct (kebla_disk_read d lba n (idev s)) as [r e] eqn:Hm.
  destruct r as [l|]; [destruct (_ <=? _)|]; simplify_eq; (split_and!; [by apply (read_frame _ _ _ _ _ _ Hm) | done..]).
Qed.
Lemma keeps_disk_of d : preserves iso_keeps (disk_of d).
Proof. intros s a s' H. unfold disk_of in H. repeat case_match; simplify_eq; done. Qed.
Lemma keeps_no_disk d : preserves iso_keeps (no_disk d).
Proof. unfold no_disk. keep. Qed.
Lemma keeps_upd d f : (forall x, dtype (f x) = dtype x) -> preserves iso_keeps (upd_iso_disk d f).
Proof.
  intros Hf. apply preserves_modify. intros s. split_and!; [apply dev_eq_refl | | done]. cbn. unfold types.
  destruct (idisks s) as [l|]; [|done]. cbn. f_equal. apply list_eq. intros i. rewrite !list_lookup_fmap.
  destruct (decide (i = Z.to_nat d)) as [->|Hne].
  - rewrite list_lookup_alter_eq. destruct (l !! _); [|done]. cbn. by rewrite Hf.
  - by rewrite list_lookup_alter_ne.
Qed.
#[local] Hint Resolve keeps_malloc keeps_free keeps_read keeps_disk_of keeps_no_disk : keeps.

Lemma keeps_at_byte buf i : preserves iso_keeps (at_byte buf i).
Proof. unfold at_byte. keep. Qed.
Lemma keeps_at_bytes buf i n : preserves iso_keeps (at_bytes buf i n).
Proof. unfold at_bytes. keep. Qed.
#[local] Hint Resolve keeps_at_byte keeps_at_bytes : keeps.
Lemma keeps_u32 buf i : preserves iso_keeps (read_u32_le buf i).
Proof. unfold read_u32_le. keep. Qed.
Lemma keeps_u16 buf i : preserves iso_keeps (read_u16_le buf i).
Proof. unfold read_u16_le. keep. Qed.
#[local] Hint Resolve keeps_u32 keeps_u16 : keeps.
Lemma keeps_dots buf i : preserves iso_keeps (is_dot_record buf i).
Proof. unfold is_dot_record, rec_id_length. keep. Qed.
#[local] Hint Resolve keeps_dots : keeps.
Lemma keeps_name buf i n : preserves iso_keeps (parse_filename buf i n).
Proof. unfold parse_filename, rec_id_length. keep. Qed.
#[local] Hint Resolve keeps_name : keeps.

Lemma keeps_record d n name buf p : preserves iso_keeps (find_record d n name buf p).
Proof. unfold find_record, rec_length, rec_extent, rec_data_length, rec_flags. keep. Qed.
#[local] Hint Resolve keeps_record : keeps.

Lemma keeps_find d sec n name : preserves iso_keeps (iso9660_find_file d sec n name).
Proof. unfold iso9660_find_file. keep. Qed.
#[local] Hint Resolve keeps_find : keeps.

Lemma keeps_stat_tokens d ts : forall sec n, preserves iso_keeps (stat_tokens d ts sec n).
Proof. induction ts as [|t ts IH]; intros sec n; cbn [stat_tokens]; keep. Qed.
Lemma keeps_open_tokens d ts : forall sec n, preserves iso_keeps (open_tokens d ts sec n).
Proof. induction ts as [|t ts IH]; intros sec n; cbn [open_tokens]; keep. Qed.
#[local] Hint Resolve keeps_stat_tokens keeps_open_tokens : keeps.

Lemma keeps_init d : preserves iso_keeps (iso9660_init d).
Proof. unfold iso9660_init. keep. by apply keeps_upd. Qed.
#[local] Hint Resolve keeps_init : keeps.
Lemma keeps_mount d : preserves iso_keeps (iso9660_mount d).
Proof.
  unfold iso9660_mount. keep. intros s b s' H. destruct (satapi_load _ _) as [ok e] eqn:Hl. simplify_eq.
  split_and!; [by eapply load_frame | done..].
Qed.
Lemma keeps_unmount d : preserves iso_keeps (iso9660_unmount d).
Proof.
  unfold iso9660_unmount. keep. intros s b s' H. destruct (satapi_eject _ _) as [ok e] eqn:Hl. simplify_eq.
  split_and!; [by eapply eject_frame | done..].
Qed.
Lemma keeps_stat d p : preserves iso_keeps (iso9660_stat d p).
Proof. unfold iso9660_stat. keep. Qed.
Lemma keeps_open d p : preserves iso_keeps (iso9660_open d p).
Proof. unfold iso9660_open. keep. Qed.
Lemma keeps_iso_read fp ok n : preserves iso_keeps (iso9660_read fp ok n).
Proof. unfold iso9660_read. keep. Qed.
Lemma keeps_close fp : preserves iso_keeps (iso9660_close fp).
Proof. unfold iso9660_close. keep. Qed.
Lemma keeps_opendir d p : preserves iso_keeps (iso9660_opendir d p).
Proof. unfold iso9660_opendir. keep. Qed.
Lemma keeps_readdir d e : preserves iso_keeps (iso9660_readdir d e).
Proof. unfold iso9660_readdir, rec_length, rec_extent, rec_data_length, rec_flags. keep. Qed.
Lemma keeps_closedir d : preserves iso_keeps (iso9660_closedir d).
Proof. unfold iso9660_closedir. keep. Qed.
End iso.

(** ** Sequences of calls *)

Inductive vfs_call :=
  | CInit (d : Z) | CStatus (d : Z) | CMount (d lba : Z) (t : VFS_TYPE) | CUnmount (d : Z)
  | CMkfs (d lba n : Z) (t : VFS_TYPE) | CSetcp (d cp : Z) | CDetect (d : Z) (stack : list Z) | CGpt (d : Z)
  | COpen (d : Z) (path : option (list Z)) (mode : Z) | CClose (d fp : Z)
  | CRead (d fp : Z) (buff : option (list Z)) (n : Z) | CWrite (d fp : Z) (buff : option (list Z)) (n : Z)
  | CLseek (d fp o : Z) | CTruncate (d fp : Z) | CSync (d fp : Z) | CFsize (d fp : Z)
  | COpendir (stack d : Z) (path : list Z) | CClosedir (d dp : Z) | CReaddir (d dp : Z) (fno : option iso9660_file_t)
  | CListdir (stack d : Z) (path : option (list Z)) | CMkdir (d : Z) (path : option (list Z))
  | CUnlink (d : Z) (path : option (list Z)) | CRename (d : Z) (old new : option (list Z))
  | CStat (d : Z) (path : option (list Z)) | CChmod (d : Z) (path : option (list Z)) (attr mask : Z)
  | CUtime (d : Z) (path : option (list Z)) (ok : bool) | CChdir (d : Z) (path : option (list Z))
  | CGetcwd (cwd : list Z) (d n : Z) | CGetfree (d : Z) | CGetlabel (d : Z) | CSetlabel (d : Z)
  | CForward (d : Z) | CExpand (d : Z).

(** The disk a call is made on. *)
Definition call_disk (c : vfs_call) : Z :=
  match c with
  | CInit d | CStatus d | CMount d _ _ | CUnmount d | CMkfs d _ _ _ | CSetcp d _ | CDetect d _ | CGpt d
  | COpen d _ _ | CClose d _ | CRead d _ _ _ | CWrite d _ _ _ | CLseek d _ _ | CTruncate d _ | CSync d _ | CFsize d _
  | COpendir _ d _ | CClosedir d _ | CReaddir d _ _ | CListdir _ d _ | CMkdir d _ | CUnlink d _ | CRename d _ _
  | CStat d _ | CChmod d _ _ _ | CUtime d _ _ | CChdir d _ | CGetcwd _ d _ | CGetfree d | CGetlabel d | CSetlabel d
  | CForward d | CExpand d => d
  end.

Definition void {S A} (m : M S A) : M S unit := let! _ := m in ret tt.

Section calls.
Context {E : Type} {D : BlockDev E} {Md : Media E}.
Abbreviation st := (vfs_state E).

Definition run_call (fuel : nat) (c : vfs_call) : M st unit :=
  match c with
  | CInit d => void (vfs_init d)
  | CStatus d => void (vfs_disk_status d)
  | CMount d lba t => void (vfs_mount d lba t)
  | CUnmount d => void (vfs_unmount d)
  | CMkfs d lba n t => void (vfs_mkfs fuel d lba n t)
  | CSetcp d cp => void (vfs_setcp d cp)
  | CDetect d stack => void (detect_filesystem stack d)
  | CGpt d => void (is_gpt_disk d)
  | COpen d path mode => void (vfs_open fuel d path mode)
  | CClose d fp => void (vfs_close d fp)
  | CRead d fp b n => void (vfs_read fuel d fp b n)
  | CWrite d fp b n => void (vfs_write fuel d fp b n)
  | CLseek d fp o => void (vfs_lseek fuel d fp o)
  | CTruncate d fp => void (vfs_truncate fuel d fp)
  | CSync d fp => void (vfs_sync d fp)
  | CFsize d fp => void (vfs_get_fsize d fp)
  | COpendir stack d path => void (vfs_opendir fuel stack d path)
  | CClosedir d dp => void (vfs_closedir d dp)
  | CReaddir d dp fno => void (vfs_readdir fuel d dp fno)
  | CListdir stack d path => void (vfs_listdir fuel stack d path)
  | CMkdir d path => void (vfs_mkdir d path)
  | CUnlink d path => void (vfs_unlink fuel d path)
  | CRename d old new => void (vfs_rename fuel d old new)
  | CStat d path => void (vfs_stat fuel d path)
  | CChmod d path attr mask => void (vfs_chmod d path attr mask)
  | CUtime d path ok => void (vfs_utime d path ok)
  | CChdir d path => void (vfs_chdir fuel d path)
  | CGetcwd cwd d n => void (vfs_getcwd cwd d n)
  | CGetfree d => void (vfs_getfree d)
  | CGetlabel d => void (vfs_getlabel d)
  | CSetlabel d => void (vfs_setlabel d)
  | CForward d => void (vfs_forward d)
  | CExpand d => void (vfs_expand d)
  end.

Inductive calls (fuel : nat) : st -> list vfs_call -> st -> Prop :=
  | calls_nil s : calls fuel s [] s
  | calls_cons s c s1 cs s2 : run_call fuel c s = Ret (tt, s1) -> calls fuel s1 cs s2 -> calls fuel s (c :: cs) s2.

Definition optical (s : st) (d : Z) : Prop :=
  exists l, types (v_disks s) = Some l /\ 0 <= d /\ l !! Z.to_nat d = Some DISK_TYPE_SATAPI.
End calls.

(** ** Optical disks *)

Section readonly.
Context {E : Type} {D : BlockDev E} {F : DiskFrame E} {Md : Media E} {ML : MediaLaws E}.
Abbreviation st := (vfs_state E).

(** Same sectors, same types of disks. *)
Definition vfs_keeps (s s' : st) : Prop :=
  dev_eq (dev (v_fat s)) (dev (v_fat s')) /\ types (v_disks s') = types (v_disks s) /\ v_count s' = v_count s.

#[global] Instance vfs_keeps_preorder : PreOrder vfs_keeps.
Proof.
  split.
  - intros s. split_and!; [apply dev_eq_refl | done..].
  - intros s1 s2 s3 (H1 & H2 & H3) (H4 & H5 & H6). split_and!; [by eapply dev_eq_trans | congruence..].
Qed.

Lemma keeps_on_iso {A} (m : M (ist E) A) : preserves iso_keeps m -> preserves vfs_keeps (on_iso m).
Proof.
  intros Hm s a s' H. unfold on_iso in H.
  destruct (m _) as [[b i]| | |] eqn:Hr; cbn in H; simplify_eq. by apply (Hm _ _ _ Hr).
Qed.
Lemma keeps_vread room d lba n : preserves vfs_keeps (vread room d lba n).
Proof.
  intros s a s' H. unfold vread in H. destruct (kebla_disk_read d lba n _) as [r e] eqn:Hr.
  destruct r as [l|]; [destruct (_ <=? _)|]; simplify_eq; (split_and!; [by apply (read_frame _ _ _ _ _ _ Hr) | done..]).
Qed.
Lemma keeps_new_obj o : preserves vfs_keeps (new_obj o).
Proof. intros s a s' [= _ <-]. by split_and!; [apply dev_eq_refl | ..]. Qed.
Lemma keeps_put_obj p o : preserves vfs_keeps (put_obj p o).
Proof. apply preserves_modify. intros s. by split_and!; [apply dev_eq_refl | ..]. Qed.
Lemma keeps_drop_obj p : preserves vfs_keeps (drop_obj p).
Proof. apply preserves_modify. intros s. by split_and!; [apply dev_eq_refl | ..]. Qed.
Lemma keeps_iso_file p : preserves vfs_keeps (iso_file p).
Proof. intros s a s' H. unfold iso_file in H. repeat case_match; by simplify_eq. Qed.
Lemma keeps_iso_dir p : preserves vfs_keeps (iso_dir p).
Proof. intros s a s' H. unfold iso_dir in H. repeat case_match; by simplify_eq. Qed.
Lemma keeps_vdisk d : preserves vfs_keeps (vdisk d).
Proof. intros s a s' H. unfold vdisk in H. repeat case_match; by simplify_eq. Qed.
Lemma keeps_vat_byte buf i : preserves vfs_keeps (at_byte buf i).
Proof. unfold at_byte. keep. Qed.
Lemma keeps_has_at o id b : preserves vfs_keeps (has_at o id b).
Proof. unfold has_at, at_bytes. keep. Qed.
#[local] Hint Resolve keeps_on_iso keeps_vread keeps_new_obj keeps_put_obj keeps_drop_obj keeps_iso_file keeps_iso_dir
  keeps_vdisk keeps_vat_byte keeps_has_at : keeps.
#[local] Hint Resolve keeps_init keeps_mount keeps_unmount keeps_stat keeps_open keeps_iso_read keeps_close keeps_opendir
  keeps_readdir keeps_closedir : keeps.

(** From a state where disk [d] is optical, the type of [d] is known. *)
Definition keeps_at {A} (d : Z) (m : M st A) : Prop :=
  forall s a s', optical s d -> m s = Ret (a, s') -> vfs_keeps s s'.

Lemma keeps_at_all {A} d (m : M st A) : preserves vfs_keeps m -> keeps_at d m.
Proof. intros Hm s a s' _ H. by eapply Hm. Qed.

Lemma keeps_at_bind {A B} d (m : M st A) (k : A -> M st B) : preserves vfs_keeps m -> (forall a, keeps_at d (k a)) ->
  keeps_at d (bind m k).
Proof.
  intros Hm Hk s b s' Ho H. unfold bind, obind in H. destruct (m s) as [[a s1]| | |] eqn:Hs; try done.
  pose proof (Hm _ _ _ Hs) as H1. transitivity s1; [done|]. eapply Hk; [|done].
  destruct Ho as (l & Hl & Hd). exists l. destruct H1 as (_ & -> & _). done.
Qed.

Lemma keeps_at_type {A} d (k : DiskType -> M st A) : preserves vfs_keeps (k DISK_TYPE_SATAPI) ->
  keeps_at d (bind (vtype d) k).
Proof.
  intros Hk s b s' (l & Hl & Hd & Ht) H. unfold vtype, vdisk, bind, obind, types in *.
  destruct (v_disks s) as [ds|]; [|done]. simplify_eq. rewrite list_lookup_fmap in Ht.
  rewrite (proj2 (Z.leb_le 0 d)) in H by done. destruct (ds !! Z.to_nat d) as [x|]; [|done]. cbn in Ht, H. injection Ht as Ht.
  rewrite Ht in H. by eapply Hk.
Qed.

Lemma keeps_at_void {A} d (m : M st A) : keeps_at d m -> keeps_at d (void m).
Proof.
  intros Hm s a s' Ho H. unfold void, bind, obind in H. destruct (m s) as [[b s1]| | |] eqn:Hs; try done.
  unfold ret in H. simplify_eq. by eapply Hm.
Qed.

Ltac keep_at :=
  repeat first
    [ lazymatch goal with |- keeps_at _ (bind (vtype _) _) => apply keeps_at_type;
        try change (bool_decide (DISK_TYPE_SATAPI = DISK_TYPE_SATAPI)) with true; cbv iota end
    | lazymatch goal with |- keeps_at _ (bind _ _) => apply keeps_at_bind; [solve [unfold too_big, no_disks; keep] | intros ?] end
    | lazymatch goal with |- keeps_at _ (match ?x with _ => _ end) => destruct x end
    | apply keeps_at_all ].

Lemma call_keeps fuel c : keeps_at (call_disk c) (run_call fuel c).
Proof.
  destruct c; cbn [run_call call_disk]; apply keeps_at_void;
    unfold vfs_init, vfs_disk_status, vfs_mount, vfs_unmount, vfs_mkfs, vfs_setcp, detect_filesystem, is_gpt_disk,
      vfs_open, vfs_close, vfs_read, vfs_write, vfs_lseek, vfs_truncate, vfs_sync, vfs_get_fsize, vfs_opendir, vfs_closedir,
      vfs_readdir, vfs_listdir, vfs_mkdir, vfs_unlink, vfs_rename, by_path, vfs_stat, vfs_chmod, vfs_utime, vfs_chdir, vfs_getcwd,
      vfs_getfree, vfs_getlabel, vfs_setlabel, vfs_forward, vfs_expand, no_op, fat_variant;
    keep_at; unfold at_bytes; keep.
Qed.

(** C14 Calls on optical disks change no sector of any disk, whatever the calls,
    their order and their handles, and whatever the size of the sectors, as long
    as the behaviour of the calls is defined.  On a disc read in sectors of 2048
    bytes, as the SATAPI driver delivers them, this leaves out the calls that
    overflow their buffers: is_gpt_disk and detect_filesystem
    ([detect_overflows]), vfs_init and vfs_mount ([mount_overflows]). *)
Theorem vfs_optical_readonly fuel s cs s' : calls fuel s cs s' -> Forall (fun c => optical s (call_disk c)) cs ->
  forall d l, sector (dev (v_fat s')) d l = sector (dev (v_fat s)) d l.
Proof.
  intros Hc Ho. enough (Hk : vfs_keeps s s') by apply Hk.
  induction Hc as [s|s c s1 cs s2 Hrun Hc IH]; [done|]. apply Forall_cons in Ho as [Hoc Ho].
  pose proof (call_keeps _ _ _ _ _ Hoc Hrun) as H1. transitivity s1; [done|]. apply IH.
  eapply Forall_impl; [exact Ho|]. intros x (l & Hl & Hx). exists l. destruct H1 as (_ & -> & _). done.
Qed.
End readonly.

(** ** Sectors that are larger than the buffers *)

Section overflow.
Context {E : Type} {D : BlockDev E} {Md : Media E}.
Abbreviation st := (vfs_state E).

(** Detection reads sector 0 into 512 bytes of its stack. *)
Theorem detect_overflows d (s : st) : wide 512 d 0 1 (dev (v_fat s)) ->
  is_gpt_disk d s = Undef /\ forall stack, detect_filesystem stack d s = Undef.
Proof.
  intros (l & e' & Hr & Hl). unfold is_gpt_disk, detect_filesystem, bind, obind, vread. rewrite Hr.
  by rewrite (proj2 (Z.leb_gt _ _)) by done.
Qed.

(** The mount reads four sectors into a buffer of 2048 bytes. *)
Theorem mount_overflows d (s : st) l disk e lba t :
  v_disks s = Some l -> l !! Z.to_nat d = Some disk -> 0 <= d < v_count s ->
  dtype disk = DISK_TYPE_SATAPI -> context disk <> 0 ->
  malloc ISO_BLOCK_SIZE (dev (v_fat s)) = (true, e) -> wide ISO_BLOCK_SIZE d 16 4 e ->
  vfs_init d s = Undef /\ vfs_mount d lba t s = Undef.
Proof.
  intros Hl Hd Hn Ht Hx Hm Hw.
  destruct (init_overflows (mk_ist (dev (v_fat s)) (v_disks s) (v_count s) (v_iso_live s)) l d disk e) as [Hi Ho]; try done.
  assert (Hpre : too_big d s = Ret (false, s) /\ no_disks s = Ret (false, s) /\ vtype d s = Ret (DISK_TYPE_SATAPI, s)).
  { unfold too_big, no_disks, vtype, vdisk, gets, bind, obind. rewrite Hl, Hd, (proj2 (Z.leb_gt _ _)), (proj2 (Z.leb_le _ _)) by lia.
    cbn. by rewrite Ht. }
  destruct Hpre as (H1 & H2 & H3).
  unfold vfs_init, vfs_mount. unfold bind at 1, obind. rewrite H1. unfold bind at 1, obind. rewrite H2. cbn [orb].
  unfold bind at 1, obind. rewrite H3. unfold bind at 1 2, obind. rewrite H1. unfold on_iso, bind at 1. rewrite Hi. split; [done|].
  unfold bind at 1, obind. rewrite H2. cbn [orb]. unfold bind, obind. rewrite H3. rewrite bool_decide_true by done. by rewrite Ho.
Qed.
End overflow.

(** ** Files on a FAT disk *)

Section fat.
Context {E : Type} {D : BlockDev E} {L : BlockDevLaws E} {Md : Media E} {Ar : Around}.
Abbreviation st := (vfs_state E).

Definition fat_disk (s : st) (d : Z) : Prop :=
  exists l x, v_disks s = Some l /\ 0 <= d /\ l !! Z.to_nat d = Some x /\ dtype x = DISK_TYPE_AHCI_SATA.

Lemma vtype_fat s d (Q : DiskType -> st -> Prop) : fat_disk s d -> Q DISK_TYPE_AHCI_SATA s -> wp (vtype d) Q s.
Proof.
  intros (l & x & Hl & Hd & Hx & Ht) HQ. unfold wp, vtype, vdisk, bind, obind. rewrite Hl, (proj2 (Z.leb_le 0 d)) by done.
  rewrite Hx. cbn. by rewrite Ht.
Qed.

Lemma on_fat_spec {A} (m : M (fat_state E) A) s (Q : A -> st -> Prop) :
  wp m (fun a f => Q a (mk_vfs f (v_disks s) (v_count s) (v_iso_live s) (v_heap s) (v_next s))) (v_fat s) -> wp (on_fat m) Q s.
Proof. unfold wp, on_fat. destruct (m (v_fat s)) as [[a f]| | |]; done. Qed.

Lemma fat_file_spec s h f (Q : FAT32_FILE -> st -> Prop) : v_heap s !! h = Some (FatFileObj f) -> Q f s -> wp (fat_file h) Q s.
Proof. intros Hh HQ. unfold wp, fat_file. by rewrite Hh. Qed.

(** One call on an open file. *)
Lemma file_call {A B} (m : FAT32_FILE -> M (fat_state E) A) (k : A -> M st B) s d h f (Q : B -> st -> Prop) :
  fat_disk s d -> v_heap s !! h = Some (FatFileObj f) ->
  wp (m f) (fun a f' => wp (k a) Q (mk_vfs f' (v_disks s) (v_count s) (v_iso_live s) (v_heap s) (v_next s))) (v_fat s) ->
  wp (let! f := fat_file h in let! a := on_fat (m f) in k a) Q s.
Proof.
  intros Hd Hh Hm. apply wp_bind, (fat_file_spec s h f); [done|]. apply wp_bind, on_fat_spec. done.
Qed.

(** A write, a seek back and a read, each call after the one before. *)
Lemma file_calls_spec s d h fp b fat data l buff out n fuel :
  fat_disk s d -> v_heap s !! h = Some (FatFileObj fp) -> h <> 0 ->
  vol_rep (v_fat s) b fat data -> 2 <= fat32_free_cluster_no (v_fat s) -> write_start b fat fp l ->
  0 <= pos fp <= zlen l * csize b -> 0 <= FatFile.size fp <= zlen l * csize b -> 0 < n < 2147483648 ->
  pos fp + n < 4294967296 -> FatFile.size fp < 4294967296 ->
  n <= zlen buff -> Forall byte buff -> zlen out = n ->
  extra b l (pos fp + n) <= zlen (free_list b fat (fat32_free_cluster_no (v_fat s))) ->
  rounds b (pos fp + n) + zlen l + 1 < Z.of_nat fuel ->
  wp (vfs_write fuel d h (Some buff) n) (fun r1 s1 => r1 = 0 /\
    wp (vfs_lseek fuel d h (pos fp)) (fun r2 s2 => r2 = 0 /\
      wp (vfs_read fuel d h (Some out) n) (fun r3 s3 => r3 = (0, Some (take (Z.to_nat n) buff)) /\
        v_disks s3 = v_disks s /\ (forall h', h' <> h -> v_heap s3 !! h' = v_heap s !! h') /\
        exists fp', v_heap s3 !! h = Some (FatFileObj fp') /\
          file_written b fat data fp l (take (Z.to_nat n) buff) (v_fat s3) fp') s2) s1) s.
Proof.
  intros Hd Hh H0 Hr Hfree Hst Hp Hsz Hn Hpn Hs32 Hbl Hby Hout Hex Hfu.
  assert (Hpl : pos fp < 4294967296) by lia.
  assert (Hf : forall s', v_disks s' = v_disks s -> fat_disk s' d) by (intros s' He; unfold fat_disk; by rewrite He).
  unfold vfs_write. rewrite (proj2 (Z.eqb_neq h 0)), (proj2 (Z.leb_gt n 0)) by lia. cbn [orb].
  apply wp_bind, vtype_fat; [by apply Hf|]. apply file_call with (d := d) (f := fp); [by apply Hf | done |].
  rewrite (u32_small n) by lia.
  eapply wp_mono; [eapply (write_seek_read_spec (v_fat s) b fat data fp l buff out n); done || lia|].
  intros [[ok1 n1] fp1] s1 [-> H1]. apply wp_bind, wp_modify, wp_ret. unfold set_heap; cbn [v_fat v_disks v_count v_iso_live v_heap v_next].
  split; [done|]. unfold vfs_lseek. apply wp_bind, vtype_fat; [by apply Hf|].
  rewrite (proj2 (Z.eqb_neq h 0)) by lia.
  apply file_call with (d := d) (f := fp1); [by apply Hf | apply lookup_insert_eq |].
  rewrite (u32_small (pos fp)) by lia. cbn [v_fat].
  eapply wp_mono; [exact H1|]. intros fp2 s2 H2. apply wp_bind, wp_modify, wp_ret.
  unfold set_heap; cbn [v_fat v_disks v_count v_iso_live v_heap v_next].
  split; [done|]. unfold vfs_read. apply wp_bind, vtype_fat; [by apply Hf|].
  rewrite (proj2 (Z.eqb_neq h 0)) by lia.
  apply file_call with (d := d) (f := fp2); [by apply Hf | apply lookup_insert_eq |].
  rewrite (u32_small n) by lia. cbn [v_fat].
  eapply wp_mono; [exact H2|]. intros [[[ok2 o] m] fp3] s3 (-> & -> & -> & _ & Hfw). apply wp_bind, wp_modify, wp_ret.
  split_and!; [done.. | |].
  - intros h' Hne. cbn. by rewrite !lookup_insert_ne.
  - exists fp3. split; [apply lookup_insert_eq | done].
Qed.
End fat.

(** ** Detection *)

Section detect.
Context {E : Type} {D : BlockDev E} {L : BlockDevLaws E} {Md : Media E}.
Abbreviation st := (vfs_state E).

Lemma vread_spec room d lba n (s : st) (Q : option (list Z) -> st -> Prop) : reliable (dev (v_fat s)) -> 0 <= lba -> 0 < n ->
  lba + n <= capacity (dev (v_fat s)) d -> n * 512 <= room ->
  (forall s', dev_eq (dev (v_fat s)) (dev (v_fat s')) -> Q (Some (sectors (dev (v_fat s)) d lba n)) s') ->
  wp (vread room d lba n) Q s.
Proof.
  intros Hr Hl Hn Hc Hroom HQ. unfold wp, vread. pose proof (read_total (dev (v_fat s)) d lba n Hr Hl Hn Hc) as Ht.
  destruct (kebla_disk_read d lba n (dev (v_fat s))) as [r e] eqn:Hm. cbn in Ht. destruct Ht as [l ->].
  rewrite (read_data _ _ _ _ _ _ Hm Hl Hn). change (mjoin _) with (sectors (dev (v_fat s)) d lba n).
  rewrite length_sectors, (proj2 (Z.leb_le _ _)) by lia. apply HQ. cbn. by apply (read_frame _ _ _ _ _ _ Hm).
Qed.

Lemma at_byte_spec buf i (s : st) (Q : Z -> st -> Prop) : 0 <= i < zlen buf -> Q (load 1 i buf) s -> wp (at_byte buf i) Q s.
Proof.
  intros Hi HQ. unfold at_byte. rewrite (proj2 (Z.leb_le 0 i)) by lia.
  destruct (lookup_lt_is_Some_2 buf (Z.to_nat i)) as [x Hx]; [lia|]. rewrite Hx. apply wp_ret.
  replace x with (load 1 i buf); [done|]. unfold load, slice.
  rewrite (drop_S _ _ _ Hx). change (Z.to_nat (Z.of_nat 1)) with 1%nat. cbn [take le_val]. rewrite take_0. cbn [le_val]. lia.
Qed.

Lemma has_at_spec o id buf (s : st) (Q : bool -> st -> Prop) : 0 <= o -> o + zlen id <= zlen buf ->
  Q (bool_decide (slice o (zlen id) buf = id)) s -> wp (has_at o id buf) Q s.
Proof. intros. unfold has_at, at_bytes. wp_steps. done. Qed.

(** A FAT32 boot sector in sector 0, without a partition table, is found. *)
Theorem detect_fat32 stack d (s : st) : let b := sector (dev (v_fat s)) d 0 in
  reliable (dev (v_fat s)) -> 1 <= capacity (dev (v_fat s)) d -> slice 0x52 5 b = FAT32_ID -> load 1 (0x1BE + 4) b = 0 ->
  exists s', detect_filesystem stack d s = Ret (VFS_FAT32, s').
Proof.
  intros b Hr Hc Hid Hpt.
  assert (H : wp (detect_filesystem stack d) (fun r _ => r = VFS_FAT32) s);
    [|apply wp_run in H as (r & s' & H & ->); by exists s'].
  unfold detect_filesystem. apply wp_bind, vread_spec; [done | lia | lia | lia | done |]. intros s1 _.
  rewrite sectors_cons by lia. change (sectors _ d (0 + 1) (1 - 1)) with (@nil Z). rewrite app_nil_r. fold b.
  assert (Hl : zlen b = 512) by (unfold b; by rewrite sector_length).
  do 3 (apply wp_bind, at_byte_spec; [lia|]). rewrite Hpt. cbn [Z.eqb negb]. rewrite andb_false_r.
  apply wp_bind, wp_ret. apply wp_bind. unfold fat_variant.
  apply wp_bind, has_at_spec; [lia | cbn; lia |]. apply wp_bind, has_at_spec; [lia | cbn; lia |].
  change (zlen FAT32_ID) with 5. rewrite Hid, bool_decide_eq_true_2 by done. cbn [orb]. by apply wp_ret, wp_ret.
Qed.

(** The test for ext2 looks at bytes of the buffer behind those read: its
    answer does not depend on the disk. *)
Theorem detect_ext2_stack stack d (s : st) : (forall l, 0 <= l < 17 -> sector (dev (v_fat s)) d l = replicate 512 0) ->
  reliable (dev (v_fat s)) -> 17 <= capacity (dev (v_fat s)) d -> zlen stack = 1536 ->
  exists s', detect_filesystem stack d s = Ret (if load 2 1080 stack =? 0xEF53 then VFS_EXT2 else VFS_RAW, s').
Proof.
  intros Hz Hr Hc Hst.
  assert (H : wp (detect_filesystem stack d) (fun r _ => r = if load 2 1080 stack =? 0xEF53 then VFS_EXT2 else VFS_RAW) s);
    [|apply wp_run in H as (r & s' & H & ->); by exists s'].
  assert (Hone : forall l, 0 <= l < 17 -> sectors (dev (v_fat s)) d l 1 = replicate 512 0).
  { intros l Hl. rewrite sectors_cons by lia. rewrite Hz by lia. replace (1 - 1) with 0 by lia. apply app_nil_r. }
  unfold detect_filesystem. apply wp_bind, vread_spec; [done | lia | lia | lia | done |]. intros s1 (E1 & C1 & R1). rewrite Hone by lia.
  do 3 (apply wp_bind, at_byte_spec; [rewrite length_replicate; lia|]).
  change (_ && _ && _) with false. apply wp_bind, wp_ret.
  apply wp_bind. unfold fat_variant. do 2 (apply wp_bind, has_at_spec; [lia | rewrite length_replicate; cbn; lia|]).
  change (_ || _) with false. do 2 (apply wp_bind, has_at_spec; [lia | rewrite length_replicate; cbn; lia|];
    match goal with |- wp (if bool_decide ?P then _ else _) _ _ => rewrite (bool_decide_eq_false_2 P) by done end).
  apply wp_ret. do 2 (apply wp_bind, has_at_spec; [lia | rewrite length_replicate; cbn; lia|];
    match goal with |- wp (if bool_decide ?P then _ else _) _ _ => rewrite (bool_decide_eq_false_2 P) by done end).
  apply wp_bind, vread_spec; [auto | lia | lia | rewrite C1; lia | done |]. intros s2 (E2 & C2 & R2).
  pose proof (length_sectors (dev (v_fat s1)) d 2 2 ltac:(lia)) as Hlen.
  apply wp_bind, wp_bind. unfold at_bytes. apply wp_bind, wp_guard; [rewrite length_splice by lia; bool_true|].
  apply wp_ret, wp_ret. rewrite slice_splice_disjoint by lia.
  change (le_val (slice (1024 + 0x38) 2 stack)) with (load 2 1080 stack).
  destruct (load 2 1080 stack =? 0xEF53); [by apply wp_ret|].
  apply wp_bind, vread_spec; [auto | lia | lia | rewrite C2, C1; lia | done |]. intros s3 _.
  rewrite (sectors_ext (dev (v_fat s))) by (intros; by rewrite E2, E1). rewrite Hone by lia.
  apply wp_bind, has_at_spec; [lia | rewrite length_replicate; cbn; lia|]. by apply wp_ret.
Qed.
End detect.

(** ** Examples *)
Module SmallVfs.
Import RamDisk SmallVol SmallFile.

#[global] Instance ram_media : Media ram := {
  satapi_load p e := (true, e); satapi_eject p e := (true, e); port_ssts p e := (3, e)
}.
#[global] Instance ram_media_laws : MediaLaws ram.
Proof. split; intros p e b e' [= _ <-]; apply dev_eq_refl. Qed.

(** Disk 0 is optical with a volume descriptor at block 16, disk 1 is not. *)
Definition disks2 : list Disk :=
  [mk_disk true DISK_TYPE_SATAPI 512 4096 0 0 0 0x1000; mk_disk true DISK_TYPE_AHCI_SATA 512 4096 0 0 0 0x1080].
Definition cd : ram := mk_ram (ram_store 0 16 1 ([1; 67; 68; 48; 48; 49] ++ replicate 506 0) ∅) 4096 true.
Definition cd_start : vfs_state ram := mk_vfs (FatBpb.mk_fs cd 0 None 0 0 2 0) (Some disks2) 2 0 ∅ 1.
Definition cd_calls : list vfs_call := [CMount 0 0 VFS_ISO9660; CMkfs 0 0 100 VFS_FAT32; COpen 0 (Some [47; 65]) 1; CUnlink 0 (Some [65])].

(** A mounted disc with sectors of 2048 bytes. *)
#[global] Instance disc_media_laws : MediaLaws SmallIso.cd.
Proof. split; intros p e b e' [= _ <-]; apply dev_eq_refl. Qed.
Definition disc_start : vfs_state SmallIso.cd :=
  mk_vfs (FatBpb.mk_fs SmallIso.cd0 0 None 0 0 2 0) (Some [SmallIso.disk0]) 1 0 ∅ 1.
Definition disc_calls : list vfs_call :=
  [COpen 0 (Some SmallIso.path0) 1; CRead 0 1 (Some (replicate 5 0)) 5; CMkfs 0 0 100 VFS_FAT32; CUnlink 0 (Some SmallIso.path0);
   CClose 0 1].

(** The calls that have results, on sectors of 512 bytes with the mount and on
    sectors of 2048 bytes without it, which overflows there. *)
Lemma vfs_optical_readonly_witness :
  (exists s', calls 5 cd_start cd_calls s' /\ forall d l, sector (dev (v_fat s')) d l = sector cd d l) /\
  (exists s', calls 5 disc_start disc_calls s' /\ forall d l, sector (dev (v_fat s')) d l = sector SmallIso.cd0 d l).
Proof.
  split.
  - eassert (Hc : calls 5 cd_start cd_calls _).
    { unfold cd_calls. do 4 (eapply calls_cons; [vm_compute; reflexivity|]). apply calls_nil. }
    eexists. split; [exact Hc|]. apply (vfs_optical_readonly 5 _ _ _ Hc).
    unfold cd_calls. do 4 (apply Forall_cons; split; [eexists; split_and!; [reflexivity | done | reflexivity]|]). by apply Forall_nil.
  - eassert (Hc : calls 5 disc_start disc_calls _).
    { unfold disc_calls. do 5 (eapply calls_cons; [vm_compute; reflexivity|]). apply calls_nil. }
    eexists. split; [exact Hc|]. apply (vfs_optical_readonly 5 _ _ _ Hc).
    unfold disc_calls. do 5 (apply Forall_cons; split; [eexists; split_and!; [reflexivity | done | reflexivity]|]). by apply Forall_nil.
Defined.

Lemma disc_overflows : is_gpt_disk 0 disc_start = Undef /\ vfs_init 0 disc_start = Undef.
Proof. by vm_compute. Qed.

(** Handle 1 is the file of 1200 bytes on a FAT volume. *)
Definition fat_start : vfs_state ram :=
  mk_vfs (SmallVol.st chain354 2) (Some disks2) 2 0 {[1 := FatFileObj (fp 1000)]} 2.
End SmallVfs.
