(* ===== verification/Syscall.v ===== *)
(** System calls by interrupt 0x80
    (kernel/src/syscall/int_syscall_manager.c) and by the syscall instruction
    (kernel/src/syscall/syscall_manager.c).

    The state has the virtual file system, the memory the caller sees (a total
    memory of bytes: faults are not modelled), the keyboard's ring buffer, and
    what the keyboard will deliver ([s_in]: the bytes pushed by the interrupts
    that end each wait).  [Services] has the calls to the other parts of the
    kernel: clock, terminal, serial line, user heap, processes, threads, frame
    buffer and ACPI.  Structures a directory read stores for the caller are
    kept by address in [s_info]; what was not stored there before reads as
    zero.  Error messages are left out. *)
From S2P Require Import Prelude CString Ahci Disk BlockDev FatBpb FatDir FatFile Iso9660 Irq Paging RingBuffer Vfs.

(** ** Numbers *)

Inductive int_syscall_number :=
  | INT_TIME | INT_CLOCK_GETTIME | INT_CLOCK_GETTIMEOFDAY | INT_TIMES | INT_SYSCALL_GET_TIME | INT_SYSCALL_GET_UP_TIME
  | INT_SYSCALL_OPEN | INT_SYSCALL_CLOSE | INT_SYSCALL_READ | INT_SYSCALL_WRITE | INT_SYSCALL_LSEEK | INT_SYSCALL_TRUNCATE
  | INT_SYSCALL_OPENDIR | INT_SYSCALL_CLOSEDIR | INT_SYSCALL_READDIR | INT_SYSCALL_UNLINK | INT_SYSCALL_MKDIR
  | INT_SYSCALL_CHDIR | INT_SYSCALL_CHDRIVE | INT_SYSCALL_GETCWD | INT_SYSCALL_MOUNT | INT_SYSCALL_FDISK
  | INT_SYSCALL_KEYBOARD_READ | INT_SYSCALL_PRINT | INT_SYSCALL_EXIT | INT_SYSCALL_PRINT_RAX | INT_SYSCALL_ALLOC
  | INT_SYSCALL_FREE | INT_CREATE_PROCESS | INT_DELETE_PROCESS | INT_GET_PROCESS_FROM_PID | INT_GET_CURRENT_PROCESS
  | INT_CREATE_THREAD | INT_DELETE_THREAD | INT_SYSCALL_LIST | INT_VFS_INIT | INT_VFS_MKFS | INT_GET_FB_INFO
  | INT_VGA_SETPIXEL | INT_VGA_GETPIXEL | INT_VGA_CLEAR | INT_VGA_DISPLAY_IMAGE | INT_VGA_DISPLAY_TRANSPARENT_IMAGE
  | INT_ACPI_POWEROFF | INT_ACPI_REBOOT | INT_SYSCALL_SERIAL_PRINT | INT_SYSCALL_PUTCHAR | INT_SYSCALL_UNMOUNT.

Definition number (c : int_syscall_number) : Z :=
  match c with
  | INT_TIME => 1 | INT_CLOCK_GETTIME => 2 | INT_CLOCK_GETTIMEOFDAY => 3 | INT_TIMES => 4
  | INT_SYSCALL_GET_TIME => 49 | INT_SYSCALL_GET_UP_TIME => 50 | INT_SYSCALL_OPEN => 51 | INT_SYSCALL_CLOSE => 52
  | INT_SYSCALL_READ => 53 | INT_SYSCALL_WRITE => 54 | INT_SYSCALL_LSEEK => 55 | INT_SYSCALL_TRUNCATE => 56
  | INT_SYSCALL_OPENDIR => 68 | INT_SYSCALL_CLOSEDIR => 69 | INT_SYSCALL_READDIR => 70 | INT_SYSCALL_UNLINK => 74
  | INT_SYSCALL_MKDIR => 78 | INT_SYSCALL_CHDIR => 79 | INT_SYSCALL_CHDRIVE => 80 | INT_SYSCALL_GETCWD => 81
  | INT_SYSCALL_MOUNT => 82 | INT_SYSCALL_FDISK => 84 | INT_SYSCALL_KEYBOARD_READ => 89 | INT_SYSCALL_PRINT => 90
  | INT_SYSCALL_EXIT => 91 | INT_SYSCALL_PRINT_RAX => 92 | INT_SYSCALL_ALLOC => 93 | INT_SYSCALL_FREE => 94
  | INT_CREATE_PROCESS => 95 | INT_DELETE_PROCESS => 96 | INT_GET_PROCESS_FROM_PID => 97 | INT_GET_CURRENT_PROCESS => 98
  | INT_CREATE_THREAD => 99 | INT_DELETE_THREAD => 100 | INT_SYSCALL_LIST => 101 | INT_VFS_INIT => 102 | INT_VFS_MKFS => 103
  | INT_GET_FB_INFO => 104 | INT_VGA_SETPIXEL => 105 | INT_VGA_GETPIXEL => 106 | INT_VGA_CLEAR => 107
  | INT_VGA_DISPLAY_IMAGE => 108 | INT_VGA_DISPLAY_TRANSPARENT_IMAGE => 109 | INT_ACPI_POWEROFF => 110 | INT_ACPI_REBOOT => 111
  | INT_SYSCALL_SERIAL_PRINT => 112 | INT_SYSCALL_PUTCHAR => 113 | INT_SYSCALL_UNMOUNT => 116
  end.

Definition all_syscalls : list int_syscall_number :=
  [INT_TIME; INT_CLOCK_GETTIME; INT_CLOCK_GETTIMEOFDAY; INT_TIMES; INT_SYSCALL_GET_TIME; INT_SYSCALL_GET_UP_TIME;
   INT_SYSCALL_OPEN; INT_SYSCALL_CLOSE; INT_SYSCALL_READ; INT_SYSCALL_WRITE; INT_SYSCALL_LSEEK; INT_SYSCALL_TRUNCATE;
   INT_SYSCALL_OPENDIR; INT_SYSCALL_CLOSEDIR; INT_SYSCALL_READDIR; INT_SYSCALL_UNLINK; INT_SYSCALL_MKDIR;
   INT_SYSCALL_CHDIR; INT_SYSCALL_CHDRIVE; INT_SYSCALL_GETCWD; INT_SYSCALL_MOUNT; INT_SYSCALL_FDISK;
   INT_SYSCALL_KEYBOARD_READ; INT_SYSCALL_PRINT; INT_SYSCALL_EXIT; INT_SYSCALL_PRINT_RAX; INT_SYSCALL_ALLOC;
   INT_SYSCALL_FREE; INT_CREATE_PROCESS; INT_DELETE_PROCESS; INT_GET_PROCESS_FROM_PID; INT_GET_CURRENT_PROCESS;
   INT_CREATE_THREAD; INT_DELETE_THREAD; INT_SYSCALL_LIST; INT_VFS_INIT; INT_VFS_MKFS; INT_GET_FB_INFO;
   INT_VGA_SETPIXEL; INT_VGA_GETPIXEL; INT_VGA_CLEAR; INT_VGA_DISPLAY_IMAGE; INT_VGA_DISPLAY_TRANSPARENT_IMAGE;
   INT_ACPI_POWEROFF; INT_ACPI_REBOOT; INT_SYSCALL_SERIAL_PRINT; INT_SYSCALL_PUTCHAR; INT_SYSCALL_UNMOUNT].

(** The case of the switch a number selects. *)
Definition syscall_of (n : Z) : option int_syscall_number :=
  snd <$> list_find (fun c => number c = n) all_syscalls.

Definition EINVAL : Z := 22.
Definition EFAULT : Z := 14.
Definition MAX_PATH_LEN : Z := 256.
Definition CLOCK_REALTIME : Z := 0.
Definition CLOCK_MONOTONIC : Z := 1.
Definition CLOCKS_PER_SEC : Z := 1000000.

(** The registers the handler uses. *)
Record registers_t := mk_regs { int_no : Z; rax : Z; rdi : Z; rsi : Z; rdx : Z; r10 : Z; r8 : Z }.
Definition with_rax (v : Z) (r : registers_t) : registers_t :=
  mk_regs (int_no r) v (rdi r) (rsi r) (rdx r) (r10 r) (r8 r).

Definition vfs_type_of (n : Z) : VFS_TYPE :=
  match n with
  | 0 => VFS_UNKNOWN | 1 => VFS_FAT12 | 2 => VFS_FAT16 | 3 => VFS_FAT32 | 4 => VFS_EXFAT | 5 => VFS_EXT2 | 6 => VFS_EXT3
  | 7 => VFS_EXT4 | 8 => VFS_NTFS | 9 => VFS_UDF | 10 => VFS_NFS | 11 => VFS_SMB | 12 => VFS_SSHFS | 13 => VFS_WEBDEV
  | 14 => VFS_APFS | 15 => VFS_ISO9660 | 16 => VFS_TEMPFS | _ => VFS_RAW
  end.

(** ** Services and state *)

Class Services (X : Type) := {
  sv_get_time : M X Z;
  sv_get_uptime_seconds : Z -> M X Z;
  sv_get_core_id : M X Z;
  sv_putc : Z -> M X unit;
  sv_print : list Z -> M X unit;
  sv_print_rax : Z -> M X unit;
  sv_list : list FAT32_DIRENT -> M X unit;
  sv_serial_print : list Z -> M X unit;
  sv_uheap_alloc : Z -> Z -> M X Z;
  sv_uheap_free : Z -> Z -> M X unit;
  sv_create_process : Z -> M X Z;
  sv_delete_process : Z -> M X unit;
  sv_get_process_by_pid : Z -> M X Z;
  sv_get_current_process : M X Z;
  sv_create_thread : Z -> Z -> Z -> Z -> M X Z;
  sv_delete_thread : Z -> M X unit;
  sv_set_pixel : Z -> Z -> Z -> M X unit;
  sv_get_pixel : Z -> Z -> M X Z;
  sv_cls_color : Z -> M X unit;
  sv_display_image : Z -> Z -> Z -> Z -> Z -> M X unit;
  sv_draw_image_with_transparency : Z -> Z -> Z -> Z -> Z -> M X unit;
  sv_acpi_poweroff : M X unit;
  sv_acpi_reboot : M X unit
}.

Record sys (E X : Type) := mk_sys {
  s_vfs : vfs_state E; s_mem : ram; s_kbd : option RingBuffer.ring_buffer_t; s_in : list (list Z);
  s_info : gmap Z info; s_other : X
}.
Arguments mk_sys {E X}.
Arguments s_vfs {E X}.
Arguments s_mem {E X}.
Arguments s_kbd {E X}.
Arguments s_in {E X}.
Arguments s_info {E X}.
Arguments s_other {E X}.

Section syscalls.
Context {E : Type} `{BlockDev E} `{Media E} {X : Type} `{Services X}.
Abbreviation st := (sys E X).

Definition on_vfs {A} (m : M (vfs_state E) A) : M st A := fun s =>
  obind (m (s_vfs s)) (fun '(a, v) => Ret (a, mk_sys v (s_mem s) (s_kbd s) (s_in s) (s_info s) (s_other s))).
Definition on_other {A} (m : M X A) : M st A := fun s =>
  obind (m (s_other s)) (fun '(a, x) => Ret (a, mk_sys (s_vfs s) (s_mem s) (s_kbd s) (s_in s) (s_info s) x)).
Definition set_mem (f : ram -> ram) : M st unit :=
  modify (fun s => mk_sys (s_vfs s) (f (s_mem s)) (s_kbd s) (s_in s) (s_info s) (s_other s)).
Definition set_kbd (b : option RingBuffer.ring_buffer_t) : M st unit :=
  modify (fun s => mk_sys (s_vfs s) (s_mem s) b (s_in s) (s_info s) (s_other s)).
Definition set_info (a : Z) (i : info) : M st unit :=
  modify (fun s => mk_sys (s_vfs s) (s_mem s) (s_kbd s) (s_in s) (<[a := i]> (s_info s)) (s_other s)).

Definition user_bytes (a n : Z) : M st (list Z) := gets (fun s => ld_bytes a n (s_mem s)).
Definition put_bytes (a : Z) (l : list Z) : M st unit := set_mem (st_bytes a l).
(** The string at [a]. *)
Definition user_string (fuel : nat) (a : Z) : M st (list Z) :=
  iter_fuel fuel (fun l =>
    let! c := gets (fun s => s_mem s (a + zlen l)) in
    if c =? 0 then ret (inr l) else ret (inl (l ++ [c]))) [].
(** A pointer to a string, possibly NULL. *)
Definition user_path (fuel : nat) (a : Z) : M st (option (list Z)) :=
  if a =? 0 then ret None else let! l := user_string fuel a in ret (Some l).

(** Bytes up to the first zero, at most [n - 1]; [None] where nothing was
    copied. *)
Definition copy_from_user (user_src max_len : Z) : M st (Z * option (list Z)) :=
  if (user_src =? 0) || (max_len =? 0) then ret (- EINVAL, None) else
  if negb (is_user_virt_addr user_src) then ret (- EFAULT, None) else
  let! l := user_bytes user_src max_len in
  let text := take (lead (fun c => negb (c =? 0)) l) l in
  ret (0, Some (take (Z.to_nat (max_len - 1)) text)).

(** ** The keyboard *)

(** [sti; hlt]: an interrupt pushes what was typed. *)
Definition hlt : M st unit :=
  let! i := gets s_in in
  match i with
  | [] => fun _ => OutOfFuel
  | l :: rest =>
      let! b := gets s_kbd in
      let! b := lift (foldl (fun o c => obind o (fun b => RingBuffer.ring_buffer_push b c)) (Ret b) l) in
      modify (fun s => mk_sys (s_vfs s) (s_mem s) b rest (s_info s) (s_other s))
  end.

Definition wait_for_key (fuel : nat) : M st unit :=
  iter_fuel fuel (fun _ =>
    let! b := gets s_kbd in
    match b with
    | None => undef
    | Some b => if RingBuffer.is_ring_buffer_empty b then hlt ;;; ret (inl tt) else ret (inr tt)
    end) tt.

(** What a key does to the number of characters read. *)
Definition accept_key (user_buf read_count ch : Z) : M st (Z + Z) :=
  if (ch =? 10) || (ch =? 13) then ret (inr read_count) else
  if ch =? 8 then ret (inl (if 0 <? read_count then read_count - 1 else read_count)) else
  if (ch <? 32) || (126 <? ch) then ret (inl read_count) else
  if ch =? 0x1D then ret (inl read_count) else
  if ch =? 0xFFFFFFFF then ret (inl read_count) else
  if ch =? 0x36 then ret (inl read_count) else
  if ch =? 0x2A then ret (inl read_count) else
  put_bytes (u64 (user_buf + read_count)) [ch] ;;; ret (inl (read_count + 1)).

Definition read_keys (fuel : nat) (user_buf size : Z) : M st Z :=
  iter_fuel fuel (fun read_count =>
    if read_count <? u64 (size - 1) then
      wait_for_key fuel ;;;
      let! b := gets s_kbd in
      let! '(r, ch, b) := lift (RingBuffer.ring_buffer_pop b true) in
      set_kbd b ;;;
      match ch with
      | Some ch => if r =? 0 then accept_key user_buf read_count ch else ret (inl read_count)
      | None => ret (inl read_count)
      end
    else ret (inr read_count)) 0.

Definition sys_keyboard_read (fuel : nat) (r : registers_t) : M st Z :=
  let user_buf := rdi r in
  let size := rsi r in
  if (user_buf =? 0) || (size =? 0) then ret (u64 (-1)) else
  let! n := read_keys fuel user_buf size in
  put_bytes (u64 (user_buf + n)) [0] ;;;
  ret n.

(** ** Time *)

Definition sys_time (r : registers_t) : M st Z :=
  let! now := on_other sv_get_time in
  (if rdi r =? 0 then ret tt else put_bytes (rdi r) (le_bytes 8 now)) ;;;
  ret (u64 now).

Definition sys_clock_gettime (r : registers_t) : M st Z :=
  let clk_id := s32 (rdi r) in
  if rsi r =? 0 then ret (u64 (- EINVAL)) else
  if clk_id =? CLOCK_REALTIME then
    let! now := on_other sv_get_time in put_bytes (rsi r) (le_bytes 8 now ++ le_bytes 8 0) ;;; ret 0
  else if clk_id =? CLOCK_MONOTONIC then
    let! up := on_other (sv_get_uptime_seconds 0) in put_bytes (rsi r) (le_bytes 8 up ++ le_bytes 8 0) ;;; ret 0
  else ret (u64 (- EINVAL)).

Definition sys_gettimeofday (r : registers_t) : M st Z :=
  if rdi r =? 0 then ret (u64 (- EINVAL)) else
  let! now := on_other sv_get_time in
  put_bytes (rdi r) (le_bytes 8 now ++ le_bytes 8 0) ;;;
  (if rsi r =? 0 then ret tt else put_bytes (rsi r) (le_bytes 4 0 ++ le_bytes 4 0)) ;;;
  ret 0.

Definition sys_times (r : registers_t) : M st Z :=
  if rdi r =? 0 then ret (u64 (- EINVAL)) else
  put_bytes (rdi r) (replicate 32 0) ;;;
  let! up := on_other (sv_get_uptime_seconds 0) in
  ret (u64 (up * CLOCKS_PER_SEC)).

(** The error value of a zero time is overwritten. *)
Definition sys_get_time (r : registers_t) : M st Z :=
  let! t := on_other sv_get_time in ret (u64 t).

Definition sys_get_up_time (r : registers_t) : M st Z :=
  let! cpu_id := on_other sv_get_core_id in
  let! up := on_other (sv_get_uptime_seconds cpu_id) in ret (u64 up).

(** ** Printing, memory, processes *)

(** A string that is not copied leaves the buffer unset. *)
Definition sys_print (r : registers_t) : M st Z :=
  if rdi r =? 0 then ret (u64 (-1)) else
  let size := s32 (rsi r) in
  if size <=? 0 then ret (u64 (-1)) else
  let! '(_, l) := copy_from_user (rdi r) size in
  match l with
  | Some l => on_other (sv_print l) ;;; ret 0
  | None => undef
  end.

(** The string is looked for at the address in rax, the number of the call. *)
Definition sys_serial_print (r : registers_t) : M st Z :=
  let! '(_, l) := copy_from_user (rax r) 8 in
  match l with
  | Some l => on_other (sv_serial_print l) ;;; ret 0
  | None => undef
  end.

Definition sys_alloc (r : registers_t) : M st Z :=
  let size := rdi r in
  let type := u8 (rsi r) in
  if (size =? 0) || (3 <? type) then ret (u64 (-1)) else
  let! ptr := on_other (sv_uheap_alloc size type) in
  ret (if ptr =? 0 then u64 (-1) else ptr).

Definition sys_free (r : registers_t) : M st Z :=
  if (rdi r =? 0) || (rsi r =? 0) then ret (u64 (-1)) else
  on_other (sv_uheap_free (rdi r) (rsi r)) ;;; ret 0.

(** A pointer, or -1 for NULL. *)
Definition pointer (p : Z) : Z := if p =? 0 then u64 (-1) else p.

Definition sys_create_process (r : registers_t) : M st Z :=
  if rdi r =? 0 then ret (u64 (-1)) else
  let! p := on_other (sv_create_process (rdi r)) in ret (pointer p).
Definition sys_delete_process (r : registers_t) : M st Z :=
  if rdi r =? 0 then ret (u64 (-1)) else on_other (sv_delete_process (rdi r)) ;;; ret 0.
Definition sys_get_process_from_pid (r : registers_t) : M st Z :=
  let! p := on_other (sv_get_process_by_pid (rdi r)) in ret (pointer p).
Definition sys_get_current_process (r : registers_t) : M st Z :=
  let! p := on_other sv_get_current_process in ret (pointer p).
(** A thread needs an argument that is not NULL. *)
Definition sys_create_thread (r : registers_t) : M st Z :=
  if (rdi r =? 0) || (rsi r =? 0) || (rdx r =? 0) || (r10 r =? 0) then ret (u64 (-1)) else
  let! t := on_other (sv_create_thread (rdi r) (rsi r) (rdx r) (r10 r)) in ret (pointer t).
Definition sys_delete_thread (r : registers_t) : M st Z :=
  if rdi r =? 0 then ret (u64 (-1)) else on_other (sv_delete_thread (rdi r)) ;;; ret 0.

(** ** Files and directories *)

Definition sys_mkfs (fuel : nat) (r : registers_t) : M st Z :=
  let! v := on_vfs (vfs_mkfs fuel (s32 (rdi r)) (u32 (rsi r)) (u32 (rdx r)) (vfs_type_of (u32 (r10 r)))) in ret (u64 v).
Definition sys_mount (r : registers_t) : M st Z :=
  let! v := on_vfs (vfs_mount (s32 (rdi r)) (u32 (rsi r)) (vfs_type_of (u32 (rdx r)))) in ret (u64 v).
Definition sys_open (fuel : nat) (r : registers_t) : M st Z :=
  let! path := user_path fuel (rsi r) in
  let! v := on_vfs (vfs_open fuel (s32 (rdi r)) path (s32 (rdx r))) in ret (u64 v).
(** The case ends without a break: the call goes on as an open. *)
Definition sys_unmount (fuel : nat) (r : registers_t) : M st Z :=
  let! v := on_vfs (vfs_unmount (s32 (rdi r))) in sys_open fuel r.

(** The caller's buffer has as many bytes as asked for. *)
Definition user_buffer (a n : Z) : M st (option (list Z)) :=
  if a =? 0 then ret None else let! l := user_bytes a (Z.max 0 n) in ret (Some l).

Definition sys_read (fuel : nat) (r : registers_t) : M st Z :=
  let size := s32 (r10 r) in
  let! b := user_buffer (rdx r) size in
  let! '(v, b) := on_vfs (vfs_read fuel (s32 (rdi r)) (rsi r) b size) in
  (match b with Some l => put_bytes (rdx r) l | None => ret tt end) ;;;
  ret (u64 v).

Definition sys_write (fuel : nat) (r : registers_t) : M st Z :=
  let size := s32 (r10 r) in
  if (rdx r =? 0) || (size <=? 0) then ret (u64 (-1)) else
  let! b := user_buffer (rdx r) size in
  let! v := on_vfs (vfs_write fuel (s32 (rdi r)) (rsi r) b size) in ret (u64 v).

Definition sys_close (r : registers_t) : M st Z :=
  let! v := on_vfs (vfs_close (s32 (rdi r)) (rsi r)) in ret (u64 v).
Definition sys_lseek (fuel : nat) (r : registers_t) : M st Z :=
  let! v := on_vfs (vfs_lseek fuel (s32 (rdi r)) (rsi r) (s32 (rdx r))) in ret (u64 v).
Definition sys_truncate (fuel : nat) (r : registers_t) : M st Z :=
  let! v := on_vfs (vfs_truncate fuel (s32 (rdi r)) (rsi r)) in ret (u64 v).
Definition sys_unlink (fuel : nat) (r : registers_t) : M st Z :=
  let! path := user_path fuel (rsi r) in
  let! v := on_vfs (vfs_unlink fuel (s32 (rdi r)) path) in ret (u64 v).

(** [stack]: what the unset local directory of the VFS holds. *)
Definition sys_list (fuel : nat) (stack : Z) (r : registers_t) : M st Z :=
  let! path := user_path fuel (rsi r) in
  let! '(v, l) := on_vfs (vfs_listdir fuel stack (s32 (rdi r)) path) in
  on_other (sv_list l) ;;; ret (u64 v).
Definition sys_opendir (fuel : nat) (stack : Z) (r : registers_t) : M st Z :=
  guard (negb (rsi r =? 0)) ;;;
  let! path := user_string fuel (rsi r) in
  on_vfs (vfs_opendir fuel stack (s32 (rdi r)) path).
Definition sys_closedir (r : registers_t) : M st Z :=
  let! v := on_vfs (vfs_closedir (s32 (rdi r)) (rsi r)) in ret (u64 v).
Definition sys_readdir (fuel : nat) (r : registers_t) : M st Z :=
  let! known := gets (fun s => s_info s !! rdx r) in
  let ent := match known with Some (IsoInfo f) => f | _ => Iso9660.mk_file [] 0 0 0 false end in
  let! '(v, i) := on_vfs (vfs_readdir fuel (s32 (rdi r)) (rsi r) (if rdx r =? 0 then None else Some ent)) in
  (match i with Some i => set_info (rdx r) i | None => ret tt end) ;;;
  ret (u64 v).
Definition sys_mkdir (fuel : nat) (r : registers_t) : M st Z :=
  let! path := user_path fuel (rsi r) in
  let! v := on_vfs (vfs_mkdir (s32 (rdi r)) path) in ret (u64 v).

(** The buffer goes through one of 256 bytes of the kernel; [cwd] is the
    string fat32_cwd_path.  A negative length is copied as a huge one. *)
Definition sys_getcwd (cwd : list Z) (r : registers_t) : M st Z :=
  let len := s32 (rdx r) in
  guard (0 <=? len) ;;;
  let n := if len <? MAX_PATH_LEN then len else MAX_PATH_LEN in
  let! l := user_bytes (rsi r) n in
  let kernel_buff := l ++ replicate (Z.to_nat (MAX_PATH_LEN - n)) 0 in
  let! '(v, c) := on_vfs (vfs_getcwd cwd (s32 (rdi r)) len) in
  let c := default [] c in
  guard (zlen c <=? MAX_PATH_LEN) ;;;
  put_bytes (rsi r) (take (Z.to_nat n) (splice 0 c kernel_buff)) ;;;
  ret (u64 v).

(** The copy is not terminated when the path has 256 bytes or more. *)
Definition sys_chdir (fuel : nat) (r : registers_t) : M st Z :=
  guard (negb (rsi r =? 0)) ;;;
  let! path := user_string fuel (rsi r) in
  guard (zlen path <? MAX_PATH_LEN) ;;;
  let! v := on_vfs (vfs_chdir fuel (s32 (rdi r)) (Some path)) in ret (u64 v).

(** ** Dispatch *)

(** The value of rax after a call; [stack] and [cwd] as above. *)
Definition syscall_result (fuel : nat) (stack : Z) (cwd : list Z) (c : int_syscall_number) (r : registers_t) : M st Z :=
  match c with
  | INT_TIME => sys_time r
  | INT_CLOCK_GETTIME => sys_clock_gettime r
  | INT_CLOCK_GETTIMEOFDAY => sys_gettimeofday r
  | INT_TIMES => sys_times r
  | INT_SYSCALL_GET_TIME => sys_get_time r
  | INT_SYSCALL_GET_UP_TIME => sys_get_up_time r
  | INT_SYSCALL_KEYBOARD_READ => sys_keyboard_read fuel r
  | INT_SYSCALL_PUTCHAR => on_other (sv_putc (s8 (rdi r))) ;;; ret 0
  | INT_SYSCALL_PRINT => sys_print r
  | INT_SYSCALL_PRINT_RAX => on_other (sv_print_rax (rax r)) ;;; ret 0
  | INT_SYSCALL_EXIT => ret 0
  | INT_SYSCALL_ALLOC => sys_alloc r
  | INT_SYSCALL_FREE => sys_free r
  | INT_CREATE_PROCESS => sys_create_process r
  | INT_DELETE_PROCESS => sys_delete_process r
  | INT_GET_PROCESS_FROM_PID => sys_get_process_from_pid r
  | INT_GET_CURRENT_PROCESS => sys_get_current_process r
  | INT_CREATE_THREAD => sys_create_thread r
  | INT_DELETE_THREAD => sys_delete_thread r
  | INT_GET_FB_INFO => ret (rax r)
  | INT_VFS_MKFS => sys_mkfs fuel r
  | INT_VFS_INIT => let! v := on_vfs (vfs_init (s32 (rdi r))) in ret (u64 v)
  | INT_SYSCALL_MOUNT => sys_mount r
  | INT_SYSCALL_UNMOUNT => sys_unmount fuel r
  | INT_SYSCALL_OPEN => sys_open fuel r
  | INT_SYSCALL_READ => sys_read fuel r
  | INT_SYSCALL_WRITE => sys_write fuel r
  | INT_SYSCALL_CLOSE => sys_close r
  | INT_SYSCALL_LSEEK => sys_lseek fuel r
  | INT_SYSCALL_TRUNCATE => sys_truncate fuel r
  | INT_SYSCALL_UNLINK => sys_unlink fuel r
  | INT_SYSCALL_LIST => sys_list fuel stack r
  | INT_SYSCALL_OPENDIR => sys_opendir fuel stack r
  | INT_SYSCALL_CLOSEDIR => sys_closedir r
  | INT_SYSCALL_READDIR => sys_readdir fuel r
  | INT_SYSCALL_MKDIR => sys_mkdir fuel r
  | INT_SYSCALL_GETCWD => sys_getcwd cwd r
  | INT_SYSCALL_CHDIR => sys_chdir fuel r
  | INT_SYSCALL_CHDRIVE | INT_SYSCALL_FDISK => ret (u64 (-1))
  | INT_VGA_SETPIXEL => on_other (sv_set_pixel (s32 (rdi r)) (s32 (rsi r)) (u32 (rdx r))) ;;; ret (rax r)
  | INT_VGA_GETPIXEL => on_other (sv_get_pixel (s32 (rdi r)) (s32 (rsi r)))
  | INT_VGA_CLEAR => on_other (sv_cls_color (u32 (rdi r))) ;;; ret 0
  | INT_VGA_DISPLAY_IMAGE =>
      on_other (sv_display_image (s32 (rdi r)) (s32 (rsi r)) (rdx r) (s32 (r10 r)) (s32 (r8 r))) ;;; ret 0
  | INT_VGA_DISPLAY_TRANSPARENT_IMAGE =>
      on_other (sv_draw_image_with_transparency (s32 (rdi r)) (s32 (rsi r)) (rdx r) (s32 (r10 r)) (s32 (r8 r))) ;;; ret 0
  | INT_ACPI_POWEROFF => on_other sv_acpi_poweroff ;;; ret 0
  | INT_ACPI_REBOOT => on_other sv_acpi_reboot ;;; ret 0
  | INT_SYSCALL_SERIAL_PRINT => sys_serial_print r
  end.

Definition int_systemcall_handler (fuel : nat) (stack : Z) (cwd : list Z) (regs : registers_t) : M st registers_t :=
  if negb (int_no regs =? 128) then ret regs else
  match syscall_of (rax regs) with
  | Some c => let! v := syscall_result fuel stack cwd c regs in ret (with_rax v regs)
  | None => ret (with_rax (u64 (-1)) regs)
  end.
End syscalls.

(** The handler is installed for interrupt request 96, interrupt 128; [h]
    names it. *)
Definition int_syscall_init {S Hd : Type} (h : Hd) : M (irq_state S Hd) unit := irq_install 96 h.

(** ** The syscall instruction *)
Module Msr.

Definition MSR_EFER : Z := 0xC0000080.
Definition MSR_STAR : Z := 0xC0000081.
Definition MSR_LSTAR : Z := 0xC0000082.
Definition MSR_SFMASK : Z := 0xC0000084.
Definition MSR_FS_BASE : Z := 0xC0000100.
Definition MSR_GS_BASE : Z := 0xC0000101.
Definition MSR_KERNEL_GS_BASE : Z := 0xC0000102.
Definition EFER_SCE : Z := 1.
Definition USER_CS : Z := 0x1B.
Definition KERNEL_CS : Z := 0x08.

(** A model-specific register is two halves, edx and eax. *)
Abbreviation msrs := (Z -> Z * Z).
Definition read_msr (msr : Z) : M msrs Z := gets (fun m => Z.lor (u64 (Z.shiftl (m msr).1 32)) (m msr).2).
Definition write_msr (msr value : Z) : M msrs unit :=
  modify (fun m x => if x =? msr then (u32 (Z.shiftr value 32), Z.land value 0xFFFFFFFF) else m x).

(** [cpu_data] is the address of the processor's entry of cpu_datas, [entry]
    that of syscall_entry. *)
Definition init_syscall (cpu_data entry : Z) : M msrs unit :=
  write_msr MSR_FS_BASE 0 ;;;
  write_msr MSR_GS_BASE 0 ;;;
  write_msr MSR_KERNEL_GS_BASE cpu_data ;;;
  let! efer := read_msr MSR_EFER in
  write_msr MSR_EFER (Z.lor efer EFER_SCE) ;;;
  write_msr MSR_STAR (Z.lor (u64 (Z.shiftl USER_CS 48)) (u64 (Z.shiftl KERNEL_CS 32))) ;;;
  write_msr MSR_LSTAR entry ;;;
  write_msr MSR_SFMASK 0.

Inductive message := PrintCalled | ExitRequested | UnknownSyscall (n : Z).

(** What the handler prints: every case goes on with the next one. *)
Definition syscall_handler (syscall_num : Z) : list message :=
  let default := [UnknownSyscall (s32 syscall_num)] in
  let exit := ExitRequested :: default in
  match syscall_num with
  | 1 => PrintCalled :: exit
  | 2 | 3 => exit
  | _ => default
  end.
End Msr.
