(* ===== verification/SyscallProps.v ===== *)
(** System calls: the numbers select the cases, what is written to a file is
    read back through the three calls, and the line the keyboard call stores is
    the one the typed keys edit. *)
From S2P Require Import Prelude Ahci AhciProps Disk BlockDev FatBpb FatCluster FatMount FatDir FatFile FatChainProps FatFileProps Iso9660 Irq RingBuffer Vfs VfsProps Syscall.

Lemma syscall_of_number c : syscall_of (number c) = Some c.
Proof. by destruct c. Qed.

Section props.
Context {E : Type} {D : BlockDev E} {L : BlockDevLaws E} {Md : Media E} {X : Type} {Sv : Services X} {Ar : Around}.
Abbreviation st := (sys E X).

(** The handler at a call's number. *)
Lemma syscall_handler_spec fuel stack cwd c r (Q : registers_t -> st -> Prop) s : int_no r = 128 -> rax r = number c ->
  wp (syscall_result fuel stack cwd c r) (fun v s' => Q (with_rax v r) s') s ->
  wp (int_systemcall_handler fuel stack cwd r) Q s.
Proof.
  intros Hi Hn Hw. unfold int_systemcall_handler. rewrite Hi, Hn, syscall_of_number. cbn [negb Z.eqb Pos.eqb].
  apply wp_bind. eapply wp_mono; [exact Hw|]. intros v s' HQ. by apply wp_ret.
Qed.

Lemma on_vfs_spec {A} (m : M (vfs_state E) A) (s : st) (Q : A -> st -> Prop) :
  wp m (fun a v => Q a (mk_sys v (s_mem s) (s_kbd s) (s_in s) (s_info s) (s_other s))) (s_vfs s) -> wp (on_vfs m) Q s.
Proof. unfold wp, on_vfs. destruct (m (s_vfs s)) as [[a f]| | |]; done. Qed.

(** Other interrupts change nothing, and a number without a case returns -1. *)
Lemma handler_other fuel stack cwd r (s : st) : int_no r <> 128 -> int_systemcall_handler fuel stack cwd r s = Ret (r, s).
Proof. intros H. unfold int_systemcall_handler. by rewrite (proj2 (Z.eqb_neq _ _) H). Qed.

Lemma handler_unknown fuel stack cwd r (s : st) : int_no r = 128 -> syscall_of (rax r) = None ->
  int_systemcall_handler fuel stack cwd r s = Ret (with_rax (u64 (-1)) r, s).
Proof. intros H Hn. unfold int_systemcall_handler. by rewrite H, Hn. Qed.

(** ** Files *)

Lemma user_buffer_spec a n (s : st) (Q : option (list Z) -> st -> Prop) : a <> 0 -> 0 <= n ->
  Q (Some (ld_bytes a n (s_mem s))) s -> wp (user_buffer a n) Q s.
Proof. intros Ha Hn HQ. unfold user_buffer. by rewrite (proj2 (Z.eqb_neq a 0)), Z.max_r by lia. Qed.

Definition file_call_regs (c : int_syscall_number) (d h a n : Z) : registers_t := mk_regs 128 (number c) d h a n 0.

(** The calls that write [n] bytes at [src] to an open file, seek back and
    read them to [dst], each after the one before. *)
Lemma file_syscalls_spec (s : st) d h fp b fat data l src dst n fuel stack cwd :
  fat_disk (s_vfs s) d -> 0 <= d < 2147483648 -> v_heap (s_vfs s) !! h = Some (FatFileObj fp) -> h <> 0 ->
  vol_rep (v_fat (s_vfs s)) b fat data -> 2 <= fat32_free_cluster_no (v_fat (s_vfs s)) -> write_start b fat fp l ->
  0 <= pos fp <= zlen l * csize b -> pos fp < 2147483648 -> 0 <= FatFile.size fp <= zlen l * csize b ->
  FatFile.size fp < 4294967296 -> 0 < n < 2147483648 -> byte_ram (s_mem s) -> src <> 0 -> dst <> 0 ->
  extra b l (pos fp + n) <= zlen (free_list b fat (fat32_free_cluster_no (v_fat (s_vfs s)))) ->
  rounds b (pos fp + n) + zlen l + 1 < Z.of_nat fuel ->
  let call c a n := int_systemcall_handler fuel stack cwd (file_call_regs c d h a n) in
  wp (call INT_SYSCALL_WRITE src n) (fun r1 s1 => rax r1 = 0 /\
    wp (call INT_SYSCALL_LSEEK (pos fp) 0) (fun r2 s2 => rax r2 = 0 /\
      wp (call INT_SYSCALL_READ dst n) (fun r3 s' => rax r3 = 0 /\
        ld_bytes dst n (s_mem s') = ld_bytes src n (s_mem s) /\
        (forall x, x < dst \/ dst + n <= x -> s_mem s' x = s_mem s x) /\ s_kbd s' = s_kbd s /\
        v_disks (s_vfs s') = v_disks (s_vfs s) /\
        (forall h', h' <> h -> v_heap (s_vfs s') !! h' = v_heap (s_vfs s) !! h') /\
        exists fp', v_heap (s_vfs s') !! h = Some (FatFileObj fp') /\
          file_written b fat data fp l (ld_bytes src n (s_mem s)) (v_fat (s_vfs s')) fp') s2) s1) s.
Proof.
  intros Hd Hdr Hh H0 Hr Hfree Hst Hp Hp31 Hsz Hs32 Hn Hm Hsrc Hdst Hex Hfu call. unfold call; clear call.
  assert (Hlen : forall a, zlen (ld_bytes a n (s_mem s)) = n) by (intros; rewrite ld_bytes_length; lia).
  pose proof (file_calls_spec (s_vfs s) d h fp b fat data l (ld_bytes src n (s_mem s)) (ld_bytes dst n (s_mem s)) n fuel)
    as Hspec.
  apply syscall_handler_spec with (c := INT_SYSCALL_WRITE); [done..|]. cbn [syscall_result]. unfold sys_write, file_call_regs.
  cbn [rdi rsi rdx r10]. rewrite !(s32_small n), (s32_small d) by lia.
  rewrite (proj2 (Z.eqb_neq src 0)), (proj2 (Z.leb_gt n 0)) by lia. cbn [orb].
  apply wp_bind, user_buffer_spec; [lia..|]. apply wp_bind, on_vfs_spec.
  eapply wp_mono; [apply Hspec; first [done | rewrite ?Hlen; lia | by apply ld_bytes_byte]|].
  intros r1 v1 [-> H1]. wp_steps. split; [done|].
  apply syscall_handler_spec with (c := INT_SYSCALL_LSEEK); [done..|]. cbn [syscall_result]. unfold sys_lseek.
  cbn [rdi rsi rdx r10]. rewrite (s32_small (pos fp)), (s32_small d) by lia.
  apply wp_bind, on_vfs_spec. eapply wp_mono; [exact H1|]. intros r2 v2 [-> H2]. wp_steps. split; [done|].
  apply syscall_handler_spec with (c := INT_SYSCALL_READ); [done..|]. cbn [syscall_result]. unfold sys_read. cbn [rdi rsi rdx r10].
  rewrite !(s32_small n), (s32_small d) by lia.
  apply wp_bind, user_buffer_spec; [lia..|]. apply wp_bind, on_vfs_spec.
  cbn [s_vfs s_mem]. eapply wp_mono; [exact H2|]. intros r3 v3 (-> & Hdk & Hhp & Hfw). wp_steps.
  apply wp_modify. wp_steps. cbn [s_vfs s_mem s_kbd]. rewrite take_ge in Hfw |- * by (specialize (Hlen src); lia).
  split_and!; [done | | | done..].
  - rewrite <- (Hlen src) at 1. apply ld_st_same.
  - intros x Hx. apply st_bytes_out. by rewrite Hlen.
Qed.

(** ** The keyboard *)
Import RingBuffer.

(** What the caller can type: the printable characters but the two whose
    codes are the scan codes of the shift keys. *)
Definition typed (c : Z) : bool := (32 <=? c) && (c <=? 126) && negb (c =? 54) && negb (c =? 42).

(** The line a sequence of keys edits in a buffer with room for [room]
    characters, and the keys left over; [None] when more keys are needed. *)
Fixpoint edit_line (room : Z) (line keys : list Z) : option (list Z * list Z) :=
  if zlen line <? room then
    match keys with
    | [] => None
    | c :: keys =>
        if (c =? 10) || (c =? 13) then Some (line, keys)
        else if c =? 8 then edit_line room (take (length line - 1) line) keys
        else if typed c then edit_line room (line ++ [c]) keys
        else edit_line room line keys
    end
  else Some (line, keys).

(** The keys in the ring buffer and those the keyboard will deliver. *)
Definition keys_of (r : ring_buffer_t) (b : list Z) (i : list (list Z)) : list Z := rb_abs r b ++ concat i.

(** A state with the ring buffer [r], whose storage is [b], and what each wait
    delivers fits it. *)
Definition kbd_ok (s : st) (r : ring_buffer_t) (b : list Z) : Prop :=
  s_kbd s = Some r /\ rb_wf r b /\ Forall (fun l => Forall byte l /\ zlen l <= RingBuffer.max r) (s_in s).

Lemma push_all r b l : rb_wf r b -> Forall byte l -> rb_count r + zlen l <= RingBuffer.max r ->
  exists r' b', foldl (fun o c => obind o (fun b => ring_buffer_push b c)) (Ret (Some r)) l = Ret (Some r') /\
    rb_wf r' b' /\ RingBuffer.max r' = RingBuffer.max r /\ rb_abs r' b' = rb_abs r b ++ l.
Proof.
  revert r b. induction l as [|c l IH]; intros r b Hwf Hby Hle.
  - exists r, b. by rewrite app_nil_r.
  - apply Forall_cons in Hby as [Hc Hby]. cbn [length] in Hle. pose proof (rb_count_range _ _ Hwf).
    cbn [foldl obind]. rewrite (ring_buffer_push_eq _ _ _ Hwf).
    assert (Hf : full r = false) by (rewrite (full_count _ _ Hwf); apply Z.eqb_neq; lia).
    destruct (IH _ _ (pushed_wf r b c Hwf) Hby) as (r' & b' & Hr & Hwf' & Hm & Ha).
    { rewrite (pushed_count _ _ _ Hwf), Hf. cbn. lia. }
    exists r', b'. split_and!; [done..|]. rewrite Ha, (pushed_abs _ _ _ Hwf), Hf, <- app_assoc.
    by rewrite u8_small by (unfold byte in Hc; lia).
Qed.

(** The states that differ from [s] by the keys taken. *)
Definition same_but_keys (s s' : st) : Prop :=
  s_mem s' = s_mem s /\ s_vfs s' = s_vfs s /\ s_info s' = s_info s /\ s_other s' = s_other s.

(** A wait ends with a key in the buffer. *)
Lemma wait_for_key_spec fuel (s : st) r b : kbd_ok s r b -> keys_of r b (s_in s) <> [] -> (length (s_in s) < fuel)%nat ->
  wp (wait_for_key fuel) (fun _ s' => same_but_keys s s' /\ (length (s_in s') <= length (s_in s))%nat /\
    exists r' b', kbd_ok s' r' b' /\ rb_count r' <> 0 /\ keys_of r' b' (s_in s') = keys_of r b (s_in s)) s.
Proof.
  intros Hk Hne Hfu. unfold wait_for_key.
  apply (wp_iter (fun _ s1 => same_but_keys s s1 /\ (length (s_in s1) <= length (s_in s))%nat /\
    exists r' b', kbd_ok s1 r' b' /\ keys_of r' b' (s_in s1) = keys_of r b (s_in s))
    (fun _ s1 => length (s_in s1))); [| by split_and!; [| |exists r, b] | done].
  clear Hk Hfu. intros [] s1 (Hsame & Hlen & r1 & b1 & (Hkb & Hwf & Hin) & Hkeys). apply wp_bind, wp_gets.
  rewrite Hkb, (empty_count _ _ Hwf). case_if.
  - assert (Habs : rb_abs r1 b1 = []).
    { pose proof (length_rb_abs _ _ Hwf). destruct (rb_abs r1 b1); [done | cbn [length] in *; lia]. }
    apply wp_bind. unfold hlt. apply wp_bind, wp_gets. destruct (s_in s1) as [|l rest] eqn:Hi.
    { exfalso. apply Hne. rewrite <- Hkeys. unfold keys_of. by rewrite Habs. }
    apply Forall_cons in Hin as [[Hby Hl] Hin].
    destruct (push_all r1 b1 l Hwf Hby) as (r2 & b2 & Hf & Hwf2 & Hm & Ha); [lia|].
    apply wp_bind, wp_gets, wp_bind. rewrite Hkb, Hf. apply wp_lift, wp_modify, wp_ret. cbn [s_in].
    cbn [length] in *. split; [|lia]. split_and!; [exact Hsame | lia |].
    exists r2, b2. split; [|unfold keys_of in *; rewrite <- Hkeys, Ha, Habs; by rewrite !app_nil_l].
    split_and!; [done.. | cbn; by rewrite Hm].
  - apply wp_ret. split_and!; [done..|]. by exists r1, b1.
Qed.

(** One key taken: the state after the key [c] that was first. *)
Lemma take_key_spec fuel (s : st) r b c rest {A} (k : Z -> M st A) (Q : A -> st -> Prop) :
  kbd_ok s r b -> keys_of r b (s_in s) = c :: rest -> (length (s_in s) < fuel)%nat ->
  (forall s' r' b', same_but_keys s s' -> (length (s_in s') <= length (s_in s))%nat -> kbd_ok s' r' b' ->
     keys_of r' b' (s_in s') = rest -> wp (k c) Q s') ->
  forall dflt, wp (wait_for_key fuel ;;; let! b := gets s_kbd in let! '(r, ch, b) := lift (ring_buffer_pop b true) in
    set_kbd b ;;; match ch with Some ch => if r =? 0 then k ch else dflt | None => dflt end) Q s.
Proof.
  intros Hk Hkeys Hfu HQ dflt. apply wp_bind.
  eapply wp_mono; [apply (wait_for_key_spec fuel s r b); [done | by rewrite Hkeys | done]|].
  intros [] s1 (Hsame & Hlen & r1 & b1 & (Hkb & Hwf & Hin) & Hc & Heq). apply wp_bind, wp_gets, wp_bind.
  rewrite Hkb, (ring_buffer_pop_eq _ _ Hwf), (proj2 (Z.eqb_neq _ _) Hc). apply wp_lift, wp_bind, wp_modify.
  rewrite Hkeys in Heq. unfold keys_of in Heq. rewrite (popped_abs _ _ Hwf Hc) in Heq. cbn [app] in Heq. injection Heq as -> Hrest.
  change (0 =? 0) with true. cbn iota. apply (HQ _ (popped r1) b1); [exact Hsame | done | | exact Hrest].
  split_and!; [done | by apply popped_wf | done].
Qed.

(** The loop with [line] stored at the caller's buffer, [keys] still to come
    and the memory outside the buffer as in [s]. *)
Definition reading (buf size : Z) (s : st) (line keys : list Z) (s1 : st) : Prop :=
  zlen line <= size - 1 /\ ld_bytes buf (zlen line) (s_mem s1) = line /\
  (forall x, x < buf \/ buf + size <= x -> s_mem s1 x = s_mem s x) /\
  s_vfs s1 = s_vfs s /\ s_info s1 = s_info s /\ s_other s1 = s_other s /\
  (length (s_in s1) <= length (s_in s))%nat /\
  exists r b, kbd_ok s1 r b /\ keys_of r b (s_in s1) = keys.

Lemma reading_keys buf size s line c keys s1 s2 r b : reading buf size s line (c :: keys) s1 ->
  same_but_keys s1 s2 -> (length (s_in s2) <= length (s_in s1))%nat -> kbd_ok s2 r b -> keys_of r b (s_in s2) = keys ->
  reading buf size s line keys s2.
Proof.
  intros (Hl & Hld & Hout & Hv & Hi & Ho & Hin & _) (Em & Ev & Ei & Eo) Hlen Hk Hkeys. unfold reading.
  rewrite Em, Ev, Ei, Eo. split_and!; try done; [lia | by exists r, b].
Qed.

(** A character stored after the line. *)
Lemma reading_store buf size s line c keys s1 : reading buf size s line keys s1 -> zlen line < size - 1 ->
  0 < buf -> buf + size < 18446744073709551616 ->
  reading buf size s (line ++ [c]) keys (mk_sys (s_vfs s1) (st_bytes (u64 (buf + zlen line)) [c] (s_mem s1)) (s_kbd s1) (s_in s1)
    (s_info s1) (s_other s1)).
Proof.
  intros (Hl & Hld & Hout & Hv & Hi & Ho & Hin & Hk) Hlt Hb Hs. rewrite u64_small by lia. unfold reading.
  rewrite length_app. cbn [length s_mem s_vfs s_info s_other s_in]. split_and!; try done; [lia | |].
  - rewrite Nat2Z.inj_add, ld_bytes_app, ld_st_disjoint, Hld by (cbn; lia). f_equal. apply (ld_st_same _ [c]).
  - intros x Hx. rewrite st_bytes_out by (cbn; lia). by apply Hout.
Qed.

(** A backspace. *)
Lemma reading_back buf size s line keys s1 : reading buf size s line keys s1 ->
  reading buf size s (take (length line - 1) line) keys s1.
Proof.
  intros (Hl & Hld & Hout & Hv & Hi & Ho & Hin & Hk).
  assert (Ht : zlen (take (length line - 1) line) = Z.max 0 (zlen line - 1)) by (rewrite length_take; lia).
  unfold reading. rewrite Ht. split_and!; try done; [lia|].
  destruct line as [|c line]; [done|]. rewrite Z.max_r by (cbn; lia).
  set (k := zlen (c :: line)) in *. replace k with (k - 1 + 1) in Hld by lia.
  rewrite ld_bytes_app in Hld by (unfold k; cbn; lia). rewrite <- Hld.
  rewrite take_app_length'; [done|]. rewrite length_app, !ld_bytes_length; lia || (unfold k; cbn; lia).
Qed.

(** The key [c] does to the count of characters what it does to the line. *)
Lemma accept_key_spec buf size s line c keys out s1 (Q : Z + Z -> st -> Prop) : zlen line < size - 1 -> 0 < buf ->
  buf + size < 18446744073709551616 -> edit_line (size - 1) line (c :: keys) = Some out -> reading buf size s line keys s1 ->
  (out = (line, keys) -> Q (inr (zlen line)) s1) ->
  (forall line' s', edit_line (size - 1) line' keys = Some out -> reading buf size s line' keys s' -> Q (inl (zlen line')) s') ->
  wp (accept_key buf (zlen line) c) Q s1.
Proof.
  intros Hlt Hb Hs He Hrd Hend Hnext. cbn [edit_line] in He. rewrite (proj2 (Z.ltb_lt _ _) Hlt) in He.
  unfold accept_key. destruct (_ || _); [apply wp_ret, Hend; congruence|].
  case_if.
  { apply wp_ret. specialize (Hnext _ s1 He (reading_back _ _ _ _ _ _ Hrd)). rewrite length_take in Hnext.
    replace (if 0 <? zlen line then zlen line - 1 else zlen line) with (Z.of_nat ((length line - 1) `min` length line)); [done|].
    case_if; lia. }
  unfold typed in He. rewrite (Z.leb_antisym c 32), (Z.leb_antisym 126 c) in He.
  destruct (Z.ltb_spec c 32), (Z.ltb_spec 126 c); cbn [negb andb orb] in He |- *; try (by apply wp_ret, Hnext).
  rewrite (proj2 (Z.eqb_neq c 0x1D)), (proj2 (Z.eqb_neq c 0xFFFFFFFF)) by lia.
  destruct (c =? 54), (c =? 42); cbn [negb andb] in He |- *; try (by apply wp_ret, Hnext).
  apply wp_bind, wp_modify, wp_ret. replace (zlen line + 1) with (zlen (line ++ [c])) by (rewrite length_app; cbn; lia).
  apply Hnext; [done|]. by apply reading_store.
Qed.

Lemma read_keys_spec buf size s line rest fuel r b : 0 < buf -> 0 < size -> buf + size < 18446744073709551616 ->
  kbd_ok s r b -> edit_line (size - 1) [] (keys_of r b (s_in s)) = Some (line, rest) ->
  (length (keys_of r b (s_in s)) < fuel)%nat -> (length (s_in s) < fuel)%nat ->
  wp (read_keys fuel buf size) (fun n s' => n = zlen line /\ reading buf size s line rest s') s.
Proof.
  intros Hb H0 Hs Hk He Hfu Hfi. unfold read_keys.
  apply (wp_iter_idx length (fun keys n s1 => exists l, n = zlen l /\ edit_line (size - 1) l keys = Some (line, rest) /\
    reading buf size s l keys s1) _ _ _ (keys_of r b (s_in s)));
    [| exists []; split_and!; [done | done |]; unfold reading; cbn; split_and!; [lia | done.. | by exists r, b] | done].
  clear Hfu He. intros keys n s1 (l & -> & He & Hrd). rewrite u64_small by lia.
  destruct keys as [|c keys].
  - cbn [edit_line] in He. case_if; [done|]. injection He as -> <-. by apply wp_ret.
  - case_if; [|cbn [edit_line] in He; rewrite (proj2 (Z.ltb_ge _ _)) in He by lia; injection He as -> <-; by apply wp_ret].
    pose proof Hrd as (_ & _ & _ & _ & _ & _ & Hin & r1 & b1 & Hk1 & Hkeys).
    apply (take_key_spec fuel s1 r1 b1 c keys); [done | done | lia |]. intros s2 r2 b2 Hsame Hlen Hk2 Hkeys2.
    apply (accept_key_spec buf size s l c keys (line, rest)); [lia.. | done | by eapply reading_keys | |].
    + intros [= -> ->]. split; [done|]. by eapply reading_keys.
    + intros l' s3 He3 Hr3. exists keys. split; [by exists l' | cbn; lia].
Qed.

(** C29 The keyboard call returns when the keys in the ring buffer, followed by
    those that arrive, complete a line or fill the caller's buffer: it stores
    the line those keys edit (a backspace removes the last character, and only
    printable characters other than 6 and * count) with a zero after it,
    returns its length, leaves the keys after the line to the next call, and
    changes no byte outside the caller's buffer.  Each wait's keys fit the ring
    buffer, which is empty when it starts. *)
Theorem keyboard_read_ok (s : st) r b buf size line rest fuel stack cwd : 0 < buf -> 0 < size -> buf + size < 18446744073709551616 ->
  kbd_ok s r b -> edit_line (size - 1) [] (keys_of r b (s_in s)) = Some (line, rest) ->
  (length (keys_of r b (s_in s)) < fuel)%nat -> (length (s_in s) < fuel)%nat ->
  let regs := mk_regs 128 (number INT_SYSCALL_KEYBOARD_READ) buf size 0 0 0 in
  returns (int_systemcall_handler fuel stack cwd regs) s (with_rax (zlen line) regs) (fun s' =>
    ld_bytes buf (zlen line + 1) (s_mem s') = line ++ [0] /\
    (forall x, x < buf \/ buf + size <= x -> s_mem s' x = s_mem s x) /\
    s_vfs s' = s_vfs s /\ s_info s' = s_info s /\ s_other s' = s_other s /\
    exists r' b', kbd_ok s' r' b' /\ keys_of r' b' (s_in s') = rest).
Proof.
  intros Hb H0 Hs Hk He Hfu Hfi regs. apply wp_returns, syscall_handler_spec with (c := INT_SYSCALL_KEYBOARD_READ); [done..|].
  cbn [syscall_result]. unfold sys_keyboard_read, regs. cbn [rdi rsi].
  rewrite (proj2 (Z.eqb_neq buf 0)), (proj2 (Z.eqb_neq size 0)) by lia. cbn [orb].
  apply wp_bind. eapply wp_mono; [by apply (read_keys_spec buf size s line rest fuel r b)|].
  intros n s1 (-> & Hl & Hld & Hout & Hv & Hi & Ho & Hin & Hk1). apply wp_bind, wp_modify, wp_ret.
  rewrite u64_small by lia. cbn [s_mem s_vfs s_info s_other s_in].
  split; [done|]. split_and!; [ | | done.. |].
  - rewrite ld_bytes_app, ld_st_disjoint, Hld by (cbn; lia). f_equal. apply (ld_st_same _ [0]).
  - intros x Hx. rewrite st_bytes_out by (cbn; lia). by apply Hout.
  - destruct Hk1 as (r' & b' & Hk1 & Hks). by exists r', b'.
Qed.

(** ** The case of unmount *)

(** Unmounting goes on as an open: with rsi zero the caller gets 0, the NULL
    of the open, whatever the unmount returned. *)
Theorem unmount_falls_through (s : st) fuel stack cwd d mode v v1 : 0 <= d < 2147483648 ->
  vfs_unmount d (s_vfs s) = Ret (v, v1) ->
  let regs := mk_regs 128 (number INT_SYSCALL_UNMOUNT) d 0 mode 0 0 in
  returns (int_systemcall_handler fuel stack cwd regs) s (with_rax 0 regs) (fun s' => s_vfs s' = v1).
Proof.
  intros Hd Hu regs. apply wp_returns, syscall_handler_spec with (c := INT_SYSCALL_UNMOUNT); [done..|].
  cbn [syscall_result]. unfold sys_unmount, sys_open, user_path, regs. cbn [rdi rsi rdx Z.eqb]. rewrite !(s32_small d) by lia.
  apply wp_bind, on_vfs_spec. unfold wp at 1. rewrite Hu. apply wp_bind, wp_ret, wp_bind, on_vfs_spec. cbn [s_vfs].
  unfold vfs_open. by wp_steps.
Qed.
End props.

(** ** Installation *)

(** After the installation interrupt 128 runs the handler. *)
Lemma int_syscall_init_ok {S Hd : Type} (exec : Hd -> M S unit) eoi outb (h : Hd) (s : irq_state S Hd) :
  zlen (irq_routines s) = TOTAL_IRQ ->
  returns (int_syscall_init h) s tt (fun s' => machine s' = machine s /\
    irq_handler exec true eoi outb 128 s' = (on_machine (exec h) ;;; on_machine eoi) s').
Proof.
  intros Hl. apply wp_returns. unfold int_syscall_init, irq_install, irq_set. wp_steps.
  - rewrite Hl. done.
  - split_and!; [done..|]. unfold irq_handler. unfold bind at 1. cbn [gets obind irq_routines].
    rewrite length_insert, Hl. change (Z.to_nat (128 - 32)) with (Z.to_nat 96). cbn [guard].
    rewrite list_lookup_insert_eq; [done|]. unfold TOTAL_IRQ in Hl. lia.
Qed.

Module MsrProps.
Import Msr.

Lemma read_write_msr msr v (m : msrs) : 0 <= v < 18446744073709551616 ->
  wp (write_msr msr v) (fun _ m' => read_msr msr m' = Ret (v, m') /\ forall x, x <> msr -> m' x = m x) m.
Proof.
  intros Hv. apply wp_modify. split.
  - unfold read_msr, gets. rewrite Z.eqb_refl. cbn [fst snd]. do 2 f_equal.
    assert (Hq : Z.shiftr v 32 = v / 4294967296) by (rewrite Z.shiftr_div_pow2; done || lia).
    assert (Hl : Z.land v 0xFFFFFFFF = v mod 4294967296) by (change 0xFFFFFFFF with (Z.ones 32); by rewrite Z.land_ones).
    assert (0 <= v / 4294967296 < 4294967296) by (split; [apply Z.div_pos; lia | apply Z.div_lt_upper_bound; lia]).
    pose proof (Z.div_mod v 4294967296). pose proof (Z.mod_pos_bound v 4294967296).
    rewrite Hq, Hl, u32_small, Z.shiftl_mul_pow2, u64_small by (lia || (change (2 ^ 32) with 4294967296; lia)).
    rewrite lor_add_disjoint by (change (2 ^ 32) with 4294967296; lia). change (2 ^ 32) with 4294967296. lia.
  - intros x Hx. by rewrite (proj2 (Z.eqb_neq _ _) Hx).
Qed.

(** Whatever its number a call is reported as unknown. *)
Lemma syscall_handler_unknown n : last (syscall_handler n) = Some (UnknownSyscall (s32 n)).
Proof. unfold syscall_handler. repeat case_match; done. Qed.
End MsrProps.

(** ** Examples *)
Module SmallSys.
Import RamDisk SmallVol SmallFile SmallVfs RingBuffer.

(** Services that do nothing. *)
#[global] Instance no_services : Services unit := {
  sv_get_time := ret 0; sv_get_uptime_seconds _ := ret 0; sv_get_core_id := ret 0; sv_putc _ := ret tt; sv_print _ := ret tt;
  sv_print_rax _ := ret tt; sv_list _ := ret tt; sv_serial_print _ := ret tt; sv_uheap_alloc _ _ := ret 0;
  sv_uheap_free _ _ := ret tt; sv_create_process _ := ret 0; sv_delete_process _ := ret tt; sv_get_process_by_pid _ := ret 0;
  sv_get_current_process := ret 0; sv_create_thread _ _ _ _ := ret 0; sv_delete_thread _ := ret tt; sv_set_pixel _ _ _ := ret tt;
  sv_get_pixel _ _ := ret 0; sv_cls_color _ := ret tt; sv_display_image _ _ _ _ _ := ret tt;
  sv_draw_image_with_transparency _ _ _ _ _ := ret tt; sv_acpi_poweroff := ret tt; sv_acpi_reboot := ret tt
}.

(** The file of the example volume, memory whose bytes are their addresses,
    the ring buffer with the key h, and keys that arrive in two waits. *)
Definition kbd : ring_buffer_t := mk_rb (Some [104; 0; 0; 0]) 1 0 4 false.
Definition start : sys RamDisk.ram unit :=
  mk_sys fat_start (fun x => x mod 256) (Some kbd) [[101; 8; 54]; [105; 10; 122]] ∅ tt.

(** h, e, backspace, 6, i, newline: the line is hi, and z is left. *)
Lemma keyboard_read_ok_witness :
  let regs := mk_regs 128 (number INT_SYSCALL_KEYBOARD_READ) 0x2000 16 0 0 0 in
  returns (int_systemcall_handler 9 0 [] regs) start (with_rax 2 regs) (fun s' =>
    ld_bytes 0x2000 3 (s_mem s') = [104; 105; 0] /\
    exists r' b', kbd_ok s' r' b' /\ keys_of r' b' (s_in s') = [122]).
Proof.
  destruct (keyboard_read_ok start kbd [104; 0; 0; 0] 0x2000 16 [104; 105] [122] 9 0 []) as (s' & Hs & Hl & _ & _ & _ & _ & Hk).
  - lia.
  - lia.
  - lia.
  - split_and!; [done | constructor; cbn; done || lia |].
    repeat constructor; unfold byte; cbn; lia.
  - by vm_compute.
  - vm_compute. lia.
  - vm_compute. lia.
  - exact (ex_intro _ s' (conj Hs (conj Hl Hk))).
Defined.

(** There is no disk 7: the unmount fails, the call returns 0. *)
Lemma unmount_falls_through_witness :
  let regs := mk_regs 128 (number INT_SYSCALL_UNMOUNT) 7 0 0 0 0 in
  (exists v1, vfs_unmount 7 (s_vfs start) = Ret (-1, v1)) /\
  returns (int_systemcall_handler 9 0 [] regs) start (with_rax 0 regs) (fun s' => s_vfs s' = s_vfs start).
Proof.
  split; [by eexists|]. apply (unmount_falls_through start 9 0 [] 7 0 (-1)); [lia | done].
Defined.
End SmallSys.
