(* ===== verification/UserLib.v ===== *)
(** The library of user programs (module/libc/src/syscall.c and the memory
    functions of module/libc/src/stdlib.c).

    [system_call] is the interrupt, answered by the handler of Syscall.v on the
    same state; [fuel], [stack] and [cwd] are those of the handler.  Pointers
    are addresses of the memory the program and the kernel share.  Values of
    type int are passed on sign-extended and results of type int are cut to
    32 bits.  Messages are left out. *)
From S2P Require Import Prelude BlockDev Iso9660 Ahci Vfs Syscall.

(** The numbers of module/libc/include/syscall.h. *)
Definition user_number (c : int_syscall_number) : Z :=
  match c with
  | INT_VGA_SETPIXEL => 104 | INT_VGA_GETPIXEL => 105 | INT_VGA_CLEAR => 106 | INT_VGA_DISPLAY_IMAGE => 107
  | INT_VGA_DISPLAY_TRANSPARENT_IMAGE => 108
  | c => number c
  end.

Definition fb0_width : Z := 1200.
Definition fb0_height : Z := 800.
Definition ALLOCATE_DATA : Z := 0x2.

Section user.
Context {E : Type} `{BlockDev E} `{Media E} {X : Type} `{Services X}.
Context (fuel : nat) (stack : Z) (cwd : list Z).
Abbreviation st := (sys E X).

Definition system_call (c : int_syscall_number) (rdi rsi rdx r10 r8 : Z) : M st Z :=
  let! r := int_systemcall_handler fuel stack cwd (mk_regs 128 (user_number c) rdi rsi rdx r10 r8) in
  ret (rax r).
(** A call whose result is an int. *)
Definition int_call (c : int_syscall_number) (rdi rsi rdx r10 r8 : Z) : M st Z :=
  let! r := system_call c rdi rsi rdx r10 r8 in ret (s32 r).

(** ** Time *)

Definition syscall_time (t : Z) : M st Z :=
  let! now := system_call INT_TIME t 0 0 0 0 in
  (if t =? 0 then ret tt else put_bytes t (le_bytes 8 now)) ;;;
  ret now.
Definition syscall_clock_gettime (clk_id tp : Z) : M st Z := int_call INT_CLOCK_GETTIME (u64 clk_id) tp 0 0 0.
Definition syscall_gettimeofday (tv tz : Z) : M st Z := int_call INT_CLOCK_GETTIMEOFDAY tv tz 0 0 0.
Definition syscall_times (buf : Z) : M st Z := system_call INT_TIMES buf 0 0 0 0.
Definition syscall_get_uptime : M st Z := system_call INT_SYSCALL_GET_UP_TIME 0 0 0 0 0.

(** ** Keyboard, terminal, heap *)

Definition syscall_keyboard_read (buffer size : Z) : M st Z :=
  if (buffer =? 0) || (size =? 0) then ret (-1) else int_call INT_SYSCALL_KEYBOARD_READ buffer size 0 0 0.
Definition syscall_putc (c : Z) : M st Z := int_call INT_SYSCALL_PUTCHAR (u64 c) 0 0 0 0.
Definition syscall_print (msg len : Z) : M st Z :=
  if (msg =? 0) || (len <=? 0) then ret (-1) else int_call INT_SYSCALL_PRINT msg (u64 len) 0 0 0.
Definition syscall_exit : M st Z := int_call INT_SYSCALL_EXIT 0 0 0 0 0.
Definition syscall_print_rax : M st Z := int_call INT_SYSCALL_PRINT_RAX 0 0 0 0 0.

Definition syscall_uheap_alloc (size type : Z) : M st Z :=
  if size =? 0 then ret 0 else system_call INT_SYSCALL_ALLOC size type 0 0 0.
Definition syscall_uheap_free (ptr size : Z) : M st Z :=
  if (ptr =? 0) || (size =? 0) then ret (u64 (-1)) else system_call INT_SYSCALL_FREE ptr size 0 0 0.

(** ** Processes and threads *)

Definition syscall_create_process (process_name : Z) : M st Z := system_call INT_CREATE_PROCESS process_name 0 0 0 0.
Definition syscall_delete_process (process : Z) : M st Z := int_call INT_DELETE_PROCESS process 0 0 0 0.
Definition syscall_get_process_from_pid (pid : Z) : M st Z := system_call INT_GET_PROCESS_FROM_PID pid 0 0 0 0.
Definition syscall_get_current_process : M st Z := system_call INT_GET_CURRENT_PROCESS 0 0 0 0 0.
Definition syscall_create_thread (parent thread_name function arg : Z) : M st Z :=
  system_call INT_CREATE_THREAD parent thread_name function arg 0.
Definition syscall_delete_thread (thread : Z) : M st Z := system_call INT_DELETE_THREAD thread 0 0 0 0.

(** ** Files and directories *)

(** The type is passed where the kernel looks for the number of sectors. *)
Definition syscall_vfs_mkfs (pd ld fs_type : Z) : M st Z :=
  if fs_type <? 1 then ret (u64 (-1)) else
  if pd <? 0 then ret (u64 (-1)) else
  system_call INT_VFS_MKFS (u64 pd) (u64 ld) (u64 fs_type) 0 0.
Definition syscall_vfs_init (disk_no : Z) : M st Z := system_call INT_VFS_INIT (u64 disk_no) 0 0 0 0.
Definition syscall_fdisk (disk_no ptbl work : Z) : M st Z :=
  if (disk_no <? 0) || (ptbl =? 0) || (work =? 0) then ret (u64 (-1)) else
  system_call INT_SYSCALL_FDISK (u64 disk_no) ptbl work 0 0.
Definition syscall_mount (pd ld mount_opt : Z) : M st Z := system_call INT_SYSCALL_MOUNT (u64 pd) (u64 ld) (u64 mount_opt) 0 0.
Definition syscall_unmount (pd ld : Z) : M st Z := system_call INT_SYSCALL_UNMOUNT (u64 pd) (u64 ld) 0 0 0.
Definition syscall_open (disk_no path flags : Z) : M st Z :=
  if path =? 0 then ret (u64 (-1)) else system_call INT_SYSCALL_OPEN (u64 disk_no) path flags 0 0.
Definition syscall_close (disk_no file : Z) : M st Z :=
  if file =? 0 then ret (u64 (-1)) else system_call INT_SYSCALL_CLOSE (u64 disk_no) file 0 0 0.
Definition syscall_read (disk_no file buf size : Z) : M st Z :=
  if (file =? 0) || (buf =? 0) || (size =? 0) then ret (u64 (-1)) else
  system_call INT_SYSCALL_READ (u64 disk_no) file buf size 0.
Definition syscall_write (disk_no file buf btw : Z) : M st Z :=
  if (file =? 0) || (buf =? 0) || (btw =? 0) then ret (u64 (-1)) else
  system_call INT_SYSCALL_WRITE (u64 disk_no) file buf btw 0.
Definition syscall_lseek (disk_no file offs : Z) : M st Z :=
  if file =? 0 then ret (u64 (-1)) else system_call INT_SYSCALL_LSEEK (u64 disk_no) file offs 0 0.
(** The path is passed where the kernel takes a handle. *)
Definition syscall_truncate (disk_no path offset : Z) : M st Z :=
  if path =? 0 then ret (u64 (-1)) else system_call INT_SYSCALL_TRUNCATE (u64 disk_no) path offset 0 0.
Definition syscall_unlink (disk_no path : Z) : M st Z :=
  if path =? 0 then ret (u64 (-1)) else system_call INT_SYSCALL_UNLINK (u64 disk_no) path 0 0 0.
Definition syscall_opendir (disk_no path : Z) : M st Z :=
  if path =? 0 then ret (u64 (-1)) else system_call INT_SYSCALL_OPENDIR (u64 disk_no) path 0 0 0.
Definition syscall_closedir (disk_no dir_ptr : Z) : M st Z :=
  if dir_ptr =? 0 then ret (u64 (-1)) else system_call INT_SYSCALL_CLOSEDIR (u64 disk_no) dir_ptr 0 0 0.
(** No place for the entry is passed. *)
Definition syscall_readdir (disk_no dir_ptr : Z) : M st Z :=
  if dir_ptr =? 0 then ret (u64 (-1)) else system_call INT_SYSCALL_READDIR (u64 disk_no) dir_ptr 0 0 0.
Definition syscall_mkdir (disk_no dir_ptr : Z) : M st Z :=
  if dir_ptr =? 0 then ret (u64 (-1)) else system_call INT_SYSCALL_MKDIR (u64 disk_no) dir_ptr 0 0 0.
Definition syscall_list_dir (disk_no path : Z) : M st Z :=
  if path =? 0 then ret (u64 (-1)) else system_call INT_SYSCALL_LIST (u64 disk_no) path 0 0 0.
Definition syscall_getcwd (disk_no buf size : Z) : M st Z :=
  if (buf =? 0) || (size =? 0) then ret (-1) else int_call INT_SYSCALL_GETCWD (u64 disk_no) buf size 0 0.
Definition syscall_chdir (disk_no path : Z) : M st Z :=
  if path =? 0 then ret (-1) else int_call INT_SYSCALL_CHDIR (u64 disk_no) path 0 0 0.
Definition syscall_chdrive (disk_no path : Z) : M st Z :=
  if path =? 0 then ret (-1) else int_call INT_SYSCALL_CHDRIVE (u64 disk_no) path 0 0 0.

(** ** Frame buffer and power *)

Definition syscall_set_pixel (x y color : Z) : M st Z :=
  if (fb0_width <? x) && (fb0_height <? y) then ret (-1) else
  let! _ := system_call INT_VGA_SETPIXEL (u64 x) (u64 y) color 0 0 in ret 0.
Definition syscall_get_pixel (x y : Z) : M st Z :=
  if (fb0_width <? x) && (fb0_height <? y) then ret (u32 (-1)) else
  let! r := system_call INT_VGA_GETPIXEL (u64 x) (u64 y) 0 0 0 in ret (u32 r).
Definition syscall_cls_color (color : Z) : M st Z := int_call INT_VGA_CLEAR color 0 0 0 0.

(** No value satisfies the whole condition: the width would be at once not
    positive and not less than that of the screen. *)
Definition bad_image (x y image_data img_width img_height : Z) : bool :=
  (fb0_width <? x) && (fb0_height <? y) && (image_data =? 0) && (img_width <=? 0) && (fb0_width <=? img_width) &&
  (fb0_height <=? img_height) && (img_height <=? 0).
Definition syscall_display_image (x y image_data img_width img_height : Z) : M st Z :=
  if bad_image x y image_data img_width img_height then ret (-1) else
  let! _ := system_call INT_VGA_DISPLAY_IMAGE (u64 x) (u64 y) image_data (u64 img_width) (u64 img_height) in ret 0.
Definition syscall_display_transparent_image (x y image_data img_width img_height : Z) : M st Z :=
  if bad_image x y image_data img_width img_height then ret (-1) else
  let! _ := system_call INT_VGA_DISPLAY_TRANSPARENT_IMAGE (u64 x) (u64 y) image_data (u64 img_width) (u64 img_height) in ret 0.
Definition syscall_acpi_poweroff (color : Z) : M st Z := let! _ := system_call INT_ACPI_POWEROFF 0 0 0 0 0 in ret 0.
Definition syscall_acpi_reboot (color : Z) : M st Z := let! _ := system_call INT_ACPI_REBOOT 0 0 0 0 0 in ret 0.

(** ** Memory *)

Definition malloc (size : Z) : M st Z := if size =? 0 then ret 0 else syscall_uheap_alloc size ALLOCATE_DATA.
(** The size passed is 0, which the call refuses. *)
Definition free (ptr : Z) : M st unit :=
  if ptr =? 0 then ret tt else let! _ := syscall_uheap_free ptr 0 in ret tt.
Definition calloc (nmemb size : Z) : M st Z :=
  let total := u64 (nmemb * size) in
  let! ptr := malloc total in
  (if ptr =? 0 then ret tt
   else let! _ := for_range (R := unit) (Z.to_nat total) 0 (fun i => put_bytes (u64 (ptr + i)) [0] ;;; ret None) in ret tt) ;;;
  ret ptr.
Definition realloc (ptr size : Z) : M st Z :=
  if ptr =? 0 then malloc size else
  if size =? 0 then free ptr ;;; ret 0 else
  let! newptr := malloc size in
  if newptr =? 0 then ret 0 else
  let! _ := for_range (R := unit) (Z.to_nat size) 0 (fun i =>
    let! b := gets (fun s => s_mem s (u64 (ptr + i))) in
    put_bytes (u64 (newptr + i)) [b] ;;; ret None) in
  free ptr ;;; ret newptr.
End user.
