(* ===== verification/UserLibProps.v ===== *)
(** The library of user programs over the kernel: a file written and read
    back through every layer down to the disk, the memory functions, and the
    calls whose numbers the kernel reads as others. *)
From S2P Require Import Prelude Ahci AhciProps Disk BlockDev FatBpb FatCluster FatMount FatDir FatFile FatChainProps FatFileProps Iso9660 RingBuffer Vfs VfsProps Syscall SyscallProps UserLib.

Section props.
Context {E : Type} {D : BlockDev E} {L : BlockDevLaws E} {Md : Media E} {X : Type} {Sv : Services X} {Ar : Around}.
Context (fuel : nat) (stack : Z) (cwd : list Z).
Abbreviation st := (sys E X).

(** A call reaches the handler with its registers. *)
Lemma system_call_spec c a1 a2 a3 a4 a5 (Q : Z -> st -> Prop) s :
  wp (int_systemcall_handler fuel stack cwd (mk_regs 128 (user_number c) a1 a2 a3 a4 a5)) (fun r s' => Q (rax r) s') s ->
  wp (system_call fuel stack cwd c a1 a2 a3 a4 a5) Q s.
Proof. intros Hw. apply wp_bind. eapply wp_mono; [exact Hw|]. intros r s' HQ. by apply wp_ret. Qed.

(** A number the library and the kernel agree on. *)
Lemma system_call_case c a1 a2 a3 a4 a5 (Q : Z -> st -> Prop) s : user_number c = number c ->
  wp (syscall_result fuel stack cwd c (mk_regs 128 (number c) a1 a2 a3 a4 a5)) Q s ->
  wp (system_call fuel stack cwd c a1 a2 a3 a4 a5) Q s.
Proof.
  intros Hn Hw. apply system_call_spec. rewrite Hn. by apply syscall_handler_spec with (c := c).
Qed.

(** C1 A program that writes [n] bytes of its memory at [src] to an open file
    of a FAT disk, seeks back and reads [n] bytes to [dst], with the functions
    of the library, has at [dst] the bytes that were at [src], and each call
    returns 0.  On the disk the bytes are spliced into the contents of the
    file at its position; its chain keeps its clusters and grows by no more
    free ones than needed, its size grows to cover the bytes, and the FAT
    entries and contents of every other cluster, every sector outside the
    volume and every other disk are as they were ([file_written]).  The rest
    of the program's memory, the other handles, the table of disks and the
    keyboard's buffer are as they were. *)
Theorem user_file_roundtrip (s : st) d h fp b fat data l src dst n :
  fat_disk (s_vfs s) d -> 0 <= d < 2147483648 -> v_heap (s_vfs s) !! h = Some (FatFileObj fp) -> h <> 0 ->
  vol_rep (v_fat (s_vfs s)) b fat data -> 2 <= fat32_free_cluster_no (v_fat (s_vfs s)) -> write_start b fat fp l ->
  0 <= pos fp <= zlen l * csize b -> pos fp < 2147483648 -> 0 <= FatFile.size fp <= zlen l * csize b ->
  FatFile.size fp < 4294967296 -> 0 < n < 2147483648 -> byte_ram (s_mem s) -> src <> 0 -> dst <> 0 ->
  extra b l (pos fp + n) <= zlen (free_list b fat (fat32_free_cluster_no (v_fat (s_vfs s)))) ->
  rounds b (pos fp + n) + zlen l + 1 < Z.of_nat fuel ->
  wp (let! r1 := syscall_write fuel stack cwd d h src n in
      let! r2 := syscall_lseek fuel stack cwd d h (pos fp) in
      let! r3 := syscall_read fuel stack cwd d h dst n in
      ret (r1, r2, r3))
    (fun r s' => r = (0, 0, 0) /\ ld_bytes dst n (s_mem s') = ld_bytes src n (s_mem s) /\
       (forall x, x < dst \/ dst + n <= x -> s_mem s' x = s_mem s x) /\ s_kbd s' = s_kbd s /\
       v_disks (s_vfs s') = v_disks (s_vfs s) /\
       (forall h', h' <> h -> v_heap (s_vfs s') !! h' = v_heap (s_vfs s) !! h') /\
       exists fp', v_heap (s_vfs s') !! h = Some (FatFileObj fp') /\
         file_written b fat data fp l (ld_bytes src n (s_mem s)) (v_fat (s_vfs s')) fp') s.
Proof.
  intros Hd Hdr Hh H0 Hr Hfree Hst Hp Hp31 Hsz Hs32 Hn Hm Hsrc Hdst Hex Hfu.
  pose proof (file_syscalls_spec s d h fp b fat data l src dst n fuel stack cwd Hd Hdr Hh H0 Hr Hfree Hst Hp Hp31 Hsz Hs32
    Hn Hm Hsrc Hdst Hex Hfu) as Hw. cbv zeta in Hw.
  unfold syscall_write, syscall_lseek, syscall_read.
  rewrite (proj2 (Z.eqb_neq h 0)), (proj2 (Z.eqb_neq src 0)), (proj2 (Z.eqb_neq dst 0)), (proj2 (Z.eqb_neq n 0)) by lia.
  cbn [orb]. rewrite (u64_small d) by lia.
  apply wp_bind, system_call_spec. eapply wp_mono; [exact Hw|]. intros r1 s1 [-> H1].
  apply wp_bind, system_call_spec. eapply wp_mono; [exact H1|]. intros r2 s2 [-> H2].
  apply wp_bind, system_call_spec. eapply wp_mono; [exact H2|]. intros r3 s3 [-> H3]. apply wp_ret. by split.
Qed.

(** ** Memory *)

(** What the allocator of the kernel does with the request. *)
Lemma user_malloc_spec size (Q : Z -> st -> Prop) s : 0 < size ->
  wp (on_other (sv_uheap_alloc size ALLOCATE_DATA)) (fun p s' => Q (pointer p) s') s ->
  wp (malloc fuel stack cwd size) Q s.
Proof.
  intros Hs Hw. unfold malloc, syscall_uheap_alloc. rewrite (proj2 (Z.eqb_neq size 0)) by lia.
  apply system_call_case; [done|]. cbn [syscall_result]. unfold sys_alloc. cbn [rdi rsi].
  rewrite (proj2 (Z.eqb_neq size 0)) by lia. change (u8 ALLOCATE_DATA) with ALLOCATE_DATA. cbn [orb Z.ltb Z.compare Pos.compare Pos.compare_cont ALLOCATE_DATA].
  apply wp_bind. eapply wp_mono; [exact Hw|]. intros p s' HQ. by apply wp_ret.
Qed.

(** An allocation the kernel cannot serve is not NULL. *)
Theorem malloc_failure_not_null size (s : st) x : 0 < size -> sv_uheap_alloc size ALLOCATE_DATA (s_other s) = Ret (0, x) ->
  returns (malloc fuel stack cwd size) s 18446744073709551615 (fun s' => s_mem s' = s_mem s).
Proof.
  intros Hs Hx. apply wp_returns, user_malloc_spec; [done|]. unfold wp, on_other. by rewrite Hx.
Qed.

(** Freeing does nothing: no block ever returns to the user heap. *)
Theorem free_does_nothing p (s : st) : free fuel stack cwd p s = Ret (tt, s).
Proof. unfold free, syscall_uheap_free. case_if; [done|]. by rewrite orb_true_r. Qed.

(** The bytes [v 0], ..., [v (k - 1)] stored at [p], nothing else changed. *)
Definition stored_at (p k : Z) (v : Z -> Z) (s s1 : st) : Prop :=
  (forall x, s_mem s1 x = if (p <=? x) && (x <? p + k) then v (x - p) else s_mem s x) /\
  s_vfs s1 = s_vfs s /\ s_kbd s1 = s_kbd s /\ s_in s1 = s_in s /\ s_info s1 = s_info s /\ s_other s1 = s_other s.

Lemma store_loop p n v (byte_of : Z -> M st Z) s : 0 < p -> 0 <= n -> p + n <= 18446744073709551616 ->
  (forall i s1, 0 <= i < n -> stored_at p i v s s1 -> wp (byte_of i) (fun b s2 => b = v i /\ s2 = s1) s1) ->
  wp (for_range (R := unit) (Z.to_nat n) 0 (fun i => let! b := byte_of i in put_bytes (u64 (p + i)) [b] ;;; ret None))
    (fun _ s' => stored_at p n v s s') s.
Proof.
  intros Hp Hn Hpn Hb. apply (wp_for (fun i s1 => stored_at p i v s s1)).
  - intros i s1 Hi H1. apply wp_bind. eapply wp_mono; [apply Hb; [lia | done]|]. intros b s2 [-> ->].
    apply wp_bind, wp_modify, wp_ret. destruct H1 as (Hm & Hr). split; [|exact Hr]. intros x. cbn [s_mem].
    rewrite st_byte, u64_small by lia. rewrite Hm.
    destruct (Z.eqb_spec x (p + i)) as [->|Hne].
    + rewrite (proj2 (Z.leb_le _ _)), (proj2 (Z.ltb_lt _ _)) by lia. cbn. f_equal. lia.
    + destruct (Z.leb_spec p x), (Z.ltb_spec x (p + i)), (Z.ltb_spec x (p + (i + 1))); cbn; try done; lia.
  - intros s1 H1. replace n with (0 + Z.of_nat (Z.to_nat n)) by lia. exact H1.
  - split; [|done]. intros x. destruct (Z.leb_spec p x), (Z.ltb_spec x (p + 0)); cbn; done || lia.
Qed.

Lemma stored_bytes p k v s s1 : stored_at p k v s s1 -> ld_bytes p k (s_mem s1) = v <$> seqZ 0 k.
Proof.
  intros (Hm & _). apply list_eq. intros i. unfold ld_bytes. rewrite !list_lookup_fmap.
  destruct (decide (Z.of_nat i < k)).
  - rewrite !lookup_seqZ_lt by lia. cbn. f_equal. rewrite Hm, (proj2 (Z.leb_le _ _)), (proj2 (Z.ltb_lt _ _)) by lia.
    cbn. f_equal. lia.
  - by rewrite !lookup_seqZ_ge by lia.
Qed.

Lemma stored_outside p k v s s1 x : stored_at p k v s s1 -> x < p \/ p + k <= x -> s_mem s1 x = s_mem s x.
Proof. intros (Hm & _) Hx. rewrite Hm. destruct (Z.leb_spec p x), (Z.ltb_spec x (p + k)); cbn; done || lia. Qed.

(** A block of zeros, at the address the kernel gave. *)
Theorem calloc_ok nmemb size (s : st) p x : let total := nmemb * size in
  0 < total < 18446744073709551616 -> sv_uheap_alloc total ALLOCATE_DATA (s_other s) = Ret (p, x) ->
  0 < p -> p + total <= 18446744073709551616 ->
  returns (calloc fuel stack cwd nmemb size) s p (fun s' =>
    ld_bytes p total (s_mem s') = (fun _ => 0) <$> seqZ 0 total /\
    (forall a, a < p \/ p + total <= a -> s_mem s' a = s_mem s a) /\ s_other s' = x /\ s_vfs s' = s_vfs s).
Proof.
  intros total Ht Hx Hp Hpt. apply wp_returns. unfold calloc. rewrite u64_small by lia. fold total.
  apply wp_bind, user_malloc_spec; [lia|]. unfold wp at 1, on_other. rewrite Hx. cbn [obind].
  unfold pointer. rewrite !(proj2 (Z.eqb_neq p 0)) by lia. apply wp_bind, wp_bind.
  set (s0 := mk_sys _ _ _ _ _ x).
  eapply wp_mono; [apply (store_loop p total (fun _ => 0) (fun _ => ret 0) s0); [lia.. | by intros; apply wp_ret]|].
  cbv beta. intros _ s1 H1. do 2 apply wp_ret. split; [done|]. split_and!; [by apply (stored_bytes _ _ _ _ _ H1) | | apply H1..].
  intros a Ha. by rewrite (stored_outside _ _ _ _ _ _ H1 Ha).
Qed.

(** The new block begins with the bytes of the old one, if they do not
    overlap; [size] bytes are read whatever the old block had. *)
Theorem realloc_ok ptr size (s : st) p x : 0 < size -> 0 < ptr -> ptr + size <= 18446744073709551616 ->
  sv_uheap_alloc size ALLOCATE_DATA (s_other s) = Ret (p, x) -> 0 < p -> p + size <= 18446744073709551616 ->
  (ptr + size <= p \/ p + size <= ptr) ->
  returns (realloc fuel stack cwd ptr size) s p (fun s' =>
    ld_bytes p size (s_mem s') = ld_bytes ptr size (s_mem s) /\
    (forall a, a < p \/ p + size <= a -> s_mem s' a = s_mem s a) /\ s_other s' = x /\ s_vfs s' = s_vfs s).
Proof.
  intros Hs Hq Hqs Hx Hp Hps Hdis. apply wp_returns. unfold realloc.
  rewrite (proj2 (Z.eqb_neq ptr 0)), (proj2 (Z.eqb_neq size 0)) by lia.
  apply wp_bind, user_malloc_spec; [lia|]. unfold wp at 1, on_other. rewrite Hx. cbn [obind].
  unfold pointer. rewrite !(proj2 (Z.eqb_neq p 0)) by lia. set (s0 := mk_sys _ _ _ _ _ x).
  apply wp_bind. eapply wp_mono.
  { apply (store_loop p size (fun i => s_mem s (ptr + i)) (fun i => gets (fun s => s_mem s (u64 (ptr + i)))) s0); [lia..|].
    intros i s1 Hi H1. apply wp_gets. split; [|done]. rewrite u64_small by lia. apply (stored_outside _ _ _ _ _ _ H1). lia. }
  cbv beta. intros _ s1 H1. apply wp_bind. unfold wp at 1. rewrite free_does_nothing. apply wp_ret. split; [done|].
  split_and!; [| | apply H1..].
  - rewrite (stored_bytes _ _ _ _ _ H1). unfold ld_bytes. apply list_eq. intros i. rewrite !list_lookup_fmap.
    destruct (decide (Z.of_nat i < size)); [by rewrite !lookup_seqZ_lt by lia | by rewrite !lookup_seqZ_ge by lia].
  - intros a Ha. by rewrite (stored_outside _ _ _ _ _ _ H1 Ha).
Qed.

(** ** The frame buffer *)

(** The numbers of the drawing calls are those of other calls of the kernel:
    setting a pixel draws nothing, and reading one makes it black. *)
Theorem set_pixel_draws_nothing px py color (s : st) : ((fb0_width <? px) && (fb0_height <? py)) = false ->
  syscall_set_pixel fuel stack cwd px py color s = Ret (0, s).
Proof. intros Hp. unfold syscall_set_pixel. rewrite Hp. reflexivity. Qed.

Theorem get_pixel_draws px py (s : st) x : 0 <= px <= fb0_width -> 0 <= py < 2147483648 ->
  sv_set_pixel px py 0 (s_other s) = Ret (tt, x) ->
  returns (syscall_get_pixel fuel stack cwd px py) s 105 (fun s' => s_other s' = x).
Proof.
  intros Hx Hy Hs. unfold fb0_width in Hx. apply wp_returns. unfold syscall_get_pixel.
  rewrite (proj2 (Z.ltb_ge fb0_width px)) by (unfold fb0_width; lia). cbn [andb].
  apply wp_bind, system_call_spec. change (user_number INT_VGA_GETPIXEL) with (number INT_VGA_SETPIXEL).
  apply syscall_handler_spec with (c := INT_VGA_SETPIXEL); [done..|]. cbn [syscall_result rdi rsi rdx].
  rewrite !u64_small, !s32_small by lia. change (u32 0) with 0. apply wp_bind. unfold wp at 1, on_other. rewrite Hs. cbn [obind].
  apply wp_ret. cbn. split; done.
Qed.
End props.

(** ** Examples *)
Module SmallUser.
Import RamDisk SmallVol SmallFile SmallVfs SmallSys.

Lemma user_file_roundtrip_witness :
  wp (let! r1 := syscall_write 9 0 [] 1 1 0x1000 700 in
      let! r2 := syscall_lseek 9 0 [] 1 1 1000 in
      let! r3 := syscall_read 9 0 [] 1 1 0x1100 700 in
      ret (r1, r2, r3))
    (fun r s' => r = (0, 0, 0) /\ ld_bytes 0x1100 700 (s_mem s') = ld_bytes 0x1000 700 (s_mem start)) start.
Proof.
  eapply wp_mono; [apply (user_file_roundtrip 9 0 [] start 1 1 (fp 1000) b (fat chain354) (data chain354) [3; 5; 4] 0x1000 0x1100 700)
    | cbv beta; tauto].
  - exists disks2, (mk_disk true DISK_TYPE_AHCI_SATA 512 4096 0 0 0 0x1080). by vm_compute.
  - lia.
  - done.
  - done.
  - apply st_rep.
  - simpl. lia.
  - apply fp_start.
  - vm_compute. intuition congruence.
  - simpl. lia.
  - vm_compute. intuition congruence.
  - by vm_compute.
  - lia.
  - intros x. apply Z.mod_pos_bound. lia.
  - done.
  - done.
  - by vm_compute.
  - by vm_compute.
Defined.
End SmallUser.
