(* ===== verification/Shell.v ===== *)
(** The shell of user programs (module/user_program/user_shell.c) over the
    library and the kernel below it.

    The arrays of the functions are at addresses given as parameters ([cwd_buf],
    [buffer], [content], [line], [input]); argv is the list of the addresses of
    the arguments.  [say] prints a message of the shell: text of the user or of
    a file is [Text], fixed messages are [Note].  The main loop does not end:
    [shell_round] is one round of it. *)
From S2P Require Import Prelude CString BlockDev Iso9660 Ahci Vfs Syscall UserLib.

Definition cmd_exit : list Z := [101; 120; 105; 116].
Definition cmd_mount : list Z := [109; 111; 117; 110; 116].
Definition cmd_echo : list Z := [101; 99; 104; 111].
Definition cmd_ls : list Z := [108; 115].
Definition cmd_cd : list Z := [99; 100].
Definition cmd_cwd : list Z := [99; 119; 100].
Definition cmd_cat : list Z := [99; 97; 116].
Definition cmd_mkdir : list Z := [109; 107; 100; 105; 114].
Definition cmd_rm : list Z := [114; 109].
Definition cmd_run : list Z := [114; 117; 110].
Definition cmd_touch : list Z := [116; 111; 117; 99; 104].
Definition cmd_write : list Z := [119; 114; 105; 116; 101].
Definition cmd_edit : list Z := [101; 100; 105; 116].
Definition cmd_append : list Z := [97; 112; 112; 101; 110; 100].
Definition cmd_clear : list Z := [99; 108; 101; 97; 114].
Definition cmd_cls : list Z := [99; 108; 115].
Definition cmd_help : list Z := [104; 101; 108; 112].
Definition cmd_end : list Z := [69; 78; 68].

Definition MAX_INPUT : Z := 256.
Definition MAX_ARGS : Z := 10.
Definition FA_READ : Z := 0x01.
Definition FA_WRITE : Z := 0x02.
Definition FA_OPEN_EXISTING : Z := 0x00.
Definition FA_CREATE_ALWAYS : Z := 0x08.
Definition FA_OPEN_ALWAYS : Z := 0x10.
Definition FA_OPEN_APPEND : Z := 0x30.

Inductive note :=
  | Usage | MountFailed | ChdirFailed | CwdFailed | CannotOpen | Removed | RemoveFailed | RunFailed | CreateFailed
  | Written (n : Z) | WriteFailed | Editing | LineFailed | Finished | Appended (n : Z) | AppendFailed | ClearFailed | Help | Unknown.
Inductive message := Text (l : list Z) | Note (n : note).

(** atoi of the library on the characters of a string: the sum is an int. *)
Fixpoint digits_value (acc : Z) (l : list Z) : outcome Z :=
  match l with
  | c :: l => if isdigit c then let v := acc * 10 + (c - 48) in if v <? 2147483648 then digits_value v l else Undef else Ret acc
  | [] => Ret acc
  end.
Fixpoint skip_blanks (l : list Z) : list Z :=
  match l with c :: r => if (c =? 32) || (c =? 9) || (c =? 10) then skip_blanks r else l | [] => [] end.
Definition atoi_text (l : list Z) : outcome Z :=
  match skip_blanks l with
  | c :: r =>
      if c =? 45 then obind (digits_value 0 r) (fun v => Ret (- v))
      else if c =? 43 then digits_value 0 r
      else digits_value 0 (c :: r)
  | [] => Ret 0
  end.

Section shell.
Context {E : Type} `{BlockDev E} `{Media E} {X : Type} `{Services X}.
Context (fuel : nat) (stack : Z) (cwd : list Z) (user_disk_no : Z).
Abbreviation st := (sys E X).
Context (say : message -> M st unit).

(** ** Strings in memory *)

(** strcpy, strcat and strlen. *)
Definition put_string (dest : Z) (l : list Z) : M st unit := put_bytes dest (l ++ [0]).
Definition append_string (dest : Z) (l : list Z) : M st unit :=
  let! old := user_string fuel dest in put_string (dest + zlen old) l.
(** The argument, which must not be NULL. *)
Definition arg (argv : list Z) (i : nat) : M st Z :=
  match argv !! i with Some a => guard (negb (a =? 0)) ;;; ret a | None => undef end.
Definition arg_text (argv : list Z) (i : nat) : M st (list Z) := let! a := arg argv i in user_string fuel a.
Definition arg_int (argv : list Z) (i : nat) : M st Z := let! l := arg_text argv i in lift (atoi_text l).

(** ** Input *)

Definition print_prompt (cwd_buf : Z) : M st unit :=
  let! res := syscall_getcwd fuel stack cwd user_disk_no cwd_buf 256 in
  if res =? 0 then let! l := user_string fuel cwd_buf in say (Text l) else say (Text []).

(** The result is stored in a size_t: the test for an error never holds, and
    an error would write before the buffer. *)
Definition read_input (buf size : Z) : M st unit :=
  let! r := syscall_keyboard_read fuel stack cwd buf size in
  let len := u64 r in
  put_bytes (u64 (buf + len)) [0] ;;;
  let! last := (if 0 <? len then gets (fun s => s_mem s (u64 (buf + len - 1))) else ret 0) in
  if (0 <? len) && (last =? 10) then put_bytes (u64 (buf + len - 1)) [0] else ret tt.

(** strtok with a space: the next token, and where to go on (0 for the end). *)
Definition skip_while (P : Z -> bool) (p : Z) : M st Z :=
  iter_fuel fuel (fun p =>
    let! c := gets (fun s => s_mem s p) in
    ret (if negb (c =? 0) && P c then inl (p + 1) else inr p)) p.
Definition next_word (next : Z) : M st (option Z * Z) :=
  if next =? 0 then ret (None, 0) else
  let! start := skip_while (fun c => c =? 32) next in
  let! c := gets (fun s => s_mem s start) in
  if c =? 0 then ret (None, 0) else
  let! stop := skip_while (fun c => negb (c =? 32)) start in
  let! c := gets (fun s => s_mem s stop) in
  if c =? 0 then ret (Some start, 0) else
  put_bytes stop [0] ;;; ret (Some start, stop + 1).

(** With ten words or more the terminating NULL falls behind the array. *)
Definition tokenize (input : Z) : M st (list Z) :=
  let! '(t, next) := next_word input in
  let! argv := iter_fuel (S (Z.to_nat MAX_ARGS)) (fun '(t, next, argv) =>
    match t with
    | Some a => if zlen argv <? MAX_ARGS then let! '(t, next) := next_word next in ret (inl (t, next, argv ++ [a])) else ret (inr argv)
    | None => ret (inr argv)
    end) (t, next, []) in
  guard (zlen argv <? MAX_ARGS) ;;;
  ret argv.

(** ** Commands *)

Fixpoint echo_words (n : nat) (i : nat) (argv : list Z) : M st unit :=
  match n with
  | O => ret tt
  | S n => let! l := arg_text argv i in say (Text (l ++ [32])) ;;; echo_words n (S i) argv
  end.

(** The arguments from the third, with spaces between them. *)
Fixpoint join_words (content : Z) (n : nat) (i : nat) (argv : list Z) : M st unit :=
  match n with
  | O => ret tt
  | S n =>
      let! l := arg_text argv i in
      append_string content l ;;;
      (if Z.of_nat i <? zlen argv - 1 then append_string content [32] else ret tt) ;;;
      join_words content n (S i) argv
  end.

Definition do_mount (argv : list Z) : M st unit :=
  if zlen argv <? 3 then say (Note Usage) else
  let! pd := arg_int argv 1 in
  let! ld := arg_int argv 2 in
  let! opt := arg_int argv 3 in
  let! r := syscall_mount fuel stack cwd pd ld opt in
  if r =? 0 then say (Note MountFailed) else ret tt.

Definition do_ls (cwd_buf : Z) (argv : list Z) : M st unit :=
  if zlen argv <? 2 then
    let! r := syscall_getcwd fuel stack cwd user_disk_no cwd_buf 128 in
    if r =? 0 then let! _ := syscall_list_dir fuel stack cwd user_disk_no cwd_buf in ret tt else ret tt
  else let! a := arg argv 1 in let! _ := syscall_list_dir fuel stack cwd user_disk_no a in ret tt.

Definition do_cd (argv : list Z) : M st unit :=
  if zlen argv <? 2 then say (Note Usage) else
  let! path := arg argv 1 in
  let! res := syscall_chdir fuel stack cwd user_disk_no path in
  if res =? 0 then ret tt else say (Note ChdirFailed).

Definition do_cwd (cwd_buf : Z) : M st unit :=
  let! res := syscall_getcwd fuel stack cwd user_disk_no cwd_buf 256 in
  (if res =? 0 then ret tt else say (Note CwdFailed)) ;;;
  let! l := user_string fuel cwd_buf in say (Text l).

(** The text printed is what was read up to the count returned. *)
Definition do_cat (buffer : Z) (argv : list Z) : M st unit :=
  if zlen argv <? 2 then say (Note Usage) else
  let! path := arg argv 1 in
  let! file := syscall_open fuel stack cwd user_disk_no path (Z.lor FA_OPEN_EXISTING FA_READ) in
  if file =? 0 then say (Note CannotOpen) else
  let! read_bytes := syscall_read fuel stack cwd user_disk_no file buffer 255 in
  (if 0 <? read_bytes then
     put_bytes (u64 (buffer + read_bytes)) [0] ;;;
     let! l := user_string fuel buffer in
     say (Text l) ;;;
     let! _ := syscall_read fuel stack cwd user_disk_no file buffer 255 in ret tt
   else ret tt) ;;;
  let! _ := syscall_close fuel stack cwd user_disk_no file in ret tt.

Definition do_rm (argv : list Z) : M st unit :=
  if zlen argv <? 2 then say (Note Usage) else
  let! path := arg argv 1 in
  let! result := syscall_unlink fuel stack cwd user_disk_no path in
  say (Note (if result =? 0 then Removed else RemoveFailed)).

Definition do_touch (argv : list Z) : M st unit :=
  if zlen argv <? 2 then say (Note Usage) else
  let! filename := arg argv 1 in
  let! file := syscall_open fuel stack cwd user_disk_no filename FA_CREATE_ALWAYS in
  if file =? 0 then say (Note CreateFailed) else
  let! _ := syscall_close fuel stack cwd user_disk_no file in ret tt.

(** The write of a string, and its report: [yes] when the result is the
    length. *)
Definition write_text (file content : Z) (yes : Z -> note) (no : note) : M st unit :=
  let! l := user_string fuel content in
  let! n := syscall_write fuel stack cwd user_disk_no file content (zlen l) in
  say (Note (if n =? zlen l then yes n else no)).

Definition do_write (content : Z) (argv : list Z) : M st unit :=
  if zlen argv <? 2 then say (Note Usage) else
  let! path := arg argv 1 in
  let! file := syscall_open fuel stack cwd user_disk_no path (Z.lor FA_CREATE_ALWAYS FA_WRITE) in
  if file =? 0 then say (Note CannotOpen) else
  put_bytes content [0] ;;;
  join_words content (length argv - 2) 2 argv ;;;
  (if zlen argv =? 2 then put_string content [10] else append_string content [10]) ;;;
  write_text file content Written WriteFailed ;;;
  let! _ := syscall_close fuel stack cwd user_disk_no file in ret tt.

Definition do_append (content : Z) (argv : list Z) : M st unit :=
  if zlen argv <? 3 then say (Note Usage) else
  let! path := arg argv 1 in
  let! file := syscall_open fuel stack cwd user_disk_no path (Z.lor FA_OPEN_APPEND FA_WRITE) in
  if file =? 0 then say (Note CannotOpen) else
  put_bytes content [0] ;;;
  join_words content (length argv - 2) 2 argv ;;;
  append_string content [10] ;;;
  write_text file content Appended AppendFailed ;;;
  let! _ := syscall_close fuel stack cwd user_disk_no file in ret tt.

(** The seek goes to 0xFFFFFFFF, not to the end. *)
Definition do_edit (line : Z) (argv : list Z) : M st unit :=
  if zlen argv <? 2 then say (Note Usage) else
  let! path := arg argv 1 in
  let! file := syscall_open fuel stack cwd user_disk_no path (Z.lor FA_OPEN_ALWAYS FA_WRITE) in
  if file =? 0 then say (Note CannotOpen) else
  let! _ := syscall_lseek fuel stack cwd user_disk_no file 0xFFFFFFFF in
  say (Note Editing) ;;;
  iter_fuel fuel (fun _ =>
    put_bytes line (replicate 256 0) ;;;
    read_input line 256 ;;;
    let! l := user_string fuel line in
    if bool_decide (l = cmd_end) then ret (inr tt) else
    append_string line [10] ;;;
    let! l := user_string fuel line in
    let! n := syscall_write fuel stack cwd user_disk_no file line (zlen l) in
    (if n =? zlen l then ret tt else say (Note LineFailed)) ;;;
    ret (inl tt)) tt ;;;
  say (Note Finished) ;;;
  let! _ := syscall_close fuel stack cwd user_disk_no file in ret tt.

Definition handle_command (cwd_buf buffer content line : Z) (argv : list Z) : M st unit :=
  match argv with
  | [] => ret tt
  | _ =>
      let! c := arg_text argv 0 in
      if bool_decide (c = cmd_exit) then let! _ := syscall_exit fuel stack cwd in ret tt
      else if bool_decide (c = cmd_mount) then do_mount argv
      else if bool_decide (c = cmd_echo) then echo_words (length argv - 1) 1 argv ;;; say (Text [10])
      else if bool_decide (c = cmd_ls) then do_ls cwd_buf argv
      else if bool_decide (c = cmd_cd) then do_cd argv
      else if bool_decide (c = cmd_cwd) then do_cwd cwd_buf
      else if bool_decide (c = cmd_cat) then do_cat buffer argv
      else if bool_decide (c = cmd_mkdir) then
        if zlen argv <? 2 then say (Note Usage)
        else let! a := arg argv 1 in let! _ := syscall_mkdir fuel stack cwd user_disk_no a in ret tt
      else if bool_decide (c = cmd_rm) then do_rm argv
      else if bool_decide (c = cmd_run) then
        if zlen argv <? 2 then say (Note Usage)
        else
          let! a := arg argv 1 in
          let! proc := syscall_create_process fuel stack cwd a in
          if proc =? 0 then say (Note RunFailed) else ret tt
      else if bool_decide (c = cmd_touch) then do_touch argv
      else if bool_decide (c = cmd_write) then do_write content argv
      else if bool_decide (c = cmd_edit) then do_edit line argv
      else if bool_decide (c = cmd_append) then do_append content argv
      else if bool_decide (c = cmd_clear) || bool_decide (c = cmd_cls) then
        let! r := syscall_cls_color fuel stack cwd 0xFF000000 in
        if r =? 0 then ret tt else say (Note ClearFailed)
      else if bool_decide (c = cmd_help) then say (Note Help)
      else say (Note Unknown)
  end.

(** One round of start_user_shell. *)
Definition shell_round (cwd_buf buffer content line input : Z) : M st unit :=
  print_prompt cwd_buf ;;;
  put_bytes input (replicate (Z.to_nat MAX_INPUT) 0) ;;;
  read_input input MAX_INPUT ;;;
  let! argv := tokenize input in
  say (Text [10]) ;;;
  handle_command cwd_buf buffer content line argv.
End shell.
