(* ===== verification/ShellProps.v ===== *)
(** The shell on a FAT disk: the kernel's calls return a status where the
    shell expects a count. *)
From S2P Require Import Prelude Ahci AhciProps Disk BlockDev FatBpb FatDir FatFile Iso9660 Vfs VfsProps Syscall SyscallProps UserLib UserLibProps Shell.

Section props.
Context {E : Type} {D : BlockDev E} {L : BlockDevLaws E} {Md : Media E} {X : Type} {Sv : Services X}.
Context (fuel : nat) (stack : Z) (cwd : list Z) (d : Z).
Abbreviation st := (sys E X).

Definition is_status (v : Z) : Prop := v = 0 \/ v = u64 (-1).

Lemma status_ok ok : is_status (u64 (status ok)).
Proof. destruct ok; [by left | by right]. Qed.

(** What a run that returns, returns. *)
Definition gives {S A} (m : M S A) (s : S) (P : A -> Prop) : Prop := forall a s', m s = Ret (a, s') -> P a.

Lemma gives_ret {S A} (a : A) (s : S) P : P a -> gives (ret a) s P.
Proof. intros HP b s' [= <- _]. done. Qed.
Lemma gives_bind {S A B} (m : M S A) (k : A -> M S B) s P : (forall a s', m s = Ret (a, s') -> gives (k a) s' P) -> gives (bind m k) s P.
Proof.
  intros Hk b s' H. unfold bind, obind in H. destruct (m s) as [[a s1]| | |] eqn:Hm; try done. by apply (Hk a s1 eq_refl b s').
Qed.
Lemma gives_on_vfs {A} (m : M (vfs_state E) A) (s : st) P : gives m (s_vfs s) P -> gives (on_vfs m) s P.
Proof. intros Hm a s' H. unfold on_vfs in H. destruct (m _) as [[b v]| | |] eqn:Hr; cbn in H; simplify_eq. by apply (Hm _ _ Hr). Qed.

Lemma gives_vtype (s : vfs_state E) {A} (k : DiskType -> M (vfs_state E) A) P : fat_disk s d ->
  gives (k DISK_TYPE_AHCI_SATA) s P -> gives (bind (vtype d) k) s P.
Proof.
  intros Hf Hk. apply gives_bind. intros t s' Ht.
  pose proof (vtype_fat s d (fun t s' => t = DISK_TYPE_AHCI_SATA /\ s' = s) Hf) as Hw. unfold wp in Hw. rewrite Ht in Hw.
  by destruct Hw as [-> ->].
Qed.

(** Reading and writing a file of a FAT disk return 0 or -1, never a count. *)
Lemma vfs_read_status (s : vfs_state E) h b n : fat_disk s d -> gives (vfs_read fuel d h b n) s (fun r => r.1 = 0 \/ r.1 = -1).
Proof.
  intros Hf. unfold vfs_read. apply gives_vtype; [done|]. destruct b as [b|]; [|by apply gives_ret; right].
  destruct (h =? 0); [by apply gives_ret; right|].
  do 2 (apply gives_bind; intros ? ? _). destruct a0 as [[[ok ?] ?] ?]. apply gives_bind; intros ? ? _. apply gives_ret.
  destruct ok; [by left | by right].
Qed.
Lemma vfs_write_status (s : vfs_state E) h b n : fat_disk s d -> gives (vfs_write fuel d h b n) s (fun r => r = 0 \/ r = -1).
Proof.
  intros Hf. unfold vfs_write. destruct b as [b|]; [|by apply gives_ret; right].
  destruct (_ || _); [by apply gives_ret; right|]. apply gives_vtype; [done|].
  do 2 (apply gives_bind; intros ? ? _). destruct a0 as [[ok ?] ?]. apply gives_bind; intros ? ? _. apply gives_ret.
  destruct ok; [by left | by right].
Qed.

Lemma gives_call c a1 a2 a3 a4 a5 (s : st) P : user_number c = number c ->
  gives (syscall_result fuel stack cwd c (mk_regs 128 (number c) a1 a2 a3 a4 a5)) s P ->
  gives (system_call fuel stack cwd c a1 a2 a3 a4 a5) s P.
Proof.
  intros Hn Hg. unfold system_call. rewrite Hn. unfold int_systemcall_handler. cbn [int_no rax]. rewrite syscall_of_number.
  change (negb (128 =? 128)) with false. cbn iota.
  apply gives_bind. intros r s' H. apply gives_ret.
  unfold bind, obind in H. destruct (syscall_result _ _ _ _ _ _) as [[v s1]| | |] eqn:Hv; try done.
  unfold ret in H. simplify_eq. by apply (Hg _ _ Hv).
Qed.

Lemma user_buffer_state a n (s : st) b s' : user_buffer a n s = Ret (b, s') -> s' = s.
Proof. unfold user_buffer. destruct (a =? 0); intros [= _ <-]; done. Qed.

Lemma syscall_read_status (s : st) h a n : fat_disk (s_vfs s) d -> 0 <= d < 2147483648 ->
  gives (syscall_read fuel stack cwd d h a n) s is_status.
Proof.
  intros Hf Hd. unfold syscall_read. destruct (_ || _); [by apply gives_ret; right|].
  apply gives_call; [done|]. cbn [syscall_result]. unfold sys_read. cbn [rdi rsi rdx r10].
  rewrite (u64_small d), (s32_small d) by lia. apply gives_bind. intros b s1 Hb.
  apply user_buffer_state in Hb as ->.
  apply gives_bind. intros [v b'] s2 Hv.
  destruct (gives_on_vfs _ s _ (vfs_read_status (s_vfs s) h b (s32 n) Hf) _ _ Hv) as [Hr|Hr]; cbn in Hr; subst v;
    (apply gives_bind; intros ? ? _; apply gives_ret); [by left | by right].
Qed.

Lemma syscall_write_status (s : st) h a n : fat_disk (s_vfs s) d -> 0 <= d < 2147483648 ->
  gives (syscall_write fuel stack cwd d h a n) s is_status.
Proof.
  intros Hf Hd. unfold syscall_write. destruct (_ || _); [by apply gives_ret; right|].
  apply gives_call; [done|]. cbn [syscall_result]. unfold sys_write. cbn [rdi rsi rdx r10].
  destruct (_ || _); [by apply gives_ret; right|].
  rewrite (u64_small d), (s32_small d) by lia. apply gives_bind. intros b s1 Hb.
  apply user_buffer_state in Hb as ->.
  apply gives_bind. intros v s2 Hv.
  destruct (gives_on_vfs _ s _ (vfs_write_status (s_vfs s) h b (s32 n) Hf) _ _ Hv) as [-> | ->];
    apply gives_ret; [by left | by right].
Qed.

(** ** The shell *)
Context (say : message -> M st unit).

(** The report of a write is the one of failure, whatever the write did: a
    successful write returns 0. *)
Theorem write_reports_failure (s : st) file content yes no u s' l : fat_disk (s_vfs s) d -> 0 <= d < 2147483648 ->
  user_string fuel content s = Ret (l, s) -> l <> [] -> zlen l < 18446744073709551615 ->
  write_text fuel stack cwd d say file content yes no s = Ret (u, s') ->
  exists n s1, syscall_write fuel stack cwd d file content (zlen l) s = Ret (n, s1) /\ say (Note no) s1 = Ret (u, s').
Proof.
  intros Hf Hd Hl Hne Hlen Hw. unfold write_text, bind, obind in Hw. rewrite Hl in Hw.
  destruct (syscall_write _ _ _ _ _ _ _ _) as [[n s1]| | |] eqn:Hs; try done. exists n, s1. split; [done|].
  assert (Hn : n <> zlen l).
  { destruct (syscall_write_status s file content (zlen l) Hf Hd _ _ Hs) as [-> | ->]; [destruct l; cbn; done || lia|].
    change (u64 (-1)) with 18446744073709551615. lia. }
  by rewrite (proj2 (Z.eqb_neq _ _) Hn) in Hw.
Qed.

(** The contents of a file are never printed: when the read succeeds it
    returns 0 and nothing is said. *)
Theorem cat_is_silent (s : st) buffer argv path h s1 s2 n : 2 <= zlen argv ->
  arg argv 1 s = Ret (path, s) ->
  syscall_open fuel stack cwd d path (Z.lor FA_OPEN_EXISTING FA_READ) s = Ret (h, s1) -> h <> 0 ->
  fat_disk (s_vfs s1) d -> 0 <= d < 2147483648 ->
  syscall_read fuel stack cwd d h buffer 255 s1 = Ret (n, s2) -> n <> u64 (-1) ->
  do_cat fuel stack cwd d say buffer argv s = (let! _ := syscall_close fuel stack cwd d h in ret tt) s2.
Proof.
  intros Ha Hp Ho Hh Hf Hd Hr Hn. unfold do_cat. rewrite (proj2 (Z.ltb_ge _ _)) by lia.
  destruct (syscall_read_status s1 h buffer 255 Hf Hd _ _ Hr) as [-> | ->]; [|done].
  unfold bind at 1. rewrite Hp. cbn [obind]. unfold bind at 1. rewrite Ho. cbn [obind].
  rewrite (proj2 (Z.eqb_neq h 0)) by done. unfold bind at 1. rewrite Hr. done.
Qed.
End props.

(** ** Example *)
Module SmallShell.
Import RamDisk SmallVfs SmallSys.

(** "cat  a.txt ": two words, with zeros after them. *)
Definition typed_line : list Z := [99; 97; 116; 32; 32; 97; 46; 116; 120; 116; 32; 0].
Definition typed_state : sys RamDisk.ram unit :=
  mk_sys fat_start (st_bytes 0x3000 typed_line (fun _ => 0)) None [] ∅ tt.

Example tokenize_two :
  match tokenize 30 0x3000 typed_state with
  | Ret (argv, s') => argv = [0x3000; 0x3005] /\ ld_bytes 0x3000 11 (s_mem s') = [99; 97; 116; 0; 32; 97; 46; 116; 120; 116; 0]
  | _ => False
  end.
Proof. vm_compute. done. Qed.
End SmallShell.
