(* ===== verification/Installer.v ===== *)
(** The installer (kernel/src/installer/installer.c): it erases a disk, makes
    the boot and data partitions and a FAT32 volume, and copies the boot files
    from the optical disk.

    The state is that of the virtual file system (the FAT32 and ISO 9660
    drivers over one device) with the table of partitions of gpt.c.
    [erase_disk] is clear_disk of disk.c over the interface of the block layer:
    Disk.v has it over the AHCI driver.  Values the code reads unset are
    parameters: the names of the partitions, which are never stored, and the
    file handle before f_open. *)
From S2P Require Import Prelude CString Disk BlockDev FatBpb FatMount FatDir FatFile Gpt Iso9660 Vfs.

Definition iso_files : list (list Z) := [
   [47; 66; 79; 79; 84; 47; 75; 69; 82; 78; 69; 76; 46; 66; 73; 78];
   [47; 66; 79; 79; 84; 47; 76; 73; 77; 73; 78; 69; 46; 67; 79; 78];
   [47; 66; 79; 79; 84; 47; 85; 83; 69; 82; 95; 77; 65; 73; 46; 69; 76; 70];
   [47; 69; 70; 73; 47; 66; 79; 79; 84; 47; 66; 79; 79; 84; 88; 54; 52; 46; 69; 70; 73]].
Definition files : list (list Z) := [
   [47; 98; 111; 111; 116; 47; 107; 101; 114; 110; 101; 108; 46; 98; 105; 110];
   [47; 98; 111; 111; 116; 47; 108; 105; 109; 105; 110; 101; 46; 99; 111; 110; 102];
   [47; 98; 111; 111; 116; 47; 117; 115; 101; 114; 95; 109; 97; 105; 110; 46; 101; 108; 102];
   [47; 101; 102; 105; 47; 98; 111; 111; 116; 47; 98; 111; 111; 116; 120; 54; 52; 46; 101; 102; 105]].

Definition ESP_START_LBA : Z := 2048.
Definition FA_WRITE : Z := 0x02.
(** The array of the label, its terminator included. *)
Definition ESP_VOLUME : list Z := [69; 83; 80; 32; 86; 79; 76; 85; 77; 69; 0].
Definition dir_boot : list Z := [47; 98; 111; 111; 116].
Definition dir_efi : list Z := [47; 101; 102; 105].
Definition dir_efi_boot : list Z := [47; 101; 102; 105; 47; 98; 111; 111; 116].

Record partition_t := mk_partition {
  pd_no : Z; ld_no : Z; part_start : Z; part_sectors : Z; part_guid : list Z; part_type_guid : list Z; part_name : list Z
}.

Record inst_state (E : Type) := mk_inst {
  n_vfs : vfs_state E; n_total : Z; n_partitions : option (list PartitionEntry); n_count : Z
}.
Arguments mk_inst {E}.
Arguments n_vfs {E}.
Arguments n_total {E}.
Arguments n_partitions {E}.
Arguments n_count {E}.

Section installer.
Context {E : Type} `{BlockDev E} `{Media E}.
Abbreviation st := (inst_state E).

Definition run_vfs {A} (m : M (vfs_state E) A) : M st A := fun s =>
  obind (m (n_vfs s)) (fun '(a, v) => Ret (a, mk_inst v (n_total s) (n_partitions s) (n_count s))).
Definition run_fat {A} (m : M (fat_state E) A) : M st A := run_vfs (on_fat m).
Definition run_iso {A} (m : M (ist E) A) : M st A := run_vfs (on_iso m).
Definition run_gpt {A} (m : M (part_state E) A) : M st A := fun s =>
  let v := n_vfs s in
  obind (m (mk_ps (v_fat v) (n_total s) (n_partitions s) (n_count s))) (fun '(a, p) =>
    Ret (a, mk_inst (mk_vfs (pfs p) (v_disks v) (v_count v) (v_iso_live v) (v_heap v) (v_next v))
              (total_sectors p) (partitions p) (partition_count p))).

(** A write to a disk that is not the current one of the FAT32 driver. *)
Definition write_disk (disk_no lba count : Z) (buf : list Z) : M (vfs_state E) bool := fun s =>
  let '(r, e) := kebla_disk_write disk_no lba count buf (dev (v_fat s)) in
  Ret (r, mk_vfs (set_dev e (v_fat s)) (v_disks s) (v_count s) (v_iso_live s) (v_heap s) (v_next s)).

Definition erase_disk (disk_no : Z) : M (vfs_state E) Z :=
  let! big := too_big disk_no in
  let! null := no_disks in
  if big || (disk_no <? 0) || null then ret (-1) else
  let! disk := vdisk disk_no in
  let tot := Disk.total_sectors disk in
  if (tot <=? 0) || (bytes_per_sector disk <=? 0) then ret (-1) else
  let! ok := on_fat (fs_malloc (512 * MAX_BATCH_SIZE)) in
  if negb ok then ret (-1) else
  let buffer := replicate (Z.to_nat (512 * MAX_BATCH_SIZE)) 0 in
  let! r := iter_fuel (S (Z.to_nat tot)) (fun lba =>
    if lba <? tot then
      let sectors_to_write := if u64 (lba + MAX_BATCH_SIZE) <=? tot then MAX_BATCH_SIZE else u32 (tot - lba) in
      let! ok := write_disk disk_no lba sectors_to_write buffer in
      if negb ok then ret (inr false) else ret (inl (u64 (lba + MAX_BATCH_SIZE)))
    else ret (inr true)) 0 in
  on_fat fs_free ;;;
  ret (if r then 0 else -1).

Definition format_disk (disk_no : Z) : M st bool :=
  let! r := run_vfs (erase_disk disk_no) in
  ret (r =? 0).

(** [behind] is what lies behind the entries in memory (see Gpt.v). *)
Fixpoint create_partitions (behind : list Z) (partition : list partition_t) : M st bool :=
  match partition with
  | [] => ret true
  | p :: rest =>
      let! ok := run_gpt (create_partition (pd_no p) (part_start p) (part_sectors p) (part_guid p) (part_type_guid p)
                            (c_string (part_name p)) behind) in
      if ok then create_partitions behind rest else ret false
  end.

Fixpoint all_present (fuel : nat) (paths : list (list Z)) : M st bool :=
  match paths with
  | [] => ret true
  | p :: rest =>
      let! r := run_fat (f_stat fuel (Some p)) in
      match r with Some _ => all_present fuel rest | None => ret false end
  end.

(** The third file is looked for twice. *)
Definition verify_installation (fuel : nat) (disk_no start_lba : Z) : M st bool :=
  run_fat (set_disk_number disk_no) ;;;
  let! ok := run_fat (fat32_mount disk_no start_lba ESP_VOLUME) in
  if negb ok then ret false else
  all_present fuel [nth 0 files []; nth 1 files []; nth 2 files []; nth 2 files []; nth 3 files []].

(** The entry of partition [i] of the two on the disk. *)
Definition install_partitions (main_disk_no esp_start_lba esp_sectors total_sectors : Z) (names : list (list Z)) :
    list partition_t :=
  [mk_partition main_disk_no 0 esp_start_lba esp_sectors ESP_GUID ESP_TYPE_GUID (nth 0 names []);
   mk_partition main_disk_no 1 (u64 (esp_start_lba + esp_sectors))
     (u64 (u64 (total_sectors - u64 (2 * esp_start_lba)) - esp_sectors)) DATA_PARTITION_GUID LINUX_FS_GUID (nth 1 names [])].

(** The handle of the optical file is not closed when the copy succeeds. *)
Definition copy_file (fuel : nat) (fp0 : FAT32_FILE) (boot_disk_no : Z) (src dst : list Z) : M st bool :=
  let! '(r, _) := run_iso (iso9660_stat boot_disk_no src) in
  if negb (r =? 0) then ret false else
  let! iso_file := run_iso (iso9660_open boot_disk_no src) in
  match iso_file with
  | None => let! _ := run_iso (iso9660_close None) in ret false
  | Some _ =>
      let fsize := u32 (iso9660_get_fsize iso_file) in
      if fsize <=? 0 then let! _ := run_iso (iso9660_close iso_file) in ret false else
      let! ok := run_fat (fs_malloc fsize) in
      if negb ok then ret false else
      let! '(iso_read_bytes, data) := run_iso (iso9660_read iso_file true (s32 fsize)) in
      guard (zlen data <=? fsize) ;;;
      let buf := splice 0 data (replicate (Z.to_nat fsize) 0) in
      if iso_read_bytes <=? 0 then let! _ := run_iso (iso9660_close iso_file) in run_fat fs_free ;;; ret false else
      let! '(ok, fp) := run_fat (f_open fuel fp0 (Some dst) (Z.lor FA_CREATE_ALWAYS FA_WRITE)) in
      if negb ok then ret false else
      let! '(ok, _, fp) := run_fat (f_write fuel fp buf fsize) in
      if negb ok then ret false else
      let! '(ok, _) := run_fat (f_close fp) in
      if negb ok then ret false else
      run_fat fs_free ;;; ret true
  end.

Fixpoint copy_files (fuel : nat) (fp0 : FAT32_FILE) (boot_disk_no : Z) (l : list (list Z * list Z)) : M st bool :=
  match l with
  | [] => ret true
  | (src, dst) :: rest =>
      let! ok := copy_file fuel fp0 boot_disk_no src dst in
      if ok then copy_files fuel fp0 boot_disk_no rest else ret false
  end.

(** The volume is made at the sector 2048 whatever [esp_start_lba] is; a
    failure to make it is returned as success. *)
Definition uefi_install (fuel : nat) (names : list (list Z)) (behind : list Z) (fp0 : FAT32_FILE)
    (boot_disk_no main_disk_no esp_start_lba esp_sectors total_sectors : Z) : M st bool :=
  let! r := run_iso (iso9660_mount boot_disk_no) in
  if negb (r =? 0) then ret false else
  let! ok := format_disk main_disk_no in
  if negb ok then ret false else
  run_fat (set_disk_number main_disk_no) ;;;
  let! ok := create_partitions behind (install_partitions main_disk_no esp_start_lba esp_sectors total_sectors names) in
  if negb ok then ret false else
  let! ok := run_fat (create_fat32_volume fuel ESP_START_LBA (u32 esp_sectors)) in
  if negb ok then ret true else
  let! ok := run_fat (fat32_mount main_disk_no esp_start_lba DATA_VOLUME) in
  if negb ok then ret false else
  let! ok := run_fat (f_mkdir fuel (Some dir_boot)) in
  if negb ok then ret false else
  let! ok := run_fat (f_mkdir fuel (Some dir_efi)) in
  if negb ok then ret false else
  let! ok := run_fat (f_mkdir fuel (Some dir_efi_boot)) in
  if negb ok then ret false else
  copy_files fuel fp0 boot_disk_no (zip iso_files files).
End installer.
