(* ===== verification/InstallerProps.v ===== *)
(** The installer: whatever it finds on the disks and wherever it stops, only
    the disk it installs to is written, in every run with defined behaviour. *)
From S2P Require Import Prelude CString Disk BlockDev FatBpb FatCluster FatMount FatDir FatFile Gpt Iso9660 Iso9660Props Vfs VfsProps Installer.

(** ** FAT32 code writes to its current disk only *)

Section fat.
Context {E : Type} {D : BlockDev E} {F : DiskFrame E} (d : Z).
Abbreviation fs := (fat_state E).

(** From a state where the current disk is [d], it stays the current one and
    the sectors of the other disks are kept. *)
Definition local (s s' : fs) : Prop :=
  disk_no s = d -> disk_no s' = d /\ forall d' l, d' <> d -> sector (dev s') d' l = sector (dev s) d' l.

#[global] Instance local_preorder : PreOrder local.
Proof.
  split.
  - by intros s H.
  - intros s1 s2 s3 H1 H2 Hd. destruct (H1 Hd) as [Hd2 Hs]. destruct (H2 Hd2) as [Hd3 Hs']. split; [done|].
    intros d' l Hne. by rewrite Hs', Hs.
Qed.

Lemma local_dev (s : fs) e : (forall d' l, d' <> disk_no s -> sector e d' l = sector (dev s) d' l) -> local s (set_dev e s).
Proof. intros H Hd. split; [done|]. intros d' l Hne. apply H. by rewrite Hd. Qed.

Lemma local_malloc n : preserves local (fs_malloc n).
Proof.
  intros s a s' H. unfold fs_malloc in H. destruct (malloc n (dev s)) as [ok e] eqn:Hm. simplify_eq.
  intros Hd. split; [done|]. intros d' l _. apply (malloc_frame _ _ _ _ Hm).
Qed.
Lemma local_free : preserves local fs_free.
Proof. intros s a s' [= _ <-] Hd. split; [done|]. intros d' l _. apply free_frame. Qed.
Lemma local_read lba n ok : preserves local (disk_read lba n ok).
Proof.
  intros s a s' H. unfold disk_read in H. destruct ok; cbn in H; [|by simplify_eq].
  destruct (kebla_disk_read _ _ _ _) as [r e] eqn:Hr. simplify_eq. apply local_dev. intros. apply (read_frame _ _ _ _ _ _ Hr).
Qed.
Lemma local_write lba n buf : preserves local (disk_write lba n buf).
Proof.
  intros s a s' H. unfold disk_write in H. destruct buf as [buf|]; [|by simplify_eq].
  destruct (zlen buf <? n * 512); [done|]. destruct (kebla_disk_write _ _ _ _ _) as [r e] eqn:Hr. simplify_eq.
  apply local_dev. intros d' l Hne. apply (write_frame _ _ _ _ _ _ _ Hr). by left.
Qed.
Lemma local_lift {A} (o : outcome A) : preserves local (lift o).
Proof. intros s a s' H. unfold lift in H. destruct o; cbn in H; by simplify_eq. Qed.
Lemma local_modify (f : fs -> fs) : (forall s, dev (f s) = dev s) -> (forall s, disk_no (f s) = disk_no s) ->
  preserves local (modify f).
Proof. intros He Hn. apply preserves_modify. intros s Hd. by rewrite Hn, He. Qed.
Lemma local_set_disk : preserves local (set_disk_number d).
Proof. apply preserves_modify. by intros s Hd. Qed.
#[local] Hint Resolve local_malloc local_free local_read local_write local_lift local_set_disk : keeps.
#[local] Hint Extern 1 (preserves local (modify _)) => apply local_modify; done : keeps.

(** Sectors and clusters. *)
Lemma local_read_sector lba ok : preserves local (fat32_read_sector lba ok).
Proof. unfold fat32_read_sector. keep. Qed.
Lemma local_write_sector lba b : preserves local (fat32_write_sector lba b).
Proof. unfold fat32_write_sector. keep. Qed.
Lemma local_read_sectors lba n ok : preserves local (fat32_read_sectors lba n ok).
Proof. unfold fat32_read_sectors. keep. Qed.
Lemma local_write_sectors lba n b : preserves local (fat32_write_sectors lba n b).
Proof. unfold fat32_write_sectors. keep. Qed.
#[local] Hint Resolve local_read_sector local_write_sector local_read_sectors local_write_sectors : keeps.
Lemma local_init_fat fuel a n : preserves local (initialize_fat_tables fuel a n).
Proof. unfold initialize_fat_tables, zero_fat_loop. keep. Qed.
Lemma local_zero_cluster c : preserves local (fat32_zero_cluster c).
Proof. unfold fat32_zero_cluster. keep. Qed.
Lemma local_read_cluster c b : preserves local (fat32_read_cluster c b).
Proof. unfold fat32_read_cluster. keep. Qed.
Lemma local_write_cluster c b : preserves local (fat32_write_cluster c b).
Proof. unfold fat32_write_cluster. keep. Qed.
Lemma local_location c : preserves local (fat_location c).
Proof. unfold fat_location. keep. Qed.
#[local] Hint Resolve local_init_fat local_zero_cluster local_read_cluster local_write_cluster local_location : keeps.
Lemma local_clear_cluster c : preserves local (fat32_clear_cluster c).
Proof. unfold fat32_clear_cluster. keep. Qed.
Lemma local_next c : preserves local (fat32_get_next_cluster c).
Proof. unfold fat32_get_next_cluster. keep. Qed.
Lemma local_set_next c n : preserves local (fat32_set_next_cluster c n).
Proof. unfold fat32_set_next_cluster. keep. Qed.
#[local] Hint Resolve local_clear_cluster local_next local_set_next : keeps.
Lemma local_allocate : preserves local fat32_allocate_cluster.
Proof. unfold fat32_allocate_cluster. keep. Qed.
#[local] Hint Resolve local_allocate : keeps.
Lemma local_append fuel c : preserves local (fat32_append_cluster fuel c).
Proof. unfold fat32_append_cluster. keep. Qed.
Lemma local_free_chain fuel c : preserves local (fat32_free_cluster_chain fuel c).
Proof. unfold fat32_free_cluster_chain. keep. Qed.
#[local] Hint Resolve local_append local_free_chain : keeps.

(** Volumes. *)
Lemma local_create_volume fuel a n : preserves local (create_fat32_volume fuel a n).
Proof. unfold create_fat32_volume. keep. Qed.
Lemma local_label l : preserves local (fat32_set_volume_label l).
Proof. unfold fat32_set_volume_label, find_label_slot. keep. Qed.
#[local] Hint Resolve local_create_volume local_label : keeps.
Lemma local_mount a l : preserves local (fat32_mount d a l).
Proof. unfold fat32_mount, fat32_load_fat_cache. keep. Qed.

(** Directories. *)
Lemma local_contiguous fuel c n : preserves local (fat32_find_contiguous_free_entries fuel c n).
Proof. unfold fat32_find_contiguous_free_entries. keep. Qed.
#[local] Hint Resolve local_mount local_contiguous : keeps.
Lemma local_create_entry fuel c n a f z : preserves local (fat32_create_dir_entry fuel c n a f z).
Proof. unfold fat32_create_dir_entry. keep. Qed.
Lemma local_init_dir c p : preserves local (fat32_init_directory c p).
Proof. unfold fat32_init_directory. keep. Qed.
#[local] Hint Resolve local_create_entry local_init_dir : keeps.
Lemma local_mkdir_internal fuel c n : preserves local (fat32_mkdir_internal fuel c n).
Proof. unfold fat32_mkdir_internal. keep. Qed.
Lemma local_exists_scan z n b l : preserves local (dir_exists_scan z n b l).
Proof. unfold dir_exists_scan. keep. Qed.
Lemma local_file_scan z n b l : preserves local (find_file_scan z n b l).
Proof. unfold find_file_scan. keep. Qed.
#[local] Hint Resolve local_exists_scan local_file_scan : keeps.
Lemma local_dir_exists fuel c n : preserves local (fat32_dir_exists fuel c n).
Proof. unfold fat32_dir_exists. keep. Qed.
Lemma local_find_dir fuel c n : preserves local (fat32_find_dir fuel c n).
Proof. unfold fat32_find_dir. keep. Qed.
Lemma local_find_file fuel c n : preserves local (fat32_find_file fuel c n).
Proof. unfold fat32_find_file. keep. Qed.
#[local] Hint Resolve local_mkdir_internal local_dir_exists local_find_dir local_find_file : keeps.
Lemma local_walk fuel b ts : forall c, preserves local (walk_tokens fuel b ts c).
Proof. induction ts as [|t ts IH]; intros c; cbn [walk_tokens]; keep. Qed.
#[local] Hint Resolve local_walk : keeps.
Lemma local_to_cluster fuel p : preserves local (fat32_path_to_cluster fuel p).
Proof. unfold fat32_path_to_cluster. keep. Qed.
#[local] Hint Resolve local_to_cluster : keeps.
Lemma local_parent fuel p : preserves local (resolve_parent fuel p).
Proof. unfold resolve_parent. keep. Qed.
#[local] Hint Resolve local_parent : keeps.
Lemma local_f_mkdir fuel p : preserves local (f_mkdir fuel p).
Proof. unfold f_mkdir, fat32_mkdir_root, fat32_split_path, copy_to_tmp. keep. Qed.

(** Files. *)
Lemma local_f_open fuel fp p m : preserves local (f_open fuel fp p m).
Proof. unfold f_open. keep. Qed.
Lemma local_f_close fp : preserves local (f_close fp).
Proof. unfold f_close, write_back. keep. Qed.
Lemma local_f_write fuel fp b n : preserves local (f_write fuel fp b n).
Proof. unfold f_write, walk_chain, next_or_append. keep. Qed.
Lemma local_f_stat fuel p : preserves local (f_stat fuel p).
Proof. unfold f_stat. keep. Qed.
End fat.

(** ** The installer *)

Definition device {E} (s : inst_state E) : E := dev (v_fat (n_vfs s)).

Section installer.
Context {E : Type} {D : BlockDev E} {F : DiskFrame E} {Md : Media E} {ML : MediaLaws E} (d : Z).
Abbreviation st := (inst_state E).


(** The sectors of the disks other than [d] are kept, from any state. *)
Definition others (s s' : st) : Prop := forall d' l, d' <> d -> sector (device s') d' l = sector (device s) d' l.
#[global] Instance others_preorder : PreOrder others.
Proof. split; [done|]. intros s1 s2 s3 H1 H2 d' l Hne. by rewrite H2, H1. Qed.

(** The same from a state where [d] is the current disk, which it stays. *)
Definition inst_local (s s' : st) : Prop := local d (v_fat (n_vfs s)) (v_fat (n_vfs s')).
#[global] Instance inst_local_preorder : PreOrder inst_local.
Proof. split; [intros s; unfold inst_local; done|]. intros s1 s2 s3 H1 H2. unfold inst_local in *. by etrans. Qed.

Lemma run_fat_inv {A} (m : M (fat_state E) A) s a s' : run_fat m s = Ret (a, s') ->
  m (v_fat (n_vfs s)) = Ret (a, v_fat (n_vfs s')).
Proof. unfold run_fat, run_vfs, on_fat. destruct (m _) as [[b f]| | |]; intros H; cbn in H; by simplify_eq. Qed.

Lemma local_run_fat {A} (m : M (fat_state E) A) : preserves (local d) m -> preserves inst_local (run_fat m).
Proof. intros Hm s a s' H%run_fat_inv. by apply (Hm _ _ _ H). Qed.

Lemma others_run_fat {A} (m : M (fat_state E) A) :
  (forall s a s', m s = Ret (a, s') -> forall d' l, d' <> d -> sector (dev s') d' l = sector (dev s) d' l) ->
  preserves others (run_fat m).
Proof. intros Hm s a s' H%run_fat_inv d' l Hne. by apply (Hm _ _ _ H). Qed.

Lemma run_iso_inv {A} (m : M (ist E) A) s a s' : preserves iso_keeps m -> run_iso m s = Ret (a, s') ->
  disk_no (v_fat (n_vfs s')) = disk_no (v_fat (n_vfs s)) /\ forall d' l, sector (device s') d' l = sector (device s) d' l.
Proof.
  intros Hm. unfold run_iso, run_vfs, on_iso. destruct (m _) as [[b i]| | |] eqn:Hr; intros H; cbn in H; simplify_eq.
  split; [done|]. intros d' l. by apply (Hm _ _ _ Hr).
Qed.

Lemma local_run_iso {A} (m : M (ist E) A) : preserves iso_keeps m -> preserves inst_local (run_iso m).
Proof. intros Hm s a s' [Hd Hs]%run_iso_inv; [|done]. intros H. rewrite Hd. split; [done|]. intros d' l _. apply Hs. Qed.
Lemma others_run_iso {A} (m : M (ist E) A) : preserves iso_keeps m -> preserves others (run_iso m).
Proof. intros Hm s a s' [_ Hs]%run_iso_inv; [|done]. intros d' l _. apply Hs. Qed.

(** What follows the choice of the disk. *)
Lemma others_after {A} (m : M st A) : preserves inst_local m -> preserves others (run_fat (set_disk_number d) ;;; m).
Proof.
  intros Hm s a s' H. unfold bind, run_fat, run_vfs, on_fat in H. cbn in H.
  destruct (Hm _ _ _ H eq_refl) as [_ Hs]. exact Hs.
Qed.

(** The partition table. *)
Definition gpt_local (s s' : part_state E) : Prop := local d (pfs s) (pfs s').
#[global] Instance gpt_local_preorder : PreOrder gpt_local.
Proof. split; [intros s; unfold gpt_local; done|]. intros s1 s2 s3 H1 H2. unfold gpt_local in *. by etrans. Qed.

Lemma local_on_fs {A} (m : M (fat_state E) A) : preserves (local d) m -> preserves gpt_local (on_fs m).
Proof. intros Hm s a s' H. unfold on_fs in H. destruct (m _) as [[b f]| | |] eqn:Hr; cbn in H; simplify_eq. by apply (Hm _ _ _ Hr). Qed.
Lemma local_upd i f : preserves gpt_local (upd_partition i f).
Proof. intros s a s' H. unfold upd_partition in H. repeat case_match; simplify_eq. unfold gpt_local. done. Qed.
#[local] Hint Resolve local_malloc local_free local_read local_write local_upd : keeps.
#[local] Hint Extern 1 (preserves gpt_local (on_fs _)) => apply local_on_fs : keeps.
#[local] Hint Extern 1 (preserves gpt_local (modify _)) => apply preserves_modify; intros s; unfold gpt_local; done : keeps.

Lemma local_header a g p b : preserves (local d) (create_gpt_header a g p b).
Proof. unfold create_gpt_header. keep. Qed.
Lemma local_gpt_entry a b x y z n : preserves (local d) (create_gpt_partition_entry a b x y z n).
Proof. unfold create_gpt_partition_entry. keep. Qed.
#[local] Hint Resolve local_header local_gpt_entry : keeps.
Lemma local_table a e b : preserves (local d) (write_table a e b).
Proof. unfold write_table. keep. Qed.
#[local] Hint Resolve local_table : keeps.
Lemma local_partition p a n g t m b : preserves gpt_local (create_partition p a n g t m b).
Proof. unfold create_partition. keep. Qed.
Lemma local_run_gpt {A} (m : M (part_state E) A) : preserves gpt_local m -> preserves inst_local (run_gpt m).
Proof.
  intros Hm s a s' H. unfold run_gpt in H. destruct (m _) as [[b p]| | |] eqn:Hr; cbn in H; simplify_eq. by apply (Hm _ _ _ Hr).
Qed.
Lemma local_partitions b l : preserves inst_local (create_partitions b l).
Proof.
  induction l as [|p l IH]; cbn [create_partitions]; keep. apply local_run_gpt, local_partition.
Qed.

(** The copies. *)
#[local] Hint Extern 1 (preserves inst_local (run_fat _)) => apply local_run_fat : keeps.
#[local] Hint Extern 1 (preserves inst_local (run_iso _)) => apply local_run_iso : keeps.
#[local] Hint Resolve keeps_mount keeps_stat keeps_open keeps_iso_read keeps_close local_partitions
  local_f_open local_f_close local_f_write local_f_mkdir local_create_volume local_mount : keeps.
Lemma local_copy_file fuel fp b x y : preserves inst_local (copy_file fuel fp b x y).
Proof. unfold copy_file. keep. Qed.
#[local] Hint Resolve local_copy_file : keeps.
Lemma local_copy_files fuel fp b l : preserves inst_local (copy_files fuel fp b l).
Proof. induction l as [|[x y] l IH]; cbn [copy_files]; keep. Qed.
#[local] Hint Resolve local_copy_files : keeps.

(** Erasing. *)
Definition vfs_others (s s' : vfs_state E) : Prop :=
  forall d' l, d' <> d -> sector (dev (v_fat s')) d' l = sector (dev (v_fat s)) d' l.
#[global] Instance vfs_others_preorder : PreOrder vfs_others.
Proof. split; [done|]. intros s1 s2 s3 H1 H2 d' l Hne. by rewrite H2, H1. Qed.
Lemma others_write lba n b : preserves vfs_others (write_disk d lba n b).
Proof.
  intros s a s' H d' l Hne. unfold write_disk in H. destruct (kebla_disk_write _ _ _ _ _) as [r e] eqn:Hr. simplify_eq.
  apply (write_frame _ _ _ _ _ _ _ Hr). by left.
Qed.
Lemma others_malloc n : preserves vfs_others (on_fat (fs_malloc n)).
Proof.
  intros s a s' H d' l _. unfold on_fat, fs_malloc in H. destruct (malloc n _) as [ok e] eqn:Hm. cbn in H. simplify_eq.
  apply (malloc_frame _ _ _ _ Hm).
Qed.
Lemma others_free : preserves vfs_others (on_fat fs_free).
Proof. intros s a s' [= _ <-] d' l _. apply free_frame. Qed.
Lemma others_vdisk i : preserves vfs_others (vdisk i).
Proof. intros s a s' H. unfold vdisk in H. repeat case_match; by simplify_eq. Qed.
#[local] Hint Resolve others_write others_malloc others_free others_vdisk : keeps.
Lemma others_erase : preserves vfs_others (erase_disk d).
Proof. unfold erase_disk, too_big, no_disks. keep. Qed.
Lemma others_run_vfs {A} (m : M (vfs_state E) A) : preserves vfs_others m -> preserves others (run_vfs m).
Proof. intros Hm s a s' H. unfold run_vfs in H. destruct (m _) as [[b v]| | |] eqn:Hr; cbn in H; simplify_eq. exact (Hm _ _ _ Hr). Qed.
#[local] Hint Resolve others_erase : keeps.
#[local] Hint Extern 1 (preserves others (run_iso _)) => apply others_run_iso : keeps.
#[local] Hint Extern 1 (preserves others (run_vfs _)) => apply others_run_vfs : keeps.

Lemma uefi_install_others fuel names behind fp boot a n t : preserves others (uefi_install fuel names behind fp boot d a n t).
Proof.
  unfold uefi_install, format_disk.
  do 2 (apply preserves_bind; [typeclasses eauto | keep | intros ?]; destruct (negb _); [keep|]).
  apply others_after. keep.
Qed.

Lemma local_all_present fuel l : preserves inst_local (all_present fuel l).
Proof. induction l as [|p l IH]; cbn [all_present]; keep. apply local_run_fat, local_f_stat. Qed.
Lemma verify_others fuel a : preserves others (verify_installation fuel d a).
Proof.
  unfold verify_installation. apply others_after. keep. apply local_all_present.
Qed.
End installer.

(** The boot disk's sectors do not fit the buffer of the mount, the first thing
    the installer does. *)
Lemma install_overflows {E : Type} {D : BlockDev E} {Md : Media E} (s : inst_state E) l disk e
    fuel names behind fp boot_disk main_disk esp_start esp_sectors total :
  v_disks (n_vfs s) = Some l -> l !! Z.to_nat boot_disk = Some disk -> 0 <= boot_disk < v_count (n_vfs s) ->
  dtype disk = DISK_TYPE_SATAPI -> context disk <> 0 ->
  malloc ISO_BLOCK_SIZE (device s) = (true, e) -> wide ISO_BLOCK_SIZE boot_disk 16 4 e ->
  uefi_install fuel names behind fp boot_disk main_disk esp_start esp_sectors total s = Undef.
Proof.
  intros Hl Hd Hn Ht Hx Hm Hw. unfold uefi_install, bind at 1, run_iso, run_vfs, on_iso.
  destruct (init_overflows (mk_ist (device s) (v_disks (n_vfs s)) (v_count (n_vfs s)) (v_iso_live (n_vfs s))) l boot_disk disk e)
    as [_ Ho]; try done.
  unfold device in Ho. by rewrite Ho.
Qed.

(** C13 Looking for an installation, and looking for one and installing where
    there is none, write to no disk but the one installed to: whatever the disks
    hold, whatever the size of their sectors and wherever the code gives up, the
    optical disk and every other disk keep all their sectors.  This is said of
    the runs whose behaviour is defined.  Installing from a disc whose sectors
    do not fit the buffer of the mount, four of them in 2048 bytes, is not one of
    them, which is the last part; the SATAPI driver delivers 2048 bytes for a
    sector.  The disk installed to is one with the 512-byte sectors of the SATA
    driver, which the buffers of the FAT32 code are made for. *)
Theorem install_other_disks {E : Type} {D : BlockDev E} {F : DiskFrame E} {Md : Media E} {ML : MediaLaws E}
    fuel names behind fp boot_disk main_disk esp_start esp_sectors total verify_lba (s : inst_state E) :
  let install := uefi_install fuel names behind fp boot_disk main_disk esp_start esp_sectors total in
  let kept (s' : inst_state E) := forall d l, d <> main_disk -> sector (device s') d l = sector (device s) d l in
  (forall r s', verify_installation fuel main_disk verify_lba s = Ret (r, s') -> kept s') /\
  (forall r s', (let! present := verify_installation fuel main_disk verify_lba in
                 if present then ret true else install) s = Ret (r, s') -> kept s') /\
  (forall l disk e, v_disks (n_vfs s) = Some l -> l !! Z.to_nat boot_disk = Some disk ->
    0 <= boot_disk < v_count (n_vfs s) -> dtype disk = DISK_TYPE_SATAPI -> context disk <> 0 ->
    malloc ISO_BLOCK_SIZE (device s) = (true, e) -> wide ISO_BLOCK_SIZE boot_disk 16 4 e -> install s = Undef).
Proof.
  intros install kept. split_and!.
  - intros r s'. exact (verify_others main_disk fuel verify_lba s r s').
  - enough (preserves (others main_disk) (let! present := verify_installation fuel main_disk verify_lba in
      if present then ret true else install)) as H by exact (H s).
    apply preserves_bind; [typeclasses eauto | apply verify_others |].
    intros []; [apply preserves_ret; typeclasses eauto | apply uefi_install_others].
  - intros. by eapply install_overflows.
Qed.

(** ** Example *)
Module SmallInstall.
Import RamDisk SmallVfs.

(** A directory record, with the fields the driver reads. *)
Definition rec (id : list Z) (sec len flags : Z) : list Z :=
  [33 + zlen id; 0] ++ le_bytes 4 sec ++ replicate 4 0 ++ le_bytes 4 len ++ replicate 4 0 ++ replicate 7 0 ++ [flags] ++
  replicate 6 0 ++ [zlen id] ++ id.
Definition name_of (path : list Z) : list Z := List.last (fields (S (length path)) [47] path) [].
Definition dir_sector (l : list (list Z)) : list Z := take 512 (mjoin l ++ replicate 512 0).
Definition file_sector (c : Z) : list Z := replicate 512 c.

(** An image with sectors of 512 bytes: the root, /BOOT with three files, /EFI
    and /EFI/BOOT with one. *)
Definition descriptor : list Z :=
  splice 166 (le_bytes 4 512) (splice 158 (le_bytes 4 30) (splice 128 (le_bytes 2 512) (splice 80 (le_bytes 4 60)
    ([1; 67; 68; 48; 48; 49] ++ replicate 2042 0)))).
Definition iso_file_rec (i : nat) (sec len : Z) : list Z := rec (name_of (nth i iso_files [])) sec len 0.
Definition image : gmap (Z * Z) (list Z) :=
  foldr (fun '(l, b) m => ram_store 0 l 1 b m) (ram_store 0 16 4 descriptor ∅)
    [(30, dir_sector [rec [66; 79; 79; 84] 31 512 2; rec [69; 70; 73] 32 512 2]);
     (31, dir_sector [iso_file_rec 0 40 512; iso_file_rec 1 41 100; iso_file_rec 2 42 7]);
     (32, dir_sector [rec [66; 79; 79; 84] 33 512 2]);
     (33, dir_sector [iso_file_rec 3 43 300]);
     (40, file_sector 1); (41, file_sector 2); (42, file_sector 3); (43, file_sector 4)].

Definition start : inst_state ram :=
  mk_inst (mk_vfs (FatBpb.mk_fs (mk_ram image 5400 true) 0 None 0 0 2 0)
    (Some [mk_disk true DISK_TYPE_SATAPI 512 60 0 0 0 0x1000; mk_disk true DISK_TYPE_AHCI_SATA 512 5400 0 0 0 0x1080]) 2 0 ∅ 1)
    0 None 0.

(** A second disk without an installation gets one, the files with their
    bytes, and is found installed then; disk 0 is as it was. *)
Definition session : M (inst_state ram) bool :=
  let! present := verify_installation 2000 1 2048 in
  if present then ret true else uefi_install 2000 [[]; []] (replicate 420 0) FAT32_FILE_ZERO 0 1 2048 600 5400.
Definition read_back : M (inst_state ram) (bool * list Z) :=
  let! present := verify_installation 2000 1 2048 in
  let! '(_, f) := run_fat (f_open 2000 FAT32_FILE_ZERO (Some (nth 3 files [])) 1) in
  let! '(_, b, _, _) := run_fat (f_read 2000 f (replicate 400 0) 400) in
  ret (present, take 301 b).

(** A disc with sectors of 2048 bytes. *)
Definition disc : inst_state SmallIso.cd := mk_inst disc_start 0 None 0.

Lemma install_other_disks_witness :
  (exists s', session start = Ret (true, s') /\ forall d l, d <> 1 -> sector (device s') d l = sector (device start) d l) /\
  uefi_install 9 [[]; []] [] FAT32_FILE_ZERO 0 1 2048 600 5400 disc = Undef.
Proof.
  split.
  - assert (Hr : (match session start with Ret (b, _) => b | _ => false end) = true) by (vm_compute; reflexivity).
    destruct (session start) as [[r s']| | |] eqn:Hs; try discriminate Hr. subst r. exists s'. split; [reflexivity|].
    exact (proj1 (proj2 (install_other_disks 2000 [[]; []] (replicate 420 0) FAT32_FILE_ZERO 0 1 2048 600 5400 2048 start)) true s' Hs).
  - apply (proj2 (proj2 (install_other_disks 9 [[]; []] [] FAT32_FILE_ZERO 0 1 2048 600 5400 2048 disc))
      [SmallIso.disk0] SmallIso.disk0 SmallIso.cd0); try done.
    eexists _, SmallIso.cd0. split; [reflexivity | vm_compute; reflexivity].
Defined.

Lemma session_installs :
  match (session ;;; read_back) start with
  | Ret (r, _) => r = (true, replicate 300 4 ++ [0])
  | _ => False
  end.
Proof. vm_compute. reflexivity. Qed.
End SmallInstall.
