(* ===== verification/Ethernet.v ===== *)
(** The Ethernet driver (kernel/src/driver/network/ethernet/ethernet_i217.c
    and utility.c).

    [Nic] is the card: its registers, read and written in memory or through
    two ports, and [nic_step], what it does to the memory between two looks of
    the processor at it; kmalloc is among the operations.  Descriptors are 16
    bytes of memory: the address of the buffer, a length, and a status in byte
    12 (the command of a transmit descriptor is byte 11).  Packets received are
    dropped by the code.  Messages are left out. *)
From S2P Require Import Prelude Ahci.

Definition REG_CTRL : Z := 0x0000.
Definition REG_STATUS : Z := 0x0008.
Definition REG_EEPROM : Z := 0x0014.
Definition REG_IMASK : Z := 0x00D0.
Definition REG_RCTRL : Z := 0x0100.
Definition REG_RXDESCLO : Z := 0x2800.
Definition REG_RXDESCHI : Z := 0x2804.
Definition REG_RXDESCLEN : Z := 0x2808.
Definition REG_RXDESCHEAD : Z := 0x2810.
Definition REG_RXDESCTAIL : Z := 0x2818.
Definition REG_TCTRL : Z := 0x0400.
Definition REG_TXDESCLO : Z := 0x3800.
Definition REG_TXDESCHI : Z := 0x3804.
Definition REG_TXDESCLEN : Z := 0x3808.
Definition REG_TXDESCHEAD : Z := 0x3810.
Definition REG_TXDESCTAIL : Z := 0x3818.
Definition REG_TIPG : Z := 0x0410.
Definition REG_RCTL : Z := 0x0100.
Definition REG_TCTL : Z := 0x0400.

Definition RCTL_EN : Z := 0x2.
Definition RCTL_SBP : Z := 0x4.
Definition RCTL_UPE : Z := 0x8.
Definition RCTL_MPE : Z := 0x10.
Definition RCTL_LBM_NONE : Z := 0.
Definition RTCL_RDMTS_HALF : Z := 0.
Definition RCTL_BAM : Z := 0x8000.
Definition RCTL_SECRC : Z := 0x4000000.
Definition RCTL_BSIZE_8192 : Z := Z.lor 0x20000 0x2000000.
Definition CMD_EOP : Z := 0x1.
Definition CMD_IFCS : Z := 0x2.
Definition CMD_RS : Z := 0x8.
Definition TCTL_EN : Z := 0x2.
Definition TCTL_PSP : Z := 0x8.
Definition TCTL_CT_SHIFT : Z := 4.
Definition TCTL_COLD_SHIFT : Z := 12.
Definition TCTL_RTLC : Z := 0x1000000.
Definition TSTA_DD : Z := 0x1.
Definition CTRL_SLU : Z := 0x40.
Definition CTRL_ASDE : Z := 0x20.
Definition CTRL_FD : Z := 0x1.
Definition E1000_NUM_RX_DESC : Z := 32.
Definition E1000_NUM_TX_DESC : Z := 8.

Class Nic (E : Type) := {
  mmio_write32 : Z -> Z -> E * ram -> E * ram;
  mmio_read32 : Z -> E * ram -> Z * (E * ram);
  mmio_read8 : Z -> E * ram -> Z * (E * ram);
  nic_outl : Z -> Z -> E * ram -> E * ram;
  nic_inl : Z -> E * ram -> Z * (E * ram);
  nic_step : E * ram -> E * ram;
  nic_kmalloc : Z -> E * ram -> Z * (E * ram)
}.

Record eth (E : Type) := mk_eth {
  card : E * ram;
  bar_type : Z; io_base : Z; mem_base : Z; eerprom_exists : bool; mac : list Z;
  rx_descs : list Z; tx_descs : list Z; rx_cur : Z; tx_cur : Z
}.
Arguments mk_eth {E}.
Arguments card {E}.
Arguments bar_type {E}.
Arguments io_base {E}.
Arguments mem_base {E}.
Arguments eerprom_exists {E}.
Arguments mac {E}.
Arguments rx_descs {E}.
Arguments tx_descs {E}.
Arguments rx_cur {E}.
Arguments tx_cur {E}.

Section ethernet.
Context {E : Type} `{Nic E}.
Abbreviation st := (eth E).

Definition set_card (c : E * ram) (s : st) : st :=
  mk_eth c (bar_type s) (io_base s) (mem_base s) (eerprom_exists s) (mac s) (rx_descs s) (tx_descs s) (rx_cur s) (tx_cur s).
Definition set_eeprom (b : bool) (s : st) : st :=
  mk_eth (card s) (bar_type s) (io_base s) (mem_base s) b (mac s) (rx_descs s) (tx_descs s) (rx_cur s) (tx_cur s).
Definition set_mac (l : list Z) (s : st) : st :=
  mk_eth (card s) (bar_type s) (io_base s) (mem_base s) (eerprom_exists s) l (rx_descs s) (tx_descs s) (rx_cur s) (tx_cur s).
Definition set_rx (l : list Z) (cur : Z) (s : st) : st :=
  mk_eth (card s) (bar_type s) (io_base s) (mem_base s) (eerprom_exists s) (mac s) l (tx_descs s) cur (tx_cur s).
Definition set_tx (l : list Z) (cur : Z) (s : st) : st :=
  mk_eth (card s) (bar_type s) (io_base s) (mem_base s) (eerprom_exists s) (mac s) (rx_descs s) l (rx_cur s) cur.

Definition do_card (f : E * ram -> E * ram) : M st unit := modify (fun s => set_card (f (card s)) s).
Definition ask_card (f : E * ram -> Z * (E * ram)) : M st Z := fun s =>
  let '(v, c) := f (card s) in Ret (v, set_card c s).
Definition write32 (p_address p_value : Z) : M st unit := do_card (mmio_write32 p_address p_value).
Definition read32 (p_address : Z) : M st Z := ask_card (mmio_read32 p_address).
(** Plain memory. *)
Definition load8 (a : Z) : M st Z := gets (fun s => (card s).2 a).
Definition store (a : Z) (l : list Z) : M st unit :=
  modify (fun s => set_card ((card s).1, st_bytes a l (card s).2) s).
Definition desc_at (l : list Z) (i : Z) : M st Z := fun s =>
  match l !! Z.to_nat i with Some d => if 0 <=? i then Ret (d, s) else Undef | None => Undef end.

Definition writeCommand (p_address p_value : Z) : M st unit :=
  let! t := gets bar_type in
  if t =? 0 then let! b := gets mem_base in write32 (u64 (b + p_address)) p_value
  else
    let! b := gets io_base in
    do_card (nic_outl b p_address) ;;; do_card (nic_outl (u16 (b + 4)) p_value).

Definition readCommand (p_address : Z) : M st Z :=
  let! t := gets bar_type in
  if t =? 0 then let! b := gets mem_base in read32 (u64 (b + p_address))
  else
    let! b := gets io_base in
    do_card (nic_outl b p_address) ;;; ask_card (nic_inl (u16 (b + 4))).

Definition detectEEProm : M st bool :=
  writeCommand REG_EEPROM 0x1 ;;;
  let! _ := for_range 1000 0 (fun _ =>
    let! found := gets eerprom_exists in
    if found then ret (Some tt) else
    let! val := readCommand REG_EEPROM in
    modify (set_eeprom (negb (Z.land val 0x10 =? 0))) ;;; ret None) in
  gets eerprom_exists.

(** The loops wait for the card for ever. *)
Definition eepromRead (fuel : nat) (addr : Z) : M st Z :=
  let! found := gets eerprom_exists in
  let '(shift, ready) := if found then (8, 16) else (2, 2) in
  writeCommand REG_EEPROM (Z.lor 1 (u32 (Z.shiftl addr shift))) ;;;
  let! tmp := iter_fuel fuel (fun _ =>
    let! tmp := readCommand REG_EEPROM in
    ret (if Z.land tmp ready =? 0 then inl tt else inr tmp)) tt in
  ret (Z.land (Z.shiftr tmp 16) 0xFFFF).

(** The address in memory is read byte by byte, with I/O ports too. *)
Definition readMACAddress (fuel : nat) : M st bool :=
  let! found := gets eerprom_exists in
  if found then
    let! w0 := eepromRead fuel 0 in
    let! w1 := eepromRead fuel 1 in
    let! w2 := eepromRead fuel 2 in
    modify (set_mac [Z.land w0 0xff; u8 (Z.shiftr w0 8); Z.land w1 0xff; u8 (Z.shiftr w1 8); Z.land w2 0xff; u8 (Z.shiftr w2 8)]) ;;;
    ret true
  else
    let! b := gets mem_base in
    let! first := read32 (u64 (b + 0x5400)) in
    if first =? 0 then ret false else
    let! _ := for_range (R := unit) 6 0 (fun i =>
      let! v := ask_card (mmio_read8 (u64 (b + 0x5400 + i))) in
      modify (fun s => set_mac (<[Z.to_nat i := v]> (mac s)) s) ;;; ret None) in
    ret true.

(** The transmit ring is first given the address of the receive ring with
    its halves exchanged; only the low half of the address of the receive ring
    is kept. *)
Definition rxinit : M st unit :=
  let! ptr := ask_card (nic_kmalloc (16 * E1000_NUM_RX_DESC + 16)) in
  let! _ := for_range (R := unit) (Z.to_nat E1000_NUM_RX_DESC) 0 (fun i =>
    let d := u64 (ptr + i * 16) in
    let! cur := gets rx_cur in
    let! l := gets rx_descs in
    modify (set_rx (<[Z.to_nat i := d]> l) cur) ;;;
    let! buf := ask_card (nic_kmalloc (8192 + 16)) in
    store d (le_bytes 8 buf) ;;;
    store (d + 12) [0] ;;; ret None) in
  writeCommand REG_TXDESCLO (u32 (Z.shiftr ptr 32)) ;;;
  writeCommand REG_TXDESCHI (Z.land ptr 0xFFFFFFFF) ;;;
  writeCommand REG_RXDESCLO (u32 ptr) ;;;
  writeCommand REG_RXDESCHI 0 ;;;
  writeCommand REG_RXDESCLEN (E1000_NUM_RX_DESC * 16) ;;;
  writeCommand REG_RXDESCHEAD 0 ;;;
  writeCommand REG_RXDESCTAIL (E1000_NUM_RX_DESC - 1) ;;;
  let! l := gets rx_descs in
  modify (set_rx l 0) ;;;
  writeCommand REG_RCTRL
    (Z.lor RCTL_EN (Z.lor RCTL_SBP (Z.lor RCTL_UPE (Z.lor RCTL_MPE (Z.lor RCTL_LBM_NONE (Z.lor RTCL_RDMTS_HALF
      (Z.lor RCTL_BAM (Z.lor RCTL_SECRC RCTL_BSIZE_8192)))))))).

Definition txinit : M st unit :=
  let! ptr := ask_card (nic_kmalloc (16 * E1000_NUM_TX_DESC + 16)) in
  let! _ := for_range (R := unit) (Z.to_nat E1000_NUM_TX_DESC) 0 (fun i =>
    let d := u64 (ptr + i * 16) in
    let! cur := gets tx_cur in
    let! l := gets tx_descs in
    modify (set_tx (<[Z.to_nat i := d]> l) cur) ;;;
    store d (le_bytes 8 0) ;;;
    store (d + 11) [0] ;;;
    store (d + 12) [TSTA_DD] ;;; ret None) in
  writeCommand REG_TXDESCHI (u32 (Z.shiftr ptr 32)) ;;;
  writeCommand REG_TXDESCLO (Z.land ptr 0xFFFFFFFF) ;;;
  writeCommand REG_TXDESCLEN (E1000_NUM_TX_DESC * 16) ;;;
  writeCommand REG_TXDESCHEAD 0 ;;;
  writeCommand REG_TXDESCTAIL 0 ;;;
  let! l := gets tx_descs in
  modify (set_tx l 0) ;;;
  writeCommand REG_TCTRL
    (Z.lor TCTL_EN (Z.lor TCTL_PSP (Z.lor (Z.shiftl 15 TCTL_CT_SHIFT) (Z.lor (Z.shiftl 64 TCTL_COLD_SHIFT) TCTL_RTLC)))) ;;;
  writeCommand REG_TCTRL 0x3003F0FA ;;;
  writeCommand REG_TIPG 0x0060200A.

Definition enableInterrupt : M st unit :=
  writeCommand REG_IMASK 0x1F6DC ;;;
  writeCommand REG_IMASK 0xFB ;;;
  let! _ := readCommand 0xc0 in ret tt.

(** [bar0] is the first base address register of the device. *)
Definition E1000 (bar0 : Z) : M st unit :=
  modify (fun s => mk_eth (card s) (Z.land bar0 1) (u16 (Z.land bar0 0xFFFFFFFC)) (Z.land bar0 0xFFFFFFF0) false (mac s)
    (rx_descs s) (tx_descs s) (rx_cur s) (tx_cur s)).

Definition startLink : M st unit :=
  let! ctrl := readCommand REG_CTRL in
  writeCommand REG_CTRL (Z.lor ctrl (Z.lor CTRL_SLU (Z.lor CTRL_ASDE CTRL_FD))) ;;;
  let! rctl := readCommand REG_RCTL in
  writeCommand REG_RCTL (Z.lor rctl RCTL_EN) ;;;
  let! tctl := readCommand REG_TCTL in
  writeCommand REG_TCTL (Z.lor tctl TCTL_EN) ;;;
  let! _ := readCommand REG_STATUS in ret tt.

Definition start (fuel : nat) (bar0 : Z) : M st bool :=
  E1000 bar0 ;;;
  let! _ := detectEEProm in
  let! ok := readMACAddress fuel in
  if negb ok then ret false else
  startLink ;;;
  let! _ := for_range (R := unit) 0x80 0 (fun i => writeCommand (0x5200 + i * 4) 0 ;;; ret None) in
  enableInterrupt ;;;
  rxinit ;;;
  txinit ;;;
  ret true.

Definition handleReceive (fuel : nat) : M st unit :=
  iter_fuel fuel (fun _ =>
    do_card nic_step ;;;
    let! cur := gets rx_cur in
    let! l := gets rx_descs in
    let! d := desc_at l cur in
    let! status := load8 (d + 12) in
    if Z.land status 1 =? 0 then ret (inr tt) else
    store (d + 12) [0] ;;;
    modify (set_rx l ((cur + 1) mod E1000_NUM_RX_DESC)) ;;;
    writeCommand REG_RXDESCTAIL cur ;;;
    ret (inl tt)) tt.

(** One cause of the interrupt is served. *)
Definition fire (fuel : nat) : M st unit :=
  writeCommand REG_IMASK 0x1 ;;;
  let! status := readCommand 0xc0 in
  if negb (Z.land status 0x04 =? 0) then startLink else
  if negb (Z.land status 0x10 =? 0) then ret tt else
  if negb (Z.land status 0x80 =? 0) then handleReceive fuel else ret tt.

Definition sendPacket (fuel : nat) (p_data p_len : Z) : M st Z :=
  let! cur := gets tx_cur in
  let! l := gets tx_descs in
  let! d := desc_at l cur in
  store d (le_bytes 8 p_data) ;;;
  store (d + 8) (le_bytes 2 p_len) ;;;
  store (d + 11) [Z.lor CMD_EOP (Z.lor CMD_IFCS CMD_RS)] ;;;
  store (d + 12) [0] ;;;
  let old_cur := u8 cur in
  modify (set_tx l ((cur + 1) mod E1000_NUM_TX_DESC)) ;;;
  let! cur := gets tx_cur in
  writeCommand REG_TXDESCTAIL cur ;;;
  let! _ := iter_fuel fuel (fun _ =>
    do_card nic_step ;;;
    let! d := desc_at l old_cur in
    let! status := load8 (d + 12) in
    ret (if Z.land status 0xff =? 0 then inl tt else inr tt)) tt in
  ret 0.
End ethernet.
