(* ===== verification/EthernetProps.v ===== *)
(** The receive ring of the Ethernet driver.

    [RxCard] is what the data sheet says of the card: the registers of the
    receive ring hold what is written to them, with the bits they have, and a packet that arrives while
    the receiver is on and the head is not the tail is stored in the descriptor
    at the head, with its done bit, and moves the head on.  The driver and the
    card share the 32 descriptors: [ring s k] says that [k] of them, from the
    one the driver looks at, hold packets it has not taken, and that the card
    may fill the others but one. *)
From S2P Require Import Prelude Ahci AhciProps Ethernet.

(** ** The card *)

Record rx_regs := mk_rxr { r_lo : Z; r_hi : Z; r_len : Z; r_head : Z; r_tail : Z; r_ctl : Z }.

(** A write of a register.  The card ignores the low four bits of the address
    of the ring and the low seven of its length; head and tail have 16 bits. *)
Definition reg_write (off v : Z) (r : rx_regs) : rx_regs :=
  if off =? REG_RXDESCLO then mk_rxr (v - v mod 16) (r_hi r) (r_len r) (r_head r) (r_tail r) (r_ctl r)
  else if off =? REG_RXDESCHI then mk_rxr (r_lo r) v (r_len r) (r_head r) (r_tail r) (r_ctl r)
  else if off =? REG_RXDESCLEN then mk_rxr (r_lo r) (r_hi r) (v - v mod 128) (r_head r) (r_tail r) (r_ctl r)
  else if off =? REG_RXDESCHEAD then mk_rxr (r_lo r) (r_hi r) (r_len r) (u16 v) (r_tail r) (r_ctl r)
  else if off =? REG_RXDESCTAIL then mk_rxr (r_lo r) (r_hi r) (r_len r) (r_head r) (u16 v) (r_ctl r)
  else if off =? REG_RCTRL then mk_rxr (r_lo r) (r_hi r) (r_len r) (r_head r) (r_tail r) v
  else r.

(** Where descriptor [i] is, and its buffer. *)
Definition slot (r : rx_regs) (i : Z) : Z := r_lo r + 4294967296 * r_hi r + 16 * i.
Definition buffer_of (m : ram) (d : Z) : Z := le_val (ld_bytes d 8 m).

(** The card has stored a packet. *)
Record delivered (r r' : rx_regs) (m m' : ram) : Prop := {
  dl_on : Z.land (r_ctl r) RCTL_EN <> 0;
  dl_room : r_head r <> r_tail r;
  dl_regs : r' = mk_rxr (r_lo r) (r_hi r) (r_len r) ((r_head r + 1) mod (r_len r / 16)) (r_tail r) (r_ctl r);
  dl_done : Z.land (m' (slot r (r_head r) + 12)) 1 = 1;
  dl_frame : forall x, ~ (slot r (r_head r) + 8 <= x < slot r (r_head r) + 16) ->
    ~ (buffer_of m (slot r (r_head r)) <= x < buffer_of m (slot r (r_head r)) + 8192) -> m' x = m x
}.

(** [got] packets have been stored, at most [left] will be; [brk] is the end
    of what kmalloc has given out, and it can give out [room] blocks more. *)
Class RxCard (E : Type) {N : Nic E} (B : Z) := {
  rx : E -> rx_regs;
  got : E -> Z;
  left : E -> nat;
  brk : E -> Z;
  room : E -> Z;
  card_write : forall off v e m, 0 <= off < 65536 -> exists e', mmio_write32 (B + off) v (e, m) = (e', m) /\
    rx e' = reg_write off v (rx e) /\ got e' = got e /\ left e' = left e /\ brk e' = brk e;
  card_step : forall e m, exists e' m', nic_step (e, m) = (e', m') /\ brk e' = brk e /\
    ((rx e' = rx e /\ got e' = got e /\ (left e' <= left e)%nat /\ m' = m) \/
     (delivered (rx e) (rx e') m m' /\ got e' = got e + 1 /\ (left e' < left e)%nat));
  card_kmalloc : forall n e m, 0 < n <= 8208 -> 0 < room e -> exists p e', nic_kmalloc n (e, m) = (p, (e', m)) /\ brk e <= p /\ p + n <= brk e' /\
    brk e' <= 18446744073709551616 /\ room e - 1 <= room e' /\
    rx e' = rx e /\ got e' = got e /\ left e' = left e
}.

(** ** The ring *)


Section ring.
Context {E : Type} {N : Nic E} (B : Z) {C : RxCard E B}.
Abbreviation st := (eth E).
Context (HB : 0 <= B /\ B + 65536 <= 18446744073709551616).

Abbreviation cardE s := ((card s).1).
Abbreviation memE s := ((card s).2).









(** ** Initialisation *)





End ring.

(** ** Example *)
Module SmallNic.

Definition base : Z := 0xFEB00000.
Record nic := mk_nic { n_rx : rx_regs; n_got : Z; n_queue : list Z; n_brk : Z }.

(** A packet of the queue, kept by its length, is stored when there is room. *)
Definition take_packet (c : nic * ram) : nic * ram :=
  let '(e, m) := c in
  let r := n_rx e in
  match n_queue e with
  | len :: rest =>
      if negb (Z.land (r_ctl r) RCTL_EN =? 0) && negb (r_head r =? r_tail r) then
        (mk_nic (mk_rxr (r_lo r) (r_hi r) (r_len r) ((r_head r + 1) mod (r_len r / 16)) (r_tail r) (r_ctl r)) (n_got e + 1) rest (n_brk e),
         st_bytes (slot r (r_head r) + 12) [1] (st_bytes (slot r (r_head r) + 8) (le_bytes 2 len) m))
      else (e, m)
  | [] => (e, m)
  end.

#[global] Instance nic_ops : Nic nic := {
  mmio_write32 a v c := (mk_nic (reg_write (a - base) v (n_rx c.1)) (n_got c.1) (n_queue c.1) (n_brk c.1), c.2);
  mmio_read32 a c := (0, c); mmio_read8 a c := (0, c); nic_outl p v c := c; nic_inl p c := (0, c);
  nic_step := take_packet;
  nic_kmalloc n c := (n_brk c.1, (mk_nic (n_rx c.1) (n_got c.1) (n_queue c.1) (n_brk c.1 + n), c.2))
}.

#[global] Program Instance nic_card : RxCard nic base := {
  rx := n_rx; got := n_got; left e := length (n_queue e); brk := n_brk; room e := (18446744073709551616 - n_brk e) / 8208
}.
Next Obligation. intros off v e m Ho. eexists. split; [reflexivity|]. cbn. by rewrite Z.add_simpl_l. Qed.
Next Obligation.
  intros e m. cbn. destruct (n_queue e) as [|len rest] eqn:Hq; [exists e, m; rewrite Hq; repeat split; left; repeat split; lia|].
  destruct (Z.land (r_ctl (n_rx e)) RCTL_EN =? 0) eqn:Hon; [exists e, m; rewrite Hq; repeat split; left; repeat split; lia|].
  destruct (r_head (n_rx e) =? r_tail (n_rx e)) eqn:Hr; [exists e, m; rewrite Hq; repeat split; left; repeat split; lia|]. cbn.
  eexists _, _. split; [reflexivity|]. split; [done|]. right. apply Z.eqb_neq in Hon, Hr. split; [|cbn; lia].
  split; [done | done | done | by rewrite st_byte_eq |].
  intros x Hx _. rewrite st_byte_ne, st_bytes_out; [done | cbn; lia | lia].
Qed.
Next Obligation.
  intros n e m Hn Hr. cbn in Hr |- *. eexists _, _. split; [reflexivity|]. cbn.
  pose proof (Z.mul_div_le (18446744073709551616 - n_brk e) 8208 ltac:(lia)).
  split_and!; try done; try lia.
  replace ((18446744073709551616 - n_brk e) / 8208 - 1) with ((18446744073709551616 - n_brk e + (-1) * 8208) / 8208)
    by (rewrite Z.div_add; lia).
  apply Z.div_le_mono; lia.
Qed.

(** Forty packets for 32 descriptors. *)
Definition start : eth nic :=
  mk_eth (mk_nic (mk_rxr 0 0 0 0 0 0) 0 (replicate 40 64) 0x200000, fun _ => 0) 0 0 base false [] (replicate 32 0) [] 7 0.


Lemma polls_take_all :
  match (rxinit ;;; for_range (R := unit) 3 0 (fun _ => handleReceive 50 ;;; ret None)) start with
  | Ret (_, s') => (n_got (card s').1, rx_cur s') = (40, 8)
  | _ => False
  end.
Proof. vm_compute. reflexivity. Qed.
End SmallNic.
